(* ===== verification/_CoqProject ===== *)
-Q . S2P
Prelude.v
GoStrings.v
GoBytes.v
GoCrypto.v
GoTime.v
GoHttp.v
GoUrl.v
GoJson.v
GoJsonProps.v
MetaHeaders.v
Ledger.v
LongPoll.v
Storage.v
StorageProps.v
StorageApi.v
AzureBlob.v
AzureBlobProps.v
RestXml.v
S3.v
S3Gen.v
S3Props.v
Queue.v
QueueProps.v
QueueApi.v
AwsJson.v
AwsJsonProps.v
Sqs.v
SqsProps.v
Secrets.v
EventStream.v
EventStreamProps.v
KafkaWire.v
KafkaRecords.v
KafkaRecordsProps.v
KafkaServer.v
KafkaServerProps.v
SigV4.v
SigV4Props.v
NoSql.v
NoSqlProps.v
SecretsManager.v
SecretsManagerProps.v
DynamoDb.v
DynamoProps.v
PubSub.v
PubSubProps.v
AwsQuery.v
Ec2Query.v
PubSubApi.v
Sns.v
SqsReceive.v
SnsProps.v
Bearer.v
AzureSharedKey.v
Lifecycle.v
Rdbms.v
Rds.v
Cache.v
ElastiCache.v
Functions.v
ApiGateway.v
ProvisioningProps.v
Registry.v
OciRouter.v
OciRouterProps.v
Ecr.v
Dns.v
GoAes.v
Kms.v
AwsKms.v
Stores.v
Compute.v
ComputeProps.v
LoadBalancer.v
ElbV2.v
ElbV2Props.v
Ec2.v
Ec2Props.v
