(* ===== verification/Prelude.v ===== *)
(** * A verification library for shimanism

    shimanism serves one cloud's API from another cloud's services.  A frontend
    ([internal/<service>/frontends]) parses a cloud's wire protocol into calls of
    a neutral domain interface ([internal/<service>/domain]); a backend
    ([services/<service>/backends]) implements that interface.  In front of the
    frontends sit the signature verifiers.  This library models the parts with
    logic of their own: the domains and in-process backends of storage, queues,
    publish/subscribe, secrets, NoSQL tables, event streams, databases, caches,
    functions, API gateways, container images, DNS zones, keys, compute and load
    balancers; the frontends of S3, Azure Blob, SQS, SNS, DynamoDB, Secrets
    Manager, KMS, ECR, RDS, ElastiCache, Elastic Load Balancing and EC2 with the
    protocol runtimes below them (REST-XML, AWS JSON, AWS Query, EC2 Query); the
    Kafka server with its wire framing and record batches; the OCI registry
    router; and the AWS SigV4, Azure SharedKey and bearer-token verifiers.

    ** How the model is laid out

    Shared files.  Prelude: Go integers as [Z] with their wrap-around, times,
    [outcome] (a value, an error or a panic), bytes, copies of maps and slices,
    [sort.Strings] and [sort.Slice].  GoStrings and GoBytes: the parts of
    [strings], [strconv], [encoding/hex], [encoding/base64] and
    [encoding/binary] the program calls, executable.  GoCrypto: MD5, SHA-256 and
    HMAC, executable and tested on published vectors.  GoAes: AES-GCM, likewise.
    GoTime: calendar dates and the layouts of [time] that are printed or read.
    GoUrl and GoHttp: [net/url] (escapes, queries, forms) and the requests,
    headers and responses of [net/http].  GoJson: [encoding/json], a scanner, a
    parser, the decoding of structs, maps, pointers and byte slices as
    combinators, and the printer; GoJsonProps proves that a printed value parses
    back.  MetaHeaders: the headers that carry user metadata.

    Interfaces.  Ledger: a transition system whose operations balance what they
    put into and take out of a queue; the theorem about whole histories is
    proved once for it, and Queue and PubSub are instances.  LongPoll: the
    polling loop of both, with its termination theorem.  Lifecycle: backends
    whose operations finish in goroutines, with worlds that interleave the two;
    what holds in all interleavings is proved once for it, and Rdbms, Cache,
    Functions and ApiGateway are instances.  [Registry_] (in OciRouter): the
    domain interface the router is written against.  [Streams] (in
    KafkaServer): the domain interface the Kafka server is written against; the
    in-process log with a clock implements it.  [Storage_] with its laws
    [StorageLaws] (in StorageApi), [Queues_] (QueueApi), [Pubsub_] (PubSubApi),
    [NoSQL_] (NoSql), [Secrets_] (Secrets), [KMS_] (Kms), [RegistryAdmin_] (Ecr),
    [RDBMS_] (Rds), [Cache_] (ElastiCache), [LoadBalancers_] (ElbV2) and
    [Compute_] (Ec2): the domain interfaces that the frontends are written
    against, each with the in-process backend as an instance - for databases and
    caches the world of Lifecycle, whose goroutines run between the requests; the
    Azure Blob and S3 object theorems are proved from the laws alone.  [S3Xml] and [JsonRequest] are the decoders of XML and
    JSON request bodies; the first is a parameter, the second is implemented by
    GoJson for every type of the JSON services.  [CredentialStore] (in SigV4),
    [AccountStore] (in AzureSharedKey), [Kmsg] (in KafkaWire), [KmsgRecords] (in
    KafkaRecords) and [KafkaApi] (in KafkaServer) are the interfaces the program
    takes from its caller or from a third party.

    Components.  X.v holds the definitions, named after the Go functions, and
    XProps.v the lemmas, properties and witnesses; where there is no XProps.v
    they follow the definitions in X.v.
    - Storage: [internal/storage/domain], [services/storage/backends/inmem].
    - Queue: [internal/queue/domain], [services/queue/backends/inmem].
    - PubSub: [internal/pubsub/domain], [services/pubsub/backends/inmem].
    - Secrets: [internal/secrets/domain], [services/secrets/backends/inmem].
    - NoSql: [internal/nosql/domain], [services/nosql/backends/inmem].
    - EventStream: [internal/eventstream/domain],
      [services/eventstream/backends/inmem].
    - KafkaWire: [internal/eventstream/kafkawire/frame.go].
    - KafkaRecords and KafkaServer: [internal/eventstream/kafkaserver/server.go],
      the record-batch codec and the handlers with the connection loop.
    - Rdbms, Cache, Functions, ApiGateway, Dns, LoadBalancer, Kms, Compute:
      [internal/<service>/domain] and [services/<service>/backends/inmem] of
      rdbms, cache, functions, apigateway, dns, loadbalancer, kms and compute.
      Stores holds the lemmas on generated identifiers that LoadBalancer and
      Compute share.
      ProvisioningProps holds what Cache, Functions and ApiGateway share.
    - Registry: [internal/registry/domain], [services/registry/backends/inmem];
      OciRouter: [internal/registry/ocidistribution].
    - SigV4: [internal/sigv4verifier].  AzureSharedKey:
      [internal/azuresharedkey].  Bearer: [internal/gcpbearer] and
      [internal/azurebearer], two flavours of one definition, with the key sets.
    - RestXml: [internal/restxml]; S3Gen: [services/storage/gen/aws_s3.gen.go];
      S3: [internal/storage/frontends/aws_s3].  AzureBlob:
      [internal/storage/frontends/azure_blob].
    - AwsJson: [internal/awsjson], with in AwsJsonProps what the JSON services
      share: which handler a request reaches, what it decodes to, and runs of
      requests behind a verifier.  Sqs: [internal/queue/frontends/aws_sqs];
      DynamoDb: [internal/nosql/frontends/aws_dynamodb]; SecretsManager:
      [internal/secrets/frontends/aws_secretsmanager]; AwsKms:
      [internal/kms/frontends/aws_kms]; Ecr: [internal/registry/frontends/aws_ecr],
      its control plane and the credential in front of the OCI router; each with
      its generated file under [services/<service>/gen].
    - AwsQuery and Ec2Query: [internal/awsquery] and [internal/ec2query], with in
      AwsQuery the form fields and numbered lists that the generated handlers
      decode and the verifier that every [New] puts in front.  Sns:
      [internal/pubsub/frontends/aws_sns]; SqsReceive:
      [internal/pubsub/frontends/aws_sqs_receive]; Rds:
      [internal/rdbms/frontends/aws_rds]; ElastiCache:
      [internal/cache/frontends/aws_elasticache]; ElbV2:
      [internal/loadbalancer/frontends/aws_elbv2]; Ec2:
      [internal/compute/frontends/aws_ec2], with the flat lists, filters and
      permissions of EC2's forms; each with its generated file.

    ** How state and operations correspond to the code

    A backend is a record of the Go struct's maps, and each method a function
    from its arguments and the state to the new state and the Go results.  The
    mutex that every method holds makes a method one atomic step, so the
    interleavings of concurrent callers are the sequences of operations ([op],
    [run]); [ReceiveMessages] and [Receive], which release the lock between
    attempts, are loops whose environment may change the state in between.  A
    goroutine that sleeps before it changes the state is a [timer], which the
    operation returns and which may fire at any later moment.  What
    Go leaves open is an argument: the clock ([now]), the random bytes behind
    identifiers and handles, and the order of a range over a map where it can
    be observed.  [strconv.Quote] (the %q verb) is a function argument.  A
    pointer is modelled by its value where it has one owner at a time; byte
    slices and maps are values because the backends copy them at the boundary
    (the copies are in the model).

    A frontend's handler is a function from the request and the state of the
    service below to the new state and the response, or to no response where it
    panics; a receive that has not returned yet is a third outcome.  A response
    body is kept as the value that is encoded.  The adapter's methods are named
    [Adapter_<Method>]; the table of routes is a value built by the same
    registrations in the same order.

    ** What the theorems show

    - Functional contracts by refinement: secrets refine a vault of histories,
      NoSQL tables refine finite maps from composite keys, consumers of a
      partition read exactly the retained part of the history of produced
      records.
    - Nothing is lost: queue and subscription messages balance over every
      history, a publish reaches exactly its topic's subscriptions, leases are
      exclusive, receives hand out the right messages in order, only DeleteObject
      removes objects, offsets stay within the log, secret versions are immutable.
      No message expires: the retention period of a queue is stored and shown only.
    - Pagination: clients that follow the tokens of ListObjects, ListBuckets and
      ListTopics get every entry once; those that follow Scan's tokens do not.
      One case of ListObjects is excepted, and stated: with one key per page, no
      prefix and no start, a bucket that has an object with the empty key.
    - Invariants of all reachable states for storage, queues, publish/subscribe
      and event streams; errors leave the state alone and nothing panics, except
      where a theorem says so (the overflow in ListTopics).
    - Provisioning: however callers and goroutines interleave, once the goroutines
      have woken up nothing is left in a transitional status; snapshots restore,
      and the caches, functions and gateways are those of a catalogue that the
      sequence of calls determines.
    - The registry is content-addressed in every reachable state; what a client
      pushes in chunks over HTTP is what it pulls, exactly when the digest is
      right; the router parses back the paths that clients build.
    - Keys: every ciphertext decrypts again as long as its key is enabled, and a
      key whose deletion was scheduled never is.
    - DNS record sets and load balancers are maps with the expected keys; the
      compute backend keeps names unique and volumes attached to instances that
      exist, attachments are exclusive, and launches give what was asked for.
    - Round trips: objects, multipart uploads, Kafka requests and responses,
      record batches, committed offsets, registry uploads, ciphertexts.
    - The Kafka server end to end: a connection answers its requests in order
      and one answer each; responses mirror requests, topic IDs included except
      where acknowledgements are refused; what a produce request carries is
      appended to the log and what a fetch returns decodes to the records that
      retention has kept ([EventStreamProps.retained]);
      refused requests change nothing; no request but a fetch can make it panic
      (a fetch encodes, and batches above 2 GB are outside kmsg's laws).
    - Frontends from the bytes of a request to its answer: a client's session
      with DynamoDB refines a finite map, one with Secrets Manager the list of a
      secret's values, SQS messages and SNS publications arrive as they were
      sent, S3 and Azure Blob objects, listings and multipart uploads round trip,
      KMS ciphertexts decrypt whatever requests came between, the images of an ECR
      repository are an index of digests, the caches of an ElastiCache client a
      catalogue, a database created over RDS comes up whatever runs beside it, and
      a load balancer built from numbered form fields is the one that is described
      by its ARNs; an EC2 client's sessions are runs of a fleet of machines and
      disks, whatever other requests come between; what a verifier refuses changes
      nothing; every request is answered, with the error of the protocol where it
      fails; the REST-XML router picks the most specific route.
    - JSON texts of values whose strings are UTF-8 parse back, at any depth the
      decoder accepts.
    - Bearer tokens are accepted exactly when the signature and the claims are
      right, minted tokens are, and the cached key set refines the remote one;
      the handler behind the middleware is reached by an accepted token or by the
      environment's bypass, which is read for every request.
    - The verifiers accept exactly what they should (an "if and only if" each),
      an honestly signed request is accepted, the canonical query is injective;
      for SharedKey the strings to sign are written out beside the code's builders.
      The gaps are theorems too: the unchecked content hash, the clock check far in
      the future, the SharedKeyLite coverage, the dependence on map order.
    - The specifications that a dispatcher or a parser is compared with are stated
      without its helpers: the account segment of a Blob path, the byte ranges of
      RFC 9110 as far as the code takes them, the statuses and engine names of RDS
      and ElastiCache.

    ** Bounds and fuel

    Machine integers wrap where the code can overflow them (int64 offsets,
    delivery counts, durations, uint64 versions, int additions on tokens).  Fuel:
    the polls take a number of attempts, and [poll_returns] shows that ten per
    second of waiting and one more are enough when attempts are 100 ms apart;
    the Kafka tag loop has the payload's length as fuel, and [DecodeRequest_safe]
    shows that it suffices; string scanners have the string's length.  The record
    and batch decoders have the payload's length ([decodeRecordBatches_sound]);
    the search for a record's length takes two turns ([encodeRecord_two]); the
    connection loop takes one turn per four bytes of input
    ([ServeConn_answers_in_order]).  Identifiers that count up are 64-bit: the
    theorems about sequences of operations assume fewer than 2^63 of them.

    ** What is not modelled

    The frontends of the other clouds, the AWS frontends of functions, gateways,
    DNS and Kafka clusters, the backends that call cloud SDKs or Kubernetes, the
    code generators and the commands.  Of the modelled frontends: the encoding of responses (XML, JSON,
    the JSON number of an EpochTime), the decoding of XML bodies (the interface
    [S3Xml]), the texts of the JSON decoder's errors (an argument), request
    fields that the adapters never read (decoded for their errors, then
    dropped), and other callers between two domain calls of one request.  The
    arithmetic of RSA is an argument of the bearer verifiers.  [ToLower] and
    [ToUpper] are those of ASCII unless they are arguments; memory exhaustion
    and the SigV4 debug print are left out. *)

From Stdlib Require Export Lia ZArith.
From Stdlib Require Import Ascii Strings.Byte.
From stdpp Require Export base numbers sorting strings gmap fin_maps list.


#[export] Set Default Goal Selector "!".
Open Scope Z_scope.

(** ** Go machine integers

    A Go integer is a [Z]; an operation that can leave its type's range is
    followed by the wrap-around of the type. *)

Definition wrap_u (w z : Z) : Z := z mod 2 ^ w.
Definition wrap_s (w z : Z) : Z := (z + 2 ^ (w - 1)) mod 2 ^ w - 2 ^ (w - 1).

Definition in_u (w z : Z) : Prop := 0 <= z < 2 ^ w.
Definition in_s (w z : Z) : Prop := - 2 ^ (w - 1) <= z < 2 ^ (w - 1).

Lemma wrap_u_small w z : in_u w z → wrap_u w z = z.
Proof. intros H. unfold wrap_u, in_u in *. apply Z.mod_small. lia. Qed.

Lemma pow2_half w : 1 <= w → 2 ^ w = 2 * 2 ^ (w - 1).
Proof. intros. rewrite <-Z.pow_succ_r by lia. f_equal. lia. Qed.

Lemma wrap_s_small w z : 1 <= w → in_s w z → wrap_s w z = z.
Proof.
  intros Hw H. unfold wrap_s, in_s in *. pose proof (pow2_half w Hw).
  rewrite Z.mod_small by lia. lia.
Qed.

Lemma wrap_s_range w z : 1 <= w → in_s w (wrap_s w z).
Proof.
  intros Hw. unfold wrap_s, in_s. pose proof (pow2_half w Hw).
  pose proof (Z.pow_pos_nonneg 2 (w - 1)).
  pose proof (Z.mod_pos_bound (z + 2 ^ (w - 1)) (2 ^ w)). lia.
Qed.

Lemma wrap_u_range w z : 0 <= w → in_u w (wrap_u w z).
Proof.
  intros Hw. unfold wrap_u, in_u. apply Z.mod_pos_bound.
  apply Z.pow_pos_nonneg; lia.
Qed.

(** ** Time

    A [time.Time] is the number of nanoseconds since the Unix epoch; the zero
    [time.Time{}] is January 1 of year 1.  A [time.Duration] is an int64 of
    nanoseconds. *)

Abbreviation Time := Z (only parsing).
Abbreviation Duration := Z (only parsing).

Definition zeroTime : Time := -62135596800 * 1000000000.
Definition Millisecond : Duration := 1000000.
Definition Second : Duration := 1000000000.
Definition Minute : Duration := 60 * Second.
Definition Hour : Duration := 60 * Minute.

(** [time.Duration(n) * time.Second], an int64 product. *)
Definition seconds (n : Z) : Duration := wrap_s 64 (n * Second).

Lemma seconds_small n : in_s 64 (n * Second) → seconds n = n * Second.
Proof. intros. by apply wrap_s_small. Qed.

(** ** Results

    What a Go call that returns [(T, error)] gives: a value, an error, or a
    run-time panic (nil dereference, slice bounds out of range). *)

Inductive outcome (E A : Type) : Type :=
  | Ok (a : A)
  | Err (e : E)
  | Panic.
Arguments Ok {E A} a.
Arguments Err {E A} e.
Arguments Panic {E A}.

Definition obind {E A B} (o : outcome E A) (k : A → outcome E B) : outcome E B :=
  match o with Ok a => k a | Err e => Err e | Panic => Panic end.

Declare Scope go_scope.
Delimit Scope go_scope with go.
Notation "'let?' x ':=' o 'in' k" := (obind o (λ x, k))
  (at level 10, x pattern, o at level 100, k at level 200) : go_scope.
Open Scope go_scope.

Definition is_ok {E A} (o : outcome E A) : bool :=
  match o with Ok _ => true | _ => false end.
Definition is_err {E A} (o : outcome E A) : bool :=
  match o with Err _ => true | _ => false end.

Lemma obind_Ok_inv {E A B} (o : outcome E A) (k : A → outcome E B) b :
  obind o k = Ok b → ∃ a, o = Ok a ∧ k a = Ok b.
Proof. destruct o; naive_solver. Qed.

(** ** Bytes *)


Abbreviation bytes := (list Init.Byte.byte) (only parsing).

#[export] Instance byte_eq_dec : EqDecision Init.Byte.byte := Byte.byte_eq_dec.

Definition byte_val (b : Init.Byte.byte) : Z := Z.of_N (Byte.to_N b).
Definition byte_of (z : Z) : Init.Byte.byte :=
  match Byte.of_N (Z.to_N (z mod 256)) with Some b => b | None => x00 end.

Lemma byte_val_range b : 0 <= byte_val b < 256.
Proof. unfold byte_val. pose proof (Byte.to_N_bounded b). lia. Qed.

Lemma byte_of_val b : byte_of (byte_val b) = b.
Proof.
  unfold byte_of. rewrite Z.mod_small by apply byte_val_range.
  unfold byte_val. by rewrite N2Z.id, Byte.of_to_N.
Qed.

Lemma byte_val_of z : byte_val (byte_of z) = z mod 256.
Proof.
  unfold byte_of. pose proof (Z.mod_pos_bound z 256 ltac:(lia)).
  destruct (Byte.of_N (Z.to_N (z mod 256))) as [b|] eqn:E.
  - apply Byte.to_of_N in E. unfold byte_val. lia.
  - apply Byte.of_N_None_iff in E. lia.
Qed.

Lemma byte_val_inj b c : byte_val b = byte_val c → b = c.
Proof. intros E. by rewrite <-(byte_of_val b), <-(byte_of_val c), E. Qed.

Lemma byte_of_mod z : byte_of (z mod 256) = byte_of z.
Proof. apply byte_val_inj. rewrite !byte_val_of. apply Z.mod_mod. lia. Qed.

Definition bytes_of_string : string → bytes := String.list_byte_of_string.
Definition string_of_bytes : bytes → string := String.string_of_list_byte.

Lemma bytes_of_string_of_bytes l : bytes_of_string (string_of_bytes l) = l.
Proof. apply String.list_byte_of_string_of_list_byte. Qed.

Lemma string_of_bytes_of_string s : string_of_bytes (bytes_of_string s) = s.
Proof. apply String.string_of_list_byte_of_string. Qed.

(** ** Maps and slices

    A Go [map[string]string] and a Go [[]byte] can be nil. *)

Abbreviation strmap := (option (gmap string string)) (only parsing).
Abbreviation slice := (option (list Init.Byte.byte)) (only parsing).
Definition slice_len (s : slice) : Z := Z.of_nat (length (default [] s)).

(** [for k, v := range m { out[k] = v }] *)
Definition put_all {V} (m out : gmap string V) : gmap string V :=
  map_fold (λ k v out, <[k := v]> out) out m.

Lemma put_all_union {V} (m out : gmap string V) : put_all m out = m ∪ out.
Proof.
  apply (map_fold_weak_ind (λ r m, r = m ∪ out)); [by rewrite (left_id_L ∅ (∪))|].
  intros i x m' r Hi ->. by rewrite insert_union_l.
Qed.

(** The values of a map, in no particular order. *)
Abbreviation values f := ((map_to_list f).*2).

Lemma values_delete {V} (f : gmap string V) h m :
  f !! h = Some m → values f ≡ₚ m :: values (delete h f).
Proof. intros H. by rewrite <-(map_to_list_delete f h m H). Qed.

Lemma values_insert {V} (f : gmap string V) h m :
  f !! h = None → values (<[h := m]> f) ≡ₚ m :: values f.
Proof. intros H. by rewrite map_to_list_insert. Qed.

Lemma elem_of_values {V} (f : gmap string V) m : m ∈ values f ↔ ∃ h, f !! h = Some m.
Proof.
  rewrite list_elem_of_fmap. split.
  - intros ([h m'] & -> & H%elem_of_map_to_list). by exists h.
  - intros [h H]. exists (h, m). by rewrite elem_of_map_to_list.
Qed.

Lemma omap_lookup_delete {V} (f : gmap string V) h (l : list string) :
  h ∉ l → omap (λ k, delete h f !! k) l = omap (λ k, f !! k) l.
Proof.
  induction l as [|k l IH]; [done|]. intros [Hne Hni]%not_elem_of_cons. simpl.
  rewrite lookup_delete_ne by done. destruct (f !! k); [f_equal|]; by apply IH.
Qed.

Lemma omap_lookup_values {V} (f : gmap string V) order :
  order ≡ₚ (map_to_list f).*1 → omap (λ h, f !! h) order ≡ₚ values f.
Proof.
  intros ->. assert (∀ p, p ∈ map_to_list f → f !! p.1 = Some p.2) as H.
  { intros [h m]. apply elem_of_map_to_list. }
  induction (map_to_list f) as [|[h m] l IH]; simpl; [done|].
  pose proof (H (h, m) ltac:(left)) as E. simpl in E. rewrite E. f_equiv. apply IH.
  intros p Hp. apply H. by right.
Qed.

Lemma NoDup_keys {V} (f : gmap string V) order : order ≡ₚ (map_to_list f).*1 → NoDup order.
Proof. intros ->. apply NoDup_fst_map_to_list. Qed.

(** Inserting values under keys of their own. *)
Definition insert_all {M} (key : M → string) (l : list M) (f : gmap string M) : gmap string M :=
  fold_left (λ f m, <[key m := m]> f) l f.

Lemma insert_all_spec {M} (key : M → string) (l : list M) f :
  NoDup (key <$> l) → (∀ m, m ∈ l → f !! key m = None) →
  values (insert_all key l f) ≡ₚ l ++ values f ∧
  (∀ m, m ∈ l → insert_all key l f !! key m = Some m) ∧
  (∀ h, h ∉ key <$> l → insert_all key l f !! h = f !! h).
Proof.
  revert f. induction l as [|m l IH]; intros f; cbn [insert_all fold_left].
  { intros _ _. split_and!; [done|by intros ? ?%elem_of_nil|done]. }
  rewrite fmap_cons. intros [Hni Hnd]%NoDup_cons Hf.
  assert (Hm : f !! key m = None) by (apply Hf; left).
  destruct (IH (<[key m := m]> f)) as (E1 & E2 & E3); [done| |].
  { intros x Hx. rewrite lookup_insert_ne; [apply Hf; by right|]. intros E. apply Hni. rewrite E.
    by apply list_elem_of_fmap_2. }
  unfold insert_all in *. split_and!.
  - rewrite E1, values_insert by done. symmetry. apply Permutation_middle.
  - intros x [->|Hx]%elem_of_cons; [|by apply E2]. rewrite E3 by done. by rewrite lookup_insert_eq.
  - intros h [Hne Hh]%not_elem_of_cons. rewrite E3 by done. by rewrite lookup_insert_ne.
Qed.

Lemma map_fold_agree {V B} (f g : string → V → B → B) (b : B) (m : gmap string V) :
  (∀ k v c, m !! k = Some v → f k v c = g k v c) → map_fold f b m = map_fold g b m.
Proof.
  intros H. rewrite !map_fold_foldr.
  assert (∀ p, p ∈ map_to_list m → m !! p.1 = Some p.2) as Hm by (intros [k v]; apply elem_of_map_to_list).
  induction (map_to_list m) as [|[k v] l IH]; [done|]. cbn. rewrite IH by (intros p Hp; apply Hm; by right).
  apply H. exact (Hm (k, v) ltac:(left)).
Qed.

(** A loop that stores every entry of a map under another name. *)
Lemma map_fold_renamed {V} (f : string → string) (m h : gmap string V) :
  (∀ k1 k2, is_Some (m !! k1) → is_Some (m !! k2) → f k1 = f k2 → k1 = k2) →
  let r := map_fold (λ k v h, <[f k := v]> h) h m in
  (∀ k v, m !! k = Some v → r !! f k = Some v) ∧
  (∀ x, (∀ k, is_Some (m !! k) → f k ≠ x) → r !! x = h !! x).
Proof.
  cbv zeta. apply (map_fold_weak_ind (λ r m,
    (∀ k1 k2, is_Some (m !! k1) → is_Some (m !! k2) → f k1 = f k2 → k1 = k2) →
    (∀ k v, m !! k = Some v → r !! f k = Some v) ∧
    (∀ x, (∀ k, is_Some (m !! k) → f k ≠ x) → r !! x = h !! x))); [done|].
  intros i v m' r Hi IH Hinj.
  assert (∀ k, is_Some (m' !! k) → is_Some (<[i := v]> m' !! k)) as Hin.
  { intros k [w Hk]. rewrite lookup_insert_ne by (intros ->; congruence). eauto. }
  destruct IH as [IH1 IH2]; [intros; apply Hinj; auto|]. split.
  - intros k w. destruct (decide (i = k)) as [<-|Hne].
    + rewrite !lookup_insert_eq. congruence.
    + rewrite lookup_insert_ne by done. intros Hk.
      assert (f i ≠ f k) as Hf.
      { intros E. apply Hne, Hinj; [rewrite lookup_insert_eq; eauto|apply Hin; eauto|done]. }
      rewrite lookup_insert_ne by done. by apply IH1.
  - intros x Hx. rewrite lookup_insert_ne by (apply Hx; rewrite lookup_insert_eq; eauto). apply IH2. auto.
Qed.

(** The copy loops of the program: [nil] stays nil. *)
Definition copy_map (m : strmap) : strmap :=
  match m with None => None | Some m => Some (put_all m ∅) end.

Lemma copy_map_id m : copy_map m = m.
Proof. destruct m as [m|]; [|done]. simpl. by rewrite put_all_union, (right_id_L ∅ (∪)). Qed.

(** ** Sorting

    Go's [sort.SliceStable(s, less)]: the result is the stable permutation of
    [s] in which no later element is [less] than an earlier one.  [sort.Strings]
    and the uses of [sort.Slice] in the program sort by keys that are pairwise
    distinct (or equal as whole elements), for which every sorting algorithm
    returns this same list (lemma [sort_by_unique]). *)

Section sort_by.
Context {A : Type} (less : A → A → bool).

Fixpoint insert_by (x : A) (l : list A) : list A :=
  match l with
  | [] => [x]
  | y :: l' => if less y x then y :: insert_by x l' else x :: y :: l'
  end.

Definition sort_by (l : list A) : list A := foldr insert_by [] l.

(** "not after": the order the sorted list is ascending for. *)
Definition le_by (x y : A) : Prop := less y x = false.

Lemma insert_by_perm x l : insert_by x l ≡ₚ x :: l.
Proof.
  induction l as [|y l IH]; simpl; [done|].
  destruct (less y x); [|done]. rewrite IH. apply Permutation_swap.
Qed.

Lemma sort_by_perm l : sort_by l ≡ₚ l.
Proof.
  induction l as [|x l IH]; simpl; [done|]. rewrite insert_by_perm. by f_equiv.
Qed.

Lemma elem_of_sort_by x l : x ∈ sort_by l ↔ x ∈ l.
Proof. by rewrite sort_by_perm. Qed.

Lemma length_sort_by l : length (sort_by l) = length l.
Proof. by rewrite sort_by_perm. Qed.

Lemma NoDup_sort_by l : NoDup l → NoDup (sort_by l).
Proof. by rewrite sort_by_perm. Qed.

(** Stability: elements that [less] does not separate keep their order.  [P]
    picks out one class of such elements. *)
Lemma insert_by_stable (P : A → Prop) `{!∀ x, Decision (P x)} x l :
  (∀ y, P x → P y → less y x = false) →
  filter P (insert_by x l) = filter P (x :: l).
Proof.
  intros HP. induction l as [|y l IH]; simpl; [done|].
  destruct (less y x) eqn:E; [|done].
  rewrite !filter_cons. rewrite IH, filter_cons.
  destruct (decide (P y)), (decide (P x)); try done.
  rewrite HP in E; done.
Qed.

Lemma sort_by_stable (P : A → Prop) `{!∀ x, Decision (P x)} l :
  (∀ x y, P x → P y → less x y = false) →
  filter P (sort_by l) = filter P l.
Proof.
  intros HP. induction l as [|x l IH]; simpl; [done|].
  rewrite insert_by_stable by naive_solver. rewrite !filter_cons, IH. done.
Qed.

Context (less_asym : ∀ x y, less x y = true → less y x = false).
Context (le_trans : ∀ x y z, le_by x y → le_by y z → le_by x z).

Lemma insert_by_sorted x l :
  StronglySorted le_by l → StronglySorted le_by (insert_by x l).
Proof.
  induction 1 as [|y l Hl IH Hy]; simpl; [by repeat constructor|].
  destruct (less y x) eqn:E.
  - constructor; [done|]. rewrite insert_by_perm. constructor; [|done].
    by apply less_asym.
  - constructor; [by constructor|]. constructor; [done|].
    eapply Forall_impl; [exact Hy|]. intros z Hz. by eapply le_trans.
Qed.

Lemma sort_by_sorted l : StronglySorted le_by (sort_by l).
Proof. induction l; simpl; [constructor|by apply insert_by_sorted]. Qed.

(** When [less] separates distinct elements the sorted list is unique, so the
    order in which the elements were collected does not matter. *)
Lemma sort_by_unique l1 l2 :
  (∀ x y, x ∈ l1 → y ∈ l2 → le_by x y → le_by y x → x = y) →
  l1 ≡ₚ l2 → sort_by l1 = sort_by l2.
Proof.
  intros Hanti Hp. apply (StronglySorted_unique_strong le_by).
  - intros x y. rewrite !elem_of_sort_by. apply Hanti.
  - apply sort_by_sorted.
  - apply sort_by_sorted.
  - by rewrite !sort_by_perm.
Qed.

Lemma sort_by_sorted_id l : StronglySorted le_by l → sort_by l = l.
Proof.
  induction 1 as [|x l Hl IH Hx]; simpl; [done|]. rewrite IH.
  destruct l as [|y l]; simpl; [done|].
  apply Forall_cons in Hx as [Hx _]. by rewrite Hx.
Qed.
End sort_by.

(** Filtering keeps a list sorted. *)
Lemma StronglySorted_filter {A} (R : relation A) (P : A → Prop)
    `{!∀ x, Decision (P x)} l :
  StronglySorted R l → StronglySorted R (filter P l).
Proof.
  induction 1 as [|x l Hl IH Hx]; [constructor|].
  rewrite filter_cons. case_decide; [|done]. constructor; [done|].
  apply Forall_forall. intros y [_ Hy]%list_elem_of_filter.
  rewrite Forall_forall in Hx. by apply Hx.
Qed.

(** A sorted list splits at any bound into the elements below and above it. *)
Lemma StronglySorted_app_inv {A} (R : relation A) l1 l2 :
  StronglySorted R (l1 ++ l2) →
  StronglySorted R l1 ∧ StronglySorted R l2 ∧
  (∀ x y, x ∈ l1 → y ∈ l2 → R x y).
Proof.
  induction l1 as [|x l1 IH]; simpl.
  - intros H. split_and!; [constructor|done|]. intros x y Hx. by apply elem_of_nil in Hx.
  - inversion_clear 1 as [|? ? Hs Hf]. destruct (IH Hs) as (H1 & H2 & H3).
    apply Forall_app in Hf as [Hf1 Hf2]. split_and!; [by constructor|done|].
    intros a b [->|Ha]%elem_of_cons Hb; [|by apply H3].
    rewrite Forall_forall in Hf2. by apply Hf2.
Qed.

(** Two strictly sorted lists with the same elements are equal. *)
Lemma strictly_sorted_ext {A} (R : relation A) l1 l2 :
  (∀ x, ¬ R x x) → (∀ x y z, R x y → R y z → R x z) →
  StronglySorted R l1 → StronglySorted R l2 →
  (∀ x, x ∈ l1 ↔ x ∈ l2) → l1 = l2.
Proof.
  intros Hirr Htr H1. revert l2. induction H1 as [|x l1 H1 IH Hx]; intros l2 H2 E.
  - destruct l2 as [|y l2]; [done|]. exfalso.
    eapply not_elem_of_nil. apply E. left.
  - destruct H2 as [|y l2 H2 Hy].
    { exfalso. eapply not_elem_of_nil. apply E. left. }
    rewrite Forall_forall in Hx, Hy.
    assert (x = y) as ->.
    { assert (x ∈ y :: l2) as [->|Hin]%elem_of_cons by (apply E; left); [done|].
      assert (y ∈ x :: l1) as [->|Hin']%elem_of_cons by (apply E; left); [done|].
      destruct (Hirr x). eapply Htr; [apply Hx, Hin'|by apply Hy]. }
    f_equal. apply IH; [done|]. intros z. split; intros Hz.
    + assert (z ∈ y :: l2) as [->|]%elem_of_cons by (apply E; by right); [|done].
      destruct (Hirr y). by apply Hx.
    + assert (z ∈ y :: l1) as [->|]%elem_of_cons by (apply E; by right); [|done].
      destruct (Hirr y). by apply Hy.
Qed.

(** ** String order *)

Definition str_lt (s1 s2 : string) : Prop := String.ltb s1 s2 = true.
#[export] Instance str_lt_dec s1 s2 : Decision (str_lt s1 s2).
Proof. unfold str_lt. apply _. Defined.

Lemma str_ltb_leb s1 s2 : String.ltb s1 s2 = negb (String.leb s2 s1).
Proof.
  unfold String.ltb, String.leb. rewrite (String.compare_antisym s1 s2).
  by destruct (String.compare s2 s1).
Qed.

Lemma str_leb_trans s1 s2 s3 :
  String.leb s1 s2 = true → String.leb s2 s3 = true → String.leb s1 s3 = true.
Proof.
  intros H1 H2. apply Is_true_true.
  apply (transitivity (R:=String.le) (y:=s2)); by apply Is_true_true.
Qed.

Lemma str_lt_irrefl s : ¬ str_lt s s.
Proof.
  unfold str_lt. rewrite str_ltb_leb. destruct (String.leb_total s s) as [->| ->]; done.
Qed.

Lemma str_lt_asym s1 s2 : str_lt s1 s2 → ¬ str_lt s2 s1.
Proof.
  unfold str_lt. rewrite !str_ltb_leb.
  destruct (String.leb_total s1 s2) as [->| ->]; simpl; [|done]. by intros ? [=].
Qed.

Lemma str_lt_trans s1 s2 s3 : str_lt s1 s2 → str_lt s2 s3 → str_lt s1 s3.
Proof.
  unfold str_lt. rewrite !str_ltb_leb, !negb_true_iff. intros H1 H2.
  destruct (String.leb s3 s1) eqn:E; [|done].
  destruct (String.leb_total s1 s2) as [H|H]; [|congruence].
  by rewrite (str_leb_trans _ _ _ E H) in H2.
Qed.

Lemma str_lt_trich s1 s2 : str_lt s1 s2 ∨ s1 = s2 ∨ str_lt s2 s1.
Proof.
  unfold str_lt. rewrite !str_ltb_leb.
  destruct (String.leb s2 s1) eqn:E1; simpl; [|by left].
  destruct (String.leb s1 s2) eqn:E2; simpl; [|by right; right].
  right; left. by apply String.leb_antisym.
Qed.

Lemma str_not_lt s1 s2 : ¬ str_lt s1 s2 ↔ s1 = s2 ∨ str_lt s2 s1.
Proof.
  split.
  - intros H. destruct (str_lt_trich s1 s2); naive_solver.
  - intros [->|H]; [apply str_lt_irrefl|by apply str_lt_asym].
Qed.

(** [sort.Strings] *)
Definition sort_Strings (l : list string) : list string := sort_by String.ltb l.

Lemma le_by_ltb s1 s2 : le_by String.ltb s1 s2 ↔ s1 = s2 ∨ str_lt s1 s2.
Proof.
  unfold le_by. pose proof (str_not_lt s2 s1) as H. unfold str_lt in *.
  rewrite not_true_iff_false in H. naive_solver.
Qed.

Lemma ltb_asym s1 s2 : String.ltb s1 s2 = true → String.ltb s2 s1 = false.
Proof. intros H. apply not_true_is_false. by apply str_lt_asym. Qed.

Lemma le_by_ltb_trans s1 s2 s3 :
  le_by String.ltb s1 s2 → le_by String.ltb s2 s3 → le_by String.ltb s1 s3.
Proof. rewrite !le_by_ltb. intros [->|] [->|]; eauto using str_lt_trans. Qed.

Lemma sort_Strings_perm l : sort_Strings l ≡ₚ l.
Proof. apply sort_by_perm. Qed.

Lemma sort_Strings_sorted l : StronglySorted (le_by String.ltb) (sort_Strings l).
Proof. apply sort_by_sorted; [apply ltb_asym|apply le_by_ltb_trans]. Qed.

(** The order a Go map was ranged over does not show after [sort.Strings]. *)
Lemma sort_Strings_unique l1 l2 : l1 ≡ₚ l2 → sort_Strings l1 = sort_Strings l2.
Proof.
  apply sort_by_unique; [apply ltb_asym|apply le_by_ltb_trans|].
  intros x y _ _. rewrite !le_by_ltb. intros [|H1] [|H2]; try done.
  by destruct (str_lt_asym _ _ H1).
Qed.

Lemma sort_Strings_strict l : NoDup l → StronglySorted str_lt (sort_Strings l).
Proof.
  intros Hnd. pose proof (sort_Strings_sorted l) as Hs.
  assert (NoDup (sort_Strings l)) as Hnd' by (by rewrite sort_Strings_perm).
  induction Hs as [|x l' Hs IH Hx]; [constructor|].
  apply NoDup_cons in Hnd' as [Hni Hnd']. constructor; [by apply IH|].
  rewrite Forall_forall in *. intros y Hy. specialize (Hx y Hy).
  apply le_by_ltb in Hx as [->|]; done.
Qed.

#[export] Instance sort_Strings_proper : Proper ((≡ₚ) ==> (=)) sort_Strings.
Proof. intros l1 l2. apply sort_Strings_unique. Qed.

Create HintDb shim.
#[export] Hint Resolve str_lt_trans str_lt_asym sort_Strings_strict
  byte_val_range : shim.

(** ** Accumulating loops *)

(** A loop that appends to an accumulator builds a concatenation. *)
Lemma fold_left_app_concat {A B} (f : A → list B) l acc :
  fold_left (λ acc x, acc ++ f x) l acc = acc ++ concat (f <$> l).
Proof.
  revert acc; induction l as [|x l IH]; intros acc; simpl; [by rewrite app_nil_r|].
  by rewrite IH, (assoc_L (++)).
Qed.

Lemma sort_by_Zltb_strict l : NoDup l → StronglySorted Z.lt (sort_by Z.ltb l).
Proof.
  intros Hnd. assert (StronglySorted (le_by Z.ltb) (sort_by Z.ltb l)) as Hs.
  { apply sort_by_sorted; unfold le_by; intros; lia. }
  assert (NoDup (sort_by Z.ltb l)) as Hnd' by (by rewrite sort_by_perm).
  induction Hs as [|x l' Hs IH Hx]; [constructor|].
  apply NoDup_cons in Hnd' as [Hni Hnd']. constructor; [by apply IH|].
  rewrite Forall_forall in *. intros y Hy. specialize (Hx y Hy).
  assert (x ≠ y) by (by intros ->). unfold le_by in Hx. lia.
Qed.
