(* ===== verification/GoStrings.v ===== *)
(** * The parts of Go's standard library the program computes with

    Packages [strings], [strconv], [encoding/hex], [encoding/base64],
    [encoding/binary] and [fmt.Errorf].  A Go [string] is a byte sequence, modelled by
    [string] (a sequence of 8-bit [ascii]); a [[]byte] is [list byte].
    [ToLower]/[ToUpper] follow the ASCII fast path of the library: every
    string they are applied to in the modelled code is an HTTP token, a header
    or query name, a host or DNS name, or hexadecimal. *)

From Stdlib Require Import Ascii Strings.Byte.
From S2P Require Import Prelude.

(** ** Slicing: [s[:n]] and [s[n:]] for [n <= len(s)] *)

Fixpoint str_take (n : nat) (s : string) : string :=
  match n, s with
  | S n, String c s => String c (str_take n s)
  | _, _ => EmptyString
  end.

Fixpoint str_drop (n : nat) (s : string) : string :=
  match n, s with
  | O, _ => s
  | S n, String _ s => str_drop n s
  | S _, EmptyString => EmptyString
  end.

Lemma str_take_drop n s : str_take n s +:+ str_drop n s = s.
Proof. revert n; induction s as [|c s IH]; intros [|n]; simpl; [done..|]. unfold String.app in *. simpl. by rewrite IH. Qed.

Lemma str_app_nil_r s : s +:+ "" = s.
Proof. induction s as [|c s IH]; [done|]. unfold String.app in *. simpl. by rewrite IH. Qed.

Lemma str_app_assoc s1 s2 s3 : (s1 +:+ s2) +:+ s3 = s1 +:+ (s2 +:+ s3).
Proof. induction s1 as [|c s IH]; [done|]. unfold String.app in *. simpl. by rewrite IH. Qed.

Lemma str_cons_app c s t : String c s +:+ t = String c (s +:+ t).
Proof. done. Qed.

Lemma str_one_app c t : String c "" +:+ t = String c t.
Proof. done. Qed.

Lemma str_length_app s t : String.length (s +:+ t) = (String.length s + String.length t)%nat.
Proof. induction s as [|c s IH]; [done|]. rewrite str_cons_app. simpl. by rewrite IH. Qed.

Lemma str_drop_app s t : str_drop (String.length s) (s +:+ t) = t.
Proof. induction s as [|c s IH]; [done|]. rewrite str_cons_app. simpl. done. Qed.

Lemma str_take_app s t : str_take (String.length s) (s +:+ t) = s.
Proof. induction s as [|c s IH]; [by destruct t|]. rewrite str_cons_app. simpl. by rewrite IH. Qed.

Lemma str_app_inj_l s t u : s +:+ t = s +:+ u → t = u.
Proof. intros. by apply (inj (String.app s)). Qed.

(** ** [strings.HasPrefix], [TrimPrefix], [HasSuffix], [TrimSuffix] *)

Fixpoint HasPrefix (s p : string) {struct p} : bool :=
  match p, s with
  | EmptyString, _ => true
  | String a p, String b s => Ascii.eqb a b && HasPrefix s p
  | String _ _, EmptyString => false
  end.

Definition TrimPrefix (s p : string) : string :=
  if HasPrefix s p then str_drop (String.length p) s else s.

Definition HasSuffix (s p : string) : bool :=
  (String.length p <=? String.length s)%nat &&
  String.eqb (str_drop (String.length s - String.length p) s) p.

Definition TrimSuffix (s p : string) : string :=
  if HasSuffix s p then str_take (String.length s - String.length p) s else s.

Lemma HasPrefix_spec s p : HasPrefix s p = true ↔ ∃ t, s = p +:+ t.
Proof.
  revert s; induction p as [|a p IH]; intros s; simpl.
  - split; [by exists s|]. done.
  - destruct s as [|b s].
    + split; [done|]. intros [t H]. by rewrite str_cons_app in H.
    + rewrite andb_true_iff, IH, Ascii.eqb_eq. split.
      * intros [-> [t ->]]. by exists t.
      * intros [t H]. rewrite str_cons_app in H. simplify_eq. eauto.
Qed.

Lemma HasPrefix_app p t : HasPrefix (p +:+ t) p = true.
Proof. apply HasPrefix_spec. by exists t. Qed.

Lemma HasPrefix_nil s : HasPrefix s "" = true.
Proof. done. Qed.

Lemma TrimPrefix_app p t : TrimPrefix (p +:+ t) p = t.
Proof. unfold TrimPrefix. by rewrite HasPrefix_app, str_drop_app. Qed.

Lemma HasSuffix_spec s p : HasSuffix s p = true ↔ ∃ t, s = t +:+ p.
Proof.
  unfold HasSuffix. rewrite andb_true_iff, String.eqb_eq. split.
  - intros [_ H]. exists (str_take (String.length s - String.length p) s).
    rewrite <-H at 2. by rewrite str_take_drop.
  - intros [t ->]. rewrite str_length_app. split; [apply Nat.leb_le; lia|].
    replace (_ + _ - _)%nat with (String.length t) by lia. apply str_drop_app.
Qed.

Lemma TrimSuffix_app t p : TrimSuffix (t +:+ p) p = t.
Proof.
  unfold TrimSuffix. assert (HasSuffix (t +:+ p) p = true) as ->
    by (apply HasSuffix_spec; eauto).
  rewrite str_length_app. replace (_ + _ - _)%nat with (String.length t) by lia.
  apply str_take_app.
Qed.

(** ** [strings.Index], [IndexByte], [Contains], [ContainsAny] *)

Fixpoint Index (s sub : string) : option nat :=
  if HasPrefix s sub then Some O
  else match s with
       | EmptyString => None
       | String _ s' => S <$> Index s' sub
       end.

Fixpoint IndexByte (s : string) (c : ascii) : option nat :=
  match s with
  | EmptyString => None
  | String a s' => if Ascii.eqb a c then Some O else S <$> IndexByte s' c
  end.

Definition Contains (s sub : string) : bool := bool_decide (is_Some (Index s sub)).

Fixpoint str_mem (c : ascii) (s : string) : bool :=
  match s with
  | EmptyString => false
  | String a s' => Ascii.eqb a c || str_mem c s'
  end.

Fixpoint ContainsAny (s chars : string) : bool :=
  match s with
  | EmptyString => false
  | String a s' => str_mem a chars || ContainsAny s' chars
  end.

Lemma str_mem_app c s t : str_mem c (s +:+ t) = str_mem c s || str_mem c t.
Proof. induction s as [|a s IH]; [done|]. rewrite str_cons_app. simpl. by rewrite IH, orb_assoc. Qed.

Lemma IndexByte_None s c : IndexByte s c = None ↔ str_mem c s = false.
Proof.
  induction s as [|a s IH]; simpl; [done|].
  destruct (Ascii.eqb a c); simpl; [done|]. rewrite <-IH, fmap_None. done.
Qed.

Lemma IndexByte_Some s c i :
  IndexByte s c = Some i →
  s = str_take i s +:+ String c (str_drop (S i) s) ∧ str_mem c (str_take i s) = false.
Proof.
  revert i; induction s as [|a s IH]; intros i; simpl; [done|].
  destruct (Ascii.eqb_spec a c) as [->|Hne].
  - intros [= <-]. simpl. by destruct s.
  - intros (j & Hj & ->)%fmap_Some. destruct (IH j Hj) as [E1 E2]. simpl.
    rewrite str_cons_app. split; [by f_equal|].
    apply orb_false_iff. split; [by apply Ascii.eqb_neq|done].
Qed.

Lemma IndexByte_app s c t :
  str_mem c s = false → IndexByte (s +:+ String c t) c = Some (String.length s).
Proof.
  induction s as [|a s IH]; intros H.
  - simpl. change ("" +:+ String c t) with (String c t). simpl. by rewrite Ascii.eqb_refl.
  - rewrite str_cons_app. simpl in *. apply orb_false_iff in H as [-> H].
    by rewrite IH.
Qed.

Lemma str_drop_sep s c t : str_drop (S (String.length s)) (s +:+ String c t) = t.
Proof.
  induction s as [|a s IH]; [by destruct t|]. rewrite str_cons_app. cbn [String.length str_drop]. exact IH.
Qed.

(** A separator splits a string in one way only. *)
Lemma str_sep_inj c s t s' t' :
  str_mem c s = false → str_mem c s' = false →
  s +:+ String c t = s' +:+ String c t' → s = s' ∧ t = t'.
Proof.
  intros Hs Hs' E. pose proof (IndexByte_app s c t Hs) as H1. pose proof (IndexByte_app s' c t' Hs') as H2.
  rewrite E in H1. assert (String.length s = String.length s') as Hl by congruence.
  assert (s = s') as <-.
  { rewrite <-(str_take_app s (String c t)), <-(str_take_app s' (String c t')), E. by rewrite Hl. }
  apply str_app_inj_l in E. by simplify_eq.
Qed.

Lemma Index_Some s sub i :
  Index s sub = Some i → s = str_take i s +:+ sub +:+ str_drop (i + String.length sub) s.
Proof.
  revert i; induction s as [|a s IH]; intros i; simpl.
  - destruct (HasPrefix "" sub) eqn:E; [|done]. intros [= <-].
    apply HasPrefix_spec in E as [t E]. destruct sub; [|by rewrite str_cons_app in E]. done.
  - destruct (HasPrefix (String a s) sub) eqn:E.
    + intros [= <-]. apply HasPrefix_spec in E as [t ->].
      simpl. by rewrite str_drop_app.
    + intros (j & Hj & ->)%fmap_Some. simpl. rewrite str_cons_app. f_equal. by apply IH.
Qed.

Lemma HasPrefix_one s c : HasPrefix s (String c "") = match s with String a _ => Ascii.eqb c a | "" => false end.
Proof. destruct s as [|a s]; [done|]. simpl. by rewrite andb_true_r. Qed.

(** [strings.LastIndexByte] *)
Fixpoint LastIndexByte (s : string) (c : ascii) : option nat :=
  match s with
  | EmptyString => None
  | String a s' =>
      match LastIndexByte s' c with
      | Some i => Some (S i)
      | None => if Ascii.eqb a c then Some O else None
      end
  end.

Lemma LastIndexByte_None s c : str_mem c s = false → LastIndexByte s c = None.
Proof. induction s as [|a s IH]; [done|]. simpl. intros [Ha Hs]%orb_false_iff. by rewrite IH, Ha. Qed.

Lemma LastIndexByte_app p s c :
  str_mem c s = false → LastIndexByte (p +:+ String c s) c = Some (String.length p).
Proof.
  intros Hs. induction p as [|a p IH].
  - change ("" +:+ String c s) with (String c s). cbn [LastIndexByte]. rewrite LastIndexByte_None by done.
    by rewrite Ascii.eqb_refl.
  - rewrite str_cons_app. cbn [LastIndexByte]. by rewrite IH.
Qed.

(** [strings.Cut] at one byte *)
Definition Cut (s : string) (c : ascii) : string * string * bool :=
  match IndexByte s c with
  | Some i => (str_take i s, str_drop (S i) s, true)
  | None => (s, "", false)
  end.

Lemma Index_one s c : Index s (String c "") = IndexByte s c.
Proof.
  induction s as [|a s IH]; [done|]. cbn [Index IndexByte]. rewrite HasPrefix_one, IH.
  by rewrite Ascii.eqb_sym.
Qed.

Lemma Contains_one s c : Contains s (String c "") = str_mem c s.
Proof.
  unfold Contains. rewrite Index_one. apply eq_true_iff_eq. rewrite bool_decide_eq_true.
  rewrite <-(not_false_iff_true (str_mem c s)), <-IndexByte_None, <-not_eq_None_Some. done.
Qed.

(** ** [strings.Split] on a one-byte separator, [strings.Join] *)

Fixpoint Split (s : string) (c : ascii) : list string :=
  match s with
  | EmptyString => [""]
  | String a s' =>
      if Ascii.eqb a c then "" :: Split s' c
      else match Split s' c with
           | [] => [String a ""]
           | w :: ws => String a w :: ws
           end
  end.

Fixpoint Join (l : list string) (sep : string) : string :=
  match l with
  | [] => ""
  | [w] => w
  | w :: ws => w +:+ sep +:+ Join ws sep
  end.

Lemma Split_nonempty s c : Split s c ≠ [].
Proof. destruct s as [|a s]; simpl; [done|]. repeat case_match; done. Qed.

Lemma Join_cons w ws sep : ws ≠ [] → Join (w :: ws) sep = w +:+ sep +:+ Join ws sep.
Proof. by destruct ws. Qed.

Lemma Join_Split s c : Join (Split s c) (String c "") = s.
Proof.
  induction s as [|a s IH]; simpl; [done|].
  pose proof (Split_nonempty s c) as Hne.
  destruct (Ascii.eqb_spec a c) as [->|].
  - rewrite Join_cons by done. rewrite IH. done.
  - destruct (Split s c) as [|w [|w' ws]]; [done|..].
    + simpl in *. by rewrite IH.
    + rewrite Join_cons in IH by done. rewrite Join_cons by done.
      rewrite str_cons_app. by rewrite IH.
Qed.

Lemma Split_no_sep s c w : w ∈ Split s c → str_mem c w = false.
Proof.
  revert w; induction s as [|a s IH]; intros w; simpl.
  - by intros ->%list_elem_of_singleton.
  - destruct (Ascii.eqb_spec a c) as [->|Hne].
    + intros [->|]%elem_of_cons; [done|auto].
    + pose proof (Split_nonempty s c).
      destruct (Split s c) as [|v vs]; [done|].
      intros [->|Hw]%elem_of_cons.
      * simpl. apply orb_false_iff. split; [by apply Ascii.eqb_neq|apply IH; left].
      * apply IH. by right.
Qed.

Lemma Split_app w c s : str_mem c w = false → Split (w +:+ String c s) c = w :: Split s c.
Proof.
  induction w as [|a w IH]; intros H.
  - change ("" +:+ String c s) with (String c s). simpl. by rewrite Ascii.eqb_refl.
  - rewrite str_cons_app. simpl in *. apply orb_false_iff in H as [-> H]. by rewrite IH.
Qed.

Lemma Split_plain w c : str_mem c w = false → Split w c = [w].
Proof.
  induction w as [|a w IH]; intros H; [done|].
  simpl in *. apply orb_false_iff in H as [-> H]. by rewrite IH.
Qed.

Lemma Split_sep s c t : Split (s +:+ String c t) c = Split s c ++ Split t c.
Proof.
  induction s as [|a s IH].
  - change ("" +:+ String c t) with (String c t). simpl. by rewrite Ascii.eqb_refl.
  - rewrite str_cons_app. cbn [Split]. rewrite IH. destruct (Ascii.eqb a c); [done|].
    pose proof (Split_nonempty s c). by destruct (Split s c).
Qed.

(** Splitting what was joined splits the pieces. *)
Lemma Split_Join_concat l c :
  l ≠ [] → Split (Join l (String c "")) c = concat ((λ w, Split w c) <$> l).
Proof.
  induction l as [|w l IH]; [done|]. intros _. destruct l as [|w' l]; [by cbn; rewrite app_nil_r|].
  rewrite Join_cons by done. change (String c "" +:+ ?t) with (String c t). rewrite Split_sep, IH by done. done.
Qed.

Lemma Split_Join l c :
  l ≠ [] → Forall (λ w, str_mem c w = false) l → Split (Join l (String c "")) c = l.
Proof.
  intros Hne H. induction H as [|w ws Hw H IH]; [done|].
  destruct ws as [|w' ws]; [by apply Split_plain|].
  rewrite Join_cons by done.
  change (String c "" +:+ ?t) with (String c t).
  rewrite Split_app by done. by rewrite IH.
Qed.

(** ** [strings.ToLower], [strings.ToUpper] on ASCII *)

Definition lower_ascii (c : ascii) : ascii :=
  let n := N_of_ascii c in
  if (65 <=? n)%N && (n <=? 90)%N then ascii_of_N (n + 32) else c.
Definition upper_ascii (c : ascii) : ascii :=
  let n := N_of_ascii c in
  if (97 <=? n)%N && (n <=? 122)%N then ascii_of_N (n - 32) else c.

Fixpoint str_map (f : ascii → ascii) (s : string) : string :=
  match s with EmptyString => EmptyString | String c s => String (f c) (str_map f s) end.

Definition ToLower (s : string) : string := str_map lower_ascii s.
Definition ToUpper (s : string) : string := str_map upper_ascii s.

Lemma lower_ascii_idemp c : lower_ascii (lower_ascii c) = lower_ascii c.
Proof. by destruct c as [[] [] [] [] [] [] [] []]. Qed.

Lemma ToLower_idemp s : ToLower (ToLower s) = ToLower s.
Proof. unfold ToLower. induction s as [|c s IH]; simpl; [done|]. by rewrite lower_ascii_idemp, IH. Qed.

Lemma ToLower_app s t : ToLower (s +:+ t) = ToLower s +:+ ToLower t.
Proof.
  unfold ToLower. induction s as [|c s IH]; [done|].
  rewrite str_cons_app. simpl. rewrite IH. done.
Qed.

(** ** [strings.TrimSpace], [strings.Trim]

    [TrimSpace] removes the runes that Unicode classes as white space.  They
    are listed here by their UTF-8 encodings; removing such an encoding from
    either end is what decoding the first (last) rune and testing it does. *)

Definition str_of_codes (l : list N) : string :=
  foldr (λ n s, String (ascii_of_N n) s) EmptyString l.

Definition space_runes : list string :=
  str_of_codes <$>
    [[9]; [10]; [11]; [12]; [13]; [32]; [194; 133]; [194; 160]; [225; 154; 128];
     [226; 128; 128]; [226; 128; 129]; [226; 128; 130]; [226; 128; 131];
     [226; 128; 132]; [226; 128; 133]; [226; 128; 134]; [226; 128; 135];
     [226; 128; 136]; [226; 128; 137]; [226; 128; 138]; [226; 128; 168];
     [226; 128; 169]; [226; 128; 175]; [226; 129; 159]; [227; 128; 128]]%N.

Definition find_first (f : string → bool) (l : list string) : option string :=
  snd <$> list_find (λ x, f x = true) l.

Fixpoint trim_left_go (fuel : nat) (s : string) : string :=
  match fuel with
  | O => s
  | S fuel => match find_first (HasPrefix s) space_runes with
              | Some p => trim_left_go fuel (str_drop (String.length p) s)
              | None => s
              end
  end.
Fixpoint trim_right_go (fuel : nat) (s : string) : string :=
  match fuel with
  | O => s
  | S fuel => match find_first (HasSuffix s) space_runes with
              | Some p => trim_right_go fuel (str_take (String.length s - String.length p) s)
              | None => s
              end
  end.
Definition TrimSpace (s : string) : string :=
  let t := trim_left_go (String.length s) s in trim_right_go (String.length t) t.

(** [strings.Trim(s, cutset)] for a cutset of one ASCII byte. *)
Fixpoint trim_left_byte (c : ascii) (s : string) : string :=
  match s with
  | String a s' => if Ascii.eqb a c then trim_left_byte c s' else s
  | EmptyString => EmptyString
  end.
Fixpoint trim_right_byte (c : ascii) (s : string) : string :=
  match s with
  | EmptyString => EmptyString
  | String a s' =>
      match trim_right_byte c s' with
      | EmptyString => if Ascii.eqb a c then EmptyString else String a EmptyString
      | t => String a t
      end
  end.
Definition TrimByte (s : string) (c : ascii) : string := trim_right_byte c (trim_left_byte c s).

Lemma trim_right_byte_snoc c s :
  str_mem c s = false → trim_right_byte c (s +:+ String c "") = s.
Proof.
  induction s as [|a s IH]; intros H.
  - change ("" +:+ String c "") with (String c ""). simpl. by rewrite Ascii.eqb_refl.
  - rewrite str_cons_app. simpl in *. apply orb_false_iff in H as [Ha H].
    rewrite (IH H), Ha. by destruct s.
Qed.

Lemma trim_left_byte_id c s : str_mem c s = false → trim_left_byte c s = s.
Proof. destruct s as [|a s]; simpl; [done|]. by intros [-> _]%orb_false_iff. Qed.

(** Un-quoting a string that has no quote of its own inside. *)
Lemma TrimByte_quoted c s :
  str_mem c s = false → TrimByte (String c s +:+ String c "") c = s.
Proof.
  intros H. unfold TrimByte. rewrite str_cons_app. simpl. rewrite Ascii.eqb_refl.
  destruct s as [|a s].
  - change ("" +:+ String c "") with (String c ""). simpl. by rewrite Ascii.eqb_refl.
  - rewrite str_cons_app. simpl. simpl in H. apply orb_false_iff in H as [Ha Hs].
    rewrite Ha. rewrite <-str_cons_app. apply trim_right_byte_snoc. simpl.
    by rewrite Ha, Hs.
Qed.

(** ** [fmt.Errorf]

    Formats with the verbs %q, %s and %d, for the arguments in order (numbers as
    text), and %w, whose text is [w]. *)

Fixpoint Sprintf (Quote : string → string) (w : string) (args : list string) (f : string) : string :=
  match f with
  | String a (String b f2 as f1) =>
      if Ascii.eqb a "%" && (Ascii.eqb b "q" || Ascii.eqb b "s" || Ascii.eqb b "d")
      then match args with
           | x :: args => (if Ascii.eqb b "q" then Quote x else x) +:+ Sprintf Quote w args f2
           | [] => "%!" +:+ String b "(MISSING)" +:+ Sprintf Quote w [] f2
           end
      else if Ascii.eqb a "%" && Ascii.eqb b "w" then w +:+ Sprintf Quote w args f2
      else String a (Sprintf Quote w args f1)
  | f => f
  end.
