(* ===== verification/GoBytes.v ===== *)
(** * Byte-level packages of Go's standard library

    [encoding/hex], [encoding/base64], [encoding/binary] (big endian) and the
    decimal conversions of [strconv], each with its round trip. *)

From Stdlib Require Import Ascii Strings.Byte.
From S2P Require Import Prelude GoStrings.

Lemma bytes_of_string_app s t : bytes_of_string (s +:+ t) = bytes_of_string s ++ bytes_of_string t.
Proof.
  unfold bytes_of_string, String.list_byte_of_string.
  induction s as [|c s IH]; [done|]. rewrite str_cons_app. simpl. by rewrite IH.
Qed.

(** ** [encoding/hex] *)

Definition hex_digit (n : Z) : ascii :=
  ascii_of_N (Z.to_N (if n <? 10 then n + 48 else n + 87)).

Definition hex_val (c : ascii) : option Z :=
  let n := Z.of_N (N_of_ascii c) in
  if (48 <=? n) && (n <=? 57) then Some (n - 48)
  else if (97 <=? n) && (n <=? 102) then Some (n - 87)
  else if (65 <=? n) && (n <=? 70) then Some (n - 55)
  else None.

Fixpoint hex_EncodeToString (l : bytes) : string :=
  match l with
  | [] => ""
  | b :: l => String (hex_digit (byte_val b / 16))
                (String (hex_digit (byte_val b mod 16)) (hex_EncodeToString l))
  end.

(** [None] is the error of [hex.DecodeString] (odd length or not a digit). *)
Fixpoint hex_DecodeString (s : string) : option bytes :=
  match s with
  | EmptyString => Some []
  | String a (String b s) =>
      match hex_val a, hex_val b, hex_DecodeString s with
      | Some x, Some y, Some l => Some (byte_of (16 * x + y) :: l)
      | _, _, _ => None
      end
  | String _ EmptyString => None
  end.

Lemma hex_val_digit n : 0 <= n < 16 → hex_val (hex_digit n) = Some n.
Proof.
  intros H. assert (∃ k, n = Z.of_nat k ∧ (k < 16)%nat) as (k & -> & Hk)
    by (exists (Z.to_nat n); lia).
  do 16 (destruct k as [|k]; [done|]). lia.
Qed.

Lemma byte_hex_range b : 0 <= byte_val b / 16 < 16 ∧ 0 <= byte_val b mod 16 < 16.
Proof.
  pose proof (byte_val_range b). split.
  - split; [apply Z.div_pos; lia|apply Z.div_lt_upper_bound; lia].
  - apply Z.mod_pos_bound. lia.
Qed.

Lemma hex_Decode_Encode l : hex_DecodeString (hex_EncodeToString l) = Some l.
Proof.
  induction l as [|b l IH]; [done|]. pose proof (byte_hex_range b) as [H1 H2].
  simpl. rewrite !hex_val_digit by done. rewrite IH.
  by rewrite <-Z.div_mod, byte_of_val by lia.
Qed.

Lemma hex_Encode_inj l1 l2 : hex_EncodeToString l1 = hex_EncodeToString l2 → l1 = l2.
Proof.
  intros E. apply (f_equal hex_DecodeString) in E.
  rewrite !hex_Decode_Encode in E. by simplify_eq.
Qed.

(** A character that is no lower-case hex digit does not occur in the output. *)
Lemma hex_Encode_mem c l : hex_val c = None → str_mem c (hex_EncodeToString l) = false.
Proof.
  intros Hc. induction l as [|b l IH]; [done|]. pose proof (byte_hex_range b) as [H1 H2].
  simpl. rewrite IH, orb_false_r. apply orb_false_iff.
  split; apply Ascii.eqb_neq; intros <-; rewrite hex_val_digit in Hc; done.
Qed.

Lemma hex_Encode_length l : String.length (hex_EncodeToString l) = (2 * length l)%nat.
Proof. induction l; simpl; lia. Qed.

(** ** [encoding/binary], big endian *)

Fixpoint be_encode (n : nat) (z : Z) : bytes :=
  match n with
  | O => []
  | S n => byte_of (Z.shiftr z (8 * Z.of_nat n)) :: be_encode n z
  end.

Definition be_decode (l : bytes) : Z := fold_left (λ a b, a * 256 + byte_val b) l 0.

Lemma be_decode_go a l :
  fold_left (λ a b, a * 256 + byte_val b) l a = a * 256 ^ Z.of_nat (length l) + be_decode l.
Proof.
  unfold be_decode. revert a. induction l as [|b l IH]; intros a; [simpl; lia|].
  cbn [fold_left length]. rewrite IH, (IH (0 * 256 + byte_val b)).
  rewrite Nat2Z.inj_succ, Z.pow_succ_r by lia. ring.
Qed.

Lemma be_decode_cons b l :
  be_decode (b :: l) = byte_val b * 256 ^ Z.of_nat (length l) + be_decode l.
Proof. unfold be_decode at 1. cbn [fold_left]. by rewrite be_decode_go. Qed.

Lemma be_decode_range l : 0 <= be_decode l < 256 ^ Z.of_nat (length l).
Proof.
  induction l as [|b l IH]; [done|]. rewrite be_decode_cons.
  pose proof (byte_val_range b). cbn [length].
  rewrite Nat2Z.inj_succ, Z.pow_succ_r by lia. nia.
Qed.

Lemma length_be_encode n z : length (be_encode n z) = n.
Proof. induction n; simpl; congruence. Qed.

Lemma be_decode_encode n z : be_decode (be_encode n z) = z mod 256 ^ Z.of_nat n.
Proof.
  induction n as [|n IH]; [simpl; by rewrite Z.mod_1_r|].
  cbn [be_encode]. rewrite be_decode_cons, length_be_encode, IH, byte_val_of.
  rewrite Z.shiftr_div_pow2 by lia.
  replace (2 ^ (8 * Z.of_nat n)) with (256 ^ Z.of_nat n) by (by rewrite Z.pow_mul_r by lia).
  rewrite Nat2Z.inj_succ, Z.pow_succ_r by lia.
  pose proof (Z.pow_pos_nonneg 256 (Z.of_nat n)).
  rewrite (Z.mul_comm 256), Z.rem_mul_r by lia. lia.
Qed.

Lemma be_encode_decode l : be_encode (length l) (be_decode l) = l.
Proof.
  assert (∀ n z, be_encode n (z mod 256 ^ Z.of_nat n) = be_encode n z) as Hmod.
  { assert (∀ n m z, (n <= m)%nat → be_encode n (z mod 256 ^ Z.of_nat m) = be_encode n z) as Hm;
      [|intros; by apply Hm].
    induction n as [|n IH]; intros m z Hle; [done|]. cbn [be_encode].
    f_equal; [|apply IH; lia]. apply byte_val_inj. rewrite !byte_val_of.
    rewrite !Z.shiftr_div_pow2 by lia. rewrite !Z.pow_mul_r by lia.
    change (2 ^ 8) with 256.
    replace (Z.of_nat m) with (Z.of_nat n + Z.succ (Z.of_nat (m - S n))) by lia.
    rewrite Z.pow_add_r, Z.pow_succ_r by lia.
    pose proof (Z.pow_pos_nonneg 256 (Z.of_nat n)).
    pose proof (Z.pow_pos_nonneg 256 (Z.of_nat (m - S n))).
    rewrite Z.rem_mul_r by lia.
    rewrite (Z.mul_comm (256 ^ Z.of_nat n)), Z.div_add by lia.
    rewrite (Z.div_small (z mod _)) by (apply Z.mod_pos_bound; lia).
    rewrite Z.add_0_l. rewrite Z.rem_mul_r by lia.
    rewrite (Z.mul_comm 256), Z.mod_add by lia. apply Z.mod_mod. lia. }
  induction l as [|b l IH]; [done|]. cbn [length be_encode].
  rewrite be_decode_cons. pose proof (be_decode_range l).
  pose proof (Z.pow_pos_nonneg 256 (Z.of_nat (length l))). f_equal.
  - rewrite Z.shiftr_div_pow2, Z.pow_mul_r by lia. change (2 ^ 8) with 256.
    rewrite (Z.add_comm (_ * _)), Z.div_add, Z.div_small by lia. apply byte_of_val.
  - rewrite <-Hmod, Z.add_comm, Z.mod_add, Hmod by lia. done.
Qed.

(** ** [encoding/base64], [StdEncoding] with padding *)

Definition b64_digit (n : Z) : ascii :=
  ascii_of_N (Z.to_N
    (if n <? 26 then n + 65 else if n <? 52 then n + 71
     else if n <? 62 then n - 4 else if n =? 62 then 43 else 47)).

Fixpoint base64_EncodeToString (l : bytes) : string :=
  match l with
  | [] => ""
  | [a] =>
      let n := byte_val a * 65536 in
      String (b64_digit (n / 262144)) (String (b64_digit (n / 4096 mod 64)) "==")
  | [a; b] =>
      let n := byte_val a * 65536 + byte_val b * 256 in
      String (b64_digit (n / 262144)) (String (b64_digit (n / 4096 mod 64))
        (String (b64_digit (n / 64 mod 64)) "="))
  | a :: b :: c :: l =>
      let n := byte_val a * 65536 + byte_val b * 256 + byte_val c in
      String (b64_digit (n / 262144)) (String (b64_digit (n / 4096 mod 64))
        (String (b64_digit (n / 64 mod 64)) (String (b64_digit (n mod 64))
          (base64_EncodeToString l))))
  end.

(** Three bytes at a time, as the encoder goes. *)
Lemma bytes_ind3 (P : bytes → Prop) :
  P [] → (∀ a, P [a]) → (∀ a b, P [a; b]) → (∀ a b c l, P l → P (a :: b :: c :: l)) → ∀ l, P l.
Proof.
  intros H0 H1 H2 H3. fix IH 1. intros [|a [|b [|c l]]]; [exact H0|apply H1|apply H2|apply H3, IH].
Qed.

Definition b64_val (c : ascii) : Z :=
  let n := Z.of_N (N_of_ascii c) in
  if n <? 47 then 62 else if n <? 48 then 63 else if n <? 58 then n + 4
  else if n <? 91 then n - 65 else n - 71.

Lemma b64_val_digit n : 0 <= n < 64 → b64_val (b64_digit n) = n ∧ b64_digit n ≠ "="%char.
Proof.
  intros Hn. assert (Hall : forallb (λ n, (b64_val (b64_digit (Z.of_nat n)) =? Z.of_nat n) &&
    negb (Ascii.eqb (b64_digit (Z.of_nat n)) "=")) (seq 0 64) = true) by reflexivity.
  rewrite forallb_forall in Hall. specialize (Hall (Z.to_nat n)).
  rewrite Z2Nat.id, andb_true_iff, Z.eqb_eq, negb_true_iff, Ascii.eqb_neq in Hall by lia.
  apply Hall, in_seq. lia.
Qed.

Lemma b64_digit_inj n m : 0 <= n < 64 → 0 <= m < 64 → b64_digit n = b64_digit m → n = m.
Proof.
  intros Hn Hm E. destruct (b64_val_digit n Hn) as [<- _]. rewrite E. by apply b64_val_digit.
Qed.

(** The four digits determine the 24 bits. *)
Lemma b64_quad n m :
  0 <= n < 2 ^ 24 → 0 <= m < 2 ^ 24 →
  b64_digit (n / 262144) = b64_digit (m / 262144) →
  b64_digit (n / 4096 mod 64) = b64_digit (m / 4096 mod 64) →
  (b64_digit (n / 64 mod 64) = b64_digit (m / 64 mod 64)) ∨ (n / 64 mod 64 = m / 64 mod 64) →
  (b64_digit (n mod 64) = b64_digit (m mod 64)) ∨ (n mod 64 = m mod 64) → n = m.
Proof.
  intros Hn Hm E1 E2 E3 E4.
  apply b64_digit_inj in E1; [|Z.div_mod_to_equations; lia|Z.div_mod_to_equations; lia].
  apply b64_digit_inj in E2; [|Z.div_mod_to_equations; lia|Z.div_mod_to_equations; lia].
  assert (n / 64 mod 64 = m / 64 mod 64) as E3'.
  { destruct E3 as [E3|E3]; [|done]. apply b64_digit_inj in E3; [done|Z.div_mod_to_equations; lia..]. }
  assert (n mod 64 = m mod 64) as E4'.
  { destruct E4 as [E4|E4]; [|done]. apply b64_digit_inj in E4; [done|Z.div_mod_to_equations; lia..]. }
  clear E3 E4. Z.div_mod_to_equations; lia.
Qed.

Lemma b64_digit_pad n : b64_digit (n mod 64) ≠ "="%char.
Proof. apply b64_val_digit. apply Z.mod_pos_bound. lia. Qed.

(** A padding sign is not a digit; equal digits are equal numbers. *)
Ltac b64_solve :=
  match goal with
  | H : b64_digit (?n mod 64) = "="%char |- _ => by destruct (b64_digit_pad n)
  | H : "="%char = b64_digit (?n mod 64) |- _ => by destruct (b64_digit_pad n)
  | H1 : b64_digit (?n / 262144) = b64_digit (?m / 262144),
    H2 : b64_digit (?n / 4096 mod 64) = b64_digit (?m / 4096 mod 64) |- _ =>
      assert (n = m) by (apply b64_quad; [lia|lia|done|done| |];
        solve [by left|right; Z.div_mod_to_equations; lia])
  end.

Lemma base64_Encode_inj l1 l2 : base64_EncodeToString l1 = base64_EncodeToString l2 → l1 = l2.
Proof.
  revert l2. induction l1 as [|a|a b|a b c l1 IH] using bytes_ind3; intros [|a' [|b' [|c' l2]]] E;
    try discriminate E; try reflexivity; cbn [base64_EncodeToString] in E; cbv zeta in E;
    pose proof (byte_val_range a); pose proof (byte_val_range a');
    try pose proof (byte_val_range b); try pose proof (byte_val_range b');
    try pose proof (byte_val_range c); try pose proof (byte_val_range c');
    injection E; intros; b64_solve.
  - f_equal. apply byte_val_inj. lia.
  - f_equal; [apply byte_val_inj; lia|]. f_equal. apply byte_val_inj; lia.
  - rewrite (IH l2) by done. f_equal; [apply byte_val_inj; lia|].
    f_equal; [apply byte_val_inj; lia|]. f_equal. apply byte_val_inj; lia.
Qed.

Lemma base64_Encode_mem c l :
  c ≠ "="%char → (∀ n, 0 <= n < 64 → b64_digit n ≠ c) → str_mem c (base64_EncodeToString l) = false.
Proof.
  intros Hc Hd. assert (Hq : ∀ x, 0 <= x < 64 → Ascii.eqb (b64_digit x) c = false)
    by (intros; apply Ascii.eqb_neq; auto).
  assert (He : Ascii.eqb "=" c = false) by (apply Ascii.eqb_neq; congruence).
  induction l as [|a|a b|a b d l IH] using bytes_ind3; [done| | |]; cbn [base64_EncodeToString str_mem];
    pose proof (byte_val_range a); try pose proof (byte_val_range b); try pose proof (byte_val_range d);
    cbv zeta; rewrite ?He, !Hq by (Z.div_mod_to_equations; lia); done.
Qed.

(** ** [strconv.Itoa], [strconv.FormatInt(_, 10)] and [strconv.ParseInt(_, 10, w)] *)

Definition dec_digit (n : Z) : ascii := ascii_of_N (Z.to_N (n + 48)).
Definition dec_val (c : ascii) : option Z :=
  let n := Z.of_N (N_of_ascii c) in
  if (48 <=? n) && (n <=? 57) then Some (n - 48) else None.

Fixpoint itoa_go (fuel : nat) (n : Z) (acc : string) : string :=
  match fuel with
  | O => acc
  | S fuel => if n <? 10 then String (dec_digit n) acc
              else itoa_go fuel (n / 10) (String (dec_digit (n mod 10)) acc)
  end.
Definition utoa (n : Z) : string := itoa_go (S (Z.to_nat (Z.log2 n))) n "".
Definition Itoa (n : Z) : string :=
  if n <? 0 then String "-" (utoa (- n)) else utoa n.

Fixpoint parse_digits (a : Z) (s : string) : option Z :=
  match s with
  | EmptyString => Some a
  | String c s => match dec_val c with
                  | Some d => parse_digits (a * 10 + d) s
                  | None => None
                  end
  end.
Definition parse_uint (s : string) : option Z :=
  match s with EmptyString => None | _ => parse_digits 0 s end.

(** [None] is a syntax or range error. *)
Definition ParseInt10 (w : Z) (s : string) : option Z :=
  let r := match s with
           | String c s' =>
               if Ascii.eqb c "-" then Z.opp <$> parse_uint s'
               else if Ascii.eqb c "+" then parse_uint s' else parse_uint s
           | EmptyString => None
           end in
  match r with
  | Some n => if (- 2 ^ (w - 1) <=? n) && (n <? 2 ^ (w - 1)) then Some n else None
  | None => None
  end.
Definition Atoi (s : string) : option Z := ParseInt10 64 s.

Lemma dec_val_digit n : 0 <= n < 10 → dec_val (dec_digit n) = Some n.
Proof.
  intros H. assert (∃ k, n = Z.of_nat k ∧ (k < 10)%nat) as (k & -> & Hk)
    by (exists (Z.to_nat n); lia).
  do 10 (destruct k as [|k]; [done|]). lia.
Qed.

Lemma parse_itoa_go fuel n s :
  0 <= n < 2 ^ Z.of_nat fuel → (0 < fuel)%nat →
  parse_digits 0 (itoa_go fuel n s) = parse_digits n s.
Proof.
  revert n s; induction fuel as [|fuel IH]; intros n s Hn Hf; [lia|].
  cbn [itoa_go]. destruct (n <? 10) eqn:E.
  - simpl. by rewrite dec_val_digit by lia.
  - apply Z.ltb_ge in E. rewrite Nat2Z.inj_succ, Z.pow_succ_r in Hn by lia.
    assert (0 < fuel)%nat by (destruct fuel; [simpl in Hn; lia|lia]).
    rewrite IH; [|split; [apply Z.div_pos; lia|]|done].
    + simpl. rewrite dec_val_digit by (apply Z.mod_pos_bound; lia).
      f_equal. rewrite (Z.div_mod n 10) at 3 by lia. lia.
    + apply Z.div_lt_upper_bound; lia.
Qed.

Lemma itoa_go_head fuel n s : ∃ c t, itoa_go (S fuel) n s = String c t ∧
  (0 <= n → is_Some (dec_val c)).
Proof.
  revert n s; induction fuel as [|fuel IH]; intros n s.
  - simpl. destruct (n <? 10) eqn:E; eexists _, _; (split; [done|]); intros.
    + rewrite dec_val_digit by lia. eauto.
    + rewrite dec_val_digit by (apply Z.mod_pos_bound; lia). eauto.
  - cbn [itoa_go]. destruct (n <? 10) eqn:E.
    + eexists _, _. split; [done|]. intros. rewrite dec_val_digit by lia. eauto.
    + destruct (IH (n / 10) (String (dec_digit (n mod 10)) s)) as (c & t & H & Hc).
      cbn [itoa_go] in H. eexists _, _. split; [exact H|]. intros. apply Hc.
      apply Z.div_pos; lia.
Qed.

Lemma parse_utoa n : 0 <= n → parse_uint (utoa n) = Some n.
Proof.
  intros Hn. unfold utoa.
  destruct (itoa_go_head (Z.to_nat (Z.log2 n)) n "") as (c & t & H & _).
  unfold parse_uint. rewrite H, <-H. rewrite parse_itoa_go; [done| |lia].
  split; [done|]. rewrite Nat2Z.inj_succ, Z2Nat.id by apply Z.log2_nonneg.
  destruct (decide (n = 0)) as [->|]; [done|]. apply Z.log2_spec. lia.
Qed.

Lemma Atoi_Itoa n : in_s 64 n → Atoi (Itoa n) = Some n.
Proof.
  intros Hn. unfold Atoi, ParseInt10, Itoa, in_s in *. destruct (n <? 0) eqn:E.
  - apply Z.ltb_lt in E. rewrite Ascii.eqb_refl, parse_utoa by lia. simpl.
    rewrite Z.opp_involutive.
    assert ((- 2 ^ (64 - 1) <=? n) && (n <? 2 ^ (64 - 1)) = true) as -> by lia. done.
  - apply Z.ltb_ge in E.
    destruct (itoa_go_head (Z.to_nat (Z.log2 n)) n "") as (c & t & H & Hc).
    pose proof (parse_utoa n E) as Hp. unfold utoa in *. rewrite H in *.
    destruct (Hc E) as [d Hd].
    destruct (Ascii.eqb_spec c "-") as [->|]; [done|].
    destruct (Ascii.eqb_spec c "+") as [->|]; [done|].
    rewrite Hp.
    assert ((- 2 ^ (64 - 1) <=? n) && (n <? 2 ^ (64 - 1)) = true) as -> by lia. done.
Qed.

Lemma Itoa_nonempty n : Itoa n ≠ "".
Proof.
  unfold Itoa. destruct (n <? 0); [done|]. unfold utoa.
  by destruct (itoa_go_head (Z.to_nat (Z.log2 n)) n "") as (c & t & -> & _).
Qed.

Lemma itoa_go_mem c fuel n s :
  dec_val c = None → 0 <= n → str_mem c s = false → str_mem c (itoa_go fuel n s) = false.
Proof.
  intros Hc. assert (∀ k, 0 <= k < 10 → Ascii.eqb (dec_digit k) c = false) as Hd.
  { intros k Hk. apply Ascii.eqb_neq. intros <-. by rewrite dec_val_digit in Hc. }
  revert n s. induction fuel as [|fuel IH]; intros n s Hn Hs; [done|]. cbn [itoa_go].
  destruct (Z.ltb_spec n 10); [cbn; rewrite Hd by lia; done|].
  apply IH; [apply Z.div_pos; lia|]. cbn. rewrite Hd; [done|]. apply Z.mod_pos_bound. lia.
Qed.

(** The digits of a number contain no byte that is not a digit. *)
Lemma Itoa_mem c n : dec_val c = None → 0 <= n → str_mem c (Itoa n) = false.
Proof. intros Hc Hn. unfold Itoa. rewrite (proj2 (Z.ltb_ge n 0)) by done. by apply itoa_go_mem. Qed.

(** [fmt.Sprintf("%0<width>d", n)] for [n >= 0]. *)
Definition pad_zero (width : nat) (s : string) : string :=
  Nat.iter (width - String.length s) (String "0") s.

(** [%08d] *)
Definition fmt_08d (z : Z) : string :=
  if z <? 0 then "-" +:+ pad_zero 7 (utoa (- z)) else pad_zero 8 (utoa z).

Lemma parse_digits_pad n s : parse_digits 0 (Nat.iter n (String "0") s) = parse_digits 0 s.
Proof. induction n as [|n IH]; [done|]. exact IH. Qed.

Lemma fmt_08d_inj n m : 0 <= n → 0 <= m → fmt_08d n = fmt_08d m → n = m.
Proof.
  intros Hn Hm E. unfold fmt_08d in E.
  rewrite (proj2 (Z.ltb_ge n 0)), (proj2 (Z.ltb_ge m 0)) in E by done.
  assert (∀ k, 0 <= k → parse_digits 0 (pad_zero 8 (utoa k)) = Some k) as H.
  { intros k Hk. unfold pad_zero. rewrite parse_digits_pad. pose proof (parse_utoa k Hk) as Hp.
    by destruct (utoa k). }
  apply (f_equal (parse_digits 0)) in E. rewrite !H in E by done. by simplify_eq.
Qed.

(** ** Base-128 digits, shared by the varint readers *)

Lemma land_127 v : Z.land v 127 = v mod 128.
Proof. change 127 with (Z.ones 7). by rewrite Z.land_ones by lia. Qed.

Lemma land_128_bit v : 0 <= v < 256 → (Z.land v 128 =? 0) = (v <? 128).
Proof.
  intros Hv. change 128 with (2 ^ 7) at 1. destruct (Z.ltb_spec v 128) as [H|H].
  - rewrite Z.eqb_eq. apply Z.bits_inj'. intros n Hn. rewrite Z.land_spec, Z.bits_0, Z.pow2_bits_eqb by lia.
    destruct (Z.eqb_spec 7 n) as [<-|]; [|by rewrite andb_false_r].
    by rewrite (Z.bits_above_log2 v 7) by (destruct (decide (v = 0)) as [->|]; [done|
      lia || (apply Z.log2_lt_pow2; lia)]).
  - apply Z.eqb_neq. intros E. assert (Z.testbit (Z.land v (2 ^ 7)) 7 = false) as Hb by (by rewrite E).
    rewrite Z.land_spec, Z.pow2_bits_eqb, andb_true_r in Hb by lia.
    assert (v / 128 = 1) as Hd by (symmetry; apply (Z.div_unique v 128 1 (v - 128)); lia).
    assert (Z.testbit v 7 = true); [|congruence].
    rewrite Z.testbit_true by lia. change (2 ^ 7) with 128. by rewrite Hd.
Qed.

(** Splitting off the low digit. *)
Lemma shiftl_digit v s :
  0 <= v → 0 <= s →
  Z.lor (Z.shiftl (v mod 128) s) (Z.shiftl (v / 128) (s + 7)) = Z.shiftl v s.
Proof.
  intros Hv Hs. rewrite <-land_127. change 128 with (2 ^ 7). rewrite <-Z.shiftr_div_pow2 by lia.
  apply Z.bits_inj'. intros n Hn. rewrite Z.lor_spec, !Z.shiftl_spec by lia.
  destruct (decide (n < s + 7)) as [Hlt|Hge].
  - rewrite (Z.testbit_neg_r (Z.shiftr v 7)) by lia. rewrite orb_false_r.
    destruct (decide (n < s)); [by rewrite !Z.testbit_neg_r by lia|].
    change 127 with (Z.ones 7). rewrite Z.land_spec, Z.testbit_ones_nonneg by lia.
    assert ((n - s <? 7) = true) as -> by lia. by rewrite andb_true_r.
  - rewrite Z.shiftr_spec by lia. change 127 with (Z.ones 7).
    rewrite Z.land_spec, Z.testbit_ones_nonneg by lia. assert ((n - s <? 7) = false) as -> by lia.
    rewrite andb_false_r. simpl. f_equal. lia.
Qed.

Lemma wrap_u_lor x y : Z.lor (wrap_u 32 x) (wrap_u 32 y) = wrap_u 32 (Z.lor x y).
Proof. unfold wrap_u. rewrite <-!Z.land_ones by lia. by rewrite Z.land_lor_distr_l. Qed.

(** * Base64 decoding

    [encoding/base64]: [StdEncoding] and [RawURLEncoding], decoding (not strict:
    line breaks are skipped and the unused bits of the last digit are ignored)
    and, for the raw URL alphabet, encoding. *)

Section encoding.
(** The URL alphabet, without padding; or the standard one, with it. *)
Context (raw_url : bool).

Definition digit_char (n : Z) : ascii :=
  if raw_url then (if n =? 62 then "-"%char else if n =? 63 then "_"%char else b64_digit n) else b64_digit n.

Definition digit_index (c : ascii) : option Z :=
  let n := Z.of_N (N_of_ascii c) in
  if (65 <=? n) && (n <=? 90) then Some (n - 65)
  else if (97 <=? n) && (n <=? 122) then Some (n - 71)
  else if (48 <=? n) && (n <=? 57) then Some (n + 4)
  else if Ascii.eqb c (if raw_url then "-" else "+") then Some 62
  else if Ascii.eqb c (if raw_url then "_" else "/") then Some 63
  else None.

Definition decode1 (a b : Z) : bytes := [byte_of (4 * a + b / 16)].
Definition decode2 (a b c : Z) : bytes := decode1 a b ++ [byte_of (b mod 16 * 16 + c / 4)].
Definition decode3 (a b c d : Z) : bytes := decode2 a b c ++ [byte_of (c mod 4 * 64 + d)].

Fixpoint decode_quads (s : string) : option bytes :=
  match s with
  | EmptyString => Some []
  | String a (String b s2) =>
      match digit_index a, digit_index b with
      | Some va, Some vb =>
          match s2 with
          | EmptyString => if raw_url then Some (decode1 va vb) else None
          | String c s3 =>
              match digit_index c with
              | Some vc =>
                  match s3 with
                  | EmptyString => if raw_url then Some (decode2 va vb vc) else None
                  | String d s4 =>
                      match digit_index d with
                      | Some vd => (λ l, decode3 va vb vc vd ++ l) <$> decode_quads s4
                      | None => if negb raw_url && Ascii.eqb d "=" && String.eqb s4 "" then Some (decode2 va vb vc) else None
                      end
                  end
              | None => if negb raw_url && Ascii.eqb c "=" && String.eqb s3 "=" then Some (decode1 va vb) else None
              end
          end
      | _, _ => None
      end
  | String _ EmptyString => None
  end.

(** Line breaks are skipped. *)
Fixpoint drop_breaks (s : string) : string :=
  match s with
  | String c s => if Ascii.eqb c (ascii_of_N 10) || Ascii.eqb c (ascii_of_N 13) then drop_breaks s else String c (drop_breaks s)
  | EmptyString => ""
  end.
Definition DecodeString (s : string) : option bytes := decode_quads (drop_breaks s).

End encoding.

Lemma digit_index_char raw_url n : 0 <= n < 64 → digit_index raw_url (digit_char raw_url n) = Some n.
Proof.
  intros Hn. assert (Hall : forallb (λ i, match digit_index raw_url (digit_char raw_url (Z.of_nat i)) with Some m => m =? Z.of_nat i | None => false end) (seq 0 64) = true)
    by (destruct raw_url; vm_compute; reflexivity).
  rewrite forallb_forall in Hall. specialize (Hall (Z.to_nat n)). rewrite Z2Nat.id in Hall by lia.
  specialize (Hall ltac:(apply in_seq; lia)). destruct (digit_index raw_url (digit_char raw_url n)) as [m|]; [|done].
  apply Z.eqb_eq in Hall. by subst.
Qed.

(** ** Encoding with the raw URL alphabet *)

Fixpoint RawURL_EncodeToString (l : bytes) : string :=
  match l with
  | [] => ""
  | [a] =>
      let n := byte_val a * 65536 in
      String (digit_char true (n / 262144)) (String (digit_char true (n / 4096 mod 64)) "")
  | [a; b] =>
      let n := byte_val a * 65536 + byte_val b * 256 in
      String (digit_char true (n / 262144)) (String (digit_char true (n / 4096 mod 64))
        (String (digit_char true (n / 64 mod 64)) ""))
  | a :: b :: c :: l =>
      let n := byte_val a * 65536 + byte_val b * 256 + byte_val c in
      String (digit_char true (n / 262144)) (String (digit_char true (n / 4096 mod 64))
        (String (digit_char true (n / 64 mod 64)) (String (digit_char true (n mod 64)) (RawURL_EncodeToString l))))
  end.
Definition RawURL_DecodeString : string → option bytes := DecodeString true.
Definition Std_DecodeString : string → option bytes := DecodeString false.

(** ** Round trips *)

Lemma byte_of_eq z b : z = byte_val b → byte_of z = b.
Proof. intros ->. apply byte_of_val. Qed.

Lemma decode1_bytes a : decode1 (byte_val a * 65536 / 262144) (byte_val a * 65536 / 4096 mod 64) = [a].
Proof. pose proof (byte_val_range a). unfold decode1. f_equal. apply byte_of_eq. Z.div_mod_to_equations; lia. Qed.

Lemma decode2_bytes a b :
  let n := byte_val a * 65536 + byte_val b * 256 in decode2 (n / 262144) (n / 4096 mod 64) (n / 64 mod 64) = [a; b].
Proof.
  pose proof (byte_val_range a). pose proof (byte_val_range b). unfold decode2, decode1. cbn [app].
  repeat f_equal; apply byte_of_eq; Z.div_mod_to_equations; lia.
Qed.

Lemma decode3_bytes a b c :
  let n := byte_val a * 65536 + byte_val b * 256 + byte_val c in
  decode3 (n / 262144) (n / 4096 mod 64) (n / 64 mod 64) (n mod 64) = [a; b; c].
Proof.
  pose proof (byte_val_range a). pose proof (byte_val_range b). pose proof (byte_val_range c).
  unfold decode3, decode2, decode1. cbn [app]. repeat f_equal; apply byte_of_eq; Z.div_mod_to_equations; lia.
Qed.

Ltac digit_ranges :=
  match goal with
  | |- 0 <= _ mod _ < _ => apply Z.mod_pos_bound; lia
  | |- 0 <= ?n / _ < _ => Z.div_mod_to_equations; lia
  end.

Lemma decode_quads_raw l : decode_quads true (RawURL_EncodeToString l) = Some l.
Proof.
  induction l as [|a|a b|a b c l IH] using bytes_ind3; [done| | |]; cbn [RawURL_EncodeToString decode_quads]; cbv zeta;
    pose proof (byte_val_range a); try pose proof (byte_val_range b); try pose proof (byte_val_range c);
    rewrite ?digit_index_char by digit_ranges.
  - by rewrite decode1_bytes.
  - by rewrite decode2_bytes.
  - rewrite IH. cbn [fmap option_fmap option_map]. by rewrite decode3_bytes.
Qed.

Lemma decode_quads_std l : decode_quads false (base64_EncodeToString l) = Some l.
Proof.
  assert (∀ n, b64_digit n = digit_char false n) as Hd by done.
  induction l as [|a|a b|a b c l IH] using bytes_ind3; [done| | |]; cbn [base64_EncodeToString decode_quads]; cbv zeta;
    pose proof (byte_val_range a); try pose proof (byte_val_range b); try pose proof (byte_val_range c);
    rewrite ?Hd, ?digit_index_char by digit_ranges.
  - change (digit_index false "=") with (None : option Z). cbn [negb andb Ascii.eqb Bool.eqb String.eqb]. by rewrite decode1_bytes.
  - change (digit_index false "=") with (None : option Z). cbn [negb andb Ascii.eqb Bool.eqb String.eqb]. by rewrite decode2_bytes.
  - rewrite IH. cbn [fmap option_fmap option_map]. by rewrite decode3_bytes.
Qed.

(** The digits are neither line breaks nor dots. *)
Lemma raw_url_bytes l c : digit_index true c = None → str_mem c (RawURL_EncodeToString l) = false.
Proof.
  intros Hc. assert (∀ n, 0 <= n < 64 → Ascii.eqb (digit_char true n) c = false) as Hd.
  { intros n Hn. apply Ascii.eqb_neq. intros <-. by rewrite digit_index_char in Hc. }
  induction l as [|a|a b|a b d l IH] using bytes_ind3; [done| | |]; cbn [RawURL_EncodeToString str_mem]; cbv zeta;
    pose proof (byte_val_range a); try pose proof (byte_val_range b); try pose proof (byte_val_range d);
    rewrite !Hd by digit_ranges; done.
Qed.

Lemma drop_breaks_id s : str_mem (ascii_of_N 10) s = false → str_mem (ascii_of_N 13) s = false → drop_breaks s = s.
Proof.
  induction s as [|c s IH]; [done|]. cbn [str_mem drop_breaks]. intros [-> H1]%orb_false_iff [-> H2]%orb_false_iff.
  by rewrite IH.
Qed.

Lemma RawURL_round_trip l : RawURL_DecodeString (RawURL_EncodeToString l) = Some l.
Proof.
  unfold RawURL_DecodeString, DecodeString. rewrite drop_breaks_id by by apply raw_url_bytes. apply decode_quads_raw.
Qed.

Lemma Std_round_trip l : Std_DecodeString (base64_EncodeToString l) = Some l.
Proof.
  unfold Std_DecodeString, DecodeString. rewrite drop_breaks_id.
  - apply decode_quads_std.
  - apply base64_Encode_mem; [done|]. intros n Hn E. pose proof (digit_index_char false n Hn) as H.
    change (digit_char false n) with (b64_digit n) in H. by rewrite E in H.
  - apply base64_Encode_mem; [done|]. intros n Hn E. pose proof (digit_index_char false n Hn) as H.
    change (digit_char false n) with (b64_digit n) in H. by rewrite E in H.
Qed.

Example decode_examples : RawURL_DecodeString "AQAB" = Some [byte_of 1; byte_of 0; byte_of 1] ∧
  RawURL_DecodeString "_w" = Some [byte_of 255] ∧ Std_DecodeString "/w==" = Some [byte_of 255] ∧
  Std_DecodeString "/w" = None ∧ RawURL_DecodeString "_w==" = None ∧ RawURL_DecodeString "A" = None.
Proof. vm_compute. split_and!; reflexivity. Qed.
