(* ===== verification/GoCrypto.v ===== *)
(** * The hash functions of Go's standard library

    [crypto/md5], [crypto/sha256] and [crypto/hmac] over byte lists, executable
    so that entity tags, content digests and request signatures can be computed
    on concrete inputs.  Words are 32-bit [Z]s. *)

From S2P Require Import Prelude GoStrings GoBytes.

Definition m32 (z : Z) : Z := Z.land z 4294967295.
Definition rotl32 (n z : Z) : Z := m32 (Z.lor (Z.shiftl z n) (Z.shiftr z (32 - n))).
Definition not32 (z : Z) : Z := Z.lxor z 4294967295.

(** Groups of [n] consecutive elements ([fuel] bounds their number). *)
Fixpoint chunks {A} (fuel n : nat) (l : list A) : list (list A) :=
  match fuel, l with
  | S fuel, _ :: _ => take n l :: chunks fuel n (drop n l)
  | _, _ => []
  end.
Definition chunks_of {A} (n : nat) (l : list A) : list (list A) := chunks (length l) n l.

(** Merkle-Damgard padding to a multiple of 64 bytes; [len8] is the 8-byte
    encoding of the bit length. *)
Definition md_pad (len8 : bytes) (msg : bytes) : bytes :=
  let zeros := Z.to_nat ((55 - Z.of_nat (length msg)) mod 64) in
  msg ++ byte_of 128 :: replicate zeros (byte_of 0) ++ len8.

Definition bit_length (msg : bytes) : Z := 8 * Z.of_nat (length msg).

(** ** MD5 (RFC 1321) *)

Definition md5_K : list Z := [
   3614090360; 3905402710; 606105819; 3250441966;
   4118548399; 1200080426; 2821735955; 4249261313;
   1770035416; 2336552879; 4294925233; 2304563134;
   1804603682; 4254626195; 2792965006; 1236535329;
   4129170786; 3225465664; 643717713; 3921069994;
   3593408605; 38016083; 3634488961; 3889429448;
   568446438; 3275163606; 4107603335; 1163531501;
   2850285829; 4243563512; 1735328473; 2368359562;
   4294588738; 2272392833; 1839030562; 4259657740;
   2763975236; 1272893353; 4139469664; 3200236656;
   681279174; 3936430074; 3572445317; 76029189;
   3654602809; 3873151461; 530742520; 3299628645;
   4096336452; 1126891415; 2878612391; 4237533241;
   1700485571; 2399980690; 4293915773; 2240044497;
   1873313359; 4264355552; 2734768916; 1309151649;
   4149444226; 3174756917; 718787259; 3951481745].

Definition md5_s : list Z :=
  let row l := l ++ l ++ l ++ l in
  row [7; 12; 17; 22] ++ row [5; 9; 14; 20] ++ row [4; 11; 16; 23] ++ row [6; 10; 15; 21].

Definition le_encode (n : nat) (z : Z) : bytes := reverse (be_encode n z).
Definition le_decode (l : bytes) : Z := be_decode (reverse l).

Definition md5_round (w : list Z) (st : Z * Z * Z * Z) (i : nat) : Z * Z * Z * Z :=
  let '(a, b, c, d) := st in
  let iz := Z.of_nat i in
  let '(f, g) :=
    if iz <? 16 then (Z.lor (Z.land b c) (Z.land (not32 b) d), iz)
    else if iz <? 32 then (Z.lor (Z.land d b) (Z.land (not32 d) c), (5 * iz + 1) mod 16)
    else if iz <? 48 then (Z.lxor b (Z.lxor c d), (3 * iz + 5) mod 16)
    else (Z.lxor c (Z.lor b (not32 d)), (7 * iz) mod 16) in
  let x := m32 (f + a + nth i md5_K 0 + nth (Z.to_nat g) w 0) in
  (d, m32 (b + rotl32 (nth i md5_s 0) x), b, c).

Definition md5_block (st : Z * Z * Z * Z) (blk : bytes) : Z * Z * Z * Z :=
  let w := le_decode <$> chunks_of 4 blk in
  let '(a, b, c, d) := st in
  let '(a', b', c', d') := fold_left (md5_round w) (seq 0 64) st in
  (m32 (a + a'), m32 (b + b'), m32 (c + c'), m32 (d + d')).

(** [md5.Sum] *)
Definition md5_Sum (msg : bytes) : bytes :=
  let '(a, b, c, d) :=
    fold_left md5_block (chunks_of 64 (md_pad (le_encode 8 (bit_length msg)) msg))
      (1732584193, 4023233417, 2562383102, 271733878) in
  le_encode 4 a ++ le_encode 4 b ++ le_encode 4 c ++ le_encode 4 d.

Lemma md5_Sum_length msg : length (md5_Sum msg) = 16%nat.
Proof.
  unfold md5_Sum. destruct (fold_left _ _ _) as [[[a b] c] d].
  rewrite !length_app. unfold le_encode. by rewrite !length_reverse, !length_be_encode.
Qed.

(** ** SHA-256 (FIPS 180-4)

    The round constants are the leading fraction bits of cube roots of primes;
    they are computed here by integer root extraction. *)

Fixpoint isqrt_go (fuel : nat) (bit acc k n : Z) : Z :=
  match fuel with
  | O => acc
  | S fuel => let acc' := acc + bit in
      isqrt_go fuel (bit / 2) (if acc' ^ k <=? n then acc' else acc) k n
  end.
(** The integer [k]-th root of [n], for roots below 2^40. *)
Definition iroot (k n : Z) : Z := isqrt_go 40 (2 ^ 39) 0 k n.

Definition is_prime (n : nat) : bool :=
  forallb (λ d, negb (Nat.eqb (n mod d) 0)) (seq 2 (n - 2)).
Definition sha_primes : list Z :=
  Eval vm_compute in Z.of_nat <$> filter (λ n, is_prime n = true) (seq 2 310).
Definition sha256_K : list Z :=
  Eval vm_compute in (λ p, m32 (iroot 3 (p * 2 ^ 96))) <$> sha_primes.
Definition sha256_H : list Z :=
  Eval vm_compute in (λ p, m32 (iroot 2 (p * 2 ^ 64))) <$> take 8 sha_primes.

Definition rotr32 (n z : Z) : Z := rotl32 (32 - n) z.

(** The message schedule, newest word first. *)
Fixpoint sha256_extend (fuel : nat) (rw : list Z) : list Z :=
  match fuel with
  | O => rw
  | S fuel =>
      let w2 := nth 1 rw 0 in let w7 := nth 6 rw 0 in
      let w15 := nth 14 rw 0 in let w16 := nth 15 rw 0 in
      let s0 := Z.lxor (rotr32 7 w15) (Z.lxor (rotr32 18 w15) (Z.shiftr w15 3)) in
      let s1 := Z.lxor (rotr32 17 w2) (Z.lxor (rotr32 19 w2) (Z.shiftr w2 10)) in
      sha256_extend fuel (m32 (w16 + s0 + w7 + s1) :: rw)
  end.

Definition sha_state : Type := Z * Z * Z * Z * Z * Z * Z * Z.

Definition sha256_round (st : sha_state) (kw : Z * Z) : sha_state :=
  let '(a, b, c, d, e, f, g, h) := st in
  let S1 := Z.lxor (rotr32 6 e) (Z.lxor (rotr32 11 e) (rotr32 25 e)) in
  let ch := Z.lxor (Z.land e f) (Z.land (not32 e) g) in
  let t1 := h + S1 + ch + fst kw + snd kw in
  let S0 := Z.lxor (rotr32 2 a) (Z.lxor (rotr32 13 a) (rotr32 22 a)) in
  let maj := Z.lxor (Z.land a b) (Z.lxor (Z.land a c) (Z.land b c)) in
  (m32 (t1 + S0 + maj), a, b, c, m32 (d + t1), e, f, g).

Definition sha256_block (st : sha_state) (blk : bytes) : sha_state :=
  let w := reverse (sha256_extend 48 (reverse (be_decode <$> chunks_of 4 blk))) in
  let '(a, b, c, d, e, f, g, h) := st in
  let '(a', b', c', d', e', f', g', h') :=
    fold_left sha256_round (zip sha256_K w) st in
  (m32 (a + a'), m32 (b + b'), m32 (c + c'), m32 (d + d'),
   m32 (e + e'), m32 (f + f'), m32 (g + g'), m32 (h + h')).

Definition sha256_init : sha_state :=
  let x i := nth i sha256_H 0 in (x 0, x 1, x 2, x 3, x 4, x 5, x 6, x 7)%nat.

(** [sha256.Sum256] *)
Definition sha256_Sum256 (msg : bytes) : bytes :=
  let '(a, b, c, d, e, f, g, h) :=
    fold_left sha256_block (chunks_of 64 (md_pad (be_encode 8 (bit_length msg)) msg))
      sha256_init in
  be_encode 4 a ++ be_encode 4 b ++ be_encode 4 c ++ be_encode 4 d ++
  be_encode 4 e ++ be_encode 4 f ++ be_encode 4 g ++ be_encode 4 h.

Lemma sha256_length msg : length (sha256_Sum256 msg) = 32%nat.
Proof.
  unfold sha256_Sum256. destruct (fold_left _ _ _) as [[[[[[[a b] c] d] e] f] g] h].
  by rewrite !length_app, !length_be_encode.
Qed.

(** ** [hmac.New(sha256.New, key)], written and summed *)

Definition xor_bytes (z : Z) (l : bytes) : bytes := (λ b, byte_of (Z.lxor z (byte_val b))) <$> l.

Definition hmac_sha256 (key msg : bytes) : bytes :=
  let k := if (64 <? length key)%nat then sha256_Sum256 key else key in
  let k := k ++ replicate (64 - length k) (byte_of 0) in
  sha256_Sum256 (xor_bytes 92 k ++ sha256_Sum256 (xor_bytes 54 k ++ msg)).

Lemma hmac_sha256_length key msg : length (hmac_sha256 key msg) = 32%nat.
Proof. unfold hmac_sha256. cbv zeta. apply sha256_length. Qed.

(** ** Published test vectors *)

Example md5_abc :
  hex_EncodeToString (md5_Sum (bytes_of_string "abc")) = "900150983cd24fb0d6963f7d28e17f72".
Proof. vm_compute. reflexivity. Qed.

Example sha256_abc :
  hex_EncodeToString (sha256_Sum256 (bytes_of_string "abc")) =
  "ba7816bf8f01cfea414140de5dae2223b00361a396177a9cb410ff61f20015ad".
Proof. vm_compute. reflexivity. Qed.

Example hmac_rfc4231_2 :
  hex_EncodeToString (hmac_sha256 (bytes_of_string "Jefe")
    (bytes_of_string "what do ya want for nothing?")) =
  "5bdcc146bf60754e6a042426089575c75a003f089d2739839dec58b964ec3843".
Proof. vm_compute. reflexivity. Qed.
