(* ===== verification/GoTime.v ===== *)
(** * The parts of package time the program uses

    Calendar dates, [time.Parse] and [Format] for the layout
    [20060102T150405Z], [Time.Sub] and [Duration.String].  A parsed time is kept
    as its UTC components, which [Format] prints; [instant] is the number of
    nanoseconds since the Unix epoch. *)

From Stdlib Require Import Ascii.
From S2P Require Import Prelude GoStrings GoBytes.

Record civil := mkCivil {
  year : Z; month : Z; day : Z; hour : Z; minute : Z; second : Z; nsec : Z }.

Definition is_leap (y : Z) : bool := (y mod 4 =? 0) && (negb (y mod 100 =? 0) || (y mod 400 =? 0)).
Definition daysIn (m y : Z) : Z :=
  if m =? 2 then (if is_leap y then 29 else 28)
  else if (m =? 4) || (m =? 6) || (m =? 9) || (m =? 11) then 30 else 31.

(** Days since 1970-01-01 of a date of the proleptic Gregorian calendar. *)
Definition days_from_civil (y m d : Z) : Z :=
  let y := if m <=? 2 then y - 1 else y in
  let era := y / 400 in
  let yoe := y - era * 400 in
  let doy := (153 * (if 2 <? m then m - 3 else m + 9) + 2) / 5 + d - 1 in
  let doe := yoe * 365 + yoe / 4 - yoe / 100 + doy in
  era * 146097 + doe - 719468.

Definition instant (c : civil) : Time :=
  ((days_from_civil (year c) (month c) (day c) * 86400 + hour c * 3600 + minute c * 60 + second c)
     * Second) + nsec c.

(** [n] leading digits. *)
Fixpoint take_digits (n : nat) (a : Z) (s : string) : option (Z * string) :=
  match n with
  | O => Some (a, s)
  | S n => match s with
           | String c s => match dec_val c with Some d => take_digits n (a * 10 + d) s | None => None end
           | EmptyString => None
           end
  end.
Definition getnum (n : nat) (s : string) : option (Z * string) := take_digits n 0 s.

Fixpoint span_digits (s : string) : string * string :=
  match s with
  | String c s' => match dec_val c with
                   | Some _ => let '(a, b) := span_digits s' in (String c a, b)
                   | None => ("", s)
                   end
  | EmptyString => ("", "")
  end.

(** The nanoseconds of a fraction's digits: at most nine of them count. *)
Definition fraction_nsec (digits : string) : Z :=
  let d := str_take 9 digits in
  default 0 (fst <$> getnum (String.length d) d) * 10 ^ (9 - Z.of_nat (String.length d)).

(** A fraction after the seconds, which [time.Parse] accepts although the
    layout has none: a period or comma and at least one digit. *)
Definition parse_fraction (s : string) : Z * string :=
  match s with
  | String c (String c' _ as rest) =>
      if (Ascii.eqb c "."%char || Ascii.eqb c ","%char) && bool_decide (is_Some (dec_val c'))
      then let '(ds, rest) := span_digits rest in (fraction_nsec ds, rest)
      else (0, s)
  | _ => (0, s)
  end.

Definition skip (c : ascii) (s : string) : option string :=
  match s with String c' s => if Ascii.eqb c' c then Some s else None | EmptyString => None end.

(** [time.Parse("20060102T150405Z", s)]. *)
Definition Parse_amz (s : string) : option civil :=
  '(y, s) ← getnum 4 s; '(m, s) ← getnum 2 s; '(d, s) ← getnum 2 s;
  s ← skip "T"%char s;
  '(h, s) ← getnum 2 s; '(mi, s) ← getnum 2 s; '(sec, s) ← getnum 2 s;
  let '(ns, s) := parse_fraction s in
  s ← skip "Z"%char s;
  if String.eqb s "" && (1 <=? m) && (m <=? 12) && (h <? 24) && (mi <? 60) && (sec <? 60) &&
     (1 <=? d) && (d <=? daysIn m y)
  then Some (mkCivil y m d h mi sec ns) else None.

(** [Format("20060102")] and [Format("20060102T150405Z")]. *)
Definition Format_date (c : civil) : string :=
  pad_zero 4 (Itoa (year c)) +:+ pad_zero 2 (Itoa (month c)) +:+ pad_zero 2 (Itoa (day c)).
Definition Format_amz (c : civil) : string :=
  Format_date c +:+ "T" +:+ pad_zero 2 (Itoa (hour c)) +:+ pad_zero 2 (Itoa (minute c)) +:+
  pad_zero 2 (Itoa (second c)) +:+ "Z".

(** [t.Sub(u)] saturates at the ends of int64. *)
Definition Sub (t u : Time) : Duration := Z.max (- 2 ^ 63) (Z.min (2 ^ 63 - 1) (t - u)).

(** ** [Duration.String] *)

(** The fraction of [v / 10^prec], without trailing zeros. *)
Definition fmt_frac (v : Z) (prec : nat) : string :=
  let r := v mod 10 ^ Z.of_nat prec in
  if r =? 0 then ""
  else "." +:+ trim_right_byte "0"%char (pad_zero prec (Itoa r)).

Definition Duration_String (d : Duration) : string :=
  let neg := d <? 0 in
  let u := wrap_u 64 (Z.abs d) in
  let body :=
    if u =? 0 then "0s"
    else if u <? 1000 then Itoa u +:+ "ns"
    else if u <? 1000000 then Itoa (u / 1000) +:+ fmt_frac u 3 +:+ str_of_codes [194; 181]%N +:+ "s"
    else if u <? 1000000000 then Itoa (u / 1000000) +:+ fmt_frac u 6 +:+ "ms"
    else
      let s := u / 1000000000 in
      let secs := Itoa (s mod 60) +:+ fmt_frac u 9 +:+ "s" in
      let m := s / 60 in
      if m =? 0 then secs
      else let mins := Itoa (m mod 60) +:+ "m" +:+ secs in
           let h := m / 60 in
           if h =? 0 then mins else Itoa h +:+ "h" +:+ mins
  in if neg then "-" +:+ body else body.

Example Duration_String_15m : Duration_String (15 * Minute) = "15m0s".
Proof. vm_compute. reflexivity. Qed.
Example Duration_String_frac : Duration_String 1500000000 = "1.5s".
Proof. vm_compute. reflexivity. Qed.
Example Parse_amz_epoch : instant <$> Parse_amz "19700102T000001Z" = Some (86401 * Second).
Proof. vm_compute. reflexivity. Qed.
Example Parse_amz_format : Format_amz <$> Parse_amz "20260229T000001Z" = None.
Proof. vm_compute. reflexivity. Qed.
Example Parse_amz_frac : (λ c, (Format_amz c, nsec c)) <$> Parse_amz "20240229T235959.25Z" =
  Some ("20240229T235959Z", 250000000).
Proof. vm_compute. reflexivity. Qed.

Lemma Sub_exact t u d : in_s 64 d → - 2 ^ 63 < d < 2 ^ 63 - 1 → Sub t u = d ↔ t - u = d.
Proof. unfold Sub, in_s. intros. lia. Qed.

(** * Calendar dates of an instant and the HTTP date format

    [time.Time.UTC], [Weekday] and [Format(http.TimeFormat)], and that the
    calendar fields of an instant denote that instant again. *)

(** The date of a day since 1970-01-01, by the 400-year cycles of the calendar. *)
Definition civil_from_days (z : Z) : Z * Z * Z :=
  let z := z + 719468 in
  let era := z / 146097 in
  let doe := z - era * 146097 in
  let yoe := (doe - doe / 1460 + doe / 36524 - doe / 146096) / 365 in
  let doy := doe - (365 * yoe + yoe / 4 - yoe / 100) in
  let mp := (5 * doy + 2) / 153 in
  let d := doy - (153 * mp + 2) / 5 + 1 in
  let m := if mp <? 10 then mp + 3 else mp - 9 in
  ((yoe + era * 400) + (if m <=? 2 then 1 else 0), m, d).

(** [t.UTC()], by its fields. *)
Definition civil_of (t : Time) : civil :=
  let s := t / Second in
  let days := s / 86400 in
  let r := s mod 86400 in
  let '(y, m, d) := civil_from_days days in
  mkCivil y m d (r / 3600) (r mod 3600 / 60) (r mod 60) (t mod Second).

(** 1970-01-01 was a Thursday; 0 is Sunday. *)
Definition Weekday (t : Time) : Z := (t / Second / 86400 + 4) mod 7.

Definition shortDayNames : list string := ["Sun"; "Mon"; "Tue"; "Wed"; "Thu"; "Fri"; "Sat"].
Definition shortMonthNames : list string :=
  ["Jan"; "Feb"; "Mar"; "Apr"; "May"; "Jun"; "Jul"; "Aug"; "Sep"; "Oct"; "Nov"; "Dec"].

Definition format_year (y : Z) : string :=
  if y <? 0 then "-" +:+ pad_zero 4 (Itoa (- y)) else pad_zero 4 (Itoa y).

(** [t.UTC().Format(http.TimeFormat)], the layout [Mon, 02 Jan 2006 15:04:05 GMT]. *)
Definition Format_http (t : Time) : string :=
  let c := civil_of t in
  nth (Z.to_nat (Weekday t)) shortDayNames "" +:+ ", " +:+ pad_zero 2 (Itoa (day c)) +:+ " " +:+
  nth (Z.to_nat (month c - 1)) shortMonthNames "" +:+ " " +:+ format_year (year c) +:+ " " +:+
  pad_zero 2 (Itoa (hour c)) +:+ ":" +:+ pad_zero 2 (Itoa (minute c)) +:+ ":" +:+
  pad_zero 2 (Itoa (second c)) +:+ " GMT".

Example Format_http_epoch : Format_http 0 = "Thu, 01 Jan 1970 00:00:00 GMT".
Proof. vm_compute. reflexivity. Qed.
Example Format_http_leap : Format_http (1709251199 * Second + 5) = "Thu, 29 Feb 2024 23:59:59 GMT".
Proof. vm_compute. reflexivity. Qed.
Example Format_http_zero : Format_http zeroTime = "Mon, 01 Jan 0001 00:00:00 GMT".
Proof. vm_compute. reflexivity. Qed.

(** ** The fields denote the instant *)

(** The year of a day of the 400-year cycle that starts on March 1, and the
    day of that year; only a leap year has a day 365. *)
Lemma year_of_cycle doe yoe doy :
  0 <= doe < 146097 →
  yoe = (doe - doe / 1460 + doe / 36524 - doe / 146096) / 365 →
  doy = doe - (365 * yoe + yoe / 4 - yoe / 100) →
  0 <= yoe < 400 ∧ 0 <= doy <= 365 ∧
  (doy = 365 → (yoe + 1) mod 4 = 0 ∧ ((yoe + 1) mod 100 ≠ 0 ∨ (yoe + 1) mod 400 = 0)).
Proof. intros H -> ->. Z.to_euclidean_division_equations; lia. Qed.

(** The month and day of a day of the year that starts on March 1, checked day
    by day for leap years and others. *)
Definition month_day (doy : Z) : Z * Z * Z :=
  let mp := (5 * doy + 2) / 153 in
  (mp, if mp <? 10 then mp + 3 else mp - 9, doy - (153 * mp + 2) / 5 + 1).

Definition month_day_ok (doy : Z) : bool :=
  let '(mp, m, d) := month_day doy in
  (1 <=? m) && (m <=? 12) && ((if 2 <? m then m - 3 else m + 9) =? mp) && (1 <=? d) &&
  (d <=? daysIn m 2000) && ((doy =? 365) || (d <=? daysIn m 2001)).

Lemma month_days_checked :
  forallb (λ n, month_day_ok (Z.of_nat n)) (seq 0 366) = true.
Proof. vm_compute. reflexivity. Qed.

Lemma daysIn_leap m y : daysIn m y = daysIn m (if is_leap y then 2000 else 2001).
Proof. unfold daysIn. by destruct (is_leap y). Qed.

Lemma month_of_year doy :
  0 <= doy <= 365 →
  let '(mp, m, d) := month_day doy in
  1 <= m <= 12 ∧ (if 2 <? m then m - 3 else m + 9) = mp ∧ 1 <= d ∧
  ∀ y, (doy = 365 → is_leap y = true) → d <= daysIn m y.
Proof.
  intros H. pose proof (proj1 (forallb_forall _ _) month_days_checked (Z.to_nat doy)) as Hok.
  rewrite in_seq, Z2Nat.id in Hok by lia. specialize (Hok ltac:(lia)). unfold month_day_ok in Hok.
  destruct (month_day doy) as [[mp m] d].
  rewrite !andb_true_iff, orb_true_iff, !Z.leb_le, !Z.eqb_eq in Hok.
  destruct Hok as (((((? & ?) & ?) & ?) & Hl) & Hn). split_and!; [done..|].
  intros y Hy. rewrite daysIn_leap. destruct (is_leap y); [done|]. destruct Hn as [E|]; [|done].
  by specialize (Hy E).
Qed.

Lemma is_leap_cycle y era : is_leap (y + era * 400) = is_leap y.
Proof.
  unfold is_leap. rewrite (Z.add_mod y _ 400), Z.mod_mul, Z.add_0_r, Z.mod_mod by lia.
  assert ((y + era * 400) mod 4 = y mod 4) as -> by (Z.to_euclidean_division_equations; lia).
  assert ((y + era * 400) mod 100 = y mod 100) as -> by (Z.to_euclidean_division_equations; lia).
  done.
Qed.

(** Every day has a date of the calendar, and that date is that day. *)
Lemma civil_from_days_spec z :
  let '(y, m, d) := civil_from_days z in
  1 <= m <= 12 ∧ 1 <= d <= daysIn m y ∧ days_from_civil y m d = z.
Proof.
  unfold civil_from_days. cbv zeta. set (doe := _ - _ * 146097). set (yoe := (doe - _ + _ - _) / 365).
  set (doy := doe - (365 * yoe + _ - _)). set (mp := (5 * doy + 2) / 153).
  set (m := if mp <? 10 then mp + 3 else mp - 9). set (era := (z + 719468) / 146097).
  assert (0 <= doe < 146097) as Hdoe by (subst doe; Z.to_euclidean_division_equations; lia).
  destruct (year_of_cycle doe yoe doy Hdoe eq_refl eq_refl) as (Hyoe & Hdoy & Hleap).
  pose proof (month_of_year doy Hdoy) as Hmd. unfold month_day in Hmd. fold mp in Hmd. fold m in Hmd.
  destruct Hmd as (Hm & Hmp & Hd & Hdays).
  split; [done|]. split; [split; [done|apply Hdays]|].
  { intros E. destruct (Hleap E) as [H1 H2]. destruct (Z.leb_spec m 2) as [|Hm2].
    - replace (yoe + era * 400 + 1) with (yoe + 1 + era * 400) by lia. rewrite is_leap_cycle.
      unfold is_leap. rewrite H1. simpl. destruct H2 as [H2|H2].
      + by rewrite (proj2 (Z.eqb_neq _ _) H2).
      + rewrite H2. by rewrite orb_true_r.
    - exfalso. subst m mp. rewrite E in Hm2. by vm_compute in Hm2. }
  unfold days_from_civil.
  assert ((if m <=? 2 then (yoe + era * 400 + (if m <=? 2 then 1 else 0)) - 1
           else yoe + era * 400 + (if m <=? 2 then 1 else 0)) = yoe + era * 400) as ->
    by (destruct (m <=? 2); lia).
  rewrite (Z.div_add yoe era 400), (Z.div_small yoe 400), Z.add_0_l by lia.
  rewrite Hmp. replace (yoe + era * 400 - era * 400) with yoe by lia.
  subst doy doe era. lia.
Qed.

(** The calendar fields are in range and denote the instant again. *)
Lemma civil_of_instant t :
  let c := civil_of t in
  instant c = t ∧ 1 <= month c <= 12 ∧ 1 <= day c <= daysIn (month c) (year c) ∧
  0 <= hour c < 24 ∧ 0 <= minute c < 60 ∧ 0 <= second c < 60 ∧ 0 <= nsec c < Second.
Proof.
  unfold civil_of. pose proof (civil_from_days_spec (t / Second / 86400)) as H.
  destruct (civil_from_days _) as [[y m] d]. destruct H as (Hm & Hd & E). unfold instant.
  cbn [year month day hour minute second nsec]. rewrite E. unfold Second in *.
  split; [|split; [done|split; [done|]]]; Z.to_euclidean_division_equations; lia.
Qed.

Example civil_of_leap_day : civil_of (951782400 * Second) = mkCivil 2000 2 29 0 0 0 0.
Proof. vm_compute. reflexivity. Qed.
