(* ===== verification/GoHttp.v ===== *)
(** * The parts of net/http and net/url the verifiers use

    A request as a handler sees it: the query and headers are the parsed maps
    ([r.URL.Query()], [r.Header]); header names are looked up by their
    canonical MIME form.  UTF-8 decoding as [range] over a string does it. *)

From Stdlib Require Import Ascii.
From S2P Require Import Prelude GoStrings GoBytes.

(** An [io.ReadCloser], by what [io.ReadAll] returns for it. *)
Inductive BodyReader := Reads (data : bytes) | ReadFails (text : string).

Record Request := mkRequest {
  Method : string; Host : string; URL_Host : string; URL_Path : string; RawPath : string;
  EscapedPath : string; RawQuery : string; Query : gmap string (list string);
  Header : gmap string (list string);
  ContentLength : Z; Body : option BodyReader }.

Definition with_body (r : Request) (b : option BodyReader) : Request :=
  mkRequest (Method r) (Host r) (URL_Host r) (URL_Path r) (RawPath r) (EscapedPath r) (RawQuery r) (Query r)
    (Header r) (ContentLength r) b.

(** ** [textproto.CanonicalMIMEHeaderKey] *)

Definition between (lo hi : N) (c : ascii) : bool :=
  (lo <=? N_of_ascii c)%N && (N_of_ascii c <=? hi)%N.
Definition is_lower (c : ascii) : bool := between 97 122 c.
Definition is_upper (c : ascii) : bool := between 65 90 c.
Definition is_digit (c : ascii) : bool := between 48 57 c.

Definition validHeaderFieldByte (c : ascii) : bool :=
  is_lower c || is_upper c || is_digit c || str_mem c "!#$%&'*+-.^_`|~".

Fixpoint all_bytes (f : ascii → bool) (s : string) : bool :=
  match s with EmptyString => true | String c s => f c && all_bytes f s end.

(** Upper case at the start and after each dash, lower case elsewhere. *)
Fixpoint canonical_case (upper : bool) (s : string) : string :=
  match s with
  | EmptyString => EmptyString
  | String c s =>
      String (if upper then upper_ascii c else lower_ascii c)
        (canonical_case (Ascii.eqb c "-"%char) s)
  end.

Definition CanonicalHeaderKey (s : string) : string :=
  if all_bytes validHeaderFieldByte s then canonical_case true s else s.

Definition first_value (vs : option (list string)) : string :=
  match vs with Some (v :: _) => v | _ => "" end.
Definition Header_Get (r : Request) (key : string) : string :=
  first_value (Header r !! CanonicalHeaderKey key).
Definition Query_Get (q : gmap string (list string)) (key : string) : string :=
  first_value (q !! key).

(** ** Responses

    What a handler writes: the status, the headers as they are when the status
    is written, and the body, by the values it encodes. *)

Record Response (P : Type) := mkResponse {
  Status : Z; RespHeader : gmap string string; RespBody : P }.
Arguments mkResponse {P} _ _ _.
Arguments Status {P} _.
Arguments RespHeader {P} _.
Arguments RespBody {P} _.

(** [w.Header().Set] *)
Definition Set_ (k v : string) (h : gmap string string) : gmap string string := <[CanonicalHeaderKey k := v]> h.

(** ** UTF-8

    [rune_width s] is the length of the valid encoding at the start of [s], or
    [None] when the first byte does not start one. *)

Definition continuation (lo hi : N) (s : string) : bool :=
  match s with String c _ => between lo hi c | EmptyString => false end.

Definition rune_width (s : string) : option nat :=
  match s with
  | EmptyString => None
  | String c s1 =>
      let s2 := str_drop 1 s1 in
      let s3 := str_drop 2 s1 in
      let cont := continuation 128 191 in
      if between 0 127 c then Some 1%nat
      else if between 194 223 c then if cont s1 then Some 2%nat else None
      else if between 224 239 c then
        let lo := if Ascii.eqb c (ascii_of_N 224) then 160%N else 128%N in
        let hi := if Ascii.eqb c (ascii_of_N 237) then 159%N else 191%N in
        if continuation lo hi s1 && cont s2 then Some 3%nat else None
      else if between 240 244 c then
        let lo := if Ascii.eqb c (ascii_of_N 240) then 144%N else 128%N in
        let hi := if Ascii.eqb c (ascii_of_N 244) then 143%N else 191%N in
        if continuation lo hi s1 && cont s2 && cont s3 then Some 4%nat else None
      else None
  end.

(** What [WriteRune] writes for the rune that [range] yields at the start of
    [s], and the rest: an invalid byte becomes U+FFFD. *)
Definition next_rune (s : string) : string * string :=
  match rune_width s with
  | Some n => (str_take n s, str_drop n s)
  | None => (str_of_codes [239; 191; 189]%N, str_drop 1 s)
  end.

Example canonical_key : CanonicalHeaderKey "x-amz-content-SHA256" = "X-Amz-Content-Sha256".
Proof. vm_compute. reflexivity. Qed.
Example invalid_rune : next_rune (str_of_codes [226; 130; 40]%N) =
  (str_of_codes [239; 191; 189]%N, str_of_codes [130; 40]%N).
Proof. vm_compute. reflexivity. Qed.

(** ** Canonical header names *)

(** The names a server's header map has. *)
Definition canonical_name (k : string) : Prop :=
  all_bytes validHeaderFieldByte k = true ∧ canonical_case true k = k.

Lemma canonical_name_id k : canonical_name k → CanonicalHeaderKey k = k.
Proof. intros [H E]. unfold CanonicalHeaderKey. by rewrite H. Qed.

Lemma valid_lower c : validHeaderFieldByte (lower_ascii c) = validHeaderFieldByte c.
Proof. by destruct c as [[] [] [] [] [] [] [] []]. Qed.

Lemma all_bytes_lower s : all_bytes validHeaderFieldByte (ToLower s) = all_bytes validHeaderFieldByte s.
Proof. unfold ToLower. induction s as [|c s IH]; [done|]. simpl. by rewrite valid_lower, IH. Qed.

Lemma all_bytes_app f s t : all_bytes f (s +:+ t) = all_bytes f s && all_bytes f t.
Proof. induction s as [|c s IH]; [done|]. rewrite str_cons_app. simpl. by rewrite IH, andb_assoc. Qed.

Lemma canonical_case_lower u s : canonical_case u (ToLower s) = canonical_case u s.
Proof.
  unfold ToLower. revert u; induction s as [|c s IH]; intros u; [done|]. simpl. rewrite IH.
  f_equal; [|f_equal]; by destruct u, c as [[] [] [] [] [] [] [] []].
Qed.

(** A name is found again from its lower-case spelling. *)
Lemma canonical_lower p n :
  canonical_name (p +:+ n) → CanonicalHeaderKey (ToLower p +:+ ToLower n) = p +:+ n.
Proof.
  intros [Hv Hc]. rewrite <-ToLower_app. unfold CanonicalHeaderKey.
  by rewrite all_bytes_lower, Hv, canonical_case_lower.
Qed.

Lemma canonical_lower_inj p n1 n2 :
  canonical_name (p +:+ n1) → canonical_name (p +:+ n2) → ToLower n1 = ToLower n2 → n1 = n2.
Proof.
  intros H1 H2 E. apply (str_app_inj_l p). rewrite <-(canonical_lower p n1), <-(canonical_lower p n2) by done.
  by rewrite E.
Qed.
