(* ===== verification/GoUrl.v ===== *)
(** * The parts of net/url the routers use

    [PathUnescape], the escaping of paths, and [URL.setPath], which splits an
    escaped path into the fields [Path] and [RawPath] of a URL; then queries and
    forms: [ParseQuery], [QueryEscape] and [Request.ParseForm]. *)

From Stdlib Require Import Ascii.
From S2P Require Import Prelude GoStrings GoBytes GoHttp.

Definition unhex2 (a b : ascii) : option ascii :=
  match hex_val a, hex_val b with
  | Some x, Some y => Some (ascii_of_N (Z.to_N (16 * x + y)))
  | _, _ => None
  end.

(** [unescape(s, encodePathSegment)] (and [encodePath], which differs only in
    what it escapes): [None] is an [EscapeError]. *)
Fixpoint PathUnescape (s : string) : option string :=
  match s with
  | EmptyString => Some ""
  | String "%" (String a (String b s')) =>
      match unhex2 a b, PathUnescape s' with
      | Some c, Some t => Some (String c t)
      | _, _ => None
      end
  | String "%" _ => None
  | String c s' => String c <$> PathUnescape s'
  end.

Definition url_unreserved (c : ascii) : bool := is_lower c || is_upper c || is_digit c || str_mem c "-_.~".
Definition upperhex (n : N) : ascii := ascii_of_N (if (n <? 10)%N then n + 48 else n + 55)%N.
Definition percent_byte (c : ascii) : string :=
  String "%" (String (upperhex (N_of_ascii c / 16)) (String (upperhex (N_of_ascii c mod 16)) "")).

(** Escaping every byte that [keep] does not keep. *)
Fixpoint escape_with (keep : ascii → bool) (s : string) : string :=
  match s with
  | EmptyString => ""
  | String c s => (if keep c then String c "" else percent_byte c) +:+ escape_with keep s
  end.

(** [!shouldEscape(c, encodePath)] and [!shouldEscape(c, encodePathSegment)] *)
Definition keeps_in_path (c : ascii) : bool := url_unreserved c || str_mem c "$&+,/:;=@".
Definition keeps_in_segment (c : ascii) : bool := url_unreserved c || str_mem c "$&+:=@".
Definition escape_path (s : string) : string := escape_with keeps_in_path s.
Definition PathEscape (s : string) : string := escape_with keeps_in_segment s.

(** [u.setPath(p)]: the fields [Path] and [RawPath]. *)
Definition setPath (p : string) : option (string * string) :=
  match PathUnescape p with
  | None => None
  | Some path => Some (path, if String.eqb p (escape_path path) then "" else p)
  end.

Example setPath_slash : setPath "/c/a%2Fb" = Some ("/c/a/b", "/c/a%2Fb").
Proof. vm_compute. reflexivity. Qed.
Example setPath_space : setPath "/c/a%20b" = Some ("/c/a b", "").
Proof. vm_compute. reflexivity. Qed.
Example PathUnescape_bad : PathUnescape "100%" = None ∧ PathUnescape "%zz" = None.
Proof. vm_compute. done. Qed.
Example PathEscape_arn : PathEscape "arn:a/b c%" = "arn:a%2Fb%20c%25".
Proof. vm_compute. reflexivity. Qed.

(** ** Escaping and unescaping *)

Lemma unhex2_percent c :
  unhex2 (upperhex (N_of_ascii c / 16)) (upperhex (N_of_ascii c mod 16)) = Some c.
Proof. by destruct c as [[] [] [] [] [] [] [] []]. Qed.

Lemma PathUnescape_percent c s :
  PathUnescape (percent_byte c +:+ s) = String c <$> PathUnescape s.
Proof.
  unfold percent_byte. rewrite !str_cons_app.
  change ("" +:+ s) with s. cbn [PathUnescape]. rewrite unhex2_percent. by destruct (PathUnescape s).
Qed.

Lemma PathUnescape_plain c s : c ≠ "%"%char → PathUnescape (String c s) = String c <$> PathUnescape s.
Proof.
  intros Hc. destruct c as [[] [] [] [] [] [] [] []]; try reflexivity. by destruct Hc.
Qed.

Lemma PathUnescape_escape_app keep s t :
  keep "%"%char = false → PathUnescape (escape_with keep s +:+ t) = String.app s <$> PathUnescape t.
Proof.
  intros Hk. induction s as [|c s IH].
  - cbn [escape_with]. change ("" +:+ t) with t. by destruct (PathUnescape t).
  - cbn [escape_with]. rewrite str_app_assoc. destruct (keep c) eqn:E.
    + rewrite str_one_app, PathUnescape_plain by (intros ->; congruence). rewrite IH.
      by destruct (PathUnescape t).
    + rewrite PathUnescape_percent, IH. by destruct (PathUnescape t).
Qed.

Lemma PathUnescape_escape keep s :
  keep "%"%char = false → PathUnescape (escape_with keep s) = Some s.
Proof.
  intros Hk. pose proof (PathUnescape_escape_app keep s "" Hk) as H. rewrite str_app_nil_r in H. rewrite H.
  cbn. by rewrite str_app_nil_r.
Qed.

(** A string without percent signs is not changed. *)
Lemma PathUnescape_id s : str_mem "%" s = false → PathUnescape s = Some s.
Proof.
  induction s as [|c s IH]; [done|]. intros H. simpl in H. apply orb_false_iff in H as [Hc Hs].
  rewrite PathUnescape_plain by (by apply Ascii.eqb_neq). by rewrite IH.
Qed.

(** Escaping drops a byte from a path only if the byte is kept. *)
Lemma percent_byte_mem c d :
  upperhex (N_of_ascii d / 16) ≠ c → upperhex (N_of_ascii d mod 16) ≠ c → c ≠ "%"%char →
  str_mem c (percent_byte d) = false.
Proof.
  intros H1 H2 H3. unfold percent_byte. cbn [str_mem].
  rewrite (proj2 (Ascii.eqb_neq "%" c)), (proj2 (Ascii.eqb_neq _ c) H1), (proj2 (Ascii.eqb_neq _ c) H2) by congruence.
  done.
Qed.

Lemma escape_with_no_sep keep s c :
  keep c = false → (∀ d, str_mem c (percent_byte d) = false) → str_mem c (escape_with keep s) = false.
Proof.
  intros Hk Hd. induction s as [|d s IH]; [done|]. cbn [escape_with]. rewrite str_mem_app, IH.
  destruct (keep d) eqn:E; [|by rewrite Hd]. cbn. rewrite orb_false_r, orb_false_r. apply Ascii.eqb_neq. congruence.
Qed.

Lemma percent_byte_slash d : str_mem "/" (percent_byte d) = false.
Proof. by destruct d as [[] [] [] [] [] [] [] []]. Qed.

Lemma escape_with_app keep s t : escape_with keep (s +:+ t) = escape_with keep s +:+ escape_with keep t.
Proof. induction s as [|c s IH]; [done|]. rewrite str_cons_app. cbn [escape_with]. by rewrite IH, str_app_assoc. Qed.

(** Two ways of escaping agree exactly when they agree on the bytes. *)
Lemma percent_byte_not_self c d s t : percent_byte c +:+ s ≠ String d "" +:+ t ∨ d = "%"%char.
Proof.
  destruct (decide (d = "%"%char)) as [|Hd]; [by right|left]. unfold percent_byte. rewrite !str_cons_app.
  intros [= <- _]. by destruct Hd.
Qed.

Lemma escape_with_agree k1 k2 s :
  k1 "%"%char = false → k2 "%"%char = false →
  String.eqb (escape_with k1 s) (escape_with k2 s) = all_bytes (λ c, Bool.eqb (k1 c) (k2 c)) s.
Proof.
  intros H1 H2. induction s as [|c s IH]; [done|]. cbn [escape_with all_bytes].
  destruct (k1 c) eqn:E1, (k2 c) eqn:E2; cbn [Bool.eqb andb].
  - rewrite !str_one_app. simpl. by rewrite Ascii.eqb_refl.
  - apply String.eqb_neq. intros E. destruct (percent_byte_not_self c c (escape_with k2 s) (escape_with k1 s)) as [Hn| ->];
      [by apply Hn|congruence].
  - apply String.eqb_neq. intros E. destruct (percent_byte_not_self c c (escape_with k1 s) (escape_with k2 s)) as [Hn| ->];
      [by apply Hn|congruence].
  - rewrite <-IH. apply eq_true_iff_eq. rewrite !String.eqb_eq. split; [by intros E%str_app_inj_l|congruence].
Qed.

(** * Forms

    [url.QueryUnescape], [url.ParseQuery], the media type of a request and
    [Request.ParseForm].  The parameters after a media type's semicolon are
    judged by the function [parse_params]; [Quote] is [strconv.Quote]. *)

(** [url.Values] *)
Abbreviation form := (gmap string (list string)) (only parsing).

Section forms.
Context (Quote : string → string).

Definition bad_escape (s : string) : string := "invalid URL escape " +:+ Quote s.

(** The error's text, or the value. *)
Fixpoint QueryUnescape (s : string) : string + string :=
  match s with
  | EmptyString => inr ""
  | String "%" (String a (String b s')) =>
      match unhex2 a b with
      | Some c => match QueryUnescape s' with inr t => inr (String c t) | inl e => inl e end
      | None => inl (bad_escape (String "%" (String a (String b ""))))
      end
  | String "%" s' => inl (bad_escape (String "%" s'))
  | String c s' =>
      match QueryUnescape s' with
      | inr t => inr (String (if Ascii.eqb c "+" then " "%char else c) t)
      | inl e => inl e
      end
  end.

(** [m[key] = append(m[key], value)] *)
Definition Add (key value : string) (m : form) : form := <[key := default [] (m !! key) ++ [value]]> m.

(** One turn of the loop: the values so far and the first error, except that a
    semicolon's error replaces it. *)
Definition parse_piece (acc : form * option string) (piece : string) : form * option string :=
  let '(m, err) := acc in
  if str_mem ";" piece then (m, Some "invalid semicolon separator in query")
  else if String.eqb piece "" then (m, err)
  else
    let '(key, value, _) := Cut piece "=" in
    match QueryUnescape key with
    | inl e => (m, Some (default e err))
    | inr key =>
        match QueryUnescape value with
        | inl e => (m, Some (default e err))
        | inr value => (Add key value m, err)
        end
    end.

Definition ParseQuery (query : string) : form * option string :=
  fold_left parse_piece (Split query "&") (∅, None).

(** ** [mime.ParseMediaType] *)

Definition isTokenChar (c : ascii) : bool :=
  between 33 126 c && negb (str_mem c "()<>@,;:\/[]?=" || Ascii.eqb c (ascii_of_N 34)).

Fixpoint consumeToken (s : string) : string * string :=
  match s with
  | String c s' => if isTokenChar c then let '(t, rest) := consumeToken s' in (String c t, rest) else ("", s)
  | EmptyString => ("", "")
  end.

Definition checkMediaTypeDisposition (s : string) : option string :=
  let '(typ, rest) := consumeToken s in
  if String.eqb typ "" then Some "mime: no media type"
  else if String.eqb rest "" then None
  else if negb (HasPrefix rest "/") then Some "mime: expected slash after first token"
  else
    let '(subtype, rest) := consumeToken (str_drop 1 rest) in
    if String.eqb subtype "" then Some "mime: expected token after slash"
    else if negb (String.eqb rest "") then Some "mime: unexpected content after media subtype"
    else None.

Context (parse_params : string → string → string * option string).

Definition ParseMediaType (v : string) : string * option string :=
  let '(base, rest, found) := Cut v ";" in
  let mediatype := TrimSpace (ToLower base) in
  match checkMediaTypeDisposition mediatype with
  | Some err => ("", Some err)
  | None => if found then parse_params mediatype rest else (mediatype, None)
  end.

(** ** [Request.ParseForm] *)

Definition form_type : string := "application/x-www-form-urlencoded".

(** [parsePostForm], for a POST. *)
Definition parsePostForm (r : Request) : form * option string :=
  match Body r with
  | None => (∅, None)
  | Some body =>
      let ct := Header_Get r "Content-Type" in
      let '(ct, err) := ParseMediaType (if String.eqb ct "" then "application/octet-stream" else ct) in
      if String.eqb ct form_type then
        match body with
        | ReadFails text => (∅, Some (default text err))
        | Reads b =>
            if 10 * 2 ^ 20 <? Z.of_nat (length b) then (∅, Some "http: POST too large")
            else let '(vs, e) := ParseQuery (string_of_bytes b) in
                 (vs, match err with Some _ => err | None => e end)
        end
      else (∅, err)
  end.

(** [copyValues]: the values of the query after those of the body. *)
Definition copyValues (dst src : form) : form :=
  map_fold (λ k vs m, <[k := default [] (m !! k) ++ vs]> m) dst src.

(** [r.Form] and the error of [r.ParseForm()]. *)
Definition ParseForm (r : Request) : form * option string :=
  let '(post, err) := parsePostForm r in
  let '(query, e) := ParseQuery (RawQuery r) in
  (copyValues post query, match err with Some _ => err | None => e end).
End forms.

Example ParseQuery_repeats : ParseQuery (λ s, s) "a=1&b=x+y%21&a=2&c" =
  (<["a" := ["1"; "2"]]> (<["b" := ["x y!"]]> {["c" := [""]]}), None).
Proof. vm_compute. reflexivity. Qed.
Example ParseQuery_bad : (ParseQuery (λ s, s) "a=%zz&b=1").2 = Some "invalid URL escape %zz" ∧
  ParseQuery (λ s, s) "a=1;b=2" = (∅, Some "invalid semicolon separator in query").
Proof. vm_compute. done. Qed.
Example ParseMediaType_form : ParseMediaType (λ t _, (t, None)) "Application/X-WWW-Form-Urlencoded" = (form_type, None).
Proof. vm_compute. reflexivity. Qed.

(** ** Encoding a form as clients do *)

(** [url.QueryEscape] *)
Fixpoint QueryEscape (s : string) : string :=
  match s with
  | EmptyString => ""
  | String c s => (if url_unreserved c then String c ""
                   else if Ascii.eqb c " " then "+" else percent_byte c) +:+ QueryEscape s
  end.

Lemma QueryUnescape_plain Quote c s : c ≠ "%"%char →
  QueryUnescape Quote (String c s) =
    match QueryUnescape Quote s with
    | inr t => inr (String (if Ascii.eqb c "+" then " "%char else c) t)
    | inl e => inl e
    end.
Proof.
  intros Hc. destruct c as [[] [] [] [] [] [] [] []]; try reflexivity. by destruct Hc.
Qed.

Lemma QueryUnescape_escape Quote s : QueryUnescape Quote (QueryEscape s) = inr s.
Proof.
  induction s as [|c s IH]; [done|]. cbn [QueryEscape]. destruct (url_unreserved c) eqn:E.
  - rewrite str_one_app, QueryUnescape_plain by (by intros ->). rewrite IH.
    destruct (Ascii.eqb_spec c "+") as [->|]; [done|done].
  - destruct (Ascii.eqb_spec c " ") as [->|Hc].
    + change ("+" +:+ ?t) with (String "+" t). by rewrite QueryUnescape_plain, IH.
    + unfold percent_byte. rewrite !str_cons_app. change ("" +:+ ?t) with t. cbn [QueryUnescape].
      by rewrite unhex2_percent, IH.
Qed.

Lemma QueryEscape_no c s :
  url_unreserved c = false → c ≠ "+"%char → c ≠ "%"%char → is_digit c = false → is_upper c = false →
  str_mem c (QueryEscape s) = false.
Proof.
  intros Hu Hp Hpc Hd Hup. induction s as [|a s IH]; [done|]. cbn [QueryEscape]. rewrite str_mem_app, IH, orb_false_r.
  destruct (url_unreserved a) eqn:E.
  - cbn. rewrite orb_false_r. apply Ascii.eqb_neq. congruence.
  - destruct (Ascii.eqb a " "); [cbn [str_mem]; rewrite orb_false_r; apply Ascii.eqb_neq; congruence|].
    apply percent_byte_mem; [..|done]; intros <-.
    + revert Hd Hup. by destruct a as [[] [] [] [] [] [] [] []].
    + revert Hd Hup. by destruct a as [[] [] [] [] [] [] [] []].
Qed.

Definition encode_pair (kv : string * string) : string := QueryEscape kv.1 +:+ String "=" (QueryEscape kv.2).
(** [Values.Encode], for pairs in the order given. *)
Definition encode_form (kvs : list (string * string)) : string := Join (encode_pair <$> kvs) "&".
Definition form_of (kvs : list (string * string)) : form := fold_left (λ m kv, Add kv.1 kv.2 m) kvs ∅.

Lemma encode_pair_no c kv :
  url_unreserved c = false → c ≠ "+"%char → c ≠ "%"%char → c ≠ "="%char → is_digit c = false → is_upper c = false →
  str_mem c (encode_pair kv) = false.
Proof.
  intros. unfold encode_pair. rewrite str_mem_app, QueryEscape_no by done. cbn [orb str_mem].
  rewrite QueryEscape_no by done. rewrite orb_false_r. apply Ascii.eqb_neq. congruence.
Qed.

Lemma parse_piece_encoded Quote m kv : parse_piece Quote (m, None) (encode_pair kv) = (Add kv.1 kv.2 m, None).
Proof.
  unfold parse_piece. rewrite encode_pair_no by done.
  destruct (String.eqb_spec (encode_pair kv) "") as [E|_].
  { exfalso. unfold encode_pair in E. destruct (QueryEscape kv.1); discriminate E. }
  unfold Cut, encode_pair. rewrite IndexByte_app by by apply QueryEscape_no.
  rewrite str_take_app, str_drop_sep, !QueryUnescape_escape. done.
Qed.

Lemma ParseQuery_encoded Quote kvs : ParseQuery Quote (encode_form kvs) = (form_of kvs, None).
Proof.
  unfold ParseQuery, encode_form. destruct kvs as [|kv kvs]; [done|].
  change "&" with (String "&" ""). rewrite Split_Join; [|done|].
  - unfold form_of. generalize (kv :: kvs) (∅ : form). clear kv kvs. intros kvs.
    induction kvs as [|kv kvs IH]; intros m; [done|]. rewrite fmap_cons. cbn [fold_left].
    rewrite parse_piece_encoded. apply IH.
  - apply Forall_forall. intros w (kv' & -> & _)%list_elem_of_fmap. by apply encode_pair_no.
Qed.

(** The values of a name, in order. *)
Lemma form_of_lookup kvs k :
  default [] (form_of kvs !! k) = (filter (λ kv, kv.1 = k) kvs).*2.
Proof.
  assert (∀ m, default [] (fold_left (λ m kv, Add kv.1 kv.2 m) kvs m !! k) =
    default [] (m !! k) ++ (filter (λ kv, kv.1 = k) kvs).*2) as H.
  { induction kvs as [|kv kvs IH]; intros m; [by rewrite app_nil_r|]. cbn [fold_left]. rewrite IH, filter_cons.
    unfold Add. case_decide as Hk.
    - rewrite Hk, lookup_insert_eq. cbn [default fmap list_fmap]. change (Datatypes.id ?x) with x.
      by rewrite <-(assoc_L (++)).
    - by rewrite lookup_insert_ne. }
  unfold form_of. rewrite H. by rewrite lookup_empty.
Qed.

Lemma Query_Get_form kvs k :
  Query_Get (form_of kvs) k = hd "" (filter (λ kv, kv.1 = k) kvs).*2.
Proof.
  unfold Query_Get. pose proof (form_of_lookup kvs k) as H. destruct (form_of kvs !! k) as [l|]; cbn in H.
  - change (Datatypes.id l) with l in H. rewrite <-H. by destruct l.
  - by rewrite <-H.
Qed.

(** A POST of a form. *)
Definition form_post (kvs : list (string * string)) : Request :=
  let body := bytes_of_string (encode_form kvs) in
  mkRequest "POST" "localhost" "" "/" "" "/" "" ∅ {["Content-Type" := [form_type]]} (Z.of_nat (length body))
    (Some (Reads body)).

Lemma ParseForm_post Quote params kvs :
  Z.of_nat (String.length (encode_form kvs)) <= 10 * 2 ^ 20 →
  ParseForm Quote params (form_post kvs) = (form_of kvs, None).
Proof.
  intros Hlen. unfold ParseForm, parsePostForm. cbn [Body form_post].
  change (Header_Get (form_post kvs) "Content-Type") with form_type.
  change (ParseMediaType params _) with (form_type, None : option string).
  cbv beta iota zeta. change (String.eqb form_type form_type) with true. cbv iota.
  assert (length (bytes_of_string (encode_form kvs)) = String.length (encode_form kvs)) as ->.
  { generalize (encode_form kvs) as t. unfold bytes_of_string, String.list_byte_of_string.
    induction t as [|c t IH]; [done|]. cbn. by rewrite IH. }
  rewrite (proj2 (Z.ltb_ge _ _) Hlen), string_of_bytes_of_string, ParseQuery_encoded.
  change (RawQuery (form_post kvs)) with "". change (ParseQuery Quote "") with (∅ : form, None : option string).
  unfold copyValues. by rewrite map_fold_empty.
Qed.
