(* ===== verification/GoJson.v ===== *)
(** * JSON

    [encoding/json] as the code uses it: the scanner, the strings with their
    escapes and UTF-8 repair, and the decoding of a value into a Go type.  A text
    is cut into tokens; the values are built by a machine with a stack, like the
    scanner's, so the text after the first value is not looked at.  A Go type is
    a [decoder]: a zero value, and what decoding a JSON value over an old value
    leaves and whether it fails.  The texts of errors are left to the callers.
    Not modelled: that a third array of one field sees elements of the first. *)

From Stdlib Require Import Ascii.
From S2P Require Import Prelude GoStrings GoBytes GoHttp.

(** ** Values *)

Inductive json :=
  | JNull
  | JBool (b : bool)
  | JNum (literal : string)
  | JStr (s : string)
  | JArr (l : list json)
  | JObj (l : list (string * json)).

Section json_induction.
Context (P : json → Prop) (Hnull : P JNull) (Hbool : ∀ b, P (JBool b)) (Hnum : ∀ s, P (JNum s)) (Hstr : ∀ s, P (JStr s))
  (Harr : ∀ l, Forall P l → P (JArr l)) (Hobj : ∀ l, Forall (λ kv, P kv.2) l → P (JObj l)).
Fixpoint json_ind' (v : json) : P v :=
  match v with
  | JNull => Hnull | JBool b => Hbool b | JNum s => Hnum s | JStr s => Hstr s
  | JArr l => Harr l ((fix go l : Forall P l :=
      match l with [] => Forall_nil_2 _ | v :: l => Forall_cons_2 _ _ _ (json_ind' v) (go l) end) l)
  | JObj l => Hobj l ((fix go l : Forall (λ kv, P kv.2) l :=
      match l with [] => Forall_nil_2 _ | kv :: l => Forall_cons_2 _ _ _ (json_ind' kv.2) (go l) end) l)
  end.
End json_induction.

(** ** Strings *)

(** How deep a value nests. *)
Fixpoint height (v : json) : nat :=
  match v with
  | JArr l => S (max_list (height <$> l))
  | JObj l => S (max_list ((λ kv, height kv.2) <$> l))
  | _ => O
  end.

Definition quote : ascii := ascii_of_N 34.
Definition backslash : ascii := ascii_of_N 92.
Definition byte_char (z : Z) : ascii := ascii_of_N (Z.to_N z).

(** [utf8.EncodeRune], for a rune that is not a surrogate. *)
Definition EncodeRune (r : Z) : string :=
  if r <? 128 then String (byte_char r) ""
  else if r <? 2048 then String (byte_char (192 + r / 64)) (String (byte_char (128 + r mod 64)) "")
  else if r <? 65536 then
    String (byte_char (224 + r / 4096)) (String (byte_char (128 + r / 64 mod 64)) (String (byte_char (128 + r mod 64)) ""))
  else String (byte_char (240 + r / 262144)) (String (byte_char (128 + r / 4096 mod 64))
         (String (byte_char (128 + r / 64 mod 64)) (String (byte_char (128 + r mod 64)) ""))).
Definition replacement : string := EncodeRune 65533.

(** [getu4], after the backslash and the u. *)
Definition hex4 (a b c d : ascii) : option Z :=
  match hex_val a, hex_val b, hex_val c, hex_val d with
  | Some a, Some b, Some c, Some d => Some (4096 * a + 256 * b + 16 * c + d)
  | _, _, _, _ => None
  end.

(** The byte that a one-letter escape stands for. *)
Definition escape_byte (c : ascii) : option ascii :=
  if Ascii.eqb c quote || Ascii.eqb c backslash || Ascii.eqb c "/" then Some c
  else if Ascii.eqb c "b" then Some (ascii_of_N 8)
  else if Ascii.eqb c "f" then Some (ascii_of_N 12)
  else if Ascii.eqb c "n" then Some (ascii_of_N 10)
  else if Ascii.eqb c "r" then Some (ascii_of_N 13)
  else if Ascii.eqb c "t" then Some (ascii_of_N 9)
  else None.

(** [utf16.DecodeRune] of a high and a low surrogate. *)
Definition high_surrogate (r : Z) : bool := (55296 <=? r) && (r <? 56320).
Definition low_surrogate (r : Z) : bool := (56320 <=? r) && (r <? 57344).
Definition surrogate_pair (r1 r2 : Z) : Z := 65536 + (r1 - 55296) * 1024 + (r2 - 56320).

Definition prepend (t : string) (x : option (string * string)) : option (string * string) :=
  match x with Some (s, rest) => Some (t +:+ s, rest) | None => None end.

(** The string up to its closing quote, and what follows; [pending] bytes of a
    valid multi-byte rune are still to be copied. *)
Fixpoint unquote (pending : nat) (s : string) : option (string * string) :=
  match s with
  | EmptyString => None
  | String c s1 =>
      match pending with
      | S pending => prepend (String c "") (unquote pending s1)
      | O =>
          if Ascii.eqb c quote then Some ("", s1)
          else if Ascii.eqb c backslash then
            match s1 with
            | String "u" (String a1 (String a2 (String a3 (String a4 s6)))) =>
                match hex4 a1 a2 a3 a4 with
                | None => None
                | Some r1 =>
                    if high_surrogate r1 || low_surrogate r1 then
                      match s6 with
                      | String e (String "u" (String b1 (String b2 (String b3 (String b4 s12))))) =>
                          match hex4 b1 b2 b3 b4 with
                          | Some r2 =>
                              if Ascii.eqb e backslash && high_surrogate r1 && low_surrogate r2
                              then prepend (EncodeRune (surrogate_pair r1 r2)) (unquote O s12)
                              else prepend replacement (unquote O s6)
                          | None => prepend replacement (unquote O s6)
                          end
                      | _ => prepend replacement (unquote O s6)
                      end
                    else prepend (EncodeRune r1) (unquote O s6)
                end
            | String e s2 =>
                match escape_byte e with
                | Some b => prepend (String b "") (unquote O s2)
                | None => None
                end
            | EmptyString => None
            end
          else if (N_of_ascii c <? 32)%N then None
          else match rune_width (String c s1) with
               | Some n => prepend (String c "") (unquote (n - 1) s1)
               | None => prepend replacement (unquote O s1)
               end
      end
  end.

(** ** Numbers *)

Fixpoint span_digits (s : string) : string * string :=
  match s with
  | String c s' => if is_digit c then let '(d, r) := span_digits s' in (String c d, r) else ("", s)
  | EmptyString => ("", "")
  end.

Definition lex_int (s : string) : option (string * string) :=
  let '(sign, s) := match s with
                    | String c s' => if Ascii.eqb c "-" then ("-", s') else ("", s)
                    | EmptyString => ("", s)
                    end in
  match s with
  | String c s' =>
      if Ascii.eqb c "0" then Some (sign +:+ "0", s')
      else if is_digit c then let '(d, r) := span_digits s' in Some (sign +:+ String c d, r)
      else None
  | EmptyString => None
  end.

(** The digits that must follow a dot or an exponent's mark. *)
Definition lex_digits (mark s : string) : option (string * string) :=
  let '(d, r) := span_digits s in if String.eqb d "" then None else Some (mark +:+ d, r).
Definition lex_frac (s : string) : option (string * string) :=
  match s with
  | String c s' => if Ascii.eqb c "." then lex_digits "." s' else Some ("", s)
  | EmptyString => Some ("", s)
  end.
Definition lex_exp (s : string) : option (string * string) :=
  match s with
  | String e s' =>
      if Ascii.eqb e "e" || Ascii.eqb e "E" then
        match s' with
        | String c s'' => if Ascii.eqb c "+" || Ascii.eqb c "-" then lex_digits (String e (String c "")) s''
                          else lex_digits (String e "") s'
        | EmptyString => None
        end
      else Some ("", s)
  | EmptyString => Some ("", s)
  end.

Definition lex_number (s : string) : option (string * string) :=
  match lex_int s with
  | None => None
  | Some (i, s) =>
      match lex_frac s with
      | None => None
      | Some (f, s) => match lex_exp s with Some (e, s) => Some (i +:+ f +:+ e, s) | None => None end
      end
  end.

(** ** Tokens *)

Inductive token := TBeginObj | TEndObj | TBeginArr | TEndArr | TColon | TComma | TScalar (v : json) | TBad.

Definition is_space (c : ascii) : bool :=
  Ascii.eqb c " " || Ascii.eqb c (ascii_of_N 9) || Ascii.eqb c (ascii_of_N 10) || Ascii.eqb c (ascii_of_N 13).

Definition punctuation (c : ascii) : option token :=
  if Ascii.eqb c "{" then Some TBeginObj else if Ascii.eqb c "}" then Some TEndObj
  else if Ascii.eqb c "[" then Some TBeginArr else if Ascii.eqb c "]" then Some TEndArr
  else if Ascii.eqb c ":" then Some TColon else if Ascii.eqb c "," then Some TComma else None.

(** The scalar at the start of a text that is neither empty nor a space. *)
Definition lex_scalar (s : string) : option (json * string) :=
  match s with
  | String c s' =>
      if Ascii.eqb c quote then match unquote O s' with Some (t, r) => Some (JStr t, r) | None => None end
      else if HasPrefix s "true" then Some (JBool true, str_drop 4 s)
      else if HasPrefix s "false" then Some (JBool false, str_drop 5 s)
      else if HasPrefix s "null" then Some (JNull, str_drop 4 s)
      else match lex_number s with Some (n, r) => Some (JNum n, r) | None => None end
  | EmptyString => None
  end.

(** A token takes a byte at least, so the length is enough fuel. *)
Fixpoint lex_go (fuel : nat) (s : string) : list token :=
  match fuel with
  | O => []
  | S fuel =>
      match s with
      | EmptyString => []
      | String c s' =>
          if is_space c then lex_go fuel s'
          else match punctuation c with
               | Some t => t :: lex_go fuel s'
               | None => match lex_scalar s with
                         | Some (v, r) => TScalar v :: lex_go fuel r
                         | None => [TBad]
                         end
               end
      end
  end.
Definition lex (s : string) : list token := lex_go (String.length s) s.

(** ** The machine *)

(** An open array with its elements, or an open object with its members and
    the key whose value is awaited. *)
Inductive frame := FArr (l : list json) | FObj (l : list (string * json)) (key : string).
Definition add_value (v : json) (f : frame) : frame :=
  match f with FArr l => FArr (l ++ [v]) | FObj l k => FObj (l ++ [(k, v)]) "" end.

Inductive expect := AValue | AValueOrEnd | AKey | AKeyOrEnd | AColon | ASeparator.
Definition max_depth : nat := Z.to_nat 10000.

Fixpoint run (ts : list token) (stack : list frame) (e : expect) : option (json * list token) :=
  match ts with
  | [] => None
  | t :: ts =>
      let put (stack : list frame) (v : json) :=
        match stack with
        | [] => Some (v, ts)
        | f :: stack => run ts (add_value v f :: stack) ASeparator
        end in
      let push f e := if (length stack <? max_depth)%nat then run ts (f :: stack) e else None in
      match e, t with
      | (AValue | AValueOrEnd), TScalar v => put stack v
      | (AValue | AValueOrEnd), TBeginArr => push (FArr []) AValueOrEnd
      | (AValue | AValueOrEnd), TBeginObj => push (FObj [] "") AKeyOrEnd
      | (AValueOrEnd | ASeparator), TEndArr =>
          match stack with FArr l :: stack => put stack (JArr l) | _ => None end
      | (AKeyOrEnd | ASeparator), TEndObj =>
          match stack with FObj l _ :: stack => put stack (JObj l) | _ => None end
      | (AKey | AKeyOrEnd), TScalar (JStr k) =>
          match stack with FObj l _ :: stack => run ts (FObj l k :: stack) AColon | _ => None end
      | AColon, TColon => run ts stack AValue
      | ASeparator, TComma =>
          match stack with
          | FArr _ :: _ => run ts stack AValue
          | FObj _ _ :: _ => run ts stack AKey
          | [] => None
          end
      | _, _ => None
      end
  end.

(** The first value of a text, for [Decoder.Decode]; all of a text, for
    [json.Unmarshal]. *)
Definition parse_first (s : string) : option json := fst <$> run (lex s) [] AValue.
Definition parse_all (s : string) : option json :=
  match run (lex s) [] AValue with Some (v, []) => Some v | _ => None end.

Example parse_text : parse_all "{'a' : [1, -2.5e+3, true],'\u00e9\ud83d\ude00':null}" = None ∧
  parse_all (str_map (λ c, if Ascii.eqb c "'" then quote else c) "{'a' : [1, -2.5e+3, true],'\u00e9\ud83d\ude00':null}") =
    Some (JObj [("a", JArr [JNum "1"; JNum "-2.5e+3"; JBool true]);
                (str_of_codes [195; 169; 240; 159; 152; 128]%N, JNull)]) ∧
  parse_all "[1,]" = None ∧ parse_all "01" = None ∧ parse_first "01" = Some (JNum "0") ∧ parse_all "[]x" = None.
Proof. vm_compute. split_and!; reflexivity. Qed.

(** ** Encoding *)

Definition lower_hex (n : Z) : ascii := hex_digit n.
Definition u_escape (r : Z) : string :=
  String backslash (String "u" (String (lower_hex (r / 4096)) (String (lower_hex (r / 256 mod 16))
    (String (lower_hex (r / 16 mod 16)) (String (lower_hex (r mod 16)) ""))))).

(** A byte of a string, below 128; [<], [>] and [&] are escaped, as
    [json.Marshal] does. *)
Definition escape_char (c : ascii) : string :=
  if Ascii.eqb c quote || Ascii.eqb c backslash then String backslash (String c "")
  else if Ascii.eqb c (ascii_of_N 8) then String backslash "b"
  else if Ascii.eqb c (ascii_of_N 12) then String backslash "f"
  else if Ascii.eqb c (ascii_of_N 10) then String backslash "n"
  else if Ascii.eqb c (ascii_of_N 13) then String backslash "r"
  else if Ascii.eqb c (ascii_of_N 9) then String backslash "t"
  else if (N_of_ascii c <? 32)%N || Ascii.eqb c "<" || Ascii.eqb c ">" || Ascii.eqb c "&"
  then u_escape (Z.of_N (N_of_ascii c))
  else String c "".

(** U+2028 and U+2029. *)
Definition separator_rune (s : string) : option Z :=
  if HasPrefix s (str_of_codes [226; 128; 168]%N) then Some 8232
  else if HasPrefix s (str_of_codes [226; 128; 169]%N) then Some 8233
  else None.

(** [skip] bytes of an escaped rune are dropped, then [pending] are copied. *)
Fixpoint escape (skip pending : nat) (s : string) : string :=
  match s with
  | EmptyString => ""
  | String c s1 =>
      match skip, pending with
      | S skip, _ => escape skip pending s1
      | O, S pending => String c (escape O pending s1)
      | O, O =>
          if (N_of_ascii c <? 128)%N then escape_char c +:+ escape O O s1
          else match separator_rune s, rune_width s with
               | Some r, _ => u_escape r +:+ escape 2 O s1
               | None, Some n => String c (escape O (n - 1) s1)
               | None, None => u_escape 65533 +:+ escape O O s1
               end
      end
  end.
Definition json_string (s : string) : string := String quote (escape O O s +:+ String quote "").

(** The members of an object in the order given. *)
Fixpoint print (v : json) : string :=
  match v with
  | JNull => "null"
  | JBool true => "true"
  | JBool false => "false"
  | JNum n => n
  | JStr s => json_string s
  | JArr l => "[" +:+ Join (print <$> l) "," +:+ "]"
  | JObj l => "{" +:+ Join ((λ kv, json_string kv.1 +:+ ":" +:+ print kv.2) <$> l) "," +:+ "}"
  end.

(** Members of an object: a string, an optional member, an integer. *)
Definition j_pair (k v : string) : string * json := (k, JStr v).
(** An optional member. *)
Definition j_opt {A} (k : string) (f : A → json) (x : option A) : list (string * json) :=
  match x with Some a => [(k, f a)] | None => [] end.
Definition j_int (n : Z) : json := JNum (Itoa n).

(** ** Decoding into Go types *)

Record decoder (T : Type) := mkDecoder {
  zero : T;
  decode_value : json → T → T * bool }.
Arguments mkDecoder {T} _ _.
Arguments zero {T} _.
Arguments decode_value {T} _ _ _.

Section decoders.
Context {T : Type}.

(** The result is the value and whether there was an error; [null] leaves a
    scalar as it is. *)
Definition d_string : decoder string :=
  mkDecoder "" (λ v old, match v with JStr s => (s, true) | JNull => (old, true) | _ => (old, false) end).
Definition d_bool : decoder bool :=
  mkDecoder false (λ v old, match v with JBool b => (b, true) | JNull => (old, true) | _ => (old, false) end).
(** An integer of [w] bits: [ParseInt] of the literal. *)
Definition d_int (w : Z) : decoder Z :=
  mkDecoder 0 (λ v old,
    match v with
    | JNum n => match ParseInt10 w n with Some z => (z, true) | None => (old, false) end
    | JNull => (old, true)
    | _ => (old, false)
    end).
Definition d_any : decoder json := mkDecoder JNull (λ v _, (v, true)).

Definition d_ptr (d : decoder T) : decoder (option T) :=
  mkDecoder None (λ v old,
    match v with
    | JNull => (None, true)
    | _ => let '(x, ok) := decode_value d v (default (zero d) old) in (Some x, ok)
    end).

(** Elements are decoded over the old ones of the same index. *)
Fixpoint decode_elements (d : decoder T) (vs : list json) (old : list T) : list T * bool :=
  match vs with
  | [] => ([], true)
  | v :: vs =>
      let '(x, ok) := decode_value d v (hd (zero d) old) in
      let '(xs, oks) := decode_elements d vs (tl old) in
      (x :: xs, ok && oks)
  end.
(** A nil slice is the empty list. *)
Definition d_slice (d : decoder T) : decoder (list T) :=
  mkDecoder [] (λ v old,
    match v with
    | JArr vs => decode_elements d vs old
    | JNull => ([], true)
    | _ => (old, false)
    end).

Definition decode_entries (d : decoder T) (l : list (string * json)) (m : gmap string T) : gmap string T * bool :=
  fold_left (λ '(m, oks) kv, let '(x, ok) := decode_value d kv.2 (zero d) in (<[kv.1 := x]> m, oks && ok)) l (m, true).
Definition d_map (d : decoder T) : decoder (option (gmap string T)) :=
  mkDecoder None (λ v old,
    match v with
    | JObj l => let '(m, ok) := decode_entries d l (default ∅ old) in (Some m, ok)
    | JNull => (None, true)
    | _ => (old, false)
    end).

(** *** Structs *)

Record field := mkField { f_name : string; f_decode : json → T → T * bool }.

(** The bytes of a key that matter to [foldName] against an ASCII name: the
    long s and the Kelvin sign fold to letters. *)
Fixpoint fold_name (s : string) : string :=
  match s with
  | String a s1 =>
      if HasPrefix s (str_of_codes [197; 191]%N) then String "S" (match s1 with String _ s2 => fold_name s2 | _ => "" end)
      else if HasPrefix s (str_of_codes [226; 132; 170]%N)
      then String "K" (match s1 with String _ (String _ s3) => fold_name s3 | _ => "" end)
      else String (upper_ascii a) (fold_name s1)
  | EmptyString => ""
  end.

(** The field of a key: the one of that name, or the first that differs in
    case only. *)
Definition find_field (fs : list field) (key : string) : option field :=
  match find (λ f, String.eqb (f_name f) key) fs with
  | Some f => Some f
  | None => find (λ f, String.eqb (fold_name (f_name f)) (fold_name key)) fs
  end.

(** [strict] is [DisallowUnknownFields]. *)
Definition decode_member (strict : bool) (fs : list field) (acc : T * bool) (kv : string * json) : T * bool :=
  let '(x, oks) := acc in
  match find_field fs kv.1 with
  | Some f => let '(x, ok) := f_decode f kv.2 x in (x, oks && ok)
  | None => (x, oks && negb strict)
  end.
Definition d_struct (strict : bool) (z : T) (fs : list field) : decoder T :=
  mkDecoder z (λ v old,
    match v with
    | JObj l => fold_left (decode_member strict fs) l (old, true)
    | JNull => (old, true)
    | _ => (old, false)
    end).
End decoders.
Arguments field : clear implicits.
Arguments mkField {T} _ _.

(** An unsigned integer of [w] bits. *)
Definition d_uint (w : Z) : decoder Z :=
  mkDecoder 0 (λ v old,
    match v with
    | JNum n => match parse_uint n with Some z => if z <? 2 ^ w then (z, true) else (old, false) | None => (old, false) end
    | JNull => (old, true)
    | _ => (old, false)
    end).
(** [[]byte]: base64 in a string, or an array of numbers. *)
Definition d_bytes : decoder slice :=
  mkDecoder None (λ v old,
    match v with
    | JStr s => match Std_DecodeString s with Some b => (Some b, true) | None => (old, false) end
    | JArr vs => let '(xs, ok) := decode_elements (d_uint 8) vs (byte_val <$> default [] old) in (Some (byte_of <$> xs), ok)
    | JNull => (None, true)
    | _ => (old, false)
    end).

(** A field that the model keeps, and one that it decodes and drops. *)
Definition kept {T A} (name : string) (d : decoder A) (get : T → A) (set : A → T → T) : field T :=
  mkField name (λ v x, let '(a, ok) := decode_value d v (get x) in (set a x, ok)).
Definition unread {T A} (name : string) (d : decoder A) : field T :=
  mkField name (λ v x, (x, (decode_value d v (zero d)).2)).

(** [json.Unmarshal] and [Decoder.Decode] into a fresh value: [None] is an error. *)
Definition decode_fresh {T} (d : decoder T) (v : option json) : option T :=
  match v with
  | Some v => let '(x, ok) := decode_value d v (zero d) in if ok then Some x else None
  | None => None
  end.
Definition Unmarshal {T} (d : decoder T) (s : string) : option T := decode_fresh d (parse_all s).
Definition Decode {T} (d : decoder T) (s : string) : option T := decode_fresh d (parse_first s).

Example print_text : print (JObj [("a", JArr [JNum "1"; JStr "<b>"]); ("c", JNull)]) =
  str_map (λ c, if Ascii.eqb c "'" then quote else c) "{'a':[1,'\u003cb\u003e'],'c':null}".
Proof. vm_compute. reflexivity. Qed.
Example decode_struct :
  Decode (d_struct true (0, "") [kept "Count" (d_int 32) fst (λ a x, (a, x.2)); kept "Name" d_string snd (λ a x, (x.1, a))])
    (str_map (λ c, if Ascii.eqb c "'" then quote else c) "{'name':'x','COUNT':7,'Name':null} trailing") = Some (7, "x").
Proof. vm_compute. reflexivity. Qed.
