(* ===== verification/GoJsonProps.v ===== *)
(** * JSON: printing and parsing

    A printed value parses back to itself; the fuel of the scanner is enough;
    strings of valid UTF-8 survive. *)

From Stdlib Require Import Ascii.
From S2P Require Import Prelude GoStrings GoBytes GoHttp GoJson.

(** ** Strings *)

(** One valid encoding of a rune. *)
Definition rune (w : string) : Prop := rune_width w = Some (String.length w).

(** Strings of valid UTF-8. *)
Inductive valid_utf8 : string → Prop :=
  | valid_nil : valid_utf8 ""
  | valid_rune w s : rune w → valid_utf8 s → valid_utf8 (w +:+ s).

Lemma prepend_prepend s t x : prepend s (prepend t x) = prepend (s +:+ t) x.
Proof. destruct x as [[u r]|]; [|done]. cbn. by rewrite str_app_assoc. Qed.

Lemma unquote_pending w X : unquote (String.length w) (w +:+ X) = prepend w (unquote O X).
Proof.
  induction w as [|c w IH].
  - change ("" +:+ X) with X. cbn [String.length]. by destruct (unquote 0 X) as [[? ?]|].
  - rewrite str_cons_app. cbn [String.length unquote]. rewrite IH, prepend_prepend. done.
Qed.

Lemma escape_pending w s : escape O (String.length w) (w +:+ s) = w +:+ escape O O s.
Proof. induction w as [|c w IH]; [done|]. rewrite !str_cons_app. cbn [String.length escape]. by rewrite IH. Qed.

(** An ASCII byte. *)
Lemma escape_char_unquote c X : (N_of_ascii c <? 128)%N = true → unquote O (escape_char c +:+ X) = prepend (String c "") (unquote O X).
Proof. destruct c as [[] [] [] [] [] [] [] []]; intros H; try discriminate H; reflexivity. Qed.

Lemma between_N lo hi c : between lo hi c = true ↔ (lo <= N_of_ascii c <= hi)%N.
Proof. unfold between. rewrite andb_true_iff, !N.leb_le. done. Qed.

(** The width of a rune depends on its own bytes only. *)
Lemma rune_width_app w X : rune w → rune_width (w +:+ X) = Some (String.length w).
Proof.
  unfold rune, rune_width. intros H. destruct w as [|c w]; [done|]. rewrite str_cons_app.
  destruct (between 0 127 c); [destruct w; [done|]; injection H; discriminate|].
  destruct (between 194 223 c).
  { destruct w as [|a [|b w]]; try done; cbn in *; by destruct (between 128 191 a). }
  destruct (between 224 239 c).
  { destruct w as [|a [|b [|d w]]]; try done; cbn in *; revert H; by repeat (destruct (between _ _ _); cbn). }
  destruct (between 240 244 c); [|done].
  destruct w as [|a [|b [|d [|e w]]]]; try done; cbn in *; revert H; by repeat (destruct (between _ _ _); cbn).
Qed.

Lemma rune_ascii c w : rune (String c w) → (N_of_ascii c <? 128)%N = true → w = "".
Proof.
  unfold rune, rune_width. intros H Hc. assert (between 0 127 c = true) as Hb.
  { apply between_N. apply N.ltb_lt in Hc. lia. }
  rewrite Hb in H. by destruct w.
Qed.

(** A separator is its three bytes. *)
Lemma separator_rune_inv c w X r : rune (String c w) → separator_rune (String c (w +:+ X)) = Some r →
  (r = 8232 ∧ String c w = str_of_codes [226; 128; 168]%N) ∨ (r = 8233 ∧ String c w = str_of_codes [226; 128; 169]%N).
Proof.
  intros Hr. unfold separator_rune.
  assert (∀ t b3, HasPrefix t (str_of_codes [226; 128; b3]%N) = true →
    ∃ u, t = str_of_codes [226; 128; b3]%N +:+ u) as Hp by (intros t b3 H; by apply HasPrefix_spec).
  assert (∀ b3, String c (w +:+ X) = str_of_codes [226; 128; b3]%N +:+ str_drop 3 (String c (w +:+ X)) →
    String c w = str_of_codes [226; 128; b3]%N) as Hw.
  { intros b3 E. unfold rune, rune_width in Hr. injection E as -> E.
    change (between 0 127 (ascii_of_N 226)) with false in Hr. change (between 194 223 (ascii_of_N 226)) with false in Hr.
    change (between 224 239 (ascii_of_N 226)) with true in Hr. cbv iota zeta in Hr.
    destruct w as [|a [|b [|d w]]]; try (repeat case_match; done).
    rewrite !str_cons_app in E. injection E; intros; by subst. }
  destruct (HasPrefix _ _) eqn:H1.
  - intros [= <-]. left. split; [done|]. apply Hp in H1 as [u E]. apply Hw. by rewrite E.
  - destruct (HasPrefix _ (str_of_codes [226; 128; 169]%N)) eqn:H2; [|done].
    intros [= <-]. right. split; [done|]. apply Hp in H2 as [u E]. apply Hw. by rewrite E.
Qed.

(** One rune is escaped to a text that stands for it. *)
Lemma escape_rune w : rune w → ∃ e, (∀ s, escape O O (w +:+ s) = e +:+ escape O O s) ∧
  ∀ X, unquote O (e +:+ X) = prepend w (unquote O X).
Proof.
  intros Hr. destruct w as [|c w]; [done|]. destruct (N_of_ascii c <? 128)%N eqn:Hc.
  { rewrite (rune_ascii c w Hr Hc). exists (escape_char c). split.
    - intros s. rewrite str_one_app. cbn [escape]. by rewrite Hc.
    - intros X. by apply escape_char_unquote. }
  destruct (separator_rune (String c w)) as [r|] eqn:Hsep.
  - rewrite <-(str_app_nil_r w) in Hsep.
    destruct (separator_rune_inv c w "" r Hr Hsep) as [[-> ->]|[-> ->]]; [exists (u_escape 8232)|exists (u_escape 8233)]; by split.
  - exists (String c w). split.
    + intros s. rewrite !str_cons_app. cbn [escape]. rewrite Hc.
      assert (separator_rune (String c (w +:+ s)) = None) as ->.
      { destruct (separator_rune (String c (w +:+ s))) as [r|] eqn:E; [|done].
        apply separator_rune_inv in E; [|done]. destruct E as [[_ E]|[_ E]]; rewrite E in Hsep; discriminate Hsep. }
      rewrite <-str_cons_app, (rune_width_app _ s Hr). cbn [String.length]. rewrite Nat.sub_succ, Nat.sub_0_r.
      by rewrite escape_pending.
    + intros X. rewrite str_cons_app. cbn [unquote]. apply N.ltb_ge in Hc.
      assert (Ascii.eqb c quote = false) as -> by (apply Ascii.eqb_neq; intros ->; by compute in Hc).
      assert (Ascii.eqb c backslash = false) as -> by (apply Ascii.eqb_neq; intros ->; by compute in Hc).
      assert ((N_of_ascii c <? 32)%N = false) as -> by (apply N.ltb_ge; lia).
      rewrite <-str_cons_app, (rune_width_app _ X Hr). cbn [String.length]. rewrite Nat.sub_succ, Nat.sub_0_r.
      by rewrite unquote_pending, prepend_prepend.
Qed.

Lemma unquote_escape s rest : valid_utf8 s → unquote O (escape O O s +:+ String quote rest) = Some (s, rest).
Proof.
  induction 1 as [|w s Hw Hs IH]; [done|]. destruct (escape_rune w Hw) as (e & He & Hu).
  by rewrite He, str_app_assoc, Hu, IH.
Qed.

Lemma ascii_valid_utf8 s : all_bytes (λ c, (N_of_ascii c <? 128)%N) s = true → valid_utf8 s.
Proof.
  induction s as [|c s IH]; [constructor|]. cbn [all_bytes]. intros [Hc Hs]%andb_true_iff.
  change (String c s) with (String c "" +:+ s). constructor; [|by apply IH].
  unfold rune, rune_width. by assert (between 0 127 c = true) as -> by (apply between_N; apply N.ltb_lt in Hc; lia).
Qed.

Lemma valid_app s t : valid_utf8 s → valid_utf8 t → valid_utf8 (s +:+ t).
Proof. induction 1 as [|w s Hw Hs IH]; [done|]. intros Ht. rewrite str_app_assoc. constructor; auto. Qed.

Lemma hex_valid_utf8 l : valid_utf8 (hex_EncodeToString l).
Proof.
  apply ascii_valid_utf8. induction l as [|x l IH]; [done|].
  cbn [hex_EncodeToString all_bytes]. rewrite IH, andb_true_r.
  assert (∀ n, 0 <= n < 16 → (N_of_ascii (hex_digit n) <? 128)%N = true) as H.
  { intros n Hn. assert (∃ k, n = Z.of_nat k ∧ (k < 16)%nat) as (k & -> & Hk) by (exists (Z.to_nat n); lia).
    do 16 (destruct k as [|k]; [done|]). lia. }
  pose proof (byte_hex_range x) as [H1 H2]. by rewrite !H.
Qed.

Lemma b64_digit_ascii z : (N_of_ascii (b64_digit z) <? 128)%N = true.
Proof.
  unfold b64_digit. apply N.ltb_lt. set (k := if z <? 26 then _ else _).
  assert (k < 128) by (subst k; repeat case_match; lia). rewrite N_ascii_embedding by lia. lia.
Qed.
Lemma base64_valid l : valid_utf8 (base64_EncodeToString l).
Proof.
  apply ascii_valid_utf8. induction l as [|a|a b|a b c l IH] using bytes_ind3; [done|..];
    cbn [base64_EncodeToString]; cbv zeta; cbn [all_bytes]; rewrite !b64_digit_ascii; done.
Qed.

(** ** The fuel of the scanner *)

Lemma prepend_Some t x s r : prepend t x = Some (s, r) → ∃ s', x = Some (s', r).
Proof. destruct x as [[s' r']|]; [|done]. intros [= _ ->]. by exists s'. Qed.

Lemma unquote_shorter n : ∀ p s t r, (String.length s <= n)%nat → unquote p s = Some (t, r) → (String.length r < String.length s)%nat.
Proof.
  induction n as [|n IH]; intros p [|c s] t r Hn; try done; cbn [String.length] in Hn; [lia|].
  assert (∀ p' s' x, (String.length s' <= String.length s)%nat → prepend x (unquote p' s') = Some (t, r) →
    (String.length r < String.length (String c s))%nat) as Hrec.
  { intros p' s' x Hs' [u Hu]%prepend_Some. apply IH in Hu; cbn [String.length]; lia. }
  cbn [unquote]. destruct p as [|p]; [|by apply Hrec].
  destruct (Ascii.eqb c quote); [intros [= _ <-]; cbn; lia|].
  destruct (Ascii.eqb c backslash).
  - destruct s as [|e s]; [done|].
    assert (match escape_byte e with Some b => prepend (String b "") (unquote 0 s) | None => None end = Some (t, r) →
      (String.length r < String.length (String c (String e s)))%nat) as He.
    { destruct (escape_byte e); [|done]. apply Hrec. cbn. lia. }
    destruct e as [[] [] [] [] [] [] [] []]; try exact He.
    destruct s as [|a1 [|a2 [|a3 [|a4 s6]]]]; try exact He.
    destruct (hex4 a1 a2 a3 a4) as [r1|]; [|done].
    destruct (_ || _); [|apply Hrec; cbn; lia].
    repeat (case_match; try (apply Hrec; cbn; lia)).
  - destruct (_ <? _)%N; [done|]. destruct (rune_width _); apply Hrec; lia.
Qed.

Lemma span_digits_length s : (String.length (span_digits s).2 <= String.length s)%nat.
Proof.
  induction s as [|c s IH]; [done|]. cbn [span_digits]. destruct (is_digit c); [|done].
  destruct (span_digits s) as [d r]. cbn in *. lia.
Qed.

Lemma lex_int_shorter s i r : lex_int s = Some (i, r) → (String.length r < String.length s)%nat.
Proof.
  assert (∀ sign s i r, match s with
     | String c s' => if Ascii.eqb c "0" then Some (sign +:+ "0", s')
         else if is_digit c then let '(d, r) := span_digits s' in Some (sign +:+ String c d, r) else None
     | EmptyString => None end = Some (i, r) → (String.length r < String.length s)%nat) as H.
  { intros sign [|c s'] i' r'; [done|]. destruct (Ascii.eqb c "0"); [intros [= _ <-]; cbn; lia|].
    destruct (is_digit c); [|done]. pose proof (span_digits_length s') as Hd. destruct (span_digits s') as [d rr].
    intros [= _ <-]. cbn in *. lia. }
  unfold lex_int. destruct s as [|c s]; [done|]. destruct (Ascii.eqb c "-"); [|apply (H "" (String c s))].
  intros E%(H "-" s). cbn. lia.
Qed.

Lemma lex_digits_le mark s x r : lex_digits mark s = Some (x, r) → (String.length r <= String.length s)%nat.
Proof.
  unfold lex_digits. pose proof (span_digits_length s) as Hd. destruct (span_digits s) as [d r'].
  destruct (String.eqb d ""); [done|]. by intros [= _ <-].
Qed.

Lemma lex_number_shorter s n r : lex_number s = Some (n, r) → (String.length r < String.length s)%nat.
Proof.
  unfold lex_number. destruct (lex_int s) as [[i s1]|] eqn:E1; [|done]. apply lex_int_shorter in E1.
  destruct (lex_frac s1) as [[f s2]|] eqn:E2; [|done].
  assert (String.length s2 <= String.length s1)%nat as H2.
  { unfold lex_frac in E2. destruct s1 as [|c s1']; [by injection E2 as _ <-|].
    destruct (Ascii.eqb c "."); [|by injection E2 as _ <-]. apply lex_digits_le in E2. cbn. lia. }
  destruct (lex_exp s2) as [[e s3]|] eqn:E3; [|done]. intros [= _ <-].
  assert (String.length s3 <= String.length s2)%nat; [|lia].
  unfold lex_exp in E3. destruct s2 as [|c s2']; [by injection E3 as _ <-|].
  destruct (_ || _); [|by injection E3 as _ <-]. destruct s2' as [|c' s2'']; [done|].
  destruct (_ || _); apply lex_digits_le in E3; cbn in *; lia.
Qed.

Lemma str_drop_length n s : String.length (str_drop n s) = (String.length s - n)%nat.
Proof. revert n. induction s as [|c s IH]; intros [|n]; cbn; [done|done|done|apply IH]. Qed.

Lemma lex_scalar_shorter s v r : lex_scalar s = Some (v, r) → (String.length r < String.length s)%nat.
Proof.
  unfold lex_scalar. destruct s as [|c s]; [done|].
  destruct (Ascii.eqb c quote).
  { destruct (unquote 0 s) as [[t r']|] eqn:E; [|done]. intros [= _ <-]. eapply unquote_shorter in E; [cbn; lia|done]. }
  repeat (destruct (HasPrefix _ _);
    [intros E; apply (inj Some), (f_equal snd) in E; cbn [snd] in E; rewrite <-E, str_drop_length; cbn [String.length]; lia|]).
  destruct (lex_number _) as [[n r']|] eqn:E; [|done]. intros [= _ <-]. by apply lex_number_shorter in E.
Qed.

Lemma lex_go_enough fuel s : (String.length s <= fuel)%nat → lex_go fuel s = lex s.
Proof.
  unfold lex. assert (∀ n fuel s, (String.length s <= n)%nat → (String.length s <= fuel)%nat →
    lex_go fuel s = lex_go (String.length s) s) as H; [|by eapply H].
  intros n. induction n as [|n IH]; intros f [|c t] Hn Hf; cbn [String.length] in *; [by destruct f|lia|by destruct f|].
  destruct f as [|f]; [lia|]. cbn [lex_go].
  assert (∀ r, (String.length r <= String.length t)%nat → lex_go f r = lex_go (String.length t) r) as Hr.
  { intros r Hr. rewrite (IH f r), (IH (String.length t) r) by lia. done. }
  destruct (is_space c); [by apply Hr|]. destruct (punctuation c); [by rewrite Hr|].
  destruct (lex_scalar (String c t)) as [[v r]|] eqn:E; [|done]. apply lex_scalar_shorter in E. cbn in E. by rewrite Hr by lia.
Qed.

Lemma lex_space c s : is_space c = true → lex (String c s) = lex s.
Proof. intros H. unfold lex at 1. cbn [String.length lex_go]. by rewrite H. Qed.
Lemma lex_punctuation c t s : is_space c = false → punctuation c = Some t → lex (String c s) = t :: lex s.
Proof. intros H1 H2. unfold lex at 1. cbn [String.length lex_go]. by rewrite H1, H2. Qed.
Lemma lex_value c s v r :
  is_space c = false → punctuation c = None → lex_scalar (String c s) = Some (v, r) → lex (String c s) = TScalar v :: lex r.
Proof.
  intros H1 H2 E. unfold lex at 1. cbn [String.length lex_go]. rewrite H1, H2, E. f_equal. apply lex_go_enough.
  apply lex_scalar_shorter in E. cbn in E. lia.
Qed.

(** ** Printed values *)

(** What may follow a number: not a byte that continues it. *)
Definition follow (s : string) : Prop :=
  match s with
  | EmptyString => True
  | String c _ => is_digit c = false ∧ Ascii.eqb c "." = false ∧ Ascii.eqb c "e" = false ∧ Ascii.eqb c "E" = false
  end.

(** Values whose strings are UTF-8 and whose numbers are numbers. *)
Definition number_literal (n : string) : Prop :=
  (∀ rest, follow rest → lex_number (n +:+ rest) = Some (n, rest)) ∧
  match n with String c _ => is_digit c || Ascii.eqb c "-" = true | EmptyString => False end.

Fixpoint printable (v : json) : Prop :=
  match v with
  | JNull | JBool _ => True
  | JNum n => number_literal n
  | JStr s => valid_utf8 s
  | JArr l => (fix go l := match l with [] => True | v :: l => printable v ∧ go l end) l
  | JObj l => (fix go l := match l with [] => True | kv :: l => (valid_utf8 kv.1 ∧ printable kv.2) ∧ go l end) l
  end.

Lemma printable_arr l : printable (JArr l) ↔ Forall printable l.
Proof.
  cbn. induction l as [|v l IH]; [by split; [constructor|]|]. rewrite Forall_cons, <-IH. done.
Qed.
Lemma printable_obj l : printable (JObj l) ↔ Forall (λ kv, valid_utf8 kv.1 ∧ printable kv.2) l.
Proof.
  cbn. induction l as [|v l IH]; [by split; [constructor|]|]. rewrite Forall_cons, <-IH. done.
Qed.

Fixpoint comma_tokens (l : list (list token)) : list token :=
  match l with
  | [] => []
  | [ts] => ts
  | ts :: l => ts ++ TComma :: comma_tokens l
  end.

Fixpoint tokens (v : json) : list token :=
  match v with
  | JArr l => TBeginArr :: comma_tokens (tokens <$> l) ++ [TEndArr]
  | JObj l => TBeginObj :: comma_tokens ((λ kv, TScalar (JStr kv.1) :: TColon :: tokens kv.2) <$> l) ++ [TEndObj]
  | v => [TScalar v]
  end.

(** A text [s] that stands for the tokens [ts], before what can follow. *)
Definition lexes (s : string) (ts : list token) : Prop := ∀ rest, follow rest → lex (s +:+ rest) = ts ++ lex rest.

Lemma lexes_string s : valid_utf8 s → lexes (json_string s) [TScalar (JStr s)].
Proof.
  intros Hs rest _. unfold json_string. rewrite str_cons_app, str_app_assoc, str_one_app.
  apply lex_value; [done|done|]. cbn [lex_scalar]. change (Ascii.eqb quote quote) with true. cbv iota.
  by rewrite unquote_escape.
Qed.

Lemma lexes_punct c t s ts : is_space c = false → punctuation c = Some t → lexes s ts → lexes (String c s) (t :: ts).
Proof. intros H1 H2 Hs rest Hr. rewrite str_cons_app, (lex_punctuation c t) by done. by rewrite Hs. Qed.

Lemma lexes_app s ts s' ts' :
  lexes s ts → lexes s' ts' → (∀ rest, follow rest → follow (s' +:+ rest)) → lexes (s +:+ s') (ts ++ ts').
Proof. intros H H' Hf rest Hr. rewrite str_app_assoc, H, H' by auto. by rewrite (assoc_L (++)). Qed.

Lemma follow_cons c s rest : is_digit c = false → Ascii.eqb c "." = false → Ascii.eqb c "e" = false → Ascii.eqb c "E" = false →
  follow (String c s +:+ rest).
Proof. by intros. Qed.

Lemma lexes_join (l : list (string * list token)) close t :
  Forall (λ p, lexes p.1 p.2) l → punctuation close = Some t → is_space close = false →
  (∀ s rest, follow (String close s +:+ rest)) →
  lexes (Join l.*1 "," +:+ String close "") (comma_tokens l.*2 ++ [t]).
Proof.
  intros Hl Ht Hsp Hf.
  assert (lexes (String close "") [t]) as Hc by (apply lexes_punct; [done|done|by intros rest _]).
  induction Hl as [|p l Hp Hl IH]; [exact Hc|]. rewrite !fmap_cons. destruct l as [|p' l].
  - cbn [Join fmap list_fmap comma_tokens]. apply lexes_app; [done|done|]. intros rest _. apply Hf.
  - rewrite !fmap_cons in *.
    change (Join (p.1 :: p'.1 :: l.*1) ",") with (p.1 +:+ "," +:+ Join (p'.1 :: l.*1) ",").
    change (comma_tokens (p.2 :: p'.2 :: l.*2)) with (p.2 ++ TComma :: comma_tokens (p'.2 :: l.*2)).
    rewrite !str_app_assoc, <-(assoc_L (++)). apply lexes_app; [done| |].
    + rewrite str_one_app. cbn [app]. by apply lexes_punct.
    + intros rest _. by apply follow_cons.
Qed.

Lemma lexes_print v : printable v → lexes (print v) (tokens v).
Proof.
  induction v as [|[]|n|s|l IH|l IH] using json_ind'; intros Hp.
  - intros rest Hr. unfold print. by apply lex_value.
  - intros rest Hr. unfold print. by apply lex_value.
  - intros rest Hr. unfold print. by apply lex_value.
  - intros rest Hr. destruct Hp as [Hn Hc]. cbn [print tokens]. destruct n as [|c n]; [done|].
    specialize (Hn rest Hr). rewrite str_cons_app in *.
    assert (is_space c = false ∧ punctuation c = None ∧ Ascii.eqb c quote = false ∧ Ascii.eqb c "t" = false ∧
      Ascii.eqb c "f" = false ∧ Ascii.eqb c "n" = false) as (H1 & H2 & H3 & H4 & H5 & H6).
    { destruct c as [[] [] [] [] [] [] [] []]; try discriminate Hc; by split_and!. }
    apply lex_value; [done|done|]. unfold lex_scalar. rewrite H3.
    assert (∀ a t u, Ascii.eqb c a = false → HasPrefix (String c u) (String a t) = false) as Hpre.
    { intros a t u Ha. destruct (HasPrefix _ _) eqn:E; [|done]. apply HasPrefix_spec in E as [x E].
      rewrite str_cons_app in E. injection E as -> _. by rewrite Ascii.eqb_refl in Ha. }
    by rewrite !Hpre, Hn by done.
  - by apply lexes_string.
  - rewrite printable_arr in Hp. cbn [print tokens]. rewrite str_one_app. apply lexes_punct; [done|done|].
    pose proof (lexes_join ((λ v, (print v, tokens v)) <$> l) "]" TEndArr) as H. rewrite <-!list_fmap_compose in H.
    apply H; [|done|done|by intros; apply follow_cons].
    apply Forall_fmap. rewrite Forall_forall in *. intros v Hv. cbn. auto.
  - rewrite printable_obj in Hp. cbn [print tokens]. rewrite str_one_app. apply lexes_punct; [done|done|].
    pose proof (lexes_join ((λ kv, (json_string kv.1 +:+ ":" +:+ print kv.2, TScalar (JStr kv.1) :: TColon :: tokens kv.2)) <$> l)
      "}" TEndObj) as H. rewrite <-!list_fmap_compose in H.
    apply H; [|done|done|by intros; apply follow_cons].
    apply Forall_fmap. rewrite Forall_forall in *. intros kv Hkv. cbn. destruct (Hp kv Hkv) as [Hk Hv].
    apply (lexes_app _ [_] _ (TColon :: _)); [by apply lexes_string| |by intros; apply follow_cons].
    rewrite str_one_app. apply lexes_punct; [done|done|auto].
Qed.

(** ** The machine on printed values *)

Definition put (stack : list frame) (v : json) (ts : list token) : option (json * list token) :=
  match stack with
  | [] => Some (v, ts)
  | f :: stack => run ts (add_value v f :: stack) ASeparator
  end.

Lemma run_elements stack l acc ts :
  Forall (λ v, ∀ stack e ts, (e = AValue ∨ e = AValueOrEnd) → (length stack + height v <= max_depth)%nat →
    run (tokens v ++ ts) stack e = put stack v ts) l →
  Forall (λ v, (S (length stack) + height v <= max_depth)%nat) l → l ≠ [] →
  ∀ e, (e = AValue ∨ e = AValueOrEnd) →
  run (comma_tokens (tokens <$> l) ++ TEndArr :: ts) (FArr acc :: stack) e = put stack (JArr (acc ++ l)) ts.
Proof.
  intros Hl Hd Hne. revert acc. induction l as [|v l IH]; [done|]. intros acc e He.
  apply Forall_cons in Hl as [Hv Hl]. apply Forall_cons in Hd as [Hdv Hd]. rewrite fmap_cons. destruct l as [|v' l].
  - cbn [fmap list_fmap comma_tokens]. by rewrite Hv.
  - rewrite fmap_cons. change (comma_tokens (tokens v :: tokens v' :: (tokens <$> l))) with
      (tokens v ++ TComma :: comma_tokens (tokens v' :: (tokens <$> l))).
    rewrite <-(assoc_L (++)), Hv by done. cbn [app put run add_value]. rewrite <-fmap_cons.
    rewrite IH by (by auto). by rewrite <-(assoc_L (++)).
Qed.

Lemma run_members stack l acc ts :
  Forall (λ kv : string * json, ∀ stack e ts, (e = AValue ∨ e = AValueOrEnd) → (length stack + height kv.2 <= max_depth)%nat →
    run (tokens kv.2 ++ ts) stack e = put stack kv.2 ts) l →
  Forall (λ kv, (S (length stack) + height kv.2 <= max_depth)%nat) l → l ≠ [] →
  ∀ e, (e = AKey ∨ e = AKeyOrEnd) →
  run (comma_tokens ((λ kv, TScalar (JStr kv.1) :: TColon :: tokens kv.2) <$> l) ++ TEndObj :: ts) (FObj acc "" :: stack) e =
    put stack (JObj (acc ++ l)) ts.
Proof.
  intros Hl Hd Hne. revert acc. induction l as [|[k v] l IH]; [done|]. intros acc e He.
  apply Forall_cons in Hl as [Hv Hl]. apply Forall_cons in Hd as [Hdv Hd]. destruct l as [|kv' l].
  - destruct He as [-> | ->]; cbn [fmap list_fmap comma_tokens app run fst snd]; by rewrite Hv by auto.
  - set (f := λ kv : string * json, TScalar (JStr kv.1) :: TColon :: tokens kv.2) in *.
    change (comma_tokens (f <$> (k, v) :: kv' :: l)) with
      ((TScalar (JStr k) :: TColon :: tokens v) ++ TComma :: comma_tokens (f <$> kv' :: l)).
    rewrite <-(assoc_L (++)). destruct He as [-> | ->]; cbn [app run]; rewrite Hv by auto; cbn [put app run add_value fst snd];
      rewrite IH by (by auto); by rewrite <-(assoc_L (++)).
Qed.

Lemma max_list_le (l : list nat) n : (max_list l <= n)%nat → Forall (λ x, (x <= n)%nat) l.
Proof.
  induction l as [|x l IH]; [constructor|]. intros H. change (max_list (x :: l)) with (x `max` max_list l)%nat in H.
  constructor; [lia|apply IH; lia].
Qed.

Lemma run_value v : ∀ stack e ts, (e = AValue ∨ e = AValueOrEnd) → (length stack + height v <= max_depth)%nat →
  run (tokens v ++ ts) stack e = put stack v ts.
Proof.
  induction v as [|b|n|s|l IH|l IH] using json_ind'; intros stack e ts He Hd;
    try (by destruct He as [-> | ->]).
  - cbn [tokens height] in *. assert ((length stack <? max_depth)%nat = true) as Hlt by (apply Nat.ltb_lt; lia).
    assert (Forall (λ v, (S (length stack) + height v <= max_depth)%nat) l) as Hl.
    { assert (max_list (height <$> l) <= max_depth - S (length stack))%nat as H%max_list_le by lia.
      rewrite Forall_fmap in H. eapply Forall_impl; [exact H|]. cbn. lia. }
    cbn [app]. rewrite <-(assoc_L (++)). cbn [app].
    destruct (decide (l = [])) as [->|Hne].
    + destruct He as [-> | ->]; cbn [fmap list_fmap comma_tokens app run]; by rewrite Hlt.
    + assert (run (TBeginArr :: comma_tokens (tokens <$> l) ++ TEndArr :: ts) stack e =
        run (comma_tokens (tokens <$> l) ++ TEndArr :: ts) (FArr [] :: stack) AValueOrEnd) as ->
        by (destruct He as [-> | ->]; cbn [run]; by rewrite Hlt).
      by rewrite run_elements by auto.
  - cbn [tokens height] in *. assert ((length stack <? max_depth)%nat = true) as Hlt by (apply Nat.ltb_lt; lia).
    assert (Forall (λ kv : string * json, (S (length stack) + height kv.2 <= max_depth)%nat) l) as Hl.
    { assert (max_list ((λ kv : string * json, height kv.2) <$> l) <= max_depth - S (length stack))%nat as H%max_list_le by lia.
      rewrite Forall_fmap in H. eapply Forall_impl; [exact H|]. cbn. lia. }
    cbn [app]. rewrite <-(assoc_L (++)). cbn [app].
    destruct (decide (l = [])) as [->|Hne].
    + destruct He as [-> | ->]; cbn [fmap list_fmap comma_tokens app run]; by rewrite Hlt.
    + set (tl := comma_tokens _).
      assert (run (TBeginObj :: tl ++ TEndObj :: ts) stack e = run (tl ++ TEndObj :: ts) (FObj [] "" :: stack) AKeyOrEnd) as ->
        by (destruct He as [-> | ->]; cbn [run]; by rewrite Hlt).
      unfold tl. by rewrite run_members by auto.
Qed.

Lemma run_print v rest :
  printable v → (height v <= max_depth)%nat → follow rest → run (lex (print v +:+ rest)) [] AValue = Some (v, lex rest).
Proof. intros Hp Hd Hr. rewrite (lexes_print v Hp rest Hr), run_value; [done|by left|done]. Qed.

Lemma parse_all_print v : printable v → (height v <= max_depth)%nat → parse_all (print v) = Some v.
Proof.
  intros Hp Hd. unfold parse_all. pose proof (run_print v "" Hp Hd I) as H. rewrite str_app_nil_r in H. by rewrite H.
Qed.

(** What follows the first value is not looked at. *)
Lemma parse_first_print v rest :
  printable v → (height v <= max_depth)%nat → follow rest → parse_first (print v +:+ rest) = Some v.
Proof. intros Hp Hd Hr. unfold parse_first. by rewrite run_print. Qed.

(** ** Integers *)

Lemma span_digits_all d rest :
  all_bytes is_digit d = true → match rest with String c _ => is_digit c = false | "" => True end →
  span_digits (d +:+ rest) = (d, rest).
Proof.
  induction d as [|c d IH]; intros Hd Hr.
  - change ("" +:+ rest) with rest. destruct rest as [|c r]; [done|]. cbn. by rewrite Hr.
  - cbn [all_bytes] in Hd. apply andb_true_iff in Hd as [Hc Hd]. rewrite str_cons_app. cbn [span_digits]. by rewrite Hc, IH.
Qed.

Lemma follow_tail rest : follow rest → lex_frac rest = Some ("", rest) ∧ lex_exp rest = Some ("", rest).
Proof.
  intros Hr. destruct rest as [|c rest]; [done|]. destruct Hr as (H1 & H2 & H3 & H4).
  unfold lex_frac, lex_exp. by rewrite H2, H3, H4.
Qed.

(** The digits of a number: no leading zero. *)
Lemma itoa_go_digits fuel n acc :
  0 <= n → all_bytes is_digit acc = true → all_bytes is_digit (itoa_go fuel n acc) = true.
Proof.
  assert (∀ k, 0 <= k < 10 → is_digit (dec_digit k) = true) as Hd.
  { intros k Hk. assert (∃ i, k = Z.of_nat i ∧ (i < 10)%nat) as (i & -> & Hi) by (exists (Z.to_nat k); lia).
    do 10 (destruct i as [|i]; [done|]). lia. }
  revert n acc. induction fuel as [|fuel IH]; intros n acc Hn Ha; [done|]. cbn [itoa_go].
  destruct (Z.ltb_spec n 10); [cbn; by rewrite Hd, Ha by lia|].
  apply IH; [apply Z.div_pos; lia|]. cbn. rewrite Hd, Ha; [done|]. apply Z.mod_pos_bound. lia.
Qed.

Lemma itoa_go_first fuel n acc :
  0 < n < 2 ^ Z.of_nat fuel → ∃ c t, itoa_go fuel n acc = String c t ∧ is_digit c = true ∧ Ascii.eqb c "0" = false.
Proof.
  revert n acc. induction fuel as [|fuel IH]; intros n acc Hn; [cbn in Hn; lia|]. cbn [itoa_go].
  destruct (Z.ltb_spec n 10) as [Hlt|Hge].
  - eexists _, _. split; [done|]. assert (∃ i, n = Z.of_nat (S i) ∧ (i < 9)%nat) as (i & -> & Hi) by (exists (Z.to_nat n - 1)%nat; lia).
    do 9 (destruct i as [|i]; [done|]). lia.
  - apply IH. rewrite Nat2Z.inj_succ, Z.pow_succ_r in Hn by lia. split; [apply Z.div_str_pos; lia|].
    apply Z.div_lt_upper_bound; lia.
Qed.

Lemma lex_int_utoa sign n rest :
  0 <= n → follow rest → (sign = "" ∨ sign = "-") → lex_int (sign +:+ utoa n +:+ rest) = Some (sign +:+ utoa n, rest).
Proof.
  intros Hn Hr Hs. assert (match rest with String c _ => is_digit c = false | "" => True end) as Hd.
  { destruct rest; [done|]. by destruct Hr. }
  assert (all_bytes is_digit (utoa n) = true) as Ha by (by apply itoa_go_digits).
  destruct (decide (n = 0)) as [->|Hn0].
  { change (utoa 0) with "0". destruct Hs as [-> | ->]; unfold lex_int; cbn; done. }
  destruct (itoa_go_first (S (Z.to_nat (Z.log2 n))) n "") as (c & t & E & Hc & H0).
  { split; [lia|]. rewrite Nat2Z.inj_succ, Z2Nat.id by apply Z.log2_nonneg. apply Z.log2_spec. lia. }
  unfold utoa in *. rewrite E in *. cbn [all_bytes] in Ha. rewrite Hc in Ha. cbn [andb] in Ha.
  assert (Ascii.eqb c "-" = false) as Hm by (apply Ascii.eqb_neq; intros ->; discriminate Hc).
  destruct Hs as [-> | ->].
  - change ("" +:+ ?x) with x. rewrite str_cons_app. unfold lex_int. rewrite Hm, H0, Hc, span_digits_all by done. done.
  - rewrite str_one_app, str_cons_app. unfold lex_int. change (Ascii.eqb "-" "-") with true. cbv iota.
    by rewrite H0, Hc, span_digits_all.
Qed.

Lemma Itoa_number n : number_literal (Itoa n).
Proof.
  assert (∃ sign m, Itoa n = sign +:+ utoa m ∧ 0 <= m ∧ (sign = "" ∨ sign = "-")) as (sign & m & E & Hm & Hs).
  { unfold Itoa. destruct (Z.ltb_spec n 0).
    - exists "-", (- n). split; [done|]. split; [lia|by right].
    - exists "", n. split; [done|]. split; [lia|by left]. }
  split.
  - intros rest Hr. rewrite E, str_app_assoc. unfold lex_number. rewrite lex_int_utoa by done.
    destruct (follow_tail rest Hr) as [-> ->]. by rewrite !str_app_nil_r.
  - rewrite E. destruct Hs as [-> | ->]; [|done]. change ("" +:+ utoa m) with (utoa m).
    destruct (decide (m = 0)) as [->|]; [done|].
    destruct (itoa_go_first (S (Z.to_nat (Z.log2 m))) m "") as (c & t & E' & Hc & _).
    { split; [lia|]. rewrite Nat2Z.inj_succ, Z2Nat.id by apply Z.log2_nonneg. apply Z.log2_spec. lia. }
    unfold utoa. rewrite E'. by rewrite Hc.
Qed.

Lemma ParseInt10_Itoa w n : 0 < w → in_s w n → ParseInt10 w (Itoa n) = Some n.
Proof.
  intros Hw Hn. unfold ParseInt10, Itoa, in_s in *. destruct (n <? 0) eqn:E.
  - apply Z.ltb_lt in E. rewrite Ascii.eqb_refl, parse_utoa by lia. simpl. rewrite Z.opp_involutive.
    assert ((- 2 ^ (w - 1) <=? n) && (n <? 2 ^ (w - 1)) = true) as -> by lia. done.
  - apply Z.ltb_ge in E. pose proof (parse_utoa n E) as Hp.
    assert (∃ c t, utoa n = String c t ∧ Ascii.eqb c "-" = false ∧ Ascii.eqb c "+" = false) as (c & t & E' & H1 & H2).
    { destruct (decide (n = 0)) as [->|]; [by eexists _, _|].
      destruct (itoa_go_first (S (Z.to_nat (Z.log2 n))) n "") as (c & t & E' & Hc & _).
      { split; [lia|]. rewrite Nat2Z.inj_succ, Z2Nat.id by apply Z.log2_nonneg. apply Z.log2_spec. lia. }
      exists c, t. split; [done|]. split; apply Ascii.eqb_neq; intros ->; discriminate Hc. }
    rewrite E' in *. rewrite H1, H2, Hp.
    assert ((- 2 ^ (w - 1) <=? n) && (n <? 2 ^ (w - 1)) = true) as -> by lia. done.
Qed.

Lemma d_int_Itoa w n old : 0 < w → in_s w n → decode_value (d_int w) (JNum (Itoa n)) old = (n, true).
Proof. intros Hw Hn. cbn. by rewrite ParseInt10_Itoa. Qed.

(** ** Decoding maps *)

Lemma fold_insert_map {V} (l : list (string * V)) : NoDup l.*1 → fold_left (λ m kv, <[kv.1 := kv.2]> m) l ∅ = (list_to_map l : gmap string V).
Proof.
  intros Hnd. rewrite <-(rev_involutive l) at 1. rewrite <-fold_left_rev_right, rev_involutive. transitivity (list_to_map (rev l) : gmap string V).
  - generalize (rev l). intros l'. induction l' as [|[k v] l' IH]; [done|]. cbn. by rewrite <-IH.
  - symmetry. apply list_to_map_proper; [done|]. apply Permutation_rev.
Qed.

Lemma decode_entries_fmap {T C} (d : decoder T) (f : C → T) enc (m : gmap string C) :
  map_Forall (λ _ x, decode_value d (enc x) (zero d) = (f x, true)) m →
  decode_entries d ((λ kv, (kv.1, enc kv.2)) <$> map_to_list m) ∅ = (f <$> m, true).
Proof.
  intros Hm. rewrite <-(list_to_map_to_list m) at 2. rewrite <-list_to_map_fmap.
  rewrite <-fold_insert_map by (rewrite <-list_fmap_compose; apply NoDup_fst_map_to_list).
  assert (Forall (λ kv, decode_value d (enc kv.2) (zero d) = (f kv.2, true)) (map_to_list m)) as Hl.
  { apply Forall_forall. intros [k x] Hk%elem_of_map_to_list. by apply Hm in Hk. }
  unfold decode_entries. generalize (∅ : gmap string T). induction Hl as [|[k x] l Hx Hl IH]; intros m0; [done|].
  cbn [fmap list_fmap fold_left fst snd prod_map] in *. rewrite Hx. cbn [andb]. apply IH.
Qed.

Lemma decode_entries_map {T} (d : decoder T) enc (m : gmap string T) :
  map_Forall (λ _ x, decode_value d (enc x) (zero d) = (x, true)) m →
  decode_entries d ((λ kv, (kv.1, enc kv.2)) <$> map_to_list m) ∅ = (m, true).
Proof. intros Hm. rewrite (decode_entries_fmap d Datatypes.id enc m Hm). by rewrite map_fmap_id. Qed.

(** ** Flat objects, as clients send them *)

(** Strings that JSON carries, and 32-bit integers. *)
Definition j_valid (l : list string) : Prop := Forall valid_utf8 l.
Definition j_valid_int (n : option Z) : Prop := from_option (in_s 32) True n.

Lemma obj_printable h l :
  Forall (λ kv : string * json, (valid_utf8 kv.1 ∧ printable kv.2) ∧ (height kv.2 <= h)%nat) l →
  printable (JObj l) ∧ (height (JObj l) <= S h)%nat.
Proof.
  intros Hl. split; [rewrite printable_obj; eapply Forall_impl; [exact Hl|]; by intros ? [? _]|].
  cbn [height]. apply le_n_S. induction Hl as [|kv l [_ H] _ IH]; [cbn; lia|].
  change (max_list ((λ kv, height kv.2) <$> kv :: l)) with (height kv.2 `max` max_list ((λ kv, height kv.2) <$> l))%nat. lia.
Qed.

Lemma j_printable l :
  Forall (λ kv : string * json, (valid_utf8 kv.1 ∧ printable kv.2) ∧ (height kv.2 <= 2)%nat) l →
  printable (JObj l) ∧ (height (JObj l) <= 3)%nat.
Proof. apply obj_printable. Qed.

Lemma j_opt_printable {A} k (f : A → json) (x : option A) h :
  valid_utf8 k → (∀ a, x = Some a → printable (f a) ∧ (height (f a) <= h)%nat) →
  Forall (λ kv : string * json, (valid_utf8 kv.1 ∧ printable kv.2) ∧ (height kv.2 <= h)%nat) (j_opt k f x).
Proof.
  intros Hk Hf. destruct x as [a|]; [|constructor]. destruct (Hf a eq_refl). constructor; [|constructor]. done.
Qed.
