(* ===== verification/MetaHeaders.v ===== *)
(** * User metadata in headers

    The storage frontends carry an object's metadata in headers with a common
    prefix ([x-ms-meta-], [x-amz-meta-]).  Reading such headers into a map and
    writing a map as such headers, and that one undoes the other. *)

From Stdlib Require Import Ascii.
From S2P Require Import Prelude GoStrings GoHttp.

(** One header of the request: [out[strings.ToLower(k[len(pfx):])] = vs[0]].
    Only names that are not canonical could collide, and the server makes
    names canonical. *)
Definition meta_entry (pfx k : string) (vs : list string) (out : gmap string string) : gmap string string :=
  match vs with
  | v :: _ => if HasPrefix k pfx then <[ToLower (str_drop (String.length pfx) k) := v]> out else out
  | [] => out
  end.

(** [for k, v := range m { w.Header().Set(prefix+k, v) }] *)
Definition set_metadata (prefix : string) (m : strmap) (h : gmap string string) : gmap string string :=
  map_fold (λ k v h, Set_ (prefix +:+ k) v h) h (default ∅ m).

(** ** Headers *)

Lemma Set_eq k v h : Set_ k v h !! CanonicalHeaderKey k = Some v.
Proof. apply lookup_insert_eq. Qed.
Lemma Set_ne k v h x : CanonicalHeaderKey k ≠ x → Set_ k v h !! x = h !! x.
Proof. apply lookup_insert_ne. Qed.

(** The names of the headers a request has are canonical. *)
Definition canonical_headers (h : gmap string (list string)) : Prop := ∀ k, is_Some (h !! k) → canonical_name k.

Section metadata.
Context (pfx : string).

Lemma extract_fold h :
  canonical_headers h →
  let out := map_fold (meta_entry pfx) ∅ h in
  ∀ k v, out !! k = Some v ↔ ∃ n vs, h !! (pfx +:+ n) = Some (v :: vs) ∧ ToLower n = k.
Proof.
  cbv zeta. apply (map_fold_weak_ind (λ r m, canonical_headers m →
    ∀ k v, r !! k = Some v ↔ ∃ n vs, m !! (pfx +:+ n) = Some (v :: vs) ∧ ToLower n = k)).
  { intros _ k v. rewrite lookup_empty. split; [done|]. intros (n & vs & Hn & _). by rewrite lookup_empty in Hn. }
  intros i ws m r Hi IH Hc.
  assert (canonical_headers m) as Hm.
  { intros k [w Hk]. apply Hc. rewrite lookup_insert_ne by (intros ->; congruence). eauto. }
  specialize (IH Hm). unfold meta_entry.
  assert (∀ k v, r !! k = Some v ↔ ∃ n vs, i ≠ pfx +:+ n ∧
    <[i := ws]> m !! (pfx +:+ n) = Some (v :: vs) ∧ ToLower n = k) as IH'.
  { intros k v. rewrite IH. split.
    - intros (n & vs & Hn & E). exists n, vs. assert (i ≠ pfx +:+ n) by (intros ->; congruence).
      by rewrite lookup_insert_ne.
    - intros (n & vs & Hne & Hn & E). exists n, vs. by rewrite lookup_insert_ne in Hn. }
  destruct ws as [|w ws].
  { intros k v. rewrite IH'. split; intros (n & vs & H); [exists n, vs; apply H|]. exists n, vs.
    split_and!; [|apply H..]. intros ->. destruct H as [H _]. by rewrite lookup_insert_eq in H. }
  destruct (HasPrefix i pfx) eqn:Hp.
  2: { intros k v. rewrite IH'. split; intros (n & vs & H); [exists n, vs; apply H|]. exists n, vs.
    split_and!; [|apply H..]. intros ->. by rewrite HasPrefix_app in Hp. }
  apply HasPrefix_spec in Hp as [n0 ->]. rewrite str_drop_app. intros k v.
  destruct (decide (ToLower n0 = k)) as [<-|Hne].
  - rewrite lookup_insert_eq. split.
    + intros [= ->]. exists n0, ws. by rewrite lookup_insert_eq.
    + intros (n & vs & Hn & E). assert (n = n0) as ->.
      { apply (canonical_lower_inj pfx); [apply Hc; eauto| |done].
        apply Hc. rewrite lookup_insert_eq. eauto. }
      rewrite lookup_insert_eq in Hn. congruence.
  - rewrite lookup_insert_ne by done. rewrite IH'. split; intros (n & vs & H); [exists n, vs; apply H|].
    destruct H as [Hn E]. exists n, vs. split_and!; [|done..]. intros E'. apply str_app_inj_l in E' as <-. done.
Qed.

Context (h : gmap string (list string)) (Hc : canonical_headers h).
Context (m : strmap) (Hm : default ∅ m = map_fold (meta_entry pfx) ∅ h).

Lemma metadata_lookup k v :
  default ∅ m !! k = Some v ↔ ∃ n vs, h !! (pfx +:+ n) = Some (v :: vs) ∧ ToLower n = k.
Proof. rewrite Hm. by apply extract_fold. Qed.

Lemma metadata_name k :
  is_Some (default ∅ m !! k) →
  ∃ n, k = ToLower n ∧ canonical_name (pfx +:+ n) ∧ CanonicalHeaderKey (ToLower pfx +:+ k) = pfx +:+ n.
Proof.
  intros [v (n & vs & Hn & <-)%metadata_lookup]. exists n.
  assert (canonical_name (pfx +:+ n)) by (apply Hc; eauto).
  split_and!; [done..|]. by rewrite canonical_lower.
Qed.

Lemma metadata_names_inj k1 k2 :
  is_Some (default ∅ m !! k1) → is_Some (default ∅ m !! k2) →
  CanonicalHeaderKey (ToLower pfx +:+ k1) = CanonicalHeaderKey (ToLower pfx +:+ k2) → k1 = k2.
Proof. intros (n1 & -> & _ & ->)%metadata_name (n2 & -> & _ & ->)%metadata_name. by intros ->%str_app_inj_l. Qed.

(** The response headers that carry the stored metadata. *)
Lemma metadata_headers H0 n v vs :
  h !! (pfx +:+ n) = Some (v :: vs) → set_metadata (ToLower pfx) m H0 !! (pfx +:+ n) = Some v.
Proof.
  intros Hn. unfold set_metadata.
  destruct (map_fold_renamed (λ k, CanonicalHeaderKey (ToLower pfx +:+ k)) (default ∅ m) H0) as [H1 _];
    [apply metadata_names_inj|].
  assert (canonical_name (pfx +:+ n)) as Hcn by (apply Hc; eauto).
  rewrite <-(canonical_lower pfx n) by done. apply H1. apply metadata_lookup. eauto.
Qed.

(** Metadata does not touch other headers. *)
Lemma metadata_headers_other H0 x :
  HasPrefix x pfx = false → set_metadata (ToLower pfx) m H0 !! x = H0 !! x.
Proof.
  intros Hx. unfold set_metadata.
  destruct (map_fold_renamed (λ k, CanonicalHeaderKey (ToLower pfx +:+ k)) (default ∅ m) H0) as [_ H1];
    [apply metadata_names_inj|].
  apply H1. intros k (n & -> & _ & ->)%metadata_name. intros <-. by rewrite HasPrefix_app in Hx.
Qed.
End metadata.
