(* ===== verification/Ledger.v ===== *)
(** * Ledgers: what it means for a store of messages to lose nothing

    The interface that the queue and the publish/subscribe backends implement:
    a transition system in which every operation balances, per queue, what it
    puts in and what it takes out.  The theorem about whole histories is proved
    once, against the interface. *)

From S2P Require Import Prelude.

Class Ledger (St Op Item : Type) := {
  lg_run : Op → St → St;
  lg_ok : Op → St → Prop;
  lg_inv : St → Prop;
  lg_contents : St → string → list Item;
  lg_added : Op → St → string → list Item;
  lg_removed : Op → St → string → list Item;
  lg_inv_run o b : lg_ok o b → lg_inv b → lg_inv (lg_run o b);
  lg_balance o b q : lg_ok o b → lg_inv b →
    lg_added o b q ++ lg_contents b q ≡ₚ lg_removed o b q ++ lg_contents (lg_run o b) q }.

Section histories.
Context `{Ledger St Op Item}.
Implicit Types (os : list Op) (b : St) (q : string).

Fixpoint run_ops os b : St :=
  match os with [] => b | o :: os => run_ops os (lg_run o b) end.
(** Every operation's side condition holds in the state it finds. *)
Fixpoint ops_ok os b : Prop :=
  match os with [] => True | o :: os => lg_ok o b ∧ ops_ok os (lg_run o b) end.
Fixpoint all_added os b q : list Item :=
  match os with [] => [] | o :: os => lg_added o b q ++ all_added os (lg_run o b) q end.
Fixpoint all_removed os b q : list Item :=
  match os with [] => [] | o :: os => lg_removed o b q ++ all_removed os (lg_run o b) q end.

(** Nothing is lost, duplicated or invented along a history. *)
Definition conserves os b q : Prop :=
  all_added os b q ++ lg_contents b q ≡ₚ all_removed os b q ++ lg_contents (run_ops os b) q.

Lemma run_ops_inv os b : ops_ok os b → lg_inv b → lg_inv (run_ops os b).
Proof.
  revert b. induction os as [|o os IH]; intros b; cbn; [done|]. intros [Ho Hos] Hb.
  apply IH; [done|]. by apply lg_inv_run.
Qed.

Lemma history_balances os b q : ops_ok os b → lg_inv b → conserves os b q.
Proof.
  unfold conserves. revert b. induction os as [|o os IH]; intros b; cbn; [done|]. intros [Ho Hos] Hb.
  specialize (IH (lg_run o b) Hos (lg_inv_run _ _ Ho Hb)).
  rewrite <-!(assoc_L (++)), (Permutation_app_comm (all_added os _ q)), (assoc_L (++)).
  rewrite (lg_balance o b q Ho Hb), <-(assoc_L (++)), (Permutation_app_comm (lg_contents _ _)).
  by rewrite IH.
Qed.

(** What was put in and not taken out is there. *)
Lemma history_keeps os b q x :
  ops_ok os b → lg_inv b → x ∈ all_added os b q ++ lg_contents b q → x ∉ all_removed os b q →
  x ∈ lg_contents (run_ops os b) q.
Proof.
  intros Hos Hb Hx Hn. rewrite (history_balances os b q Hos Hb) in Hx.
  apply elem_of_app in Hx as [Hx|Hx]; [by destruct Hn|done].
Qed.
End histories.
