(* ===== verification/LongPoll.v ===== *)
(** * The long poll

    The loop that the queue's [ReceiveMessages] and the publish/subscribe
    [Receive] share: attempt; answer with what there is, or when waiting is not
    asked for or the deadline has passed; otherwise sleep 100 ms, unless the
    context is done.  The loop runs against an environment of ticks, and one
    termination theorem serves both. *)

From S2P Require Import Prelude.

(** What one turn of the loop sees: the clock, map order and random source of
    the attempt, the clock at the deadline test, whether the context is done
    during the sleep, and what other callers do to the state meanwhile. *)
Record tick {St E : Type} := mkTick {
  tk_now : Time; tk_order : list string; tk_rnd : nat → bytes; tk_check : Time;
  tk_done : option E; tk_others : St → St }.
Arguments tick : clear implicits.
Arguments mkTick {St E}.

(** What the other callers make of the state during [n] sleeps. *)
Fixpoint others {St E : Type} (n : nat) (env : nat → tick St E) (b : St) : St :=
  match n with
  | O => b
  | S n => others n (λ i, env (S i)) (tk_others (env O) b)
  end.

Section poll.
Context {St E M : Type} (attempt : tick St E → St → St * outcome E (list M)) (no_wait : bool) (deadline : Time).

Fixpoint poll (fuel : nat) (env : nat → tick St E) (b : St) : option (St * outcome E (list M)) :=
  match fuel with
  | O => None
  | S fuel =>
      let t := env O in
      let '(b, r) := attempt t b in
      match r with
      | Err e => Some (b, Err e)
      | Panic => Some (b, Panic)
      | Ok msgs =>
          if (0 <? Z.of_nat (length msgs)) || no_wait || negb (tk_check t <? deadline)
          then Some (b, Ok msgs)
          else match tk_done t with
               | Some e => Some (b, Err e)
               | None => poll fuel (λ i, env (S i)) (tk_others t b)
               end
      end
  end.

(** Attempts are at least 100 ms apart, so the loop returns once the deadline
    has passed, at the latest. *)
Lemma poll_returns fuel env b t0 :
  (∀ t b, (attempt t b).2 ≠ Panic) →
  (∀ i, t0 + Z.of_nat i * (100 * Millisecond) <= tk_check (env i)) →
  (0 < fuel)%nat → deadline <= t0 + (Z.of_nat fuel - 1) * (100 * Millisecond) →
  ∃ b' r, poll fuel env b = Some (b', r) ∧ r ≠ Panic ∧
    (r = Ok [] → no_wait = true ∨ ∃ i, deadline <= tk_check (env i)).
Proof.
  intros Hnp. revert env b t0. induction fuel as [|fuel IH]; intros env b t0 Hclk Hpos Hd; [lia|].
  cbn [poll]. specialize (Hnp (env O) b). destruct (attempt (env O) b) as [b' [l|e|]]; [|by exists b', (Err e)|done].
  pose proof (Hclk O) as H0. unfold Millisecond in *.
  destruct l as [|x l]; [|by exists b', (Ok (x :: l)); split_and!].
  cbn [length]. change (0 <? Z.of_nat 0) with false. cbn [orb].
  destruct no_wait; [exists b', (Ok []); split_and!; [done..|by left]|]. cbn [orb].
  destruct (tk_check (env O) <? deadline) eqn:Hlt; cbn [negb].
  - destruct (tk_done (env O)) as [e|]; [by exists b', (Err e)|].
    destruct (IH (λ i, env (S i)) (tk_others (env O) b') (t0 + 100 * 1000000)) as (b2 & r & Eq & Hp & He).
    + intros i. specialize (Hclk (S i)). lia.
    + destruct fuel; lia.
    + lia.
    + exists b2, r. split_and!; [done..|]. intros Hr. destruct (He Hr) as [?|[i Hi]]; [by left|eauto].
  - exists b', (Ok []). split_and!; [done..|]. intros _. right. exists O. lia.
Qed.

(** When an attempt that hands nothing out leaves the state alone, a poll that
    ends with an error has changed nothing itself. *)
Lemma poll_error_idle fuel env b b' e :
  (∀ t b, (attempt t b).2 = Ok [] ∨ is_err (attempt t b).2 = true → (attempt t b).1 = b) →
  poll fuel env b = Some (b', Err e) → ∃ n, b' = others n env b.
Proof.
  intros Hidle. revert env b. induction fuel as [|fuel IH]; intros env b; [done|]. cbn [poll].
  pose proof (Hidle (env O) b) as Hi. destruct (attempt (env O) b) as [b1 [l|e'|]]; cbn [fst snd is_err] in Hi; [| |done].
  - destruct l as [|x l]; [|done]. rewrite (Hi (or_introl eq_refl)).
    change (0 <? Z.of_nat (length [])) with false. cbn [orb]. destruct (no_wait || _); [done|].
    destruct (tk_done (env O)) as [e'|]; [intros [= <- _]; by exists O|].
    intros (n & ->)%IH. by exists (S n).
  - intros [= <- _]. exists O. by apply Hi; right.
Qed.
End poll.
