(* ===== verification/Storage.v ===== *)
(** * Object storage: domain types, errors and the in-process backend

    Models [internal/storage/domain] and [services/storage/backends/inmem].
    The backend's two maps are the fields of [Backend]; every exported method
    is a function from its arguments and the state to the new state and the
    Go results.  The mutex makes each method one atomic step.  [time.Now()] is
    an argument ([now]); an [io.Reader] is what reading it to the end yields. *)

From Stdlib Require Import Ascii.
From S2P Require Import Prelude GoStrings GoBytes GoCrypto.

(** ** domain/errors.go *)

Inductive Kind :=
  | KindUnknown | KindNoSuchBucket | KindNoSuchKey | KindNoSuchUpload
  | KindBucketAlreadyExists | KindBucketAlreadyOwnedByYou | KindBucketNotEmpty
  | KindInvalidArgument | KindAccessDenied | KindInternal.
#[export] Instance Kind_eq_dec : EqDecision Kind.
Proof. solve_decision. Defined.

(** An [error] value: one made by [errors.New] / [fmt.Errorf] with what it
    wraps, or a [*domain.Error]. *)
Inductive error :=
  | Plain (text : string) (wraps : option error)
  | DomainError (Kind_ : Kind) (Resource Message : string) (Inner : option error).

Definition kindName (k : Kind) : string :=
  match k with
  | KindNoSuchBucket => "NoSuchBucket"
  | KindNoSuchKey => "NoSuchKey"
  | KindNoSuchUpload => "NoSuchUpload"
  | KindBucketAlreadyExists => "BucketAlreadyExists"
  | KindBucketAlreadyOwnedByYou => "BucketAlreadyOwnedByYou"
  | KindBucketNotEmpty => "BucketNotEmpty"
  | KindInvalidArgument => "InvalidArgument"
  | KindAccessDenied => "AccessDenied"
  | KindInternal => "InternalError"
  | KindUnknown => "Unknown"
  end.

Fixpoint Error_text (e : error) : string :=
  match e with
  | Plain t _ => t
  | DomainError k r _ (Some i) => kindName k +:+ ": " +:+ r +:+ ": " +:+ Error_text i
  | DomainError k r _ None => kindName k +:+ ": " +:+ r
  end.

Definition Unwrap (e : error) : option error :=
  match e with Plain _ w => w | DomainError _ _ _ i => i end.

(** [errors.As(e, &t)] with [t] a [*domain.Error]: the first one in the chain. *)
Fixpoint errors_As (e : error) : option Kind :=
  match e with
  | DomainError k _ _ _ => Some k
  | Plain _ (Some w) => errors_As w
  | Plain _ None => None
  end.

(** [(e *Error) Is(target)]. *)
Definition Error_Is (k : Kind) (target : error) : bool :=
  match errors_As target with Some k' => bool_decide (k = k') | None => false end.

(** [errors.Is(e, target)] for a target that is one of the sentinels. *)
Fixpoint errors_Is (e : error) (target : error) : bool :=
  match e with
  | DomainError k _ _ i =>
      Error_Is k target || match i with Some i => errors_Is i target | None => false end
  | Plain _ (Some w) => errors_Is w target
  | Plain _ None => false
  end.

Definition NoSuchBucket (bucket : string) : error :=
  DomainError KindNoSuchBucket bucket "no such bucket" None.
Definition NoSuchKey (bucket key : string) : error :=
  DomainError KindNoSuchKey (bucket +:+ "/" +:+ key) "no such key" None.
Definition NoSuchUpload (uploadID : string) : error :=
  DomainError KindNoSuchUpload uploadID "no such upload" None.
Definition BucketAlreadyExists (bucket : string) : error :=
  DomainError KindBucketAlreadyExists bucket "bucket already exists" None.
Definition BucketNotEmpty (bucket : string) : error :=
  DomainError KindBucketNotEmpty bucket "bucket not empty" None.
Definition InvalidArgument (msg : string) : error :=
  DomainError KindInvalidArgument "" msg None.

Definition ErrNoSuchBucket : error := DomainError KindNoSuchBucket "" "" None.
Definition ErrNoSuchKey : error := DomainError KindNoSuchKey "" "" None.
Definition ErrNoSuchUpload : error := DomainError KindNoSuchUpload "" "" None.
Definition ErrBucketNotEmpty : error := DomainError KindBucketNotEmpty "" "" None.

Abbreviation result := (outcome error).

(** ** domain/domain.go *)

Record Bucket := mkBucket {
  Bucket_Name : string; Bucket_CreatedAt : Time; Bucket_Region : string; Bucket_ETag : string }.
Record Owner := mkOwner { Owner_ID : string; Owner_DisplayName : string }.
(** [Body] is [None] on HeadObject results. *)
Record Object := mkObject {
  Object_Bucket : string; Object_Key : string; Object_Size : Z; Object_ETag : string;
  Object_LastModified : Time; Object_ContentType : string; Object_Metadata : strmap;
  Object_Body : option bytes }.
Record ObjectMetadata := mkObjectMetadata {
  om_Key : string; om_Size : Z; om_ETag : string; om_LastModified : Time;
  om_StorageClass : string }.
Record MultipartUpload := mkMultipartUpload {
  mu_UploadID : string; mu_Bucket : string; mu_Key : string; mu_Initiated : Time }.
Record Part := mkPart {
  Part_Number : Z; Part_ETag : string; Part_Size : Z; Part_LastModified : Time }.
Record CompletePartRef := mkCompletePartRef { cpr_Number : Z; cpr_ETag : string }.

Record ListBucketsOptions := mkListBucketsOptions {
  lb_Prefix : string; lb_Region : string; lb_MaxResults : Z; lb_NextToken : string }.
Record ListBucketsResult := mkListBucketsResult {
  lbr_Buckets : list Bucket; lbr_NextToken : string; lbr_Owner : Owner; lbr_Prefix : string }.
Record ListObjectsOptions := mkListObjectsOptions {
  lo_Bucket : string; lo_Prefix : string; lo_Delimiter : string; lo_StartAfter : string;
  lo_NextToken : string; lo_MaxResults : Z }.
Record ListObjectsResult := mkListObjectsResult {
  lor_Bucket : string; lor_Objects : list ObjectMetadata; lor_CommonPrefixes : list string;
  lor_NextToken : string; lor_IsTruncated : bool; lor_KeyCount : Z; lor_Prefix : string;
  lor_Delimiter : string }.

(** An [io.Reader], by what [io.ReadAll] returns for it. *)
Inductive Reader := Reads (data : bytes) | ReadFails (err : error).

(** [Body = None] is a nil reader. *)
Record PutObjectOptions := mkPutObjectOptions {
  po_Bucket : string; po_Key : string; po_Body : option Reader; po_ContentType : string;
  po_Metadata : strmap }.
Record PutObjectResult := mkPutObjectResult { por_ETag : string }.
Record CopyObjectOptions := mkCopyObjectOptions {
  co_SrcBucket : string; co_SrcKey : string; co_DstBucket : string; co_DstKey : string;
  co_MetadataDirective : string; co_Metadata : strmap; co_ContentType : string }.
Record CopyObjectResult := mkCopyObjectResult { cor_ETag : string; cor_LastModified : Time }.

Definition quote : ascii := "034"%char.

(** The bytes one part contributes to the multipart hash. *)
Definition part_raw (p : CompletePartRef) : bytes :=
  let raw := TrimByte (cpr_ETag p) quote in
  let raw := match IndexByte raw "-" with Some i => str_take i raw | None => raw end in
  match hex_DecodeString raw with
  | Some b => b
  | None => bytes_of_string raw
  end.

Definition MultipartETag (parts : list CompletePartRef) : string :=
  let h := fold_left (λ acc p, acc ++ part_raw p) parts [] in
  String quote (hex_EncodeToString (md5_Sum h)) +:+ "-" +:+
    Itoa (Z.of_nat (length parts)) +:+ String quote "".

(** ** inmem.go: state *)

Record objectState := mkObjectState {
  obj_data : bytes; obj_contentType : string; obj_metadata : strmap;
  obj_lastModified : Time; obj_etag : string }.
Record bucketState := mkBucketState {
  bk_created : Time; bk_region : string; bk_objects : gmap string objectState }.
Record partState := mkPartState { pt_data : bytes; pt_etag : string; pt_uploadedAt : Time }.
Record uploadState := mkUploadState {
  up_bucket : string; up_key : string; up_created : Time; up_parts : gmap Z partState;
  up_contentType : string; up_metadata : strmap }.
Record Backend := mkBackend {
  buckets : gmap string bucketState; uploads : gmap string uploadState }.

Definition New : Backend := mkBackend ∅ ∅.

Definition set_objects (st : bucketState) (os : gmap string objectState) : bucketState :=
  mkBucketState (bk_created st) (bk_region st) os.
Definition set_bucket (b : Backend) (name : string) (st : bucketState) : Backend :=
  mkBackend (<[name := st]> (buckets b)) (uploads b).
Definition set_upload (b : Backend) (id : string) (up : uploadState) : Backend :=
  mkBackend (buckets b) (<[id := up]> (uploads b)).
Definition set_parts (up : uploadState) (ps : gmap Z partState) : uploadState :=
  mkUploadState (up_bucket up) (up_key up) (up_created up) ps (up_contentType up) (up_metadata up).

Definition etagOf (data : bytes) : string :=
  String quote (hex_EncodeToString (md5_Sum data)) +:+ String quote "".

Definition copyMeta (m : strmap) : strmap :=
  match m with
  | None => None
  | Some m => Some (put_all m ∅)
  end.

Definition or_default (s d : string) : string := if String.eqb s "" then d else s.

(** ** Bucket lifecycle *)

(** The [start] index of the pagination loop: the first name past the token. *)
Fixpoint start_after (token : string) (names : list string) : nat :=
  match names with
  | [] => O
  | n :: ns => if String.ltb token n then O else S (start_after token ns)
  end.

Definition bucket_of (name : string) (st : bucketState) : Bucket :=
  mkBucket name (bk_created st) (bk_region st) "".

Definition ListBuckets (opt : ListBucketsOptions) (b : Backend) : Backend * result ListBucketsResult :=
  let names := sort_Strings (fst <$> filter (λ '(n, st),
      (lb_Prefix opt = "" ∨ HasPrefix n (lb_Prefix opt) = true) ∧
      (lb_Region opt = "" ∨ bk_region st = lb_Region opt))
    (map_to_list (buckets b))) in
  let names := if String.eqb (lb_NextToken opt) "" then names
               else drop (start_after (lb_NextToken opt) names) names in
  let cut := (0 <? lb_MaxResults opt) && (lb_MaxResults opt <? Z.of_nat (length names)) in
  let n := Z.to_nat (lb_MaxResults opt) in
  let nextToken := if cut then nth (n - 1) names "" else "" in
  let names := if cut then take n names else names in
  (b, Ok (mkListBucketsResult
            (omap (λ n, bucket_of n <$> buckets b !! n) names)
            nextToken (mkOwner "shimanism-inmem" "inmem") (lb_Prefix opt))).

Definition CreateBucket (now : Time) (name region : string) (b : Backend) : Backend * result unit :=
  match buckets b !! name with
  | Some _ => (b, Ok ())
  | None => (set_bucket b name (mkBucketState now (or_default region "us-east-1") ∅), Ok ())
  end.

Definition DeleteBucket (name : string) (b : Backend) : Backend * result unit :=
  match buckets b !! name with
  | None => (b, Err (NoSuchBucket name))
  | Some st =>
      if (0 <? size (bk_objects st))%nat then (b, Err (BucketNotEmpty name))
      else (mkBackend (delete name (buckets b)) (uploads b), Ok ())
  end.

Definition HeadBucket (name : string) (b : Backend) : Backend * result Bucket :=
  match buckets b !! name with
  | None => (b, Err (NoSuchBucket name))
  | Some st => (b, Ok (bucket_of name st))
  end.

(** ** Object lifecycle *)

Definition metadata_of (k : string) (obj : objectState) : ObjectMetadata :=
  mkObjectMetadata k (Z.of_nat (length (obj_data obj))) (obj_etag obj) (obj_lastModified obj) "".

(** The roll-up of a key: the common prefix it belongs to, if any. *)
Definition common_prefix (prefix delim k : string) : option string :=
  if String.eqb delim "" then None
  else let rem := str_drop (String.length prefix) k in
       match Index rem delim with
       | Some idx => Some (prefix +:+ str_take (idx + String.length delim) rem)
       | None => None
       end.

(** The body of the loop over the sorted keys.  A nil object (a key that is
    not in the map) is a nil dereference. *)
Fixpoint list_loop (prefix delim : string) (maxKeys : Z) (os : gmap string objectState)
    (keys : list string) (cps : gset string) (objects : list ObjectMetadata)
    : outcome error (gset string * list ObjectMetadata) :=
  match keys with
  | [] => Ok (cps, objects)
  | k :: ks =>
      match common_prefix prefix delim k with
      | Some cp => list_loop prefix delim maxKeys os ks ({[cp]} ∪ cps) objects
      | None =>
          match os !! k with
          | None => Panic
          | Some obj =>
              let objects := objects ++ [metadata_of k obj] in
              if maxKeys <=? Z.of_nat (length objects) then Ok (cps, objects)
              else list_loop prefix delim maxKeys os ks cps objects
          end
      end
  end.

Definition list_keys (prefix startAfter : string) (os : gmap string objectState) : list string :=
  sort_Strings (filter (λ k, HasPrefix k prefix = true ∧ (startAfter = "" ∨ str_lt startAfter k))
    (fst <$> map_to_list os)).

Definition ListObjects (opt : ListObjectsOptions) (b : Backend) : Backend * result ListObjectsResult :=
  match buckets b !! lo_Bucket opt with
  | None => (b, Err (NoSuchBucket (lo_Bucket opt)))
  | Some st =>
      let startAfter := if String.eqb (lo_NextToken opt) "" then lo_StartAfter opt
                        else lo_NextToken opt in
      let maxKeys := if lo_MaxResults opt <=? 0 then 1000 else lo_MaxResults opt in
      let keys := list_keys (lo_Prefix opt) startAfter (bk_objects st) in
      (b, let? (cps, objects) :=
            list_loop (lo_Prefix opt) (lo_Delimiter opt) maxKeys (bk_objects st) keys ∅ [] in
          let count := Z.of_nat (length objects) in
          let truncated := (maxKeys <=? count) && (maxKeys <? Z.of_nat (length keys)) in
          Ok (mkListObjectsResult (lo_Bucket opt) objects (sort_Strings (elements cps))
                (if truncated && (0 <? count)
                 then default "" (om_Key <$> last objects) else "")
                truncated count (lo_Prefix opt) (lo_Delimiter opt)))
  end.

Definition object_of (bucket key : string) (obj : objectState) (body : option bytes) : Object :=
  mkObject bucket key (Z.of_nat (length (obj_data obj))) (obj_etag obj) (obj_lastModified obj)
    (obj_contentType obj) (copyMeta (obj_metadata obj)) body.

Definition GetObject (bucket key : string) (b : Backend) : Backend * result Object :=
  match buckets b !! bucket with
  | None => (b, Err (NoSuchBucket bucket))
  | Some st =>
      match bk_objects st !! key with
      | None => (b, Err (NoSuchKey bucket key))
      | Some obj => (b, Ok (object_of bucket key obj (Some (obj_data obj))))
      end
  end.

Definition PutObject (now : Time) (opt : PutObjectOptions) (b : Backend) : Backend * result PutObjectResult :=
  match match po_Body opt with None => Reads [] | Some r => r end with
  | ReadFails e => (b, Err (Plain ("inmem PutObject read body: " +:+ Error_text e) (Some e)))
  | Reads data =>
      match buckets b !! po_Bucket opt with
      | None => (b, Err (NoSuchBucket (po_Bucket opt)))
      | Some st =>
          let obj := mkObjectState data (or_default (po_ContentType opt) "application/octet-stream")
                       (copyMeta (po_Metadata opt)) now (etagOf data) in
          (set_bucket b (po_Bucket opt) (set_objects st (<[po_Key opt := obj]> (bk_objects st))),
           Ok (mkPutObjectResult (obj_etag obj)))
      end
  end.

Definition DeleteObject (bucket key : string) (b : Backend) : Backend * result unit :=
  match buckets b !! bucket with
  | None => (b, Err (NoSuchBucket bucket))
  | Some st => (set_bucket b bucket (set_objects st (delete key (bk_objects st))), Ok ())
  end.

Definition HeadObject (bucket key : string) (b : Backend) : Backend * result Object :=
  match buckets b !! bucket with
  | None => (b, Err (NoSuchBucket bucket))
  | Some st =>
      match bk_objects st !! key with
      | None => (b, Err (NoSuchKey bucket key))
      | Some obj => (b, Ok (object_of bucket key obj None))
      end
  end.

Definition CopyObject (now : Time) (opt : CopyObjectOptions) (b : Backend) : Backend * result CopyObjectResult :=
  match buckets b !! co_SrcBucket opt with
  | None => (b, Err (NoSuchBucket (co_SrcBucket opt)))
  | Some srcSt =>
      match bk_objects srcSt !! co_SrcKey opt with
      | None => (b, Err (NoSuchKey (co_SrcBucket opt) (co_SrcKey opt)))
      | Some srcObj =>
          match buckets b !! co_DstBucket opt with
          | None => (b, Err (NoSuchBucket (co_DstBucket opt)))
          | Some dstSt =>
              let dst := mkObjectState (obj_data srcObj)
                  (or_default (co_ContentType opt) (obj_contentType srcObj))
                  (if String.eqb (co_MetadataDirective opt) "REPLACE"
                   then copyMeta (co_Metadata opt) else copyMeta (obj_metadata srcObj))
                  now (obj_etag srcObj) in
              (set_bucket b (co_DstBucket opt)
                 (set_objects dstSt (<[co_DstKey opt := dst]> (bk_objects dstSt))),
               Ok (mkCopyObjectResult (obj_etag dst) now))
          end
      end
  end.

(** ** Multipart *)

(** [now1] and [now2] are the two [time.Now()] calls. *)
Definition CreateMultipartUpload (now1 now2 : Time) (bucket key contentType : string)
    (metadata : strmap) (b : Backend) : Backend * result string :=
  match buckets b !! bucket with
  | None => (b, Err (NoSuchBucket bucket))
  | Some _ =>
      let src := bucket +:+ "|" +:+ key +:+ "|" +:+ Itoa now1 in
      let id := hex_EncodeToString (md5_Sum (bytes_of_string src)) in
      (set_upload b id (mkUploadState bucket key now2 ∅ contentType (copyMeta metadata)), Ok id)
  end.

Definition UploadPart (now : Time) (bucket key uploadID : string) (partNumber : Z) (body : Reader)
    (b : Backend) : Backend * result string :=
  if (partNumber <? 1) || (10000 <? partNumber)
  then (b, Err (InvalidArgument "PartNumber out of range"))
  else match body with
  | ReadFails e => (b, Err (Plain ("inmem UploadPart read body: " +:+ Error_text e) (Some e)))
  | Reads data =>
      match uploads b !! uploadID with
      | None => (b, Err (NoSuchUpload uploadID))
      | Some up =>
          if negb (String.eqb (up_bucket up) bucket) || negb (String.eqb (up_key up) key)
          then (b, Err (InvalidArgument "upload key/bucket mismatch"))
          else let part := mkPartState data (etagOf data) now in
               (set_upload b uploadID (set_parts up (<[partNumber := part]> (up_parts up))),
                Ok (pt_etag part))
      end
  end.

(** The part numbers in ascending order. *)
Definition part_numbers (up : uploadState) : list Z :=
  sort_by Z.ltb (fst <$> map_to_list (up_parts up)).

Definition assemble (up : uploadState) : bytes :=
  fold_left (λ acc n, acc ++ from_option pt_data [] (up_parts up !! n)) (part_numbers up) [].

Definition CompleteMultipartUpload (now : Time) (bucket key uploadID : string)
    (parts : list CompletePartRef) (b : Backend) : Backend * result string :=
  match uploads b !! uploadID with
  | None => (b, Err (NoSuchUpload uploadID))
  | Some up =>
      if negb (String.eqb (up_bucket up) bucket) || negb (String.eqb (up_key up) key)
      then (b, Err (InvalidArgument "upload key/bucket mismatch"))
      else match buckets b !! bucket with
      | None => (b, Err (NoSuchBucket bucket))
      | Some bs =>
          let obj := mkObjectState (assemble up)
              (or_default (up_contentType up) "application/octet-stream")
              (copyMeta (up_metadata up)) now (MultipartETag parts) in
          (mkBackend (<[bucket := set_objects bs (<[key := obj]> (bk_objects bs))]> (buckets b))
             (delete uploadID (uploads b)),
           Ok (obj_etag obj))
      end
  end.

Definition AbortMultipartUpload (bucket key uploadID : string) (b : Backend) : Backend * result unit :=
  match uploads b !! uploadID with
  | None => (b, Err (NoSuchUpload uploadID))
  | Some _ => (mkBackend (buckets b) (delete uploadID (uploads b)), Ok ())
  end.

(** [matched[i] < matched[j]]: by key, then by id. *)
Definition entry_less (x y : string * uploadState) : bool :=
  if String.eqb (up_key x.2) (up_key y.2) then String.ltb x.1 y.1
  else String.ltb (up_key x.2) (up_key y.2).

Definition ListMultipartUploads (bucket prefix : string) (b : Backend) : Backend * result (list MultipartUpload) :=
  match buckets b !! bucket with
  | None => (b, Err (NoSuchBucket bucket))
  | Some _ =>
      let matched := filter (λ '(_, up), up_bucket up = bucket ∧
          (prefix = "" ∨ HasPrefix (up_key up) prefix = true)) (map_to_list (uploads b)) in
      (b, Ok ((λ '(id, up), mkMultipartUpload id bucket (up_key up) (up_created up)) <$>
              sort_by entry_less matched))
  end.

Definition ListParts (bucket key uploadID : string) (b : Backend) : Backend * result (list Part) :=
  match uploads b !! uploadID with
  | None => (b, Err (NoSuchUpload uploadID))
  | Some up =>
      if negb (String.eqb (up_bucket up) bucket) || negb (String.eqb (up_key up) key)
      then (b, Err (InvalidArgument "upload key/bucket mismatch"))
      else (b, Ok (omap (λ n, (λ p, mkPart n (pt_etag p) (Z.of_nat (length (pt_data p)))
                                      (pt_uploadedAt p)) <$> up_parts up !! n)
                        (part_numbers up)))
  end.
