(* ===== verification/StorageProps.v ===== *)
(** * Object storage: the properties of the in-process backend

    Helper lemmas on listing, then the theorems: paginated listing is complete
    and terminates, put/get/copy/multipart round trips, the state invariant of
    all reachable states, error atomicity and the no-loss property. *)

From Stdlib Require Import Ascii.
From S2P Require Import Prelude GoStrings GoBytes GoCrypto Storage.

(** ** Lemmas *)

Lemma copyMeta_id m : copyMeta m = m.
Proof. apply copy_map_id. Qed.

Lemma elem_of_list_keys p sa (os : gmap string objectState) k :
  k ∈ list_keys p sa os ↔
  is_Some (os !! k) ∧ HasPrefix k p = true ∧ (sa = "" ∨ str_lt sa k).
Proof.
  unfold list_keys. rewrite sort_Strings_perm, list_elem_of_filter, list_elem_of_fmap. split.
  - intros (H & [k' v] & -> & Hk%elem_of_map_to_list). simpl. eauto.
  - intros ([v Hv] & H). split; [done|]. exists (k, v).
    by rewrite elem_of_map_to_list.
Qed.

Lemma list_keys_strict p sa os : StronglySorted str_lt (list_keys p sa os).
Proof. apply sort_Strings_strict, NoDup_filter, NoDup_fst_map_to_list. Qed.

(** Continuing from a returned key gives exactly the rest of the keys. *)
Lemma list_keys_after p sa os l1 k l2 :
  list_keys p sa os = l1 ++ k :: l2 → k ≠ "" → list_keys p k os = l2.
Proof.
  intros E Hk. pose proof (list_keys_strict p sa os) as Hs. rewrite E in Hs.
  apply StronglySorted_app_inv in Hs as (_ & Hs & Hlt).
  inversion_clear Hs as [|? ? Hs2 Hk2]. rewrite Forall_forall in Hk2.
  assert (∀ x, x ∈ l1 ++ k :: l2 ↔
    is_Some (os !! x) ∧ HasPrefix x p = true ∧ (sa = "" ∨ str_lt sa x)) as Hin
    by (intros x; by rewrite <-E, elem_of_list_keys).
  destruct (proj1 (Hin k)) as (_ & _ & Hsa); [set_solver|].
  apply (strictly_sorted_ext str_lt);
    [apply str_lt_irrefl|apply str_lt_trans|apply list_keys_strict|done|].
  intros x. rewrite elem_of_list_keys. split.
  - intros (H1 & H2 & [->|Hkx]); [done|].
    assert (x ∈ l1 ++ k :: l2) as [Hx|[->|Hx]%elem_of_cons]%elem_of_app; [|..|done].
    + apply Hin. split_and!; [done..|]. destruct Hsa; [by left|right]. by eapply str_lt_trans.
    + destruct (str_lt_asym _ _ Hkx). apply Hlt; [done|left].
    + by destruct (str_lt_irrefl k).
  - intros Hx. destruct (proj1 (Hin x)) as (? & ? & _); [set_solver|].
    split_and!; [done..|]. right. by apply Hk2.
Qed.

(** *** The listing loop *)

Definition rolled (p d : string) (k : string) : bool := bool_decide (is_Some (common_prefix p d k)).

(** What the loop makes of the keys it has gone through. *)
Definition listed (p d : string) (os : gmap string objectState) (ks : list string) : list ObjectMetadata :=
  omap (λ k, if rolled p d k then None else metadata_of k <$> os !! k) ks.
Definition prefixes (p d : string) (ks : list string) : gset string :=
  list_to_set (omap (common_prefix p d) ks).

Lemma listed_app p d os l1 l2 : listed p d os (l1 ++ l2) = listed p d os l1 ++ listed p d os l2.
Proof. apply omap_app. Qed.

Lemma prefixes_app p d l1 l2 : prefixes p d (l1 ++ l2) = prefixes p d l1 ∪ prefixes p d l2.
Proof. unfold prefixes. by rewrite omap_app, list_to_set_app_L. Qed.

Lemma listed_cons p d os k ks :
  listed p d os (k :: ks) = listed p d os [k] ++ listed p d os ks.
Proof. apply (listed_app p d os [k] ks). Qed.

Lemma prefixes_cons p d k ks : prefixes p d (k :: ks) = prefixes p d [k] ∪ prefixes p d ks.
Proof. apply (prefixes_app p d [k] ks). Qed.

(** The loop stops after some initial part [l1] of the keys: at the end with
    the page not full, or right after the key that filled the page. *)
Lemma list_loop_spec p d mk os keys cps objs :
  (∀ k, k ∈ keys → is_Some (os !! k)) →
  Z.of_nat (length objs) < mk →
  ∃ l1 l2, keys = l1 ++ l2 ∧
    list_loop p d mk os keys cps objs = Ok (cps ∪ prefixes p d l1, objs ++ listed p d os l1) ∧
    let n := Z.of_nat (length (objs ++ listed p d os l1)) in
    ((n < mk ∧ l2 = []) ∨
     (n = mk ∧ ∃ l0 k o, l1 = l0 ++ [k] ∧ os !! k = Some o ∧ rolled p d k = false)).
Proof.
  revert cps objs. induction keys as [|k ks IH]; intros cps objs Hdom Hlt; cbn [list_loop].
  { exists [], []. unfold prefixes. simpl. rewrite union_empty_r_L, app_nil_r. eauto. }
  destruct (Hdom k) as [o Ho]; [left|].
  assert (∀ k', k' ∈ ks → is_Some (os !! k')) as Hdom' by (intros; apply Hdom; by right).
  assert (prefixes p d [k] = from_option singleton ∅ (common_prefix p d k)) as Hp.
  { unfold prefixes. simpl. destruct (common_prefix p d k); simpl; [|done].
    by rewrite union_empty_r_L. }
  assert (listed p d os [k] = if rolled p d k then [] else [metadata_of k o]) as Hl.
  { unfold listed. simpl. rewrite Ho. by destruct (rolled p d k). }
  unfold rolled in Hl. destruct (common_prefix p d k) as [cp|] eqn:Hcp; cbn [from_option] in Hp.
  - rewrite bool_decide_eq_true_2 in Hl by eauto. destruct (IH ({[cp]} ∪ cps) objs Hdom' Hlt) as (l1 & l2 & -> & -> & H).
    exists (k :: l1), l2. rewrite listed_cons, prefixes_cons, Hp, Hl. simpl.
    split_and!; [done|do 2 f_equal; set_solver|].
    destruct H as [H|(Hn & l0 & k' & o' & -> & H)]; [by left|right].
    split; [done|]. by exists (k :: l0), k', o'.
  - rewrite bool_decide_eq_false_2 in Hl by (by intros [? [=]]). rewrite Ho.
    assert (Z.of_nat (length (objs ++ [metadata_of k o])) = Z.of_nat (length objs) + 1)
      as Hlen by (rewrite length_app; simpl; lia).
    destruct (mk <=? Z.of_nat (length (objs ++ [metadata_of k o]))) eqn:Hmk.
    + exists [k], ks. rewrite Hp, Hl, union_empty_r_L. split_and!; [done..|].
      right. split; [lia|].
      exists [], k, o. unfold rolled. by rewrite Hcp.
    + destruct (IH cps (objs ++ [metadata_of k o]) Hdom') as (l1 & l2 & -> & -> & H'); [lia|].
      exists (k :: l1), l2. rewrite listed_cons, prefixes_cons, Hp, Hl, union_empty_l_L.
      rewrite (assoc_L (++)). split_and!; [done..|].
      destruct H' as [H'|(Hn & l0 & k' & o' & -> & H')]; [by left|right].
      split; [done|]. by exists (k :: l0), k', o'.
Qed.

Lemma length_listed p d os l : (length (listed p d os l) <= length l)%nat.
Proof.
  induction l as [|k l IH]; [done|]. rewrite listed_cons, length_app.
  unfold listed at 1. simpl. repeat case_match; simpl; lia.
Qed.

Lemma listed_snoc_last p d os l0 k o :
  os !! k = Some o → rolled p d k = false →
  last (listed p d os (l0 ++ [k])) = Some (metadata_of k o).
Proof.
  intros Ho Hr. rewrite listed_app. unfold listed at 2. simpl. rewrite Hr, Ho. simpl.
  by rewrite last_snoc.
Qed.

Definition max_keys (n : Z) : Z := if n <=? 0 then 1000 else n.

Lemma max_keys_pos n : 0 < max_keys n.
Proof. unfold max_keys. case_match; lia. Qed.

(** One page of a listing. *)
Lemma ListObjects_page opt b st :
  buckets b !! lo_Bucket opt = Some st →
  let sa := if String.eqb (lo_NextToken opt) "" then lo_StartAfter opt else lo_NextToken opt in
  let p := lo_Prefix opt in let d := lo_Delimiter opt in
  ∃ l1 l2 r, list_keys p sa (bk_objects st) = l1 ++ l2 ∧
    ListObjects opt b = (b, Ok r) ∧
    lor_Objects r = listed p d (bk_objects st) l1 ∧
    lor_CommonPrefixes r = sort_Strings (elements (prefixes p d l1)) ∧
    lor_KeyCount r = Z.of_nat (length (lor_Objects r)) ∧
    lor_KeyCount r <= max_keys (lo_MaxResults opt) ∧
    (lor_IsTruncated r = false → l2 = [] ∧ lor_NextToken r = "") ∧
    (lor_IsTruncated r = true → lor_KeyCount r = max_keys (lo_MaxResults opt) ∧
       lor_KeyCount r < Z.of_nat (length (l1 ++ l2)) ∧
       ∃ l0, l1 = l0 ++ [lor_NextToken r]).
Proof.
  intros Hb sa p d. unfold ListObjects. rewrite Hb. fold sa p d.
  fold (max_keys (lo_MaxResults opt)). pose proof (max_keys_pos (lo_MaxResults opt)) as Hmk.
  set (mk := max_keys _) in *. set (os := bk_objects st).
  destruct (list_loop_spec p d mk os (list_keys p sa os) ∅ [])
    as (l1 & l2 & Hk & -> & Hcase).
  { intros k. by intros [? _]%elem_of_list_keys. }
  { simpl. lia. }
  cbv zeta in Hcase. rewrite union_empty_l_L. rewrite app_nil_l in *. cbn [obind].
  eexists l1, l2, _. rewrite Hk.
  split; [done|]. split; [done|]. cbn [lor_Objects lor_CommonPrefixes lor_KeyCount
    lor_IsTruncated lor_NextToken].
  pose proof (length_listed p d os l1). rewrite length_app.
  assert (Z.of_nat (length (listed p d os l1)) <= mk) as Hle by (destruct Hcase as [[]|[]]; lia).
  split; [done|]. split; [done|]. split; [done|]. split; [done|]. split.
  - intros Ht. destruct Hcase as [[Hlt ->]|[Hge _]].
    + split; [done|]. by rewrite Ht.
    + rewrite Ht. split; [|done]. destruct l2 as [|x l2]; [done|]. exfalso.
      rewrite andb_false_iff, Z.leb_gt, Z.ltb_ge in Ht. cbn [length] in Ht. lia.
  - intros Ht. rewrite Ht. destruct Hcase as [[Hlt ->]|(Hge & l0 & k & o & -> & Ho & Hr)].
    + rewrite andb_true_iff, Z.leb_le in Ht. lia.
    + rewrite andb_true_iff, Z.ltb_lt in Ht. split; [done|]. split; [rewrite length_app in *; lia|].
      exists l0. simpl. rewrite (listed_snoc_last _ _ _ _ _ _ Ho Hr).
      assert ((0 <? Z.of_nat (length (listed p d os (l0 ++ [k])))) = true) as -> by lia. done.
Qed.

(** *** Following the pagination token *)

Definition with_token (opt : ListObjectsOptions) (t : string) : ListObjectsOptions :=
  mkListObjectsOptions (lo_Bucket opt) (lo_Prefix opt) (lo_Delimiter opt) (lo_StartAfter opt) t
    (lo_MaxResults opt).

(** The client loop of a listing: pages until one is not truncated. *)
Fixpoint list_all (fuel : nat) (opt : ListObjectsOptions) (b : Backend)
    : option (list ObjectMetadata * list string) :=
  match fuel with
  | O => None
  | S fuel =>
      match (ListObjects opt b).2 with
      | Ok r =>
          if lor_IsTruncated r then
            match list_all fuel (with_token opt (lor_NextToken r)) b with
            | Some (os, cps) => Some (lor_Objects r ++ os, lor_CommonPrefixes r ++ cps)
            | None => None
            end
          else Some (lor_Objects r, lor_CommonPrefixes r)
      | _ => None
      end
  end.

Definition effective_start (opt : ListObjectsOptions) : string :=
  if String.eqb (lo_NextToken opt) "" then lo_StartAfter opt else lo_NextToken opt.

Lemma elem_of_sorted_prefixes p d l cp :
  cp ∈ sort_Strings (elements (prefixes p d l)) ↔ cp ∈ prefixes p d l.
Proof. by rewrite sort_Strings_perm, elem_of_elements. Qed.

Lemma list_keys_empty p sa (os : gmap string objectState) :
  "" ∈ list_keys p sa os → p = "" ∧ sa = "".
Proof.
  intros (_ & Hp & Hs)%elem_of_list_keys. split; [by destruct p|].
  destruct Hs as [Hs|Hs]; [done|]. by destruct sa.
Qed.

(** The listings whose token never advances: pages of one object, the first of
    which is the object with the empty key, the token for the second page is
    then the empty one, which asks for the first page. *)
Definition never_advances (opt : ListObjectsOptions) (st : bucketState) : Prop :=
  lo_MaxResults opt = 1 ∧ lo_Prefix opt = "" ∧ effective_start opt = "" ∧
  is_Some (bk_objects st !! "") ∧ (2 <= size (bk_objects st))%nat.

Lemma length_list_keys p sa (os : gmap string objectState) :
  (length (list_keys p sa os) <= size os)%nat.
Proof.
  unfold list_keys. rewrite sort_Strings_perm.
  etrans; [apply length_filter|]. rewrite length_fmap. by rewrite length_map_to_list.
Qed.

Lemma length_list_keys_all (os : gmap string objectState) : length (list_keys "" "" os) = size os.
Proof.
  unfold list_keys. rewrite sort_Strings_perm, <-length_map_to_list, <-(length_fmap fst). f_equal.
  induction (map_to_list os).*1 as [|k l IH]; [done|]. rewrite filter_cons_True by (split; [by destruct k|by left]).
  by rewrite IH.
Qed.

Lemma rolled_empty_key d : rolled "" d "" = false.
Proof. unfold rolled. rewrite bool_decide_eq_false. unfold common_prefix. destruct d as [|c d]; by intros [? ?]. Qed.

(** A page whose token is empty is truncated only where the token never advances. *)
Lemma empty_token_stuck opt (st : bucketState) l0 l2 :
  list_keys (lo_Prefix opt) (effective_start opt) (bk_objects st) = (l0 ++ [""]) ++ l2 →
  max_keys (lo_MaxResults opt) < Z.of_nat (length ((l0 ++ [""]) ++ l2)) →
  Z.of_nat (length (listed (lo_Prefix opt) (lo_Delimiter opt) (bk_objects st) (l0 ++ [""]))) =
    max_keys (lo_MaxResults opt) →
  never_advances opt st.
Proof.
  intros Hk Hl2 Hn. assert ("" ∈ list_keys (lo_Prefix opt) (effective_start opt) (bk_objects st)) as Hin
    by (rewrite Hk; set_solver).
  destruct (list_keys_empty _ _ _ Hin) as [Hp Hs]. apply elem_of_list_keys in Hin as [[o Ho] _].
  pose proof (list_keys_strict (lo_Prefix opt) (effective_start opt) (bk_objects st)) as Hsort.
  rewrite Hk, <-(assoc_L (++)) in Hsort. destruct l0 as [|x l0].
  - rewrite Hp in Hn. cbn [app] in Hn. unfold listed in Hn. cbn [omap list_omap] in Hn. rewrite rolled_empty_key, Ho in Hn.
    cbn in Hn. unfold max_keys in Hn. split_and!; [case_match; lia|done|done|by exists o|].
    rewrite Hp, Hs in Hk. apply (f_equal length) in Hk. rewrite length_list_keys_all in Hk.
    rewrite Hk. cbn [app length] in *. unfold max_keys in Hl2. case_match; lia.
  - exfalso. cbn [app] in Hsort. apply StronglySorted_inv in Hsort as [_ Hx]. rewrite Forall_forall in Hx. specialize (Hx "" ltac:(set_solver)). by destruct x.
Qed.

Lemma list_all_complete fuel opt b st :
  buckets b !! lo_Bucket opt = Some st →
  ¬ never_advances opt st →
  let ks := list_keys (lo_Prefix opt) (effective_start opt) (bk_objects st) in
  (length ks < fuel)%nat →
  ∃ cps, list_all fuel opt b = Some (listed (lo_Prefix opt) (lo_Delimiter opt) (bk_objects st) ks, cps) ∧
    ∀ cp, cp ∈ cps ↔ cp ∈ prefixes (lo_Prefix opt) (lo_Delimiter opt) ks.
Proof.
  intros Hb. revert opt Hb. induction fuel as [|fuel IH]; intros opt Hb Hadv ks Hf; [lia|].
  destruct (ListObjects_page opt b st Hb)
    as (l1 & l2 & r & Hk & E & Ho & Hc & Hcount & _ & Hdone & Hmore).
  fold (effective_start opt) in Hk. cbn [list_all]. rewrite E. cbn [snd].
  destruct (lor_IsTruncated r) eqn:Ht.
  - destruct (Hmore eq_refl) as (Hfull & Hl2 & l0 & ->). set (t := lor_NextToken r) in *.
    assert (t ≠ "") as Htne.
    { intros Htt. apply Hadv, (empty_token_stuck opt st l0 l2); [by rewrite <-Htt|rewrite <-Htt; lia|].
      rewrite <-Hfull, Hcount, Ho. by rewrite Htt. }
    fold ks in Hk. assert (effective_start (with_token opt t) = t) as Hes.
    { unfold effective_start. simpl. by destruct (String.eqb_spec t ""). }
    rewrite <-(assoc_L (++)) in Hk. simpl in Hk.
    pose proof (list_keys_after _ _ _ _ _ _ Hk Htne) as Hrest.
    destruct (IH (with_token opt t) Hb) as (cps & -> & Hcps).
    { intros (_ & _ & He & _). congruence. }
    { rewrite Hes. simpl. rewrite Hrest. rewrite Hk, length_app in Hf. simpl in Hf. lia. }
    rewrite Hes in *. simpl in *. rewrite Hrest in *.
    eexists. split.
    + rewrite Ho, Hk, <-listed_app, <-(assoc_L (++)). done.
    + intros cp. rewrite Hc, elem_of_app, elem_of_sorted_prefixes, Hcps, Hk.
      change (t :: l2) with ([t] ++ l2). rewrite (assoc_L (++)), (prefixes_app _ _ (l0 ++ [t])).
      set_solver.
  - destruct (Hdone eq_refl) as [-> _]. fold ks in Hk. rewrite app_nil_r in Hk. subst l1.
    eexists. split; [by rewrite Ho|]. intros cp. by rewrite Hc, elem_of_sorted_prefixes.
Qed.

(** Where the token never advances the client asks for the first page for ever. *)
Lemma list_all_stuck fuel opt b st :
  buckets b !! lo_Bucket opt = Some st → lo_NextToken opt = "" → never_advances opt st →
  list_all fuel opt b = None.
Proof.
  intros Hb Ht (Hmax & Hp & Hs & [o Hempty] & Hsize).
  assert (lo_StartAfter opt = "") as Hsa by (unfold effective_start in Hs; by rewrite Ht in Hs).
  assert (∃ rest, list_keys "" "" (bk_objects st) = "" :: rest) as [rest Erest].
  { assert ("" ∈ list_keys "" "" (bk_objects st)) as Hin by (apply elem_of_list_keys; split_and!; eauto).
    pose proof (list_keys_strict "" "" (bk_objects st)) as Hsort.
    destruct (list_keys "" "" (bk_objects st)) as [|x l]; [by apply elem_of_nil in Hin|].
    apply elem_of_cons in Hin as [<-|Hin]; [by eexists|].
    apply StronglySorted_inv in Hsort as [_ Hx]. rewrite Forall_forall in Hx. specialize (Hx "" Hin). by destruct x. }
  pose proof (length_list_keys_all (bk_objects st)) as Hlen. pose proof (rolled_empty_key (lo_Delimiter opt)) as Hr.
  unfold rolled in Hr. rewrite bool_decide_eq_false in Hr.
  assert (common_prefix "" (lo_Delimiter opt) "" = None) as Hcp by by apply eq_None_not_Some.
  induction fuel as [|fuel IH]; [done|]. cbn [list_all]. unfold ListObjects.
  rewrite Hb, Ht, Hsa, Hmax, Hp. cbn [String.eqb]. rewrite Erest. cbn [list_loop snd]. rewrite Hcp, Hempty.
  assert (1 <? Z.of_nat (length ("" :: rest)) = true) as Hlt by (rewrite <-Erest, Hlen; lia).
  cbn [Z.leb Z.compare app length] in *. cbn [obind]. rewrite Hlt.
  assert (with_token opt "" = opt) as Hopt by (destruct opt; cbn in *; by subst).
  change (1 <=? Z.of_nat 1) with true. cbn [obind length last fmap option_fmap option_map].
  change (1 <=? Z.of_nat 1) with true. change (0 <? Z.of_nat 1) with true. cbn. by rewrite Hopt, IH.
Qed.

Lemma elem_of_listed p d os ks m :
  m ∈ listed p d os ks ↔
  ∃ k o, k ∈ ks ∧ os !! k = Some o ∧ common_prefix p d k = None ∧ m = metadata_of k o.
Proof.
  unfold listed, rolled. rewrite list_elem_of_omap. split.
  - intros (k & Hk & E). case_bool_decide as Hr; [done|].
    apply fmap_Some in E as (o & Ho & ->). exists k, o.
    split_and!; [done..| |done]. by apply eq_None_not_Some.
  - intros (k & o & Hk & Ho & Hr & ->). exists k. split; [done|].
    rewrite Hr, Ho. done.
Qed.

Lemma listed_sorted p d os ks :
  StronglySorted str_lt ks → StronglySorted str_lt (om_Key <$> listed p d os ks).
Proof.
  induction 1 as [|k ks Hs IH Hk]; [constructor|].
  rewrite listed_cons, fmap_app. unfold listed at 1. simpl.
  destruct (rolled p d k); [done|]. destruct (os !! k) as [o|]; [|done]. simpl.
  constructor; [done|]. rewrite Forall_forall in *. intros x.
  rewrite list_elem_of_fmap. intros (m & -> & (k' & o' & Hk' & _ & _ & ->)%elem_of_listed).
  by apply Hk.
Qed.

Lemma elem_of_prefixes p d ks cp :
  cp ∈ prefixes p d ks ↔ ∃ k, k ∈ ks ∧ common_prefix p d k = Some cp.
Proof. unfold prefixes. by rewrite elem_of_list_to_set, list_elem_of_omap. Qed.

(** A listing from the start, with enough fuel: the objects that are not rolled
    up, in order, and the common prefixes of the others. *)
Lemma list_all_spec opt b st :
  buckets b !! lo_Bucket opt = Some st → ¬ never_advances opt st → effective_start opt = "" →
  ∃ os cps, list_all (S (size (bk_objects st))) opt b = Some (os, cps) ∧
    StronglySorted str_lt (om_Key <$> os) ∧
    (∀ x, x ∈ os ↔ ∃ k o, bk_objects st !! k = Some o ∧ HasPrefix k (lo_Prefix opt) = true ∧
       common_prefix (lo_Prefix opt) (lo_Delimiter opt) k = None ∧ x = metadata_of k o) ∧
    (∀ p, p ∈ cps ↔ ∃ k, is_Some (bk_objects st !! k) ∧ HasPrefix k (lo_Prefix opt) = true ∧
       common_prefix (lo_Prefix opt) (lo_Delimiter opt) k = Some p).
Proof.
  intros Hb Hne Hs.
  destruct (list_all_complete (S (size (bk_objects st))) opt b st Hb Hne) as (cps & E & Hcps).
  { pose proof (length_list_keys (lo_Prefix opt) (effective_start opt) (bk_objects st)). lia. }
  rewrite Hs in *. eexists _, cps. split; [exact E|]. split_and!.
  - apply listed_sorted, list_keys_strict.
  - intros x. rewrite elem_of_listed. setoid_rewrite elem_of_list_keys. naive_solver.
  - intros p. rewrite Hcps, elem_of_prefixes. setoid_rewrite elem_of_list_keys. naive_solver.
Qed.

(** ** Operations as steps *)

Inductive op :=
  | OpListBuckets (opt : ListBucketsOptions)
  | OpCreateBucket (now : Time) (name region : string)
  | OpDeleteBucket (name : string)
  | OpHeadBucket (name : string)
  | OpListObjects (opt : ListObjectsOptions)
  | OpGetObject (bucket key : string)
  | OpPutObject (now : Time) (opt : PutObjectOptions)
  | OpDeleteObject (bucket key : string)
  | OpHeadObject (bucket key : string)
  | OpCopyObject (now : Time) (opt : CopyObjectOptions)
  | OpCreateMultipartUpload (now1 now2 : Time) (bucket key contentType : string) (metadata : strmap)
  | OpUploadPart (now : Time) (bucket key uploadID : string) (n : Z) (body : Reader)
  | OpComplete (now : Time) (bucket key uploadID : string) (parts : list CompletePartRef)
  | OpAbort (bucket key uploadID : string)
  | OpListMultipartUploads (bucket prefix : string)
  | OpListParts (bucket key uploadID : string).

Definition forget {A} (r : Backend * result A) : Backend * result unit :=
  (r.1, let? _ := r.2 in Ok ()).

Definition run (o : op) (b : Backend) : Backend * result unit :=
  match o with
  | OpListBuckets opt => forget (ListBuckets opt b)
  | OpCreateBucket now n r => forget (CreateBucket now n r b)
  | OpDeleteBucket n => forget (DeleteBucket n b)
  | OpHeadBucket n => forget (HeadBucket n b)
  | OpListObjects opt => forget (ListObjects opt b)
  | OpGetObject bk k => forget (GetObject bk k b)
  | OpPutObject now opt => forget (PutObject now opt b)
  | OpDeleteObject bk k => forget (DeleteObject bk k b)
  | OpHeadObject bk k => forget (HeadObject bk k b)
  | OpCopyObject now opt => forget (CopyObject now opt b)
  | OpCreateMultipartUpload n1 n2 bk k ct m => forget (CreateMultipartUpload n1 n2 bk k ct m b)
  | OpUploadPart now bk k id n body => forget (UploadPart now bk k id n body b)
  | OpComplete now bk k id ps => forget (CompleteMultipartUpload now bk k id ps b)
  | OpAbort bk k id => forget (AbortMultipartUpload bk k id b)
  | OpListMultipartUploads bk p => forget (ListMultipartUploads bk p b)
  | OpListParts bk k id => forget (ListParts bk k id b)
  end.

Definition step (b b' : Backend) : Prop := ∃ o, b' = (run o b).1.
Definition reachable (b : Backend) : Prop := rtc step New b.

Ltac unfold_ops :=
  unfold run, forget, ListBuckets, CreateBucket, DeleteBucket, HeadBucket, ListObjects,
    GetObject, PutObject, DeleteObject, HeadObject, CopyObject, CreateMultipartUpload,
    UploadPart, CompleteMultipartUpload, AbortMultipartUpload, ListMultipartUploads,
    ListParts, set_bucket, set_upload in *.

(** An operation that fails leaves the state as it was. *)
Lemma run_err_same o b e : (run o b).2 = Err e → (run o b).1 = b.
Proof. destruct o; unfold_ops; intros H; repeat (case_match; simpl in *; simplify_eq/=; try done). Qed.

Lemma ListObjects_no_panic opt b : (ListObjects opt b).2 ≠ Panic.
Proof.
  destruct (buckets b !! lo_Bucket opt) as [st|] eqn:Hb.
  - by destruct (ListObjects_page opt b st Hb) as (? & ? & r & _ & -> & _).
  - unfold ListObjects. by rewrite Hb.
Qed.

Lemma run_no_panic o b : (run o b).2 ≠ Panic.
Proof.
  destruct o; try (unfold_ops; repeat (case_match; simpl in *; simplify_eq/=; try done); fail).
  pose proof (ListObjects_no_panic opt b). simpl. unfold forget. by destruct (ListObjects opt b) as [? []].
Qed.

(** *** The invariant *)

(** The entity tag is the MD5 of the content or a multipart tag. *)
Definition etag_ok (data : bytes) (etag : string) : Prop :=
  etag = etagOf data ∨ ∃ parts, etag = MultipartETag parts.

Record object_wf (o : objectState) : Prop := {
  owf_type : obj_contentType o ≠ "";
  owf_etag : etag_ok (obj_data o) (obj_etag o) }.
Record bucket_wf (st : bucketState) : Prop := {
  bwf_region : bk_region st ≠ "";
  bwf_objects : map_Forall (λ _, object_wf) (bk_objects st) }.
Record upload_wf (up : uploadState) : Prop := {
  uwf_parts : map_Forall (λ n p, 1 <= n <= 10000 ∧ pt_etag p = etagOf (pt_data p)) (up_parts up) }.
Record wf (b : Backend) : Prop := {
  wf_buckets : map_Forall (λ _, bucket_wf) (buckets b);
  wf_uploads : map_Forall (λ _, upload_wf) (uploads b) }.

Lemma or_default_nonempty s d : d ≠ "" → or_default s d ≠ "".
Proof. unfold or_default. by destruct (String.eqb_spec s ""). Qed.

Lemma wf_New : wf New.
Proof. split; apply map_Forall_empty. Qed.

Lemma wf_set_objects st os :
  bucket_wf st → map_Forall (λ _, object_wf) os → bucket_wf (set_objects st os).
Proof. by intros [H _] Hos. Qed.

Lemma wf_set_bucket b n st : wf b → bucket_wf st → wf (set_bucket b n st).
Proof. intros [H1 H2] H. split; [|done]. simpl. by apply map_Forall_insert_2. Qed.

Lemma wf_set_upload b n up : wf b → upload_wf up → wf (set_upload b n up).
Proof. intros [H1 H2] H. split; [done|]. simpl. by apply map_Forall_insert_2. Qed.

Lemma wf_bucket b n st : wf b → buckets b !! n = Some st → bucket_wf st.
Proof. intros [H _] Hb. by apply (H n). Qed.
Lemma wf_object b n st k o :
  wf b → buckets b !! n = Some st → bk_objects st !! k = Some o → object_wf o.
Proof. intros Hw Hb Ho. destruct (wf_bucket _ _ _ Hw Hb) as [_ H]. by apply (H k). Qed.
Lemma wf_upload b n up : wf b → uploads b !! n = Some up → upload_wf up.
Proof. intros [_ H] Hb. by apply (H n). Qed.

Create HintDb storage.
#[export] Hint Resolve wf_set_bucket wf_set_upload wf_set_objects wf_bucket wf_object wf_upload
  or_default_nonempty map_Forall_insert_2 map_Forall_delete : storage.

Lemma etag_ok_of d : etag_ok d (etagOf d).
Proof. by left. Qed.
Lemma wf_objects b n st :
  wf b → buckets b !! n = Some st → map_Forall (λ _, object_wf) (bk_objects st).
Proof. intros Hw Hb. by destruct (wf_bucket _ _ _ Hw Hb). Qed.

(** Storing an object in an existing bucket. *)
Lemma wf_store b n st k o :
  wf b → buckets b !! n = Some st → object_wf o →
  wf (set_bucket b n (set_objects st (<[k := o]> (bk_objects st)))).
Proof.
  intros Hw Hb Ho. apply wf_set_bucket; [done|]. apply wf_set_objects; [by eauto with storage|].
  apply map_Forall_insert_2; [done|]. by eapply wf_objects.
Qed.

Lemma octet_nonempty : "application/octet-stream" ≠ "".
Proof. done. Qed.
#[export] Hint Resolve etag_ok_of wf_objects wf_store octet_nonempty : storage.

Lemma CreateBucket_wf now n r b : wf b → wf (CreateBucket now n r b).1.
Proof.
  intros Hw. unfold CreateBucket. destruct (buckets b !! n); [done|]. simpl.
  apply wf_set_bucket; [done|]. split; simpl; [by apply or_default_nonempty|apply map_Forall_empty].
Qed.

Lemma DeleteBucket_wf n b : wf b → wf (DeleteBucket n b).1.
Proof.
  intros Hw. unfold DeleteBucket. destruct (buckets b !! n); [|done].
  case_match; [done|]. destruct Hw. split; simpl; [by apply map_Forall_delete|done].
Qed.

Lemma PutObject_wf now opt b : wf b → wf (PutObject now opt b).1.
Proof.
  intros Hw. unfold PutObject. destruct (match po_Body opt with Some _ => _ | _ => _ end); [|done].
  destruct (buckets b !! _) as [st|] eqn:Hb; [|done]. simpl.
  apply wf_store; [done..|]. split; simpl; eauto with storage.
Qed.

Lemma DeleteObject_wf bk k b : wf b → wf (DeleteObject bk k b).1.
Proof.
  intros Hw. unfold DeleteObject. destruct (buckets b !! _) as [st|] eqn:Hb; [|done]. simpl.
  apply wf_set_bucket; [done|]. apply wf_set_objects; [by eauto with storage|].
  apply map_Forall_delete. by eapply wf_objects.
Qed.

Lemma CopyObject_wf now opt b : wf b → wf (CopyObject now opt b).1.
Proof.
  intros Hw. unfold CopyObject.
  destruct (buckets b !! co_SrcBucket opt) as [src|] eqn:Hs; [|done].
  destruct (bk_objects src !! _) as [o|] eqn:Ho; [|done].
  destruct (buckets b !! co_DstBucket opt) as [dst|] eqn:Hd; [|done]. simpl.
  destruct (wf_object _ _ _ _ _ Hw Hs Ho). apply wf_store; [done..|].
  split; simpl; [by apply or_default_nonempty|done].
Qed.

Lemma CreateMultipartUpload_wf n1 n2 bk k ct m b :
  wf b → wf (CreateMultipartUpload n1 n2 bk k ct m b).1.
Proof.
  intros Hw. unfold CreateMultipartUpload. destruct (buckets b !! bk); [|done]. simpl.
  apply wf_set_upload; [done|]. split. apply map_Forall_empty.
Qed.

Lemma UploadPart_wf now bk k id n body b : wf b → wf (UploadPart now bk k id n body b).1.
Proof.
  intros Hw. unfold UploadPart. destruct (_ || _) eqn:Hn; [done|].
  destruct body; [|done]. destruct (uploads b !! id) as [up|] eqn:Hu; [|done].
  destruct (negb _ || _); [done|]. simpl. apply wf_set_upload; [done|].
  destruct (wf_upload _ _ _ Hw Hu) as [Hp]. split. apply map_Forall_insert_2; [|done].
  rewrite orb_false_iff in Hn. split; [lia|done].
Qed.

Lemma Complete_wf now bk k id ps b : wf b → wf (CompleteMultipartUpload now bk k id ps b).1.
Proof.
  intros Hw. unfold CompleteMultipartUpload. destruct (uploads b !! id) as [up|]; [|done].
  destruct (negb _ || _); [done|]. destruct (buckets b !! bk) as [st|] eqn:Hb; [|done]. simpl.
  match goal with |- context [<[k := ?o]> (bk_objects st)] =>
    assert (wf (set_bucket b bk (set_objects st (<[k := o]> (bk_objects st))))) as [H1 H2] end.
  { apply wf_store; [done..|]. split; simpl; [by apply or_default_nonempty|]. right. eauto. }
  split; [done|]. simpl in *. by apply map_Forall_delete.
Qed.

Lemma Abort_wf bk k id b : wf b → wf (AbortMultipartUpload bk k id b).1.
Proof.
  intros Hw. unfold AbortMultipartUpload. destruct (uploads b !! id); [|done].
  destruct Hw. split; simpl; [done|by apply map_Forall_delete].
Qed.

#[export] Hint Resolve CreateBucket_wf DeleteBucket_wf PutObject_wf DeleteObject_wf CopyObject_wf
  CreateMultipartUpload_wf UploadPart_wf Complete_wf Abort_wf : storage.

(** The operations that only read. *)
Definition reads_only (o : op) : bool :=
  match o with
  | OpListBuckets _ | OpHeadBucket _ | OpListObjects _ | OpGetObject _ _ | OpHeadObject _ _
  | OpListMultipartUploads _ _ | OpListParts _ _ _ => true
  | _ => false
  end.

Lemma run_reads_only o b : reads_only o = true → (run o b).1 = b.
Proof. destruct o; try done; intros _; unfold_ops; repeat case_match; done. Qed.

Lemma step_wf b b' : wf b → step b b' → wf b'.
Proof.
  intros Hw [o ->]. destruct (reads_only o) eqn:Hr; [by rewrite run_reads_only|].
  destruct o; try done; simpl; eauto with storage.
Qed.

Lemma reachable_wf b : reachable b → wf b.
Proof.
  intros Hr. unfold reachable in Hr.
  refine (rtc_ind_r (λ b, wf b) New wf_New _ b Hr). intros. by eapply step_wf.
Qed.

(** *** Multipart assembly *)

Definition upload_all (now : Time) (bk k id : string) (ps : list (Z * bytes)) (b : Backend) : Backend :=
  fold_left (λ b p, (UploadPart now bk k id p.1 (Reads p.2) b).1) ps b.

Definition part_of (now : Time) (d : bytes) : partState := mkPartState d (etagOf d) now.
Definition parts_of (now : Time) (ps : list (Z * bytes)) (m : gmap Z partState) : gmap Z partState :=
  fold_left (λ m p, <[p.1 := part_of now p.2]> m) ps m.

Lemma UploadPart_ok now n d id up b :
  uploads b !! id = Some up → 1 <= n <= 10000 →
  UploadPart now (up_bucket up) (up_key up) id n (Reads d) b =
    (set_upload b id (set_parts up (<[n := part_of now d]> (up_parts up))), Ok (etagOf d)).
Proof.
  intros Hu Hn. unfold UploadPart.
  assert ((n <? 1) || (10000 <? n) = false) as -> by (apply orb_false_iff; lia).
  by rewrite Hu, !String.eqb_refl.
Qed.

Lemma set_upload_twice b id u1 u2 : set_upload (set_upload b id u1) id u2 = set_upload b id u2.
Proof. unfold set_upload. simpl. by rewrite insert_insert_eq. Qed.

Lemma upload_all_spec now id up ps b :
  uploads b !! id = Some up → Forall (λ p, 1 <= p.1 <= 10000) ps →
  upload_all now (up_bucket up) (up_key up) id ps b =
    set_upload b id (set_parts up (parts_of now ps (up_parts up))).
Proof.
  unfold upload_all, parts_of. intros Hu Hps. revert b up Hu.
  induction Hps as [|[n d] ps Hn Hps IH]; intros b up Hu; simpl.
  - unfold set_upload. destruct b as [bs us], up. simpl in *. by rewrite insert_id.
  - rewrite (UploadPart_ok now n d id up b Hu Hn). simpl.
    set (up' := set_parts up (<[n:=part_of now d]> (up_parts up))).
    change (up_bucket up) with (up_bucket up'). change (up_key up) with (up_key up').
    rewrite IH by (simpl; apply lookup_insert_eq). by rewrite set_upload_twice.
Qed.

Lemma parts_of_notin now ps m n : n ∉ ps.*1 → parts_of now ps m !! n = m !! n.
Proof.
  unfold parts_of. revert m. induction ps as [|[n' d] ps IH]; intros m; simpl; [done|].
  rewrite not_elem_of_cons. intros [Hne Hn]. rewrite IH by done. by apply lookup_insert_ne.
Qed.

Lemma parts_of_in now ps m n d :
  NoDup ps.*1 → (n, d) ∈ ps → parts_of now ps m !! n = Some (part_of now d).
Proof.
  unfold parts_of. revert m. induction ps as [|[n' d'] ps IH]; intros m; simpl.
  - by intros _ ?%elem_of_nil.
  - intros [Hni Hnd]%NoDup_cons [[= -> ->]|Hin]%elem_of_cons; [|by apply IH].
    fold (parts_of now ps (<[n' := part_of now d']> m)).
    rewrite parts_of_notin by done. apply lookup_insert_eq.
Qed.

Lemma elem_of_part_numbers up n : n ∈ part_numbers up ↔ is_Some (up_parts up !! n).
Proof.
  unfold part_numbers. rewrite elem_of_sort_by, list_elem_of_fmap. split.
  - intros ([? p] & -> & H%elem_of_map_to_list). eauto.
  - intros [p Hp]. exists (n, p). by rewrite elem_of_map_to_list.
Qed.

Lemma part_numbers_strict up : StronglySorted Z.lt (part_numbers up).
Proof. apply sort_by_Zltb_strict, NoDup_fst_map_to_list. Qed.

Lemma assemble_concat up :
  assemble up = concat ((λ n, from_option pt_data [] (up_parts up !! n)) <$> part_numbers up).
Proof. unfold assemble. by rewrite fold_left_app_concat. Qed.

(** The parts in ascending order, whatever the order they were uploaded in. *)
Lemma assemble_sorted now up ps sorted :
  ps ≡ₚ sorted → StronglySorted Z.lt sorted.*1 →
  assemble (set_parts up (parts_of now ps ∅)) = concat sorted.*2.
Proof.
  intros Hp Hs. assert (NoDup ps.*1) as Hnd.
  { rewrite Hp. clear -Hs. induction Hs as [|x l Hs IH Hx]; constructor; [|done].
    rewrite Forall_forall in Hx. intros Hin. specialize (Hx _ Hin). lia. }
  set (up' := set_parts up _). rewrite assemble_concat.
  assert (part_numbers up' = sorted.*1) as ->.
  { apply (strictly_sorted_ext Z.lt); [lia|lia|apply part_numbers_strict|done|].
    intros n. rewrite elem_of_part_numbers, <-Hp. simpl. split.
    - intros [p Hn]. destruct (decide (n ∈ ps.*1)) as [|Hni]; [done|].
      by rewrite parts_of_notin in Hn.
    - intros ([? d] & -> & Hin)%list_elem_of_fmap. simpl. rewrite (parts_of_in _ _ _ _ d); eauto. }
  rewrite <-list_fmap_compose. f_equal. apply list_fmap_ext. intros i [n d] Hi. simpl.
  rewrite (parts_of_in now ps ∅ n d Hnd); [done|]. rewrite Hp. by eapply list_elem_of_lookup_2.
Qed.

Lemma part_raw_etagOf n d : part_raw (mkCompletePartRef n (etagOf d)) = md5_Sum d.
Proof.
  unfold part_raw, etagOf. cbn [cpr_ETag].
  rewrite TrimByte_quoted by (by apply hex_Encode_mem).
  assert (IndexByte (hex_EncodeToString (md5_Sum d)) "-" = None) as ->
    by (by apply IndexByte_None, hex_Encode_mem).
  by rewrite hex_Decode_Encode.
Qed.

Definition get_obj (b : Backend) (bk k : string) : option objectState :=
  buckets b !! bk ≫= λ st, bk_objects st !! k.

Lemma get_obj_store b n st k o bk' k' :
  buckets b !! n = Some st →
  get_obj (set_bucket b n (set_objects st (<[k := o]> (bk_objects st)))) bk' k' =
    if decide (bk' = n ∧ k' = k) then Some o else get_obj b bk' k'.
Proof.
  intros Hb. unfold get_obj. simpl. destruct (decide (n = bk')) as [->|Hne].
  - rewrite lookup_insert_eq, Hb. simpl. destruct (decide (k = k')) as [->|Hk].
    + rewrite lookup_insert_eq, decide_True; done.
    + rewrite lookup_insert_ne by done. rewrite decide_False; naive_solver.
  - rewrite lookup_insert_ne by done. rewrite decide_False; naive_solver.
Qed.

Lemma GetObject_get_obj b bk k o :
  get_obj b bk k = Some o →
  GetObject bk k b = (b, Ok (object_of bk k o (Some (obj_data o)))).
Proof.
  unfold get_obj, GetObject. destruct (buckets b !! bk) as [st|]; [|done]. simpl. by intros ->.
Qed.

(** *** Listing buckets *)

Definition bucket_names (opt : ListBucketsOptions) (b : Backend) : list string :=
  sort_Strings (fst <$> filter (λ '(n, st),
      (lb_Prefix opt = "" ∨ HasPrefix n (lb_Prefix opt) = true) ∧
      (lb_Region opt = "" ∨ bk_region st = lb_Region opt))
    (map_to_list (buckets b))).

Lemma elem_of_bucket_names opt b n :
  n ∈ bucket_names opt b ↔
  ∃ st, buckets b !! n = Some st ∧ (lb_Prefix opt = "" ∨ HasPrefix n (lb_Prefix opt) = true) ∧
    (lb_Region opt = "" ∨ bk_region st = lb_Region opt).
Proof.
  unfold bucket_names. rewrite sort_Strings_perm, list_elem_of_fmap. split.
  - intros ([n' st] & -> & (H & Hin%elem_of_map_to_list)%list_elem_of_filter).
    exists st. naive_solver.
  - intros (st & Hb & H). exists (n, st). split; [done|].
    rewrite list_elem_of_filter, elem_of_map_to_list. done.
Qed.

Lemma bucket_names_strict opt b : StronglySorted str_lt (bucket_names opt b).
Proof.
  apply sort_Strings_strict. eapply sublist_NoDup; [apply (NoDup_fst_map_to_list (buckets b))|].
  apply fmap_sublist, sublist_filter.
Qed.

Lemma start_after_spec l1 t l2 :
  StronglySorted str_lt (l1 ++ t :: l2) →
  drop (start_after t (l1 ++ t :: l2)) (l1 ++ t :: l2) = l2.
Proof.
  intros Hs. induction l1 as [|x l1 IH]; simpl in *.
  - inversion_clear Hs as [|? ? Hs2 Ht]. pose proof (str_lt_irrefl t) as Hirr.
    unfold str_lt in Hirr. rewrite not_true_iff_false in Hirr. rewrite Hirr. simpl.
    destruct l2 as [|y l2]; [done|]. simpl. apply Forall_cons in Ht as [Hty _].
    unfold str_lt in Hty. by rewrite Hty.
  - inversion_clear Hs as [|? ? Hs2 Hx]. rewrite Forall_forall in Hx.
    assert (str_lt x t) as Hlt by (apply Hx; set_solver).
    apply str_lt_asym in Hlt. unfold str_lt in Hlt. rewrite not_true_iff_false in Hlt.
    rewrite Hlt. simpl. by apply IH.
Qed.

Definition found_buckets (b : Backend) (ns : list string) : list Bucket :=
  omap (λ n, bucket_of n <$> buckets b !! n) ns.

Definition with_bucket_token (opt : ListBucketsOptions) (t : string) : ListBucketsOptions :=
  mkListBucketsOptions (lb_Prefix opt) (lb_Region opt) (lb_MaxResults opt) t.

Fixpoint list_all_buckets (fuel : nat) (opt : ListBucketsOptions) (b : Backend) : option (list Bucket) :=
  match fuel with
  | O => None
  | S fuel =>
      match (ListBuckets opt b).2 with
      | Ok r => if String.eqb (lbr_NextToken r) "" then Some (lbr_Buckets r)
                else (app (lbr_Buckets r)) <$>
                       list_all_buckets fuel (with_bucket_token opt (lbr_NextToken r)) b
      | _ => None
      end
  end.

(** From the first name or past a returned one, [rest] is what is to come. *)
Definition remaining (opt : ListBucketsOptions) (b : Backend) (rest : list string) : Prop :=
  (lb_NextToken opt = "" ∧ rest = bucket_names opt b) ∨
  (lb_NextToken opt ≠ "" ∧ ∃ l1, bucket_names opt b = l1 ++ lb_NextToken opt :: rest).

Lemma list_all_buckets_rest fuel opt b rest :
  buckets b !! "" = None → remaining opt b rest → (length rest < fuel)%nat →
  list_all_buckets fuel opt b = Some (found_buckets b rest).
Proof.
  intros Hne. revert opt rest. induction fuel as [|fuel IH]; intros opt rest Hrem Hf; [lia|].
  cbn [list_all_buckets]. unfold ListBuckets. fold (bucket_names opt b).
  assert ((if String.eqb (lb_NextToken opt) "" then bucket_names opt b
           else drop (start_after (lb_NextToken opt) (bucket_names opt b)) (bucket_names opt b))
          = rest) as ->.
  { destruct Hrem as [[-> ->]|[Hn [l1 E]]]; [done|].
    destruct (String.eqb_spec (lb_NextToken opt) ""); [done|].
    pose proof (bucket_names_strict opt b) as Hs. rewrite E in *. by apply start_after_spec. }
  destruct (_ && _) eqn:Hcut; cbn [snd lbr_NextToken lbr_Buckets]; [|done].
  rewrite andb_true_iff, !Z.ltb_lt in Hcut. set (n := Z.to_nat (lb_MaxResults opt)) in *.
  assert (∃ l1 t l2, rest = l1 ++ t :: l2 ∧ take n rest = l1 ++ [t] ∧ nth (n - 1) rest "" = t)
    as (l1 & t & l2 & -> & Htk & Hnth).
  { assert (n - 1 < length rest)%nat as [t Ht]%lookup_lt_is_Some by lia.
    exists (take (n - 1) rest), t, (drop n rest). split_and!.
    - rewrite <-(take_drop_middle rest (n - 1) t) at 1 by done. by replace (S (n - 1)) with n by lia.
    - rewrite <-(take_S_r rest (n - 1)) by done. f_equal. lia.
    - by apply nth_lookup_Some. }
  rewrite Hnth, Htk. fold (found_buckets b (l1 ++ [t])).
  assert (t ∈ bucket_names opt b) as (st & Hst & _)%elem_of_bucket_names.
  { destruct Hrem as [[_ <-]|[_ [l0 ->]]]; set_solver. }
  destruct (String.eqb_spec t "") as [->|Ht]; [congruence|].
  rewrite (IH (with_bucket_token opt t) l2).
  - simpl. f_equal. unfold found_buckets. by rewrite <-omap_app, <-(assoc_L (++)).
  - right. split; [done|]. change (bucket_names (with_bucket_token opt t) b) with (bucket_names opt b).
    destruct Hrem as [[_ <-]|[_ [l0 ->]]]; [by exists l1|].
    exists (l0 ++ lb_NextToken opt :: l1). by rewrite <-(assoc_L (++)).
  - rewrite length_app in Hf. simpl in Hf. lia.
Qed.

(** *** Objects that stay *)

(** [b'] still has every object of [b] (perhaps with new content). *)
Definition keeps (b b' : Backend) : Prop :=
  ∀ bk k, get_obj b bk k ≠ None → get_obj b' bk k ≠ None.

Lemma keeps_objects b b' bk k : keeps b b' → get_obj b bk k ≠ None → get_obj b' bk k = None → False.
Proof. intros H Hx Hn. by destruct (H bk k Hx). Qed.

Lemma keeps_buckets b b' : buckets b' = buckets b → keeps b b'.
Proof. intros E bk k. unfold get_obj. by rewrite E. Qed.

Lemma keeps_store b n st k o :
  buckets b !! n = Some st →
  keeps b (set_bucket b n (set_objects st (<[k := o]> (bk_objects st)))).
Proof. intros Hn bk k' Hx. rewrite (get_obj_store _ _ _ _ _ _ _ Hn). by case_decide. Qed.

Create HintDb keeps.
#[export] Hint Resolve keeps_buckets keeps_store : keeps.

Lemma CreateBucket_keeps now n r b : keeps b (CreateBucket now n r b).1.
Proof.
  unfold CreateBucket. destruct (buckets b !! n) eqn:E; [by apply keeps_buckets|].
  intros bk k. unfold get_obj. simpl. destruct (decide (n = bk)) as [->|]; [by rewrite E|].
  by rewrite lookup_insert_ne.
Qed.

Lemma DeleteBucket_keeps n b : keeps b (DeleteBucket n b).1.
Proof.
  unfold DeleteBucket. destruct (buckets b !! n) as [st|] eqn:E; [|by apply keeps_buckets].
  destruct (0 <? size (bk_objects st))%nat eqn:Hsz; [by apply keeps_buckets|].
  intros bk k. unfold get_obj. simpl. destruct (decide (n = bk)) as [->|]; [|by rewrite lookup_delete_ne].
  rewrite E. simpl. apply Nat.ltb_ge, Nat.le_0_r, map_size_empty_inv in Hsz. by rewrite Hsz.
Qed.

Lemma PutObject_keeps now opt b : keeps b (PutObject now opt b).1.
Proof.
  unfold PutObject. destruct (match po_Body opt with Some _ => _ | _ => _ end);
    [|by apply keeps_buckets].
  destruct (buckets b !! _) eqn:E; simpl; auto with keeps.
Qed.

Lemma CopyObject_keeps now opt b : keeps b (CopyObject now opt b).1.
Proof.
  unfold CopyObject. destruct (buckets b !! co_SrcBucket opt) as [src|]; simpl; [|auto with keeps].
  destruct (bk_objects src !! _); simpl; [|auto with keeps].
  destruct (buckets b !! co_DstBucket opt) eqn:E; simpl; auto with keeps.
Qed.

Lemma CreateMultipartUpload_keeps n1 n2 bk k ct m b :
  keeps b (CreateMultipartUpload n1 n2 bk k ct m b).1.
Proof. unfold CreateMultipartUpload. destruct (buckets b !! bk); by apply keeps_buckets. Qed.

Lemma UploadPart_keeps now bk k id n body b : keeps b (UploadPart now bk k id n body b).1.
Proof. unfold UploadPart. repeat case_match; by apply keeps_buckets. Qed.

Lemma Complete_keeps now bk k id ps b : keeps b (CompleteMultipartUpload now bk k id ps b).1.
Proof.
  unfold CompleteMultipartUpload. destruct (uploads b !! id); [|by apply keeps_buckets].
  destruct (negb _ || _); [by apply keeps_buckets|].
  destruct (buckets b !! bk) eqn:E; simpl; [|by apply keeps_buckets].
  intros bk' k'. by apply (keeps_store b).
Qed.

Lemma Abort_keeps bk k id b : keeps b (AbortMultipartUpload bk k id b).1.
Proof. unfold AbortMultipartUpload. destruct (uploads b !! id); by apply keeps_buckets. Qed.

#[export] Hint Resolve CreateBucket_keeps DeleteBucket_keeps PutObject_keeps CopyObject_keeps
  CreateMultipartUpload_keeps UploadPart_keeps Complete_keeps Abort_keeps : keeps.

Lemma DeleteObject_other bucket key b bk k :
  (bucket, key) ≠ (bk, k) → get_obj (DeleteObject bucket key b).1 bk k = get_obj b bk k.
Proof.
  intros Hne. unfold DeleteObject. destruct (buckets b !! bucket) as [st|] eqn:E; [|done].
  unfold get_obj. simpl. destruct (decide (bucket = bk)) as [->|]; [|by rewrite lookup_insert_ne].
  rewrite lookup_insert_eq, E. simpl. apply lookup_delete_ne. naive_solver.
Qed.

(** ** Properties *)

Definition selected (opt : ListObjectsOptions) (k : string) : Prop :=
  HasPrefix k (lo_Prefix opt) = true ∧ (lo_StartAfter opt = "" ∨ str_lt (lo_StartAfter opt) k).

(** C21: following NextToken from ListObjects until a page is not truncated
    terminates and is complete, with one exception.  One page more than there
    are objects is enough, and the pages have exactly the selected objects that
    are not rolled up, each once and in ascending key order, and exactly the
    common prefixes of the others.  The exception are listings of a bucket that
    has an object with the empty key and another one, without a prefix and a
    StartAfter, in pages of one object: their first token is empty and asks for
    the first page again, so the client never ends. *)
Theorem ListObjects_pagination_complete (opt : ListObjectsOptions) (b : Backend)
    (st : bucketState) (fuel : nat) :
  buckets b !! lo_Bucket opt = Some st → lo_NextToken opt = "" →
  let stuck := lo_MaxResults opt = 1 ∧ lo_Prefix opt = "" ∧ lo_StartAfter opt = "" ∧
    is_Some (bk_objects st !! "") ∧ (2 <= size (bk_objects st))%nat in
  (stuck → list_all fuel opt b = None) ∧
  (¬ stuck → (size (bk_objects st) < fuel)%nat →
   ∃ objs cps, list_all fuel opt b = Some (objs, cps) ∧
    StronglySorted str_lt (om_Key <$> objs) ∧
    (∀ m, m ∈ objs ↔ ∃ k o, bk_objects st !! k = Some o ∧ selected opt k ∧
       common_prefix (lo_Prefix opt) (lo_Delimiter opt) k = None ∧ m = metadata_of k o) ∧
    (∀ cp, cp ∈ cps ↔ ∃ k, is_Some (bk_objects st !! k) ∧ selected opt k ∧
       common_prefix (lo_Prefix opt) (lo_Delimiter opt) k = Some cp)).
Proof.
  intros Hb Ht stuck.
  assert (effective_start opt = lo_StartAfter opt) as Hes by (unfold effective_start; by rewrite Ht).
  assert (stuck ↔ never_advances opt st) as -> by (unfold never_advances; by rewrite Hes).
  split; [by apply list_all_stuck|]. intros Hadv Hf.
  destruct (list_all_complete fuel opt b st Hb Hadv) as (cps & E & Hcps).
  { pose proof (length_list_keys (lo_Prefix opt) (effective_start opt) (bk_objects st)). lia. }
  rewrite Hes in *. eexists _, cps. split; [exact E|]. split_and!.
  - apply listed_sorted, list_keys_strict.
  - intros m. rewrite elem_of_listed. setoid_rewrite elem_of_list_keys. unfold selected. naive_solver eauto.
  - intros cp. rewrite Hcps, elem_of_prefixes. setoid_rewrite elem_of_list_keys. unfold selected. naive_solver.
Qed.

(** Following NextToken from ListBuckets terminates and returns exactly the
    buckets that match the prefix and region filters, in ascending name order. *)
Theorem ListBuckets_pagination_complete (opt : ListBucketsOptions) (b : Backend) (fuel : nat) :
  buckets b !! "" = None → lb_NextToken opt = "" → (size (buckets b) < fuel)%nat →
  ∃ bs, list_all_buckets fuel opt b = Some bs ∧
    StronglySorted str_lt (Bucket_Name <$> bs) ∧
    (∀ x, x ∈ bs ↔ ∃ n st, buckets b !! n = Some st ∧ x = bucket_of n st ∧
       (lb_Prefix opt = "" ∨ HasPrefix n (lb_Prefix opt) = true) ∧
       (lb_Region opt = "" ∨ bk_region st = lb_Region opt)).
Proof.
  intros Hne Ht Hf. exists (found_buckets b (bucket_names opt b)). split_and!.
  - apply list_all_buckets_rest; [done|by left|].
    unfold bucket_names. rewrite sort_Strings_perm, length_fmap.
    eapply Nat.le_lt_trans; [apply length_filter|]. by rewrite length_map_to_list.
  - assert (Bucket_Name <$> found_buckets b (bucket_names opt b) = bucket_names opt b) as ->;
      [|apply bucket_names_strict].
    assert (∀ n, n ∈ bucket_names opt b → is_Some (buckets b !! n)) as Hin.
    { intros n (st & Hst & _)%elem_of_bucket_names. eauto. }
    induction (bucket_names opt b) as [|n ns IH]; [done|]. simpl.
    destruct (Hin n) as [st Hst]; [left|]. rewrite Hst. simpl.
    f_equal. apply IH. intros. apply Hin. by right.
  - intros x. unfold found_buckets. rewrite list_elem_of_omap.
    setoid_rewrite elem_of_bucket_names. split.
    + intros (n & (st & Hst & Hp) & E). rewrite Hst in E. simpl in E. simplify_eq. eauto 10.
    + intros (n & st & Hst & -> & Hp). exists n. rewrite Hst. eauto.
Qed.

(** C38: in every state reachable from [New] by any sequence of operations, each
    bucket has a region, each object has a content type and carries the MD5 of
    its content or a multipart tag as entity tag, and every part of a pending
    upload has a number in 1..10000 and the MD5 of its data as tag. *)
Theorem reachable_states_well_formed (b : Backend) : reachable b → wf b.
Proof. apply reachable_wf. Qed.

(** An operation that returns an error leaves the backend unchanged, and no
    operation panics, in any state and for any arguments. *)
Theorem operations_fail_cleanly (o : op) (b : Backend) :
  (run o b).2 ≠ Panic ∧ ((run o b).2 ≠ Ok () → (run o b).1 = b).
Proof.
  split; [apply run_no_panic|]. intros H.
  destruct ((run o b).2) as [[]|e|] eqn:E; [done| |].
  - by apply (run_err_same o b e).
  - by destruct (run_no_panic o b).
Qed.

(** An object that PutObject stored is what GetObject returns next (content,
    MD5 entity tag, content type with its default, metadata, time), and every
    other object of the backend is as it was. *)
Theorem PutObject_GetObject (now : Time) (opt : PutObjectOptions) (b : Backend)
    (st : bucketState) (data : bytes) :
  buckets b !! po_Bucket opt = Some st → po_Body opt = Some (Reads data) →
  let b' := (PutObject now opt b).1 in
  (PutObject now opt b).2 = Ok (mkPutObjectResult (etagOf data)) ∧
  (GetObject (po_Bucket opt) (po_Key opt) b').2 =
    Ok (mkObject (po_Bucket opt) (po_Key opt) (Z.of_nat (length data)) (etagOf data) now
          (if String.eqb (po_ContentType opt) "" then "application/octet-stream"
           else po_ContentType opt) (po_Metadata opt) (Some data)) ∧
  ∀ bk k, (bk, k) ≠ (po_Bucket opt, po_Key opt) → get_obj b' bk k = get_obj b bk k.
Proof.
  intros Hb Hbody. unfold PutObject. rewrite Hbody, Hb. cbn [fst snd]. split; [done|]. split.
  - erewrite GetObject_get_obj; [|by rewrite (get_obj_store _ _ _ _ _ _ _ Hb), decide_True].
    unfold object_of. simpl. by rewrite !copyMeta_id.
  - intros bk k Hne. rewrite (get_obj_store _ _ _ _ _ _ _ Hb), decide_False; naive_solver.
Qed.

(** A multipart upload whose parts were sent in any order becomes, on
    completion, one object whose content is the parts in ascending part number;
    the upload is gone afterwards. *)
Theorem multipart_assembles_in_order (now1 now2 : Time) (id : string) (up : uploadState)
    (ps sorted : list (Z * bytes)) (refs : list CompletePartRef) (b : Backend) (st : bucketState) :
  uploads b !! id = Some up → up_parts up = ∅ → buckets b !! up_bucket up = Some st →
  Forall (λ p, 1 <= p.1 <= 10000) ps →
  ps ≡ₚ sorted → StronglySorted Z.lt sorted.*1 →
  let b1 := upload_all now1 (up_bucket up) (up_key up) id ps b in
  let r := CompleteMultipartUpload now2 (up_bucket up) (up_key up) id refs b1 in
  r.2 = Ok (MultipartETag refs) ∧
  (GetObject (up_bucket up) (up_key up) r.1).2 =
    Ok (mkObject (up_bucket up) (up_key up) (Z.of_nat (length (concat sorted.*2)))
          (MultipartETag refs) now2
          (if String.eqb (up_contentType up) "" then "application/octet-stream" else up_contentType up)
          (up_metadata up) (Some (concat sorted.*2))) ∧
  uploads r.1 !! id = None.
Proof.
  intros Hu He Hb Hps Hp Hs. cbv zeta. rewrite (upload_all_spec now1 id up ps b Hu Hps).
  rewrite He. pose proof (assemble_sorted now1 up ps sorted Hp Hs) as Ha.
  unfold CompleteMultipartUpload. simpl. rewrite lookup_insert_eq. simpl.
  rewrite !String.eqb_refl. simpl. rewrite Hb. simpl. rewrite Ha. split; [done|]. split.
  - unfold GetObject. simpl. rewrite lookup_insert_eq. simpl. rewrite lookup_insert_eq.
    unfold object_of. simpl. by rewrite !copyMeta_id.
  - apply lookup_delete_eq.
Qed.

(** MultipartETag of the tags that UploadPart returned is the S3 form: the
    quoted hex MD5 of the concatenated binary part MD5s, in list order, a dash
    and the number of parts. *)
Theorem MultipartETag_canonical (ps : list (Z * bytes)) :
  MultipartETag ((λ p, mkCompletePartRef p.1 (etagOf p.2)) <$> ps) =
    String quote (hex_EncodeToString (md5_Sum (concat ((λ p, md5_Sum p.2) <$> ps)))) +:+
      "-" +:+ Itoa (Z.of_nat (length ps)) +:+ String quote "".
Proof.
  unfold MultipartETag. rewrite fold_left_app_concat, length_fmap, <-list_fmap_compose.
  simpl. do 5 f_equal. apply list_fmap_ext. intros i [n d] _. simpl. apply part_raw_etagOf.
Qed.

(** No operation loses an object: one that is there before an operation and
    not after it was named by a DeleteObject (DeleteBucket refuses a bucket that
    still has objects). *)
Theorem only_DeleteObject_removes (o : op) (b : Backend) (bk k : string) :
  get_obj b bk k ≠ None → get_obj (run o b).1 bk k = None → o = OpDeleteObject bk k.
Proof.
  intros Hx Hnone. destruct (reads_only o) eqn:Hr; [by rewrite run_reads_only in Hnone|].
  destruct o; try done; simpl in Hnone;
    try (exfalso; eapply keeps_objects; [|exact Hx|exact Hnone]; by eauto with keeps).
  destruct (decide ((bucket, key) = (bk, k))) as [[= -> ->]|Hne]; [done|].
  destruct Hx. by rewrite <-(DeleteObject_other bucket key).
Qed.

(** ** Witnesses: the theorems at concrete inputs *)

Definition demo_object (s : string) : objectState :=
  mkObjectState (bytes_of_string s) "text/plain" None 7 (etagOf (bytes_of_string s)).
Definition demo_bucket : bucketState :=
  mkBucketState 5 "us-east-1"
    (list_to_map [("a/1", demo_object "x"); ("a/2", demo_object "y"); ("b", demo_object "z");
                  ("c", demo_object "w")]).
Definition demo_upload : uploadState := mkUploadState "bk" "big" 6 ∅ "" None.
Definition demo : Backend := mkBackend {["bk" := demo_bucket]} {["u1" := demo_upload]}.
Definition demo_list : ListObjectsOptions := mkListObjectsOptions "bk" "" "/" "" "" 1.
Definition demo_list_buckets : ListBucketsOptions := mkListBucketsOptions "b" "" 1 "".
Definition demo_put : PutObjectOptions :=
  mkPutObjectOptions "bk" "k" (Some (Reads (bytes_of_string "hello"))) "" None.

(** One object per page with roll-up of "a/": two pages of objects and an empty one. *)
Example list_all_demo :
  option_map (λ r, (map om_Key r.1, r.2)) (list_all 5 demo_list demo) = Some (["b"; "c"], ["a/"]).
Proof. vm_compute. reflexivity. Qed.

Definition demo_empty_key : Backend :=
  mkBackend {["bk" := mkBucketState 5 "us-east-1" {["" := demo_object "x"; "b" := demo_object "y"]}]} ∅.

Lemma ListObjects_pagination_complete_witness :
  (∃ objs cps, list_all 5 demo_list demo = Some (objs, cps) ∧
    StronglySorted str_lt (om_Key <$> objs)) ∧
  list_all 100 demo_list demo_empty_key = None.
Proof.
  split.
  - destruct (proj2 (ListObjects_pagination_complete demo_list demo demo_bucket 5 eq_refl eq_refl))
      as (objs & cps & H & Hs & _); [|vm_compute; lia|].
    + intros (_ & _ & _ & [o Ho] & _). discriminate Ho.
    + exists objs, cps. split; assumption.
  - apply (ListObjects_pagination_complete demo_list demo_empty_key
      (mkBucketState 5 "us-east-1" {["" := demo_object "x"; "b" := demo_object "y"]}) 100 eq_refl eq_refl).
    split_and!; [reflexivity..|by eexists|vm_compute; lia].
Defined.

Lemma ListBuckets_pagination_complete_witness :
  ∃ bs, list_all_buckets 2 demo_list_buckets demo = Some bs ∧ StronglySorted str_lt (Bucket_Name <$> bs).
Proof.
  destruct (ListBuckets_pagination_complete demo_list_buckets demo 2)
    as (bs & H & Hs & _); [reflexivity|reflexivity|vm_compute; lia|].
  exists bs. split; assumption.
Defined.

Lemma reachable_states_well_formed_witness :
  wf (CreateBucket 5 "b" "" New).1.
Proof.
  apply (reachable_states_well_formed (CreateBucket 5 "b" "" New).1).
  apply rtc_once. exists (OpCreateBucket 5 "b" ""). reflexivity.
Defined.

Lemma PutObject_GetObject_witness :
  (PutObject 9 demo_put demo).2 = Ok (mkPutObjectResult (etagOf (bytes_of_string "hello"))).
Proof.
  apply (PutObject_GetObject 9 demo_put demo demo_bucket (bytes_of_string "hello"));
    reflexivity.
Defined.

Lemma multipart_assembles_in_order_witness :
  let ps := [(2, bytes_of_string "world"); (1, bytes_of_string "hello ")] in
  let b1 := upload_all 8 "bk" "big" "u1" ps demo in
  uploads (CompleteMultipartUpload 9 "bk" "big" "u1" [] b1).1 !! "u1" = None.
Proof.
  apply (multipart_assembles_in_order 8 9 "u1" demo_upload
    [(2, bytes_of_string "world"); (1, bytes_of_string "hello ")]
    [(1, bytes_of_string "hello "); (2, bytes_of_string "world")] [] demo demo_bucket).
  - reflexivity.
  - reflexivity.
  - reflexivity.
  - repeat (apply Forall_cons_2; [simpl; lia|]). apply Forall_nil_2.
  - apply Permutation_swap.
  - repeat (constructor; try lia).
Defined.

Lemma only_DeleteObject_removes_witness :
  OpDeleteObject "bk" "c" = OpDeleteObject "bk" "c".
Proof.
  apply (only_DeleteObject_removes (OpDeleteObject "bk" "c") demo "bk" "c").
  - vm_compute. discriminate.
  - vm_compute. reflexivity.
Defined.
