(* ===== verification/StorageApi.v ===== *)
(** * The interface [domain.Storage] and its contract

    [Storage_] is the Go interface the storage frontends are written against,
    one field per method; [StorageLaws] is what its comments promise of a
    backend, by the objects each bucket holds.  The in-process backend of the
    file Storage is an instance of both. *)

From S2P Require Import Prelude GoStrings GoBytes GoCrypto GoHttp Storage.

Class Storage_ (St : Type) := {
  st_ListBuckets : ListBucketsOptions → St → St * result ListBucketsResult;
  st_CreateBucket : Time → string → string → St → St * result unit;
  st_DeleteBucket : string → St → St * result unit;
  st_HeadBucket : string → St → St * result Bucket;
  st_ListObjects : ListObjectsOptions → St → St * result ListObjectsResult;
  st_GetObject : string → string → St → St * result Object;
  st_PutObject : Time → PutObjectOptions → St → St * result PutObjectResult;
  st_DeleteObject : string → string → St → St * result unit;
  st_HeadObject : string → string → St → St * result Object;
  st_CopyObject : Time → CopyObjectOptions → St → St * result CopyObjectResult;
  st_CreateMultipartUpload : Time → Time → string → string → string → strmap → St → St * result string;
  st_UploadPart : Time → string → string → string → Z → Storage.Reader → St → St * result string;
  st_CompleteMultipartUpload : Time → string → string → string → list CompletePartRef → St → St * result string;
  st_AbortMultipartUpload : string → string → string → St → St * result unit;
  st_ListMultipartUploads : string → string → St → St * result (list MultipartUpload);
  st_ListParts : string → string → string → St → St * result (list Part) }.

#[export] Instance inmem_storage : Storage_ Backend := {|
  st_ListBuckets := ListBuckets; st_CreateBucket := CreateBucket; st_DeleteBucket := DeleteBucket;
  st_HeadBucket := HeadBucket; st_ListObjects := ListObjects; st_GetObject := GetObject;
  st_PutObject := PutObject; st_DeleteObject := DeleteObject; st_HeadObject := HeadObject;
  st_CopyObject := CopyObject; st_CreateMultipartUpload := CreateMultipartUpload;
  st_UploadPart := UploadPart; st_CompleteMultipartUpload := CompleteMultipartUpload;
  st_AbortMultipartUpload := AbortMultipartUpload; st_ListMultipartUploads := ListMultipartUploads;
  st_ListParts := ListParts |}.

(** The request's body as the backend reads it. *)
Definition to_reader (b : BodyReader) : Storage.Reader :=
  match b with GoHttp.Reads d => Storage.Reads d | GoHttp.ReadFails t => Storage.ReadFails (Plain t None) end.

(** [errors.As(err, &de)] with [de] a [*domain.Error]: its fields. *)
Record domainError := mkDomainErrorFields { de_Kind : Kind; de_Resource : string; de_Message : string }.
Fixpoint As_domain (e : error) : option domainError :=
  match e with
  | DomainError k r m _ => Some (mkDomainErrorFields k r m)
  | Plain _ (Some w) => As_domain w
  | Plain _ None => None
  end.

(** ** The contract

    [contents s] gives the buckets of a state and the objects they hold. *)

Definition get_spec (contents : gmap string (gmap string objectState)) (bucket key : string)
    (body : objectState → option bytes) : result Object :=
  match contents !! bucket with
  | None => Err (NoSuchBucket bucket)
  | Some os =>
      match os !! key with
      | None => Err (NoSuchKey bucket key)
      | Some o => Ok (object_of bucket key o (body o))
      end
  end.

Definition put_spec (now : Time) (opt : PutObjectOptions) (data : bytes) (etag : string) : objectState :=
  mkObjectState data (or_default (po_ContentType opt) "application/octet-stream")
    (po_Metadata opt) now etag.

Class StorageLaws (St : Type) `{Storage_ St} := {
  contents : St → gmap string (gmap string objectState);
  law_Get : ∀ bucket key s,
    st_GetObject bucket key s = (s, get_spec (contents s) bucket key (λ o, Some (obj_data o)));
  law_Head : ∀ bucket key s,
    st_HeadObject bucket key s = (s, get_spec (contents s) bucket key (λ _, None));
  law_Put : ∀ now opt data os s,
    default (Storage.Reads []) (po_Body opt) = Storage.Reads data →
    contents s !! po_Bucket opt = Some os →
    ∃ etag s', st_PutObject now opt s = (s', Ok (mkPutObjectResult etag)) ∧
      contents s' = <[po_Bucket opt := <[po_Key opt := put_spec now opt data etag]> os]> (contents s);
  law_Put_missing : ∀ now opt data s,
    default (Storage.Reads []) (po_Body opt) = Storage.Reads data →
    contents s !! po_Bucket opt = None →
    st_PutObject now opt s = (s, Err (NoSuchBucket (po_Bucket opt)));
  law_Put_unreadable : ∀ now opt e s,
    default (Storage.Reads []) (po_Body opt) = Storage.ReadFails e →
    ∃ e', st_PutObject now opt s = (s, Err e');
  law_Delete : ∀ bucket key s,
    ∃ s', contents s' = alter (delete key) bucket (contents s) ∧
    st_DeleteObject bucket key s =
      (s', if decide (is_Some (contents s !! bucket)) then Ok () else Err (NoSuchBucket bucket)) }.

Lemma contents_lookup b bk :
  (bk_objects <$> buckets b) !! bk = bk_objects <$> (buckets b !! bk).
Proof. apply lookup_fmap. Qed.

#[export] Program Instance inmem_storage_laws : StorageLaws Backend :=
  {| contents b := bk_objects <$> buckets b |}.
Next Obligation.
  intros bk k b. cbn. unfold GetObject, get_spec. rewrite contents_lookup.
  destruct (buckets b !! bk) as [st|]; [cbn|done]. by destruct (bk_objects st !! k).
Qed.
Next Obligation.
  intros bk k b. cbn. unfold HeadObject, get_spec. rewrite contents_lookup.
  destruct (buckets b !! bk) as [st|]; [cbn|done]. by destruct (bk_objects st !! k).
Qed.
Next Obligation.
  intros now opt data os b Hbody Hb. cbv beta in Hb. rewrite contents_lookup in Hb.
  apply fmap_Some in Hb as (st & Hst & ->). cbn. unfold PutObject.
  assert (match po_Body opt with None => Storage.Reads [] | Some r => r end = Storage.Reads data) as -> by exact Hbody.
  rewrite Hst. eexists _, _. split; [reflexivity|]. cbn. rewrite fmap_insert. cbn. unfold put_spec.
  do 3 f_equal. apply copy_map_id.
Qed.
Next Obligation.
  intros now opt data b Hbody Hb. cbv beta in Hb. rewrite contents_lookup in Hb. apply fmap_None in Hb.
  cbn. unfold PutObject.
  assert (match po_Body opt with None => Storage.Reads [] | Some r => r end = Storage.Reads data) as -> by exact Hbody.
  by rewrite Hb.
Qed.
Next Obligation.
  intros now opt e b Hbody. cbn. unfold PutObject.
  assert (match po_Body opt with None => Storage.Reads [] | Some r => r end = Storage.ReadFails e) as -> by exact Hbody.
  eauto.
Qed.
Next Obligation.
  intros bk k b. cbn. unfold DeleteObject. rewrite contents_lookup.
  destruct (buckets b !! bk) as [st|] eqn:E; eexists; (split; [|reflexivity]).
  - cbn. rewrite fmap_insert. cbn.
    apply map_eq. intros i. destruct (decide (i = bk)) as [->|Hne].
    + rewrite lookup_insert_eq, lookup_alter_eq, contents_lookup, E. done.
    + by rewrite lookup_insert_ne, lookup_alter_ne by done.
  - symmetry. apply map_eq. intros i. destruct (decide (i = bk)) as [->|Hne].
    + by rewrite lookup_alter_eq, contents_lookup, E.
    + by rewrite lookup_alter_ne by done.
Qed.
