(* ===== verification/AzureBlob.v ===== *)
(** * The Azure Blob frontend

    Models [internal/storage/frontends/azure_blob]: the query-discriminated
    dispatcher, the handlers and the error envelope, written against the
    interface [Storage_].  XML bodies are kept as the values that are encoded.
    [now] is the clock the backend reads and [tick] the one the handler reads
    for its own headers.  [None] instead of a response is a panic of the
    handler, which net/http turns into a dropped connection. *)

From Stdlib Require Import Ascii.
From S2P Require Import Prelude GoStrings GoBytes GoTime GoHttp MetaHeaders Storage StorageApi.

(** ** Wire types *)

Definition quoteETag (raw : string) : string :=
  let s := TrimByte raw quote in
  if String.eqb s "" then "" else String quote s +:+ String quote "".

Record apiError := mkApiError { ae_Code : string; ae_Message : string }.
Record containerXML := mkContainerXML {
  cx_Name : string; cx_LastModified : string; cx_ETag : string }.
Record listContainersResponse := mkListContainersResponse {
  lc_Prefix : string; lc_Containers : list containerXML; lc_NextMarker : string }.
Record blobProperties := mkBlobProperties {
  bp_LastModified : string; bp_ETag : string; bp_ContentLength : Z; bp_ContentType : string;
  bp_BlobType : string }.
Record blobXML := mkBlobXML { bx_Name : string; bx_Properties : blobProperties }.
Record blobPrefixXML := mkBlobPrefixXML { bpx_Name : string }.
Record listBlobsResponse := mkListBlobsResponse {
  lbs_Prefix : string; lbs_Delimiter : string; lbs_Blobs : list blobXML; lbs_BlobPrefix : list blobPrefixXML;
  lbs_NextMarker : string }.

(** What a handler writes after the header: bytes, or [xml.Header] and the
    encoding of a value. *)
Inductive payload :=
  | Raw (b : bytes) | XmlError (e : apiError) | XmlContainers (r : listContainersResponse)
  | XmlBlobs (r : listBlobsResponse).
Abbreviation Response := (Response payload).

Definition writeError (tick : Time) (h : gmap string string) (status : Z) (code message : string) : Response :=
  mkResponse status
    (Set_ "Date" (Format_http tick) (Set_ "x-ms-error-code" code (Set_ "Content-Type" "application/xml" h)))
    (XmlError (mkApiError code message)).

Definition mapDomainError (tick : Time) (h : gmap string string) (err : error) : Response :=
  match As_domain err with
  | None => writeError tick h 500 "InternalError" (Error_text err)
  | Some de =>
      match de_Kind de with
      | KindNoSuchBucket => writeError tick h 404 "ContainerNotFound" (de_Message de)
      | KindNoSuchKey => writeError tick h 404 "BlobNotFound" (de_Message de)
      | KindBucketAlreadyExists => writeError tick h 409 "ContainerAlreadyExists" (de_Message de)
      | KindBucketNotEmpty => writeError tick h 409 "ContainerNotEmpty" (de_Message de)
      | KindNoSuchUpload => writeError tick h 404 "BlobNotFound" (de_Message de)
      | KindInvalidArgument => writeError tick h 400 "InvalidInput" (de_Message de)
      | _ => writeError tick h 500 "InternalError" (de_Message de)
      end
  end.

Definition notImplemented (tick : Time) (op : string) : Response :=
  writeError tick ∅ 501 "OperationNotSupported" (op +:+ " is not in the cross-cloud storage intersection").

Definition writeXML (h : gmap string string) (status : Z) (body : payload) : Response :=
  mkResponse status (Set_ "Content-Type" "application/xml" h) body.

(** ** Helpers *)

Definition account_byte (c : ascii) : bool := is_lower c || is_digit c.
Definition isAccountSegment (s : string) : bool :=
  (3 <=? String.length s)%nat && (String.length s <=? 24)%nat && all_bytes account_byte s.

Definition writeBlobHeaders (obj : Object) (h : gmap string string) : gmap string string :=
  let h := Set_ "Content-Type" (or_default (Object_ContentType obj) "application/octet-stream") h in
  let h := if 0 <? Object_Size obj then Set_ "Content-Length" (Itoa (Object_Size obj)) h else h in
  let etag := quoteETag (Object_ETag obj) in
  let h := if String.eqb etag "" then h else Set_ "ETag" etag h in
  let h := if Object_LastModified obj =? zeroTime then h
           else Set_ "Last-Modified" (Format_http (Object_LastModified obj)) h in
  set_metadata "x-ms-meta-" (Object_Metadata obj) (Set_ "x-ms-blob-type" "BlockBlob" h).

(** The map is nil when no header matches. *)
Definition extractMetadata (h : gmap string (list string)) : strmap :=
  let out := map_fold (meta_entry "X-Ms-Meta-") ∅ h in
  if decide (out = ∅) then None else Some out.

(** The account segment in front of a path, when there is a slash after it. *)
Definition strip_account (rest : string) : string :=
  match IndexByte rest "/" with
  | Some i => if isAccountSegment (str_take i rest) then str_drop (S i) rest else rest
  | None => rest
  end.

Definition parseCopySource (src : string) : string * string * bool :=
  let rest :=
    match Index src "://" with
    | Some i => let rest := str_drop (i + 3) src in
                match IndexByte rest "/" with Some j => str_drop j rest | None => rest end
    | None => src
    end in
  let rest := TrimPrefix rest "/" in
  let rest := match IndexByte rest "?" with Some q => str_take q rest | None => rest end in
  let rest := strip_account rest in
  match IndexByte rest "/" with
  | None => ("", "", false)
  | Some slash => (str_take slash rest, str_drop (S slash) rest, true)
  end.

Definition parseSingleRange (h : string) (size : Z) : Z * Z * bool :=
  let bad := (0, 0, false) in
  if negb (HasPrefix h "bytes=") then bad
  else
    let spec := TrimPrefix h "bytes=" in
    if Contains spec "," then bad
    else match IndexByte spec "-" with
    | None => bad
    | Some dash =>
        let startS := str_take dash spec in
        let endS := str_drop (S dash) spec in
        if String.eqb startS "" then
          match ParseInt10 64 endS with
          | Some n =>
              if n <=? 0 then bad
              else let n := if size <? n then size else n in (size - n, size - 1, true)
          | None => bad
          end
        else match ParseInt10 64 startS with
        | None => bad
        | Some s =>
            if (s <? 0) || (size <=? s) then bad
            else if String.eqb endS "" then (s, size - 1, true)
            else match ParseInt10 64 endS with
            | None => bad
            | Some e =>
                if e <? s then bad
                else (s, if size <=? e then size - 1 else e, true)
            end
        end
    end.

(** [io.CopyN(w, body, n)]: at most [n] bytes, and whether they were all there. *)
Definition CopyN (body : bytes) (n : Z) : bytes * bytes * bool :=
  (take (Z.to_nat n) body, drop (Z.to_nat n) body, n <=? Z.of_nat (length body)).

(** ** Handlers *)

Section frontend.
Context `{Storage_ St}.
Implicit Types (s : St).

(** A handler's continuation on the result of a call. *)
Definition answer {A} (tick : Time) (c : St * result A) (k : A → option Response) : St * option Response :=
  (c.1, match c.2 with
        | Ok a => k a
        | Err e => Some (mapDomainError tick ∅ e)
        | Panic => None
        end).

(** [if n, err := strconv.Atoi(mr); err == nil { opt.MaxResults = n }] *)
Definition max_results (mr : string) : Z :=
  if String.eqb mr "" then 0 else default 0 (Atoi mr).

Definition container_xml (b : Bucket) : containerXML :=
  mkContainerXML (Bucket_Name b) (Format_http (Bucket_CreatedAt b)) (quoteETag (Bucket_ETag b)).

Definition listContainers (tick : Time) (r : Request) s : St * option Response :=
  let q := Query_Get (Query r) in
  let opt := mkListBucketsOptions (q "prefix") "" (max_results (q "maxresults")) (q "marker") in
  answer tick (st_ListBuckets opt s) (λ out,
    Some (writeXML ∅ 200 (XmlContainers (mkListContainersResponse (lb_Prefix opt)
      (container_xml <$> lbr_Buckets out) (lbr_NextToken out))))).

Definition createContainer (now tick : Time) (r : Request) (container : string) s : St * option Response :=
  answer tick (st_CreateBucket now container "" s) (λ _,
    Some (mkResponse 201 (Set_ "Last-Modified" (Format_http tick)
      (Set_ "ETag" (String quote "created" +:+ String quote "") ∅)) (Raw []))).

Definition getContainerProperties (tick : Time) (r : Request) (container : string) s : St * option Response :=
  answer tick (st_HeadBucket container s) (λ b,
    let h := Set_ "Last-Modified" (Format_http (Bucket_CreatedAt b)) ∅ in
    let etag := quoteETag (Bucket_ETag b) in
    let h := if String.eqb etag "" then h else Set_ "ETag" etag h in
    Some (mkResponse 200 (Set_ "x-ms-lease-state" "available" (Set_ "x-ms-lease-status" "unlocked" h)) (Raw []))).

Definition deleteContainer (tick : Time) (r : Request) (container : string) s : St * option Response :=
  answer tick (st_DeleteBucket container s) (λ _, Some (mkResponse 202 ∅ (Raw []))).

Definition blob_xml (o : ObjectMetadata) : blobXML :=
  mkBlobXML (om_Key o)
    (mkBlobProperties (Format_http (om_LastModified o)) (quoteETag (om_ETag o)) (om_Size o) "" "BlockBlob").

Definition list_blobs_options (r : Request) (container : string) : ListObjectsOptions :=
  let q := Query_Get (Query r) in
  mkListObjectsOptions container (q "prefix") (q "delimiter") "" (q "marker") (max_results (q "maxresults")).

Definition listBlobs (tick : Time) (r : Request) (container : string) s : St * option Response :=
  let opt := list_blobs_options r container in
  answer tick (st_ListObjects opt s) (λ out,
    Some (writeXML ∅ 200 (XmlBlobs (mkListBlobsResponse (lo_Prefix opt) (lo_Delimiter opt)
      (blob_xml <$> lor_Objects out) (mkBlobPrefixXML <$> lor_CommonPrefixes out) (lor_NextToken out))))).

Definition etag_or_shim (e : string) : string :=
  String quote (or_default (TrimByte e quote) "shim") +:+ String quote "".

Definition putBlob (now tick : Time) (r : Request) (container blob : string) s : St * option Response :=
  let contentType := or_default (Header_Get r "Content-Type") (Header_Get r "x-ms-blob-content-type") in
  let opt := mkPutObjectOptions container blob (to_reader <$> Body r) contentType (extractMetadata (Header r)) in
  answer tick (st_PutObject now opt s) (λ res,
    Some (mkResponse 201 (Set_ "Last-Modified" (Format_http tick) (Set_ "ETag" (etag_or_shim (por_ETag res)) ∅))
      (Raw []))).

(** A nil [obj.Body] is dereferenced by the deferred [Close]. *)
Definition getBlob (tick : Time) (r : Request) (container blob : string) s : St * option Response :=
  answer tick (st_GetObject container blob s) (λ obj,
    match Object_Body obj with
    | None => None
    | Some body =>
        let rng := Header_Get r "Range" in
        if String.eqb rng "" then
          let h := writeBlobHeaders obj ∅ in
          let range := if 0 <? Object_Size obj
                       then "bytes 0-" +:+ Itoa (Object_Size obj - 1) +:+ "/" +:+ Itoa (Object_Size obj)
                       else "bytes 0-0/0" in
          Some (mkResponse 200 (Set_ "Content-Range" range h) (Raw body))
        else
          let '(start, end_, ok) := parseSingleRange rng (Object_Size obj) in
          if negb ok then Some (writeError tick ∅ 416 "InvalidRange" ("unparseable Range header: " +:+ rng))
          else
            let '(_, rest, enough) := if 0 <? start then CopyN body start else ([], body, true) in
            if negb enough
            then Some (writeError tick ∅ 500 "InternalError" "seeking to range start: EOF")
            else
              let length := end_ - start + 1 in
              let h := Set_ "Content-Length" (Itoa length) (writeBlobHeaders obj ∅) in
              let h := Set_ "Content-Range"
                ("bytes " +:+ Itoa start +:+ "-" +:+ Itoa end_ +:+ "/" +:+ Itoa (Object_Size obj)) h in
              Some (mkResponse 206 h (Raw (CopyN rest length).1.1))
    end).

Definition headBlob (tick : Time) (r : Request) (container blob : string) s : St * option Response :=
  answer tick (st_HeadObject container blob s) (λ obj,
    Some (mkResponse 200 (writeBlobHeaders obj ∅) (Raw []))).

Definition deleteBlob (tick : Time) (r : Request) (container blob : string) s : St * option Response :=
  answer tick (st_DeleteObject container blob s) (λ _, Some (mkResponse 202 ∅ (Raw []))).

Definition copyBlob (now tick : Time) (r : Request) (container blob : string) s : St * option Response :=
  let src := Header_Get r "x-ms-copy-source" in
  let '(srcContainer, srcBlob, ok) := parseCopySource src in
  if negb ok then (s, Some (writeError tick ∅ 400 "InvalidInput" ("malformed x-ms-copy-source: " +:+ src)))
  else
    let md := extractMetadata (Header r) in
    let replace := bool_decide (is_Some md) in
    let opt := mkCopyObjectOptions srcContainer srcBlob container blob
      (if replace then "REPLACE" else "") (if replace then md else None) "" in
    answer tick (st_CopyObject now opt s) (λ res,
      Some (mkResponse 202
        (Set_ "x-ms-copy-id" "shim-copy" (Set_ "x-ms-copy-status" "success"
          (Set_ "Last-Modified" (Format_http (cor_LastModified res))
            (Set_ "ETag" (etag_or_shim (cor_ETag res)) ∅)))) (Raw []))).

(** ** Dispatch *)

(** The path after the account segment. *)
Definition route_path (r : Request) : string :=
  let path := TrimPrefix (URL_Path r) "/" in
  match IndexByte path "/" with
  | Some i => if isAccountSegment (str_take i path) then str_drop (S i) path else path
  | None => if isAccountSegment path then "" else path
  end.

Definition ServeHTTP (now tick : Time) (r : Request) s : St * option Response :=
  let path := route_path r in
  let restype := Query_Get (Query r) "restype" in
  let comp := Query_Get (Query r) "comp" in
  let method := Method r in
  if String.eqb path "" && String.eqb method "GET" then listContainers tick r s
  else match IndexByte path "/" with
  | None =>
      let container := path in
      let is_container := String.eqb restype "container" in
      if String.eqb method "PUT" && is_container then createContainer now tick r container s
      else if String.eqb method "GET" && is_container && String.eqb comp "list" then listBlobs tick r container s
      else if String.eqb method "GET" && is_container then getContainerProperties tick r container s
      else if String.eqb method "HEAD" && is_container then getContainerProperties tick r container s
      else if String.eqb method "DELETE" && is_container then deleteContainer tick r container s
      else (s, Some (writeError tick ∅ 400 "InvalidInput"
             ("unrecognised container-level request: " +:+ method +:+ " /" +:+ container +:+ "?" +:+ RawQuery r)))
  | Some slash =>
      let container := str_take slash path in
      let blob := str_drop (S slash) path in
      if String.eqb method "PUT" then
        if negb (String.eqb (Header_Get r "x-ms-copy-source") "") then copyBlob now tick r container blob s
        else putBlob now tick r container blob s
      else if String.eqb method "GET" then getBlob tick r container blob s
      else if String.eqb method "HEAD" then headBlob tick r container blob s
      else if String.eqb method "DELETE" then deleteBlob tick r container blob s
      else (s, Some (writeError tick ∅ 405 "InvalidInput" (method +:+ " not allowed on blob")))
  end.

(** ** [gen.ServerInterface]

    The operations of the generated interface: the twelve in the intersection
    reach the same handlers, the others are refused by name. *)

Inductive spec_op :=
  | ServiceListContainersSegment | ContainerCreate (c : string) | ContainerGetProperties (c : string)
  | ContainerDelete (c : string) | ContainerListBlobFlatSegment (c : string)
  | ContainerListBlobHierarchySegment (c : string) | BlockBlobUpload (c b : string)
  | BlobDownload (c b : string) | BlobGetProperties (c b : string) | BlobDelete (c b : string)
  | BlobStartCopyFromURL (c b : string) | BlobCopyFromURL (c b : string)
  | OutOfIntersection (name : string).

Definition serve_op (now tick : Time) (r : Request) (o : spec_op) s : St * option Response :=
  match o with
  | ServiceListContainersSegment => listContainers tick r s
  | ContainerCreate c => createContainer now tick r c s
  | ContainerGetProperties c => getContainerProperties tick r c s
  | ContainerDelete c => deleteContainer tick r c s
  | ContainerListBlobFlatSegment c => listBlobs tick r c s
  | ContainerListBlobHierarchySegment c => listBlobs tick r c s
  | BlockBlobUpload c b => putBlob now tick r c b s
  | BlobDownload c b => getBlob tick r c b s
  | BlobGetProperties c b => headBlob tick r c b s
  | BlobDelete c b => deleteBlob tick r c b s
  | BlobStartCopyFromURL c b => copyBlob now tick r c b s
  | BlobCopyFromURL c b => copyBlob now tick r c b s
  | OutOfIntersection name => (s, Some (notImplemented tick name))
  end.
End frontend.
