(* ===== verification/AzureBlobProps.v ===== *)
(** * The Azure Blob frontend: properties

    Routing, ranges and metadata; blobs put through the frontend are read back
    over any backend that keeps the contract of the interface; listings by
    marker are complete over the in-process backend. *)

From Stdlib Require Import Ascii.
From S2P Require Import Prelude GoStrings GoBytes GoTime GoHttp MetaHeaders Storage StorageProps StorageApi AzureBlob.

(** ** Metadata *)

Lemma extract_default h : default ∅ (extractMetadata h) = map_fold (meta_entry "X-Ms-Meta-") ∅ h.
Proof. unfold extractMetadata. case_decide as E; [by rewrite E|done]. Qed.

(** ** Ranges *)

(** A decimal number: digits, read from the left. *)
Definition digit_char (c : ascii) : Prop := (48 <= N_of_ascii c <= 57)%N.
Definition decimal_value (a : Z) (s : string) : Z :=
  fold_left (λ a c, a * 10 + (Z.of_N (N_of_ascii c) - 48)) (String.list_ascii_of_string s) a.
Definition number (s : string) (n : Z) : Prop :=
  s ≠ "" ∧ (∀ c, c ∈ String.list_ascii_of_string s → digit_char c) ∧ n = decimal_value 0 s.
(** What [strconv.ParseInt] reads: a sign is optional, and the number is an int64. *)
Definition signed_number (s : string) (n : Z) : Prop :=
  in_s 64 n ∧ (number s n ∨ (∃ t, s = String "+" t ∧ number t n) ∨ (∃ t, s = String "-" t ∧ number t (- n))).

Lemma dec_val_spec c d : dec_val c = Some d ↔ digit_char c ∧ d = Z.of_N (N_of_ascii c) - 48.
Proof. unfold dec_val, digit_char. destruct (_ && _) eqn:E; [|split; [done|lia]]. split; [intros [= <-]; lia|]. intros [_ ->]. f_equal. Qed.

Lemma parse_digits_spec a s n :
  parse_digits a s = Some n ↔ (∀ c, c ∈ String.list_ascii_of_string s → digit_char c) ∧ n = decimal_value a s.
Proof.
  revert a. induction s as [|c s IH]; intros a; cbn [parse_digits String.list_ascii_of_string].
  - setoid_rewrite elem_of_nil. unfold decimal_value. cbn. naive_solver.
  - setoid_rewrite elem_of_cons. unfold decimal_value in *. cbn [String.list_ascii_of_string fold_left].
    destruct (dec_val c) as [d|] eqn:E.
    + apply dec_val_spec in E as [Hd ->]. rewrite IH. naive_solver.
    + split; [done|]. intros [Hc _]. exfalso. specialize (Hc c (or_introl eq_refl)).
      by rewrite (proj2 (dec_val_spec c _) (conj Hc eq_refl)) in E.
Qed.

Lemma parse_uint_spec s n : parse_uint s = Some n ↔ number s n.
Proof.
  unfold parse_uint, number. destruct s as [|c s]; [split; [done|by intros [? _]]|]. rewrite parse_digits_spec. naive_solver.
Qed.

Lemma number_head c s n : number (String c s) n → digit_char c.
Proof. intros (_ & H & _). apply H. left. Qed.

Lemma ParseInt10_spec s n : ParseInt10 64 s = Some n ↔ signed_number s n.
Proof.
  unfold ParseInt10, signed_number.
  match goal with |- context [match ?r with Some _ => _ | None => _ end = _] => set (parsed := r) end.
  assert (∀ m, parsed = Some m ↔
    number s m ∨ (∃ t, s = String "+" t ∧ number t m) ∨ ∃ t, s = String "-" t ∧ number t (- m)) as H.
  { intros m. subst parsed. destruct s as [|c s].
    { split; [done|]. intros [[? _]|[(? & ? & _)|(? & ? & _)]]; done. }
    destruct (Ascii.eqb_spec c "-") as [->|Hm]; [|destruct (Ascii.eqb_spec c "+") as [->|Hp]].
    - rewrite fmap_Some. setoid_rewrite parse_uint_spec. split.
      + intros (k & Hk & ->). right. right. exists s. by rewrite Z.opp_involutive.
      + intros [H|[(t & [= ] & _)|(t & [= <-] & H)]]; [|exists (- m); split; [done|lia]].
        apply number_head in H. unfold digit_char in H. cbn in H. lia.
    - rewrite parse_uint_spec. split; [eauto|]. intros [H|[(t & [= <-] & H)|(t & [= ] & _)]]; [|done].
      apply number_head in H. unfold digit_char in H. cbn in H. lia.
    - rewrite parse_uint_spec. naive_solver. }
  destruct parsed as [m|]; cycle 1.
  { split; [done|]. intros [_ Hn]. by apply H in Hn. }
  unfold in_s. destruct (_ && _) eqn:E.
  - split; [intros [= <-]; split; [lia|by apply H]|]. intros [_ Hn]. by apply H in Hn.
  - split; [done|]. intros [Hr Hn]. apply H in Hn as [= ->]. lia.
Qed.

(** The ranges that are accepted, of a blob of [size] bytes. *)
Inductive byte_range (size : Z) : string → Z → Z → Prop :=
  | range_from_to s t a b : str_mem "-" s = false → signed_number s a → signed_number t b →
      0 <= a <= b → a < size → byte_range size ("bytes=" +:+ s +:+ "-" +:+ t) a (Z.min b (size - 1))
  | range_from s a : str_mem "-" s = false → signed_number s a → 0 <= a < size →
      byte_range size ("bytes=" +:+ s +:+ "-") a (size - 1)
  | range_suffix t n : signed_number t n → 0 < n →
      byte_range size ("bytes=-" +:+ t) (size - Z.min n size) (size - 1).

Lemma byte_range_inside size h a b :
  0 <= size → byte_range size h a b → 0 <= a <= b ∧ b < size ∨ size = 0 ∧ a = 0 ∧ b = -1.
Proof. intros Hs []; lia. Qed.

Lemma range_header spec : HasPrefix ("bytes=" +:+ spec) "bytes=" = true ∧ TrimPrefix ("bytes=" +:+ spec) "bytes=" = spec.
Proof. split; [apply (HasPrefix_app "bytes=")|apply (TrimPrefix_app "bytes=")]. Qed.

Lemma range_parts sa sb :
  str_mem "," sa = false → str_mem "," sb = false → str_mem "-" sa = false →
  let spec := sa +:+ String "-" sb in
  Contains spec "," = false ∧ IndexByte spec "-" = Some (String.length sa) ∧
  str_take (String.length sa) spec = sa ∧ str_drop (S (String.length sa)) spec = sb.
Proof.
  intros H1 H2 H3 spec. subst spec. rewrite Contains_one, str_mem_app, H1. simpl. rewrite H2.
  split_and!; [done|by apply IndexByte_app|apply str_take_app|apply str_drop_sep].
Qed.

Lemma number_no c s n : ¬ digit_char c → number s n → str_mem c s = false.
Proof.
  intros Hc (_ & H & _). apply not_true_is_false. intros Hm. apply Hc, H. clear H. induction s as [|x s IH]; [done|].
  cbn [str_mem String.list_ascii_of_string] in *. apply orb_true_iff in Hm as [E|Hm]; [|right; by apply IH].
  apply Ascii.eqb_eq in E as ->. left.
Qed.

Lemma signed_no_comma s n : signed_number s n → s ≠ "" ∧ str_mem "," s = false.
Proof.
  assert (¬ digit_char ",") as Hc by (unfold digit_char; cbn; lia).
  intros [_ [H|[(t & -> & H)|(t & -> & H)]]]; [split; [by destruct H|by eapply number_no]|..];
    (split; [done|]); cbn [str_mem]; by rewrite (number_no _ _ _ Hc H).
Qed.

(** The parser, on a header of the right shape. *)
Lemma parse_shape s t size :
  str_mem "," s = false → str_mem "," t = false → str_mem "-" s = false →
  parseSingleRange ("bytes=" +:+ s +:+ String "-" t) size =
    if String.eqb s "" then
      match ParseInt10 64 t with
      | Some n => if n <=? 0 then (0, 0, false)
                  else (size - Z.min n size, size - 1, true)
      | None => (0, 0, false)
      end
    else match ParseInt10 64 s with
      | None => (0, 0, false)
      | Some a =>
          if (a <? 0) || (size <=? a) then (0, 0, false)
          else if String.eqb t "" then (a, size - 1, true)
          else match ParseInt10 64 t with
            | None => (0, 0, false)
            | Some e => if e <? a then (0, 0, false) else (a, Z.min e (size - 1), true)
            end
      end.
Proof.
  intros H1 H2 H3. unfold parseSingleRange. destruct (range_header (s +:+ String "-" t)) as [-> ->].
  destruct (range_parts s t H1 H2 H3) as (-> & -> & -> & ->). cbn [negb]. cbv zeta. destruct (String.eqb s "").
  - destruct (ParseInt10 64 t) as [n|]; [|done]. destruct (n <=? 0); [done|].
    repeat f_equal. destruct (Z.ltb_spec size n); lia.
  - destruct (ParseInt10 64 s) as [x|]; [|done]. destruct (_ || _); [done|]. destruct (String.eqb t ""); [done|].
    destruct (ParseInt10 64 t) as [y|]; [|done]. destruct (y <? x); [done|].
    repeat f_equal. destruct (Z.leb_spec size y); lia.
Qed.

Lemma parse_accepts size h a b : byte_range size h a b → parseSingleRange h size = (a, b, true).
Proof.
  intros [s t x y Hd Hs Ht Hxy Hx|s x Hd Hs Hx|t n Ht Hn].
  - destruct (signed_no_comma _ _ Hs) as [Hne Hcs], (signed_no_comma _ _ Ht) as [Hne' Hct].
    change ("-" +:+ t) with (String "-" t). rewrite parse_shape by done.
    apply ParseInt10_spec in Hs, Ht. apply String.eqb_neq in Hne, Hne'. rewrite Hne, Hne', Hs, Ht.
    by rewrite (proj2 (Z.ltb_ge x 0)), (proj2 (Z.leb_gt size x)), (proj2 (Z.ltb_ge y x)) by lia.
  - destruct (signed_no_comma _ _ Hs) as [Hne Hcs]. rewrite (parse_shape s "") by done.
    apply ParseInt10_spec in Hs. apply String.eqb_neq in Hne. rewrite Hne, Hs.
    by rewrite (proj2 (Z.ltb_ge x 0)), (proj2 (Z.leb_gt size x)) by lia.
  - destruct (signed_no_comma _ _ Ht) as [Hne Hct]. change ("bytes=-" +:+ t) with ("bytes=" +:+ "" +:+ String "-" t).
    rewrite (parse_shape "" t) by done. apply ParseInt10_spec in Ht. by rewrite Ht, (proj2 (Z.leb_gt n 0)) by lia.
Qed.

Lemma parse_refuses size h a b : parseSingleRange h size = (a, b, true) → byte_range size h a b.
Proof.
  intros E. assert (∃ s t, h = "bytes=" +:+ s +:+ String "-" t ∧ str_mem "," s = false ∧ str_mem "," t = false ∧
    str_mem "-" s = false) as (s & t & -> & H1 & H2 & H3).
  { unfold parseSingleRange in E. destruct (HasPrefix h "bytes=") eqn:Hh; [|done]. apply HasPrefix_spec in Hh as [spec ->].
    rewrite (TrimPrefix_app "bytes="), Contains_one in E. cbn [negb] in E. destruct (str_mem "," spec) eqn:Hc; [done|].
    destruct (IndexByte spec "-") as [i|] eqn:Hi; [|done]. apply IndexByte_Some in Hi as [Hspec Hd].
    exists (str_take i spec), (str_drop (S i) spec). split; [by rewrite <-Hspec|]. rewrite Hspec, str_mem_app in Hc.
    apply orb_false_iff in Hc as [Hc1 Hc2]. cbn [str_mem] in Hc2. apply orb_false_iff in Hc2 as [_ Hc2]. done. }
  rewrite parse_shape in E by done. destruct (String.eqb_spec s "") as [->|Hs].
  - destruct (ParseInt10 64 t) as [n|] eqn:Hn; [|done]. destruct (Z.leb_spec n 0); [done|]. injection E as <- <-.
    apply ParseInt10_spec in Hn. by apply (range_suffix size t n).
  - destruct (ParseInt10 64 s) as [x|] eqn:Hx; [|done]. apply ParseInt10_spec in Hx.
    destruct ((x <? 0) || (size <=? x)) eqn:Hr; [done|]. destruct (String.eqb_spec t "") as [->|Ht].
    + injection E as <- <-. apply (range_from size s x); [done|done|lia].
    + destruct (ParseInt10 64 t) as [y|] eqn:Hy; [|done]. apply ParseInt10_spec in Hy.
      destruct (Z.ltb_spec y x); [done|]. injection E as <- <-. apply (range_from_to size s t x y); [done|done|done|lia|lia].
Qed.

(** The parser accepts the ranges of [byte_range], and nothing else. *)
Lemma parseSingleRange_spec size h a b : parseSingleRange h size = (a, b, true) ↔ byte_range size h a b.
Proof. split; [apply parse_refuses|apply parse_accepts]. Qed.

Lemma parseSingleRange_sound h size a b :
  0 <= size → parseSingleRange h size = (a, b, true) →
  0 <= a <= b ∧ b < size ∨ size = 0 ∧ a = 0 ∧ b = -1.
Proof. rewrite parseSingleRange_spec. apply byte_range_inside. Qed.

Lemma signed_Itoa n : in_s 64 n → signed_number (Itoa n) n.
Proof. intros Hn. apply ParseInt10_spec. exact (Atoi_Itoa n Hn). Qed.

Lemma ParseInt10_large n : 2 ^ 63 <= n → ParseInt10 64 (Itoa n) = None.
Proof.
  intros Hn. pose proof (Itoa_mem "-" n eq_refl ltac:(lia)) as H1. pose proof (Itoa_mem "+" n eq_refl ltac:(lia)) as H2.
  assert (number (Itoa n) n) as Hnum.
  { apply parse_uint_spec. unfold Itoa. rewrite (proj2 (Z.ltb_ge n 0)) by lia. apply parse_utoa. lia. }
  destruct (ParseInt10 64 (Itoa n)) as [m|] eqn:E; [|done].
  apply ParseInt10_spec in E as [Hr [H|[(t & Et & _)|(t & Et & _)]]]; [|by rewrite Et in H2|by rewrite Et in H1].
  destruct H as (_ & _ & ->), Hnum as (_ & _ & Hv). unfold in_s in Hr. lia.
Qed.

Lemma comma_refused size h : str_mem "," h = true → (parseSingleRange h size).2 = false.
Proof.
  intros Hc. unfold parseSingleRange. destruct (HasPrefix h "bytes=") eqn:Hh; [|done]. apply HasPrefix_spec in Hh as [spec ->].
  rewrite (TrimPrefix_app "bytes="), Contains_one. rewrite str_mem_app in Hc. cbn in Hc |- *. by rewrite Hc.
Qed.

Lemma comma_or s t size :
  (str_mem "," s = false → str_mem "," t = false → (parseSingleRange ("bytes=" +:+ s +:+ "-" +:+ t) size).2 = false) →
  (parseSingleRange ("bytes=" +:+ s +:+ "-" +:+ t) size).2 = false.
Proof.
  intros H. destruct (str_mem "," s) eqn:Es; [|destruct (str_mem "," t) eqn:Et; [|by apply H]];
    apply comma_refused; rewrite !str_mem_app, ?Es, ?Et; cbn; by rewrite ?orb_true_r.
Qed.

Lemma beyond_refused a t size :
  0 <= size → size <= a < 2 ^ 63 → (parseSingleRange ("bytes=" +:+ Itoa a +:+ "-" +:+ t) size).2 = false.
Proof.
  intros Hs Ha. apply comma_or. intros H1 H2. change ("-" +:+ t) with (String "-" t).
  rewrite parse_shape by (done || (apply Itoa_mem; [done|lia])).
  rewrite (proj2 (ParseInt10_spec _ _) (signed_Itoa a ltac:(unfold in_s; lia))).
  destruct (String.eqb_spec (Itoa a) "") as [E|_]; [by apply Itoa_nonempty in E|].
  by rewrite (proj2 (Z.leb_le size a)), orb_true_r by lia.
Qed.

Lemma large_refused s n size :
  str_mem "-" s = false → 2 ^ 63 <= n → (parseSingleRange ("bytes=" +:+ s +:+ "-" +:+ Itoa n) size).2 = false.
Proof.
  intros Hs Hn. apply comma_or. intros H1 H2. change ("-" +:+ Itoa n) with (String "-" (Itoa n)).
  rewrite parse_shape, (ParseInt10_large n Hn) by done.
  destruct (String.eqb_spec (Itoa n) "") as [E|_]; [by apply Itoa_nonempty in E|]. by repeat case_match.
Qed.

(** ** Routing *)

Lemma account_no_slash a : isAccountSegment a = true → str_mem "/" a = false.
Proof.
  unfold isAccountSegment. rewrite !andb_true_iff. intros [_ H]. induction a as [|c a IH]; [done|].
  simpl in H. apply andb_true_iff in H as [Hc Ha]. simpl. rewrite IH by done.
  by destruct c as [[] [] [] [] [] [] [] []].
Qed.

Lemma route_direct r c b :
  URL_Path r = "/" +:+ c +:+ String "/" b → str_mem "/" c = false → isAccountSegment c = false →
  route_path r = c +:+ String "/" b.
Proof.
  intros E Hc Ha. unfold route_path. rewrite E, (TrimPrefix_app "/"), IndexByte_app by done.
  by rewrite str_take_app, Ha.
Qed.

Lemma route_account r a rest :
  URL_Path r = "/" +:+ a +:+ String "/" rest → isAccountSegment a = true → route_path r = rest.
Proof.
  intros E Ha. unfold route_path. rewrite E, (TrimPrefix_app "/"), IndexByte_app by (by apply account_no_slash).
  by rewrite str_take_app, Ha, str_drop_sep.
Qed.

(** The names of storage accounts: 3 to 24 lower-case letters and digits. *)
Definition account_name (s : string) : Prop :=
  (3 <= String.length s <= 24)%nat ∧
  ∀ c, c ∈ String.list_ascii_of_string s → (97 <= N_of_ascii c <= 122 ∨ 48 <= N_of_ascii c <= 57)%N.

Lemma account_byte_spec c : account_byte c = true ↔ (97 <= N_of_ascii c <= 122 ∨ 48 <= N_of_ascii c <= 57)%N.
Proof. unfold account_byte, is_lower, is_digit, between. rewrite orb_true_iff, !andb_true_iff, !N.leb_le. lia. Qed.

Lemma all_bytes_spec p s : all_bytes p s = true ↔ ∀ c, c ∈ String.list_ascii_of_string s → p c = true.
Proof.
  induction s as [|c s IH]; cbn; [by setoid_rewrite elem_of_nil; naive_solver|].
  rewrite andb_true_iff, IH. setoid_rewrite elem_of_cons. naive_solver.
Qed.

Lemma isAccountSegment_spec s : isAccountSegment s = true ↔ account_name s.
Proof.
  unfold isAccountSegment, account_name. rewrite !andb_true_iff, !Nat.leb_le, all_bytes_spec. setoid_rewrite account_byte_spec.
  naive_solver.
Qed.

Lemma not_account s : ¬ account_name s → isAccountSegment s = false.
Proof. intros H. apply not_true_is_false. by rewrite isAccountSegment_spec. Qed.

(** The paths of the REST API: the account is the first segment, or it is in
    the host's name and the path starts with the container.  The second form is
    read off only when the container's name is not an account's. *)
Definition addresses (r : Request) (container blob : string) : Prop :=
  str_mem "/" container = false ∧
  ((∃ a, account_name a ∧ URL_Path r = "/" +:+ a +:+ "/" +:+ container +:+ "/" +:+ blob) ∨
   ¬ account_name container ∧ URL_Path r = "/" +:+ container +:+ "/" +:+ blob).
Definition at_container (r : Request) (container : string) : Prop :=
  str_mem "/" container = false ∧ container ≠ "" ∧
  ((∃ a, account_name a ∧ URL_Path r = "/" +:+ a +:+ "/" +:+ container) ∨
   ¬ account_name container ∧ URL_Path r = "/" +:+ container).
Definition at_account (r : Request) : Prop :=
  URL_Path r = "/" ∨ ∃ a, account_name a ∧ (URL_Path r = "/" +:+ a ∨ URL_Path r = "/" +:+ a +:+ "/").

Lemma addresses_route r c b : addresses r c b → str_mem "/" c = false ∧ route_path r = c +:+ String "/" b.
Proof.
  intros [Hc [(a & Ha & E)|[Ha E]]]; (split; [done|]).
  - apply (route_account r a); [done|by apply isAccountSegment_spec].
  - by apply route_direct; [..|apply not_account].
Qed.

Lemma at_container_route r c : at_container r c → route_path r = c ∧ c ≠ "" ∧ str_mem "/" c = false.
Proof.
  intros (Hc & Hne & [(a & Ha & E)|[Ha E]]); (split; [|done]).
  - apply (route_account r a); [done|by apply isAccountSegment_spec].
  - unfold route_path. rewrite E, (TrimPrefix_app "/"), (proj2 (IndexByte_None c "/")), not_account by done. done.
Qed.

Lemma at_account_route r : at_account r → route_path r = "".
Proof.
  intros [E|(a & Ha & [E|E])].
  - unfold route_path. by rewrite E.
  - apply isAccountSegment_spec in Ha. unfold route_path. rewrite E, (TrimPrefix_app "/").
    by rewrite (proj2 (IndexByte_None a "/")), Ha by (by apply account_no_slash).
  - by apply (route_account r a); [|apply isAccountSegment_spec].
Qed.

Lemma addresses_blob `{Storage_ St} now tick r c b (s : St) :
  addresses r c b →
  ServeHTTP now tick r s =
    if String.eqb (Method r) "PUT" then
      if negb (String.eqb (Header_Get r "x-ms-copy-source") "") then copyBlob now tick r c b s
      else putBlob now tick r c b s
    else if String.eqb (Method r) "GET" then getBlob tick r c b s
    else if String.eqb (Method r) "HEAD" then headBlob tick r c b s
    else if String.eqb (Method r) "DELETE" then deleteBlob tick r c b s
    else (s, Some (writeError tick ∅ 405 "InvalidInput" (Method r +:+ " not allowed on blob"))).
Proof.
  intros [Hc Hp]%addresses_route. unfold ServeHTTP. rewrite Hp, IndexByte_app, str_take_app, str_drop_sep by done.
  assert (String.eqb (c +:+ String "/" b) "" = false) as ->; [|done]. by destruct c.
Qed.

(** ** Reading a blob back *)

(** The bytes [a..b] of a blob, both included. *)
Definition slice_of (data : bytes) (a b : Z) : bytes := take (Z.to_nat (b - a + 1)) (drop (Z.to_nat a) data).

(** The headers that describe a blob that was put with the headers [hput]. *)
Definition describes (hput : gmap string (list string)) (ctype : string) (modified : Time) (length : Z)
    (h : gmap string string) : Prop :=
  h !! "Content-Type" = Some (or_default ctype "application/octet-stream") ∧
  (0 < length → h !! "Content-Length" = Some (Itoa length)) ∧
  (modified ≠ zeroTime → h !! "Last-Modified" = Some (Format_http modified)) ∧
  (∀ n v vs, hput !! ("X-Ms-Meta-" +:+ n) = Some (v :: vs) → h !! ("X-Ms-Meta-" +:+ n) = Some v).

Lemma or_default_idem s d : or_default (or_default s d) d = or_default s d.
Proof. unfold or_default. destruct (String.eqb s "") eqn:E; [by destruct (String.eqb d "")|by rewrite E]. Qed.

Lemma or_default_ne s d : d ≠ "" → String.eqb (or_default s d) "" = false.
Proof. intros Hd. apply String.eqb_neq. by apply or_default_nonempty. Qed.

Lemma writeBlobHeaders_describes hput ctype now c blob data etag body :
  canonical_headers hput →
  let o := mkObjectState data (or_default ctype "application/octet-stream") (extractMetadata hput) now etag in
  describes hput ctype now (Z.of_nat (length data)) (writeBlobHeaders (object_of c blob o body) ∅).
Proof.
  intros Hc o. unfold writeBlobHeaders, object_of. cbn [Object_ContentType Object_Size Object_ETag
    Object_LastModified Object_Metadata o obj_data obj_contentType obj_metadata obj_lastModified obj_etag].
  assert (copyMeta (extractMetadata hput) = extractMetadata hput) as -> by apply copy_map_id.
  rewrite or_default_idem. unfold describes.
  change "Content-Type" with (CanonicalHeaderKey "Content-Type").
  change "Content-Length" with (CanonicalHeaderKey "Content-Length").
  change "Last-Modified" with (CanonicalHeaderKey "Last-Modified"). change "x-ms-meta-" with (ToLower "X-Ms-Meta-").
  pose proof (λ H0 x, metadata_headers_other "X-Ms-Meta-" hput Hc _ (extract_default hput) H0 x) as Hother.
  rewrite !Hother by done.
  set (h1 := Set_ "Content-Type" (or_default ctype "application/octet-stream") ∅).
  set (h2 := if 0 <? Z.of_nat (length data) then Set_ "Content-Length" (Itoa (Z.of_nat (length data))) h1 else h1).
  set (h3 := if String.eqb (quoteETag etag) "" then h2 else Set_ "ETag" (quoteETag etag) h2).
  set (h4 := if now =? zeroTime then h3 else Set_ "Last-Modified" (Format_http now) h3).
  assert (∀ x, CanonicalHeaderKey "Content-Length" ≠ x → h2 !! x = h1 !! x) as E2.
  { intros x Hx. unfold h2. destruct (0 <? _); [by rewrite Set_ne|done]. }
  assert (∀ x, CanonicalHeaderKey "ETag" ≠ x → h3 !! x = h2 !! x) as E3.
  { intros x Hx. unfold h3. destruct (String.eqb _ ""); [done|by rewrite Set_ne]. }
  assert (∀ x, CanonicalHeaderKey "Last-Modified" ≠ x → h4 !! x = h3 !! x) as E4.
  { intros x Hx. unfold h4. destruct (now =? zeroTime); [done|by rewrite Set_ne]. }
  split_and!.
  - rewrite Set_ne, E4, E3, E2 by (vm_compute; congruence). unfold h1. apply Set_eq.
  - intros Hl. rewrite Set_ne, E4, E3 by (vm_compute; congruence). unfold h2.
    rewrite (proj2 (Z.ltb_lt 0 _)) by done. apply Set_eq.
  - intros Hm. rewrite Set_ne by (vm_compute; congruence). unfold h4.
    rewrite (proj2 (Z.eqb_neq now _)) by done. apply Set_eq.
  - intros n v vs Hn. by apply (metadata_headers "X-Ms-Meta-" hput Hc _ (extract_default hput) _ n v vs).
Qed.

Lemma not_meta k n : HasPrefix (CanonicalHeaderKey k) "C" = true → CanonicalHeaderKey k ≠ "X-Ms-Meta-" +:+ n.
Proof. intros H E. by rewrite E in H. Qed.

Lemma describes_range hput ct m len h v :
  describes hput ct m len h → describes hput ct m len (Set_ "Content-Range" v h).
Proof.
  intros (H1 & H2 & H3 & H4). split_and!; intros; rewrite Set_ne; eauto; by (apply not_meta || vm_compute).
Qed.

Lemma describes_length hput ct m len h n :
  describes hput ct m len h → describes hput ct m n (Set_ "Content-Length" (Itoa n) h).
Proof.
  intros (H1 & H2 & H3 & H4). split_and!; intros; [|apply (Set_eq "Content-Length")|..];
    rewrite Set_ne; eauto; by (apply not_meta || vm_compute).
Qed.

Lemma Content_Range_value h v : Set_ "Content-Range" v h !! "Content-Range" = Some v.
Proof. apply (Set_eq "Content-Range"). Qed.

(** What a GET answers for an object that was put with [hput]. *)
Lemma getBlob_answers `{StorageLaws St} (s : St) tick r c blob hput ctype now etag data os :
  canonical_headers hput →
  contents s !! c = Some os →
  os !! blob = Some (mkObjectState data (or_default ctype "application/octet-stream") (extractMetadata hput) now etag) →
  let size := Z.of_nat (length data) in
  ∃ resp, getBlob tick r c blob s = (s, Some resp) ∧
    match String.eqb (Header_Get r "Range") "", parseSingleRange (Header_Get r "Range") size with
    | true, _ => Status resp = 200 ∧ RespBody resp = Raw data ∧ describes hput ctype now size (RespHeader resp)
    | false, (a, b, true) =>
        Status resp = 206 ∧ RespBody resp = Raw (slice_of data a b) ∧
        describes hput ctype now (b - a + 1) (RespHeader resp) ∧
        RespHeader resp !! "Content-Range" = Some ("bytes " +:+ Itoa a +:+ "-" +:+ Itoa b +:+ "/" +:+ Itoa size)
    | false, (_, _, false) =>
        Status resp = 416 ∧ RespBody resp =
          XmlError (mkApiError "InvalidRange" ("unparseable Range header: " +:+ Header_Get r "Range"))
    end.
Proof.
  intros Hc Hs Ho size. unfold getBlob, answer. rewrite law_Get. unfold get_spec. rewrite Hs, Ho. cbn [fst snd].
  unfold object_of at 1. cbn [Object_Body].
  set (o := mkObjectState _ _ _ _ _).
  pose proof (writeBlobHeaders_describes hput ctype now c blob data etag (Some data) Hc) as Hd. cbv zeta in Hd.
  fold o in Hd. change (obj_data o) with data. set (obj := object_of c blob o (Some data)) in *.
  change (Object_Size obj) with size in *. destruct (String.eqb (Header_Get r "Range") "") eqn:Er.
  - eexists. split; [reflexivity|]. cbn [Status RespBody RespHeader]. split_and!; [done..|].
    by apply describes_range.
  - destruct (parseSingleRange (Header_Get r "Range") size) as [[a b] []] eqn:Ep; cbn [negb].
    2: { eexists. split; [reflexivity|]. done. }
    assert (0 <= size) as Hsz by lia.
    pose proof (parseSingleRange_sound _ _ _ _ Hsz Ep) as Hab.
    assert ((if 0 <? a then CopyN data a else ([], data, true)) =
            (if 0 <? a then take (Z.to_nat a) data else [], drop (Z.to_nat a) data, true)) as ->.
    { unfold CopyN. destruct (Z.ltb_spec 0 a); [|by replace (Z.to_nat a) with 0%nat by lia].
      rewrite (proj2 (Z.leb_le a _)) by (fold size; lia). done. }
    cbn [negb]. eexists. split; [reflexivity|]. cbn [Status RespBody RespHeader]. split_and!; [done|done| |].
    + apply describes_range. by eapply describes_length.
    + apply Content_Range_value.
Qed.

(** The content type a PUT sends. *)
Definition content_type_of (r : Request) : string :=
  or_default (Header_Get r "Content-Type") (Header_Get r "x-ms-blob-content-type").

Lemma putBlob_stores `{StorageLaws St} (s : St) now tick r c blob data os :
  contents s !! c = Some os → Body r = Some (GoHttp.Reads data) →
  ∃ etag s' resp, putBlob now tick r c blob s = (s', Some resp) ∧ Status resp = 201 ∧ RespBody resp = Raw [] ∧
    contents s' = <[c := <[blob := mkObjectState data (or_default (content_type_of r) "application/octet-stream")
                             (extractMetadata (Header r)) now etag]> os]> (contents s).
Proof.
  intros Hs Hb. unfold putBlob, answer.
  destruct (law_Put now (mkPutObjectOptions c blob (to_reader <$> Body r) (content_type_of r)
    (extractMetadata (Header r))) data os s) as (etag & s' & E & Hc); [by rewrite Hb|done|].
  fold (content_type_of r). rewrite E. exists etag, s'. eexists. split; [reflexivity|]. done.
Qed.

(** ** Listing over HTTP *)

(** A client's listing request. *)
Definition list_request (r0 : Request) (marker : string) : Request :=
  mkRequest "GET" (Host r0) (URL_Host r0) (URL_Path r0) (RawPath r0) (EscapedPath r0) (RawQuery r0)
    (<["marker" := [marker]]> (Query r0)) (Header r0) (ContentLength r0) (Body r0).

(** The client's loop: pages until one has no marker. *)
Fixpoint list_blobs_all (fuel : nat) (now tick : Time) (r0 : Request) (marker : string) (b : Backend)
    : option (list blobXML * list blobPrefixXML) :=
  match fuel with
  | O => None
  | S fuel =>
      match (ServeHTTP now tick (list_request r0 marker) b).2 with
      | Some (mkResponse 200 _ (XmlBlobs page)) =>
          if String.eqb (lbs_NextMarker page) "" then Some (lbs_Blobs page, lbs_BlobPrefix page)
          else match list_blobs_all fuel now tick r0 (lbs_NextMarker page) b with
               | Some (bs, ps) => Some (lbs_Blobs page ++ bs, lbs_BlobPrefix page ++ ps)
               | None => None
               end
      | _ => None
      end
  end.

(** A request that lists a container. *)
Definition lists (r : Request) (container : string) : Prop :=
  at_container r container ∧ Query_Get (Query r) "restype" = "container" ∧ Query_Get (Query r) "comp" = "list".

Lemma lists_serves now tick r0 marker c b :
  lists r0 c → ServeHTTP now tick (list_request r0 marker) b = listBlobs tick (list_request r0 marker) c b.
Proof.
  intros ((Hp & Hne & Hs)%at_container_route & Hr & Hc). unfold ServeHTTP.
  assert (route_path (list_request r0 marker) = c) as -> by exact Hp.
  assert (∀ k, k ≠ "marker" → Query_Get (Query (list_request r0 marker)) k = Query_Get (Query r0) k) as Hq.
  { intros k Hk. unfold Query_Get. cbn [Query list_request]. by rewrite lookup_insert_ne. }
  rewrite !Hq, Hr, Hc by done. rewrite (proj2 (String.eqb_neq c "")) by done.
  rewrite (proj2 (IndexByte_None c "/")) by done. done.
Qed.

Definition list_options (r0 : Request) (c marker : string) : ListObjectsOptions :=
  list_blobs_options (list_request r0 marker) c.

Lemma list_options_token r0 c m1 m2 :
  list_options r0 c m2 = with_token (list_options r0 c m1) m2.
Proof.
  unfold list_options, list_blobs_options, with_token, Query_Get. cbn [Query list_request lo_Bucket lo_Prefix
    lo_Delimiter lo_StartAfter lo_NextToken lo_MaxResults].
  by rewrite !lookup_insert_eq, !lookup_insert_ne by done.
Qed.

(** The HTTP loop returns what the loop over the backend returns. *)
Lemma list_blobs_all_is fuel now tick r0 c marker b st :
  lists r0 c → buckets b !! c = Some st → bk_objects st !! "" = None →
  list_blobs_all fuel now tick r0 marker b =
    (λ x : list ObjectMetadata * list string, (blob_xml <$> x.1, mkBlobPrefixXML <$> x.2)) <$>
      list_all fuel (list_options r0 c marker) b.
Proof.
  intros Hl Hb Hne. revert marker. induction fuel as [|fuel IH]; intros marker; [done|].
  cbn [list_blobs_all list_all]. rewrite (lists_serves now tick r0 marker c b Hl). unfold listBlobs, answer.
  change (list_blobs_options (list_request r0 marker) c) with (list_options r0 c marker).
  destruct (ListObjects_page (list_options r0 c marker) b st Hb)
    as (l1 & l2 & r & Hk & E & _ & _ & _ & _ & Hdone & Hmore).
  cbn [st_ListObjects inmem_storage]. rewrite E. cbn [fst snd]. unfold writeXML. cbn [lbs_NextMarker lbs_Blobs lbs_BlobPrefix].
  destruct (lor_IsTruncated r) eqn:Ht.
  - destruct (Hmore eq_refl) as (_ & _ & l0 & ->).
    assert (is_Some (bk_objects st !! lor_NextToken r)) as [o Ho].
    { assert (lor_NextToken r ∈ (l0 ++ [lor_NextToken r]) ++ l2) as Hin by set_solver.
      rewrite <-Hk in Hin. by apply elem_of_list_keys in Hin as [? _]. }
    rewrite (proj2 (String.eqb_neq _ "")) by (intros Hz; rewrite Hz in Ho; congruence).
    rewrite IH, <-(list_options_token r0 c marker).
    destruct (list_all fuel _ b) as [[os ps]|]; [|done]. cbn. by rewrite !fmap_app.
  - destruct (Hdone eq_refl) as [_ ->]. done.
Qed.

(** ** Answers *)

(** The handlers over the in-process backend: an answer always, and no change
    when the answer is an error or the method only reads. *)
Definition answered (b : Backend) (m : string) (x : Backend * option Response) : Prop :=
  ∃ resp, x.2 = Some resp ∧ (m ≠ "PUT" → m ≠ "DELETE" → x.1 = b) ∧ (400 <= Status resp → x.1 = b).

Lemma mapDomainError_status tick h e : 400 <= Status (mapDomainError tick h e).
Proof. unfold mapDomainError, writeError. repeat case_match; done. Qed.

Lemma answer_answered {A} b m tick (c : Backend * result A) (k : A → option Response) (o : op) :
  forget c = run o b → ((m = "PUT" ∨ m = "DELETE") ∨ c.1 = b) →
  (∀ a, c.2 = Ok a → ∃ resp, k a = Some resp ∧ (Status resp < 400 ∨ c.1 = b)) →
  answered b m (answer tick c k).
Proof.
  intros Ho Hm Hk. unfold answered, answer. cbn [fst snd].
  pose proof (run_no_panic o b) as Hp. pose proof (run_err_same o b) as He. rewrite <-Ho in Hp, He.
  unfold forget in Hp, He. cbn [fst snd] in Hp, He.
  assert (m ≠ "PUT" → m ≠ "DELETE" → c.1 = b) as Hr by naive_solver.
  destruct (c.2) as [a|e|]; cbn in Hp, He; [|..|done].
  - destruct (Hk a eq_refl) as (resp & -> & Hs). exists resp. split_and!; [done..|]. intros ?. destruct Hs; [lia|done].
  - exists (mapDomainError tick ∅ e). split_and!; [done..|]. intros _. by eapply He.
Qed.

Lemma handlers_answered b now tick r c k :
  answered b "GET" (listContainers tick r b) ∧ answered b "PUT" (createContainer now tick r c b) ∧
  answered b "GET" (getContainerProperties tick r c b) ∧ answered b "DELETE" (deleteContainer tick r c b) ∧
  answered b "GET" (listBlobs tick r c b) ∧ answered b "PUT" (putBlob now tick r c k b) ∧
  answered b "GET" (getBlob tick r c k b) ∧ answered b "GET" (headBlob tick r c k b) ∧
  answered b "DELETE" (deleteBlob tick r c k b) ∧ answered b "PUT" (copyBlob now tick r c k b).
Proof.
  unfold listContainers, createContainer, getContainerProperties, deleteContainer, listBlobs, putBlob, getBlob,
    headBlob, deleteBlob, copyBlob. cbn [st_ListBuckets st_CreateBucket st_HeadBucket st_DeleteBucket st_ListObjects
    st_PutObject st_GetObject st_HeadObject st_DeleteObject st_CopyObject inmem_storage].
  assert (∀ bk key, (GetObject bk key b).1 = b) as Hget by (intros; unfold GetObject; repeat case_match; done).
  assert (∀ bk key, (HeadObject bk key b).1 = b) as Hhead by (intros; unfold HeadObject; repeat case_match; done).
  assert (∀ opt, (ListObjects opt b).1 = b) as Hlist by (intros; unfold ListObjects; repeat case_match; done).
  assert (∀ n, (HeadBucket n b).1 = b) as Hhb by (intros; unfold HeadBucket; repeat case_match; done).
  split_and!.
  - eapply (answer_answered b _ _ _ _ (OpListBuckets (mkListBucketsOptions "" "" 0 ""))); [reflexivity|by right|]. intros a _. eexists. split; [reflexivity|by left].
  - eapply (answer_answered b _ _ _ _ (OpCreateBucket _ _ _)); [reflexivity|by left; left|]. intros a _. eexists. split; [reflexivity|by left].
  - eapply (answer_answered b _ _ _ _ (OpHeadBucket _)); [reflexivity|by right|]. intros a _. eexists. split; [reflexivity|by left].
  - eapply (answer_answered b _ _ _ _ (OpDeleteBucket _)); [reflexivity|by left; right|]. intros a _. eexists. split; [reflexivity|by left].
  - eapply (answer_answered b _ _ _ _ (OpListObjects _)); [reflexivity|by right|]. intros a _. eexists. split; [reflexivity|by left].
  - eapply (answer_answered b _ _ _ _ (OpPutObject _ _)); [reflexivity|by left; left|]. intros a _. eexists. split; [reflexivity|by left].
  - eapply (answer_answered b _ _ _ _ (OpGetObject _ _)); [reflexivity|by right|]. intros a Ha.
    unfold GetObject in Ha. destruct (buckets b !! c); [|done]. destruct (bk_objects _ !! k); [|done].
    injection Ha as <-. cbn [object_of Object_Body].
    repeat case_match; eexists; (split; [reflexivity|by right]).
  - eapply (answer_answered b _ _ _ _ (OpHeadObject _ _)); [reflexivity|by right|]. intros a _. eexists. split; [reflexivity|by left].
  - eapply (answer_answered b _ _ _ _ (OpDeleteObject _ _)); [reflexivity|by left; right|]. intros a _. eexists. split; [reflexivity|by left].
  - destruct (parseCopySource _) as [[sc sb] []]; cbn [negb]; [|by eexists].
    eapply (answer_answered b _ _ _ _ (OpCopyObject _ _)); [reflexivity|by left; left|]. intros a _. eexists. split; [reflexivity|by left].
Qed.

Lemma answered_method b m m' x : (m' ≠ "PUT" → m ≠ "PUT") → (m' ≠ "DELETE" → m ≠ "DELETE") → answered b m x → answered b m' x.
Proof. intros H1 H2 (resp & E & Hr & He). exists resp. split_and!; [done| |done]. auto. Qed.

(** ** Properties *)

(** C16: A blob put through the frontend is read back, over any backend that
    keeps the contract of [domain.Storage].  The paths are /account/container/blob,
    where the account's name is 3 to 24 lower-case letters and digits, and
    /container/blob, where the container's name is not of that form (one that
    is would be taken for the account).  After a PUT to an existing
    container is answered 201, a GET of the same blob, at either path,
    leaves the state alone and answers 200 with the bytes that were sent; with
    a Range header 206 with exactly the bytes of the range and the Content-Range
    that says so, or 416 when it is no range that is accepted; content type,
    length, modification time and every x-ms-meta- header come back. *)
Theorem blobs_round_trip {St} `{StorageLaws St} (s : St) (now now' tick tick' : Time) (put get : Request)
    (container blob : string) (data : bytes) (os : gmap string objectState) :
  addresses put container blob → addresses get container blob →
  Method put = "PUT" → Header_Get put "x-ms-copy-source" = "" → canonical_headers (Header put) →
  Body put = Some (GoHttp.Reads data) → Method get = "GET" → contents s !! container = Some os →
  let size := Z.of_nat (length data) in
  let rng := Header_Get get "Range" in
  let s1 := (ServeHTTP now tick put s).1 in
  ∃ created got, (ServeHTTP now tick put s).2 = Some created ∧ Status created = 201 ∧
    ServeHTTP now' tick' get s1 = (s1, Some got) ∧
    (rng = "" → Status got = 200 ∧ RespBody got = Raw data ∧
       describes (Header put) (content_type_of put) now size (RespHeader got)) ∧
    (∀ a b, byte_range size rng a b → Status got = 206 ∧ RespBody got = Raw (slice_of data a b) ∧
       describes (Header put) (content_type_of put) now (b - a + 1) (RespHeader got) ∧
       RespHeader got !! "Content-Range" = Some ("bytes " +:+ Itoa a +:+ "-" +:+ Itoa b +:+ "/" +:+ Itoa size)) ∧
    (rng ≠ "" → (∀ a b, ¬ byte_range size rng a b) → Status got = 416 ∧
       RespBody got = XmlError (mkApiError "InvalidRange" ("unparseable Range header: " +:+ rng))).
Proof.
  intros Hput Hget Hm Hcs Hc Hb Hm' Hs size rng s1.
  assert (ServeHTTP now tick put s = putBlob now tick put container blob s) as Eput.
  { rewrite (addresses_blob _ _ _ _ _ _ Hput), Hm, Hcs. done. }
  destruct (putBlob_stores s now tick put container blob data os Hs Hb) as (etag & s' & resp & E & H201 & _ & Hcont).
  subst s1. rewrite Eput, E. cbn [fst snd]. rewrite (addresses_blob _ _ _ _ _ _ Hget), Hm'. cbn [String.eqb Ascii.eqb Bool.eqb].
  destruct (getBlob_answers s' tick' get container blob (Header put) (content_type_of put) now etag data
    (<[blob := mkObjectState data (or_default (content_type_of put) "application/octet-stream")
                 (extractMetadata (Header put)) now etag]> os) Hc) as (got & Eg & Hgot).
  { by rewrite Hcont, lookup_insert_eq. }
  { by rewrite lookup_insert_eq. }
  exists resp, got. split_and!; [done..| | |]; fold size rng in Hgot.
  - intros Er. rewrite Er in Hgot. exact Hgot.
  - intros a b Hab. assert (String.eqb rng "" = false) as Er by (by destruct Hab).
    apply parseSingleRange_spec in Hab. by rewrite Er, Hab in Hgot.
  - intros Er Hab. apply String.eqb_neq in Er. rewrite Er in Hgot.
    destruct (parseSingleRange rng size) as [[a b] []] eqn:Ep; [|done]. by apply parseSingleRange_spec, Hab in Ep.
Qed.

(** C20: Range headers: exactly these are accepted, for a blob of any int64 size.
    "bytes=s-t", from s to t or the last byte, where s is not past t and inside
    the blob; "bytes=s-", from s to the last byte; and "bytes=-n", the last n
    bytes, or all when there are fewer, for a positive n.  The numbers are what
    strconv.ParseInt reads as an int64.  An accepted range lies inside the blob,
    except that the last n bytes of an empty blob are the range from 0 to -1.
    These are the single byte ranges of RFC 9110 with five differences: several
    ranges are refused, t and n of 2^63 or more are refused where the RFC cuts
    them at the end, the unit is read in lower case only, the empty blob has a
    last byte, and signs are read: +1 is 1 and a t of -0 is 0. *)
Theorem ranges_parsed (size : Z) :
  0 <= size < 2 ^ 63 →
  (∀ h a b, parseSingleRange h size = (a, b, true) ↔ byte_range size h a b) ∧
  (∀ h a b, byte_range size h a b → 0 <= a <= b ∧ b < size ∨ size = 0 ∧ a = 0 ∧ b = -1) ∧
  (∀ a b, 0 <= a < size → a <= b < 2 ^ 63 →
     byte_range size ("bytes=" +:+ Itoa a +:+ "-" +:+ Itoa b) a (Z.min b (size - 1))) ∧
  (∀ a, 0 <= a < size → byte_range size ("bytes=" +:+ Itoa a +:+ "-") a (size - 1)) ∧
  (∀ n, 0 < n < 2 ^ 63 → byte_range size ("bytes=-" +:+ Itoa n) (size - Z.min n size) (size - 1)) ∧
  (∀ h, str_mem "," h = true → (parseSingleRange h size).2 = false) ∧
  (∀ a t, size <= a < 2 ^ 63 → (parseSingleRange ("bytes=" +:+ Itoa a +:+ "-" +:+ t) size).2 = false) ∧
  (∀ s n, str_mem "-" s = false → 2 ^ 63 <= n → (parseSingleRange ("bytes=" +:+ s +:+ "-" +:+ Itoa n) size).2 = false).
Proof.
  intros Hs. split; [intros; apply parseSingleRange_spec|]. split; [intros h a b; apply byte_range_inside; lia|].
  split; [intros a b Ha Hb; by apply range_from_to; try apply Itoa_mem; try apply signed_Itoa; unfold in_s; try lia|].
  split; [intros a Ha; by apply range_from; try apply Itoa_mem; try apply signed_Itoa; unfold in_s; try lia|].
  split; [intros n Hn; apply range_suffix; [apply signed_Itoa; unfold in_s|]; lia|].
  split; [apply comma_refused|]. split; intros.
  - apply beyond_refused; lia.
  - by apply large_refused.
Qed.

(** A client that lists a container over HTTP and follows the markers gets
    every blob with the prefix that is not rolled up, once each and in order,
    and exactly the common prefixes of the others, for every page size; the
    loop ends after at most one page per blob.  (The container holds no blob
    with the empty name, which would end the loop early as a marker.) *)
Theorem listing_by_marker_complete (b : Backend) (now tick : Time) (r0 : Request) (container : string)
    (st : bucketState) :
  lists r0 container → buckets b !! container = Some st → bk_objects st !! "" = None →
  let prefix := Query_Get (Query r0) "prefix" in let delim := Query_Get (Query r0) "delimiter" in
  ∃ blobs prefixes, list_blobs_all (S (size (bk_objects st))) now tick r0 "" b = Some (blobs, prefixes) ∧
    StronglySorted str_lt (bx_Name <$> blobs) ∧
    (∀ x, x ∈ blobs ↔ ∃ k o, bk_objects st !! k = Some o ∧ HasPrefix k prefix = true ∧
       common_prefix prefix delim k = None ∧ x = blob_xml (metadata_of k o)) ∧
    (∀ p, mkBlobPrefixXML p ∈ prefixes ↔
       ∃ k, is_Some (bk_objects st !! k) ∧ HasPrefix k prefix = true ∧ common_prefix prefix delim k = Some p).
Proof.
  intros Hl Hb Hne prefix delim. rewrite (list_blobs_all_is _ _ _ _ container "" b st) by done.
  set (opt := list_options r0 container "").
  assert (lo_Prefix opt = prefix ∧ lo_Delimiter opt = delim ∧ effective_start opt = "") as (Ep & Ed & Es).
  { unfold opt, list_options, list_blobs_options, effective_start, Query_Get. cbn [Query list_request lo_Prefix
      lo_Delimiter lo_NextToken lo_StartAfter]. by rewrite lookup_insert_eq, !lookup_insert_ne by done. }
  destruct (list_all_spec opt b st Hb) as (os & cps & E & Hsort & Hos & Hcps); [|done|].
  { intros (_ & _ & _ & [o Ho] & _). congruence. }
  rewrite E, Ep, Ed in *. cbn. eexists _, _. split; [reflexivity|]. split_and!.
  - by rewrite <-list_fmap_compose.
  - intros x. rewrite list_elem_of_fmap. setoid_rewrite Hos. naive_solver.
  - intros p. rewrite list_elem_of_fmap, <-Hcps. split; [by intros (q & [= ->] & Hq)|eauto].
Qed.

(** Every request, whatever its method, path, query, headers and body, is
    answered: the handler never panics.  A request that is answered with an
    error, and any request that is not a PUT or a DELETE, leaves every bucket,
    object and upload as it was. *)
Theorem blob_requests_answered (b : Backend) (now tick : Time) (r : Request) :
  ∃ resp, (ServeHTTP now tick r b).2 = Some resp ∧
    (Method r ≠ "PUT" → Method r ≠ "DELETE" → (ServeHTTP now tick r b).1 = b) ∧
    (400 <= Status resp → (ServeHTTP now tick r b).1 = b).
Proof.
  change (answered b (Method r) (ServeHTTP now tick r b)). unfold ServeHTTP.
  assert (∀ resp, answered b (Method r) (b, Some resp)) as Hb by (intros resp; by exists resp).
  destruct (String.eqb (route_path r) "" && _) eqn:E0.
  { destruct (handlers_answered b now tick r "" "") as [H _].
    eapply (answered_method b "GET"); [done|done|exact H]. }
  clear E0. destruct (IndexByte (route_path r) "/") as [i|].
  - destruct (handlers_answered b now tick r (str_take i (route_path r)) (str_drop (S i) (route_path r)))
      as (_ & _ & _ & _ & _ & Hp & Hg & Hh & Hd & Hc).
    repeat match goal with |- context [String.eqb (Method r) ?m] =>
      destruct (String.eqb_spec (Method r) m) as [Em|] end;
      try (destruct (negb _)); try apply Hb; try (eapply answered_method; [..|eassumption]; rewrite ?Em; done).
  - destruct (handlers_answered b now tick r (route_path r) "") as (_ & Hcr & Hpr & Hde & Hli & _).
    cbv zeta. repeat match goal with
      | |- context [String.eqb (Query_Get ?q ?k) ?v] => destruct (String.eqb (Query_Get q k) v); rewrite ?andb_false_r, ?andb_true_r
      | |- context [String.eqb (Method r) ?m] => destruct (String.eqb_spec (Method r) m) as [Em|]; cbn [andb]
      end;
      try apply Hb; try (eapply answered_method; [..|eassumption]; rewrite ?Em; done).
Qed.

(** The REST form of an operation: method, path and query. *)
Definition rest_form (r : Request) (o : spec_op) : Prop :=
  let q := Query_Get (Query r) in
  let container c := at_container r c ∧ q "restype" = "container" in
  match o with
  | ServiceListContainersSegment => Method r = "GET" ∧ at_account r ∧ q "comp" = "list"
  | ContainerCreate c => Method r = "PUT" ∧ container c ∧ q "comp" = ""
  | ContainerGetProperties c => (Method r = "GET" ∨ Method r = "HEAD") ∧ container c ∧ q "comp" = ""
  | ContainerDelete c => Method r = "DELETE" ∧ container c ∧ q "comp" = ""
  | ContainerListBlobFlatSegment c => Method r = "GET" ∧ container c ∧ q "comp" = "list" ∧ q "delimiter" = ""
  | ContainerListBlobHierarchySegment c => Method r = "GET" ∧ container c ∧ q "comp" = "list" ∧ q "delimiter" ≠ ""
  | BlockBlobUpload c b => Method r = "PUT" ∧ addresses r c b ∧ q "comp" = "" ∧ Header_Get r "x-ms-copy-source" = ""
  | BlobDownload c b => Method r = "GET" ∧ addresses r c b ∧ q "comp" = ""
  | BlobGetProperties c b => Method r = "HEAD" ∧ addresses r c b ∧ q "comp" = ""
  | BlobDelete c b => Method r = "DELETE" ∧ addresses r c b ∧ q "comp" = ""
  | BlobStartCopyFromURL c b | BlobCopyFromURL c b =>
      Method r = "PUT" ∧ addresses r c b ∧ q "comp" = "" ∧ Header_Get r "x-ms-copy-source" ≠ ""
  | OutOfIntersection _ => False
  end.

Lemma container_serves {St} `{Storage_ St} now tick r c (s : St) :
  at_container r c → Query_Get (Query r) "restype" = "container" →
  ServeHTTP now tick r s =
    if String.eqb (Method r) "PUT" then createContainer now tick r c s
    else if String.eqb (Method r) "GET" && String.eqb (Query_Get (Query r) "comp") "list" then listBlobs tick r c s
    else if String.eqb (Method r) "GET" then getContainerProperties tick r c s
    else if String.eqb (Method r) "HEAD" then getContainerProperties tick r c s
    else if String.eqb (Method r) "DELETE" then deleteContainer tick r c s
    else (s, Some (writeError tick ∅ 400 "InvalidInput"
             ("unrecognised container-level request: " +:+ Method r +:+ " /" +:+ c +:+ "?" +:+ RawQuery r))).
Proof.
  intros (Hp & Hne & Hs)%at_container_route Hr. unfold ServeHTTP. rewrite Hp, Hr, (proj2 (String.eqb_neq c "")), (proj2 (IndexByte_None c "/")) by done.
  change (String.eqb "container" "container") with true. cbv zeta. by rewrite !andb_true_r.
Qed.

(** C19: The hand-written dispatcher and the generated interface agree: a request
    that is the REST form of an operation of the intersection - its method, the
    path of the account, container or blob, restype, comp, delimiter and the
    copy source - is served exactly as the interface's method for the operation
    serves it, over every backend.  The paths start with an account's name (3 to
    24 lower-case letters and digits), or with the container when its name is
    not of that form. *)
Theorem dispatch_agrees_with_spec {St} `{Storage_ St} (s : St) (now tick : Time) (r : Request) (o : spec_op) :
  rest_form r o → ServeHTTP now tick r s = serve_op now tick r o s.
Proof.
  unfold rest_form. destruct o; cbn [serve_op];
    try (intros (Hm & Ha & _ & Hc); rewrite (addresses_blob _ _ _ _ _ _ Ha), Hm;
         try rewrite Hc; try rewrite (proj2 (String.eqb_neq _ "") Hc); done);
    try (intros (Hm & Ha & _); rewrite (addresses_blob _ _ _ _ _ _ Ha), Hm; done);
    try done.
  - intros (Hm & Hp%at_account_route & Hc). unfold ServeHTTP. by rewrite Hp, Hm.
  - intros (Hm & (? & ?) & _). by rewrite (container_serves _ _ _ c), Hm.
  - intros (Hm & (? & ?) & Hc). rewrite (container_serves _ _ _ c), Hc by done. by destruct Hm as [-> | ->].
  - intros (Hm & (? & ?) & _). by rewrite (container_serves _ _ _ c), Hm.
  - intros (Hm & (? & ?) & Hc & _). by rewrite (container_serves _ _ _ c), Hc, Hm.
  - intros (Hm & (? & ?) & Hc & _). by rewrite (container_serves _ _ _ c), Hc, Hm.
Qed.

(** The dispatcher does not look at comp on a blob's path: a request that
    stages a block (comp=block), or sets metadata (comp=metadata), is served as an
    upload of the whole blob. *)
Lemma blob_comp_ignored {St} `{Storage_ St} (s : St) (now tick : Time) (r : Request) (c b : string) :
  addresses r c b → Method r = "PUT" → Header_Get r "x-ms-copy-source" = "" →
  ServeHTTP now tick r s = putBlob now tick r c b s.
Proof. intros Ha Hm Hc. by rewrite (addresses_blob _ _ _ _ _ _ Ha), Hm, Hc. Qed.

(** A URL of a blob on the account's host, and one with the account in the path. *)
Definition blob_url (host container blob : string) : string :=
  "https://" +:+ host +:+ String "/" (container +:+ String "/" blob).

Lemma Index_url t : Index ("https://" +:+ t) "://" = Some 5%nat.
Proof. done. Qed.

Lemma parseCopySource_url host rest :
  str_mem "/" host = false → str_mem "?" rest = false →
  parseCopySource ("https://" +:+ host +:+ String "/" rest) =
    let rest := strip_account rest in
    match IndexByte rest "/" with
    | None => ("", "", false)
    | Some slash => (str_take slash rest, str_drop (S slash) rest, true)
    end.
Proof.
  intros Hh Hq. unfold parseCopySource. rewrite Index_url.
  change (str_drop (5 + 3) ("https://" +:+ host +:+ String "/" rest)) with (host +:+ String "/" rest).
  rewrite IndexByte_app by done. cbv zeta. rewrite str_drop_app.
  change (String "/" rest) with ("/" +:+ rest). rewrite (TrimPrefix_app "/").
  by rewrite (proj2 (IndexByte_None rest "?")).
Qed.

(** Names that look like an account are taken for one.  A copy source
    "https://<host>/<container>/<blob>", the form the code documents, is read
    as that container and blob only when the container's name does not look
    like an account name (three to 24 lower-case letters and digits); when it
    does, the name is dropped, so that a blob "photos/2024/a.jpg" of another
    host becomes the blob "a.jpg" of a container "2024", and a blob without a
    slash is refused.  In the same way a request path without an account
    segment is served as if its container were the account. *)
Theorem container_taken_for_account (host container blob : string) (r : Request) :
  str_mem "/" host = false → str_mem "/" container = false → str_mem "?" container = false →
  str_mem "?" blob = false →
  (isAccountSegment container = false →
     parseCopySource (blob_url host container blob) = (container, blob, true) ∧
     (URL_Path r = "/" +:+ container +:+ String "/" blob → route_path r = container +:+ String "/" blob)) ∧
  (isAccountSegment container = true →
     (str_mem "/" blob = false → parseCopySource (blob_url host container blob) = ("", "", false)) ∧
     (∀ c' b', blob = c' +:+ String "/" b' → str_mem "/" c' = false →
        parseCopySource (blob_url host container blob) = (c', b', true)) ∧
     (URL_Path r = "/" +:+ container +:+ String "/" blob → route_path r = blob)).
Proof.
  intros Hh Hc Hq1 Hq2. unfold blob_url.
  rewrite parseCopySource_url by (rewrite ?str_mem_app; simpl; rewrite ?Hq1; done). unfold strip_account.
  rewrite IndexByte_app, str_take_app, str_drop_sep by done. split; intros Ha; rewrite Ha; cbv zeta.
  - rewrite IndexByte_app, str_take_app, str_drop_sep by done. split; [done|].
    intros E. by apply route_direct.
  - split_and!.
    + intros Hb. by rewrite (proj2 (IndexByte_None blob "/")).
    + intros c' b' -> Hc'. by rewrite IndexByte_app, str_take_app, str_drop_sep.
    + intros E. by eapply route_account.
Qed.

(** ** Witnesses *)

Definition demo_az_bucket : bucketState :=
  mkBucketState 5 "" {["a.txt" := demo_object "hello"; "b/c.txt" := demo_object "world"]}.
Definition demo_az : Backend := mkBackend {["photo-album" := demo_az_bucket]} ∅.
Definition demo_az_headers : gmap string (list string) :=
  {["X-Ms-Meta-Owner" := ["ann"]; "Content-Type" := ["text/plain"]]}.
Definition demo_az_put : Request :=
  mkRequest "PUT" "localhost" "" "/photo-album/x" "" "/photo-album/x" "" ∅ demo_az_headers 4
    (Some (GoHttp.Reads (bytes_of_string "blob"))).
Definition demo_az_get : Request :=
  mkRequest "GET" "localhost" "" "/acct1/photo-album/x" "" "/acct1/photo-album/x" "" ∅ {["Range" := ["bytes=1-2"]]} 0
    None.
Definition demo_az_list : Request :=
  mkRequest "GET" "localhost" "" "/acct1/photo-album" "" "/acct1/photo-album" ""
    {["restype" := ["container"]; "comp" := ["list"]; "maxresults" := ["1"]]} ∅ 0 None.

Lemma demo_az_canonical : canonical_headers demo_az_headers.
Proof.
  intros k [v Hk]. unfold demo_az_headers in Hk.
  apply lookup_insert_Some in Hk as [[<- _]|[_ Hk]]; [by split|].
  apply lookup_singleton_Some in Hk as [<- _]. by split.
Qed.

Lemma demo_az_addressed : addresses demo_az_put "photo-album" "x" ∧ addresses demo_az_get "photo-album" "x".
Proof.
  split; (split; [done|]).
  - right. split; [|done]. rewrite <-isAccountSegment_spec. by vm_compute.
  - left. exists "acct1". split; [|done]. by apply isAccountSegment_spec.
Qed.

Lemma blobs_round_trip_witness :
  ∃ created got, (ServeHTTP 7 8 demo_az_put demo_az).2 = Some created ∧ Status created = 201 ∧
    (ServeHTTP 9 10 demo_az_get (ServeHTTP 7 8 demo_az_put demo_az).1).2 = Some got ∧
    Status got = 206 ∧ RespBody got = Raw (bytes_of_string "lo") ∧
    RespHeader got !! "X-Ms-Meta-Owner" = Some "ann".
Proof.
  destruct (blobs_round_trip demo_az 7 9 8 10 demo_az_put demo_az_get "photo-album" "x" (bytes_of_string "blob")
    (bk_objects demo_az_bucket)) as (created & got & E1 & E2 & E3 & _ & E4 & _).
  - apply demo_az_addressed.
  - apply demo_az_addressed.
  - done.
  - by vm_compute.
  - apply demo_az_canonical.
  - done.
  - done.
  - by vm_compute.
  - exists created, got. rewrite E3.
    destruct (E4 1 2) as (Es & Eb & (_ & _ & _ & Hm) & _); [by apply parseSingleRange_spec|].
    split_and!; [done..|rewrite Eb; by vm_compute|]. by apply (Hm "Owner" "ann" []).
Defined.

Lemma ranges_parsed_witness : parseSingleRange "bytes=2-9" 5 = (2, 4, true) ∧ parseSingleRange "bytes=-2" 5 = (3, 4, true).
Proof.
  destruct (ranges_parsed 5 ltac:(lia)) as (H & _ & H1 & _ & H2 & _).
  split; apply H; [exact (H1 2 9 ltac:(lia) ltac:(lia))|exact (H2 2 ltac:(lia))].
Defined.

Lemma listing_by_marker_complete_witness :
  ∃ blobs prefixes, list_blobs_all 3 7 8 demo_az_list "" demo_az = Some (blobs, prefixes) ∧
    StronglySorted str_lt (bx_Name <$> blobs).
Proof.
  destruct (listing_by_marker_complete demo_az 7 8 demo_az_list "photo-album" demo_az_bucket)
    as (blobs & prefixes & E & Hs & _).
  - split; [split; [done|split; [done|left]]|by vm_compute]. exists "acct1". split; [by apply isAccountSegment_spec|done].
  - by vm_compute.
  - by vm_compute.
  - exists blobs, prefixes. by split.
Defined.

Lemma dispatch_agrees_with_spec_witness :
  ServeHTTP 7 8 demo_az_put demo_az = serve_op 7 8 demo_az_put (BlockBlobUpload "photo-album" "x") demo_az.
Proof. apply (dispatch_agrees_with_spec demo_az 7 8 demo_az_put (BlockBlobUpload "photo-album" "x")).
  split; [done|split; [apply demo_az_addressed|by split; vm_compute]].
Defined.

Lemma container_taken_for_account_witness :
  parseCopySource "https://h.example/photos/2024/a.jpg" = ("2024", "a.jpg", true) ∧
  parseCopySource "https://h.example/photo-album/a.jpg" = ("photo-album", "a.jpg", true).
Proof.
  split.
  - destruct (container_taken_for_account "h.example" "photos" "2024/a.jpg" demo_az_get eq_refl eq_refl eq_refl eq_refl)
      as [_ H]. exact (proj1 (proj2 (H eq_refl)) "2024" "a.jpg" eq_refl eq_refl).
  - destruct (container_taken_for_account "h.example" "photo-album" "a.jpg" demo_az_get eq_refl eq_refl eq_refl eq_refl)
      as [H _]. exact (proj1 (H eq_refl)).
Defined.
