(* ===== verification/RestXml.v ===== *)
(** * The REST-XML runtime

    Models [internal/restxml]: URI templates, the router of the generated
    handlers, the scalars of headers and queries, and the error envelopes. *)

From Stdlib Require Import Ascii.
From S2P Require Import Prelude GoStrings GoBytes GoHttp GoUrl.

(** ** uri.go *)

Definition splitURIPath (s : string) : list string :=
  let s := TrimPrefix s "/" in
  if String.eqb s "" then [] else Split s "/".

Definition isLabel (seg : string) : bool := HasPrefix seg "{" && HasSuffix seg "}".

(** [seg[1:len(seg)-1]]; a label has both braces. *)
Definition labelName (seg : string) : string * bool :=
  let inner := str_take (String.length seg - 2) (str_drop 1 seg) in
  if HasSuffix inner "+" then (str_take (String.length inner - 1) inner, true) else (inner, false).

(** The loop over the parts of the template. *)
Fixpoint match_parts (tparts pparts : list string) (labels : gmap string string)
    : option (gmap string string) :=
  match tparts with
  | [] => match pparts with [] => Some labels | _ => None end
  | t :: ts =>
      if negb (isLabel t) then
        match pparts with
        | p :: ps => if String.eqb p t then match_parts ts ps labels else None
        | [] => None
        end
      else
        let '(name, greedy) := labelName t in
        if greedy then
          match ts with
          | _ :: _ => None
          | [] => (λ decoded, <[name := decoded]> labels) <$> PathUnescape (Join pparts "/")
          end
        else
          match pparts with
          | p :: ps => match PathUnescape p with
                       | Some decoded => match_parts ts ps (<[name := decoded]> labels)
                       | None => None
                       end
          | [] => None
          end
  end.

Definition before_query (template : string) : string :=
  match IndexByte template "?" with Some i => str_take i template | None => template end.

Definition MatchURI (path template : string) : option (gmap string string) :=
  match_parts (splitURIPath (before_query template)) (splitURIPath path) ∅.

(** ** router.go *)

Record route (H : Type) := mkRoute {
  rt_Method : string; rt_Path : string; rt_Query : gmap string string;
  rt_RequiredHeaders : list string; rt_RequiredQueries : list string; rt_ForbiddenQueries : list string;
  rt_Handler : H; rt_Operation : string }.
Arguments mkRoute {H} _ _ _ _ _ _ _ _.
Arguments rt_Method {H} _.
Arguments rt_Path {H} _.
Arguments rt_Query {H} _.
Arguments rt_RequiredHeaders {H} _.
Arguments rt_RequiredQueries {H} _.
Arguments rt_ForbiddenQueries {H} _.
Arguments rt_Handler {H} _.
Arguments rt_Operation {H} _.

Record RouteOptions := mkRouteOptions {
  ro_RequiredHeaders : list string; ro_RequiredQueries : list string; ro_ForbiddenQueries : list string }.

Record Router (H : Type) := mkRouter { routes : list (route H); dirty : bool }.
Arguments mkRouter {H} _ _.
Arguments routes {H} _.
Arguments dirty {H} _.

(** One [k=v] of a template's query. *)
Definition query_kv (kv : string) (q : gmap string string) : gmap string string :=
  if String.eqb kv "" then q
  else match IndexByte kv "=" with
       | Some eq => <[str_take eq kv := str_drop (S eq) kv]> q
       | None => <[kv := ""]> q
       end.
Definition splitTemplate (template : string) : string * gmap string string :=
  match IndexByte template "?" with
  | Some i => (str_take i template,
               fold_left (λ q kv, query_kv kv q) (Split (str_drop (S i) template) "&") ∅)
  | None => (template, ∅)
  end.

Definition Register {H} (method template operation : string) (h : H) (opts : list RouteOptions)
    (r : Router H) : Router H :=
  let '(path, query) := splitTemplate template in
  mkRouter (routes r ++ [mkRoute method path (delete "x-id" query)
      (concat (ro_RequiredHeaders <$> opts)) (concat (ro_RequiredQueries <$> opts))
      (concat (ro_ForbiddenQueries <$> opts)) h operation]) true.

Definition MatchPath (req : Request) : string :=
  if String.eqb (RawPath req) "" then URL_Path req else RawPath req.

Definition headersPresent (req : Request) (required : list string) : bool :=
  forallb (λ name, negb (String.eqb (Header_Get req name) "")) required.

Definition present (actual : gmap string (list string)) (name : string) : bool :=
  match actual !! name with Some (_ :: _) => true | _ => false end.
Definition queriesPresent (actual : gmap string (list string)) (required : list string) : bool :=
  forallb (present actual) required.
Definition queriesPresentAny (actual : gmap string (list string)) (names : list string) : bool :=
  existsb (present actual) names.

(** One entry of the required queries. *)
Definition query_match (actual : gmap string (list string)) (kv : string * string) : bool :=
  present actual kv.1 &&
  (String.eqb kv.2 "" || existsb (String.eqb kv.2) (default [] (actual !! kv.1))).
Definition queryMatches (actual : gmap string (list string)) (required : gmap string string) : bool :=
  forallb (query_match actual) (map_to_list required).

Section dispatch.
Context {H : Type}.
Implicit Types (rt : route H).

Definition specificity rt : nat :=
  (size (rt_Query rt) + length (rt_RequiredHeaders rt) + length (rt_RequiredQueries rt))%nat.
Definition more_specific rt1 rt2 : bool := (specificity rt2 <? specificity rt1)%nat.

(** The conditions of the loop, in its order. *)
Definition route_matches (req : Request) rt : bool :=
  String.eqb (rt_Method rt) (Method req) &&
  bool_decide (is_Some (MatchURI (MatchPath req) (rt_Path rt))) &&
  queryMatches (Query req) (rt_Query rt) &&
  headersPresent req (rt_RequiredHeaders rt) &&
  queriesPresent (Query req) (rt_RequiredQueries rt) &&
  negb (queriesPresentAny (Query req) (rt_ForbiddenQueries rt)).

Definition sort_routes (r : Router H) : Router H :=
  if dirty r then mkRouter (sort_by more_specific (routes r)) false else r.

Fixpoint first_match (req : Request) (rts : list (route H)) : option (route H) :=
  match rts with
  | [] => None
  | rt :: rts => if route_matches req rt then Some rt else first_match req rts
  end.

(** The route a request is dispatched to, and the router after the sort. *)
Definition dispatch (req : Request) (r : Router H) : Router H * option (route H) :=
  let r := sort_routes r in (r, first_match req (routes r)).
End dispatch.

(** ** errors.go *)

Record Error := mkError { Err_Code : string; Err_Message : string; Err_Resource : string; Err_RequestID : string }.
Record ErrorResponseInner := mkErrorResponseInner { ei_Type : string; ei_Code : string; ei_Message : string }.
Record ErrorResponse := mkErrorResponse { er_XMLNS : string; er_Error : ErrorResponseInner; er_RequestID : string }.

(** What is written after the header: bytes, or [xml.Header] and the encoding
    of a value; [X] are the outputs of the generated handlers. *)
Inductive payload (X : Type) :=
  | Raw (b : bytes) | XmlError (e : Error) | XmlErrorResponse (e : ErrorResponse) | Xml (x : X).
Arguments Raw {X} _.
Arguments XmlError {X} _.
Arguments XmlErrorResponse {X} _.
Arguments Xml {X} _.

Record ShimError := mkShimError {
  se_HTTPStatus : Z; se_Code : string; se_Message : string; se_Resource : string; se_RequestID : string }.
Definition ShimError_text (e : ShimError) : string := se_Code e +:+ ": " +:+ se_Message e.

(** An [error] as the envelope writers see it: [errors.As] finds a
    [*ShimError], or there is only its text. *)
Inductive backend_error := EShim (se : ShimError) | EOther (text : string).

Section envelopes.
Context {X : Type}.
Implicit Types (h : gmap string string).

Definition xml_header h : gmap string string := Set_ "Content-Type" "application/xml" h.

Definition WriteError h (status : Z) (code message : string) : Response (payload X) :=
  mkResponse status (xml_header h) (XmlError (mkError code message "" "")).

Definition WriteBackendError h (err : backend_error) : Response (payload X) :=
  match err with
  | EShim se => mkResponse (se_HTTPStatus se) (xml_header h)
      (XmlError (mkError (se_Code se) (se_Message se) (se_Resource se) (se_RequestID se)))
  | EOther t => WriteError h 500 "InternalError" t
  end.

Definition WriteErrorWrapped h (status : Z) (code message : string) : Response (payload X) :=
  mkResponse status (xml_header h)
    (XmlErrorResponse (mkErrorResponse "" (mkErrorResponseInner "Sender" code message) "")).

Definition WriteBackendErrorWrapped h (err : backend_error) : Response (payload X) :=
  match err with
  | EShim se => mkResponse (se_HTTPStatus se) (xml_header h)
      (XmlErrorResponse (mkErrorResponse "" (mkErrorResponseInner "Sender" (se_Code se) (se_Message se))
        (se_RequestID se)))
  | EOther t => WriteErrorWrapped h 500 "InternalError" t
  end.

(** [Router.ServeHTTP]: the handler of the route, or 404; [serve] is what the
    registered handlers do. *)
Definition ServeHTTP {St H} (serve : H → Request → St → St * option (Response (payload X)))
    (req : Request) (r : Router H) (s : St) : Router H * (St * option (Response (payload X))) :=
  let '(r, rt) := dispatch req r in
  (r, match rt with
      | Some rt => serve (rt_Handler rt) req s
      | None => (s, Some (WriteError ∅ 404 "InvalidRequest"
                  ("no shimmed operation matches " +:+ Method req +:+ " " +:+ URL_Path req)))
      end).
End envelopes.

Definition NoSuchBucket (bucket : string) : ShimError :=
  mkShimError 404 "NoSuchBucket" "The specified bucket does not exist" bucket "".
Definition NoSuchKey (bucket key : string) : ShimError :=
  mkShimError 404 "NoSuchKey" "The specified key does not exist" (bucket +:+ "/" +:+ key) "".
Definition BucketAlreadyOwnedByYou (bucket : string) : ShimError :=
  mkShimError 409 "BucketAlreadyOwnedByYou"
    "Your previous request to create the named bucket succeeded and you already own it" bucket "".
Definition BucketNotEmpty (bucket : string) : ShimError :=
  mkShimError 409 "BucketNotEmpty" "The bucket you tried to delete is not empty" bucket "".
Definition NoSuchUpload (uploadID : string) : ShimError :=
  mkShimError 404 "NoSuchUpload" "The specified multipart upload does not exist" uploadID "".
Definition InvalidArgument (message : string) : ShimError := mkShimError 400 "InvalidArgument" message "" "".
Definition NoSuchBucketPolicy (bucket : string) : ShimError :=
  mkShimError 404 "NoSuchBucketPolicy" "The bucket policy does not exist" bucket "".
Definition NoSuchTagSet (bucket : string) : ShimError :=
  mkShimError 404 "NoSuchTagSet" "There is no tag set associated with the bucket" bucket "".
Definition NoSuchCORSConfiguration (bucket : string) : ShimError :=
  mkShimError 404 "NoSuchCORSConfiguration" "The CORS configuration does not exist" bucket "".
Definition NoSuchLifecycleConfiguration (bucket : string) : ShimError :=
  mkShimError 404 "NoSuchLifecycleConfiguration" "The lifecycle configuration does not exist" bucket "".
Definition ReplicationConfigurationNotFound (bucket : string) : ShimError :=
  mkShimError 404 "ReplicationConfigurationNotFoundError" "The replication configuration was not found" bucket "".
Definition NoSuchWebsiteConfiguration (bucket : string) : ShimError :=
  mkShimError 404 "NoSuchWebsiteConfiguration" "The website configuration does not exist" bucket "".
Definition ServerSideEncryptionConfigurationNotFound (bucket : string) : ShimError :=
  mkShimError 404 "ServerSideEncryptionConfigurationNotFoundError"
    "The server side encryption configuration was not found" bucket "".
Definition ObjectLockConfigurationNotFound (bucket : string) : ShimError :=
  mkShimError 404 "ObjectLockConfigurationNotFoundError"
    "Object Lock configuration does not exist for this bucket" bucket "".
Definition OwnershipControlsNotFound (bucket : string) : ShimError :=
  mkShimError 404 "OwnershipControlsNotFoundError" "The bucket ownership controls were not found" bucket "".
Definition NoSuchPublicAccessBlockConfiguration (bucket : string) : ShimError :=
  mkShimError 404 "NoSuchPublicAccessBlockConfiguration"
    "The public access block configuration was not found" bucket "".

(** ** scalars.go

    A pointer result is an option; an error keeps only that it is one. *)

Definition ParseString (s : string) : option string := if String.eqb s "" then None else Some s.

Definition parse_int (w : Z) (s : string) : outcome unit (option Z) :=
  if String.eqb s "" then Ok None
  else match ParseInt10 w s with Some n => Ok (Some n) | None => Prelude.Err () end.
Definition ParseInt32 (s : string) : outcome unit (option Z) := parse_int 32 s.
Definition ParseInt64 (s : string) : outcome unit (option Z) := parse_int 64 s.

Definition ParseBool (s : string) : outcome unit (option bool) :=
  if String.eqb s "" then Ok None
  else if String.eqb (ToLower s) "true" then Ok (Some true)
  else if String.eqb (ToLower s) "false" then Ok (Some false)
  else Prelude.Err ().

(** * The REST-XML runtime: properties

    URI templates give back the labels a path was made from, the router
    dispatches to the most specific route, and what a path that went through
    net/url looks like to the handlers. *)

(** ** Dispatch *)

Section dispatch_lemmas.
Context {H : Type}.
Implicit Types (rt : route H) (l : list (route H)).

Lemma first_match_None req l : first_match req l = None ↔ ∀ rt, rt ∈ l → route_matches req rt = false.
Proof.
  induction l as [|x l IH]; simpl; [split; [intros _ rt Hin; by apply elem_of_nil in Hin|done]|].
  destruct (route_matches req x) eqn:E.
  - split; [done|]. intros Hall. specialize (Hall x ltac:(left)). congruence.
  - rewrite IH. setoid_rewrite elem_of_cons. naive_solver.
Qed.

Lemma first_match_Some req l rt :
  first_match req l = Some rt →
  ∃ before after, l = before ++ rt :: after ∧ route_matches req rt = true ∧
    ∀ x, x ∈ before → route_matches req x = false.
Proof.
  induction l as [|x l IH]; simpl; [done|]. destruct (route_matches req x) eqn:E.
  - intros [= <-]. exists [], l. split_and!; [done..|]. intros y Hy. by apply elem_of_nil in Hy.
  - intros (before & after & -> & Hm & Hb)%IH. exists (x :: before), after. split_and!; [done..|].
    intros y [->|Hy]%elem_of_cons; [done|by apply Hb].
Qed.

Lemma first_match_filter req l :
  first_match req l = first_match req (filter (λ rt, route_matches req rt = true) l).
Proof.
  induction l as [|x l IH]; [done|]. rewrite filter_cons. cbn [first_match].
  destruct (decide (route_matches req x = true)) as [E|E]; cbn [first_match].
  - by rewrite E.
  - apply not_true_is_false in E. rewrite E. exact IH.
Qed.

Lemma le_by_specificity rt1 rt2 : le_by more_specific rt1 rt2 ↔ (specificity rt2 <= specificity rt1)%nat.
Proof. unfold le_by, more_specific. rewrite Nat.ltb_ge. done. Qed.

Lemma sorted_routes l : StronglySorted (le_by more_specific) (sort_by more_specific l).
Proof.
  apply sort_by_sorted.
  - intros x y. unfold more_specific. rewrite Nat.ltb_lt, Nat.ltb_ge. lia.
  - intros x y z. rewrite !le_by_specificity. lia.
Qed.

(** Routes of the same specificity keep the order they were registered in. *)
Lemma sorted_class l n :
  filter (λ rt, specificity rt = n) (sort_by more_specific l) = filter (λ rt, specificity rt = n) l.
Proof.
  apply sort_by_stable. intros x y Hx Hy. unfold more_specific. apply Nat.ltb_ge. lia.
Qed.

(** A list sorted by specificity is determined by its classes. *)
Lemma sorted_by_classes l1 l2 :
  StronglySorted (le_by more_specific) l1 → StronglySorted (le_by more_specific) l2 →
  (∀ n, filter (λ rt, specificity rt = n) l1 = filter (λ rt, specificity rt = n) l2) → l1 = l2.
Proof.
  intros H1. revert l2. induction H1 as [|x l1 H1 IH Hx]; intros l2 H2 E.
  - destruct l2 as [|y l2]; [done|]. specialize (E (specificity y)). rewrite filter_nil, filter_cons_True in E by done. done.
  - destruct H2 as [|y l2 H2 Hy].
    { specialize (E (specificity x)). rewrite filter_nil, filter_cons_True in E by done. done. }
    rewrite Forall_forall in Hx, Hy.
    assert (specificity x = specificity y) as Exy.
    { assert (∀ z, z ∈ x :: l1 ↔ z ∈ y :: l2) as Hin.
      { intros z. specialize (E (specificity z)).
        assert (∀ l, z ∈ l ↔ z ∈ filter (λ rt, specificity rt = specificity z) l) as Hf
          by (intros l; rewrite list_elem_of_filter; naive_solver).
        by rewrite (Hf (x :: l1)), E, <-Hf. }
      assert (x ∈ y :: l2) as [->|Hxin]%elem_of_cons by (apply Hin; left); [done|].
      assert (y ∈ x :: l1) as [->|Hyin]%elem_of_cons by (apply Hin; left); [done|].
      apply Hy, le_by_specificity in Hxin. apply Hx, le_by_specificity in Hyin. lia. }
    pose proof (E (specificity x)) as Ex. rewrite !filter_cons_True in Ex by done. injection Ex as -> Ex.
    f_equal. apply IH; [done|]. intros n. specialize (E n). rewrite !filter_cons in E.
    destruct (decide (specificity y = n)); [by injection E|done].
Qed.

(** Sorting what has been sorted already, and more, sorts the whole. *)
Lemma sort_sorted_app l l' :
  sort_by more_specific (sort_by more_specific l ++ l') = sort_by more_specific (l ++ l').
Proof.
  apply sorted_by_classes; [apply sorted_routes..|]. intros n.
  rewrite !sorted_class, !filter_app. by rewrite sorted_class.
Qed.
End dispatch_lemmas.

(** The routers [Register] and [ServeHTTP] produce: sorted unless dirty. *)
Definition router_ok {H} (r : Router H) : Prop :=
  dirty r = true ∨ StronglySorted (le_by more_specific) (routes r).

Lemma routes_sorted {H} (r : Router H) :
  router_ok r → routes (sort_routes r) = sort_by more_specific (routes r).
Proof.
  unfold sort_routes. destruct (dirty r) eqn:E; [done|]. intros [|Hs]; [congruence|].
  symmetry. by apply sort_by_sorted_id.
Qed.

Lemma Register_ok {H} m t o (h : H) opts r : router_ok (Register m t o h opts r).
Proof. unfold Register. destruct (splitTemplate t). by left. Qed.
Lemma dispatch_ok {H} req (r : Router H) : router_ok r → router_ok (dispatch req r).1.
Proof. intros Hr. cbn. right. rewrite routes_sorted by done. apply sorted_routes. Qed.

(** A router that has served a request dispatches as before. *)
Lemma dispatch_again {H} req req' (r : Router H) :
  router_ok r → (dispatch req' (dispatch req r).1).2 = (dispatch req' r).2.
Proof.
  intros Hr. pose proof (dispatch_ok req r Hr) as Hr'. unfold dispatch in *. cbn [fst snd] in *.
  rewrite (routes_sorted (sort_routes r)), (routes_sorted r) by done.
  by rewrite (sort_by_sorted_id _ (sort_by _ _)) by apply sorted_routes.
Qed.

(** ** Templates *)

(** The parts of a template. *)
Inductive part := Lit (s : string) | Label (n : string) | Greedy (n : string).
Definition part_text (p : part) : string :=
  match p with
  | Lit s => s
  | Label n => String "{" (n +:+ "}")
  | Greedy n => String "{" (n +:+ "+}")
  end.
(** A literal is not empty and not in braces; a label's name has no slash and
    does not end in a plus sign. *)
Definition part_ok (p : part) : Prop :=
  match p with
  | Lit s => s ≠ "" ∧ str_mem "/" s = false ∧ str_mem "?" s = false ∧ isLabel s = false
  | Label n => str_mem "/" n = false ∧ str_mem "?" n = false ∧ HasSuffix n "+" = false
  | Greedy n => str_mem "/" n = false ∧ str_mem "?" n = false
  end.
(** Only the last part is greedy. *)
Fixpoint greedy_last (ps : list part) : Prop :=
  match ps with
  | [] => True
  | Greedy _ :: ps => ps = []
  | _ :: ps => greedy_last ps
  end.

(** The segment that stands for a part when the labels have the values of [f]
    and are escaped by [keep] (a greedy label keeps its slashes). *)
Definition fill (keep : ascii → bool) (f : string → string) (p : part) : string :=
  match p with
  | Lit s => s
  | Label n => escape_with keep (f n)
  | Greedy n => escape_with (λ c, keep c || Ascii.eqb c "/") (f n)
  end.
Definition labels_of (f : string → string) (ps : list part) (m : gmap string string) : gmap string string :=
  fold_left (λ m p, match p with Lit _ => m | Label n | Greedy n => <[n := f n]> m end) ps m.

Definition template_of (ps : list part) : string := String "/" (Join (part_text <$> ps) "/").
Definition path_of (keep : ascii → bool) (f : string → string) (ps : list part) : string :=
  String "/" (Join (fill keep f <$> ps) "/").

Lemma labelName_Label n : HasSuffix n "+" = false → labelName (part_text (Label n)) = (n, false).
Proof.
  intros Hn. unfold labelName, part_text. cbn [str_drop String.length]. rewrite str_length_app.
  replace (S (String.length n + String.length "}") - 2)%nat with (String.length n) by (cbn; lia).
  by rewrite str_take_app, Hn.
Qed.

Lemma labelName_Greedy n : labelName (part_text (Greedy n)) = (n, true).
Proof.
  unfold labelName, part_text. cbn [str_drop String.length].
  change (n +:+ "+}") with (n +:+ ("+" +:+ "}")). rewrite <-str_app_assoc, str_length_app.
  replace (S (String.length (n +:+ "+") + String.length "}") - 2)%nat with (String.length (n +:+ "+")) by (cbn; lia).
  rewrite str_take_app. rewrite (proj2 (HasSuffix_spec (n +:+ "+") "+")) by eauto.
  rewrite str_length_app. replace (String.length n + String.length "+" - 1)%nat with (String.length n) by (cbn; lia).
  by rewrite str_take_app.
Qed.

Lemma isLabel_braces n : isLabel (String "{" (n +:+ "}")) = true.
Proof.
  unfold isLabel. cbn [HasPrefix]. rewrite Ascii.eqb_refl. cbn [andb].
  apply HasSuffix_spec. exists (String "{" n). done.
Qed.

Lemma isLabel_Greedy n : isLabel (part_text (Greedy n)) = true.
Proof. unfold part_text. change (n +:+ "+}") with (n +:+ ("+" +:+ "}")). rewrite <-str_app_assoc. apply isLabel_braces. Qed.

(** The loop over the parts finds the labels again; the segments of a greedy
    label are those its value is split into. *)
Lemma match_parts_fill keep f ps m :
  keep "%"%char = false → Forall part_ok ps → greedy_last ps →
  ∀ segs, Forall2 (λ p segs, match p with
      | Greedy _ => Join segs "/" = fill keep f p
      | _ => segs = [fill keep f p]
      end) ps segs →
  match_parts (part_text <$> ps) (concat segs) m = Some (labels_of f ps m).
Proof.
  intros Hk Hok. revert m. induction Hok as [|p ps Hp Hok IH]; intros m Hg segs Hs.
  { inversion_clear Hs. done. }
  inversion_clear Hs as [|? seg ? segs' Hseg Hsegs]. cbn [concat]. rewrite fmap_cons. cbn [match_parts].
  destruct p as [s|n|n]; cbn [greedy_last] in Hg.
  - subst seg. destruct Hp as (_ & _ & _ & Hl). cbn [part_text fill app]. rewrite Hl. cbn [negb].
    rewrite String.eqb_refl. by apply IH.
  - subst seg. destruct Hp as (_ & _ & Hn). unfold part_text at 1. rewrite isLabel_braces. cbn [negb].
    rewrite labelName_Label by done. cbn [app fill]. rewrite PathUnescape_escape by done. by apply IH.
  - subst ps. rewrite isLabel_Greedy. cbn [negb]. rewrite labelName_Greedy.
    inversion_clear Hsegs. cbn [concat fmap list_fmap]. rewrite app_nil_r, Hseg. cbn [fill].
    rewrite PathUnescape_escape; [done|]. by rewrite Hk.
Qed.

Lemma part_text_ok p : part_ok p → part_text p ≠ "" ∧ str_mem "/" (part_text p) = false ∧ str_mem "?" (part_text p) = false.
Proof.
  destruct p as [s|n|n]; cbn [part_ok part_text].
  - by intros (? & ? & ? & _).
  - intros (H1 & H2 & _). cbn [str_mem]. rewrite !str_mem_app, H1, H2. done.
  - intros (H1 & H2). cbn [str_mem]. rewrite !str_mem_app, H1, H2. done.
Qed.

Lemma Join_mem c ws sep : Forall (λ w, str_mem c w = false) ws → str_mem c sep = false → str_mem c (Join ws sep) = false.
Proof.
  intros Hws Hs. induction Hws as [|w ws Hw Hws IH]; [done|]. destruct ws; [done|].
  rewrite Join_cons by done. by rewrite !str_mem_app, Hw, Hs, IH.
Qed.

Lemma Join_nonempty w ws sep : w ≠ "" → Join (w :: ws) sep ≠ "".
Proof. intros Hw. destruct ws; [done|]. rewrite Join_cons by done. by destruct w. Qed.

Lemma splitURIPath_slash t : t ≠ "" → splitURIPath (String "/" t) = Split t "/".
Proof.
  intros Ht. unfold splitURIPath. change (String "/" t) with ("/" +:+ t). rewrite (TrimPrefix_app "/").
  by rewrite (proj2 (String.eqb_neq t "")).
Qed.

Lemma split_template ps : ps ≠ [] → Forall part_ok ps → splitURIPath (before_query (template_of ps)) = part_text <$> ps.
Proof.
  intros Hne Hok. assert (Forall (λ w, w ≠ "" ∧ str_mem "/" w = false ∧ str_mem "?" w = false) (part_text <$> ps)) as Ht.
  { apply Forall_fmap. eapply Forall_impl; [exact Hok|]. intros p. apply part_text_ok. }
  unfold before_query, template_of.
  assert (str_mem "?" (String "/" (Join (part_text <$> ps) "/")) = false) as Hq.
  { cbn [str_mem]. rewrite Join_mem; [done| |done]. eapply Forall_impl; [exact Ht|]. naive_solver. }
  rewrite (proj2 (IndexByte_None _ "?") Hq).
  destruct ps as [|p ps]; [done|]. rewrite fmap_cons in *. inversion Ht as [|? ? (Hp & _) _]; subst.
  rewrite splitURIPath_slash by (by apply Join_nonempty). apply Split_Join; [done|].
  eapply Forall_impl; [exact Ht|]. naive_solver.
Qed.

Lemma escape_no_slash keep s : keep "/"%char = false → str_mem "/" (escape_with keep s) = false.
Proof. intros Hk. apply escape_with_no_sep; [done|apply percent_byte_slash]. Qed.

(** The segments of a path made from a template. *)
Lemma split_path keep f ps :
  keep "/"%char = false → ps ≠ [] → Forall part_ok ps → path_of keep f ps ≠ "/" →
  splitURIPath (path_of keep f ps) = concat ((λ p, Split (fill keep f p) "/") <$> ps).
Proof.
  intros Hk Hne Hok Hp. unfold path_of. rewrite splitURIPath_slash by (intros E; apply Hp; unfold path_of; by rewrite E).
  rewrite Split_Join_concat by (by destruct ps). by rewrite <-list_fmap_compose.
Qed.

Lemma MatchURI_fill keep f ps :
  keep "/"%char = false → keep "%"%char = false → ps ≠ [] → Forall part_ok ps → greedy_last ps →
  path_of keep f ps ≠ "/" →
  MatchURI (path_of keep f ps) (template_of ps) = Some (labels_of f ps ∅).
Proof.
  intros Hs Hk Hne Hok Hg Hp. unfold MatchURI. rewrite split_template, split_path by done.
  apply (match_parts_fill keep); [done..|]. clear Hne Hp Hg. induction Hok as [|p ps Hp Hok IH]; [constructor|].
  rewrite fmap_cons. constructor; [|done]. destruct p as [s|n|n]; cbn [fill].
  - apply Split_plain. apply Hp.
  - by apply Split_plain, escape_no_slash.
  - apply Join_Split.
Qed.

(** ** Paths that went through net/url *)

(** What [setPath] stores of an escaped path. *)
Lemma setPath_escaped keep s :
  keep "%"%char = false →
  setPath (escape_with keep s) =
    Some (s, if all_bytes (λ c, Bool.eqb (keep c) (keeps_in_path c)) s then "" else escape_with keep s).
Proof.
  intros Hk. unfold setPath. rewrite PathUnescape_escape by done.
  unfold escape_path. by rewrite escape_with_agree.
Qed.

(** The S3 clients' escaping: unreserved bytes and slashes stay. *)
Definition s3_keeps (c : ascii) : bool := url_unreserved c || Ascii.eqb c "/".
Definition s3_path (bucket key : string) : string :=
  String "/" (escape_with s3_keeps bucket +:+ String "/" (escape_with s3_keeps key)).
(** The bytes the clients escape and net/url does not. *)
Definition url_special (c : ascii) : bool := str_mem c "$&+,:;=@".

Lemma s3_keeps_agree c : Bool.eqb (s3_keeps c) (keeps_in_path c) = negb (url_special c).
Proof. by destruct c as [[] [] [] [] [] [] [] []]. Qed.

Lemma escape_slash keep s : keep "/"%char = true → String "/" (escape_with keep s) = escape_with keep (String "/" s).
Proof. intros Hk. cbn [escape_with]. by rewrite Hk. Qed.

Lemma s3_path_escaped b k : s3_path b k = escape_with s3_keeps (String "/" (b +:+ String "/" k)).
Proof. unfold s3_path. rewrite <-escape_slash, escape_with_app by done. by rewrite escape_slash. Qed.

Lemma all_bytes_ext f g s : (∀ c, f c = g c) → all_bytes f s = all_bytes g s.
Proof. intros E. induction s as [|c s IH]; [done|]. simpl. by rewrite E, IH. Qed.

(** An object template against a path of a bucket and any rest. *)
Lemma MatchURI_object b rest :
  b ≠ "" → str_mem "/" b = false →
  MatchURI (String "/" (b +:+ String "/" rest)) "/{Bucket}/{Key+}" =
    match PathUnescape b, PathUnescape rest with
    | Some b', Some k => Some (<["Key" := k]> {["Bucket" := b']})
    | _, _ => None
    end.
Proof.
  intros Hb Hs. unfold MatchURI. rewrite splitURIPath_slash by (by destruct b).
  change (splitURIPath (before_query "/{Bucket}/{Key+}")) with ["{Bucket}"; "{Key+}"].
  rewrite Split_app by done. cbn [match_parts].
  change (isLabel "{Bucket}") with true. change (labelName "{Bucket}") with ("Bucket", false).
  change (isLabel "{Key+}") with true. change (labelName "{Key+}") with ("Key", true). cbn [negb].
  destruct (PathUnescape b) as [b'|]; [|done]. rewrite Join_Split. by destruct (PathUnescape rest).
Qed.

Lemma escape_with_id keep s : all_bytes keep s = true → escape_with keep s = s.
Proof.
  induction s as [|c s IH]; [done|]. simpl. intros [Hc Hs]%andb_true_iff. rewrite Hc, IH by done. done.
Qed.

Definition bucket_byte (c : ascii) : bool := url_unreserved c.
Lemma bucket_facts b : all_bytes bucket_byte b = true →
  str_mem "/" b = false ∧ str_mem "%" b = false ∧ escape_with s3_keeps b = b ∧ all_bytes (λ c, negb (url_special c)) b = true.
Proof.
  intros H. split_and!.
  - induction b as [|c b IH]; [done|]. simpl in H. apply andb_true_iff in H as [Hc Hb]. simpl. rewrite IH by done.
    by destruct c as [[] [] [] [] [] [] [] []].
  - induction b as [|c b IH]; [done|]. simpl in H. apply andb_true_iff in H as [Hc Hb]. simpl. rewrite IH by done.
    by destruct c as [[] [] [] [] [] [] [] []].
  - apply escape_with_id. induction b as [|c b IH]; [done|]. simpl in *. apply andb_true_iff in H as [Hc Hb].
    unfold s3_keeps at 1. unfold bucket_byte in Hc. by rewrite Hc, IH.
  - induction b as [|c b IH]; [done|]. simpl in *. apply andb_true_iff in H as [Hc Hb]. rewrite IH by done.
    by destruct c as [[] [] [] [] [] [] [] []].
Qed.

(** The key a handler sees. *)
Definition seen_key (key : string) : option string :=
  if all_bytes (λ c, negb (url_special c)) key then PathUnescape key else Some key.

Lemma s3_key_seen req b k path raw :
  b ≠ "" → all_bytes bucket_byte b = true →
  setPath (s3_path b k) = Some (path, raw) → URL_Path req = path → RawPath req = raw →
  MatchURI (MatchPath req) "/{Bucket}/{Key+}" = (λ k', <["Key" := k']> {["Bucket" := b]}) <$> seen_key k.
Proof.
  intros Hne Hb Hset Hp Hr. destruct (bucket_facts b Hb) as (Hs & Hpc & Hesc & Hsp).
  rewrite s3_path_escaped, setPath_escaped in Hset by done. set (p := String "/" (b +:+ String "/" k)) in *.
  set (e := escape_with s3_keeps p) in *. injection Hset as <- <-. subst e p. unfold MatchPath. rewrite Hp, Hr.
  rewrite (all_bytes_ext _ (λ c, negb (url_special c)) _ s3_keeps_agree).
  assert (all_bytes (λ c, negb (url_special c)) (b +:+ String "/" k) =
    all_bytes (λ c, negb (url_special c)) k) as -> by (by rewrite all_bytes_app, Hsp).
  unfold seen_key. destruct (all_bytes _ k).
  - rewrite String.eqb_refl, MatchURI_object, (PathUnescape_id b) by done. by destruct (PathUnescape k).
  - rewrite <-s3_path_escaped. unfold s3_path. rewrite Hesc.
    assert (String.eqb (String "/" (b +:+ String "/" (escape_with s3_keeps k))) "" = false) as -> by done.
    rewrite MatchURI_object, (PathUnescape_id b), PathUnescape_escape by done. done.
Qed.

Lemma dispatch_found {H} req (r : Router H) rt :
  router_ok r → (dispatch req r).2 = Some rt →
  rt ∈ routes r ∧ route_matches req rt = true ∧
  (∀ x, x ∈ routes r → route_matches req x = true → (specificity x <= specificity rt)%nat) ∧
  ∃ before after, filter (λ x, specificity x = specificity rt) (routes r) = before ++ rt :: after ∧
    ∀ x, x ∈ before → route_matches req x = false.
Proof.
  intros Hok Hd. unfold dispatch in Hd. cbn [snd] in Hd. rewrite routes_sorted in Hd by done.
  apply first_match_Some in Hd as (before & after & E & Hm & Hb).
  pose proof (sorted_routes (routes r)) as Hs. rewrite E in Hs.
  apply StronglySorted_app_inv in Hs as (_ & Hs & Hcross).
  inversion_clear Hs as [|? ? _ Hlt]. rewrite Forall_forall in Hlt.
  assert (∀ x, x ∈ routes r ↔ x ∈ before ++ rt :: after) as Hin
    by (intros x; by rewrite <-E, elem_of_sort_by).
  split_and!.
  - apply Hin. set_solver.
  - done.
  - intros x Hx Hmx. apply Hin in Hx. apply elem_of_app in Hx as [Hx|[->|Hx]%elem_of_cons]; [|done|].
    + rewrite Hb in Hmx; done.
    + by apply Hlt, le_by_specificity in Hx.
  - exists (filter (λ x, specificity x = specificity rt) before), (filter (λ x, specificity x = specificity rt) after).
    split.
    + rewrite <-sorted_class, E, filter_app, filter_cons_True by done. done.
    + intros x [_ Hx]%list_elem_of_filter. by apply Hb.
Qed.

(** ** Properties *)

(** C15: A request is dispatched to a registered route that matches it, and among
    the routes that match to one with the most required queries and headers,
    and among those to the one registered first; no route is found only when
    none matches.  Routers that [Register] and [ServeHTTP] produce stay in the
    state this needs. *)
Theorem dispatch_most_specific {H} (r : Router H) (req : Request) :
  router_ok r →
  (∀ rt, (dispatch req r).2 = Some rt →
     rt ∈ routes r ∧ route_matches req rt = true ∧
     (∀ x, x ∈ routes r → route_matches req x = true → (specificity x <= specificity rt)%nat) ∧
     ∃ before after, filter (λ x, specificity x = specificity rt) (routes r) = before ++ rt :: after ∧
       ∀ x, x ∈ before → route_matches req x = false) ∧
  ((dispatch req r).2 = None ↔ ∀ rt, rt ∈ routes r → route_matches req rt = false) ∧
  router_ok (dispatch req r).1 ∧
  (∀ method template operation h opts, router_ok (Register method template operation h opts r)).
Proof.
  intros Hok. split_and!; [intros; by apply dispatch_found| |by apply dispatch_ok|intros; apply Register_ok].
  unfold dispatch. cbn [snd]. rewrite first_match_None, routes_sorted by done.
  by setoid_rewrite elem_of_sort_by.
Qed.

(** Serving requests between registrations changes nothing: the router that
    has been sorted by a request and then gets another route dispatches every
    later request exactly as the router that was never sorted in between. *)
Theorem serving_keeps_dispatch {H} (r : Router H) (req req' : Request) (method template operation : string)
    (h : H) (opts : list RouteOptions) :
  router_ok r →
  (dispatch req' (Register method template operation h opts (dispatch req r).1)).2 =
  (dispatch req' (Register method template operation h opts r)).2.
Proof.
  intros Hok. unfold Register. destruct (splitTemplate template) as [path query]. unfold dispatch. cbn [fst snd].
  rewrite (routes_sorted r) by done. unfold sort_routes. cbn [dirty routes]. by rewrite sort_sorted_app.
Qed.

(** Templates are read back: the path made from a template by putting
    percent-encoded values in the place of its labels matches the template, and
    the labels are the values; a greedy label keeps the slashes of its value.
    Any encoding will do that encodes the percent sign and the slash. *)
Theorem labels_round_trip (keep : ascii → bool) (value : string → string) (ps : list part) :
  keep "/"%char = false → keep "%"%char = false → ps ≠ [] → Forall part_ok ps → greedy_last ps →
  path_of keep value ps ≠ "/" →
  MatchURI (path_of keep value ps) (template_of ps) = Some (labels_of value ps ∅).
Proof. apply MatchURI_fill. Qed.

(** What a handler sees of an object's key.  The clients escape every byte
    of a key that is not unreserved or a slash.  net/http keeps the escaped
    path only when it differs from Go's own escaping, which is when the key has
    one of the bytes $&+,:;=@; then the key is decoded once and comes out
    right.  Otherwise the decoded path is decoded again: the key comes out
    right when it has no percent sign, but "a%20b" becomes "a b", and "100%" is
    not routed at all. *)
Theorem object_keys_decoded_twice (bucket key path raw : string) (req : Request) :
  bucket ≠ "" → all_bytes bucket_byte bucket = true →
  setPath (s3_path bucket key) = Some (path, raw) → URL_Path req = path → RawPath req = raw →
  MatchURI (MatchPath req) "/{Bucket}/{Key+}" = (λ k, <["Key" := k]> {["Bucket" := bucket]}) <$> seen_key key ∧
  (str_mem "%" key = false → seen_key key = Some key) ∧
  (all_bytes (λ c, negb (url_special c)) key = false → seen_key key = Some key) ∧
  seen_key "a%20b" = Some "a b" ∧ seen_key "100%" = None.
Proof.
  intros Hne Hb Hset Hp Hr. split_and!; [by apply (s3_key_seen req bucket key path raw)| | |done|done].
  - intros Hk. unfold seen_key. rewrite PathUnescape_id by done. by destruct (all_bytes _ key).
  - intros Hk. unfold seen_key. by rewrite Hk.
Qed.

(** ** Witnesses *)

Definition demo_router : Router nat :=
  Register "GET" "/{Bucket}/{Key+}?tagging" "GetObjectTagging" 2%nat []
    (Register "GET" "/{Bucket}/{Key+}?x-id=GetObject" "GetObject" 1%nat [] (mkRouter [] false)).
Definition demo_req (path raw : string) (q : gmap string (list string)) : Request :=
  mkRequest "GET" "localhost" "" path raw path "" q ∅ 0 None.

Example demo_dispatch :
  rt_Operation <$> (dispatch (demo_req "/b/k" "" {["tagging" := [""]]}) demo_router).2 = Some "GetObjectTagging" ∧
  rt_Operation <$> (dispatch (demo_req "/b/k" "" ∅) demo_router).2 = Some "GetObject" ∧
  rt_Operation <$> (dispatch (demo_req "/b/100%" "" ∅) demo_router).2 = None.
Proof. split_and!; vm_compute; reflexivity. Qed.

Lemma dispatch_most_specific_witness :
  (dispatch (demo_req "/" "" ∅) demo_router).2 = None.
Proof.
  apply (proj1 (proj2 (dispatch_most_specific demo_router (demo_req "/" "" ∅) (or_introl eq_refl)))).
  intros rt Hrt. change (routes demo_router) with
    (take 2 (routes demo_router)) in Hrt. unfold demo_router, Register in Hrt.
  repeat (apply elem_of_cons in Hrt as [->|Hrt]; [by vm_compute|]). by apply elem_of_nil in Hrt.
Defined.

Lemma serving_keeps_dispatch_witness :
  rt_Handler <$> (dispatch (demo_req "/b" "" ∅)
    (Register "GET" "/{Bucket}" "HeadBucket" 3%nat [] (dispatch (demo_req "/b/k" "" ∅) demo_router).1)).2 =
  rt_Handler <$> (dispatch (demo_req "/b" "" ∅) (Register "GET" "/{Bucket}" "HeadBucket" 3%nat [] demo_router)).2.
Proof.
  exact (f_equal (fmap rt_Handler) (serving_keeps_dispatch demo_router (demo_req "/b/k" "" ∅) (demo_req "/b" "" ∅)
    "GET" "/{Bucket}" "HeadBucket" 3%nat [] (or_introl eq_refl))).
Defined.

Lemma labels_round_trip_witness :
  MatchURI "/v1/clusters/arn:a%2Fb/topics/orders" "/v1/clusters/{ClusterArn}/topics/{TopicName}" =
    Some (labels_of (λ n, if String.eqb n "ClusterArn" then "arn:a/b" else "orders")
      [Lit "v1"; Lit "clusters"; Label "ClusterArn"; Lit "topics"; Label "TopicName"] ∅).
Proof.
  apply (labels_round_trip keeps_in_segment (λ n, if String.eqb n "ClusterArn" then "arn:a/b" else "orders")
    [Lit "v1"; Lit "clusters"; Label "ClusterArn"; Lit "topics"; Label "TopicName"]).
  - reflexivity.
  - reflexivity.
  - discriminate.
  - repeat (apply Forall_cons_2; [by vm_compute|]). apply Forall_nil_2.
  - exact I.
  - vm_compute. discriminate.
Defined.

Lemma object_keys_decoded_twice_witness :
  MatchURI "/b/a%20b" "/{Bucket}/{Key+}" = Some (<["Key" := "a b"]> {["Bucket" := "b"]}).
Proof.
  apply (object_keys_decoded_twice "b" "a%20b" "/b/a%20b" "" (demo_req "/b/a%20b" "" ∅)).
  - discriminate.
  - reflexivity.
  - vm_compute. reflexivity.
  - reflexivity.
  - reflexivity.
Defined.
