(* ===== verification/S3.v ===== *)
(** * The S3 frontend: the adapter of [domain.Storage]

    Models [internal/storage/frontends/aws_s3] (adapter and probes).  The
    requests and outputs of the generated code keep the fields the adapter
    reads and sets; a pointer is an option.  [now] and [now2] are the clocks the
    backend reads. *)

From Stdlib Require Import Ascii.
From S2P Require Import Prelude GoStrings GoBytes GoHttp MetaHeaders Storage StorageApi RestXml.

Definition deref {A} (p : option A) (d : A) : A := default d p.

(** [mapError]: the S3 error, or the error as it is. *)
Definition mapError (err : error) : backend_error :=
  match As_domain err with
  | None => EOther (Error_text err)
  | Some de =>
      let res := de_Resource de in
      match de_Kind de with
      | KindNoSuchBucket => EShim (RestXml.NoSuchBucket res)
      | KindNoSuchKey =>
          match IndexByte res "/" with
          | Some i => EShim (RestXml.NoSuchKey (str_take i res) (str_drop (S i) res))
          | None => EShim (RestXml.NoSuchKey "" res)
          end
      | KindNoSuchUpload => EShim (RestXml.NoSuchUpload res)
      | KindBucketAlreadyExists | KindBucketAlreadyOwnedByYou => EShim (BucketAlreadyOwnedByYou res)
      | KindBucketNotEmpty => EShim (RestXml.BucketNotEmpty res)
      | KindInvalidArgument => EShim (RestXml.InvalidArgument (de_Message de))
      | _ => EOther (Error_text err)
      end
  end.

Abbreviation api := (outcome backend_error).

(** [if err != nil { return nil, mapError(err) }] and the rest of a method. *)
Definition call {St A B} (c : St * Storage.result A) (k : A → api B) : St * api B :=
  (c.1, match c.2 with Ok a => k a | Prelude.Err e => Prelude.Err (mapError e) | Panic => Panic end).

(** ** Requests and outputs *)

Record ListBucketsRequest := mkListBucketsRequest {
  lbi_Prefix : option string; lbi_BucketRegion : option string; lbi_MaxBuckets : option Z;
  lbi_ContinuationToken : option string }.
Record OwnerOut := mkOwnerOut { ow_ID : string; ow_DisplayName : string }.
Record BucketOut := mkBucketOut { bo_Name : string; bo_CreationDate : Time; bo_BucketRegion : string }.
Record ListBucketsOutput := mkListBucketsOutput {
  lbo_Owner : OwnerOut; lbo_ContinuationToken : option string; lbo_Prefix : option string;
  lbo_Buckets : list BucketOut }.
Record CreateBucketRequest := mkCreateBucketRequest {
  cbi_Bucket : string; cbi_LocationConstraint : option string }.
Record ListObjectsV2Request := mkListObjectsV2Request {
  loi_Bucket : string; loi_Prefix : option string; loi_Delimiter : option string;
  loi_StartAfter : option string; loi_ContinuationToken : option string; loi_MaxKeys : option Z }.
Record ObjectOut := mkObjectOut {
  oo_Key : string; oo_LastModified : Time; oo_ETag : string; oo_Size : Z }.
Record ListObjectsV2Output := mkListObjectsV2Output {
  loo_Name : string; loo_Prefix : string; loo_Delimiter : string; loo_MaxKeys : Z; loo_KeyCount : Z;
  loo_IsTruncated : bool; loo_ContinuationToken : option string; loo_StartAfter : option string;
  loo_NextContinuationToken : option string; loo_Contents : list ObjectOut; loo_CommonPrefixes : list string }.
Record GetObjectOutput := mkGetObjectOutput {
  go_Body : option bytes; go_ContentLength : Z; go_ETag : string; go_LastModified : Time;
  go_ContentType : option string; go_Metadata : strmap }.
Record PutObjectRequest := mkPutObjectRequest {
  poi_Bucket : string; poi_Key : string; poi_Body : option BodyReader; poi_ContentType : option string;
  poi_Metadata : strmap }.
Record CopyObjectRequest := mkCopyObjectRequest {
  coi_Bucket : string; coi_Key : string; coi_CopySource : string; coi_ContentType : option string;
  coi_Metadata : strmap }.
Record CopyResultOut := mkCopyResultOut { cro_ETag : string; cro_LastModified : Time }.
Record CreateMultipartUploadRequest := mkCreateMultipartUploadRequest {
  cmi_Bucket : string; cmi_Key : string; cmi_ContentType : option string; cmi_Metadata : strmap }.
Record UploadPartRequest := mkUploadPartRequest {
  upi_Bucket : string; upi_Key : string; upi_UploadId : string; upi_PartNumber : Z; upi_Body : option BodyReader }.
Record CompletedPart := mkCompletedPart { cp_PartNumber : option Z; cp_ETag : option string }.
(** [MultipartUpload] is nil when there is no body or it does not decode. *)
Record CompleteMultipartUploadRequest := mkCompleteMultipartUploadRequest {
  cui_Bucket : string; cui_Key : string; cui_UploadId : string; cui_MultipartUpload : option (list CompletedPart) }.
Record UploadOut := mkUploadOut { uo_UploadId : string; uo_Key : string; uo_Initiated : Time }.
Record PartOut := mkPartOut { pa_PartNumber : Z; pa_ETag : string; pa_LastModified : Time; pa_Size : Z }.

(** The outputs that are encoded as XML. *)
Inductive output :=
  | ListAllMyBucketsResult (o : ListBucketsOutput)
  | ListBucketResult (o : ListObjectsV2Output)
  | CopyObjectResultXml (o : CopyResultOut)
  | InitiateMultipartUploadResult (bucket key uploadId : string)
  | CompleteMultipartUploadResult (bucket key etag : string)
  | ListMultipartUploadsResult (bucket : string) (prefix : option string) (uploads : list UploadOut)
  | ListPartsResult (bucket key uploadId : string) (parts : list PartOut)
  | LocationConstraint (region : string)
  | AccessControlPolicy (owner : OwnerOut)
  | RequestPaymentConfiguration (payer : string)
  | EmptyOutput (operation : string).

(** ** adapter.go *)

Section adapter.
Context `{Storage_ St}.
Implicit Types (s : St).

Definition bucket_out (b : Bucket) : BucketOut := mkBucketOut (Bucket_Name b) (Bucket_CreatedAt b) (Bucket_Region b).

Definition Adapter_ListBuckets (i : ListBucketsRequest) s : St * api ListBucketsOutput :=
  call (st_ListBuckets (mkListBucketsOptions (deref (lbi_Prefix i) "") (deref (lbi_BucketRegion i) "")
      (deref (lbi_MaxBuckets i) 0) (deref (lbi_ContinuationToken i) "")) s) (λ res,
    Ok (mkListBucketsOutput (mkOwnerOut (Owner_ID (lbr_Owner res)) (Owner_DisplayName (lbr_Owner res)))
      (ParseString (lbr_NextToken res)) (ParseString (lbr_Prefix res)) (bucket_out <$> lbr_Buckets res))).

(** The output is the Location. *)
Definition Adapter_CreateBucket (now : Time) (i : CreateBucketRequest) s : St * api string :=
  call (st_CreateBucket now (cbi_Bucket i) (deref (cbi_LocationConstraint i) "") s) (λ _, Ok ("/" +:+ cbi_Bucket i)).

Definition Adapter_DeleteBucket (bucket : string) s : St * api unit :=
  call (st_DeleteBucket bucket s) (λ _, Ok ()).

(** The output is the BucketRegion. *)
Definition Adapter_HeadBucket (bucket : string) s : St * api string :=
  call (st_HeadBucket bucket s) (λ b, Ok (Bucket_Region b)).

Definition object_out (o : ObjectMetadata) : ObjectOut :=
  mkObjectOut (om_Key o) (om_LastModified o) (om_ETag o) (om_Size o).

(** [int32(res.KeyCount)] *)
Definition Adapter_ListObjectsV2 (i : ListObjectsV2Request) s : St * api ListObjectsV2Output :=
  let maxKeys := deref (loi_MaxKeys i) 1000 in
  call (st_ListObjects (mkListObjectsOptions (loi_Bucket i) (deref (loi_Prefix i) "") (deref (loi_Delimiter i) "")
      (deref (loi_StartAfter i) "") (deref (loi_ContinuationToken i) "") maxKeys) s) (λ res,
    Ok (mkListObjectsV2Output (lor_Bucket res) (lor_Prefix res) (lor_Delimiter res) maxKeys
      (wrap_s 32 (lor_KeyCount res)) (lor_IsTruncated res) (loi_ContinuationToken i) (loi_StartAfter i)
      (ParseString (lor_NextToken res)) (object_out <$> lor_Objects res) (lor_CommonPrefixes res))).

Definition get_output (obj : Object) : GetObjectOutput :=
  mkGetObjectOutput (Object_Body obj) (Object_Size obj) (Object_ETag obj) (Object_LastModified obj)
    (ParseString (Object_ContentType obj)) (Object_Metadata obj).

Definition Adapter_GetObject (bucket key : string) s : St * api GetObjectOutput :=
  call (st_GetObject bucket key s) (λ obj, Ok (get_output obj)).

(** The output is the ETag. *)
Definition Adapter_PutObject (now : Time) (i : PutObjectRequest) s : St * api string :=
  call (st_PutObject now (mkPutObjectOptions (poi_Bucket i) (poi_Key i) (to_reader <$> poi_Body i)
      (deref (poi_ContentType i) "") (poi_Metadata i)) s) (λ res, Ok (por_ETag res)).

Definition Adapter_DeleteObject (bucket key : string) s : St * api unit :=
  call (st_DeleteObject bucket key s) (λ _, Ok ()).

Definition Adapter_HeadObject (bucket key : string) s : St * api GetObjectOutput :=
  call (st_HeadObject bucket key s) (λ obj, Ok (get_output obj)).

Definition parseCopySource (s : string) : Storage.result (string * string) :=
  let s := TrimPrefix s "/" in
  let s := match IndexByte s "?" with Some i => str_take i s | None => s end in
  let bad := Prelude.Err (Storage.InvalidArgument ("CopySource does not parse: " +:+ s)) in
  match IndexByte s "/" with
  | None => bad
  | Some idx =>
      if (idx =? 0)%nat || (idx =? String.length s - 1)%nat then bad
      else Ok (str_take idx s, str_drop (S idx) s)
  end.

Definition Adapter_CopyObject (now : Time) (i : CopyObjectRequest) s : St * api CopyResultOut :=
  match parseCopySource (coi_CopySource i) with
  | Ok (srcBucket, srcKey) =>
      call (st_CopyObject now (mkCopyObjectOptions srcBucket srcKey (coi_Bucket i) (coi_Key i) ""
          (coi_Metadata i) (deref (coi_ContentType i) "")) s) (λ res,
        Ok (mkCopyResultOut (cor_ETag res) (cor_LastModified res)))
  | Prelude.Err e => (s, Prelude.Err (mapError e))
  | Panic => (s, Panic)
  end.

Definition Adapter_CreateMultipartUpload (now now2 : Time) (i : CreateMultipartUploadRequest) s : St * api string :=
  call (st_CreateMultipartUpload now now2 (cmi_Bucket i) (cmi_Key i) (deref (cmi_ContentType i) "") (cmi_Metadata i) s)
    (λ id, Ok id).

(** [r.Body] is not nil on the server side. *)
Definition Adapter_UploadPart (now : Time) (i : UploadPartRequest) s : St * api string :=
  call (st_UploadPart now (upi_Bucket i) (upi_Key i) (upi_UploadId i) (upi_PartNumber i)
    (to_reader (default (GoHttp.Reads []) (upi_Body i))) s) (λ etag, Ok etag).

Definition part_ref (p : CompletedPart) : CompletePartRef :=
  mkCompletePartRef (deref (cp_PartNumber p) 0) (deref (cp_ETag p) "").

Definition Adapter_CompleteMultipartUpload (now : Time) (i : CompleteMultipartUploadRequest) s : St * api string :=
  call (st_CompleteMultipartUpload now (cui_Bucket i) (cui_Key i) (cui_UploadId i)
    (part_ref <$> default [] (cui_MultipartUpload i)) s) (λ etag, Ok etag).

Definition Adapter_AbortMultipartUpload (bucket key uploadID : string) s : St * api unit :=
  call (st_AbortMultipartUpload bucket key uploadID s) (λ _, Ok ()).

Definition Adapter_ListMultipartUploads (bucket : string) (prefix : option string) s : St * api output :=
  call (st_ListMultipartUploads bucket (deref prefix "") s) (λ ups,
    Ok (ListMultipartUploadsResult bucket prefix
      ((λ u, mkUploadOut (mu_UploadID u) (mu_Key u) (mu_Initiated u)) <$> ups))).

Definition Adapter_ListParts (bucket key uploadID : string) s : St * api output :=
  call (st_ListParts bucket key uploadID s) (λ parts,
    Ok (ListPartsResult bucket key uploadID
      ((λ p, mkPartOut (Part_Number p) (Part_ETag p) (Part_LastModified p) (Part_Size p)) <$> parts))).

(** ** probes.go *)

Definition headExists {B} (bucket : string) s (k : api B) : St * api B :=
  call (st_HeadBucket bucket s) (λ _, k).

Definition GetBucketLocation (bucket : string) s : St * api output :=
  call (st_HeadBucket bucket s) (λ b, Ok (LocationConstraint (Bucket_Region b))).

Definition shim_owner : OwnerOut := mkOwnerOut "shimanism" "shimanism".

(** The probes of a bucket: a fixed error, or a fixed output. *)
Inductive probe :=
  | GetBucketPolicy | GetBucketAcl | GetBucketVersioning | GetBucketLogging | GetBucketCors
  | GetBucketLifecycleConfiguration | GetBucketReplication | GetBucketRequestPayment | GetBucketTagging
  | GetBucketWebsite | GetBucketEncryption | GetBucketAccelerateConfiguration | GetObjectLockConfiguration
  | GetBucketNotificationConfiguration | GetBucketOwnershipControls | GetBucketPolicyStatus
  | GetPublicAccessBlock.

Definition probe_result (p : probe) (bucket : string) : api output :=
  let missing e := Prelude.Err (EShim (e bucket)) in
  match p with
  | GetBucketPolicy => missing NoSuchBucketPolicy
  | GetBucketAcl => Ok (AccessControlPolicy shim_owner)
  | GetBucketVersioning => Ok (EmptyOutput "GetBucketVersioning")
  | GetBucketLogging => Ok (EmptyOutput "GetBucketLogging")
  | GetBucketCors => missing NoSuchCORSConfiguration
  | GetBucketLifecycleConfiguration => missing NoSuchLifecycleConfiguration
  | GetBucketReplication => missing ReplicationConfigurationNotFound
  | GetBucketRequestPayment => Ok (RequestPaymentConfiguration "BucketOwner")
  | GetBucketTagging => missing NoSuchTagSet
  | GetBucketWebsite => missing NoSuchWebsiteConfiguration
  | GetBucketEncryption => missing ServerSideEncryptionConfigurationNotFound
  | GetBucketAccelerateConfiguration => Ok (EmptyOutput "GetBucketAccelerateConfiguration")
  | GetObjectLockConfiguration => missing ObjectLockConfigurationNotFound
  | GetBucketNotificationConfiguration => Ok (EmptyOutput "GetBucketNotificationConfiguration")
  | GetBucketOwnershipControls => missing OwnershipControlsNotFound
  | GetBucketPolicyStatus => missing NoSuchBucketPolicy
  | GetPublicAccessBlock => missing NoSuchPublicAccessBlockConfiguration
  end.
Definition run_probe (p : probe) (bucket : string) s : St * api output :=
  headExists bucket s (probe_result p bucket).

Definition GetObjectTagging (bucket key : string) s : St * api output :=
  call (st_HeadObject bucket key s) (λ _, Ok (EmptyOutput "GetObjectTagging")).
Definition GetObjectAcl (bucket key : string) s : St * api output :=
  call (st_HeadObject bucket key s) (λ _, Ok (AccessControlPolicy shim_owner)).
End adapter.
