(* ===== verification/S3Gen.v ===== *)
(** * The S3 frontend: the generated handlers and routes

    Models [services/storage/gen/aws_s3.gen.go]: each handler matches its URI
    template, decodes the fields the adapter reads (a field that does not parse
    is left out, so the others cannot make a request fail), calls the adapter
    and encodes what it sets; and the table of routes.  [xml.Unmarshal] of the
    two request bodies is the interface [S3Xml]. *)

From Stdlib Require Import Ascii.
From S2P Require Import Prelude GoStrings GoBytes GoTime GoHttp MetaHeaders Storage StorageApi RestXml S3.

(** [None] is a body that does not decode. *)
Class S3Xml := {
  Unmarshal_CompletedMultipartUpload : bytes → option (list CompletedPart);
  Unmarshal_LocationConstraint : bytes → option (option string) }.

Abbreviation Response := (Response (payload output)).

(** The operations of the frontend. *)
Inductive s3_op :=
  | ListBucketsHandler | CreateBucketHandler | DeleteBucketHandler | HeadBucketHandler | ListObjectsV2Handler
  | GetObjectHandler | PutObjectHandler | DeleteObjectHandler | HeadObjectHandler | CopyObjectHandler
  | CreateMultipartUploadHandler | UploadPartHandler | CompleteMultipartUploadHandler
  | AbortMultipartUploadHandler | ListMultipartUploadsHandler | ListPartsHandler | GetBucketLocationHandler
  | ProbeHandler (p : probe) | GetObjectTaggingHandler | GetObjectAclHandler.

(** The templates. *)
Definition probe_template (p : probe) : string * string :=
  match p with
  | GetBucketPolicy => ("GetBucketPolicy", "/{Bucket}?policy")
  | GetBucketAcl => ("GetBucketAcl", "/{Bucket}?acl")
  | GetBucketVersioning => ("GetBucketVersioning", "/{Bucket}?versioning")
  | GetBucketLogging => ("GetBucketLogging", "/{Bucket}?logging")
  | GetBucketCors => ("GetBucketCors", "/{Bucket}?cors")
  | GetBucketLifecycleConfiguration => ("GetBucketLifecycleConfiguration", "/{Bucket}?lifecycle")
  | GetBucketReplication => ("GetBucketReplication", "/{Bucket}?replication")
  | GetBucketRequestPayment => ("GetBucketRequestPayment", "/{Bucket}?requestPayment")
  | GetBucketTagging => ("GetBucketTagging", "/{Bucket}?tagging")
  | GetBucketWebsite => ("GetBucketWebsite", "/{Bucket}?website")
  | GetBucketEncryption => ("GetBucketEncryption", "/{Bucket}?encryption")
  | GetBucketAccelerateConfiguration => ("GetBucketAccelerateConfiguration", "/{Bucket}?accelerate")
  | GetObjectLockConfiguration => ("GetObjectLockConfiguration", "/{Bucket}?object-lock")
  | GetBucketNotificationConfiguration => ("GetBucketNotificationConfiguration", "/{Bucket}?notification")
  | GetBucketOwnershipControls => ("GetBucketOwnershipControls", "/{Bucket}?ownershipControls")
  | GetBucketPolicyStatus => ("GetBucketPolicyStatus", "/{Bucket}?policyStatus")
  | GetPublicAccessBlock => ("GetPublicAccessBlock", "/{Bucket}?publicAccessBlock")
  end.

(** Method, template and name of an operation. *)
Definition op_route (o : s3_op) : string * string * string :=
  match o with
  | ListBucketsHandler => ("GET", "/?x-id=ListBuckets", "ListBuckets")
  | CreateBucketHandler => ("PUT", "/{Bucket}", "CreateBucket")
  | DeleteBucketHandler => ("DELETE", "/{Bucket}", "DeleteBucket")
  | HeadBucketHandler => ("HEAD", "/{Bucket}", "HeadBucket")
  | ListObjectsV2Handler => ("GET", "/{Bucket}?list-type=2", "ListObjectsV2")
  | GetObjectHandler => ("GET", "/{Bucket}/{Key+}?x-id=GetObject", "GetObject")
  | PutObjectHandler => ("PUT", "/{Bucket}/{Key+}?x-id=PutObject", "PutObject")
  | DeleteObjectHandler => ("DELETE", "/{Bucket}/{Key+}?x-id=DeleteObject", "DeleteObject")
  | HeadObjectHandler => ("HEAD", "/{Bucket}/{Key+}", "HeadObject")
  | CopyObjectHandler => ("PUT", "/{Bucket}/{Key+}?x-id=CopyObject", "CopyObject")
  | CreateMultipartUploadHandler => ("POST", "/{Bucket}/{Key+}?uploads", "CreateMultipartUpload")
  | UploadPartHandler => ("PUT", "/{Bucket}/{Key+}?x-id=UploadPart", "UploadPart")
  | CompleteMultipartUploadHandler => ("POST", "/{Bucket}/{Key+}", "CompleteMultipartUpload")
  | AbortMultipartUploadHandler => ("DELETE", "/{Bucket}/{Key+}?x-id=AbortMultipartUpload", "AbortMultipartUpload")
  | ListMultipartUploadsHandler => ("GET", "/{Bucket}?uploads", "ListMultipartUploads")
  | ListPartsHandler => ("GET", "/{Bucket}/{Key+}?x-id=ListParts", "ListParts")
  | GetBucketLocationHandler => ("GET", "/{Bucket}?location", "GetBucketLocation")
  | ProbeHandler p => ("GET", (probe_template p).2, (probe_template p).1)
  | GetObjectTaggingHandler => ("GET", "/{Bucket}/{Key+}?tagging", "GetObjectTagging")
  | GetObjectAclHandler => ("GET", "/{Bucket}/{Key+}?acl", "GetObjectAcl")
  end.
Definition URITemplate (o : s3_op) : string := (op_route o).1.2.

(** ** Decoding *)

(** [if p, err := restxml.ParseInt32(v); err == nil && p != nil { in.X = p }] *)
Definition int32_field (v : string) : option Z :=
  match ParseInt32 v with Ok p => p | _ => None end.

(** One header of the request, by its lower-case name. *)
Definition amz_entry (hk : string) (hvs : list string) (out : gmap string string) : gmap string string :=
  match hvs with
  | v :: _ => if HasPrefix (ToLower hk) "x-amz-meta-"
              then <[TrimPrefix (ToLower hk) "x-amz-meta-" := v]> out else out
  | [] => out
  end.
Definition amz_metadata (h : gmap string (list string)) : strmap :=
  let out := map_fold amz_entry ∅ h in if decide (out = ∅) then None else Some out.

(** [io.ReadAll(r.Body)] with the error dropped: a body that fails is taken to
    fail before its first byte. *)
Definition read_body (r : Request) : bytes :=
  match Body r with Some (GoHttp.Reads d) => d | _ => [] end.

(** [if len(_payload) > 0 { if err := xml.Unmarshal(...); err == nil { ... } }] *)
Definition decode_body {A} (unmarshal : bytes → option A) (r : Request) : option A :=
  match read_body r with [] => None | b => unmarshal b end.

(** ** Handlers *)

Section handlers.
Context `{Storage_ St} `{S3Xml}.
Implicit Types (s : St) (h : gmap string string).

Definition set_some (k : string) (v : option string) h : gmap string string :=
  match v with Some v => Set_ k v h | None => h end.

(** The error check after the call, and the encoding of the output. *)
Definition reply {A} (c : St * api A) (k : A → Response) : St * option Response :=
  (c.1, match c.2 with
        | Ok a => Some (k a)
        | Prelude.Err e => Some (WriteBackendError ∅ e)
        | Panic => None
        end).

Definition xml_200 (o : output) : Response := mkResponse 200 (xml_header ∅) (Xml o).
Definition status_only (status : Z) (h : gmap string string) : Response := mkResponse status h (Raw []).

Definition object_headers (out : GetObjectOutput) : gmap string string :=
  set_metadata "x-amz-meta-" (go_Metadata out)
    (Set_ "Last-Modified" (Format_http (go_LastModified out))
      (Set_ "ETag" (go_ETag out)
        (set_some "Content-Type" (go_ContentType out)
          (Set_ "Content-Length" (Itoa (go_ContentLength out)) ∅)))).

(** ** Handlers, once their labels are matched

    The labels and the parameters of a request. *)

Abbreviation labels_t := (gmap string string).
Definition label_bucket (l : labels_t) : string := default "" (l !! "Bucket").
Definition label_key (l : labels_t) : string := default "" (l !! "Key").
Definition query_field (r : Request) (name : string) : option string := ParseString (Query_Get (Query r) name).
Definition header_field (r : Request) (name : string) : option string := ParseString (Header_Get r name).
Definition uploadId_of (r : Request) : string := Query_Get (Query r) "uploadId".

Definition serve_ListBuckets (r : Request) s : St * option Response :=
  reply (Adapter_ListBuckets (mkListBucketsRequest (query_field r "prefix") (query_field r "bucket-region")
      (int32_field (Query_Get (Query r) "max-buckets")) (query_field r "continuation-token")) s)
    (λ out, xml_200 (ListAllMyBucketsResult out)).

Definition serve_CreateBucket (now : Time) (r : Request) (l : labels_t) s : St * option Response :=
  reply (Adapter_CreateBucket now
      (mkCreateBucketRequest (label_bucket l) (default None (decode_body Unmarshal_LocationConstraint r))) s)
    (λ location, status_only 200 (Set_ "Location" location ∅)).

Definition serve_DeleteBucket (l : labels_t) s : St * option Response :=
  reply (Adapter_DeleteBucket (label_bucket l) s) (λ _, status_only 204 ∅).

Definition serve_HeadBucket (l : labels_t) s : St * option Response :=
  reply (Adapter_HeadBucket (label_bucket l) s) (λ region, status_only 200 (Set_ "x-amz-bucket-region" region ∅)).

Definition serve_ListObjectsV2 (r : Request) (l : labels_t) s : St * option Response :=
  reply (Adapter_ListObjectsV2 (mkListObjectsV2Request (label_bucket l) (query_field r "prefix")
      (query_field r "delimiter") (query_field r "start-after") (query_field r "continuation-token")
      (int32_field (Query_Get (Query r) "max-keys"))) s)
    (λ out, xml_200 (ListBucketResult out)).

Definition serve_GetObject (l : labels_t) s : St * option Response :=
  reply (Adapter_GetObject (label_bucket l) (label_key l) s)
    (λ out, mkResponse 200 (object_headers out) (Raw (default [] (go_Body out)))).

Definition serve_PutObject (now : Time) (r : Request) (l : labels_t) s : St * option Response :=
  reply (Adapter_PutObject now (mkPutObjectRequest (label_bucket l) (label_key l) (Body r) (header_field r "Content-Type")
      (amz_metadata (Header r))) s)
    (λ etag, status_only 200 (Set_ "ETag" etag ∅)).

Definition serve_DeleteObject (l : labels_t) s : St * option Response :=
  reply (Adapter_DeleteObject (label_bucket l) (label_key l) s) (λ _, status_only 204 ∅).

Definition serve_HeadObject (l : labels_t) s : St * option Response :=
  reply (Adapter_HeadObject (label_bucket l) (label_key l) s) (λ out, status_only 200 (object_headers out)).

Definition serve_CopyObject (now : Time) (r : Request) (l : labels_t) s : St * option Response :=
  reply (Adapter_CopyObject now (mkCopyObjectRequest (label_bucket l) (label_key l) (Header_Get r "x-amz-copy-source")
      (header_field r "Content-Type") (amz_metadata (Header r))) s)
    (λ out, xml_200 (CopyObjectResultXml out)).

Definition serve_CreateMultipartUpload (now now2 : Time) (r : Request) (l : labels_t) s : St * option Response :=
  reply (Adapter_CreateMultipartUpload now now2 (mkCreateMultipartUploadRequest (label_bucket l) (label_key l)
      (header_field r "Content-Type") (amz_metadata (Header r))) s)
    (λ id, xml_200 (InitiateMultipartUploadResult (label_bucket l) (label_key l) id)).

Definition serve_UploadPart (now : Time) (r : Request) (l : labels_t) s : St * option Response :=
  reply (Adapter_UploadPart now (mkUploadPartRequest (label_bucket l) (label_key l) (uploadId_of r)
      (deref (int32_field (Query_Get (Query r) "partNumber")) 0) (Body r)) s)
    (λ etag, status_only 200 (Set_ "ETag" etag ∅)).

Definition serve_CompleteMultipartUpload (now : Time) (r : Request) (l : labels_t) s : St * option Response :=
  reply (Adapter_CompleteMultipartUpload now (mkCompleteMultipartUploadRequest (label_bucket l) (label_key l)
      (uploadId_of r) (decode_body Unmarshal_CompletedMultipartUpload r)) s)
    (λ etag, xml_200 (CompleteMultipartUploadResult (label_bucket l) (label_key l) etag)).

Definition serve_AbortMultipartUpload (r : Request) (l : labels_t) s : St * option Response :=
  reply (Adapter_AbortMultipartUpload (label_bucket l) (label_key l) (uploadId_of r) s) (λ _, status_only 204 ∅).

Definition serve_ListMultipartUploads (r : Request) (l : labels_t) s : St * option Response :=
  reply (Adapter_ListMultipartUploads (label_bucket l) (query_field r "prefix") s) xml_200.

Definition serve_ListParts (r : Request) (l : labels_t) s : St * option Response :=
  reply (Adapter_ListParts (label_bucket l) (label_key l) (uploadId_of r) s) xml_200.

Definition serve_GetBucketLocation (l : labels_t) s : St * option Response :=
  reply (GetBucketLocation (label_bucket l) s) xml_200.
Definition serve_probe (p : probe) (l : labels_t) s : St * option Response :=
  reply (run_probe p (label_bucket l) s) xml_200.
Definition serve_GetObjectTagging (l : labels_t) s : St * option Response :=
  reply (GetObjectTagging (label_bucket l) (label_key l) s) xml_200.
Definition serve_GetObjectAcl (l : labels_t) s : St * option Response :=
  reply (GetObjectAcl (label_bucket l) (label_key l) s) xml_200.

Definition handle (o : s3_op) (now now2 : Time) (r : Request) (l : labels_t) s : St * option Response :=
  match o with
  | ListBucketsHandler => serve_ListBuckets r s
  | CreateBucketHandler => serve_CreateBucket now r l s
  | DeleteBucketHandler => serve_DeleteBucket l s
  | HeadBucketHandler => serve_HeadBucket l s
  | ListObjectsV2Handler => serve_ListObjectsV2 r l s
  | GetObjectHandler => serve_GetObject l s
  | PutObjectHandler => serve_PutObject now r l s
  | DeleteObjectHandler => serve_DeleteObject l s
  | HeadObjectHandler => serve_HeadObject l s
  | CopyObjectHandler => serve_CopyObject now r l s
  | CreateMultipartUploadHandler => serve_CreateMultipartUpload now now2 r l s
  | UploadPartHandler => serve_UploadPart now r l s
  | CompleteMultipartUploadHandler => serve_CompleteMultipartUpload now r l s
  | AbortMultipartUploadHandler => serve_AbortMultipartUpload r l s
  | ListMultipartUploadsHandler => serve_ListMultipartUploads r l s
  | ListPartsHandler => serve_ListParts r l s
  | GetBucketLocationHandler => serve_GetBucketLocation l s
  | ProbeHandler p => serve_probe p l s
  | GetObjectTaggingHandler => serve_GetObjectTagging l s
  | GetObjectAclHandler => serve_GetObjectAcl l s
  end.

(** A handler: the labels of its template first. *)
Definition serve_op (now now2 : Time) (o : s3_op) (r : Request) s : St * option Response :=
  match MatchURI (MatchPath r) (URITemplate o) with
  | None => (s, Some (WriteError ∅ 400 "InvalidURI" "path does not match operation template"))
  | Some labels => handle o now now2 r labels s
  end.
End handlers.

Create HintDb s3_handlers.
#[export] Hint Unfold handle serve_ListBuckets serve_CreateBucket serve_DeleteBucket serve_HeadBucket serve_ListObjectsV2
  serve_GetObject serve_PutObject serve_DeleteObject serve_HeadObject serve_CopyObject serve_CreateMultipartUpload
  serve_UploadPart serve_CompleteMultipartUpload serve_AbortMultipartUpload serve_ListMultipartUploads serve_ListParts
  serve_GetBucketLocation serve_probe serve_GetObjectTagging serve_GetObjectAcl query_field header_field uploadId_of
  : s3_handlers.

(** ** Routes *)

(** The sub-resources of a bucket or object that are operations of their own. *)
Definition feature_queries : list string :=
  ["acl"; "accelerate"; "analytics"; "attributes"; "cors"; "encryption"; "intelligent-tiering"; "inventory";
   "legal-hold"; "lifecycle"; "logging"; "metrics"; "notification"; "object-lock"; "ownershipControls"; "policy";
   "policyStatus"; "publicAccessBlock"; "replication"; "requestPayment"; "restore"; "retention"; "select"; "tagging";
   "torrent"; "versioning"; "website"].

Definition op_options (o : s3_op) : RouteOptions :=
  match o with
  | DeleteBucketHandler | HeadBucketHandler | ListObjectsV2Handler | GetObjectHandler | PutObjectHandler
  | DeleteObjectHandler | HeadObjectHandler => mkRouteOptions [] [] feature_queries
  | CopyObjectHandler => mkRouteOptions ["x-amz-copy-source"] [] feature_queries
  | UploadPartHandler => mkRouteOptions [] ["partNumber"; "uploadId"] []
  | CompleteMultipartUploadHandler | AbortMultipartUploadHandler | ListPartsHandler =>
      mkRouteOptions [] ["uploadId"] []
  | _ => mkRouteOptions [] [] []
  end.

(** The order of the registrations. *)
Definition s3_ops : list s3_op :=
  [ListBucketsHandler; CreateBucketHandler; DeleteBucketHandler; HeadBucketHandler; ListObjectsV2Handler;
   GetObjectHandler; PutObjectHandler; DeleteObjectHandler; HeadObjectHandler; CopyObjectHandler;
   CreateMultipartUploadHandler; UploadPartHandler; CompleteMultipartUploadHandler; AbortMultipartUploadHandler;
   ListMultipartUploadsHandler; ListPartsHandler; GetBucketLocationHandler;
   ProbeHandler GetBucketPolicy; ProbeHandler GetBucketAcl; ProbeHandler GetBucketVersioning;
   ProbeHandler GetBucketLogging; ProbeHandler GetBucketCors; ProbeHandler GetBucketLifecycleConfiguration;
   ProbeHandler GetBucketReplication; ProbeHandler GetBucketRequestPayment; ProbeHandler GetBucketTagging;
   ProbeHandler GetBucketWebsite; ProbeHandler GetBucketEncryption; ProbeHandler GetBucketAccelerateConfiguration;
   ProbeHandler GetObjectLockConfiguration; ProbeHandler GetBucketNotificationConfiguration;
   ProbeHandler GetBucketOwnershipControls; ProbeHandler GetBucketPolicyStatus; ProbeHandler GetPublicAccessBlock;
   GetObjectTaggingHandler; GetObjectAclHandler].

Definition register_op (r : Router s3_op) (o : s3_op) : Router s3_op :=
  let '(method, template, name) := op_route o in Register method template name o [op_options o] r.
Definition RegisterAmazonS3Routes (r : Router s3_op) : Router s3_op := fold_left register_op s3_ops r.

(** The frontend: the router with the routes registered. *)
Definition s3_router : Router s3_op := RegisterAmazonS3Routes (mkRouter [] false).
Definition S3_ServeHTTP `{Storage_ St} `{S3Xml} (now now2 : Time) (r : Request) (rt : Router s3_op) (s : St)
    : Router s3_op * (St * option Response) :=
  RestXml.ServeHTTP (λ o req s, serve_op now now2 o req s) r rt s.

Example s3_routes : length (routes s3_router) = 36%nat.
Proof. vm_compute. reflexivity. Qed.
