(* ===== verification/S3Props.v ===== *)
(** * The S3 frontend: properties

    Which operation a request reaches; objects put through the frontend are
    read back over any backend that keeps the contract of the interface; every
    request is answered. *)

From Stdlib Require Import Ascii.
From S2P Require Import Prelude GoStrings GoBytes GoTime GoHttp GoUrl MetaHeaders Storage StorageProps StorageApi RestXml S3 S3Gen.

(** ** The sorted table of routes *)

Definition route_of (o : s3_op) : route s3_op :=
  let '(method, template, name) := op_route o in
  let '(path, query) := splitTemplate template in
  let opts := op_options o in
  mkRoute method path (delete "x-id" query) (ro_RequiredHeaders opts ++ []) (ro_RequiredQueries opts ++ [])
    (ro_ForbiddenQueries opts ++ []) o name.

Definition by_specificity : list s3_op :=
  sort_by (λ x y, more_specific (route_of x) (route_of y)) s3_ops.

Lemma s3_router_sorted : sort_by more_specific (routes s3_router) = route_of <$> by_specificity.
Proof. vm_compute. reflexivity. Qed.

Lemma s3_router_ok : router_ok s3_router.
Proof. by left. Qed.

(** The fixed query of an operation's template, its path and its method. *)
Definition op_query (o : s3_op) : option (string * string) :=
  match o with
  | ListObjectsV2Handler => Some ("list-type", "2")
  | CreateMultipartUploadHandler | ListMultipartUploadsHandler => Some ("uploads", "")
  | GetBucketLocationHandler => Some ("location", "")
  | ProbeHandler p => Some (
      match p with
      | GetBucketPolicy => "policy" | GetBucketAcl => "acl" | GetBucketVersioning => "versioning"
      | GetBucketLogging => "logging" | GetBucketCors => "cors" | GetBucketLifecycleConfiguration => "lifecycle"
      | GetBucketReplication => "replication" | GetBucketRequestPayment => "requestPayment"
      | GetBucketTagging => "tagging" | GetBucketWebsite => "website" | GetBucketEncryption => "encryption"
      | GetBucketAccelerateConfiguration => "accelerate" | GetObjectLockConfiguration => "object-lock"
      | GetBucketNotificationConfiguration => "notification" | GetBucketOwnershipControls => "ownershipControls"
      | GetBucketPolicyStatus => "policyStatus" | GetPublicAccessBlock => "publicAccessBlock"
      end, "")
  | GetObjectTaggingHandler => Some ("tagging", "")
  | GetObjectAclHandler => Some ("acl", "")
  | _ => None
  end.

Inductive level := Service | BucketLevel | ObjectLevel.
Definition op_level (o : s3_op) : level :=
  match o with
  | ListBucketsHandler => Service
  | CreateBucketHandler | DeleteBucketHandler | HeadBucketHandler | ListObjectsV2Handler
  | ListMultipartUploadsHandler | GetBucketLocationHandler | ProbeHandler _ => BucketLevel
  | _ => ObjectLevel
  end.
Definition level_path (l : level) : string :=
  match l with Service => "/" | BucketLevel => "/{Bucket}" | ObjectLevel => "/{Bucket}/{Key+}" end.

Lemma route_of_fields o :
  rt_Method (route_of o) = (op_route o).1.1 ∧ rt_Path (route_of o) = level_path (op_level o) ∧
  before_query (URITemplate o) = level_path (op_level o) ∧
  rt_Query (route_of o) = from_option (λ kv, {[kv.1 := kv.2]}) ∅ (op_query o) ∧
  rt_RequiredHeaders (route_of o) = ro_RequiredHeaders (op_options o) ∧
  rt_RequiredQueries (route_of o) = ro_RequiredQueries (op_options o) ∧
  rt_ForbiddenQueries (route_of o) = ro_ForbiddenQueries (op_options o) ∧ rt_Handler (route_of o) = o.
Proof.
  destruct o as [| | | | | | | | | | | | | | | | |p| |]; [..|destruct p| |];
    repeat (split; [reflexivity|]); reflexivity.
Qed.

(** ** The operation a request reaches *)

Definition has (r : Request) (name : string) : bool := present (Query r) name.
Definition asks_feature (r : Request) : bool := queriesPresentAny (Query r) feature_queries.

(** The path matches the templates of a level. *)
Definition at_level (r : Request) (l : level) : bool := bool_decide (is_Some (MatchURI (MatchPath r) (level_path l))).

Definition op_conditions (r : Request) (o : s3_op) : bool :=
  from_option (query_match (Query r)) true (op_query o) && headersPresent r (ro_RequiredHeaders (op_options o)) &&
  queriesPresent (Query r) (ro_RequiredQueries (op_options o)) &&
  negb (queriesPresentAny (Query r) (ro_ForbiddenQueries (op_options o))).

Lemma MatchURI_before path t : MatchURI path (before_query t) = MatchURI path t.
Proof.
  unfold MatchURI. f_equal. unfold before_query. destruct (IndexByte t "?") as [i|] eqn:E; [|by rewrite E].
  apply IndexByte_Some in E as [_ E]. by rewrite (proj2 (IndexByte_None _ "?") E).
Qed.

Lemma op_matches r o :
  route_matches r (route_of o) =
  String.eqb (op_route o).1.1 (Method r) && at_level r (op_level o) && op_conditions r o.
Proof.
  destruct (route_of_fields o) as (E1 & E2 & _ & E3 & E4 & E5 & E6 & _).
  unfold route_matches, op_conditions, at_level. rewrite E1, E2, E3, E4, E5, E6.
  assert (queryMatches (Query r) (from_option (λ kv, {[kv.1 := kv.2]}) ∅ (op_query o)) =
    from_option (query_match (Query r)) true (op_query o)) as ->.
  { unfold queryMatches. destruct (op_query o) as [[k v]|]; cbn [from_option fst snd].
    - rewrite map_to_list_singleton. cbn. by rewrite andb_true_r.
    - by rewrite map_to_list_empty. }
  by rewrite !andb_assoc.
Qed.

Fixpoint first_op (f : s3_op → bool) (l : list s3_op) : option s3_op :=
  match l with [] => None | o :: l => if f o then Some o else first_op f l end.

Lemma dispatch_first_op r :
  rt_Handler <$> (dispatch r s3_router).2 =
  first_op (λ o, String.eqb (op_route o).1.1 (Method r) && at_level r (op_level o) && op_conditions r o) by_specificity.
Proof.
  unfold dispatch. cbn [snd]. rewrite (routes_sorted _ s3_router_ok), s3_router_sorted.
  induction by_specificity as [|o l IH]; [done|]. rewrite fmap_cons. cbn [first_match first_op].
  rewrite op_matches. destruct (_ && op_conditions r o); [|exact IH].
  cbn. f_equal. apply route_of_fields.
Qed.

Lemma first_op_filter f g l :
  (∀ o, g o = false → f o = false) → first_op f l = first_op f (List.filter g l).
Proof.
  intros H. induction l as [|o l IH]; [done|]. cbn [List.filter]. destruct (g o) eqn:E; cbn [first_op].
  - by rewrite IH.
  - by rewrite (H o E).
Qed.

(** The operations of a method at an object's path, most specific first. *)
Definition object_ops (method : string) : list s3_op :=
  List.filter (λ o, String.eqb (op_route o).1.1 method && match op_level o with ObjectLevel => true | _ => false end)
    by_specificity.
(** At a bucket's path the object templates match with an empty key. *)
Definition bucket_ops (method : string) : list s3_op :=
  List.filter (λ o, String.eqb (op_route o).1.1 method && match op_level o with Service => false | _ => true end)
    by_specificity.

Lemma first_op_ext f g l : (∀ o, o ∈ l → f o = g o) → first_op f l = first_op g l.
Proof.
  induction l as [|o l IH]; intros H; [done|]. cbn [first_op]. rewrite (H o) by left. rewrite IH; [done|].
  intros o' Ho'. apply H. by right.
Qed.

Lemma elem_of_object_ops m o : o ∈ object_ops m → (op_route o).1.1 = m ∧ op_level o = ObjectLevel.
Proof.
  unfold object_ops. rewrite list_elem_of_In, filter_In. intros [_ [H1 H2]%andb_true_iff].
  apply String.eqb_eq in H1. by destruct (op_level o).
Qed.

(** The shapes of paths: an object's, a bucket's and the root. *)
Definition object_path (r : Request) : Prop :=
  at_level r Service = false ∧ at_level r BucketLevel = false ∧ at_level r ObjectLevel = true.
Definition bucket_path (r : Request) : Prop :=
  at_level r Service = false ∧ at_level r BucketLevel = true ∧ at_level r ObjectLevel = true.

Lemma dispatch_object r :
  object_path r → rt_Handler <$> (dispatch r s3_router).2 = first_op (op_conditions r) (object_ops (Method r)).
Proof.
  intros (H1 & H2 & H3). rewrite dispatch_first_op.
  rewrite (first_op_filter _ (λ o, String.eqb (op_route o).1.1 (Method r) &&
    match op_level o with ObjectLevel => true | _ => false end)).
  - apply first_op_ext. intros o Ho. apply elem_of_object_ops in Ho as [-> ->]. by rewrite H3, String.eqb_refl.
  - intros o. destruct (String.eqb _ _); [|done]. cbn [andb]. destruct (op_level o); [by rewrite H1|by rewrite H2|done].
Qed.

Lemma dispatch_bucket r :
  bucket_path r → rt_Handler <$> (dispatch r s3_router).2 = first_op (op_conditions r) (bucket_ops (Method r)).
Proof.
  intros (H1 & H2 & H3). rewrite dispatch_first_op.
  rewrite (first_op_filter _ (λ o, String.eqb (op_route o).1.1 (Method r) &&
    match op_level o with Service => false | _ => true end)).
  - apply first_op_ext. intros o Ho. unfold bucket_ops in Ho. rewrite list_elem_of_In, filter_In in Ho.
    destruct Ho as [_ Ho]. apply andb_true_iff in Ho as [Hm Hl]. rewrite Hm. by destruct (op_level o); [|rewrite H2|rewrite H3].
  - intros o. destruct (String.eqb _ _); [|done]. cbn [andb]. by destruct (op_level o); [rewrite H1|..].
Qed.

(** The operation of a request at an object's path, by the parameters that
    distinguish it. *)
Definition object_route (r : Request) : option s3_op :=
  let plain := negb (asks_feature r) in
  if String.eqb (Method r) "GET" then
    if has r "uploadId" then Some ListPartsHandler
    else if has r "tagging" then Some GetObjectTaggingHandler
    else if has r "acl" then Some GetObjectAclHandler
    else if plain then Some GetObjectHandler else None
  else if String.eqb (Method r) "PUT" then
    if has r "partNumber" && has r "uploadId" then Some UploadPartHandler
    else if negb (String.eqb (Header_Get r "x-amz-copy-source") "") && plain then Some CopyObjectHandler
    else if plain then Some PutObjectHandler else None
  else if String.eqb (Method r) "POST" then
    if has r "uploads" then Some CreateMultipartUploadHandler
    else if has r "uploadId" then Some CompleteMultipartUploadHandler else None
  else if String.eqb (Method r) "DELETE" then
    if has r "uploadId" then Some AbortMultipartUploadHandler
    else if plain then Some DeleteObjectHandler else None
  else if String.eqb (Method r) "HEAD" then if plain then Some HeadObjectHandler else None
  else None.

(** The same at a bucket's path. *)
Definition bucket_route (r : Request) : option s3_op :=
  let plain := negb (asks_feature r) in
  if String.eqb (Method r) "PUT" then
    if has r "partNumber" && has r "uploadId" then Some UploadPartHandler
    else if negb (String.eqb (Header_Get r "x-amz-copy-source") "") && plain then Some CopyObjectHandler
    else Some CreateBucketHandler
  else if String.eqb (Method r) "POST" then
    if has r "uploads" then Some CreateMultipartUploadHandler
    else if has r "uploadId" then Some CompleteMultipartUploadHandler else None
  else if String.eqb (Method r) "DELETE" then
    if has r "uploadId" then Some AbortMultipartUploadHandler
    else if plain then Some DeleteBucketHandler else None
  else if String.eqb (Method r) "HEAD" then if plain then Some HeadBucketHandler else None
  else if String.eqb (Method r) "GET" then first_op (op_conditions r) (bucket_ops "GET")
  else None.

Lemma methods_only m :
  m ≠ "GET" → m ≠ "PUT" → m ≠ "POST" → m ≠ "DELETE" → m ≠ "HEAD" →
  object_ops m = [] ∧ bucket_ops m = [].
Proof.
  intros H1 H2 H3 H4 H5.
  assert (∀ o, (op_route o).1.1 ≠ m) as Hm by (intros o; by destruct o; cbn).
  unfold object_ops, bucket_ops.
  split; induction by_specificity as [|o l IH]; cbn [List.filter]; rewrite ?(proj2 (String.eqb_neq _ _) (Hm o)); done.
Qed.

Lemma conditions_plain r o :
  op_options o = mkRouteOptions [] [] feature_queries → op_query o = None →
  op_conditions r o = negb (asks_feature r).
Proof. intros E1 E2. unfold op_conditions. rewrite E1, E2. done. Qed.

Lemma conditions_queries r o names :
  op_options o = mkRouteOptions [] names [] → op_query o = None →
  op_conditions r o = forallb (has r) names.
Proof. intros E1 E2. unfold op_conditions. rewrite E1, E2. cbn. by rewrite andb_true_r. Qed.

Lemma conditions_feature r o name :
  op_options o = mkRouteOptions [] [] [] → op_query o = Some (name, "") →
  op_conditions r o = has r name.
Proof. intros E1 E2. unfold op_conditions. rewrite E1, E2. cbn. unfold query_match. cbn. by rewrite !andb_true_r. Qed.

Lemma conditions_copy r :
  op_conditions r CopyObjectHandler =
  negb (String.eqb (Header_Get r "x-amz-copy-source") "") && negb (asks_feature r).
Proof. unfold op_conditions. cbn. by rewrite !andb_true_r. Qed.

Lemma object_route_spec r : first_op (op_conditions r) (object_ops (Method r)) = object_route r.
Proof.
  unfold object_route.
  destruct (String.eqb_spec (Method r) "GET") as [->|?].
  { change (object_ops "GET") with [ListPartsHandler; GetObjectTaggingHandler; GetObjectAclHandler; GetObjectHandler].
    cbn [first_op]. rewrite (conditions_queries r ListPartsHandler ["uploadId"]), (conditions_feature r GetObjectTaggingHandler "tagging"),
      (conditions_feature r GetObjectAclHandler "acl"), (conditions_plain r GetObjectHandler) by done.
    cbn [forallb]. by rewrite andb_true_r. }
  destruct (String.eqb_spec (Method r) "PUT") as [->|?].
  { change (object_ops "PUT") with [UploadPartHandler; CopyObjectHandler; PutObjectHandler].
    cbn [first_op]. rewrite (conditions_queries r UploadPartHandler ["partNumber"; "uploadId"]), conditions_copy,
      (conditions_plain r PutObjectHandler) by done. cbn [forallb]. by rewrite andb_true_r. }
  destruct (String.eqb_spec (Method r) "POST") as [->|?].
  { change (object_ops "POST") with [CreateMultipartUploadHandler; CompleteMultipartUploadHandler].
    cbn [first_op]. rewrite (conditions_feature r CreateMultipartUploadHandler "uploads"),
      (conditions_queries r CompleteMultipartUploadHandler ["uploadId"]) by done. cbn [forallb]. by rewrite andb_true_r. }
  destruct (String.eqb_spec (Method r) "DELETE") as [->|?].
  { change (object_ops "DELETE") with [AbortMultipartUploadHandler; DeleteObjectHandler].
    cbn [first_op]. rewrite (conditions_queries r AbortMultipartUploadHandler ["uploadId"]),
      (conditions_plain r DeleteObjectHandler) by done. cbn [forallb]. by rewrite andb_true_r. }
  destruct (String.eqb_spec (Method r) "HEAD") as [->|?].
  { change (object_ops "HEAD") with [HeadObjectHandler]. cbn [first_op].
    by rewrite (conditions_plain r HeadObjectHandler). }
  by destruct (methods_only (Method r)) as [-> _].
Qed.

Lemma bucket_route_spec r : first_op (op_conditions r) (bucket_ops (Method r)) = bucket_route r.
Proof.
  unfold bucket_route.
  destruct (String.eqb_spec (Method r) "PUT") as [->|?].
  { change (bucket_ops "PUT") with [UploadPartHandler; CopyObjectHandler; CreateBucketHandler; PutObjectHandler].
    cbn [first_op]. rewrite (conditions_queries r UploadPartHandler ["partNumber"; "uploadId"]), conditions_copy by done.
    cbn [forallb]. by rewrite andb_true_r. }
  destruct (String.eqb_spec (Method r) "POST") as [->|?].
  { change (bucket_ops "POST") with [CreateMultipartUploadHandler; CompleteMultipartUploadHandler].
    cbn [first_op]. rewrite (conditions_feature r CreateMultipartUploadHandler "uploads"),
      (conditions_queries r CompleteMultipartUploadHandler ["uploadId"]) by done. cbn [forallb]. by rewrite andb_true_r. }
  destruct (String.eqb_spec (Method r) "DELETE") as [->|?].
  { change (bucket_ops "DELETE") with [AbortMultipartUploadHandler; DeleteBucketHandler; DeleteObjectHandler].
    cbn [first_op]. rewrite (conditions_queries r AbortMultipartUploadHandler ["uploadId"]),
      (conditions_plain r DeleteBucketHandler), (conditions_plain r DeleteObjectHandler) by done. cbn [forallb].
    rewrite andb_true_r. by destruct (has r "uploadId"), (negb (asks_feature r)). }
  destruct (String.eqb_spec (Method r) "HEAD") as [->|?].
  { change (bucket_ops "HEAD") with [HeadBucketHandler; HeadObjectHandler]. cbn [first_op].
    rewrite (conditions_plain r HeadBucketHandler), (conditions_plain r HeadObjectHandler) by done.
    by destruct (negb (asks_feature r)). }
  destruct (String.eqb_spec (Method r) "GET") as [->|?]; [done|].
  by destruct (methods_only (Method r)) as [_ ->].
Qed.

(** ** Metadata *)

Lemma amz_prefix k :
  canonical_name k →
  match decide (HasPrefix k "X-Amz-Meta-" = true) with
  | left _ => HasPrefix (ToLower k) "x-amz-meta-" = true ∧
      TrimPrefix (ToLower k) "x-amz-meta-" = ToLower (str_drop 11 k)
  | right _ => HasPrefix (ToLower k) "x-amz-meta-" = false
  end.
Proof.
  intros [_ Hc]. case_decide as H.
  - apply HasPrefix_spec in H as [t ->]. rewrite (str_drop_app "X-Amz-Meta-").
    rewrite ToLower_app. change (ToLower "X-Amz-Meta-") with "x-amz-meta-".
    by rewrite HasPrefix_app, TrimPrefix_app.
  - apply not_true_is_false. intros [t Ht]%HasPrefix_spec. destruct H. apply HasPrefix_spec.
    exists (canonical_case true t). rewrite <-Hc, <-canonical_case_lower, Ht. done.
Qed.

Lemma amz_metadata_default h :
  canonical_headers h → default ∅ (amz_metadata h) = map_fold (meta_entry "X-Amz-Meta-") ∅ h.
Proof.
  intros Hc. assert (map_fold amz_entry ∅ h = map_fold (meta_entry "X-Amz-Meta-") ∅ h) as E.
  { apply map_fold_agree. intros k vs out Hk. unfold amz_entry, meta_entry. destruct vs as [|v vs]; [done|].
    pose proof (amz_prefix k (Hc k ltac:(eauto))) as Hp. destruct (decide _) as [H|H].
    - rewrite H. destruct Hp as [-> ->]. done.
    - apply not_true_is_false in H. by rewrite H, Hp. }
  unfold amz_metadata. rewrite E. by case_decide as Hd; [rewrite Hd|].
Qed.

(** ** Paths *)

(** The request's URL is what net/http makes of the client's path of an
    object. *)
Definition arrives (r : Request) (bucket key : string) : Prop :=
  setPath (s3_path bucket key) = Some (URL_Path r, RawPath r).

Lemma arrives_path r b k :
  all_bytes bucket_byte b = true → arrives r b k → ∃ rest, MatchPath r = String "/" (b +:+ String "/" rest).
Proof.
  intros Hb Ha. destruct (bucket_facts b Hb) as (_ & _ & Hesc & _). unfold arrives in Ha.
  rewrite s3_path_escaped, setPath_escaped in Ha by done. unfold MatchPath.
  assert (escape_with s3_keeps (String "/" (b +:+ String "/" k)) =
    String "/" (b +:+ String "/" (escape_with s3_keeps k))) as E by (rewrite <-s3_path_escaped; unfold s3_path; by rewrite Hesc).
  remember (String "/" (b +:+ String "/" k)) as p eqn:Ep. injection Ha as <- <-.
  destruct (all_bytes _ p).
  - rewrite String.eqb_refl. rewrite Ep. by exists k.
  - rewrite E. by exists (escape_with s3_keeps k).
Qed.

Lemma MatchURI_root t : t ≠ "" → MatchURI (String "/" t) "/" = None.
Proof.
  intros Ht. unfold MatchURI. rewrite splitURIPath_slash by done.
  change (splitURIPath (before_query "/")) with (@nil string). pose proof (Split_nonempty t "/").
  by destruct (Split t "/").
Qed.

Lemma MatchURI_bucket b rest :
  b ≠ "" → str_mem "/" b = false → MatchURI (String "/" (b +:+ String "/" rest)) "/{Bucket}" = None.
Proof.
  intros Hb Hs. unfold MatchURI. rewrite splitURIPath_slash by (by destruct b).
  change (splitURIPath (before_query "/{Bucket}")) with ["{Bucket}"]. rewrite Split_app by done. cbn [match_parts].
  change (isLabel "{Bucket}") with true. change (labelName "{Bucket}") with ("Bucket", false). cbn [negb].
  destruct (PathUnescape b); [|done]. pose proof (Split_nonempty rest "/"). by destruct (Split rest "/").
Qed.

(** An object's path as the handlers see it. *)
Lemma arrives_matches r b k k' :
  b ≠ "" → all_bytes bucket_byte b = true → arrives r b k → seen_key k = Some k' →
  object_path r ∧ MatchURI (MatchPath r) "/{Bucket}/{Key+}" = Some (<["Key" := k']> {["Bucket" := b]}).
Proof.
  intros Hne Hb Ha Hk. destruct (bucket_facts b Hb) as (Hs & _).
  assert (MatchURI (MatchPath r) "/{Bucket}/{Key+}" = Some (<["Key" := k']> {["Bucket" := b]})) as E.
  { rewrite (s3_key_seen r b k _ _ Hne Hb Ha eq_refl eq_refl). by rewrite Hk. }
  split; [|done]. unfold object_path, at_level, level_path. rewrite E.
  destruct (arrives_path r b k Hb Ha) as [rest ->].
  rewrite MatchURI_root by (by destruct b). rewrite MatchURI_bucket by done. done.
Qed.

(** ** One request through the stack *)

Lemma serve_op_object `{Storage_ St} `{S3Xml} now now2 o r labels (s : St) :
  op_level o = ObjectLevel → MatchURI (MatchPath r) "/{Bucket}/{Key+}" = Some labels →
  serve_op now now2 o r s = handle o now now2 r labels s.
Proof.
  intros Ho Hl. unfold serve_op. destruct (route_of_fields o) as (_ & _ & E & _).
  rewrite <-MatchURI_before, E, Ho. cbn [level_path]. by rewrite Hl.
Qed.

Lemma object_route_level r o : object_route r = Some o → op_level o = ObjectLevel.
Proof.
  unfold object_route. cbv zeta. intros H.
  repeat match type of H with (if ?b then _ else _) = _ => destruct b end; (injection H as <-; done) || discriminate H.
Qed.

(** Requests at an object's path are served by the operation of the route. *)
Lemma S3_serves_object `{Storage_ St} `{S3Xml} now now2 r rt labels o (s : St) :
  (dispatch r rt).2 = (dispatch r s3_router).2 → object_path r →
  MatchURI (MatchPath r) "/{Bucket}/{Key+}" = Some labels →
  object_route r = Some o →
  S3_ServeHTTP now now2 r rt s = ((dispatch r rt).1, handle o now now2 r labels s).
Proof.
  intros Hd Hp Hl Ho. unfold S3_ServeHTTP, RestXml.ServeHTTP.
  pose proof (dispatch_object r Hp) as Hx. rewrite object_route_spec, Ho, <-Hd in Hx.
  destruct (dispatch r rt) as [rt' found]. cbn [fst snd] in *.
  destruct found as [x|]; [|done]. injection Hx as Hx. rewrite Hx. f_equal. apply serve_op_object; [by eapply object_route_level|done].
Qed.

(** ** Reading an object back *)

Lemma labels_key b k : label_key (<["Key" := k]> {["Bucket" := b]}) = k.
Proof. unfold label_key. by rewrite lookup_insert_eq. Qed.
Lemma labels_bucket b k : label_bucket (<["Key" := k]> {["Bucket" := b]}) = b.
Proof. unfold label_bucket. rewrite lookup_insert_ne by done. by rewrite lookup_singleton_eq. Qed.

(** The headers that describe an object put with the headers [hput]. *)
Definition s3_describes (hput : gmap string (list string)) (ctype etag : string) (modified : Time) (length : Z)
    (h : gmap string string) : Prop :=
  h !! "Content-Type" = Some (or_default ctype "application/octet-stream") ∧
  h !! "Content-Length" = Some (Itoa length) ∧ h !! "Etag" = Some etag ∧
  h !! "Last-Modified" = Some (Format_http modified) ∧
  (∀ n v vs, hput !! ("X-Amz-Meta-" +:+ n) = Some (v :: vs) → h !! ("X-Amz-Meta-" +:+ n) = Some v).

Lemma object_headers_describe hput b k ctype etag now data body :
  canonical_headers hput →
  s3_describes hput ctype etag now (Z.of_nat (length data))
    (object_headers (get_output (object_of b k (mkObjectState data (or_default ctype "application/octet-stream")
      (amz_metadata hput) now etag) body))).
Proof.
  intros Hc. unfold object_headers, get_output, object_of. cbn [go_Metadata go_LastModified go_ETag go_ContentType
    go_ContentLength Object_Size Object_ETag Object_LastModified Object_ContentType Object_Metadata obj_data
    obj_contentType obj_metadata obj_lastModified obj_etag].
  assert (copyMeta (amz_metadata hput) = amz_metadata hput) as -> by apply copy_map_id.
  assert (ParseString (or_default ctype "application/octet-stream") = Some (or_default ctype "application/octet-stream")) as ->.
  { unfold ParseString. rewrite (proj2 (String.eqb_neq _ "")); [done|]. by apply or_default_nonempty. }
  cbn [set_some]. change "x-amz-meta-" with (ToLower "X-Amz-Meta-").
  pose proof (metadata_headers_other "X-Amz-Meta-" hput Hc _ (amz_metadata_default hput Hc)) as Hother.
  unfold s3_describes. rewrite !Hother by done.
  split_and!.
  - rewrite !Set_ne by (vm_compute; congruence). apply (Set_eq "Content-Type").
  - rewrite !Set_ne by (vm_compute; congruence). apply (Set_eq "Content-Length").
  - rewrite Set_ne by (vm_compute; congruence). apply (Set_eq "ETag").
  - apply (Set_eq "Last-Modified").
  - intros n v vs Hn. by apply (metadata_headers "X-Amz-Meta-" hput Hc _ (amz_metadata_default hput Hc) _ n v vs).
Qed.

Lemma put_handled `{StorageLaws St} `{S3Xml} (s : St) now now2 r b k data os :
  contents s !! b = Some os → Body r = Some (GoHttp.Reads data) →
  ∃ etag s', handle PutObjectHandler now now2 r (<["Key" := k]> {["Bucket" := b]}) s =
      (s', Some (status_only 200 (Set_ "ETag" etag ∅))) ∧
    contents s' = <[b := <[k := mkObjectState data (or_default (Header_Get r "Content-Type") "application/octet-stream")
                              (amz_metadata (Header r)) now etag]> os]> (contents s).
Proof.
  intros Hs Hb. autounfold with s3_handlers. rewrite labels_key, labels_bucket. unfold Adapter_PutObject, call, reply.
  cbn [poi_Bucket poi_Key poi_Body poi_ContentType poi_Metadata].
  assert (deref (ParseString (Header_Get r "Content-Type")) "" = Header_Get r "Content-Type") as ->.
  { unfold ParseString. destruct (String.eqb_spec (Header_Get r "Content-Type") "") as [->|]; done. }
  destruct (law_Put now (mkPutObjectOptions b k (to_reader <$> Body r) (Header_Get r "Content-Type")
    (amz_metadata (Header r))) data os s) as (etag & s' & E & Hc); [by rewrite Hb|done|].
  rewrite E. exists etag, s'. split; [done|]. exact Hc.
Qed.

Lemma get_handled `{StorageLaws St} `{S3Xml} (s : St) now now2 r b k os o :
  contents s !! b = Some os → os !! k = Some o →
  handle GetObjectHandler now now2 r (<["Key" := k]> {["Bucket" := b]}) s =
    (s, Some (mkResponse 200 (object_headers (get_output (object_of b k o (Some (obj_data o))))) (Raw (obj_data o)))).
Proof.
  intros Hs Ho. autounfold with s3_handlers. rewrite labels_key, labels_bucket. unfold Adapter_GetObject, call, reply.
  rewrite law_Get. unfold get_spec. rewrite Hs, Ho. done.
Qed.

(** A plain request for an object: the path a client sends, and none of the
    parameters that make it another operation. *)
Definition s3_request (r : Request) (method bucket key : string) : Prop :=
  Method r = method ∧ arrives r bucket key ∧ asks_feature r = false ∧ has r "uploadId" = false ∧
  has r "uploads" = false ∧ Header_Get r "x-amz-copy-source" = "".

Lemma plain_route r m b k :
  s3_request r m b k →
  object_route r = (if String.eqb m "GET" then Some GetObjectHandler
    else if String.eqb m "PUT" then Some PutObjectHandler
    else if String.eqb m "POST" then None
    else if String.eqb m "DELETE" then Some DeleteObjectHandler
    else if String.eqb m "HEAD" then Some HeadObjectHandler else None).
Proof.
  intros (Hm & _ & Hf & Hu & Hus & Hc). unfold object_route. rewrite Hm, Hf, Hu, Hus, Hc, andb_false_r.
  assert (has r "tagging" = false ∧ has r "acl" = false) as [-> ->].
  { unfold asks_feature, queriesPresentAny in Hf.
    assert (∀ n, n ∈ feature_queries → has r n = false) as Hn.
    { intros n Hin. apply not_true_is_false. intros Hp. apply not_true_iff_false in Hf. apply Hf.
      apply existsb_exists. exists n. split; [by apply list_elem_of_In|done]. }
    split; apply Hn; unfold feature_queries; set_solver. }
  done.
Qed.

(** Without a query, only operations that need none are left. *)
Definition needs_no_query (o : s3_op) : bool :=
  match op_query o, ro_RequiredQueries (op_options o) with None, [] => true | _, _ => false end.

Lemma bare_get r : Query r = ∅ → first_op (op_conditions r) (bucket_ops "GET") = Some GetObjectHandler.
Proof.
  intros Hq. assert (∀ name, present (Query r) name = false) as Hn by (intros n; unfold present; by rewrite Hq, lookup_empty).
  rewrite (first_op_filter _ needs_no_query).
  - change (List.filter needs_no_query (bucket_ops "GET")) with [GetObjectHandler]. cbn [first_op].
    rewrite (conditions_plain r GetObjectHandler) by done. unfold asks_feature, queriesPresentAny.
    assert (existsb (present (Query r)) feature_queries = false) as ->; [|done].
    induction feature_queries as [|n l IH]; [done|]. cbn [existsb]. by rewrite Hn, IH.
  - intros o Ho. unfold needs_no_query in Ho. unfold op_conditions.
    destruct (op_query o) as [[k v]|].
    { cbn [from_option]. unfold query_match. cbn [fst]. by rewrite Hn. }
    destruct (ro_RequiredQueries (op_options o)) as [|n l]; [done|]. unfold queriesPresent. cbn [forallb].
    by rewrite Hn, !andb_false_r.
Qed.

(** ** Answers *)

Definition s3_answered (b : Backend) (reads : bool) (x : Backend * option S3Gen.Response) : Prop :=
  ∃ resp, x.2 = Some resp ∧ (reads = true → x.1 = b) ∧ (400 <= Status resp → x.1 = b).

Lemma mapError_status e : match mapError e with EShim se => 400 <= se_HTTPStatus se | EOther _ => True end.
Proof. unfold mapError. repeat case_match; simplify_eq; done. Qed.

Definition error_status (e : backend_error) : Prop :=
  match e with EShim se => 400 <= se_HTTPStatus se | EOther _ => True end.

Lemma WriteBackendError_status {X} h e : error_status e → 400 <= Status (WriteBackendError (X := X) h e).
Proof. by destruct e. Qed.

Lemma reply_answered {A B} b reads (c : Backend * Storage.result A) (k : A → api B) (k2 : B → S3Gen.Response) (o : op) :
  forget c = run o b → (reads = true → c.1 = b) →
  (∀ a, c.2 = Ok a → match k a with Ok y => Status (k2 y) < 400 | Prelude.Err e => c.1 = b | Panic => False end) →
  s3_answered b reads (reply (call c k) k2).
Proof.
  intros Ho Hr Hk. unfold s3_answered, reply, call. cbn [fst snd].
  pose proof (run_no_panic o b) as Hp. pose proof (run_err_same o b) as He. rewrite <-Ho in Hp, He.
  unfold forget in Hp, He. cbn [fst snd] in Hp, He.
  destruct (c.2) as [a|e|]; cbn in Hp, He; [|..|done].
  - specialize (Hk a eq_refl). destruct (k a) as [y|e|]; [|..|done].
    + eexists. split_and!; [done|done|]. intros ?. lia.
    + eexists. by split_and!.
  - eexists. split_and!; [done|done|]. intros _. by eapply He.
Qed.

Lemma reads_unchanged b :
  (∀ bk key, (GetObject bk key b).1 = b) ∧ (∀ bk key, (HeadObject bk key b).1 = b) ∧
  (∀ opt, (ListObjects opt b).1 = b) ∧ (∀ n, (HeadBucket n b).1 = b) ∧
  (∀ bk k id, (ListParts bk k id b).1 = b) ∧ (∀ bk p, (ListMultipartUploads bk p b).1 = b) ∧
  (∀ opt, (ListBuckets opt b).1 = b).
Proof.
  split_and!; intros; unfold GetObject, HeadObject, ListObjects, HeadBucket, ListParts, ListMultipartUploads, ListBuckets;
    repeat case_match; done.
Qed.

(** A method that only reads. *)
Definition op_reads (o : s3_op) : bool := String.eqb (op_route o).1.1 "GET" || String.eqb (op_route o).1.1 "HEAD".

Lemma run_probe_answered b p bk : s3_answered b true (reply (run_probe p bk b) xml_200).
Proof.
  destruct (reads_unchanged b) as (_ & _ & _ & Hh & _). unfold run_probe, headExists.
  apply (reply_answered b true _ _ _ (OpHeadBucket bk)); [done|intros _; apply Hh|].
  intros a _. destruct p; cbn; try apply Hh; done.
Qed.

Lemma handle_answered `{S3Xml} b o now now2 r labels : s3_answered b (op_reads o) (handle o now now2 r labels b).
Proof.
  destruct (reads_unchanged b) as (Hg & Hh & Hl & Hb & Hp & Hm & Hlb).
  assert (∀ bk, s3_answered b true (reply (GetBucketLocation bk b) xml_200)) as Hloc.
  { intros bk. apply (reply_answered b true _ _ _ (OpHeadBucket bk)); [done|intros _; apply Hb|done]. }
  assert (∀ bk k, s3_answered b true (reply (GetObjectTagging bk k b) xml_200) ∧
    s3_answered b true (reply (GetObjectAcl bk k b) xml_200)) as Hobj.
  { intros bk k. split; (apply (reply_answered b true _ _ _ (OpHeadObject bk k)); [done|intros _; apply Hh|done]). }
  destruct o; cbn [handle]; autounfold with s3_handlers.
  - eapply (reply_answered b _ _ _ _ (OpListBuckets (mkListBucketsOptions "" "" 0 ""))); [done|intros _; apply Hlb|done].
  - eapply (reply_answered b _ _ _ _ (OpCreateBucket _ _ _)); [reflexivity|done|done].
  - eapply (reply_answered b _ _ _ _ (OpDeleteBucket _)); [reflexivity|done|done].
  - eapply (reply_answered b _ _ _ _ (OpHeadBucket _)); [reflexivity|intros _; apply Hb|done].
  - eapply (reply_answered b _ _ _ _ (OpListObjects _)); [reflexivity|intros _; apply Hl|done].
  - eapply (reply_answered b _ _ _ _ (OpGetObject _ _)); [reflexivity|intros _; apply Hg|done].
  - eapply (reply_answered b _ _ _ _ (OpPutObject _ _)); [reflexivity|done|done].
  - eapply (reply_answered b _ _ _ _ (OpDeleteObject _ _)); [reflexivity|done|done].
  - eapply (reply_answered b _ _ _ _ (OpHeadObject _ _)); [reflexivity|intros _; apply Hh|done].
  - unfold Adapter_CopyObject. destruct (parseCopySource _) as [[sb sk]|e|] eqn:E.
    + eapply (reply_answered b _ _ _ _ (OpCopyObject _ _)); [reflexivity|done|done].
    + unfold reply. cbn [fst snd]. by eexists.
    + exfalso. revert E. unfold parseCopySource. by repeat case_match.
  - eapply (reply_answered b _ _ _ _ (OpCreateMultipartUpload _ _ _ _ _ _)); [reflexivity|done|done].
  - eapply (reply_answered b _ _ _ _ (OpUploadPart _ _ _ _ _ _)); [reflexivity|done|done].
  - eapply (reply_answered b _ _ _ _ (OpComplete _ _ _ _ _)); [reflexivity|done|done].
  - eapply (reply_answered b _ _ _ _ (OpAbort _ _ _)); [reflexivity|done|done].
  - eapply (reply_answered b _ _ _ _ (OpListMultipartUploads _ _)); [reflexivity|intros _; apply Hm|done].
  - eapply (reply_answered b _ _ _ _ (OpListParts _ _ _)); [reflexivity|intros _; apply Hp|done].
  - apply Hloc.
  - apply run_probe_answered.
  - apply Hobj.
  - apply Hobj.
Qed.

(** The routers the frontend goes through: the table, sorted or to be sorted. *)
Definition s3_reached (rt : Router s3_op) : Prop :=
  router_ok rt ∧ sort_by more_specific (routes rt) = sort_by more_specific (routes s3_router).

Lemma s3_reached_start : s3_reached s3_router.
Proof. split; [apply s3_router_ok|done]. Qed.
Lemma s3_reached_dispatch rt r : s3_reached rt → (dispatch r rt).2 = (dispatch r s3_router).2.
Proof.
  intros [Hok E]. unfold dispatch. cbn [snd].
  by rewrite (routes_sorted rt Hok), (routes_sorted s3_router s3_router_ok), E.
Qed.
Lemma s3_reached_next rt r : s3_reached rt → s3_reached (dispatch r rt).1.
Proof.
  intros [Hok E]. split; [by apply dispatch_ok|]. unfold dispatch. cbn [fst].
  rewrite routes_sorted by done. rewrite <-E. apply sort_by_sorted_id, sorted_routes.
Qed.

Lemma dispatched_method r o : rt_Handler <$> (dispatch r s3_router).2 = Some o → (op_route o).1.1 = Method r.
Proof.
  rewrite dispatch_first_op. induction by_specificity as [|x l IH]; [done|]. cbn [first_op].
  destruct (String.eqb_spec (op_route x).1.1 (Method r)) as [E|]; [|exact IH].
  cbn [andb]. destruct (_ && _); [|exact IH]. by intros [= <-].
Qed.

(** ** A multipart client *)

Definition s3_client (method bucket key : string) (q : gmap string (list string)) (h : gmap string (list string))
    (body : bytes) : Request :=
  let '(path, raw) := default ("", "") (setPath (s3_path bucket key)) in
  mkRequest method "localhost" "" path raw (s3_path bucket key) "" q h (Z.of_nat (length body))
    (Some (GoHttp.Reads body)).

Lemma s3_client_arrives m b k q h body : arrives (s3_client m b k q h body) b k.
Proof.
  unfold arrives, s3_client. rewrite s3_path_escaped, setPath_escaped by done. reflexivity.
Qed.

Lemma s3_client_fields m b k q h body :
  Method (s3_client m b k q h body) = m ∧ Query (s3_client m b k q h body) = q ∧
  Header (s3_client m b k q h body) = h ∧ Body (s3_client m b k q h body) = Some (GoHttp.Reads body).
Proof. unfold s3_client. by destruct (default ("", "") (setPath (s3_path b k))). Qed.

Section multipart.
Context `{S3Xml}.
Context (bucket key : string) (Hne : bucket ≠ "") (Hb : all_bytes bucket_byte bucket = true) (Hk : seen_key key = Some key).

(** One request of the client. *)
Definition s3_send (now now2 : Time) (m : string) (q h : gmap string (list string)) (body : bytes)
    (x : Router s3_op * Backend) : (Router s3_op * Backend) * option S3Gen.Response :=
  let '(rt, (b, resp)) := S3_ServeHTTP now now2 (s3_client m bucket key q h body) x.1 x.2 in ((rt, b), resp).

Definition part_query (id : string) (n : Z) : gmap string (list string) :=
  {["partNumber" := [Itoa n]; "uploadId" := [id]]}.

(** The parts, one request each; every one must be answered 200. *)
Fixpoint s3_send_parts (now : Time) (id : string) (ps : list (Z * bytes)) (x : Router s3_op * Backend)
    : option (Router s3_op * Backend) :=
  match ps with
  | [] => Some x
  | (n, d) :: ps =>
      match s3_send now now "PUT" (part_query id n) ∅ d x with
      | (x, Some (mkResponse 200 _ _)) => s3_send_parts now id ps x
      | _ => None
      end
  end.

Lemma s3_send_serves now now2 m q h body rt b o :
  s3_reached rt → object_route (s3_client m bucket key q h body) = Some o →
  let r := s3_client m bucket key q h body in
  s3_send now now2 m q h body (rt, b) =
    (((dispatch r rt).1, (handle o now now2 r (<["Key" := key]> {["Bucket" := bucket]}) b).1),
     (handle o now now2 r (<["Key" := key]> {["Bucket" := bucket]}) b).2).
Proof.
  intros Hrt Ho r. unfold s3_send. cbn [fst snd]. fold r in Ho |- *.
  destruct (arrives_matches r bucket key key Hne Hb (s3_client_arrives _ _ _ _ _ _) Hk) as [Hp Hl].
  rewrite (S3_serves_object now now2 r rt _ o b (s3_reached_dispatch rt r Hrt) Hp Hl Ho).
  by destruct (handle o _ _ _ _ b).
Qed.

Lemma part_route id n d : object_route (s3_client "PUT" bucket key (part_query id n) ∅ d) = Some UploadPartHandler.
Proof.
  unfold object_route. destruct (s3_client_fields "PUT" bucket key (part_query id n) ∅ d) as (-> & Hq & _).
  unfold has, present. rewrite Hq. unfold part_query. rewrite lookup_insert_eq.
  rewrite lookup_insert_ne by done. rewrite lookup_singleton_eq. done.
Qed.

Lemma s3_send_parts_spec now id up ps rt b :
  s3_reached rt → uploads b !! id = Some up → up_bucket up = bucket → up_key up = key →
  Forall (λ p, 1 <= p.1 <= 10000) ps →
  ∃ rt', s3_reached rt' ∧ s3_send_parts now id ps (rt, b) = Some (rt', upload_all now bucket key id ps b).
Proof.
  intros Hrt Hu Hbk Hkk Hps. revert rt b up Hrt Hu Hbk Hkk. induction Hps as [|[n d] ps Hn Hps IH]; intros rt b up Hrt Hu Hbk Hkk.
  { by exists rt. }
  cbn [s3_send_parts]. rewrite (s3_send_serves now now "PUT" (part_query id n) ∅ d rt b UploadPartHandler Hrt (part_route id n d)).
  cbv zeta. set (r := s3_client _ _ _ _ _ _).
  assert (handle UploadPartHandler now now r (<["Key" := key]> {["Bucket" := bucket]}) b =
    ((UploadPart now bucket key id n (Storage.Reads d) b).1, Some (status_only 200 (Set_ "ETag" (etagOf d) ∅)))) as ->.
  { autounfold with s3_handlers. rewrite labels_key, labels_bucket. unfold Adapter_UploadPart, call, reply.
    destruct (s3_client_fields "PUT" bucket key (part_query id n) ∅ d) as (_ & Hq & _ & Hbody). fold r in Hq, Hbody.
    rewrite Hbody, Hq. unfold Query_Get, part_query. rewrite lookup_insert_eq, lookup_insert_ne, lookup_singleton_eq by done.
    cbn [first_value upi_Bucket upi_Key upi_UploadId upi_PartNumber upi_Body to_reader default].
    assert (int32_field (Itoa n) = Some n) as ->.
    { unfold int32_field, ParseInt32, parse_int. cbn [fst] in Hn. rewrite (proj2 (String.eqb_neq (Itoa n) "") (Itoa_nonempty n)).
      pose proof (Atoi_Itoa n ltac:(unfold in_s; lia)) as HA. unfold Atoi, ParseInt10 in *.
      repeat case_match; simplify_eq; try done; lia. }
    cbn [deref default]. pose proof (UploadPart_ok now n d id up b Hu Hn) as HU. rewrite Hbk, Hkk in HU.
    change (Datatypes.id (GoHttp.Reads d)) with (GoHttp.Reads d). cbn [to_reader st_UploadPart inmem_storage].
    change (Datatypes.id n) with n. rewrite HU. done. }
  cbn [fst snd]. unfold status_only.
  pose proof (UploadPart_ok now n d id up b Hu Hn) as HU. rewrite Hbk, Hkk in HU.
  destruct (IH (dispatch r rt).1 (UploadPart now bucket key id n (Storage.Reads d) b).1
    (set_parts up (<[n := part_of now d]> (up_parts up)))) as (rt' & Hrt' & E).
  - by apply s3_reached_next.
  - rewrite HU. cbn. apply lookup_insert_eq.
  - done.
  - done.
  - exists rt'. split; [done|]. rewrite E. done.
Qed.

Lemma post_route q body :
  object_route (s3_client "POST" bucket key q ∅ body) =
    if present q "uploads" then Some CreateMultipartUploadHandler
    else if present q "uploadId" then Some CompleteMultipartUploadHandler else None.
Proof. unfold object_route, has. by destruct (s3_client_fields "POST" bucket key q ∅ body) as (-> & -> & _). Qed.

Lemma s3_open_upload t1 t2 rt b st :
  s3_reached rt → buckets b !! bucket = Some st →
  ∃ id rt1, s3_reached rt1 ∧
    s3_send t1 t2 "POST" {["uploads" := [""]]} ∅ [] (rt, b) =
      ((rt1, set_upload b id (mkUploadState bucket key t2 ∅ "" None)),
       Some (xml_200 (InitiateMultipartUploadResult bucket key id))).
Proof.
  intros Hrt Hbk.
  rewrite (s3_send_serves t1 t2 "POST" _ ∅ [] rt b CreateMultipartUploadHandler Hrt) by (by rewrite post_route).
  cbv zeta. set (r := s3_client _ _ _ _ _ _). autounfold with s3_handlers. rewrite labels_key, labels_bucket.
  assert (Header r = ∅) as Hh by apply (s3_client_fields "POST" bucket key {["uploads" := [""]]} ∅ []).
  unfold Adapter_CreateMultipartUpload, call, reply, Header_Get. rewrite Hh.
  cbn [cmi_Bucket cmi_Key cmi_ContentType cmi_Metadata st_CreateMultipartUpload inmem_storage].
  unfold CreateMultipartUpload. rewrite Hbk. cbn [fst snd]. eexists _, _. split; [|reflexivity].
  by apply s3_reached_next.
Qed.

Lemma s3_complete_upload t id body rt b up st :
  s3_reached rt → uploads b !! id = Some up → up_bucket up = bucket → up_key up = key →
  buckets b !! bucket = Some st →
  ∃ etag rt', s3_reached rt' ∧
    s3_send t t "POST" {["uploadId" := [id]]} ∅ body (rt, b) =
      ((rt', mkBackend (<[bucket := set_objects st (<[key := mkObjectState (assemble up)
           (or_default (up_contentType up) "application/octet-stream") (copyMeta (up_metadata up)) t etag]>
           (bk_objects st))]> (buckets b)) (delete id (uploads b))),
       Some (xml_200 (CompleteMultipartUploadResult bucket key etag))).
Proof.
  intros Hrt Hu Hub Huk Hbk.
  rewrite (s3_send_serves t t "POST" _ ∅ body rt b CompleteMultipartUploadHandler Hrt).
  2: { rewrite post_route. unfold present. rewrite lookup_singleton_ne by done. by rewrite lookup_singleton_eq. }
  cbv zeta. set (r := s3_client _ _ _ _ _ _). autounfold with s3_handlers. rewrite labels_key, labels_bucket.
  assert (Query_Get (Query r) "uploadId" = id) as ->.
  { unfold r. destruct (s3_client_fields "POST" bucket key {["uploadId" := [id]]} ∅ body) as (_ & -> & _).
    unfold Query_Get. by rewrite lookup_singleton_eq. }
  unfold Adapter_CompleteMultipartUpload, call, reply.
  cbn [cui_Bucket cui_Key cui_UploadId cui_MultipartUpload st_CompleteMultipartUpload inmem_storage].
  unfold CompleteMultipartUpload. rewrite Hu, Hub, Huk, !String.eqb_refl. cbn [negb orb]. rewrite Hbk.
  cbn [fst snd obj_etag]. eexists _, _. split; [|reflexivity]. by apply s3_reached_next.
Qed.

Lemma s3_fetch t rt b o :
  s3_reached rt → get_obj b bucket key = Some o → obj_metadata o = None →
  ∃ h, (s3_send t t "GET" ∅ ∅ [] (rt, b)).2 = Some (mkResponse 200 h (Raw (obj_data o))) ∧
    h !! "Etag" = Some (obj_etag o) ∧ h !! "Content-Length" = Some (Itoa (Z.of_nat (length (obj_data o)))).
Proof.
  intros Hrt Hget Hmeta.
  assert (object_route (s3_client "GET" bucket key ∅ ∅ []) = Some GetObjectHandler) as Hgr.
  { unfold object_route, has, asks_feature. destruct (s3_client_fields "GET" bucket key ∅ ∅ []) as (-> & -> & _).
    vm_compute. reflexivity. }
  rewrite (s3_send_serves t t "GET" ∅ ∅ [] rt b GetObjectHandler Hrt Hgr). cbv zeta. cbn [snd].
  autounfold with s3_handlers. rewrite labels_key, labels_bucket. unfold Adapter_GetObject, call, reply.
  cbn [st_GetObject inmem_storage]. rewrite (GetObject_get_obj b bucket key o Hget). cbn [fst snd].
  eexists. split; [reflexivity|]. unfold object_headers, get_output, object_of.
  cbn [go_Metadata go_ETag go_ContentLength go_ContentType Object_Metadata Object_ETag Object_Size].
  rewrite Hmeta. cbn [copyMeta]. unfold set_metadata. cbn [default]. rewrite map_fold_empty.
  split; [rewrite Set_ne by (by vm_compute); apply (Set_eq "ETag")|].
  rewrite !Set_ne by (by vm_compute). unfold set_some.
  destruct (ParseString _); [rewrite Set_ne by (by vm_compute)|]; apply (Set_eq "Content-Length").
Qed.
End multipart.

(** ** Listing a bucket by continuation tokens *)

(** A request for the objects of a bucket. *)
Definition lists_bucket (r : Request) (bucket : string) : Prop :=
  Method r = "GET" ∧ MatchPath r = String "/" bucket ∧ Query_Get (Query r) "list-type" = "2" ∧
  asks_feature r = false ∧ Query_Get (Query r) "start-after" = "".

Definition next_page (r : Request) (token : string) : Request :=
  mkRequest (Method r) (Host r) (URL_Host r) (URL_Path r) (RawPath r) (EscapedPath r) (RawQuery r)
    (<["continuation-token" := [token]]> (Query r)) (Header r) (ContentLength r) (Body r).

(** The client's loop: pages until one is not truncated. *)
Fixpoint s3_list_all `{S3Xml} (fuel : nat) (now : Time) (r0 : Request) (token : string) (x : Router s3_op * Backend)
    : option (list ObjectOut * list string) :=
  match fuel with
  | O => None
  | S fuel =>
      let '(rt, (b, resp)) := S3_ServeHTTP now now (next_page r0 token) x.1 x.2 in
      match resp with
      | Some (mkResponse 200 _ (Xml (ListBucketResult page))) =>
          if loo_IsTruncated page
          then (λ rest : list ObjectOut * list string,
                  (loo_Contents page ++ rest.1, loo_CommonPrefixes page ++ rest.2)) <$>
                 s3_list_all fuel now r0 (default "" (loo_NextContinuationToken page)) (rt, b)
          else Some (loo_Contents page, loo_CommonPrefixes page)
      | _ => None
      end
  end.

Definition s3_list_options (r : Request) (bucket token : string) : ListObjectsOptions :=
  mkListObjectsOptions bucket (Query_Get (Query r) "prefix") (Query_Get (Query r) "delimiter") "" token
    (deref (int32_field (Query_Get (Query r) "max-keys")) 1000).

Lemma deref_ParseString v : deref (ParseString v) "" = v.
Proof. unfold ParseString. by destruct (String.eqb_spec v "") as [->|]. Qed.

Lemma Query_Get_present q name v : Query_Get q name = v → v ≠ "" → present q name = true.
Proof.
  unfold Query_Get, present, first_value. intros H Hv. destruct (q !! name) as [[|w l]|]; [congruence|done|congruence].
Qed.

Lemma next_page_query r token name :
  name ≠ "continuation-token" → Query (next_page r token) !! name = Query r !! name.
Proof. intros Hn. cbn [Query next_page]. by rewrite lookup_insert_ne. Qed.

Lemma MatchURI_bare b t :
  b ≠ "" → str_mem "/" b = false → PathUnescape b = Some b → before_query t = "/{Bucket}" →
  MatchURI (String "/" b) t = Some {["Bucket" := b]}.
Proof.
  intros Hne Hs Hu Ht. rewrite <-MatchURI_before, Ht. unfold MatchURI.
  rewrite splitURIPath_slash by done. change (splitURIPath (before_query "/{Bucket}")) with ["{Bucket}"].
  rewrite Split_plain by done. cbn [match_parts]. change (isLabel "{Bucket}") with true.
  change (labelName "{Bucket}") with ("Bucket", false). cbn [negb]. by rewrite Hu.
Qed.

(** A listing request reaches [ListObjectsV2]. *)
Lemma list_request_served `{S3Xml} now r0 bucket token rt (b : Backend) :
  s3_reached rt → bucket ≠ "" → all_bytes bucket_byte bucket = true → lists_bucket r0 bucket →
  S3_ServeHTTP now now (next_page r0 token) rt b =
    ((dispatch (next_page r0 token) rt).1,
     reply (call (ListObjects (s3_list_options r0 bucket token) b) (λ res,
         Ok (mkListObjectsV2Output (lor_Bucket res) (lor_Prefix res) (lor_Delimiter res)
           (deref (int32_field (Query_Get (Query r0) "max-keys")) 1000)
           (wrap_s 32 (lor_KeyCount res)) (lor_IsTruncated res) (ParseString token) (ParseString "")
           (ParseString (lor_NextToken res)) (object_out <$> lor_Objects res) (lor_CommonPrefixes res))))
       (λ out, xml_200 (ListBucketResult out))).
Proof.
  intros Hrt Hne Hb (Hm & Hp & Hlt & Hf & Hsa). set (r := next_page r0 token).
  destruct (bucket_facts bucket Hb) as (Hs & Hpc & _).
  assert (PathUnescape bucket = Some bucket) as Hu by by apply PathUnescape_id.
  assert (∀ t, before_query t = "/{Bucket}" → MatchURI (MatchPath r) t = Some {["Bucket" := bucket]}) as Hmatch.
  { intros t Ht. change (MatchPath r) with (MatchPath r0). rewrite Hp. by apply MatchURI_bare. }
  assert (∀ n, n ≠ "continuation-token" → Query r !! n = Query r0 !! n) as Hq by (intros; by apply next_page_query).
  assert (∀ n, n ≠ "continuation-token" → Query_Get (Query r) n = Query_Get (Query r0) n) as Hqg.
  { intros n Hn. unfold Query_Get. by rewrite Hq. }
  assert (op_conditions r ListObjectsV2Handler = true) as Hc.
  { unfold op_conditions. cbn [op_query op_options ro_RequiredHeaders ro_RequiredQueries ro_ForbiddenQueries from_option].
    assert (queriesPresentAny (Query r) feature_queries = false) as ->.
    { rewrite <-Hf. unfold asks_feature, queriesPresentAny, present, feature_queries. cbn [existsb].
      by rewrite !Hq by done. }
    unfold query_match. cbn [fst snd]. rewrite (Query_Get_present _ _ "2") by (done || by rewrite Hqg).
    unfold Query_Get, first_value in Hlt. rewrite Hq by done.
    destruct (Query r0 !! "list-type") as [[|v l]|]; [done| |done]. by rewrite Hlt. }
  assert (bucket_path r) as Hbp.
  { unfold bucket_path, at_level, level_path. rewrite (Hmatch "/{Bucket}") by done.
    change (MatchPath r) with (MatchPath r0). rewrite Hp, MatchURI_root by done. split_and!; [done|done|].
    unfold MatchURI. rewrite splitURIPath_slash, Split_plain by done.
    change (splitURIPath (before_query "/{Bucket}/{Key+}")) with ["{Bucket}"; "{Key+}"]. cbn [match_parts].
    change (isLabel "{Bucket}") with true. change (labelName "{Bucket}") with ("Bucket", false).
    change (isLabel "{Key+}") with true. change (labelName "{Key+}") with ("Key", true). cbn [negb]. by rewrite Hu. }
  pose proof (dispatch_bucket r Hbp) as Hx. change (Method r) with (Method r0) in Hx. rewrite Hm in Hx.
  change (bucket_ops "GET") with (ListObjectsV2Handler :: tail (bucket_ops "GET")) in Hx. cbn [first_op] in Hx.
  rewrite Hc, <-(s3_reached_dispatch rt r Hrt) in Hx. unfold S3_ServeHTTP, RestXml.ServeHTTP.
  destruct (dispatch r rt) as [rt' found]. cbn [fst snd] in *. destruct found as [x|]; [|done]. injection Hx as Hx.
  rewrite Hx. f_equal. unfold serve_op. rewrite Hmatch by done. autounfold with s3_handlers; unfold Adapter_ListObjectsV2.
  cbn [loi_Bucket loi_Prefix loi_Delimiter loi_StartAfter loi_ContinuationToken loi_MaxKeys].
  rewrite !deref_ParseString, (Hqg "prefix"), (Hqg "delimiter"), (Hqg "start-after"), (Hqg "max-keys"), Hsa by done.
  unfold label_bucket; rewrite lookup_singleton_eq.
  assert (Query_Get (Query r) "continuation-token" = token) as ->; [|done].
  unfold Query_Get. cbn [Query r next_page]. by rewrite lookup_insert_eq.
Qed.

Lemma s3_list_all_is `{S3Xml} fuel now r0 bucket token rt b st :
  s3_reached rt → bucket ≠ "" → all_bytes bucket_byte bucket = true → lists_bucket r0 bucket →
  buckets b !! bucket = Some st →
  s3_list_all fuel now r0 token (rt, b) =
    (λ x : list ObjectMetadata * list string, (object_out <$> x.1, x.2)) <$>
      list_all fuel (s3_list_options r0 bucket token) b.
Proof.
  intros Hrt Hne Hb Hl Hbk. revert token rt Hrt. induction fuel as [|fuel IH]; intros token rt Hrt; [done|].
  cbn [s3_list_all list_all fst snd]. rewrite (list_request_served now r0 bucket token rt b Hrt Hne Hb Hl).
  pose proof (reads_unchanged b) as (_ & _ & Hr & _).
  destruct (ListObjects_page (s3_list_options r0 bucket token) b st Hbk) as (l1 & l2 & res & _ & E & _).
  unfold reply, call. specialize (Hr (s3_list_options r0 bucket token)).
  destruct (ListObjects _ b) as [b' x]. cbn [fst snd] in *. subst b'. injection E as ->.
  cbn [xml_200 loo_IsTruncated loo_Contents loo_CommonPrefixes loo_NextContinuationToken].
  unfold xml_200. destruct (lor_IsTruncated res); [|done].
  change (default "" ?p) with (deref p "") at 1. rewrite deref_ParseString, IH by by apply s3_reached_next.
  change (with_token (s3_list_options r0 bucket token) (lor_NextToken res)) with
    (s3_list_options r0 bucket (lor_NextToken res)).
  destruct (list_all fuel _ b) as [[os ps]|]; [|done]. cbn. by rewrite fmap_app.
Qed.

(** ** Properties *)

(** C1: What is stored through the S3 frontend is read back, from the client's
    URL to the backend and back, over any backend that keeps the contract of
    [domain.Storage].  For a key that arrives undistorted, a PUT to an existing
    bucket is answered 200 with the object's ETag, and a later GET, served by
    the same router, leaves the state alone and answers 200 with the same
    bytes, the same ETag, the length, the content type, the modification time
    and every x-amz-meta- header.  A Range header changes nothing: the whole
    object is sent. *)
Theorem s3_objects_round_trip {St} `{StorageLaws St} `{S3Xml} (s : St) (now now2 now' now2' : Time)
    (put get : Request) (bucket key : string) (data : bytes) (os : gmap string objectState) :
  bucket ≠ "" → all_bytes bucket_byte bucket = true → seen_key key = Some key →
  s3_request put "PUT" bucket key → s3_request get "GET" bucket key →
  canonical_headers (Header put) → Body put = Some (GoHttp.Reads data) → contents s !! bucket = Some os →
  let '(rt1, (s1, created)) := S3_ServeHTTP now now2 put s3_router s in
  let '(_, (s2, got)) := S3_ServeHTTP now' now2' get rt1 s1 in
  ∃ etag h, created = Some (status_only 200 (Set_ "ETag" etag ∅)) ∧ s2 = s1 ∧
    got = Some (mkResponse 200 h (Raw data)) ∧
    s3_describes (Header put) (Header_Get put "Content-Type") etag now (Z.of_nat (length data)) h.
Proof.
  intros Hne Hb Hk Hput Hget Hc Hbody Hs.
  destruct Hput as (Em & Ap & Rp), Hget as (Em' & Ag & Rg).
  destruct (arrives_matches put bucket key key Hne Hb Ap Hk) as [Hp1 Hl1].
  destruct (arrives_matches get bucket key key Hne Hb Ag Hk) as [Hp2 Hl2].
  pose proof (plain_route put "PUT" bucket key (conj Em (conj Ap Rp))) as Ro1.
  pose proof (plain_route get "GET" bucket key (conj Em' (conj Ag Rg))) as Ro2.
  rewrite (S3_serves_object _ _ put s3_router _ PutObjectHandler s eq_refl Hp1 Hl1 Ro1).
  destruct (put_handled s now now2 put bucket key data os Hs Hbody) as (etag & s1 & -> & Hcont).
  rewrite (S3_serves_object _ _ get _ _ GetObjectHandler s1 (dispatch_again put get s3_router s3_router_ok) Hp2 Hl2 Ro2).
  erewrite get_handled; [|by rewrite Hcont, lookup_insert_eq|by rewrite lookup_insert_eq].
  cbn [fst snd obj_data]. exists etag. eexists. split_and!; [done|done|done|].
  by apply object_headers_describe.
Qed.

(** The operation of a request at an object's path is decided by its method
    and by which of the parameters uploadId, partNumber, uploads, tagging, acl
    and the sub-resources it has, and at a bucket's path by the same table
    with the bucket operations: every route of the generated table is where
    it is expected to be, most specific first.  Three requests reach an
    operation they are not: a PUT of a part with a copy source is a plain
    UploadPart, a PUT at a bucket with a sub-resource such as ?policy is
    CreateBucket, and a GET at a bucket without list-type is GetObject with
    the empty key. *)
Theorem s3_requests_dispatched (r : Request) :
  (object_path r → rt_Handler <$> (dispatch r s3_router).2 = object_route r) ∧
  (bucket_path r → rt_Handler <$> (dispatch r s3_router).2 = bucket_route r) ∧
  (object_path r → Method r = "PUT" → has r "partNumber" = true → has r "uploadId" = true →
     rt_Handler <$> (dispatch r s3_router).2 = Some UploadPartHandler) ∧
  (bucket_path r → Method r = "PUT" → has r "uploadId" = false → Header_Get r "x-amz-copy-source" = "" →
     rt_Handler <$> (dispatch r s3_router).2 = Some CreateBucketHandler) ∧
  (bucket_path r → Method r = "GET" → Query r = ∅ →
     rt_Handler <$> (dispatch r s3_router).2 = Some GetObjectHandler).
Proof.
  split_and!.
  - intros Hp. by rewrite dispatch_object, object_route_spec.
  - intros Hp. by rewrite dispatch_bucket, bucket_route_spec.
  - intros Hp Hm H1 H2. rewrite dispatch_object, object_route_spec by done. unfold object_route. by rewrite Hm, H1, H2.
  - intros Hp Hm H1 H2. rewrite dispatch_bucket, bucket_route_spec by done. unfold bucket_route.
    by rewrite Hm, H1, H2, andb_false_r.
  - intros Hp Hm Hq. rewrite dispatch_bucket by done. rewrite Hm. by apply bare_get.
Qed.

(** C17: Every S3 request, whatever its method, path, query, headers and body, is
    answered by the in-process backend's frontend.  A GET or HEAD, and any
    request answered with an error, leaves every bucket, object and upload as
    it was; a request that matches no operation is answered 404. *)
Theorem s3_requests_answered `{S3Xml} (b : Backend) (now now2 : Time) (r : Request) (rt : Router s3_op) :
  s3_reached rt →
  ∃ resp, (S3_ServeHTTP now now2 r rt b).2.2 = Some resp ∧
    (Method r = "GET" ∨ Method r = "HEAD" → (S3_ServeHTTP now now2 r rt b).2.1 = b) ∧
    (400 <= Status resp → (S3_ServeHTTP now now2 r rt b).2.1 = b) ∧
    ((dispatch r s3_router).2 = None → Status resp = 404).
Proof.
  intros Hrt%(s3_reached_dispatch rt r). unfold S3_ServeHTTP, RestXml.ServeHTTP.
  pose proof (dispatched_method r) as Hm. rewrite <-Hrt in Hm |- *.
  destruct (dispatch r rt) as [rt' [x|]]; cbn [fst snd] in *.
  2: { eexists. by split_and!. }
  unfold serve_op. destruct (MatchURI _ _) as [labels|]; cbn [fst snd]; [|eexists; by split_and!].
  destruct (handle_answered b (rt_Handler x) now now2 r labels) as (resp & E & Hr & He).
  exists resp. split_and!; [done| |done|done].
  intros Hgh. apply Hr. unfold op_reads. rewrite (Hm (rt_Handler x) eq_refl). by destruct Hgh as [-> | ->].
Qed.

(** Missing buckets and keys are reported as S3 reports them, over any
    backend that keeps the contract: 404 NoSuchBucket with the bucket as the
    resource for a GET, HEAD, PUT or DELETE in a bucket that does not exist,
    404 NoSuchKey with "bucket/key" for a GET or HEAD of a key that does not,
    and nothing changes. *)
Theorem s3_missing_reported {St} `{StorageLaws St} `{S3Xml} (s : St) (now now2 : Time) (r : Request)
    (method bucket key : string) (data : bytes) (rt : Router s3_op) :
  s3_reached rt → bucket ≠ "" → all_bytes bucket_byte bucket = true → seen_key key = Some key →
  method ∈ ["GET"; "HEAD"; "PUT"; "DELETE"] → s3_request r method bucket key →
  Body r = Some (GoHttp.Reads data) →
  (contents s !! bucket = None →
     ∃ s', (S3_ServeHTTP now now2 r rt s).2 =
       (s', Some (WriteBackendError ∅ (EShim (RestXml.NoSuchBucket bucket)))) ∧ contents s' = contents s) ∧
  (∀ os, contents s !! bucket = Some os → os !! key = None → method ∈ ["GET"; "HEAD"] →
     (S3_ServeHTTP now now2 r rt s).2 =
       (s, Some (WriteBackendError ∅ (EShim (RestXml.NoSuchKey bucket key))))).
Proof.
  intros Hrt%(s3_reached_dispatch rt r) Hne Hb Hk Hm Hreq Hbody. pose proof (plain_route r method bucket key Hreq) as Ho.
  destruct Hreq as (Em & Ap & Rp). destruct (arrives_matches r bucket key key Hne Hb Ap Hk) as [Hp Hl].
  destruct (bucket_facts bucket Hb) as (Hslash & _).
  split.
  - intros Hs. rewrite !elem_of_cons, elem_of_nil in Hm.
    destruct Hm as [->|[->|[->|[->|[]]]]]; cbn [String.eqb Ascii.eqb Bool.eqb] in Ho;
      rewrite (S3_serves_object _ _ r rt _ _ s Hrt Hp Hl Ho); clear Hrt; autounfold with s3_handlers; rewrite labels_key, labels_bucket;
      unfold Adapter_GetObject, Adapter_HeadObject, Adapter_PutObject, Adapter_DeleteObject, call, reply; cbn [snd].
    + rewrite law_Get. unfold get_spec. rewrite Hs. by exists s.
    + rewrite law_Head. unfold get_spec. rewrite Hs. by exists s.
    + erewrite law_Put_missing; [by exists s|cbn [po_Body poi_Body]; rewrite Hbody; reflexivity|done].
    + destruct (law_Delete bucket key s) as (s' & Hs' & ->). rewrite decide_False by (intros [? ?]; congruence).
      exists s'. split; [done|]. rewrite Hs'. apply map_eq. intros i. destruct (decide (i = bucket)) as [->|].
      * by rewrite lookup_alter_eq, Hs.
      * by rewrite lookup_alter_ne.
  - intros os Hs Hk' Hm'. rewrite !elem_of_cons, elem_of_nil in Hm'.
    assert (As_domain (Storage.NoSuchKey bucket key) =
      Some (mkDomainErrorFields KindNoSuchKey (bucket +:+ String "/" key) "no such key")) as Ed by done.
    assert (mapError (Storage.NoSuchKey bucket key) = EShim (RestXml.NoSuchKey bucket key)) as Emap.
    { unfold mapError. rewrite Ed. cbn [de_Kind de_Resource]. rewrite IndexByte_app by done.
      by rewrite str_take_app, str_drop_sep. }
    destruct Hm' as [->|[->|[]]]; cbn [String.eqb Ascii.eqb Bool.eqb] in Ho;
      rewrite (S3_serves_object _ _ r rt _ _ s Hrt Hp Hl Ho); clear Hrt; autounfold with s3_handlers; rewrite labels_key, labels_bucket;
      unfold Adapter_GetObject, Adapter_HeadObject, call, reply; cbn [snd];
      rewrite ?law_Get, ?law_Head; unfold get_spec; rewrite Hs, Hk'; cbn [fst snd]; by rewrite Emap.
Qed.

(** C3: A multipart upload over HTTP.  A client opens an upload, sends the parts
    in any order, each with its own number from 1 to 10000, completes the
    upload and fetches the object: every request is answered 200, the object is
    the parts in ascending order, its ETag is the one the completion returned
    and the upload is gone. *)
Theorem s3_multipart_round_trip `{S3Xml} (b : Backend) (t1 t2 t3 t4 t5 : Time) (bucket key : string)
    (st : bucketState) (ps sorted : list (Z * bytes)) (body : bytes) (rt : Router s3_op) :
  s3_reached rt → bucket ≠ "" → all_bytes bucket_byte bucket = true → seen_key key = Some key →
  buckets b !! bucket = Some st → Forall (λ p, 1 <= p.1 <= 10000) ps → ps ≡ₚ sorted → StronglySorted Z.lt sorted.*1 →
  ∃ id etag x1 x2 x3 h,
    s3_send bucket key t1 t2 "POST" {["uploads" := [""]]} ∅ [] (rt, b) =
      (x1, Some (xml_200 (InitiateMultipartUploadResult bucket key id))) ∧
    s3_send_parts bucket key t3 id ps x1 = Some x2 ∧
    s3_send bucket key t4 t4 "POST" {["uploadId" := [id]]} ∅ body x2 =
      (x3, Some (xml_200 (CompleteMultipartUploadResult bucket key etag))) ∧
    (s3_send bucket key t5 t5 "GET" ∅ ∅ [] x3).2 = Some (mkResponse 200 h (Raw (concat sorted.*2))) ∧
    h !! "Etag" = Some etag ∧ h !! "Content-Length" = Some (Itoa (Z.of_nat (length (concat sorted.*2)))) ∧
    uploads x3.2 !! id = None.
Proof.
  intros Hrt Hne Hb Hk Hbk Hps Hp Hs.
  set (up := mkUploadState bucket key t2 ∅ "" None).
  destruct (s3_open_upload bucket key Hne Hb Hk t1 t2 rt b st Hrt Hbk) as (id & rt1 & Hrt1 & Eopen).
  set (b1 := set_upload b id up) in *.
  assert (uploads b1 !! id = Some up) as Hu by apply lookup_insert_eq.
  destruct (s3_send_parts_spec bucket key Hne Hb Hk t3 id up ps rt1 b1 Hrt1 Hu eq_refl eq_refl Hps)
    as (rt2 & Hrt2 & Eparts).
  pose proof (upload_all_spec t3 id up ps b1 Hu Hps) as Eall. change (up_bucket up) with bucket in Eall.
  change (up_key up) with key in Eall. rewrite Eall in Eparts. change (up_parts up) with (∅ : gmap Z partState) in Eparts.
  set (up2 := set_parts up (parts_of t3 ps ∅)) in *. set (b2 := set_upload b1 id up2) in *.
  destruct (s3_complete_upload bucket key Hne Hb Hk t4 id body rt2 b2 up2 st Hrt2) as (etag & rt3 & Hrt3 & Ecomp);
    [apply lookup_insert_eq|done|done|done|].
  unfold up2 in Ecomp. rewrite (assemble_sorted t3 up ps sorted Hp Hs) in Ecomp. fold up2 in Ecomp.
  set (o := mkObjectState _ _ _ _ _) in Ecomp. set (b3 := mkBackend _ _) in Ecomp.
  destruct (s3_fetch bucket key Hne Hb Hk t5 rt3 b3 o Hrt3) as (h & Efetch & Hetag & Hlen).
  { unfold get_obj, b3. cbn [buckets]. rewrite lookup_insert_eq. cbn. apply lookup_insert_eq. }
  { done. }
  exists id, etag, (rt1, b1), (rt2, b2), (rt3, b3), h. split_and!; try done. apply lookup_delete_eq.
Qed.

(** C2: A client that lists a bucket from its start, page by page, following
    NextContinuationToken while IsTruncated, gets every object of the bucket
    with the prefix that is not rolled up, once and in order, and exactly the
    common prefixes of the others; as many pages as there are objects, and one
    more, are enough, for every max-keys and with one exception.  Where the
    bucket has an object with the empty key (a PUT of /bucket/ stores one) and
    another one, a listing without a prefix at max-keys 1 never ends: the token
    after the empty key is empty and asks for the first page again. *)
Theorem s3_listing_complete `{S3Xml} (b : Backend) (now : Time) (r0 : Request) (bucket : string) (st : bucketState)
    (rt : Router s3_op) :
  s3_reached rt → bucket ≠ "" → all_bytes bucket_byte bucket = true → lists_bucket r0 bucket →
  buckets b !! bucket = Some st →
  let prefix := Query_Get (Query r0) "prefix" in let delim := Query_Get (Query r0) "delimiter" in
  let stuck := deref (int32_field (Query_Get (Query r0) "max-keys")) 1000 = 1 ∧ prefix = "" ∧
    is_Some (bk_objects st !! "") ∧ (2 <= size (bk_objects st))%nat in
  (stuck → ∀ fuel, s3_list_all fuel now r0 "" (rt, b) = None) ∧
  (¬ stuck →
   ∃ objects prefixes, s3_list_all (S (size (bk_objects st))) now r0 "" (rt, b) = Some (objects, prefixes) ∧
    StronglySorted str_lt (oo_Key <$> objects) ∧
    (∀ x, x ∈ objects ↔ ∃ k o, bk_objects st !! k = Some o ∧ HasPrefix k prefix = true ∧
       common_prefix prefix delim k = None ∧
       x = mkObjectOut k (obj_lastModified o) (obj_etag o) (Z.of_nat (length (obj_data o)))) ∧
    (∀ p, p ∈ prefixes ↔
       ∃ k, is_Some (bk_objects st !! k) ∧ HasPrefix k prefix = true ∧ common_prefix prefix delim k = Some p)).
Proof.
  intros Hrt Hne Hb Hl Hbk prefix delim stuck. set (opt := s3_list_options r0 bucket "").
  assert (stuck ↔ never_advances opt st) as -> by (unfold stuck, never_advances; cbn; naive_solver).
  split.
  - intros Hs fuel. rewrite (s3_list_all_is _ now r0 bucket "" rt b st) by done. fold opt.
    by rewrite (list_all_stuck fuel opt b st).
  - intros Hs. rewrite (s3_list_all_is _ now r0 bucket "" rt b st) by done.
    destruct (list_all_spec opt b st Hbk Hs eq_refl) as (os & cps & E & Hsort & Hos & Hcps).
    fold opt. rewrite E. cbn [fmap option_fmap option_map fst snd]. eexists _, _. split; [reflexivity|]. split_and!.
    + by rewrite <-list_fmap_compose.
    + intros x. rewrite list_elem_of_fmap. setoid_rewrite Hos. naive_solver.
    + exact Hcps.
Qed.

(** ** Witnesses *)

#[local] Instance demo_xml : S3Xml := {|
  Unmarshal_CompletedMultipartUpload := λ _, Some [];
  Unmarshal_LocationConstraint := λ _, Some None |}.
Definition demo_s3_bucket : bucketState :=
  mkBucketState 5 "" {["a.txt" := demo_object "hello"; "b/c.txt" := demo_object "world"]}.
Definition demo_s3 : Backend := mkBackend {["photos" := demo_s3_bucket]} ∅.
Definition demo_s3_headers : gmap string (list string) := {["X-Amz-Meta-Owner" := ["ann"]]}.
Definition demo_s3_put : Request := s3_client "PUT" "photos" "x/y" ∅ demo_s3_headers (bytes_of_string "blob").
Definition demo_s3_get : Request := s3_client "GET" "photos" "x/y" ∅ ∅ [].
Definition demo_s3_list : Request :=
  mkRequest "GET" "localhost" "" "/photos" "" "/photos" "" {["list-type" := ["2"]; "max-keys" := ["1"]]} ∅ 0 None.

Lemma demo_s3_canonical : canonical_headers demo_s3_headers.
Proof.
  intros k [v Hk]. unfold demo_s3_headers in Hk. apply lookup_singleton_Some in Hk as [<- _]. by split.
Qed.

Lemma s3_objects_round_trip_witness :
  let '(rt1, (b1, created)) := S3_ServeHTTP 7 8 demo_s3_put s3_router demo_s3 in
  ∃ h, (S3_ServeHTTP 9 10 demo_s3_get rt1 b1).2.2 = Some (mkResponse 200 h (Raw (bytes_of_string "blob"))) ∧
    h !! "X-Amz-Meta-Owner" = Some "ann".
Proof.
  pose proof (s3_objects_round_trip demo_s3 7 8 9 10 demo_s3_put demo_s3_get "photos" "x/y" (bytes_of_string "blob")
    (bk_objects demo_s3_bucket)) as H.
  destruct (S3_ServeHTTP 7 8 demo_s3_put s3_router demo_s3) as [rt1 [b1 created]].
  destruct (S3_ServeHTTP 9 10 demo_s3_get rt1 b1) as [rt2 [b2 got]].
  destruct H as (etag & h & _ & _ & -> & _ & _ & _ & _ & Hm).
  - discriminate.
  - reflexivity.
  - reflexivity.
  - split; [|split]; [reflexivity|reflexivity|split; [|split; [|split]]]; reflexivity.
  - split; [|split]; [reflexivity|reflexivity|split; [|split; [|split]]]; reflexivity.
  - exact demo_s3_canonical.
  - reflexivity.
  - reflexivity.
  - exists h. split; [reflexivity|]. exact (Hm "Owner" "ann" [] eq_refl).
Defined.

Definition demo_s3_part : Request :=
  s3_client "PUT" "photos" "x" {["partNumber" := ["1"]; "uploadId" := ["u"]]} {["X-Amz-Copy-Source" := ["/a/b"]]} [].

Lemma s3_requests_dispatched_witness :
  rt_Handler <$> (dispatch demo_s3_part s3_router).2 = Some UploadPartHandler ∧
  rt_Handler <$> (dispatch demo_s3_get s3_router).2 = Some GetObjectHandler.
Proof.
  assert (∀ r, at_level r Service = false → at_level r BucketLevel = false → at_level r ObjectLevel = true →
    object_path r) as Hp by (intros r; repeat split; assumption).
  split.
  - apply (s3_requests_dispatched demo_s3_part); [apply Hp; reflexivity|reflexivity..].
  - destruct (s3_requests_dispatched demo_s3_get) as [H _]. rewrite H by (apply Hp; reflexivity). reflexivity.
Defined.

Lemma s3_requests_answered_witness :
  ∃ resp, (S3_ServeHTTP 7 8 demo_s3_get s3_router demo_s3).2.2 = Some resp ∧
    (S3_ServeHTTP 7 8 demo_s3_get s3_router demo_s3).2.1 = demo_s3.
Proof.
  destruct (s3_requests_answered demo_s3 7 8 demo_s3_get s3_router s3_reached_start) as (resp & E & Hr & _).
  exists resp. split; [exact E|]. apply Hr. left. reflexivity.
Defined.

Lemma s3_missing_reported_witness :
  (S3_ServeHTTP 7 8 demo_s3_get s3_router demo_s3).2 =
    (demo_s3, Some (WriteBackendError ∅ (EShim (RestXml.NoSuchKey "photos" "x/y")))).
Proof.
  apply (s3_missing_reported demo_s3 7 8 demo_s3_get "GET" "photos" "x/y" [] s3_router s3_reached_start)
    with (os := bk_objects demo_s3_bucket).
  - discriminate.
  - reflexivity.
  - reflexivity.
  - left.
  - split; [|split]; [reflexivity|reflexivity|split; [|split; [|split]]]; reflexivity.
  - reflexivity.
  - reflexivity.
  - reflexivity.
  - left.
Defined.

Lemma s3_multipart_round_trip_witness :
  ∃ id x1 x2 x3 h,
    (s3_send "photos" "big" 6 7 "POST" {["uploads" := [""]]} ∅ [] (s3_router, demo_s3)).1 = x1 ∧
    s3_send_parts "photos" "big" 8 id [(2, bytes_of_string "two"); (1, bytes_of_string "one")] x1 = Some x2 ∧
    (s3_send "photos" "big" 9 9 "POST" {["uploadId" := [id]]} ∅ [] x2).1 = x3 ∧
    (s3_send "photos" "big" 10 10 "GET" ∅ ∅ [] x3).2 = Some (mkResponse 200 h (Raw (bytes_of_string "onetwo"))).
Proof.
  destruct (s3_multipart_round_trip demo_s3 6 7 8 9 10 "photos" "big" demo_s3_bucket
    [(2, bytes_of_string "two"); (1, bytes_of_string "one")] [(1, bytes_of_string "one"); (2, bytes_of_string "two")]
    [] s3_router s3_reached_start) as (id & etag & x1 & x2 & x3 & h & E1 & E2 & E3 & E4 & _).
  - discriminate.
  - reflexivity.
  - reflexivity.
  - reflexivity.
  - repeat constructor; vm_compute; discriminate.
  - apply Permutation_swap.
  - repeat constructor.
  - exists id, x1, x2, x3, h. rewrite E1, E3. split; [reflexivity|]. split; [exact E2|]. split; [reflexivity|exact E4].
Defined.

Definition demo_s3_empty_key : bucketState := mkBucketState 5 "" {["" := demo_object "x"; "b" := demo_object "y"]}.

Lemma s3_listing_complete_witness :
  (∃ objects prefixes, s3_list_all 3 7 demo_s3_list "" (s3_router, demo_s3) = Some (objects, prefixes) ∧
    StronglySorted str_lt (oo_Key <$> objects)) ∧
  s3_list_all 100 7 demo_s3_list "" (s3_router, mkBackend {["photos" := demo_s3_empty_key]} ∅) = None.
Proof.
  assert (lists_bucket demo_s3_list "photos") as Hl by repeat split.
  assert ("photos" ≠ "") as Hne by discriminate.
  split.
  - destruct (proj2 (s3_listing_complete demo_s3 7 demo_s3_list "photos" demo_s3_bucket s3_router s3_reached_start
      Hne eq_refl Hl eq_refl)) as (objects & prefixes & E & Hs & _).
    + intros (_ & _ & [o Ho] & _). discriminate Ho.
    + exists objects, prefixes. split; [exact E|exact Hs].
  - apply (s3_listing_complete (mkBackend {["photos" := demo_s3_empty_key]} ∅) 7 demo_s3_list "photos"
      demo_s3_empty_key s3_router s3_reached_start Hne eq_refl Hl (lookup_singleton_eq _ _)).
    split_and!; [reflexivity|reflexivity|by eexists|vm_compute; lia].
Defined.
