(* ===== verification/Queue.v ===== *)
(** * Message queues: domain types, errors and the in-process backend

    Models [internal/queue/domain] and [services/queue/backends/inmem].  The
    clock ([now]), the random bytes that [newID] draws ([rnd 0], [rnd 1], ...)
    and the order in which Go ranges over the in-flight map ([order]) are
    arguments.  A message is in exactly one of a queue's two collections, so
    the Go pointers are modelled by values.  The long poll of
    [ReceiveMessages] is a loop over the ticks of an environment, in which
    other callers may act between two attempts. *)

From S2P Require Import Prelude GoStrings GoBytes LongPoll.

(** ** domain/errors.go *)

Inductive Kind :=
  | KindUnknown | KindNoSuchQueue | KindQueueAlreadyExists | KindQueueBeingDeleted
  | KindInvalidReceiptHandle | KindMessageTooLarge | KindInvalidArgument.
#[export] Instance Kind_eq_dec : EqDecision Kind.
Proof. solve_decision. Defined.

Inductive error :=
  | Plain (text : string)
  | DomainError (Kind_ : Kind) (Resource Message : string) (Inner : option error).

Definition message_or (msg dflt : string) : string := if String.eqb msg "" then dflt else msg.

(** [Quote] is the [%q] of the format strings ([strconv.Quote]). *)
Definition Error_text (Quote : string → string) (e : error) : string :=
  match e with
  | Plain t => t
  | DomainError k r m _ =>
      match k with
      | KindNoSuchQueue => "queue " +:+ Quote r +:+ " does not exist"
      | KindQueueAlreadyExists => "queue " +:+ Quote r +:+ " already exists"
      | KindQueueBeingDeleted => "queue " +:+ Quote r +:+ " is being deleted"
      | KindInvalidReceiptHandle => message_or m "invalid receipt handle"
      | KindMessageTooLarge => message_or m "message size exceeds queue maximum"
      | KindInvalidArgument => m
      | KindUnknown => message_or m "queue domain error"
      end
  end.

Definition Unwrap (e : error) : option error :=
  match e with Plain _ => None | DomainError _ _ _ i => i end.

Definition NoSuchQueue (name : string) : error := DomainError KindNoSuchQueue name "" None.
Definition QueueAlreadyExists (name : string) : error := DomainError KindQueueAlreadyExists name "" None.
Definition QueueBeingDeleted (name : string) : error := DomainError KindQueueBeingDeleted name "" None.
Definition InvalidReceiptHandle (message : string) : error :=
  DomainError KindInvalidReceiptHandle "" message None.
Definition MessageTooLarge (message : string) : error := DomainError KindMessageTooLarge "" message None.
Definition InvalidArgument (message : string) : error := DomainError KindInvalidArgument "" message None.

Abbreviation result := (outcome error).

(** ** domain/domain.go *)

Record QueueAttributes := mkQueueAttributes {
  VisibilityTimeoutSeconds : Z; MessageRetentionSeconds : Z; MaxMessageSizeBytes : Z;
  DelaySeconds : Z; ApproximateMessageCount : Z; CreatedAt : Time }.
Record Queue := mkQueue { Queue_Name : string; Attributes : QueueAttributes }.
Record Message := mkMessage {
  MessageID : string; Message_Body : slice; Message_Attributes : strmap;
  ReceiptHandle : string; ReceivedAt : Time; DeliveryCount : Z }.
Record SendMessageOptions := mkSendMessageOptions {
  sm_Body : slice; sm_Attributes : strmap; sm_DelaySeconds : Z }.
Record SendMessageResult := mkSendMessageResult { smr_MessageID : string }.
Record ReceiveMessagesOptions := mkReceiveMessagesOptions {
  rm_MaxMessages : Z; rm_VisibilityTimeout : Z; rm_WaitTime : Z }.
Record CreateQueueOptions := mkCreateQueueOptions { cq_Attributes : QueueAttributes }.
Record ListQueuesOptions := mkListQueuesOptions {
  lq_Prefix : string; lq_MaxResults : Z; lq_NextToken : string }.
Record ListQueuesResult := mkListQueuesResult { lqr_Queues : list Queue; lqr_NextToken : string }.

(** ** inmem.go: state *)

Record messageState := mkMessageState {
  id : string; body : slice; attributes : strmap; enqueuedAt : Time; visibleAfter : Time;
  deliveryCount : Z; receiptHandle : string; visibleAt : Time }.
Record queueState := mkQueueState {
  q_name : string; q_createdAt : Time; q_attributes : QueueAttributes; q_tags : strmap;
  pending : list messageState; inflight : gmap string messageState }.
Record Backend := mkBackend { queues : gmap string queueState }.

Definition New : Backend := mkBackend ∅.

Definition set_messages (s : queueState) (p : list messageState) (f : gmap string messageState) : queueState :=
  mkQueueState (q_name s) (q_createdAt s) (q_attributes s) (q_tags s) p f.
Definition set_attributes (s : queueState) (a : QueueAttributes) : queueState :=
  mkQueueState (q_name s) (q_createdAt s) a (q_tags s) (pending s) (inflight s).
Definition set_tags (s : queueState) (t : strmap) : queueState :=
  mkQueueState (q_name s) (q_createdAt s) (q_attributes s) t (pending s) (inflight s).
Definition set_queue (b : Backend) (name : string) (s : queueState) : Backend :=
  mkBackend (<[name := s]> (queues b)).

Definition copyStrMap (m : strmap) : strmap :=
  match m with
  | None => None
  | Some m => Some (put_all m ∅)
  end.
Definition copyBytes (s : slice) : slice :=
  match s with None => None | Some l => Some (map (λ b, b) l) end.

Definition newID (rnd : bytes) : string := hex_EncodeToString rnd.

(** [m.receiptHandle = ""; m.visibleAt = time.Time{}] *)
Definition release (m : messageState) : messageState :=
  mkMessageState (id m) (body m) (attributes m) (enqueuedAt m) (visibleAfter m) (deliveryCount m)
    "" zeroTime.

(** The range over the in-flight map visits the handles of [order]. *)
Fixpoint reclaimInflight (now : Time) (order : list string) (s : queueState) : queueState :=
  match order with
  | [] => s
  | h :: order =>
      match inflight s !! h with
      | None => reclaimInflight now order s
      | Some m =>
          reclaimInflight now order
            (if negb (now <? visibleAt m)
             then set_messages s (pending s ++ [release m]) (delete h (inflight s))
             else s)
      end
  end.

Definition enqueued_less (x y : messageState) : bool := enqueuedAt x <? enqueuedAt y.

(** The loop of [takeVisible]: what is picked and what stays. *)
Fixpoint pick_loop (now : Time) (n : Z) (msgs picked rest : list messageState)
    : list messageState * list messageState :=
  match msgs with
  | [] => (picked, rest)
  | m :: msgs =>
      if (Z.of_nat (length picked) <? n) && negb (now <? visibleAfter m)
      then pick_loop now n msgs (picked ++ [m]) rest
      else pick_loop now n msgs picked (rest ++ [m])
  end.

Definition takeVisible (now : Time) (n : Z) (s : queueState) : queueState * list messageState :=
  if n <=? 0 then (s, [])
  else let '(picked, rest) := pick_loop now n (sort_by enqueued_less (pending s)) [] [] in
       (set_messages s rest (inflight s), picked).

(** ** Queue lifecycle *)

Definition queueFromState (s : queueState) : Queue :=
  let a := q_attributes s in
  mkQueue (q_name s)
    (mkQueueAttributes (VisibilityTimeoutSeconds a) (MessageRetentionSeconds a)
       (MaxMessageSizeBytes a) (DelaySeconds a)
       (Z.of_nat (length (pending s)) + Z.of_nat (size (inflight s))) (CreatedAt a)).

Definition or_zero (n d : Z) : Z := if n =? 0 then d else n.

Definition CreateQueue (now : Time) (name : string) (opt : CreateQueueOptions) (b : Backend)
    : Backend * result Queue :=
  if String.eqb name "" then (b, Err (InvalidArgument "queue name is required"))
  else match queues b !! name with
  | Some _ => (b, Err (QueueAlreadyExists name))
  | None =>
      let a := cq_Attributes opt in
      let st := mkQueueState name now
        (mkQueueAttributes (or_zero (VisibilityTimeoutSeconds a) 30)
           (or_zero (MessageRetentionSeconds a) (4 * 24 * 60 * 60))
           (or_zero (MaxMessageSizeBytes a) (256 * 1024)) (DelaySeconds a)
           (ApproximateMessageCount a) now) None [] ∅ in
      (set_queue b name st, Ok (queueFromState st))
  end.

Definition DeleteQueue (name : string) (b : Backend) : Backend * result unit :=
  match queues b !! name with
  | None => (b, Err (NoSuchQueue name))
  | Some _ => (mkBackend (delete name (queues b)), Ok ())
  end.

Definition if_pos (n old : Z) : Z := if 0 <? n then n else old.

Definition SetQueueAttributes (name : string) (attrs : QueueAttributes) (b : Backend)
    : Backend * result unit :=
  match queues b !! name with
  | None => (b, Err (NoSuchQueue name))
  | Some st =>
      let a := q_attributes st in
      (set_queue b name (set_attributes st
         (mkQueueAttributes (if_pos (VisibilityTimeoutSeconds attrs) (VisibilityTimeoutSeconds a))
            (if_pos (MessageRetentionSeconds attrs) (MessageRetentionSeconds a))
            (if_pos (MaxMessageSizeBytes attrs) (MaxMessageSizeBytes a))
            (if_pos (DelaySeconds attrs) (DelaySeconds a))
            (ApproximateMessageCount a) (CreatedAt a))), Ok ())
  end.

Definition ListQueueTags (name : string) (b : Backend) : Backend * result (gmap string string) :=
  match queues b !! name with
  | None => (b, Err (NoSuchQueue name))
  | Some st => (b, Ok (put_all (default ∅ (q_tags st)) ∅))
  end.

Definition TagQueue (name : string) (tags : strmap) (b : Backend) : Backend * result unit :=
  match queues b !! name with
  | None => (b, Err (NoSuchQueue name))
  | Some st =>
      (set_queue b name (set_tags st
         (Some (put_all (default ∅ tags) (default ∅ (q_tags st))))),
       Ok ())
  end.

(** [delete] on a nil map does nothing. *)
Definition UntagQueue (name : string) (keys : list string) (b : Backend) : Backend * result unit :=
  match queues b !! name with
  | None => (b, Err (NoSuchQueue name))
  | Some st =>
      (set_queue b name (set_tags st
         (match q_tags st with
          | None => None
          | Some t => Some (fold_left (λ t k, delete k t) keys t)
          end)), Ok ())
  end.

Definition HeadQueue (now : Time) (order : list string) (name : string) (b : Backend)
    : Backend * result Queue :=
  match queues b !! name with
  | None => (b, Err (NoSuchQueue name))
  | Some st =>
      let st := reclaimInflight now order st in
      (set_queue b name st, Ok (queueFromState st))
  end.

Definition ListQueues (opt : ListQueuesOptions) (b : Backend) : Backend * result ListQueuesResult :=
  let names := sort_Strings (filter (λ n, lq_Prefix opt = "" ∨ HasPrefix n (lq_Prefix opt) = true)
                 (fst <$> map_to_list (queues b))) in
  let qs := omap (λ n, queueFromState <$> queues b !! n) names in
  (b, Ok (mkListQueuesResult
            (if (0 <? lq_MaxResults opt) && (lq_MaxResults opt <? Z.of_nat (length qs))
             then take (Z.to_nat (lq_MaxResults opt)) qs else qs) "")).

(** ** Messages *)

Definition SendMessage (now : Time) (rnd : bytes) (queueName : string) (opt : SendMessageOptions)
    (b : Backend) : Backend * result SendMessageResult :=
  match queues b !! queueName with
  | None => (b, Err (NoSuchQueue queueName))
  | Some st =>
      let a := q_attributes st in
      if (0 <? MaxMessageSizeBytes a) && (MaxMessageSizeBytes a <? slice_len (sm_Body opt))
      then (b, Err (MessageTooLarge "message body exceeds the queue maximum size"))
      else
        let delay := or_zero (sm_DelaySeconds opt) (DelaySeconds a) in
        let m := mkMessageState (newID rnd) (copyBytes (sm_Body opt)) (copyStrMap (sm_Attributes opt))
                   now (now + seconds delay) 0 "" zeroTime in
        (set_queue b queueName (set_messages st (pending st ++ [m]) (inflight st)),
         Ok (mkSendMessageResult (id m)))
  end.

(** [m.deliveryCount++], the new handle and the new deadline. *)
Definition deliver (now : Time) (handle : string) (visibility : Z) (m : messageState) : messageState :=
  mkMessageState (id m) (body m) (attributes m) (enqueuedAt m) (visibleAfter m)
    (wrap_s 64 (deliveryCount m + 1)) handle (now + seconds visibility).

Definition message_of (now : Time) (m : messageState) : Message :=
  mkMessage (id m) (copyBytes (body m)) (copyStrMap (attributes m)) (receiptHandle m) now
    (deliveryCount m).

(** The loop over the picked messages; [i] counts the [newID] calls. *)
Fixpoint deliver_loop (now : Time) (rnd : nat → bytes) (visibility : Z) (i : nat)
    (picked : list messageState) (f : gmap string messageState) (out : list Message)
    : gmap string messageState * list Message :=
  match picked with
  | [] => (f, out)
  | m :: picked =>
      let m := deliver now (newID (rnd i)) visibility m in
      deliver_loop now rnd visibility (S i) picked (<[receiptHandle m := m]> f)
        (out ++ [message_of now m])
  end.

Definition batch_size (n : Z) : Z := if (n <=? 0) || (10 <? n) then 10 else n.

Definition tryReceive (now : Time) (order : list string) (rnd : nat → bytes) (queueName : string)
    (opt : ReceiveMessagesOptions) (b : Backend) : Backend * result (list Message) :=
  match queues b !! queueName with
  | None => (b, Err (NoSuchQueue queueName))
  | Some st =>
      let st := reclaimInflight now order st in
      let '(st, picked) := takeVisible now (batch_size (rm_MaxMessages opt)) st in
      if (length picked =? 0)%nat then (set_queue b queueName st, Ok [])
      else
        let visibility := or_zero (rm_VisibilityTimeout opt)
                            (VisibilityTimeoutSeconds (q_attributes st)) in
        let '(f, out) := deliver_loop now rnd visibility 0 picked (inflight st) [] in
        (set_queue b queueName (set_messages st (pending st) f), Ok out)
  end.

(** The polling loop, from the state in which it starts. *)
Definition receive_loop (fuel : nat) (env : nat → tick Backend error) (deadline : Time) (queueName : string)
    (opt : ReceiveMessagesOptions) (b : Backend) : option (Backend * result (list Message)) :=
  poll (λ t b, tryReceive (tk_now t) (tk_order t) (tk_rnd t) queueName opt b) (rm_WaitTime opt =? 0) deadline fuel env b.

Definition ReceiveMessages (fuel : nat) (start : Time) (env : nat → tick Backend error) (queueName : string)
    (opt : ReceiveMessagesOptions) (b : Backend) : option (Backend * result (list Message)) :=
  receive_loop fuel env (start + seconds (rm_WaitTime opt)) queueName opt b.

Definition DeleteMessage (queueName handle : string) (b : Backend) : Backend * result unit :=
  match queues b !! queueName with
  | None => (b, Err (NoSuchQueue queueName))
  | Some st =>
      match inflight st !! handle with
      | None => (b, Err (InvalidReceiptHandle ("receipt handle is not in flight on " +:+ queueName)))
      | Some _ => (set_queue b queueName (set_messages st (pending st) (delete handle (inflight st))), Ok ())
      end
  end.

Definition ChangeVisibility (now : Time) (queueName handle : string) (visibilityTimeout : Z)
    (b : Backend) : Backend * result unit :=
  match queues b !! queueName with
  | None => (b, Err (NoSuchQueue queueName))
  | Some st =>
      match inflight st !! handle with
      | None => (b, Err (InvalidReceiptHandle ("receipt handle is not in flight on " +:+ queueName)))
      | Some m =>
          if visibilityTimeout <=? 0 then
            let m := mkMessageState (id m) (body m) (attributes m) (enqueuedAt m) now
                       (deliveryCount m) "" zeroTime in
            (set_queue b queueName
               (set_messages st (pending st ++ [m]) (delete handle (inflight st))), Ok ())
          else
            let m := mkMessageState (id m) (body m) (attributes m) (enqueuedAt m) (visibleAfter m)
                       (deliveryCount m) (receiptHandle m) (now + seconds visibilityTimeout) in
            (set_queue b queueName (set_messages st (pending st) (<[handle := m]> (inflight st))), Ok ())
      end
  end.
