(* ===== verification/QueueProps.v ===== *)
(** * Message queues: the properties of the in-process backend

    Messages are conserved (double entry over all operations), a receive
    takes the oldest visible messages, a leased message is not handed out
    again, the long poll returns, and the invariant of all reachable states. *)

From S2P Require Import Prelude GoStrings GoBytes Ledger LongPoll Queue.

(** ** The messages of a queue *)

Definition payload_of (m : messageState) : string * slice * strmap * Time :=
  (id m, body m, attributes m, enqueuedAt m).
Definition msgs (s : queueState) : list messageState := pending s ++ values (inflight s).
Definition contents (b : Backend) (q : string) : list (string * slice * strmap * Time) :=
  from_option (λ s, payload_of <$> msgs s) [] (queues b !! q).

Lemma msgs_elem s m : m ∈ msgs s ↔ m ∈ pending s ∨ ∃ h, inflight s !! h = Some m.
Proof. unfold msgs. by rewrite elem_of_app, elem_of_values. Qed.

Lemma contents_set b q s q' :
  contents (set_queue b q s) q' = if decide (q = q') then payload_of <$> msgs s else contents b q'.
Proof.
  unfold contents. simpl. destruct (decide (q = q')) as [->|].
  - by rewrite lookup_insert_eq.
  - by rewrite lookup_insert_ne.
Qed.

Lemma payload_release m : payload_of (release m) = payload_of m.
Proof. done. Qed.

(** *** Reclaiming *)

Definition expired (now : Time) (m : messageState) : Prop := visibleAt m <= now.
#[export] Instance expired_dec now m : Decision (expired now m).
Proof. unfold expired. apply _. Defined.

Lemma expired_test now m : negb (now <? visibleAt m) = bool_decide (expired now m).
Proof. unfold expired. case_bool_decide; lia. Qed.

Lemma reclaim_contents now order s :
  payload_of <$> msgs (reclaimInflight now order s) ≡ₚ payload_of <$> msgs s.
Proof.
  revert s. induction order as [|h order IH]; intros s; simpl; [done|].
  destruct (inflight s !! h) as [m|] eqn:E; [|done]. rewrite IH.
  destruct (negb _); [|done]. unfold msgs. simpl.
  rewrite (values_delete _ _ _ E), !fmap_app. simpl. rewrite payload_release.
  by rewrite <-(assoc_L (++)).
Qed.

Lemma reclaim_fields now order s :
  let s' := reclaimInflight now order s in
  q_name s' = q_name s ∧ q_attributes s' = q_attributes s ∧ q_tags s' = q_tags s ∧
  q_createdAt s' = q_createdAt s.
Proof.
  revert s. induction order as [|h order IH]; intros s; simpl; [done|].
  destruct (inflight s !! h) as [m|]; [|apply IH].
  destruct (IH (if negb (now <? visibleAt m)
                then set_messages s (pending s ++ [release m]) (delete h (inflight s)) else s))
    as (-> & -> & -> & ->). by destruct (negb _).
Qed.

Lemma reclaim_lookup now order s h m :
  inflight (reclaimInflight now order s) !! h = Some m → inflight s !! h = Some m.
Proof.
  revert s. induction order as [|h' order IH]; intros s; simpl; [done|].
  destruct (inflight s !! h') as [m'|]; [|apply IH]. intros H%IH.
  destruct (negb _); [|done]. simpl in H. apply lookup_delete_Some in H. apply H.
Qed.

Lemma reclaim_keeps now order s h m :
  inflight s !! h = Some m → ¬ expired now m →
  inflight (reclaimInflight now order s) !! h = Some m.
Proof.
  revert s. induction order as [|h' order IH]; intros s H Hx; simpl; [done|].
  destruct (inflight s !! h') as [m'|] eqn:E; [|by apply IH]. apply IH; [|done].
  rewrite expired_test. case_bool_decide; [|done]. simpl.
  rewrite lookup_delete_ne; [done|]. intros ->. by simplify_eq.
Qed.

(** The range visits every handle once: the expired messages, released, are
    appended to the pending ones, in some order. *)
Lemma reclaim_pending_visit now order s :
  NoDup order →
  pending (reclaimInflight now order s) =
    pending s ++ (release <$> filter (expired now) (omap (λ h, inflight s !! h) order)).
Proof.
  revert s. induction order as [|h order IH]; intros s; simpl; [by rewrite app_nil_r|].
  intros [Hni Hnd]%NoDup_cons. destruct (inflight s !! h) as [m|] eqn:E; [|by apply IH].
  rewrite IH by done. rewrite expired_test, filter_cons.
  destruct (decide (expired now m)) as [Hx|Hx].
  - rewrite bool_decide_eq_true_2 by done. simpl. rewrite <-(assoc_L (++)).
    by rewrite omap_lookup_delete.
  - by rewrite bool_decide_eq_false_2 by done.
Qed.

Lemma reclaim_pending now order s :
  order ≡ₚ (map_to_list (inflight s)).*1 →
  pending (reclaimInflight now order s) ≡ₚ
    pending s ++ (release <$> filter (expired now) (values (inflight s))).
Proof.
  intros H. rewrite reclaim_pending_visit by (by eapply NoDup_keys).
  by rewrite omap_lookup_values.
Qed.

(** *** Taking *)

Definition visible (now : Time) (m : messageState) : Prop := visibleAfter m <= now.
#[export] Instance visible_dec now m : Decision (visible now m).
Proof. unfold visible. apply _. Defined.

Lemma visible_test now m : negb (now <? visibleAfter m) = bool_decide (visible now m).
Proof. unfold visible. case_bool_decide; lia. Qed.

Lemma pick_loop_spec now n l p r pk rs :
  pick_loop now n l p r = (pk, rs) →
  pk = p ++ take (Z.to_nat n - length p) (filter (visible now) l) ∧
  filter (visible now) rs = filter (visible now) r ++
    drop (Z.to_nat n - length p) (filter (visible now) l) ∧
  pk ++ rs ≡ₚ p ++ r ++ l.
Proof.
  revert p r. induction l as [|m l IH]; intros p r; simpl.
  { intros [= <- <-]. change (filter (visible now) []) with (@nil messageState).
    by rewrite take_nil, drop_nil, !app_nil_r. }
  rewrite visible_test, filter_cons. destruct (Z.of_nat (length p) <? n) eqn:Hn; simpl.
  - case_bool_decide as Hv; simpl; intros (Hpk & -> & E)%IH.
    + rewrite decide_True by done. rewrite length_app in Hpk |- *. cbn [length] in Hpk |- *.
      replace (Z.to_nat n - length p)%nat with (S (Z.to_nat n - (length p + 1))) by lia.
      rewrite E, Hpk. simpl. rewrite <-!(assoc_L (++)). split_and!; [done..|]. solve_Permutation.
    + rewrite decide_False by done. rewrite filter_app, (filter_cons _ m []), decide_False by done.
      change (filter (visible now) []) with (@nil messageState). rewrite app_nil_r.
      split_and!; [done..|]. rewrite E. solve_Permutation.
  - intros (Hpk & -> & E)%IH. replace (Z.to_nat n - length p)%nat with O in * by lia.
    rewrite E, Hpk, !take_0, !drop_0, filter_app, (filter_cons _ m []), <-(assoc_L (++)).
    split_and!; [done|by case_decide|]. solve_Permutation.
Qed.

Lemma enqueued_sorted l :
  StronglySorted (λ x y, enqueuedAt x <= enqueuedAt y) (sort_by enqueued_less l).
Proof.
  assert (StronglySorted (le_by enqueued_less) (sort_by enqueued_less l)) as H.
  { apply sort_by_sorted; unfold le_by, enqueued_less; intros; lia. }
  induction H as [|x l' H IH Hx]; constructor; [done|].
  eapply Forall_impl; [exact Hx|]. unfold le_by, enqueued_less. intros. lia.
Qed.

(** *** Delivering *)

Definition handles (rnd : nat → bytes) (i n : nat) : list string := (λ j, newID (rnd j)) <$> seq i n.

(** The handles that a batch can draw are new: pairwise distinct and not in use. *)
Definition fresh_handles (rnd : nat → bytes) (f : gmap string messageState) : Prop :=
  NoDup (handles rnd 0 10) ∧ ∀ h, h ∈ handles rnd 0 10 → f !! h = None.

Lemma fresh_handles_sub rnd (f g : gmap string messageState) n :
  fresh_handles rnd f → (n <= 10)%nat → (∀ h, is_Some (g !! h) → is_Some (f !! h)) →
  NoDup (handles rnd 0 n) ∧ ∀ h, h ∈ handles rnd 0 n → g !! h = None.
Proof.
  intros [Hnd Hf] Hn Hg.
  assert (handles rnd 0 10 = handles rnd 0 n ++ handles rnd n (10 - n)) as E.
  { unfold handles. rewrite <-fmap_app, <-seq_app. do 2 f_equal. lia. }
  rewrite E in *. apply NoDup_app in Hnd as (? & _ & _). split; [done|].
  intros h Hh. apply eq_None_not_Some. intros Hx%Hg. rewrite Hf in Hx; [by destruct Hx|set_solver].
Qed.

Definition delivered (now : Time) (rnd : nat → bytes) (v : Z) (i : nat) (l : list messageState) :
  list messageState := imap (λ j m, deliver now (newID (rnd (i + j)%nat)) v m) l.

Lemma delivered_cons now rnd v i m l :
  delivered now rnd v i (m :: l) = deliver now (newID (rnd i)) v m :: delivered now rnd v (S i) l.
Proof.
  unfold delivered. simpl. rewrite Nat.add_0_r. f_equal. apply imap_ext. intros j x _.
  simpl. by rewrite Nat.add_succ_r.
Qed.

Lemma payload_delivered now rnd v i l : payload_of <$> delivered now rnd v i l = payload_of <$> l.
Proof. revert i. induction l as [|m l IH]; intros i; [done|]. rewrite delivered_cons. simpl. by rewrite IH. Qed.

Lemma handles_delivered now rnd v i l :
  receiptHandle <$> delivered now rnd v i l = handles rnd i (length l).
Proof. revert i. induction l as [|m l IH]; intros i; [done|]. rewrite delivered_cons. simpl. by rewrite IH. Qed.

Lemma deliver_loop_spec now rnd v i l f out :
  NoDup (handles rnd i (length l)) → (∀ h, h ∈ handles rnd i (length l) → f !! h = None) →
  let r := deliver_loop now rnd v i l f out in
  r.2 = out ++ (message_of now <$> delivered now rnd v i l) ∧
  values r.1 ≡ₚ delivered now rnd v i l ++ values f ∧
  (∀ m, m ∈ delivered now rnd v i l → r.1 !! receiptHandle m = Some m) ∧
  (∀ h, h ∉ handles rnd i (length l) → r.1 !! h = f !! h).
Proof.
  revert i f out. induction l as [|m l IH]; intros i f out Hnd Hf; cbn [deliver_loop].
  { simpl. rewrite app_nil_r. split_and!; [done..| |done]. intros ? H. by apply elem_of_nil in H. }
  set (d := deliver now (newID (rnd i)) v m). cbn [handles length seq fmap list_fmap] in Hnd, Hf.
  change (list_fmap _ _ ?g ?l) with (g <$> l) in Hnd, Hf. fold (handles rnd (S i) (length l)) in Hnd, Hf.
  apply NoDup_cons in Hnd as [Hni Hnd].
  assert (f !! receiptHandle d = None) as Hd by (apply Hf; left).
  destruct (IH (S i) (<[receiptHandle d := d]> f) (out ++ [message_of now d]) Hnd) as (E1 & E2 & E3 & E4).
  { intros h Hh. rewrite lookup_insert_ne; [apply Hf; by right|]. intros <-. done. }
  rewrite delivered_cons. fold d. split_and!.
  - rewrite E1, <-(assoc_L (++)). done.
  - rewrite E2, values_insert by done. simpl. by rewrite Permutation_middle.
  - intros x [->|Hx]%elem_of_cons; [|by apply E3]. rewrite E4 by done. by rewrite lookup_insert_eq.
  - intros h [Hne Hh]%not_elem_of_cons. rewrite E4 by done. by rewrite lookup_insert_ne.
Qed.

(** *** A receive *)

Definition available (now : Time) (s : queueState) : list messageState :=
  filter (visible now) (pending s ++ (release <$> filter (expired now) (values (inflight s)))).

Lemma batch_size_range n : 1 <= batch_size n <= 10.
Proof. unfold batch_size. destruct (n <=? 0) eqn:?, (10 <? n) eqn:?; simpl; lia. Qed.

Definition lock_time (opt : ReceiveMessagesOptions) (s : queueState) : Z :=
  or_zero (rm_VisibilityTimeout opt) (VisibilityTimeoutSeconds (q_attributes s)).

(** The state and the result of a receive, in terms of the sorted pending list
    after reclaiming. *)
Lemma tryReceive_spec now order rnd q opt b s :
  queues b !! q = Some s → fresh_handles rnd (inflight s) →
  let r := reclaimInflight now order s in
  let l := sort_by enqueued_less (pending r) in
  let k := Z.to_nat (batch_size (rm_MaxMessages opt)) in
  let taken := take k (filter (visible now) l) in
  let out := delivered now rnd (lock_time opt s) 0 taken in
  ∃ rest f, tryReceive now order rnd q opt b =
      (set_queue b q (set_messages r rest f), Ok (message_of now <$> out)) ∧
    taken ++ rest ≡ₚ pending r ∧
    filter (visible now) rest = drop k (filter (visible now) l) ∧
    values f ≡ₚ out ++ values (inflight r) ∧
    (∀ m, m ∈ out → f !! receiptHandle m = Some m) ∧
    (∀ h, h ∉ handles rnd 0 (length taken) → f !! h = inflight r !! h).
Proof.
  intros Hq Hfr. cbv zeta. unfold tryReceive. rewrite Hq.
  set (r := reclaimInflight now order s). set (n := batch_size (rm_MaxMessages opt)).
  pose proof (batch_size_range (rm_MaxMessages opt)) as Hn. fold n in Hn.
  unfold takeVisible. assert ((n <=? 0) = false) as -> by lia.
  destruct (pick_loop now n (sort_by enqueued_less (pending r)) [] []) as [picked rest] eqn:Epl.
  apply pick_loop_spec in Epl as (Hpk & Hrs & Hperm).
  cbn [length] in Hpk, Hrs. rewrite Nat.sub_0_r in Hpk, Hrs. rewrite app_nil_l in Hpk. rewrite <-Hpk.
  destruct (reclaim_fields now order s) as (_ & Ha & _ & _).
  assert (lock_time opt s = or_zero (rm_VisibilityTimeout opt) (VisibilityTimeoutSeconds (q_attributes r)))
    as Hv by (unfold lock_time, r; by rewrite Ha).
  assert (length picked <= 10)%nat as Hlen by (rewrite Hpk, length_take; lia).
  destruct (fresh_handles_sub rnd (inflight s) (inflight r) (length picked) Hfr Hlen) as [Hnd Hf].
  { intros h [m Hm]. eexists. by eapply reclaim_lookup. }
  pose proof (deliver_loop_spec now rnd (lock_time opt s) 0 picked (inflight r) [] Hnd Hf) as H.
  rewrite sort_by_perm in Hperm. rewrite !app_nil_l in Hperm.
  destruct (deliver_loop _ _ _ _ _ _ _) as [f out] eqn:Edl. cbn [fst snd] in H.
  destruct H as (-> & H2 & H3 & H4). destruct (length picked =? 0)%nat eqn:E0.
  - apply Nat.eqb_eq, length_zero_iff_nil in E0. clear Hpk. subst picked.
    exists rest, (inflight r). split_and!; try done. intros m Hm. by apply elem_of_nil in Hm.
  - exists rest, f. cbn [q_attributes set_messages pending inflight]. rewrite <-Hv, Edl. done.
Qed.

(** ** Operations as steps *)

Inductive op :=
  | OpCreateQueue (now : Time) (name : string) (opt : CreateQueueOptions)
  | OpDeleteQueue (name : string)
  | OpHeadQueue (now : Time) (order : list string) (name : string)
  | OpSetQueueAttributes (name : string) (attrs : QueueAttributes)
  | OpListQueueTags (name : string)
  | OpTagQueue (name : string) (tags : strmap)
  | OpUntagQueue (name : string) (keys : list string)
  | OpListQueues (opt : ListQueuesOptions)
  | OpSendMessage (now : Time) (rnd : bytes) (q : string) (opt : SendMessageOptions)
  | OpReceive (now : Time) (order : list string) (rnd : nat → bytes) (q : string)
      (opt : ReceiveMessagesOptions)
  | OpDeleteMessage (q handle : string)
  | OpChangeVisibility (now : Time) (q handle : string) (visibilityTimeout : Z).

Definition silent {A} (r : Backend * result A) : Backend * result (list Message) :=
  (r.1, let? _ := r.2 in Ok []).

(** One operation; the result is the messages it hands out. *)
Definition run (o : op) (b : Backend) : Backend * result (list Message) :=
  match o with
  | OpCreateQueue now n opt => silent (CreateQueue now n opt b)
  | OpDeleteQueue n => silent (DeleteQueue n b)
  | OpHeadQueue now order n => silent (HeadQueue now order n b)
  | OpSetQueueAttributes n a => silent (SetQueueAttributes n a b)
  | OpListQueueTags n => silent (ListQueueTags n b)
  | OpTagQueue n t => silent (TagQueue n t b)
  | OpUntagQueue n ks => silent (UntagQueue n ks b)
  | OpListQueues opt => silent (ListQueues opt b)
  | OpSendMessage now rnd q opt => silent (SendMessage now rnd q opt b)
  | OpReceive now order rnd q opt => tryReceive now order rnd q opt b
  | OpDeleteMessage q h => silent (DeleteMessage q h b)
  | OpChangeVisibility now q h v => silent (ChangeVisibility now q h v b)
  end.

(** The handles a receive draws are new on the queue. *)
Definition fresh (o : op) (b : Backend) : Prop :=
  match o with
  | OpReceive _ _ rnd q _ => ∀ s, queues b !! q = Some s → fresh_handles rnd (inflight s)
  | _ => True
  end.

(** What an operation puts into queue [q], and what it takes out for good. *)
Definition added (o : op) (b : Backend) (q : string) : list (string * slice * strmap * Time) :=
  match o with
  | OpSendMessage now rnd q' opt =>
      if is_ok (SendMessage now rnd q' opt b).2 && String.eqb q' q
      then [(newID rnd, sm_Body opt, sm_Attributes opt, now)] else []
  | _ => []
  end.
Definition removed (o : op) (b : Backend) (q : string) : list (string * slice * strmap * Time) :=
  match o with
  | OpDeleteQueue q' => if String.eqb q' q then contents b q else []
  | OpDeleteMessage q' h =>
      if String.eqb q' q
      then option_list (payload_of <$> (queues b !! q ≫= λ s, inflight s !! h)) else []
  | _ => []
  end.

Lemma copyBytes_id s : copyBytes s = s.
Proof. destruct s as [l|]; [|done]. simpl. by rewrite map_id. Qed.
Lemma copyStrMap_id m : copyStrMap m = m.
Proof. apply copy_map_id. Qed.

(** Replacing a queue's state by one with the same messages. *)
Lemma contents_same b q s s' q' :
  queues b !! q = Some s → payload_of <$> msgs s' ≡ₚ payload_of <$> msgs s →
  contents (set_queue b q s') q' ≡ₚ contents b q'.
Proof.
  intros Hq E. rewrite contents_set. case_decide as Hd; [|done]. subst q'.
  unfold contents. by rewrite Hq.
Qed.

Lemma SendMessage_contents now rnd q opt b q' :
  added (OpSendMessage now rnd q opt) b q' ++ contents b q' ≡ₚ
    contents (SendMessage now rnd q opt b).1 q'.
Proof.
  unfold added, SendMessage. destruct (queues b !! q) as [s|] eqn:E; [|done].
  destruct ((0 <? _) && _); [done|]. cbn [fst snd is_ok]. rewrite contents_set.
  destruct (String.eqb_spec q q') as [->|Hne]; [rewrite decide_True by done|by rewrite decide_False].
  unfold contents. rewrite E. unfold msgs. simpl. rewrite copyBytes_id, copyStrMap_id, !fmap_app.
  simpl. rewrite <-(assoc_L (++)). solve_Permutation.
Qed.

Lemma tryReceive_contents now order rnd q opt b q' :
  fresh (OpReceive now order rnd q opt) b →
  contents (tryReceive now order rnd q opt b).1 q' ≡ₚ contents b q'.
Proof.
  intros Hf. destruct (queues b !! q) as [s|] eqn:E.
  - destruct (tryReceive_spec now order rnd q opt b s E (Hf s E)) as (rest & f & -> & Hp & _ & Hv & _).
    apply contents_same with (s := s); [done|]. rewrite <-(reclaim_contents now order s).
    unfold msgs. cbn [pending inflight set_messages]. rewrite Hv.
    generalize dependent (take (Z.to_nat (batch_size (rm_MaxMessages opt)))
      (filter (visible now) (sort_by enqueued_less (pending (reclaimInflight now order s))))).
    intros taken Hp _. rewrite <-Hp, !fmap_app, payload_delivered.
    solve_Permutation.
  - unfold tryReceive. by rewrite E.
Qed.

Lemma DeleteMessage_contents q h b q' :
  contents b q' ≡ₚ removed (OpDeleteMessage q h) b q' ++ contents (DeleteMessage q h b).1 q'.
Proof.
  unfold removed, DeleteMessage. destruct (String.eqb_spec q q') as [->|Hne].
  - destruct (queues b !! q') as [s|] eqn:E; [|done]. simpl.
    destruct (inflight s !! h) as [m|] eqn:Em; [|done]. cbn [fst]. rewrite contents_set, decide_True by done.
    unfold contents, msgs. rewrite E. simpl. rewrite (values_delete _ _ _ Em), !fmap_app. simpl.
    by rewrite <-Permutation_middle.
  - destruct (queues b !! q); [|done]. destruct (_ !! h); [|done]. cbn [fst].
    by rewrite contents_set, decide_False.
Qed.

Lemma ChangeVisibility_contents now q h v b q' :
  contents (ChangeVisibility now q h v b).1 q' ≡ₚ contents b q'.
Proof.
  unfold ChangeVisibility. destruct (queues b !! q) as [s|] eqn:E; [|done].
  destruct (inflight s !! h) as [m|] eqn:Em; [|done].
  destruct (v <=? 0); cbn [fst]; (apply contents_same with (s := s); [done|]); unfold msgs; simpl;
    rewrite (values_delete _ _ _ Em).
  - rewrite !fmap_app. simpl. by rewrite <-(assoc_L (++)).
  - rewrite <-insert_delete_eq, values_insert by apply lookup_delete_eq. by rewrite !fmap_app.
Qed.

Lemma DeleteQueue_contents q b q' :
  contents b q' ≡ₚ removed (OpDeleteQueue q) b q' ++ contents (DeleteQueue q b).1 q'.
Proof.
  unfold removed, DeleteQueue. destruct (queues b !! q) as [s|] eqn:E; cbn [fst].
  - destruct (String.eqb_spec q q') as [->|Hne]; unfold contents; simpl.
    + by rewrite lookup_delete_eq, app_nil_r.
    + by rewrite lookup_delete_ne.
  - destruct (String.eqb_spec q q') as [->|Hne]; [|done]. unfold contents. by rewrite E.
Qed.

Lemma CreateQueue_contents now n opt b q : contents (CreateQueue now n opt b).1 q ≡ₚ contents b q.
Proof.
  unfold CreateQueue. destruct (String.eqb n ""); [done|].
  destruct (queues b !! n) eqn:E; [done|]. cbn [fst]. rewrite contents_set.
  case_decide as Hd; [subst n|done]. unfold contents. by rewrite E.
Qed.

(** The other operations rewrite a queue's state, if it is there, without
    touching its messages. *)
Lemma update_contents {A} b n (g : queueState → queueState) (r : queueState → result A) e q :
  (∀ s, payload_of <$> msgs (g s) ≡ₚ payload_of <$> msgs s) →
  contents (match queues b !! n with
            | None => (b, Err e) | Some s => (set_queue b n (g s), r s) end).1 q ≡ₚ contents b q.
Proof. intros Hg. destruct (queues b !! n) eqn:E; [|done]. by apply (contents_same _ _ _ _ _ E). Qed.

Lemma HeadQueue_contents now order n b q : contents (HeadQueue now order n b).1 q ≡ₚ contents b q.
Proof. apply update_contents, reclaim_contents. Qed.
Lemma SetQueueAttributes_contents n a b q : contents (SetQueueAttributes n a b).1 q ≡ₚ contents b q.
Proof. by apply update_contents. Qed.
Lemma TagQueue_contents n t b q : contents (TagQueue n t b).1 q ≡ₚ contents b q.
Proof. by apply update_contents. Qed.
Lemma UntagQueue_contents n ks b q : contents (UntagQueue n ks b).1 q ≡ₚ contents b q.
Proof. by apply update_contents. Qed.
Lemma ListQueueTags_state n b : (ListQueueTags n b).1 = b.
Proof. unfold ListQueueTags. by destruct (queues b !! n). Qed.

Lemma double_entry o b q :
  fresh o b → added o b q ++ contents b q ≡ₚ removed o b q ++ contents (run o b).1 q.
Proof.
  intros Hf. destruct o; cbn [run silent fst].
  - symmetry. apply CreateQueue_contents.
  - apply DeleteQueue_contents.
  - symmetry. apply HeadQueue_contents.
  - symmetry. apply SetQueueAttributes_contents.
  - by rewrite ListQueueTags_state.
  - symmetry. apply TagQueue_contents.
  - symmetry. apply UntagQueue_contents.
  - done.
  - apply SendMessage_contents.
  - symmetry. by apply tryReceive_contents.
  - apply DeleteMessage_contents.
  - symmetry. apply ChangeVisibility_contents.
Qed.

(** The queues are a ledger. *)
#[export] Program Instance queue_ledger : Ledger Backend op (string * slice * strmap * Time) := {|
  lg_run o b := (run o b).1; lg_ok := fresh; lg_inv _ := True;
  lg_contents := contents; lg_added := added; lg_removed := removed |}.
Next Obligation. done. Qed.
Next Obligation. intros. by apply double_entry. Qed.

(** ** Leases *)

Definition ids (b : Backend) (q : string) : list string := (λ x, x.1.1.1) <$> contents b q.

(** A message id that [SendMessage] draws is new on the queue. *)
Definition fresh_id (o : op) (b : Backend) : Prop :=
  match o with OpSendMessage _ rnd q _ => newID rnd ∉ ids b q | _ => True end.

(** The operation does not end the lease of [m] under handle [h]: it is not its
    deletion or visibility change, and the clock is before [visibleAt m]. *)
Definition quiet (q h : string) (m : messageState) (o : op) : Prop :=
  match o with
  | OpHeadQueue now _ q' | OpReceive now _ _ q' _ => q' = q → now < visibleAt m
  | OpDeleteQueue q' => q' ≠ q
  | OpDeleteMessage q' h' | OpChangeVisibility _ q' h' _ => ¬ (q' = q ∧ h' = h)
  | _ => True
  end.

(** The messages an operation hands out of queue [q]. *)
Definition handed (o : op) (b : Backend) (q : string) : list Message :=
  match o with
  | OpReceive _ _ _ q' _ =>
      if String.eqb q' q then match (run o b).2 with Ok l => l | _ => [] end else []
  | _ => []
  end.

Definition leased (b : Backend) (q h : string) (m : messageState) : Prop :=
  ∃ s, queues b !! q = Some s ∧ inflight s !! h = Some m.

Lemma leased_set b q s q' h m :
  (q = q' → inflight s !! h = Some m) → leased b q' h m → leased (set_queue b q s) q' h m.
Proof.
  intros Hs (s' & Hq & Hm). destruct (decide (q = q')) as [->|Hne].
  - exists s. simpl. rewrite lookup_insert_eq. auto.
  - exists s'. simpl. by rewrite lookup_insert_ne.
Qed.

Lemma leased_update {A} b n (g : queueState → queueState) (r : queueState → result A) e q h m :
  (∀ s, n = q → inflight s !! h = Some m → inflight (g s) !! h = Some m) → leased b q h m →
  leased (match queues b !! n with
          | None => (b, Err e) | Some s => (set_queue b n (g s), r s) end).1 q h m.
Proof.
  intros Hg Hl. destruct (queues b !! n) as [s|] eqn:E; [|done]. apply leased_set; [|done].
  intros ->. destruct Hl as (s' & Hq & Hm). simplify_eq. by apply Hg.
Qed.

Lemma tryReceive_leased now order rnd n opt b q h m :
  (n = q → now < visibleAt m) → fresh (OpReceive now order rnd n opt) b →
  leased b q h m → leased (tryReceive now order rnd n opt b).1 q h m.
Proof.
  intros Ht Hf Hl. destruct (queues b !! n) as [s|] eqn:E; [|unfold tryReceive; by rewrite E].
  destruct (tryReceive_spec now order rnd n opt b s E (Hf s E)) as (rest & f & -> & _ & _ & _ & _ & Hk).
  apply leased_set; [|done]. intros ->. destruct Hl as (s' & Hq & Hm). assert (s' = s) as -> by congruence. simpl.
  rewrite Hk.
  - apply reclaim_keeps; [done|]. unfold expired. specialize (Ht eq_refl). lia.
  - destruct (Hf s E) as [_ Hnew]. intros Hin. rewrite Hnew in Hm; [done|].
    unfold handles in *. rewrite list_elem_of_fmap in *. destruct Hin as (j & -> & Hj).
    exists j. split; [done|]. rewrite elem_of_seq in *. rewrite length_take in Hj.
    pose proof (batch_size_range (rm_MaxMessages opt)). lia.
Qed.

Lemma run_leased o b q h m : quiet q h m o → fresh o b → leased b q h m → leased (run o b).1 q h m.
Proof.
  intros Hq Hf Hl. destruct o; cbn [run silent fst quiet] in *.
  - unfold CreateQueue. destruct (String.eqb name ""); [done|].
    destruct (queues b !! name) eqn:E; [done|]. apply leased_set; [|done]. intros ->.
    destruct Hl as (? & ? & _). congruence.
  - unfold DeleteQueue. destruct (queues b !! name) eqn:E; [|done]. destruct Hl as (s & Hs & Hm).
    exists s. simpl. by rewrite lookup_delete_ne.
  - apply leased_update; [|done]. intros s -> Hm. apply reclaim_keeps; [done|].
    unfold expired. specialize (Hq eq_refl). lia.
  - by apply leased_update.
  - by rewrite ListQueueTags_state.
  - by apply leased_update.
  - by apply leased_update.
  - done.
  - unfold SendMessage. destruct (queues b !! q0) as [s|] eqn:E; [|done]. destruct (_ && _); [done|].
    apply leased_set; [|done]. intros ->. destruct Hl as (? & ? & ?). by simplify_eq.
  - by apply tryReceive_leased.
  - unfold DeleteMessage. destruct (queues b !! q0) as [s|] eqn:E; [|done].
    destruct (inflight s !! handle) eqn:Eh; [|done]. apply leased_set; [|done]. intros ->.
    destruct Hl as (? & ? & ?). simplify_eq. simpl. rewrite lookup_delete_ne; naive_solver.
  - unfold ChangeVisibility. destruct (queues b !! q0) as [s|] eqn:E; [|done].
    destruct (inflight s !! handle) as [m'|] eqn:Eh; [|done].
    destruct (visibilityTimeout <=? 0); (apply leased_set; [|done]); intros ->;
      destruct Hl as (? & ? & ?); simplify_eq; simpl;
      [rewrite lookup_delete_ne|rewrite lookup_insert_ne]; naive_solver.
Qed.

Lemma run_ids o b q : NoDup (ids b q) → fresh o b → fresh_id o b → NoDup (ids (run o b).1 q).
Proof.
  intros Hnd Hf Hi. pose proof (double_entry o b q Hf) as H.
  assert (NoDup ((λ x, x.1.1.1) <$> (added o b q ++ contents b q))) as H2.
  { rewrite fmap_app. destruct o; try exact Hnd. cbn [added fresh_id] in *.
    destruct (_ && _) eqn:E; [|exact Hnd]. apply NoDup_cons. split; [|exact Hnd]. simpl.
    rewrite andb_true_iff, String.eqb_eq in E. by destruct E as [_ <-]. }
  rewrite H, fmap_app in H2. apply NoDup_app in H2 as (_ & _ & H2). exact H2.
Qed.

Lemma handed_not_leased o b q h m x :
  quiet q h m o → fresh o b → NoDup (ids b q) → leased b q h m →
  x ∈ handed o b q → MessageID x ≠ id m.
Proof.
  intros Hq Hf Hnd (s & Hs & Hm) Hx. destruct o; cbn [handed] in Hx; try by apply elem_of_nil in Hx.
  destruct (String.eqb_spec q0 q) as [->|]; [|by apply elem_of_nil in Hx].
  cbn [run fresh quiet] in *. specialize (Hq eq_refl).
  destruct (tryReceive_spec now order rnd q opt b s Hs (Hf s Hs)) as (rest & f & E & Hp & _).
  rewrite E in Hx. cbn [snd] in Hx. clear E.
  clear -Hnd Hp Hx Hs Hm Hq. unfold ids, contents in Hnd. rewrite Hs in Hnd. simpl in Hnd.
  rewrite <-(reclaim_contents now order s) in Hnd. unfold msgs in Hnd.
  generalize dependent (take (Z.to_nat (batch_size (rm_MaxMessages opt)))
    (filter (visible now) (sort_by enqueued_less (pending (reclaimInflight now order s))))).
  intros taken Hx Hp.
  rewrite <-Hp, <-list_fmap_compose, !fmap_app, <-(assoc_L (++)) in Hnd.
  apply NoDup_app in Hnd as (_ & Hdis & _).
  apply list_elem_of_fmap in Hx as (d & -> & Hd). intros Heq.
  apply (Hdis (id m)).
  - apply list_elem_of_fmap. unfold delivered in Hd. apply elem_of_lookup_imap in Hd as (j & y & -> & Hy).
    exists y. split; [exact (eq_sym Heq)|]. by eapply list_elem_of_lookup_2.
  - apply elem_of_app. right. apply list_elem_of_fmap. exists m. split; [done|].
    apply elem_of_values. exists h. apply reclaim_keeps; [done|]. unfold expired. lia.
Qed.

(** A sequence of operations, by any callers, that leaves the lease alone. *)
Fixpoint quiet_run (q h : string) (m : messageState) (os : list op) (b : Backend) : Prop :=
  match os with
  | [] => True
  | o :: os => quiet q h m o ∧ fresh o b ∧ fresh_id o b ∧ quiet_run q h m os (run o b).1
  end.
Fixpoint run_all (os : list op) (b : Backend) : Backend :=
  match os with [] => b | o :: os => run_all os (run o b).1 end.
Fixpoint handed_all (q : string) (os : list op) (b : Backend) : list Message :=
  match os with [] => [] | o :: os => handed o b q ++ handed_all q os (run o b).1 end.

(** ** The long poll *)

Lemma tryReceive_no_panic now order rnd q opt b : (tryReceive now order rnd q opt b).2 ≠ Panic.
Proof.
  unfold tryReceive. destruct (queues b !! q); [|done].
  destruct (takeVisible _ _ _) as [st picked]. destruct (_ =? _)%nat; [done|].
  by destruct (deliver_loop _ _ _ _ _ _ _).
Qed.

(** ** Invariant *)

Record wf_queue (q : string) (s : queueState) : Prop := {
  wf_name : q_name s = q;
  wf_attrs : VisibilityTimeoutSeconds (q_attributes s) ≠ 0 ∧
             MessageRetentionSeconds (q_attributes s) ≠ 0 ∧
             MaxMessageSizeBytes (q_attributes s) ≠ 0;
  wf_pending : ∀ m, m ∈ pending s → receiptHandle m = "" ∧ visibleAt m = zeroTime;
  wf_inflight : ∀ h m, inflight s !! h = Some m → receiptHandle m = h }.

Definition wf (b : Backend) : Prop :=
  queues b !! "" = None ∧ ∀ q s, queues b !! q = Some s → wf_queue q s.

Lemma wf_set b q s : wf b → q ≠ "" → wf_queue q s → wf (set_queue b q s).
Proof.
  intros [He Hw] Hq Hs. split.
  - simpl. by rewrite lookup_insert_ne.
  - intros q' s'. simpl. rewrite lookup_insert_Some. intros [[<- <-]|[_ H]]; [done|by apply Hw].
Qed.

Lemma wf_queue_ne b q s : wf b → queues b !! q = Some s → q ≠ "" ∧ wf_queue q s.
Proof. intros [He Hw] Hs. split; [intros ->; congruence|by apply Hw]. Qed.

Lemma wf_update {A} b n (g : queueState → queueState) (r : queueState → result A) e :
  (∀ s, wf_queue n s → wf_queue n (g s)) → wf b →
  wf (match queues b !! n with
      | None => (b, Err e) | Some s => (set_queue b n (g s), r s) end).1.
Proof.
  intros Hg Hw. destruct (queues b !! n) as [s|] eqn:E; [|done].
  destruct (wf_queue_ne _ _ _ Hw E). apply wf_set; auto.
Qed.

Lemma wf_pending_elem now order s m :
  m ∈ pending (reclaimInflight now order s) →
  m ∈ pending s ∨ (receiptHandle m = "" ∧ visibleAt m = zeroTime).
Proof.
  revert s. induction order as [|h order IH]; intros s; simpl; [by left|].
  destruct (inflight s !! h) as [m'|]; [|apply IH].
  intros [H|H]%IH; [|by right]. destruct (negb _); [|by left]. simpl in H.
  apply elem_of_app in H as [H|H]; [by left|right]. by apply list_elem_of_singleton in H as ->.
Qed.

Lemma wf_reclaim q now order s : wf_queue q s → wf_queue q (reclaimInflight now order s).
Proof.
  intros [Hn Ha Hp Hi]. destruct (reclaim_fields now order s) as (En & Ea & _ & _).
  constructor; [by rewrite En|by rewrite Ea| |].
  - intros m [Hm|Hm]%wf_pending_elem; [by apply Hp|done].
  - intros h m Hm. apply Hi. by eapply reclaim_lookup.
Qed.

Lemma wf_tryReceive now order rnd q opt b :
  fresh (OpReceive now order rnd q opt) b → wf b → wf (tryReceive now order rnd q opt b).1.
Proof.
  intros Hf Hw. destruct (queues b !! q) as [s|] eqn:E; [|unfold tryReceive; by rewrite E].
  destruct (wf_queue_ne _ _ _ Hw E) as [Hq Hs].
  destruct (tryReceive_spec now order rnd q opt b s E (Hf s E)) as (rest & f & -> & Hp & _ & Hv & Hnew & Hold).
  apply wf_set; [done..|]. pose proof (wf_reclaim q now order s Hs) as [Hn Ha Hpd Hi].
  constructor; [done|done| |].
  - simpl. intros m Hm. apply Hpd. rewrite <-Hp. set_solver.
  - simpl. intros h m Hm. set (tk := take _ _) in *.
    destruct (decide (h ∈ handles rnd 0 (length tk))) as [Hin|Hni].
    + rewrite <-(handles_delivered now rnd (lock_time opt s)) in Hin.
      apply list_elem_of_fmap in Hin as (d & -> & Hd). apply Hnew in Hd. congruence.
    + apply Hi. by rewrite <-Hold.
Qed.

Lemma run_wf o b : fresh o b → wf b → wf (run o b).1.
Proof.
  intros Hf Hw. destruct o; cbn [run silent fst].
  - unfold CreateQueue. destruct (String.eqb_spec name ""); [done|]. destruct (queues b !! name); [done|].
    apply wf_set; [done..|]. constructor; simpl.
    + done.
    + unfold or_zero. repeat case_match; lia.
    + intros m H. by apply elem_of_nil in H.
    + intros h m. by rewrite lookup_empty.
  - unfold DeleteQueue. destruct (queues b !! name); [|done]. destruct Hw as [He Hw]. split; simpl.
    + by rewrite lookup_delete_None; right.
    + intros q' s' [_ H]%lookup_delete_Some. by apply Hw.
  - apply wf_update; [|done]. intros s. apply wf_reclaim.
  - apply wf_update; [|done]. intros s [Hn Ha Hp Hi]. constructor; simpl; [done| |done..].
    unfold if_pos. repeat case_match; lia.
  - by rewrite ListQueueTags_state.
  - apply wf_update; [|done]. by intros s [].
  - apply wf_update; [|done]. by intros s [].
  - done.
  - unfold SendMessage. destruct (queues b !! q) as [s|] eqn:E; [|done]. destruct (_ && _); [done|].
    destruct (wf_queue_ne _ _ _ Hw E) as [Hq [Hn Ha Hp Hi]]. apply wf_set; [done..|].
    constructor; simpl; [done..| |done]. intros m [Hm|Hm]%elem_of_app; [by apply Hp|].
    by apply list_elem_of_singleton in Hm as ->.
  - by apply wf_tryReceive.
  - unfold DeleteMessage. destruct (queues b !! q) as [s|] eqn:E; [|done].
    destruct (inflight s !! handle); [|done].
    destruct (wf_queue_ne _ _ _ Hw E) as [Hq [Hn Ha Hp Hi]]. apply wf_set; [done..|].
    constructor; simpl; [done..|]. intros h m' [_ Hm]%lookup_delete_Some. by apply Hi.
  - unfold ChangeVisibility. destruct (queues b !! q) as [s|] eqn:E; [|done].
    destruct (inflight s !! handle) as [m|] eqn:Em; [|done].
    destruct (wf_queue_ne _ _ _ Hw E) as [Hq [Hn Ha Hp Hi]].
    destruct (visibilityTimeout <=? 0); (apply wf_set; [done..|]); constructor; simpl; try done.
    + intros m' [Hm|Hm]%elem_of_app; [by apply Hp|]. by apply list_elem_of_singleton in Hm as ->.
    + intros h m' [_ Hm]%lookup_delete_Some. by apply Hi.
    + intros h m' [[<- <-]|[_ Hm]]%lookup_insert_Some; [simpl|]; by apply Hi.
Qed.

Definition step (b b' : Backend) : Prop := ∃ o, fresh o b ∧ b' = (run o b).1.
Definition reachable : Backend → Prop := rtc step New.

Lemma queue_wf_New : wf New.
Proof. split; [done|]. intros q s Hs. cbn in Hs. done. Qed.

Lemma queue_reachable_wf b : reachable b → wf b.
Proof.
  intros Hr. refine (rtc_ind_r (λ b, wf b) New queue_wf_New _ b Hr).
  intros ? ? _ (o & Hf & ->) IH. by apply run_wf.
Qed.

Lemma queue_run_err_same o b e : (run o b).2 = Err e → (run o b).1 = b.
Proof.
  destruct o; cbn [run silent fst snd];
    unfold CreateQueue, DeleteQueue, HeadQueue, SetQueueAttributes, ListQueueTags, TagQueue,
      UntagQueue, ListQueues, SendMessage, DeleteMessage, ChangeVisibility, tryReceive;
    repeat (case_match; simplify_eq/=; try done).
Qed.

Lemma queue_run_no_panic o b : (run o b).2 ≠ Panic.
Proof.
  destruct o; try exact (tryReceive_no_panic _ _ _ _ _ _); cbn [run silent snd];
    unfold CreateQueue, DeleteQueue, HeadQueue, SetQueueAttributes, ListQueueTags, TagQueue,
      UntagQueue, ListQueues, SendMessage, DeleteMessage, ChangeVisibility;
    repeat (case_match; try done).
Qed.

(** ** Properties *)

(** C23: messages are conserved along every history.  For any sequence of
    operations by any callers whose drawn handles are new, in every queue, what
    was there at the start plus what the operations added (successful
    SendMessage calls) is, as a multiset, what is there at the end plus what they
    removed (messages acknowledged by DeleteMessage, deleted queues): receiving,
    reclaiming and changing visibility lose and duplicate nothing, so a message
    sent and never removed is still in its queue, however late the clocks of the
    operations are: MessageRetentionSeconds is stored and shown, but no message
    ever expires. *)
Theorem messages_conserved (os : list op) (b : Backend) (q : string) :
  ops_ok os b →
  conserves os b q ∧
  ∀ m, m ∈ all_added os b q ++ contents b q → m ∉ all_removed os b q → m ∈ contents (run_ops os b) q.
Proof. intros Hos. split; [by apply history_balances|]. intros m. exact (history_keeps os b q m Hos I). Qed.

(** A receive on an existing queue succeeds and hands out exactly
    min(batch, available) messages, where available are the visible pending
    messages and the in-flight ones whose visibility has expired; they are the
    ones enqueued first, in order, and each is then in flight under the handle
    returned with it, leased until now plus the visibility timeout. *)
Theorem receive_takes_oldest_available (now : Time) (order : list string) (rnd : nat → bytes)
    (q : string) (opt : ReceiveMessagesOptions) (b : Backend) (s : queueState) :
  queues b !! q = Some s → order ≡ₚ (map_to_list (inflight s)).*1 →
  fresh_handles rnd (inflight s) →
  let n := Z.to_nat (batch_size (rm_MaxMessages opt)) in
  ∃ b' s' taken left,
    tryReceive now order rnd q opt b =
      (b', Ok (message_of now <$> delivered now rnd (lock_time opt s) 0 taken)) ∧
    available now s ≡ₚ taken ++ left ∧
    length taken = Nat.min n (length (available now s)) ∧
    StronglySorted (λ x y, enqueuedAt x <= enqueuedAt y) taken ∧
    (∀ x y, x ∈ taken → y ∈ left → enqueuedAt x <= enqueuedAt y) ∧
    queues b' !! q = Some s' ∧
    ∀ m, m ∈ delivered now rnd (lock_time opt s) 0 taken →
      inflight s' !! receiptHandle m = Some m.
Proof.
  intros Hq Ho Hf n.
  destruct (tryReceive_spec now order rnd q opt b s Hq Hf) as (rest & f & E & _ & _ & _ & Hin & _).
  set (r := reclaimInflight now order s) in *. fold n in E, Hin.
  assert (available now s ≡ₚ filter (visible now) (sort_by enqueued_less (pending r))) as Ha.
  { unfold available. rewrite sort_by_perm. unfold r. by rewrite (reclaim_pending now order s Ho). }
  pose proof (StronglySorted_filter _ (visible now) _ (enqueued_sorted (pending r))) as Hs.
  set (l := filter _ _) in *. rewrite <-(take_drop n l) in Hs.
  apply StronglySorted_app_inv in Hs as (Hs1 & _ & Hs3).
  eexists _, (set_messages r rest f), (take n l), (drop n l). split; [exact E|].
  split; [by rewrite take_drop|]. split; [by rewrite length_take, Ha|].
  split; [done|]. split; [done|]. split; [by simpl; rewrite lookup_insert_eq|]. exact Hin.
Qed.

(** C39: a leased message is not handed out twice.  Whatever sequence of
    operations by any callers follows, while the clock is before the lease's
    visibleAt and nobody deletes the message, changes its visibility or deletes
    the queue, the message stays in flight under its handle and no receive on
    the queue returns it. *)
Theorem lease_is_exclusive (os : list op) (b : Backend) (q h : string) (m : messageState) :
  leased b q h m → NoDup (ids b q) → quiet_run q h m os b →
  leased (run_all os b) q h m ∧ ∀ x, x ∈ handed_all q os b → MessageID x ≠ id m.
Proof.
  revert b. induction os as [|o os IH]; intros b Hl Hnd Hqr; cbn [run_all handed_all].
  { split; [done|]. intros x Hx. by apply elem_of_nil in Hx. }
  destruct Hqr as (Hq & Hf & Hi & Hqr).
  destruct (IH (run o b).1 (run_leased _ _ _ _ _ Hq Hf Hl) (run_ids _ _ _ Hnd Hf Hi) Hqr) as [IH1 IH2].
  split; [done|]. intros x [Hx|Hx]%elem_of_app; [|by apply IH2].
  by eapply (handed_not_leased o b q h m).
Qed.

(** The long poll of ReceiveMessages returns.  When successive attempts are
    at least 100 ms apart, ten attempts per second of WaitTime and one more are
    enough, whatever other callers do to the backend between them; it does not
    panic, and an empty result means that WaitTime is 0 or the deadline passed. *)
Theorem ReceiveMessages_returns (fuel : nat) (start : Time) (env : nat → tick Backend error) (q : string)
    (opt : ReceiveMessagesOptions) (b : Backend) :
  0 <= rm_WaitTime opt < 2 ^ 33 →
  (∀ i, start + Z.of_nat i * (100 * Millisecond) <= tk_check (env i)) →
  (Z.to_nat (10 * rm_WaitTime opt) < fuel)%nat →
  ∃ b' r, ReceiveMessages fuel start env q opt b = Some (b', r) ∧ r ≠ Panic ∧
    (r = Ok [] → rm_WaitTime opt = 0 ∨
       ∃ i, start + rm_WaitTime opt * Second <= tk_check (env i)).
Proof.
  intros Hw Hclk Hfuel. unfold ReceiveMessages.
  rewrite seconds_small by (unfold in_s, Second; lia).
  destruct (poll_returns (λ t b, tryReceive (tk_now t) (tk_order t) (tk_rnd t) q opt b) (rm_WaitTime opt =? 0)
    (start + rm_WaitTime opt * Second) fuel env b start) as (b' & r & E & Hp & He);
    [intros; apply tryReceive_no_panic|done|lia|unfold Second, Millisecond; lia|].
  exists b', r. split_and!; [done..|]. intros Hr. destruct (He Hr) as [Hz|?]; [left; lia|by right].
Qed.

(** In every state reachable from New (with new handles drawn at each
    receive) no queue has the empty name, each queue has its defaults filled
    in, a pending message carries no receipt handle and no deadline, and an
    in-flight message is indexed by its own handle; no operation panics, and
    one that returns an error changes nothing. *)
Theorem queue_states_well_formed (b : Backend) :
  reachable b →
  wf b ∧ ∀ o, (run o b).2 ≠ Panic ∧ ∀ e, (run o b).2 = Err e → (run o b).1 = b.
Proof.
  intros Hr. split; [by apply queue_reachable_wf|]. intros o.
  split; [apply queue_run_no_panic|apply queue_run_err_same].
Qed.

(** ** Witnesses *)

Definition demo_attrs : QueueAttributes := mkQueueAttributes 30 345600 262144 0 0 1.
Definition demo_msg (n h : string) (at_ until : Z) : messageState :=
  mkMessageState n (Some []) None at_ at_ 0 h until.
Definition demo_queue : queueState :=
  mkQueueState "q" 1 demo_attrs None
    [demo_msg "m3" "" 30 zeroTime; demo_msg "m1" "" 10 zeroTime]
    {["h2" := demo_msg "m2" "h2" 20 1000]}.
Definition demo_backend : Backend := mkBackend {["q" := demo_queue]}.
Definition demo_rnd (i : nat) : bytes := [byte_of (Z.of_nat i)].
Definition demo_receive : ReceiveMessagesOptions := mkReceiveMessagesOptions 1 0 0.
Definition demo_op : op := OpReceive 100 ["h2"] demo_rnd "q" demo_receive.

Lemma demo_handles (f : gmap string messageState) :
  Forall (λ h, f !! h = None) (handles demo_rnd 0 10) → fresh_handles demo_rnd f.
Proof.
  intros H. split; [|by rewrite Forall_forall in H].
  apply (bool_decide_unpack _). vm_compute. exact I.
Qed.

Example receive_demo :
  match (run demo_op demo_backend).2 with
  | Ok l => map (λ x, (MessageID x, DeliveryCount x)) l = [("m1", 1)]
  | _ => False
  end.
Proof. vm_compute. reflexivity. Qed.

Lemma demo_fresh : fresh demo_op demo_backend.
Proof.
  intros s Hs. apply demo_handles. vm_compute in Hs. simplify_eq.
  apply (bool_decide_unpack _). vm_compute. exact I.
Qed.

Definition demo_send : op :=
  OpSendMessage 101 [byte_of 200] "q" (mkSendMessageOptions (Some []) None 0).

Lemma messages_conserved_witness :
  (newID [byte_of 200], Some [], None, 101) ∈ contents (run_ops [demo_op; demo_send] demo_backend) "q".
Proof.
  apply (messages_conserved [demo_op; demo_send] demo_backend "q").
  - split; [apply demo_fresh|]. split; [exact I|exact I].
  - apply elem_of_app. left. left.
  - apply not_elem_of_nil.
Defined.

Lemma receive_takes_oldest_available_witness :
  ∃ b' s' taken left,
    tryReceive 100 ["h2"] demo_rnd "q" demo_receive demo_backend =
      (b', Ok (message_of 100 <$> delivered 100 demo_rnd 30 0 taken)) ∧
    available 100 demo_queue ≡ₚ taken ++ left ∧ length taken = 1%nat ∧ queues b' !! "q" = Some s'.
Proof.
  destruct (receive_takes_oldest_available 100 ["h2"] demo_rnd "q" demo_receive demo_backend demo_queue)
    as (b' & s' & tk & lf & E & Ha & Hl & _ & _ & Hq & _).
  - reflexivity.
  - vm_compute. reflexivity.
  - apply demo_handles, (bool_decide_unpack _). vm_compute. exact I.
  - exists b', s', tk, lf. split_and!; [exact E|exact Ha|exact Hl|exact Hq].
Defined.

Lemma lease_is_exclusive_witness :
  let os := [demo_op; OpHeadQueue 500 ["h2"] "q"] in
  let m := demo_msg "m2" "h2" 20 1000 in
  leased (run_all os demo_backend) "q" "h2" m ∧
  ∀ x, x ∈ handed_all "q" os demo_backend → MessageID x ≠ "m2".
Proof.
  apply (lease_is_exclusive [demo_op; OpHeadQueue 500 ["h2"] "q"] demo_backend "q" "h2"
    (demo_msg "m2" "h2" 20 1000)).
  - exists demo_queue. split; reflexivity.
  - apply (bool_decide_unpack _). vm_compute. exact I.
  - cbn [quiet_run quiet demo_op fresh_id]. repeat (split; [first [exact demo_fresh | exact I | intros _; cbn; lia]|]). exact I.
Defined.

Lemma ReceiveMessages_returns_witness :
  let env i := mkTick (Z.of_nat i * (100 * Millisecond)) [] demo_rnd
                 (Z.of_nat i * (100 * Millisecond)) None (λ b, b) in
  ∃ b' r, ReceiveMessages 21 0 env "none" (mkReceiveMessagesOptions 1 0 2) demo_backend = Some (b', r)
    ∧ r ≠ Panic.
Proof.
  intros env.
  destruct (ReceiveMessages_returns 21 0 env "none" (mkReceiveMessagesOptions 1 0 2) demo_backend)
    as (b' & r & E & Hp & _).
  - simpl. lia.
  - intros i. simpl. lia.
  - simpl. lia.
  - exists b', r. split; assumption.
Defined.

Lemma queue_states_well_formed_witness : wf (run (OpCreateQueue 1 "q" (mkCreateQueueOptions demo_attrs)) New).1.
Proof.
  apply (queue_states_well_formed (run (OpCreateQueue 1 "q" (mkCreateQueueOptions demo_attrs)) New).1).
  apply rtc_once. exists (OpCreateQueue 1 "q" (mkCreateQueueOptions demo_attrs)). split; [exact I|reflexivity].
Defined.
