(* ===== verification/QueueApi.v ===== *)
(** * The queue service as its frontends see it

    The interface [domain.Queues] of [internal/queue/domain].  What a call
    draws from outside (the clock, the random bytes of identifiers, the range
    order over in-flight messages, what happens while a receive waits) is the
    type [Draws] of the implementation, handed to each call.  [None] is a
    receive that is still waiting. *)

From S2P Require Import Prelude LongPoll Queue.

Class Queues_ (St : Type) := {
  Draws : Type;
  q_CreateQueue : Draws → string → CreateQueueOptions → St → St * result Queue;
  q_DeleteQueue : string → St → St * result unit;
  q_HeadQueue : Draws → string → St → St * result Queue;
  q_SetQueueAttributes : string → QueueAttributes → St → St * result unit;
  q_ListQueueTags : string → St → St * result (gmap string string);
  q_TagQueue : string → strmap → St → St * result unit;
  q_UntagQueue : string → list string → St → St * result unit;
  q_ListQueues : ListQueuesOptions → St → St * result ListQueuesResult;
  q_SendMessage : Draws → string → SendMessageOptions → St → St * result SendMessageResult;
  q_ReceiveMessages : Draws → string → ReceiveMessagesOptions → St → option (St * result (list Message));
  q_DeleteMessage : string → string → St → St * result unit;
  q_ChangeVisibility : Draws → string → string → Z → St → St * result unit }.
Arguments Draws St {_}.

(** The in-process backend. *)
Record draws := mkDraws {
  d_now : Time; d_order : list string; d_rnd : nat → bytes; d_fuel : nat; d_env : nat → tick Backend error }.

#[export] Instance inmem_queues : Queues_ Backend := {|
  Draws := draws;
  q_CreateQueue := λ d, CreateQueue (d_now d);
  q_DeleteQueue := DeleteQueue;
  q_HeadQueue := λ d, HeadQueue (d_now d) (d_order d);
  q_SetQueueAttributes := SetQueueAttributes;
  q_ListQueueTags := ListQueueTags;
  q_TagQueue := TagQueue;
  q_UntagQueue := UntagQueue;
  q_ListQueues := ListQueues;
  q_SendMessage := λ d, SendMessage (d_now d) (d_rnd d O);
  q_ReceiveMessages := λ d, ReceiveMessages (d_fuel d) (d_now d) (d_env d);
  q_DeleteMessage := DeleteMessage;
  q_ChangeVisibility := λ d, ChangeVisibility (d_now d) |}.
