(* ===== verification/AwsJson.v ===== *)
(** * The AWS JSON runtime

    Models [internal/awsjson]: the router by [X-Amz-Target], the error envelope,
    and the shape of the generated handlers.  Decoding a request ([json.Decoder]
    with unknown fields refused) is the interface [JsonRequest], by request
    type; a body that is sent is kept as the value that is encoded. *)

From Stdlib Require Import Ascii.
From S2P Require Import Prelude GoStrings GoBytes GoHttp GoJson.

(** What [json.NewDecoder(r.Body).Decode(target)] gives: the error's text or
    the value, starting from the zero value of the type. *)
Class JsonRequest (T : Type) := {
  json_zero : T;
  json_Decode : BodyReader → string + T }.

(** The decoder of a type reads the first value of the body; [Err_text] is the
    text of its error on a body that it refuses. *)
Definition json_request {T} (Err_text : string → string) (d : decoder T) : JsonRequest T := {|
  json_zero := zero d;
  json_Decode body :=
    match body with
    | ReadFails text => inl text
    | Reads b =>
        match Decode d (string_of_bytes b) with
        | Some x => inr x
        | None => inl (Err_text (string_of_bytes b))
        end
    end |}.

Inductive payload (X : Type) :=
  | ErrEnvelope (Type_ Message : string)
  | Json (x : X).
Arguments ErrEnvelope {X} _ _.
Arguments Json {X} _.

Record BackendError := mkBackendError {
  HTTPStatus : Z; be_Type : string; be_Message : string; QueryCompatibleCode : string }.
Definition BackendError_text (e : BackendError) : string := be_Type e +:+ ": " +:+ be_Message e.

(** The errors of a backend: [errors.As] finds a [*BackendError], or does not. *)
Inductive api_error := EBackend (e : BackendError) | EOther (text : string).
Abbreviation api := (outcome api_error).

Section envelope.
Context {X : Type}.
Implicit Types (h : gmap string string).

Definition json_type : string := "application/x-amz-json-1.1".

Definition WriteError h (status : Z) (errType message : string) : Response (payload X) :=
  mkResponse status (Set_ "X-Amzn-Errortype" errType (Set_ "Content-Type" json_type h)) (ErrEnvelope errType message).
Definition WriteJSON h (status : Z) (v : X) : Response (payload X) :=
  mkResponse status (Set_ "Content-Type" json_type h) (Json v).

Definition MissingRequiredField h (fieldName : string) : Response (payload X) :=
  WriteError h 400 "ValidationException" ("missing required field: " +:+ fieldName).
Definition InvalidParameter h (message : string) : Response (payload X) :=
  WriteError h 400 "InvalidParameterException" message.

Definition WriteBackendError h (err : api_error) : Response (payload X) :=
  match err with
  | EBackend be =>
      let h := if String.eqb (QueryCompatibleCode be) "" then h
               else Set_ "x-amzn-query-error" (QueryCompatibleCode be +:+ ";Sender") h in
      WriteError h (HTTPStatus be) (be_Type be) (be_Message be)
  | EOther text => WriteError h 500 "InternalFailure" text
  end.

(** The decoded request, or the answer that has been sent. *)
Definition DecodeJSON {T} `{JsonRequest T} (r : Request) : Response (payload X) + T :=
  if ContentLength r =? 0 then inr json_zero
  else match json_Decode (default (Reads []) (Body r)) with
       | inr v => inr v
       | inl text => inl (WriteError ∅ 400 "SerializationException" text)
       end.
End envelope.

(** ** The router *)

Record Router (H : Type) := mkRouter { service : string; routes : gmap string H }.
Arguments mkRouter {H} _ _.
Arguments service {H} _.
Arguments routes {H} _.

Definition NewRouter {H} (service : string) : Router H := mkRouter service ∅.
Definition Register {H} (operation : string) (h : H) (rt : Router H) : Router H :=
  mkRouter (service rt) (<[operation := h]> (routes rt)).

(** ** Generated handlers

    Decode, check that the required fields are not empty (in the order of the
    list), call, encode.  The outer [None] is a call that has not returned, the
    inner one a panic. *)

Fixpoint first_missing (fields : list (string * string)) : option string :=
  match fields with
  | [] => None
  | (name, value) :: fields => if String.eqb value "" then Some name else first_missing fields
  end.

Section handlers.
Context {St X : Type}.

Definition answered : Type := option (St * option (Response (payload X))).

Definition json_handler {T} `{JsonRequest T} (required : T → list (string * string))
    (op : T → St → option (St * api X)) (r : Request) (s : St) : answered :=
  match DecodeJSON r with
  | inl resp => Some (s, Some resp)
  | inr i =>
      match first_missing (required i) with
      | Some name => Some (s, Some (MissingRequiredField ∅ name))
      | None =>
          match op i s with
          | None => None
          | Some (s, Ok out) => Some (s, Some (WriteJSON ∅ 200 out))
          | Some (s, Err e) => Some (s, Some (WriteBackendError ∅ e))
          | Some (s, Panic) => Some (s, None)
          end
      end
  end.

(** ** Adapters

    A method of a frontend's adapter threads the state of the service below it. *)

(** [if err != nil { return nil, mapDomainErr(err) }] and the rest of a method. *)
Definition call_with {A B E} (mapDomainErr : E → api_error) (c : St * outcome E A) (k : A → St → St * api B) : St * api B :=
  match c with
  | (s, Ok a) => k a s
  | (s, Err e) => (s, Err (mapDomainErr e))
  | (s, Panic) => (s, Panic)
  end.
(** [if err != nil { return nil, err }] *)
Definition checked {A B} (c : api A) (k : A → St → St * api B) (s : St) : St * api B :=
  match c with Ok a => k a s | Err e => (s, Err e) | Panic => (s, Panic) end.

(** A handler whose call returns at once, over the decoder of its request. *)
Definition returning_handler {T} (Err_text : string → string) (dec : decoder T) (required : T → list (string * string))
    (op : T → St → St * api X) : Request → St → answered :=
  json_handler (H := json_request Err_text dec) required (λ i s, Some (op i s)).

(** ** Dispatch *)

(** The handler of a request, or the error that refuses it. *)
Definition route {H} (rt : Router H) (r : Request) : Response (payload X) + H :=
  if negb (String.eqb (Method r) "POST")
  then inl (WriteError ∅ 405 "UnknownOperationException" "awsJson1_x requires POST")
  else
    let target := Header_Get r "X-Amz-Target" in
    if String.eqb target ""
    then inl (WriteError ∅ 400 "InvalidSignatureException" "missing X-Amz-Target header")
    else
      let '(svc, op, ok) := Cut target "." in
      if negb ok || String.eqb svc "" || String.eqb op ""
      then inl (WriteError ∅ 400 "UnknownOperationException" ("malformed X-Amz-Target: " +:+ target))
      else if negb (String.eqb svc (service rt))
      then inl (WriteError ∅ 400 "UnknownOperationException"
                  ("X-Amz-Target service mismatch: got " +:+ svc +:+ ", want " +:+ service rt))
      else match routes rt !! op with
           | None => inl (WriteError ∅ 400 "UnknownOperationException" ("unknown operation: " +:+ op))
           | Some h => inr h
           end.

Definition ServeHTTP {H} (serve : H → Request → St → answered) (rt : Router H) (r : Request) (s : St) : answered :=
  match route rt r with
  | inl resp => Some (s, Some resp)
  | inr h => serve h r s
  end.

(** The router behind a verifier's middleware, which may refuse a request. *)
Definition Guarded (refuse : Request → option (Z * string * string)) (serve : Request → St → answered)
    (r : Request) (s : St) : answered :=
  match refuse r with
  | Some (status, type, message) => Some (s, Some (WriteError ∅ status type message))
  | None => serve r s
  end.
End handlers.
Arguments answered : clear implicits.
