(* ===== verification/AwsJsonProps.v ===== *)
(** * The AWS JSON runtime: what the services' proofs share

    Which handler a request reaches, and what a handler answers to a request
    whose body is the text of a JSON value. *)

From Stdlib Require Import Ascii.
From S2P Require Import Prelude GoStrings GoBytes GoHttp GoJson GoJsonProps AwsJson.

(** A request for an operation of a service. *)
Definition calls (svc op : string) (r : Request) : Prop :=
  Method r = "POST" ∧ Header_Get r "X-Amz-Target" = svc +:+ "." +:+ op.

(** ** Tables of routes *)

Section table.
Context {H : Type} (op_name : H → string) (svc : string) (ops : list H).

Definition registered : Router H := fold_left (λ rt o, Register (op_name o) o rt) ops (NewRouter svc).

Lemma registered_service : service registered = svc.
Proof.
  assert (∀ l rt, service (fold_left (λ rt o, Register (op_name o) o rt) l rt) = service rt) as Hs.
  { induction l as [|o l IH]; intros rt; [done|]. cbn [fold_left]. by rewrite IH. }
  apply Hs.
Qed.

Lemma registered_lookup op :
  NoDup (op_name <$> ops) → routes registered !! op = find (λ o, String.eqb (op_name o) op) ops.
Proof.
  assert (∀ l rt, NoDup (op_name <$> l) →
    routes (fold_left (λ rt o, Register (op_name o) o rt) l rt) !! op =
      match find (λ o, String.eqb (op_name o) op) l with Some o => Some o | None => routes rt !! op end) as Hl.
  { induction l as [|o l IH]; intros rt Hnd; [done|]. rewrite fmap_cons in Hnd. apply NoDup_cons in Hnd as [Hni Hnd].
    cbn [fold_left find]. rewrite IH by done. cbn [routes Register].
    destruct (String.eqb_spec (op_name o) op) as [<-|Hne]; [|by rewrite lookup_insert_ne].
    rewrite lookup_insert_eq. destruct (find _ l) as [o'|] eqn:Hf; [|done].
    apply find_some in Hf as [Hin Hf]. apply String.eqb_eq in Hf. exfalso. apply Hni. rewrite <-Hf.
    apply list_elem_of_fmap. exists o'. split; [done|]. by apply list_elem_of_In. }
  intros Hnd. unfold registered. rewrite Hl by done. by destruct (find _ ops).
Qed.

Lemma route_registered {X} r o :
  String.eqb svc "" = false → str_mem "." svc = false → String.eqb (op_name o) "" = false →
  routes registered !! op_name o = Some o → calls svc (op_name o) r → route (X := X) registered r = inr o.
Proof.
  intros Hs Hd Ho Hr [Hm Ht]. unfold route. rewrite Hm, Ht, !str_one_app. cbn [String.eqb negb].
  assert (String.eqb (svc +:+ String "." (op_name o)) "" = false) as -> by (by destruct svc).
  unfold Cut. rewrite IndexByte_app, str_take_app, str_drop_sep by done. by rewrite Hs, Ho, registered_service, String.eqb_refl, Hr.
Qed.

Lemma route_registered_inv {X} r o :
  NoDup (op_name <$> ops) → route (X := X) registered r = inr o → calls svc (op_name o) r.
Proof.
  intros Hnd. unfold route, calls. destruct (String.eqb_spec (Method r) "POST") as [Hm|]; [|done]. cbn [negb].
  destruct (String.eqb_spec (Header_Get r "X-Amz-Target") "") as [|Hne]; [done|].
  unfold Cut. destruct (IndexByte _ ".") as [i|] eqn:Hi; [|done].
  cbn [negb orb]. destruct (_ || _); [done|].
  destruct (String.eqb_spec (str_take i (Header_Get r "X-Amz-Target")) (service registered)) as [Hs|]; [|done].
  cbn [negb]. destruct (routes _ !! _) as [o'|] eqn:Ho; [|done]. intros [= ->]. split; [done|].
  rewrite registered_lookup in Ho by done. apply find_some in Ho as [_ Ho]. apply String.eqb_eq in Ho.
  apply IndexByte_Some in Hi as [Hi _]. rewrite Hi, Hs, registered_service, Ho. by rewrite str_one_app.
Qed.
End table.

(** ** Requests that decode *)

Definition decodes_to {T} `{JsonRequest T} (r : Request) (i : T) : Prop :=
  ContentLength r ≠ 0 ∧ json_Decode (default (Reads []) (Body r)) = inr i.

Lemma DecodeJSON_decodes {X T} `{JsonRequest T} r (i : T) : decodes_to r i → DecodeJSON (X := X) r = inr i.
Proof. intros (Hc & Hd). unfold DecodeJSON. apply Z.eqb_neq in Hc. by rewrite Hc, Hd. Qed.

(** The answer to a request that decodes and has its required fields. *)
Lemma json_handler_decodes {St X T} `{JsonRequest T} (required : T → list (string * string))
    (op : T → St → option (St * api X)) r i (s : St) :
  decodes_to r i → first_missing (required i) = None →
  json_handler required op r s =
    match op i s with
    | None => None
    | Some (s, Ok out) => Some (s, Some (WriteJSON ∅ 200 out))
    | Some (s, Err e) => Some (s, Some (WriteBackendError ∅ e))
    | Some (s, Panic) => Some (s, None)
    end.
Proof. intros Hc Hm. unfold json_handler. by rewrite (DecodeJSON_decodes r i Hc), Hm. Qed.

(** A request whose body is a JSON value. *)
Definition has_body (r : Request) (v : json) : Prop :=
  ContentLength r ≠ 0 ∧ Body r = Some (Reads (bytes_of_string (print v))).

Lemma has_body_decodes Err {T} (d : decoder T) r v i :
  has_body r v → printable v → (height v <= max_depth)%nat → (match v with JObj _ => True | _ => False end) →
  decode_fresh d (Some v) = Some i → @decodes_to T (json_request Err d) r i.
Proof.
  intros [Hc Hb] Hp Hh Ho Hd. split; [done|]. rewrite Hb.
  change (match Decode d (string_of_bytes (bytes_of_string (print v))) with
          | Some x => inr x | None => inl (Err (string_of_bytes (bytes_of_string (print v)))) end = inr i).
  rewrite string_of_bytes_of_string. unfold Decode. rewrite <-(str_app_nil_r (print v)).
  rewrite parse_first_print; [by rewrite Hd|done|done|done].
Qed.

Lemma small_body n : (n <= 3)%nat → (n <= max_depth)%nat.
Proof. intros H. etransitivity; [exact H|]. apply Nat.leb_le. vm_compute. reflexivity. Qed.

(** ** The answer of an adapter *)

Definition answered_with {St X} (r : St * api X) : answered St X :=
  match r with
  | (s, Ok out) => Some (s, Some (WriteJSON ∅ 200 out))
  | (s, Err e) => Some (s, Some (WriteBackendError ∅ e))
  | (s, Panic) => Some (s, None)
  end.

Lemma returning_handler_asks {St X T} Err (dec : decoder T) required (op : T → St → St * api X) r v i s :
  has_body r v → printable v → (height v <= 3)%nat → (match v with JObj _ => True | _ => False end) →
  decode_fresh dec (Some v) = Some i → first_missing (required i) = None →
  returning_handler Err dec required op r s = answered_with (op i s).
Proof.
  intros Hb Hp Hh Ho Hd Hm. unfold returning_handler.
  rewrite (@json_handler_decodes St X T (json_request Err dec) required _ r i s); [|by eapply has_body_decodes; [..|apply small_body| |]|done].
  unfold answered_with. by destruct (op i s) as [? []].
Qed.

(** ** Runs behind a verifier

    A client's requests, each standing for a call and met with what the service
    reads besides its state (the clock, for one); what the verifier refuses
    gets its error and is not seen by the service.  [T] is what the service is
    compared with: [next] and [answers] say what a call does to it and what it
    answers.  [holds n] relates it to the state when [n] more calls may come. *)

Record json_arrival (D C : Type) := mkJsonArrival { ja_env : D; ja_call : C; ja_request : Request }.
Arguments mkJsonArrival {D C} _ _ _.
Arguments ja_env {D C} _.
Arguments ja_call {D C} _.
Arguments ja_request {D C} _.

Section runs.
Context {D St X C T : Type} (handler : D → Request → St → answered St X).

Fixpoint serve_run (l : list (json_arrival D C)) (s : St) : option (St * list (Response (payload X))) :=
  match l with
  | [] => Some (s, [])
  | a :: l =>
      match handler (ja_env a) (ja_request a) s with
      | Some (s, Some resp) => (λ x : St * list (Response (payload X)), (x.1, resp :: x.2)) <$> serve_run l s
      | _ => None
      end
  end.

(** The response that carries an answer. *)
Definition response_of (out : api X) : option (Response (payload X)) :=
  match out with Ok x => Some (WriteJSON ∅ 200 x) | Err e => Some (WriteBackendError ∅ e) | Panic => None end.

Context (refuse : D → Request → option (Z * string * string)) (next : C → T → T) (answers : C → T → api X → Prop).
Fixpoint run_answers (l : list (json_arrival D C)) (t : T) (resps : list (Response (payload X))) : Prop :=
  match l, resps with
  | [], [] => True
  | a :: l, resp :: resps =>
      match refuse (ja_env a) (ja_request a) with
      | Some (status, type, message) => resp = WriteError ∅ status type message ∧ run_answers l t resps
      | None =>
          (∃ out, response_of out = Some resp ∧ answers (ja_call a) t out) ∧
          run_answers l (next (ja_call a) t) resps
      end
  | _, _ => False
  end.

Lemma run_served (serve : D → Request → St → answered St X) (holds : nat → T → St → Prop) (ok : json_arrival D C → Prop) l t s :
  (∀ now r s, handler now r s = Guarded (refuse now) (serve now) r s) →
  (∀ n t s, holds (S n) t s → holds n t s) →
  (∀ n a t s, ok a → holds (S n) t s → ∃ s' out, serve (ja_env a) (ja_request a) s = answered_with (s', out) ∧
    out ≠ Panic ∧ holds n (next (ja_call a) t) s' ∧ answers (ja_call a) t out) →
  Forall ok l → holds (length l) t s → ∃ s' resps, serve_run l s = Some (s', resps) ∧ run_answers l t resps.
Proof.
  intros Hg Hdown Hstep Hl. revert t s. induction Hl as [|a l Ha Hl IH]; intros t s Hs; [by exists s, []|].
  cbn [serve_run run_answers length] in *. rewrite Hg. unfold Guarded. destruct (refuse _ _) as [[[status type] message]|].
  - destruct (IH t s) as (s' & resps & E & H); [by apply Hdown|]. rewrite E. eexists _, _. split; [reflexivity|]. done.
  - destruct (Hstep _ a t s Ha Hs) as (s1 & out & E1 & Hp & Hh & Ho). destruct (IH _ s1 Hh) as (s' & resps & E & H).
    rewrite E1. destruct out as [out|e|]; [| |done]; cbn [answered_with]; rewrite E; eexists _, _; (split; [reflexivity|]);
      (split; [|done]); eexists; (split; [|exact Ho]); done.
Qed.
End runs.
