(* ===== verification/Sqs.v ===== *)
(** * The SQS frontend

    Models [internal/queue/frontends/aws_sqs] (the adapter of [domain.Queues])
    and [services/queue/gen/aws_sqs.gen.go] (the request types with their JSON,
    the handlers and the table of routes).  Requests keep the fields the adapter reads; a pointer is an option.
    [Quote] is the %q verb of the domain's messages. *)

From Stdlib Require Import Ascii.
From S2P Require Import Prelude GoStrings GoBytes GoHttp Queue QueueApi AwsJson GoJson.

(** ** Generated types *)

Record CreateQueueRequest := mkCreateQueueRequest { cqi_Attributes : strmap; cqi_QueueName : string; cqi_Tags : strmap }.
Record DeleteQueueRequest := mkDeleteQueueRequest { dqi_QueueUrl : string }.
Record ListQueuesRequest := mkListQueuesRequest {
  lqi_MaxResults : option Z; lqi_NextToken : option string; lqi_QueueNamePrefix : option string }.
Record GetQueueUrlRequest := mkGetQueueUrlRequest { gui_QueueName : string }.
Record GetQueueAttributesRequest := mkGetQueueAttributesRequest { gai_QueueUrl : string }.
Record SetQueueAttributesRequest := mkSetQueueAttributesRequest { sai_Attributes : strmap; sai_QueueUrl : string }.
Record MessageAttributeValue := mkMessageAttributeValue { DataType : string; StringValue : option string }.
(** A map to pointers. *)
Abbreviation MessageBodyAttributeMap := (option (gmap string (option MessageAttributeValue))).
Record SendMessageRequest := mkSendMessageRequest {
  smi_DelaySeconds : option Z; smi_MessageAttributes : MessageBodyAttributeMap; smi_MessageBody : string;
  smi_QueueUrl : string }.
Record ReceiveMessageRequest := mkReceiveMessageRequest {
  rmi_MaxNumberOfMessages : option Z; rmi_QueueUrl : string; rmi_VisibilityTimeout : option Z;
  rmi_WaitTimeSeconds : option Z }.
Record DeleteMessageRequest := mkDeleteMessageRequest { dmi_QueueUrl : string; dmi_ReceiptHandle : string }.
Record ChangeMessageVisibilityRequest := mkChangeMessageVisibilityRequest {
  cvi_QueueUrl : string; cvi_ReceiptHandle : string; cvi_VisibilityTimeout : Z }.
Record ListQueueTagsRequest := mkListQueueTagsRequest { lti_QueueUrl : string }.
Record TagQueueRequest := mkTagQueueRequest { tqi_QueueUrl : string; tqi_Tags : strmap }.
Record UntagQueueRequest := mkUntagQueueRequest { uqi_QueueUrl : string; uqi_TagKeys : list string }.
Record PurgeQueueRequest := mkPurgeQueueRequest { pqi_QueueUrl : string }.
Record MessageOut := mkMessageOut {
  mo_MessageId : string; mo_ReceiptHandle : string; mo_Body : string; mo_Attributes : strmap;
  mo_MessageAttributes : MessageBodyAttributeMap }.

(** The results; [Void] is [struct{}{}]. *)
Inductive output :=
  | CreateQueueResult (QueueUrl : string)
  | ListQueuesOutput (NextToken : option string) (QueueUrls : list string)
  | GetQueueUrlResult (QueueUrl : string)
  | GetQueueAttributesResult (Attributes : gmap string string)
  | SendMessageOutput (MessageId : string)
  | ReceiveMessageResult (Messages : list MessageOut)
  | ListQueueTagsResult (Tags : gmap string string)
  | Void.

(** ** Helpers of the adapter *)

Definition fakeQueueURL (name : string) : string := "https://sqs.shim.amazonaws.com/000000000000/" +:+ name.

Definition normaliseQueueURL (url : string) : string :=
  match LastIndexByte url "/" with
  | None => url
  | Some i => str_drop (S i) url
  end.

Definition legacyQueryErrorCode : gmap string string :=
  {["QueueDoesNotExist" := "AWS.SimpleQueueService.NonExistentQueue"; "QueueNameExists" := "QueueAlreadyExists";
    "ReceiptHandleIsInvalid" := "ReceiptHandleIsInvalid"; "InvalidMessageContents" := "InvalidMessageContents";
    "OverLimit" := "OverLimit"; "UnsupportedOperation" := "AWS.SimpleQueueService.UnsupportedOperation"]}.

(** [attrs[k]], parsed; an entry that is missing or does not parse leaves 0. *)
Definition attr_int (attrs : strmap) (k : string) : Z :=
  match default ∅ attrs !! k with Some v => default 0 (Atoi v) | None => 0 end.

Definition attributesFromAWS (attrs : strmap) : QueueAttributes :=
  mkQueueAttributes (attr_int attrs "VisibilityTimeout") (attr_int attrs "MessageRetentionPeriod")
    (attr_int attrs "MaximumMessageSize") (attr_int attrs "DelaySeconds") 0 zeroTime.

Definition attributesToAWS (a : QueueAttributes) : gmap string string :=
  let created := Itoa (CreatedAt a / Second) in
  {["VisibilityTimeout" := Itoa (VisibilityTimeoutSeconds a);
    "MessageRetentionPeriod" := Itoa (MessageRetentionSeconds a);
    "MaximumMessageSize" := Itoa (MaxMessageSizeBytes a);
    "DelaySeconds" := Itoa (DelaySeconds a);
    "ApproximateNumberOfMessages" := Itoa (ApproximateMessageCount a);
    "ApproximateNumberOfMessagesNotVisible" := "0";
    "ApproximateNumberOfMessagesDelayed" := "0";
    "CreatedTimestamp" := created;
    "LastModifiedTimestamp" := created]} ∪
  {["ReceiveMessageWaitTimeSeconds" := "0"; "Policy" := ""; "RedrivePolicy" := ""; "RedriveAllowPolicy" := "";
    "KmsMasterKeyId" := ""; "KmsDataKeyReusePeriodSeconds" := "300"; "SqsManagedSseEnabled" := "false";
    "FifoQueue" := "false"; "ContentBasedDeduplication" := "false"; "DeduplicationScope" := "";
    "FifoThroughputLimit" := ""]}.

Definition messageAttrsFromAWS (m : MessageBodyAttributeMap) : strmap :=
  let m := default ∅ m in
  if decide (m = ∅) then None else Some (omap (λ v, v ≫= StringValue) m).

Definition messageAttrsToAWS (m : strmap) : MessageBodyAttributeMap :=
  let m := default ∅ m in
  if decide (m = ∅) then None else Some ((λ v, Some (mkMessageAttributeValue "String" (Some v))) <$> m).

Definition sqsSystemAttributes (m : Message) : strmap :=
  let out : gmap string string := if 0 <? DeliveryCount m
             then {["ApproximateReceiveCount" := Itoa (DeliveryCount m)]} else ∅ in
  let out := if ReceivedAt m =? zeroTime then out
             else <["ApproximateFirstReceiveTimestamp" := Itoa (wrap_s 64 (ReceivedAt m / Millisecond))]> out in
  if decide (out = ∅) then None else Some out.

Definition message_out (m : Message) : MessageOut :=
  mkMessageOut (MessageID m) (ReceiptHandle m) (string_of_bytes (default [] (Message_Body m)))
    (sqsSystemAttributes m) (messageAttrsToAWS (Message_Attributes m)).

Definition bad_parameter (message : string) : api_error :=
  EBackend (mkBackendError 400 "InvalidParameterValue" message "").

(** ** The adapter *)

Section adapter.
Context `{Queues_ St} (Quote : string → string).
Implicit Types (s : St) (d : Draws St).

Definition mapDomainErr (err : error) : api_error :=
  match err with
  | Plain text => EBackend (mkBackendError 500 "InternalFailure" text "")
  | DomainError kind _ _ _ =>
      let '(status, type) :=
        match kind with
        | KindNoSuchQueue => (400, "QueueDoesNotExist")
        | KindQueueAlreadyExists => (400, "QueueNameExists")
        | KindInvalidReceiptHandle => (400, "ReceiptHandleIsInvalid")
        | KindMessageTooLarge => (400, "InvalidMessageContents")
        | KindInvalidArgument => (400, "InvalidParameterValue")
        | _ => (500, "InternalFailure")
        end in
      EBackend (mkBackendError status type (Error_text Quote err) (default "" (legacyQueryErrorCode !! type)))
  end.

(** [if err != nil { return nil, mapDomainErr(err) }] and the rest of a method. *)
Definition call {A B} (c : St * result A) (k : A → api B) : St * api B :=
  (c.1, match c.2 with Ok a => k a | Err e => Err (mapDomainErr e) | Panic => Panic end).

(** The queue is removed again when it cannot be tagged. *)
Definition Adapter_CreateQueue d (i : CreateQueueRequest) s : St * api output :=
  if String.eqb (cqi_QueueName i) "" then (s, Err (bad_parameter "QueueName is required"))
  else
    let name := cqi_QueueName i in
    let done := CreateQueueResult (fakeQueueURL name) in
    match q_CreateQueue d name (mkCreateQueueOptions (attributesFromAWS (cqi_Attributes i))) s with
    | (s, Ok _) =>
        if decide (default ∅ (cqi_Tags i) = ∅) then (s, Ok done)
        else match q_TagQueue name (cqi_Tags i) s with
             | (s, Ok _) => (s, Ok done)
             | (s, Err e) => ((q_DeleteQueue name s).1, Err (mapDomainErr e))
             | (s, Panic) => (s, Panic)
             end
    | (s, Err e) => (s, Err (mapDomainErr e))
    | (s, Panic) => (s, Panic)
    end.

Definition Adapter_DeleteQueue (i : DeleteQueueRequest) s : St * api output :=
  let name := normaliseQueueURL (dqi_QueueUrl i) in
  if String.eqb name "" then (s, Err (bad_parameter "QueueUrl is required"))
  else call (q_DeleteQueue name s) (λ _, Ok Void).

Definition Adapter_ListQueues (i : ListQueuesRequest) s : St * api output :=
  call (q_ListQueues (mkListQueuesOptions (default "" (lqi_QueueNamePrefix i)) (default 0 (lqi_MaxResults i))
      (default "" (lqi_NextToken i))) s) (λ res,
    Ok (ListQueuesOutput (if String.eqb (lqr_NextToken res) "" then None else Some (lqr_NextToken res))
      ((λ q, fakeQueueURL (Queue_Name q)) <$> lqr_Queues res))).

Definition Adapter_GetQueueUrl d (i : GetQueueUrlRequest) s : St * api output :=
  if String.eqb (gui_QueueName i) "" then (s, Err (bad_parameter "QueueName is required"))
  else call (q_HeadQueue d (gui_QueueName i) s) (λ _, Ok (GetQueueUrlResult (fakeQueueURL (gui_QueueName i)))).

Definition Adapter_GetQueueAttributes d (i : GetQueueAttributesRequest) s : St * api output :=
  call (q_HeadQueue d (normaliseQueueURL (gai_QueueUrl i)) s) (λ q,
    Ok (GetQueueAttributesResult (attributesToAWS (Attributes q)))).

Definition Adapter_SetQueueAttributes (i : SetQueueAttributesRequest) s : St * api output :=
  if String.eqb (sai_QueueUrl i) "" then (s, Err (bad_parameter "QueueUrl is required"))
  else call (q_SetQueueAttributes (normaliseQueueURL (sai_QueueUrl i)) (attributesFromAWS (sai_Attributes i)) s)
         (λ _, Ok Void).

Definition Adapter_SendMessage d (i : SendMessageRequest) s : St * api output :=
  call (q_SendMessage d (normaliseQueueURL (smi_QueueUrl i))
      (mkSendMessageOptions (Some (bytes_of_string (smi_MessageBody i)))
        (messageAttrsFromAWS (smi_MessageAttributes i)) (default 0 (smi_DelaySeconds i))) s) (λ res,
    Ok (SendMessageOutput (smr_MessageID res))).

Definition Adapter_ReceiveMessage d (i : ReceiveMessageRequest) s : option (St * api output) :=
  (λ c, call c (λ msgs, Ok (ReceiveMessageResult (message_out <$> msgs)))) <$>
    q_ReceiveMessages d (normaliseQueueURL (rmi_QueueUrl i))
      (mkReceiveMessagesOptions (default 0 (rmi_MaxNumberOfMessages i)) (default 0 (rmi_VisibilityTimeout i))
        (default 0 (rmi_WaitTimeSeconds i))) s.

Definition Adapter_DeleteMessage (i : DeleteMessageRequest) s : St * api output :=
  call (q_DeleteMessage (normaliseQueueURL (dmi_QueueUrl i)) (dmi_ReceiptHandle i) s) (λ _, Ok Void).

Definition Adapter_ChangeMessageVisibility d (i : ChangeMessageVisibilityRequest) s : St * api output :=
  call (q_ChangeVisibility d (normaliseQueueURL (cvi_QueueUrl i)) (cvi_ReceiptHandle i) (cvi_VisibilityTimeout i) s)
    (λ _, Ok Void).

Definition Adapter_ListQueueTags (i : ListQueueTagsRequest) s : St * api output :=
  call (q_ListQueueTags (normaliseQueueURL (lti_QueueUrl i)) s) (λ tags, Ok (ListQueueTagsResult tags)).

Definition Adapter_TagQueue (i : TagQueueRequest) s : St * api output :=
  call (q_TagQueue (normaliseQueueURL (tqi_QueueUrl i)) (tqi_Tags i) s) (λ _, Ok Void).

Definition Adapter_UntagQueue (i : UntagQueueRequest) s : St * api output :=
  call (q_UntagQueue (normaliseQueueURL (uqi_QueueUrl i)) (uqi_TagKeys i) s) (λ _, Ok Void).

Definition Adapter_PurgeQueue (i : PurgeQueueRequest) s : St * api output :=
  (s, Err (EBackend (mkBackendError 400 "UnsupportedOperation"
    "PurgeQueue is out of the cross-cloud intersection" ""))).
End adapter.

(** ** Generated handlers *)

Inductive sqs_op :=
  | CreateQueueHandler | DeleteQueueHandler | ListQueuesHandler | GetQueueUrlHandler | GetQueueAttributesHandler
  | SetQueueAttributesHandler | SendMessageHandler | ReceiveMessageHandler | DeleteMessageHandler
  | ChangeMessageVisibilityHandler | ListQueueTagsHandler | TagQueueHandler | UntagQueueHandler | PurgeQueueHandler.
#[export] Instance sqs_op_eq_dec : EqDecision sqs_op.
Proof. solve_decision. Defined.

Definition op_name (o : sqs_op) : string :=
  match o with
  | CreateQueueHandler => "CreateQueue" | DeleteQueueHandler => "DeleteQueue" | ListQueuesHandler => "ListQueues"
  | GetQueueUrlHandler => "GetQueueUrl" | GetQueueAttributesHandler => "GetQueueAttributes"
  | SetQueueAttributesHandler => "SetQueueAttributes" | SendMessageHandler => "SendMessage"
  | ReceiveMessageHandler => "ReceiveMessage" | DeleteMessageHandler => "DeleteMessage"
  | ChangeMessageVisibilityHandler => "ChangeMessageVisibility" | ListQueueTagsHandler => "ListQueueTags"
  | TagQueueHandler => "TagQueue" | UntagQueueHandler => "UntagQueue" | PurgeQueueHandler => "PurgeQueue"
  end.
Definition sqs_ops : list sqs_op :=
  [CreateQueueHandler; DeleteQueueHandler; ListQueuesHandler; GetQueueUrlHandler; GetQueueAttributesHandler;
   SetQueueAttributesHandler; SendMessageHandler; ReceiveMessageHandler; DeleteMessageHandler;
   ChangeMessageVisibilityHandler; ListQueueTagsHandler; TagQueueHandler; UntagQueueHandler; PurgeQueueHandler].

Definition RegisterSQSRoutes : Router sqs_op :=
  fold_left (λ rt o, Register (op_name o) o rt) sqs_ops (NewRouter "AmazonSQS").

(** [json.Decoder] on the fourteen request types. *)
Class SqsJson := {
  json_CreateQueue :: JsonRequest CreateQueueRequest;
  json_DeleteQueue :: JsonRequest DeleteQueueRequest;
  json_ListQueues :: JsonRequest ListQueuesRequest;
  json_GetQueueUrl :: JsonRequest GetQueueUrlRequest;
  json_GetQueueAttributes :: JsonRequest GetQueueAttributesRequest;
  json_SetQueueAttributes :: JsonRequest SetQueueAttributesRequest;
  json_SendMessage :: JsonRequest SendMessageRequest;
  json_ReceiveMessage :: JsonRequest ReceiveMessageRequest;
  json_DeleteMessage :: JsonRequest DeleteMessageRequest;
  json_ChangeMessageVisibility :: JsonRequest ChangeMessageVisibilityRequest;
  json_ListQueueTags :: JsonRequest ListQueueTagsRequest;
  json_TagQueue :: JsonRequest TagQueueRequest;
  json_UntagQueue :: JsonRequest UntagQueueRequest;
  json_PurgeQueue :: JsonRequest PurgeQueueRequest }.

Section handlers.
Context `{Queues_ St} `{SqsJson} (Quote : string → string) (d : Draws St).

(** Handlers whose call returns at once. *)
Definition returns {T} (op : T → St → St * api output) (i : T) (s : St) : option (St * api output) := Some (op i s).

Definition handle (o : sqs_op) : Request → St → answered St output :=
  match o with
  | CreateQueueHandler =>
      json_handler (λ i, [("QueueName", cqi_QueueName i)]) (returns (Adapter_CreateQueue Quote d))
  | DeleteQueueHandler =>
      json_handler (λ i, [("QueueUrl", dqi_QueueUrl i)]) (returns (Adapter_DeleteQueue Quote))
  | ListQueuesHandler => json_handler (λ i, []) (returns (Adapter_ListQueues Quote))
  | GetQueueUrlHandler =>
      json_handler (λ i, [("QueueName", gui_QueueName i)]) (returns (Adapter_GetQueueUrl Quote d))
  | GetQueueAttributesHandler =>
      json_handler (λ i, [("QueueUrl", gai_QueueUrl i)]) (returns (Adapter_GetQueueAttributes Quote d))
  | SetQueueAttributesHandler =>
      json_handler (λ i, [("QueueUrl", sai_QueueUrl i)]) (returns (Adapter_SetQueueAttributes Quote))
  | SendMessageHandler =>
      json_handler (λ i, [("MessageBody", smi_MessageBody i); ("QueueUrl", smi_QueueUrl i)])
        (returns (Adapter_SendMessage Quote d))
  | ReceiveMessageHandler =>
      json_handler (λ i, [("QueueUrl", rmi_QueueUrl i)]) (Adapter_ReceiveMessage Quote d)
  | DeleteMessageHandler =>
      json_handler (λ i, [("QueueUrl", dmi_QueueUrl i); ("ReceiptHandle", dmi_ReceiptHandle i)])
        (returns (Adapter_DeleteMessage Quote))
  | ChangeMessageVisibilityHandler =>
      json_handler (λ i, [("QueueUrl", cvi_QueueUrl i); ("ReceiptHandle", cvi_ReceiptHandle i)])
        (returns (Adapter_ChangeMessageVisibility Quote d))
  | ListQueueTagsHandler =>
      json_handler (λ i, [("QueueUrl", lti_QueueUrl i)]) (returns (Adapter_ListQueueTags Quote))
  | TagQueueHandler =>
      json_handler (λ i, [("QueueUrl", tqi_QueueUrl i)]) (returns (Adapter_TagQueue Quote))
  | UntagQueueHandler =>
      json_handler (λ i, [("QueueUrl", uqi_QueueUrl i)]) (returns (Adapter_UntagQueue Quote))
  | PurgeQueueHandler =>
      json_handler (λ i, [("QueueUrl", pqi_QueueUrl i)]) (returns Adapter_PurgeQueue)
  end.

Definition Sqs_ServeHTTP : Request → St → answered St output := ServeHTTP handle RegisterSQSRoutes.
End handlers.

(** * The JSON of the SQS requests

    The request types of [services/queue/gen/aws_sqs.gen.go] as decoders: every
    field of the struct, those that the model does not keep included, under the
    name of its tag; unknown fields are refused.  [Err_text] is the text of the
    decoder's error on a body. *)

Definition d_strings : decoder (list string) := d_slice d_string.
Definition d_string_map : decoder strmap := d_map d_string.

Definition d_CreateQueue : decoder CreateQueueRequest :=
  d_struct true (mkCreateQueueRequest None "" None)
    [kept "Attributes" d_string_map cqi_Attributes (λ a x, mkCreateQueueRequest a (cqi_QueueName x) (cqi_Tags x));
     kept "QueueName" d_string cqi_QueueName (λ a x, mkCreateQueueRequest (cqi_Attributes x) a (cqi_Tags x));
     kept "tags" d_string_map cqi_Tags (λ a x, mkCreateQueueRequest (cqi_Attributes x) (cqi_QueueName x) a)].

Definition d_DeleteQueue : decoder DeleteQueueRequest :=
  d_struct true (mkDeleteQueueRequest "") [kept "QueueUrl" d_string dqi_QueueUrl (λ a _, mkDeleteQueueRequest a)].

Definition d_ListQueues : decoder ListQueuesRequest :=
  d_struct true (mkListQueuesRequest None None None)
    [kept "MaxResults" (d_ptr (d_int 32)) lqi_MaxResults (λ a x, mkListQueuesRequest a (lqi_NextToken x) (lqi_QueueNamePrefix x));
     kept "NextToken" (d_ptr d_string) lqi_NextToken (λ a x, mkListQueuesRequest (lqi_MaxResults x) a (lqi_QueueNamePrefix x));
     kept "QueueNamePrefix" (d_ptr d_string) lqi_QueueNamePrefix
       (λ a x, mkListQueuesRequest (lqi_MaxResults x) (lqi_NextToken x) a)].

Definition d_GetQueueUrl : decoder GetQueueUrlRequest :=
  d_struct true (mkGetQueueUrlRequest "")
    [kept "QueueName" d_string gui_QueueName (λ a _, mkGetQueueUrlRequest a);
     unread "QueueOwnerAWSAccountId" (d_ptr d_string)].

Definition d_GetQueueAttributes : decoder GetQueueAttributesRequest :=
  d_struct true (mkGetQueueAttributesRequest "")
    [unread "AttributeNames" d_strings; kept "QueueUrl" d_string gai_QueueUrl (λ a _, mkGetQueueAttributesRequest a)].

Definition d_SetQueueAttributes : decoder SetQueueAttributesRequest :=
  d_struct true (mkSetQueueAttributesRequest None "")
    [kept "Attributes" d_string_map sai_Attributes (λ a x, mkSetQueueAttributesRequest a (sai_QueueUrl x));
     kept "QueueUrl" d_string sai_QueueUrl (λ a x, mkSetQueueAttributesRequest (sai_Attributes x) a)].

Definition d_MessageAttributeValue : decoder MessageAttributeValue :=
  d_struct true (mkMessageAttributeValue "" None)
    [unread "BinaryListValues" (d_slice d_bytes); unread "BinaryValue" d_bytes;
     kept "DataType" d_string DataType (λ a x, mkMessageAttributeValue a (StringValue x));
     unread "StringListValues" d_strings;
     kept "StringValue" (d_ptr d_string) StringValue (λ a x, mkMessageAttributeValue (DataType x) a)].
Definition d_attributes : decoder MessageBodyAttributeMap := d_map (d_ptr d_MessageAttributeValue).

Definition d_SendMessage : decoder SendMessageRequest :=
  d_struct true (mkSendMessageRequest None None "" "")
    [kept "DelaySeconds" (d_ptr (d_int 32)) smi_DelaySeconds
       (λ a x, mkSendMessageRequest a (smi_MessageAttributes x) (smi_MessageBody x) (smi_QueueUrl x));
     kept "MessageAttributes" d_attributes smi_MessageAttributes
       (λ a x, mkSendMessageRequest (smi_DelaySeconds x) a (smi_MessageBody x) (smi_QueueUrl x));
     kept "MessageBody" d_string smi_MessageBody
       (λ a x, mkSendMessageRequest (smi_DelaySeconds x) (smi_MessageAttributes x) a (smi_QueueUrl x));
     unread "MessageDeduplicationId" (d_ptr d_string); unread "MessageGroupId" (d_ptr d_string);
     unread "MessageSystemAttributes" d_attributes;
     kept "QueueUrl" d_string smi_QueueUrl
       (λ a x, mkSendMessageRequest (smi_DelaySeconds x) (smi_MessageAttributes x) (smi_MessageBody x) a)].

Definition d_ReceiveMessage : decoder ReceiveMessageRequest :=
  d_struct true (mkReceiveMessageRequest None "" None None)
    [unread "AttributeNames" d_strings;
     kept "MaxNumberOfMessages" (d_ptr (d_int 32)) rmi_MaxNumberOfMessages
       (λ a x, mkReceiveMessageRequest a (rmi_QueueUrl x) (rmi_VisibilityTimeout x) (rmi_WaitTimeSeconds x));
     unread "MessageAttributeNames" d_strings; unread "MessageSystemAttributeNames" d_strings;
     kept "QueueUrl" d_string rmi_QueueUrl
       (λ a x, mkReceiveMessageRequest (rmi_MaxNumberOfMessages x) a (rmi_VisibilityTimeout x) (rmi_WaitTimeSeconds x));
     unread "ReceiveRequestAttemptId" (d_ptr d_string);
     kept "VisibilityTimeout" (d_ptr (d_int 32)) rmi_VisibilityTimeout
       (λ a x, mkReceiveMessageRequest (rmi_MaxNumberOfMessages x) (rmi_QueueUrl x) a (rmi_WaitTimeSeconds x));
     kept "WaitTimeSeconds" (d_ptr (d_int 32)) rmi_WaitTimeSeconds
       (λ a x, mkReceiveMessageRequest (rmi_MaxNumberOfMessages x) (rmi_QueueUrl x) (rmi_VisibilityTimeout x) a)].

Definition d_DeleteMessage : decoder DeleteMessageRequest :=
  d_struct true (mkDeleteMessageRequest "" "")
    [kept "QueueUrl" d_string dmi_QueueUrl (λ a x, mkDeleteMessageRequest a (dmi_ReceiptHandle x));
     kept "ReceiptHandle" d_string dmi_ReceiptHandle (λ a x, mkDeleteMessageRequest (dmi_QueueUrl x) a)].

Definition d_ChangeMessageVisibility : decoder ChangeMessageVisibilityRequest :=
  d_struct true (mkChangeMessageVisibilityRequest "" "" 0)
    [kept "QueueUrl" d_string cvi_QueueUrl (λ a x, mkChangeMessageVisibilityRequest a (cvi_ReceiptHandle x) (cvi_VisibilityTimeout x));
     kept "ReceiptHandle" d_string cvi_ReceiptHandle (λ a x, mkChangeMessageVisibilityRequest (cvi_QueueUrl x) a (cvi_VisibilityTimeout x));
     kept "VisibilityTimeout" (d_int 32) cvi_VisibilityTimeout (λ a x, mkChangeMessageVisibilityRequest (cvi_QueueUrl x) (cvi_ReceiptHandle x) a)].

Definition d_ListQueueTags : decoder ListQueueTagsRequest :=
  d_struct true (mkListQueueTagsRequest "") [kept "QueueUrl" d_string lti_QueueUrl (λ a _, mkListQueueTagsRequest a)].

Definition d_TagQueue : decoder TagQueueRequest :=
  d_struct true (mkTagQueueRequest "" None)
    [kept "QueueUrl" d_string tqi_QueueUrl (λ a x, mkTagQueueRequest a (tqi_Tags x));
     kept "Tags" d_string_map tqi_Tags (λ a x, mkTagQueueRequest (tqi_QueueUrl x) a)].

Definition d_UntagQueue : decoder UntagQueueRequest :=
  d_struct true (mkUntagQueueRequest "" [])
    [kept "QueueUrl" d_string uqi_QueueUrl (λ a x, mkUntagQueueRequest a (uqi_TagKeys x));
     kept "TagKeys" d_strings uqi_TagKeys (λ a x, mkUntagQueueRequest (uqi_QueueUrl x) a)].

Definition d_PurgeQueue : decoder PurgeQueueRequest :=
  d_struct true (mkPurgeQueueRequest "") [kept "QueueUrl" d_string pqi_QueueUrl (λ a _, mkPurgeQueueRequest a)].

Definition sqs_json (Err_text : string → string) : SqsJson := {|
  json_CreateQueue := json_request Err_text d_CreateQueue;
  json_DeleteQueue := json_request Err_text d_DeleteQueue;
  json_ListQueues := json_request Err_text d_ListQueues;
  json_GetQueueUrl := json_request Err_text d_GetQueueUrl;
  json_GetQueueAttributes := json_request Err_text d_GetQueueAttributes;
  json_SetQueueAttributes := json_request Err_text d_SetQueueAttributes;
  json_SendMessage := json_request Err_text d_SendMessage;
  json_ReceiveMessage := json_request Err_text d_ReceiveMessage;
  json_DeleteMessage := json_request Err_text d_DeleteMessage;
  json_ChangeMessageVisibility := json_request Err_text d_ChangeMessageVisibility;
  json_ListQueueTags := json_request Err_text d_ListQueueTags;
  json_TagQueue := json_request Err_text d_TagQueue;
  json_UntagQueue := json_request Err_text d_UntagQueue;
  json_PurgeQueue := json_request Err_text d_PurgeQueue |}.

(** ** What clients send *)

Definition attribute_json (a : MessageAttributeValue) : json :=
  JObj (j_pair "DataType" (DataType a) :: j_opt "StringValue" JStr (StringValue a)).
Definition SendMessage_json (i : SendMessageRequest) : json :=
  JObj ([j_pair "QueueUrl" (smi_QueueUrl i); j_pair "MessageBody" (smi_MessageBody i)] ++
    j_opt "DelaySeconds" j_int (smi_DelaySeconds i) ++
    j_opt "MessageAttributes" (λ m, JObj ((λ kv, (kv.1, from_option attribute_json JNull kv.2)) <$> map_to_list m))
      (smi_MessageAttributes i)).
Definition ReceiveMessage_json (i : ReceiveMessageRequest) : json :=
  JObj (j_pair "QueueUrl" (rmi_QueueUrl i) :: j_opt "MaxNumberOfMessages" j_int (rmi_MaxNumberOfMessages i) ++
    j_opt "VisibilityTimeout" j_int (rmi_VisibilityTimeout i) ++ j_opt "WaitTimeSeconds" j_int (rmi_WaitTimeSeconds i)).
Definition DeleteMessage_json (i : DeleteMessageRequest) : json :=
  JObj [j_pair "QueueUrl" (dmi_QueueUrl i); j_pair "ReceiptHandle" (dmi_ReceiptHandle i)].

(** A POST of an SQS client. *)
Definition sqs_post (o : sqs_op) (v : json) : Request :=
  let body := bytes_of_string (print v) in
  mkRequest "POST" "localhost" "" "/" "" "/" "" ∅ {["X-Amz-Target" := ["AmazonSQS." +:+ op_name o]]}
    (Z.of_nat (length body)) (Some (Reads body)).
