(* ===== verification/SqsProps.v ===== *)
(** * The SQS frontend: properties

    Which operation a request reaches; a session of sends, a receive and
    deletions over HTTP; every request is answered. *)

From Stdlib Require Import Ascii.
From S2P Require Import Prelude GoStrings GoBytes GoHttp GoJson GoJsonProps LongPoll Queue QueueProps QueueApi AwsJson AwsJsonProps Sqs.

(** ** Routes *)

Lemma sqs_names : NoDup (op_name <$> sqs_ops).
Proof. apply (bool_decide_unpack _). vm_compute. exact I. Qed.

Lemma op_name_inj o1 o2 : op_name o1 = op_name o2 → o1 = o2.
Proof. destruct o1, o2; intros E; try reflexivity; discriminate E. Qed.

Lemma sqs_route_known o : routes RegisterSQSRoutes !! op_name o = Some o.
Proof. unfold RegisterSQSRoutes. fold (registered op_name "AmazonSQS" sqs_ops). rewrite registered_lookup by apply sqs_names. by destruct o. Qed.

Lemma op_name_nonempty o : String.eqb (op_name o) "" = false.
Proof. by destruct o. Qed.

(** A request of an SQS client for an operation. *)
Definition sqs_request (r : Request) (op : string) : Prop := calls "AmazonSQS" op r.

Lemma route_request {X} r o : sqs_request r (op_name o) → route (X := X) RegisterSQSRoutes r = inr o.
Proof. apply (route_registered op_name); [done|done|apply op_name_nonempty|apply sqs_route_known]. Qed.

Lemma route_inv {X} r o : route (X := X) RegisterSQSRoutes r = inr o → sqs_request r (op_name o).
Proof. apply (route_registered_inv op_name). apply sqs_names. Qed.

(** A request whose body decodes to a value. *)
Definition carries {T} `{JsonRequest T} (r : Request) (o : sqs_op) (i : T) : Prop :=
  sqs_request r (op_name o) ∧ decodes_to r i.

Lemma serve_carries `{SqsJson} Quote (d : Draws Backend) {T} `{JsonRequest T} r o (i : T) (b : Backend) :
  carries r o i → Sqs_ServeHTTP Quote d r b = handle Quote d o r b.
Proof. intros [Hr _]. unfold Sqs_ServeHTTP, ServeHTTP. by rewrite (route_request r o Hr). Qed.

(** ** JSON bodies *)

Definition valid_attribute (a : option MessageAttributeValue) : Prop :=
  from_option (λ a, valid_utf8 (DataType a) ∧ from_option valid_utf8 True (StringValue a)) True a.
Definition valid_send (i : SendMessageRequest) : Prop :=
  valid_utf8 (smi_QueueUrl i) ∧ valid_utf8 (smi_MessageBody i) ∧ j_valid_int (smi_DelaySeconds i) ∧
  map_Forall (λ k a, valid_utf8 k ∧ valid_attribute a) (default ∅ (smi_MessageAttributes i)).
Definition valid_receive (i : ReceiveMessageRequest) : Prop :=
  valid_utf8 (rmi_QueueUrl i) ∧ j_valid_int (rmi_MaxNumberOfMessages i) ∧ j_valid_int (rmi_VisibilityTimeout i) ∧
  j_valid_int (rmi_WaitTimeSeconds i).
Definition valid_delete (i : DeleteMessageRequest) : Prop := valid_utf8 (dmi_QueueUrl i) ∧ valid_utf8 (dmi_ReceiptHandle i).

Lemma attribute_decodes a : decode_value (d_ptr d_MessageAttributeValue) (from_option attribute_json JNull a) None = (a, true).
Proof. by destruct a as [[ty [v|]]|]. Qed.

Lemma send_decodes i : valid_send i → decode_fresh d_SendMessage (Some (SendMessage_json i)) = Some i.
Proof.
  destruct i as [ds attrs body url]. intros (_ & _ & Hd & _). unfold SendMessage_json.
  cbn [smi_QueueUrl smi_MessageBody smi_DelaySeconds smi_MessageAttributes] in *. unfold decode_fresh.
  assert (∀ m, decode_entries (d_ptr d_MessageAttributeValue)
    ((λ kv, (kv.1, from_option attribute_json JNull kv.2)) <$> map_to_list m) ∅ = (m, true)) as Hm.
  { intros m. apply decode_entries_map. intros k a _. apply attribute_decodes. }
  unfold j_valid_int in Hd. destruct ds as [n|], attrs as [m|]; cbn [from_option j_opt app] in *; cbn -[decode_entries ParseInt10 Itoa];
    rewrite ?ParseInt10_Itoa by done; unfold decode_member; cbn -[decode_entries ParseInt10 Itoa]; rewrite ?Hm; done.
Qed.

Lemma receive_decodes i : valid_receive i → decode_fresh d_ReceiveMessage (Some (ReceiveMessage_json i)) = Some i.
Proof.
  destruct i as [mx url vis w]. intros (_ & H1 & H2 & H3). unfold ReceiveMessage_json, decode_fresh, j_valid_int in *.
  cbn [rmi_QueueUrl rmi_MaxNumberOfMessages rmi_VisibilityTimeout rmi_WaitTimeSeconds] in *.
  destruct mx, vis, w; cbn [from_option j_opt app] in *;
    do 3 (unfold decode_member; cbn -[ParseInt10 Itoa]; rewrite ?ParseInt10_Itoa by done); done.
Qed.

Lemma delete_decodes i : decode_fresh d_DeleteMessage (Some (DeleteMessage_json i)) = Some i.
Proof. by destruct i. Qed.

Lemma send_printable i : valid_send i → printable (SendMessage_json i) ∧ (height (SendMessage_json i) <= 3)%nat.
Proof.
  intros (Hu & Hb & Hd & Ha). unfold SendMessage_json. apply j_printable.
  apply Forall_app. split; [|apply Forall_app; split].
  - repeat constructor; try (by apply ascii_valid_utf8); done || (cbn; lia).
  - unfold j_valid_int in Hd. destruct (smi_DelaySeconds i); [|constructor]. cbn [j_opt]. constructor; [|constructor].
    split; [split; [by apply ascii_valid_utf8|apply Itoa_number]|cbn; lia].
  - destruct (smi_MessageAttributes i) as [m|]; [|constructor]. cbn [j_opt default] in *. constructor; [|constructor].
    assert (Forall (λ kv : string * json, (valid_utf8 kv.1 ∧ printable kv.2) ∧ (height kv.2 <= 1)%nat)
      ((λ kv, (kv.1, from_option attribute_json JNull kv.2)) <$> map_to_list m)) as Hm.
    { apply Forall_fmap, Forall_forall. intros [k a] Hk%elem_of_map_to_list. apply Ha in Hk as [Hk Hv].
      destruct a as [[ty v]|]; [|by repeat split; cbn; try lia]. destruct Hv as [Ht Hv]. cbn in Ht, Hv. split; [split; [done|]|].
      - cbn. split; [split; [by apply ascii_valid_utf8|done]|]. destruct v; [|done]. cbn. by repeat split; [apply ascii_valid_utf8|].
      - destruct v; cbn; lia. }
    split; [split; [by apply ascii_valid_utf8|]|]; cbn [fst snd].
    + rewrite printable_obj. eapply Forall_impl; [exact Hm|]. by intros ? [? _].
    + cbn [height]. apply le_n_S. clear -Hm. induction Hm as [|kv l [_ H] _ IH]; [cbn; lia|].
      change (max_list ((λ kv, height kv.2) <$> kv :: l)) with (height kv.2 `max` max_list ((λ kv, height kv.2) <$> l))%nat. lia.
Qed.

Lemma receive_printable i : valid_receive i → printable (ReceiveMessage_json i) ∧ (height (ReceiveMessage_json i) <= 3)%nat.
Proof.
  intros (Hu & H1 & H2 & H3). unfold ReceiveMessage_json. apply j_printable.
  assert (∀ k n, valid_utf8 k → Forall (λ kv : string * json, (valid_utf8 kv.1 ∧ printable kv.2) ∧ (height kv.2 <= 2)%nat)
    (j_opt k j_int n)) as Hn.
  { intros k [n|] Hk; [|constructor]. constructor; [|constructor]. split; [split; [done|apply Itoa_number]|cbn; lia]. }
  constructor; [split; [split; [by apply ascii_valid_utf8|done]|cbn; lia]|].
  apply Forall_app. split; [by apply Hn, ascii_valid_utf8|]. apply Forall_app. split; by apply Hn, ascii_valid_utf8.
Qed.

Lemma delete_printable i : valid_delete i → printable (DeleteMessage_json i) ∧ (height (DeleteMessage_json i) <= 3)%nat.
Proof.
  intros [H1 H2]. unfold DeleteMessage_json. apply j_printable.
  repeat constructor; try (by apply ascii_valid_utf8); done || (cbn; lia).
Qed.

Lemma post_carries Err {T} (d : decoder T) o l i :
  printable (JObj l) → (height (JObj l) <= 3)%nat → decode_fresh d (Some (JObj l)) = Some i →
  @carries T (json_request Err d) (sqs_post o (JObj l)) o i.
Proof.
  intros Hp Hh Hd. split; [split; [done|]; by destruct o|].
  eapply has_body_decodes; [by split|done|by apply small_body|done|done].
Qed.

(** ** Queue URLs *)

Lemma normalise_fake name : str_mem "/" name = false → normaliseQueueURL (fakeQueueURL name) = name.
Proof.
  intros Hn. unfold normaliseQueueURL, fakeQueueURL.
  change ("https://sqs.shim.amazonaws.com/000000000000/" +:+ name) with
    ("https://sqs.shim.amazonaws.com/000000000000" +:+ String "/" name).
  by rewrite LastIndexByte_app, str_drop_sep.
Qed.

Lemma fakeQueueURL_nonempty name : String.eqb (fakeQueueURL name) "" = false.
Proof. done. Qed.

(** ** A session *)

Lemma sqs_deleted_lookup (f : gmap string messageState) hs h :
  fold_left (λ f h, delete h f) hs f !! h = if bool_decide (h ∈ hs) then None else f !! h.
Proof.
  revert f. induction hs as [|h' hs IH]; intros f; [done|]. cbn [fold_left]. rewrite IH.
  repeat case_bool_decide; try done; try set_solver.
  - destruct (decide (h' = h)) as [->|]; [apply lookup_delete_eq|set_solver].
  - apply lookup_delete_ne. set_solver.
Qed.

Section session.
Context `{SqsJson} (Quote : string → string) (name : string) (Hname : str_mem "/" name = false).
Abbreviation url := (fakeQueueURL name).
Implicit Types (b : Backend) (d : draws).

Definition sqs_serve (d : draws) (r : Request) (b : Backend) : option (Backend * option (Response (payload output))) :=
  Sqs_ServeHTTP Quote (d : Draws Backend) r b.

(** A message as the client sends it: the draws of the call, the request and
    what it carries. *)
Record sent := mkSent { s_draws : draws; s_request : Request; s_body : string; s_attrs : MessageBodyAttributeMap }.
Definition send_input (m : sent) : SendMessageRequest := mkSendMessageRequest None (s_attrs m) (s_body m) url.
Definition sent_id (m : sent) : string := newID (d_rnd (s_draws m) O).
Definition sent_state (m : sent) : messageState :=
  mkMessageState (sent_id m) (Some (bytes_of_string (s_body m))) (messageAttrsFromAWS (s_attrs m))
    (d_now (s_draws m)) (d_now (s_draws m)) 0 "" zeroTime.

Definition sendable (a : QueueAttributes) (m : sent) : Prop :=
  carries (s_request m) SendMessageHandler (send_input m) ∧ s_body m ≠ "" ∧
  (MaxMessageSizeBytes a <= 0 ∨ Z.of_nat (length (bytes_of_string (s_body m))) <= MaxMessageSizeBytes a).

Fixpoint sqs_send_all (ms : list sent) (b : Backend) : option (Backend * list string) :=
  match ms with
  | [] => Some (b, [])
  | m :: ms =>
      match sqs_serve (s_draws m) (s_request m) b with
      | Some (b, Some (mkResponse 200 _ (Json (SendMessageOutput id)))) =>
          (λ x : Backend * list string, (x.1, id :: x.2)) <$> sqs_send_all ms b
      | _ => None
      end
  end.

(** [q] is in state [s], and the other queues are those of [b0]. *)
Definition only_queue (b0 b : Backend) (s : queueState) : Prop :=
  queues b !! name = Some s ∧ ∀ n, n ≠ name → queues b !! n = queues b0 !! n.

Lemma only_set b0 b s s' : only_queue b0 b s → only_queue b0 (set_queue b name s') s'.
Proof.
  intros [H1 H2]. split; [apply lookup_insert_eq|]. intros n Hn. cbn. rewrite lookup_insert_ne by done. auto.
Qed.

Lemma send_one m b0 b s :
  sendable (q_attributes s) m → DelaySeconds (q_attributes s) = 0 → only_queue b0 b s →
  ∃ b', sqs_serve (s_draws m) (s_request m) b = Some (b', Some (WriteJSON ∅ 200 (SendMessageOutput (sent_id m)))) ∧
    only_queue b0 b' (set_messages s (pending s ++ [sent_state m]) (inflight s)).
Proof.
  intros (Hc & Hbody & Hsize) Hd Hq. unfold sqs_serve.
  rewrite (serve_carries Quote _ _ _ _ _ Hc). cbn [handle].
  rewrite (json_handler_decodes _ _ _ _ _ (proj2 Hc)); cycle 1.
  { cbn [first_missing smi_MessageBody smi_QueueUrl send_input]. apply String.eqb_neq in Hbody. by rewrite Hbody. }
  unfold returns, Adapter_SendMessage, call. cbn [smi_QueueUrl smi_MessageBody smi_MessageAttributes smi_DelaySeconds
    send_input q_SendMessage inmem_queues]. rewrite normalise_fake by done. unfold SendMessage.
  destruct Hq as [Hq Ho]. rewrite Hq. cbn [sm_Body sm_Attributes sm_DelaySeconds slice_len default].
  assert ((0 <? MaxMessageSizeBytes (q_attributes s)) &&
    (MaxMessageSizeBytes (q_attributes s) <? slice_len (Some (bytes_of_string (s_body m)))) = false) as ->.
  { unfold slice_len. cbn [default]. change (Datatypes.id ?x) with x. destruct Hsize; lia. }
  cbn [fst snd smr_MessageID id]. rewrite Hd. eexists. split; [reflexivity|].
  rewrite copyBytes_id, copyStrMap_id.
  match goal with |- context [seconds ?x] => change (seconds x) with 0 end. rewrite Z.add_0_r.
  by eapply only_set.
Qed.

Lemma send_all_spec ms b0 b s :
  Forall (sendable (q_attributes s)) ms → DelaySeconds (q_attributes s) = 0 → only_queue b0 b s →
  ∃ b', sqs_send_all ms b = Some (b', sent_id <$> ms) ∧
    only_queue b0 b' (set_messages s (pending s ++ (sent_state <$> ms)) (inflight s)).
Proof.
  intros Hms Hd. revert b s Hms Hd. induction ms as [|m ms IH]; intros b s Hms Hd Hq.
  { exists b. split; [done|]. rewrite fmap_nil, app_nil_r. by destruct s. }
  apply Forall_cons in Hms as [Hm Hms].
  destruct (send_one m b0 b s Hm Hd Hq) as (b1 & E1 & Hq1).
  destruct (IH b1 (set_messages s (pending s ++ [sent_state m]) (inflight s)) Hms Hd Hq1) as (b2 & E2 & Hq2).
  exists b2. cbn [sqs_send_all]. rewrite E1. unfold WriteJSON. rewrite E2. split; [done|].
  cbn [pending set_messages inflight] in Hq2. by rewrite <-(assoc_L (++)) in Hq2.
Qed.

Lemma reclaim_none now order s : inflight s = ∅ → reclaimInflight now order s = s.
Proof.
  intros Hf. induction order as [|h order IH]; [done|]. cbn [reclaimInflight]. by rewrite Hf, lookup_empty.
Qed.

(** The deletions of a client, one request each. *)
Fixpoint sqs_delete_all (d : draws) (del : string → Request) (hs : list string) (b : Backend) : option Backend :=
  match hs with
  | [] => Some b
  | h :: hs =>
      match sqs_serve d (del h) b with
      | Some (b, Some (mkResponse 200 _ (Json Void))) => sqs_delete_all d del hs b
      | _ => None
      end
  end.

Lemma delete_all_spec d del hs b0 b s :
  (∀ h, h ∈ hs → carries (del h) DeleteMessageHandler (mkDeleteMessageRequest url h) ∧ h ≠ "" ∧
     is_Some (inflight s !! h)) →
  NoDup hs → only_queue b0 b s →
  ∃ b', sqs_delete_all d del hs b = Some b' ∧
    only_queue b0 b' (set_messages s (pending s) (fold_left (λ f h, delete h f) hs (inflight s))).
Proof.
  revert b s. induction hs as [|h hs IH]; intros b s Hh Hnd Hq.
  { exists b. split; [done|]. by destruct s. }
  apply NoDup_cons in Hnd as [Hni Hnd].
  destruct (Hh h ltac:(left)) as (Hc & Hne & [m Hm]). cbn [sqs_delete_all]. unfold sqs_serve at 1.
  rewrite (serve_carries Quote _ _ _ _ _ Hc). cbn [handle].
  rewrite (json_handler_decodes _ _ _ _ _ (proj2 Hc)); cycle 1.
  { cbn [first_missing dmi_QueueUrl dmi_ReceiptHandle]. apply String.eqb_neq in Hne. by rewrite Hne. }
  unfold returns, Adapter_DeleteMessage, call. cbn [dmi_QueueUrl dmi_ReceiptHandle q_DeleteMessage inmem_queues].
  rewrite normalise_fake by done. unfold DeleteMessage. rewrite (proj1 Hq), Hm. cbn [fst snd].
  destruct (IH (set_queue b name (set_messages s (pending s) (delete h (inflight s))))
    (set_messages s (pending s) (delete h (inflight s)))) as (b' & E & Hq').
  - intros h' Hin. destruct (Hh h' ltac:(by right)) as (? & ? & ?). split_and!; [done..|].
    cbn. rewrite lookup_delete_ne; [done|]. intros ->. done.
  - done.
  - by eapply only_set.
  - exists b'. split; [exact E|exact Hq'].
Qed.

(** ** The receive of a session *)

Lemma newID_nonempty rnd : rnd ≠ [] → newID rnd ≠ "".
Proof. by destruct rnd. Qed.

Lemma handles_lookup rnd n j : (j < n)%nat → handles rnd 0 n !! j = Some (newID (rnd j)).
Proof. intros Hj. unfold handles. by rewrite list_lookup_fmap, lookup_seq_lt. Qed.

Lemma sent_sorted ms :
  StronglySorted (λ m1 m2, d_now (s_draws m1) <= d_now (s_draws m2)) ms →
  StronglySorted (le_by enqueued_less) (sent_state <$> ms).
Proof.
  induction 1 as [|m ms Hs IH Hm]; [constructor|]. rewrite fmap_cons. constructor; [done|].
  apply Forall_fmap. eapply Forall_impl; [exact Hm|]. intros m' Hle. unfold le_by, enqueued_less. by apply Z.ltb_ge.
Qed.

Lemma all_visible now ms :
  Forall (λ m, d_now (s_draws m) <= now) ms → filter (visible now) (sent_state <$> ms) = sent_state <$> ms.
Proof.
  induction 1 as [|m ms Hm _ IH]; [done|]. rewrite fmap_cons, filter_cons, decide_True, IH; [done|].
  exact Hm.
Qed.

(** What is received for a message that was sent. *)
Definition arrived (m : sent) (o : MessageOut) : Prop :=
  mo_MessageId o = sent_id m ∧ mo_Body o = s_body m ∧
  default ∅ (mo_Attributes o) !! "ApproximateReceiveCount" = Some "1" ∧
  ∀ k ty v, default ∅ (s_attrs m) !! k = Some (Some (mkMessageAttributeValue ty (Some v))) →
    default ∅ (mo_MessageAttributes o) !! k = Some (Some (mkMessageAttributeValue "String" (Some v))).

Lemma arrived_message now h v m : arrived m (message_out (message_of now (deliver now h v (sent_state m)))).
Proof.
  unfold arrived, message_out. cbn [mo_MessageId mo_Body mo_Attributes mo_MessageAttributes message_of deliver
    MessageID Message_Body Message_Attributes sent_state Queue.id body attributes]. rewrite copyBytes_id, copyStrMap_id.
  split_and!.
  - done.
  - apply string_of_bytes_of_string.
  - unfold sqsSystemAttributes. cbn [DeliveryCount message_of deliver deliveryCount ReceivedAt].
    change (0 <? wrap_s 64 (0 + 1)) with true. cbn [ReceivedAt message_of].
    change (wrap_s 64 (0 + 1)) with 1. destruct (now =? zeroTime).
    + done.
    + rewrite decide_False by (apply insert_non_empty). cbn [default]. change (Datatypes.id ?x) with x. by rewrite lookup_insert_ne.
  - intros k ty w Hk. assert (∃ m', messageAttrsFromAWS (s_attrs m) = Some m' ∧ m' !! k = Some w) as (m' & -> & Hm).
    { unfold messageAttrsFromAWS. rewrite decide_False by (intros E; by rewrite E in Hk).
      eexists. split; [reflexivity|]. by rewrite lookup_omap, Hk. }
    unfold messageAttrsToAWS. cbn [default]. change (Datatypes.id ?x) with x.
    rewrite decide_False by (intros E; by rewrite E in Hm). cbn [default].
    change (Datatypes.id ?x) with x. by rewrite lookup_fmap, Hm.
Qed.

Lemma receive_spec d recv i ms b0 b s :
  carries recv ReceiveMessageHandler i → rmi_QueueUrl i = url → ms ≠ [] →
  Z.of_nat (length ms) <= batch_size (default 0 (rmi_MaxNumberOfMessages i)) →
  pending s = sent_state <$> ms → inflight s = ∅ →
  StronglySorted (λ m1 m2, d_now (s_draws m1) <= d_now (s_draws m2)) ms →
  Forall (λ m, d_now (s_draws m) <= tk_now (d_env d O)) ms → (0 < d_fuel d)%nat →
  NoDup (handles (tk_rnd (d_env d O)) 0 10) → only_queue b0 b s →
  ∃ b' outs f, sqs_serve d recv b = Some (b', Some (WriteJSON ∅ 200 (ReceiveMessageResult outs))) ∧
    Forall2 arrived ms outs ∧ mo_ReceiptHandle <$> outs = handles (tk_rnd (d_env d O)) 0 (length ms) ∧
    only_queue b0 b' (set_messages s [] f) ∧
    ∀ h, is_Some (f !! h) ↔ h ∈ handles (tk_rnd (d_env d O)) 0 (length ms).
Proof.
  intros Hc Hu Hne Hmax Hp Hf Hs Hv Hfuel Hnd Hq. set (t := d_env d O) in *. unfold sqs_serve.
  rewrite (serve_carries Quote _ _ _ _ _ Hc). cbn [handle].
  rewrite (json_handler_decodes _ _ _ _ _ (proj2 Hc)) by (cbn [first_missing]; by rewrite Hu).
  unfold Adapter_ReceiveMessage. rewrite Hu, normalise_fake by done.
  set (opt := mkReceiveMessagesOptions _ _ _). cbn [q_ReceiveMessages inmem_queues].
  unfold ReceiveMessages, receive_loop. destruct (d_fuel d) as [|fuel]; [lia|]. cbn [poll]. fold t.
  destruct (tryReceive_spec (tk_now t) (tk_order t) (tk_rnd t) name opt b s (proj1 Hq))
    as (rest & f & E & Hperm & _ & Hvals & Hin & Hout).
  { rewrite Hf. by split. }
  rewrite (reclaim_none _ _ s Hf), Hp in *. rewrite (sort_by_sorted_id _ _ (sent_sorted ms Hs)), all_visible in * by done.
  assert (length (sent_state <$> ms) <= Z.to_nat (batch_size (rm_MaxMessages opt)))%nat as Hle.
  { rewrite length_fmap. unfold opt. cbn [rm_MaxMessages]. lia. }
  rewrite take_ge in * by exact Hle.
  assert (rest = []) as ->.
  { apply length_zero_iff_nil. apply Permutation_length in Hperm. rewrite length_app in Hperm. lia. }
  rewrite E. set (out := delivered _ _ _ _ _) in *.
  assert (length out = length ms) as Hlen by (unfold out, delivered; by rewrite length_imap, length_fmap).
  assert ((0 <? Z.of_nat (length (message_of (tk_now t) <$> out))) = true) as ->.
  { apply Z.ltb_lt. rewrite length_fmap, Hlen. destruct ms; [done|]. simpl. lia. }
  cbn [orb fmap option_fmap option_map call fst snd].
  exists (set_queue b name (set_messages s [] f)), (message_out <$> (message_of (tk_now t) <$> out)), f.
  split; [reflexivity|].
  assert (receiptHandle <$> out = handles (tk_rnd t) 0 (length ms)) as Hhs.
  { unfold out. by rewrite handles_delivered, length_fmap. }
  split_and!.
  - apply Forall2_fmap_r, Forall2_fmap_r, Forall2_same_length_lookup_2; [done|].
    intros j m o Hm Ho. unfold out, delivered in Ho. rewrite list_lookup_imap, list_lookup_fmap, Hm in Ho.
    injection Ho as <-. apply arrived_message.
  - rewrite <-Hhs, <-!list_fmap_compose. done.
  - by eapply only_set.
  - intros h. rewrite <-Hhs. split.
    + intros Hsome. destruct (decide (h ∈ handles (tk_rnd t) 0 (length ms))) as [|Hni]; [by rewrite Hhs|].
      rewrite Hout, Hf, lookup_empty in Hsome by (by rewrite length_fmap). by destruct Hsome.
    + intros (m & -> & Hm)%list_elem_of_fmap. rewrite Hin by done. eauto.
Qed.
End session.

(** ** Answers *)

(** A call of the in-process backend that fails or reads leaves it alone. *)
Lemma call_answered {A} Quote b (c : Backend * result A) (k : A → api output) (o : op) :
  silent c = run o b → (∀ a, ∃ out, k a = Ok out) →
  let r := call Quote c k in r.2 ≠ Panic ∧ (is_err r.2 = true → r.1 = b).
Proof.
  intros Ho Hk. pose proof (queue_run_no_panic o b) as Hp. pose proof (queue_run_err_same o b) as He.
  rewrite <-Ho in Hp, He. destruct c as [b' r]. unfold silent, call in *. cbn [fst snd] in *.
  destruct r as [a|e|]; [|split; [done|intros _; by eapply He]|done].
  destruct (Hk a) as [out ->]. by split.
Qed.

Definition answers {A} (b : Backend) (x : Backend * api A) : Prop := x.2 ≠ Panic ∧ (is_err x.2 = true → x.1 = b).

Lemma create_answered Quote (d : draws) i b : answers b (Adapter_CreateQueue Quote (d : Draws Backend) i b).
Proof.
  unfold Adapter_CreateQueue, answers. destruct (String.eqb _ _); [done|].
  cbn [q_CreateQueue q_TagQueue q_DeleteQueue inmem_queues]. unfold CreateQueue.
  destruct (String.eqb _ _); [done|]. destruct (queues b !! _); [done|]. cbn [fst snd].
  destruct (decide _); [done|]. unfold TagQueue. cbn [queues set_queue]. by rewrite lookup_insert_eq.
Qed.

(** A written error is one. *)
Lemma sqs_error_status {X} Quote (e : error) :
  400 <= Status (WriteBackendError (X := X) ∅ (mapDomainErr Quote e)).
Proof. destruct e as [|[] ? ? ?]; cbn; lia. Qed.

(** What is promised of an answer: it is there, and an error leaves the
    backend alone. *)
Definition served_well (b : Backend) (x : answered Backend output) : Prop :=
  ∃ b' resp, x = Some (b', Some resp) ∧ (400 <= Status resp → b' = b).

Lemma handler_answered `{SqsJson} {T} `{JsonRequest T} (required : T → list (string * string))
    (op : T → Backend → Backend * api output) r b :
  (∀ i, answers b (op i b)) → served_well b (json_handler required (returns op) r b).
Proof.
  intros Hop. unfold json_handler, served_well.
  destruct (DecodeJSON r) as [resp|i]; [by exists b, resp|].
  destruct (first_missing _); [by eexists b, _|]. unfold returns.
  destruct (Hop i) as [Hp He]. destruct (op i b) as [b' [out|e|]]; cbn [fst snd] in *; [| |done].
  - eexists b', _. split; [reflexivity|]. cbn. lia.
  - rewrite (He eq_refl). by eexists b, _.
Qed.

Lemma sqs_handle_answered `{SqsJson} Quote (d : draws) o r b :
  o ≠ ReceiveMessageHandler → served_well b (handle Quote (d : Draws Backend) o r b).
Proof.
  intros Ho.
  assert (∀ A (c : Backend * result A) (k : A → api output) o, silent c = run o b → (∀ a, ∃ out, k a = Ok out) →
    answers b (call Quote c k)) as Hcall by (intros; by eapply call_answered).
  assert (∀ e, answers b ((b, Err e) : Backend * api output)) as Herr by done.
  destruct o; try done; cbn [handle]; apply handler_answered; intros i.
  - apply create_answered.
  - unfold Adapter_DeleteQueue. destruct (String.eqb _ _); [done|].
    by eapply Hcall with (o := OpDeleteQueue _); eauto.
  - eapply Hcall with (o := OpListQueues (mkListQueuesOptions "" 0 "")); eauto.
  - unfold Adapter_GetQueueUrl. destruct (String.eqb _ _); [done|].
    eapply Hcall with (o := OpHeadQueue _ _ _); [reflexivity|eauto].
  - eapply Hcall with (o := OpHeadQueue _ _ _); [reflexivity|eauto].
  - unfold Adapter_SetQueueAttributes. destruct (String.eqb _ _); [done|].
    eapply Hcall with (o := OpSetQueueAttributes _ _); [reflexivity|eauto].
  - eapply Hcall with (o := OpSendMessage _ _ _ _); [reflexivity|eauto].
  - eapply Hcall with (o := OpDeleteMessage _ _); [reflexivity|eauto].
  - eapply Hcall with (o := OpChangeVisibility _ _ _ _); [reflexivity|eauto].
  - eapply Hcall with (o := OpListQueueTags _); [reflexivity|eauto].
  - eapply Hcall with (o := OpTagQueue _ _); [reflexivity|eauto].
  - eapply Hcall with (o := OpUntagQueue _ _); [reflexivity|eauto].
  - apply Herr.
Qed.

(** ** Properties *)

(** A message that a client sends, and what its JSON can carry and the queue
    accepts. *)
Record message_to_send := mkMessage { ms_draws : draws; ms_body : string; ms_attrs : MessageBodyAttributeMap }.
Definition client_sends (url : string) (m : message_to_send) : sent :=
  mkSent (ms_draws m)
    (sqs_post SendMessageHandler (SendMessage_json (mkSendMessageRequest None (ms_attrs m) (ms_body m) url)))
    (ms_body m) (ms_attrs m).
Definition client_deletes (url handle : string) : Request :=
  sqs_post DeleteMessageHandler (DeleteMessage_json (mkDeleteMessageRequest url handle)).
Definition accepted (a : QueueAttributes) (m : message_to_send) : Prop :=
  valid_utf8 (ms_body m) ∧ map_Forall (λ k a, valid_utf8 k ∧ valid_attribute a) (default ∅ (ms_attrs m)) ∧
  ms_body m ≠ "" ∧
  (MaxMessageSizeBytes a <= 0 ∨ Z.of_nat (length (bytes_of_string (ms_body m))) <= MaxMessageSizeBytes a).

Lemma url_valid name : valid_utf8 name → valid_utf8 (fakeQueueURL name).
Proof. intros Hn. apply valid_app; [by apply ascii_valid_utf8|done]. Qed.

Lemma newID_valid rnd : valid_utf8 (newID rnd).
Proof. apply hex_valid_utf8. Qed.

Lemma client_sendable Err_text name a m :
  valid_utf8 (fakeQueueURL name) → accepted a m →
  @sendable (sqs_json Err_text) name a (client_sends (fakeQueueURL name) m).
Proof.
  intros Hu (Hb & Hattrs & Hne & Hsize). split; [|by split].
  assert (valid_send (mkSendMessageRequest None (ms_attrs m) (ms_body m) (fakeQueueURL name))) as Hv by by split_and!.
  destruct (send_printable _ Hv). by apply post_carries; [| |apply send_decodes].
Qed.

(** The same for any JSON, before the requests are known. *)
Lemma session_spec `{SqsJson} (Quote : string → string) (b : Backend) (name : string) (s : queueState)
    (ms : list sent) (d : draws) (recv : Request) (i : ReceiveMessageRequest) (del : string → Request) :
  str_mem "/" name = false → queues b !! name = Some s → pending s = [] → inflight s = ∅ →
  DelaySeconds (q_attributes s) = 0 →
  ms ≠ [] → Forall (sendable name (q_attributes s)) ms →
  StronglySorted (λ m1 m2, d_now (s_draws m1) <= d_now (s_draws m2)) ms →
  Forall (λ m, d_now (s_draws m) <= tk_now (d_env d O)) ms →
  carries recv ReceiveMessageHandler i → rmi_QueueUrl i = fakeQueueURL name →
  Z.of_nat (length ms) <= batch_size (default 0 (rmi_MaxNumberOfMessages i)) → (0 < d_fuel d)%nat →
  NoDup (handles (tk_rnd (d_env d O)) 0 10) → (∀ j, tk_rnd (d_env d O) j ≠ []) →
  (∀ j, let h := newID (tk_rnd (d_env d O) j) in
     carries (del h) DeleteMessageHandler (mkDeleteMessageRequest (fakeQueueURL name) h)) →
  ∃ b1 b2 b3 outs s3,
    sqs_send_all Quote ms b = Some (b1, sent_id <$> ms) ∧
    sqs_serve Quote d recv b1 = Some (b2, Some (WriteJSON ∅ 200 (ReceiveMessageResult outs))) ∧
    Forall2 arrived ms outs ∧
    sqs_delete_all Quote d del (mo_ReceiptHandle <$> outs) b2 = Some b3 ∧
    queues b3 !! name = Some s3 ∧ msgs s3 = [] ∧ ∀ n, n ≠ name → queues b3 !! n = queues b !! n.
Proof.
  intros Hn Hs Hp Hf Hd Hne Hms Hsort Hvis Hc Hu Hmax Hfuel Hnd Hrnd Hdel.
  assert (only_queue name b b s) as Hq by by split.
  destruct (send_all_spec Quote name Hn ms b b s Hms Hd Hq) as (b1 & E1 & Hq1).
  rewrite Hp, app_nil_l in Hq1.
  destruct (receive_spec Quote name Hn d recv i ms b b1 (set_messages s (sent_state <$> ms) (inflight s)) Hc Hu Hne Hmax eq_refl Hf Hsort Hvis Hfuel Hnd Hq1)
    as (b2 & outs & f & E2 & Harr & Hhs & Hq2 & Hdom).
  assert (length ms <= 10)%nat as Hlen by (pose proof (batch_size_range (default 0 (rmi_MaxNumberOfMessages i))); lia).
  destruct (fresh_handles_sub (tk_rnd (d_env d O)) ∅ ∅ (length ms)) as [Hnd' _]; [by split|done|done|].
  destruct (delete_all_spec Quote name Hn d del (mo_ReceiptHandle <$> outs) b b2
    ( set_messages (set_messages s (sent_state <$> ms) (inflight s)) [] f)) as (b3 & E3 & Hq3).
  - intros h Hh. rewrite Hhs in Hh. apply Hdom in Hh as Hsome. unfold handles in Hh.
    apply list_elem_of_fmap in Hh as (j & -> & _). split_and!; [apply Hdel|by apply newID_nonempty|done].
  - by rewrite Hhs.
  - exact Hq2.
  - exists b1, b2, b3, outs. eexists. split_and!; [done..|exact (proj1 Hq3)| |exact (proj2 Hq3)].
    unfold msgs. cbn [pending inflight set_messages]. rewrite app_nil_l.
    assert (fold_left (λ f h, delete h f) (mo_ReceiptHandle <$> outs) f = ∅) as ->; [|by rewrite map_to_list_empty].
    apply map_eq. intros h. rewrite sqs_deleted_lookup, lookup_empty, Hhs. case_bool_decide as Hin; [done|].
    apply eq_None_not_Some. by rewrite Hdom.
Qed.

(** Requests reach exactly the operation that X-Amz-Target names: a request
    is handed to the handler of an operation if and only if it is a POST with
    the target AmazonSQS.<operation>; any other request is refused with an
    error and nothing changes. *)
Theorem sqs_requests_dispatched `{SqsJson} (Quote : string → string) (d : draws) (r : Request) (b : Backend) :
  (∀ o, sqs_request r (op_name o) ↔ route (X := output) RegisterSQSRoutes r = inr o) ∧
  (∀ o, sqs_request r (op_name o) → Sqs_ServeHTTP Quote (d : Draws Backend) r b = handle Quote (d : Draws Backend) o r b) ∧
  ((∀ o, ¬ sqs_request r (op_name o)) →
   ∃ resp, Sqs_ServeHTTP Quote (d : Draws Backend) r b = Some (b, Some resp) ∧ 400 <= Status resp).
Proof.
  split_and!.
  - intros o. split; [apply route_request|apply route_inv].
  - intros o Hr. unfold Sqs_ServeHTTP, ServeHTTP. by rewrite (route_request r o Hr).
  - intros Hno. unfold Sqs_ServeHTTP, ServeHTTP.
    destruct (route RegisterSQSRoutes r) as [resp|o] eqn:E; [|by apply route_inv, Hno in E].
    exists resp. split; [done|]. revert E. unfold route. repeat case_match; intros [= <-]; cbn; lia.
Qed.

(** C14: A session of an SQS client over HTTP, down to the JSON bodies.  The
    client sends messages to an empty queue without delay, one POST each,
    receives once with a batch that is large enough, and deletes what it got
    under the receipt handles it was given; the bodies are the JSON texts of the
    requests, with any attributes and any text of valid UTF-8.  Every request is
    answered 200; the receive returns the messages in the order they were sent,
    each with the identifier its send returned, the same body, every string
    attribute (as a String, whatever its type was) and a receive count of 1;
    afterwards the queue is empty and the other queues are as they were. *)
Theorem sqs_session (Quote Err_text : string → string) (b : Backend) (name : string) (s : queueState)
    (ms : list message_to_send) (d : draws) (i : ReceiveMessageRequest) :
  let _ := sqs_json Err_text in
  let url := fakeQueueURL name in
  str_mem "/" name = false → valid_utf8 name → queues b !! name = Some s → pending s = [] → inflight s = ∅ →
  DelaySeconds (q_attributes s) = 0 →
  ms ≠ [] → Forall (accepted (q_attributes s)) ms →
  StronglySorted (λ m1 m2, d_now (ms_draws m1) <= d_now (ms_draws m2)) ms →
  Forall (λ m, d_now (ms_draws m) <= tk_now (d_env d O)) ms →
  valid_receive i → rmi_QueueUrl i = url →
  Z.of_nat (length ms) <= batch_size (default 0 (rmi_MaxNumberOfMessages i)) → (0 < d_fuel d)%nat →
  NoDup (handles (tk_rnd (d_env d O)) 0 10) → (∀ j, tk_rnd (d_env d O) j ≠ []) →
  ∃ b1 b2 b3 outs s3,
    sqs_send_all Quote (client_sends url <$> ms) b = Some (b1, (λ m, newID (d_rnd (ms_draws m) O)) <$> ms) ∧
    sqs_serve Quote d (sqs_post ReceiveMessageHandler (ReceiveMessage_json i)) b1 =
      Some (b2, Some (WriteJSON ∅ 200 (ReceiveMessageResult outs))) ∧
    Forall2 (λ m, arrived (client_sends url m)) ms outs ∧
    sqs_delete_all Quote d (client_deletes url) (mo_ReceiptHandle <$> outs) b2 = Some b3 ∧
    queues b3 !! name = Some s3 ∧ msgs s3 = [] ∧ ∀ n, n ≠ name → queues b3 !! n = queues b !! n.
Proof.
  intros Hj url Hn Hnv Hs Hp Hf Hd Hne Hms Hsort Hvis Hi Hu Hmax Hfuel Hnd Hrnd.
  assert (valid_utf8 url) as Huv by by apply url_valid.
  destruct (session_spec Quote b name s (client_sends url <$> ms) d (sqs_post ReceiveMessageHandler (ReceiveMessage_json i)) i
    (client_deletes url)) as (b1 & b2 & b3 & outs & s3 & E1 & E2 & Harr & E3 & Hs3 & Hm3 & Ho); try done.
  - by destruct ms.
  - apply Forall_fmap. eapply Forall_impl; [exact Hms|]. intros m Hm. by apply client_sendable.
  - clear -Hsort. induction Hsort as [|m ms _ IH Hm]; [constructor|]. rewrite fmap_cons. constructor; [done|].
    apply Forall_fmap. exact Hm.
  - apply Forall_fmap. exact Hvis.
  - destruct (receive_printable i Hi). by apply post_carries; [| |apply receive_decodes].
  - by rewrite length_fmap.
  - intros j h. assert (valid_delete (mkDeleteMessageRequest url h)) as Hv by (split; [done|apply newID_valid]).
    destruct (delete_printable _ Hv). by apply post_carries; [| |apply delete_decodes].
  - exists b1, b2, b3, outs, s3. split_and!; [|done| |done..].
    + etransitivity; [exact E1|]. by rewrite <-list_fmap_compose.
    + by apply (Forall2_fmap_l (client_sends url)) in Harr.
Qed.

(** Every request is answered.  Whatever its method, headers and body, a
    request other than a receive gets an answer, without a panic, and when the
    answer is an error no queue has changed.  A receive is answered too: ten
    attempts per second of WaitTimeSeconds and one more are enough when
    attempts are at least 100 ms apart, for every 32-bit WaitTimeSeconds. *)
Theorem sqs_requests_answered `{SqsJson} (Quote : string → string) (d : draws) (r : Request) (b : Backend) :
  (¬ sqs_request r (op_name ReceiveMessageHandler) → served_well b (sqs_serve Quote d r b)) ∧
  (∀ i, carries r ReceiveMessageHandler i →
     let wait := default 0 (rmi_WaitTimeSeconds i) in
     in_s 32 wait → (Z.to_nat (10 * wait) < d_fuel d)%nat →
     (∀ j, d_now d + Z.of_nat j * (100 * Millisecond) <= tk_check (d_env d j)) →
     ∃ b' resp, sqs_serve Quote d r b = Some (b', Some resp)).
Proof.
  split.
  - intros Hno. unfold sqs_serve, Sqs_ServeHTTP, ServeHTTP.
    destruct (route RegisterSQSRoutes r) as [resp|o] eqn:E; [by exists b, resp|].
    apply sqs_handle_answered. intros ->. by apply route_inv in E.
  - intros i Hc wait Hw Hfuel Hclk. unfold sqs_serve. rewrite (serve_carries Quote _ _ _ _ _ Hc). cbn [handle].
    unfold json_handler. rewrite (DecodeJSON_decodes r i (proj2 Hc)). destruct (first_missing _) as [f|]; [by eexists b, _|].
    unfold Adapter_ReceiveMessage. set (opt := mkReceiveMessagesOptions _ _ _).
    cbn [q_ReceiveMessages inmem_queues]. unfold ReceiveMessages, receive_loop.
    assert (rm_WaitTime opt = wait) as -> by done.
    unfold in_s in Hw. rewrite seconds_small by (unfold in_s, Second; lia).
    set (q := normaliseQueueURL _).
    destruct (poll_returns (λ t b, tryReceive (tk_now t) (tk_order t) (tk_rnd t) q opt b)
      (wait =? 0) (d_now d + wait * Second) (d_fuel d) (d_env d) b (d_now d)) as (b' & x & -> & Hp & _);
      [intros; apply tryReceive_no_panic|done|lia|unfold Second, Millisecond; lia|].
    destruct x as [ms|e|]; [by eexists b', _..|done].
Qed.

(** ** Witnesses *)

Definition demo_json_of {T} (z : T) (f : string → T) : JsonRequest T :=
  {| json_zero := z;
     json_Decode := λ r, match r with Reads d => inr (f (string_of_bytes d)) | ReadFails t => inl t end |}.
Definition demo_url : string := fakeQueueURL "q".
Definition demo_attributes : MessageBodyAttributeMap := Some {["n" := Some (mkMessageAttributeValue "Number" (Some "7"))]}.

(** Bodies that hold one string: a message, a receipt handle, a name. *)
#[local] Instance demo_sqs_json : SqsJson := {|
  json_CreateQueue := demo_json_of (mkCreateQueueRequest None "" None) (λ x, mkCreateQueueRequest None x None);
  json_DeleteQueue := demo_json_of (mkDeleteQueueRequest "") mkDeleteQueueRequest;
  json_ListQueues := demo_json_of (mkListQueuesRequest None None None) (λ _, mkListQueuesRequest None None None);
  json_GetQueueUrl := demo_json_of (mkGetQueueUrlRequest "") mkGetQueueUrlRequest;
  json_GetQueueAttributes := demo_json_of (mkGetQueueAttributesRequest "") mkGetQueueAttributesRequest;
  json_SetQueueAttributes := demo_json_of (mkSetQueueAttributesRequest None "") (mkSetQueueAttributesRequest None);
  json_SendMessage := demo_json_of (mkSendMessageRequest None None "" "")
    (λ x, mkSendMessageRequest None demo_attributes x demo_url);
  json_ReceiveMessage := demo_json_of (mkReceiveMessageRequest None "" None None)
    (λ _, mkReceiveMessageRequest (Some 10) demo_url None None);
  json_DeleteMessage := demo_json_of (mkDeleteMessageRequest "" "") (mkDeleteMessageRequest demo_url);
  json_ChangeMessageVisibility := demo_json_of (mkChangeMessageVisibilityRequest "" "" 0)
    (λ x, mkChangeMessageVisibilityRequest demo_url x 5);
  json_ListQueueTags := demo_json_of (mkListQueueTagsRequest "") mkListQueueTagsRequest;
  json_TagQueue := demo_json_of (mkTagQueueRequest "" None) (λ x, mkTagQueueRequest x None);
  json_UntagQueue := demo_json_of (mkUntagQueueRequest "" []) (λ x, mkUntagQueueRequest x []);
  json_PurgeQueue := demo_json_of (mkPurgeQueueRequest "") mkPurgeQueueRequest |}.

Definition demo_post (op body : string) : Request :=
  mkRequest "POST" "localhost" "" "/" "" "/" "" ∅ {["X-Amz-Target" := ["AmazonSQS." +:+ op]]} 1
    (Some (Reads (bytes_of_string body))).
Definition demo_sqs_queue : queueState := mkQueueState "q" 1 demo_attrs None [] ∅.
Definition demo_sqs : Backend := mkBackend {["q" := demo_sqs_queue]}.
Definition demo_draws (now : Time) : draws :=
  mkDraws now [] demo_rnd 1 (λ i, mkTick now [] demo_rnd (now + Z.of_nat i * (100 * Millisecond)) None (λ b, b)).
Definition demo_message (now : Time) (text : string) : message_to_send := mkMessage (demo_draws now) text demo_attributes.
Definition demo_receive_request : ReceiveMessageRequest := mkReceiveMessageRequest (Some 10) demo_url None None.

Lemma demo_post_carries {T} `{JsonRequest T} o body (i : T) :
  json_Decode (Reads (bytes_of_string body)) = inr i → carries (demo_post (op_name o) body) o i.
Proof. intros E. split; [by split; destruct o|]. split; [done|exact E]. Qed.

Lemma demo_session_handles : NoDup (handles demo_rnd 0 10).
Proof. apply (bool_decide_unpack _). vm_compute. exact I. Qed.

Lemma sqs_session_witness :
  ∃ b1 b2 b3 outs s3,
    @sqs_send_all (sqs_json Datatypes.id) Datatypes.id (client_sends demo_url <$> [demo_message 5 "one"; demo_message 6 "two"])
      demo_sqs = Some (b1, ["00"; "00"]) ∧
    @sqs_serve (sqs_json Datatypes.id) Datatypes.id (demo_draws 7)
      (sqs_post ReceiveMessageHandler (ReceiveMessage_json demo_receive_request)) b1 =
      Some (b2, Some (WriteJSON ∅ 200 (ReceiveMessageResult outs))) ∧
    mo_Body <$> outs = ["one"; "two"] ∧
    @sqs_delete_all (sqs_json Datatypes.id) Datatypes.id (demo_draws 7) (client_deletes demo_url) (mo_ReceiptHandle <$> outs) b2 =
      Some b3 ∧
    queues b3 !! "q" = Some s3 ∧ msgs s3 = [].
Proof.
  destruct (sqs_session Datatypes.id Datatypes.id demo_sqs "q" demo_sqs_queue [demo_message 5 "one"; demo_message 6 "two"]
    (demo_draws 7) demo_receive_request) as (b1 & b2 & b3 & outs & s3 & E1 & E2 & Harr & E3 & Hs & Hm & _).
  - reflexivity.
  - by apply ascii_valid_utf8.
  - reflexivity.
  - reflexivity.
  - reflexivity.
  - reflexivity.
  - discriminate.
  - constructor; [|constructor; [|constructor]]; (split; [by apply ascii_valid_utf8|]; split; [|split; [discriminate|]]).
    1,3: apply map_Forall_singleton; split; [by apply ascii_valid_utf8|split; by apply ascii_valid_utf8].
    all: right; vm_compute; discriminate.
  - repeat constructor; vm_compute; discriminate.
  - repeat constructor; vm_compute; discriminate.
  - split; [by apply ascii_valid_utf8|]. split; [|done]. split; vm_compute; [discriminate|reflexivity].
  - reflexivity.
  - vm_compute. discriminate.
  - apply Nat.lt_0_1.
  - exact demo_session_handles.
  - intros j. discriminate.
  - exists b1, b2, b3, outs, s3. split; [exact E1|]. split; [exact E2|]. split; [|split; [exact E3|by split]].
    apply Forall2_cons_inv_l in Harr as (o1 & l1 & (_ & H1 & _) & Harr & ->).
    apply Forall2_cons_inv_l in Harr as (o2 & l2 & (_ & H2 & _) & Harr & ->).
    apply Forall2_nil_inv_l in Harr as ->. cbn. by rewrite H1, H2.
Defined.

Lemma sqs_requests_dispatched_witness :
  route (X := output) RegisterSQSRoutes (demo_post "SendMessage" "hi") = inr SendMessageHandler.
Proof.
  destruct (sqs_requests_dispatched Datatypes.id (demo_draws 7) (demo_post "SendMessage" "hi") demo_sqs) as [H _].
  apply H. split; reflexivity.
Defined.

Lemma sqs_requests_answered_witness :
  (∃ b' resp, sqs_serve Datatypes.id (demo_draws 7) (demo_post "DeleteMessage" "h") demo_sqs = Some (b', Some resp)) ∧
  ∃ b' resp, sqs_serve Datatypes.id (demo_draws 7) (demo_post "ReceiveMessage" "") demo_sqs = Some (b', Some resp).
Proof.
  destruct (sqs_requests_answered Datatypes.id (demo_draws 7) (demo_post "DeleteMessage" "h") demo_sqs) as [H1 _].
  destruct (sqs_requests_answered Datatypes.id (demo_draws 7) (demo_post "ReceiveMessage" "") demo_sqs) as [_ H2]. split.
  - destruct H1 as (b' & resp & E & _); [intros [_ H]; discriminate H|]. by exists b', resp.
  - apply (H2 (mkReceiveMessageRequest (Some 10) demo_url None None)).
    + apply (demo_post_carries ReceiveMessageHandler). reflexivity.
    + split; vm_compute; [discriminate|reflexivity].
    + apply Nat.lt_0_1.
    + intros j. reflexivity.
Defined.
