(* ===== verification/Secrets.v ===== *)
(** * Secrets: domain types, errors and the in-process backend

    Models [internal/secrets/domain] and [services/secrets/backends/inmem].
    The secrets map is the field of [Backend]; a version number is a uint64,
    so the increment wraps. *)

From S2P Require Import Prelude GoStrings GoBytes.

(** ** domain/errors.go *)

Inductive Kind :=
  | KindUnknown | KindNoSuchSecret | KindNoSuchVersion | KindSecretAlreadyExists
  | KindSecretBeingDeleted | KindInvalidArgument.
#[export] Instance Kind_eq_dec : EqDecision Kind.
Proof. solve_decision. Defined.

Inductive error :=
  | DomainError (Kind_ : Kind) (Resource : string) (Version_ : Z) (Message : string)
      (Inner : option error).

(** [Quote] is the [%q] of the format strings ([strconv.Quote]). *)
Definition Error_text (Quote : string → string) (e : error) : string :=
  let 'DomainError k r v m _ := e in
  match k with
  | KindNoSuchSecret => "secret " +:+ Quote r +:+ " does not exist"
  | KindNoSuchVersion => "secret " +:+ Quote r +:+ " has no version " +:+ utoa v
  | KindSecretAlreadyExists => "secret " +:+ Quote r +:+ " already exists"
  | KindSecretBeingDeleted => "secret " +:+ Quote r +:+ " is scheduled for deletion"
  | KindInvalidArgument => m
  | KindUnknown => if String.eqb m "" then "secrets domain error" else m
  end.
Definition Unwrap (e : error) : option error := let 'DomainError _ _ _ _ i := e in i.

Definition NoSuchSecret (name : string) : error := DomainError KindNoSuchSecret name 0 "" None.
Definition NoSuchVersion (name : string) (version : Z) : error :=
  DomainError KindNoSuchVersion name version "" None.
Definition SecretAlreadyExists (name : string) : error :=
  DomainError KindSecretAlreadyExists name 0 "" None.
Definition SecretBeingDeleted (name : string) : error :=
  DomainError KindSecretBeingDeleted name 0 "" None.
Definition InvalidArgument (message : string) : error :=
  DomainError KindInvalidArgument "" 0 message None.

Abbreviation result := (outcome error).

(** ** domain/domain.go *)

Record Secret := mkSecret {
  Secret_Name : string; Secret_Description : string; Secret_Tags : strmap;
  Secret_CreatedAt : Time; Secret_UpdatedAt : Time; Secret_Enabled : bool;
  CurrentVersion : Z }.
Record SecretValue := mkSecretValue {
  sv_Name : string; sv_Version : Z; sv_Value : slice; sv_CreatedAt : Time }.
Record Version := mkVersion { Version_Number : Z; Version_CreatedAt : Time }.
Record CreateSecretOptions := mkCreateSecretOptions {
  cs_Description : string; cs_Tags : strmap; cs_InitialValue : slice }.
Record CreateSecretResult := mkCreateSecretResult { csr_Version : Z }.
Record PutSecretValueResult := mkPutSecretValueResult { psr_Version : Z }.
Record UpdateSecretOptions := mkUpdateSecretOptions {
  us_Description : option string; us_Tags : strmap; us_Enabled : option bool }.
Record ListSecretsOptions := mkListSecretsOptions {
  ls_Prefix : string; ls_MaxResults : Z; ls_NextToken : string }.
Record ListSecretsResult := mkListSecretsResult {
  lsr_Secrets : list Secret; lsr_NextToken : string }.

(** ** inmem.go *)

Record versionState := mkVersionState { v_number : Z; v_value : slice; v_createdAt : Time }.
Record secretState := mkSecretState {
  s_name : string; description : string; tags : strmap; createdAt : Time; updatedAt : Time;
  enabled : bool; deleting : bool; versions : list versionState }.
Record Backend := mkBackend { secrets : gmap string secretState }.

Definition New : Backend := mkBackend ∅.
Definition set_secret (b : Backend) (name : string) (s : secretState) : Backend :=
  mkBackend (<[name := s]> (secrets b)).

Definition copyTags (m : strmap) : strmap :=
  match m with None => None | Some m => Some (put_all m ∅) end.
Definition copyBytes (s : slice) : slice :=
  match s with None => None | Some l => Some (map (λ b, b) l) end.

Definition CreateSecret (now : Time) (name : string) (opt : CreateSecretOptions) (b : Backend)
    : Backend * result CreateSecretResult :=
  if String.eqb name "" then (b, Err (InvalidArgument "secret name is required"))
  else match secrets b !! name with
  | Some existing =>
      if deleting existing then (b, Err (SecretBeingDeleted name))
      else (b, Err (SecretAlreadyExists name))
  | None =>
      let st vs := mkSecretState name (cs_Description opt) (copyTags (cs_Tags opt)) now now
                     true false vs in
      match cs_InitialValue opt with
      | Some _ =>
          (set_secret b name (st [mkVersionState 1 (copyBytes (cs_InitialValue opt)) now]),
           Ok (mkCreateSecretResult 1))
      | None => (set_secret b name (st []), Ok (mkCreateSecretResult 0))
      end
  end.

Definition value_of (name : string) (v : versionState) : SecretValue :=
  mkSecretValue name (v_number v) (copyBytes (v_value v)) (v_createdAt v).

(** The search loop: the first version with the number. *)
Fixpoint find_version (version : Z) (vs : list versionState) : option versionState :=
  match vs with
  | [] => None
  | v :: vs => if v_number v =? version then Some v else find_version version vs
  end.

Definition GetSecretValue (name : string) (version : Z) (b : Backend)
    : Backend * result SecretValue :=
  match secrets b !! name with
  | None => (b, Err (NoSuchSecret name))
  | Some st =>
      if deleting st then (b, Err (SecretBeingDeleted name))
      else match last (versions st) with
      | None => (b, Err (NoSuchVersion name version))
      | Some v =>
          if version =? 0 then (b, Ok (value_of name v))
          else match find_version version (versions st) with
               | Some v => (b, Ok (value_of name v))
               | None => (b, Err (NoSuchVersion name version))
               end
      end
  end.

Definition nextNumber (vs : list versionState) : Z :=
  match last vs with Some v => wrap_u 64 (v_number v + 1) | None => 1 end.

Definition PutSecretValue (now : Time) (name : string) (value : slice) (b : Backend)
    : Backend * result PutSecretValueResult :=
  match secrets b !! name with
  | None => (b, Err (NoSuchSecret name))
  | Some st =>
      if deleting st then (b, Err (SecretBeingDeleted name))
      else
        let n := nextNumber (versions st) in
        (set_secret b name
           (mkSecretState (s_name st) (description st) (tags st) (createdAt st) now (enabled st)
              (deleting st) (versions st ++ [mkVersionState n (copyBytes value) now])),
         Ok (mkPutSecretValueResult n))
  end.

Definition UpdateSecret (now : Time) (name : string) (opt : UpdateSecretOptions) (b : Backend)
    : Backend * result unit :=
  match secrets b !! name with
  | None => (b, Err (NoSuchSecret name))
  | Some st =>
      (set_secret b name
         (mkSecretState (s_name st) (default (description st) (us_Description opt))
            (match us_Tags opt with None => tags st | Some _ => copyTags (us_Tags opt) end)
            (createdAt st) now (default (enabled st) (us_Enabled opt)) (deleting st) (versions st)),
       Ok ())
  end.

Definition DeleteSecret (name : string) (force : bool) (b : Backend) : Backend * result unit :=
  match secrets b !! name with
  | None => (b, Err (NoSuchSecret name))
  | Some st =>
      if force then (mkBackend (delete name (secrets b)), Ok ())
      else (set_secret b name
              (mkSecretState (s_name st) (description st) (tags st) (createdAt st) (updatedAt st)
                 (enabled st) true (versions st)), Ok ())
  end.

Definition secretFromState (st : secretState) : Secret :=
  mkSecret (s_name st) (description st) (copyTags (tags st)) (createdAt st) (updatedAt st)
    (enabled st) (match last (versions st) with Some v => v_number v | None => 0 end).

Definition HeadSecret (name : string) (b : Backend) : Backend * result Secret :=
  match secrets b !! name with
  | None => (b, Err (NoSuchSecret name))
  | Some st =>
      if deleting st then (b, Err (SecretBeingDeleted name)) else (b, Ok (secretFromState st))
  end.

Definition ListSecrets (opt : ListSecretsOptions) (b : Backend) : Backend * result ListSecretsResult :=
  let names := sort_Strings (fst <$> filter (λ '(n, st), deleting st = false ∧
      (ls_Prefix opt = "" ∨ HasPrefix n (ls_Prefix opt) = true)) (map_to_list (secrets b))) in
  let res := omap (λ n, secretFromState <$> secrets b !! n) names in
  (b, Ok (mkListSecretsResult
            (if (0 <? ls_MaxResults opt) && (ls_MaxResults opt <? Z.of_nat (length res))
             then take (Z.to_nat (ls_MaxResults opt)) res else res) "")).

Definition ListVersions (name : string) (b : Backend) : Backend * result (list Version) :=
  match secrets b !! name with
  | None => (b, Err (NoSuchSecret name))
  | Some st =>
      if deleting st then (b, Err (SecretBeingDeleted name))
      else (b, Ok ((λ v, mkVersion (v_number v) (v_createdAt v)) <$> versions st))
  end.

(** ** The interface that the frontends are written against

    [domain.Secrets]; what writes reads the clock. *)

Class Secrets_ (St : Type) := {
  x_CreateSecret : Time → string → CreateSecretOptions → St → St * result CreateSecretResult;
  x_GetSecretValue : string → Z → St → St * result SecretValue;
  x_PutSecretValue : Time → string → slice → St → St * result PutSecretValueResult;
  x_UpdateSecret : Time → string → UpdateSecretOptions → St → St * result unit;
  x_DeleteSecret : string → bool → St → St * result unit;
  x_HeadSecret : string → St → St * result Secret;
  x_ListSecrets : ListSecretsOptions → St → St * result ListSecretsResult;
  x_ListVersions : string → St → St * result (list Version) }.

#[export] Instance inmem_secrets : Secrets_ Backend := {|
  x_CreateSecret := CreateSecret;
  x_GetSecretValue := GetSecretValue;
  x_PutSecretValue := PutSecretValue;
  x_UpdateSecret := UpdateSecret;
  x_DeleteSecret := DeleteSecret;
  x_HeadSecret := HeadSecret;
  x_ListSecrets := ListSecrets;
  x_ListVersions := ListVersions |}.

(** * Secrets: the properties of the in-process backend

    An abstract vault keeps, per live name, the list of values ever put; the
    backend refines it operation by operation.  Versions are immutable, and a
    soft-deleted secret stays inaccessible until it is deleted by force. *)

(** ** The abstract vault *)

(** Version [n] of a secret is the [n]-th element of its history. *)
Record vault := mkVault {
  vt_description : string; vt_tags : strmap; vt_created : Time; vt_updated : Time;
  vt_enabled : bool; vt_deleting : bool; vt_history : list (slice * Time) }.

Inductive op :=
  | OpCreateSecret (now : Time) (name : string) (opt : CreateSecretOptions)
  | OpGetSecretValue (name : string) (version : Z)
  | OpPutSecretValue (now : Time) (name : string) (value : slice)
  | OpUpdateSecret (now : Time) (name : string) (opt : UpdateSecretOptions)
  | OpDeleteSecret (name : string) (force : bool)
  | OpHeadSecret (name : string)
  | OpListSecrets (opt : ListSecretsOptions)
  | OpListVersions (name : string).

Inductive resp :=
  | RDone | RVersion (n : Z) | RValue (v : SecretValue) | RSecret (s : Secret)
  | RSecrets (l : list Secret) | RVersions (l : list Version).

Section spec.
Context (m : gmap string vault).

Definition on_live (name : string) (k : vault → gmap string vault * result resp)
    : gmap string vault * result resp :=
  match m !! name with
  | None => (m, Err (NoSuchSecret name))
  | Some v => if vt_deleting v then (m, Err (SecretBeingDeleted name)) else k v
  end.

Definition summary (name : string) (v : vault) : Secret :=
  mkSecret name (vt_description v) (vt_tags v) (vt_created v) (vt_updated v) (vt_enabled v)
    (Z.of_nat (length (vt_history v))).

Definition numbered (n : Z) (x : slice * Time) (name : string) : SecretValue :=
  mkSecretValue name n x.1 x.2.

Definition spec_run (o : op) : gmap string vault * result resp :=
  match o with
  | OpCreateSecret now name opt =>
      if decide (name = "") then (m, Err (InvalidArgument "secret name is required"))
      else match m !! name with
      | Some v => (m, Err (if vt_deleting v then SecretBeingDeleted name else SecretAlreadyExists name))
      | None =>
          let h := match cs_InitialValue opt with Some x => [(Some x, now)] | None => [] end in
          (<[name := mkVault (cs_Description opt) (cs_Tags opt) now now true false h]> m,
           Ok (RVersion (Z.of_nat (length h))))
      end
  | OpGetSecretValue name n =>
      on_live name (λ v,
        let n' := if decide (n = 0) then Z.of_nat (length (vt_history v)) else n in
        match (if decide (1 <= n') then vt_history v !! Z.to_nat (n' - 1) else None) with
        | Some x => (m, Ok (RValue (numbered n' x name)))
        | None => (m, Err (NoSuchVersion name n))
        end)
  | OpPutSecretValue now name x =>
      on_live name (λ v,
        (<[name := mkVault (vt_description v) (vt_tags v) (vt_created v) now (vt_enabled v) false
                     (vt_history v ++ [(x, now)])]> m,
         Ok (RVersion (Z.of_nat (length (vt_history v)) + 1))))
  | OpUpdateSecret now name opt =>
      match m !! name with
      | None => (m, Err (NoSuchSecret name))
      | Some v =>
          (<[name := mkVault (default (vt_description v) (us_Description opt))
                       (match us_Tags opt with Some t => Some t | None => vt_tags v end)
                       (vt_created v) now (default (vt_enabled v) (us_Enabled opt))
                       (vt_deleting v) (vt_history v)]> m, Ok RDone)
      end
  | OpDeleteSecret name force =>
      match m !! name with
      | None => (m, Err (NoSuchSecret name))
      | Some v =>
          (if force then delete name m
           else <[name := mkVault (vt_description v) (vt_tags v) (vt_created v) (vt_updated v)
                            (vt_enabled v) true (vt_history v)]> m, Ok RDone)
      end
  | OpHeadSecret name => on_live name (λ v, (m, Ok (RSecret (summary name v))))
  | OpListSecrets opt =>
      let names := sort_Strings (fst <$> filter (λ '(n, v), vt_deleting v = false ∧
          HasPrefix n (ls_Prefix opt) = true) (map_to_list m)) in
      let l := omap (λ n, summary n <$> m !! n) names in
      (m, Ok (RSecrets (if decide (0 < ls_MaxResults opt) then take (Z.to_nat (ls_MaxResults opt)) l
                        else l)))
  | OpListVersions name =>
      on_live name (λ v,
        (m, Ok (RVersions (imap (λ i x, mkVersion (Z.of_nat i + 1) x.2) (vt_history v)))))
  end.
End spec.

(** ** The backend's operations as steps *)

Definition answer {A} (f : A → resp) (r : Backend * result A) : Backend * result resp :=
  (r.1, let? x := r.2 in Ok (f x)).

Definition run (o : op) (b : Backend) : Backend * result resp :=
  match o with
  | OpCreateSecret now n opt => answer (λ r, RVersion (csr_Version r)) (CreateSecret now n opt b)
  | OpGetSecretValue n v => answer RValue (GetSecretValue n v b)
  | OpPutSecretValue now n v => answer (λ r, RVersion (psr_Version r)) (PutSecretValue now n v b)
  | OpUpdateSecret now n opt => answer (λ _, RDone) (UpdateSecret now n opt b)
  | OpDeleteSecret n f => answer (λ _, RDone) (DeleteSecret n f b)
  | OpHeadSecret n => answer RSecret (HeadSecret n b)
  | OpListSecrets opt => answer (λ r, RSecrets (lsr_Secrets r)) (ListSecrets opt b)
  | OpListVersions n => answer RVersions (ListVersions n b)
  end.

Definition abs_secret (s : secretState) : vault :=
  mkVault (description s) (tags s) (createdAt s) (updatedAt s) (enabled s) (deleting s)
    ((λ v, (v_value v, v_createdAt v)) <$> versions s).
Definition abs (b : Backend) : gmap string vault := abs_secret <$> secrets b.

(** The numbers are 1, 2, ... in order. *)
Definition numbers_ok (vs : list versionState) : Prop :=
  ∀ i v, vs !! i = Some v → v_number v = Z.of_nat i + 1.
Definition inv (b : Backend) : Prop :=
  ∀ n s, secrets b !! n = Some s → s_name s = n ∧ numbers_ok (versions s).

(** No secret has reached the largest uint64 version. *)
Definition bounded (b : Backend) : Prop :=
  ∀ n s, secrets b !! n = Some s → Z.of_nat (length (versions s)) < 2 ^ 64 - 1.

(** ** Lemmas *)

Lemma secrets_copyTags_id m : copyTags m = m.
Proof. apply copy_map_id. Qed.
Lemma secrets_copyBytes_id s : copyBytes s = s.
Proof. destruct s as [l|]; [|done]. simpl. by rewrite map_id. Qed.

Lemma numbers_last vs v : numbers_ok vs → last vs = Some v → v_number v = Z.of_nat (length vs).
Proof.
  intros Hok Hl. rewrite last_lookup in Hl. pose proof (lookup_lt_Some _ _ _ Hl).
  rewrite (Hok _ _ Hl). lia.
Qed.

Lemma numbers_current vs :
  numbers_ok vs →
  match last vs with Some v => v_number v | None => 0 end = Z.of_nat (length vs).
Proof.
  intros Hok. destruct (last vs) eqn:E; [by apply numbers_last|].
  by apply last_None in E as ->.
Qed.

Lemma numbers_next vs :
  numbers_ok vs → Z.of_nat (length vs) < 2 ^ 64 - 1 → nextNumber vs = Z.of_nat (length vs) + 1.
Proof.
  intros Hok Hb. unfold nextNumber. destruct (last vs) as [v|] eqn:E.
  - rewrite (numbers_last _ _ Hok E). apply wrap_u_small. unfold in_u. lia.
  - by apply last_None in E as ->.
Qed.

Lemma numbers_snoc vs x :
  numbers_ok vs → v_number x = Z.of_nat (length vs) + 1 → numbers_ok (vs ++ [x]).
Proof.
  intros Hok Hx i v. rewrite lookup_app. destruct (vs !! i) as [w|] eqn:E; [intros [= <-]; by apply Hok|].
  intros [Hi <-]%list_lookup_singleton_Some. apply lookup_ge_None in E. rewrite Hx. lia.
Qed.

Lemma find_version_lookup k vs n :
  (∀ i v, vs !! i = Some v → v_number v = k + Z.of_nat i) →
  find_version n vs = if decide (k <= n) then vs !! Z.to_nat (n - k) else None.
Proof.
  revert k. induction vs as [|v vs IH]; intros k Hok; simpl; [by case_decide|].
  rewrite (Hok O v eq_refl). destruct (Z.eqb_spec (k + Z.of_nat 0) n) as [<-|Hne].
  - rewrite decide_True by lia. by replace (k + Z.of_nat 0 - k) with 0 by lia.
  - rewrite (IH (k + 1)).
    + destruct (decide (k <= n)) as [H|H].
      * rewrite decide_True by lia. by replace (Z.to_nat (n - k)) with (S (Z.to_nat (n - (k + 1)))) by lia.
      * by rewrite decide_False by lia.
    + intros i w Hi. rewrite (Hok (S i) w Hi). lia.
Qed.

Lemma find_version_nth vs n :
  numbers_ok vs → find_version n vs = if decide (1 <= n) then vs !! Z.to_nat (n - 1) else None.
Proof. intros Hok. apply find_version_lookup. intros i v Hi. rewrite (Hok i v Hi). lia. Qed.

Lemma inv_set b n s : inv b → s_name s = n → numbers_ok (versions s) → inv (set_secret b n s).
Proof.
  intros Hi Hn Hok n' s'. simpl. rewrite lookup_insert_Some. intros [[<- <-]|[_ H]]; [done|by apply Hi].
Qed.

Lemma abs_set b n s : abs (set_secret b n s) = <[n := abs_secret s]> (abs b).
Proof. unfold abs. simpl. by rewrite fmap_insert. Qed.

Lemma abs_lookup b n : abs b !! n = abs_secret <$> secrets b !! n.
Proof. apply lookup_fmap. Qed.

Lemma value_numbered n v x :
  v_number v = x → value_of n v = numbered x (v_value v, v_createdAt v) n.
Proof. intros <-. unfold value_of. by rewrite secrets_copyBytes_id. Qed.

Lemma summary_ok b n s :
  inv b → secrets b !! n = Some s → secretFromState s = summary n (abs_secret s).
Proof.
  intros Hi Hs. destruct (Hi n s Hs) as [Hn Hok]. unfold secretFromState, summary. simpl.
  by rewrite numbers_current, length_fmap, secrets_copyTags_id, Hn.
Qed.

(** ** Refinement, operation by operation *)

Definition refines (o : op) (b : Backend) : Prop :=
  (run o b).2 = (spec_run (abs b) o).2 ∧ abs (run o b).1 = (spec_run (abs b) o).1 ∧ inv (run o b).1.

(** An operation that fails on a missing or soft-deleted secret as the
    specification says. *)
Lemma refines_live b n {A} (f : A → resp) (k : secretState → Backend * result A) ks :
  inv b →
  (∀ s, secrets b !! n = Some s → deleting s = false →
     (answer f (k s)).2 = (ks (abs_secret s)).2 ∧ abs (k s).1 = (ks (abs_secret s)).1 ∧ inv (k s).1) →
  let r := answer f (match secrets b !! n with
            | None => (b, Err (NoSuchSecret n))
            | Some st => if deleting st then (b, Err (SecretBeingDeleted n)) else k st end) in
  r.2 = (on_live (abs b) n ks).2 ∧ abs r.1 = (on_live (abs b) n ks).1 ∧ inv r.1.
Proof.
  intros Hi Hk. unfold on_live. rewrite abs_lookup.
  destruct (secrets b !! n) as [s|] eqn:E; [|done]. simpl.
  destruct (deleting s) eqn:Ed; [done|]. by apply Hk.
Qed.

Lemma refines_Create now n opt b : inv b → refines (OpCreateSecret now n opt) b.
Proof.
  intros Hi. unfold refines. simpl. unfold CreateSecret.
  destruct (String.eqb_spec n "") as [->|Hn]; [done|]. rewrite decide_False by done.
  rewrite abs_lookup. destruct (secrets b !! n) as [s|] eqn:E; simpl; [by destruct (deleting s)|].
  rewrite !secrets_copyTags_id. destruct (cs_InitialValue opt) as [x|]; simpl; rewrite abs_set;
    (split_and!; [done| |apply inv_set; [done..|]]).
  - unfold abs_secret. simpl. by rewrite map_id.
  - intros [|i] v; simpl; [by intros [= <-]|done].
  - done.
  - by intros [|i] v.
Qed.

Lemma refines_Get n ver b : inv b → refines (OpGetSecretValue n ver) b.
Proof.
  intros Hi. apply refines_live; [done|]. intros s Hs _. destruct (Hi n s Hs) as [_ Hok].
  simpl. rewrite length_fmap. destruct (last (versions s)) as [v|] eqn:El; simpl.
  - pose proof (numbers_last _ _ Hok El) as Hv. pose proof El as El'. rewrite last_lookup in El'.
    pose proof (lookup_lt_Some _ _ _ El') as Hlt.
    destruct (Z.eqb_spec ver 0) as [->|Hne]; simpl.
    + rewrite (decide_True (P := 1 <= _)) by lia. rewrite list_lookup_fmap.
      replace (Z.to_nat (Z.of_nat (length (versions s)) - 1)) with (pred (length (versions s))) by lia.
      rewrite El'. simpl. by rewrite <-Hv, (value_numbered n v _ eq_refl).
    + rewrite (find_version_nth _ _ Hok), (decide_False (P := ver = 0)) by done.
      destruct (decide (1 <= ver)) as [Hge|]; [|done]. rewrite list_lookup_fmap.
      destruct (versions s !! Z.to_nat (ver - 1)) as [w|] eqn:Ew; [|done]. simpl.
      rewrite (value_numbered n w ver); [done|]. rewrite (Hok _ _ Ew). lia.
  - apply last_None in El. rewrite El. simpl. by repeat case_decide.
Qed.

Lemma refines_Put now n x b : inv b → bounded b → refines (OpPutSecretValue now n x) b.
Proof.
  intros Hi Hb. apply refines_live; [done|]. intros s Hs Hd. destruct (Hi n s Hs) as [Hn Hok].
  assert (nextNumber (versions s) = Z.of_nat (length (versions s)) + 1) as Hnext.
  { apply numbers_next; [done|]. by apply (Hb n). }
  simpl. rewrite length_fmap, Hnext. split_and!; [done| |].
  - rewrite abs_set. unfold abs_secret. simpl. by rewrite Hd, fmap_app, secrets_copyBytes_id.
  - apply inv_set; [done..|]. by apply numbers_snoc.
Qed.

Lemma refines_Update now n opt b : inv b → refines (OpUpdateSecret now n opt) b.
Proof.
  intros Hi. unfold refines. simpl. unfold UpdateSecret. rewrite abs_lookup.
  destruct (secrets b !! n) as [s|] eqn:E; [|done]. destruct (Hi n s E) as [Hn Hok].
  simpl. split_and!; [done| |by apply inv_set]. rewrite abs_set. unfold abs_secret. simpl.
  do 2 f_equal. destruct (us_Tags opt) as [t|]; [|done]. apply (copy_map_id (Some t)).
Qed.

Lemma refines_Delete n f b : inv b → refines (OpDeleteSecret n f) b.
Proof.
  intros Hi. unfold refines. simpl. unfold DeleteSecret. rewrite abs_lookup.
  destruct (secrets b !! n) as [s|] eqn:E; [|done]. destruct (Hi n s E) as [Hn Hok].
  destruct f; simpl; (split_and!; [done| |]).
  - unfold abs. simpl. by rewrite fmap_delete.
  - intros n' s'. simpl. rewrite lookup_delete_Some. intros [_ H]. by apply Hi.
  - by rewrite abs_set.
  - by apply inv_set.
Qed.

Lemma refines_Head n b : inv b → refines (OpHeadSecret n) b.
Proof.
  intros Hi. apply refines_live; [done|]. intros s Hs _. simpl. by rewrite (summary_ok b n s).
Qed.

Lemma refines_ListVersions n b : inv b → refines (OpListVersions n) b.
Proof.
  intros Hi. apply refines_live; [done|]. intros s Hs _. destruct (Hi n s Hs) as [_ Hok].
  split; [|done]. simpl. do 2 f_equal. apply list_eq. intros i. rewrite list_lookup_imap, !list_lookup_fmap.
  destruct (versions s !! i) as [v|] eqn:E; [|done]. simpl. by rewrite (Hok i v E).
Qed.

(** The names listed do not depend on the abstraction. *)
Lemma listed_names b opt :
  sort_Strings (fst <$> filter (λ '(n, st), deleting st = false ∧
      (ls_Prefix opt = "" ∨ HasPrefix n (ls_Prefix opt) = true)) (map_to_list (secrets b))) =
  sort_Strings (fst <$> filter (λ '(n, v), vt_deleting v = false ∧
      HasPrefix n (ls_Prefix opt) = true) (map_to_list (abs b))).
Proof.
  f_equal. unfold abs. rewrite map_to_list_fmap.
  induction (map_to_list (secrets b)) as [|[n s] l IH]; [done|]. rewrite fmap_cons, !filter_cons.
  cbn [prod_map fst snd]. destruct (decide _) as [H|H], (decide _) as [H'|H']; simpl.
  - exact (f_equal (cons n) IH).
  - destruct H'. destruct H as [Hd [Hp|Hp]]; [|done]. split; [done|]. by rewrite Hp.
  - destruct H. destruct H' as [Hd Hp]. auto.
  - exact IH.
Qed.

Lemma refines_List opt b : inv b → refines (OpListSecrets opt) b.
Proof.
  intros Hi. split; [|done]. simpl. rewrite listed_names.
  set (names := sort_Strings _).
  assert (omap (λ n, secretFromState <$> secrets b !! n) names =
          omap (λ n, summary n <$> abs b !! n) names) as ->.
  { clearbody names. induction names as [|n ns IH]; [done|]. cbn [omap list_omap].
    change (list_omap _ _ ?f ?l) with (omap f l). rewrite IH, abs_lookup.
    destruct (secrets b !! n) as [s|] eqn:E; [|done]. simpl. by rewrite (summary_ok b n s). }
  set (l := omap _ _). do 2 f_equal.
  destruct (Z.ltb_spec 0 (ls_MaxResults opt)); simpl.
  - rewrite decide_True by done. destruct (Z.ltb_spec (ls_MaxResults opt) (Z.of_nat (length l))); [done|].
    symmetry. apply take_ge. lia.
  - by rewrite decide_False by lia.
Qed.

Lemma refines_all o b : inv b → bounded b → refines o b.
Proof.
  intros Hi Hb. destruct o; auto using refines_Create, refines_Get, refines_Put, refines_Update,
    refines_Delete, refines_Head, refines_List, refines_ListVersions.
Qed.

(** ** Operations that leave a secret's versions alone *)

Definition deletes (name : string) (o : op) : Prop :=
  match o with OpDeleteSecret n _ => n = name | _ => False end.

Lemma run_keeps_versions o b n s :
  secrets b !! n = Some s → ¬ deletes n o →
  ∃ s' ws, secrets (run o b).1 !! n = Some s' ∧ versions s' = versions s ++ ws ∧
    deleting s' = deleting s.
Proof.
  intros Hs Hd. assert (∀ m t, m ≠ n → secrets (set_secret b m t) !! n = Some s) as Hne.
  { intros m t Hm. simpl. by rewrite lookup_insert_ne. }
  assert (∀ b' : Backend, secrets b' !! n = Some s →
    ∃ s' ws, secrets b' !! n = Some s' ∧ versions s' = versions s ++ ws ∧ deleting s' = deleting s)
    as Hsame by (intros b' H; exists s, []; by rewrite app_nil_r).
  destruct o; cbn [run answer fst];
    unfold CreateSecret, GetSecretValue, PutSecretValue, UpdateSecret, DeleteSecret, HeadSecret,
      ListSecrets, ListVersions.
  - destruct (String.eqb name ""); [by apply Hsame|].
    destruct (secrets b !! name) as [t|] eqn:E; [destruct (deleting t); by apply Hsame|].
    assert (name ≠ n) by congruence. destruct (cs_InitialValue opt); by apply Hsame, Hne.
  - repeat case_match; by apply Hsame.
  - destruct (secrets b !! name) as [t|] eqn:E; [|by apply Hsame].
    destruct (deleting t) eqn:Ed; [by apply Hsame|].
    destruct (decide (name = n)) as [->|]; [|by apply Hsame, Hne].
    simplify_eq. eexists _, _. simpl. rewrite lookup_insert_eq. split; [done|]. simpl. done.
  - destruct (secrets b !! name) as [t|] eqn:E; [|by apply Hsame].
    destruct (decide (name = n)) as [->|]; [|by apply Hsame, Hne].
    simplify_eq. eexists _, []. simpl. rewrite lookup_insert_eq, app_nil_r. done.
  - destruct (secrets b !! name) as [t|] eqn:E; [|by apply Hsame]. simpl in Hd.
    destruct force; [|by apply Hsame, Hne]. apply Hsame. simpl. by rewrite lookup_delete_ne.
  - repeat case_match; by apply Hsame.
  - by apply Hsame.
  - repeat case_match; by apply Hsame.
Qed.

Lemma find_version_app n vs ws v : find_version n vs = Some v → find_version n (vs ++ ws) = Some v.
Proof. induction vs as [|w vs IH]; simpl; [done|]. by destruct (v_number w =? n). Qed.

Lemma run_keeps_value o b n ver r :
  ver ≠ 0 → ¬ deletes n o → (GetSecretValue n ver b).2 = Ok r →
  (GetSecretValue n ver (run o b).1).2 = Ok r.
Proof.
  intros Hv Hd. unfold GetSecretValue at 1. destruct (secrets b !! n) as [s|] eqn:E; [|done].
  destruct (run_keeps_versions o b n s E Hd) as (s' & ws & E' & Hvs & Hdel).
  unfold GetSecretValue. rewrite E', Hdel, Hvs. destruct (deleting s); [done|].
  destruct (Z.eqb_spec ver 0); [done|]. destruct (last (versions s)) as [l|] eqn:El; [|done].
  destruct (find_version ver (versions s)) as [v|] eqn:Ef; [|done].
  rewrite (find_version_app _ _ ws _ Ef). destruct (last (versions s ++ ws)) eqn:El'; [done|].
  apply last_None in El'. by destruct (versions s).
Qed.

(** ** Soft deletion *)

Definition soft_deleted (b : Backend) (n : string) : Prop :=
  ∃ s, secrets b !! n = Some s ∧ deleting s = true.

(** The operations on one secret that need it to be live. *)
Definition needs_live (n : string) (o : op) : Prop :=
  match o with
  | OpCreateSecret _ n' _ | OpGetSecretValue n' _ | OpPutSecretValue _ n' _ | OpHeadSecret n'
  | OpListVersions n' => n' = n ∧ n ≠ ""
  | _ => False
  end.

Lemma soft_deleted_blocks o b n :
  soft_deleted b n → needs_live n o → run o b = (b, Err (SecretBeingDeleted n)).
Proof.
  intros (s & Hs & Hd) Hl. destruct o; try done; destruct Hl as [-> Hn]; simpl;
    unfold CreateSecret, GetSecretValue, PutSecretValue, HeadSecret, ListVersions;
    rewrite ?Hs, ?Hd; try done.
  destruct (String.eqb_spec n ""); [done|]. done.
Qed.

Lemma soft_deleted_stays o b n :
  soft_deleted b n → o ≠ OpDeleteSecret n true → soft_deleted (run o b).1 n.
Proof.
  intros (s & Hs & Hd) Hne.
  assert (¬ deletes n o ∨ o = OpDeleteSecret n false) as [Hnd| ->].
  { destruct o as [| | | |n' [|]| | |]; auto; simpl.
    - left. by intros ->.
    - destruct (decide (n' = n)) as [->|]; auto. }
  - destruct (run_keeps_versions o b n s Hs Hnd) as (s' & ws & Hs' & _ & Hd'). exists s'. by rewrite Hd'.
  - simpl. unfold DeleteSecret. rewrite Hs. simpl. eexists. simpl. by rewrite lookup_insert_eq.
Qed.

(** Every secret is stored under its own name. *)
Definition named (b : Backend) : Prop := ∀ n s, secrets b !! n = Some s → s_name s = n.

Lemma named_set b n s : named b → s_name s = n → named (set_secret b n s).
Proof. intros Hb Hn n' s'. simpl. rewrite lookup_insert_Some. intros [[<- <-]|[_ H]]; auto. Qed.

Lemma run_named o b : named b → named (run o b).1.
Proof.
  intros Hb. destruct o; cbn [run answer fst];
    unfold CreateSecret, GetSecretValue, PutSecretValue, UpdateSecret, DeleteSecret, HeadSecret,
      ListSecrets, ListVersions; repeat case_match; simpl; try done;
    try (apply named_set; [done|]; simpl; by eauto).
  intros n' s'. simpl. intros [_ H']%lookup_delete_Some. by apply Hb.
Qed.

(** ** Properties *)

Fixpoint run_all (os : list op) (b : Backend) : Backend :=
  match os with [] => b | o :: os => run_all os (run o b).1 end.

(** C24: the backend refines the abstract vault, in which a secret is the list
    of the values put so far and version n is the n-th of them.  From every
    state whose versions are numbered 1, 2, ..., each operation gives the answer
    (value, version number, listing or error) and the new state that the vault
    specifies, and the numbering invariant holds again.  The only proviso is
    that no secret has 2^64 - 1 versions yet. *)
Theorem secrets_refine_vault (o : op) (b : Backend) :
  inv b → bounded b →
  (run o b).2 = (spec_run (abs b) o).2 ∧ abs (run o b).1 = (spec_run (abs b) o).1 ∧
  inv (run o b).1.
Proof. apply refines_all. Qed.

(** A version is immutable: once GetSecretValue returns a value for a version
    number, it returns the same value and creation time for it after any
    sequence of operations that does not delete the secret. *)
Theorem versions_immutable (os : list op) (b : Backend) (n : string) (ver : Z) (r : SecretValue) :
  ver ≠ 0 → Forall (λ o, ¬ deletes n o) os → (GetSecretValue n ver b).2 = Ok r →
  (GetSecretValue n ver (run_all os b)).2 = Ok r.
Proof.
  intros Hv Hos. revert b. induction Hos as [|o os Ho _ IH]; intros b Hg; [done|].
  apply IH. by apply run_keeps_value.
Qed.

(** Soft deletion is sticky: after DeleteSecret without force, whatever
    operations follow except a forced deletion, creating, reading, writing and
    describing the secret fail with SecretBeingDeleted and change nothing, and
    no listing shows it. *)
Theorem soft_deleted_is_sticky (os : list op) (b : Backend) (n : string) :
  named b → n ≠ "" → is_Some (secrets b !! n) → OpDeleteSecret n true ∉ os →
  let b' := run_all os (DeleteSecret n false b).1 in
  (∀ o, needs_live n o → run o b' = (b', Err (SecretBeingDeleted n))) ∧
  (∀ opt l, (ListSecrets opt b').2 = Ok l → n ∉ Secret_Name <$> lsr_Secrets l).
Proof.
  intros Hnm Hn [s Hs] Hos. cbv zeta.
  assert (named (run_all os (DeleteSecret n false b).1)) as Hnm'.
  { assert (named (DeleteSecret n false b).1) as H by exact (run_named (OpDeleteSecret n false) b Hnm).
    revert H. clear Hos. generalize (DeleteSecret n false b).1.
    induction os as [|o os IH]; intros b' H; [done|]. by apply IH, run_named. }
  assert (soft_deleted (run_all os (DeleteSecret n false b).1) n) as Hsd.
  { assert (soft_deleted (DeleteSecret n false b).1 n) as H.
    { unfold DeleteSecret. rewrite Hs. eexists. simpl. by rewrite lookup_insert_eq. }
    revert H. clear Hnm'. generalize (DeleteSecret n false b).1. induction os as [|o os IH]; intros b' H; [done|].
    apply not_elem_of_cons in Hos as [Hne Hos]. apply (IH Hos), soft_deleted_stays; [done|].
    intros ->. done. }
  generalize dependent (run_all os (DeleteSecret n false b).1). intros b' Hnm' Hsd.
  split; [intros o Ho; by apply soft_deleted_blocks|]. intros opt l [= <-] Hin.
  simpl in Hin. apply list_elem_of_fmap in Hin as (x & -> & Hx).
  assert (x ∈ omap (λ n, secretFromState <$> secrets b' !! n) (sort_Strings (fst <$> filter (λ '(n, st),
    deleting st = false ∧ (ls_Prefix opt = "" ∨ HasPrefix n (ls_Prefix opt) = true))
    (map_to_list (secrets b'))))) as Hx'.
  { revert Hx. destruct (_ && _); [|done]. intros Hx. eapply elem_of_subseteq; [|exact Hx].
    by apply (sublist_subseteq _ _ (sublist_take _ _)). }
  apply list_elem_of_omap in Hx' as (k & Hk & Ek). rewrite sort_Strings_perm in Hk.
  apply list_elem_of_fmap in Hk as ([k' t] & -> & Hk).
  apply list_elem_of_filter in Hk as [[Hd _] Hk%elem_of_map_to_list]. simpl in Ek.
  rewrite Hk in Ek. simplify_eq/=. rewrite (Hnm' _ _ Hk) in Hsd.
  destruct Hsd as (s' & Hs' & Hd'). congruence.
Qed.

(** ** Witnesses *)

Definition demo_create : op := OpCreateSecret 1 "db" (mkCreateSecretOptions "d" None (Some [])).
Definition demo_backend : Backend := (run demo_create New).1.

Lemma inv_New : inv New.
Proof. intros n s Hs. done. Qed.
Lemma bounded_New : bounded New.
Proof. intros n s Hs. done. Qed.

Lemma secrets_refine_vault_witness :
  (run demo_create New).2 = (spec_run (abs New) demo_create).2 ∧ inv demo_backend.
Proof.
  destruct (secrets_refine_vault demo_create New inv_New bounded_New) as (H1 & _ & H2).
  split; assumption.
Defined.

Lemma versions_immutable_witness :
  let os := [OpPutSecretValue 2 "db" (Some (bytes_of_string "x")); OpHeadSecret "db"] in
  (GetSecretValue "db" 1 (run_all os demo_backend)).2 = Ok (mkSecretValue "db" 1 (Some []) 1).
Proof.
  apply (versions_immutable [OpPutSecretValue 2 "db" (Some (bytes_of_string "x")); OpHeadSecret "db"]
    demo_backend "db" 1 (mkSecretValue "db" 1 (Some []) 1)).
  - discriminate.
  - repeat (apply Forall_cons_2; [intros H; exact H|]). apply Forall_nil_2.
  - reflexivity.
Defined.

Lemma soft_deleted_is_sticky_witness :
  let b' := run_all [OpGetSecretValue "db" 0] (DeleteSecret "db" false demo_backend).1 in
  run (OpHeadSecret "db") b' = (b', Err (SecretBeingDeleted "db")).
Proof.
  apply (soft_deleted_is_sticky [OpGetSecretValue "db" 0] demo_backend "db").
  - exact (run_named demo_create New (λ n s H, ltac:(discriminate H))).
  - discriminate.
  - apply (bool_decide_unpack _). vm_compute. exact I.
  - intros [[=]|[]%elem_of_nil]%elem_of_cons.
  - split; [reflexivity|discriminate].
Defined.
