(* ===== verification/EventStream.v ===== *)
(** * Event streaming: domain types, errors and the in-process partition log

    Models [internal/eventstream/domain] and
    [services/eventstream/backends/inmem].  The backend's clock [b.now()] is
    the argument [now].  [int] and [int64] are 64-bit: [start+MaxResults] and
    [nextOffset++] wrap, and slicing or allocating with a bad bound panics. *)

From Stdlib Require Import Ascii.
From S2P Require Import Prelude GoStrings GoBytes.

(** ** domain/errors.go *)

Inductive sentinel := ErrNotFound | ErrAlreadyExists | ErrInvalidInput.
#[export] Instance sentinel_eq_dec : EqDecision sentinel.
Proof. solve_decision. Defined.

(** An argument of a format string. *)
Inductive arg := AStr (s : string) | AInt (z : Z).

(** A sentinel, or [fmt.Errorf] with a format, its arguments and what [%w] wraps. *)
Inductive error :=
  | Sentinel (s : sentinel)
  | Errorf (format : string) (args : list arg) (wraps : error).

Fixpoint errors_Is (e : error) (s : sentinel) : bool :=
  match e with
  | Sentinel s' => bool_decide (s' = s)
  | Errorf _ _ w => errors_Is w s
  end.

Definition TopicNotFound (name : string) : error :=
  Errorf "topic %q: %w" [AStr name] (Sentinel ErrNotFound).
Definition TopicAlreadyExists (name : string) : error :=
  Errorf "topic %q: %w" [AStr name] (Sentinel ErrAlreadyExists).
Definition ClusterNotFound (id : string) : error :=
  Errorf "cluster %q: %w" [AStr id] (Sentinel ErrNotFound).
Definition ClusterAlreadyExists (id : string) : error :=
  Errorf "cluster %q: %w" [AStr id] (Sentinel ErrAlreadyExists).
Definition InvalidArgument (format : string) (args : list arg) : error :=
  Errorf (format +:+ ": %w") args (Sentinel ErrInvalidInput).
Definition IsNotFound (e : error) : bool := errors_Is e ErrNotFound.
Definition IsAlreadyExists (e : error) : bool := errors_Is e ErrAlreadyExists.
Definition IsInvalidInput (e : error) : bool := errors_Is e ErrInvalidInput.

Abbreviation result := (outcome error).

(** ** domain/domain.go *)

Record Cluster := mkCluster {
  Cluster_ID : string; Cluster_Name : string; Cluster_BrokerCount : Z;
  Cluster_BootstrapBrokers : list string; Cluster_Tags : strmap; Cluster_CreatedAt : Time }.
Record CreateClusterOptions := mkCreateClusterOptions {
  cc_BrokerCount : Z; cc_BootstrapBrokers : list string; cc_Tags : strmap }.
Record ListClustersOptions := mkListClustersOptions {
  lc_NameFilter : string; lc_MaxResults : Z; lc_NextToken : string }.
Record ListClustersResult := mkListClustersResult {
  lcr_Clusters : list Cluster; lcr_NextToken : string }.
Record Topic := mkTopic {
  Topic_ClusterID : string; Topic_Name : string; Topic_PartitionCount : Z;
  Topic_Retention : Duration; Topic_Tags : strmap; Topic_CreatedAt : Time }.
Record CreateTopicOptions := mkCreateTopicOptions {
  ct_PartitionCount : Z; ct_Retention : Duration; ct_Tags : strmap }.
Record ListTopicsOptions := mkListTopicsOptions {
  lt_ClusterID : string; lt_Prefix : string; lt_MaxResults : Z; lt_NextToken : string }.
Record ListTopicsResult := mkListTopicsResult {
  ltr_Topics : list Topic; ltr_NextToken : string }.
Record Header := mkHeader { Header_Key : string; Header_Value : slice }.
Record ProducerRecord := mkProducerRecord {
  pr_Key : slice; pr_Value : slice; pr_Headers : option (list Header); pr_Timestamp : Time }.
Record RecordMetadata := mkRecordMetadata {
  rmd_Topic : string; rmd_Partition : Z; rmd_Offset : Z; rmd_Timestamp : Time }.
Record Record_ := mkRecord {
  Record_Topic : string; Record_Partition : Z; Record_Offset : Z; Record_Key : slice;
  Record_Value : slice; Record_Headers : option (list Header); Record_Timestamp : Time }.
Record OffsetBounds := mkOffsetBounds { Earliest : Z; Latest : Z }.

(** ** inmem.go: state *)

Record partitionState := mkPartitionState { records : list Record_; nextOffset : Z }.
Record topicState := mkTopicState { topic : Topic; partitions : list partitionState }.
(** [offsetKey{cluster, group, topic, partition}] *)
Definition offsetKey : Type := string * string * string * Z.
Record Backend := mkBackend {
  clusters : gmap string Cluster; topics : gmap string topicState; offsets : gmap offsetKey Z }.

Definition New : Backend := mkBackend ∅ ∅ ∅.
Definition defaultRetention : Duration := 7 * 24 * Hour.

Definition set_topic (b : Backend) (key : string) (st : topicState) : Backend :=
  mkBackend (clusters b) (<[key := st]> (topics b)) (offsets b).
(** The write through the pointer [&st.partitions[partition]]. *)
Definition set_partition (b : Backend) (key : string) (st : topicState) (partition : Z)
    (part : partitionState) : Backend :=
  set_topic b key (mkTopicState (topic st) (<[Z.to_nat partition := part]> (partitions st))).

Definition topicKey (clusterID topic : string) : string := clusterID +:+ String "000" topic.

Definition copyStrMap (m : strmap) : strmap :=
  match m with None => None | Some m => Some (put_all m ∅) end.
Definition copyBytes (s : slice) : slice :=
  match s with None => None | Some l => Some (map (λ b, b) l) end.
Definition copyHeaders (hs : option (list Header)) : option (list Header) :=
  match hs with
  | None => None
  | Some l => Some (map (λ h, mkHeader (Header_Key h) (copyBytes (Header_Value h))) l)
  end.
Definition copyTopic (t : Topic) : Topic :=
  mkTopic (Topic_ClusterID t) (Topic_Name t) (Topic_PartitionCount t) (Topic_Retention t)
    (copyStrMap (Topic_Tags t)) (Topic_CreatedAt t).
Definition copyCluster (c : Cluster) : Cluster :=
  mkCluster (Cluster_ID c) (Cluster_Name c) (Cluster_BrokerCount c)
    ([] ++ Cluster_BootstrapBrokers c) (copyStrMap (Cluster_Tags c)) (Cluster_CreatedAt c).
Definition copyRecord (r : Record_) : Record_ :=
  mkRecord (Record_Topic r) (Record_Partition r) (Record_Offset r) (copyBytes (Record_Key r))
    (copyBytes (Record_Value r)) (copyHeaders (Record_Headers r)) (Record_Timestamp r).

(** space, tab, carriage return, line feed *)
Definition whitespace : string :=
  String " " (String "009" (String "013" (String "010" ""))).

Definition validateClusterID (clusterID : string) : option error :=
  if String.eqb clusterID "" then Some (InvalidArgument "cluster ID is required" [])
  else if ContainsAny clusterID whitespace
       then Some (InvalidArgument "cluster ID %q contains whitespace" [AStr clusterID])
       else None.
Definition validateTopicName (name : string) : option error :=
  if String.eqb name "" then Some (InvalidArgument "topic name is required" [])
  else if ContainsAny name whitespace
       then Some (InvalidArgument "topic name %q contains whitespace" [AStr name])
       else None.

(** [if err := check; err != nil { return err }] *)
Definition guard_err {A} (e : option error) (b : Backend) (k : Backend * result A)
    : Backend * result A :=
  match e with Some e => (b, Err e) | None => k end.

(** ** Pagination shared by the two listings *)

(** [NextToken] to a start index. *)
Definition parse_token (tok : string) : result Z :=
  if String.eqb tok "" then Ok 0
  else match Atoi tok with
       | Some n => if n <? 0 then Err (InvalidArgument "invalid next token %q" [AStr tok]) else Ok n
       | None => Err (InvalidArgument "invalid next token %q" [AStr tok])
       end.

(** [l[start:limit]] with the capacity [limit-start] of the output. *)
Definition page (start maxResults : Z) (tok : string) (l : list string)
    : result (list string * string) :=
  let len := Z.of_nat (length l) in
  if len <? start then Err (InvalidArgument "next token %q is out of range" [AStr tok])
  else
    let sum := wrap_s 64 (start + maxResults) in
    let '(limit, next) := if (0 <? maxResults) && (sum <? len) then (sum, Itoa sum) else (len, "") in
    if limit <? start then Panic
    else Ok (take (Z.to_nat (limit - start)) (drop (Z.to_nat start) l), next).

(** ** Clusters *)

Definition CreateCluster (now : Time) (id name : string) (opt : CreateClusterOptions) (b : Backend)
    : Backend * result Cluster :=
  guard_err (validateClusterID id) b
  (if String.eqb name "" then (b, Err (InvalidArgument "cluster name is required" []))
   else if ContainsAny name whitespace
   then (b, Err (InvalidArgument "cluster name %q contains whitespace" [AStr name]))
   else if cc_BrokerCount opt <=? 0
   then (b, Err (InvalidArgument "broker count must be positive" []))
   else match clusters b !! id with
   | Some _ => (b, Err (ClusterAlreadyExists id))
   | None =>
       let c := mkCluster id name (cc_BrokerCount opt) ([] ++ cc_BootstrapBrokers opt)
                  (copyStrMap (cc_Tags opt)) now in
       (mkBackend (<[id := c]> (clusters b)) (topics b) (offsets b), Ok (copyCluster c))
   end).

Definition DeleteCluster (id : string) (b : Backend) : Backend * result unit :=
  guard_err (validateClusterID id) b
  match clusters b !! id with
  | None => (b, Err (ClusterNotFound id))
  | Some _ =>
      (mkBackend (delete id (clusters b))
         (filter (λ '(_, st), Topic_ClusterID (topic st) ≠ id) (topics b))
         (filter (λ '((c, _, _, _), _), c ≠ id) (offsets b)), Ok ())
  end.

Definition DescribeCluster (id : string) (b : Backend) : Backend * result Cluster :=
  guard_err (validateClusterID id) b
  match clusters b !! id with
  | None => (b, Err (ClusterNotFound id))
  | Some c => (b, Ok (copyCluster c))
  end.

(** The lookups [m[k]] of the listing loops, with the nil dereference when
    [k] is missing. *)
Fixpoint fetch_all {A B} (f : A → option B) (ks : list A) : result (list B) :=
  match ks with
  | [] => Ok []
  | k :: ks => match f k with
               | None => Panic
               | Some x => let? l := fetch_all f ks in Ok (x :: l)
               end
  end.

Definition ListClusters (opt : ListClustersOptions) (b : Backend) : Backend * result ListClustersResult :=
  (b,
   let? start := parse_token (lc_NextToken opt) in
   let ids := sort_Strings (fst <$> filter (λ '(_, c), lc_NameFilter opt = "" ∨
                Contains (Cluster_Name c) (lc_NameFilter opt) = true) (map_to_list (clusters b))) in
   let? (ids, next) := page start (lc_MaxResults opt) (lc_NextToken opt) ids in
   Ok (mkListClustersResult (omap (λ id, copyCluster <$> clusters b !! id) ids) next)).

(** ** Topics *)

Definition CreateTopic (now : Time) (clusterID name : string) (opt : CreateTopicOptions)
    (b : Backend) : Backend * result Topic :=
  guard_err (validateClusterID clusterID) b (guard_err (validateTopicName name) b
  (if ct_PartitionCount opt <=? 0
   then (b, Err (InvalidArgument "partition count must be positive" []))
   else
     let retention := if ct_Retention opt =? 0 then defaultRetention else ct_Retention opt in
     if retention <? 0 then (b, Err (InvalidArgument "retention must be non-negative" []))
     else
       let key := topicKey clusterID name in
       match topics b !! key with
       | Some _ => (b, Err (TopicAlreadyExists name))
       | None =>
           let t := mkTopic clusterID name (ct_PartitionCount opt) retention
                      (copyStrMap (ct_Tags opt)) now in
           (set_topic b key (mkTopicState t
              (replicate (Z.to_nat (ct_PartitionCount opt)) (mkPartitionState [] 0))),
            Ok (copyTopic t))
       end)).

Definition DeleteTopic (clusterID name : string) (b : Backend) : Backend * result unit :=
  guard_err (validateClusterID clusterID) b
  match topics b !! topicKey clusterID name with
  | None => (b, Err (TopicNotFound name))
  | Some _ =>
      (mkBackend (clusters b) (delete (topicKey clusterID name) (topics b))
         (filter (λ '((c, _, t, _), _), ¬ (c = clusterID ∧ t = name)) (offsets b)), Ok ())
  end.

Definition DescribeTopic (clusterID name : string) (b : Backend) : Backend * result Topic :=
  guard_err (validateClusterID clusterID) b
  match topics b !! topicKey clusterID name with
  | None => (b, Err (TopicNotFound name))
  | Some st => (b, Ok (copyTopic (topic st)))
  end.

Definition ListTopics (opt : ListTopicsOptions) (b : Backend) : Backend * result ListTopicsResult :=
  guard_err (validateClusterID (lt_ClusterID opt)) b
  (b,
   let? start := parse_token (lt_NextToken opt) in
   let names := sort_Strings (filter (λ n, lt_Prefix opt = "" ∨ HasPrefix n (lt_Prefix opt) = true)
       ((λ '(_, st), Topic_Name (topic st)) <$>
          filter (λ '(_, st), Topic_ClusterID (topic st) = lt_ClusterID opt) (map_to_list (topics b)))) in
   let? (names, next) := page start (lt_MaxResults opt) (lt_NextToken opt) names in
   let? ts := fetch_all (λ n, (λ st, copyTopic (topic st)) <$> topics b !! topicKey (lt_ClusterID opt) n)
                names in
   Ok (mkListTopicsResult ts next)).

(** ** Records *)

Definition partition (clusterID topicName : string) (partition : Z) (b : Backend)
    : result (topicState * partitionState) :=
  match validateClusterID clusterID with
  | Some e => Err e
  | None =>
      match topics b !! topicKey clusterID topicName with
      | None => Err (TopicNotFound topicName)
      | Some st =>
          if (partition <? 0) || (Z.of_nat (length (partitions st)) <=? partition)
          then Err (InvalidArgument "partition %d out of range for topic %q" [AInt partition; AStr topicName])
          else match partitions st !! Z.to_nat partition with
               | Some part => Ok (st, part)
               | None => Panic
               end
      end
  end.

(** Drop the records before the first one that is not older than the cutoff. *)
Fixpoint drop_older (cutoff : Time) (rs : list Record_) : list Record_ :=
  match rs with
  | [] => []
  | r :: rs' => if Record_Timestamp r <? cutoff then drop_older cutoff rs' else rs
  end.

Definition prunePartition (retention : Duration) (now : Time) (part : partitionState) : partitionState :=
  if (retention <=? 0) || (length (records part) =? 0)%nat then part
  else mkPartitionState (drop_older (now + - retention) (records part)) (nextOffset part).

(** One turn of the append loop. *)
Definition record_of (now : Time) (topicName : string) (p : Z) (off : Z) (in_ : ProducerRecord) : Record_ :=
  mkRecord topicName p off (copyBytes (pr_Key in_)) (copyBytes (pr_Value in_))
    (copyHeaders (pr_Headers in_))
    (if pr_Timestamp in_ =? zeroTime then now else pr_Timestamp in_).
Definition metadata_of (r : Record_) : RecordMetadata :=
  mkRecordMetadata (Record_Topic r) (Record_Partition r) (Record_Offset r) (Record_Timestamp r).

Fixpoint append_loop (now : Time) (topicName : string) (p : Z) (ins : list ProducerRecord)
    (part : partitionState) (out : list RecordMetadata) : partitionState * list RecordMetadata :=
  match ins with
  | [] => (part, out)
  | in_ :: ins =>
      let rec := record_of now topicName p (nextOffset part) in_ in
      append_loop now topicName p ins
        (mkPartitionState (records part ++ [rec]) (wrap_s 64 (nextOffset part + 1)))
        (out ++ [metadata_of rec])
  end.

Definition Produce (now : Time) (clusterID topicName : string) (p : Z) (ins : list ProducerRecord)
    (b : Backend) : Backend * result (list RecordMetadata) :=
  if (length ins =? 0)%nat then (b, Ok [])
  else match partition clusterID topicName p b with
  | Err e => (b, Err e)
  | Panic => (b, Panic)
  | Ok (st, part) =>
      let part := prunePartition (Topic_Retention (topic st)) now part in
      let '(part, out) := append_loop now topicName p ins part [] in
      (set_partition b (topicKey clusterID topicName) st p part, Ok out)
  end.

(** The copy loop of Fetch. *)
Fixpoint fetch_loop (offset maxRecords : Z) (rs : list Record_) (out : list Record_) : list Record_ :=
  match rs with
  | [] => out
  | rec :: rs =>
      if Record_Offset rec <? offset then fetch_loop offset maxRecords rs out
      else if (0 <? maxRecords) && (maxRecords <=? Z.of_nat (length out)) then out
      else fetch_loop offset maxRecords rs (out ++ [copyRecord rec])
  end.

Definition Fetch (now : Time) (clusterID topicName : string) (p offset maxRecords : Z) (b : Backend)
    : Backend * result (list Record_) :=
  if offset <? 0 then (b, Err (InvalidArgument "offset must be non-negative" []))
  else if maxRecords <? 0 then (b, Err (InvalidArgument "max records must be non-negative" []))
  else match partition clusterID topicName p b with
  | Err e => (b, Err e)
  | Panic => (b, Panic)
  | Ok (st, part) =>
      let part := prunePartition (Topic_Retention (topic st)) now part in
      let b := set_partition b (topicKey clusterID topicName) st p part in
      match head (records part) with
      | Some r0 =>
          if offset <? Record_Offset r0
          then (b, Err (InvalidArgument "offset %d is before earliest retained offset %d"
                          [AInt offset; AInt (Record_Offset r0)]))
          else if nextOffset part <? offset
          then (b, Err (InvalidArgument "offset %d is after latest offset %d"
                          [AInt offset; AInt (nextOffset part)]))
          else (b, Ok (fetch_loop offset maxRecords (records part) []))
      | None =>
          if nextOffset part <? offset
          then (b, Err (InvalidArgument "offset %d is after latest offset %d"
                          [AInt offset; AInt (nextOffset part)]))
          else (b, Ok (fetch_loop offset maxRecords (records part) []))
      end
  end.

Definition ListOffsets (now : Time) (clusterID topicName : string) (p : Z) (b : Backend)
    : Backend * result OffsetBounds :=
  match partition clusterID topicName p b with
  | Err e => (b, Err e)
  | Panic => (b, Panic)
  | Ok (st, part) =>
      let part := prunePartition (Topic_Retention (topic st)) now part in
      (set_partition b (topicKey clusterID topicName) st p part,
       Ok (mkOffsetBounds
             (match head (records part) with Some r => Record_Offset r | None => nextOffset part end)
             (nextOffset part)))
  end.

Definition CommitOffset (clusterID group topicName : string) (p offset : Z) (b : Backend)
    : Backend * result unit :=
  guard_err (validateClusterID clusterID) b
  (if String.eqb group "" then (b, Err (InvalidArgument "consumer group is required" []))
   else if offset <? 0 then (b, Err (InvalidArgument "offset must be non-negative" []))
   else match partition clusterID topicName p b with
   | Err e => (b, Err e)
   | Panic => (b, Panic)
   | Ok (_, part) =>
       if nextOffset part <? offset
       then (b, Err (InvalidArgument "offset %d is after latest offset %d"
                       [AInt offset; AInt (nextOffset part)]))
       else (mkBackend (clusters b) (topics b)
               (<[(clusterID, group, topicName, p) := offset]> (offsets b)), Ok ())
   end).

Definition FetchCommittedOffset (clusterID group topicName : string) (p : Z) (b : Backend)
    : Backend * result Z :=
  guard_err (validateClusterID clusterID) b
  (if String.eqb group "" then (b, Err (InvalidArgument "consumer group is required" []))
   else match partition clusterID topicName p b with
   | Err e => (b, Err e)
   | Panic => (b, Panic)
   | Ok _ =>
       match offsets b !! (clusterID, group, topicName, p) with
       | None => (b, Err (InvalidArgument "consumer group %q has no committed offset for %s partition %d"
                            [AStr group; AStr topicName; AInt p]))
       | Some offset => (b, Ok offset)
       end
   end).
