(* ===== verification/EventStreamProps.v ===== *)
(** * Event streaming: the properties of the partition log

    Each partition is a suffix of an append-only history; produce extends the
    history with consecutive offsets, fetch reads it, committed offsets stay
    within it, and paginated topic listings are complete, with the one overflow
    that makes a page panic. *)

From Stdlib Require Import Ascii.
From S2P Require Import Prelude GoStrings GoBytes EventStream.

(** ** Copies *)

Lemma es_copyStrMap_id m : copyStrMap m = m.
Proof. apply copy_map_id. Qed.
Lemma es_copyBytes_id s : copyBytes s = s.
Proof. destruct s as [l|]; [|done]. simpl. by rewrite map_id. Qed.
Lemma copyHeaders_id hs : copyHeaders hs = hs.
Proof.
  destruct hs as [l|]; [|done]. simpl. f_equal. induction l as [|[k v] l IH]; [done|].
  simpl. by rewrite IH, es_copyBytes_id.
Qed.
Lemma copyRecord_id r : copyRecord r = r.
Proof. destruct r. unfold copyRecord. simpl. by rewrite !es_copyBytes_id, copyHeaders_id. Qed.
Lemma copyTopic_id t : copyTopic t = t.
Proof. destruct t. unfold copyTopic. simpl. by rewrite es_copyStrMap_id. Qed.

(** ** One partition *)

(** The partition is what retention has left of the history [h], the records
    appended so far, in which the record at position [i] has offset [i]. *)
Definition log_of (part : partitionState) (h : list Record_) : Prop :=
  (∃ k, (k <= length h)%nat ∧ records part = drop k h) ∧
  nextOffset part = Z.of_nat (length h) ∧
  ∀ i r, h !! i = Some r → Record_Offset r = Z.of_nat i.

(** The records that appending [ins] at offset [n] makes. *)
Definition new_records (now : Time) (t : string) (p n : Z) (ins : list ProducerRecord) : list Record_ :=
  imap (λ i x, record_of now t p (n + Z.of_nat i) x) ins.

Lemma new_records_cons now t p n x ins :
  new_records now t p n (x :: ins) = record_of now t p n x :: new_records now t p (n + 1) ins.
Proof.
  unfold new_records. simpl. rewrite Z.add_0_r. f_equal. apply imap_ext. intros i y _. simpl. f_equal. lia.
Qed.

Lemma length_new_records now t p n ins : length (new_records now t p n ins) = length ins.
Proof. apply length_imap. Qed.

Lemma append_loop_spec now t p ins part out :
  0 <= nextOffset part → nextOffset part + Z.of_nat (length ins) < 2 ^ 63 →
  let new := new_records now t p (nextOffset part) ins in
  append_loop now t p ins part out =
    (mkPartitionState (records part ++ new) (nextOffset part + Z.of_nat (length ins)),
     out ++ (metadata_of <$> new)).
Proof.
  revert part out. induction ins as [|x ins IH]; intros part out H0 H; cbv zeta.
  { simpl. rewrite Z.add_0_r, !app_nil_r. by destruct part. }
  cbn [length] in H. cbn [append_loop]. rewrite new_records_cons.
  rewrite (wrap_s_small 64) by (unfold in_s; lia). rewrite IH by (cbn [nextOffset]; lia).
  cbn [nextOffset records length]. rewrite <-!(assoc_L (++)). simpl. f_equal. apply (f_equal (mkPartitionState _)). lia.
Qed.

Lemma drop_older_drop c rs : ∃ j, (j <= length rs)%nat ∧ drop_older c rs = drop j rs.
Proof.
  induction rs as [|r rs (j & Hj & E)]; simpl.
  { by exists O. }
  destruct (Record_Timestamp r <? c); [|exists O; split; [lia|done]].
  exists (S j). split; [lia|done].
Qed.

Lemma log_of_prune ret now part h : log_of part h → log_of (prunePartition ret now part) h.
Proof.
  intros ((k & Hk & Hr) & Hn & Ho). unfold prunePartition. destruct (_ || _); [split; eauto|].
  split; [|done]. destruct (drop_older_drop (now + - ret) (records part)) as (j & Hj & E).
  simpl. rewrite E, Hr, drop_drop. rewrite Hr, length_drop in Hj. exists (k + j)%nat. split; [lia|done].
Qed.

Lemma log_of_append now t p ins part h :
  log_of part h → Z.of_nat (length h + length ins) < 2 ^ 63 →
  let new := new_records now t p (Z.of_nat (length h)) ins in
  append_loop now t p ins part [] = (mkPartitionState (records part ++ new)
     (Z.of_nat (length h + length ins)), metadata_of <$> new) ∧
  log_of (mkPartitionState (records part ++ new) (Z.of_nat (length h + length ins))) (h ++ new).
Proof.
  intros ((k & Hk & Hr) & Hn & Ho) Hb new. split.
  - rewrite append_loop_spec by lia. rewrite Hn. fold new. do 2 f_equal. lia.
  - split_and!; cbn [records nextOffset].
    + exists k. rewrite length_app. split; [lia|]. by rewrite Hr, drop_app_le.
    + unfold new. by rewrite length_app, length_new_records.
    + intros i r. rewrite lookup_app. destruct (h !! i) eqn:E; [intros [= <-]; by apply Ho|].
      apply lookup_ge_None in E. unfold new, new_records. rewrite list_lookup_imap.
      intros (x & _ & ->)%fmap_Some. simpl. lia.
Qed.

(** *** Fetching *)

Definition take_max (n : Z) (l : list Record_) : list Record_ :=
  if 0 <? n then take (Z.to_nat n) l else l.

Lemma fetch_loop_take off max rs out :
  (∀ i r, rs !! i = Some r → off <= Record_Offset r) →
  Z.of_nat (length out) <= max ∨ max <= 0 →
  fetch_loop off max rs out =
    out ++ (if 0 <? max then take (Z.to_nat max - length out) rs else rs).
Proof.
  revert out. induction rs as [|r rs IH]; intros out Hoff Hmax; cbn [fetch_loop].
  { destruct (0 <? max); [|by rewrite app_nil_r]. by rewrite take_nil, app_nil_r. }
  pose proof (Hoff O r eq_refl). assert ((Record_Offset r <? off) = false) as -> by lia.
  assert (∀ i r, rs !! i = Some r → off <= Record_Offset r) as Hoff' by (intros i x Hx; by apply (Hoff (S i))).
  destruct (0 <? max) eqn:Hm; cbn [andb].
  - destruct (max <=? Z.of_nat (length out)) eqn:Hf.
    + by replace (Z.to_nat max - length out)%nat with O by lia; rewrite app_nil_r.
    + rewrite IH by (rewrite ?length_app; simpl; auto; lia). rewrite copyRecord_id, length_app. cbn [length].
      replace (Z.to_nat max - length out)%nat with (S (Z.to_nat max - (length out + 1))) by lia.
      by rewrite <-(assoc_L (++)).
  - rewrite IH by (auto; lia). by rewrite copyRecord_id, <-(assoc_L (++)).
Qed.

Lemma fetch_loop_skip off max rs k :
  (∀ i r, rs !! i = Some r → Record_Offset r = k + Z.of_nat i) → 0 <= max →
  fetch_loop off max rs [] = take_max max (drop (Z.to_nat (off - k)) rs).
Proof.
  intros Hrs Hmax. revert k Hrs. induction rs as [|r rs IH]; intros k Hrs.
  { rewrite drop_nil. unfold take_max. by destruct (0 <? max); rewrite ?take_nil. }
  destruct (decide (off <= k)) as [Hle|Hgt].
  - rewrite fetch_loop_take; [|intros i x Hx; rewrite (Hrs i x Hx); lia|left; simpl; lia].
    replace (Z.to_nat (off - k)) with O by lia. simpl. unfold take_max. by rewrite Nat.sub_0_r.
  - cbn [fetch_loop]. pose proof (Hrs O r eq_refl).
    assert ((Record_Offset r <? off) = true) as -> by lia. rewrite (IH (k + 1)).
    + by replace (Z.to_nat (off - k)) with (S (Z.to_nat (off - (k + 1)))) by lia.
    + intros i x Hx. rewrite (Hrs (S i) x Hx). lia.
Qed.

(** ** The partitions of the backend *)

Definition has_log (b : Backend) (c t : string) (p : Z) (h : list Record_) : Prop :=
  ∃ st part, topics b !! topicKey c t = Some st ∧ Topic_ClusterID (topic st) = c ∧
    0 <= p ∧ partitions st !! Z.to_nat p = Some part ∧ log_of part h.

Lemma partition_Ok c t p b st part :
  partition c t p b = Ok (st, part) ↔
  validateClusterID c = None ∧ topics b !! topicKey c t = Some st ∧ 0 <= p ∧
  partitions st !! Z.to_nat p = Some part.
Proof.
  unfold partition. destruct (validateClusterID c); [naive_solver|].
  destruct (topics b !! topicKey c t) as [st'|]; [|naive_solver].
  destruct (_ || _) eqn:E.
  - split; [done|]. intros (_ & [= ->] & Hp & Hl%lookup_lt_Some). lia.
  - destruct (partitions st' !! Z.to_nat p) as [part'|] eqn:El; [|naive_solver].
    split; [intros [= -> ->]; split_and!; [done..|lia|done]|naive_solver].
Qed.

Lemma partition_no_panic c t p b : partition c t p b ≠ Panic.
Proof.
  unfold partition. destruct (validateClusterID c); [done|].
  destruct (topics b !! topicKey c t) as [st|]; [|done]. destruct (_ || _) eqn:E; [done|].
  destruct (partitions st !! Z.to_nat p) eqn:El; [done|]. apply lookup_ge_None in El. lia.
Qed.

Definition same_part (c t : string) (p : Z) (c' t' : string) (p' : Z) : Prop :=
  topicKey c' t' = topicKey c t ∧ p' = p.
#[export] Instance same_part_dec c t p c' t' p' : Decision (same_part c t p c' t' p').
Proof. unfold same_part. apply _. Defined.

(** Writing one partition back. *)
Lemma has_log_set b c t p h c' t' p' st' part' new h' :
  has_log b c t p h → partition c' t' p' b = Ok (st', part') →
  (if decide (same_part c t p c' t' p') then log_of part' h → log_of new h' else h' = h) →
  has_log (set_partition b (topicKey c' t') st' p' new) c t p h'.
Proof.
  intros (st & part & Ht & Hc & Hp & Hl & Hlog) (Hv & Ht' & Hp' & Hl')%partition_Ok Hnew.
  unfold has_log, set_partition, set_topic. cbn [topics].
  destruct (decide (topicKey c' t' = topicKey c t)) as [E|Hne].
  - rewrite E in Ht'. assert (st' = st) as -> by congruence. rewrite E, lookup_insert_eq.
    destruct (decide (p' = p)) as [->|Hp2].
    + rewrite decide_True in Hnew by done. assert (part' = part) as -> by congruence.
      eexists _, new. cbn [topic partitions]. split_and!; [done..| |by apply Hnew].
      apply list_lookup_insert_eq. by eapply lookup_lt_Some.
    + rewrite decide_False in Hnew by (by intros [_ ?]). subst h'.
      eexists _, part. cbn [topic partitions]. split_and!; [done..| |done].
      cbn [partitions]. rewrite list_lookup_insert_ne by lia. done.
  - rewrite decide_False in Hnew by (by intros [? _]). subst h'.
    exists st, part. by rewrite lookup_insert_ne.
Qed.

Lemma has_log_topics b b' c t p h :
  topics b' !! topicKey c t = topics b !! topicKey c t → has_log b c t p h → has_log b' c t p h.
Proof. intros E (st & part & Ht & H). exists st, part. by rewrite E. Qed.

(** ** Operations as steps *)

Inductive op :=
  | OpCreateCluster (now : Time) (id name : string) (opt : CreateClusterOptions)
  | OpDeleteCluster (id : string)
  | OpDescribeCluster (id : string)
  | OpListClusters (opt : ListClustersOptions)
  | OpCreateTopic (now : Time) (c t : string) (opt : CreateTopicOptions)
  | OpDeleteTopic (c t : string)
  | OpDescribeTopic (c t : string)
  | OpListTopics (opt : ListTopicsOptions)
  | OpProduce (now : Time) (c t : string) (p : Z) (ins : list ProducerRecord)
  | OpFetch (now : Time) (c t : string) (p offset maxRecords : Z)
  | OpListOffsets (now : Time) (c t : string) (p : Z)
  | OpCommitOffset (c group t : string) (p offset : Z)
  | OpFetchCommittedOffset (c group t : string) (p : Z).

Definition forget {A} (r : Backend * result A) : Backend * result unit :=
  (r.1, let? _ := r.2 in Ok ()).

Definition run (o : op) (b : Backend) : Backend * result unit :=
  match o with
  | OpCreateCluster now i n opt => forget (CreateCluster now i n opt b)
  | OpDeleteCluster i => forget (DeleteCluster i b)
  | OpDescribeCluster i => forget (DescribeCluster i b)
  | OpListClusters opt => forget (ListClusters opt b)
  | OpCreateTopic now c t opt => forget (CreateTopic now c t opt b)
  | OpDeleteTopic c t => forget (DeleteTopic c t b)
  | OpDescribeTopic c t => forget (DescribeTopic c t b)
  | OpListTopics opt => forget (ListTopics opt b)
  | OpProduce now c t p ins => forget (Produce now c t p ins b)
  | OpFetch now c t p off mx => forget (Fetch now c t p off mx b)
  | OpListOffsets now c t p => forget (ListOffsets now c t p b)
  | OpCommitOffset c g t p off => forget (CommitOffset c g t p off b)
  | OpFetchCommittedOffset c g t p => forget (FetchCommittedOffset c g t p b)
  end.

Fixpoint run_all (os : list op) (b : Backend) : Backend :=
  match os with [] => b | o :: os => run_all os (run o b).1 end.

(** The records an operation appends to partition [p] of a topic whose history
    has [n] records. *)
Definition appended (o : op) (c t : string) (p n : Z) : list Record_ :=
  match o with
  | OpProduce now c' t' p' ins =>
      if decide (same_part c t p c' t' p' ∧ validateClusterID c' = None)
      then new_records now t' p' n ins else []
  | _ => []
  end.
Fixpoint history (os : list op) (c t : string) (p : Z) (h : list Record_) : list Record_ :=
  match os with
  | [] => h
  | o :: os => history os c t p (h ++ appended o c t p (Z.of_nat (length h)))
  end.

(** The operation does not delete the topic. *)
Definition spares (c t : string) (o : op) : Prop :=
  match o with
  | OpDeleteCluster i => i ≠ c
  | OpDeleteTopic c' t' => topicKey c' t' ≠ topicKey c t
  | _ => True
  end.

(** *** Each operation extends the history of a spared partition *)

Lemma guard_err_state {A} e b (k : Backend * result A) (P : Backend → Prop) :
  P b → (e = None → P k.1) → P (guard_err e b k).1.
Proof. destruct e; simpl; auto. Qed.

Lemma has_log_partition b c t p h c' t' p' :
  has_log b c t p h → same_part c t p c' t' p' → validateClusterID c' = None →
  ∃ st part, partition c' t' p' b = Ok (st, part) ∧ log_of part h.
Proof.
  intros (st & part & Ht & Hc & Hp & Hl & Hlog) [Ek ->] Hv. exists st, part. split; [|done].
  apply partition_Ok. by rewrite Ek.
Qed.

(** A pruning write-back keeps every history. *)
Lemma has_log_prune b c t p h c' t' p' st' part' now :
  has_log b c t p h → partition c' t' p' b = Ok (st', part') →
  has_log (set_partition b (topicKey c' t') st' p'
    (prunePartition (Topic_Retention (topic st')) now part')) c t p h.
Proof.
  intros Hl Hp. eapply has_log_set; [done..|]. case_decide; [|done]. apply log_of_prune.
Qed.

Lemma Produce_has_log now c' t' p' ins b c t p h :
  let a := appended (OpProduce now c' t' p' ins) c t p (Z.of_nat (length h)) in
  has_log b c t p h → Z.of_nat (length (h ++ a)) < 2 ^ 63 →
  has_log (Produce now c' t' p' ins b).1 c t p (h ++ a).
Proof.
  intros a Hl Hb. unfold a, appended in *. clear a. unfold Produce.
  destruct (length ins =? 0)%nat eqn:E0.
  { apply Nat.eqb_eq, length_zero_iff_nil in E0 as ->. simpl. case_decide; by rewrite app_nil_r. }
  destruct (decide (same_part c t p c' t' p' ∧ validateClusterID c' = None)) as [[Hs Hv]|Hns].
  - destruct (has_log_partition _ _ _ _ _ _ _ _ Hl Hs Hv) as (st & part & E & Hlog). rewrite E.
    rewrite length_app, length_new_records in Hb.
    pose proof (log_of_prune (Topic_Retention (topic st)) now part h Hlog) as Hlog'.
    destruct (log_of_append now t' p' ins _ h Hlog' Hb) as [-> Happ]. cbn [fst].
    eapply has_log_set; [done..|]. by rewrite decide_True.
  - rewrite app_nil_r. destruct (partition c' t' p' b) as [[st part]|e|] eqn:E; [|done|done].
    pose proof (proj1 (partition_Ok _ _ _ _ _ _) E) as (Hv & _).
    destruct (append_loop _ _ _ _ _ _) as [part' out]. cbn [fst].
    eapply has_log_set; [done..|]. rewrite decide_False; [done|]. naive_solver.
Qed.

Lemma Fetch_has_log now c' t' p' off mx b c t p h :
  has_log b c t p h → has_log (Fetch now c' t' p' off mx b).1 c t p h.
Proof.
  intros Hl. unfold Fetch. destruct (off <? 0), (mx <? 0); try done.
  destruct (partition c' t' p' b) as [[st part]|e|] eqn:E; [|done|done].
  pose proof (has_log_prune _ _ _ _ _ _ _ _ _ _ now Hl E) as H.
  by repeat (case_match; try exact H).
Qed.

Lemma run_has_log o b c t p h :
  spares c t o → let a := appended o c t p (Z.of_nat (length h)) in
  has_log b c t p h → Z.of_nat (length (h ++ a)) < 2 ^ 63 → has_log (run o b).1 c t p (h ++ a).
Proof.
  intros Hs a Hl Hb. destruct o; try (unfold a; rewrite app_nil_r); cbn [run forget fst];
    unfold CreateCluster, DeleteCluster, DescribeCluster, CreateTopic, DeleteTopic, DescribeTopic,
      ListTopics, CommitOffset, FetchCommittedOffset.
  - apply (guard_err_state _ _ _ (λ b, has_log b c t p h)); [done|]. intros _. by repeat (case_match; try exact Hl).
  - apply (guard_err_state _ _ _ (λ b, has_log b c t p h)); [done|]. intros _. destruct (clusters b !! id); [|done].
    destruct Hl as (st & part & Ht & Hc & H). exists st, part. split; [|done]. cbn [fst topics].
    apply map_lookup_filter_Some. split; [done|]. simpl in Hs. congruence.
  - apply (guard_err_state _ _ _ (λ b, has_log b c t p h)); [done|]. intros _. by case_match.
  - done.
  - do 2 (apply (guard_err_state _ _ _ (λ b, has_log b c t p h)); [done|]; intros _). destruct (ct_PartitionCount opt <=? 0); [done|].
    destruct (_ <? 0); [done|]. destruct (topics b !! topicKey c0 t0) eqn:E; [done|].
    eapply has_log_topics; [|exact Hl]. cbn [fst set_topic topics]. apply lookup_insert_ne.
    destruct Hl as (st & part & Ht & _). intros Ek. congruence.
  - apply (guard_err_state _ _ _ (λ b, has_log b c t p h)); [done|]. intros _. destruct (topics b !! topicKey c0 t0); [|done].
    eapply has_log_topics; [|exact Hl]. cbn [fst topics]. by apply lookup_delete_ne.
  - apply (guard_err_state _ _ _ (λ b, has_log b c t p h)); [done|]. intros _. by case_match.
  - by apply (guard_err_state _ _ _ (λ b, has_log b c t p h)).
  - by apply Produce_has_log.
  - by apply Fetch_has_log.
  - unfold ListOffsets. destruct (partition c0 t0 p0 b) as [[st part]|e|] eqn:E; [|done|done].
    by apply has_log_prune.
  - apply (guard_err_state _ _ _ (λ b, has_log b c t p h)); [done|]. intros _. by repeat (case_match; try exact Hl).
  - apply (guard_err_state _ _ _ (λ b, has_log b c t p h)); [done|]. intros _. by repeat (case_match; try exact Hl).
Qed.

Lemma history_grows os c t p h : (length h <= length (history os c t p h))%nat.
Proof.
  revert h. induction os as [|o os IH]; intros h; simpl; [done|].
  etrans; [|apply IH]. rewrite length_app. lia.
Qed.

Lemma run_all_has_log os b c t p h :
  Forall (spares c t) os → Z.of_nat (length (history os c t p h)) < 2 ^ 63 →
  has_log b c t p h → has_log (run_all os b) c t p (history os c t p h).
Proof.
  intros Hos. revert b h. induction Hos as [|o os Ho _ IH]; intros b h Hb Hl; [done|].
  cbn [run_all history] in *. apply IH; [done|]. apply run_has_log; [done..|].
  pose proof (history_grows os c t p (h ++ appended o c t p (Z.of_nat (length h)))). lia.
Qed.

(** *** Reading a partition *)

Lemma log_of_contiguous part h k :
  records part = drop k h → (k <= length h)%nat →
  (∀ i r, h !! i = Some r → Record_Offset r = Z.of_nat i) →
  ∀ i r, records part !! i = Some r → Record_Offset r = Z.of_nat k + Z.of_nat i.
Proof. intros -> Hk Ho i r. rewrite lookup_drop. intros H%Ho. lia. Qed.

(** What ListOffsets and Fetch answer on a partition with history [h] of which
    the records from position [k] on are retained. *)
Lemma read_log_from now b c t p st part h k :
  partition c t p b = Ok (st, part) → log_of part h → (k <= length h)%nat →
  records (prunePartition (Topic_Retention (topic st)) now part) = drop k h →
  (ListOffsets now c t p b).2 = Ok (mkOffsetBounds (Z.of_nat k) (Z.of_nat (length h))) ∧
  ∀ off mx, 0 <= off → 0 <= mx →
    match (Fetch now c t p off mx b).2 with
    | Ok rs => off <= Z.of_nat (length h) ∧ (Z.of_nat k <= off ∨ k = length h) ∧
               rs = take_max mx (drop (Z.to_nat off `max` k) h)
    | Err e => IsInvalidInput e = true ∧ (Z.of_nat (length h) < off ∨ off < Z.of_nat k ∧ (k < length h)%nat)
    | Panic => False
    end.
Proof.
  intros E Hlog Hk Hr. pose proof (log_of_prune (Topic_Retention (topic st)) now part h Hlog) as (_ & Hn & Ho).
  unfold ListOffsets, Fetch. rewrite E. set (pt := prunePartition _ _ _) in *.
  pose proof (log_of_contiguous pt h k Hr Hk Ho) as Hc. rewrite Hn.
  assert (match head (records pt) with
          | Some r => Record_Offset r = Z.of_nat k ∧ (k < length h)%nat
          | None => k = length h
          end) as Hhead.
  { destruct (records pt) as [|r rs] eqn:Er; simpl.
    - assert (length (drop k h) = 0%nat) as Hd by (by rewrite <-Hr). rewrite length_drop in Hd. lia.
    - split; [rewrite (Hc O r eq_refl); lia|]. apply (f_equal length) in Hr. rewrite length_drop in Hr. cbn in Hr. lia. }
  split.
  { cbn [snd]. do 2 f_equal. destruct (head (records pt)); [by destruct Hhead|by subst]. }
  intros off mx Hoff Hmx. assert ((off <? 0) = false) as -> by lia.
  assert ((mx <? 0) = false) as -> by lia.
  assert (fetch_loop off mx (records pt) [] = take_max mx (drop (Z.to_nat off `max` k) h)) as Hf.
  { rewrite (fetch_loop_skip _ _ _ (Z.of_nat k) Hc Hmx), Hr, drop_drop. do 2 f_equal. lia. }
  destruct (head (records pt)) as [r|].
  - destruct Hhead as [-> Hlt]. destruct (off <? Z.of_nat k) eqn:E1; [cbn [snd]; split; [done|lia]|].
    destruct (Z.of_nat (length h) <? off) eqn:E2; cbn [snd]; [split; [done|lia]|]. split_and!; [lia|lia|done].
  - destruct (Z.of_nat (length h) <? off) eqn:E2; cbn [snd]; [split; [done|lia]|]. split_and!; [lia|by right|done].
Qed.

Lemma read_log now b c t p h :
  has_log b c t p h → validateClusterID c = None →
  ∃ k, (k <= length h)%nat ∧
    (ListOffsets now c t p b).2 = Ok (mkOffsetBounds (Z.of_nat k) (Z.of_nat (length h))) ∧
    ∀ off mx, 0 <= off → 0 <= mx →
      match (Fetch now c t p off mx b).2 with
      | Ok rs => off <= Z.of_nat (length h) ∧ (Z.of_nat k <= off ∨ k = length h) ∧
                 rs = take_max mx (drop (Z.to_nat off `max` k) h)
      | Err _ => Z.of_nat (length h) < off ∨ off < Z.of_nat k
      | Panic => False
      end.
Proof.
  intros Hl Hv. destruct (has_log_partition _ _ _ _ _ c t p Hl (conj eq_refl eq_refl) Hv) as (st & part & E & Hlog).
  pose proof (log_of_prune (Topic_Retention (topic st)) now part h Hlog) as ((k & Hk & Hr) & _).
  destruct (read_log_from now b c t p st part h k E Hlog Hk Hr) as [HL HF]. exists k. split_and!; [done..|].
  intros off mx Hoff Hmx. specialize (HF off mx Hoff Hmx). destruct (Fetch _ _ _ _ _ _ _).2; naive_solver.
Qed.

(** A partition with history [h] of which the records from position [k] on are
    kept, in a topic whose retention is [ret]. *)
Definition kept (b : Backend) (c t : string) (p : Z) (ret : Duration) (h : list Record_) (k : nat) : Prop :=
  ∃ st part, topics b !! topicKey c t = Some st ∧ Topic_ClusterID (topic st) = c ∧ Topic_Retention (topic st) = ret ∧
    0 <= p ∧ partitions st !! Z.to_nat p = Some part ∧ log_of part h ∧ (k <= length h)%nat ∧ records part = drop k h.

Lemma kept_has_log b c t p ret h k : kept b c t p ret h k → has_log b c t p h.
Proof. intros (st & part & ?&?&?&?&?&?&?). by exists st, part. Qed.

(** Retention at the time [now], where the records from position [k] on were
    there: it goes on to [k'], past the records that are too old, up to the first
    that is not; without a retention nothing goes. *)
Definition retained (ret : Duration) (now : Time) (h : list Record_) (k k' : nat) : Prop :=
  (k <= k' <= length h)%nat ∧
  (ret <= 0 → k' = k) ∧
  (0 < ret → (∀ i r, (k <= i < k')%nat → h !! i = Some r → Record_Timestamp r < now - ret) ∧
             (∀ r, h !! k' = Some r → now - ret <= Record_Timestamp r)).

Lemma drop_older_retained ret now h k : 0 < ret → (k <= length h)%nat →
  ∃ k', retained ret now h k k' ∧ drop_older (now + - ret) (drop k h) = drop k' h.
Proof.
  intros Hret. remember (drop k h) as l eqn:El. revert k El. induction l as [|r l IH]; intros k El Hk.
  { exists k. split; [|done]. split_and!; [lia|lia|done|]. intros _. split; [intros i r Hi; lia|].
    intros r Hr. exfalso. apply lookup_lt_Some in Hr. apply (f_equal length) in El. rewrite length_drop in El. cbn in El. lia. }
  assert (h !! k = Some r) as Hr by (rewrite <-(Nat.add_0_r k), <-lookup_drop, <-El; done).
  assert (l = drop (S k) h) as El' by (rewrite <-Nat.add_1_r, <-drop_drop, <-El; done).
  cbn [drop_older]. destruct (Z.ltb_spec (Record_Timestamp r) (now + - ret)).
  - apply lookup_lt_Some in Hr as Hlt. destruct (IH (S k) El') as (k' & (Hkk & Hz & Hpos) & E); [lia|]. exists k'.
    split; [|by rewrite E]. destruct (Hpos Hret) as [H1 H2]. split_and!; [lia|lia|lia|]. intros _. split; [|done].
    intros i x Hi Hx. destruct (decide (i = k)) as [->|]; [|apply (H1 i); [lia|done]].
    assert (x = r) as -> by congruence. lia.
  - exists k. split; [|done]. split_and!; [lia|lia|done|]. intros _. split; [intros i x Hi; lia|]. intros x Hx.
    assert (x = r) as -> by congruence. lia.
Qed.

Lemma prune_retained ret now part h k : (k <= length h)%nat → records part = drop k h →
  ∃ k', retained ret now h k k' ∧ records (prunePartition ret now part) = drop k' h.
Proof.
  intros Hk Hr. unfold prunePartition. destruct (Z.leb_spec ret 0); cbn [orb].
  { exists k. split; [|done]. split_and!; [lia|lia|done|lia]. }
  destruct (Nat.eqb_spec (length (records part)) 0) as [E|].
  { exists k. split; [|done]. apply length_zero_iff_nil in E. rewrite Hr in E. apply (f_equal length) in E. rewrite length_drop in E.
    cbn in E. split_and!; [lia|lia|done|]. intros _. split; [intros i r Hi; lia|]. intros r Hx%lookup_lt_Some. lia. }
  cbn [records]. rewrite Hr. by apply drop_older_retained.
Qed.

(** A partition whose records are written back pruned. *)
Lemma kept_written b c t p st part now h k' :
  partition c t p b = Ok (st, part) → Topic_ClusterID (topic st) = c → log_of part h → (k' <= length h)%nat →
  let pt := prunePartition (Topic_Retention (topic st)) now part in
  records pt = drop k' h →
  let b' := set_partition b (topicKey c t) st p pt in
  partition c t p b' = Ok (mkTopicState (topic st) (<[Z.to_nat p := pt]> (partitions st)), pt) ∧
  kept b' c t p (Topic_Retention (topic st)) h k'.
Proof.
  intros E Hc Hlog Hk pt Hr b'. apply partition_Ok in E as (Hv & Hst & Hp & Hpart).
  assert (topics b' !! topicKey c t = Some (mkTopicState (topic st) (<[Z.to_nat p := pt]> (partitions st)))) as Ht
    by (unfold b', set_partition, set_topic; cbn [topics]; by rewrite lookup_insert_eq).
  assert ((<[Z.to_nat p := pt]> (partitions st)) !! Z.to_nat p = Some pt) as Hpt
    by (apply list_lookup_insert_eq; by eapply lookup_lt_Some).
  split; [by apply partition_Ok|]. eexists _, pt. split; [exact Ht|]. cbn [topic partitions].
  split_and!; try done; by apply log_of_prune.
Qed.

(** ListOffsets followed by Fetch: retention moves forward before each. *)
Lemma read_log_twice now now' b c t p ret h k0 :
  kept b c t p ret h k0 → validateClusterID c = None →
  let b1 := (ListOffsets now c t p b).1 in
  ∃ k k', retained ret now h k0 k ∧ retained ret now' h k k' ∧
    (ListOffsets now c t p b).2 = Ok (mkOffsetBounds (Z.of_nat k) (Z.of_nat (length h))) ∧
    ∀ off mx, 0 <= off → 0 <= mx → kept (Fetch now' c t p off mx b1).1 c t p ret h k' ∧
      match (Fetch now' c t p off mx b1).2 with
      | Ok rs => off <= Z.of_nat (length h) ∧ (Z.of_nat k' <= off ∨ k' = length h) ∧
                 rs = take_max mx (drop (Z.to_nat off `max` k') h)
      | Err e => IsInvalidInput e = true ∧ (Z.of_nat (length h) < off ∨ off < Z.of_nat k' ∧ (k' < length h)%nat)
      | Panic => False
      end.
Proof.
  intros (st & part & Ht & Hc & <- & Hp & Hpart & Hlog & Hk0 & Hr0) Hv b1.
  assert (partition c t p b = Ok (st, part)) as E by (by apply partition_Ok).
  destruct (prune_retained (Topic_Retention (topic st)) now part h k0 Hk0 Hr0) as (k & Hk & Hr).
  pose proof (proj1 Hk) as Hkb.
  destruct (read_log_from now b c t p st part h k E Hlog ltac:(lia) Hr) as [HL _].
  destruct (kept_written b c t p st part now h k E Hc Hlog ltac:(lia) Hr) as [E1 _].
  assert (b1 = set_partition b (topicKey c t) st p (prunePartition (Topic_Retention (topic st)) now part)) as Eb
    by (unfold b1, ListOffsets; by rewrite E).
  rewrite <-Eb in E1. set (pt := prunePartition (Topic_Retention (topic st)) now part) in *.
  set (st1 := mkTopicState (topic st) (<[Z.to_nat p := pt]> (partitions st))) in *.
  assert (log_of pt h) as Hlog1 by by apply log_of_prune.
  destruct (prune_retained (Topic_Retention (topic st)) now' pt h k ltac:(lia) Hr) as (k' & Hk' & Hr').
  pose proof (proj1 Hk') as Hkb'.
  destruct (read_log_from now' b1 c t p st1 pt h k' E1 Hlog1 ltac:(lia) Hr') as [_ HF].
  destruct (kept_written b1 c t p st1 pt now' h k' E1 Hc Hlog1 ltac:(lia) Hr') as [_ Hkept].
  exists k, k'. split_and!; [done|done|done|]. intros off mx Hoff Hmx. split; [|by apply HF].
  unfold Fetch. rewrite (proj2 (Z.ltb_ge off 0)), (proj2 (Z.ltb_ge mx 0)), E1 by lia.
  by repeat (case_match; try exact Hkept).
Qed.

(** *** Appending to a partition *)

Lemma Produce_log (now : Time) (c t : string) (p : Z) (ins : list ProducerRecord)
    (b : Backend) (h : list Record_) :
  validateClusterID c = None → has_log b c t p h → ins ≠ [] →
  Z.of_nat (length h + length ins) < 2 ^ 63 →
  ∃ new, (Produce now c t p ins b).2 = Ok (metadata_of <$> new) ∧
    has_log (Produce now c t p ins b).1 c t p (h ++ new) ∧ length new = length ins ∧
    ∀ i x, ins !! i = Some x → new !! i =
      Some (mkRecord t p (Z.of_nat (length h + i)) (pr_Key x) (pr_Value x) (pr_Headers x)
              (if pr_Timestamp x =? zeroTime then now else pr_Timestamp x)).
Proof.
  intros Hv Hl Hne Hb. exists (new_records now t p (Z.of_nat (length h)) ins).
  assert (same_part c t p c t p) as Hs by done. split_and!.
  - destruct (has_log_partition _ _ _ _ _ _ _ _ Hl Hs Hv) as (st & part & E & Hlog).
    unfold Produce. destruct ins as [|x ins]; [done|]. cbn [length Nat.eqb]. rewrite E.
    pose proof (log_of_prune (Topic_Retention (topic st)) now part h Hlog) as Hlog'.
    by destruct (log_of_append now t p (x :: ins) _ h Hlog' Hb) as [-> _].
  - pose proof (Produce_has_log now c t p ins b c t p h Hl) as H. unfold appended in H.
    rewrite decide_True in H by done. apply H. rewrite length_app, length_new_records. lia.
  - apply length_new_records.
  - intros i x Hx. unfold new_records. rewrite list_lookup_imap, Hx. simpl. unfold record_of.
    rewrite !es_copyBytes_id, copyHeaders_id. by replace (Z.of_nat (length h + i))
      with (Z.of_nat (length h) + Z.of_nat i) by lia.
Qed.

(** ** Committed offsets *)

Definition nul_free (s : string) : Prop := str_mem "000"%char s = false.

Lemma topicKey_inj c t c' t' :
  nul_free c → nul_free c' → topicKey c t = topicKey c' t' → c = c' ∧ t = t'.
Proof. apply str_sep_inj. Qed.

(** A committed offset points into a partition that exists. *)
Definition in_log (b : Backend) (c t : string) (p o : Z) : Prop :=
  ∃ st part, topics b !! topicKey c t = Some st ∧ 0 <= p ∧
    partitions st !! Z.to_nat p = Some part ∧ 0 <= o <= nextOffset part.

Record inv (b : Backend) : Prop := {
  inv_topics : ∀ key st, topics b !! key = Some st →
    key = topicKey (Topic_ClusterID (topic st)) (Topic_Name (topic st)) ∧
    nul_free (Topic_ClusterID (topic st)) ∧
    Forall (λ part, 0 <= nextOffset part) (partitions st) ∧
    Topic_PartitionCount (topic st) = Z.of_nat (length (partitions st));
  inv_offsets : ∀ c g t p o, offsets b !! (c, g, t, p) = Some o → nul_free c ∧ in_log b c t p o }.

(** No cluster ID of the operation has a NUL byte, and a partition it appends
    to does not reach the largest int64 offset. *)
Definition sane (o : op) (b : Backend) : Prop :=
  match o with
  | OpDeleteCluster c | OpCreateTopic _ c _ _ | OpDeleteTopic c _ | OpCommitOffset c _ _ _ _ => nul_free c
  | OpProduce _ c t p ins =>
      ∀ st part, partition c t p b = Ok (st, part) →
        nextOffset part + Z.of_nat (length ins) < 2 ^ 63
  | _ => True
  end.

Lemma in_log_topics b b' c t p o :
  topics b' !! topicKey c t = topics b !! topicKey c t → in_log b c t p o → in_log b' c t p o.
Proof. intros E (st & part & Ht & H). exists st, part. by rewrite E. Qed.

(** Writing back a partition that has not lost its end. *)
Lemma inv_set_partition b c t p st part new :
  inv b → partition c t p b = Ok (st, part) → nextOffset part <= nextOffset new →
  inv (set_partition b (topicKey c t) st p new).
Proof.
  intros [Ht Ho] (Hv & Hst & Hp & Hl)%partition_Ok Hn. destruct (Ht _ _ Hst) as (Hk & Hf & Hall & Hcount).
  split; unfold set_partition, set_topic; cbn [topics offsets].
  - intros key st'. rewrite lookup_insert_Some. intros [[<- <-]|[_ H]]; [|by apply Ht].
    cbn [topic partitions]. split_and!; [done..| |by rewrite length_insert].
    apply Forall_insert; [done|]. rewrite Forall_lookup in Hall. specialize (Hall _ _ Hl). lia.
  - intros c' g' t' p' o (Hnf & st' & part' & Hst' & Hp' & Hl' & Hb)%Ho. split; [done|].
    destruct (decide (topicKey c t = topicKey c' t')) as [E|Hne].
    + rewrite <-E in Hst'. assert (st' = st) as -> by congruence.
      destruct (decide (p = p')) as [->|Hpp].
      * assert (part' = part) as -> by congruence. eexists _, new. cbn [topics]. rewrite E, lookup_insert_eq.
        cbn [partitions]. split_and!; [done..| |lia|lia]. apply list_lookup_insert_eq. by eapply lookup_lt_Some.
      * eexists _, part'. cbn [topics]. rewrite E, lookup_insert_eq. cbn [partitions].
        split_and!; [done..| |lia|lia]. cbn [partitions]. by rewrite list_lookup_insert_ne by lia.
    + exists st', part'. cbn [topics]. by rewrite lookup_insert_ne.
Qed.

Lemma prune_nextOffset ret now part : nextOffset (prunePartition ret now part) = nextOffset part.
Proof. unfold prunePartition. by destruct (_ || _). Qed.

Lemma inv_prune b c t p st part now :
  inv b → partition c t p b = Ok (st, part) →
  inv (set_partition b (topicKey c t) st p (prunePartition (Topic_Retention (topic st)) now part)).
Proof. intros Hi Hp. eapply inv_set_partition; [done..|]. by rewrite prune_nextOffset. Qed.

Lemma Produce_inv now c t p ins b :
  inv b → sane (OpProduce now c t p ins) b → inv (Produce now c t p ins b).1.
Proof.
  intros Hi Hs. unfold Produce. destruct (length ins =? 0)%nat; [done|].
  destruct (partition c t p b) as [[st part]|e|] eqn:E; [|done|done].
  specialize (Hs _ _ E). pose proof (proj1 (partition_Ok _ _ _ _ _ _) E) as (_ & Hst & _ & Hl).
  destruct (inv_topics b Hi _ _ Hst) as (_ & _ & Hall & _). rewrite Forall_lookup in Hall. specialize (Hall _ _ Hl).
  rewrite append_loop_spec by (rewrite prune_nextOffset; lia). cbn [fst].
  eapply inv_set_partition; [done..|]. cbn [nextOffset]. rewrite prune_nextOffset. lia.
Qed.

Lemma Fetch_inv now c t p off mx b : inv b → inv (Fetch now c t p off mx b).1.
Proof.
  intros Hi. unfold Fetch. destruct (off <? 0), (mx <? 0); try done.
  destruct (partition c t p b) as [[st part]|e|] eqn:E; [|done|done].
  pose proof (inv_prune _ _ _ _ _ _ now Hi E) as H. by repeat (case_match; try exact H).
Qed.

Lemma CreateTopic_inv now c t opt b : nul_free c → inv b → inv (CreateTopic now c t opt b).1.
Proof.
  intros Hc Hi. unfold CreateTopic. do 2 (apply guard_err_state; [done|]; intros _).
  destruct (Z.leb_spec (ct_PartitionCount opt) 0) as [|Hcount]; [done|]. destruct (_ <? 0); [done|].
  destruct (topics b !! topicKey c t) eqn:E; [done|]. destruct Hi as [Ht Ho].
  split; unfold set_topic; cbn [fst topics offsets].
  - intros key st. rewrite lookup_insert_Some. intros [[<- <-]|[_ H]]; [|by apply Ht].
    cbn [topic partitions Topic_ClusterID Topic_Name Topic_PartitionCount].
    split_and!; [done..| |rewrite length_replicate; lia]. apply Forall_replicate. simpl. lia.
  - intros c' g p t' o [Hnf Hin]%Ho. split; [done|]. eapply in_log_topics; [|done].
    cbn [topics]. apply lookup_insert_ne. destruct Hin as (st & part & Hst & _). congruence.
Qed.

Lemma DeleteTopic_inv c t b : nul_free c → inv b → inv (DeleteTopic c t b).1.
Proof.
  intros Hc Hi. unfold DeleteTopic. apply guard_err_state; [done|]. intros _.
  destruct (topics b !! topicKey c t); [|done]. destruct Hi as [Ht Ho]. split; cbn [fst topics offsets].
  - intros key st [_ H]%lookup_delete_Some. by apply Ht.
  - intros c' g t' p o [H Hne]%map_lookup_filter_Some. destruct (Ho _ _ _ _ _ H) as [Hnf Hin].
    split; [done|]. eapply in_log_topics; [|done]. cbn [topics]. apply lookup_delete_ne.
    intros Ek. apply Hne. apply topicKey_inj in Ek; [|done..]. naive_solver.
Qed.

Lemma DeleteCluster_inv c b : nul_free c → inv b → inv (DeleteCluster c b).1.
Proof.
  intros Hc Hi. unfold DeleteCluster. apply guard_err_state; [done|]. intros _.
  destruct (clusters b !! c); [|done]. destruct Hi as [Ht Ho]. split; cbn [fst topics offsets].
  - intros key st [H _]%map_lookup_filter_Some. by apply Ht.
  - intros c' g t' p o [H Hne]%map_lookup_filter_Some. destruct (Ho _ _ _ _ _ H) as [Hnf Hin].
    split; [done|]. destruct Hin as (st & part & Hst & Hin). exists st, part. split; [|done].
    cbn [topics]. apply map_lookup_filter_Some. split; [done|].
    destruct (Ht _ _ Hst) as (Ek & Hnf' & _). apply topicKey_inj in Ek as [<- _]; done.
Qed.

Lemma CommitOffset_inv c g t p off b : nul_free c → inv b → inv (CommitOffset c g t p off b).1.
Proof.
  intros Hc Hi. unfold CommitOffset. apply guard_err_state; [done|]. intros _.
  destruct (String.eqb g ""); [done|]. destruct (off <? 0) eqn:Hoff; [done|].
  destruct (partition c t p b) as [[st part]|e|] eqn:E; [|done|done].
  destruct (nextOffset part <? off) eqn:Hn; [done|]. destruct Hi as [Ht Ho].
  split; cbn [fst topics offsets]; [done|]. intros c' g' t' p' o'. rewrite lookup_insert_Some.
  intros [[[= <- <- <- <-] <-]|[_ H]]; [|by apply (Ho _ _ _ _ _ H)]. split; [done|].
  apply partition_Ok in E as (_ & Hst & Hp & Hl). exists st, part. split_and!; [done..|lia|lia].
Qed.

Lemma CommitOffset_read c g t p o b :
  (CommitOffset c g t p o b).2 = Ok () →
  (FetchCommittedOffset c g t p (CommitOffset c g t p o b).1).2 = Ok o.
Proof.
  unfold FetchCommittedOffset, CommitOffset.
  destruct (validateClusterID c) as [e|] eqn:Hv; [done|]. cbn [guard_err].
  destruct (String.eqb g ""); [done|]. destruct (o <? 0); [done|].
  destruct (partition c t p b) as [[st part]|e|] eqn:E; [|done|done].
  destruct (nextOffset part <? o); [done|]. intros _. cbn [fst].
  change (partition c t p (mkBackend (clusters b) (topics b) _)) with (partition c t p b).
  rewrite E. cbn [offsets]. by rewrite lookup_insert_eq.
Qed.

(** A topic that was created is stored under its key, and cannot be created again. *)
Lemma CreateTopic_Ok now c t opt b tp :
  (CreateTopic now c t opt b).2 = Ok tp →
  let b' := (CreateTopic now c t opt b).1 in
  validateClusterID c = None ∧ Topic_PartitionCount tp = ct_PartitionCount opt ∧ Topic_Name tp = t ∧
  (∃ st, topics b' !! topicKey c t = Some st ∧ topic st = tp) ∧
  ∀ now', CreateTopic now' c t opt b' = (b', Err (TopicAlreadyExists t)).
Proof.
  unfold CreateTopic. destruct (validateClusterID c) eqn:Hv; [done|]. cbn [guard_err].
  destruct (validateTopicName t) eqn:Ht; [done|]. cbn [guard_err].
  destruct (ct_PartitionCount opt <=? 0); [done|].
  match goal with |- context [if ?r <? 0 then _ else _] => destruct (r <? 0); [done|] end.
  destruct (topics b !! _) eqn:E; [done|]. cbn [snd fst]. intros [= <-]. rewrite copyTopic_id.
  unfold set_topic. cbn [topics]. split_and!; [done..| |].
  - eexists. by rewrite lookup_insert_eq.
  - intros now'. by rewrite lookup_insert_eq.
Qed.

Lemma run_inv o b : sane o b → inv b → inv (run o b).1.
Proof.
  intros Hs Hi. destruct o; cbn [run forget fst sane] in *;
    auto using Produce_inv, Fetch_inv, CreateTopic_inv, DeleteTopic_inv, DeleteCluster_inv,
      CommitOffset_inv.
  - unfold CreateCluster. apply guard_err_state; [done|]. intros _.
    destruct Hi as [Ht Ho]. by repeat (case_match; try done).
  - unfold DescribeCluster. apply guard_err_state; [done|]. intros _. by case_match.
  - unfold DescribeTopic. apply guard_err_state; [done|]. intros _. by case_match.
  - unfold ListTopics. by apply guard_err_state.
  - unfold ListOffsets. destruct (partition c t p b) as [[st part]|e|] eqn:E; [|done|done].
    by apply inv_prune.
  - unfold FetchCommittedOffset. apply guard_err_state; [done|]. intros _.
    by repeat (case_match; try done).
Qed.

Definition step (b b' : Backend) : Prop := ∃ o, sane o b ∧ b' = (run o b).1.
Definition reachable : Backend → Prop := rtc step New.

Lemma eventstream_reachable_inv b : reachable b → inv b.
Proof.
  intros Hr. refine (rtc_ind_r (λ b, inv b) New _ _ b Hr); [by split|].
  intros ? ? _ (o & Hs & ->) IH. by apply run_inv.
Qed.

(** ** Listing topics *)

Definition topic_names (c prefix : string) (b : Backend) : list string :=
  sort_Strings (filter (λ n, prefix = "" ∨ HasPrefix n prefix = true)
    ((λ '(_, st), Topic_Name (topic st)) <$>
       filter (λ '(_, st), Topic_ClusterID (topic st) = c) (map_to_list (topics b)))).

Lemma elem_of_topic_names c prefix b n :
  inv b → n ∈ topic_names c prefix b ↔
  HasPrefix n prefix = true ∧
  ∃ st, topics b !! topicKey c n = Some st ∧ Topic_ClusterID (topic st) = c ∧ Topic_Name (topic st) = n.
Proof.
  intros [Ht _]. unfold topic_names. rewrite sort_Strings_perm, list_elem_of_filter, list_elem_of_fmap.
  split.
  - intros [Hp ([k st] & -> & [Hc Hk]%list_elem_of_filter)]. apply elem_of_map_to_list in Hk.
    destruct (Ht _ _ Hk) as (-> & _). split; [destruct Hp as [->|]; [apply HasPrefix_nil|done]|].
    exists st. by rewrite <-Hc.
  - intros (Hp & st & Hk & Hc & Hn). split; [by right|]. exists (topicKey c n, st).
    split; [done|]. apply list_elem_of_filter. by rewrite elem_of_map_to_list.
Qed.

Lemma topic_names_strict c prefix b : inv b → StronglySorted str_lt (topic_names c prefix b).
Proof.
  intros [Ht _]. apply sort_Strings_strict, NoDup_filter, NoDup_fmap_2_strong.
  - intros [k st] [k' st'] [Hc Hk]%list_elem_of_filter [Hc' Hk']%list_elem_of_filter E.
    apply elem_of_map_to_list in Hk, Hk'. destruct (Ht _ _ Hk) as (Ek & _), (Ht _ _ Hk') as (Ek' & _).
    assert (k = k') as <- by congruence. f_equal. congruence.
  - apply NoDup_filter, NoDup_map_to_list.
Qed.

Lemma length_topic_names c prefix b : (length (topic_names c prefix b) <= size (topics b))%nat.
Proof.
  unfold topic_names. rewrite sort_Strings_perm. etrans; [apply length_filter|]. rewrite length_fmap.
  etrans; [apply length_filter|]. by rewrite length_map_to_list.
Qed.

(** One page: [n] names from the start index, and whether there are more. *)
Lemma page_spec start mx tok l :
  0 <= start <= Z.of_nat (length l) → Z.of_nat (length l) + mx < 2 ^ 63 →
  let cut := (0 <? mx) && (start + mx <? Z.of_nat (length l)) in
  page start mx tok l =
    Ok (if cut then take (Z.to_nat mx) (drop (Z.to_nat start) l) else drop (Z.to_nat start) l,
        if cut then Itoa (start + mx) else "").
Proof.
  intros Hs Hb cut. unfold page. assert ((Z.of_nat (length l) <? start) = false) as -> by lia.
  unfold cut. destruct (0 <? mx) eqn:Hm; cbn [andb].
  - rewrite (wrap_s_small 64) by (unfold in_s; lia).
    destruct (start + mx <? Z.of_nat (length l)).
    + assert ((start + mx <? start) = false) as -> by lia. do 3 f_equal. lia.
    + assert ((Z.of_nat (length l) <? start) = false) as -> by lia. do 2 f_equal.
      apply take_ge. rewrite length_drop. lia.
  - assert ((Z.of_nat (length l) <? start) = false) as -> by lia. do 2 f_equal.
    apply take_ge. rewrite length_drop. lia.
Qed.

Definition topic_at (c : string) (b : Backend) (n : string) : option Topic :=
  topic <$> topics b !! topicKey c n.

Lemma fetch_all_omap {A B} (f : A → option B) ks :
  (∀ k, k ∈ ks → is_Some (f k)) → fetch_all f ks = Ok (omap f ks).
Proof.
  induction ks as [|k ks IH]; intros H; [done|]. cbn [fetch_all omap list_omap].
  destruct (H k) as [x Hx]; [left|]. rewrite Hx, IH; [done|]. intros. apply H. by right.
Qed.

Definition with_token (opt : ListTopicsOptions) (tok : string) : ListTopicsOptions :=
  mkListTopicsOptions (lt_ClusterID opt) (lt_Prefix opt) (lt_MaxResults opt) tok.

(** The client loop of a listing. *)
Fixpoint list_all (fuel : nat) (opt : ListTopicsOptions) (b : Backend) : option (list Topic) :=
  match fuel with
  | O => None
  | S fuel =>
      match (ListTopics opt b).2 with
      | Ok r =>
          if String.eqb (ltr_NextToken r) "" then Some (ltr_Topics r)
          else app (ltr_Topics r) <$> list_all fuel (with_token opt (ltr_NextToken r)) b
      | _ => None
      end
  end.

Lemma ListTopics_page opt b start :
  inv b → validateClusterID (lt_ClusterID opt) = None → parse_token (lt_NextToken opt) = Ok start →
  let l := topic_names (lt_ClusterID opt) (lt_Prefix opt) b in
  let mx := lt_MaxResults opt in
  0 <= start <= Z.of_nat (length l) → Z.of_nat (length l) + mx < 2 ^ 63 →
  let cut := (0 <? mx) && (start + mx <? Z.of_nat (length l)) in
  (ListTopics opt b).2 = Ok (mkListTopicsResult
    (omap (topic_at (lt_ClusterID opt) b)
       (if cut then take (Z.to_nat mx) (drop (Z.to_nat start) l) else drop (Z.to_nat start) l))
    (if cut then Itoa (start + mx) else "")).
Proof.
  intros Hi Hv Htok l mx Hs Hb cut. unfold ListTopics. rewrite Hv. cbn [guard_err snd]. rewrite Htok.
  cbn [obind]. fold (topic_names (lt_ClusterID opt) (lt_Prefix opt) b). fold l mx.
  rewrite page_spec by done. fold cut. cbn [obind].
  set (ns := if cut then _ else _). assert (∀ n, n ∈ ns → n ∈ l) as Hns.
  { intros n. unfold ns. destruct cut; intros Hn.
    - eapply sublist_subseteq; [|exact Hn]. etrans; [apply sublist_take|apply sublist_drop].
    - eapply sublist_subseteq; [|exact Hn]. apply sublist_drop. }
  rewrite fetch_all_omap.
  - cbn [obind]. do 2 f_equal. clear Hns. induction ns as [|n ns IH]; [done|].
    cbn [omap list_omap]. change (list_omap _ _ ?f ?k) with (omap f k). rewrite IH. unfold topic_at.
    destruct (topics b !! topicKey (lt_ClusterID opt) n); [|done]. simpl. by rewrite copyTopic_id.
  - intros n (_ & st & Hst & _)%Hns%elem_of_topic_names; [|done]. rewrite Hst. by eexists.
Qed.

Lemma list_all_from fuel opt b start :
  inv b → validateClusterID (lt_ClusterID opt) = None → parse_token (lt_NextToken opt) = Ok start →
  let l := topic_names (lt_ClusterID opt) (lt_Prefix opt) b in
  0 <= start <= Z.of_nat (length l) → Z.of_nat (length l) + lt_MaxResults opt < 2 ^ 63 →
  (length l - Z.to_nat start < fuel)%nat →
  list_all fuel opt b = Some (omap (topic_at (lt_ClusterID opt) b) (drop (Z.to_nat start) l)).
Proof.
  intros Hi Hv. revert opt start Hv. induction fuel as [|fuel IH]; intros opt start Hv Htok l Hs Hb Hf; [lia|].
  cbn [list_all]. rewrite (ListTopics_page opt b start Hi Hv Htok Hs Hb). cbn [ltr_NextToken ltr_Topics].
  fold l. set (mx := lt_MaxResults opt) in *. destruct (0 <? mx) eqn:Hm; cbn [andb]; [|done].
  destruct (start + mx <? Z.of_nat (length l)) eqn:Hc; [|done].
  destruct (String.eqb_spec (Itoa (start + mx)) "") as [E|_]; [by destruct (Itoa_nonempty (start + mx))|].
  rewrite (IH (with_token opt (Itoa (start + mx))) (start + mx)); try done.
  - cbn [lt_ClusterID with_token lt_Prefix]. fold l. cbn [fmap option_fmap option_map]. f_equal.
    rewrite <-omap_app. f_equal. rewrite <-(take_drop (Z.to_nat mx) (drop (Z.to_nat start) l)) at 2.
    rewrite drop_drop. do 2 f_equal. lia.
  - unfold parse_token. cbn [lt_NextToken with_token].
    destruct (String.eqb_spec (Itoa (start + mx)) "") as [E|_]; [by destruct (Itoa_nonempty (start + mx))|].
    rewrite Atoi_Itoa by (unfold in_s; lia). by assert ((start + mx <? 0) = false) as -> by lia.
  - cbn [lt_ClusterID with_token lt_Prefix]. fold l. lia.
  - cbn [lt_ClusterID with_token lt_Prefix lt_MaxResults]. fold l mx. lia.
Qed.

(** ** Properties *)

(** C22: a partition is an append-only log.  After any sequence of operations
    that does not delete the topic, the partition's history is the old one
    extended by the produced records in order; ListOffsets returns the first
    retained position k and the length of the history; Fetch at an offset
    returns, up to maxRecords, exactly the history from that offset on, and
    fails only beyond the end or before k (never with a panic). *)
Theorem consumers_read_history (os : list op) (b : Backend) (c t : string) (p : Z)
    (h : list Record_) (now : Time) :
  validateClusterID c = None → has_log b c t p h → Forall (spares c t) os →
  let h' := history os c t p h in
  Z.of_nat (length h') < 2 ^ 63 →
  ∃ k, (k <= length h')%nat ∧
    (ListOffsets now c t p (run_all os b)).2 =
      Ok (mkOffsetBounds (Z.of_nat k) (Z.of_nat (length h'))) ∧
    ∀ off mx, 0 <= off → 0 <= mx →
      match (Fetch now c t p off mx (run_all os b)).2 with
      | Ok rs => off <= Z.of_nat (length h') ∧ (Z.of_nat k <= off ∨ k = length h') ∧
                 rs = take_max mx (drop (Z.to_nat off `max` k) h')
      | Err _ => Z.of_nat (length h') < off ∨ off < Z.of_nat k
      | Panic => False
      end.
Proof. intros Hv Hl Hos h' Hb. apply read_log; [by apply run_all_has_log|done]. Qed.

(** Produce assigns consecutive offsets: on a partition with history h it
    succeeds, the i-th record gets offset |h| + i and its timestamp (the current
    time when the producer gave none), the metadata returned describe exactly
    the records appended, and the history is extended by them. *)
Theorem Produce_assigns_offsets (now : Time) (c t : string) (p : Z) (ins : list ProducerRecord)
    (b : Backend) (h : list Record_) :
  validateClusterID c = None → has_log b c t p h → ins ≠ [] →
  Z.of_nat (length h + length ins) < 2 ^ 63 →
  ∃ new, (Produce now c t p ins b).2 = Ok (metadata_of <$> new) ∧
    has_log (Produce now c t p ins b).1 c t p (h ++ new) ∧ length new = length ins ∧
    ∀ i x, ins !! i = Some x → new !! i =
      Some (mkRecord t p (Z.of_nat (length h + i)) (pr_Key x) (pr_Value x) (pr_Headers x)
              (if pr_Timestamp x =? zeroTime then now else pr_Timestamp x)).
Proof. apply Produce_log. Qed.

(** A consumer group's committed offset stays within its partition: in every
    reachable state (cluster IDs without NUL bytes, offsets within int64) what
    FetchCommittedOffset returns lies between 0 and the partition's next offset;
    and it returns the offset that CommitOffset has just stored. *)
Theorem committed_offset_in_log (b : Backend) (c g t : string) (p : Z) :
  reachable b →
  (∀ o, (FetchCommittedOffset c g t p b).2 = Ok o →
     ∃ st part, partition c t p b = Ok (st, part) ∧ 0 <= o <= nextOffset part) ∧
  (∀ o, (CommitOffset c g t p o b).2 = Ok () →
     (FetchCommittedOffset c g t p (CommitOffset c g t p o b).1).2 = Ok o).
Proof.
  intros Hi%eventstream_reachable_inv. split; [|intros o; apply CommitOffset_read]. unfold FetchCommittedOffset.
  destruct (validateClusterID c) as [e|] eqn:Hv; [done|]. cbn [guard_err].
  destruct (String.eqb g ""); [done|].
  destruct (partition c t p b) as [[st part]|e|] eqn:E; [|done|done].
  intros o. destruct (offsets b !! _) as [o'|] eqn:Eo; [|done]. cbn [snd]. intros [= ->].
  destruct (inv_offsets b Hi _ _ _ _ _ Eo) as (_ & st' & part' & Hst & Hp & Hl & Hb).
  exists st, part. split; [done|]. apply partition_Ok in E as (_ & Hst' & _ & Hl').
  assert (st' = st) as -> by congruence. by assert (part' = part) as -> by congruence.
Qed.

(** Following NextToken from ListTopics terminates and returns the topics
    of the cluster with the prefix, each once and in ascending name order,
    whatever the page size (as long as it does not overflow). *)
Theorem ListTopics_pagination_complete (opt : ListTopicsOptions) (b : Backend) (fuel : nat) :
  reachable b → validateClusterID (lt_ClusterID opt) = None → lt_NextToken opt = "" →
  Z.of_nat (size (topics b)) + lt_MaxResults opt < 2 ^ 63 → (size (topics b) < fuel)%nat →
  ∃ ts, list_all fuel opt b = Some ts ∧ StronglySorted str_lt (Topic_Name <$> ts) ∧
    ∀ x, x ∈ ts ↔ ∃ st, topics b !! topicKey (lt_ClusterID opt) (Topic_Name x) = Some st ∧
      x = topic st ∧ Topic_ClusterID x = lt_ClusterID opt ∧ HasPrefix (Topic_Name x) (lt_Prefix opt) = true.
Proof.
  intros Hi%eventstream_reachable_inv Hv Htok Hb Hf.
  set (l := topic_names (lt_ClusterID opt) (lt_Prefix opt) b).
  pose proof (length_topic_names (lt_ClusterID opt) (lt_Prefix opt) b) as Hlen. fold l in Hlen.
  exists (omap (topic_at (lt_ClusterID opt) b) l). split_and!.
  - rewrite (list_all_from fuel opt b 0 Hi Hv); fold l; [done| |lia|lia|simpl; lia].
    by rewrite Htok.
  - assert (Topic_Name <$> omap (topic_at (lt_ClusterID opt) b) l = l) as ->;
      [|by apply topic_names_strict].
    assert (∀ n, n ∈ l → Topic_Name <$> topic_at (lt_ClusterID opt) b n = Some n) as Hl.
    { intros n (_ & st & Hst & _ & Hn)%elem_of_topic_names; [|done]. unfold topic_at.
      rewrite Hst. simpl. by rewrite Hn. }
    clearbody l. clear Hlen. induction l as [|n l IH]; [done|]. specialize (Hl n ltac:(left)) as Hn.
    cbn [omap list_omap]. change (list_omap _ _ ?f ?k) with (omap f k).
    destruct (topic_at (lt_ClusterID opt) b n) as [x|]; [|done]. simpl in Hn. rewrite fmap_cons.
    rewrite IH by (intros; apply Hl; by right). congruence.
  - intros x. rewrite list_elem_of_omap. split.
    + intros (n & (Hp & st & Hst & Hc & Hn)%elem_of_topic_names & Ex); [|done]. unfold topic_at in Ex.
      rewrite Hst in Ex. simplify_eq/=. eauto.
    + intros (st & Hst & -> & Hc & Hp). exists (Topic_Name (topic st)). split.
      * apply elem_of_topic_names; [done|]. eauto.
      * unfold topic_at. by rewrite Hst.
Qed.

(** A page size close to the largest int makes ListTopics panic: with a
    next token of 1 and MaxResults 2^63 - 1, start+MaxResults overflows to a
    negative limit whenever the cluster has a topic with the prefix. *)
Theorem ListTopics_overflow_panics (b : Backend) (c prefix : string) :
  validateClusterID c = None → topic_names c prefix b ≠ [] →
  (ListTopics (mkListTopicsOptions c prefix (2 ^ 63 - 1) "1") b).2 = Panic.
Proof.
  intros Hv Hne. unfold ListTopics. cbn [lt_ClusterID]. rewrite Hv. cbn [guard_err snd lt_NextToken].
  change (parse_token "1") with (Ok (E := error) 1). cbn [obind lt_Prefix lt_MaxResults].
  fold (topic_names c prefix b). set (l := topic_names c prefix b) in *.
  assert (page 1 (2 ^ 63 - 1) "1" l = Panic) as ->; [|done]. unfold page.
  change (wrap_s 64 (1 + (2 ^ 63 - 1))) with (- 2 ^ 63). change (0 <? 2 ^ 63 - 1) with true.
  assert (0 < length l)%nat by (destruct l; [done|simpl; lia]).
  assert ((Z.of_nat (length l) <? 1) = false) as -> by lia.
  assert ((- 2 ^ 63 <? Z.of_nat (length l)) = true) as -> by lia. done.
Qed.

(** ** Witnesses *)

Definition demo_create (c t : string) : op := OpCreateTopic 1 c t (mkCreateTopicOptions 2 0 None).
Definition demo_backend : Backend := run_all [demo_create "c" "t1"; demo_create "c" "t2"] New.
Definition demo_rec (s : string) : ProducerRecord :=
  mkProducerRecord None (Some (bytes_of_string s)) None zeroTime.
Definition demo_produce : op := OpProduce 5 "c" "t1" 1 [demo_rec "x"; demo_rec "y"].

Lemma demo_reachable : reachable demo_backend.
Proof.
  apply (rtc_l _ _ (run (demo_create "c" "t1") New).1).
  - by exists (demo_create "c" "t1").
  - apply rtc_once. by exists (demo_create "c" "t2").
Qed.

Lemma demo_has_log : has_log demo_backend "c" "t1" 1 [].
Proof.
  eexists _, (mkPartitionState [] 0).
  split; [vm_compute; reflexivity|]. split_and!; [reflexivity|lia|reflexivity|].
  split_and!; [by exists O|done|done].
Qed.

Example fetch_demo :
  match (Fetch 6 "c" "t1" 1 1 0 (run demo_produce demo_backend).1).2 with
  | Ok rs => map Record_Offset rs = [1]
  | _ => False
  end.
Proof. vm_compute. reflexivity. Qed.

Lemma consumers_read_history_witness :
  ∃ k, (k <= 2)%nat ∧
    (ListOffsets 6 "c" "t1" 1 (run_all [demo_produce; OpFetch 6 "c" "t1" 1 0 1] demo_backend)).2 =
      Ok (mkOffsetBounds (Z.of_nat k) 2).
Proof.
  destruct (consumers_read_history [demo_produce; OpFetch 6 "c" "t1" 1 0 1] demo_backend "c" "t1" 1 [] 6)
    as (k & Hk & H & _).
  - reflexivity.
  - exact demo_has_log.
  - repeat (apply Forall_cons_2; [exact I|]). apply Forall_nil_2.
  - vm_compute. reflexivity.
  - exists k. split; [exact Hk|exact H].
Defined.

Lemma Produce_assigns_offsets_witness :
  ∃ new, (Produce 5 "c" "t1" 1 [demo_rec "x"; demo_rec "y"] demo_backend).2 = Ok (metadata_of <$> new) ∧
    length new = 2%nat.
Proof.
  destruct (Produce_assigns_offsets 5 "c" "t1" 1 [demo_rec "x"; demo_rec "y"] demo_backend [])
    as (new & E & _ & Hl & _).
  - reflexivity.
  - exact demo_has_log.
  - discriminate.
  - vm_compute. reflexivity.
  - exists new. split; [exact E|exact Hl].
Defined.

Lemma committed_offset_in_log_witness :
  (FetchCommittedOffset "c" "g" "t1" 1 (CommitOffset "c" "g" "t1" 1 0 demo_backend).1).2 = Ok 0.
Proof. apply (committed_offset_in_log demo_backend "c" "g" "t1" 1 demo_reachable). vm_compute. reflexivity. Defined.

Lemma ListTopics_pagination_complete_witness :
  ∃ ts, list_all 3 (mkListTopicsOptions "c" "t" 1 "") demo_backend = Some ts ∧
    StronglySorted str_lt (Topic_Name <$> ts).
Proof.
  destruct (ListTopics_pagination_complete (mkListTopicsOptions "c" "t" 1 "") demo_backend 3)
    as (ts & E & Hs & _).
  - exact demo_reachable.
  - reflexivity.
  - reflexivity.
  - vm_compute. reflexivity.
  - vm_compute. lia.
  - exists ts. split; [exact E|exact Hs].
Defined.

Lemma ListTopics_overflow_panics_witness :
  (ListTopics (mkListTopicsOptions "c" "" (2 ^ 63 - 1) "1") demo_backend).2 = Panic.
Proof.
  apply (ListTopics_overflow_panics demo_backend "c" ""); [reflexivity|vm_compute; discriminate].
Defined.
