(* ===== verification/KafkaWire.v ===== *)
(** * Kafka frames

    Models [internal/eventstream/kafkawire/frame.go]: reading a size-prefixed
    frame, decoding a request header and appending a response frame.  The
    generated request and response bodies of [franz-go/pkg/kmsg] are behind the
    interface [Kmsg]; an [io.Reader] is the bytes it will deliver and the error
    it then ends with. *)

From S2P Require Import Prelude GoStrings GoBytes.

Definition DefaultMaxFrameSize : Z := 100 * 1024 * 1024.

Inductive sentinel := ErrMalformedFrame | ErrUnsupportedAPI | ErrUnsupportedVersion.

Inductive error :=
  | EOF
  | ErrUnexpectedEOF
  | Other (text : string)                                     (* a reader's or kmsg's own error *)
  | Errorf (format : string) (args : list Z) (wraps : error)
  | Sentinel (s : sentinel)
  | OutOfFuel.                                                (* not an error of the program *)

Abbreviation result := (outcome error).

(** ** The kmsg interface *)

Class Kmsg (Req Resp : Type) := {
  NewRequest : Z → Req;                    (* kmsg.NewXxxRequest, by API key *)
  MaxVersion : Req → Z;
  SetVersion : Z → Req → Req;
  IsFlexible : Req → bool;
  ReadFrom : bytes → Req → result Req;
  AppendTo : Req → bytes;
  resp_IsFlexible : Resp → bool;
  resp_Key : Resp → Z;
  resp_AppendTo : Resp → bytes }.

(** ** Reading a frame *)

Record Reader := mkReader { rd_data : bytes; rd_end : error }.

(** [io.ReadFull(r, buf)] with [len(buf) = n]. *)
Definition ReadFull (n : nat) (r : Reader) : result (bytes * Reader) :=
  if (n <=? length (rd_data r))%nat
  then Ok (take n (rd_data r), mkReader (drop n (rd_data r)) (rd_end r))
  else match rd_end r with
       | EOF => Err (if (length (rd_data r) =? 0)%nat then EOF else ErrUnexpectedEOF)
       | e => Err e
       end.

Definition ReadFrame (r : Reader) (maxSize : Z) : result (bytes * Reader) :=
  let maxSize := if maxSize <=? 0 then DefaultMaxFrameSize else maxSize in
  let? (sizeBuf, r) := ReadFull 4 r in
  let size := wrap_s 32 (be_decode sizeBuf) in
  if size <? 0 then Err (Errorf "negative kafka frame size %d: %w" [size] (Sentinel ErrMalformedFrame))
  else if maxSize <? size
  then Err (Errorf "kafka frame size %d exceeds limit %d: %w" [size; maxSize] (Sentinel ErrMalformedFrame))
  else ReadFull (Z.to_nat size) r.

(** ** The cursor

    A method of [cursor] takes the offset and returns the new one. *)

Definition len (src : bytes) : Z := Z.of_nat (length src).

(** [src[off:off+n]], which panics when out of range. *)
Definition slice_of (src : bytes) (off n : Z) : result bytes :=
  if (0 <=? off) && (0 <=? n) && (off + n <=? len src)
  then Ok (take (Z.to_nat n) (drop (Z.to_nat off) src)) else Panic.

Definition malformed (format : string) (args : list Z) : error :=
  Errorf format args (Sentinel ErrMalformedFrame).

Definition cur_int16 (src : bytes) (off : Z) : result (Z * Z) :=
  if len src - off <? 2 then Err (malformed "need int16 at byte %d: %w" [off])
  else let? b := slice_of src off 2 in Ok (wrap_s 16 (be_decode b), off + 2).

Definition cur_int32 (src : bytes) (off : Z) : result (Z * Z) :=
  if len src - off <? 4 then Err (malformed "need int32 at byte %d: %w" [off])
  else let? b := slice_of src off 4 in Ok (wrap_s 32 (be_decode b), off + 4).

Definition nullableString (src : bytes) (off : Z) : result (option bytes * Z) :=
  let? (n, off) := cur_int16 src off in
  if n =? -1 then Ok (None, off)
  else if n <? -1 then Err (malformed "invalid nullable string length %d at byte %d: %w" [n; off - 2])
  else if len src - off <? n
  then Err (malformed "nullable string length %d exceeds remaining frame at byte %d: %w" [n; off])
  else let? out := slice_of src off n in Ok (Some out, off + n).

(** [uint32(b&0x7f) << shift], a uint32. *)
Definition uvarint_term (b : Init.Byte.byte) (shift : Z) : Z :=
  wrap_u 32 (Z.shiftl (Z.land (byte_val b) 127) shift).

(** The loop over the shifts [0, 7, 14, 21, 28]. *)
Fixpoint uvarint_loop (shifts : list Z) (src : bytes) (off out : Z) : result (Z * Z) :=
  match shifts with
  | [] => Err (malformed "uvarint exceeds %d: %w" [2 ^ 32 - 1])
  | shift :: shifts =>
      if len src <=? off then Err (malformed "unterminated uvarint at byte %d: %w" [off])
      else match src !! Z.to_nat off with
           | None => Panic
           | Some b =>
               let out := Z.lor out (uvarint_term b shift) in
               if Z.land (byte_val b) 128 =? 0 then Ok (out, off + 1)
               else uvarint_loop shifts src (off + 1) out
           end
  end.
Definition uvarint (src : bytes) (off : Z) : result (Z * Z) :=
  uvarint_loop [0; 7; 14; 21; 28] src off 0.

(** The tags that remain; each takes at least two bytes. *)
Fixpoint skip_loop (fuel : nat) (src : bytes) (count i off : Z) : result Z :=
  if count <=? i then Ok off
  else match fuel with
       | O => Err OutOfFuel
       | S fuel =>
           let? (_, off) := uvarint src off in
           let? (size, off) := uvarint src off in
           if wrap_u 32 (len src - off) <? size
           then Err (malformed "tag size %d exceeds remaining frame at byte %d: %w" [size; off])
           else skip_loop fuel src count (i + 1) (off + size)
       end.
Definition skipTags (src : bytes) (off : Z) : result Z :=
  let? (count, off) := uvarint src off in
  skip_loop (S (length src)) src count 0 off.

(** ** Requests and responses *)

Section kmsg.
Context {Req Resp : Type} `{!Kmsg Req Resp}.

Record RequestFrame := mkRequestFrame {
  APIKey : Z; APIVersion : Z; CorrelationID : Z; ClientID : option bytes; Request : Req }.

Definition api_keys : list Z := [0; 1; 2; 3; 8; 9; 10; 11; 12; 13; 14; 18; 19; 20].

Definition requestFor (apiKey version : Z) : result Req :=
  if bool_decide (apiKey ∈ api_keys) then
    let req := NewRequest apiKey in
    if (version <? 0) || (MaxVersion req <? version)
    then Err (Errorf "kafka api key %d version %d, max %d: %w" [apiKey; version; MaxVersion req]
                (Sentinel ErrUnsupportedVersion))
    else Ok (SetVersion version req)
  else Err (Errorf "kafka api key %d: %w" [apiKey] (Sentinel ErrUnsupportedAPI)).

(** The client ID and, for flexible versions, the tagged fields. *)
Definition read_header_tail (payload : bytes) (apiKey version off : Z) (req : Req)
    : result (option bytes * Z) :=
  if (apiKey =? 7) && (version =? 0) then Ok (None, off)
  else
    let? (clientID, off) := nullableString payload off in
    if IsFlexible req then let? off := skipTags payload off in Ok (clientID, off)
    else Ok (clientID, off).

Definition DecodeRequest (payload : bytes) : result RequestFrame :=
  let? (apiKey, off) := cur_int16 payload 0 in
  let? (version, off) := cur_int16 payload off in
  let? (correlationID, off) := cur_int32 payload off in
  let? req := requestFor apiKey version in
  let? (clientID, off) := read_header_tail payload apiKey version off req in
  let? body := slice_of payload off (len payload - off) in
  match ReadFrom body req with
  | Err e => Err (Errorf "decode kafka api %d v%d body: %w" [apiKey; version] e)
  | Panic => Panic
  | Ok req =>
      if negb (length (AppendTo req) =? length body)%nat
      then Err (malformed "decode kafka api %d v%d body left trailing bytes: %w" [apiKey; version])
      else Ok (mkRequestFrame apiKey version correlationID clientID req)
  end.

(** [PutUint32(dst[at:], v)] overwrites four bytes in place. *)
Definition PutUint32_at (dst : bytes) (at_ : nat) (v : Z) : bytes :=
  take at_ dst ++ be_encode 4 v ++ drop (at_ + 4) dst.

Definition AppendResponse (dst : bytes) (correlationID : Z) (resp : Resp) : bytes :=
  let lenAt := length dst in
  let dst := dst ++ be_encode 4 0 in
  let dst := dst ++ be_encode 4 (wrap_u 32 correlationID) in
  let dst := if resp_IsFlexible resp && negb (resp_Key resp =? 18)
             then dst ++ [byte_of 0] else dst in
  let dst := dst ++ resp_AppendTo resp in
  PutUint32_at dst lenAt (wrap_u 32 (Z.of_nat (length dst) - Z.of_nat lenAt - 4)).
End kmsg.
Arguments RequestFrame Req : clear implicits.

(** * Kafka frames: properties

    Round trips of frames, headers, tagged fields and varints, and the safety
    of the decoder on arbitrary input: no out-of-range slice, every loop ends. *)

(** ** Slices and fixed-width integers *)

Lemma len_app p q : len (p ++ q) = len p + len q.
Proof. unfold len. rewrite length_app. lia. Qed.
Lemma len_nonneg p : 0 <= len p.
Proof. unfold len. lia. Qed.
Lemma len_cons b l : len (b :: l) = 1 + len l.
Proof. unfold len. cbn [length]. lia. Qed.
#[local] Hint Resolve len_nonneg : core.

Lemma slice_of_app p b q : slice_of (p ++ b ++ q) (len p) (len b) = Ok b.
Proof.
  unfold slice_of. rewrite !len_app. pose proof (len_nonneg p). pose proof (len_nonneg b).
  pose proof (len_nonneg q). assert ((0 <=? len p) = true) as -> by lia.
  assert ((0 <=? len b) = true) as -> by lia.
  assert ((len p + len b <=? len p + (len b + len q)) = true) as -> by lia. simpl.
  unfold len. by rewrite !Nat2Z.id, drop_app_length, take_app_length.
Qed.

Lemma slice_of_ok src off n :
  0 <= off → 0 <= n → off + n <= len src → ∃ b, slice_of src off n = Ok b ∧ len b = n.
Proof.
  intros Ho Hn Hl. unfold slice_of. assert ((0 <=? off) && (0 <=? n) && (off + n <=? len src) = true)
    as -> by (rewrite !andb_true_iff, !Z.leb_le; lia).
  eexists. split; [done|]. unfold len in *. rewrite length_take, length_drop. lia.
Qed.

Lemma wrap_s_mod w z : 1 <= w → wrap_s w (z mod 2 ^ w) = wrap_s w z.
Proof. intros Hw. unfold wrap_s. by rewrite Zplus_mod_idemp_l. Qed.

Lemma len_be_encode n z : len (be_encode n z) = Z.of_nat n.
Proof. unfold len. by rewrite length_be_encode. Qed.

Lemma cur_int16_app p v q :
  in_s 16 v → cur_int16 (p ++ be_encode 2 v ++ q) (len p) = Ok (v, len p + 2).
Proof.
  intros Hv. unfold cur_int16. rewrite !len_app, len_be_encode. pose proof (len_nonneg q).
    change (Z.of_nat 2) with 2.
  assert ((len p + (2 + len q) - len p <? 2) = false) as -> by lia.
  pose proof (slice_of_app p (be_encode 2 v) q) as Hs. rewrite len_be_encode in Hs.
  change (Z.of_nat 2) with 2 in Hs. rewrite Hs. cbn [obind].
  rewrite be_decode_encode. change (256 ^ Z.of_nat 2) with (2 ^ 16).
  rewrite wrap_s_mod by lia. by rewrite wrap_s_small by (lia || done).
Qed.

Lemma cur_int32_app p v q :
  in_s 32 v → cur_int32 (p ++ be_encode 4 v ++ q) (len p) = Ok (v, len p + 4).
Proof.
  intros Hv. unfold cur_int32. rewrite !len_app, len_be_encode. pose proof (len_nonneg q).
  change (Z.of_nat 4) with 4.
  assert ((len p + (4 + len q) - len p <? 4) = false) as -> by lia.
  pose proof (slice_of_app p (be_encode 4 v) q) as Hs. rewrite len_be_encode in Hs.
  change (Z.of_nat 4) with 4 in Hs. rewrite Hs. cbn [obind].
  rewrite be_decode_encode. change (256 ^ Z.of_nat 4) with (2 ^ 32).
  rewrite wrap_s_mod by lia. by rewrite wrap_s_small by (lia || done).
Qed.

(** ** The wire format, as a specification *)

Definition enc_nullable (s : option bytes) : bytes :=
  match s with None => be_encode 2 (-1) | Some s => be_encode 2 (len s) ++ s end.

(** Base-128 digits, least significant first, at most [n] of them. *)
Fixpoint enc_uvarint_n (n : nat) (v : Z) : bytes :=
  match n with
  | O => []
  | S n => if v <? 128 then [byte_of v] else byte_of (v mod 128 + 128) :: enc_uvarint_n n (v / 128)
  end.
Definition enc_uvarint (v : Z) : bytes := enc_uvarint_n 5 v.

Definition enc_tag (t : Z * bytes) : bytes := enc_uvarint t.1 ++ enc_uvarint (len t.2) ++ t.2.
Definition enc_tags (ts : list (Z * bytes)) : bytes :=
  enc_uvarint (Z.of_nat (length ts)) ++ concat (enc_tag <$> ts).

(** ** Varints *)

Lemma lookup_mid (p : bytes) b q : (p ++ b :: q) !! Z.to_nat (len p) = Some b.
Proof. unfold len. rewrite Nat2Z.id. by apply list_lookup_middle. Qed.

(** The loop reads the digits of [v] and keeps the low 32 bits. *)
Lemma uvarint_loop_digits k s p v q out :
  0 <= v < 2 ^ (7 * Z.of_nat k) → 0 <= s → (0 < k)%nat →
  let shifts := (λ i, s + 7 * Z.of_nat i) <$> seq 0 k in
  uvarint_loop shifts (p ++ enc_uvarint_n k v ++ q) (len p) out =
    Ok (Z.lor out (wrap_u 32 (Z.shiftl v s)), len p + len (enc_uvarint_n k v)).
Proof.
  revert s p v out. induction k as [|k IH]; intros s p v out Hv Hs Hk shifts; [lia|].
  unfold shifts. clear shifts. cbn [seq]. rewrite <-fmap_S_seq, fmap_cons, <-list_fmap_compose.
  cbn [uvarint_loop enc_uvarint_n]. rewrite Z.mul_0_r, Z.add_0_r.
  destruct (Z.ltb_spec v 128) as [Hlt|Hge].
  - simpl app. rewrite lookup_mid. pose proof (len_nonneg q).
    assert ((len (p ++ byte_of v :: q) <=? len p) = false) as ->
      by (rewrite len_app, len_cons; lia).
    unfold uvarint_term. rewrite byte_val_of, (Z.mod_small v 256), land_127, (Z.mod_small v 128) by lia.
    rewrite land_128_bit by lia. assert ((v <? 128) = true) as -> by lia. done.
  - simpl app. set (b := byte_of (v mod 128 + 128)). rewrite lookup_mid.
    pose proof (Z.mod_pos_bound v 128 ltac:(lia)).
    assert (byte_val b = v mod 128 + 128) as Hb by (unfold b; rewrite byte_val_of, Z.mod_small; lia).
    assert (∀ l, len (p ++ b :: l) = len p + 1 + len l) as Hl.
    { intros l. rewrite len_app, len_cons. lia. }
    rewrite Hl. pose proof (len_nonneg (enc_uvarint_n k (v / 128) ++ q)).
    assert ((len p + 1 + len (enc_uvarint_n k (v / 128) ++ q) <=? len p) = false) as -> by lia.
    unfold uvarint_term. rewrite Hb, land_128_bit by lia.
    assert ((v mod 128 + 128 <? 128) = false) as -> by lia.
    rewrite land_127. replace ((v mod 128 + 128) mod 128) with (v mod 128)
      by (rewrite <-(Z.mul_1_l 128) at 3; rewrite Z.mod_add by lia; by rewrite Z.mod_mod by lia).
    destruct k as [|k]; [simpl in Hv; lia|].
    specialize (IH (s + 7) (p ++ [b]) (v / 128) (Z.lor out (wrap_u 32 (Z.shiftl (v mod 128) s)))).
    rewrite <-(assoc_L (++)) in IH. simpl app in IH. cbv zeta in IH.
    assert (len (p ++ [b]) = len p + 1) as Hpb by (rewrite Hl; unfold len; simpl; lia).
    rewrite Hpb in IH. etrans; [etrans; [|apply IH]|].
    + f_equal. apply list_fmap_ext. intros i x _. simpl. lia.
    + split; [by apply Z.div_pos; lia|]. apply Z.div_lt_upper_bound; [lia|].
      replace (7 * Z.of_nat (S (S k))) with (7 + 7 * Z.of_nat (S k)) in Hv by lia.
      rewrite Z.pow_add_r in Hv by lia. lia.
    + lia.
    + lia.
    + rewrite <-Z.lor_assoc, wrap_u_lor, shiftl_digit by lia. do 2 f_equal.
      unfold len. cbn [length]. lia.
Qed.

Lemma uvarint_enc p v q :
  0 <= v < 2 ^ 35 →
  uvarint (p ++ enc_uvarint v ++ q) (len p) = Ok (wrap_u 32 v, len p + len (enc_uvarint v)).
Proof.
  intros Hv. unfold uvarint. pose proof (uvarint_loop_digits 5 0 p v q 0) as H.
  rewrite Z.shiftl_0_r, Z.lor_0_l in H. apply H; [done|lia|lia].
Qed.

Lemma uvarint_small p v q :
  0 <= v < 2 ^ 32 →
  uvarint (p ++ enc_uvarint v ++ q) (len p) = Ok (v, len p + len (enc_uvarint v)).
Proof. intros Hv. rewrite uvarint_enc by lia. by rewrite wrap_u_small. Qed.

(** ** Tagged fields and the header *)

Lemma uvarint_app p v q r :
  0 <= v < 2 ^ 32 → r = enc_uvarint v ++ q →
  uvarint (p ++ r) (len p) = Ok (v, len (p ++ enc_uvarint v)).
Proof. intros Hv ->. by rewrite uvarint_small, len_app. Qed.

Definition tag_ok (t : Z * bytes) : Prop := 0 <= t.1 < 2 ^ 32.

Lemma skip_loop_enc fuel p ts q count i :
  Forall tag_ok ts → len (p ++ concat (enc_tag <$> ts) ++ q) < 2 ^ 32 →
  count - i = Z.of_nat (length ts) → (length ts <= fuel)%nat →
  skip_loop fuel (p ++ concat (enc_tag <$> ts) ++ q) count i (len p) =
    Ok (len p + len (concat (enc_tag <$> ts))).
Proof.
  intros Hts. revert p fuel i. induction Hts as [|[tag d] ts Ht _ IH]; intros p fuel i Hl Hc Hf.
  { cbn [length] in Hc. assert ((count <=? i) = true) as Hci by lia. destruct fuel; cbn [skip_loop];
      rewrite Hci; cbn; by rewrite Z.add_0_r. }
  cbn [length] in Hc, Hf. destruct fuel as [|fuel]; [lia|].
  rewrite fmap_cons in Hl |- *. cbn [concat] in Hl |- *. unfold enc_tag at 1 in Hl. unfold enc_tag at 1 3.
  cbn [fst snd] in Hl |- *. rewrite <-!(assoc_L (++)) in Hl |- *.
  set (rest := concat (enc_tag <$> ts)) in *.
  pose proof (len_nonneg p). pose proof (len_nonneg d). pose proof (len_nonneg rest). pose proof (len_nonneg q).
  rewrite !len_app in Hl. pose proof (len_nonneg (enc_uvarint tag)). pose proof (len_nonneg (enc_uvarint (len d))).
  cbn [skip_loop]. assert ((count <=? i) = false) as -> by lia.
  rewrite (uvarint_app p tag (enc_uvarint (len d) ++ d ++ rest ++ q)) by done. cbn [obind].
  set (p1 := p ++ enc_uvarint tag).
  assert (p ++ enc_uvarint tag ++ enc_uvarint (len d) ++ d ++ rest ++ q =
          p1 ++ enc_uvarint (len d) ++ d ++ rest ++ q) as -> by (unfold p1; by rewrite <-(assoc_L (++))).
  rewrite (uvarint_app p1 (len d) (d ++ rest ++ q)) by (done || lia). cbn [obind].
  set (p2 := p1 ++ enc_uvarint (len d)).
  assert (p1 ++ enc_uvarint (len d) ++ d ++ rest ++ q = p2 ++ d ++ rest ++ q) as ->
    by (unfold p2; by rewrite <-(assoc_L (++))).
  rewrite !len_app. rewrite wrap_u_small by (unfold in_u; lia).
  assert ((len p2 + (len d + (len rest + len q)) - len p2 <? len d) = false) as -> by lia.
  assert (len p2 + len d = len (p2 ++ d)) as -> by (by rewrite len_app).
  assert (p2 ++ d ++ rest ++ q = (p2 ++ d) ++ rest ++ q) as -> by (by rewrite <-(assoc_L (++))).
  unfold rest. rewrite IH; [|fold rest; unfold p2, p1; rewrite !len_app; lia|lia|lia].
  fold rest. unfold p2, p1. f_equal. rewrite !len_app. lia.
Qed.

Lemma enc_uvarint_nonempty v : (0 < length (enc_uvarint v))%nat.
Proof. unfold enc_uvarint. cbn [enc_uvarint_n]. destruct (v <? 128); simpl; lia. Qed.

Lemma length_enc_tags ts : (length ts <= length (concat (enc_tag <$> ts)))%nat.
Proof.
  induction ts as [|t ts IH]; [done|]. rewrite fmap_cons. cbn [concat length].
  unfold enc_tag at 1. rewrite !length_app. pose proof (enc_uvarint_nonempty t.1). lia.
Qed.

Lemma skipTags_enc p ts q :
  Forall tag_ok ts → len (p ++ enc_tags ts ++ q) < 2 ^ 32 →
  skipTags (p ++ enc_tags ts ++ q) (len p) = Ok (len (p ++ enc_tags ts)).
Proof.
  intros Hts Hl. unfold skipTags, enc_tags in *. pose proof (length_enc_tags ts) as Hlen.
  rewrite <-!(assoc_L (++)) in Hl |- *. pose proof (len_nonneg p). pose proof (len_nonneg q).
  pose proof (len_nonneg (enc_uvarint (Z.of_nat (length ts)))).
  rewrite !len_app in Hl. assert (Z.of_nat (length ts) < 2 ^ 32) as Hn by (unfold len in *; lia).
  rewrite (uvarint_app p (Z.of_nat (length ts)) (concat (enc_tag <$> ts) ++ q)) by (done || lia). cbn [obind].
  rewrite (assoc_L (++) p). set (p1 := p ++ enc_uvarint _).
  rewrite skip_loop_enc; [|done|unfold p1; rewrite !len_app; lia|lia|rewrite !length_app; lia].
  unfold p1. f_equal. rewrite (assoc_L (++)), !len_app. lia.
Qed.

Lemma nullableString_enc p s q :
  from_option len 0 s < 2 ^ 15 →
  nullableString (p ++ enc_nullable s ++ q) (len p) = Ok (s, len (p ++ enc_nullable s)).
Proof.
  intros Hs. unfold nullableString, enc_nullable. destruct s as [s|]; cbn [from_option] in Hs.
  - pose proof (len_nonneg s). pose proof (len_nonneg q). pose proof (len_nonneg p).
    rewrite <-(assoc_L (++)), cur_int16_app by (unfold in_s; lia). cbn [obind].
    assert ((len s =? -1) = false) as -> by lia. assert ((len s <? -1) = false) as -> by lia.
    assert (len p + 2 = len (p ++ be_encode 2 (len s))) as -> by (by rewrite len_app, len_be_encode).
    rewrite (assoc_L (++) p). set (p1 := p ++ be_encode 2 (len s)).
    rewrite !len_app. assert ((len p1 + (len s + len q) - len p1 <? len s) = false) as -> by lia.
    rewrite slice_of_app. cbn [obind]. unfold p1. rewrite !len_app. do 2 f_equal. lia.
  - rewrite cur_int16_app by (unfold in_s; lia). cbn [obind]. change (-1 =? -1) with true. cbv iota. by rewrite len_app, len_be_encode.
Qed.

(** ** Safety on arbitrary input *)

(** No panic, no exhausted loop, and [P] of the value if there is one. *)
Definition safe {A} (r : result A) (P : A → Prop) : Prop :=
  match r with Ok a => P a | Err OutOfFuel | Panic => False | Err _ => True end.

Lemma safe_bind {A B} (r : result A) (k : A → result B) P Q :
  safe r P → (∀ a, P a → safe (k a) Q) → safe (obind r k) Q.
Proof. destruct r as [a|e|]; simpl; auto. Qed.

Lemma safe_weaken {A} (r : result A) (P Q : A → Prop) : safe r P → (∀ a, P a → Q a) → safe r Q.
Proof. destruct r as [a|[]|]; simpl; auto. Qed.

(** The cursor moves from [off] to a later offset within the input. *)
Definition moved (src : bytes) (off d off' : Z) : Prop := off + d <= off' <= len src.

Lemma safe_slice src off n :
  0 <= off → 0 <= n → off + n <= len src → safe (slice_of src off n) (λ b, len b = n).
Proof. intros Ho Hn Hl. by destruct (slice_of_ok src off n Ho Hn Hl) as (b & -> & E). Qed.

Lemma safe_int16 src off :
  0 <= off <= len src → safe (cur_int16 src off) (λ '(_, off'), off' = off + 2 ∧ off' <= len src).
Proof.
  intros Ho. unfold cur_int16. destruct (len src - off <? 2) eqn:E; [done|].
  eapply safe_bind; [apply safe_slice; lia|]. intros b _. simpl. lia.
Qed.

Lemma safe_int32 src off :
  0 <= off <= len src → safe (cur_int32 src off) (λ '(_, off'), off' = off + 4 ∧ off' <= len src).
Proof.
  intros Ho. unfold cur_int32. destruct (len src - off <? 4) eqn:E; [done|].
  eapply safe_bind; [apply safe_slice; lia|]. intros b _. simpl. lia.
Qed.

Lemma safe_nullableString src off :
  0 <= off <= len src → safe (nullableString src off) (λ '(_, off'), moved src off 0 off').
Proof.
  intros Ho. eapply safe_bind; [by apply safe_int16|]. intros [n off'] [-> Hle].
  destruct (n =? -1) eqn:E1; [simpl; unfold moved; lia|]. destruct (n <? -1) eqn:E2; [done|].
  destruct (len src - (off + 2) <? n) eqn:E3; [done|].
  eapply safe_bind; [apply safe_slice; lia|]. intros b _. simpl. unfold moved. lia.
Qed.

Lemma uvarint_term_range b s : 0 <= uvarint_term b s < 2 ^ 32.
Proof. apply wrap_u_range. lia. Qed.

Lemma lor_range x y : 0 <= x < 2 ^ 32 → 0 <= y < 2 ^ 32 → 0 <= Z.lor x y < 2 ^ 32.
Proof.
  intros Hx Hy. split; [apply Z.lor_nonneg; lia|].
  assert (Z.lor x y = wrap_u 32 (Z.lor x y)) as ->.
  { rewrite <-wrap_u_lor. by rewrite !wrap_u_small. }
  apply wrap_u_range. lia.
Qed.

Lemma safe_uvarint_loop shifts src off out :
  0 <= off <= len src → 0 <= out < 2 ^ 32 →
  safe (uvarint_loop shifts src off out) (λ '(v, off'), 0 <= v < 2 ^ 32 ∧ moved src off 1 off').
Proof.
  revert off out. induction shifts as [|s shifts IH]; intros off out Ho Hout; [done|]. cbn [uvarint_loop].
  destruct (len src <=? off) eqn:E; [done|].
  destruct (src !! Z.to_nat off) as [b|] eqn:Eb.
  - destruct (Z.land (byte_val b) 128 =? 0).
    + split; [apply lor_range; [done|apply uvarint_term_range]|]. unfold moved. lia.
    + eapply safe_weaken; [apply IH; [lia|apply lor_range; [done|apply uvarint_term_range]]|].
      intros [v off'] [Hv Hm]. split; [done|]. unfold moved in *. lia.
  - apply lookup_ge_None in Eb. unfold len in *. lia.
Qed.

Lemma safe_uvarint src off :
  0 <= off <= len src → safe (uvarint src off) (λ '(v, off'), 0 <= v < 2 ^ 32 ∧ moved src off 1 off').
Proof. intros Ho. by apply safe_uvarint_loop. Qed.

Lemma safe_skip_loop fuel src count i off :
  0 <= off <= len src → len src - off < Z.of_nat fuel →
  safe (skip_loop fuel src count i off) (λ off', moved src off 0 off').
Proof.
  revert i off. induction fuel as [|fuel IH]; intros i off Ho Hf; [lia|]. cbn [skip_loop].
  destruct (count <=? i) eqn:Ec; [simpl; unfold moved; lia|].
  eapply safe_bind; [by apply safe_uvarint|]. intros [v off1] [_ Hm1]. unfold moved in Hm1.
  eapply safe_bind; [apply safe_uvarint; lia|]. intros [size off2] [Hsz Hm2]. unfold moved in Hm2.
  destruct (wrap_u 32 (len src - off2) <? size) eqn:Es; [done|].
  assert (wrap_u 32 (len src - off2) <= len src - off2) by (apply Z.mod_le; lia).
  eapply safe_weaken; [apply IH; lia|]. intros off' Hm. unfold moved in *. lia.
Qed.

Lemma safe_skipTags src off :
  0 <= off <= len src → safe (skipTags src off) (λ off', moved src off 0 off').
Proof.
  intros Ho. eapply safe_bind; [by apply safe_uvarint|]. intros [count off1] [_ Hm]. unfold moved in Hm.
  eapply safe_weaken; [apply safe_skip_loop; unfold len in *; lia|].
  intros off' Hm'. unfold moved in *. lia.
Qed.

Section kmsg.
Context {Req Resp : Type} `{!Kmsg Req Resp}.

(** A request on the wire: header, client ID, tagged fields when the version
    is flexible, and the body that kmsg writes. *)
Definition enc_request (apiKey version cid : Z) (client : option bytes) (ts : list (Z * bytes))
    (r : Req) : bytes :=
  be_encode 2 apiKey ++ be_encode 2 version ++ be_encode 4 cid ++ enc_nullable client ++
  (if IsFlexible (SetVersion version (NewRequest apiKey)) then enc_tags ts else []) ++ AppendTo r.

(** A frame on the wire. *)
Definition enc_frame (payload : bytes) : bytes := be_encode 4 (len payload) ++ payload.

Lemma ReadFull_app n d q e : length d = n → ReadFull n (mkReader (d ++ q) e) = Ok (d, mkReader q e).
Proof.
  intros Hd. unfold ReadFull. cbn [rd_data rd_end]. rewrite length_app.
  assert ((n <=? length d + length q)%nat = true) as -> by (apply Nat.leb_le; lia).
  by rewrite take_app_length', drop_app_length'.
Qed.

Lemma ReadFrame_frame payload rest e maxSize :
  len payload <= (if maxSize <=? 0 then DefaultMaxFrameSize else maxSize) → len payload < 2 ^ 31 →
  ReadFrame (mkReader (enc_frame payload ++ rest) e) maxSize = Ok (payload, mkReader rest e).
Proof.
  intros Hmax Hlen. unfold ReadFrame, enc_frame. set (mx := if maxSize <=? 0 then _ else maxSize) in *.
  rewrite <-(assoc_L (++)), ReadFull_app by apply length_be_encode. cbn [obind].
  rewrite be_decode_encode. change (256 ^ Z.of_nat 4) with (2 ^ 32). pose proof (len_nonneg payload).
  rewrite wrap_s_mod by lia. rewrite wrap_s_small by (unfold in_s; lia).
  assert ((len payload <? 0) = false) as -> by lia. assert ((mx <? len payload) = false) as -> by lia.
  apply ReadFull_app. unfold len. lia.
Qed.

Lemma requestFor_Ok apiKey version :
  apiKey ∈ api_keys → 0 <= version <= MaxVersion (NewRequest apiKey) →
  requestFor apiKey version = Ok (SetVersion version (NewRequest apiKey)).
Proof.
  intros Hk Hv. unfold requestFor. rewrite bool_decide_eq_true_2 by done.
  assert ((version <? 0) || (MaxVersion (NewRequest apiKey) <? version) = false) as -> by lia. done.
Qed.

Lemma requestFor_safe apiKey version : safe (requestFor apiKey version) (λ _, apiKey ∈ api_keys).
Proof. unfold requestFor. case_bool_decide; [|done]. by destruct (_ || _). Qed.

Lemma slice_of_rest p q : slice_of (p ++ q) (len p) (len (p ++ q) - len p) = Ok q.
Proof.
  rewrite len_app. replace (len p + len q - len p) with (len q) by lia.
  pose proof (slice_of_app p q []) as H. by rewrite app_nil_r in H.
Qed.

Lemma safe_header payload apiKey version off (req : Req) :
  0 <= off <= len payload →
  safe (read_header_tail payload apiKey version off req) (λ '(_, off'), moved payload off 0 off').
Proof.
  intros Ho. unfold read_header_tail. destruct (_ && _); [simpl; unfold moved; lia|].
  eapply safe_bind; [by apply safe_nullableString|]. intros [cl off1] Hm. unfold moved in Hm.
  destruct (IsFlexible req); [|simpl; unfold moved; lia].
  eapply safe_bind; [apply safe_skipTags; lia|]. intros off2 Hm2. simpl. unfold moved in *. lia.
Qed.

(** ** Properties *)

(** Uvarint reads a base-128 varint of up to five bytes and returns it
    modulo 2^32, leaving the cursor after it.  For values below 2^32 this is the
    value; a fifth byte that carries bits beyond the 32nd is accepted and those
    bits are dropped, where the code's error message says that a varint above
    2^32 - 1 is refused. *)
Theorem uvarint_reads_mod_2_32 (p q : bytes) (v : Z) :
  0 <= v < 2 ^ 35 →
  uvarint (p ++ enc_uvarint v ++ q) (len p) = Ok (v mod 2 ^ 32, len p + len (enc_uvarint v)).
Proof. apply uvarint_enc. Qed.

(** DecodeRequest is safe on any input: if the kmsg parser does not panic,
    then neither does DecodeRequest (every slice is in range) and the loop over
    tagged fields ends within the length of the payload; a decoded request has a
    supported API key. *)
Theorem DecodeRequest_safe (payload : bytes) :
  (∀ body (r : Req), safe (ReadFrom body r) (λ _, True)) →
  safe (DecodeRequest payload) (λ f : RequestFrame Req, APIKey f ∈ api_keys).
Proof.
  intros HR. unfold DecodeRequest.
  eapply safe_bind; [apply safe_int16; split; [lia|apply len_nonneg]|]. intros [key o1] [-> H1].
  eapply safe_bind; [apply safe_int16; lia|]. intros [ver o2] [-> H2].
  eapply safe_bind; [apply safe_int32; lia|]. intros [cid o3] [-> H3].
  eapply safe_bind; [apply requestFor_safe|]. intros req Hkey.
  eapply safe_bind; [apply safe_header; lia|]. intros [cl o4] Hm. unfold moved in Hm.
  eapply safe_bind; [apply safe_slice; lia|]. intros body _. cbn beta.
  pose proof (HR body req) as Hs. destruct (ReadFrom body req) as [r|[]|]; try done.
  by destruct (negb _).
Qed.

(** A request that a client encodes is decoded to the same header and body:
    for a supported key and version, a correlation ID in int32, a client ID that
    fits the int16 length, any tagged fields (in a flexible version) and a body
    that kmsg parses back, DecodeRequest returns exactly these. *)
Theorem DecodeRequest_roundtrip (apiKey version cid : Z) (client : option bytes)
    (ts : list (Z * bytes)) (r : Req) :
  apiKey ∈ api_keys → 0 <= version <= MaxVersion (NewRequest apiKey) → version < 2 ^ 15 →
  in_s 32 cid → from_option len 0 client < 2 ^ 15 → Forall tag_ok ts →
  len (enc_request apiKey version cid client ts r) < 2 ^ 32 →
  ReadFrom (AppendTo r) (SetVersion version (NewRequest apiKey)) = Ok r →
  DecodeRequest (enc_request apiKey version cid client ts r) =
    Ok (mkRequestFrame apiKey version cid client r).
Proof.
  intros Hk Hv Hv2 Hc Hcl Hts Hl HR. unfold enc_request in *. set (req := SetVersion _ _) in *.
  set (tags := if IsFlexible req then enc_tags ts else []) in *.
  assert (0 <= apiKey < 20 ∨ apiKey = 20) as Hk2.
  { unfold api_keys in Hk. repeat (apply elem_of_cons in Hk as [->|Hk]; [lia|]). by apply elem_of_nil in Hk. }
  unfold DecodeRequest.
  assert (∀ q, cur_int16 (be_encode 2 apiKey ++ q) 0 = Ok (apiKey, len (be_encode 2 apiKey))) as ->.
  { intros q. rewrite len_be_encode. apply (cur_int16_app [] apiKey q). unfold in_s. lia. }
  cbn [obind].
  rewrite cur_int16_app by (unfold in_s; lia). cbn [obind].
  set (p1 := be_encode 2 apiKey ++ be_encode 2 version).
  assert (len (be_encode 2 apiKey) + 2 = len p1) as -> by (unfold p1; by rewrite len_app, len_be_encode).
  rewrite (assoc_L (++) (be_encode 2 apiKey)) in Hl |- *. fold p1 in Hl |- *.
  rewrite cur_int32_app by done. cbn [obind]. rewrite requestFor_Ok by done. cbn [obind]. fold req.
  set (p2 := p1 ++ be_encode 4 cid).
  assert (len p1 + 4 = len p2) as -> by (unfold p2; by rewrite len_app, len_be_encode).
  rewrite (assoc_L (++) p1) in Hl |- *. fold p2 in Hl |- *.
  unfold read_header_tail. assert ((apiKey =? 7) = false) as H7.
  { apply Z.eqb_neq. intros ->. unfold api_keys in Hk.
    repeat (apply elem_of_cons in Hk as [[=]|Hk]). by apply elem_of_nil in Hk. }
  rewrite H7. cbn [andb]. rewrite nullableString_enc by done. cbn [obind].
  set (p3 := p2 ++ enc_nullable client). rewrite (assoc_L (++) p2) in Hl |- *. fold p3 in Hl |- *.
  assert ((if IsFlexible req then let? off := skipTags (p3 ++ tags ++ AppendTo r) (len p3) in Ok (client, off)
           else Ok (client, len p3)) = Ok (client, len (p3 ++ tags))) as ->.
  { unfold tags in *. destruct (IsFlexible req); [|by rewrite app_nil_r].
    by rewrite skipTags_enc. }
  cbn [obind]. rewrite (assoc_L (++) p3), slice_of_rest. cbn [obind]. rewrite HR.
  by rewrite Nat.eqb_refl.
Qed.

(** AppendResponse appends one well-formed frame to dst and leaves dst alone:
    ReadFrame on what it appended (with any bytes after it) returns the
    correlation ID, the empty tag section when the response is flexible (and not
    ApiVersions) and the body, and stops right after the frame, provided the
    frame is within the size limit. *)
Theorem AppendResponse_ReadFrame (dst rest : bytes) (cid maxSize : Z) (resp : Resp) (e : error) :
  let payload := be_encode 4 cid ++
    (if resp_IsFlexible resp && negb (resp_Key resp =? 18) then [byte_of 0] else []) ++
    resp_AppendTo resp in
  in_s 32 cid → len payload <= (if maxSize <=? 0 then DefaultMaxFrameSize else maxSize) →
  len payload < 2 ^ 31 →
  ∃ frame, AppendResponse dst cid resp = dst ++ frame ∧
    ReadFrame (mkReader (frame ++ rest) e) maxSize = Ok (payload, mkReader rest e).
Proof.
  intros payload Hc Hmax Hlen. exists (enc_frame payload). split.
  - unfold AppendResponse. set (flag := resp_IsFlexible resp && _) in *.
    assert (be_encode 4 (wrap_u 32 cid) = be_encode 4 cid) as ->.
    { rewrite <-(be_encode_decode (be_encode 4 cid)), length_be_encode, be_decode_encode. done. }
    assert ((if flag then ((dst ++ be_encode 4 0) ++ be_encode 4 cid) ++ [byte_of 0]
             else (dst ++ be_encode 4 0) ++ be_encode 4 cid) ++ resp_AppendTo resp =
            dst ++ be_encode 4 0 ++ payload) as ->.
    { unfold payload. destruct flag; by rewrite <-!(assoc_L (++)). }
    assert (wrap_u 32 (Z.of_nat (length (dst ++ be_encode 4 0 ++ payload)) - Z.of_nat (length dst) - 4) =
            len payload) as ->.
    { rewrite !length_app, length_be_encode. unfold len in *. rewrite wrap_u_small by (unfold in_u; lia). lia. }
    unfold PutUint32_at, enc_frame. rewrite take_app_length.
    rewrite <-drop_drop, drop_app_length. do 2 f_equal.
  - by apply ReadFrame_frame.
Qed.
End kmsg.

(** ** Witnesses: a kmsg with one kind of request, its body kept as bytes *)

Record toy := mkToy { toy_key : Z; toy_version : Z; toy_body : bytes }.
#[local] Instance toy_kmsg : Kmsg toy bytes := {|
  NewRequest k := mkToy k 0 []; MaxVersion _ := 12; SetVersion v r := mkToy (toy_key r) v (toy_body r);
  IsFlexible r := 9 <=? toy_version r; ReadFrom b r := Ok (mkToy (toy_key r) (toy_version r) b);
  AppendTo := toy_body; resp_IsFlexible _ := true; resp_Key _ := 3; resp_AppendTo b := b |}.

Lemma uvarint_reads_mod_2_32_witness :
  uvarint (bytes_of_string "x" ++ enc_uvarint (2 ^ 32 + 5) ++ []) 1 = Ok (5, 6).
Proof. apply (uvarint_reads_mod_2_32 (bytes_of_string "x") [] (2 ^ 32 + 5)). lia. Defined.

Lemma DecodeRequest_safe_witness :
  safe (DecodeRequest (Resp := bytes) (bytes_of_string "junk")) (λ f : RequestFrame toy, APIKey f ∈ api_keys).
Proof. apply (DecodeRequest_safe (Resp := bytes) (bytes_of_string "junk")). intros body r. exact I. Defined.

Lemma DecodeRequest_roundtrip_witness :
  DecodeRequest (Resp := bytes) (enc_request (Resp := bytes) 3 9 77 (Some (bytes_of_string "me"))
    [(1, bytes_of_string "t")] (mkToy 3 9 (bytes_of_string "body"))) =
  Ok (mkRequestFrame 3 9 77 (Some (bytes_of_string "me")) (mkToy 3 9 (bytes_of_string "body"))).
Proof.
  apply (DecodeRequest_roundtrip (Resp := bytes) 3 9 77 (Some (bytes_of_string "me"))
    [(1, bytes_of_string "t")] (mkToy 3 9 (bytes_of_string "body"))).
  - apply (bool_decide_unpack _). vm_compute. exact I.
  - simpl. lia.
  - lia.
  - unfold in_s. lia.
  - vm_compute. reflexivity.
  - apply Forall_cons_2; [unfold tag_ok; simpl; lia|apply Forall_nil_2].
  - vm_compute. reflexivity.
  - reflexivity.
Defined.

Lemma AppendResponse_ReadFrame_witness :
  ∃ frame, AppendResponse (Req := toy) (bytes_of_string "d") 7 (bytes_of_string "ok") =
      bytes_of_string "d" ++ frame ∧
    ReadFrame (mkReader (frame ++ []) EOF) 0 =
      Ok (be_encode 4 7 ++ [byte_of 0] ++ bytes_of_string "ok", mkReader [] EOF).
Proof.
  destruct (AppendResponse_ReadFrame (Req := toy) (bytes_of_string "d") [] 7 0 (bytes_of_string "ok") EOF)
    as (frame & H1 & H2).
  - unfold in_s. lia.
  - vm_compute. discriminate.
  - vm_compute. reflexivity.
  - exists frame. split; [exact H1|exact H2].
Defined.
