(* ===== verification/KafkaRecords.v ===== *)
(** * Kafka record batches

    The codec of [internal/eventstream/kafkaserver/server.go]: decoding the
    record batches of a produce request and encoding those of a fetch response.
    The field-by-field serialization of a record and of a batch header is
    [franz-go/pkg/kmsg]'s ([KmsgRecords]); framing, checksums, varints, limits
    and error codes are the server's.  [hash/crc32] with the Castagnoli table is
    executable here. *)

From S2P Require Import Prelude GoStrings GoBytes EventStream.

(** ** Error codes *)

Definition errOffsetOutOfRange : Z := 1.
Definition errCorruptMessage : Z := 2.
Definition errUnknownTopicOrPartition : Z := 3.
Definition errInvalidRequiredAcks : Z := 21.
Definition errInvalidGroupID : Z := 24.
Definition errUnknownMemberID : Z := 25.
Definition errUnsupportedVersion : Z := 35.
Definition errTopicAlreadyExists : Z := 36.
Definition errInvalidPartitions : Z := 37.
Definition errInvalidReplicationFactor : Z := 38.
Definition errInvalidReplicaAssignment : Z := 39.
Definition errInvalidConfig : Z := 40.
Definition errInvalidRequest : Z := 42.
Definition errUnsupportedCompressionType : Z := 76.
Definition errUnknownTopicID : Z := 100.

(** ** [hash/crc32], Castagnoli *)

Definition crc_bit (c : Z) : Z :=
  if Z.land c 1 =? 1 then Z.lxor (Z.shiftr c 1) 2197175160 else Z.shiftr c 1.
Definition crc_byte (c : Z) (b : Init.Byte.byte) : Z := Nat.iter 8 crc_bit (Z.lxor c (byte_val b)).
Definition crc32c (data : bytes) : Z := Z.lxor (fold_left crc_byte data 4294967295) 4294967295.

Example crc32c_check : crc32c (bytes_of_string "123456789") = 3808858755.
Proof. vm_compute. reflexivity. Qed.

(** ** The kmsg types, by the fields the server uses *)

Record kmsg_Header := mkKHeader { kh_Key : string; kh_Value : slice }.
Record kmsg_Record := mkKRecord {
  kr_Length : Z; kr_Attributes : Z; kr_TimestampDelta64 : Z; kr_OffsetDelta : Z;
  kr_Key : slice; kr_Value : slice; kr_Headers : list kmsg_Header }.
Record kmsg_RecordBatch := mkKBatch {
  kb_FirstOffset : Z; kb_Length : Z; kb_PartitionLeaderEpoch : Z; kb_Magic : Z; kb_Attributes : Z;
  kb_LastOffsetDelta : Z; kb_FirstTimestamp : Z; kb_MaxTimestamp : Z; kb_ProducerID : Z;
  kb_ProducerEpoch : Z; kb_FirstSequence : Z; kb_NumRecords : Z; kb_Records : bytes }.

Definition with_Length (r : kmsg_Record) (n : Z) : kmsg_Record :=
  mkKRecord n (kr_Attributes r) (kr_TimestampDelta64 r) (kr_OffsetDelta r) (kr_Key r) (kr_Value r)
    (kr_Headers r).

(** [ReadFrom] gives the error's text or the value. *)
Class KmsgRecords := {
  Record_ReadFrom : bytes → string + kmsg_Record;
  Record_AppendTo : kmsg_Record → bytes;
  Batch_ReadFrom : bytes → string + kmsg_RecordBatch;
  Batch_AppendTo : kmsg_RecordBatch → bytes }.

(** ** Varints *)

(** [int32(u>>1) ^ -int32(u&1)] *)
Definition unzigzag (u : Z) : Z := Z.lxor (wrap_s 32 (Z.shiftr u 1)) (- wrap_s 32 (Z.land u 1)).

(** The loop over the shifts: the varint and its length, or a length of 0 when
    [src] ends early and of -1 when the varint is too long. *)
Fixpoint readVarint_loop (shifts : list Z) (src : bytes) (u : Z) : Z * Z :=
  match shifts with
  | [] => (0, -1)
  | shift :: shifts =>
      match src with
      | [] => (0, 0)
      | b :: src =>
          let u := Z.lor u (wrap_u 32 (Z.shiftl (Z.land (byte_val b) 127) shift)) in
          if Z.land (byte_val b) 128 =? 0 then (unzigzag u, shift / 7 + 1)
          else readVarint_loop shifts src u
      end
  end.
Definition readVarint (src : bytes) : Z * Z := readVarint_loop [0; 7; 14; 21; 28] src 0.

(** [uint32(i)<<1 ^ uint32(i>>31)] *)
Definition zigzag (i : Z) : Z := Z.lxor (wrap_u 32 (Z.shiftl (wrap_u 32 i) 1)) (wrap_u 32 (Z.shiftr i 31)).

(** A uint32 has at most five groups of seven bits. *)
Fixpoint appendVarint_loop (fuel : nat) (u : Z) : bytes :=
  match fuel with
  | O => [byte_of u]
  | S fuel =>
      if 128 <=? u then byte_of (Z.lor (Z.land u 255) 128) :: appendVarint_loop fuel (Z.shiftr u 7)
      else [byte_of u]
  end.
Definition appendVarint (dst : bytes) (i : Z) : bytes := dst ++ appendVarint_loop 4 (zigzag i).

(** ** Decoding *)

(** The three results [(records, code, message)]: a code other than zero comes
    without records. *)
Abbreviation decoded A := (outcome (Z * string) A).
Definition corrupt {A} (msg : string) : decoded A := Err (errCorruptMessage, msg).

(** [src[a:b]] *)
Definition slice_ab {E} (src : bytes) (a b : Z) : outcome E bytes :=
  if (0 <=? a) && (a <=? b) && (b <=? Z.of_nat (length src))
  then Ok (take (Z.to_nat (b - a)) (drop (Z.to_nat a) src)) else Panic.

(** [t.UnixMilli()] rounds down; [time.UnixMilli] is its inverse on whole milliseconds. *)
Definition unix_milli (t : Time) : Z := wrap_s 64 (t / Millisecond).
Definition time_of_milli (ms : Z) : Time := ms * Millisecond.

Definition copy_header (h : kmsg_Header) : Header := mkHeader (kh_Key h) (copyBytes (kh_Value h)).

Section codec.
Context `{KmsgRecords}.

Definition producer_record (firstTimestamp : Z) (rec : kmsg_Record) : ProducerRecord :=
  mkProducerRecord (copyBytes (kr_Key rec)) (copyBytes (kr_Value rec)) (Some (copy_header <$> kr_Headers rec))
    (time_of_milli (wrap_s 64 (firstTimestamp + kr_TimestampDelta64 rec))).

(** The loop over the records of a batch; each takes a byte at least. *)
Fixpoint decode_loop (fuel : nat) (batch : kmsg_RecordBatch) (i : Z) (src : bytes) (out : list ProducerRecord)
    : decoded (list ProducerRecord) :=
  if kb_NumRecords batch <=? i then
    if negb (Z.of_nat (length src) =? 0) then corrupt "record batch has trailing bytes" else Ok out
  else match fuel with
  | O => Panic
  | S fuel =>
      let '(length_, n) := readVarint src in
      if (n <=? 0) || (length_ <? 0) then corrupt "record length is invalid"
      else
        let total := n + length_ in
        if Z.of_nat (length src) <? total then corrupt "record length exceeds batch payload"
        else
          let? wire := slice_ab src 0 total in
          match Record_ReadFrom wire with
          | inl e => corrupt e
          | inr rec =>
              let? src := slice_ab src total (Z.of_nat (length src)) in
              decode_loop fuel batch (i + 1) src (out ++ [producer_record (kb_FirstTimestamp batch) rec])
          end
  end.
Definition decodeRecords (batch : kmsg_RecordBatch) : decoded (list ProducerRecord) :=
  decode_loop (S (length (kb_Records batch))) batch 0 (kb_Records batch) [].

(** One turn of the batch loop: the records and what follows the batch. *)
Definition decode_batch (src : bytes) : decoded (list ProducerRecord * bytes) :=
  if Z.of_nat (length src) <? 12 then corrupt "record batch header is truncated"
  else
    let? l := slice_ab src 8 12 in
    let length_ := wrap_s 32 (be_decode l) in
    if length_ <? 49 then corrupt "record batch length is invalid"
    else
      let total := 12 + length_ in
      if Z.of_nat (length src) <? total then corrupt "record batch length exceeds produce payload"
      else
        let? wire := slice_ab src 0 total in
        let? body := slice_ab wire 21 (Z.of_nat (length wire)) in
        let? crc := slice_ab wire 17 21 in
        if negb (crc32c body =? be_decode crc) then corrupt "record batch CRC is invalid"
        else match Batch_ReadFrom wire with
        | inl e => corrupt e
        | inr batch =>
            if negb (kb_Magic batch =? 2) then corrupt "only Kafka record batch magic 2 is supported"
            else if negb (Z.land (kb_Attributes batch) 7 =? 0)
            then Err (errUnsupportedCompressionType,
                      "compressed record batches are outside the event-stream intersection")
            else if negb (Z.land (kb_Attributes batch) 48 =? 0)
            then Err (errInvalidRequest,
                      "transactional and control batches are outside the event-stream intersection")
            else
              let? records := decodeRecords batch in
              let? src := slice_ab src total (Z.of_nat (length src)) in
              Ok (records, src)
        end.

(** Each batch takes sixty-one bytes at least. *)
Fixpoint decode_batches (fuel : nat) (src : bytes) (out : list ProducerRecord) : decoded (list ProducerRecord) :=
  match src with
  | [] => Ok out
  | _ =>
      match fuel with
      | O => Panic
      | S fuel => let? (records, src) := decode_batch src in decode_batches fuel src (out ++ records)
      end
  end.
Definition decodeRecordBatches (src : bytes) : decoded (list ProducerRecord) :=
  decode_batches (length src) src [].

(** ** Encoding *)

(** The loop that looks for a length that describes its own encoding. *)
Fixpoint encodeRecord (fuel : nat) (record : kmsg_Record) : option bytes :=
  match fuel with
  | O => None
  | S fuel =>
      let wire := Record_AppendTo record in
      let prefixLen := Z.of_nat (length (appendVarint [] (kr_Length record))) in
      let bodyLen := wrap_s 32 (Z.of_nat (length wire) - prefixLen) in
      if kr_Length record =? bodyLen then Some wire else encodeRecord fuel (with_Length record bodyLen)
  end.

Definition kmsg_header (h : Header) : kmsg_Header := mkKHeader (Header_Key h) (copyBytes (Header_Value h)).

Definition kmsg_record (firstTS : Z) (i : nat) (rec : Record_) : kmsg_Record :=
  mkKRecord 0 0 (wrap_s 64 (unix_milli (Record_Timestamp rec) - firstTS)) (wrap_s 32 (Z.of_nat i))
    (copyBytes (Record_Key rec)) (copyBytes (Record_Value rec)) (kmsg_header <$> default [] (Record_Headers rec)).

(** The record bytes and the largest timestamp. *)
Fixpoint encode_loop (firstTS : Z) (i : nat) (records : list Record_) (maxTS : Z) (recordBytes : bytes)
    : option (Z * bytes) :=
  match records with
  | [] => Some (maxTS, recordBytes)
  | rec :: records =>
      let ts := unix_milli (Record_Timestamp rec) in
      let maxTS := if maxTS <? ts then ts else maxTS in
      match encodeRecord 2 (kmsg_record firstTS i rec) with
      | None => None
      | Some b => encode_loop firstTS (S i) records maxTS (recordBytes ++ b)
      end
  end.

(** [binary.BigEndian.PutUint32(wire[17:21], v)] *)
Definition put_crc (wire : bytes) (v : Z) : bytes := take 17 wire ++ be_encode 4 v ++ drop 21 wire.

(** [None]: the encoding loop ran out of fuel, or the slice is out of range. *)
Definition encodeRecordBatch (records : list Record_) : option bytes :=
  match records with
  | [] => None
  | r0 :: _ =>
      let firstTS := unix_milli (Record_Timestamp r0) in
      match encode_loop firstTS 0 records firstTS [] with
      | None => None
      | Some (maxTS, recordBytes) =>
          let batch := mkKBatch (Record_Offset r0) (wrap_s 32 (49 + Z.of_nat (length recordBytes))) 0 2 0
            (wrap_s 32 (Z.of_nat (length records) - 1)) firstTS maxTS (-1) (-1) (-1)
            (wrap_s 32 (Z.of_nat (length records))) recordBytes in
          let wire := Batch_AppendTo batch in
          if (length wire <? 21)%nat then None else Some (put_crc wire (crc32c (drop 21 wire)))
      end
  end.

(** The loop that cuts where the offsets jump; [cur] is [records[start:i]]. *)
Fixpoint group_loop (prev : Record_) (cur records : list Record_) : list (list Record_) :=
  match records with
  | [] => [cur]
  | r :: records =>
      if negb (Record_Offset r =? wrap_s 64 (Record_Offset prev + 1)) then cur :: group_loop r [r] records
      else group_loop r (cur ++ [r]) records
  end.
Definition contiguousRecordGroups (records : list Record_) : list (list Record_) :=
  match records with [] => [[]] | r :: rs => group_loop r [r] rs end.

Fixpoint encode_groups (groups : list (list Record_)) (out : bytes) : option bytes :=
  match groups with
  | [] => Some out
  | g :: groups =>
      match encodeRecordBatch g with None => None | Some b => encode_groups groups (out ++ b) end
  end.
Definition encodeRecordBatches (records : list Record_) : option slice :=
  if (length records =? 0)%nat then Some None
  else Some <$> encode_groups (contiguousRecordGroups records) [].
End codec.
