(* ===== verification/KafkaRecordsProps.v ===== *)
(** * Kafka record batches: properties

    Varints round-trip; the length search of encodeRecord ends; decoding is safe
    on any input; what a fetch response carries decodes to the stored records. *)

From S2P Require Import Prelude GoStrings GoBytes EventStream KafkaRecords.

(** ** Varints *)

Lemma lxor_ones x n : 0 <= n → 0 <= x < 2 ^ n → Z.lxor x (Z.ones n) = Z.ones n - x.
Proof.
  intros Hn Hx.
  assert (Hb : ∀ m, n <= m → Z.testbit x m = false).
  { intros m Hm. destruct (decide (x = 0)) as [->|]; [apply Z.bits_0|].
    apply Z.bits_above_log2; [lia|]. apply Z.log2_lt_pow2; [lia|].
    eapply Z.lt_le_trans; [apply Hx|]. by apply Z.pow_le_mono_r; lia. }
  assert (Hd : Z.land x (Z.lxor x (Z.ones n)) = 0).
  { apply Z.bits_inj'. intros m Hm. rewrite Z.land_spec, Z.lxor_spec, Z.bits_0.
    destruct (decide (m < n)); [|by rewrite Hb by lia].
    rewrite Z.ones_spec_low by lia. by destruct (Z.testbit x m). }
  pose proof (Z.add_nocarry_lxor _ _ Hd) as E.
  rewrite <-Z.lxor_assoc, Z.lxor_nilpotent, Z.lxor_0_l in E. lia.
Qed.

Lemma zigzag_spec i : in_s 32 i → zigzag i = if 0 <=? i then 2 * i else - 2 * i - 1.
Proof.
  unfold in_s. intros Hi. unfold zigzag, wrap_u. rewrite Z.shiftl_mul_pow2, Z.shiftr_div_pow2 by lia.
  destruct (Z.leb_spec 0 i).
  - rewrite (Z.div_small i) by lia. rewrite (Z.mod_small 0), Z.lxor_0_r by lia.
    rewrite (Z.mod_small i), (Z.mod_small (i * 2 ^ 1)) by lia. lia.
  - assert (i / 2 ^ 31 = -1) as -> by (symmetry; apply (Z.div_unique i (2 ^ 31) (-1) (i + 2 ^ 31)); lia).
    change (-1 mod 2 ^ 32) with (Z.ones 32).
    assert (i mod 2 ^ 32 = i + 2 ^ 32) as -> by (symmetry; apply (Z.mod_unique i (2 ^ 32) (-1)); lia).
    assert ((i + 2 ^ 32) * 2 ^ 1 mod 2 ^ 32 = 2 * i + 2 ^ 32) as ->
      by (symmetry; apply (Z.mod_unique _ (2 ^ 32) 1); lia).
    rewrite lxor_ones by lia. change (Z.ones 32) with (2 ^ 32 - 1). lia.
Qed.

Lemma unzigzag_zigzag i : in_s 32 i → unzigzag (zigzag i) = i.
Proof.
  intros Hi. rewrite zigzag_spec by done. unfold unzigzag, in_s in *.
  rewrite (Z.land_ones _ 1), Z.shiftr_div_pow2 by lia. change (2 ^ 1) with 2.
  destruct (Z.leb_spec 0 i).
  - assert (2 * i / 2 = i) as -> by (Z.div_mod_to_equations; lia).
    assert (2 * i mod 2 = 0) as -> by (Z.div_mod_to_equations; lia).
    rewrite (wrap_s_small 32 0), wrap_s_small by (unfold in_s; lia). apply Z.lxor_0_r.
  - assert ((- 2 * i - 1) / 2 = - i - 1) as -> by (Z.div_mod_to_equations; lia).
    assert ((- 2 * i - 1) mod 2 = 1) as -> by (Z.div_mod_to_equations; lia).
    rewrite (wrap_s_small 32 1), wrap_s_small by (unfold in_s; lia).
    change (- (1)) with (-1). rewrite Z.lxor_m1_r. unfold Z.lnot. lia.
Qed.

Lemma zigzag_range i : in_s 32 i → 0 <= zigzag i < 2 ^ 32.
Proof. intros Hi. rewrite zigzag_spec by done. unfold in_s in Hi. destruct (Z.leb_spec 0 i); lia. Qed.

Lemma high_digit u : 0 <= u → Z.lor (Z.land u 255) 128 = u mod 128 + 128.
Proof.
  intros Hu. change 255 with (Z.ones 8). rewrite Z.land_ones by lia. change (2 ^ 8) with 256.
  assert (Hall : forallb (λ n, Z.lor (Z.of_nat n) 128 =? Z.of_nat n mod 128 + 128) (seq 0 256) = true)
    by (vm_compute; reflexivity).
  rewrite forallb_forall in Hall. pose proof (Z.mod_pos_bound u 256 ltac:(lia)).
  specialize (Hall (Z.to_nat (u mod 256))). rewrite Z2Nat.id, Z.eqb_eq in Hall by lia.
  rewrite Hall by (apply in_seq; lia). f_equal. Z.div_mod_to_equations. lia.
Qed.

(** The reader undoes the writer, digit by digit. *)
Lemma readVarint_digits k s v rest u :
  0 <= v < 2 ^ (7 * (Z.of_nat k + 1)) → 0 <= s →
  let shifts := (λ i, s + 7 * Z.of_nat i) <$> seq 0 (S k) in
  readVarint_loop shifts (appendVarint_loop k v ++ rest) u =
    (unzigzag (Z.lor u (wrap_u 32 (Z.shiftl v s))),
     s / 7 + Z.of_nat (length (appendVarint_loop k v))).
Proof.
  revert s v u. induction k as [|k IH]; intros s v u Hv Hs shifts; unfold shifts; clear shifts;
    rewrite <-cons_seq, fmap_cons; rewrite Z.mul_0_r, Z.add_0_r; cbn [appendVarint_loop].
  - cbn [app readVarint_loop]. rewrite byte_val_of, (Z.mod_small v 256), land_127, (Z.mod_small v 128) by lia.
    rewrite land_128_bit by lia. assert ((v <? 128) = true) as -> by lia. done.
  - destruct (Z.leb_spec 128 v) as [Hge|Hlt].
    + cbn [app readVarint_loop]. pose proof (Z.mod_pos_bound v 128 ltac:(lia)).
      rewrite high_digit, byte_val_of, (Z.mod_small (_ + 128)) by lia.
      rewrite land_128_bit by lia. assert ((v mod 128 + 128 <? 128) = false) as -> by lia.
      rewrite land_127. replace ((v mod 128 + 128) mod 128) with (v mod 128)
        by (rewrite <-(Z.mul_1_l 128) at 3; rewrite Z.mod_add by lia; by rewrite Z.mod_mod by lia).
      rewrite Z.shiftr_div_pow2 by lia. change (2 ^ 7) with 128.
      specialize (IH (s + 7) (v / 128) (Z.lor u (wrap_u 32 (Z.shiftl (v mod 128) s)))).
      cbv zeta in IH. rewrite <-fmap_S_seq, <-list_fmap_compose.
      etrans; [etrans; [|apply IH]|].
      * f_equal. apply list_fmap_ext. intros i x _. simpl. lia.
      * split; [by apply Z.div_pos; lia|]. apply Z.div_lt_upper_bound; [lia|].
        replace (7 * (Z.of_nat (S k) + 1)) with (7 + 7 * (Z.of_nat k + 1)) in Hv by lia.
        rewrite Z.pow_add_r in Hv by lia. lia.
      * lia.
      * rewrite <-Z.lor_assoc, wrap_u_lor, shiftl_digit by lia. f_equal.
        replace (s + 7) with (s + 1 * 7) by lia. rewrite Z.div_add by lia. cbn [length]. lia.
    + cbn [app readVarint_loop]. rewrite byte_val_of, (Z.mod_small v 256), land_127, (Z.mod_small v 128) by lia.
      rewrite land_128_bit by lia. assert ((v <? 128) = true) as -> by lia. done.
Qed.

Lemma readVarint_append i rest :
  in_s 32 i → readVarint (appendVarint [] i ++ rest) = (i, Z.of_nat (length (appendVarint [] i))).
Proof.
  intros Hi. pose proof (zigzag_range i Hi). pose proof (readVarint_digits 4 0 (zigzag i) rest 0) as H0.
  rewrite Z.shiftl_0_r, Z.lor_0_l in H0. unfold readVarint, appendVarint. cbn [app].
  rewrite wrap_u_small, unzigzag_zigzag in H0 by (done || unfold in_u; lia). apply H0; lia.
Qed.

Lemma appendVarint_length i : (1 <= length (appendVarint [] i) <= 5)%nat.
Proof.
  unfold appendVarint. cbn [app]. generalize (zigzag i) as u. intros u. cbn [appendVarint_loop].
  repeat (destruct (128 <=? _); cbn [length]; [|lia]). lia.
Qed.


(** ** Checksums *)

Lemma lxor_range x y n : 0 <= n → 0 <= x < 2 ^ n → 0 <= y < 2 ^ n → 0 <= Z.lxor x y < 2 ^ n.
Proof.
  intros Hn Hx Hy. assert (Hp : 0 <= Z.lxor x y) by (apply Z.lxor_nonneg; lia). split; [done|].
  destruct (decide (Z.lxor x y = 0)) as [->|Hne]; [lia|]. apply Z.log2_lt_pow2; [lia|].
  pose proof (Z.log2_lxor x y ltac:(lia) ltac:(lia)) as Hl.
  assert (∀ z, 0 <= z < 2 ^ n → z = 0 ∨ Z.log2 z < n) as Hz.
  { intros z Hz. destruct (decide (z = 0)); [by left|right]. apply Z.log2_lt_pow2; lia. }
  assert (n ≠ 0) by (intros ->; change (2 ^ 0) with 1 in *; assert (x = 0) by lia; assert (y = 0) by lia; by subst).
  destruct (Hz x Hx) as [->|Hx'], (Hz y Hy) as [->|Hy']; cbn [Z.log2] in Hl; lia.
Qed.

Lemma crc32c_range data : 0 <= crc32c data < 2 ^ 32.
Proof.
  assert (Hbit : ∀ c, 0 <= c < 2 ^ 32 → 0 <= crc_bit c < 2 ^ 32).
  { intros c Hc. unfold crc_bit. rewrite Z.shiftr_div_pow2 by lia.
    assert (0 <= c / 2 ^ 1 < 2 ^ 32) by (Z.div_mod_to_equations; lia).
    destruct (_ =? 1); [|done]. apply lxor_range; lia. }
  assert (Hbyte : ∀ c b, 0 <= c < 2 ^ 32 → 0 <= crc_byte c b < 2 ^ 32).
  { intros c b Hc. unfold crc_byte. cbn [Nat.iter]. pose proof (byte_val_range b).
    do 8 apply Hbit. apply lxor_range; lia. }
  unfold crc32c. apply lxor_range; [lia| |lia].
  assert (H0 : 0 <= 4294967295 < 2 ^ 32) by lia. revert H0. generalize 4294967295 as c.
  induction data as [|b data IH]; intros c Hc; [done|]. cbn [fold_left]. apply IH. by apply Hbyte.
Qed.

(** ** What kmsg's serialization promises *)

Definition valid_record (r : kmsg_Record) : Prop :=
  in_s 8 (kr_Attributes r) ∧ in_s 64 (kr_TimestampDelta64 r) ∧ in_s 32 (kr_OffsetDelta r).
Definition valid_batch (b : kmsg_RecordBatch) : Prop :=
  kb_Length b = 49 + Z.of_nat (length (kb_Records b)) ∧ in_s 32 (kb_Length b) ∧ in_s 64 (kb_FirstOffset b) ∧
  in_s 32 (kb_PartitionLeaderEpoch b) ∧ in_s 8 (kb_Magic b) ∧ in_s 16 (kb_Attributes b) ∧
  in_s 32 (kb_LastOffsetDelta b) ∧ in_s 64 (kb_FirstTimestamp b) ∧ in_s 64 (kb_MaxTimestamp b) ∧
  in_s 64 (kb_ProducerID b) ∧ in_s 16 (kb_ProducerEpoch b) ∧ in_s 32 (kb_FirstSequence b) ∧
  in_s 32 (kb_NumRecords b).

(** A record is its length as a varint and a body that does not depend on the
    length; a batch has the layout of the Kafka protocol (offset, length, epoch
    and magic, checksum, the rest); both parse back, a batch whatever its
    checksum is. *)
Class KmsgRecordsLaws `{KmsgRecords} := {
  Record_body : kmsg_Record → bytes;
  body_ignores_length r n : Record_body (with_Length r n) = Record_body r;
  record_layout r : Record_AppendTo r = appendVarint [] (kr_Length r) ++ Record_body r;
  record_parse r : valid_record r → kr_Length r = Z.of_nat (length (Record_body r)) → in_s 32 (kr_Length r) →
    Record_ReadFrom (Record_AppendTo r) = inr r;
  batch_layout b : valid_batch b → ∃ h m c rest,
    Batch_AppendTo b = h ++ be_encode 4 (kb_Length b) ++ m ++ c ++ rest ∧
    length h = 8%nat ∧ length m = 5%nat ∧ length c = 4%nat ∧ length rest = (40 + length (kb_Records b))%nat;
  batch_parse b crc : valid_batch b → Batch_ReadFrom (put_crc (Batch_AppendTo b) crc) = inr b }.

Lemma slice_ab_app {E} (p q r : bytes) a b :
  a = Z.of_nat (length p) → b = Z.of_nat (length p + length q) → @slice_ab E (p ++ q ++ r) a b = Ok q.
Proof.
  intros -> ->. unfold slice_ab. rewrite !length_app.
  assert ((0 <=? Z.of_nat (length p)) && (Z.of_nat (length p) <=? Z.of_nat (length p + length q)) &&
    (Z.of_nat (length p + length q) <=? Z.of_nat (length p + (length q + length r))) = true) as ->
    by (rewrite !andb_true_iff, !Z.leb_le; lia).
  rewrite Nat2Z.id, drop_app_length.
  replace (Z.to_nat (Z.of_nat (length p + length q) - Z.of_nat (length p))) with (length q) by lia.
  by rewrite take_app_length.
Qed.

Lemma slice_ab_head {E} (q r : bytes) b : b = Z.of_nat (length q) → @slice_ab E (q ++ r) 0 b = Ok q.
Proof. intros ->. by apply (slice_ab_app [] q r). Qed.
Lemma slice_ab_tail {E} (p q : bytes) a b :
  a = Z.of_nat (length p) → b = Z.of_nat (length p + length q) → @slice_ab E (p ++ q) a b = Ok q.
Proof. intros Ha Hb. rewrite <-(app_nil_r q) at 1. by apply slice_ab_app. Qed.

Section laws.
Context `{KmsgRecordsLaws}.

(** ** Records *)

Definition sized (r : kmsg_Record) : kmsg_Record := with_Length r (Z.of_nat (length (Record_body r))).
Definition record_wire (r : kmsg_Record) : bytes :=
  appendVarint [] (Z.of_nat (length (Record_body r))) ++ Record_body r.

Lemma wire_sized r : Record_AppendTo (sized r) = record_wire r.
Proof. unfold sized. rewrite record_layout, body_ignores_length. done. Qed.

(** The search ends in two steps: the body does not depend on the length. *)
Lemma encodeRecord_two r : Z.of_nat (length (Record_body r)) < 2 ^ 31 → encodeRecord 2 r = Some (record_wire r).
Proof.
  intros Hb. pose proof (wire_sized r) as Hw.
  assert (Hlen : ∀ n, wrap_s 32 (Z.of_nat (length (Record_AppendTo (with_Length r n))) -
    Z.of_nat (length (appendVarint [] n))) = Z.of_nat (length (Record_body r))).
  { intros n. rewrite record_layout, length_app, body_ignores_length. cbn [kr_Length with_Length].
    rewrite wrap_s_small by (lia || unfold in_s; lia). lia. }
  assert (Hid : with_Length r (kr_Length r) = r) by (by destruct r).
  cbn [encodeRecord]. pose proof (Hlen (kr_Length r)) as E1. rewrite Hid in E1. rewrite E1.
  destruct (Z.eqb_spec (kr_Length r) (Z.of_nat (length (Record_body r)))) as [E|_].
  - rewrite <-Hw. unfold sized. by rewrite <-E, Hid.
  - fold (sized r). rewrite Hw. cbn [kr_Length sized with_Length].
    unfold sized in Hw. rewrite <-Hw, Hlen, Z.eqb_refl. done.
Qed.

Definition group_wires (firstTS : Z) (i : nat) (rs : list Record_) : list bytes :=
  imap (λ j r, record_wire (kmsg_record firstTS (i + j) r)) rs.

Lemma group_wires_cons firstTS i r rs :
  group_wires firstTS i (r :: rs) = record_wire (kmsg_record firstTS i r) :: group_wires firstTS (S i) rs.
Proof.
  unfold group_wires. simpl. rewrite Nat.add_0_r. f_equal. apply imap_ext. intros j x _. simpl.
  by rewrite Nat.add_succ_r.
Qed.

Lemma length_record_wire r : (S (length (Record_body r)) <= length (record_wire r))%nat.
Proof. unfold record_wire. rewrite length_app. pose proof (appendVarint_length (Z.of_nat (length (Record_body r)))). lia. Qed.

Lemma encode_loop_spec firstTS i rs maxTS out :
  Z.of_nat (length (concat (group_wires firstTS i rs))) < 2 ^ 31 →
  ∃ m, encode_loop firstTS i rs maxTS out = Some (m, out ++ concat (group_wires firstTS i rs)) ∧
    (in_s 64 maxTS → in_s 64 m).
Proof.
  revert i maxTS out. induction rs as [|r rs IH]; intros i maxTS out Hl.
  { exists maxTS. cbn. by rewrite app_nil_r. }
  rewrite group_wires_cons in *. cbn [concat] in *. rewrite length_app in Hl. cbn [encode_loop].
  pose proof (length_record_wire (kmsg_record firstTS i r)).
  rewrite encodeRecord_two by lia. set (ts := unix_milli _).
  destruct (IH (S i) (if maxTS <? ts then ts else maxTS) (out ++ record_wire (kmsg_record firstTS i r)))
    as (m & -> & Hm); [lia|].
  exists m. rewrite <-(assoc_L (++)). split; [done|]. intros Hs. apply Hm.
  destruct (maxTS <? ts); [|done]. by apply wrap_s_range.
Qed.

(** What a stored record looks like to a client. *)
Definition as_produced (r : Record_) : ProducerRecord :=
  mkProducerRecord (Record_Key r) (Record_Value r) (Some (default [] (Record_Headers r)))
    (time_of_milli (unix_milli (Record_Timestamp r))).

Lemma codec_copyBytes s : copyBytes s = s.
Proof. destruct s as [l|]; [|done]. simpl. by rewrite map_id. Qed.

Lemma wrap_s_cancel w a b : 1 <= w → in_s w b → wrap_s w (a + wrap_s w (b - a)) = b.
Proof.
  intros Hw Hb. rewrite <-(wrap_s_small w b) at 2 by done. unfold wrap_s.
  replace (a + ((b - a + 2 ^ (w - 1)) mod 2 ^ w - 2 ^ (w - 1)) + 2 ^ (w - 1))
    with ((b - a + 2 ^ (w - 1)) mod 2 ^ w + a) by lia.
  rewrite Zplus_mod_idemp_l. do 2 f_equal. lia.
Qed.

Lemma wrap_s_add_l w a b : 1 <= w → wrap_s w (wrap_s w a + b) = wrap_s w (a + b).
Proof.
  intros Hw. unfold wrap_s.
  replace ((a + 2 ^ (w - 1)) mod 2 ^ w - 2 ^ (w - 1) + b + 2 ^ (w - 1)) with ((a + 2 ^ (w - 1)) mod 2 ^ w + b) by lia.
  rewrite Zplus_mod_idemp_l. do 2 f_equal. lia.
Qed.

Lemma producer_record_kmsg firstTS i r : producer_record firstTS (sized (kmsg_record firstTS i r)) = as_produced r.
Proof.
  unfold producer_record, as_produced, sized, kmsg_record, with_Length.
  cbn [kr_Key kr_Value kr_Headers kr_TimestampDelta64]. rewrite !codec_copyBytes.
  rewrite wrap_s_cancel by (lia || by apply wrap_s_range). do 2 f_equal.
  rewrite <-list_fmap_compose. rewrite <-(list_fmap_id (default [] _)) at 2. apply list_fmap_ext.
  intros ? [k v] _. unfold copy_header, kmsg_header. cbn. by rewrite !codec_copyBytes.
Qed.

Lemma kmsg_record_valid firstTS i r : valid_record (sized (kmsg_record firstTS i r)).
Proof.
  unfold valid_record, sized, kmsg_record. cbn.
  split; [unfold in_s; lia|]. split; apply wrap_s_range; lia.
Qed.

Lemma decode_loop_group fuel batch i rs out :
  kb_NumRecords batch = Z.of_nat (i + length rs) → (length rs <= fuel)%nat →
  Z.of_nat (length (concat (group_wires (kb_FirstTimestamp batch) i rs))) < 2 ^ 31 →
  decode_loop fuel batch (Z.of_nat i) (concat (group_wires (kb_FirstTimestamp batch) i rs)) out =
    Ok (out ++ (as_produced <$> rs)).
Proof.
  revert i fuel out. induction rs as [|r rs IH]; intros i fuel out Hn Hf Hl.
  { cbn [length] in Hn. destruct fuel; cbn [decode_loop]; rewrite Hn, (proj2 (Z.leb_le _ _)) by lia; cbn;
      by rewrite app_nil_r. }
  destruct fuel as [|fuel]; [cbn [length] in Hf; lia|]. cbn [length] in Hn, Hf.
  rewrite group_wires_cons in *. cbn [concat] in *. rewrite length_app in Hl.
  set (k := kmsg_record (kb_FirstTimestamp batch) i r) in *. set (tl := concat _) in *.
  pose proof (length_record_wire k) as Hk. cbn [decode_loop].
  rewrite (proj2 (Z.leb_gt _ _)) by lia.
  assert (Hb : in_s 32 (Z.of_nat (length (Record_body k)))) by (unfold in_s; lia).
  assert (readVarint (record_wire k ++ tl) = (Z.of_nat (length (Record_body k)),
    Z.of_nat (length (appendVarint [] (Z.of_nat (length (Record_body k))))))) as ->.
  { unfold record_wire. rewrite <-(assoc_L (++)). by apply readVarint_append. }
  pose proof (appendVarint_length (Z.of_nat (length (Record_body k)))).
  rewrite (proj2 (Z.leb_gt _ _)), (proj2 (Z.ltb_ge _ _)) by lia. cbn [orb].
  assert (Hw : Z.of_nat (length (record_wire k)) =
    Z.of_nat (length (appendVarint [] (Z.of_nat (length (Record_body k))))) + Z.of_nat (length (Record_body k)))
    by (unfold record_wire; rewrite length_app; lia).
  rewrite <-Hw, length_app, (proj2 (Z.ltb_ge _ _)) by lia.
  rewrite slice_ab_head by done. cbn [obind]. rewrite <-(wire_sized k).
  rewrite record_parse; [|apply kmsg_record_valid|unfold sized; by rewrite body_ignores_length|done].
  rewrite (wire_sized k), slice_ab_tail by lia. cbn [obind]. unfold k at 1. rewrite producer_record_kmsg.
  replace (Z.of_nat i + 1) with (Z.of_nat (S i)) by lia. subst tl. rewrite IH by lia. by rewrite <-(assoc_L (++)).
Qed.

(** ** Batches *)

Definition group_bytes (g : list Record_) : bytes :=
  concat (group_wires (from_option (λ r, unix_milli (Record_Timestamp r)) 0 (head g)) 0 g).

(** A group of records fits a batch: its length is an int32 and its first offset an int64. *)
Definition fits (g : list Record_) : Prop :=
  49 + Z.of_nat (length (group_bytes g)) < 2 ^ 31 ∧ ∀ r, head g = Some r → in_s 64 (Record_Offset r).

Lemma group_wires_length firstTS i rs : (length rs <= length (concat (group_wires firstTS i rs)))%nat.
Proof.
  revert i. induction rs as [|r rs IH]; intros i; [simpl; lia|]. rewrite group_wires_cons. cbn [concat].
  rewrite length_app. specialize (IH (S i)). pose proof (length_record_wire (kmsg_record firstTS i r)). simpl. lia.
Qed.

Lemma put_crc_layout (h l m c rest : bytes) v :
  length h = 8%nat → length l = 4%nat → length m = 5%nat → length c = 4%nat →
  put_crc (h ++ l ++ m ++ c ++ rest) v = (h ++ l ++ m) ++ be_encode 4 v ++ rest.
Proof.
  intros Hh Hl Hm Hc. unfold put_crc.
  assert (take 17 (h ++ l ++ m ++ c ++ rest) = h ++ l ++ m) as ->.
  { replace 17%nat with (length (h ++ l ++ m)) by (rewrite !length_app; lia).
    replace (h ++ l ++ m ++ c ++ rest) with ((h ++ l ++ m) ++ c ++ rest) by (by rewrite <-!(assoc_L (++))).
    by rewrite take_app_length. }
  assert (drop 21 (h ++ l ++ m ++ c ++ rest) = rest) as ->; [|done].
  replace 21%nat with (length (((h ++ l) ++ m) ++ c)) by (rewrite !length_app; lia).
  by rewrite !(assoc_L (++)), drop_app_length.
Qed.

(** The batch that encodeRecordBatch builds for a group. *)
Definition batch_of (r0 : Record_) (g : list Record_) (maxTS : Z) : kmsg_RecordBatch :=
  mkKBatch (Record_Offset r0) (wrap_s 32 (49 + Z.of_nat (length (group_bytes g)))) 0 2 0
    (wrap_s 32 (Z.of_nat (length g) - 1)) (unix_milli (Record_Timestamp r0)) maxTS (-1) (-1) (-1)
    (wrap_s 32 (Z.of_nat (length g))) (group_bytes g).

Lemma batch_of_valid r0 g maxTS :
  head g = Some r0 → fits g → in_s 64 maxTS → valid_batch (batch_of r0 g maxTS).
Proof.
  intros Hg [Hf Ho] Hm. unfold valid_batch, batch_of. cbn.
  rewrite wrap_s_small by (lia || unfold in_s; lia).
  split_and!; try done; try (apply wrap_s_range; lia); try (unfold in_s; lia). by apply Ho.
Qed.

(** A batch with a valid checksum goes to the record loop. *)
Lemma decode_batch_wire (h m rest tl : bytes) len batch :
  let w := (h ++ be_encode 4 len ++ m) ++ be_encode 4 (crc32c rest) ++ rest in
  length h = 8%nat → length m = 5%nat → 49 <= len < 2 ^ 31 → Z.of_nat (length rest) = len - 9 →
  Batch_ReadFrom w = inr batch → kb_Magic batch = 2 → kb_Attributes batch = 0 →
  decode_batch (w ++ tl) = let? records := decodeRecords batch in Ok (records, tl).
Proof.
  intros w Hh Hm Hlen Hrest Hp Hmg Hat.
  pose proof (length_be_encode 4 len) as Hl. pose proof (length_be_encode 4 (crc32c rest)) as Hc.
  assert (Hw : Z.of_nat (length w) = 12 + len) by (unfold w; rewrite !length_app; lia).
  unfold decode_batch. rewrite length_app, (proj2 (Z.ltb_ge _ _)) by lia.
  assert (slice_ab (E := Z * string) (w ++ tl) 8 12 = Ok (be_encode 4 len)) as ->.
  { unfold w. rewrite <-!(assoc_L (++)). apply slice_ab_app; lia. }
  cbn [obind].
  assert (wrap_s 32 (be_decode (be_encode 4 len)) = len) as ->.
  { rewrite be_decode_encode, Z.mod_small; [apply wrap_s_small; unfold in_s; lia|].
    change (256 ^ Z.of_nat 4) with (2 ^ 32). lia. }
  rewrite (proj2 (Z.ltb_ge len 49)), (proj2 (Z.ltb_ge _ (12 + len))) by lia.
  rewrite slice_ab_head by lia. cbn [obind].
  assert (slice_ab (E := Z * string) w 21 (Z.of_nat (length w)) = Ok rest) as ->.
  { unfold w. rewrite (assoc_L (++)). apply slice_ab_tail; rewrite !length_app; lia. }
  assert (slice_ab (E := Z * string) w 17 21 = Ok (be_encode 4 (crc32c rest))) as ->.
  { unfold w. apply slice_ab_app; rewrite !length_app; lia. }
  cbn [obind]. rewrite be_decode_encode. change (256 ^ Z.of_nat 4) with (2 ^ 32).
  rewrite (Z.mod_small (crc32c rest)), Z.eqb_refl by apply crc32c_range. cbn [negb].
  rewrite Hp, Hmg, Hat. cbn [Z.eqb Pos.eqb negb Z.land].
  destruct (decodeRecords batch); [|done|done]. cbn [obind]. by rewrite slice_ab_tail by lia.
Qed.

Lemma decodeRecords_batch_of r0 g maxTS :
  head g = Some r0 → fits g → decodeRecords (batch_of r0 g maxTS) = Ok (as_produced <$> g).
Proof.
  intros Hg [Hf _]. pose proof (group_wires_length (unix_milli (Record_Timestamp r0)) 0 g) as Hgl.
  pose proof (decode_loop_group (S (length (group_bytes g))) (batch_of r0 g maxTS) 0 g []) as HD.
  assert (E : concat (group_wires (unix_milli (Record_Timestamp r0)) 0 g) = group_bytes g)
    by (unfold group_bytes; by rewrite Hg).
  change (kb_FirstTimestamp (batch_of r0 g maxTS)) with (unix_milli (Record_Timestamp r0)) in HD.
  rewrite E in Hgl, HD. apply HD; [|lia..].
  cbn [kb_NumRecords batch_of]. rewrite wrap_s_small; [done|lia|unfold in_s; lia].
Qed.

Lemma batch_round_trip g tl :
  g ≠ [] → fits g →
  ∃ wire, encodeRecordBatch g = Some wire ∧ wire ≠ [] ∧ decode_batch (wire ++ tl) = Ok (as_produced <$> g, tl).
Proof.
  intros Hne Hfit. destruct g as [|r0 g']; [done|]. set (g := r0 :: g') in *.
  pose proof Hfit as [Hf _]. set (ts := unix_milli (Record_Timestamp r0)).
  change (group_bytes g) with (concat (group_wires ts 0 g)) in Hf.
  destruct (encode_loop_spec ts 0 g ts []) as (maxTS & El & Hm); [lia|].
  specialize (Hm ltac:(apply wrap_s_range; lia)).
  assert (Hv : valid_batch (batch_of r0 g maxTS)) by (by apply batch_of_valid).
  destruct (batch_layout _ Hv) as (h & m & c & rest & Ew & Hh & Hmm & Hc & Hr).
  set (len := kb_Length (batch_of r0 g maxTS)) in *. pose proof (length_be_encode 4 len) as Hl.
  assert (HL : len = 49 + Z.of_nat (length (group_bytes g))).
  { unfold len. cbn [kb_Length batch_of]. apply wrap_s_small; [lia|].
    change (group_bytes g) with (concat (group_wires ts 0 g)). unfold in_s; lia. }
  assert (Hd : drop 21 (h ++ be_encode 4 len ++ m ++ c ++ rest) = rest).
  { replace 21%nat with (length (((h ++ be_encode 4 len) ++ m) ++ c)) by (rewrite !length_app; lia).
    by rewrite !(assoc_L (++)), drop_app_length. }
  exists ((h ++ be_encode 4 len ++ m) ++ be_encode 4 (crc32c rest) ++ rest). split_and!.
  - unfold encodeRecordBatch. unfold g at 1. cbv zeta. fold ts. rewrite El. cbn [app].
    change (mkKBatch _ _ _ _ _ _ _ _ _ _ _ _ _) with (batch_of r0 g maxTS). rewrite Ew, (proj2 (Nat.ltb_ge _ 21)).
    + by rewrite Hd, put_crc_layout.
    + rewrite !length_app. lia.
  - intros E%(f_equal length). rewrite !length_app in E. simpl in E. lia.
  - change (kb_Records _) with (group_bytes g) in Hr.
    change (concat (group_wires ts 0 g)) with (group_bytes g) in Hf.
    pose proof (batch_parse _ (crc32c rest) Hv) as Hp. rewrite Ew, put_crc_layout in Hp by done.
    rewrite (decode_batch_wire h m rest tl len _ Hh Hmm) by (done || lia).
    by rewrite decodeRecords_batch_of.
Qed.

(** ** Groups *)

Lemma group_loop_concat prev cur rs : concat (group_loop prev cur rs) = cur ++ rs.
Proof.
  revert prev cur. induction rs as [|r rs IH]; intros prev cur; cbn [group_loop].
  { cbn. by rewrite !app_nil_r. }
  destruct (negb _); [cbn [concat]; by rewrite IH|]. by rewrite IH, <-(assoc_L (++)).
Qed.

Lemma group_loop_nonempty prev cur rs : cur ≠ [] → Forall (λ g, g ≠ []) (group_loop prev cur rs).
Proof.
  revert prev cur. induction rs as [|r rs IH]; intros prev cur Hc; cbn [group_loop]; [by repeat constructor|].
  destruct (negb _); [constructor; [done|]; by apply IH|]. apply IH. by destruct cur.
Qed.

Lemma encode_groups_decode gs out : Forall (λ g, g ≠ []) gs → Forall fits gs →
  ∃ wire, encode_groups gs out = Some (out ++ wire) ∧ (length gs <= length wire)%nat ∧
    ∀ fuel acc, (length gs <= fuel)%nat →
      decode_batches fuel wire acc = Ok (acc ++ (as_produced <$> concat gs)).
Proof.
  intros Hne Hf. revert out. induction gs as [|g gs IH]; intros out.
  { exists []. rewrite app_nil_r. split; [done|]. split; [done|]. intros [|fuel] acc _; cbn; by rewrite app_nil_r. }
  apply Forall_cons in Hne as [Hg Hne]. apply Forall_cons in Hf as [Hfg Hf]. specialize (IH Hne Hf).
  destruct (batch_round_trip g [] Hg Hfg) as (w & Hw & Hwne & _).
  destruct (IH (out ++ w)) as (tl & He & Hl & Hd).
  destruct (batch_round_trip g tl Hg Hfg) as (w' & Hw' & _ & Hdec).
  assert (w' = w) as -> by congruence.
  exists (w ++ tl). cbn [encode_groups]. rewrite Hw, He, <-(assoc_L (++)). split; [done|].
  split. { rewrite length_app. destruct w; [done|]. simpl. lia. }
  intros [|fuel] acc Hfu; [cbn [length] in Hfu; lia|]. cbn [length] in Hfu.
  cbn [decode_batches]. rewrite Hdec. destruct (w ++ tl) eqn:E; [by destruct w|]. cbn [obind].
  rewrite Hd by lia. cbn [concat]. by rewrite fmap_app, (assoc_L (++)).
Qed.

Lemma encode_decode_batches rs :
  rs ≠ [] → Forall fits (contiguousRecordGroups rs) →
  ∃ wire, encodeRecordBatches rs = Some (Some wire) ∧ decodeRecordBatches wire = Ok (as_produced <$> rs).
Proof.
  intros Hne Hf. destruct rs as [|r rs]; [done|].
  destruct (encode_groups_decode (contiguousRecordGroups (r :: rs)) []) as (w & He & Hl & Hd);
    [by apply group_loop_nonempty|done|].
  exists w. unfold encodeRecordBatches. rewrite He. split; [done|].
  unfold decodeRecordBatches. rewrite Hd by done. cbn [contiguousRecordGroups]. by rewrite group_loop_concat.
Qed.

(** C32: what a fetch response carries is what is stored: the batches that
    [encodeRecordBatches] writes for any records decode, with
    [decodeRecordBatches], to the keys, values, headers and (whole-millisecond)
    timestamps of those records, in their order, whenever each group of
    contiguous records fits a batch. *)
Theorem record_batches_round_trip rs :
  rs ≠ [] → Forall fits (contiguousRecordGroups rs) →
  ∃ wire, encodeRecordBatches rs = Some (Some wire) ∧ decodeRecordBatches wire = Ok (as_produced <$> rs).
Proof. apply encode_decode_batches. Qed.
End laws.

(** Within a group the offsets follow each other. *)
Definition offsets_follow (g : list Record_) : Prop :=
  ∀ i r r', g !! i = Some r → g !! S i = Some r' → Record_Offset r' = wrap_s 64 (Record_Offset r + 1).

Lemma group_loop_follow prev cur rs : last cur = Some prev → offsets_follow cur →
  Forall offsets_follow (group_loop prev cur rs).
Proof.
  revert prev cur. induction rs as [|r rs IH]; intros prev cur Hl Hc; cbn [group_loop]; [by repeat constructor|].
  destruct (Z.eqb_spec (Record_Offset r) (wrap_s 64 (Record_Offset prev + 1))) as [E|E]; cbn [negb].
  - apply IH; [by rewrite last_snoc|]. intros i a b Ha Hb.
    rewrite last_lookup in Hl. apply lookup_snoc_Some in Hb as [[Hlt Hb]|[Hi ->]].
    + rewrite lookup_app_l in Ha by lia. eauto.
    + rewrite lookup_app_l in Ha by lia. rewrite <-Hi in Hl. cbn [pred] in Hl. congruence.
  - constructor; [done|]. apply IH; [done|]. intros i a b Ha Hb. by destruct i.
Qed.

(** The offset that a client computes for the [i]-th record of a batch. *)
Definition client_offset (g : list Record_) (i : nat) : Z :=
  wrap_s 64 (from_option Record_Offset 0 (head g) + wrap_s 32 (Z.of_nat i)).

(** The offsets survive too: [contiguousRecordGroups] splits the records,
    none lost or reordered, into nonempty groups such that the offset a client
    computes from a batch's first offset and a record's delta is the stored one. *)
Theorem groups_keep_offsets rs :
  rs ≠ [] → Forall (λ r, in_s 64 (Record_Offset r)) rs → Z.of_nat (length rs) < 2 ^ 31 →
  concat (contiguousRecordGroups rs) = rs ∧
  Forall (λ g, g ≠ [] ∧ ∀ i r, g !! i = Some r → client_offset g i = Record_Offset r) (contiguousRecordGroups rs).
Proof.
  intros Hne Hs Hl. destruct rs as [|r0 rs]; [done|]. cbn [contiguousRecordGroups].
  assert (Hc := group_loop_concat r0 [r0] rs). cbn [app] in Hc. split; [done|].
  assert (Hn : Forall (λ g, g ≠ []) (group_loop r0 [r0] rs)) by (by apply group_loop_nonempty).
  assert (Hf : Forall offsets_follow (group_loop r0 [r0] rs)).
  { apply group_loop_follow; [done|]. intros i a b Ha Hb. by destruct i. }
  apply Forall_forall. intros g Hg. rewrite Forall_forall in Hn, Hf. split; [by apply Hn|].
  assert (Hsub : g ⊆+ r0 :: rs).
  { rewrite <-Hc. apply list_elem_of_split in Hg as (l1 & l2 & ->).
    rewrite concat_app. cbn [concat]. apply sublist_submseteq.
    apply sublist_inserts_l, sublist_inserts_r. done. }
  pose proof (submseteq_length _ _ Hsub) as Hlen. specialize (Hf g Hg).
  assert (Hin : ∀ i r, g !! i = Some r → in_s 64 (Record_Offset r)).
  { intros i r Hi. rewrite Forall_forall in Hs. apply Hs.
    eapply elem_of_submseteq; [|done]. by eapply list_elem_of_lookup_2. }
  induction i as [|i IH]; intros r Hr.
  - unfold client_offset. destruct g as [|g0 g]; [done|]. injection Hr as <-. cbn [head from_option]. change (Z.of_nat 0) with 0.
    rewrite (wrap_s_small 32 0), Z.add_0_r by (lia || unfold in_s; lia). apply wrap_s_small; [lia|].
    by apply (Hin 0%nat).
  - pose proof (lookup_lt_Some _ _ _ Hr). destruct (lookup_lt_is_Some_2 g i) as [r' Hr']; [lia|].
    rewrite (Hf i r' r Hr' Hr), <-(IH r' Hr'). unfold client_offset.
    rewrite !(wrap_s_small 32) by (lia || unfold in_s; lia).
    rewrite wrap_s_add_l by lia. f_equal. lia.
Qed.

(** ** Decoding anything *)

Definition refusal (c : Z) : Prop := c = errCorruptMessage ∨ c = errInvalidRequest ∨ c = errUnsupportedCompressionType.

Section any.
Context `{KmsgRecords}.

Lemma slice_ab_ok {E} (src : bytes) a b : 0 <= a <= b → b <= Z.of_nat (length src) →
  @slice_ab E src a b = Ok (take (Z.to_nat (b - a)) (drop (Z.to_nat a) src)).
Proof. intros ??. unfold slice_ab. by rewrite !(proj2 (Z.leb_le _ _)) by lia. Qed.

Lemma decode_loop_any fuel batch i src out :
  (length src < fuel)%nat →
  match decode_loop fuel batch i src out with
  | Ok rs => ∃ new, rs = out ++ new ∧ Z.of_nat (length new) = Z.max 0 (kb_NumRecords batch - i)
  | Err (c, _) => c = errCorruptMessage
  | Panic => False
  end.
Proof.
  revert i src out. induction fuel as [|fuel IH]; intros i src out Hf; [lia|]. cbn [decode_loop].
  destruct (Z.leb_spec (kb_NumRecords batch) i) as [Hle|Hlt].
  { destruct (negb _); [done|]. exists []. rewrite app_nil_r. split; [done|]. simpl. lia. }
  destruct (readVarint src) as [len n] eqn:E.
  destruct (Z.leb_spec n 0) as [|Hn]; [done|]. destruct (Z.ltb_spec len 0) as [|Hl]; [done|]. cbn [orb].
  destruct (Z.ltb_spec (Z.of_nat (length src)) (n + len)) as [|Ht]; [done|].
  rewrite slice_ab_ok by lia. cbn [obind]. destruct (Record_ReadFrom _) as [e|rec]; [done|].
  rewrite slice_ab_ok by lia. cbn [obind].
  match goal with |- context [decode_loop fuel batch (i + 1) ?s ?o] => specialize (IH (i + 1) s o) end.
  destruct (decode_loop _ _ _ _ _) as [rs|[c m]|]; try (apply IH; rewrite length_take, length_drop; lia).
  destruct IH as (new & -> & Hnew); [rewrite length_take, length_drop; lia|].
  eexists (_ :: new). rewrite <-(assoc_L (++)). split; [done|]. cbn [length]. lia.
Qed.

(** What an accepted payload is made of. *)
Inductive sound_batches : bytes → list ProducerRecord → Prop :=
| sound_nil : sound_batches [] []
| sound_cons wire batch rs tl rs' :
    (61 <= length wire)%nat →
    crc32c (drop 21 wire) = be_decode (take 4 (drop 17 wire)) →
    Batch_ReadFrom wire = inr batch → kb_Magic batch = 2 →
    Z.land (kb_Attributes batch) 7 = 0 → Z.land (kb_Attributes batch) 48 = 0 →
    Z.of_nat (length rs) = Z.max 0 (kb_NumRecords batch) →
    sound_batches tl rs' → sound_batches (wire ++ tl) (rs ++ rs').

Lemma decode_batch_any src :
  match decode_batch src with
  | Ok (rs, tl) => (length tl + 61 <= length src)%nat ∧
      ∀ rs', sound_batches tl rs' → sound_batches src (rs ++ rs')
  | Err (c, _) => refusal c
  | Panic => False
  end.
Proof.
  unfold decode_batch, refusal. destruct (Z.ltb_spec (Z.of_nat (length src)) 12) as [|H12]; [by left|].
  rewrite slice_ab_ok by lia. cbn [obind]. set (len := wrap_s 32 _).
  destruct (Z.ltb_spec len 49) as [|H49]; [by left|].
  destruct (Z.ltb_spec (Z.of_nat (length src)) (12 + len)) as [|Ht]; [by left|].
  rewrite slice_ab_ok by lia. cbn [obind]. rewrite Z.sub_0_r, drop_0.
  set (wire := take _ src).
  assert (Hw : Z.of_nat (length wire) = 12 + len) by (unfold wire; rewrite length_take; lia).
  rewrite !slice_ab_ok by lia. cbn [obind].
  rewrite (firstn_all2 (drop (Z.to_nat 21) wire)) by (rewrite length_drop; lia).
  destruct (Z.eqb_spec (crc32c (drop (Z.to_nat 21) wire)) (be_decode (take (Z.to_nat (21 - 17)) (drop (Z.to_nat 17) wire))))
    as [Hcrc|]; [|by left]. cbn [negb].
  destruct (Batch_ReadFrom wire) as [e|batch] eqn:Eb; [by left|].
  destruct (Z.eqb_spec (kb_Magic batch) 2); [|by left]. cbn [negb].
  destruct (Z.eqb_spec (Z.land (kb_Attributes batch) 7) 0); [|by right; right]. cbn [negb].
  destruct (Z.eqb_spec (Z.land (kb_Attributes batch) 48) 0); [|by right; left]. cbn [negb].
  pose proof (decode_loop_any (S (length (kb_Records batch))) batch 0 (kb_Records batch) []) as HD.
  unfold decodeRecords. destruct (decode_loop _ _ _ _ _) as [rs|[c m]|]; [|left; apply HD; lia|by apply HD; lia].
  destruct HD as (new & -> & Hn); [lia|]. cbn [obind app].
  rewrite firstn_all2 by (rewrite length_drop; lia). split; [rewrite length_drop; lia|].
  intros rs' Hs. rewrite <-(take_drop (Z.to_nat (12 + len)) src). fold wire.
  eapply sound_cons; try done; [lia|]. rewrite Hn. f_equal. lia.
Qed.

Lemma decode_batches_any fuel src out :
  (length src <= fuel)%nat →
  match decode_batches fuel src out with
  | Ok rs => ∃ new, rs = out ++ new ∧ sound_batches src new
  | Err (c, _) => refusal c
  | Panic => False
  end.
Proof.
  revert src out. induction fuel as [|fuel IH]; intros src out Hf; (destruct src as [|b src];
    [exists []; rewrite app_nil_r; split; [done|constructor]|]); [simpl in Hf; lia|].
  cbn [decode_batches]. pose proof (decode_batch_any (b :: src)) as HB.
  destruct (decode_batch (b :: src)) as [[rs tl]|[c m]|]; [|done|done]. destruct HB as [Hl Hs]. cbn [obind].
  specialize (IH tl (out ++ rs)). destruct (decode_batches _ _ _) as [all|[c m]|]; try (apply IH; lia).
  destruct IH as (new & -> & Hnew); [lia|]. exists (rs ++ new). rewrite (assoc_L (++)). split; [done|].
  by apply Hs.
Qed.

Lemma decodeRecordBatches_any src :
  match decodeRecordBatches src with
  | Ok rs => sound_batches src rs
  | Err (c, _) => refusal c
  | Panic => False
  end.
Proof.
  pose proof (decode_batches_any (length src) src [] ltac:(done)) as HB. unfold decodeRecordBatches.
  destruct (decode_batches _ _ _) as [rs|[c m]|]; [|done|done]. by destruct HB as (new & -> & Hs).
Qed.

(** Decoding the payload of a produce request is safe whatever the bytes
    are and whatever the record parser answers: it ends without a slice out of
    range; it refuses with one of three Kafka error codes, or it accepts a
    sequence of whole batches, each with a matching Castagnoli checksum, magic 2,
    neither compressed nor transactional, and exactly the records it announces. *)
Theorem decodeRecordBatches_sound src :
  match decodeRecordBatches src with
  | Ok rs => sound_batches src rs
  | Err (c, _) => refusal c
  | Panic => False
  end.
Proof. apply decodeRecordBatches_any. Qed.
End any.

(** ** A serialization with the promised laws *)

Module PlainKmsg.
#[local] Instance byte_countable : Countable Init.Byte.byte :=
  inj_countable Stdlib.Strings.Byte.to_N Stdlib.Strings.Byte.of_N Stdlib.Strings.Byte.of_to_N.

Definition fields (r : kmsg_Record) : Z * Z * Z * slice * slice * list (string * slice) :=
  (kr_Attributes r, kr_TimestampDelta64 r, kr_OffsetDelta r, kr_Key r, kr_Value r,
   (λ h, (kh_Key h, kh_Value h)) <$> kr_Headers r).
Definition of_fields (n : Z) (f : Z * Z * Z * slice * slice * list (string * slice)) : kmsg_Record :=
  let '(a, t, o, k, v, hs) := f in mkKRecord n a t o k v ((λ h, mkKHeader h.1 h.2) <$> hs).

Lemma of_fields_fields r : of_fields (kr_Length r) (fields r) = r.
Proof.
  destruct r as [n a t o k v hs]. unfold of_fields, fields. cbn. f_equal. rewrite <-list_fmap_compose.
  rewrite <-(list_fmap_id hs) at 2. apply list_fmap_ext. by intros ? [? ?] _.
Qed.

Fixpoint pos_bytes (p : positive) : bytes :=
  match p with xH => [] | xO p => Init.Byte.x00 :: pos_bytes p | xI p => Init.Byte.x01 :: pos_bytes p end.
Fixpoint bytes_pos (l : bytes) : positive :=
  match l with [] => xH | Init.Byte.x00 :: l => xO (bytes_pos l) | _ :: l => xI (bytes_pos l) end.
Lemma bytes_pos_bytes p : bytes_pos (pos_bytes p) = p.
Proof. induction p; cbn; congruence. Qed.

Definition body (r : kmsg_Record) : bytes := pos_bytes (encode (fields r)).
Definition append_record (r : kmsg_Record) : bytes := appendVarint [] (kr_Length r) ++ body r.
Definition read_record (w : bytes) : string + kmsg_Record :=
  let '(n, k) := readVarint w in
  match decode (bytes_pos (drop (Z.to_nat k) w)) with
  | Some f => inr (of_fields n f)
  | None => inl "not a record"
  end.

Definition get (n : nat) (w : bytes) : Z * bytes := (wrap_s (8 * Z.of_nat n) (be_decode (take n w)), drop n w).
Lemma get_encode n z w : (1 <= n)%nat → in_s (8 * Z.of_nat n) z → get n (be_encode n z ++ w) = (z, w).
Proof.
  intros Hn Hz. unfold get. rewrite <-(length_be_encode n z) at 2 4. rewrite take_app_length, drop_app_length.
  f_equal. rewrite be_decode_encode.
  replace (256 ^ Z.of_nat n) with (2 ^ (8 * Z.of_nat n)) by (by rewrite Z.pow_mul_r by lia).
  rewrite <-(wrap_s_small (8 * Z.of_nat n) z) at 2 by (done || lia). unfold wrap_s.
  by rewrite Zplus_mod_idemp_l.
Qed.

Definition append_batch (b : kmsg_RecordBatch) : bytes :=
  be_encode 8 (kb_FirstOffset b) ++ be_encode 4 (kb_Length b) ++
  (be_encode 4 (kb_PartitionLeaderEpoch b) ++ be_encode 1 (kb_Magic b)) ++ be_encode 4 0 ++
  be_encode 2 (kb_Attributes b) ++ be_encode 4 (kb_LastOffsetDelta b) ++ be_encode 8 (kb_FirstTimestamp b) ++
  be_encode 8 (kb_MaxTimestamp b) ++ be_encode 8 (kb_ProducerID b) ++ be_encode 2 (kb_ProducerEpoch b) ++
  be_encode 4 (kb_FirstSequence b) ++ be_encode 4 (kb_NumRecords b) ++ kb_Records b.
Definition read_batch (w : bytes) : string + kmsg_RecordBatch :=
  if (length w <? 61)%nat then inl "not enough data" else
  let '(fo, w) := get 8 w in let '(len, w) := get 4 w in let '(le, w) := get 4 w in
  let '(mg, w) := get 1 w in let '(_, w) := get 4 w in let '(at_, w) := get 2 w in
  let '(lod, w) := get 4 w in let '(ft, w) := get 8 w in let '(mt, w) := get 8 w in
  let '(pid, w) := get 8 w in let '(pe, w) := get 2 w in let '(fs, w) := get 4 w in
  let '(nr, w) := get 4 w in
  inr (mkKBatch fo len le mg at_ lod ft mt pid pe fs nr w).

#[export] Instance plain : KmsgRecords := {
  Record_ReadFrom := read_record; Record_AppendTo := append_record;
  Batch_ReadFrom := read_batch; Batch_AppendTo := append_batch }.

Lemma read_batch_crc b v : valid_batch b → read_batch (put_crc (append_batch b) v) = inr b.
Proof.
  intros (Hl & ? & ? & ? & ? & ? & ? & ? & ? & ? & ? & ? & ?). unfold append_batch.
  rewrite put_crc_layout by (rewrite ?length_app, ?length_be_encode; done).
  rewrite <-!(assoc_L (++)). unfold read_batch.
  assert ((length (be_encode 8 (kb_FirstOffset b) ++ be_encode 4 (kb_Length b) ++
    be_encode 4 (kb_PartitionLeaderEpoch b) ++ be_encode 1 (kb_Magic b) ++ be_encode 4 v ++
    be_encode 2 (kb_Attributes b) ++ be_encode 4 (kb_LastOffsetDelta b) ++ be_encode 8 (kb_FirstTimestamp b) ++
    be_encode 8 (kb_MaxTimestamp b) ++ be_encode 8 (kb_ProducerID b) ++ be_encode 2 (kb_ProducerEpoch b) ++
    be_encode 4 (kb_FirstSequence b) ++ be_encode 4 (kb_NumRecords b) ++ kb_Records b) <? 61)%nat = false) as ->
    by (apply Nat.ltb_ge; rewrite !length_app, !length_be_encode; lia).
  do 4 rewrite get_encode by (done || lia).
  assert (∀ w, get 4 (be_encode 4 v ++ w) = ((get 4 (be_encode 4 v ++ w)).1, w)) as ->.
  { by intros w. }
  do 8 rewrite get_encode by (done || lia). by destruct b.
Qed.

#[export] Instance plain_laws : KmsgRecordsLaws.
Proof.
  refine {| Record_body := body |}.
  - done.
  - done.
  - intros r _ Hl Hr. cbn [Record_ReadFrom plain]. unfold read_record.
    change (Record_AppendTo r) with (append_record r). unfold append_record at 1.
    rewrite readVarint_append by done. rewrite Nat2Z.id. unfold append_record. rewrite drop_app_length.
    unfold body. rewrite bytes_pos_bytes, decode_encode. by rewrite of_fields_fields.
  - intros b (Hl & _). do 4 eexists. split; [reflexivity|].
    rewrite !length_app, !length_be_encode. by split_and!.
  - intros b v Hv. by apply read_batch_crc.
Defined.
End PlainKmsg.

Definition sample (o ts : Z) (v : string) : Record_ :=
  mkRecord "t" 0 o (Some (bytes_of_string "k")) (Some (bytes_of_string v)) None ts.

Lemma record_batches_round_trip_witness :
  let rs := [sample 0 0 "a"; sample 1 (7 * Millisecond) "b"; sample 5 Second "c"] in
  length (@contiguousRecordGroups rs) = 2%nat ∧
  ∃ wire, encodeRecordBatches (H := PlainKmsg.plain) rs = Some (Some wire) ∧
    decodeRecordBatches (H := PlainKmsg.plain) wire = Ok (as_produced <$> rs).
Proof.
  split; [reflexivity|]. apply (record_batches_round_trip (H0 := PlainKmsg.plain_laws)); [discriminate|].
  cbn [contiguousRecordGroups]. unfold fits.
  do 2 (apply Forall_cons; split; [split; [vm_compute; reflexivity|intros r [= <-]; cbn; unfold in_s; lia]|]).
  apply Forall_nil. exact I.
Defined.

Lemma groups_keep_offsets_witness :
  let rs := [sample 0 0 "a"; sample 1 0 "b"; sample 5 0 "c"] in
  concat (contiguousRecordGroups rs) = rs ∧
  Forall (λ g, g ≠ [] ∧ ∀ i r, g !! i = Some r → client_offset g i = Record_Offset r) (contiguousRecordGroups rs).
Proof.
  apply groups_keep_offsets; [discriminate| |reflexivity].
  do 3 (apply Forall_cons; split; [cbn; unfold in_s; lia|]). apply Forall_nil. exact I.
Defined.
