(* ===== verification/KafkaServer.v ===== *)
(** * The Kafka server

    Models the handlers of [internal/eventstream/kafkaserver/server.go]: each
    maps one Kafka request onto the event-stream domain ([Streams], the Go
    interface the server holds) and builds the response.  Requests are the
    fields the handlers read; responses are the fields they assign, [None] for
    one left at the default that kmsg's constructor gives it (an error code
    that is never assigned is 0). *)

From S2P Require Import Prelude GoStrings GoBytes KafkaWire EventStream KafkaRecords.

Definition defaultBrokerID : Z := 1.
Definition defaultHost : string := "127.0.0.1".
Definition defaultPort : Z := 9092.
Definition defaultClusterID : string := "shimanism-eventstream".
Definition defaultPartitions : Z := 1.
Definition defaultMaxRecordsPerFetch : Z := 1024.

Record Config := mkConfig {
  cfg_BrokerID : Z; cfg_Host : string; cfg_Port : Z; cfg_ClusterID : string;
  cfg_DefaultPartitions : Z; cfg_MaxFrameSize : Z }.
(** New *)
Definition New (cfg : Config) : Config :=
  mkConfig (if cfg_BrokerID cfg =? 0 then defaultBrokerID else cfg_BrokerID cfg)
    (if String.eqb (cfg_Host cfg) "" then defaultHost else cfg_Host cfg)
    (if cfg_Port cfg =? 0 then defaultPort else cfg_Port cfg)
    (if String.eqb (cfg_ClusterID cfg) "" then defaultClusterID else cfg_ClusterID cfg)
    (if cfg_DefaultPartitions cfg <=? 0 then defaultPartitions else cfg_DefaultPartitions cfg)
    (if cfg_MaxFrameSize cfg <=? 0 then KafkaWire.DefaultMaxFrameSize else cfg_MaxFrameSize cfg).

(** ** domain.Streams, the methods the server calls *)

Class Streams (St : Type) := {
  s_CreateTopic : string → string → CreateTopicOptions → St → St * result Topic;
  s_DeleteTopic : string → string → St → St * result unit;
  s_DescribeTopic : string → string → St → St * result Topic;
  s_ListTopics : ListTopicsOptions → St → St * result ListTopicsResult;
  s_Produce : string → string → Z → list ProducerRecord → St → St * result (list RecordMetadata);
  s_Fetch : string → string → Z → Z → Z → St → St * result (list Record_);
  s_ListOffsets : string → string → Z → St → St * result OffsetBounds;
  s_CommitOffset : string → string → string → Z → Z → St → St * result unit;
  s_FetchCommittedOffset : string → string → string → Z → St → St * result Z }.

(** A call on the state: [None] when it panics. *)
Definition M (St A : Type) : Type := St → St * option A.
Definition mret {St A} (a : A) : M St A := λ s, (s, Some a).
Definition mpanic {St A} : M St A := λ s, (s, None).
Definition mbind {St A B} (m : M St A) (k : A → M St B) : M St B :=
  λ s, match m s with (s, Some a) => k a s | (s, None) => (s, None) end.
Notation "x <~ m ;; k" := (mbind m (λ x, k)) (at level 100, m at next level, right associativity).

(** A method of the domain: the error or the value. *)
Definition call {St A} (m : St → St * result A) : M St (error + A) :=
  λ s, match m s with
       | (s, Ok a) => (s, Some (inr a))
       | (s, Err e) => (s, Some (inl e))
       | (s, Panic) => (s, None)
       end.
Fixpoint mmap {St A B} (f : A → M St B) (l : list A) : M St (list B) :=
  match l with
  | [] => mret []
  | a :: l => b <~ f a;; bs <~ mmap f l;; mret (b :: bs)
  end.

(** ** Requests *)

(** A topic of a request with its partitions. *)
Record ReqTopic (P : Type) := mkReqTopic { rt_Topic : string; rt_TopicID : bytes; rt_Partitions : list P }.
Arguments mkReqTopic {P}. Arguments rt_Topic {P}. Arguments rt_TopicID {P}. Arguments rt_Partitions {P}.

Record MetadataRequestTopic := mkMetadataRequestTopic { mrt_TopicID : bytes; mrt_Topic : option string }.
Record MetadataRequest := mkMetadataRequest { mr_Version : Z; mr_Topics : option (list MetadataRequestTopic) }.
Record TopicConfig := mkTopicConfig { tc_Name : string; tc_Value : option string }.
Record CreateTopicsRequestTopic := mkCreateTopicsRequestTopic {
  crt_Topic : string; crt_NumPartitions : Z; crt_ReplicationFactor : Z;
  crt_ReplicaAssignment : list Z;                        (* the partitions assigned by hand *)
  crt_Configs : list TopicConfig }.
Record CreateTopicsRequest := mkCreateTopicsRequest {
  cr_Version : Z; cr_Topics : list CreateTopicsRequestTopic; cr_ValidateOnly : bool }.
Record DeleteTopicsRequest := mkDeleteTopicsRequest {
  dr_Version : Z; dr_TopicNames : list string; dr_Topics : list MetadataRequestTopic }.
Record ProducePartition := mkProducePartition { pp_Partition : Z; pp_Records : bytes }.
Record ProduceRequest := mkProduceRequest {
  pq_Version : Z; pq_TransactionID : option string; pq_Acks : Z; pq_Topics : list (ReqTopic ProducePartition) }.
Record FetchPartition := mkFetchPartition { fp_Partition : Z; fp_FetchOffset : Z }.
Record FetchRequest := mkFetchRequest { fq_Version : Z; fq_Topics : list (ReqTopic FetchPartition) }.
Record ListOffsetsPartition := mkListOffsetsPartition { lp_Partition : Z; lp_Timestamp : Z }.
Record ListOffsetsRequest := mkListOffsetsRequest {
  lq_Version : Z; lq_Topics : list (ReqTopic ListOffsetsPartition) }.
Record FindCoordinatorRequest := mkFindCoordinatorRequest {
  fc_Version : Z; fc_CoordinatorType : Z; fc_CoordinatorKeys : list string }.
Record CommitPartition := mkCommitPartition { cp_Partition : Z; cp_Offset : Z }.
Record OffsetCommitRequest := mkOffsetCommitRequest {
  oc_Version : Z; oc_Group : string; oc_Generation : Z; oc_MemberID : string;
  oc_Topics : list (ReqTopic CommitPartition) }.
Record OffsetFetchGroup := mkOffsetFetchGroup { og_Group : string; og_Topics : option (list (ReqTopic Z)) }.
Record OffsetFetchRequest := mkOffsetFetchRequest {
  of_Version : Z; of_Group : string; of_Topics : option (list (ReqTopic Z)); of_Groups : list OffsetFetchGroup }.
Record JoinGroupRequest := mkJoinGroupRequest { jg_Version : Z; jg_MemberID : string }.
Record Member := mkMember { mb_MemberID : string; mb_InstanceID : option string }.
Record LeaveGroupRequest := mkLeaveGroupRequest { lg_Version : Z; lg_Members : list Member }.

Inductive request :=
  | ApiVersionsRequest (Version : Z)
  | Metadata (req : MetadataRequest)
  | CreateTopics (req : CreateTopicsRequest)
  | DeleteTopics (req : DeleteTopicsRequest)
  | ProduceReq (req : ProduceRequest)
  | FetchReq (req : FetchRequest)
  | ListOffsetsReq (req : ListOffsetsRequest)
  | FindCoordinator (req : FindCoordinatorRequest)
  | OffsetCommit (req : OffsetCommitRequest)
  | OffsetFetch (req : OffsetFetchRequest)
  | JoinGroup (req : JoinGroupRequest)
  | Heartbeat (Version : Z)
  | LeaveGroup (req : LeaveGroupRequest)
  | SyncGroup (Version : Z).

(** ** Responses *)

(** A message of a response: a text, or [err.Error()]. *)
Inductive message := Text (s : string) | ErrorText (e : error).

Record RespTopic (P : Type) := mkRespTopic {
  ot_Topic : string; ot_TopicID : option bytes; ot_Partitions : list P }.
Arguments mkRespTopic {P}. Arguments ot_Topic {P}. Arguments ot_TopicID {P}. Arguments ot_Partitions {P}.

Record Broker := mkBroker { br_NodeID : Z; br_Host : string; br_Port : Z }.
Record MetadataPartition := mkMetadataPartition {
  mp_Partition : Z; mp_Leader : Z; mp_Replicas : list Z; mp_ISR : list Z }.
Record MetadataTopic := mkMetadataTopic {
  mt_ErrorCode : Z; mt_Topic : option string; mt_TopicID : option bytes;
  mt_Partitions : option (list MetadataPartition) }.
Record MetadataResponse := mkMetadataResponse {
  mo_Version : Z; mo_Brokers : list Broker; mo_ClusterID : string; mo_ControllerID : Z; mo_ErrorCode : Z;
  mo_Topics : option (list MetadataTopic) }.
Record ApiKey := mkApiKey { ak_ApiKey : Z; ak_MinVersion : Z; ak_MaxVersion : Z }.
Record ApiVersionsResponse := mkApiVersionsResponse {
  av_Version : Z; av_ErrorCode : Z; av_ApiKeys : list ApiKey }.
Record CreateTopicsTopic := mkCreateTopicsTopic {
  co_Topic : string; co_ErrorCode : Z; co_ErrorMessage : option message; co_NumPartitions : option Z;
  co_ReplicationFactor : option Z }.
Record DeleteTopicsTopic := mkDeleteTopicsTopic {
  do_Topic : option string; do_TopicID : option bytes; do_ErrorCode : Z; do_ErrorMessage : option message }.
Record ProduceOut := mkProduceOut {
  po_Partition : Z; po_ErrorCode : Z; po_ErrorMessage : option message; po_BaseOffset : option Z }.
Record FetchOut := mkFetchOut {
  fo_Partition : Z; fo_ErrorCode : Z; fo_HighWatermark : option Z; fo_LastStableOffset : option Z;
  fo_LogStartOffset : option Z; fo_RecordBatches : option slice }.
Record ListOffsetsOut := mkListOffsetsOut { lo_Partition : Z; lo_ErrorCode : Z; lo_Offset : option Z }.
Record Coordinator := mkCoordinator {
  cd_Key : string; cd_ErrorCode : Z; cd_ErrorMessage : option message; cd_Broker : option Broker }.
Record FindCoordinatorResponse := mkFindCoordinatorResponse {
  fr_Version : Z; fr_ErrorCode : Z; fr_ErrorMessage : option message; fr_Broker : option Broker;
  fr_Coordinators : list Coordinator }.
Record CommitOut := mkCommitOut { cm_Partition : Z; cm_ErrorCode : Z }.
Record OffsetFetchOut := mkOffsetFetchOut { oo_Partition : Z; oo_ErrorCode : Z; oo_Offset : Z }.
Record OffsetFetchGroupOut := mkOffsetFetchGroupOut {
  gr_Group : string; gr_ErrorCode : Z; gr_Topics : list (RespTopic OffsetFetchOut) }.
Record OffsetFetchResponse := mkOffsetFetchResponse {
  or_Version : Z; or_ErrorCode : Z; or_Topics : list (RespTopic OffsetFetchOut);
  or_Groups : list OffsetFetchGroupOut }.
Record MemberOut := mkMemberOut { mm_MemberID : string; mm_InstanceID : option string; mm_ErrorCode : Z }.

Inductive response :=
  | ApiVersionsResp (resp : ApiVersionsResponse)
  | MetadataResp (resp : MetadataResponse)
  | CreateTopicsResp (Version : Z) (Topics : list CreateTopicsTopic)
  | DeleteTopicsResp (Version : Z) (Topics : list DeleteTopicsTopic)
  | ProduceResp (Version : Z) (Topics : list (RespTopic ProduceOut))
  | FetchResp (Version : Z) (Topics : list (RespTopic FetchOut))
  | ListOffsetsResp (Version : Z) (Topics : list (RespTopic ListOffsetsOut))
  | FindCoordinatorResp (resp : FindCoordinatorResponse)
  | OffsetCommitResp (Version : Z) (Topics : list (RespTopic CommitOut))
  | OffsetFetchResp (resp : OffsetFetchResponse)
  | JoinGroupResp (Version ErrorCode Generation : Z) (MemberID : string)
  | HeartbeatResp (Version ErrorCode : Z)
  | LeaveGroupResp (Version ErrorCode : Z) (Members : list MemberOut)
  | SyncGroupResp (Version ErrorCode : Z).

(** ** Error codes of domain errors *)

Definition domainErrCode (e : error) : Z :=
  if IsNotFound e then errUnknownTopicOrPartition
  else if IsInvalidInput e then errInvalidRequest else errInvalidRequest.
Definition createTopicErrCode (e : error) : Z :=
  if IsAlreadyExists e then errTopicAlreadyExists
  else if IsInvalidInput e then errInvalidConfig else errInvalidRequest.
Definition fetchErrCode (e : error) : Z :=
  if IsInvalidInput e then errOffsetOutOfRange else domainErrCode e.
Definition commitErrCode (e : error) : Z :=
  if IsInvalidInput e then errInvalidRequest else domainErrCode e.
Definition fetchOffsetErrCode (e : error) : Z :=
  if IsNotFound e then errUnknownTopicOrPartition
  else if IsInvalidInput e then errInvalidRequest else errUnknownTopicOrPartition.
Definition groupOffsetRequestErr (group : string) (generation : Z) (memberID : string) : Z :=
  if String.eqb group "" then errInvalidGroupID
  else if (0 <=? generation) || negb (String.eqb memberID "") then errUnknownMemberID else 0.

Definition no_topic_ids : message := Text "topic IDs are not supported by this stateless Kafka frontend".
Definition topicName (name : option string) : string := default "" name.
Definition minInt16 (a b : Z) : Z := if a <? b then a else b.

(** ** Handlers *)

Section server.
Context {St : Type} `{Streams St} `{KmsgRecords} (cfg : Config).

(** The loop over the topics of a request and over the partitions of each. *)
Definition each_partition {P Q} (id : ReqTopic P → option bytes) (f : ReqTopic P → P → M St Q)
    (topics : list (ReqTopic P)) : M St (list (RespTopic Q)) :=
  mmap (λ t, parts <~ mmap (f t) (rt_Partitions t);; mret (mkRespTopic (rt_Topic t) (id t) parts)) topics.
Definition with_id {P} (t : ReqTopic P) : option bytes := Some (rt_TopicID t).
Definition without_id {P} (t : ReqTopic P) : option bytes := None.

(** [maxVersion] is [resp.MaxVersion()]. *)
Definition apiVersions (maxVersion version : Z) : ApiVersionsResponse :=
  mkApiVersionsResponse (minInt16 version maxVersion)
    (if maxVersion <? version then errUnsupportedVersion else 0)
    [mkApiKey 0 3 8; mkApiKey 1 4 11; mkApiKey 2 1 5; mkApiKey 3 1 8; mkApiKey 8 0 7; mkApiKey 9 0 7;
     mkApiKey 10 0 4; mkApiKey 11 0 5; mkApiKey 12 0 3; mkApiKey 13 0 3; mkApiKey 14 0 3; mkApiKey 18 0 3;
     mkApiKey 19 0 5; mkApiKey 20 0 3].

Definition broker : Broker := mkBroker (cfg_BrokerID cfg) (cfg_Host cfg) (cfg_Port cfg).

(** A negative capacity makes [make] panic. *)
Definition metadataTopic (t : Topic) (code : Z) : M St MetadataTopic :=
  if Topic_PartitionCount t <? 0 then mpanic
  else mret (mkMetadataTopic code (Some (Topic_Name t)) None
    (Some ((λ i, mkMetadataPartition (wrap_s 32 i) (cfg_BrokerID cfg) [cfg_BrokerID cfg] [cfg_BrokerID cfg]) <$>
             seqZ 0 (Topic_PartitionCount t)))).
Definition metadataUnknownTopic (name : string) (code : Z) : MetadataTopic :=
  mkMetadataTopic code (Some name) None None.
Definition metadataUnknownTopicID (id : bytes) : MetadataTopic :=
  mkMetadataTopic errUnknownTopicID None (Some id) None.

(** One turn of the loop over the requested topics. *)
Definition requested_topic (version : Z) (requested : MetadataRequestTopic) : M St MetadataTopic :=
  match mrt_Topic requested with
  | None =>
      if 10 <=? version then mret (metadataUnknownTopicID (mrt_TopicID requested))
      else
        r <~ call (s_DescribeTopic (cfg_ClusterID cfg) "");;
        match r with
        | inl e => mret (metadataUnknownTopic "" (domainErrCode e))
        | inr t => metadataTopic t 0
        end
  | Some name =>
      r <~ call (s_DescribeTopic (cfg_ClusterID cfg) name);;
      match r with
      | inl e => mret (metadataUnknownTopic name (domainErrCode e))
      | inr t => metadataTopic t 0
      end
  end.

Definition metadata (req : MetadataRequest) : M St MetadataResponse :=
  let resp := mkMetadataResponse (mr_Version req) [broker] (cfg_ClusterID cfg) (cfg_BrokerID cfg) in
  let requested := default [] (mr_Topics req) in
  let allTopics := (1 <=? mr_Version req) && bool_decide (mr_Topics req = None) in
  listed <~ (if allTopics || ((mr_Version req =? 0) && (length requested =? 0)%nat)
             then call (s_ListTopics (mkListTopicsOptions (cfg_ClusterID cfg) "" 0 ""))
             else mret (inr (mkListTopicsResult [] "")));;
  match listed with
  | inl _ => mret (resp errInvalidRequest None)
  | inr list =>
      if (0 <? length (ltr_Topics list))%nat
      then ts <~ mmap (λ t, metadataTopic t 0) (ltr_Topics list);; mret (resp 0 (Some ts))
      else ts <~ mmap (requested_topic (mr_Version req)) requested;; mret (resp 0 (Some ts))
  end.

(** The loop over the configurations; a code other than zero with its message. *)
Fixpoint configs_loop (configs : list TopicConfig) (retention : Duration) : (Z * message) + Duration :=
  match configs with
  | [] => inr retention
  | c :: configs =>
      if String.eqb (tc_Name c) "retention.ms" then
        match tc_Value c with
        | None => configs_loop configs retention
        | Some v =>
            match Atoi v with                                  (* strconv.ParseInt(v, 10, 64) *)
            | None => inl (errInvalidConfig, Text "retention.ms must be -1 or a non-negative integer")
            | Some ms =>
                if ms <? -1
                then inl (errInvalidConfig, Text "retention.ms must be -1 or a non-negative integer")
                else configs_loop configs (if 0 <=? ms then wrap_s 64 (ms * Millisecond) else retention)
            end
        end
      else inl (errInvalidConfig, Text ("unsupported topic config " +:+ tc_Name c))
  end.

Definition createTopicOptions (t : CreateTopicsRequestTopic) : (Z * message) + (Z * Duration) :=
  if (0 <? length (crt_ReplicaAssignment t))%nat
  then inl (errInvalidReplicaAssignment, Text "manual replica assignment is outside the single-broker intersection")
  else
    let partitions := if crt_NumPartitions t =? -1 then cfg_DefaultPartitions cfg else crt_NumPartitions t in
    if partitions <=? 0 then inl (errInvalidPartitions, Text "partition count must be positive")
    else if negb (crt_ReplicationFactor t =? -1) && negb (crt_ReplicationFactor t =? 1)
    then inl (errInvalidReplicationFactor, Text "replication factor must be 1 for the portable single-broker view")
    else match configs_loop (crt_Configs t) 0 with
         | inl e => inl e
         | inr retention => inr (partitions, retention)
         end.

(** One turn of the loop of createTopics, for a topic that is not a duplicate. *)
Definition create_topic (validateOnly : bool) (t : CreateTopicsRequestTopic) : M St CreateTopicsTopic :=
  match createTopicOptions t with
  | inl (code, msg) => mret (mkCreateTopicsTopic (crt_Topic t) code (Some msg) None None)
  | inr (partitions, retention) =>
      if validateOnly
      then mret (mkCreateTopicsTopic (crt_Topic t) 0 None (Some (wrap_s 32 partitions)) (Some 1))
      else
        r <~ call (s_CreateTopic (cfg_ClusterID cfg) (crt_Topic t)
                     (mkCreateTopicOptions partitions retention None));;
        mret match r with
             | inl e => mkCreateTopicsTopic (crt_Topic t) (createTopicErrCode e) (Some (ErrorText e)) None None
             | inr topic => mkCreateTopicsTopic (crt_Topic t) 0 None
                              (Some (wrap_s 32 (Topic_PartitionCount topic))) (Some 1)
             end
  end.
Fixpoint create_loop (validateOnly : bool) (seen : gset string) (ts : list CreateTopicsRequestTopic)
    : M St (list CreateTopicsTopic) :=
  match ts with
  | [] => mret []
  | t :: ts =>
      out <~ (if decide (crt_Topic t ∈ seen)
              then mret (mkCreateTopicsTopic (crt_Topic t) errInvalidRequest
                           (Some (Text "duplicate topic in request")) None None)
              else create_topic validateOnly t);;
      outs <~ create_loop validateOnly ({[crt_Topic t]} ∪ seen) ts;;
      mret (out :: outs)
  end.
Definition createTopics (req : CreateTopicsRequest) : M St (list CreateTopicsTopic) :=
  create_loop (cr_ValidateOnly req) ∅ (cr_Topics req).

Definition deleteTopic (name : string) : M St DeleteTopicsTopic :=
  r <~ call (s_DeleteTopic (cfg_ClusterID cfg) name);;
  mret match r with
       | inl e => mkDeleteTopicsTopic (Some name) None (domainErrCode e) (Some (ErrorText e))
       | inr _ => mkDeleteTopicsTopic (Some name) None 0 None
       end.
Definition deleteTopics (req : DeleteTopicsRequest) : M St (list DeleteTopicsTopic) :=
  if dr_Version req <=? 5 then mmap deleteTopic (dr_TopicNames req)
  else mmap (λ t, match mrt_Topic t with
                  | None => mret (mkDeleteTopicsTopic None (Some (mrt_TopicID t)) errUnknownTopicID
                                    (Some no_topic_ids))
                  | Some name => deleteTopic name
                  end) (dr_Topics req).

Definition producePartitionErrors (parts : list ProducePartition) (code : Z) (msg : string) : list ProduceOut :=
  (λ p, mkProduceOut (pp_Partition p) code (Some (Text msg)) None) <$> parts.

(** One turn of the partition loop of produce. *)
Definition produce_partition (req : ProduceRequest) (t : ReqTopic ProducePartition) (p : ProducePartition)
    : M St ProduceOut :=
  let out := mkProduceOut (pp_Partition p) in
  if 13 <=? pq_Version req then mret (out errUnknownTopicID (Some no_topic_ids) None)
  else if bool_decide (is_Some (pq_TransactionID req))
  then mret (out errInvalidRequest (Some (Text "transactions are outside the event-stream intersection")) None)
  else match decodeRecordBatches (pp_Records p) with
  | Panic => mpanic
  | Err (code, msg) => mret (out code (Some (Text msg)) None)
  | Ok records =>
      r <~ call (s_Produce (cfg_ClusterID cfg) (rt_Topic t) (pp_Partition p) records);;
      mret match r with
           | inl e => out (domainErrCode e) (Some (ErrorText e)) None
           | inr [] => out 0 None (Some (-1))
           | inr (m :: _) => out 0 None (Some (rmd_Offset m))
           end
  end.
Definition produce (req : ProduceRequest) : M St (list (RespTopic ProduceOut)) :=
  if negb (pq_Acks req =? -1) && negb (pq_Acks req =? 0) && negb (pq_Acks req =? 1)
  then mret ((λ t, mkRespTopic (rt_Topic t) None
                     (producePartitionErrors (rt_Partitions t) errInvalidRequiredAcks "invalid required acks"))
               <$> pq_Topics req)
  else each_partition with_id (produce_partition req) (pq_Topics req).
Definition produceHasError (resp : list (RespTopic ProduceOut)) : bool :=
  existsb (λ t, existsb (λ p, negb (po_ErrorCode p =? 0)) (ot_Partitions t)) resp.

(** One turn of the partition loop of fetch. *)
Definition fetch_partition (version : Z) (t : ReqTopic FetchPartition) (p : FetchPartition) : M St FetchOut :=
  let out := mkFetchOut (fp_Partition p) in
  if 13 <=? version then mret (out errUnknownTopicID None None None None)
  else
    r <~ call (s_ListOffsets (cfg_ClusterID cfg) (rt_Topic t) (fp_Partition p));;
    match r with
    | inl e => mret (out (domainErrCode e) None None None None)
    | inr bounds =>
        r <~ call (s_Fetch (cfg_ClusterID cfg) (rt_Topic t) (fp_Partition p) (fp_FetchOffset p)
                     defaultMaxRecordsPerFetch);;
        let marks code batches :=
          out code (Some (Latest bounds)) (Some (Latest bounds)) (Some (Earliest bounds)) batches in
        match r with
        | inl e => mret (marks (fetchErrCode e) None)
        | inr records =>
            match encodeRecordBatches records with
            | None => mpanic
            | Some batches => mret (marks 0 (Some batches))
            end
        end
    end.
Definition fetch (req : FetchRequest) : M St (list (RespTopic FetchOut)) :=
  each_partition with_id (fetch_partition (fq_Version req)) (fq_Topics req).

Definition list_partition (t : ReqTopic ListOffsetsPartition) (p : ListOffsetsPartition) : M St ListOffsetsOut :=
  r <~ call (s_ListOffsets (cfg_ClusterID cfg) (rt_Topic t) (lp_Partition p));;
  mret match r with
       | inl e => mkListOffsetsOut (lp_Partition p) (domainErrCode e) None
       | inr bounds =>
           if lp_Timestamp p =? -2 then mkListOffsetsOut (lp_Partition p) 0 (Some (Earliest bounds))
           else if lp_Timestamp p =? -1 then mkListOffsetsOut (lp_Partition p) 0 (Some (Latest bounds))
           else mkListOffsetsOut (lp_Partition p) errInvalidRequest None
       end.
Definition listOffsets (req : ListOffsetsRequest) : M St (list (RespTopic ListOffsetsOut)) :=
  each_partition without_id list_partition (lq_Topics req).

Definition group_coordinators_only : message :=
  Text "only group coordinators are in the event-stream intersection".
Definition findCoordinator (req : FindCoordinatorRequest) : FindCoordinatorResponse :=
  if fc_Version req <=? 3 then
    if (1 <=? fc_Version req) && negb (fc_CoordinatorType req =? 0)
    then mkFindCoordinatorResponse (fc_Version req) errInvalidRequest (Some group_coordinators_only) None []
    else mkFindCoordinatorResponse (fc_Version req) 0 None (Some broker) []
  else mkFindCoordinatorResponse (fc_Version req) 0 None None
    ((λ key, if negb (fc_CoordinatorType req =? 0)
             then mkCoordinator key errInvalidRequest (Some group_coordinators_only) None
             else mkCoordinator key 0 None (Some broker)) <$> fc_CoordinatorKeys req).

Definition commit_partition (req : OffsetCommitRequest) (t : ReqTopic CommitPartition) (p : CommitPartition)
    : M St CommitOut :=
  let groupErr := groupOffsetRequestErr (oc_Group req) (oc_Generation req) (oc_MemberID req) in
  if 10 <=? oc_Version req then mret (mkCommitOut (cp_Partition p) errUnknownTopicID)
  else if negb (groupErr =? 0) then mret (mkCommitOut (cp_Partition p) groupErr)
  else
    r <~ call (s_CommitOffset (cfg_ClusterID cfg) (oc_Group req) (rt_Topic t) (cp_Partition p) (cp_Offset p));;
    mret (mkCommitOut (cp_Partition p) match r with inl e => commitErrCode e | inr _ => 0 end).
Definition offsetCommit (req : OffsetCommitRequest) : M St (list (RespTopic CommitOut)) :=
  each_partition with_id (commit_partition req) (oc_Topics req).

Definition fetch_offset (group : string) (t : ReqTopic Z) (partition : Z) : M St OffsetFetchOut :=
  r <~ call (s_FetchCommittedOffset (cfg_ClusterID cfg) group (rt_Topic t) partition);;
  mret match r with
       | inl e => mkOffsetFetchOut partition (fetchOffsetErrCode e) (-1)
       | inr offset => mkOffsetFetchOut partition 0 offset
       end.
Definition fetch_group (version : Z) (g : OffsetFetchGroup) : M St OffsetFetchGroupOut :=
  if String.eqb (og_Group g) "" then mret (mkOffsetFetchGroupOut (og_Group g) errInvalidGroupID [])
  else match og_Topics g with
  | None => mret (mkOffsetFetchGroupOut (og_Group g) errInvalidRequest [])
  | Some topics =>
      ts <~ each_partition with_id
              (λ t partition, if 10 <=? version
                              then mret (mkOffsetFetchOut partition errUnknownTopicID (-1))
                              else fetch_offset (og_Group g) t partition) topics;;
      mret (mkOffsetFetchGroupOut (og_Group g) 0 ts)
  end.
Definition offsetFetch (req : OffsetFetchRequest) : M St OffsetFetchResponse :=
  let resp := mkOffsetFetchResponse (of_Version req) in
  if of_Version req <=? 7 then
    if String.eqb (of_Group req) "" then mret (resp errInvalidGroupID [] [])
    else match of_Topics req with
    | None => mret (resp errInvalidRequest [] [])
    | Some topics =>
        ts <~ each_partition without_id (fetch_offset (of_Group req)) topics;; mret (resp 0 ts [])
    end
  else gs <~ mmap (fetch_group (of_Version req)) (of_Groups req);; mret (resp 0 [] gs).

Definition unsupportedJoinGroup (req : JoinGroupRequest) : response :=
  JoinGroupResp (jg_Version req) errUnsupportedVersion (-1) (jg_MemberID req).
Definition unsupportedHeartbeat (version : Z) : response := HeartbeatResp version errUnknownMemberID.
Definition unsupportedLeaveGroup (req : LeaveGroupRequest) : response :=
  LeaveGroupResp (lg_Version req) errUnknownMemberID
    ((λ m, mkMemberOut (mb_MemberID m) (mb_InstanceID m) errUnknownMemberID) <$> lg_Members req).
Definition unsupportedSyncGroup (version : Z) : response := SyncGroupResp version errUnknownMemberID.

(** The response, and whether it stays unsent. *)
Definition dispatch (maxVersion : Z) (req : request) : M St (response * bool) :=
  match req with
  | ApiVersionsRequest v => mret (ApiVersionsResp (apiVersions maxVersion v), false)
  | Metadata req => resp <~ metadata req;; mret (MetadataResp resp, false)
  | CreateTopics req => ts <~ createTopics req;; mret (CreateTopicsResp (cr_Version req) ts, false)
  | DeleteTopics req => ts <~ deleteTopics req;; mret (DeleteTopicsResp (dr_Version req) ts, false)
  | ProduceReq req =>
      ts <~ produce req;;
      mret (ProduceResp (pq_Version req) ts, (pq_Acks req =? 0) && negb (produceHasError ts))
  | FetchReq req => ts <~ fetch req;; mret (FetchResp (fq_Version req) ts, false)
  | ListOffsetsReq req => ts <~ listOffsets req;; mret (ListOffsetsResp (lq_Version req) ts, false)
  | FindCoordinator req => mret (FindCoordinatorResp (findCoordinator req), false)
  | OffsetCommit req => ts <~ offsetCommit req;; mret (OffsetCommitResp (oc_Version req) ts, false)
  | OffsetFetch req => resp <~ offsetFetch req;; mret (OffsetFetchResp resp, false)
  | JoinGroup req => mret (unsupportedJoinGroup req, false)
  | Heartbeat v => mret (unsupportedHeartbeat v, false)
  | LeaveGroup req => mret (unsupportedLeaveGroup req, false)
  | SyncGroup v => mret (unsupportedSyncGroup v, false)
  end.
End server.

(** ** Frames and connections *)

(** The kmsg types behind the type switch of dispatch: [view] is the request
    (none for a type the switch does not know), [render] is kmsg's constructor
    and the handler's assignments. *)
Class KafkaApi (Req Resp : Type) := {
  api_kmsg :: KafkaWire.Kmsg Req Resp;
  view : Req → option request;
  render : response → Resp;
  ApiVersions_MaxVersion : Z }.

(** [errors.Is(err, io.EOF)] *)
Fixpoint is_EOF (e : KafkaWire.error) : bool :=
  match e with KafkaWire.EOF => true | KafkaWire.Errorf _ _ w => is_EOF w | _ => false end.

Section conn.
Context {St : Type} `{Streams St} `{KmsgRecords} {Req Resp : Type} `{!KafkaApi Req Resp} (cfg : Config).

(** The response frame; none is the empty list of bytes. *)
Definition HandleFrame (payload : bytes) : M St (KafkaWire.error + bytes) :=
  match KafkaWire.DecodeRequest (Req := Req) (Resp := Resp) payload with
  | Panic => mpanic
  | Err e => mret (inl e)
  | Ok frame =>
      match view (KafkaWire.Request frame) with
      | None => mret (inl (KafkaWire.Errorf "decoded unsupported kafka request %T: %w" []
                             (KafkaWire.Sentinel KafkaWire.ErrUnsupportedAPI)))
      | Some req =>
          r <~ dispatch cfg ApiVersions_MaxVersion req;;
          mret (inr (if snd r then [] else
                     KafkaWire.AppendResponse [] (KafkaWire.CorrelationID frame) (render (fst r))))
      end
  end.

(** The connection at each turn of the loop: what [ctx.Err()] gives, and the
    error of [conn.Write], if there is one. *)
Context (ctx_Err write_err : nat → option KafkaWire.error).

(** The responses written and the error returned; a turn reads four bytes at least. *)
Fixpoint serve_loop (fuel i : nat) (r : KafkaWire.Reader) (out : list bytes)
    : M St (list bytes * option KafkaWire.error) :=
  match fuel with
  | O => mret (out, Some KafkaWire.OutOfFuel)
  | S fuel =>
      match ctx_Err i with
      | Some e => mret (out, Some e)
      | None =>
          match KafkaWire.ReadFrame r (cfg_MaxFrameSize cfg) with
          | Panic => mpanic
          | Err e => mret (out, if is_EOF e then None else Some e)
          | Ok (payload, r) =>
              resp <~ HandleFrame payload;;
              match resp with
              | inl e => mret (out, Some e)
              | inr resp =>
                  if (length resp =? 0)%nat then serve_loop fuel (S i) r out
                  else match write_err i with
                       | Some e => mret (out, Some e)
                       | None => serve_loop fuel (S i) r (out ++ [resp])
                       end
              end
          end
      end
  end.
Definition ServeConn (r : KafkaWire.Reader) : M St (list bytes * option KafkaWire.error) :=
  serve_loop (S (length (KafkaWire.rd_data r))) 0 r [].
End conn.

(** ** The in-process log as the server's backend

    Each call reads the clock; the state counts the readings. *)

Section inmem.
Context (clock : nat → Time).

Definition timed {A} (op : Time → Backend → Backend * result A) (s : nat * Backend)
    : (nat * Backend) * result A :=
  let '(b, r) := op (clock (fst s)) (snd s) in ((S (fst s), b), r).

Definition inmem_streams : Streams (nat * Backend) := {|
  s_CreateTopic c t opt := timed (λ now, EventStream.CreateTopic now c t opt);
  s_DeleteTopic c t := timed (λ _, EventStream.DeleteTopic c t);
  s_DescribeTopic c t := timed (λ _, EventStream.DescribeTopic c t);
  s_ListTopics opt := timed (λ _, EventStream.ListTopics opt);
  s_Produce c t p rs := timed (λ now, EventStream.Produce now c t p rs);
  s_Fetch c t p off n := timed (λ now, EventStream.Fetch now c t p off n);
  s_ListOffsets c t p := timed (λ now, EventStream.ListOffsets now c t p);
  s_CommitOffset c g t p off := timed (λ _, EventStream.CommitOffset c g t p off);
  s_FetchCommittedOffset c g t p := timed (λ _, EventStream.FetchCommittedOffset c g t p) |}.
End inmem.
