(* ===== verification/KafkaServerProps.v ===== *)
(** * The Kafka server: properties

    Over any backend: responses mirror their requests, refused requests leave
    the backend alone, a connection answers its requests in order.  Over the
    in-process log: what is produced is what is fetched, committed offsets come
    back, no request makes the server panic. *)

From S2P Require Import Prelude GoStrings GoBytes KafkaWire EventStream EventStreamProps.
From S2P Require Import KafkaRecords KafkaRecordsProps KafkaServer.

(** ** Running the loops *)

Lemma mbind_Some {St A C} (m : M St A) (k : A → M St C) s s' c :
  mbind m k s = (s', Some c) → ∃ s1 a, m s = (s1, Some a) ∧ k a s1 = (s', Some c).
Proof. unfold mbind. destruct (m s) as [s1 [a|]]; [|done]. eauto. Qed.

Lemma mbind_run {St A C} (m : M St A) (k : A → M St C) s s' a : m s = (s', Some a) → mbind m k s = k a s'.
Proof. unfold mbind. by intros ->. Qed.

Section run.
Context {St A B : Type}.
Implicit Type f : A → M St B.

Lemma mmap_pure f g s l : (∀ a, a ∈ l → f a s = (s, Some (g a))) → mmap f l s = (s, Some (g <$> l)).
Proof.
  induction l as [|a l IH]; intros Hf; [done|]. cbn [mmap]. erewrite mbind_run by (apply Hf; left). cbv beta.
  by erewrite mbind_run by (apply IH; intros; apply Hf; by right).
Qed.

Lemma mmap_mirror {K} (ka : A → K) (kb : B → K) f l s s' bs :
  (∀ a s s' b, a ∈ l → f a s = (s', Some b) → kb b = ka a) →
  mmap f l s = (s', Some bs) → kb <$> bs = ka <$> l.
Proof.
  revert s bs. induction l as [|a l IH]; intros s bs Hf; cbn [mmap].
  { unfold mret. intros [= <- <-]. done. }
  intros (s1 & b & Hb & (s2 & bs' & Hbs & [= <- <-])%mbind_Some)%mbind_Some. rewrite !fmap_cons. f_equal.
  - eapply Hf; [left|done].
  - eapply IH; [|done]. intros. eapply Hf; [by right|done].
Qed.

Lemma mmap_inv (P : St → Prop) f l s :
  P s → (∀ a s, a ∈ l → P s → ∃ s' b, f a s = (s', Some b) ∧ P s') →
  ∃ s' bs, mmap f l s = (s', Some bs) ∧ P s'.
Proof.
  revert s. induction l as [|a l IH]; intros s Hs Hf; cbn [mmap]; [by exists s, []|].
  destruct (Hf a s) as (s1 & b & Hb & H1); [left|done|].
  destruct (IH s1 H1) as (s2 & bs & Hbs & H2); [intros; apply Hf; [by right|done]|].
  erewrite mbind_run by done. cbv beta. erewrite mbind_run by done. by exists s2, (b :: bs).
Qed.

Lemma call_run (m : St → St * result A) s : (m s).2 ≠ Panic →
  ∃ r, call m s = ((m s).1, Some r) ∧ match r with inl e => (m s).2 = Err e | inr a => (m s).2 = Ok a end.
Proof. unfold call. destruct (m s) as [s' [a|e|]]; cbn; intros; [by eexists (inr _)|by eexists (inl _)|done]. Qed.
End run.

Section any_backend.
Context {St : Type} `{Streams St} `{KmsgRecords} (cfg : Config).

(** ** Responses mirror requests *)

Lemma each_partition_mirror {P Q} (id : ReqTopic P → option bytes) (f : ReqTopic P → P → M St Q)
    (kp : P → Z) (kq : Q → Z) topics s s' out :
  (∀ t p s s' q, f t p s = (s', Some q) → kq q = kp p) →
  each_partition id f topics s = (s', Some out) →
  (λ t, (ot_Topic t, ot_TopicID t, kq <$> ot_Partitions t)) <$> out =
  (λ t, (rt_Topic t, id t, kp <$> rt_Partitions t)) <$> topics.
Proof.
  intros Hf. apply mmap_mirror. intros t s1 s1' o _ (s2 & parts & Hm & [= <- <-])%mbind_Some. cbn. f_equal.
  eapply mmap_mirror; [|done]. intros. by eapply Hf.
Qed.

Ltac run_calls := repeat first
  [ progress intros | match goal with H : mret _ _ = (_, Some _) |- _ => injection H as <- <- end
  | match goal with H : mpanic _ = (_, Some _) |- _ => discriminate H end
  | match goal with H : mbind _ _ _ = (_, Some _) |- _ => apply mbind_Some in H as (? & ? & _ & H) end
  | match goal with H : (match ?x with _ => _ end) _ = _ |- _ => destruct x end
  | done | case_match ].

Lemma fetched_topics_mirror (id : ReqTopic Z → option bytes) (f : ReqTopic Z → Z → M St OffsetFetchOut) topics s s' out :
  (∀ t p s s' q, f t p s = (s', Some q) → oo_Partition q = p) →
  each_partition id f topics s = (s', Some out) →
  (λ t, (ot_Topic t, ot_TopicID t, oo_Partition <$> ot_Partitions t)) <$> out =
  (λ t, (rt_Topic t, id t, rt_Partitions t)) <$> topics.
Proof.
  intros Hf Hm. rewrite (each_partition_mirror id f (λ p, p) oo_Partition topics s s' out Hf Hm).
  apply list_fmap_ext. intros _ t _. by rewrite list_fmap_id.
Qed.

(** C40: a response names the topics of its request, by name and by topic ID, and
    the partitions of each, in the request's order, one answer each, whatever the
    backend answers. The name and the ID are those of the request for produce with
    valid acknowledgements, fetch, offset commit and the groups of an offset fetch
    from version 8 on (there one group per requested group, in order, with the
    topics unless the group is unnamed or asks for every topic, which is refused).
    List offsets, and before version 8 the offset fetch of a named group's given
    topics, have no topic ID and name topics and partitions. A produce request refused for its acknowledgements is
    answered under the same names and partitions, but without the topic ID, which
    that path does not copy. *)
Theorem responses_mirror_requests s :
  (∀ req s' out, produce cfg req s = (s', Some out) →
     (λ t, (ot_Topic t, ot_TopicID t, po_Partition <$> ot_Partitions t)) <$> out =
     (λ t, (rt_Topic t, if decide (pq_Acks req ∈ [-1; 0; 1]) then Some (rt_TopicID t) else None,
            pp_Partition <$> rt_Partitions t)) <$> pq_Topics req) ∧
  (∀ req s' out, fetch cfg req s = (s', Some out) →
     (λ t, (ot_Topic t, ot_TopicID t, fo_Partition <$> ot_Partitions t)) <$> out =
     (λ t, (rt_Topic t, Some (rt_TopicID t), fp_Partition <$> rt_Partitions t)) <$> fq_Topics req) ∧
  (∀ req s' out, listOffsets cfg req s = (s', Some out) →
     (λ t, (ot_Topic t, ot_TopicID t, lo_Partition <$> ot_Partitions t)) <$> out =
     (λ t, (rt_Topic t, None, lp_Partition <$> rt_Partitions t)) <$> lq_Topics req) ∧
  (∀ req s' out, offsetCommit cfg req s = (s', Some out) →
     (λ t, (ot_Topic t, ot_TopicID t, cm_Partition <$> ot_Partitions t)) <$> out =
     (λ t, (rt_Topic t, Some (rt_TopicID t), cp_Partition <$> rt_Partitions t)) <$> oc_Topics req) ∧
  (∀ req s' resp, offsetFetch cfg req s = (s', Some resp) →
     (of_Version req <= 7 → of_Group req ≠ "" → ∀ topics, of_Topics req = Some topics →
        (λ t, (ot_Topic t, ot_TopicID t, oo_Partition <$> ot_Partitions t)) <$> or_Topics resp =
        (λ t, (rt_Topic t, None, rt_Partitions t)) <$> topics) ∧
     (7 < of_Version req →
        (λ g, (gr_Group g, (λ t, (ot_Topic t, ot_TopicID t, oo_Partition <$> ot_Partitions t)) <$> gr_Topics g))
          <$> or_Groups resp =
        (λ g, (og_Group g, if String.eqb (og_Group g) "" then [] else
                 (λ t, (rt_Topic t, Some (rt_TopicID t), rt_Partitions t)) <$> default [] (og_Topics g)))
          <$> of_Groups req)).
Proof.
  split_and!; intros req s' out.
  - unfold produce. destruct (_ && _) eqn:E; case_decide as Ha.
    + exfalso. rewrite !elem_of_cons, elem_of_nil in Ha. lia.
    + intros [= <- <-]. rewrite <-list_fmap_compose. apply list_fmap_ext. intros _ t _. cbn. f_equal.
      unfold producePartitionErrors. rewrite <-list_fmap_compose. by apply list_fmap_ext.
    + apply each_partition_mirror. unfold produce_partition. run_calls.
    + exfalso. rewrite !elem_of_cons, elem_of_nil in Ha. lia.
  - apply each_partition_mirror. unfold fetch_partition. run_calls.
  - apply each_partition_mirror. unfold list_partition. run_calls.
  - apply each_partition_mirror. unfold commit_partition. run_calls.
  - intros Hf. unfold offsetFetch in Hf. split.
    + intros Hver Hg topics Ht. rewrite (proj2 (Z.leb_le _ _) Hver), (proj2 (String.eqb_neq _ _) Hg), Ht in Hf.
      apply mbind_Some in Hf as (s1 & ts & Hf & [= <- <-]). apply fetched_topics_mirror in Hf; [|unfold fetch_offset; run_calls].
      exact Hf.
    + intros Hver. rewrite (proj2 (Z.leb_gt _ _) Hver) in Hf.
      apply mbind_Some in Hf as (s1 & gs & Hf & [= <- <-]). eapply mmap_mirror; [|exact Hf].
      clear. intros g s s' o _. unfold fetch_group. destruct (String.eqb (og_Group g) "") eqn:Eg; [by intros [= <- <-]|].
      destruct (og_Topics g) as [topics|]; [|by intros [= <- <-]].
      intros (s1 & ts & Hf & [= <- <-])%mbind_Some. cbn. f_equal.
      apply fetched_topics_mirror in Hf; [exact Hf|unfold fetch_offset; run_calls].
Qed.

(** ** Refused requests *)

Definition acks_valid (a : Z) : Prop := a = -1 ∨ a = 0 ∨ a = 1.

(** What produce does not take: other acknowledgements, topic IDs, transactions,
    or payloads of which none decodes. *)
Definition produce_refused (req : ProduceRequest) : Prop :=
  ¬ acks_valid (pq_Acks req) ∨ 13 <= pq_Version req ∨ is_Some (pq_TransactionID req) ∨
  ∀ t p records, t ∈ pq_Topics req → p ∈ rt_Partitions t → decodeRecordBatches (pp_Records p) ≠ Ok records.
Definition commit_refused (req : OffsetCommitRequest) : Prop :=
  10 <= oc_Version req ∨ oc_Group req = "" ∨ 0 <= oc_Generation req ∨ oc_MemberID req ≠ "".

Lemma each_partition_pure {P Q} (id : ReqTopic P → option bytes) (f : ReqTopic P → P → M St Q)
    (bad : Q → Prop) topics s :
  (∀ t p, t ∈ topics → p ∈ rt_Partitions t → ∃ q, f t p s = (s, Some q) ∧ bad q) →
  ∃ out, each_partition id f topics s = (s, Some out) ∧ Forall (λ t, Forall bad (ot_Partitions t)) out.
Proof.
  intros Hf. unfold each_partition. induction topics as [|t topics IH]; [by exists []|]. cbn [mmap].
  destruct IH as (out & Hout & Hb); [intros; apply Hf; [by right|done]|].
  assert (∃ qs, mmap (f t) (rt_Partitions t) s = (s, Some qs) ∧ Forall bad qs) as (qs & Hq & Hbq).
  { assert (Ht : ∀ p, p ∈ rt_Partitions t → ∃ q, f t p s = (s, Some q) ∧ bad q)
      by (intros; apply Hf; [left|done]).
    induction (rt_Partitions t) as [|p ps IHp]; [by exists []|]. cbn [mmap].
    destruct (Ht p) as (q & Hp & Hbp); [left|]. destruct IHp as (qs & Hps & Hbs); [intros; apply Ht; by right|].
    exists (q :: qs). split; [|by constructor]. erewrite mbind_run by done. cbv beta. by erewrite mbind_run by done. }
  exists (mkRespTopic (rt_Topic t) (id t) qs :: out). split; [|by constructor].
  erewrite mbind_run by (by erewrite mbind_run by done). cbv beta. by erewrite mbind_run by done.
Qed.

(** A request that is refused changes nothing, whatever the backend: a
    produce request with other acknowledgements than -1, 0 and 1, with topic IDs,
    in a transaction or with payloads that do not decode, and an offset commit
    with topic IDs or outside a simple group, leave the backend's state as it is
    and answer every partition with an error code; validating topics leaves the
    state as it is too. *)
Theorem refused_requests_change_nothing s :
  (∀ req, produce_refused req → ∃ out, produce cfg req s = (s, Some out) ∧
     Forall (λ t, Forall (λ p, po_ErrorCode p ≠ 0) (ot_Partitions t)) out) ∧
  (∀ req, commit_refused req → ∃ out, offsetCommit cfg req s = (s, Some out) ∧
     Forall (λ t, Forall (λ p, cm_ErrorCode p ≠ 0) (ot_Partitions t)) out) ∧
  (∀ req, cr_ValidateOnly req = true → ∃ out, createTopics cfg req s = (s, Some out)).
Proof.
  split_and!; intros req.
  - intros Href. unfold produce. destruct (negb _ && _ && _) eqn:Ea.
    { eexists. split; [done|]. apply Forall_fmap, Forall_true. intros t. cbn.
      unfold producePartitionErrors. by apply Forall_fmap, Forall_true. }
    apply each_partition_pure. intros t p Ht Hp. unfold produce_partition.
    destruct (Z.leb_spec 13 (pq_Version req)); [by eexists|]. case_bool_decide; [by eexists|].
    destruct Href as [Hacks|[|[|Hdec]]]; [|lia|done|].
    { exfalso. apply Hacks. unfold acks_valid. lia. }
    specialize (Hdec t p). pose proof (decodeRecordBatches_any (pp_Records p)) as Hany.
    destruct (decodeRecordBatches (pp_Records p)) as [rs|[c m]|]; [by destruct (Hdec rs)| |done].
    eexists. split; [done|]. cbn. by destruct Hany as [->|[->| ->]].
  - intros Href. apply each_partition_pure. intros t p _ _. unfold commit_partition, groupOffsetRequestErr.
    destruct (Z.leb_spec 10 (oc_Version req)); [by eexists|].
    destruct (String.eqb_spec (oc_Group req) ""); [by eexists|].
    destruct (Z.leb_spec 0 (oc_Generation req)); [by eexists|].
    destruct (String.eqb_spec (oc_MemberID req) ""); [|by eexists]. exfalso. unfold commit_refused in Href. naive_solver lia.
  - intros Hv. unfold createTopics. rewrite Hv. generalize (∅ : gset string) as seen.
    induction (cr_Topics req) as [|t ts IH]; intros seen; [by eexists|]. cbn [create_loop].
    destruct (IH ({[crt_Topic t]} ∪ seen)) as [outs Ho].
    assert (∃ o, (if decide (crt_Topic t ∈ seen) then mret (mkCreateTopicsTopic (crt_Topic t) errInvalidRequest
      (Some (Text "duplicate topic in request")) None None) else create_topic cfg true t) s = (s, Some o)) as [o E].
    { case_decide; [by eexists|]. unfold create_topic. destruct (createTopicOptions cfg t) as [[c m]|[ps r]]; by eexists. }
    exists (o :: outs). erewrite mbind_run by done. cbv beta. by erewrite mbind_run by done.
Qed.
End any_backend.

(** ** Connections *)

Section conn.
Context {St : Type} `{Streams St} `{KmsgRecords} {Req Resp : Type} `{!KafkaApi Req Resp} (cfg : Config).
Implicit Type ps : list bytes.
Let limit := if cfg_MaxFrameSize cfg <=? 0 then KafkaWire.DefaultMaxFrameSize else cfg_MaxFrameSize cfg.

(** A payload that ReadFrame accepts. *)
Definition within_limit (limit : Z) (payload : bytes) : Prop :=
  KafkaWire.len payload <= limit ∧ KafkaWire.len payload < 2 ^ 31.
Definition sent (rs : list bytes) : list bytes := filter (λ r, r ≠ []) rs.
Definition stream ps : bytes := concat (KafkaWire.enc_frame <$> ps).

Abbreviation handle := (HandleFrame (Req := Req) (Resp := Resp) cfg).
Abbreviation loop := (serve_loop (Req := Req) (Resp := Resp) cfg (λ _, None) (λ _, None)).

Lemma serve_loop_frames fuel i ps rs rest e out s s' :
  Forall (within_limit limit) ps → mmap handle ps s = (s', Some (inr <$> rs)) → (length ps <= fuel)%nat →
  loop fuel i (KafkaWire.mkReader (stream ps ++ rest) e) out s =
  loop (fuel - length ps) (i + length ps) (KafkaWire.mkReader rest e) (out ++ sent rs) s'.
Proof.
  revert fuel i rs out s. induction ps as [|p ps IH]; intros fuel i rs out s Hp Hm Hf.
  - destruct rs; [|done]. injection Hm as <-. cbn [stream]. by rewrite Nat.sub_0_r, Nat.add_0_r, app_nil_r.
  - apply Forall_cons in Hp as [[Hl1 Hl2] Hp]. cbn [mmap] in Hm.
    apply mbind_Some in Hm as (s1 & b & Hb & Hm). apply mbind_Some in Hm as (s2 & bs & Hbs & Hr).
    injection Hr as -> Hr. destruct rs as [|r rs]; [done|]. rewrite fmap_cons in Hr. injection Hr as -> ->.
    destruct fuel as [|fuel]; [cbn [length] in Hf; lia|]. cbn [length] in Hf.
    cbn [serve_loop]. change (stream (p :: ps)) with (KafkaWire.enc_frame p ++ stream ps).
    rewrite <-(assoc_L (++)), KafkaWire.ReadFrame_frame by done. erewrite mbind_run by done.
    cbn [length]. replace (S fuel - S (length ps))%nat with (fuel - length ps)%nat by lia.
    replace (i + S (length ps))%nat with (S i + length ps)%nat by lia.
    unfold sent. destruct r as [|x r]; cbn [length Nat.eqb].
    + rewrite filter_cons_False by (intros Hn; by apply Hn). by apply IH; [..|lia].
    + rewrite filter_cons_True by done. rewrite (IH _ _ rs) by (done || lia). by rewrite <-(assoc_L (++)).
Qed.

Lemma length_stream ps : (4 * length ps <= length (stream ps))%nat.
Proof.
  induction ps as [|p ps IH]; [simpl; lia|]. change (stream (p :: ps)) with (KafkaWire.enc_frame p ++ stream ps).
  unfold KafkaWire.enc_frame. rewrite !length_app, length_be_encode. cbn [length]. lia.
Qed.

(** How a connection ends after the frames it carries whole. *)
Inductive ending : bytes → bytes + option KafkaWire.error → Prop :=
  | end_clean : ending [] (inr None)                              (* closed between two frames *)
  | end_in_size tl : (0 < length tl < 4)%nat → ending tl (inr (Some KafkaWire.ErrUnexpectedEOF))
  | end_after_size p : within_limit limit p → p ≠ [] →
      ending (be_encode 4 (KafkaWire.len p)) (inr None)
  | end_in_payload p q : within_limit limit (p ++ q) → p ≠ [] → q ≠ [] →
      ending (be_encode 4 (KafkaWire.len (p ++ q)) ++ p) (inr (Some KafkaWire.ErrUnexpectedEOF))
  | end_refused p tl : within_limit limit p → ending (KafkaWire.enc_frame p ++ tl) (inl p).

Lemma read_truncated p q :
  within_limit limit (p ++ q) → q ≠ [] →
  KafkaWire.ReadFrame (KafkaWire.mkReader (be_encode 4 (KafkaWire.len (p ++ q)) ++ p) KafkaWire.EOF)
    (cfg_MaxFrameSize cfg) = Err (if (length p =? 0)%nat then KafkaWire.EOF else KafkaWire.ErrUnexpectedEOF).
Proof.
  intros [H1 H2] Hq. unfold KafkaWire.ReadFrame. fold limit.
  rewrite KafkaWire.ReadFull_app by apply length_be_encode. cbn [obind].
  rewrite be_decode_encode. change (256 ^ Z.of_nat 4) with (2 ^ 32).
  pose proof (KafkaWire.len_nonneg (p ++ q)).
  rewrite KafkaWire.wrap_s_mod by lia. rewrite wrap_s_small by (unfold in_s; lia).
  assert ((KafkaWire.len (p ++ q) <? 0) = false) as -> by lia.
  assert ((limit <? KafkaWire.len (p ++ q)) = false) as -> by lia.
  unfold KafkaWire.ReadFull. cbn [KafkaWire.rd_data KafkaWire.rd_end].
  assert ((Z.to_nat (KafkaWire.len (p ++ q)) <=? length p)%nat = false) as ->; [|done].
  apply Nat.leb_gt. unfold KafkaWire.len. rewrite length_app, Nat2Z.id. destruct q; [done|simpl; lia].
Qed.

(** C35: a connection answers its requests in order and then ends: on a stream
    that carries the frames of the payloads ps whole and then ends, ServeConn
    handles ps one after the other on the backend's state, writes exactly their
    non-empty responses in that order, and returns nil when the stream ends
    between frames (or right after a size), an unexpected end of file when it ends
    inside one, and the error of a frame that HandleFrame refuses.  The loop
    needs no more turns than the stream has bytes. *)
Theorem ServeConn_answers_in_order ps rs tl fin s s' :
  Forall (within_limit limit) ps → mmap handle ps s = (s', Some (inr <$> rs)) → ending tl fin →
  match fin with
  | inr e => ServeConn (Req := Req) (Resp := Resp) cfg (λ _, None) (λ _, None)
               (KafkaWire.mkReader (stream ps ++ tl) KafkaWire.EOF) s = (s', Some (sent rs, e))
  | inl p => ∀ s2 e, handle p s' = (s2, Some (inl e)) →
      ServeConn (Req := Req) (Resp := Resp) cfg (λ _, None) (λ _, None)
        (KafkaWire.mkReader (stream ps ++ tl) KafkaWire.EOF) s = (s2, Some (sent rs, Some e))
  end.
Proof.
  intros Hp Hm Hend. pose proof (length_stream ps) as Hl.
  assert (Hrun : ServeConn (Req := Req) (Resp := Resp) cfg (λ _, None) (λ _, None)
      (KafkaWire.mkReader (stream ps ++ tl) KafkaWire.EOF) s =
    loop (S (length (stream ps) + length tl - length ps)) (length ps)
      (KafkaWire.mkReader tl KafkaWire.EOF) (sent rs) s').
  { unfold ServeConn. cbn [KafkaWire.rd_data]. rewrite length_app.
    rewrite (serve_loop_frames _ _ _ rs _ _ _ _ s') by (done || lia).
    f_equal. lia. }
  assert (Hstop : ∀ e, KafkaWire.ReadFrame (KafkaWire.mkReader tl KafkaWire.EOF) (cfg_MaxFrameSize cfg) = Err e →
    ServeConn (Req := Req) (Resp := Resp) cfg (λ _, None) (λ _, None)
      (KafkaWire.mkReader (stream ps ++ tl) KafkaWire.EOF) s = (s', Some (sent rs, if is_EOF e then None else Some e))).
  { intros e He. rewrite Hrun. cbn [serve_loop]. by rewrite He. }
  destruct Hend as [|tl Htl|p Hw Hne|p q Hw Hne Hq|p tl [H1 H2]].
  - by apply (Hstop KafkaWire.EOF).
  - apply (Hstop KafkaWire.ErrUnexpectedEOF). unfold KafkaWire.ReadFrame, KafkaWire.ReadFull.
    cbn [KafkaWire.rd_data KafkaWire.rd_end].
    rewrite (proj2 (Nat.leb_gt 4 _)), (proj2 (Nat.eqb_neq _ 0)) by lia. done.
  - apply (Hstop KafkaWire.EOF). pose proof (read_truncated [] p Hw Hne) as Hr. by rewrite app_nil_r in Hr.
  - apply (Hstop KafkaWire.ErrUnexpectedEOF). rewrite read_truncated by done. by destruct p.
  - intros s2 e He. rewrite Hrun. cbn [serve_loop]. rewrite KafkaWire.ReadFrame_frame by done.
    by erewrite mbind_run by done.
Qed.

(** Every request frame gets exactly one answer: what HandleFrame returns
    for a payload that decodes is the frame of one response, with the request's
    correlation ID, and it is empty exactly for a produce request with
    acknowledgements 0 of which no partition fails. *)
Theorem one_response_per_request payload s s' resp :
  handle payload s = (s', Some (inr resp)) →
  ∃ frame req r quiet, KafkaWire.DecodeRequest (Req := Req) (Resp := Resp) payload = Ok frame ∧
    view (KafkaWire.Request frame) = Some req ∧
    dispatch cfg ApiVersions_MaxVersion req s = (s', Some (r, quiet)) ∧
    resp = (if quiet then [] else KafkaWire.AppendResponse [] (KafkaWire.CorrelationID frame) (render r)) ∧
    (resp = [] ↔ ∃ preq topics, req = ProduceReq preq ∧ pq_Acks preq = 0 ∧
       r = ProduceResp (pq_Version preq) topics ∧
       Forall (λ t, Forall (λ p, po_ErrorCode p = 0) (ot_Partitions t)) topics).
Proof.
  unfold HandleFrame. destruct (KafkaWire.DecodeRequest payload) as [frame|e|] eqn:Ed; [|done|done].
  destruct (view (KafkaWire.Request frame)) as [req|] eqn:Ev; [|done].
  intros (s1 & [r quiet] & Hd & [= <- <-])%mbind_Some. cbn [fst snd].
  exists frame, req, r, quiet. split_and!; [done..|].
  assert (Happ : ∀ cid (x : Resp), KafkaWire.AppendResponse [] cid x ≠ []).
  { intros cid x Hx. apply (f_equal length) in Hx. unfold KafkaWire.AppendResponse, KafkaWire.PutUint32_at in Hx.
    rewrite !length_app, length_be_encode in Hx. simpl in Hx. lia. }
  assert (Hq : (if quiet then [] else KafkaWire.AppendResponse [] (KafkaWire.CorrelationID frame) (render r)) = []
    ↔ quiet = true) by (destruct quiet; [done|naive_solver]).
  rewrite Hq; clear Hq.
  assert (Hs : ∀ ts, produceHasError ts = false ↔ Forall (λ t, Forall (λ p, po_ErrorCode p = 0) (ot_Partitions t)) ts).
  { intros ts. unfold produceHasError. rewrite Forall_forall. split.
    - intros Hn t Ht. rewrite Forall_forall. intros p Hpt. destruct (Z.eq_dec (po_ErrorCode p) 0) as [|Hz]; [done|].
      exfalso. rewrite <-not_true_iff_false in Hn. apply Hn, existsb_exists. exists t.
      split; [by apply list_elem_of_In|]. apply existsb_exists. exists p. split; [by apply list_elem_of_In|].
      by apply negb_true_iff, Z.eqb_neq.
    - intros Hall. apply not_true_iff_false. intros (t & Ht%list_elem_of_In & He)%existsb_exists.
      apply existsb_exists in He as (p & Hpt%list_elem_of_In & He). specialize (Hall t Ht).
      rewrite Forall_forall in Hall. by rewrite (Hall p Hpt) in He. }
  destruct req; cbn [dispatch] in Hd;
    try (apply mbind_Some in Hd as (s2 & x & Hx & Hd)); injection Hd as <- <- <-;
    try (split; [done|]; by intros (? & ? & ? & _)).
  rewrite andb_true_iff, negb_true_iff, Z.eqb_eq, Hs. split.
  - intros [Ha Hall]. by eexists _, _.
  - intros (preq & topics & [= <-] & Ha & [= <-] & Hall). done.
Qed.
End conn.

(** ** Over the in-process log *)

Definition reply {A} (r : result A) : option (error + A) :=
  match r with Ok a => Some (inr a) | Err e => Some (inl e) | Panic => None end.

Lemma call_timed {A} clock (op : Time → Backend → Backend * result A) n b :
  call (timed clock op) (n, b) = ((S n, (op (clock n) b).1), reply (op (clock n) b).2).
Proof. unfold call, timed. cbn [fst snd]. by destruct (op (clock n) b) as [b' [a|e|]]. Qed.

(** A request about one partition. *)
Definition one {P} (t : string) (id : bytes) (part : P) : list (ReqTopic P) := [mkReqTopic t id [part]].

Lemma each_one {St P Q} (ids : ReqTopic P → option bytes) (f : ReqTopic P → P → M St Q) t id part s s' q :
  f (mkReqTopic t id [part]) part s = (s', Some q) →
  each_partition ids f (one t id part) s = (s', Some [mkRespTopic t (ids (mkReqTopic t id [part])) [q]]).
Proof.
  intros Hf. unfold each_partition, one. cbn [mmap rt_Partitions rt_Topic].
  erewrite mbind_run; [|erewrite mbind_run; [cbv beta; reflexivity|]; by erewrite mbind_run]. done.
Qed.

(** A run of consecutive offsets is one group. *)
Lemma consecutive_group rs : rs ≠ [] →
  (∀ i r r', rs !! i = Some r → rs !! S i = Some r' → Record_Offset r' = wrap_s 64 (Record_Offset r + 1)) →
  contiguousRecordGroups rs = [rs].
Proof.
  destruct rs as [|r0 rs]; [done|]. intros _ Ho. cbn [contiguousRecordGroups].
  assert (Hgo : ∀ prev cur, last cur = Some prev → offsets_follow (cur ++ rs) → group_loop prev cur rs = [cur ++ rs]).
  { clear Ho. induction rs as [|r rs IH]; intros prev cur Hl Hf; cbn [group_loop]; [by rewrite app_nil_r|].
    rewrite (Hf (pred (length cur)) prev r).
    - rewrite Z.eqb_refl. cbn [negb]. rewrite (IH r (cur ++ [r])).
      + by rewrite <-(assoc_L (++)).
      + apply last_snoc.
      + by rewrite <-(assoc_L (++)).
    - rewrite last_lookup in Hl. rewrite lookup_app_l; [done|]. by eapply lookup_lt_Some.
    - assert (length cur ≠ 0%nat) by (by destruct cur).
      rewrite lookup_app_r by lia. by replace (S (pred (length cur)) - length cur)%nat with 0%nat by lia. }
  rewrite (Hgo r0 [r0]); [done|done|]. exact Ho.
Qed.

Section inmem.
Context (clock : nat → Time) `{KmsgRecords} (cfg : Config).
#[local] Instance streams : Streams (nat * Backend) := inmem_streams clock.
Abbreviation cid := (cfg_ClusterID cfg).

(** C34: a produce request appends to the log: over a partition with history h,
    a payload that decodes to the records ins is answered with no error and the
    base offset |h|, and the history grows by exactly these records, in order, with
    consecutive offsets from the base offset on. *)
Theorem produce_request_appends n b v acks t id p payload ins h :
  validateClusterID cid = None → has_log b cid t p h → v < 13 → acks_valid acks →
  decodeRecordBatches payload = Ok ins → ins ≠ [] → Z.of_nat (length h + length ins) < 2 ^ 63 →
  ∃ new b', produce cfg (mkProduceRequest v None acks (one t id (mkProducePartition p payload))) (n, b) =
      ((S n, b'), Some [mkRespTopic t (Some id) [mkProduceOut p 0 None (Some (Z.of_nat (length h)))]]) ∧
    has_log b' cid t p (h ++ new) ∧ length new = length ins ∧
    ∀ i x, ins !! i = Some x → new !! i =
      Some (mkRecord t p (Z.of_nat (length h + i)) (pr_Key x) (pr_Value x) (pr_Headers x)
              (if pr_Timestamp x =? zeroTime then clock n else pr_Timestamp x)).
Proof.
  intros Hv Hl Hver Hacks Hd Hne Hb.
  destruct (Produce_log (clock n) cid t p ins b h Hv Hl Hne Hb) as (new & Hok & Hlog & Hlen & Hnew).
  exists new. eexists. split_and!; [|exact Hlog|done|done].
  unfold produce. cbn [pq_Acks pq_Topics].
  replace (negb (acks =? -1) && negb (acks =? 0) && negb (acks =? 1)) with false
    by (destruct Hacks as [->|[->| ->]]; done).
  change (Some id) with (with_id (mkReqTopic t id [mkProducePartition p payload])).
  apply each_one. unfold produce_partition. cbn [pq_Version pq_TransactionID pp_Records pp_Partition rt_Topic].
  rewrite (proj2 (Z.leb_gt _ _)) by done. rewrite bool_decide_false by (by intros []). rewrite Hd.
  cbn [s_Produce streams inmem_streams]. erewrite mbind_run by (rewrite call_timed, Hok; reflexivity). cbv beta.
  destruct ins as [|x ins]; [done|]. specialize (Hnew 0%nat x eq_refl). destruct new as [|r new]; [done|].
  injection Hnew as ->. cbn. by rewrite Nat.add_0_r.
Qed.

(** C33: a fetch request reads the log. Take a partition with history h of which
    the records from position k0 on are kept, in a topic of retention ret.
    Retention drops the records older than ret, oldest first and up to the first
    that is not, at the clock of each of the two backend calls: to k, then to k'.
    The answer reports |h| as high watermark and last stable offset and k as log
    start. At an offset up to |h| and not below k' it has code 0 and batches that
    decode to the records of h from that offset on, at most 1024; beyond |h|, or
    below k' while a record is kept, it has the offset-out-of-range code and no
    records; once every record has been dropped an offset below |h| is answered
    with code 0 and no record. The history stays h, its records from k' on kept.
    Without a retention (ret <= 0) k' = k0. The conditions: a version below 13
    (from 13 on the handler answers unknown-topic-ID), a valid cluster ID, and
    records that fit a batch. *)
Theorem fetch_request_reads `{!KmsgRecordsLaws} n b v t id p off ret h k0 :
  validateClusterID cid = None → kept b cid t p ret h k0 → v < 13 → 0 <= off → Z.of_nat (length h) < 2 ^ 63 →
  (∀ k, fits (take_max defaultMaxRecordsPerFetch (drop k h))) →
  ∃ b' out k k', fetch cfg (mkFetchRequest v (one t id (mkFetchPartition p off))) (n, b) =
      ((S (S n), b'), Some [mkRespTopic t (Some id) [out]]) ∧
    retained ret (clock n) h k0 k ∧ retained ret (clock (S n)) h k k' ∧ kept b' cid t p ret h k' ∧
    fo_Partition out = p ∧ fo_HighWatermark out = Some (Z.of_nat (length h)) ∧
    fo_LastStableOffset out = Some (Z.of_nat (length h)) ∧ fo_LogStartOffset out = Some (Z.of_nat k) ∧
    (off <= Z.of_nat (length h) ∧ (Z.of_nat k' <= off ∨ k' = length h) →
      fo_ErrorCode out = 0 ∧ ∃ batches, fo_RecordBatches out = Some batches ∧
        decodeRecordBatches (default [] batches) =
          Ok (as_produced <$> take_max defaultMaxRecordsPerFetch (drop (Z.to_nat off `max` k') h))) ∧
    (Z.of_nat (length h) < off ∨ (off < Z.of_nat k' ∧ (k' < length h)%nat) →
      fo_ErrorCode out = errOffsetOutOfRange ∧ fo_RecordBatches out = None).
Proof.
  intros Hv Hl Hver Hoff Hb Hfits.
  destruct (read_log_twice (clock n) (clock (S n)) b cid t p ret h k0 Hl Hv) as (k & k' & Hk & Hk' & HL & HF).
  specialize (HF off defaultMaxRecordsPerFetch Hoff ltac:(done)) as [Hl2 HF].
  set (b1 := (ListOffsets (clock n) cid t p b).1) in *.
  set (b2 := (Fetch (clock (S n)) cid t p off defaultMaxRecordsPerFetch b1).1) in *.
  assert (Hrun : ∀ code batches, match (Fetch (clock (S n)) cid t p off defaultMaxRecordsPerFetch b1).2 with
      | Ok rs => code = 0 ∧ encodeRecordBatches rs = default None (Some <$> batches) ∧ is_Some batches
      | Err e => code = fetchErrCode e ∧ batches = None | Panic => False end →
    fetch cfg (mkFetchRequest v (one t id (mkFetchPartition p off))) (n, b) =
      ((S (S n), b2), Some [mkRespTopic t (Some id) [mkFetchOut p code (Some (Z.of_nat (length h)))
         (Some (Z.of_nat (length h))) (Some (Z.of_nat k)) batches]])).
  { intros code batches Hm. unfold fetch. cbn [fq_Version fq_Topics].
    change (Some id) with (with_id (mkReqTopic t id [mkFetchPartition p off])). apply each_one.
    unfold fetch_partition. cbn [fp_Partition fp_FetchOffset rt_Topic].
    rewrite (proj2 (Z.leb_gt _ _)) by done. cbn [s_ListOffsets s_Fetch streams inmem_streams].
    erewrite mbind_run by (rewrite call_timed, HL; reflexivity). cbv beta. fold b1.
    destruct (Fetch (clock (S n)) cid t p off defaultMaxRecordsPerFetch b1) as [b3 [rs|e|]] eqn:Ef; [| |done];
      cbn [snd] in Hm; (erewrite mbind_run by (rewrite call_timed, Ef; reflexivity)); cbv beta.
    - destruct Hm as (-> & He & [bs ->]). cbn in He. by rewrite He.
    - by destruct Hm as [-> ->]. }
  destruct (Fetch (clock (S n)) cid t p off defaultMaxRecordsPerFetch b1).2 as [rs|e|]; [| |done].
  - destruct HF as (Hle & Hr & ->). set (rs := take_max _ _) in *.
    assert (∃ batches, encodeRecordBatches rs = Some batches ∧
      decodeRecordBatches (default [] batches) = Ok (as_produced <$> rs)) as (batches & He & Hd).
    { destruct (decide (rs = [])) as [->|Hne]; [by exists None|].
      destruct (encode_decode_batches rs Hne) as (w & Hw & Hd); [|by exists (Some w)].
      rewrite consecutive_group; [|done|].
      - constructor; [apply Hfits|constructor].
      - destruct (kept_has_log _ _ _ _ _ _ _ Hl) as (st & part & _ & _ & _ & _ & _ & _ & Ho).
        intros i r r' Hi Hi'. unfold rs, take_max in Hi, Hi'. cbn [Z.ltb defaultMaxRecordsPerFetch] in Hi, Hi'.
        change (0 <? 1024) with true in Hi, Hi'. cbv iota in Hi, Hi'.
        apply lookup_take_Some in Hi as [Hi _], Hi' as [Hi' _]. rewrite lookup_drop in Hi, Hi'.
        pose proof (lookup_lt_Some _ _ _ Hi'). apply Ho in Hi, Hi'.
        rewrite Hi, Hi', wrap_s_small by (lia || unfold in_s; lia). lia. }
    eexists b2, _, k, k'. split; [apply (Hrun 0 (Some batches)); by split_and!|].
    split_and!; try done; [|cbn; lia]. intros _. split; [done|]. by exists batches.
  - destruct HF as [He Hr]. eexists b2, _, k, k'. split; [by apply (Hrun (fetchErrCode e) None)|].
    split_and!; try done; [cbn; lia|]. intros _. cbn. split; [|done]. unfold fetchErrCode. by rewrite He.
Qed.

(** *** No request panics *)

(** Every topic is stored under its own key, with the partitions it counts. *)
Definition keyed (b : Backend) : Prop := ∀ key st, topics b !! key = Some st →
  key = topicKey (Topic_ClusterID (topic st)) (Topic_Name (topic st)) ∧
  Topic_PartitionCount (topic st) = Z.of_nat (length (partitions st)).

(** The method does not panic and keeps the state keyed. *)
Definition safe_op {A} (op : Time → Backend → Backend * result A) (Q : A → Prop) : Prop :=
  ∀ now b, keyed b → keyed (op now b).1 ∧
    match (op now b).2 with Ok a => Q a | Err _ => True | Panic => False end.

Lemma keyed_set_partition b ct t p st part new :
  keyed b → partition ct t p b = Ok (st, part) → keyed (set_partition b (topicKey ct t) st p new).
Proof.
  intros Hk (_ & Hst & _)%partition_Ok key st'. unfold set_partition, set_topic. cbn [topics].
  rewrite lookup_insert_Some. intros [[<- <-]|[_ H1]]; [|by apply Hk].
  cbn [topic partitions]. rewrite length_insert. by apply Hk.
Qed.

Lemma safe_Produce ct t p ins : safe_op (λ now, Produce now ct t p ins) (λ _, True).
Proof.
  intros now b Hk. unfold Produce. destruct (length ins =? 0)%nat; [done|].
  destruct (partition ct t p b) as [[st part]|e|] eqn:E; [|done|by apply partition_no_panic in E].
  destruct (append_loop _ _ _ _ _ _). split; [by eapply keyed_set_partition|done].
Qed.
Lemma safe_ListOffsets ct t p : safe_op (λ now, ListOffsets now ct t p) (λ _, True).
Proof.
  intros now b Hk. unfold ListOffsets.
  destruct (partition ct t p b) as [[st part]|e|] eqn:E; [|done|by apply partition_no_panic in E].
  split; [by eapply keyed_set_partition|done].
Qed.
Lemma safe_CommitOffset ct g t p off : safe_op (λ _, CommitOffset ct g t p off) (λ _, True).
Proof.
  intros _ b Hk. unfold CommitOffset. destruct (validateClusterID ct); [done|]. cbn [guard_err].
  destruct (String.eqb g ""); [done|]. destruct (off <? 0); [done|].
  destruct (partition ct t p b) as [[st part]|e|] eqn:E; [|done|by apply partition_no_panic in E]. by case_match.
Qed.
Lemma safe_FetchCommittedOffset ct g t p : safe_op (λ _, FetchCommittedOffset ct g t p) (λ _, True).
Proof.
  intros _ b Hk. unfold FetchCommittedOffset. destruct (validateClusterID ct); [done|]. cbn [guard_err].
  destruct (String.eqb g ""); [done|].
  destruct (partition ct t p b) as [[st part]|e|] eqn:E; [|done|by apply partition_no_panic in E]. by case_match.
Qed.
Lemma safe_CreateTopic ct t opt : safe_op (λ now, EventStream.CreateTopic now ct t opt) (λ _, True).
Proof.
  intros now b Hk. unfold EventStream.CreateTopic. destruct (validateClusterID ct); [done|]. cbn [guard_err].
  destruct (validateTopicName t); [done|]. cbn [guard_err].
  destruct (Z.leb_spec (ct_PartitionCount opt) 0) as [|Hc]; [done|]. destruct (_ <? 0); [done|].
  destruct (topics b !! _) eqn:E; [done|]. split; [|done]. intros key st. unfold set_topic. cbn [fst topics].
  rewrite lookup_insert_Some. intros [[<- <-]|[_ H1]]; [|by apply Hk].
  cbn. rewrite length_replicate. split; [done|lia].
Qed.
Lemma safe_DeleteTopic ct t : safe_op (λ _, EventStream.DeleteTopic ct t) (λ _, True).
Proof.
  intros _ b Hk. unfold EventStream.DeleteTopic. destruct (validateClusterID ct); [done|]. cbn [guard_err].
  destruct (topics b !! _) eqn:E; [|done]. split; [|done]. intros key st. cbn [fst topics].
  intros [_ H1]%lookup_delete_Some. by apply Hk.
Qed.
Lemma safe_DescribeTopic ct t : safe_op (λ _, DescribeTopic ct t) (λ x, 0 <= Topic_PartitionCount x).
Proof.
  intros _ b Hk. unfold DescribeTopic. destruct (validateClusterID ct); [done|]. cbn [guard_err].
  destruct (topics b !! _) eqn:E; [|done]. split; [done|]. cbn. apply Hk in E as [_ ->]. lia.
Qed.
Lemma safe_ListTopics ct : safe_op (λ _, ListTopics (mkListTopicsOptions ct "" 0 ""))
  (λ r, Forall (λ x, 0 <= Topic_PartitionCount x) (ltr_Topics r)).
Proof.
  intros _ b Hk. unfold ListTopics. cbn [lt_ClusterID]. destruct (validateClusterID ct); [done|]. cbn [guard_err].
  split; [done|]. cbn [snd lt_NextToken obind lt_Prefix lt_MaxResults]. change (parse_token "") with (Ok (E := error) 0).
  cbn [obind]. fold (topic_names ct "" b).
  assert (page 0 0 "" (topic_names ct "" b) = Ok (topic_names ct "" b, "")) as ->.
  { unfold page. rewrite (proj2 (Z.ltb_ge _ 0)) by lia. cbn [Z.ltb Z.compare andb].
    rewrite (proj2 (Z.ltb_ge _ 0)) by lia. by rewrite Z.sub_0_r, Nat2Z.id, firstn_all. }
  cbn [obind].
  assert (Hn : ∀ x, x ∈ topic_names ct "" b → ∃ st, topics b !! topicKey ct x = Some st).
  { intros x. unfold topic_names. rewrite sort_Strings_perm, list_elem_of_filter, list_elem_of_fmap.
    intros (_ & [key st] & -> & [Hct Hin]%list_elem_of_filter). apply elem_of_map_to_list in Hin.
    exists st. destruct (Hk _ _ Hin) as [-> _]. by rewrite Hct in Hin. }
  rewrite fetch_all_omap by (intros x [st Hst]%Hn; rewrite Hst; by eexists). cbn [obind ltr_Topics].
  apply Forall_forall. intros x (y & Hy & Hx)%list_elem_of_omap. apply fmap_Some in Hx as (st & Hst & ->).
  rewrite copyTopic_id. apply Hk in Hst as [_ ->]. lia.
Qed.

Abbreviation state := (nat * Backend)%type.
Definition keyed_state (s : state) : Prop := keyed (snd s).
(** A handler that runs to its end and keeps the state keyed. *)
Definition total {A} (m : M state A) (Q : A → Prop) : Prop :=
  ∀ s, keyed_state s → ∃ s' a, m s = (s', Some a) ∧ keyed_state s' ∧ Q a.

Lemma total_ret {A} (a : A) (Q : A → Prop) : Q a → total (mret a) Q.
Proof. intros Ha s Hs. by exists s, a. Qed.
Lemma total_bind {A B} (m : M state A) (k : A → M state B) Q R :
  total m Q → (∀ a, Q a → total (k a) R) → total (mbind m k) R.
Proof.
  intros Hm Hk s Hs. destruct (Hm s Hs) as (s1 & a & E & H1 & Ha). rewrite (mbind_run _ _ _ _ _ E).
  by apply (Hk a Ha).
Qed.
Lemma total_call {A} (op : Time → Backend → Backend * result A) Q :
  safe_op op Q → total (call (timed clock op)) (λ r, match r with inr a => Q a | inl _ => True end).
Proof.
  intros Ho [n b] Hs. destruct (Ho (clock n) b Hs) as [H1 H2]. rewrite call_timed.
  destruct (op (clock n) b) as [b' [a|e|]]; cbn in *; [|by eexists _, _|done]. by eexists _, _.
Qed.
Lemma total_mmap {A B} (f : A → M state B) l (P : A → Prop) :
  Forall P l → (∀ a, P a → total (f a) (λ _, True)) → total (mmap f l) (λ _, True).
Proof.
  intros Hl Hf. induction Hl as [|a l Ha _ IH]; [by apply total_ret|]. cbn [mmap].
  eapply total_bind; [by apply Hf|]. intros b _. eapply total_bind; [apply IH|]. intros. by apply total_ret.
Qed.
Lemma total_each {P Q} (id : ReqTopic P → option bytes) (f : ReqTopic P → P → M state Q) topics :
  (∀ t p, total (f t p) (λ _, True)) → total (each_partition id f topics) (λ _, True).
Proof.
  intros Hf. apply (total_mmap _ _ (λ _, True)); [by apply Forall_true|]. intros t _.
  eapply total_bind; [|intros; by apply total_ret].
  apply (total_mmap _ _ (λ _, True)); [by apply Forall_true|]. intros. apply Hf.
Qed.
Lemma total_metadataTopic t code : 0 <= Topic_PartitionCount t → total (metadataTopic cfg t code) (λ _, True).
Proof. intros Ht. unfold metadataTopic. rewrite (proj2 (Z.ltb_ge _ 0)) by done. by apply total_ret. Qed.

Ltac total_calls := repeat first
  [ apply total_ret; done
  | eapply total_bind; [apply total_call; first [apply safe_Produce|apply safe_ListOffsets|apply safe_CommitOffset
      |apply safe_FetchCommittedOffset|apply safe_CreateTopic|apply safe_DeleteTopic|apply safe_DescribeTopic]|]
  | intros [?|?] ?; cbv beta | case_match ].

Lemma total_metadata req : total (metadata cfg req) (λ _, True).
Proof.
  assert (Hreq : ∀ v x, total (requested_topic cfg v x) (λ _, True)).
  { intros v x. unfold requested_topic. total_calls; by apply total_metadataTopic. }
  unfold metadata. eapply (total_bind _ _ (λ r : error + ListTopicsResult,
    match r with inr a => Forall (λ x, 0 <= Topic_PartitionCount x) (ltr_Topics a) | inl _ => True end)).
  { destruct (_ || _); [|by apply total_ret]. apply (total_call (λ _, ListTopics _)), safe_ListTopics. }
  intros [e|l] Hl; [by apply total_ret|]. destruct (0 <? length (ltr_Topics l))%nat.
  - eapply total_bind; [|intros; by apply total_ret]. eapply total_mmap; [done|].
    intros. by apply total_metadataTopic.
  - eapply total_bind; [|intros; by apply total_ret].
    apply (total_mmap _ _ (λ _, True)); [by apply Forall_true|]. intros. apply Hreq.
Qed.

Lemma total_createTopics req : total (createTopics cfg req) (λ _, True).
Proof.
  unfold createTopics. generalize (∅ : gset string) as seen. induction (cr_Topics req) as [|t ts IH]; intros seen.
  { by apply total_ret. }
  cbn [create_loop]. eapply total_bind; [|intros ? _; eapply total_bind; [apply IH|intros; by apply total_ret]].
  case_decide; [by apply (total_ret _ (λ _, True))|]. unfold create_topic. total_calls.
Qed.

Lemma total_produce req : total (produce cfg req) (λ _, True).
Proof.
  unfold produce. destruct (_ && _); [by apply total_ret|]. apply total_each. intros t p. unfold produce_partition.
  destruct (13 <=? _); [by apply total_ret|]. case_bool_decide; [by apply total_ret|].
  pose proof (decodeRecordBatches_any (pp_Records p)) as Hd.
  destruct (decodeRecordBatches (pp_Records p)) as [rs|[code msg]|]; [|by apply total_ret|done].
  total_calls.
Qed.

Definition not_a_fetch (req : request) : Prop := match req with FetchReq _ => False | _ => True end.

(** No request makes the server panic: over the in-process log, starting
    with any backend whose topics are stored under their keys (the empty one is
    such a backend), the server answers every sequence of requests, whatever
    they contain, as long as they are no fetches; and the backend stays such. *)
Theorem requests_never_panic maxVersion reqs s :
  keyed_state s → Forall not_a_fetch reqs →
  ∃ s' resps, mmap (dispatch cfg maxVersion) reqs s = (s', Some resps) ∧ keyed_state s'.
Proof.
  intros Hs Hreqs. destruct (total_mmap (dispatch cfg maxVersion) reqs not_a_fetch Hreqs) with s
    as (s' & resps & E & Hk & _); [|done|by exists s', resps].
  assert (Hoff : ∀ g t p, total (fetch_offset cfg g t p) (λ _, True)) by (intros; unfold fetch_offset; total_calls).
  intros req Hreq. destruct req; cbn [dispatch]; try (by apply total_ret);
    try (apply (total_bind _ _ (λ _, True)); [|intros; by apply total_ret]).
  - apply total_metadata.
  - apply total_createTopics.
  - assert (Hdel : ∀ name, total (deleteTopic cfg name) (λ _, True)) by (intros; unfold deleteTopic; total_calls).
    unfold deleteTopics. destruct (_ <=? 5); (apply (total_mmap _ _ (λ _, True)); [by apply Forall_true|]).
    + intros. apply Hdel.
    + intros t _. destruct (mrt_Topic t); [apply Hdel|by apply total_ret].
  - apply total_produce.
  - done.
  - apply total_each. intros t p. unfold list_partition. total_calls.
  - apply total_each. intros t p. unfold commit_partition. total_calls.
  - unfold offsetFetch. cbv zeta. destruct (_ <=? 7).
    + destruct (String.eqb _ ""); [by apply total_ret|]. destruct (of_Topics _); [|by apply total_ret].
      eapply total_bind; [|intros; by apply total_ret]. apply total_each. intros. apply Hoff.
    + eapply total_bind; [|intros; by apply total_ret]. apply (total_mmap _ _ (λ _, True)); [by apply Forall_true|].
      intros g _. unfold fetch_group. destruct (String.eqb _ ""); [by apply total_ret|].
      destruct (og_Topics g); [|by apply total_ret]. eapply total_bind; [|intros; by apply total_ret].
      apply total_each. intros t p. destruct (10 <=? _); [by apply total_ret|]. apply Hoff.
Qed.

(** *** Committed offsets and topics *)

(** A committed offset comes back: when an offset commit answers a partition
    with no error, the next offset fetch of the same group and partition, in the
    old and in the batched form of the request, answers with that offset. *)
Theorem committed_offset_comes_back s s' v g gen mem t id p o :
  offsetCommit cfg (mkOffsetCommitRequest v g gen mem (one t id (mkCommitPartition p o))) s =
    (s', Some [mkRespTopic t (Some id) [mkCommitOut p 0]]) →
  (∀ v', v' <= 7 → ∃ s'', offsetFetch cfg (mkOffsetFetchRequest v' g (Some (one t id p)) []) s' =
     (s'', Some (mkOffsetFetchResponse v' 0 [mkRespTopic t None [mkOffsetFetchOut p 0 o]] []))) ∧
  (∀ v', 8 <= v' < 10 → ∃ s'',
     offsetFetch cfg (mkOffsetFetchRequest v' "" None [mkOffsetFetchGroup g (Some (one t id p))]) s' =
     (s'', Some (mkOffsetFetchResponse v' 0 []
        [mkOffsetFetchGroupOut g 0 [mkRespTopic t (Some id) [mkOffsetFetchOut p 0 o]]]))).
Proof.
  unfold offsetCommit, each_partition, one. cbn [mmap oc_Topics].
  intros (s1 & rt & Ht & (s2 & rts & [= <- <-] & [= <- ->])%mbind_Some)%mbind_Some.
  cbn [rt_Partitions mmap rt_Topic] in Ht.
  apply mbind_Some in Ht as (s3 & qs & Hq & [= -> ->]).
  apply mbind_Some in Hq as (s4 & q & Hq & (s5 & ? & [= <- <-] & [= -> ->])%mbind_Some).
  unfold commit_partition, groupOffsetRequestErr in Hq. cbn [oc_Group oc_Version cp_Partition cp_Offset] in Hq.
  destruct (10 <=? v); [done|]. destruct (String.eqb_spec g "") as [|Hg]; [done|].
  destruct (_ || _); [done|]. change (negb (0 =? 0)) with false in Hq. cbv iota in Hq.
  destruct s as [n b]. apply mbind_Some in Hq as (s6 & r & Hc & [= -> Hr]).
  cbn [s_CommitOffset streams inmem_streams] in Hc. rewrite call_timed in Hc. injection Hc as <- Hc.
  change (rt_Topic {| rt_Topic := t; rt_TopicID := id; rt_Partitions := [mkCommitPartition p o] |}) with t in Hc.
  assert (Hok : (CommitOffset cid g t p o b).2 = Ok ()).
  { destruct (CommitOffset cid g t p o b).2 as [[]|e|]; [done| |done]. injection Hc as <-.
    unfold commitErrCode, domainErrCode in Hr. by repeat case_match. }
  pose proof (CommitOffset_read cid g t p o b Hok) as Hread. clear Hc Hr. set (b' := (CommitOffset cid g t p o b).1) in *.
  assert (Hf : ∀ part, fetch_offset cfg g (mkReqTopic t id part) p (S n, b') =
    ((S (S n), (FetchCommittedOffset cid g t p b').1), Some (mkOffsetFetchOut p 0 o))).
  { intros part. unfold fetch_offset. cbn [s_FetchCommittedOffset streams inmem_streams rt_Topic].
    by erewrite mbind_run by (rewrite call_timed, Hread; reflexivity). }
  assert (String.eqb g "" = false) as Hge by (by apply String.eqb_neq).
  split; intros v' Hv'; eexists; unfold offsetFetch;
    cbn [of_Version of_Group of_Topics of_Groups].
  - rewrite (proj2 (Z.leb_le v' 7)) by lia. rewrite Hge.
    erewrite mbind_run by (apply (each_one without_id); apply Hf). reflexivity.
  - rewrite (proj2 (Z.leb_gt v' 7)) by lia. cbn [mmap]. unfold fetch_group at 1. cbn [og_Group og_Topics].
    rewrite Hge.
    erewrite mbind_run; [reflexivity|]. erewrite mbind_run; [reflexivity|].
    erewrite mbind_run; [reflexivity|]. apply (each_one with_id). rewrite (proj2 (Z.leb_gt 10 v')) by lia. apply Hf.
Qed.

(** The metadata of a topic with [count] partitions. *)
Definition described (name : string) (count : Z) : MetadataTopic :=
  mkMetadataTopic 0 (Some name) None (Some ((λ i, mkMetadataPartition i (cfg_BrokerID cfg) [cfg_BrokerID cfg]
    [cfg_BrokerID cfg]) <$> seqZ 0 count)).

(** A topic that CreateTopics creates exists: after a request that creates
    one topic without an error, Metadata describes it, with the partitions from 0 on
    that were asked for, each led by this broker, and creating it again is
    refused with the code for an existing topic. *)
Theorem created_topic_exists s s' v t out count retention :
  createTopicOptions cfg t = inr (count, retention) → count < 2 ^ 31 →
  createTopics cfg (mkCreateTopicsRequest v [t] false) s = (s', Some [out]) → co_ErrorCode out = 0 →
  out = mkCreateTopicsTopic (crt_Topic t) 0 None (Some count) (Some 1) ∧
  (∀ v' id, ∃ s'', metadata cfg (mkMetadataRequest v' (Some [mkMetadataRequestTopic id (Some (crt_Topic t))])) s' =
     (s'', Some (mkMetadataResponse v' [broker cfg] cid (cfg_BrokerID cfg) 0 (Some [described (crt_Topic t) count])))) ∧
  (∃ s'' e, createTopics cfg (mkCreateTopicsRequest v [t] false) s' =
     (s'', Some [mkCreateTopicsTopic (crt_Topic t) errTopicAlreadyExists (Some (ErrorText e)) None None]) ∧
     snd s'' = snd s').
Proof.
  intros Hopt Hcount Hcr Hcode. destruct s as [n b].
  assert (Hpos : 0 < count).
  { unfold createTopicOptions in Hopt. destruct (0 <? length _)%nat; [done|]. cbv zeta in Hopt.
    match type of Hopt with context [if ?k <=? 0 then _ else _] => destruct (Z.leb_spec k 0) end; [done|].
    destruct (_ && _); [done|]. destruct (configs_loop _ _); [done|]. by injection Hopt as <- _. }
  assert (Hone : ∀ st, createTopics cfg (mkCreateTopicsRequest v [t] false) st =
    (o <~ create_topic cfg false t;; mret [o]) st) by done.
  rewrite Hone in Hcr. apply mbind_Some in Hcr as (s1 & o & Ho & [= <- <-]).
  unfold create_topic in Ho. rewrite Hopt in Ho. apply mbind_Some in Ho as (s2 & r & Hc & [= <- Hr]).
  cbn [s_CreateTopic streams inmem_streams] in Hc. rewrite call_timed in Hc. injection Hc as <- Hc.
  set (opt := mkCreateTopicOptions count retention None) in *.
  set (cr := EventStream.CreateTopic (clock n) cid (crt_Topic t) opt b) in *.
  destruct cr.2 as [tp|e|] eqn:Ecr; [|injection Hc as <-; subst o|done].
  2:{ exfalso. cbn [co_ErrorCode] in Hcode. unfold createTopicErrCode in Hcode. by repeat case_match. }
  injection Hc as <-. destruct (CreateTopic_Ok _ _ _ _ _ _ Ecr) as (Hv & Hcnt & Hname & (st & Hst & Htop) & Htwice).
  fold cr in Hst, Htwice. cbn [ct_PartitionCount opt] in Hcnt. split_and!.
  - rewrite <-Hr, Hcnt, wrap_s_small by (lia || unfold in_s; lia). done.
  - intros v' id. eexists. unfold metadata. cbn [mr_Topics mr_Version default].
    rewrite bool_decide_false by done. rewrite andb_false_r. cbn [length Nat.eqb andb orb]. rewrite andb_false_r.
    erewrite mbind_run by reflexivity. cbn [ltr_Topics length Nat.ltb Nat.leb].
    erewrite mbind_run; [reflexivity|]. cbn [Datatypes.id mmap].
    erewrite mbind_run; [reflexivity|]. unfold requested_topic. cbn [mrt_Topic s_DescribeTopic streams inmem_streams].
    erewrite mbind_run.
    2:{ erewrite call_timed. unfold DescribeTopic. rewrite Hv. cbn [guard_err fst snd].
        rewrite Hst. reflexivity. }
    cbv beta. rewrite copyTopic_id, Htop. unfold metadataTopic, described.
    rewrite Hcnt, Hname, (proj2 (Z.ltb_ge _ _)) by lia.
    unfold mret. do 4 f_equal. apply list_fmap_ext. intros i z Hz%lookup_seqZ.
    by rewrite wrap_s_small by (lia || unfold in_s; lia).
  - assert (Hagain : create_topic cfg false t (S n, cr.1) = ((S (S n), cr.1),
      Some (mkCreateTopicsTopic (crt_Topic t) errTopicAlreadyExists (Some (ErrorText (TopicAlreadyExists (crt_Topic t))))
        None None))).
    { unfold create_topic. rewrite Hopt. erewrite mbind_run.
      2:{ cbn [s_CreateTopic streams inmem_streams]. rewrite call_timed. fold opt. rewrite Htwice. reflexivity. }
      reflexivity. }
    exists (S (S n), cr.1), (TopicAlreadyExists (crt_Topic t)). split; [|done].
    rewrite Hone. by erewrite mbind_run by exact Hagain.
Qed.

(** The retention of a created topic wraps: retention.ms in milliseconds
    becomes a duration in nanoseconds modulo 2^64, without a check.  Up to
    9223372036854 it is the duration asked for; above, for instance for Kafka's
    largest value 2^63 - 1 (keep for ever), it is another one: -1 ms there. *)
Theorem retention_ms_wraps t ms :
  crt_ReplicaAssignment t = [] → 0 < crt_NumPartitions t → crt_ReplicationFactor t = 1 →
  crt_Configs t = [mkTopicConfig "retention.ms" (Some (Itoa ms))] → 0 <= ms < 2 ^ 63 →
  createTopicOptions cfg t = inr (crt_NumPartitions t, wrap_s 64 (ms * Millisecond)) ∧
  (wrap_s 64 (ms * Millisecond) = ms * Millisecond ↔ ms <= 9223372036854) ∧
  (ms = 2 ^ 63 - 1 → wrap_s 64 (ms * Millisecond) = - Millisecond).
Proof.
  intros Ha Hn Hf Hc Hms. split_and!.
  - unfold createTopicOptions. rewrite Ha, Hf, Hc. cbn [length Nat.ltb Nat.leb configs_loop tc_Name tc_Value].
    rewrite (proj2 (Z.eqb_neq _ (-1))), (proj2 (Z.leb_gt _ 0)) by lia.
    change (String.eqb "retention.ms" "retention.ms") with true. cbn [Z.eqb Pos.eqb negb andb].
    rewrite Atoi_Itoa by (unfold in_s; lia). rewrite (proj2 (Z.ltb_ge _ _)), (proj2 (Z.leb_le 0 _)) by lia. done.
  - unfold Millisecond. split.
    + intros E. pose proof (wrap_s_range 64 (ms * 1000000) ltac:(lia)) as Hr. unfold Millisecond in *.
      unfold in_s in Hr. lia.
    + intros Hle. apply wrap_s_small; [lia|unfold in_s; lia].
  - intros ->. reflexivity.
Qed.
End inmem.

(** ** Witnesses: a server over the in-process log, whose clock advances by a second *)

Module Demo.
Definition clock (n : nat) : Time := Z.of_nat n * Second.
#[local] Existing Instance PlainKmsg.plain.
#[local] Existing Instance PlainKmsg.plain_laws.
#[local] Instance demo_streams : Streams (nat * Backend) := inmem_streams clock.
Definition cfg : Config := KafkaServer.New (mkConfig 0 "" 0 "" 0 0).

Definition spec : CreateTopicsRequestTopic :=
  mkCreateTopicsRequestTopic "t" 2 1 [] [mkTopicConfig "retention.ms" (Some (Itoa 60000))].
(** The state after the topic [t] has been created. *)
Definition s1 : nat * Backend := (createTopics cfg (mkCreateTopicsRequest 2 [spec] false) (0%nat, EventStream.New)).1.

Definition two : list Record_ := [sample 0 (1 * Second) "a"; sample 1 (2 * Second) "b"].
Definition payload : bytes := match encodeRecordBatches two with Some (Some w) => w | _ => [] end.
Definition preq (acks : Z) : ProduceRequest := mkProduceRequest 8 None acks (one "t" [] (mkProducePartition 1 payload)).
Definition s2 : nat * Backend := (produce cfg (preq 1) s1).1.
Definition produced : list (RespTopic ProduceOut) := [mkRespTopic "t" (Some []) [mkProduceOut 1 0 None (Some 0)]].
Definition creq : OffsetCommitRequest := mkOffsetCommitRequest 7 "g" (-1) "" (one "t" [] (mkCommitPartition 1 2)).
Definition s3 : nat * Backend := (offsetCommit cfg creq s2).1.
(** The log of partition 1 after the request. *)
Definition log2 : list Record_ :=
  imap (λ i x, mkRecord "t" 1 (Z.of_nat i) (pr_Key x) (pr_Value x) (pr_Headers x) (pr_Timestamp x))
    (as_produced <$> two).

(** A frame of a heartbeat, and the toy API it belongs to. *)
Definition api : KafkaApi KafkaWire.toy bytes := {|
  api_kmsg := KafkaWire.toy_kmsg; view r := Some (Heartbeat (KafkaWire.toy_version r));
  render _ := bytes_of_string "ok"; ApiVersions_MaxVersion := 3 |}.
Definition heartbeat (cid : Z) : bytes := be_encode 2 12 ++ be_encode 2 0 ++ be_encode 4 cid ++ be_encode 2 (-1).
Definition answer (cid : Z) : bytes := be_encode 4 7 ++ be_encode 4 cid ++ [byte_of 0] ++ bytes_of_string "ok".
End Demo.

Section witnesses.
Import Demo PlainKmsg.
#[local] Existing Instance plain.
#[local] Existing Instance plain_laws.
#[local] Existing Instance demo_streams.
#[local] Existing Instance api.

Lemma responses_mirror_requests_witness :
  (produce cfg (preq 1) s1).2 = Some produced ∧
    (λ t, (ot_Topic t, ot_TopicID t, po_Partition <$> ot_Partitions t)) <$> produced = [("t", Some [], [1])].
Proof.
  assert (Hr : (produce cfg (preq 1) s1).2 = Some produced) by (vm_compute; reflexivity).
  split; [exact Hr|]. pose proof (proj1 (responses_mirror_requests cfg s1) (preq 1) s2 produced) as HW.
  apply HW. rewrite <-Hr. apply surjective_pairing.
Defined.

Lemma refused_requests_change_nothing_witness :
  ∃ out, produce cfg (preq 2) s1 = (s1, Some out) ∧
    Forall (λ t, Forall (λ p, po_ErrorCode p ≠ 0) (ot_Partitions t)) out.
Proof.
  apply (proj1 (refused_requests_change_nothing cfg s1) (preq 2)). left. unfold acks_valid. cbn. lia.
Defined.

Lemma ServeConn_answers_in_order_witness :
  ServeConn (Req := KafkaWire.toy) (Resp := bytes) cfg (λ _, None) (λ _, None)
    (KafkaWire.mkReader (stream [heartbeat 7; heartbeat 8] ++ [byte_of 1]) KafkaWire.EOF) s1 =
  (s1, Some ([answer 7; answer 8], Some KafkaWire.ErrUnexpectedEOF)).
Proof.
  pose proof (ServeConn_answers_in_order (Req := KafkaWire.toy) (Resp := bytes) cfg
    [heartbeat 7; heartbeat 8] [answer 7; answer 8] [byte_of 1] (inr (Some KafkaWire.ErrUnexpectedEOF)) s1 s1) as HW.
  cbv beta iota in HW. rewrite HW; [reflexivity| |vm_compute; reflexivity|].
  - do 2 (apply Forall_cons; split; [split; [vm_compute; discriminate|vm_compute; reflexivity]|]).
    apply Forall_nil. exact I.
  - apply end_in_size. cbn. lia.
Defined.

Lemma one_response_per_request_witness :
  ∃ frame req r quiet, KafkaWire.DecodeRequest (Req := KafkaWire.toy) (Resp := bytes) (heartbeat 7) = Ok frame ∧
    view (KafkaWire.Request frame) = Some req ∧ dispatch cfg ApiVersions_MaxVersion req s1 = (s1, Some (r, quiet)) ∧
    answer 7 = (if quiet then [] else KafkaWire.AppendResponse [] (KafkaWire.CorrelationID frame) (render r)).
Proof.
  destruct (one_response_per_request (Req := KafkaWire.toy) (Resp := bytes) cfg (heartbeat 7) s1 s1 (answer 7))
    as (frame & req & r & quiet & Hd & Hv & Hr & Ha & _); [vm_compute; reflexivity|].
  by exists frame, req, r, quiet.
Defined.

Lemma produce_request_appends_witness :
  ∃ new b', produce cfg (preq 1) s1 =
      ((2%nat, b'), Some [mkRespTopic "t" (Some []) [mkProduceOut 1 0 None (Some 0)]]) ∧
    has_log b' (cfg_ClusterID cfg) "t" 1 new ∧ length new = 2%nat.
Proof.
  destruct (produce_request_appends clock cfg 1 (snd s1) 8 1 "t" [] 1 payload (as_produced <$> two) [])
    as (new & b' & Hp & Hl & Hlen & _).
  - reflexivity.
  - eexists _, _. split; [vm_compute; reflexivity|]. split; [reflexivity|]. split; [lia|].
    split; [vm_compute; reflexivity|]. split; [by exists 0%nat|]. split; [reflexivity|]. by intros i r Hi.
  - lia.
  - right. right. reflexivity.
  - vm_compute. reflexivity.
  - discriminate.
  - cbn. lia.
  - exists new, b'. split; [exact Hp|]. split; [exact Hl|exact Hlen].
Defined.

Lemma demo_log2 : kept (snd s2) (cfg_ClusterID cfg) "t" 1 (60000 * Millisecond) log2 0.
Proof.
  eexists _, _. split; [vm_compute; reflexivity|]. do 2 (split; [reflexivity|]). split; [lia|].
  split; [vm_compute; reflexivity|]. split; [|split; [lia|vm_compute; reflexivity]].
  split; [exists 0%nat; split; [lia|vm_compute; reflexivity]|]. split; [reflexivity|].
  intros i r Hi. unfold log2 in Hi. rewrite list_lookup_imap in Hi. by apply fmap_Some in Hi as (x & _ & ->).
Qed.

Lemma demo_take l : (length l <= 2)%nat → take_max defaultMaxRecordsPerFetch l = l.
Proof. intros Hl. unfold take_max. change (0 <? defaultMaxRecordsPerFetch) with true. cbv iota. apply take_ge. unfold defaultMaxRecordsPerFetch. lia. Qed.

Lemma demo_fits : ∀ k, fits (take_max defaultMaxRecordsPerFetch (drop k log2)).
Proof.
  pose proof (@demo_take) as Ht.
  assert (Hs : ∀ o, 0 <= o <= 2 → in_s 64 o) by (unfold in_s; lia).
  intros [|[|k]].
  - rewrite Ht by (cbn; lia). split; [vm_compute; reflexivity|]. intros r [= <-]. by apply Hs.
  - rewrite Ht by (cbn; lia). split; [vm_compute; reflexivity|]. intros r [= <-]. by apply Hs.
  - rewrite (drop_ge log2) by (cbn; lia). rewrite Ht by (cbn; lia). split; [vm_compute; reflexivity|done].
Qed.

Lemma demo_retained now j : now <= 60 * Second → retained (60000 * Millisecond) now log2 0 j → j = 0%nat.
Proof.
  assert (Hpos : 0 < 60000 * Millisecond) by reflexivity.
  intros Hn (_ & _ & [H _]%(λ f, f Hpos)). destruct j as [|j]; [done|].
  assert (Hr : match log2 !! 0%nat with Some r => Record_Timestamp r = Second | None => False end)
    by (vm_compute; reflexivity).
  specialize (H 0%nat). destruct (log2 !! 0%nat) as [r|]; [|done]. specialize (H r ltac:(lia) eq_refl).
  unfold Millisecond, Second in *. lia.
Qed.

Lemma demo_suffix : take_max defaultMaxRecordsPerFetch (drop (Z.to_nat 1 `max` 0) log2) = drop 1 log2.
Proof. apply demo_take. vm_compute. lia. Qed.

Lemma fetch_request_reads_witness :
  ∃ b' out batches, fetch cfg (mkFetchRequest 11 (one "t" [] (mkFetchPartition 1 1))) (3%nat, snd s2) =
      ((5%nat, b'), Some [mkRespTopic "t" (Some []) [out]]) ∧
    fo_HighWatermark out = Some 2 ∧ fo_LogStartOffset out = Some 0 ∧ fo_ErrorCode out = 0 ∧
    fo_RecordBatches out = Some batches ∧
    decodeRecordBatches (default [] batches) = Ok (as_produced <$> drop 1 log2).
Proof.
  destruct (fetch_request_reads clock cfg 3 (snd s2) 11 "t" [] 1 1 (60000 * Millisecond) log2 0) as
    (b' & out & k & k' & Hf & Hk & Hk' & _ & _ & Hh & _ & Hs & Hok & _);
    [reflexivity|exact demo_log2|lia|lia|vm_compute; reflexivity|exact demo_fits|].
  apply demo_retained in Hk as ->; [|vm_compute; discriminate].
  apply demo_retained in Hk' as ->; [|vm_compute; discriminate].
  destruct Hok as (Hc & batches & Hb & Hd); [split; [vm_compute; discriminate|left; lia]|].
  rewrite demo_suffix in Hd.
  exists b', out, batches. split_and!; [exact Hf|exact Hh|exact Hs|exact Hc|exact Hb|exact Hd].
Defined.

Lemma requests_never_panic_witness :
  ∃ s' resps, mmap (dispatch cfg 3) [CreateTopics (mkCreateTopicsRequest 2 [spec] false); ProduceReq (preq 1);
      Metadata (mkMetadataRequest 1 None); JoinGroup (mkJoinGroupRequest 0 "m")] (0%nat, EventStream.New) =
    (s', Some resps) ∧ keyed_state s'.
Proof.
  apply (requests_never_panic clock cfg 3); [|by repeat constructor]. intros key st Hst. cbn in Hst. by apply lookup_empty_Some in Hst.
Defined.

Lemma committed_offset_comes_back_witness :
  ∃ s'', offsetFetch cfg (mkOffsetFetchRequest 7 "g" (Some (one "t" [] 1)) []) s3 =
    (s'', Some (mkOffsetFetchResponse 7 0 [mkRespTopic "t" None [mkOffsetFetchOut 1 0 2]] [])).
Proof.
  assert (Hr : (offsetCommit cfg creq s2).2 = Some [mkRespTopic "t" (Some []) [mkCommitOut 1 0]])
    by (vm_compute; reflexivity).
  assert (Hs : offsetCommit cfg creq s2 = (s3, Some [mkRespTopic "t" (Some []) [mkCommitOut 1 0]]))
    by (rewrite <-Hr; apply surjective_pairing).
  destruct (committed_offset_comes_back clock cfg s2 s3 7 "g" (-1) "" "t" [] 1 2 Hs) as [Hold _].
  apply Hold. lia.
Defined.

Lemma created_topic_exists_witness :
  ∃ s'', metadata cfg (mkMetadataRequest 1 (Some [mkMetadataRequestTopic [] (Some "t")])) s1 =
    (s'', Some (mkMetadataResponse 1 [broker cfg] (cfg_ClusterID cfg) 1 0 (Some [described cfg "t" 2]))).
Proof.
  set (out := mkCreateTopicsTopic "t" 0 None (Some 2) (Some 1)).
  assert (Hr : (createTopics cfg (mkCreateTopicsRequest 2 [spec] false) (0%nat, EventStream.New)).2 = Some [out])
    by (vm_compute; reflexivity).
  assert (Hs : createTopics cfg (mkCreateTopicsRequest 2 [spec] false) (0%nat, EventStream.New) = (s1, Some [out]))
    by (rewrite <-Hr; apply surjective_pairing).
  assert (Ho : createTopicOptions cfg spec = inr (2, 60000 * Millisecond)) by (vm_compute; reflexivity).
  destruct (created_topic_exists clock cfg (0%nat, EventStream.New) s1 2 spec out 2 (60000 * Millisecond) Ho
    ltac:(lia) Hs eq_refl) as (_ & Hm & _).
  exact (Hm 1 []).
Defined.

Lemma retention_ms_wraps_witness :
  createTopicOptions cfg (mkCreateTopicsRequestTopic "t" 1 1 [] [mkTopicConfig "retention.ms" (Some (Itoa (2 ^ 63 - 1)))])
    = inr (1, - Millisecond).
Proof.
  destruct (retention_ms_wraps cfg (mkCreateTopicsRequestTopic "t" 1 1 []
    [mkTopicConfig "retention.ms" (Some (Itoa (2 ^ 63 - 1)))]) (2 ^ 63 - 1)
    ltac:(reflexivity) ltac:(cbn; lia) ltac:(reflexivity) ltac:(reflexivity) ltac:(lia)) as (Hr & _ & Hw).
  rewrite Hr, Hw by reflexivity. reflexivity.
Defined.
End witnesses.
