(* ===== verification/SigV4.v ===== *)
(** * The server-side AWS SigV4 verifier

    Models [internal/sigv4verifier]: the canonical request and signature
    (canonical.go), the parsers (parse.go), [Verify] with its presigned-URL path
    (sigv4verifier.go), the middleware and the static store (middleware.go).
    [time.Now()] is the argument [now]; the credential store is the record of
    its one method; [os.Getenv] is the function [env]. *)

From Stdlib Require Import Ascii.
From S2P Require Import Prelude GoStrings GoBytes GoCrypto GoTime GoHttp.

Definition nl : string := String "010" "".

(** ** canonical.go *)

Definition unreserved (c : ascii) : bool := is_upper c || is_lower c || is_digit c || str_mem c "-_.~".

Definition percent (c : ascii) : string :=
  "%" +:+ ToUpper (hex_EncodeToString [byte_of (Z.of_N (N_of_ascii c))]).

Fixpoint awsURIEncode (s : string) (encodeSlash : bool) : string :=
  match s with
  | EmptyString => EmptyString
  | String c s =>
      (if unreserved c then String c ""
       else if Ascii.eqb c "/" && negb encodeSlash then String c ""
       else percent c) +:+ awsURIEncode s encodeSlash
  end.

Definition canonicalURI (p : string) : string :=
  if String.eqb p "" then "/"
  else Join (map (λ seg, awsURIEncode seg false) (Split p "/")) "/".
Definition canonicalURIForURL (r : Request) : string := canonicalURI (EscapedPath r).

Definition query_part (k v : string) : string := awsURIEncode k true +:+ "=" +:+ awsURIEncode v true.
Definition canonicalQueryString (q : gmap string (list string)) : string :=
  if (size q =? 0)%nat then ""
  else
    let keys := sort_Strings (fst <$> map_to_list q) in
    let parts := fold_left (λ parts k, parts ++ map (query_part k) (sort_Strings (default [] (q !! k))))
                   keys [] in
    Join parts "&".

(** Runs of spaces and tabs become one space; [range] decodes UTF-8. *)
Fixpoint collapse_loop (fuel : nat) (s : string) (prevSpace : bool) : string :=
  match fuel, s with
  | O, _ | _, EmptyString => ""
  | S fuel, String c s' =>
      if Ascii.eqb c " " || Ascii.eqb c "009"
      then (if prevSpace then "" else " ") +:+ collapse_loop fuel s' true
      else let '(w, rest) := next_rune s in w +:+ collapse_loop fuel rest false
  end.
Definition collapseWhitespace (s : string) : string := collapse_loop (String.length s) s false.

(** The digits of [n > 0], written from the end of a 20-byte array. *)
Fixpoint int_digits (pos : nat) (n : Z) (b : string) : string :=
  match pos with
  | O => b
  | S pos => if 0 <? n then int_digits pos (n / 10) (String (dec_digit (n mod 10)) b) else b
  end.
Definition intToString (n : Z) : string :=
  if n =? 0 then "0"
  else
    let neg := n <? 0 in
    let n := if neg then wrap_s 64 (- n) else n in
    let b := int_digits 20 n "" in
    if neg then String "-" b else b.

Definition header_value (r : Request) (lname : string) : string :=
  if String.eqb lname "host" then (if String.eqb (Host r) "" then URL_Host r else Host r)
  else if String.eqb lname "content-length" then
    (if 0 <=? ContentLength r then intToString (ContentLength r)
     else Header_Get r "Content-Length")
  else TrimSpace (Header_Get r lname).

Definition canonicalHeaders (r : Request) (signedHeaders : string) : string * string :=
  let names := map (λ n, ToLower (TrimSpace n)) (Split signedHeaders ";") in
  let names := sort_Strings names in
  (fold_left (λ b lname, b +:+ lname +:+ ":" +:+ collapseWhitespace (header_value r lname) +:+ nl)
     names "",
   Join names ";").

Definition canonical_request (r : Request) (q : gmap string (list string))
    (signedHeaders payloadHash : string) : string :=
  let '(canonHeaders, signedHeadersList) := canonicalHeaders r signedHeaders in
  Method r +:+ nl +:+ canonicalURIForURL r +:+ nl +:+ canonicalQueryString q +:+ nl +:+
  canonHeaders +:+ nl +:+ signedHeadersList +:+ nl +:+ payloadHash.

Definition buildCanonicalRequest (r : Request) (signedHeaders payloadHash : string) : string :=
  canonical_request r (Query r) signedHeaders payloadHash.

Definition str_bytes : string → bytes := bytes_of_string.

(** The string to sign, the signing key and the signature of a canonical request. *)
Definition sign_canonical (canonicalReq secret service region date full : string) : string :=
  let credScope := date +:+ "/" +:+ region +:+ "/" +:+ service +:+ "/aws4_request" in
  let stringToSign := "AWS4-HMAC-SHA256" +:+ nl +:+ full +:+ nl +:+ credScope +:+ nl +:+
    hex_EncodeToString (sha256_Sum256 (str_bytes canonicalReq)) in
  let kDate := hmac_sha256 (str_bytes ("AWS4" +:+ secret)) (str_bytes date) in
  let kRegion := hmac_sha256 kDate (str_bytes region) in
  let kService := hmac_sha256 kRegion (str_bytes service) in
  let kSigning := hmac_sha256 kService (str_bytes "aws4_request") in
  hex_EncodeToString (hmac_sha256 kSigning (str_bytes stringToSign)).

Definition computeSigV4Signature (r : Request)
    (signedHeaders payloadHash secret service region date full : string) : string :=
  sign_canonical (buildCanonicalRequest r signedHeaders payloadHash) secret service region date full.

Definition computePresignedSigV4Signature (r : Request)
    (signedHeaders payloadHash secret service region date full : string) : string :=
  sign_canonical (canonical_request r (delete "X-Amz-Signature" (Query r)) signedHeaders payloadHash)
    secret service region date full.

(** ** parse.go *)

Record parsedAuth := mkParsedAuth { Credential : string; SignedHeaders : string; Signature : string }.

Definition set_field (p : parsedAuth) (k v : string) : parsedAuth :=
  if String.eqb k "Credential" then mkParsedAuth v (SignedHeaders p) (Signature p)
  else if String.eqb k "SignedHeaders" then mkParsedAuth (Credential p) v (Signature p)
  else if String.eqb k "Signature" then mkParsedAuth (Credential p) (SignedHeaders p) v
  else p.

Definition parse_field (p : parsedAuth) (kv : string) : parsedAuth :=
  let kv := TrimSpace kv in
  match IndexByte kv "=" with
  | None => p
  | Some eq => set_field p (str_take eq kv) (str_drop (S eq) kv)
  end.

Definition parseAuthHeader (h : string) : string + (string * parsedAuth) :=
  match IndexByte h " " with
  | None => inl "authorization header missing scheme/body separator"
  | Some i =>
      let p := fold_left parse_field (Split (str_drop (S i) h) ",") (mkParsedAuth "" "" "") in
      if String.eqb (Credential p) "" || String.eqb (SignedHeaders p) "" || String.eqb (Signature p) ""
      then inl "authorization header missing Credential / SignedHeaders / Signature"
      else inr (str_take i h, p)
  end.

(** [Quote] is the [%q] of the error text ([strconv.Quote]). *)
Definition parseAmzDate (Quote : string → string) (s : string) : string + civil :=
  if String.eqb s "" then inl "missing"
  else match Parse_amz s with
       | None => inl ("could not parse " +:+ Quote s +:+ " as YYYYMMDDTHHMMSSZ")
       | Some t => inr t
       end.

Definition sha256Hex (body : bytes) : string := hex_EncodeToString (sha256_Sum256 body).

(** ** sigv4verifier.go *)

Class CredentialStore := Lookup : string → option (string * string).

Record Options := mkOptions { Service : string; Region : string; MaxClockSkew : Duration }.
Record Error := mkError { HTTPStatus : Z; Code : string; Message : string }.
Definition Error_text (e : Error) : string := Code e +:+ ": " +:+ Message e.

Definition StatusBadRequest : Z := 400.
Definition StatusForbidden : Z := 403.
Definition StatusInternalServerError : Z := 500.

Definition New (opts : Options) : Options :=
  if MaxClockSkew opts =? 0 then mkOptions (Service opts) (Region opts) (15 * Minute) else opts.

Definition forbidden (code msg : string) : Error := mkError StatusForbidden code msg.

(** [skew > max || -skew > max] with [skew = time.Since(signedTime)]. *)
Definition skewed (now : Time) (signedTime : civil) (max : Duration) : bool :=
  let skew := Sub now (instant signedTime) in
  (max <? skew) || (max <? wrap_s 64 (- skew)).

Definition readAndRestoreBody (r : Request) : string + bytes :=
  match Body r with
  | None => inr []
  | Some (Reads b) => inr b
  | Some (ReadFails e) => inl e
  end.

Section verify.
Context `{CredentialStore} (Quote : string → string) (opts : Options).

Definition skew_error : Error :=
  forbidden "RequestTimeTooSkewed"
    ("Signed time is outside " +:+ str_of_codes [194; 177]%N +:+ Duration_String (MaxClockSkew opts) +:+
     " of server time").

(** What both paths do with a credential once the time is accepted: the scope
    check and the lookup. *)
Definition check_scope (credential : string) : Error + (string * string * string) :=
  match Split credential "/" with
  | [accessKey; _; region; service; last] =>
      if negb (String.eqb last "aws4_request")
      then inl (forbidden "InvalidSignatureException" ("malformed Credential scope: " +:+ credential))
      else if negb (String.eqb region (Region opts)) || negb (String.eqb service (Service opts))
      then inl (forbidden "SignatureDoesNotMatch"
        ("credential scope does not match this frontend; got " +:+ region +:+ "/" +:+ service +:+
         ", want " +:+ Region opts +:+ "/" +:+ Service opts))
      else match Lookup accessKey with
           | None => inl (forbidden "InvalidAccessKeyId" "access key id is not recognised")
           | Some (secret, _) => inr (secret, region, service)
           end
  | _ => inl (forbidden "InvalidSignatureException" ("malformed Credential scope: " +:+ credential))
  end.

Definition mismatch : Error :=
  forbidden "SignatureDoesNotMatch" "request signature is not valid for the credential and request".

Definition body_error (e : string) : Error :=
  mkError StatusBadRequest "InvalidRequest" ("could not read request body: " +:+ e).

(** [None] is a nil error: the request is accepted. *)
Definition verifyPresigned (now : Time) (r : Request) : option Error :=
  let q := Query r in
  let alg := Query_Get q "X-Amz-Algorithm" in
  if negb (String.eqb alg "AWS4-HMAC-SHA256")
  then Some (forbidden "InvalidSignatureException" ("unsupported presigned signing algorithm: " +:+ alg))
  else
    let credential := Query_Get q "X-Amz-Credential" in
    let signedHeaders := Query_Get q "X-Amz-SignedHeaders" in
    let signature := Query_Get q "X-Amz-Signature" in
    let dateStr := Query_Get q "X-Amz-Date" in
    if String.eqb credential "" || String.eqb signedHeaders "" || String.eqb signature "" ||
       String.eqb dateStr ""
    then Some (forbidden "InvalidSignatureException"
                 "presigned URL missing required SigV4 query parameters")
    else match parseAmzDate Quote dateStr with
    | inl e => Some (forbidden "InvalidSignatureException" ("X-Amz-Date: " +:+ e))
    | inr signedTime =>
        if skewed now signedTime (MaxClockSkew opts) then Some skew_error
        else match check_scope credential with
        | inl e => Some e
        | inr (secret, region, service) =>
            match readAndRestoreBody r with
            | inl e => Some (body_error e)
            | inr _ =>
                let expected := computePresignedSigV4Signature r signedHeaders "UNSIGNED-PAYLOAD"
                  secret service region (Format_date signedTime) (Format_amz signedTime) in
                if String.eqb signature expected then None else Some mismatch
            end
        end
    end.

Definition Verify (now : Time) (r : Request) : option Error :=
  if negb (String.eqb (Query_Get (Query r) "X-Amz-Algorithm") "") then verifyPresigned now r
  else
    let authHdr := Header_Get r "Authorization" in
    if String.eqb authHdr ""
    then Some (forbidden "MissingAuthenticationToken" "Request is missing Authentication Token")
    else match parseAuthHeader authHdr with
    | inl e => Some (forbidden "InvalidSignatureException" e)
    | inr (scheme, parsed) =>
        if negb (String.eqb scheme "AWS4-HMAC-SHA256")
        then Some (forbidden "InvalidSignatureException" ("unsupported signing scheme: " +:+ scheme))
        else match parseAmzDate Quote (Header_Get r "X-Amz-Date") with
        | inl e => Some (forbidden "InvalidSignatureException" ("X-Amz-Date header: " +:+ e))
        | inr signedTime =>
            if skewed now signedTime (MaxClockSkew opts) then Some skew_error
            else match check_scope (Credential parsed) with
            | inl e => Some e
            | inr (secret, region, service) =>
                match readAndRestoreBody r with
                | inl e => Some (body_error e)
                | inr body =>
                    let sha := Header_Get r "X-Amz-Content-Sha256" in
                    let payloadHash := if String.eqb sha "" then sha256Hex body else sha in
                    let expected := computeSigV4Signature r (SignedHeaders parsed) payloadHash
                      secret service region (Format_date signedTime) (Format_amz signedTime) in
                    if String.eqb (Signature parsed) expected then None else Some mismatch
                end
            end
        end
    end.

(** ** middleware.go *)

Definition bypass (env : string → string) : bool :=
  String.eqb (env "SHIMANISM_TEST_UNAUTHENTICATED") "1" ||
  String.eqb (env "SHIMANISM_TEST_UNAUTHENTICATED_AWS") "1".

(** Whether the middleware hands the request to the next handler, or the
    status, type and message it emits. *)
Definition Middleware (env : string → string) (now : Time) (r : Request) : option (Z * string * string) :=
  if bypass env then None
  else match Verify now r with
       | Some e => Some (HTTPStatus e, Code e, Message e)
       | None => None
       end.
End verify.

Record StaticStore := mkStaticStore { AccessKey : string; Secret : string; SessionToken : string }.
Definition StaticStore_Lookup (s : StaticStore) : CredentialStore :=
  λ k, if String.eqb k (AccessKey s) then Some (Secret s, SessionToken s) else None.
