(* ===== verification/SigV4Props.v ===== *)
(** * The SigV4 verifier: properties

    What is signed determines the query and the encoded strings; an honestly
    signed request is accepted; what acceptance means; and two gaps: the clock
    check far in the future and the unchecked content hash. *)

From Stdlib Require Import Ascii.
From S2P Require Import Prelude GoStrings GoBytes GoCrypto GoTime GoHttp SigV4.

(** ** Percent-encoding *)

Lemma awsURIEncode_cons c s b :
  awsURIEncode (String c s) b =
    (if unreserved c then String c ""
     else if Ascii.eqb c "/" && negb b then String c "" else percent c) +:+ awsURIEncode s b.
Proof. done. Qed.

(** Decoding, as a specification. *)
Fixpoint pct_decode (s : string) : option string :=
  match s with
  | EmptyString => Some ""
  | String c s =>
      if Ascii.eqb c "%" then
        match s with
        | String h (String l s) =>
            match hex_val h, hex_val l with
            | Some h, Some l => String (ascii_of_N (Z.to_N (h * 16 + l))) <$> pct_decode s
            | _, _ => None
            end
        | _ => None
        end
      else String c <$> pct_decode s
  end.

Lemma percent_decode c t : pct_decode (percent c +:+ t) = String c <$> pct_decode t.
Proof. by destruct c as [[] [] [] [] [] [] [] []]. Qed.

Lemma unreserved_not_percent c : unreserved c = true → Ascii.eqb c "%" = false.
Proof. by destruct c as [[] [] [] [] [] [] [] []]. Qed.

Lemma decode_encode s b : pct_decode (awsURIEncode s b) = Some s.
Proof.
  induction s as [|c s IH]; [done|]. rewrite awsURIEncode_cons.
  destruct (unreserved c) eqn:Hu.
  - rewrite str_one_app. simpl. by rewrite (unreserved_not_percent c Hu), IH.
  - destruct (Ascii.eqb_spec c "/") as [->|Hne]; [destruct b|]; simpl andb; cbv iota.
    + rewrite percent_decode, IH. done.
    + rewrite str_one_app. simpl. by rewrite IH.
    + rewrite percent_decode, IH. done.
Qed.

Lemma awsURIEncode_inj s t b : awsURIEncode s b = awsURIEncode t b → s = t.
Proof. intros E. pose proof (decode_encode s b) as H. rewrite E, decode_encode in H. congruence. Qed.

(** The bytes that can appear in an encoded query string. *)
Lemma percent_mem a c : unreserved a = false → Ascii.eqb a "%" = false → str_mem a (percent c) = false.
Proof.
  intros Ha Hp. assert (∀ x, unreserved x = true → Ascii.eqb x a = false) as H.
  { intros x Hx. destruct (Ascii.eqb_spec x a) as [->|]; [congruence|done]. }
  assert (∃ h l, percent c = String "%" (String h (String l "")) ∧ unreserved h = true ∧ unreserved l = true)
    as (h & l & -> & Hh & Hl).
  { destruct c as [[] [] [] [] [] [] [] []]; eexists _, _; (split; [reflexivity|split; reflexivity]). }
  simpl. rewrite (H h Hh), (H l Hl), orb_false_r. destruct (Ascii.eqb_spec "%" a) as [<-|]; [done|done].
Qed.

Lemma encode_mem a s :
  unreserved a = false → Ascii.eqb a "%" = false → str_mem a (awsURIEncode s true) = false.
Proof.
  intros Ha Hp. induction s as [|c s IH]; [done|]. rewrite awsURIEncode_cons, str_mem_app, IH, orb_false_r.
  destruct (unreserved c) eqn:Hc.
  - simpl. rewrite orb_false_r. destruct (Ascii.eqb_spec c a) as [->|]; [congruence|done].
  - rewrite andb_false_r. by apply percent_mem.
Qed.

(** ** The canonical query *)

Lemma query_part_inj k v k' v' : query_part k v = query_part k' v' → k = k' ∧ v = v'.
Proof.
  unfold query_part. intros E.
  apply (str_sep_inj "=") in E as [E1 E2]; [|by apply encode_mem..].
  split; by eapply awsURIEncode_inj.
Qed.

Lemma query_part_mem k v : str_mem "&" (query_part k v) = false.
Proof. unfold query_part. rewrite !str_mem_app, !encode_mem by done. done. Qed.

Lemma query_part_nonempty k v : query_part k v ≠ "".
Proof.
  intros E. assert (String.length (query_part k v) = 0%nat) as Hl by (by rewrite E).
  unfold query_part in Hl. rewrite !str_length_app in Hl. simpl in Hl. lia.
Qed.

(** The sorted key-value pairs that are signed. *)
Definition signed_pairs (q : gmap string (list string)) : list (string * string) :=
  concat ((λ k, (k,.) <$> sort_Strings (default [] (q !! k))) <$>
          sort_Strings (fst <$> map_to_list q)).

Lemma concat_fmap_fmap {A B C} (f : A → list B) (g : B → C) l :
  concat ((λ x, g <$> f x) <$> l) = g <$> concat (f <$> l).
Proof. induction l as [|x l IH]; [done|]. rewrite !fmap_cons. cbn [concat]. by rewrite fmap_app, IH. Qed.

Lemma canonical_pairs q :
  canonicalQueryString q = Join ((λ kv, query_part kv.1 kv.2) <$> signed_pairs q) "&".
Proof.
  unfold canonicalQueryString, signed_pairs. destruct (size q =? 0)%nat eqn:E.
  - apply Nat.eqb_eq, map_size_empty_inv in E as ->. done.
  - rewrite fold_left_app_concat, app_nil_l, <-concat_fmap_fmap. do 2 f_equal.
    apply list_fmap_ext. intros i k _. by rewrite <-list_fmap_compose.
Qed.

(** A joined list of non-empty words without the separator can be split. *)
Lemma Join_words_inj l1 l2 c :
  Forall (λ w, w ≠ "" ∧ str_mem c w = false) l1 → Forall (λ w, w ≠ "" ∧ str_mem c w = false) l2 →
  Join l1 (String c "") = Join l2 (String c "") → l1 = l2.
Proof.
  assert (∀ l, Forall (λ w, w ≠ "" ∧ str_mem c w = false) l →
    Split (Join l (String c "")) c = match l with [] => [""] | _ => l end) as Hs.
  { intros l Hl. destruct l as [|w l]; [done|]. apply Split_Join; [done|].
    eapply Forall_impl; [exact Hl|]. by intros ? []. }
  intros H1 H2 E. pose proof (Hs l1 H1) as E1. rewrite E, (Hs l2 H2) in E1.
  destruct l1 as [|w1 l1], l2 as [|w2 l2]; try done; simplify_eq.
  - by apply Forall_cons in H2 as [[? _] _].
  - by apply Forall_cons in H1 as [[? _] _].
Qed.

Lemma fmap_inj_list {A B} (f : A → B) (l1 l2 : list A) :
  (∀ x y, f x = f y → x = y) → f <$> l1 = f <$> l2 → l1 = l2.
Proof. intros Hf. assert (Inj (=) (=) f) by exact Hf. apply (inj (fmap f)). Qed.

Lemma signed_pairs_inj q1 q2 :
  canonicalQueryString q1 = canonicalQueryString q2 → signed_pairs q1 = signed_pairs q2.
Proof.
  rewrite !canonical_pairs. intros E%Join_words_inj.
  - eapply fmap_inj_list; [|exact E]. intros [k v] [k' v']. simpl. intros [-> ->]%query_part_inj. done.
  - apply Forall_fmap, Forall_true. intros [k v]. split; [apply query_part_nonempty|apply query_part_mem].
  - apply Forall_fmap, Forall_true. intros [k v]. split; [apply query_part_nonempty|apply query_part_mem].
Qed.

(** The values of one key among the signed pairs. *)
Definition values_of (k : string) (ps : list (string * string)) : list string :=
  omap (λ p, if String.eqb p.1 k then Some p.2 else None) ps.

Lemma values_of_app k l1 l2 : values_of k (l1 ++ l2) = values_of k l1 ++ values_of k l2.
Proof. apply omap_app. Qed.

Lemma values_of_pair k k' vs : values_of k ((k',.) <$> vs) = if String.eqb k' k then vs else [].
Proof.
  unfold values_of. induction vs as [|v vs IH]; [by destruct (String.eqb k' k)|].
  rewrite fmap_cons. cbn [omap list_omap fst snd]. change (list_omap _ _ ?f ?l) with (omap f l).
  rewrite IH. by destruct (String.eqb k' k).
Qed.

Lemma values_of_signed q k : values_of k (signed_pairs q) = sort_Strings (default [] (q !! k)).
Proof.
  unfold signed_pairs. set (ks := sort_Strings _).
  assert (NoDup ks) as Hnd by (unfold ks; rewrite sort_Strings_perm; apply NoDup_fst_map_to_list).
  assert (k ∈ ks ↔ is_Some (q !! k)) as Hin.
  { unfold ks. rewrite sort_Strings_perm, list_elem_of_fmap. split.
    - intros ([k' v] & -> & H%elem_of_map_to_list). eauto.
    - intros [v Hv]. exists (k, v). by rewrite elem_of_map_to_list. }
  assert (values_of k (concat ((λ k, (k,.) <$> sort_Strings (default [] (q !! k))) <$> ks)) =
          if decide (k ∈ ks) then sort_Strings (default [] (q !! k)) else []) as ->.
  { clear Hin. clearbody ks. induction Hnd as [|k' ks Hni Hnd IH]; [done|].
    rewrite fmap_cons. cbn [concat]. rewrite values_of_app, values_of_pair, IH.
    destruct (String.eqb_spec k' k) as [->|Hne].
    - rewrite decide_False, app_nil_r, decide_True by (done || left). done.
    - destruct (decide (k ∈ ks)); [rewrite decide_True by (by right); done|].
      rewrite decide_False; [done|]. by intros [->|?]%elem_of_cons. }
  case_decide as H; [done|]. rewrite Hin, <-eq_None_not_Some in H. by rewrite H.
Qed.

(** ** Decimal numbers *)

Lemma int_digits_stop pos b : int_digits pos 0 b = b.
Proof. by destruct pos. Qed.

Lemma int_digits_itoa fuel pos n b :
  0 < n < 10 ^ Z.of_nat pos → n < 2 ^ Z.of_nat fuel → int_digits pos n b = itoa_go fuel n b.
Proof.
  revert fuel n b. induction pos as [|pos IH]; intros fuel n b Hn Hf; [simpl in Hn; lia|].
  destruct fuel as [|fuel]; [simpl in Hf; lia|]. cbn [int_digits itoa_go].
  assert ((0 <? n) = true) as -> by lia. rewrite Nat2Z.inj_succ, Z.pow_succ_r in Hn, Hf by lia.
  destruct (Z.ltb_spec n 10) as [Hlt|Hge].
  - rewrite Z.div_small, Z.mod_small, int_digits_stop by lia. done.
  - apply IH; [split|].
    + apply Z.div_str_pos. lia.
    + apply Z.div_lt_upper_bound; lia.
    + apply Z.div_lt_upper_bound; lia.
Qed.

Lemma int_digits_utoa n : 0 < n < 2 ^ 63 → int_digits 20 n "" = utoa n.
Proof.
  intros Hn. apply int_digits_itoa; [lia|].
  rewrite Nat2Z.inj_succ, Z2Nat.id by apply Z.log2_nonneg. apply Z.log2_spec. lia.
Qed.

Lemma intToString_Itoa n : in_s 64 n → n ≠ - 2 ^ 63 → intToString n = Itoa n.
Proof.
  unfold in_s. intros Hn Hmin. unfold intToString, Itoa. destruct (Z.eqb_spec n 0) as [->|Hz]; [done|].
  destruct (Z.ltb_spec n 0) as [Hneg|Hpos].
  - rewrite wrap_s_small by (unfold in_s; lia). by rewrite int_digits_utoa by lia.
  - by rewrite int_digits_utoa by lia.
Qed.

(** ** The clock check *)

Lemma skewed_exact now t max :
  0 <= max < 2 ^ 63 - 1 →
  skewed now t max = false ↔ - max <= now - instant t <= max ∨ 2 ^ 63 <= instant t - now.
Proof.
  intros Hm. unfold skewed, Sub. set (d := now - instant t).
  replace (instant t - now) with (- d) by (unfold d; lia). clearbody d.
  destruct (decide (d <= - 2 ^ 63)) as [Hlow|Hhigh].
  - assert (Z.max (- 2 ^ 63) (Z.min (2 ^ 63 - 1) d) = - 2 ^ 63) as -> by lia.
    change (wrap_s 64 (- - 2 ^ 63)) with (- 2 ^ 63). rewrite orb_false_iff, !Z.ltb_ge. lia.
  - set (s := Z.max _ _). assert (- 2 ^ 63 < s < 2 ^ 63 ∧ (d < 2 ^ 63 → s = d) ∧ (2 ^ 63 <= d → s = 2 ^ 63 - 1))
      as (Hs & H1 & H2) by (unfold s; lia).
    rewrite wrap_s_small by (unfold in_s; lia). rewrite orb_false_iff, !Z.ltb_ge. lia.
Qed.

(** ** Trimming and parsing a rendered header *)

Definition graphic : ascii → bool := between 33 126.

Lemma space_runes_not_graphic p : p ∈ space_runes → all_bytes graphic p = false.
Proof.
  assert (Forall (λ p, all_bytes graphic p = false) space_runes) as H.
  { apply (bool_decide_unpack _). vm_compute. exact I. }
  rewrite Forall_forall in H. apply H.
Qed.

Lemma find_first_None f l : (∀ x, x ∈ l → f x = false) → find_first f l = None.
Proof.
  intros H. unfold find_first. destruct (list_find _ l) as [[i x]|] eqn:E; [|done].
  apply list_find_Some in E as (Hi & Hx & _). rewrite H in Hx; [done|]. by eapply list_elem_of_lookup_2.
Qed.

Lemma no_space_prefix s : all_bytes graphic s = true → find_first (HasPrefix s) space_runes = None.
Proof.
  intros Hs. apply find_first_None. intros p Hp. apply not_true_is_false. intros [t ->]%HasPrefix_spec.
  rewrite all_bytes_app, space_runes_not_graphic in Hs by done. done.
Qed.

Lemma no_space_suffix s : all_bytes graphic s = true → find_first (HasSuffix s) space_runes = None.
Proof.
  intros Hs. apply find_first_None. intros p Hp. apply not_true_is_false. intros [t ->]%HasSuffix_spec.
  rewrite all_bytes_app, (space_runes_not_graphic p) in Hs by done. by rewrite andb_false_r in Hs.
Qed.

Lemma TrimSpace_graphic s : all_bytes graphic s = true → TrimSpace s = s.
Proof.
  intros Hs. unfold TrimSpace. assert (trim_left_go (String.length s) s = s) as ->.
  { destruct (String.length s); simpl; [done|]. by rewrite no_space_prefix. }
  destruct (String.length s); simpl; [done|]. by rewrite no_space_suffix.
Qed.

Lemma trim_left_graphic n s : all_bytes graphic s = true → trim_left_go n s = s.
Proof. intros Hs. destruct n; simpl; [done|]. by rewrite no_space_prefix. Qed.

Lemma TrimSpace_space_graphic s : all_bytes graphic s = true → TrimSpace (String " " s) = s.
Proof.
  intros Hs. unfold TrimSpace. cbn [String.length trim_left_go].
  assert (find_first (HasPrefix (String " " s)) space_runes = Some " ") as -> by reflexivity.
  change (str_drop (String.length " ") (String " " s)) with s. rewrite trim_left_graphic by done.
  destruct (String.length s); simpl; [done|]. by rewrite no_space_suffix.
Qed.

Definition clean (s : string) : Prop := all_bytes graphic s = true ∧ str_mem "," s = false ∧ s ≠ "".

Definition auth_header (cred sh sig : string) : string :=
  "AWS4-HMAC-SHA256 Credential=" +:+ cred +:+ ", SignedHeaders=" +:+ sh +:+ ", Signature=" +:+ sig.

Lemma split_field p k v :
  str_mem "=" k = false →
  match IndexByte (k +:+ String "=" v) "=" with
  | None => p
  | Some eq => set_field p (str_take eq (k +:+ String "=" v)) (str_drop (S eq) (k +:+ String "=" v))
  end = set_field p k v.
Proof.
  intros Hk. rewrite IndexByte_app by done. rewrite str_take_app. f_equal.
  assert (k +:+ String "=" v = (k +:+ "=") +:+ v) as -> by (by rewrite str_app_assoc).
  replace (S (String.length k)) with (String.length (k +:+ "="))
    by (rewrite str_length_app; simpl; lia). apply str_drop_app.
Qed.

Lemma parse_field_graphic p k v :
  all_bytes graphic (k +:+ String "=" v) = true → str_mem "=" k = false →
  parse_field p (k +:+ String "=" v) = set_field p k v ∧
  parse_field p (String " " (k +:+ String "=" v)) = set_field p k v.
Proof.
  intros Hg Hk. unfold parse_field. rewrite TrimSpace_graphic, TrimSpace_space_graphic by done.
  by rewrite split_field.
Qed.

Lemma parse_rendered cred sh sig :
  clean cred → clean sh → clean sig →
  parseAuthHeader (auth_header cred sh sig) = inr ("AWS4-HMAC-SHA256", mkParsedAuth cred sh sig).
Proof.
  intros (Hc & Hc2 & Hc3) (Hh & Hh2 & Hh3) (Hg & Hg2 & Hg3). unfold parseAuthHeader.
  set (f1 := "Credential" +:+ String "=" cred). set (f2 := "SignedHeaders" +:+ String "=" sh).
  set (f3 := "Signature" +:+ String "=" sig).
  assert (auth_header cred sh sig = "AWS4-HMAC-SHA256" +:+ String " " (f1 +:+ String "," (String " " f2 +:+
    String "," (String " " f3)))) as E by (unfold auth_header, f1, f2, f3; by rewrite !str_app_assoc).
  rewrite E, IndexByte_app by done. rewrite str_take_app.
  change (str_drop (S (String.length "AWS4-HMAC-SHA256")) ("AWS4-HMAC-SHA256" +:+ String " " ?x)) with x.
  assert (str_mem "," f1 = false) by (unfold f1; rewrite str_mem_app; simpl; by rewrite Hc2).
  assert (str_mem "," f2 = false) by (unfold f2; rewrite str_mem_app; simpl; by rewrite Hh2).
  assert (str_mem "," f3 = false) by (unfold f3; rewrite str_mem_app; simpl; by rewrite Hg2).
  rewrite Split_app, Split_app, Split_plain by done. cbn [fold_left].
  assert (∀ p, parse_field p f1 = set_field p "Credential" cred) as ->
    by (intros p; apply parse_field_graphic; [rewrite all_bytes_app; simpl; by rewrite Hc|done]).
  assert (∀ p, parse_field p (String " " f2) = set_field p "SignedHeaders" sh) as ->
    by (intros p; apply parse_field_graphic; [rewrite all_bytes_app; simpl; by rewrite Hh|done]).
  assert (∀ p, parse_field p (String " " f3) = set_field p "Signature" sig) as ->
    by (intros p; apply parse_field_graphic; [rewrite all_bytes_app; simpl; by rewrite Hg|done]).
  cbn. destruct (String.eqb_spec cred ""), (String.eqb_spec sh ""), (String.eqb_spec sig ""); done.
Qed.

Lemma hex_clean l : l ≠ [] → clean (hex_EncodeToString l).
Proof.
  intros Hl. split_and!.
  - clear Hl. assert (∀ n, 0 <= n < 16 → graphic (hex_digit n) = true) as H.
    { intros n Hn. assert (∃ k, n = Z.of_nat k ∧ (k < 16)%nat) as (k & -> & Hk) by (exists (Z.to_nat n); lia).
      do 16 (destruct k as [|k]; [done|]). lia. }
    induction l as [|b l IH]; [done|]. cbn [hex_EncodeToString all_bytes].
    destruct (byte_hex_range b). by rewrite !H, IH by done.
  - by apply hex_Encode_mem.
  - by destruct l.
Qed.

Lemma sign_clean cr secret service region date full :
  clean (sign_canonical cr secret service region date full).
Proof.
  unfold sign_canonical. cbv zeta. apply hex_clean. intros E%(f_equal length).
  by rewrite hmac_sha256_length in E.
Qed.

(** The scope fields of a credential. *)
Definition scope_word (s : string) : Prop :=
  all_bytes graphic s = true ∧ str_mem "," s = false ∧ str_mem "/" s = false.
Definition credential (ak date region service : string) : string :=
  ak +:+ "/" +:+ date +:+ "/" +:+ region +:+ "/" +:+ service +:+ "/aws4_request".

Lemma credential_clean ak date region service :
  scope_word ak → scope_word date → scope_word region → scope_word service →
  clean (credential ak date region service).
Proof.
  intros (H1 & H2 & _) (H3 & H4 & _) (H5 & H6 & _) (H7 & H8 & _). unfold credential. split_and!.
  - rewrite !all_bytes_app, H1, H3, H5, H7. done.
  - rewrite !str_mem_app, H2, H4, H6, H8. done.
  - intros E. assert (String.length (ak +:+ "/" +:+ date +:+ "/" +:+ region +:+ "/" +:+ service +:+
      "/aws4_request") = 0%nat) as H by (by rewrite E). rewrite !str_length_app in H. simpl in H. lia.
Qed.

Lemma credential_Split ak date region service :
  scope_word ak → scope_word date → scope_word region → scope_word service →
  Split (credential ak date region service) "/" = [ak; date; region; service; "aws4_request"].
Proof.
  intros (_ & _ & H1) (_ & _ & H2) (_ & _ & H3) (_ & _ & H4). unfold credential.
  change ("/aws4_request") with (String "/" "aws4_request").
  rewrite !str_one_app, !Split_app by done. done.
Qed.

(** ** Properties *)

(** The hash that the canonical request ends with. *)
Definition payload_hash (r : Request) (body : bytes) : string :=
  if String.eqb (Header_Get r "X-Amz-Content-Sha256") "" then sha256Hex body
  else Header_Get r "X-Amz-Content-Sha256".

Section acceptance.
Context (store : CredentialStore) (Quote : string → string) (opts : Options) (now : Time) (r : Request).

(** What an accepted header-signed request satisfies, up to the clock check. *)
Definition well_signed (p : parsedAuth) (t : civil) (ak d secret tok : string) (body : bytes) : Prop :=
  Header_Get r "Authorization" ≠ "" ∧
  parseAuthHeader (Header_Get r "Authorization") = inr ("AWS4-HMAC-SHA256", p) ∧
  parseAmzDate Quote (Header_Get r "X-Amz-Date") = inr t ∧
  Split (Credential p) "/" = [ak; d; Region opts; Service opts; "aws4_request"] ∧
  Lookup ak = Some (secret, tok) ∧ readAndRestoreBody r = inr body ∧
  Signature p = computeSigV4Signature r (SignedHeaders p) (payload_hash r body) secret
    (Service opts) (Region opts) (Format_date t) (Format_amz t).

(** A branch of Verify that returns an error contradicts well_signed. *)
Ltac refuse := split; [done|intros (? & ? & ? & ? & ? & ? & ? & (_ & ? & ? & ? & ? & ? & ?) & ?);
  repeat match goal with
  | H : inl _ = inr _ |- _ => discriminate H
  | H : inr _ = inr _ |- _ => injection H; clear H; intros
  end; subst; congruence].

Lemma Verify_None_iff :
  Query_Get (Query r) "X-Amz-Algorithm" = "" →
  Verify Quote opts now r = None ↔
  ∃ p t ak d secret tok body,
    well_signed p t ak d secret tok body ∧ skewed now t (MaxClockSkew opts) = false.
Proof.
  intros Hq. unfold Verify, well_signed. rewrite Hq. cbn [negb String.eqb].
  destruct (String.eqb_spec (Header_Get r "Authorization") "") as [E|Hne].
  { rewrite E. split; [done|]. by intros (? & ? & ? & ? & ? & ? & ? & (? & _) & _). }
  destruct (parseAuthHeader _) as [e|[scheme p]]; [refuse|].
  destruct (String.eqb_spec scheme "AWS4-HMAC-SHA256") as [->|Hs]; cbn [negb]; [|refuse].
  destruct (parseAmzDate Quote _) as [e|t]; [refuse|].
  destruct (skewed now t (MaxClockSkew opts)) eqn:Hsk.
  { refuse. }
  unfold check_scope. destruct (Split (Credential p) "/") as [|ak [|d [|rg [|sv [|l [|? ?]]]]]] eqn:Esp;
    try refuse.
  destruct (String.eqb_spec l "aws4_request") as [->|]; cbn [negb]; [|refuse].
  destruct (String.eqb_spec rg (Region opts)) as [->|]; cbn [negb orb]; [|refuse].
  destruct (String.eqb_spec sv (Service opts)) as [->|]; cbn [negb orb]; [|refuse].
  destruct (Lookup ak) as [[secret tok]|] eqn:El; [|refuse].
  destruct (readAndRestoreBody r) as [e|body] eqn:Eb; [refuse|].
  fold (payload_hash r body).
  destruct (String.eqb_spec (Signature p) (computeSigV4Signature r (SignedHeaders p) (payload_hash r body)
    secret (Service opts) (Region opts) (Format_date t) (Format_amz t))) as [E|Hne'].
  - split; [|done]. intros _. exists p, t, ak, d, secret, tok, body. done.
  - refuse.
Qed.

(** C29: Verify accepts a header-signed request exactly when the Authorization
    header parses with the AWS4-HMAC-SHA256 scheme, the date parses, the
    credential scope is this frontend's region and service, the access key is
    known, the body can be read, the signature is the one computed with that
    key's secret, and the clock check passes.  The clock check accepts a signed
    time within MaxClockSkew of now, and also every time 2^63 ns (292 years) or
    more in the future, where time.Since saturates and its negation overflows. *)
Theorem Verify_accepts_iff :
  0 <= MaxClockSkew opts < 2 ^ 63 - 1 → Query_Get (Query r) "X-Amz-Algorithm" = "" →
  Verify Quote opts now r = None ↔
  ∃ p t ak d secret tok body, well_signed p t ak d secret tok body ∧
    (- MaxClockSkew opts <= now - instant t <= MaxClockSkew opts ∨ 2 ^ 63 <= instant t - now).
Proof. intros Hm Hq. setoid_rewrite <-(skewed_exact now _ _ Hm). by apply Verify_None_iff. Qed.

(** An honestly signed request is accepted: if the Authorization header is
    the rendering of a credential of this frontend's scope, a list of signed
    headers and the signature that the algorithm computes for the request with
    the key's secret, and the signed time is within MaxClockSkew, Verify
    returns nil. *)
Theorem signed_request_accepted (t : civil) (ak date sh secret tok : string) (body : bytes) :
  0 <= MaxClockSkew opts < 2 ^ 63 - 1 → Query_Get (Query r) "X-Amz-Algorithm" = "" →
  Parse_amz (Header_Get r "X-Amz-Date") = Some t →
  - MaxClockSkew opts <= now - instant t <= MaxClockSkew opts →
  Lookup ak = Some (secret, tok) → readAndRestoreBody r = inr body →
  scope_word ak → scope_word date → scope_word (Region opts) → scope_word (Service opts) → clean sh →
  Header_Get r "Authorization" =
    auth_header (credential ak date (Region opts) (Service opts)) sh
      (computeSigV4Signature r sh (payload_hash r body) secret (Service opts) (Region opts)
         (Format_date t) (Format_amz t)) →
  Verify Quote opts now r = None.
Proof.
  intros Hm Hq Ht Hnow Hl Hb Ha Hd Hr Hsv Hsh Hauth. apply Verify_None_iff; [done|].
  set (sig := computeSigV4Signature _ _ _ _ _ _ _ _) in Hauth.
  exists (mkParsedAuth (credential ak date (Region opts) (Service opts)) sh sig), t, ak, date, secret, tok, body.
  split; [|apply skewed_exact; auto]. unfold well_signed. rewrite Hauth. split_and!; try done.
  - apply parse_rendered; [by apply credential_clean|done|apply sign_clean].
  - unfold parseAmzDate. rewrite Ht. destruct (String.eqb_spec (Header_Get r "X-Amz-Date") "") as [E|]; [|done].
    by rewrite E in Ht.
  - by apply credential_Split.
Qed.

(** Only the body reader differs between a request and [with_body r b]. *)
Lemma Header_Get_with_body b k : Header_Get (with_body r b) k = Header_Get r k.
Proof. reflexivity. Qed.
Lemma Query_with_body b : Query (with_body r b) = Query r.
Proof. reflexivity. Qed.
Lemma readAndRestoreBody_Reads b : readAndRestoreBody (with_body r (Some (Reads b))) = inr b.
Proof. reflexivity. Qed.
Lemma compute_with_body b sh ph sec sv rg d f :
  computeSigV4Signature (with_body r b) sh ph sec sv rg d f = computeSigV4Signature r sh ph sec sv rg d f.
Proof. unfold computeSigV4Signature. apply (f_equal (λ c, sign_canonical c sec sv rg d f)). reflexivity. Qed.
Lemma compute_presigned_with_body b sh ph sec sv rg d f :
  computePresignedSigV4Signature (with_body r b) sh ph sec sv rg d f =
  computePresignedSigV4Signature r sh ph sec sv rg d f.
Proof.
  unfold computePresignedSigV4Signature. apply (f_equal (λ c, sign_canonical c sec sv rg d f)). reflexivity.
Qed.

(** The body is not authenticated when the request carries an
    X-Amz-Content-Sha256 header: its value is signed but never compared with
    the body, so replacing the body does not change Verify's answer. *)
Theorem content_hash_is_not_checked (b1 b2 : bytes) :
  Header_Get r "X-Amz-Content-Sha256" ≠ "" →
  Verify Quote opts now (with_body r (Some (Reads b1))) =
  Verify Quote opts now (with_body r (Some (Reads b2))).
Proof.
  intros Hsha. apply String.eqb_neq in Hsha. unfold Verify, verifyPresigned.
  rewrite !Query_with_body, !Header_Get_with_body, !readAndRestoreBody_Reads, Hsha.
  repeat (rewrite ?compute_with_body, ?compute_presigned_with_body;
    match goal with
    | |- ?x = ?y => constr_eq x y; exact eq_refl
    | |- context [match ?x with _ => _ end] => destruct x
    end).
Qed.
End acceptance.

(** Two requests whose canonical query strings are equal have, for every
    parameter, the same values up to order: percent-encoding and the separators
    are unambiguous, so a signature covers the query. *)
Theorem canonicalQueryString_injective (q1 q2 : gmap string (list string)) :
  canonicalQueryString q1 = canonicalQueryString q2 →
  ∀ k, default [] (q1 !! k) ≡ₚ default [] (q2 !! k).
Proof.
  intros E%signed_pairs_inj k.
  rewrite <-(sort_Strings_perm (default [] (q1 !! k))), <-(sort_Strings_perm (default [] (q2 !! k))).
  by rewrite <-!values_of_signed, E.
Qed.

(** [intToString] agrees with the decimal rendering on every int64 but the
    smallest, for which negation overflows and it returns a lone dash. *)
Theorem intToString_decimal (n : Z) :
  in_s 64 n → intToString n = if n =? - 2 ^ 63 then "-" else Itoa n.
Proof.
  intros Hn. destruct (Z.eqb_spec n (- 2 ^ 63)) as [->|Hne]; [reflexivity|by apply intToString_Itoa].
Qed.

(** ** Witnesses *)

(** The "get-vanilla" case of the AWS SigV4 test suite. *)
Definition vanilla_headers : gmap string (list string) :=
  {["X-Amz-Date" := ["20150830T123600Z"]]}.
Definition vanilla (headers : gmap string (list string)) : Request :=
  mkRequest "GET" "example.amazonaws.com" "" "/" "" "/" "" ∅ headers (-1) None.
Definition vanilla_secret : string := "wJalrXUtnFEMI/K7MDENG+bPxRfiCYEXAMPLEKEY".
Definition vanilla_signature : string :=
  "5fa00fa31553b73ebf1942676e86291e8372ff2a2260956d9b8aae1d763fbf31".

Definition vanilla_sign (r : Request) : string :=
  computeSigV4Signature r "host;x-amz-date" (sha256Hex []) vanilla_secret "service" "us-east-1"
    "20150830" "20150830T123600Z".

Example aws_get_vanilla : vanilla_sign (vanilla vanilla_headers) = vanilla_signature.
Proof. vm_compute. reflexivity. Qed.

Definition vanilla_auth : string :=
  auth_header (credential "AKIDEXAMPLE" "20150830" "us-east-1" "service") "host;x-amz-date" vanilla_signature.
Definition vanilla_signed : Request :=
  vanilla (<["Authorization" := [vanilla_auth]]> vanilla_headers).
#[local] Instance vanilla_store : CredentialStore :=
  StaticStore_Lookup (mkStaticStore "AKIDEXAMPLE" vanilla_secret "").
Definition vanilla_opts : Options := New (mkOptions "service" "us-east-1" 0).
Definition vanilla_time : civil := mkCivil 2015 8 30 12 36 0 0.

Lemma vanilla_sign_again : vanilla_sign vanilla_signed = vanilla_signature.
Proof. vm_compute. reflexivity. Qed.

Lemma signed_request_accepted_witness :
  Verify (λ s, s) vanilla_opts (instant vanilla_time + Minute) vanilla_signed = None.
Proof.
  apply (signed_request_accepted vanilla_store (λ s, s) vanilla_opts (instant vanilla_time + Minute)
    vanilla_signed vanilla_time "AKIDEXAMPLE" "20150830" "host;x-amz-date" vanilla_secret "" []).
  - vm_compute. split; [discriminate|reflexivity].
  - reflexivity.
  - vm_compute. reflexivity.
  - vm_compute. split; discriminate.
  - vm_compute. reflexivity.
  - reflexivity.
  - split_and!; reflexivity.
  - split_and!; reflexivity.
  - split_and!; reflexivity.
  - split_and!; reflexivity.
  - split_and!; [reflexivity|reflexivity|discriminate].
  - change (Header_Get vanilla_signed "Authorization") with vanilla_auth.
    unfold vanilla_auth. f_equal.
Defined.

Lemma Verify_accepts_iff_witness :
  ∃ p t ak d secret tok body,
    well_signed vanilla_store (λ s, s) vanilla_opts vanilla_signed p t ak d secret tok body ∧
    (- (15 * Minute) <= instant vanilla_time + Minute - instant t <= 15 * Minute ∨
     2 ^ 63 <= instant t - (instant vanilla_time + Minute)).
Proof.
  apply (Verify_accepts_iff vanilla_store (λ s, s) vanilla_opts (instant vanilla_time + Minute) vanilla_signed).
  - vm_compute. split; [discriminate|reflexivity].
  - reflexivity.
  - vm_compute. reflexivity.
Defined.

Lemma content_hash_is_not_checked_witness :
  let r := vanilla (<["X-Amz-Content-Sha256" := ["abc"]]> vanilla_headers) in
  Verify (λ s, s) vanilla_opts 0 (with_body r (Some (Reads (bytes_of_string "good")))) =
  Verify (λ s, s) vanilla_opts 0 (with_body r (Some (Reads (bytes_of_string "evil")))).
Proof.
  apply (content_hash_is_not_checked vanilla_store (λ s, s) vanilla_opts 0
    (vanilla (<["X-Amz-Content-Sha256" := ["abc"]]> vanilla_headers))).
  vm_compute. discriminate.
Defined.

Lemma canonicalQueryString_injective_witness :
  default [] (({["a" := ["2"; "1"]]} : gmap string (list string)) !! "a") ≡ₚ ["1"; "2"].
Proof.
  change ["1"; "2"] with (default [] (({["a" := ["1"; "2"]]} : gmap string (list string)) !! "a")).
  apply (canonicalQueryString_injective {["a" := ["2"; "1"]]} {["a" := ["1"; "2"]]}).
  vm_compute. reflexivity.
Defined.

