(* ===== verification/NoSql.v ===== *)
(** * NoSQL tables: domain types, errors and the in-process backend

    Models [internal/nosql/domain] and [services/nosql/backends/inmem].  An item
    is stored under a string made of its partition and sort key values.  The
    Tags map of a returned table is the stored one (nothing in the backend
    writes to it: UpdateTableTags replaces the map), so values model it. *)

From S2P Require Import Prelude GoStrings GoBytes.

(** ** domain/errors.go *)

Inductive Kind :=
  | KindUnknown | KindNoSuchTable | KindTableAlreadyExists | KindTableNotEmpty | KindNoSuchItem
  | KindInvalidArgument | KindUnsupported.
#[export] Instance Kind_eq_dec : EqDecision Kind.
Proof. solve_decision. Defined.

Definition Kind_String (k : Kind) : string :=
  match k with
  | KindNoSuchTable => "NoSuchTable"
  | KindTableAlreadyExists => "TableAlreadyExists"
  | KindTableNotEmpty => "TableNotEmpty"
  | KindNoSuchItem => "NoSuchItem"
  | KindInvalidArgument => "InvalidArgument"
  | KindUnsupported => "Unsupported"
  | KindUnknown => "Unknown"
  end.

Inductive error :=
  | Plain (text : string) (wrapped : option error)
  | DomainError (Kind_ : Kind) (Name_ Message : string) (Inner : option error).

Definition Error_text (e : error) : string :=
  match e with
  | Plain t _ => t
  | DomainError k n m _ =>
      if negb (String.eqb n "") then "nosql " +:+ Kind_String k +:+ ": " +:+ n +:+ ": " +:+ m
      else "nosql " +:+ Kind_String k +:+ ": " +:+ m
  end.
Definition Unwrap (e : error) : option error :=
  match e with Plain _ i => i | DomainError _ _ _ i => i end.

Definition NoSuchTable (name : string) : error := DomainError KindNoSuchTable name "table not found" None.
Definition TableAlreadyExists (name : string) : error :=
  DomainError KindTableAlreadyExists name "table already exists" None.
Definition TableNotEmpty (name : string) : error :=
  DomainError KindTableNotEmpty name "table still has items" None.
Definition NoSuchItem (table keyDesc : string) : error :=
  DomainError KindNoSuchItem (table +:+ "/" +:+ keyDesc) "item not found" None.
Definition InvalidArgument (msg : string) : error := DomainError KindInvalidArgument "" msg None.
Definition Unsupported (feature : string) : error :=
  DomainError KindUnsupported "" (feature +:+ " is not in the cross-cloud NoSQL intersection") None.

(** [errors.As]: the first domain error of the chain. *)
Fixpoint errors_As (e : error) : option Kind :=
  match e with
  | DomainError k _ _ _ => Some k
  | Plain _ None => None
  | Plain _ (Some w) => errors_As w
  end.
Definition IsKind (err : option error) (kind : Kind) : bool :=
  match err ≫= errors_As with Some k => bool_decide (k = kind) | None => false end.

Abbreviation result := (outcome error).

(** ** domain/domain.go *)

Inductive ValueType := ValueUnknown | ValueString | ValueNumber | ValueBool | ValueBytes | ValueNull.
#[export] Instance ValueType_eq_dec : EqDecision ValueType.
Proof. solve_decision. Defined.

Definition ValueType_String (t : ValueType) : string :=
  match t with
  | ValueString => "string" | ValueNumber => "number" | ValueBool => "bool" | ValueBytes => "bytes"
  | ValueNull => "null" | ValueUnknown => "unknown"
  end.

Record Value := mkValue { Type_ : ValueType; Str : string; Num : string; Bin : slice; Bool_ : bool }.
Definition zeroValue : Value := mkValue ValueUnknown "" "" None false.

(** [append([]byte(nil), b...)]: nil when there is nothing to append. *)
Definition append_nil (b : slice) : slice :=
  match default [] b with [] => None | l => Some l end.

Definition StringValue (s : string) : Value := mkValue ValueString s "" None false.
Definition NumberValue (n : string) : Value := mkValue ValueNumber "" n None false.
Definition BoolValue (b : bool) : Value := mkValue ValueBool "" "" None b.
Definition BytesValue (b : slice) : Value := mkValue ValueBytes "" "" (append_nil b) false.
Definition NullValue : Value := mkValue ValueNull "" "" None false.

Abbreviation attrs := (option (gmap string Value)).
Record Key := mkKey { PartitionKey : Value; SortKey : Value }.
Record Item := mkItem { Attributes : attrs }.
Record Table := mkTable {
  Name : string; PartitionKeyName : string; SortKeyName : string; Description : string;
  Tags : strmap; CreatedAt : Time }.
Record CreateTableOptions := mkCreateTableOptions {
  ct_PartitionKeyName : string; ct_SortKeyName : string; ct_Description : string; ct_Tags : strmap }.
Record ListTablesOptions := mkListTablesOptions {
  lt_NamePrefix : string; lt_PageSize : Z; lt_PageToken : string }.
Record ListTablesResult := mkListTablesResult { ltr_Tables : list Table; ltr_NextPageToken : string }.
Record ScanOptions := mkScanOptions { sc_Limit : Z; sc_PageToken : string }.
Record ScanResult := mkScanResult { scr_Items : list Item; scr_NextPageToken : string }.
Record QueryOptions := mkQueryOptions { qo_Limit : Z; qo_PageToken : string; qo_SortKeyPrefix : string }.
Record QueryResult := mkQueryResult { qr_Items : list Item; qr_NextPageToken : string }.

(** ** inmem.go *)

Record tableState := mkTableState { table : Table; items : gmap string Item }.
Record Backend := mkBackend { tables : gmap string tableState }.
Definition New : Backend := mkBackend ∅.

Definition encodeValue (v : Value) : string :=
  match Type_ v with
  | ValueString => "s:" +:+ Str v
  | ValueNumber => "n:" +:+ Num v
  | ValueBool => if Bool_ v then "b:1" else "b:0"
  | ValueBytes => "x:" +:+ base64_EncodeToString (default [] (Bin v))
  | ValueNull => "_:null"
  | ValueUnknown => "_:unknown"
  end.
Definition encodeKey (k : Key) : string :=
  encodeValue (PartitionKey k) +:+ "|" +:+ encodeValue (SortKey k).

Definition copyTags (m : strmap) : strmap :=
  match m with None => None | Some m => Some (put_all m ∅) end.
Definition copy_value (v : Value) : Value :=
  if decide (Type_ v = ValueBytes) then mkValue (Type_ v) (Str v) (Num v) (append_nil (Bin v)) (Bool_ v)
  else v.
Definition copyAttrs (m : attrs) : attrs :=
  match m with
  | None => None
  | Some m => Some (map_fold (λ k v out, <[k := copy_value v]> out) ∅ m)
  end.

Definition set_table (b : Backend) (name : string) (st : tableState) : Backend :=
  mkBackend (<[name := st]> (tables b)).

Definition CreateTable (now : Time) (name : string) (opt : CreateTableOptions) (b : Backend)
    : Backend * result Table :=
  if String.eqb name "" then (b, Err (InvalidArgument "table name required"))
  else if String.eqb (ct_PartitionKeyName opt) ""
  then (b, Err (InvalidArgument "partition key name required"))
  else match tables b !! name with
  | Some _ => (b, Err (TableAlreadyExists name))
  | None =>
      let t := mkTable name (ct_PartitionKeyName opt) (ct_SortKeyName opt) (ct_Description opt)
                 (copyTags (ct_Tags opt)) now in
      (set_table b name (mkTableState t ∅), Ok t)
  end.

Definition GetTable (name : string) (b : Backend) : Backend * result Table :=
  match tables b !! name with
  | None => (b, Err (NoSuchTable name))
  | Some st => (b, Ok (table st))
  end.

Definition UpdateTableTags (name : string) (tags : strmap) (b : Backend) : Backend * result unit :=
  match tables b !! name with
  | None => (b, Err (NoSuchTable name))
  | Some st =>
      let t := table st in
      (set_table b name
         (mkTableState (mkTable (Name t) (PartitionKeyName t) (SortKeyName t) (Description t)
                          (copyTags tags) (CreatedAt t)) (items st)), Ok ())
  end.

Definition DeleteTable (name : string) (force : bool) (b : Backend) : Backend * result unit :=
  match tables b !! name with
  | None => (b, Err (NoSuchTable name))
  | Some st =>
      if negb force && (0 <? size (items st))%nat then (b, Err (TableNotEmpty name))
      else (mkBackend (delete name (tables b)), Ok ())
  end.

Definition ListTables (opt : ListTablesOptions) (b : Backend) : Backend * result ListTablesResult :=
  let names := sort_Strings
    (filter (λ n, lt_NamePrefix opt = "" ∨ HasPrefix n (lt_NamePrefix opt) = true)
       (fst <$> map_to_list (tables b))) in
  (b, Ok (mkListTablesResult (omap (λ n, table <$> tables b !! n) names) "")).

(** The key of an item under the table's configured names. *)
Definition required (m : attrs) (name what : string) : result Value :=
  match m ≫= lookup name with
  | None => Err (InvalidArgument ("item missing " +:+ what +:+ " key attribute " +:+ name))
  | Some v =>
      if decide (Type_ v = ValueUnknown)
      then Err (InvalidArgument ("item missing " +:+ what +:+ " key attribute " +:+ name))
      else Ok v
  end.
Definition extractKey (t : Table) (item : Item) : result Key :=
  let? pk := required (Attributes item) (PartitionKeyName t) "partition" in
  if String.eqb (SortKeyName t) "" then Ok (mkKey pk zeroValue)
  else let? sk := required (Attributes item) (SortKeyName t) "sort" in Ok (mkKey pk sk).

(** [None] is a nil error. *)
Definition validateKey (t : Table) (k : Key) : option error :=
  if decide (Type_ (PartitionKey k) = ValueUnknown) then Some (InvalidArgument "partition key required")
  else if String.eqb (SortKeyName t) "" && bool_decide (Type_ (SortKey k) ≠ ValueUnknown)
  then Some (InvalidArgument ("table " +:+ Name t +:+ " has no sort key but one was supplied"))
  else if negb (String.eqb (SortKeyName t) "") && bool_decide (Type_ (SortKey k) = ValueUnknown)
  then Some (InvalidArgument ("table " +:+ Name t +:+ " requires a sort key"))
  else None.

Definition PutItem (name : string) (item : Item) (b : Backend) : Backend * result unit :=
  match tables b !! name with
  | None => (b, Err (NoSuchTable name))
  | Some st =>
      match extractKey (table st) item with
      | Ok key =>
          (set_table b name
             (mkTableState (table st)
                (<[encodeKey key := mkItem (copyAttrs (Attributes item))]> (items st))), Ok ())
      | Err e => (b, Err e)
      | Panic => (b, Panic)
      end
  end.

Definition GetItem (name : string) (key : Key) (b : Backend) : Backend * result Item :=
  match tables b !! name with
  | None => (b, Err (NoSuchTable name))
  | Some st =>
      match validateKey (table st) key with
      | Some e => (b, Err e)
      | None =>
          match items st !! encodeKey key with
          | None => (b, Err (NoSuchItem name (encodeKey key)))
          | Some it => (b, Ok (mkItem (copyAttrs (Attributes it))))
          end
      end
  end.

Definition DeleteItem (name : string) (key : Key) (b : Backend) : Backend * result unit :=
  match tables b !! name with
  | None => (b, Err (NoSuchTable name))
  | Some st =>
      match validateKey (table st) key with
      | Some e => (b, Err e)
      | None =>
          let enc := encodeKey key in
          match items st !! enc with
          | None => (b, Err (NoSuchItem name enc))
          | Some _ => (set_table b name (mkTableState (table st) (delete enc (items st))), Ok ())
          end
      end
  end.

(** The paging loop of Scan and Query over the sorted keys: the items, and the
    key at which the limit stopped it. *)
Fixpoint page_loop (m : gmap string Item) (limit : Z) (keys : list string) (out : list Item)
    : list Item * string :=
  match keys with
  | [] => (out, "")
  | k :: keys =>
      if (0 <? limit) && (limit <=? Z.of_nat (length out)) then (out, k)
      else page_loop m limit keys
             (out ++ [mkItem (copyAttrs (Attributes (default (mkItem None) (m !! k))))])
  end.

Definition Scan (name : string) (opt : ScanOptions) (b : Backend) : Backend * result ScanResult :=
  match tables b !! name with
  | None => (b, Err (NoSuchTable name))
  | Some st =>
      let keys := sort_Strings (fst <$> map_to_list (items st)) in
      let '(out, next) := page_loop (items st) (sc_Limit opt) keys [] in
      (b, Ok (mkScanResult out next))
  end.

(** The test that keeps a stored key in a query. *)
Definition query_match (pk : Value) (sortPrefix k : string) : bool :=
  let prefix := encodeValue pk +:+ "|" in
  HasPrefix k prefix &&
  (String.eqb sortPrefix "" || HasPrefix (TrimPrefix k prefix) ("s:" +:+ sortPrefix)).

Definition Query (name : string) (pk : Value) (opt : QueryOptions) (b : Backend)
    : Backend * result QueryResult :=
  match tables b !! name with
  | None => (b, Err (NoSuchTable name))
  | Some st =>
      let keys := sort_Strings
        (filter (λ k, query_match pk (qo_SortKeyPrefix opt) k = true) (fst <$> map_to_list (items st))) in
      let '(out, next) := page_loop (items st) (qo_Limit opt) keys [] in
      (b, Ok (mkQueryResult out next))
  end.

(** ** The interface that the frontends are written against

    [domain.NoSQL]; a creation reads the clock. *)

Class NoSQL_ (St : Type) := {
  n_CreateTable : Time → string → CreateTableOptions → St → St * result Table;
  n_GetTable : string → St → St * result Table;
  n_UpdateTableTags : string → strmap → St → St * result unit;
  n_DeleteTable : string → bool → St → St * result unit;
  n_ListTables : ListTablesOptions → St → St * result ListTablesResult;
  n_PutItem : string → Item → St → St * result unit;
  n_GetItem : string → Key → St → St * result Item;
  n_DeleteItem : string → Key → St → St * result unit;
  n_Scan : string → ScanOptions → St → St * result ScanResult;
  n_Query : string → Value → QueryOptions → St → St * result QueryResult }.

#[export] Instance inmem_nosql : NoSQL_ Backend := {|
  n_CreateTable := CreateTable;
  n_GetTable := GetTable;
  n_UpdateTableTags := UpdateTableTags;
  n_DeleteTable := DeleteTable;
  n_ListTables := ListTables;
  n_PutItem := PutItem;
  n_GetItem := GetItem;
  n_DeleteItem := DeleteItem;
  n_Scan := Scan;
  n_Query := Query |}.
