(* ===== verification/NoSqlProps.v ===== *)
(** * NoSQL tables: properties

    The backend refines tables that are finite maps from composite keys, as long
    as the partition key values contain no bar; with a bar two keys can collide;
    a scan with a limit never gets past its first page. *)

From Stdlib Require Import Ascii.
From S2P Require Import Prelude GoStrings GoBytes NoSql.

(** ** Keys *)

(** What a value is, apart from the fields its type does not use. *)
Inductive cval :=
  | CUnknown | CString (s : string) | CNumber (s : string) | CBool (b : bool) | CBytes (s : string) | CNull.
#[export] Instance cval_eq_dec : EqDecision cval.
Proof. solve_decision. Defined.

Definition cval_code (c : cval) : nat * string :=
  match c with
  | CUnknown => (0%nat, "") | CString s => (1%nat, s) | CNumber s => (2%nat, s)
  | CBool true => (3%nat, "") | CBool false => (4%nat, "") | CBytes s => (5%nat, s) | CNull => (6%nat, "")
  end.
Definition cval_decode (p : nat * string) : option cval :=
  match p.1 with
  | 0%nat => Some CUnknown | 1%nat => Some (CString p.2) | 2%nat => Some (CNumber p.2)
  | 3%nat => Some (CBool true) | 4%nat => Some (CBool false) | 5%nat => Some (CBytes p.2)
  | _ => Some CNull
  end.
#[export] Instance cval_countable : Countable cval.
Proof. apply (inj_countable cval_code cval_decode). by intros [| | |[]| |]. Defined.

Definition canon (v : Value) : cval :=
  match Type_ v with
  | ValueUnknown => CUnknown | ValueString => CString (Str v) | ValueNumber => CNumber (Num v)
  | ValueBool => CBool (Bool_ v) | ValueBytes => CBytes (string_of_bytes (default [] (Bin v)))
  | ValueNull => CNull
  end.

Definition enc (c : cval) : string :=
  match c with
  | CString s => "s:" +:+ s | CNumber s => "n:" +:+ s | CBool true => "b:1" | CBool false => "b:0"
  | CBytes s => "x:" +:+ base64_EncodeToString (bytes_of_string s)
  | CNull => "_:null" | CUnknown => "_:unknown"
  end.

Lemma encodeValue_canon v : encodeValue v = enc (canon v).
Proof.
  destruct v as [[] s n b []]; try reflexivity; unfold encodeValue, canon; cbn [Type_ Bin enc];
    by rewrite ?bytes_of_string_of_bytes.
Qed.

Lemma enc_inj c d : enc c = enc d → c = d.
Proof.
  destruct c as [|s|s|[]|s|], d as [|t|t|[]|t|]; intros E; try reflexivity; try discriminate E.
  - by apply (str_app_inj_l "s:") in E as ->.
  - by apply (str_app_inj_l "n:") in E as ->.
  - apply (str_app_inj_l "x:") in E. apply base64_Encode_inj in E.
    by rewrite <-(string_of_bytes_of_string s), E, string_of_bytes_of_string.
Qed.

Abbreviation ckey := (cval * cval)%type.
Definition canon_key (k : Key) : ckey := (canon (PartitionKey k), canon (SortKey k)).
Definition enc_key (k : ckey) : string := enc k.1 +:+ "|" +:+ enc k.2.

Lemma encodeKey_canon k : encodeKey k = enc_key (canon_key k).
Proof. unfold encodeKey, enc_key. by rewrite !encodeValue_canon. Qed.

(** The partition part contains no separator. *)
Definition bar_free (c : cval) : Prop := str_mem "|" (enc c) = false.

Lemma bar_free_CBytes s : bar_free (CBytes s).
Proof.
  unfold bar_free. cbn [enc]. rewrite str_mem_app, base64_Encode_mem; [done|done|].
  intros n Hn E. assert (Hall : forallb (λ n, negb (Ascii.eqb (b64_digit (Z.of_nat n)) "|")) (seq 0 64) = true)
    by reflexivity.
  rewrite forallb_forall in Hall. specialize (Hall (Z.to_nat n)).
  rewrite Z2Nat.id, negb_true_iff, Ascii.eqb_neq in Hall by lia. apply Hall; [|done]. apply in_seq. lia.
Qed.

Lemma enc_key_inj k1 k2 : bar_free k1.1 → bar_free k2.1 → enc_key k1 = enc_key k2 → k1 = k2.
Proof.
  destruct k1 as [p1 s1], k2 as [p2 s2]. unfold enc_key. simpl. intros H1 H2 E.
  rewrite !(str_one_app "|"%char) in E. apply str_sep_inj in E as [E1%enc_inj E2%enc_inj]; [|done|done].
  by subst.
Qed.

(** ** Abstract tables *)

Record atable := mkATable { at_table : Table; at_items : gmap ckey attrs }.

Inductive op :=
  | OpCreateTable (now : Time) (name : string) (opt : CreateTableOptions)
  | OpGetTable (name : string)
  | OpUpdateTableTags (name : string) (tags : strmap)
  | OpDeleteTable (name : string) (force : bool)
  | OpListTables (opt : ListTablesOptions)
  | OpPutItem (name : string) (item : Item)
  | OpGetItem (name : string) (key : Key)
  | OpDeleteItem (name : string) (key : Key)
  | OpScan (name : string) (opt : ScanOptions)
  | OpQuery (name : string) (pk : Value) (opt : QueryOptions).

Inductive resp :=
  | RDone | RTable (t : Table) | RTables (l : list Table) | RItem (x : attrs) | RItems (l : list attrs) (next : string).

(** The sort keys that a query's prefix selects: all, or the strings with it. *)
Definition sort_selected (prefix : string) (c : cval) : Prop :=
  prefix = "" ∨ match c with CString s => HasPrefix s prefix = true | _ => False end.
#[export] Instance sort_selected_dec prefix c : Decision (sort_selected prefix c).
Proof. unfold sort_selected. destruct c; apply _. Defined.

Section spec.
Context (m : gmap string atable).

Definition on_table (name : string) (k : atable → gmap string atable * result resp)
    : gmap string atable * result resp :=
  match m !! name with None => (m, Err (NoSuchTable name)) | Some t => k t end.
Definition on_key (t : atable) (key : Key) (k : gmap string atable * result resp)
    : gmap string atable * result resp :=
  match validateKey (at_table t) key with Some e => (m, Err e) | None => k end.

Definition spec_run (o : op) : gmap string atable * result resp :=
  match o with
  | OpCreateTable now name opt =>
      if decide (name = "") then (m, Err (InvalidArgument "table name required"))
      else if decide (ct_PartitionKeyName opt = "") then (m, Err (InvalidArgument "partition key name required"))
      else match m !! name with
      | Some _ => (m, Err (TableAlreadyExists name))
      | None =>
          let t := mkTable name (ct_PartitionKeyName opt) (ct_SortKeyName opt) (ct_Description opt)
                     (ct_Tags opt) now in
          (<[name := mkATable t ∅]> m, Ok (RTable t))
      end
  | OpGetTable name => on_table name (λ t, (m, Ok (RTable (at_table t))))
  | OpUpdateTableTags name tags =>
      on_table name (λ t, let u := at_table t in
        (<[name := mkATable (mkTable (Name u) (PartitionKeyName u) (SortKeyName u) (Description u) tags
                               (CreatedAt u)) (at_items t)]> m, Ok RDone))
  | OpDeleteTable name force =>
      on_table name (λ t, if decide (force = true ∨ at_items t = ∅) then (delete name m, Ok RDone)
                          else (m, Err (TableNotEmpty name)))
  | OpListTables opt =>
      let names := sort_Strings (filter (λ n, HasPrefix n (lt_NamePrefix opt) = true) (fst <$> map_to_list m)) in
      (m, Ok (RTables (omap (λ n, at_table <$> m !! n) names)))
  | OpPutItem name item =>
      on_table name (λ t,
        match extractKey (at_table t) item with
        | Ok key => (<[name := mkATable (at_table t)
                        (<[canon_key key := copyAttrs (Attributes item)]> (at_items t))]> m, Ok RDone)
        | Err e => (m, Err e)
        | Panic => (m, Panic)
        end)
  | OpGetItem name key =>
      on_table name (λ t, on_key t key
        match at_items t !! canon_key key with
        | Some x => (m, Ok (RItem x))
        | None => (m, Err (NoSuchItem name (encodeKey key)))
        end)
  | OpDeleteItem name key =>
      on_table name (λ t, on_key t key
        match at_items t !! canon_key key with
        | Some _ => (<[name := mkATable (at_table t) (delete (canon_key key) (at_items t))]> m, Ok RDone)
        | None => (m, Err (NoSuchItem name (encodeKey key)))
        end)
  | OpScan name opt => on_table name (λ t, (m, Ok (RItems (snd <$> map_to_list (at_items t)) "")))
  | OpQuery name pk opt =>
      on_table name (λ t, (m, Ok (RItems (snd <$> filter (λ p, p.1.1 = canon pk ∧
        sort_selected (qo_SortKeyPrefix opt) p.1.2) (map_to_list (at_items t))) "")))
  end.
End spec.

(** ** The backend's operations as steps *)

Definition answer {A} (f : A → resp) (r : Backend * result A) : Backend * result resp :=
  (r.1, let? x := r.2 in Ok (f x)).

Definition run (o : op) (b : Backend) : Backend * result resp :=
  match o with
  | OpCreateTable now n opt => answer RTable (CreateTable now n opt b)
  | OpGetTable n => answer RTable (GetTable n b)
  | OpUpdateTableTags n t => answer (λ _, RDone) (UpdateTableTags n t b)
  | OpDeleteTable n f => answer (λ _, RDone) (DeleteTable n f b)
  | OpListTables opt => answer (λ r, RTables (ltr_Tables r)) (ListTables opt b)
  | OpPutItem n i => answer (λ _, RDone) (PutItem n i b)
  | OpGetItem n k => answer (λ i, RItem (Attributes i)) (GetItem n k b)
  | OpDeleteItem n k => answer (λ _, RDone) (DeleteItem n k b)
  | OpScan n opt => answer (λ r, RItems (Attributes <$> scr_Items r) (scr_NextPageToken r)) (Scan n opt b)
  | OpQuery n pk opt =>
      answer (λ r, RItems (Attributes <$> qr_Items r) (qr_NextPageToken r)) (Query n pk opt b)
  end.

(** Two answers agree when they differ at most in the order of the items. *)
Inductive agrees : result resp → result resp → Prop :=
  | agrees_same r : agrees r r
  | agrees_items l1 l2 next : l1 ≡ₚ l2 → agrees (Ok (RItems l1 next)) (Ok (RItems l2 next)).

(** An operation stays within the keys that [encodeKey] keeps apart, and lists
    without a limit. *)
Definition within (b : Backend) (o : op) : Prop :=
  match o with
  | OpPutItem n item => ∀ st k, tables b !! n = Some st → extractKey (table st) item = Ok k →
      bar_free (canon (PartitionKey k))
  | OpGetItem _ k | OpDeleteItem _ k => bar_free (canon (PartitionKey k))
  | OpScan _ opt => sc_Limit opt <= 0
  | OpQuery _ pk opt => bar_free (canon pk) ∧ qo_Limit opt <= 0
  | _ => True
  end.

(** ** The simulation relation *)

Record items_ref (its : gmap string Item) (a : gmap ckey attrs) : Prop := {
  ref_lookup : ∀ ck, bar_free ck.1 → its !! enc_key ck = mkItem <$> a !! ck;
  ref_keys : ∀ k, is_Some (its !! k) → ∃ ck, bar_free ck.1 ∧ k = enc_key ck;
  ref_bar_free : ∀ ck, is_Some (a !! ck) → bar_free ck.1;
  ref_copied : ∀ ck x, a !! ck = Some x → copyAttrs x = x }.

Definition refines (b : Backend) (m : gmap string atable) : Prop :=
  ∀ n, option_relation (λ st t, table st = at_table t ∧ items_ref (items st) (at_items t))
         (λ _, False) (λ _, False) (tables b !! n) (m !! n).

(** ** Copies *)

Lemma nosql_copyTags_id m : copyTags m = m.
Proof. apply copy_map_id. Qed.

Lemma copyAttrs_fmap m : copyAttrs (Some m) = Some (copy_value <$> m).
Proof.
  unfold copyAttrs. f_equal.
  apply (map_fold_weak_ind (λ r m, r = copy_value <$> m)); [by rewrite fmap_empty|].
  intros i x m' r _ ->. by rewrite fmap_insert.
Qed.

Lemma copy_value_idemp v : copy_value (copy_value v) = copy_value v.
Proof.
  destruct v as [[] s n b q]; try reflexivity. unfold copy_value at 2 3. cbn [Type_ Bin Str Num Bool_].
  rewrite decide_True by done. unfold copy_value. cbn [Type_ Bin Str Num Bool_].
  rewrite decide_True by done. f_equal. unfold append_nil. by destruct b as [[|? ?]|].
Qed.

Lemma copyAttrs_idemp a : copyAttrs (copyAttrs a) = copyAttrs a.
Proof.
  destruct a as [m|]; [|done]. rewrite !copyAttrs_fmap. f_equal. rewrite <-map_fmap_compose.
  apply map_fmap_ext. intros k v _. apply copy_value_idemp.
Qed.

(** ** Item maps *)

Lemma items_ref_empty : items_ref ∅ ∅.
Proof.
  split; intros *; rewrite ?lookup_empty; try done; by intros [? [=]].
Qed.

Lemma items_ref_insert its a ck x :
  items_ref its a → bar_free ck.1 → copyAttrs x = x →
  items_ref (<[enc_key ck := mkItem x]> its) (<[ck := x]> a).
Proof.
  intros [Hl Hk Hb Hc] Hck Hx. split.
  - intros ck' Hck'. destruct (decide (ck = ck')) as [<-|Hne]; [by rewrite !lookup_insert_eq|].
    rewrite !lookup_insert_ne; [by apply Hl|done|]. intros E. apply Hne. by apply enc_key_inj.
  - intros k. destruct (decide (enc_key ck = k)) as [<-|Hne]; [eauto|].
    rewrite lookup_insert_ne by done. apply Hk.
  - intros ck'. destruct (decide (ck = ck')) as [<-|Hne]; [done|]. rewrite lookup_insert_ne by done. apply Hb.
  - intros ck' y. destruct (decide (ck = ck')) as [<-|Hne].
    + rewrite lookup_insert_eq. by intros [= <-].
    + rewrite lookup_insert_ne by done. apply Hc.
Qed.

Lemma items_ref_delete its a ck :
  items_ref its a → bar_free ck.1 → items_ref (delete (enc_key ck) its) (delete ck a).
Proof.
  intros [Hl Hk Hb Hc] Hck. split.
  - intros ck' Hck'. destruct (decide (ck = ck')) as [<-|Hne]; [by rewrite !lookup_delete_eq|].
    rewrite !lookup_delete_ne; [by apply Hl|done|]. intros E. apply Hne. by apply enc_key_inj.
  - intros k [it Hit]. apply lookup_delete_Some in Hit as [_ Hit]. apply Hk. by eexists.
  - intros ck' [x Hx]. apply lookup_delete_Some in Hx as [_ Hx]. apply Hb. by eexists.
  - intros ck' x Hx. apply lookup_delete_Some in Hx as [_ Hx]. by eapply Hc.
Qed.

(** The entries of the two maps correspond one to one. *)
Lemma items_ref_entries its a :
  items_ref its a → map_to_list its ≡ₚ (λ p, (enc_key p.1, mkItem p.2)) <$> map_to_list a.
Proof.
  intros [Hl Hk Hb _]. apply NoDup_Permutation.
  - apply NoDup_map_to_list.
  - apply NoDup_fmap_2_strong; [|apply NoDup_map_to_list].
    intros [k1 x1] [k2 x2] H1%elem_of_map_to_list H2%elem_of_map_to_list [= E1 E2].
    apply enc_key_inj in E1; [by subst|eauto..].
  - intros [k it]. rewrite elem_of_map_to_list, list_elem_of_fmap. split.
    + intros H. destruct (Hk k) as (ck & Hck & ->); [by eexists|]. rewrite Hl in H by done.
      apply fmap_Some in H as (x & Hx & ->). exists (ck, x). by rewrite elem_of_map_to_list.
    + intros ([ck x] & [= -> ->] & H%elem_of_map_to_list). 
      change (its !! enc_key ck = Some (mkItem x)). rewrite Hl by eauto. by rewrite H.
Qed.

Lemma items_ref_size its a : items_ref its a → size its = 0%nat ↔ a = ∅.
Proof.
  intros Hr. rewrite map_size_empty_iff. split; intros ->; apply map_empty; intros k.
  - destruct (a !! k) eqn:E; [|done]. exfalso. destruct (Hr) as [Hl _ Hb _].
    specialize (Hl k (Hb k ltac:(by eexists))). by rewrite E, lookup_empty in Hl.
  - destruct (its !! k) eqn:E; [|done]. exfalso. destruct (Hr) as [Hl Hk _ _].
    destruct (Hk k) as (ck & Hck & ->); [by eexists|]. by rewrite Hl, lookup_empty in E.
Qed.

(** ** Listings *)

Definition read_key (its : gmap string Item) (k : string) : Item :=
  mkItem (copyAttrs (Attributes (default (mkItem None) (its !! k)))).

Lemma page_loop_all its limit keys out :
  limit <= 0 → page_loop its limit keys out = (out ++ (read_key its <$> keys), "").
Proof.
  intros Hl. revert out. induction keys as [|k keys IH]; intros out; [by rewrite app_nil_r|].
  cbn [page_loop]. destruct (Z.ltb_spec 0 limit); [lia|]. cbn [andb]. rewrite IH, <-app_assoc. done.
Qed.

Lemma filter_all {A} (l : list A) : filter (λ _, True) l = l.
Proof. induction l as [|x l IH]; [done|]. rewrite filter_cons, decide_True by done. by rewrite IH. Qed.

(** Without a limit, a listing returns the items whose keys are selected. *)
Lemma listing its a (P : string → Prop) (Q : ckey → Prop)
    `{!∀ k, Decision (P k)} `{!∀ ck, Decision (Q ck)} :
  items_ref its a → (∀ ck, bar_free ck.1 → P (enc_key ck) ↔ Q ck) →
  Attributes <$> (read_key its <$> sort_Strings (filter P (fst <$> map_to_list its))) ≡ₚ
  snd <$> filter (λ p, Q p.1) (map_to_list a).
Proof.
  intros Hr HPQ. rewrite sort_Strings_perm, (items_ref_entries its a Hr).
  destruct Hr as [Hl Hk Hb Hc].
  assert (Hall : ∀ p, p ∈ map_to_list a → bar_free p.1.1 ∧ a !! p.1 = Some p.2).
  { intros [ck x] Hp%elem_of_map_to_list. simpl. eauto. }
  apply reflexive_eq. induction (map_to_list a) as [|p l IH]; [done|].
  assert (IH' : Attributes <$> (read_key its <$> filter P
      (fst <$> ((λ p, (enc_key p.1, mkItem p.2)) <$> l))) = snd <$> filter (λ p, Q p.1) l).
  { apply IH. intros q Hq. apply Hall. by constructor. }
  destruct (Hall p) as [Hp Hx]; [by constructor|]. rewrite !fmap_cons, !filter_cons. cbn [fst].
  destruct (decide (P (enc_key p.1))) as [HP|HP], (decide (Q p.1)) as [HQ|HQ];
    [|by destruct HQ; apply HPQ|by destruct HP; apply HPQ|done].
  rewrite !fmap_cons, IH'. f_equal. unfold read_key. cbn [Attributes]. rewrite Hl, Hx by done.
  cbn. by eapply Hc.
Qed.

Lemma query_match_iff pk prefix ck :
  bar_free (canon pk) → bar_free ck.1 →
  query_match pk prefix (enc_key ck) = true ↔ ck.1 = canon pk ∧ sort_selected prefix ck.2.
Proof.
  intros Hpk Hck. unfold query_match, sort_selected. rewrite encodeValue_canon, andb_true_iff, orb_true_iff.
  rewrite HasPrefix_spec, String.eqb_eq. destruct ck as [c1 c2]. unfold enc_key. cbn [fst snd] in *.
  split.
  - intros [[t E] Hs]. rewrite str_app_assoc in E. rewrite !(str_one_app "|"%char) in E.
    apply str_sep_inj in E as [->%enc_inj <-]; [|done..]. split; [done|].
    destruct Hs as [->|Hs]; [by left|right].
    rewrite <-str_app_assoc, TrimPrefix_app, HasPrefix_spec in Hs. destruct Hs as [t Ht].
    destruct c2 as [|s|s|[]|s|]; try discriminate Ht. rewrite str_app_assoc in Ht.
    apply (str_app_inj_l "s:") in Ht as ->. by apply HasPrefix_app.
  - intros [-> Hs]. split; [exists (enc c2); by rewrite str_app_assoc|].
    destruct Hs as [->|Hs]; [by left|right]. rewrite <-str_app_assoc, TrimPrefix_app.
    by destruct c2 as [|s|s|[]|s|].
Qed.

(** ** The simulation, operation by operation *)

Lemma refines_lookup b m n :
  refines b m →
  (tables b !! n = None ∧ m !! n = None) ∨
  ∃ st t, tables b !! n = Some st ∧ m !! n = Some t ∧ table st = at_table t ∧ items_ref (items st) (at_items t).
Proof.
  intros H. specialize (H n). destruct (tables b !! n) as [st|], (m !! n) as [t|]; try done; [right|by left].
  destruct H. by exists st, t.
Qed.

Lemma refines_insert b m n st t :
  refines b m → table st = at_table t → items_ref (items st) (at_items t) →
  refines (set_table b n st) (<[n := t]> m).
Proof.
  intros H Ht Hi n'. unfold set_table. cbn [tables].
  destruct (decide (n = n')) as [<-|Hne]; [by rewrite !lookup_insert_eq|].
  rewrite !lookup_insert_ne by done. apply H.
Qed.

Lemma refines_delete b m n : refines b m → refines (mkBackend (delete n (tables b))) (delete n m).
Proof.
  intros H n'. cbn [tables]. destruct (decide (n = n')) as [<-|Hne]; [by rewrite !lookup_delete_eq|].
  rewrite !lookup_delete_ne by done. apply H.
Qed.

Definition simulated (b : Backend) (m : gmap string atable) (o : op) : Prop :=
  refines (run o b).1 (spec_run m o).1 ∧ agrees (run o b).2 (spec_run m o).2.

(** Case analysis on the table an operation names. *)
Ltac on_table_cases H n :=
  let E1 := fresh "Eb" in let E2 := fresh "Em" in let st := fresh "st" in let t := fresh "t" in
  destruct (refines_lookup _ _ n H) as [(E1 & E2)|(st & t & E1 & E2 & Ht & Hi)];
  rewrite E1, E2; [by split; [|constructor]|].

Lemma sim_CreateTable b m now n opt : refines b m → simulated b m (OpCreateTable now n opt).
Proof.
  intros H. unfold simulated, run, spec_run, answer, CreateTable.
  destruct (String.eqb_spec n "") as [->|Hn]; [by split; [|constructor]|]. rewrite decide_False by done.
  destruct (String.eqb_spec (ct_PartitionKeyName opt) "") as [->|Hp]; [by split; [|constructor]|].
  rewrite decide_False by done.
  destruct (refines_lookup _ _ n H) as [(-> & ->)|(st & t & -> & -> & _)]; [|by split; [|constructor]].
  cbn. rewrite nosql_copyTags_id. split; [|constructor].
  apply refines_insert; [done|done|apply items_ref_empty].
Qed.

Lemma sim_tables b m o : refines b m →
  match o with OpGetTable _ | OpUpdateTableTags _ _ | OpDeleteTable _ _ => True | _ => False end →
  simulated b m o.
Proof.
  intros H. destruct o as [|n|n tags|n force| | | | | |]; try done; intros _;
    unfold simulated, run, spec_run, answer, GetTable, UpdateTableTags, DeleteTable, on_table;
    on_table_cases H n.
  - rewrite Ht. by split; [|constructor].
  - rewrite Ht, nosql_copyTags_id. cbn. split; [|constructor]. by apply refines_insert.
  - assert (negb force && (0 <? size (items st))%nat = negb (bool_decide (force = true ∨ at_items t = ∅))) as ->.
    { apply eq_true_iff_eq. rewrite andb_true_iff, !negb_true_iff, Nat.ltb_lt, bool_decide_eq_false.
      rewrite <-(items_ref_size _ _ Hi). destruct force; intuition lia. }
    rewrite bool_decide_decide. destruct (decide (force = true ∨ at_items t = ∅)); cbn.
    + split; [by apply refines_delete|constructor].
    + by split; [|constructor].
Qed.

Lemma sim_ListTables b m opt : refines b m → simulated b m (OpListTables opt).
Proof.
  intros H. unfold simulated, run, spec_run, answer, ListTables. cbn. split; [done|].
  assert (Hp : (fst <$> map_to_list (tables b)) ≡ₚ (fst <$> map_to_list m)).
  { apply NoDup_Permutation; [apply NoDup_fst_map_to_list..|]. intros n. rewrite !list_elem_of_fmap. split.
    - intros ([n' st] & -> & E%elem_of_map_to_list). destruct (refines_lookup _ _ n' H) as [(? & _)|(? & t & _ & ? & _)];
        [congruence|]. exists (n', t). by rewrite elem_of_map_to_list.
    - intros ([n' t] & -> & E%elem_of_map_to_list). destruct (refines_lookup _ _ n' H) as [(_ & ?)|(st & ? & ? & _)];
        [congruence|]. exists (n', st). by rewrite elem_of_map_to_list. }
  assert (filter (λ n, lt_NamePrefix opt = "" ∨ HasPrefix n (lt_NamePrefix opt) = true) (fst <$> map_to_list (tables b)) =
          filter (λ n, HasPrefix n (lt_NamePrefix opt) = true) (fst <$> map_to_list (tables b))) as ->.
  { apply list_filter_iff. intros n. split; [|by right]. intros [->|]; [apply HasPrefix_nil|done]. }
  rewrite (sort_Strings_unique _ _ (filter_Permutation _ _ _ Hp)).
  assert (∀ l, omap (λ n, table <$> tables b !! n) l = omap (λ n, at_table <$> m !! n) l) as ->; [|constructor].
  intros l. apply list_omap_ext. apply Forall_Forall2_diag, Forall_forall. intros n _.
  destruct (refines_lookup _ _ n H) as [(-> & ->)|(st & t & -> & -> & Ht & _)]; [done|]. simpl. by rewrite Ht.
Qed.

Lemma sim_items b m o : refines b m → within b o →
  match o with OpPutItem _ _ | OpGetItem _ _ | OpDeleteItem _ _ => True | _ => False end →
  simulated b m o.
Proof.
  intros H Hw. destruct o as [| | | | |n item|n key|n key| |]; try done; intros _;
    unfold simulated, run, spec_run, answer, PutItem, GetItem, DeleteItem, on_table, on_key;
    on_table_cases H n.
  - rewrite Ht. destruct (extractKey (at_table t) item) as [key|e|] eqn:Ek; [|by split; [|constructor]..].
    cbn. split; [|constructor]. rewrite encodeKey_canon. apply refines_insert; [done|done|].
    apply items_ref_insert; [done| |apply copyAttrs_idemp]. apply (Hw st key Eb). by rewrite Ht.
  - rewrite Ht. destruct (validateKey (at_table t) key); [by split; [|constructor]|].
    rewrite !encodeKey_canon, (ref_lookup _ _ Hi) by done.
    destruct (at_items t !! canon_key key) as [x|] eqn:Ex; cbn; [|by split; [|constructor]].
    rewrite (ref_copied _ _ Hi _ _ Ex). by split; [|constructor].
  - rewrite Ht. destruct (validateKey (at_table t) key); [by split; [|constructor]|]. cbv zeta.
    rewrite !encodeKey_canon, (ref_lookup _ _ Hi) by done.
    destruct (at_items t !! canon_key key) as [x|] eqn:Ex; cbn; [|by split; [|constructor]].
    split; [|constructor]. apply refines_insert; [done|done|]. by apply items_ref_delete.
Qed.

Lemma sim_listings b m o : refines b m → within b o →
  match o with OpScan _ _ | OpQuery _ _ _ => True | _ => False end → simulated b m o.
Proof.
  intros H Hw. destruct o as [| | | | | | | |n opt|n pk opt]; try done; intros _;
    unfold simulated, run, spec_run, answer, Scan, Query, on_table; on_table_cases H n; cbv zeta;
    rewrite page_loop_all by apply Hw; cbn; (split; [done|]); constructor.
  - pose proof (listing _ _ (λ _, True) (λ _, True) Hi) as HL. rewrite !filter_all in HL. auto.
  - pose proof (listing _ _ (λ k, query_match pk (qo_SortKeyPrefix opt) k = true)
      (λ ck, ck.1 = canon pk ∧ sort_selected (qo_SortKeyPrefix opt) ck.2) Hi) as HL. apply HL.
    intros ck Hck. apply query_match_iff; [apply Hw|done].
Qed.

Lemma simulates b m o : refines b m → within b o → simulated b m o.
Proof.
  intros H Hw. destruct o; [by apply sim_CreateTable|by apply sim_tables..| | | | | |];
    [by apply sim_ListTables|by apply sim_items..|by apply sim_listings|by apply sim_listings].
Qed.

(** ** Limits *)

Lemma page_loop_limit its limit keys out :
  0 < limit → Z.of_nat (length out) <= limit →
  page_loop its limit keys out =
    (out ++ (read_key its <$> take (Z.to_nat limit - length out) keys),
     default "" (keys !! (Z.to_nat limit - length out)%nat)).
Proof.
  intros Hl. revert out. induction keys as [|k keys IH]; intros out Ho.
  - rewrite take_nil, lookup_nil. cbn. by rewrite app_nil_r.
  - cbn [page_loop]. destruct (Z.ltb_spec 0 limit); [|lia]. cbn [andb].
    destruct (Z.leb_spec limit (Z.of_nat (length out))).
    + replace (Z.to_nat limit - length out)%nat with 0%nat by lia. cbn. by rewrite app_nil_r.
    + rewrite IH by (rewrite length_app; simpl; lia). rewrite length_app. cbn [length].
      replace (Z.to_nat limit - length out)%nat with (S (Z.to_nat limit - (length out + 1)))%nat by lia.
      cbn. by rewrite <-app_assoc.
Qed.

Definition scan_keys (st : tableState) : list string := sort_Strings (fst <$> map_to_list (items st)).

(** A client that follows the tokens: the pages it gets with [fuel] calls. *)
Fixpoint scan_pages (fuel : nat) (n : string) (limit : Z) (token : string) (b : Backend) : list (list Item) :=
  match fuel with
  | O => []
  | S fuel =>
      match (Scan n (mkScanOptions limit token) b).2 with
      | Ok r => scr_Items r ::
          (if String.eqb (scr_NextPageToken r) "" then [] else scan_pages fuel n limit (scr_NextPageToken r) b)
      | _ => []
      end
  end.

(** ** Reachable states *)

Fixpoint run_all (os : list op) (b : Backend) : Backend :=
  match os with [] => b | o :: os => run_all os (run o b).1 end.

(** No item is stored under the empty key, which would look like no token. *)
Definition keys_ok (b : Backend) : Prop :=
  ∀ n st, tables b !! n = Some st → items st !! "" = None.

Lemma encodeKey_nonempty k : encodeKey k ≠ "".
Proof. unfold encodeKey, encodeValue. by destruct k as [[[] ? ? ? []] ?]. Qed.

Lemma keys_ok_set b n st : keys_ok b → items st !! "" = None → keys_ok (set_table b n st).
Proof.
  intros H Hs n' st'. unfold set_table. cbn [tables]. rewrite lookup_insert_Some.
  intros [[_ <-]|[_ Hl]]; [done|by eapply H].
Qed.

Lemma run_keys_ok o b : keys_ok b → keys_ok (run o b).1.
Proof.
  intros H. destruct o as [now n opt|n|n tags|n force|opt|n item|n key|n key|n opt|n pk opt];
    unfold run, answer, CreateTable, GetTable, UpdateTableTags, DeleteTable, ListTables, PutItem, GetItem,
      DeleteItem, Scan, Query; cbn [fst];
    repeat match goal with
    | |- context [match ?x with _ => _ end] => destruct x eqn:?
    end; cbn [fst]; try exact H; try (apply keys_ok_set; [exact H|]); cbn [items].
  - apply lookup_empty.
  - by eapply H.
  - intros n' st'. cbn [tables]. intros [_ Hl]%lookup_delete_Some. by eapply H.
  - rewrite lookup_insert_ne by apply encodeKey_nonempty. by eapply H.
  - rewrite lookup_delete_None. right. by eapply H.
Qed.

Lemma run_all_keys_ok os b : keys_ok b → keys_ok (run_all os b).
Proof. revert b. induction os as [|o os IH]; intros b H; [done|]. by apply IH, run_keys_ok. Qed.

(** ** Properties *)

(** The answers of a sequence of operations. *)
Fixpoint trace (os : list op) (b : Backend) : list (result resp) :=
  match os with [] => [] | o :: os => (run o b).2 :: trace os (run o b).1 end.
Fixpoint spec_trace (os : list op) (m : gmap string atable) : list (result resp) :=
  match os with [] => [] | o :: os => (spec_run m o).2 :: spec_trace os (spec_run m o).1 end.
Fixpoint all_within (os : list op) (b : Backend) : Prop :=
  match os with [] => True | o :: os => within b o ∧ all_within os (run o b).1 end.

Lemma traces_agree os b m :
  refines b m → all_within os b → Forall2 agrees (trace os b) (spec_trace os m).
Proof.
  revert b m. induction os as [|o os IH]; intros b m Hr; cbn; [constructor|].
  intros [Hw Hos]. destruct (simulates b m o Hr Hw) as [Hr' Ha]. constructor; [done|]. by apply IH.
Qed.

(** C25: the backend refines tables that are finite maps from composite keys
    (typed values, not strings) to items.  Started empty and given any sequence
    of operations whose partition key values contain no bar and whose listings
    have no limit, it answers every operation as the specification does: a put
    creates or replaces exactly the item at its key, a get or delete finds
    exactly that item or reports NoSuchItem, a scan returns every item once, a
    query exactly the items with that partition key whose sort key is selected
    by the prefix (up to the order of the items). *)
Theorem nosql_refines_tables (os : list op) :
  all_within os New → Forall2 agrees (trace os New) (spec_trace os ∅).
Proof. apply traces_agree. by intros n. Qed.

(** An item with the key attributes of a table and other attributes [x]. *)
Definition item_at (t : Table) (k : Key) (x : gmap string Value) : Item :=
  mkItem (Some (<[PartitionKeyName t := PartitionKey k]> (<[SortKeyName t := SortKey k]> x))).

(** EncodeKey is not collision-free: in a table with string partition and
    sort keys, the keys ("a|s:c", "d") and ("a", "c|s:d") are different but
    share a storage key, so putting an item at the second silently replaces the
    item at the first. *)
Theorem bar_keys_collide (b : Backend) (n a c d : string) (st : tableState) (x1 x2 : gmap string Value) :
  tables b !! n = Some st → SortKeyName (table st) ≠ "" →
  PartitionKeyName (table st) ≠ SortKeyName (table st) →
  let k1 := mkKey (StringValue (a +:+ "|s:" +:+ c)) (StringValue d) in
  let k2 := mkKey (StringValue a) (StringValue (c +:+ "|s:" +:+ d)) in
  let b' := (PutItem n (item_at (table st) k2 x2) (PutItem n (item_at (table st) k1 x1) b).1).1 in
  k1 ≠ k2 ∧ (GetItem n k1 b').2 = Ok (mkItem (copyAttrs (Attributes (item_at (table st) k2 x2)))).
Proof.
  intros Hst Hs Hps k1 k2 b'.
  assert (Hex : ∀ p s x, extractKey (table st) (item_at (table st) (mkKey (StringValue p) (StringValue s)) x) =
    Ok (mkKey (StringValue p) (StringValue s))).
  { intros p s x. unfold extractKey, required, item_at. cbn [Attributes PartitionKey SortKey].
    cbn [mbind option_bind]. rewrite lookup_insert_eq, lookup_insert_ne, lookup_insert_eq by done. cbn.
    by rewrite (proj2 (String.eqb_neq _ _) Hs). }
  assert (He : encodeKey k1 = encodeKey k2).
  { unfold k1, k2, encodeKey, encodeValue. cbn [PartitionKey SortKey Type_ Str StringValue].
    rewrite !str_app_assoc. reflexivity. }
  split.
  - intros [= E _]. apply (f_equal String.length) in E. rewrite !str_length_app in E. simpl in E. lia.
  - unfold b', PutItem at 2. rewrite Hst. unfold k1 at 2 3. rewrite Hex.
    unfold PutItem, set_table. cbn [fst tables]. rewrite lookup_insert_eq. cbn [table items].
    unfold k2 at 1. rewrite Hex. cbn [fst]. unfold GetItem. cbn [tables]. rewrite lookup_insert_eq. cbn [table items].
    unfold validateKey. rewrite (proj2 (String.eqb_neq _ _) Hs). cbn [PartitionKey SortKey Type_ k1 StringValue].
    rewrite !decide_False by done. cbn [andb negb]. rewrite bool_decide_eq_false_2 by done.
    change (mkKey (StringValue (a +:+ "|s:" +:+ c)) (StringValue d)) with k1.
    rewrite He. unfold k2 at 1 2. rewrite lookup_insert_eq. cbn [snd Attributes]. by rewrite copyAttrs_idemp.
Qed.

(** Scan ignores its page token, so a client never gets past the first
    page: in every reachable state, if the table has more items than a positive
    limit, then each page that the client gets by following the tokens is the
    first [limit] items of the scan order, and the tokens never end. *)
Theorem limited_scan_never_advances (os : list op) (n : string) (st : tableState) (limit : Z) (fuel : nat) :
  tables (run_all os New) !! n = Some st → 0 < limit < Z.of_nat (size (items st)) →
  scan_pages fuel n limit "" (run_all os New) =
    replicate fuel (read_key (items st) <$> take (Z.to_nat limit) (scan_keys st)).
Proof.
  intros Hst Hl. set (b := run_all os New) in *.
  assert (Hne : items st !! "" = None) by (eapply (run_all_keys_ok os New); [done|exact Hst]).
  assert (Hlen : length (scan_keys st) = size (items st)).
  { unfold scan_keys. rewrite sort_Strings_perm, length_fmap. apply length_map_to_list. }
  assert (∃ k, scan_keys st !! Z.to_nat limit = Some k ∧ String.eqb k "" = false) as (k & Hk & Hke).
  { destruct (lookup_lt_is_Some_2 (scan_keys st) (Z.to_nat limit)) as [k Hk]; [lia|]. exists k. split; [done|].
    apply String.eqb_neq. intros ->. apply list_elem_of_lookup_2 in Hk.
    unfold scan_keys in Hk. rewrite sort_Strings_perm, list_elem_of_fmap in Hk.
    destruct Hk as ([k' it] & E & Hin%elem_of_map_to_list). simpl in E. congruence. }
  generalize "" at 1 as token. induction fuel as [|fuel IH]; intros token; [done|].
  cbn [scan_pages replicate]. unfold Scan at 1. rewrite Hst. fold (scan_keys st). cbn [sc_Limit].
  rewrite page_loop_limit by (simpl; lia). cbn [length fst snd scr_Items scr_NextPageToken app].
  rewrite Nat.sub_0_r, Hk. cbn [default]. unfold default, id. rewrite Hke. by rewrite IH.
Qed.

(** ** Witnesses *)

Definition demo_create : op := OpCreateTable 1 "T" (mkCreateTableOptions "pk" "sk" "" None).
Definition demo_key (p s : string) : Key := mkKey (StringValue p) (StringValue s).
Definition demo_item (p s : string) : Item := mkItem (Some {["pk" := StringValue p; "sk" := StringValue s]}).
Definition demo_ops : list op :=
  [demo_create; OpPutItem "T" (demo_item "a" "1"); OpPutItem "T" (demo_item "a" "2");
   OpGetItem "T" (demo_key "a" "1"); OpQuery "T" (StringValue "a") (mkQueryOptions 0 "" "2")].

Lemma nosql_refines_tables_witness : Forall2 agrees (trace demo_ops New) (spec_trace demo_ops ∅).
Proof.
  apply (nosql_refines_tables demo_ops). cbn [demo_ops all_within within demo_create].
  split_and!; try exact I; try reflexivity; try discriminate.
  - intros st k Hst Hk. vm_compute in Hst. injection Hst as <-. vm_compute in Hk. injection Hk as <-. reflexivity.
  - intros st k Hst Hk. vm_compute in Hst. injection Hst as <-. vm_compute in Hk. injection Hk as <-. reflexivity.
Defined.

Definition demo_state : tableState := mkTableState (mkTable "T" "pk" "sk" "" None 1) ∅.

Lemma bar_keys_collide_witness :
  (GetItem "T" (demo_key "a|s:c" "d")
    (PutItem "T" (demo_item "a" "c|s:d") (PutItem "T" (demo_item "a|s:c" "d") (run demo_create New).1).1).1).2 =
  Ok (demo_item "a" "c|s:d").
Proof.
  assert (H : tables (run demo_create New).1 !! "T" = Some demo_state) by reflexivity.
  destruct (bar_keys_collide _ "T" "a" "c" "d" _ ∅ ∅ H ltac:(discriminate) ltac:(discriminate)) as [_ E].
  exact E.
Defined.

Lemma limited_scan_never_advances_witness :
  scan_pages 3 "T" 1 "" (run_all (take 3 demo_ops) New) = replicate 3 [demo_item "a" "1"].
Proof.
  assert (H : ∃ st, tables (run_all (take 3 demo_ops) New) !! "T" = Some st) by (eexists; reflexivity).
  destruct (tables (run_all (take 3 demo_ops) New) !! "T") as [st|] eqn:E; [|exfalso; by destruct H].
  rewrite (limited_scan_never_advances (take 3 demo_ops) "T" st 1 3 E);
    vm_compute in E; injection E as <-; [reflexivity|split; reflexivity].
Defined.
