(* ===== verification/SecretsManagerProps.v ===== *)
(** * The Secrets Manager frontend: properties

    A client's session on one secret, from the bytes of its JSON bodies to the
    answers, refines the list of the values put; version identifiers and the
    ways to name a secret are read back. *)

From Stdlib Require Import Ascii.
From S2P Require Import Prelude GoStrings GoBytes GoHttp GoJson GoJsonProps AwsJson AwsJsonProps SigV4 Secrets SecretsManager.

(** ** Version identifiers *)

Lemma hex_value_app s t acc : hex_value (s +:+ t) acc = hex_value s acc ≫= λ n, hex_value t n.
Proof.
  revert acc. induction s as [|c s IH]; intros acc; [done|]. rewrite str_cons_app. cbn [hex_value].
  destruct (hex_val c); [|done]. apply IH.
Qed.

Lemma hex_go_value fuel n acc a :
  0 <= n < 2 ^ Z.of_nat fuel → hex_value (hex_go fuel n acc) a = hex_value acc (a * 16 ^ Z.of_nat (String.length (hex_go fuel n "")) + n).
Proof.
  assert (∀ fuel n s, hex_go fuel n s = hex_go fuel n "" +:+ s) as Happ.
  { clear. intros fuel. induction fuel as [|fuel IH]; intros n s; [done|]. cbn [hex_go]. destruct (n <? 16); [done|].
    rewrite IH, (IH _ (String _ "")), str_app_assoc. done. }
  revert n acc a. induction fuel as [|fuel IH]; intros n acc a Hn.
  { cbn in Hn. assert (n = 0) as -> by lia. cbn. f_equal. lia. }
  cbn [hex_go]. destruct (Z.ltb_spec n 16).
  - cbn [hex_value String.length]. rewrite Z.mod_small by lia. rewrite hex_val_digit by lia. cbn [mbind option_bind]. done.
  - rewrite Happ, hex_value_app. rewrite Nat2Z.inj_succ, Z.pow_succ_r in Hn by lia.
    assert (0 <= n / 16 < 2 ^ Z.of_nat fuel) as Hd by (split; [apply Z.div_pos; lia|apply Z.div_lt_upper_bound; lia]).
    rewrite IH by done. cbn [mbind option_bind hex_value]. rewrite hex_val_digit by (apply Z.mod_pos_bound; lia).
    cbn [mbind option_bind]. f_equal. rewrite (Happ _ _ (String _ "")), str_length_app. cbn [String.length].
    rewrite Nat2Z.inj_add, Z.pow_add_r by lia. pose proof (Z_div_mod_eq_full n 16). change (16 ^ Z.of_nat 1) with 16. lia.
Qed.

Lemma hex_of_value n : 0 <= n → hex_value (hex_of n) 0 = Some n.
Proof.
  intros Hn. unfold hex_of. rewrite hex_go_value; [cbn; f_equal; lia|]. split; [done|].
  rewrite Nat2Z.inj_succ, Z2Nat.id by apply Z.log2_nonneg. destruct (decide (n = 0)) as [->|]; [done|].
  apply Z.log2_spec. lia.
Qed.

Lemma zeros_value k s : hex_value (zeros k s) 0 = hex_value s 0.
Proof. induction k as [|k IH]; [done|]. cbn [zeros hex_value]. by change (hex_val "0") with (Some 0). Qed.

Lemma hex_value_plain c s acc n : hex_val c = None → hex_value s acc = Some n → str_mem c s = false.
Proof.
  intros Hc. revert acc. induction s as [|a s IH]; intros acc; [done|]. cbn [hex_value str_mem].
  destruct (hex_val a) eqn:E; [|done]. intros H%IH. rewrite H, orb_false_r. apply Ascii.eqb_neq. congruence.
Qed.

Lemma hex_value_bytes s acc n : hex_value s acc = Some n → all_bytes (λ c, (N_of_ascii c <? 128)%N) s = true.
Proof.
  revert acc. induction s as [|a s IH]; intros acc; [done|]. cbn [hex_value all_bytes].
  destruct (hex_val a) eqn:E; [|done]. intros H%IH. rewrite H, andb_true_r.
  destruct a as [[] [] [] [] [] [] [] []]; done.
Qed.

Lemma pad12_value n : 0 <= n → hex_value (pad12 (hex_of n)) 0 = Some n.
Proof. intros Hn. unfold pad12. by rewrite zeros_value, hex_of_value. Qed.

Lemma version_id_read n : 0 <= n < 2 ^ 64 → versionFromID (versionIDFor n) = Some n.
Proof.
  intros Hn. pose proof (pad12_value n) as Hv. unfold versionFromID, versionIDFor. set (s := pad12 (hex_of n)) in *.
  change ("00000000-0000-0000-0000-" +:+ s) with ("00000000-0000-0000-0000" +:+ String "-" s).
  assert (String.eqb ("00000000-0000-0000-0000" +:+ String "-" s) "" = false) as -> by done.
  rewrite LastIndexByte_app by (eapply hex_value_plain; [done|apply Hv; lia]).
  rewrite str_drop_sep. unfold ParseHex. rewrite Hv by lia.
  assert (String.eqb s "" = false) as ->.
  { destruct s as [|c s'] eqn:E; [|done]. exfalso. clear -E. unfold s, pad12 in E. destruct (hex_of n) as [|c t] eqn:Ht; [done|].
    destruct (12 - _)%nat; done. }
  cbn [mbind option_bind]. by assert ((n <? 2 ^ 64) = true) as -> by (apply Z.ltb_lt; lia).
Qed.

Lemma version_id_text n : 0 <= n → valid_utf8 (versionIDFor n).
Proof.
  intros Hn. unfold versionIDFor. apply valid_app; [by apply ascii_valid_utf8|]. apply ascii_valid_utf8.
  eapply hex_value_bytes. by apply pad12_value.
Qed.

(** ** The ways to name a secret

    Its name, the ARN that the frontend answers with, and an ARN of AWS, whose
    suffix is six letters or digits. *)

Inductive refers (name : string) : string → Prop :=
  | by_name : HasPrefix name "arn:aws:secretsmanager:" = false → refers name name
  | by_answered_arn : refers name (fakeARN name)
  | by_arn region account suffix :
      region ≠ "shim" → str_mem ":" region = false → str_mem ":" account = false →
      String.length suffix = 6%nat → all_bytes arn_suffix_byte suffix = true →
      refers name ("arn:aws:secretsmanager:" +:+ region +:+ ":" +:+ account +:+ ":secret:" +:+ name +:+ "-" +:+ suffix).

Lemma Cut_app s c t : str_mem c s = false → Cut (s +:+ String c t) c = (s, t, true).
Proof. intros H. unfold Cut. by rewrite IndexByte_app, str_take_app, str_drop_sep. Qed.

Lemma split_four_app a b c d :
  str_mem ":" a = false → str_mem ":" b = false → str_mem ":" c = false →
  split_four (a +:+ ":" +:+ b +:+ ":" +:+ c +:+ ":" +:+ d) = Some (a, b, c, d).
Proof. intros Ha Hb Hc. unfold split_four. by rewrite !str_one_app, !Cut_app. Qed.

Lemma suffix_no_dash s : all_bytes arn_suffix_byte s = true → str_mem "-" s = false.
Proof.
  induction s as [|c s IH]; [done|]. cbn [all_bytes str_mem]. intros [Hc Hs]%andb_true_iff. rewrite IH, orb_false_r by done.
  apply Ascii.eqb_neq. by intros ->.
Qed.

Lemma normalise_refers name id : refers name id → normaliseSecretID id = name.
Proof.
  intros [Hn| |region account suffix Hr Hrc Hac Hl Hs]; unfold normaliseSecretID.
  - by rewrite Hn.
  - unfold fakeARN. change ("arn:aws:secretsmanager:shim:000000000000:secret:" +:+ name) with
      ("arn:aws:secretsmanager:" +:+ ("shim" +:+ ":" +:+ "000000000000" +:+ ":" +:+ "secret" +:+ ":" +:+ name)).
    by rewrite HasPrefix_app, TrimPrefix_app, split_four_app.
  - change (":secret:" +:+ ?x) with (":" +:+ "secret" +:+ ":" +:+ x). rewrite HasPrefix_app, TrimPrefix_app, split_four_app by done.
    cbn [negb]. change (negb (String.eqb "secret" "secret")) with false. cbv iota.
    rewrite (proj2 (String.eqb_neq _ _) Hr). change ("-" +:+ suffix) with (String "-" suffix).
    rewrite LastIndexByte_app by (by apply suffix_no_dash). rewrite str_drop_sep, str_take_app, str_length_app, Hs.
    cbn [String.length]. rewrite Hl. replace (_ - _)%nat with 7%nat by lia. done.
Qed.

Lemma refers_nonempty name id : name ≠ "" → refers name id → id ≠ "".
Proof. by intros Hn [| |]. Qed.

(** ** Requests of a session on one secret *)

Inductive stage := Unstaged | Current | Previous | Numbered (k : Z).
Inductive scall :=
  | SCreate (token : string) (v : option string)
  | SPut (token v : string)
  | SGet (which : stage)
  | SDelete (force : bool).

(** A call and the identifier that it names the secret by; a creation gives
    its name. *)
Definition call_ok (name : string) (c : scall * string) : Prop :=
  valid_utf8 c.2 ∧
  match c.1 with
  | SCreate token v => c.2 = name ∧ valid_utf8 token ∧ from_option valid_utf8 True v
  | SPut token v => refers name c.2 ∧ valid_utf8 token ∧ valid_utf8 v
  | SGet (Numbered k) => refers name c.2 ∧ 0 < k < 2 ^ 64
  | SGet _ | SDelete _ => refers name c.2
  end.

Definition call_handler (c : scall) : sm_op :=
  match c with
  | SCreate _ _ => CreateSecretHandler | SPut _ _ => PutSecretValueHandler | SGet _ => GetSecretValueHandler
  | SDelete _ => DeleteSecretHandler
  end.
Definition stage_json (w : stage) : list (string * json) :=
  match w with
  | Unstaged => [] | Current => [j_pair "VersionStage" "AWSCURRENT"] | Previous => [j_pair "VersionStage" "AWSPREVIOUS"]
  | Numbered k => [j_pair "VersionId" (versionIDFor k)]
  end.
Definition call_json (c : scall * string) : json :=
  JObj
    match c.1 with
    | SCreate token v => j_pair "Name" c.2 :: j_pair "ClientRequestToken" token :: j_opt "SecretString" JStr v
    | SPut token v => [j_pair "SecretId" c.2; j_pair "ClientRequestToken" token; j_pair "SecretString" v]
    | SGet w => j_pair "SecretId" c.2 :: stage_json w
    | SDelete force => [j_pair "SecretId" c.2; ("ForceDeleteWithoutRecovery", JBool force)]
    end.
Definition asks (c : scall * string) (r : Request) : Prop :=
  calls "secretsmanager" (op_name (call_handler c.1)) r ∧ has_body r (call_json c).

Lemma pair_printable k v : all_bytes (λ c, (N_of_ascii c <? 128)%N) k = true → valid_utf8 v →
  (valid_utf8 k ∧ printable (JStr v)) ∧ (height (JStr v) <= 2)%nat.
Proof. intros Hk Hv. split; [split; [by apply ascii_valid_utf8|done]|cbn; lia]. Qed.

Lemma secret_call_printable name c : call_ok name c → printable (call_json c) ∧ (height (call_json c) <= 3)%nat.
Proof.
  intros [Hid Hc]. apply j_printable. destruct c as [c id]. cbn [fst snd] in *.
  destruct c as [token v|token v|w|force]; repeat (apply Forall_cons; split; [apply pair_printable; [done|]|]); try done.
  - by destruct Hc as (_ & ? & _).
  - destruct Hc as (_ & _ & Hv). apply j_opt_printable; [by apply ascii_valid_utf8|]. intros a ->. split; [done|cbn; lia].
  - by destruct Hc as (_ & ? & _).
  - by destruct Hc as (_ & _ & ?).
  - destruct w as [| | |k]; cbn [stage_json]; try (by apply Forall_nil); (apply Forall_cons; split; [|by apply Forall_nil]);
      apply pair_printable; try done; try (by apply ascii_valid_utf8). apply version_id_text. lia.
  - apply Forall_cons. split; [|by apply Forall_nil]. split; [split; [by apply ascii_valid_utf8|done]|cbn; lia].
Qed.

(** *** What they decode to *)

Definition create_input (name : string) (v : option string) := mkCreateSecretRequest None name None v [].
Definition put_input (id v : string) := mkPutSecretValueRequest None id (Some v).
Definition get_input (id : string) (w : stage) : GetSecretValueRequest :=
  match w with
  | Unstaged => mkGetSecretValueRequest id None None
  | Current => mkGetSecretValueRequest id None (Some "AWSCURRENT")
  | Previous => mkGetSecretValueRequest id None (Some "AWSPREVIOUS")
  | Numbered k => mkGetSecretValueRequest id (Some (versionIDFor k)) None
  end.
Definition delete_input (id : string) (force : bool) := mkDeleteSecretRequest (Some force) id.

Lemma secret_create_decodes token v id : decode_fresh d_CreateSecretRequest (Some (call_json (SCreate token v, id))) = Some (create_input id v).
Proof. by destruct v. Qed.
Lemma secret_put_decodes token v id : decode_fresh d_PutSecretValueRequest (Some (call_json (SPut token v, id))) = Some (put_input id v).
Proof. done. Qed.
Lemma secret_get_decodes w id : decode_fresh d_GetSecretValueRequest (Some (call_json (SGet w, id))) = Some (get_input id w).
Proof. by destruct w. Qed.
Lemma secret_delete_decodes f id : decode_fresh d_DeleteSecretRequest (Some (call_json (SDelete f, id))) = Some (delete_input id f).
Proof. done. Qed.

(** ** The list of values behind the session *)

Inductive history := Absent | Live (l : list string) | Deleting.
Definition values (t : history) : list string := match t with Live l => l | _ => [] end.

Definition next (c : scall * string) (t : history) : history :=
  match c.1, t with
  | SCreate _ v, Absent => Live (option_list v)
  | SPut _ v, Live l => Live (l ++ [v])
  | SDelete true, _ => Absent
  | SDelete false, Live _ => Deleting
  | _, _ => t
  end.

Definition stage_index (w : stage) (n : nat) : option nat :=
  match w with
  | Unstaged | Current => Some (n - 1)%nat
  | Previous => if decide (2 <= n)%nat then Some (n - 2)%nat else None
  | Numbered k => Some (Z.to_nat (k - 1))
  end.
Definition error_answer (type : string) (out : api output) : Prop := ∃ text, out = Err (refused 400 type text).
Definition value_answer (name : string) (l : list string) (w : stage) (out : api output) : Prop :=
  match stage_index w (length l) ≫= λ i, pair i <$> l !! i with
  | Some (i, v) =>
      ∃ date, out = Ok (GetSecretValueResponse (fakeARN name) name (versionIDFor (Z.of_nat i + 1)) v ["AWSCURRENT"] date)
  | None => error_answer "ResourceNotFoundException" out
  end.
Definition answers (name : string) (c : scall * string) (t : history) (out : api output) : Prop :=
  match c.1, t with
  | SCreate _ v, Absent => out = Ok (CreateSecretResponse (fakeARN name) name ((λ _, versionIDFor 1) <$> v))
  | SCreate _ _, Live _ => error_answer "ResourceExistsException" out
  | SPut _ _, Live l =>
      out = Ok (PutSecretValueResponse (fakeARN name) name (versionIDFor (Z.of_nat (length l) + 1)) ["AWSCURRENT"])
  | SGet w, Live l => value_answer name l w out
  | SDelete _, Live _ | SDelete _, Deleting => ∃ date, out = Ok (DeleteSecretResponse (fakeARN name) name date)
  | _, Absent => error_answer "ResourceNotFoundException" out
  | _, Deleting => error_answer "InvalidRequestException" out
  end.

(** [n] more versions can be numbered. *)
Definition holds (name : string) (n : nat) (t : history) (b : Backend) : Prop :=
  Z.of_nat (length (values t) + n) < 2 ^ 64 - 1 ∧
  match t with
  | Absent => secrets b !! name = None
  | Deleting => soft_deleted b name
  | Live l => ∃ s, secrets b !! name = Some s ∧ deleting s = false ∧ numbers_ok (versions s) ∧
      v_value <$> versions s = (λ v, Some (bytes_of_string v)) <$> l
  end.

Lemma holds_down name n t b : holds name (S n) t b → holds name n t b.
Proof. intros [H1 H2]. split; [lia|done]. Qed.

Lemma value_at (l : list string) vs i w v :
  v_value <$> vs = (λ v, Some (bytes_of_string v)) <$> l → vs !! i = Some w → l !! i = Some v → v_value w = Some (bytes_of_string v).
Proof.
  intros H Hw Hv. pose proof (f_equal (λ x, x !! i) H) as Hi. cbn in Hi. rewrite !list_lookup_fmap, Hw, Hv in Hi.
  by injection Hi.
Qed.

(** The value with a number, and the current one. *)
Lemma GetSecretValue_at name n l b k :
  holds name n (Live l) b → 0 < k →
  match l !! Z.to_nat (k - 1) with
  | Some v => ∃ date, GetSecretValue name k b = (b, Ok (mkSecretValue name k (Some (bytes_of_string v)) date))
  | None => GetSecretValue name k b = (b, Err (NoSuchVersion name k))
  end.
Proof.
  intros (_ & s & Hs & Hd & Hok & Hv) Hk. unfold GetSecretValue. rewrite Hs, Hd. pose proof (f_equal length Hv) as Hlen.
  rewrite !length_fmap in Hlen. destruct (last (versions s)) as [w|] eqn:El.
  - assert ((k =? 0) = false) as -> by lia. rewrite find_version_nth, decide_True by (done || lia).
    destruct (l !! Z.to_nat (k - 1)) as [v|] eqn:Ev.
    + destruct (lookup_lt_is_Some_2 (versions s) (Z.to_nat (k - 1))) as [x Hx]; [apply lookup_lt_Some in Ev; lia|].
      rewrite Hx. exists (v_createdAt x). unfold value_of. rewrite secrets_copyBytes_id, (value_at _ _ _ _ _ Hv Hx Ev), (Hok _ _ Hx).
      do 4 f_equal. lia.
    + apply lookup_ge_None in Ev. rewrite lookup_ge_None_2 by lia. done.
  - apply last_None in El. rewrite El in Hlen. destruct l; [done|discriminate Hlen].
Qed.

Lemma GetSecretValue_current name n l b :
  holds name n (Live l) b →
  GetSecretValue name 0 b =
    (if decide (l = []) then (b, Err (NoSuchVersion name 0)) else GetSecretValue name (Z.of_nat (length l)) b).
Proof.
  intros (_ & s & Hs & Hd & Hok & Hv). unfold GetSecretValue. rewrite Hs, Hd. pose proof (f_equal length Hv) as Hlen.
  rewrite !length_fmap in Hlen. destruct (last (versions s)) as [w|] eqn:El.
  - pose proof El as Ew. rewrite last_lookup in Ew. pose proof (lookup_lt_Some _ _ _ Ew).
    rewrite decide_False by (intros ->; cbn in Hlen; lia). change (0 =? 0) with true. cbv iota.
    assert ((Z.of_nat (length l) =? 0) = false) as -> by lia. rewrite find_version_nth, decide_True by (done || lia).
    replace (Z.to_nat (Z.of_nat (length l) - 1)) with (pred (length (versions s))) by lia. by rewrite Ew.
  - apply last_None in El. rewrite El in Hlen. by destruct l.
Qed.

Lemma ListVersions_length name n l b :
  holds name n (Live l) b →
  ∃ vs, ListVersions name b = (b, Ok vs) ∧ length vs = length l ∧
    ∀ i v, vs !! i = Some v → Version_Number v = Z.of_nat i + 1.
Proof.
  intros (_ & s & Hs & Hd & Hok & Hv). unfold ListVersions. rewrite Hs, Hd. pose proof (f_equal length Hv) as Hlen.
  rewrite !length_fmap in Hlen. eexists. split; [reflexivity|]. rewrite length_fmap. split; [done|].
  intros i v. rewrite list_lookup_fmap. destruct (versions s !! i) as [w|] eqn:E; [|done]. intros [= <-]. by apply Hok.
Qed.

(** ** Sessions *)

Lemma sm_names : NoDup (op_name <$> sm_ops).
Proof. apply (bool_decide_unpack _). vm_compute. exact I. Qed.
Lemma sm_route {X} r o : calls "secretsmanager" (op_name o) r → route (X := X) RegisterSecretsManagerRoutes r = inr o.
Proof.
  apply (route_registered op_name); [done|done|by destruct o|].
  fold (registered op_name "secretsmanager" sm_ops). rewrite registered_lookup by apply sm_names. by destruct o.
Qed.

Section session.
Context (Quote Err_text getenv : string → string).
Local Abbreviation routed := (SecretsManager_ServeHTTP (St := Backend) Quote Err_text).

Definition adapter_answer now (c : scall * string) : Backend → Backend * api output :=
  match c.1 with
  | SCreate _ v => Adapter_CreateSecret Quote now (create_input c.2 v)
  | SPut _ v => Adapter_PutSecretValue Quote now (put_input c.2 v)
  | SGet w => Adapter_GetSecretValue Quote (get_input c.2 w)
  | SDelete force => Adapter_DeleteSecret Quote now (delete_input c.2 force)
  end.

Lemma secret_routed_call name now c r b :
  name ≠ "" → call_ok name c → asks c r → routed now r b = answered_with (adapter_answer now c b).
Proof.
  intros Hn Hc [Hr Hb]. unfold SecretsManager_ServeHTTP, ServeHTTP. rewrite (sm_route r _ Hr).
  destruct (secret_call_printable name c Hc) as [Hp Hh]. assert (∀ k, first_missing [(k, c.2)] = None) as Hm.
  { intros k. assert (c.2 ≠ "") as Hne.
    { destruct c as [[| |[]|] id], Hc as [_ Hc]; cbn [fst snd] in *;
        first [by destruct Hc as [-> _]|destruct Hc as [Hc _]; by eapply refers_nonempty|by eapply refers_nonempty]. }
    cbn. by rewrite (proj2 (String.eqb_neq _ _) Hne). }
  destruct c as [[token v|token v|w|force] id]; cbn [call_handler handle adapter_answer fst snd] in *; unfold handler;
    eapply returning_handler_asks; try exact Hb; try exact Hp; try exact Hh; try exact I;
    try first [apply secret_create_decodes|apply secret_put_decodes|apply secret_get_decodes|apply secret_delete_decodes]; try apply Hm.
  destruct w; apply Hm.
Qed.

Definition served (name : string) (n : nat) (t : history) (c : scall * string) (r : Backend * api output) : Prop :=
  ∃ b out, r = (b, out) ∧ out ≠ Panic ∧ holds name n (next c t) b ∧ answers name c t out.

Lemma on_secret_refers name id k b : name ≠ "" → refers name id → on_secret (St := Backend) id k b = k name b.
Proof.
  intros Hn Hr. unfold on_secret. rewrite (proj2 (String.eqb_neq _ _)) by (by eapply refers_nonempty). by rewrite (normalise_refers name).
Qed.

Lemma secret_holds_set name n l v b s now d :
  secrets b !! name = Some s → numbers_ok (versions s) → Z.of_nat (length (versions s)) < 2 ^ 64 - 1 →
  v_value <$> versions s = (λ v, Some (bytes_of_string v)) <$> l → Z.of_nat (length l + S n) < 2 ^ 64 - 1 →
  holds name n (Live (l ++ [v]))
    (set_secret b name (mkSecretState (s_name s) (description s) (tags s) (createdAt s) d (enabled s) false
       (versions s ++ [mkVersionState (nextNumber (versions s)) (Some (bytes_of_string v)) now]))).
Proof.
  intros Hs Hok Hb Hv Hn. split; [cbn [values]; rewrite length_app; cbn; lia|]. eexists. split; [apply lookup_insert_eq|].
  cbn [deleting versions]. split; [done|]. split.
  - apply numbers_snoc; [done|]. cbn [v_number]. by apply numbers_next.
  - by rewrite !fmap_app, Hv.
Qed.

Lemma secret_create_served name n now token v t b :
  name ≠ "" → holds name (S n) t b →
  served name n t (SCreate token v, name) (adapter_answer now (SCreate token v, name) b).
Proof.
  intros Hn Hb. pose proof (holds_down _ _ _ _ Hb) as Hb'. unfold adapter_answer, Adapter_CreateSecret, call, call_with. cbn [fst snd create_input csi_Name].
  rewrite (proj2 (String.eqb_neq _ _) Hn). cbn [x_CreateSecret inmem_secrets]. unfold CreateSecret.
  rewrite (proj2 (String.eqb_neq _ _) Hn). destruct Hb as [Hlen Hb]. destruct t as [|l|].
  - rewrite Hb. destruct v as [v|]; (eexists _, _; split; [reflexivity|]; split; [done|]; split; [|done]);
      (split; [cbn in *; lia|]); (eexists; split; [apply lookup_insert_eq|]); cbn [deleting versions]; (split; [done|]).
    + split; [intros [|i] x; [by intros [= <-]|done]|]. cbn. by rewrite map_id.
    + split; [by intros [|i] x|done].
  - destruct Hb as (s & Hs & Hd & _). rewrite Hs, Hd. eexists _, _. split; [reflexivity|]. split; [done|]. split; [done|]. by eexists.
  - destruct Hb as (s & Hs & Hd). rewrite Hs, Hd. eexists _, _. split; [reflexivity|]. split; [done|]. split; [done|]. by eexists.
Qed.

Lemma secret_put_served name n now token v id t b :
  name ≠ "" → refers name id → holds name (S n) t b →
  served name n t (SPut token v, id) (adapter_answer now (SPut token v, id) b).
Proof.
  intros Hn Hr Hb. pose proof (holds_down _ _ _ _ Hb) as Hb'. unfold adapter_answer, Adapter_PutSecretValue. cbn [fst snd put_input psi_SecretId].
  rewrite (on_secret_refers name) by done. change (pickValueBytes _ _) with (Some (Some (bytes_of_string v))). unfold call, call_with.
  cbn [x_PutSecretValue inmem_secrets]. unfold PutSecretValue. destruct Hb as [Hlen Hb]. destruct t as [|l|].
  - rewrite Hb. eexists _, _. split; [reflexivity|]. split; [done|]. split; [done|]. by eexists.
  - destruct Hb as (s & Hs & Hd & Hok & Hv). rewrite Hs, Hd. rewrite secrets_copyBytes_id.
    pose proof (f_equal length Hv) as Hl. rewrite !length_fmap in Hl. cbn [values] in Hlen.
    eexists _, _. split; [reflexivity|]. split; [done|]. split; [cbn [next fst]; apply secret_holds_set; (done || lia)|].
    cbn [answers fst psr_Version]. rewrite numbers_next by (done || lia). by rewrite Hl.
  - destruct Hb as (s & Hs & Hd). rewrite Hs, Hd. eexists _, _. split; [reflexivity|]. split; [done|]. split; [done|]. by eexists.
Qed.

Lemma secret_delete_served name n now force id t b :
  name ≠ "" → refers name id → holds name (S n) t b →
  served name n t (SDelete force, id) (adapter_answer now (SDelete force, id) b).
Proof.
  intros Hn Hr Hb. pose proof (holds_down _ _ _ _ Hb) as Hb'. unfold adapter_answer, Adapter_DeleteSecret. cbn [fst snd delete_input dsi_SecretId dsi_ForceDelete].
  rewrite (on_secret_refers name) by done. unfold call, call_with. cbn [default]. change (Datatypes.id force) with force.
  cbn [x_DeleteSecret inmem_secrets]. unfold DeleteSecret. destruct Hb as [Hlen Hb]. cbn [values] in Hlen.
  assert (∀ s, secrets b !! name = Some s → holds name n Deleting (set_secret b name
    (mkSecretState (s_name s) (description s) (tags s) (createdAt s) (updatedAt s) (enabled s) true (versions s)))) as Hdel.
  { intros s Hs. split; [cbn; lia|]. eexists. split; [apply lookup_insert_eq|done]. }
  assert (holds name n Absent (mkBackend (delete name (secrets b)))) as Habs by (split; [cbn; lia|apply lookup_delete_eq]).
  destruct t as [|l|].
  - rewrite Hb. eexists _, _. split; [reflexivity|]. split; [done|]. split; [by destruct force|]. by eexists.
  - destruct Hb as (s & Hs & Hd & _). rewrite Hs. destruct force; (eexists _, _; split; [reflexivity|]; split; [done|]);
      (split; [|by eexists]); [exact Habs|by apply Hdel].
  - destruct Hb as (s & Hs & Hd). rewrite Hs. destruct force; (eexists _, _; split; [reflexivity|]; split; [done|]);
      (split; [|by eexists]); [exact Habs|by apply Hdel].
Qed.

(** What a get answers with, once the number of the version is known. *)
Definition shown (name : string) (c : Backend * result SecretValue) : Backend * api output :=
  call Quote c (λ val s,
    (s, Ok (GetSecretValueResponse (fakeARN name) name (versionIDFor (sv_Version val))
      (string_of_bytes (default [] (sv_Value val))) ["AWSCURRENT"] (EpochTimePtr (sv_CreatedAt val))))).

Lemma adapter_get name now w id b :
  name ≠ "" → refers name id → (match w with Numbered k => 0 < k < 2 ^ 64 | _ => True end) →
  adapter_answer now (SGet w, id) b =
    match w with
    | Unstaged | Current => shown name (GetSecretValue name 0 b)
    | Previous =>
        call Quote (ListVersions name b) (λ versions s,
        if (length versions <? 2)%nat
        then (s, Err (refused 400 "ResourceNotFoundException" ("no AWSPREVIOUS version for secret " +:+ name)))
        else shown name (GetSecretValue name (from_option Version_Number 0 (versions !! (length versions - 2)%nat)) s))
    | Numbered k => shown name (GetSecretValue name k b)
    end.
Proof.
  intros Hn Hr Hk. unfold adapter_answer, Adapter_GetSecretValue. cbn [fst snd].
  assert (gsi_SecretId (get_input id w) = id) as -> by (by destruct w). rewrite (on_secret_refers name) by done.
  destruct w as [| | |k]; try done. unfold pick_version. cbn [get_input gsi_VersionId default]. change (Datatypes.id ?x) with x.
  assert (String.eqb (versionIDFor k) "" = false) as -> by done. cbn [negb]. rewrite version_id_read by lia. done.
Qed.

(** Nothing is read of a secret that is missing or deleted. *)
Lemma get_refused name now w id b e :
  name ≠ "" → refers name id → (match w with Numbered k => 0 < k < 2 ^ 64 | _ => True end) →
  (∀ k, GetSecretValue name k b = (b, Err e)) → ListVersions name b = (b, Err e) →
  adapter_answer now (SGet w, id) b = (b, Err (mapDomainErr Quote e)).
Proof.
  intros Hn Hr Hk Hg Hl. rewrite (adapter_get name) by done. by destruct w; rewrite ?Hl, ?Hg.
Qed.

Lemma value_read name n l b (w : stage) k :
  holds name n (Live l) b → 0 < k → stage_index w (length l) = Some (Z.to_nat (k - 1)) →
  ∃ out, shown name (GetSecretValue name k b) = (b, out) ∧ out ≠ Panic ∧ value_answer name l w out.
Proof.
  intros Hb Hk Hw. unfold value_answer. rewrite Hw. cbn [mbind option_bind]. pose proof (GetSecretValue_at name n l b k Hb Hk) as H.
  destruct (l !! Z.to_nat (k - 1)) as [v|].
  - destruct H as [date ->]. eexists. split; [reflexivity|]. split; [done|].
    cbn [fmap option_fmap option_map sv_Version sv_Value sv_CreatedAt default].
    change (Datatypes.id ?x) with x. rewrite string_of_bytes_of_string. replace (Z.of_nat (Z.to_nat (k - 1)) + 1) with k by lia. by eexists.
  - rewrite H. eexists. split; [reflexivity|]. split; [done|]. by eexists.
Qed.

Lemma value_read_current name n l b w :
  holds name n (Live l) b → (∀ n, stage_index w n = Some (n - 1)%nat) →
  ∃ out, shown name (GetSecretValue name 0 b) = (b, out) ∧ out ≠ Panic ∧ value_answer name l w out.
Proof.
  intros Hb Hw. rewrite (GetSecretValue_current name n l b Hb). case_decide as Hl.
  - eexists. split; [reflexivity|]. split; [done|]. subst l. unfold value_answer. rewrite Hw. by eexists.
  - apply (value_read name n); [done|by destruct l|]. rewrite Hw. f_equal. lia.
Qed.

Lemma get_live name n now w id l b :
  name ≠ "" → refers name id → (match w with Numbered k => 0 < k < 2 ^ 64 | _ => True end) → holds name n (Live l) b →
  ∃ out, adapter_answer now (SGet w, id) b = (b, out) ∧ out ≠ Panic ∧ value_answer name l w out.
Proof.
  intros Hn Hr Hk Hb. rewrite (adapter_get name) by done. destruct w as [| | |k].
  - by apply (value_read_current name n).
  - by apply (value_read_current name n).
  - destruct (ListVersions_length name n l b Hb) as (vs & E & Hlen & Hnum). rewrite E. unfold call, call_with. rewrite Hlen.
    destruct (Nat.ltb_spec (length l) 2).
    + eexists. split; [reflexivity|]. split; [done|]. unfold value_answer, stage_index. rewrite decide_False by lia. by eexists.
    + destruct (lookup_lt_is_Some_2 vs (length l - 2)) as [v Ev]; [lia|]. rewrite Ev. cbn [from_option]. rewrite (Hnum _ _ Ev).
      apply (value_read name n); [done|lia|]. unfold stage_index. rewrite decide_True by lia. f_equal. lia.
  - apply (value_read name n); [done|lia|done].
Qed.

Lemma secret_get_served name n now w id t b :
  name ≠ "" → refers name id → (match w with Numbered k => 0 < k < 2 ^ 64 | _ => True end) → holds name (S n) t b →
  served name n t (SGet w, id) (adapter_answer now (SGet w, id) b).
Proof.
  intros Hn Hr Hk Hb. pose proof (holds_down _ _ _ _ Hb) as Hb'. destruct t as [|l|].
  - destruct Hb as [_ Hb]. rewrite (get_refused name now w id b (NoSuchSecret name)); [|done..| |].
    + eexists _, _. split; [reflexivity|]. split; [done|]. split; [done|]. by eexists.
    + intros k. unfold GetSecretValue. by rewrite Hb.
    + unfold ListVersions. by rewrite Hb.
  - destruct (get_live name n now w id l b Hn Hr Hk Hb') as (out & E & Hp & Ho). rewrite E. by eexists _, _.
  - destruct Hb as [_ (s & Hs & Hd)]. rewrite (get_refused name now w id b (SecretBeingDeleted name)); [|done..| |].
    + eexists _, _. split; [reflexivity|]. split; [done|]. split; [done|]. by eexists.
    + intros k. unfold GetSecretValue. by rewrite Hs, Hd.
    + unfold ListVersions. by rewrite Hs, Hd.
Qed.

Definition arrival_ok (name : string) (a : json_arrival Time (scall * string)) : Prop :=
  call_ok name (ja_call a) ∧ asks (ja_call a) (ja_request a).

Lemma call_served name n a t b :
  name ≠ "" → arrival_ok name a → holds name (S n) t b →
  ∃ b' out, routed (ja_env a) (ja_request a) b = answered_with (b', out) ∧ out ≠ Panic ∧
    holds name n (next (ja_call a) t) b' ∧ answers name (ja_call a) t out.
Proof.
  intros Hn [Hc Ha] Hb. assert (served name n t (ja_call a) (adapter_answer (ja_env a) (ja_call a) b)) as (b' & out & E & H).
  { destruct (ja_call a) as [[token v|token v|w|force] id], Hc as [Hid Hc]; cbn [fst snd] in *.
    - destruct Hc as (-> & _). by apply secret_create_served.
    - destruct Hc as (Hr & _). by apply secret_put_served.
    - destruct w; try (by apply secret_get_served). destruct Hc as [Hr Hk]. by apply secret_get_served.
    - by apply secret_delete_served. }
  exists b', out. split; [|done]. by rewrite (secret_routed_call name _ (ja_call a)), E.
Qed.

(** C7: Any sequence of creations, puts, gets and deletions that a Secrets
    Manager client sends about one secret, which does not exist at first, over
    HTTP, as JSON bodies, gets the
    answers of the list of the values put: a put answers with the identifier of
    the next version, a get without a version or at AWSCURRENT gives the last
    value, at AWSPREVIOUS the one before, and with the identifier of a version
    that version's value, however many came after it; before the
    creation and after a forced deletion the secret is not found.  After a
    deletion with recovery every creation, put and get is refused, and a further
    deletion is answered with success: without force it changes nothing, with
    force it removes the secret.  The secret may be named by its
    name, by the ARN that was answered, or by an ARN of AWS; what the signature
    verifier refuses changes nothing. *)
Theorem secret_sessions_refine_history name l b :
  name ≠ "" → secrets b !! name = None → Z.of_nat (length l) < 2 ^ 64 - 1 → Forall (arrival_ok name) l →
  ∃ b' resps, serve_run (SecretsManager.New Quote Err_text getenv) l b = Some (b', resps) ∧
    run_answers (sm_refuses Quote getenv) next (answers name) l Absent resps.
Proof.
  intros Hn Hb Hlen Hl. apply (run_served _ _ _ _ routed (holds name) (arrival_ok name)); [done|apply holds_down| |done|by split].
  intros n a t s Ha Hs. by apply call_served.
Qed.
End session.

(** ** What a binary secret becomes *)

(** A value put as SecretBinary that is not UTF-8 is answered as a SecretString
    of its bytes, whose JSON text stands for another string. *)
Lemma binary_secret_corrupted :
  let value := string_of_bytes [byte_of 255] in
  let b := (CreateSecret 5 "k" (mkCreateSecretOptions "" None None) Secrets.New).1 in
  let put := Adapter_PutSecretValue (St := Backend) Datatypes.id 6 (mkPutSecretValueRequest (Some (bytes_of_string value)) "k" None) b in
  (∃ out, put.2 = Ok out) ∧
  (Adapter_GetSecretValue (St := Backend) Datatypes.id (mkGetSecretValueRequest "k" None None) put.1).2 =
    Ok (GetSecretValueResponse (fakeARN "k") "k" (versionIDFor 1) value ["AWSCURRENT"] (Some 6)) ∧
  parse_all (print (JStr value)) = Some (JStr (str_of_codes [239; 191; 189]%N)).
Proof. split; [eexists; reflexivity|]. split; vm_compute; reflexivity. Qed.

(** An update that gives a new value answers with success and keeps the old. *)
Lemma update_ignores_value token v id i :
  decode_fresh d_UpdateSecretRequest (Some (JObj [j_pair "SecretId" id; j_pair "ClientRequestToken" token; j_pair "SecretString" v])) = Some i →
  ∀ now Quote name n l (b : Backend), name ≠ "" → refers name id → holds name n (Live l) b →
  ∃ b', Adapter_UpdateSecret Quote now i b = (b', Ok (SecretNamed (fakeARN name) name)) ∧ holds name n (Live l) b'.
Proof.
  intros [= <-] now Quote name n l b Hn Hr (Hlen & s & Hs & Hd & Hok & Hv). unfold Adapter_UpdateSecret. cbn [usi_SecretId].
  rewrite (on_secret_refers name) by done. unfold call, call_with. cbn [x_UpdateSecret inmem_secrets]. unfold UpdateSecret. rewrite Hs.
  eexists. split; [reflexivity|]. split; [done|]. eexists. split; [apply lookup_insert_eq|]. done.
Qed.

(** ** Witness *)

Definition secret_post (c : scall * string) : Request :=
  mkRequest "POST" "" "" "/" "" "/" "" ∅ {["X-Amz-Target" := ["secretsmanager." +:+ op_name (call_handler c.1)]]} 1
    (Some (Reads (bytes_of_string (print (call_json c))))).
Definition demo_secret_calls : list (scall * string) :=
  [(SCreate "t1" (Some "one"), "db"); (SPut "t2" "two", fakeARN "db"); (SGet Previous, "arn:aws:secretsmanager:us-east-1:1:secret:db-A1b2C3");
   (SGet (Numbered 1), "db"); (SGet Current, "db"); (SDelete false, "db"); (SPut "t3" "three", "db"); (SDelete true, "db")].
Definition demo_secret_run : list (json_arrival Time (scall * string)) := (λ c, mkJsonArrival 5 c (secret_post c)) <$> demo_secret_calls.
Definition open_env (name : string) : string := if String.eqb name "SHIMANISM_TEST_UNAUTHENTICATED" then "1" else "".

Lemma demo_secret_ok : Forall (arrival_ok "db") demo_secret_run.
Proof.
  assert (refers "db" "arn:aws:secretsmanager:us-east-1:1:secret:db-A1b2C3") as Ha by (by apply (by_arn "db" "us-east-1" "1" "A1b2C3")).
  assert (refers "db" "db") as Hn by (by apply by_name). assert (∀ c, Method (secret_post c) = "POST") as Hm by done.
  assert (∀ c, call_ok "db" c → arrival_ok "db" (mkJsonArrival 5 c (secret_post c))) as Hok.
  { intros c Hc. split; [done|]. split; [split; [done|]; by destruct c as [[] ?]|by split]. }
  assert (∀ t : string, all_bytes (λ c, (N_of_ascii c <? 128)%N) t = true → valid_utf8 t) as Ht by apply ascii_valid_utf8.
  unfold demo_secret_run. apply Forall_fmap. eapply Forall_impl; [|exact Hok]. unfold demo_secret_calls. rewrite !Forall_cons.
  pose proof (by_answered_arn "db") as Hf. unfold call_ok. cbn [fst snd from_option]. by split_and!; try apply Ht.
Qed.

Lemma secret_sessions_refine_history_witness :
  ∃ b' resps, serve_run (SecretsManager.New Datatypes.id Datatypes.id open_env) demo_secret_run Secrets.New
      = Some (b', resps) ∧
    run_answers (sm_refuses Datatypes.id open_env) next (answers "db") demo_secret_run Absent resps.
Proof.
  apply (secret_sessions_refine_history Datatypes.id Datatypes.id open_env "db" demo_secret_run Secrets.New); [done|done|by vm_compute|apply demo_secret_ok].
Defined.
