(* ===== verification/DynamoProps.v ===== *)
(** * The DynamoDB frontend: properties

    A session of a DynamoDB client over HTTP, from the bytes of its JSON bodies
    to the answers, refines a finite map from composite keys to items; what the
    verifier refuses changes nothing. *)

From Stdlib Require Import Ascii.
From S2P Require Import Prelude GoStrings GoBytes GoHttp GoJson GoJsonProps AwsJson AwsJsonProps SigV4 NoSql NoSqlProps DynamoDb.

(** ** Attribute values on the wire

    A scalar as the client sends it, as the backend keeps it, and as the client
    gets it back: an empty binary value comes back without its type. *)

Definition value_of (c : cval) : Value :=
  match c with
  | CString s => StringValue s | CNumber s => NumberValue s | CBool b => BoolValue b
  | CBytes s => BytesValue (Some (bytes_of_string s)) | CNull => NullValue | CUnknown => zeroValue
  end.
Definition av_json (c : cval) : json :=
  match c with
  | CString s => JObj [j_pair "S" s] | CNumber s => JObj [j_pair "N" s] | CBool b => JObj [("BOOL", JBool b)]
  | CBytes s => JObj [j_pair "B" (base64_EncodeToString (bytes_of_string s))] | CNull => JObj [("NULL", JBool true)]
  | CUnknown => JObj []
  end.
Definition wire (c : cval) : AttributeValue :=
  match c with
  | CString s => mkAttributeValue None None None None (Some s)
  | CNumber s => mkAttributeValue None None (Some s) None None
  | CBool b => mkAttributeValue None (Some b) None None None
  | CBytes s => mkAttributeValue (Some (bytes_of_string s)) None None None None
  | CNull => mkAttributeValue None None None (Some true) None
  | CUnknown => noAttribute
  end.
Definition shown (c : cval) : AttributeValue :=
  match c with CBytes "" => noAttribute | _ => wire c end.
(** A scalar that JSON carries. *)
Definition text_ok (c : cval) : Prop :=
  match c with CString s | CNumber s => valid_utf8 s | CUnknown => False | _ => True end.

Lemma bytes_nonempty s : s ≠ "" → append_nil (Some (bytes_of_string s)) = Some (bytes_of_string s).
Proof. by destruct s. Qed.
Lemma append_nil_default b : default [] (append_nil b) = default [] b.
Proof. by destruct b as [[|? ?]|]. Qed.

Lemma canon_value_of c : canon (value_of c) = c.
Proof.
  destruct c as [| | | |s|]; try done. unfold canon, value_of, BytesValue. cbn [Type_ Bin].
  rewrite append_nil_default. change (default [] (Some ?x)) with x. by rewrite string_of_bytes_of_string.
Qed.
Lemma valueFromGen_wire c : text_ok c → valueFromGen (Some (wire c)) = Some (value_of c).
Proof. by destruct c. Qed.
Lemma valueToGen_value_of c : text_ok c → valueToGen (value_of c) = Some (shown c).
Proof.
  destruct c as [| | | |s|]; try done. intros _. unfold valueToGen, value_of, BytesValue, shown. cbn [Type_ Bin wire].
  destruct s as [|a s]; [done|]. by rewrite !bytes_nonempty.
Qed.
Lemma copy_value_of c : copy_value (value_of c) = value_of c.
Proof.
  destruct c as [| | | |s|]; try done. unfold copy_value, value_of, BytesValue. cbn [Type_ Str Num Bin Bool_].
  rewrite decide_True by done. f_equal. by destruct s.
Qed.
Lemma value_of_known c : text_ok c → Type_ (value_of c) ≠ ValueUnknown.
Proof. by destruct c. Qed.

Lemma wire_decodes c : decode_value (d_ptr d_AttributeValue) (av_json c) None = (Some (wire c), true).
Proof.
  destruct c as [| | | |s|]; try reflexivity. cbn [av_json]. unfold d_ptr, d_AttributeValue. cbn -[Std_DecodeString].
  unfold decode_member. cbn -[Std_DecodeString]. by rewrite Std_round_trip.
Qed.

Lemma av_printable c : text_ok c → printable (av_json c) ∧ (height (av_json c) <= 1)%nat.
Proof.
  intros Hc. destruct c as [| | | |s|]; try done; apply (obj_printable 0); repeat constructor;
    try (by apply ascii_valid_utf8); try done. apply base64_valid.
Qed.

(** ** Items on the wire *)

Abbreviation item := (gmap string cval).
Definition item_json (m : item) : json := JObj ((λ kv, (kv.1, av_json kv.2)) <$> map_to_list m).
Definition wire_item (m : item) : gmap string (option AttributeValue) := (λ c, Some (wire c)) <$> m.
Definition shown_item (m : item) : gmap string (option AttributeValue) := (λ c, Some (shown c)) <$> m.
Definition item_ok (m : item) : Prop := map_Forall (λ k c, valid_utf8 k ∧ text_ok c) m.

Lemma item_printable m : item_ok m → printable (item_json m) ∧ (height (item_json m) <= 2)%nat.
Proof.
  intros Hm. apply (obj_printable 1). apply Forall_fmap, Forall_forall. intros [k c] Hk%elem_of_map_to_list.
  apply Hm in Hk as [Hk Hc]. cbn. destruct (av_printable c Hc). done.
Qed.

Lemma item_decodes m :
  decode_entries (d_ptr d_AttributeValue) ((λ kv, (kv.1, av_json kv.2)) <$> map_to_list m) ∅ = (wire_item m, true).
Proof. apply (decode_entries_fmap _ (λ c, Some (wire c))). intros k c _. apply wire_decodes. Qed.

(** The order of the range does not matter. *)
Definition range_ok (d : draws) : Prop := ∀ A (m : gmap string A), d_range d A m ≡ₚ map_to_list m.

Lemma attrs_loop_ok (l : list (string * cval)) out :
  Forall (λ kv, text_ok kv.2) l →
  attrs_loop (prod_map Datatypes.id (λ c, Some (wire c)) <$> l) out =
    Ok (fold_left (λ m kv, <[kv.1 := kv.2]> m) (prod_map Datatypes.id value_of <$> l) out).
Proof.
  intros Hl. revert out. induction Hl as [|[k c] l Hc Hl IH]; intros out; [done|]. cbn [fmap list_fmap attrs_loop prod_map fst snd] in *.
  rewrite valueFromGen_wire by done. by rewrite IH.
Qed.

Lemma attrsFromGen_wire d m : range_ok d → item_ok m → attrsFromGen d (Some (wire_item m)) = Ok (value_of <$> m).
Proof.
  intros Hd Hm. unfold attrsFromGen, wire_item. cbn [default]. change (Datatypes.id ?x) with x.
  pose proof (Hd _ ((λ c, Some (wire c)) <$> m)) as Hp. rewrite map_to_list_fmap in Hp.
  apply Permutation_map_inv in Hp as (l & -> & Hp).
  rewrite attrs_loop_ok; cycle 1.
  { rewrite <-Hp. apply Forall_forall. intros [k c] Hk%elem_of_map_to_list. by destruct (Hm k c Hk). }
  assert (NoDup l.*1) as Hnd by (rewrite <-Hp; apply NoDup_fst_map_to_list).
  rewrite fold_insert_map by (rewrite <-list_fmap_compose; exact Hnd).
  rewrite list_to_map_fmap, <-(list_to_map_proper (map_to_list m) l); [by rewrite list_to_map_to_list|apply NoDup_fst_map_to_list|done].
Qed.

Lemma attrsToGen_value m : item_ok m → attrsToGen (Some (value_of <$> m)) = shown_item m.
Proof.
  intros Hm. unfold attrsToGen, shown_item. cbn [default]. change (Datatypes.id ?x) with x. rewrite <-map_fmap_compose.
  apply map_fmap_ext. intros k c Hc. apply valueToGen_value_of. by destruct (Hm k c Hc).
Qed.

(** ** Requests of a session on one table *)

Record schema := mkSchema { sc_name : string; sc_pk : string; sc_sk : string }.
Definition schema_ok (sc : schema) : Prop :=
  sc_name sc ≠ "" ∧ sc_pk sc ≠ "" ∧ sc_pk sc ≠ sc_sk sc ∧
  Forall valid_utf8 [sc_name sc; sc_pk sc; sc_sk sc].

(** The attributes of a key; the sort value of a table without a sort key is
    [CUnknown]. *)
Definition key_item (sc : schema) (k : ckey) : item :=
  if String.eqb (sc_sk sc) "" then {[sc_pk sc := k.1]} else {[sc_pk sc := k.1; sc_sk sc := k.2]}.
Definition key_ok (sc : schema) (k : ckey) : Prop :=
  text_ok k.1 ∧ bar_free k.1 ∧ (if String.eqb (sc_sk sc) "" then k.2 = CUnknown else text_ok k.2).
(** The key that an item is put at. *)
Definition item_key (sc : schema) (m : item) (k : ckey) : Prop :=
  m !! sc_pk sc = Some k.1 ∧ (sc_sk sc ≠ "" → m !! sc_sk sc = Some k.2).

Inductive dcall :=
  | DPut (k : ckey) (m : item)
  | DGet (k : ckey)
  | DDelete (k : ckey)
  | DQuery (p : cval) (prefix : option string)
  | DScan.

Definition call_ok (sc : schema) (c : dcall) : Prop :=
  match c with
  | DPut k m => key_ok sc k ∧ item_key sc m k ∧ item_ok m
  | DGet k | DDelete k => key_ok sc k
  | DQuery p prefix => text_ok p ∧ bar_free p ∧ from_option valid_utf8 True prefix
  | DScan => True
  end.

Definition call_handler (c : dcall) : dynamo_op :=
  match c with
  | DPut _ _ => PutItemHandler | DGet _ => GetItemHandler | DDelete _ => DeleteItemHandler | DQuery _ _ => QueryHandler
  | DScan => ScanHandler
  end.
Definition condition (prefix : option string) : string :=
  match prefix with None => "#p = :p" | Some _ => "#p = :p AND begins_with(#s, :s)" end.
Definition call_json (sc : schema) (c : dcall) : json :=
  let table := j_pair "TableName" (sc_name sc) in
  match c with
  | DPut _ m => JObj [table; ("Item", item_json m)]
  | DGet k | DDelete k => JObj [table; ("Key", item_json (key_item sc k))]
  | DQuery p prefix =>
      JObj [table; j_pair "KeyConditionExpression" (condition prefix);
        ("ExpressionAttributeNames", JObj [j_pair "#p" (sc_pk sc); j_pair "#s" (sc_sk sc)]);
        ("ExpressionAttributeValues", JObj ((":p", av_json p) :: j_opt ":s" (λ s, av_json (CString s)) prefix))]
  | DScan => JObj [table]
  end.
(** A request that carries a call; its other headers are free. *)
Definition asks (sc : schema) (c : dcall) (r : Request) : Prop :=
  calls "DynamoDB_20120810" (op_name (call_handler c)) r ∧ has_body r (call_json sc c).

Lemma key_item_ok sc k : schema_ok sc → key_ok sc k → item_ok (key_item sc k).
Proof.
  intros (_ & _ & _ & Hv) (H1 & _ & H2). inversion_clear Hv as [|? ? _ Hv']. inversion_clear Hv' as [|? ? Hp Hv].
  inversion_clear Hv as [|? ? Hs _]. unfold key_item, item_ok. destruct (String.eqb (sc_sk sc) "").
  - by apply map_Forall_singleton.
  - apply map_Forall_insert_2; [done|]. by apply map_Forall_singleton.
Qed.

Lemma call_printable sc c : schema_ok sc → call_ok sc c → printable (call_json sc c) ∧ (height (call_json sc c) <= 3)%nat.
Proof.
  intros Hsc Hc. pose proof Hsc as (_ & _ & _ & Hv). inversion_clear Hv as [|? ? Hn Hv']. inversion_clear Hv' as [|? ? Hp Hv].
  inversion_clear Hv as [|? ? Hs _]. assert (∀ s, all_bytes (λ c, (N_of_ascii c <? 128)%N) s = true → valid_utf8 s) as Ha by apply ascii_valid_utf8.
  assert (∀ m k, item_ok m → valid_utf8 k → printable (JObj [j_pair "TableName" (sc_name sc); (k, item_json m)]) ∧
    (height (JObj [j_pair "TableName" (sc_name sc); (k, item_json m)]) <= 3)%nat) as Hi.
  { intros m k Hm Hk. destruct (item_printable m Hm). apply (obj_printable 2).
    repeat (apply Forall_cons; split; [split; [split|]|]); try done; try (by apply Ha); cbn; lia. }
  destruct c as [k m|k|k|p prefix|]; cbn [call_json].
  - apply Hi; [by destruct Hc as (_ & _ & ?)|by apply Ha].
  - apply Hi; [by apply key_item_ok|by apply Ha].
  - apply Hi; [by apply key_item_ok|by apply Ha].
  - destruct Hc as (Hcp & _ & Hpre). destruct (av_printable p Hcp) as [Hpp Hph].
    assert (printable (JObj ((":p", av_json p) :: j_opt ":s" (λ s, av_json (CString s)) prefix)) ∧
      (height (JObj ((":p", av_json p) :: j_opt ":s" (λ s, av_json (CString s)) prefix)) <= 2)%nat) as [Hvp Hvh].
    { apply (obj_printable 1). constructor; [split; [split; [by apply Ha|done]|done]|].
      apply j_opt_printable; [by apply Ha|]. intros s ->. by apply av_printable. }
    assert (printable (JObj [j_pair "#p" (sc_pk sc); j_pair "#s" (sc_sk sc)]) ∧
      (height (JObj [j_pair "#p" (sc_pk sc); j_pair "#s" (sc_sk sc)]) <= 1)%nat) as [Hnp Hnh].
    { apply (obj_printable 0). repeat constructor; try done; by apply Ha. }
    apply (obj_printable 2). repeat (apply Forall_cons; split; [split; [split|]|]); try done; try (by apply Ha).
    all: try (cbn; lia). cbn. apply Ha. by destruct prefix.
  - apply (obj_printable 2). repeat (apply Forall_cons; split; [split; [split|]|]); try done; try (by apply Ha). cbn. lia.
Qed.

(** ** Decoding the calls *)

Lemma put_decodes sc m :
  decode_fresh d_PutItemInput (Some (JObj [j_pair "TableName" (sc_name sc); ("Item", item_json m)])) =
    Some (mkPutItemInput (Some (wire_item m)) (sc_name sc)).
Proof.
  unfold decode_fresh. do 2 (unfold decode_member; cbn -[decode_entries d_AttributeValue]). by rewrite item_decodes.
Qed.
Lemma get_decodes sc m :
  decode_fresh d_GetItemInput (Some (JObj [j_pair "TableName" (sc_name sc); ("Key", item_json m)])) =
    Some (mkKeyInput (Some (wire_item m)) (sc_name sc)).
Proof.
  unfold decode_fresh. do 2 (unfold decode_member; cbn -[decode_entries d_AttributeValue]). by rewrite item_decodes.
Qed.
Lemma delete_decodes' sc m :
  decode_fresh d_DeleteItemInput (Some (JObj [j_pair "TableName" (sc_name sc); ("Key", item_json m)])) =
    Some (mkKeyInput (Some (wire_item m)) (sc_name sc)).
Proof.
  unfold decode_fresh. do 2 (unfold decode_member; cbn -[decode_entries d_AttributeValue]). by rewrite item_decodes.
Qed.

(** What a query's placeholders stand for. *)
Definition query_values (p : cval) (prefix : option string) : gmap string (option AttributeValue) :=
  let m := {[":p" := Some (wire p)]} in
  match prefix with None => m | Some s => <[":s" := Some (wire (CString s))]> m end.
Definition query_input (sc : schema) (p : cval) (prefix : option string) : QueryInput :=
  mkQueryInput None (Some (<["#s" := sc_sk sc]> {["#p" := sc_pk sc]})) (Some (query_values p prefix))
    (Some (condition prefix)) None (sc_name sc).

Lemma values_decode p prefix :
  decode_entries (d_ptr d_AttributeValue) ((":p", av_json p) :: j_opt ":s" (λ s, av_json (CString s)) prefix) ∅ =
    (query_values p prefix, true).
Proof.
  unfold decode_entries. cbn [fold_left fst snd]. change (zero (d_ptr d_AttributeValue)) with (None : option AttributeValue).
  rewrite wire_decodes. destruct prefix as [s|]; cbn [j_opt fold_left fst snd]; [|done].
  change (zero (d_ptr d_AttributeValue)) with (None : option AttributeValue). by rewrite wire_decodes.
Qed.
Lemma query_decodes sc p prefix :
  decode_fresh d_QueryInput (Some (call_json sc (DQuery p prefix))) = Some (query_input sc p prefix).
Proof.
  unfold decode_fresh, call_json. do 4 (unfold decode_member; cbn -[decode_entries d_AttributeValue condition j_opt av_json]).
  assert (decode_entries d_string [j_pair "#p" (sc_pk sc); j_pair "#s" (sc_sk sc)] ∅ =
    (<["#s" := sc_sk sc]> {["#p" := sc_pk sc]}, true)) as -> by reflexivity.
  cbv beta iota. cbn [qi_ExpressionAttributeValues default]. by rewrite values_decode.
Qed.
Lemma scan_decodes sc : decode_fresh d_ScanInput (Some (call_json sc DScan)) = Some (mkScanInput None None (sc_name sc)).
Proof. reflexivity. Qed.

(** The two supported conditions, whatever the tables of the case maps hold. *)
Lemma condition_parsed upper lower sc p prefix :
  text_ok p →
  parseKeyCondition upper lower (query_input sc p prefix) = Ok (value_of p, default "" prefix).
Proof.
  intros Hp. unfold parseKeyCondition, query_input. cbn [qi_KeyConditionExpression default].
  assert (∀ T (x : T), Datatypes.id x = x) as Hid by done. rewrite Hid.
  assert (∀ i, default ∅ (qi_ExpressionAttributeNames i) = <["#s" := sc_sk sc]> {["#p" := sc_pk sc]} →
    default ∅ (qi_ExpressionAttributeValues i) !! ":p" = Some (Some (wire p)) →
    decodeEqualsTerm "#p = :p" i = Ok (value_of p, sc_pk sc)) as He.
  { intros i Hn Hv. unfold decodeEqualsTerm. change (split_two "#p = :p" "=") with (Some ("#p ", " :p")). cbv iota beta zeta.
    change (TrimSpace "#p ") with "#p". change (TrimSpace " :p") with ":p". change (HasPrefix "#p" "#") with true. cbv iota.
    rewrite Hn. rewrite lookup_insert_ne by done. rewrite lookup_singleton_eq. cbn [obind]. unfold resolveValue. change (HasPrefix ":p" ":") with true. cbv iota.
    rewrite Hv, valueFromGen_wire by done. done. }
  destruct prefix as [s|]; cbn [condition].
  - change (String.eqb "#p = :p AND begins_with(#s, :s)" "") with false. cbv iota.
    assert (splitOnAnd upper "#p = :p AND begins_with(#s, :s)" = Ok ("#p = :p", "begins_with(#s, :s)", true)) as -> by reflexivity.
    cbn [obind]. rewrite He; [|done|done]. cbn [obind]. unfold decodeBeginsWith.
    change (TrimSpace "begins_with(#s, :s)") with "begins_with(#s, :s)".
    assert (strings_ToLower lower "begins_with(#s, :s)" = "begins_with(#s, :s)") as -> by reflexivity.
    change (negb (HasPrefix "begins_with(#s, :s)" "begins_with(") || negb (HasSuffix "begins_with(#s, :s)" ")")) with false.
    change (String.length "begins_with(#s, :s)" <? 12)%nat with false. cbv iota zeta.
    change (split_two (TrimSuffix (str_drop 12 "begins_with(#s, :s)") ")") ",") with (Some ("#s", " :s")). cbv iota.
    change (TrimSpace " :s") with ":s". unfold resolveValue. change (HasPrefix ":s" ":") with true. cbv iota.
    cbn [qi_ExpressionAttributeValues default query_values]. rewrite Hid, lookup_insert_eq. by cbn.
  - change (String.eqb "#p = :p" "") with false. cbv iota.
    assert (splitOnAnd upper "#p = :p" = Ok ("#p = :p", "", false)) as -> by reflexivity.
    cbn [obind]. by rewrite He.
Qed.

(** ** The table behind the session *)

Definition stored (m : item) : attrs := Some (value_of <$> m).
Definition holds (sc : schema) (t : gmap ckey item) (b : Backend) : Prop :=
  ∃ st, tables b !! sc_name sc = Some st ∧ PartitionKeyName (table st) = sc_pk sc ∧ SortKeyName (table st) = sc_sk sc ∧
    items_ref (items st) (stored <$> t) ∧ map_Forall (λ k m, key_ok sc k ∧ item_ok m) t.

(** What a call does to the map, and what it answers. *)
Definition next_items (c : dcall) (t : gmap ckey item) : gmap ckey item :=
  match c with DPut k m => <[k := m]> t | DDelete k => delete k t | _ => t end.
Definition listed (out : output) (l : list (ckey * item)) : Prop :=
  ∃ shown_items, out = ItemsOutput (wrap_s 32 (Z.of_nat (length l))) shown_items None ∧
    shown_items ≡ₚ (λ kv, Some (shown_item kv.2)) <$> l.
Definition answers (c : dcall) (t : gmap ckey item) (out : output) : Prop :=
  match c with
  | DPut _ _ => out = PutItemOutput
  | DGet k => out = GetItemOutput (shown_item <$> t !! k)
  | DDelete _ => out = DeleteItemOutput
  | DQuery p prefix =>
      listed out (filter (λ kv, kv.1.1 = p ∧ sort_selected (default "" prefix) kv.1.2) (map_to_list t))
  | DScan => listed out (map_to_list t)
  end.

Definition dkey (k : ckey) : Key := mkKey (value_of k.1) (value_of k.2).
Lemma canon_dkey k : canon_key (dkey k) = k.
Proof. destruct k. unfold canon_key, dkey. cbn. by rewrite !canon_value_of. Qed.
Lemma stored_copied m : copyAttrs (stored m) = stored m.
Proof.
  unfold stored. rewrite copyAttrs_fmap, <-map_fmap_compose. f_equal. apply map_fmap_ext. intros k c _. apply copy_value_of.
Qed.

Lemma no_sort_dkey sc k : key_ok sc k → String.eqb (sc_sk sc) "" = true → dkey k = mkKey (value_of k.1) zeroValue.
Proof. intros (_ & _ & H) E. rewrite E in H. unfold dkey. by rewrite H. Qed.

Lemma key_valid sc tbl k :
  PartitionKeyName tbl = sc_pk sc → SortKeyName tbl = sc_sk sc → key_ok sc k → validateKey tbl (dkey k) = None.
Proof.
  intros _ Hs Hk. destruct (Hk) as (H1 & _ & H2). unfold validateKey. cbn [dkey PartitionKey SortKey]. rewrite Hs.
  rewrite decide_False by (by apply value_of_known). destruct (String.eqb (sc_sk sc) "") eqn:E; cbn [andb negb].
  - by rewrite H2.
  - rewrite bool_decide_eq_false_2; [done|]. by apply value_of_known.
Qed.

Lemma key_wire sc tbl k :
  schema_ok sc → PartitionKeyName tbl = sc_pk sc → SortKeyName tbl = sc_sk sc → key_ok sc k →
  key_of tbl (Some (wire_item (key_item sc k))) = Ok (dkey k).
Proof.
  intros (_ & _ & Hne & _) Hp Hs Hk. destruct (Hk) as (H1 & _ & H2). unfold key_of, key_part, wire_item, key_item. rewrite Hp, Hs.
  cbn [default]. change (Datatypes.id ?x) with x. destruct (String.eqb (sc_sk sc) "") eqn:E.
  - rewrite map_fmap_singleton, lookup_singleton_eq, valueFromGen_wire by done. cbn [obind]. by rewrite <-(no_sort_dkey sc k).
  - rewrite fmap_insert, lookup_insert_eq, valueFromGen_wire by done. cbn [obind].
    rewrite lookup_insert_ne, map_fmap_singleton, lookup_singleton_eq, valueFromGen_wire by done. done.
Qed.

Lemma item_extract sc tbl k m :
  PartitionKeyName tbl = sc_pk sc → SortKeyName tbl = sc_sk sc → key_ok sc k → item_key sc m k →
  extractKey tbl (mkItem (stored m)) = Ok (dkey k).
Proof.
  intros Hp Hs Hk [H1 H2]. destruct (Hk) as (Hk1 & _ & Hk2). unfold extractKey, required, stored. cbn [Attributes]. rewrite Hp, Hs.
  cbn [mbind option_bind]. rewrite lookup_fmap, H1. cbn [fmap option_fmap option_map].
  rewrite decide_False by (by apply value_of_known). cbn [obind]. destruct (String.eqb_spec (sc_sk sc) "") as [E|E].
  - rewrite <-(no_sort_dkey sc k); [done|done|]. by apply String.eqb_eq.
  - rewrite lookup_fmap, (H2 E). cbn [fmap option_fmap option_map]. rewrite decide_False by (by apply value_of_known). done.
Qed.

(** The entries that a listing gives, in the order of their stored keys. *)
Lemma listed_items its t (P : string → Prop) (Q : ckey → Prop)
    `{!∀ k, Decision (P k)} `{!∀ ck, Decision (Q ck)} :
  items_ref its (stored <$> t) → map_Forall (λ _ m, item_ok m) t → (∀ ck, bar_free ck.1 → P (enc_key ck) ↔ Q ck) →
  listed (items_output (read_key its <$> sort_Strings (filter P (fst <$> map_to_list its))) "")
    (filter (λ kv, Q kv.1) (map_to_list t)).
Proof.
  intros Hr Ht HPQ. pose proof (listing its _ P Q Hr HPQ) as Hlst. rewrite map_to_list_fmap in Hlst.
  set (l := read_key its <$> _) in *.
  assert (snd <$> filter (λ p, Q p.1) (prod_map Datatypes.id stored <$> map_to_list t) =
    (λ kv, stored kv.2) <$> filter (λ kv, Q kv.1) (map_to_list t)) as Hf.
  { generalize (map_to_list t). induction l0 as [|[k m] l0 IH]; [done|]. cbn [fmap list_fmap prod_map fst snd].
    rewrite !filter_cons. cbn [fst]. change (Datatypes.id k) with k. destruct (decide (Q k)); cbn [fmap list_fmap snd]; [by f_equal|done]. }
  rewrite Hf in Hlst. unfold items_output. eexists. split.
  - f_equal. f_equal. f_equal. apply Permutation_length in Hlst. by rewrite !length_fmap in Hlst.
  - transitivity ((λ a, Some (attrsToGen a)) <$> (Attributes <$> l)); [by rewrite <-list_fmap_compose|]. rewrite Hlst, <-list_fmap_compose.
    apply reflexive_eq. apply list_fmap_ext. intros i [k m] Hi. cbn. f_equal. apply attrsToGen_value.
    apply list_elem_of_lookup_2, list_elem_of_filter in Hi as [_ Hi]. apply elem_of_map_to_list in Hi. by apply (Ht k).
Qed.

(** ** Sessions *)

Lemma dynamo_names : NoDup (op_name <$> dynamo_ops).
Proof. apply (bool_decide_unpack _). vm_compute. exact I. Qed.
Lemma dynamo_route {X} r o : calls "DynamoDB_20120810" (op_name o) r → route (X := X) RegisterDynamoDBRoutes r = inr o.
Proof.
  apply (route_registered op_name); [done|done|by destruct o|].
  fold (registered op_name "DynamoDB_20120810" dynamo_ops). rewrite registered_lookup by apply dynamo_names. by destruct o.
Qed.

Section session.
Context (upper lower Err_text Quote : string → string) (getenv : string → string).
Local Abbreviation routed d := (Dynamo_ServeHTTP (St := Backend) upper lower Err_text d).
Local Abbreviation serve := (DynamoDb.New (St := Backend) upper lower Err_text Quote getenv).

(** The adapter's answer to a call. *)
Definition adapter_answer (sc : schema) (d : draws) (c : dcall) : Backend → Backend * api output :=
  match c with
  | DPut _ m => Adapter_PutItem d (mkPutItemInput (Some (wire_item m)) (sc_name sc))
  | DGet k => Adapter_GetItem (mkKeyInput (Some (wire_item (key_item sc k))) (sc_name sc))
  | DDelete k => Adapter_DeleteItem (mkKeyInput (Some (wire_item (key_item sc k))) (sc_name sc))
  | DQuery p prefix => Adapter_Query upper lower (query_input sc p prefix)
  | DScan => Adapter_Scan (mkScanInput None None (sc_name sc))
  end.

Lemma routed_call sc c d r b :
  schema_ok sc → call_ok sc c → asks sc c r → routed d r b = answered_with (adapter_answer sc d c b).
Proof.
  intros Hsc Hc [Hr Hb]. unfold Dynamo_ServeHTTP, ServeHTTP. rewrite (dynamo_route r _ Hr).
  destruct (call_printable sc c Hsc Hc) as [Hp Hh].
  assert (first_missing [("TableName", sc_name sc)] = None) as Hm.
  { cbn. by rewrite (proj2 (String.eqb_neq _ _) (proj1 Hsc)). }
  destruct c as [k m|k|k|p prefix|]; cbn [call_handler handle adapter_answer]; eapply returning_handler_asks;
    try exact Hb; try exact Hp; try exact Hh; try exact I;
    try first [apply put_decodes|apply get_decodes|apply delete_decodes'|apply query_decodes|apply scan_decodes]; exact Hm.
Qed.

Definition served (sc : schema) (t : gmap ckey item) (c : dcall) (r : Backend * api output) : Prop :=
  ∃ b out, r = (b, Ok out) ∧ holds sc (next_items c t) b ∧ answers c t out.

Lemma needed_ok name v k (b : Backend) : v ≠ "" → needed name v k b = k b.
Proof. intros Hv. unfold needed. by rewrite (proj2 (String.eqb_neq _ _) Hv). Qed.

Lemma keyFromGen_holds sc t b k kont :
  schema_ok sc → holds sc t b → key_ok sc k →
  keyFromGen (St := Backend) (sc_name sc) (Some (wire_item (key_item sc k))) kont b = kont (dkey k) b.
Proof.
  intros Hsc (st & Hst & Hp & Hs & _) Hk. unfold keyFromGen, call, call_with. cbn [n_GetTable inmem_nosql]. unfold GetTable.
  rewrite Hst. unfold checked. by rewrite (key_wire sc (table st) k).
Qed.

Lemma holds_set sc t b st its :
  tables b !! sc_name sc = Some st → PartitionKeyName (table st) = sc_pk sc → SortKeyName (table st) = sc_sk sc →
  items_ref its (stored <$> t) → map_Forall (λ k m, key_ok sc k ∧ item_ok m) t →
  holds sc t (set_table b (sc_name sc) (mkTableState (table st) its)).
Proof. intros Hst Hp Hs Hi Ht. eexists. split; [by apply lookup_insert_eq|]. done. Qed.

Lemma put_served sc d k m t b :
  schema_ok sc → call_ok sc (DPut k m) → range_ok d → holds sc t b → served sc t (DPut k m) (adapter_answer sc d (DPut k m) b).
Proof.
  intros Hsc (Hk & Hkm & Hm) Hd (st & Hst & Hp & Hs & Hr & Ht). cbn [adapter_answer]. unfold Adapter_PutItem.
  cbn [pii_TableName pii_Item]. rewrite needed_ok by apply Hsc. rewrite attrsFromGen_wire by done. unfold checked, call, call_with.
  cbn [n_PutItem inmem_nosql]. unfold PutItem. rewrite Hst. fold (stored m). rewrite (item_extract sc (table st) k m) by done.
  eexists _, _. split; [reflexivity|]. split; [|done]. cbn [next_items Attributes].
  rewrite stored_copied, encodeKey_canon, canon_dkey. apply (holds_set sc _ b st); [done..| |by apply map_Forall_insert_2].
  rewrite fmap_insert. apply items_ref_insert; [done|by apply Hk|apply stored_copied].
Qed.

Lemma lookup_ref sc t its k :
  items_ref its (stored <$> t) → key_ok sc k → its !! encodeKey (dkey k) = (λ m, mkItem (stored m)) <$> t !! k.
Proof.
  intros Hr Hk. rewrite encodeKey_canon, canon_dkey, (ref_lookup _ _ Hr) by apply Hk. rewrite lookup_fmap, <-option_fmap_compose. done.
Qed.

Lemma get_served sc d k t b :
  schema_ok sc → key_ok sc k → holds sc t b → served sc t (DGet k) (adapter_answer sc d (DGet k) b).
Proof.
  intros Hsc Hk Hb. pose proof Hb as (st & Hst & Hp & Hs & Hr & Ht). cbn [adapter_answer]. unfold Adapter_GetItem.
  cbn [ki_TableName ki_Key]. rewrite needed_ok by apply Hsc. rewrite (keyFromGen_holds sc t) by done.
  cbn [n_GetItem inmem_nosql]. unfold GetItem. rewrite Hst, (key_valid sc) by done. rewrite (lookup_ref sc t) by done.
  destruct (t !! k) as [m|] eqn:E; cbn [fmap option_fmap option_map].
  - eexists _, _. split; [reflexivity|]. split; [done|]. cbn [answers]. rewrite E. cbn [Attributes]. rewrite stored_copied.
    cbn [fmap option_fmap option_map]. by rewrite <-(attrsToGen_value m) by apply (Ht k m E).
  - eexists _, _. split; [reflexivity|]. split; [done|]. cbn [answers]. by rewrite E.
Qed.

Lemma delete_served sc d k t b :
  schema_ok sc → key_ok sc k → holds sc t b → served sc t (DDelete k) (adapter_answer sc d (DDelete k) b).
Proof.
  intros Hsc Hk Hb. pose proof Hb as (st & Hst & Hp & Hs & Hr & Ht). cbn [adapter_answer]. unfold Adapter_DeleteItem.
  cbn [ki_TableName ki_Key]. rewrite needed_ok by apply Hsc. rewrite (keyFromGen_holds sc t) by done.
  cbn [n_DeleteItem inmem_nosql]. unfold DeleteItem. rewrite Hst, (key_valid sc) by done. rewrite (lookup_ref sc t) by done.
  destruct (t !! k) as [m|] eqn:E; cbn [fmap option_fmap option_map].
  - eexists _, _. split; [reflexivity|]. split; [|done]. cbn [next_items]. rewrite encodeKey_canon, canon_dkey.
    apply (holds_set sc _ b st); [done..| |by apply map_Forall_delete]. rewrite fmap_delete. apply items_ref_delete; [done|apply Hk].
  - eexists _, _. split; [reflexivity|]. split; [|done]. cbn [next_items]. by rewrite delete_id.
Qed.

Lemma query_served sc d p prefix t b :
  schema_ok sc → call_ok sc (DQuery p prefix) → holds sc t b →
  served sc t (DQuery p prefix) (adapter_answer sc d (DQuery p prefix) b).
Proof.
  intros Hsc (Hp & Hbf & _) Hb. pose proof Hb as (st & Hst & _ & _ & Hr & Ht). cbn [adapter_answer]. unfold Adapter_Query.
  rewrite needed_ok by apply Hsc. unfold checked at 1. rewrite condition_parsed by done.
  unfold checked, start_token, call, call_with. cbn [query_input qi_ExclusiveStartKey qi_Limit qi_TableName default].
  rewrite decide_True by done. cbn [n_Query inmem_nosql]. unfold Query. rewrite Hst. cbn [qo_Limit qo_SortKeyPrefix].
  rewrite page_loop_all by done. cbn [app qr_Items qr_NextPageToken]. eexists _, _. split; [reflexivity|]. split; [done|].
  cbn [answers]. unshelve epose proof (listed_items (items st) t (λ k, query_match (value_of p) (default "" prefix) k = true)
    (λ ck, ck.1 = p ∧ sort_selected (default "" prefix) ck.2) Hr _ _) as H; [by intros k m [_ ?]%Ht| |exact H].
  intros ck Hck. rewrite query_match_iff by (by rewrite ?canon_value_of). by rewrite canon_value_of.
Qed.

Lemma scan_served sc d t b : schema_ok sc → holds sc t b → served sc t DScan (adapter_answer sc d DScan b).
Proof.
  intros Hsc Hb. pose proof Hb as (st & Hst & _ & _ & Hr & Ht). cbn [adapter_answer]. unfold Adapter_Scan.
  rewrite needed_ok by apply Hsc. unfold checked, start_token, call, call_with. cbn [sci_ExclusiveStartKey sci_Limit sci_TableName default].
  rewrite decide_True by done. cbn [n_Scan inmem_nosql]. unfold Scan. rewrite Hst. cbn [sc_Limit].
  rewrite page_loop_all by done. cbn [app scr_Items scr_NextPageToken]. eexists _, _. split; [reflexivity|]. split; [done|].
  cbn [answers]. pose proof (listed_items (items st) t (λ _, True) (λ _, True)) as H. rewrite !filter_all in H. apply H; [done|by intros k m [_ ?]%Ht|done].
Qed.

Lemma adapter_served sc d c t b :
  schema_ok sc → call_ok sc c → range_ok d → holds sc t b → served sc t c (adapter_answer sc d c b).
Proof.
  intros Hsc Hc Hd Hb. destruct c; [by apply put_served|by apply get_served|by apply delete_served|by apply query_served|by apply scan_served].
Qed.

(** *** The creation of the table *)

Definition schema_elements (sc : schema) : list KeySchemaElement :=
  mkKeySchemaElement (sc_pk sc) "HASH" :: (if String.eqb (sc_sk sc) "" then [] else [mkKeySchemaElement (sc_sk sc) "RANGE"]).
Definition element_json (e : KeySchemaElement) : json :=
  JObj [j_pair "AttributeName" (ks_AttributeName e); j_pair "KeyType" (ks_KeyType e)].
Definition create_json (sc : schema) : json :=
  JObj [j_pair "TableName" (sc_name sc); ("KeySchema", JArr (element_json <$> schema_elements sc))].

Lemma create_printable sc : schema_ok sc → printable (create_json sc) ∧ (height (create_json sc) <= 3)%nat.
Proof.
  intros (_ & _ & _ & Hv). inversion_clear Hv as [|? ? Hn Hv']. inversion_clear Hv' as [|? ? Hp Hv].
  inversion_clear Hv as [|? ? Hs _].
  assert (∀ n k, valid_utf8 n → all_bytes (λ c, (N_of_ascii c <? 128)%N) k = true →
    printable (element_json (mkKeySchemaElement n k)) ∧ (height (element_json (mkKeySchemaElement n k)) <= 1)%nat) as He.
  { intros n k Hvn Hk. apply (obj_printable 0). repeat constructor; try done; by apply ascii_valid_utf8. }
  destruct (He (sc_pk sc) "HASH" Hp eq_refl) as [H1 H1']. destruct (He (sc_sk sc) "RANGE" Hs eq_refl) as [H2 H2'].
  apply (obj_printable 2). apply Forall_cons. split; [split; [split; [by apply ascii_valid_utf8|done]|cbn; lia]|].
  apply Forall_singleton. cbn [snd fst]. split; [split; [by apply ascii_valid_utf8|]|].
  - apply printable_arr. unfold schema_elements. destruct (String.eqb _ _); repeat constructor; first [apply H1|apply H2|done].
  - cbn [height]. apply le_n_S. unfold schema_elements. destruct (String.eqb _ _); cbn; lia.
Qed.

Lemma create_decodes sc :
  decode_fresh d_CreateTableInput (Some (create_json sc)) = Some (mkCreateTableInput (schema_elements sc) (sc_name sc) []).
Proof. unfold create_json, schema_elements. by destruct (String.eqb (sc_sk sc) ""). Qed.

Lemma create_served sc d b :
  schema_ok sc → tables b !! sc_name sc = None →
  ∃ b' td, Adapter_CreateTable d (mkCreateTableInput (schema_elements sc) (sc_name sc) []) b = (b', Ok (CreateTableOutput td)) ∧
    td_KeySchema td = schema_elements sc ∧ holds sc ∅ b'.
Proof.
  intros Hsc Hb. destruct (Hsc) as (Hn & Hp & _). unfold Adapter_CreateTable. cbn [cti_TableName cti_KeySchema cti_Tags].
  rewrite needed_ok by done. unfold schema_elements at 1.
  assert (key_names (schema_elements sc) = (sc_pk sc, sc_sk sc)) as ->.
  { unfold schema_elements, key_names. cbn [fold_left ks_AttributeName ks_KeyType]. rewrite (proj2 (String.eqb_neq _ _) Hp).
    destruct (String.eqb_spec (sc_sk sc) "") as [E|E]; cbn; [by rewrite E|]. by rewrite (proj2 (String.eqb_neq _ _) E). }
  rewrite (proj2 (String.eqb_neq _ _) Hp). unfold call, call_with. cbn [n_CreateTable inmem_nosql]. unfold CreateTable.
  cbn [ct_PartitionKeyName ct_SortKeyName ct_Description ct_Tags]. rewrite (proj2 (String.eqb_neq _ _) Hn), (proj2 (String.eqb_neq _ _) Hp), Hb.
  eexists _, _. split; [reflexivity|]. split.
  - unfold tableDescription, schema_elements. cbn [td_KeySchema PartitionKeyName SortKeyName]. rewrite (proj2 (String.eqb_neq _ _) Hp). done.
  - eexists. split; [by apply lookup_insert_eq|]. cbn [table PartitionKeyName SortKeyName items]. split; [done|]. split; [done|].
    rewrite fmap_empty. split; [apply items_ref_empty|apply map_Forall_empty].
Qed.

(** *** Runs *)

Record arrival := mkArrival { a_draws : draws; a_now : Time; a_call : dcall; a_request : Request }.

Fixpoint serve_all (l : list arrival) (b : Backend) : option (Backend * list (Response (payload output))) :=
  match l with
  | [] => Some (b, [])
  | a :: l =>
      match serve (a_draws a) (a_now a) (a_request a) b with
      | Some (b, Some resp) => (λ x : Backend * list (Response (payload output)), (x.1, resp :: x.2)) <$> serve_all l b
      | _ => None
      end
  end.

(** The answers of a run, by the map: an error of the verifier for a request it
    refuses, which the map does not see; for another, its call's answer. *)
Fixpoint session_answers (l : list arrival) (t : gmap ckey item) (resps : list (Response (payload output))) : Prop :=
  match l, resps with
  | [], [] => True
  | a :: l, resp :: resps =>
      match dynamo_refuses Quote getenv (a_now a) (a_request a) with
      | Some (status, type, message) => resp = WriteError ∅ status type message ∧ session_answers l t resps
      | None => (∃ out, resp = WriteJSON ∅ 200 out ∧ answers (a_call a) t out) ∧ session_answers l (next_items (a_call a) t) resps
      end
  | _, _ => False
  end.

Definition arrival_ok (sc : schema) (a : arrival) : Prop :=
  range_ok (a_draws a) ∧ call_ok sc (a_call a) ∧ asks sc (a_call a) (a_request a).

Lemma session_served sc l t b :
  schema_ok sc → Forall (arrival_ok sc) l → holds sc t b →
  ∃ b' resps, serve_all l b = Some (b', resps) ∧ session_answers l t resps.
Proof.
  intros Hsc Hl. revert t b. induction Hl as [|a l (Hd & Hc & Ha) Hl IH]; intros t b Hb; [by exists b, []|].
  cbn [serve_all session_answers]. unfold DynamoDb.New, Guarded.
  destruct (dynamo_refuses Quote getenv (a_now a) (a_request a)) as [[[st ty] msg]|] eqn:Er.
  - destruct (IH t b Hb) as (b' & resps & E & Hs). rewrite E. eexists _, _. split; [reflexivity|]. done.
  - rewrite (routed_call sc (a_call a)) by done. destruct (adapter_served sc (a_draws a) (a_call a) t b) as (b1 & out & E1 & Hb1 & Ho); [done..|].
    rewrite E1. cbn [answered_with]. destruct (IH _ b1 Hb1) as (b' & resps & E & Hs). rewrite E. eexists _, _. split; [reflexivity|].
    split; [by exists out|done].
Qed.

(** C6: A DynamoDB client that creates a table over HTTP and then sends any
    sequence of signed puts, gets, deletions, queries and scans to it, as JSON
    bodies, gets the answers of a finite map from composite keys to items: an
    accepted put stores its item at its key, a get returns the item last put
    there and not deleted since, or none, a query the items of its partition
    whose sort key has its prefix, a scan all of them, each once; a request that
    the signature verifier refuses gets its error and changes nothing.  Keys and
    texts are UTF-8 and partition values have no bar; listings have no limit. *)
Theorem dynamo_sessions_refine_map sc d0 now0 r0 l b :
  schema_ok sc → tables b !! sc_name sc = None →
  calls "DynamoDB_20120810" "CreateTable" r0 → has_body r0 (create_json sc) →
  dynamo_refuses Quote getenv now0 r0 = None → Forall (arrival_ok sc) l →
  ∃ b1 td b' resps,
    serve d0 now0 r0 b = Some (b1, Some (WriteJSON ∅ 200 (CreateTableOutput td))) ∧ td_KeySchema td = schema_elements sc ∧
    serve_all l b1 = Some (b', resps) ∧ session_answers l ∅ resps.
Proof.
  intros Hsc Hb Hr Hbody Href Hl. destruct (create_served sc d0 b Hsc Hb) as (b1 & td & E & Htd & Hb1).
  destruct (session_served sc l ∅ b1 Hsc Hl Hb1) as (b' & resps & E' & Hs). exists b1, td, b', resps.
  split; [|done]. unfold DynamoDb.New, Guarded. rewrite Href. unfold Dynamo_ServeHTTP, ServeHTTP.
  rewrite (dynamo_route r0 CreateTableHandler Hr). cbn [handle]. destruct (create_printable sc Hsc) as [Hp Hh].
  unfold handler. erewrite returning_handler_asks; [|exact Hbody|exact Hp|exact Hh|exact I|apply create_decodes|].
  - by rewrite E.
  - cbn. by rewrite (proj2 (String.eqb_neq _ _) (proj1 Hsc)).
Qed.
End session.

(** ** A page that looks like the last one *)

(** A scan with a limit below the number of items answers with the first
    [limit] items and without a LastEvaluatedKey, so the client takes them for
    the whole table: the backend's token is a stored key, which is no
    name=type:value list, and the adapter drops the error of decoding it. *)
Theorem limited_scan_looks_complete b n st limit :
  n ≠ "" → tables b !! n = Some st → 0 < limit < Z.of_nat (size (items st)) →
  map_Forall (λ k _, str_mem "=" k = false) (items st) →
  ∃ l count, Adapter_Scan (mkScanInput None (Some limit) n) b = (b, Ok (ItemsOutput count l None)) ∧
    Z.of_nat (length l) = limit.
Proof.
  intros Hn Hst Hlim Heq. unfold Adapter_Scan. rewrite needed_ok by done. unfold checked, start_token, call, call_with.
  cbn [sci_ExclusiveStartKey sci_Limit sci_TableName default]. rewrite decide_True by done. cbn [n_Scan inmem_nosql].
  unfold Scan. rewrite Hst. cbn [sc_Limit]. change (Datatypes.id limit) with limit. fold (scan_keys st).
  rewrite page_loop_limit by (cbn; lia). cbn [scr_Items scr_NextPageToken app length]. rewrite Nat.sub_0_r.
  assert (length (scan_keys st) = size (items st)) as Hlen.
  { unfold scan_keys. rewrite sort_Strings_perm, length_fmap. apply length_map_to_list. }
  destruct (lookup_lt_is_Some_2 (scan_keys st) (Z.to_nat limit)) as [k Hk]; [lia|]. rewrite Hk. change (default "" (Some k)) with k.
  assert (str_mem "=" k = false) as Hke.
  { apply list_elem_of_lookup_2 in Hk. unfold scan_keys in Hk. rewrite sort_Strings_perm, list_elem_of_fmap in Hk.
    destruct Hk as ([k' it] & -> & Hin%elem_of_map_to_list). by apply (Heq k' it). }
  unfold items_output. assert ((if String.eqb k "" then None else default None (decodeStartKey k)) = None) as ->.
  { destruct (String.eqb k "") eqn:E; [done|]. unfold decodeStartKey. rewrite E.
    pose proof (Join_Split k ";") as Hj. pose proof (Split_nonempty k ";") as Hne.
    destruct (Split k ";") as [|w ws]; [done|]. cbn [decode_parts]. unfold decode_part.
    assert (str_mem "=" w = false) as Hw.
    { destruct ws as [|w' ws]; [cbn in Hj; by rewrite Hj|]. rewrite Join_cons in Hj by done. rewrite <-Hj, str_mem_app in Hke.
      by apply orb_false_iff in Hke as [? _]. }
    apply IndexByte_None in Hw. by rewrite Hw. }
  eexists _, _. split; [reflexivity|]. rewrite !length_fmap, length_take. lia.
Qed.

(** ** Witnesses *)

Definition demo_schema : schema := mkSchema "orders" "customer" "day".
Definition demo_draws : draws := mkDraws 1 (λ A m, map_to_list m).
Definition demo_item' (c d t : string) : item := {["customer" := CString c; "day" := CString d; "total" := CNumber t]}.
Definition demo_key' (c d : string) : ckey := (CString c, CString d).
Definition dynamo_post (op : string) (v : json) : Request :=
  mkRequest "POST" "" "" "/" "" "/" "" ∅ {["X-Amz-Target" := ["DynamoDB_20120810." +:+ op]]} 1
    (Some (Reads (bytes_of_string (print v)))).
Definition demo_arrival (c : dcall) : arrival :=
  mkArrival demo_draws 5 c (dynamo_post (op_name (call_handler c)) (call_json demo_schema c)).
Definition demo_calls : list dcall :=
  [DPut (demo_key' "ann" "1") (demo_item' "ann" "1" "7"); DPut (demo_key' "ann" "2") (demo_item' "ann" "2" "9");
   DGet (demo_key' "ann" "1"); DDelete (demo_key' "ann" "1"); DQuery (CString "ann") (Some "2"); DScan].
Definition open_env (name : string) : string := if String.eqb name "SHIMANISM_TEST_UNAUTHENTICATED" then "1" else "".

Lemma demo_key_ok c d : all_bytes (λ c, (N_of_ascii c <? 128)%N) c = true → all_bytes (λ c, (N_of_ascii c <? 128)%N) d = true →
  str_mem "|" c = false → key_ok demo_schema (demo_key' c d).
Proof. intros Hc Hd Hb. split; [by apply ascii_valid_utf8|]. split; [|by apply ascii_valid_utf8]. exact Hb. Qed.
Lemma demo_item_ok c d t : Forall (λ s, all_bytes (λ c, (N_of_ascii c <? 128)%N) s = true) [c; d; t] → item_ok (demo_item' c d t).
Proof.
  intros Hl. inversion_clear Hl as [|? ? Hc Hl']. inversion_clear Hl' as [|? ? Hd Hl]. inversion_clear Hl as [|? ? Ht _].
  unfold demo_item'. repeat (apply map_Forall_insert_2; [split; by apply ascii_valid_utf8|]).
  apply map_Forall_empty.
Qed.

Lemma demo_arrival_ok c : call_ok demo_schema c → arrival_ok demo_schema (demo_arrival c).
Proof. intros Hc. split; [by intros A m|]. split; [done|]. split; [split; [done|]; by destruct c|by split]. Qed.

Lemma dynamo_sessions_refine_map_witness :
  ∃ b1 td b' resps,
    DynamoDb.New (St := Backend) Datatypes.id Datatypes.id Datatypes.id Datatypes.id open_env demo_draws 5
      (dynamo_post "CreateTable" (create_json demo_schema)) NoSql.New = Some (b1, Some (WriteJSON ∅ 200 (CreateTableOutput td))) ∧
    td_KeySchema td = schema_elements demo_schema ∧
    serve_all Datatypes.id Datatypes.id Datatypes.id Datatypes.id open_env (demo_arrival <$> demo_calls) b1 = Some (b', resps) ∧
    session_answers Datatypes.id open_env (demo_arrival <$> demo_calls) ∅ resps.
Proof.
  apply (dynamo_sessions_refine_map Datatypes.id Datatypes.id Datatypes.id Datatypes.id open_env demo_schema demo_draws 5
    (dynamo_post "CreateTable" (create_json demo_schema)) (demo_arrival <$> demo_calls) NoSql.New).
  - split; [done|]. split; [done|]. split; [done|]. repeat constructor; by apply ascii_valid_utf8.
  - reflexivity.
  - by split.
  - by split.
  - reflexivity.
  - apply Forall_fmap. apply (Forall_impl (call_ok demo_schema)); [|intros c Hc; by apply demo_arrival_ok].
    assert (∀ c d, In (c, d) [("ann", "1"); ("ann", "2")] → key_ok demo_schema (demo_key' c d)) as Hk.
    { intros c d [[= <- <-]|[[= <- <-]|[]]]; by apply demo_key_ok. }
    assert (∀ d t, d = "1" ∧ t = "7" ∨ d = "2" ∧ t = "9" → item_ok (demo_item' "ann" d t)) as Hi.
    { intros d t [[-> ->]|[-> ->]]; apply demo_item_ok; by repeat constructor. }
    repeat (apply Forall_cons; split); [..|apply Forall_nil_2]; cbn [call_ok]; try (apply Hk; cbn; auto).
    + split; [apply Hk; cbn; auto|]. split; [by repeat split|apply Hi; auto].
    + split; [apply Hk; cbn; auto|]. split; [by repeat split|apply Hi; auto].
    + repeat split; try done; by apply ascii_valid_utf8.
Defined.

Definition demo_full : Backend :=
  run_all [OpCreateTable 1 "orders" (mkCreateTableOptions "customer" "day" "" None);
    OpPutItem "orders" (mkItem (stored (demo_item' "ann" "1" "7"))); OpPutItem "orders" (mkItem (stored (demo_item' "ann" "2" "9")))] NoSql.New.
Lemma limited_scan_looks_complete_witness :
  ∃ st l count, tables demo_full !! "orders" = Some st ∧ size (items st) = 2%nat ∧
    Adapter_Scan (mkScanInput None (Some 1) "orders") demo_full = (demo_full, Ok (ItemsOutput count l None)) ∧ Z.of_nat (length l) = 1.
Proof.
  assert (from_option (λ st, bool_decide (size (items st) = 2%nat) && bool_decide (map_Forall (λ k _, str_mem "=" k = false) (items st)))
    false (tables demo_full !! "orders") = true) as Hb by (vm_compute; reflexivity).
  destruct (tables demo_full !! "orders") as [st|] eqn:E; [|discriminate Hb]. cbn [from_option] in Hb.
  apply andb_true_iff in Hb as [Hs%bool_decide_eq_true Hk%bool_decide_eq_true].
  destruct (limited_scan_looks_complete demo_full "orders" st 1) as (l & count & H1 & H2); [done|exact E|rewrite Hs; lia|exact Hk|].
  exists st, l, count. auto.
Defined.
