(* ===== verification/PubSub.v ===== *)
(** * Publish/subscribe: domain types, errors and the in-process backend

    Models [internal/pubsub/domain] and [services/pubsub/backends/inmem].  A
    topic holds the set of its subscriptions' names; a subscription holds its
    own copies of the published messages, pending or in flight.  The clock, the
    random bytes of [newID] and the order of the range over an in-flight map
    are arguments; the ranges over a topic's subscriptions touch a different
    subscription each, so they follow the order of the set's elements. *)

From S2P Require Import Prelude GoStrings GoBytes LongPoll.

(** ** domain/errors.go *)

Inductive Kind :=
  | KindUnknown | KindNoSuchTopic | KindTopicAlreadyExists | KindNoSuchSubscription
  | KindSubscriptionAlreadyExists | KindInvalidReceiptHandle | KindMessageTooLarge | KindInvalidArgument.
#[export] Instance Kind_eq_dec : EqDecision Kind.
Proof. solve_decision. Defined.

Inductive error :=
  | Plain (text : string)
  | DomainError (Kind_ : Kind) (Resource Message : string) (Inner : option error).

Definition message_or (msg dflt : string) : string := if negb (String.eqb msg "") then msg else dflt.

(** [Quote] is the [%q] of the format strings ([strconv.Quote]). *)
Definition Error_text (Quote : string → string) (e : error) : string :=
  match e with
  | Plain t => t
  | DomainError k r m _ =>
      match k with
      | KindNoSuchTopic => "topic " +:+ Quote r +:+ " does not exist"
      | KindTopicAlreadyExists => "topic " +:+ Quote r +:+ " already exists"
      | KindNoSuchSubscription => "subscription " +:+ Quote r +:+ " does not exist"
      | KindSubscriptionAlreadyExists => "subscription " +:+ Quote r +:+ " already exists"
      | KindInvalidReceiptHandle => message_or m "invalid receipt handle"
      | KindMessageTooLarge => message_or m "message size exceeds topic maximum"
      | KindInvalidArgument => m
      | KindUnknown => message_or m "pubsub domain error"
      end
  end.
Definition Unwrap (e : error) : option error :=
  match e with Plain _ => None | DomainError _ _ _ i => i end.

Definition NoSuchTopic (name : string) : error := DomainError KindNoSuchTopic name "" None.
Definition TopicAlreadyExists (name : string) : error := DomainError KindTopicAlreadyExists name "" None.
Definition NoSuchSubscription (name : string) : error := DomainError KindNoSuchSubscription name "" None.
Definition SubscriptionAlreadyExists (name : string) : error :=
  DomainError KindSubscriptionAlreadyExists name "" None.
Definition InvalidReceiptHandle (message : string) : error :=
  DomainError KindInvalidReceiptHandle "" message None.
Definition MessageTooLarge (message : string) : error := DomainError KindMessageTooLarge "" message None.
Definition InvalidArgument (message : string) : error := DomainError KindInvalidArgument "" message None.

Abbreviation result := (outcome error).

(** ** domain/domain.go *)

Record Topic := mkTopic { Topic_Name : string; Topic_CreatedAt : Time }.
Record Subscription := mkSubscription {
  Sub_Name : string; Sub_Topic : string; AckDeadlineSeconds : Z; Durable : bool; Sub_CreatedAt : Time }.
Record Message := mkMessage {
  MessageID : string; Body : slice; Attributes : strmap; ReceiptHandle : string; ReceivedAt : Time;
  DeliveryCount : Z }.
Record CreateTopicOptions := mkCreateTopicOptions { ct_Attributes : strmap }.
Record CreateSubscriptionOptions := mkCreateSubscriptionOptions {
  cs_AckDeadlineSeconds : Z; cs_Durable : bool }.
Record PublishOptions := mkPublishOptions { po_Body : slice; po_Attributes : strmap }.
Record PublishResult := mkPublishResult { pr_MessageID : string }.
Record ReceiveOptions := mkReceiveOptions { MaxMessages : Z; AckDeadline : Z; WaitTime : Z }.
Record ListTopicsOptions := mkListTopicsOptions { lt_Prefix : string; lt_MaxResults : Z; lt_NextToken : string }.
Record ListTopicsResult := mkListTopicsResult { ltr_Topics : list Topic; ltr_NextToken : string }.
Record ListSubscriptionsOptions := mkListSubscriptionsOptions {
  ls_Topic : string; ls_MaxResults : Z; ls_NextToken : string }.
Record ListSubscriptionsResult := mkListSubscriptionsResult {
  lsr_Subscriptions : list Subscription; lsr_NextToken : string }.

(** ** inmem.go *)

Record topicState := mkTopicState { t_name : string; t_createdAt : Time; t_subs : gset string }.
Record messageState := mkMessageState {
  id : string; body : slice; attributes : strmap; enqueuedAt : Time; deliveryCount : Z;
  receiptHandle : string; visibleAt : Time }.
Record subscriptionState := mkSubscriptionState {
  s_name : string; s_topic : string; ackDeadlineSeconds : Z; durable : bool; s_createdAt : Time;
  pending : list messageState; inflight : gmap string messageState }.
Record Backend := mkBackend { topics : gmap string topicState; subs : gmap string subscriptionState }.

Definition New : Backend := mkBackend ∅ ∅.

Definition copyStrMap (m : strmap) : strmap :=
  match m with None => None | Some m => Some (put_all m ∅) end.
Definition copyBytes (s : slice) : slice :=
  match s with None => None | Some l => Some (map (λ b, b) l) end.
Definition newID (rnd : bytes) : string := hex_EncodeToString rnd.

Definition set_sub (b : Backend) (name : string) (s : subscriptionState) : Backend :=
  mkBackend (topics b) (<[name := s]> (subs b)).
Definition set_messages (s : subscriptionState) (p : list messageState) (f : gmap string messageState)
    : subscriptionState :=
  mkSubscriptionState (s_name s) (s_topic s) (ackDeadlineSeconds s) (durable s) (s_createdAt s) p f.
Definition set_t_subs (t : topicState) (names : gset string) : topicState :=
  mkTopicState (t_name t) (t_createdAt t) names.

(** ** Topics *)

Definition topic_of (t : topicState) : Topic := mkTopic (t_name t) (t_createdAt t).

Definition CreateTopic (now : Time) (name : string) (opt : CreateTopicOptions) (b : Backend)
    : Backend * result Topic :=
  match topics b !! name with
  | Some _ => (b, Err (TopicAlreadyExists name))
  | None => (mkBackend (<[name := mkTopicState name now ∅]> (topics b)) (subs b), Ok (mkTopic name now))
  end.

Definition DeleteTopic (name : string) (b : Backend) : Backend * result unit :=
  match topics b !! name with
  | None => (b, Err (NoSuchTopic name))
  | Some t =>
      (mkBackend (delete name (topics b)) (fold_left (λ m sn, delete sn m) (elements (t_subs t)) (subs b)),
       Ok ())
  end.

Definition HeadTopic (name : string) (b : Backend) : Backend * result Topic :=
  match topics b !! name with
  | None => (b, Err (NoSuchTopic name))
  | Some t => (b, Ok (topic_of t))
  end.

(** [break] once the list has [max] elements, when [max] is positive. *)
Fixpoint up_to {A} (max : Z) (l out : list A) : list A :=
  match l with
  | [] => out
  | x :: l =>
      let out := out ++ [x] in
      if (0 <? max) && (max <=? Z.of_nat (length out)) then out else up_to max l out
  end.

Definition ListTopics (opt : ListTopicsOptions) (b : Backend) : Backend * result ListTopicsResult :=
  let names := sort_Strings
    (filter (λ n, lt_Prefix opt = "" ∨ HasPrefix n (lt_Prefix opt) = true) (fst <$> map_to_list (topics b))) in
  (b, Ok (mkListTopicsResult
            (up_to (lt_MaxResults opt) (omap (λ n, topic_of <$> topics b !! n) names) []) "")).

(** ** Subscriptions *)

Definition subscriptionFromState (s : subscriptionState) : Subscription :=
  mkSubscription (s_name s) (s_topic s) (ackDeadlineSeconds s) (durable s) (s_createdAt s).

Definition ack_deadline (n : Z) : Z :=
  let n := if n <=? 0 then 30 else n in if 600 <? n then 600 else n.

Definition CreateSubscription (now : Time) (topic sub : string) (opt : CreateSubscriptionOptions)
    (b : Backend) : Backend * result Subscription :=
  match topics b !! topic with
  | None => (b, Err (NoSuchTopic topic))
  | Some t =>
      match subs b !! sub with
      | Some _ => (b, Err (SubscriptionAlreadyExists sub))
      | None =>
          let s := mkSubscriptionState sub topic (ack_deadline (cs_AckDeadlineSeconds opt))
                     (cs_Durable opt) now [] ∅ in
          (mkBackend (<[topic := set_t_subs t ({[sub]} ∪ t_subs t)]> (topics b)) (<[sub := s]> (subs b)),
           Ok (subscriptionFromState s))
      end
  end.

Definition DeleteSubscription (sub : string) (b : Backend) : Backend * result unit :=
  match subs b !! sub with
  | None => (b, Err (NoSuchSubscription sub))
  | Some s =>
      (mkBackend
         (match topics b !! s_topic s with
          | Some t => <[s_topic s := set_t_subs t (t_subs t ∖ {[sub]})]> (topics b)
          | None => topics b
          end) (delete sub (subs b)), Ok ())
  end.

Definition HeadSubscription (sub : string) (b : Backend) : Backend * result Subscription :=
  match subs b !! sub with
  | None => (b, Err (NoSuchSubscription sub))
  | Some s => (b, Ok (subscriptionFromState s))
  end.

Definition ListSubscriptions (opt : ListSubscriptionsOptions) (b : Backend)
    : Backend * result ListSubscriptionsResult :=
  let names := sort_Strings (fst <$>
    filter (λ p, ls_Topic opt = "" ∨ s_topic p.2 = ls_Topic opt) (map_to_list (subs b))) in
  (b, Ok (mkListSubscriptionsResult
            (up_to (ls_MaxResults opt) (omap (λ n, subscriptionFromState <$> subs b !! n) names) []) "")).

(** ** Messages *)

(** One turn of the fan-out loop. *)
Definition publish_to (m : messageState) (ss : gmap string subscriptionState) (sn : string)
    : gmap string subscriptionState :=
  match ss !! sn with
  | None => ss
  | Some s => <[sn := set_messages s (pending s ++ [m]) (inflight s)]> ss
  end.

Definition Publish (now : Time) (rnd : bytes) (topic : string) (opt : PublishOptions) (b : Backend)
    : Backend * result PublishResult :=
  match topics b !! topic with
  | None => (b, Err (NoSuchTopic topic))
  | Some t =>
      let m := mkMessageState (newID rnd) (copyBytes (po_Body opt)) (copyStrMap (po_Attributes opt)) now
                 0 "" zeroTime in
      (mkBackend (topics b) (fold_left (publish_to m) (elements (t_subs t)) (subs b)),
       Ok (mkPublishResult (newID rnd)))
  end.

(** [m.receiptHandle = ""; m.visibleAt = time.Time{}] *)
Definition release (m : messageState) : messageState :=
  mkMessageState (id m) (body m) (attributes m) (enqueuedAt m) (deliveryCount m) "" zeroTime.

(** The range over the in-flight map visits the handles of [order]. *)
Fixpoint reclaimInflight (now : Time) (order : list string) (s : subscriptionState) : subscriptionState :=
  match order with
  | [] => s
  | h :: order =>
      match inflight s !! h with
      | None => reclaimInflight now order s
      | Some m =>
          reclaimInflight now order
            (if negb (now <? visibleAt m)
             then set_messages s (pending s ++ [release m]) (delete h (inflight s))
             else s)
      end
  end.

Definition batch_size (n : Z) : Z := if (n <=? 0) || (10 <? n) then 10 else n.
Definition lock_seconds (n dflt : Z) : Z :=
  let v := if n <=? 0 then dflt else n in if 600 <? v then 600 else v.

Definition deliver (now : Time) (handle : string) (visibility : Z) (m : messageState) : messageState :=
  mkMessageState (id m) (body m) (attributes m) (enqueuedAt m) (wrap_s 64 (deliveryCount m + 1)) handle
    (now + seconds visibility).
Definition message_of (now : Time) (m : messageState) : Message :=
  mkMessage (id m) (copyBytes (body m)) (copyStrMap (attributes m)) (receiptHandle m) now (deliveryCount m).

(** The loop over the pending messages; [length out] counts the handles drawn. *)
Fixpoint receive_pending (now : Time) (rnd : nat → bytes) (max visibility : Z) (msgs : list messageState)
    (f : gmap string messageState) (out : list Message) (remaining : list messageState)
    : gmap string messageState * list Message * list messageState :=
  match msgs with
  | [] => (f, out, remaining)
  | m :: msgs =>
      if Z.of_nat (length out) <? max then
        let m := deliver now (newID (rnd (length out))) visibility m in
        receive_pending now rnd max visibility msgs (<[receiptHandle m := m]> f) (out ++ [message_of now m])
          remaining
      else receive_pending now rnd max visibility msgs f out (remaining ++ [m])
  end.

(** What [Receive] does while it holds the lock. *)
Definition receive_once (now : Time) (order : list string) (rnd : nat → bytes) (sub : string)
    (opt : ReceiveOptions) (b : Backend) : Backend * result (list Message) :=
  match subs b !! sub with
  | None => (b, Err (NoSuchSubscription sub))
  | Some s =>
      let s := reclaimInflight now order s in
      let '(f, out, remaining) :=
        receive_pending now rnd (batch_size (MaxMessages opt)) (lock_seconds (AckDeadline opt) (ackDeadlineSeconds s))
          (pending s) (inflight s) [] [] in
      (set_sub b sub (set_messages s remaining f), Ok out)
  end.

(** The polling loop, from the state in which it starts. *)
Definition receive_loop (fuel : nat) (env : nat → tick Backend error) (deadline : Time) (sub : string)
    (opt : ReceiveOptions) (b : Backend) : option (Backend * result (list Message)) :=
  poll (λ t b, receive_once (tk_now t) (tk_order t) (tk_rnd t) sub opt b) (WaitTime opt <=? 0) deadline fuel env b.

Definition Receive (fuel : nat) (start : Time) (env : nat → tick Backend error) (sub : string) (opt : ReceiveOptions)
    (b : Backend) : option (Backend * result (list Message)) :=
  receive_loop fuel env (start + seconds (WaitTime opt)) sub opt b.

Definition Ack (sub handle : string) (b : Backend) : Backend * result unit :=
  match subs b !! sub with
  | None => (b, Err (NoSuchSubscription sub))
  | Some s =>
      match inflight s !! handle with
      | None => (b, Err (InvalidReceiptHandle ("receipt handle is not in flight on " +:+ sub)))
      | Some _ => (set_sub b sub (set_messages s (pending s) (delete handle (inflight s))), Ok ())
      end
  end.

Definition ChangeVisibility (now : Time) (sub handle : string) (visibilityTimeout : Z) (b : Backend)
    : Backend * result unit :=
  match subs b !! sub with
  | None => (b, Err (NoSuchSubscription sub))
  | Some s =>
      match inflight s !! handle with
      | None => (b, Err (InvalidReceiptHandle ("receipt handle is not in flight on " +:+ sub)))
      | Some m =>
          if visibilityTimeout <=? 0 then
            (set_sub b sub (set_messages s (pending s ++ [release m]) (delete handle (inflight s))), Ok ())
          else
            let v := if 600 <? visibilityTimeout then 600 else visibilityTimeout in
            let m := mkMessageState (id m) (body m) (attributes m) (enqueuedAt m) (deliveryCount m)
                       (receiptHandle m) (now + seconds v) in
            (set_sub b sub (set_messages s (pending s) (<[handle := m]> (inflight s))), Ok ())
      end
  end.
