(* ===== verification/PubSubProps.v ===== *)
(** * Publish/subscribe: the properties of the in-process backend

    A publish reaches exactly the topic's subscriptions, and what happens on
    one subscription never touches another (double entry over all operations);
    topics and subscriptions refer to each other; what a receive hands out; the
    long poll returns. *)

From S2P Require Import Prelude GoStrings GoBytes Ledger LongPoll PubSub.

(** ** The messages of a subscription *)

Definition payload_of (m : messageState) : string * slice * strmap * Time :=
  (id m, body m, attributes m, enqueuedAt m).
Abbreviation payload := (string * slice * strmap * Time)%type.

Definition msgs (s : subscriptionState) : list messageState := pending s ++ values (inflight s).
Definition contents (b : Backend) (q : string) : list payload :=
  from_option (λ s, payload_of <$> msgs s) [] (subs b !! q).

Lemma sub_contents_set b q s q' :
  contents (set_sub b q s) q' = if decide (q = q') then payload_of <$> msgs s else contents b q'.
Proof.
  unfold contents, set_sub. cbn [subs]. destruct (decide (q = q')) as [->|].
  - by rewrite lookup_insert_eq.
  - by rewrite lookup_insert_ne.
Qed.

(** A new state of [q] with the same messages leaves every subscription's
    messages alone. *)
Lemma sub_contents_same b q s s' q' :
  subs b !! q = Some s → payload_of <$> msgs s' ≡ₚ payload_of <$> msgs s →
  contents (set_sub b q s') q' ≡ₚ contents b q'.
Proof.
  intros Hs Hp. rewrite sub_contents_set. destruct (decide (q = q')) as [<-|]; [|done].
  rewrite Hp. unfold contents. by rewrite Hs.
Qed.

Lemma sub_copyBytes_id s : copyBytes s = s.
Proof. destruct s as [l|]; [|done]. simpl. by rewrite map_id. Qed.
Lemma sub_copyStrMap_id m : copyStrMap m = m.
Proof. apply copy_map_id. Qed.

(** *** Reclaiming *)

Definition expired (now : Time) (m : messageState) : Prop := visibleAt m <= now.
#[export] Instance sub_expired_dec now m : Decision (expired now m).
Proof. unfold expired. apply _. Defined.

Lemma sub_expired_test now m : negb (now <? visibleAt m) = bool_decide (expired now m).
Proof. unfold expired. case_bool_decide; lia. Qed.

Lemma sub_reclaim_contents now order s :
  payload_of <$> msgs (reclaimInflight now order s) ≡ₚ payload_of <$> msgs s.
Proof.
  revert s. induction order as [|h order IH]; intros s; simpl; [done|].
  destruct (inflight s !! h) as [m|] eqn:E; [|done]. rewrite IH.
  destruct (negb _); [|done]. unfold msgs. simpl.
  rewrite (values_delete _ _ _ E), !fmap_app. simpl. by rewrite <-(assoc_L (++)).
Qed.

(** Only the message collections change. *)
Lemma sub_reclaim_fields now order s :
  ∃ p f, reclaimInflight now order s = set_messages s p f ∧
    (∀ h m, f !! h = Some m → inflight s !! h = Some m) ∧
    (∀ m, m ∈ p → m ∈ pending s ∨ receiptHandle m = "").
Proof.
  revert s. induction order as [|h order IH]; intros s; simpl.
  { exists (pending s), (inflight s). split_and!; [by destruct s|done|by left]. }
  destruct (inflight s !! h) as [m|] eqn:E; [|apply IH]. destruct (negb _); [|apply IH].
  destruct (IH (set_messages s (pending s ++ [release m]) (delete h (inflight s)))) as (p & f & -> & Hf & Hp).
  exists p, f. split_and!; [done| |].
  - intros h' m' H%Hf. simpl in H. by apply lookup_delete_Some in H as [_ H].
  - intros x Hx. destruct (Hp x Hx) as [H|H]; [|by right]. simpl in H.
    apply elem_of_app in H as [H|H%list_elem_of_singleton]; [by left|right]. by subst.
Qed.

(** The range visits every handle once: the expired messages, released, are
    appended to the pending ones. *)
Lemma sub_reclaim_pending now order s :
  order ≡ₚ (map_to_list (inflight s)).*1 →
  pending (reclaimInflight now order s) =
    pending s ++ (release <$> filter (expired now) (omap (λ h, inflight s !! h) order)).
Proof.
  intros Ho. assert (Hnd : NoDup order) by (by eapply NoDup_keys). clear Ho. revert s Hnd.
  induction order as [|h order IH]; intros s; simpl; [by rewrite app_nil_r|].
  intros [Hni Hnd]%NoDup_cons. destruct (inflight s !! h) as [m|] eqn:E; [|by apply IH].
  rewrite IH by done. rewrite sub_expired_test, filter_cons.
  destruct (decide (expired now m)) as [Hx|Hx].
  - rewrite bool_decide_eq_true_2 by done. simpl. rewrite <-(assoc_L (++)).
    by rewrite omap_lookup_delete.
  - by rewrite bool_decide_eq_false_2 by done.
Qed.

(** *** Delivering *)

(** The handles that a batch can draw are new: pairwise distinct and unused. *)
Definition fresh_handles (rnd : nat → bytes) (f : gmap string messageState) : Prop :=
  NoDup ((λ i, newID (rnd i)) <$> seq 0 10) ∧ ∀ i, (i < 10)%nat → f !! newID (rnd i) = None.

Definition delivered (now : Time) (rnd : nat → bytes) (v : Z) (i : nat) (l : list messageState)
    : list messageState := imap (λ j m, deliver now (newID (rnd (i + j)%nat)) v m) l.

Lemma sub_delivered_cons now rnd v i m l :
  delivered now rnd v i (m :: l) = deliver now (newID (rnd i)) v m :: delivered now rnd v (S i) l.
Proof.
  unfold delivered. simpl. rewrite Nat.add_0_r. f_equal. apply imap_ext. intros j x _.
  simpl. by rewrite Nat.add_succ_r.
Qed.

Lemma sub_payload_delivered now rnd v i l : payload_of <$> delivered now rnd v i l = payload_of <$> l.
Proof. revert i. induction l as [|m l IH]; intros i; [done|]. rewrite sub_delivered_cons. simpl. by rewrite IH. Qed.

Lemma sub_handles_delivered now rnd v i l :
  receiptHandle <$> delivered now rnd v i l = (λ i, newID (rnd i)) <$> seq i (length l).
Proof. revert i. induction l as [|m l IH]; intros i; [done|]. rewrite sub_delivered_cons. simpl. by rewrite IH. Qed.

Lemma receive_pending_spec now rnd max v l f out rest :
  receive_pending now rnd max v l f out rest =
  let D := delivered now rnd v (length out) (take (Z.to_nat max - length out) l) in
  (insert_all receiptHandle D f, out ++ (message_of now <$> D), rest ++ drop (Z.to_nat max - length out) l).
Proof.
  revert f out rest. induction l as [|m l IH]; intros f out rest; cbn [receive_pending].
  { rewrite take_nil, drop_nil. cbn. by rewrite !app_nil_r. }
  destruct (Z.ltb_spec (Z.of_nat (length out)) max).
  - rewrite IH. cbv zeta. rewrite length_app. cbn [length].
    replace (Z.to_nat max - length out)%nat with (S (Z.to_nat max - (length out + 1)))%nat by lia.
    cbn [take drop]. rewrite sub_delivered_cons, Nat.add_1_r, fmap_cons. cbn [insert_all fold_left].
    by rewrite <-(assoc_L (++)).
  - rewrite IH. cbv zeta. replace (Z.to_nat max - length out)%nat with 0%nat by lia.
    rewrite !take_0, !drop_0. cbn. by rewrite <-(assoc_L (++)).
Qed.

Lemma fresh_delivered now rnd v l f :
  fresh_handles rnd f → (length l <= 10)%nat →
  NoDup (receiptHandle <$> delivered now rnd v 0 l) ∧
  ∀ m, m ∈ delivered now rnd v 0 l → f !! receiptHandle m = None.
Proof.
  intros [Hnd Hf] Hl. rewrite sub_handles_delivered. split.
  - replace 10%nat with (length l + (10 - length l))%nat in Hnd by lia.
    rewrite seq_app, fmap_app in Hnd. by apply NoDup_app in Hnd as [? _].
  - intros m Hm%(list_elem_of_fmap_2 receiptHandle). rewrite sub_handles_delivered in Hm.
    apply list_elem_of_fmap in Hm as (i & -> & Hi%elem_of_seq). apply Hf. lia.
Qed.

Lemma sub_batch_size_range n : 1 <= batch_size n <= 10.
Proof. unfold batch_size. destruct (n <=? 0) eqn:?, (10 <? n) eqn:?; cbn; lia. Qed.

(** *** One attempt of Receive *)

(** What [Receive] can hand out: pending messages, then expired ones. *)
Definition queue_of (now : Time) (order : list string) (s : subscriptionState) : list messageState :=
  pending s ++ (release <$> filter (expired now) (omap (λ h, inflight s !! h) order)).

Definition batch (now : Time) (order : list string) (rnd : nat → bytes) (opt : ReceiveOptions)
    (s : subscriptionState) : list messageState :=
  delivered now rnd (lock_seconds (AckDeadline opt) (ackDeadlineSeconds s)) 0
    (take (Z.to_nat (batch_size (MaxMessages opt))) (pending (reclaimInflight now order s))).

Lemma receive_once_spec now order rnd q opt b s :
  subs b !! q = Some s →
  let s' := reclaimInflight now order s in
  receive_once now order rnd q opt b =
    (set_sub b q (set_messages s' (drop (Z.to_nat (batch_size (MaxMessages opt))) (pending s'))
       (insert_all receiptHandle (batch now order rnd opt s) (inflight s'))),
     Ok (message_of now <$> batch now order rnd opt s)).
Proof.
  intros Hs s'. unfold receive_once. rewrite Hs. fold s'.
  rewrite receive_pending_spec. cbn [length app]. rewrite Nat.sub_0_r. unfold batch. fold s'.
  assert (ackDeadlineSeconds s' = ackDeadlineSeconds s) as ->; [|done].
  unfold s'. by destruct (sub_reclaim_fields now order s) as (p & f & -> & _).
Qed.

Lemma fresh_handles_reclaim now order rnd s :
  fresh_handles rnd (inflight s) → fresh_handles rnd (inflight (reclaimInflight now order s)).
Proof.
  intros [Hnd Hf]. split; [done|]. intros i Hi. specialize (Hf i Hi).
  destruct (sub_reclaim_fields now order s) as (p & f & -> & Hsub & _). simpl.
  destruct (f !! newID (rnd i)) eqn:E; [|done]. apply Hsub in E. congruence.
Qed.

Lemma batch_length now order rnd opt s : (length (batch now order rnd opt s) <= 10)%nat.
Proof.
  unfold batch, delivered. rewrite length_imap, length_take.
  pose proof (sub_batch_size_range (MaxMessages opt)). lia.
Qed.

Lemma batch_inserted now order rnd opt s :
  fresh_handles rnd (inflight s) →
  let D := batch now order rnd opt s in let f := inflight (reclaimInflight now order s) in
  values (insert_all receiptHandle D f) ≡ₚ D ++ values f ∧
  (∀ m, m ∈ D → insert_all receiptHandle D f !! receiptHandle m = Some m) ∧
  (∀ h, h ∉ receiptHandle <$> D → insert_all receiptHandle D f !! h = f !! h).
Proof.
  intros Hf. pose proof (sub_batch_size_range (MaxMessages opt)).
  destruct (fresh_delivered now rnd (lock_seconds (AckDeadline opt) (ackDeadlineSeconds s))
    (take (Z.to_nat (batch_size (MaxMessages opt))) (pending (reclaimInflight now order s)))
    (inflight (reclaimInflight now order s))) as [H1 H2].
  - by apply fresh_handles_reclaim.
  - rewrite length_take. lia.
  - by apply insert_all_spec.
Qed.

(** ** The backend's operations as steps *)

Inductive op :=
  | OpCreateTopic (now : Time) (name : string) (opt : CreateTopicOptions)
  | OpDeleteTopic (name : string)
  | OpHeadTopic (name : string)
  | OpListTopics (opt : ListTopicsOptions)
  | OpCreateSubscription (now : Time) (topic sub : string) (opt : CreateSubscriptionOptions)
  | OpDeleteSubscription (sub : string)
  | OpHeadSubscription (sub : string)
  | OpListSubscriptions (opt : ListSubscriptionsOptions)
  | OpPublish (now : Time) (rnd : bytes) (topic : string) (opt : PublishOptions)
  | OpReceive (now : Time) (order : list string) (rnd : nat → bytes) (sub : string) (opt : ReceiveOptions)
  | OpAck (sub handle : string)
  | OpChangeVisibility (now : Time) (sub handle : string) (v : Z).

Definition silent {A} (r : Backend * result A) : Backend * result (list Message) :=
  (r.1, let? _ := r.2 in Ok []).

Definition run (o : op) (b : Backend) : Backend * result (list Message) :=
  match o with
  | OpCreateTopic now n opt => silent (CreateTopic now n opt b)
  | OpDeleteTopic n => silent (DeleteTopic n b)
  | OpHeadTopic n => silent (HeadTopic n b)
  | OpListTopics opt => silent (ListTopics opt b)
  | OpCreateSubscription now t q opt => silent (CreateSubscription now t q opt b)
  | OpDeleteSubscription q => silent (DeleteSubscription q b)
  | OpHeadSubscription q => silent (HeadSubscription q b)
  | OpListSubscriptions opt => silent (ListSubscriptions opt b)
  | OpPublish now rnd t opt => silent (Publish now rnd t opt b)
  | OpReceive now order rnd q opt => receive_once now order rnd q opt b
  | OpAck q h => silent (Ack q h b)
  | OpChangeVisibility now q h v => silent (ChangeVisibility now q h v b)
  end.

(** The handles that a receive draws are new on its subscription. *)
Definition fresh (o : op) (b : Backend) : Prop :=
  match o with
  | OpReceive _ _ rnd q _ => ∀ s, subs b !! q = Some s → fresh_handles rnd (inflight s)
  | _ => True
  end.

Definition attached (b : Backend) (q topic : string) : bool :=
  match topics b !! topic, subs b !! q with
  | Some _, Some s => bool_decide (s_topic s = topic)
  | _, _ => false
  end.

(** What an operation puts into subscription [q], and what it takes out for good. *)
Definition added (o : op) (b : Backend) (q : string) : list payload :=
  match o with
  | OpPublish now rnd t opt =>
      if attached b q t then [(newID rnd, po_Body opt, po_Attributes opt, now)] else []
  | _ => []
  end.
Definition removed (o : op) (b : Backend) (q : string) : list payload :=
  match o with
  | OpAck q' h =>
      if decide (q' = q) then
        match subs b !! q ≫= λ s, inflight s !! h with Some m => [payload_of m] | None => [] end
      else []
  | OpDeleteSubscription q' => if decide (q' = q) then contents b q else []
  | OpDeleteTopic t => if attached b q t then contents b q else []
  | _ => []
  end.

(** ** Invariant *)

Record wf_sub (q : string) (s : subscriptionState) : Prop := {
  wf_name : s_name s = q;
  wf_deadline : 1 <= ackDeadlineSeconds s <= 600;
  wf_pending : ∀ m, m ∈ pending s → receiptHandle m = "";
  wf_inflight : ∀ h m, inflight s !! h = Some m → receiptHandle m = h }.

(** Topics and subscriptions refer to each other. *)
Record wf (b : Backend) : Prop := {
  wf_topics : ∀ tn t, topics b !! tn = Some t → t_name t = tn ∧
    ∀ q, q ∈ t_subs t → ∃ s, subs b !! q = Some s ∧ s_topic s = tn;
  wf_subs : ∀ q s, subs b !! q = Some s → wf_sub q s ∧
    ∃ t, topics b !! s_topic s = Some t ∧ q ∈ t_subs t }.

Lemma attached_iff b q tn t :
  wf b → topics b !! tn = Some t → attached b q tn = true ↔ q ∈ t_subs t.
Proof.
  intros [Hts Hss] Ht. unfold attached. rewrite Ht. split.
  - destruct (subs b !! q) as [s|] eqn:Hs; [|done]. intros <-%bool_decide_eq_true.
    destruct (Hss q s Hs) as [_ (t' & Ht' & Hq)]. by simplify_eq.
  - intros Hq. destruct (Hts tn t Ht) as [_ H]. destruct (H q Hq) as (s & -> & <-). by rewrite bool_decide_eq_true.
Qed.

(** ** The loops over a topic's subscriptions *)

Definition with_message (m : messageState) (s : subscriptionState) : subscriptionState :=
  set_messages s (pending s ++ [m]) (inflight s).

Lemma publish_lookup m l ss q :
  NoDup l → fold_left (publish_to m) l ss !! q =
    if decide (q ∈ l) then with_message m <$> ss !! q else ss !! q.
Proof.
  revert ss. induction l as [|n l IH]; intros ss; cbn [fold_left]; [done|]. intros [Hni Hnd]%NoDup_cons.
  rewrite IH by done. unfold publish_to, with_message. destruct (decide (q = n)) as [->|Hne].
  - rewrite decide_False by done. rewrite decide_True by left.
    destruct (ss !! n) as [s|] eqn:E; [by rewrite lookup_insert_eq|by rewrite E].
  - assert ((match ss !! n with
             | None => ss | Some s => <[n := set_messages s (pending s ++ [m]) (inflight s)]> ss end) !! q = ss !! q)
      as -> by (destruct (ss !! n); [by rewrite lookup_insert_ne|done]).
    destruct (decide (q ∈ l)); [by rewrite decide_True by (by right)|].
    rewrite decide_False; [done|]. by intros [?|?]%elem_of_cons.
Qed.

Lemma delete_all_lookup {V} (l : list string) (ss : gmap string V) q :
  fold_left (λ m sn, delete sn m) l ss !! q = if decide (q ∈ l) then None else ss !! q.
Proof.
  revert ss. induction l as [|n l IH]; intros ss; cbn [fold_left]; [done|]. rewrite IH.
  destruct (decide (q = n)) as [->|Hne].
  - rewrite lookup_delete_eq, (decide_True (P := n ∈ n :: l)) by left. by destruct (decide _).
  - rewrite lookup_delete_ne by done. destruct (decide (q ∈ l)); [by rewrite decide_True by (by right)|].
    rewrite decide_False; [done|]. by intros [?|?]%elem_of_cons.
Qed.

(** ** Double entry *)

Lemma Publish_entry now rnd t opt b q :
  wf b → added (OpPublish now rnd t opt) b q ++ contents b q ≡ₚ contents (Publish now rnd t opt b).1 q.
Proof.
  intros Hw. cbn [added]. unfold Publish. destruct (topics b !! t) as [ts|] eqn:Ht.
  - pose proof (attached_iff b q t ts Hw Ht) as Ha. unfold contents. cbn [fst subs].
    rewrite publish_lookup by apply NoDup_elements. rewrite sub_copyBytes_id, sub_copyStrMap_id.
    destruct (decide (q ∈ elements (t_subs ts))) as [Hq|Hq]; rewrite elem_of_elements, <-Ha in Hq.
    + rewrite Hq. unfold attached in Hq. rewrite Ht in Hq. destruct (subs b !! q) as [s|]; [|done].
      cbn. unfold msgs, with_message. simpl. rewrite !fmap_app, <-(assoc_L (++)). simpl.
      by rewrite Permutation_middle.
    + by destruct (attached b q t).
  - unfold attached. by rewrite Ht.
Qed.

Lemma receive_once_entry now order rnd q opt b q' :
  fresh (OpReceive now order rnd q opt) b →
  contents (receive_once now order rnd q opt b).1 q' ≡ₚ contents b q'.
Proof.
  cbn [fresh]. intros Hf. destruct (subs b !! q) as [s|] eqn:Hs; [|by unfold receive_once; rewrite Hs].
  specialize (Hf s eq_refl). rewrite (receive_once_spec _ _ _ _ _ _ s Hs). cbn [fst].
  apply (sub_contents_same b q s); [done|]. rewrite <-(sub_reclaim_contents now order s).
  destruct (batch_inserted now order rnd opt s Hf) as (E & _ & _). unfold msgs. cbn [pending inflight set_messages].
  rewrite E. unfold batch. rewrite !fmap_app, sub_payload_delivered.
  rewrite (assoc_L (++)), (Permutation_app_comm (_ <$> drop _ _)), <-fmap_app.
  by rewrite take_drop.
Qed.

Lemma Ack_entry q h b q' :
  contents b q' ≡ₚ removed (OpAck q h) b q' ++ contents (Ack q h b).1 q'.
Proof.
  cbn [removed]. unfold Ack. destruct (subs b !! q) as [s|] eqn:Hs.
  - destruct (decide (q = q')) as [<-|Hne].
    + rewrite Hs. cbn. destruct (inflight s !! h) as [m|] eqn:Em; [|done]. cbn [fst].
      rewrite sub_contents_set, decide_True by done. unfold contents. rewrite Hs. cbn.
      unfold msgs. simpl. rewrite (values_delete _ _ _ Em). rewrite !fmap_app, fmap_cons. simpl.
      by rewrite Permutation_middle.
    + destruct (inflight s !! h); [|done]. cbn [fst app]. by rewrite sub_contents_set, decide_False by done.
  - destruct (decide (q = q')) as [<-|]; [|done]. by rewrite Hs.
Qed.

Lemma ChangeVisibility_entry now q h v b q' :
  contents (ChangeVisibility now q h v b).1 q' ≡ₚ contents b q'.
Proof.
  unfold ChangeVisibility. destruct (subs b !! q) as [s|] eqn:Hs; [|done].
  destruct (inflight s !! h) as [m|] eqn:Em; [|done].
  destruct (v <=? 0); cbn [fst]; apply (sub_contents_same b q s); try done; unfold msgs; simpl;
    rewrite (values_delete _ _ _ Em), !fmap_app.
  - simpl. by rewrite <-(assoc_L (++)).
  - rewrite <-(insert_delete_eq (inflight s)). rewrite values_insert by apply lookup_delete_eq. done.
Qed.

Lemma CreateSubscription_entry now t q opt b q' :
  contents (CreateSubscription now t q opt b).1 q' = contents b q'.
Proof.
  unfold CreateSubscription. destruct (topics b !! t); [|done]. destruct (subs b !! q) eqn:E; [done|].
  unfold contents. cbn [fst subs]. destruct (decide (q = q')) as [<-|].
  - by rewrite lookup_insert_eq, E.
  - by rewrite lookup_insert_ne.
Qed.

Lemma sub_double_entry o b q :
  wf b → fresh o b → added o b q ++ contents b q ≡ₚ removed o b q ++ contents (run o b).1 q.
Proof.
  intros Hw Hf. destruct o; cbn [run silent fst added removed app].
  - unfold CreateTopic. by destruct (topics b !! name).
  - unfold DeleteTopic. destruct (topics b !! name) as [t|] eqn:Ht.
    + unfold contents at 3. cbn [fst subs]. rewrite delete_all_lookup.
      pose proof (attached_iff b q name t Hw Ht) as Ha.
      destruct (decide _) as [Hq|Hq]; rewrite elem_of_elements, <-Ha in Hq.
      * rewrite Hq. cbn. by rewrite app_nil_r.
      * by destruct (attached b q name).
    + unfold attached. by rewrite Ht.
  - unfold HeadTopic. by destruct (topics b !! name).
  - done.
  - by rewrite CreateSubscription_entry.
  - unfold DeleteSubscription. destruct (subs b !! sub) as [s|] eqn:Hs.
    + unfold contents at 3. cbn [fst subs]. destruct (decide (sub = q)) as [<-|].
      * rewrite lookup_delete_eq. cbn. by rewrite app_nil_r.
      * by rewrite lookup_delete_ne.
    + destruct (decide (sub = q)) as [<-|]; [|done]. cbn [fst]. unfold contents. by rewrite Hs.
  - unfold HeadSubscription. by destruct (subs b !! sub).
  - done.
  - by apply Publish_entry.
  - symmetry. by apply receive_once_entry.
  - apply Ack_entry.
  - symmetry. apply ChangeVisibility_entry.
Qed.

(** ** The invariant holds in every reachable state *)

Lemma sub_wf_New : wf New.
Proof. by split. Qed.

(** Replacing a subscription's state by a well-formed one of the same topic. *)
Lemma wf_set_sub b q s s' :
  wf b → subs b !! q = Some s → s_topic s' = s_topic s → wf_sub q s' → wf (set_sub b q s').
Proof.
  intros [Hts Hss] Hs Ht Hw. split; unfold set_sub; cbn [topics subs].
  - intros tn t Htn. destruct (Hts tn t Htn) as [Hn Hq]. split; [done|]. intros q' Hq'.
    destruct (Hq q' Hq') as (s0 & Hs0 & Ht0). destruct (decide (q = q')) as [<-|Hne].
    + exists s'. rewrite lookup_insert_eq. split; [done|]. congruence.
    + exists s0. by rewrite lookup_insert_ne.
  - intros q' s0. rewrite lookup_insert_Some. intros [[<- <-]|[_ H]]; [|by apply Hss].
    split; [done|]. rewrite Ht. by apply Hss.
Qed.

Lemma wf_set_messages b q s p f :
  wf b → subs b !! q = Some s → (∀ m, m ∈ p → receiptHandle m = "") →
  (∀ h m, f !! h = Some m → receiptHandle m = h) → wf (set_sub b q (set_messages s p f)).
Proof.
  intros Hw Hs Hp Hf. apply (wf_set_sub b q s); [done..|]. destruct (wf_subs b Hw q s Hs) as [[]].
  by split.
Qed.

Lemma wf_receive_once now order rnd q opt b :
  fresh (OpReceive now order rnd q opt) b → wf b → wf (receive_once now order rnd q opt b).1.
Proof.
  cbn [fresh]. intros Hf Hw. destruct (subs b !! q) as [s|] eqn:Hs; [|by unfold receive_once; rewrite Hs].
  specialize (Hf s eq_refl). rewrite (receive_once_spec _ _ _ _ _ _ s Hs). cbn [fst].
  destruct (batch_inserted now order rnd opt s Hf) as (_ & Hin & Hout).
  destruct (sub_reclaim_fields now order s) as (p & f & E & Hsub & Hp). rewrite E in *.
  destruct (wf_subs b Hw q s Hs) as [[_ _ Hpend Hinf] _].
  change (set_messages (set_messages s p f) ?x ?y) with (set_messages s x y).
  cbn [pending inflight set_messages] in *. apply (wf_set_messages b q s); [done|done| |].
  - intros m Hm. destruct (Hp m) as [H|H]; [|by apply Hpend|done].
    rewrite <-(take_drop (Z.to_nat (batch_size (MaxMessages opt)))), elem_of_app. by right.
  - intros h m Hm. destruct (decide (h ∈ receiptHandle <$> batch now order rnd opt s)) as [Hh|Hh].
    + apply list_elem_of_fmap in Hh as (m' & -> & Hm'). apply Hin in Hm'. by simplify_eq.
    + rewrite Hout in Hm by done. by apply Hinf, Hsub.
Qed.

Lemma wf_Publish now rnd t opt b : wf b → wf (Publish now rnd t opt b).1.
Proof.
  intros Hw. unfold Publish. destruct (topics b !! t) as [ts|] eqn:Ht; [|done]. cbn [fst].
  set (m := mkMessageState _ _ _ _ _ _ _). destruct Hw as [Hts Hss].
  assert (Hl : ∀ q, ∃ b', fold_left (publish_to m) (elements (t_subs ts)) (subs b) !! q =
    (if b' : bool then with_message m <$> subs b !! q else subs b !! q)).
  { intros q. exists (bool_decide (q ∈ elements (t_subs ts))). rewrite publish_lookup by apply NoDup_elements.
    by rewrite bool_decide_decide; destruct (decide _). }
  split; cbn [topics subs].
  - intros tn t' Ht'. destruct (Hts tn t' Ht') as [Hn Hq]. split; [done|]. intros q Hin.
    destruct (Hq q Hin) as (s & Hs & Htop). destruct (Hl q) as [[] ->]; rewrite Hs; eauto.
  - intros q s Hs. destruct (Hl q) as [[] E]; rewrite E in Hs; [|by apply Hss].
    apply fmap_Some in Hs as (s0 & Hs0 & ->). destruct (Hss q s0 Hs0) as [[Hn Hd Hp Hf] Ht0].
    split; [|done]. split; [done..| |done]. cbn. intros x [?| ->%list_elem_of_singleton]%elem_of_app; auto.
Qed.

Lemma wf_CreateSubscription now t q opt b : wf b → wf (CreateSubscription now t q opt b).1.
Proof.
  intros Hw. unfold CreateSubscription. destruct (topics b !! t) as [ts|] eqn:Ht; [|done].
  destruct (subs b !! q) eqn:Hq; [done|]. cbn [fst]. destruct Hw as [Hts Hss]. split; cbn [topics subs].
  - intros tn t' Ht'. apply lookup_insert_Some in Ht' as [[<- <-]|[Hne Ht']].
    + cbn. destruct (Hts t ts Ht) as [Hn Hin]. split; [done|]. intros q' [->%elem_of_singleton|H]%elem_of_union.
      * eexists. by rewrite lookup_insert_eq.
      * destruct (Hin q' H) as (s & Hs & ?). exists s. rewrite lookup_insert_ne by congruence. done.
    + destruct (Hts tn t' Ht') as [Hn Hin]. split; [done|]. intros q' H. destruct (Hin q' H) as (s & Hs & ?).
      exists s. rewrite lookup_insert_ne by congruence. done.
  - intros q' s Hs. apply lookup_insert_Some in Hs as [[<- <-]|[Hne Hs]].
    + split.
      * split; cbn; [done| |by intros ? ?%elem_of_nil|done].
        unfold ack_deadline. destruct (_ <=? 0) eqn:?, (600 <? _) eqn:?; lia.
      * cbn. rewrite lookup_insert_eq. eexists. split; [done|]. cbn. set_solver.
    + destruct (Hss q' s Hs) as [Hsub (t' & Ht' & Hin)]. split; [done|].
      destruct (decide (t = s_topic s)) as [->|Hne']; [|exists t'; by rewrite lookup_insert_ne].
      rewrite lookup_insert_eq. eexists. split; [done|]. cbn. rewrite Ht in Ht'. injection Ht' as ->. set_solver.
Qed.

Lemma wf_DeleteSubscription q b : wf b → wf (DeleteSubscription q b).1.
Proof.
  intros Hw. unfold DeleteSubscription. destruct (subs b !! q) as [s|] eqn:Hs; [|done]. cbn [fst].
  destruct Hw as [Hts Hss]. destruct (Hss q s Hs) as [_ (t & Ht & Hq)]. rewrite Ht. split; cbn [topics subs].
  - intros tn t' Ht'. apply lookup_insert_Some in Ht' as [[<- <-]|[Hne Ht']].
    + cbn. destruct (Hts _ t Ht) as [Hn Hin]. split; [done|]. intros q' [H Hne]%elem_of_difference.
      destruct (Hin q' H) as (s' & Hs' & ?). exists s'. rewrite lookup_delete_ne by set_solver. done.
    + destruct (Hts tn t' Ht') as [Hn Hin]. split; [done|]. intros q' H. destruct (Hin q' H) as (s' & Hs' & E).
      exists s'. rewrite lookup_delete_ne; [done|]. intros ->. congruence.
  - intros q' s' [Hne Hs']%lookup_delete_Some. destruct (Hss q' s' Hs') as [Hsub (t' & Ht' & Hin)].
    split; [done|]. destruct (decide (s_topic s = s_topic s')) as [E|Hne'].
    + rewrite E, lookup_insert_eq. eexists. split; [done|]. cbn. rewrite <-E, Ht in Ht'. injection Ht' as ->. set_solver.
    + exists t'. by rewrite lookup_insert_ne.
Qed.

Lemma wf_DeleteTopic n b : wf b → wf (DeleteTopic n b).1.
Proof.
  intros Hw. unfold DeleteTopic. destruct (topics b !! n) as [t|] eqn:Ht; [|done]. cbn [fst].
  destruct Hw as [Hts Hss]. destruct (Hts n t Ht) as [_ Hin].
  assert (Hd : ∀ q s, subs b !! q = Some s → q ∈ t_subs t ↔ s_topic s = n).
  { intros q s Hs. split.
    - intros H. destruct (Hin q H) as (s' & Hs' & E). congruence.
    - intros <-. destruct (Hss q s Hs) as [_ (t' & Ht' & H)]. congruence. }
  split; cbn [topics subs].
  - intros tn t' [Hne Ht']%lookup_delete_Some. destruct (Hts tn t' Ht') as [Hn Hin']. split; [done|].
    intros q Hq. destruct (Hin' q Hq) as (s & Hs & E). exists s. rewrite delete_all_lookup.
    rewrite decide_False; [done|]. rewrite elem_of_elements, (Hd q s Hs). congruence.
  - intros q s. rewrite delete_all_lookup. destruct (decide _) as [|Hni]; [done|]. intros Hs.
    rewrite elem_of_elements, (Hd q s Hs) in Hni. destruct (Hss q s Hs) as [Hsub (t' & Ht' & H)].
    split; [done|]. exists t'. by rewrite lookup_delete_ne.
Qed.

Lemma sub_run_wf o b : fresh o b → wf b → wf (run o b).1.
Proof.
  intros Hf Hw. destruct o; cbn [run silent fst].
  - unfold CreateTopic. destruct (topics b !! name) eqn:Hn; [done|]. cbn [fst].
    destruct Hw as [Hts Hss]. split; cbn [topics subs].
    + intros tn t. rewrite lookup_insert_Some. intros [[<- <-]|[_ H]]; [|by apply Hts].
      split; [done|]. cbn. intros q Hq. by apply elem_of_empty in Hq.
    + intros q s Hs. destruct (Hss q s Hs) as [Hsub (t & Ht & H)]. split; [done|]. exists t.
      rewrite lookup_insert_ne by congruence. done.
  - by apply wf_DeleteTopic.
  - unfold HeadTopic. by destruct (topics b !! name).
  - done.
  - by apply wf_CreateSubscription.
  - by apply wf_DeleteSubscription.
  - unfold HeadSubscription. by destruct (subs b !! sub).
  - done.
  - by apply wf_Publish.
  - by apply wf_receive_once.
  - unfold Ack. destruct (subs b !! sub) as [s|] eqn:Hs; [|done]. destruct (inflight s !! handle); [|done].
    destruct (wf_subs b Hw sub s Hs) as [[_ _ Hp Hi] _]. apply wf_set_messages; [done..|].
    intros h x [_ H]%lookup_delete_Some. by apply Hi.
  - unfold ChangeVisibility. destruct (subs b !! sub) as [s|] eqn:Hs; [|done].
    destruct (inflight s !! handle) as [m|] eqn:Hm; [|done].
    destruct (wf_subs b Hw sub s Hs) as [[_ _ Hp Hi] _]. destruct (v <=? 0); apply wf_set_messages; try done.
    + intros x [?| ->%list_elem_of_singleton]%elem_of_app; auto.
    + intros h x [_ H]%lookup_delete_Some. by apply Hi.
    + intros h x. rewrite lookup_insert_Some. intros [[<- <-]|[_ H]]; [|by apply Hi]. cbn. by apply Hi.
Qed.

(** The subscriptions are a ledger. *)
#[export] Program Instance subscription_ledger : Ledger Backend op payload := {|
  lg_run o b := (run o b).1; lg_ok := fresh; lg_inv := wf;
  lg_contents := contents; lg_added := added; lg_removed := removed |}.
Next Obligation. intros. by apply sub_run_wf. Qed.
Next Obligation. intros. by apply sub_double_entry. Qed.

Definition step (b b' : Backend) : Prop := ∃ o, fresh o b ∧ b' = (run o b).1.
Definition reachable : Backend → Prop := rtc step New.

Lemma sub_reachable_wf b : reachable b → wf b.
Proof.
  intros H. refine (rtc_ind_r (λ b, wf b) New sub_wf_New _ b H).
  intros ? ? _ (o & Hf & ->) Hw. by apply sub_run_wf.
Qed.

(** ** Receiving *)

Lemma sub_reclaim_keeps now order s h m :
  inflight s !! h = Some m → ¬ expired now m → inflight (reclaimInflight now order s) !! h = Some m.
Proof.
  revert s. induction order as [|h' order IH]; intros s H Hx; simpl; [done|].
  destruct (inflight s !! h') as [m'|] eqn:E; [|by apply IH]. apply IH; [|done].
  rewrite sub_expired_test. case_bool_decide; [|done]. simpl.
  rewrite lookup_delete_ne; [done|]. intros ->. by simplify_eq.
Qed.

Lemma lock_seconds_range n dflt : 1 <= dflt <= 600 → 1 <= lock_seconds n dflt <= 600.
Proof. unfold lock_seconds. destruct (n <=? 0) eqn:?, (600 <? _) eqn:?; lia. Qed.

Lemma delivered_until now rnd v i l m : m ∈ delivered now rnd v i l → visibleAt m = now + seconds v.
Proof.
  revert i. induction l as [|x l IH]; intros i; [by intros ?%elem_of_nil|]. rewrite sub_delivered_cons.
  intros [->|H]%elem_of_cons; [done|by eapply IH].
Qed.

Lemma receive_once_no_panic now order rnd q opt b : (receive_once now order rnd q opt b).2 ≠ Panic.
Proof.
  unfold receive_once. destruct (subs b !! q); [|done]. cbv zeta. by destruct (receive_pending _ _ _ _ _ _ _ _) as [[? ?] ?].
Qed.

(** ** Properties *)

(** C26: publishing fans out, and subscriptions are isolated.  From every
    reachable state and for any sequence of operations whose drawn handles are
    new, the messages of each subscription balance as multisets: a Publish adds
    one copy of the message to each subscription of that topic and to no other;
    an Ack removes one in-flight message from its own subscription only;
    deleting a subscription or its topic removes its messages; everything else
    (receiving, reclaiming expired messages, changing visibility, listing, other
    topics) loses and duplicates nothing, so a message published to a
    subscription and never removed is still there. *)
Theorem fanout_and_isolation (os : list op) (b : Backend) (q : string) :
  reachable b → ops_ok os b →
  conserves os b q ∧
  ∀ m, m ∈ all_added os b q ++ contents b q → m ∉ all_removed os b q → m ∈ contents (run_ops os b) q.
Proof.
  intros Hr%sub_reachable_wf Hos. split; [by apply history_balances|]. intros m.
  exact (history_keeps os b q m Hos Hr).
Qed.

(** In every reachable state topics and subscriptions refer to each other
    (a topic lists exactly the subscriptions attached to it, under their own
    names, and every subscription's topic exists), acknowledgement deadlines
    are between 1 and 600 seconds, pending messages carry no handle and
    in-flight messages are filed under the handle they carry. *)
Theorem pubsub_states_well_formed (b : Backend) : reachable b → wf b.
Proof. apply sub_reachable_wf. Qed.

(** What one attempt of Receive does: it hands out the first
    min(batch, available) messages of the queue, where the queue is the pending
    messages followed by the in-flight ones whose deadline has passed; each is
    in flight under the handle returned with it until now plus the lock time
    (between 1 and 600 seconds); the rest of the queue stays pending in order,
    and in-flight messages whose deadline has not passed are not touched. *)
Theorem receive_hands_out (now : Time) (order : list string) (rnd : nat → bytes) (q : string)
    (opt : ReceiveOptions) (b : Backend) (s : subscriptionState) :
  reachable b → subs b !! q = Some s → order ≡ₚ (map_to_list (inflight s)).*1 →
  fresh_handles rnd (inflight s) →
  let k := Z.to_nat (batch_size (MaxMessages opt)) in
  let v := lock_seconds (AckDeadline opt) (ackDeadlineSeconds s) in
  ∃ D s', receive_once now order rnd q opt b = (set_sub b q s', Ok (message_of now <$> D)) ∧
    1 <= v <= 600 ∧
    payload_of <$> D = payload_of <$> take k (queue_of now order s) ∧
    pending s' = drop k (queue_of now order s) ∧
    (∀ m, m ∈ D → inflight s' !! receiptHandle m = Some m ∧ visibleAt m = now + v * Second) ∧
    (∀ h m, inflight s !! h = Some m → ¬ expired now m → inflight s' !! h = Some m).
Proof.
  intros Hr Hs Ho Hf k v.
  assert (Hv : 1 <= v <= 600).
  { apply lock_seconds_range. by destruct (wf_subs b (sub_reachable_wf b Hr) q s Hs) as [[]]. }
  destruct (batch_inserted now order rnd opt s Hf) as (_ & Hin & Hout).
  exists (batch now order rnd opt s). eexists. split; [by apply receive_once_spec|].
  cbn [pending inflight set_messages]. unfold queue_of. rewrite <-(sub_reclaim_pending now order s Ho).
  split_and!; [lia|lia|apply sub_payload_delivered|done| |].
  - intros m Hm. split; [by apply Hin|]. rewrite (delivered_until _ _ _ _ _ _ Hm), seconds_small; [done|].
    fold v. unfold in_s, Second. lia.
  - intros h m Hm Hx. rewrite Hout; [by apply sub_reclaim_keeps|].
    intros (m' & -> & Hm')%list_elem_of_fmap.
    apply (fresh_delivered now rnd v _ (inflight s) Hf) in Hm'; [congruence|].
    rewrite length_take. pose proof (sub_batch_size_range (MaxMessages opt)). lia.
Qed.

(** The long poll of Receive returns.  When successive attempts are at least
    100 ms apart, ten attempts per second of WaitTime and one more are enough,
    whatever other callers do to the backend between them; it does not panic,
    and an empty result means that WaitTime is not positive or that the deadline
    has passed. *)
Theorem Receive_returns (fuel : nat) (start : Time) (env : nat → tick Backend error) (q : string) (opt : ReceiveOptions)
    (b : Backend) :
  0 <= WaitTime opt < 2 ^ 33 →
  (∀ i, start + Z.of_nat i * (100 * Millisecond) <= tk_check (env i)) →
  (Z.to_nat (10 * WaitTime opt) < fuel)%nat →
  ∃ b' r, Receive fuel start env q opt b = Some (b', r) ∧ r ≠ Panic ∧
    (r = Ok [] → WaitTime opt = 0 ∨ ∃ i, start + WaitTime opt * Second <= tk_check (env i)).
Proof.
  intros Hw Hclk Hfuel. unfold Receive. rewrite seconds_small by (unfold in_s, Second; lia).
  destruct (poll_returns (λ t b, receive_once (tk_now t) (tk_order t) (tk_rnd t) q opt b) (WaitTime opt <=? 0)
    (start + WaitTime opt * Second) fuel env b start) as (b' & r & E & Hp & He);
    [intros; apply receive_once_no_panic|done|lia|unfold Second, Millisecond; lia|].
  exists b', r. split_and!; [done..|]. intros Hr. destruct (He Hr) as [?|?]; [left; lia|by right].
Qed.

(** ** Witnesses *)

Definition demo_setup : list op :=
  [OpCreateTopic 1 "news" (mkCreateTopicOptions None);
   OpCreateSubscription 2 "news" "a" (mkCreateSubscriptionOptions 0 true);
   OpCreateSubscription 3 "news" "b" (mkCreateSubscriptionOptions 5 true)].
Definition demo_publish : op :=
  OpPublish 4 [byte_of 1] "news" (mkPublishOptions (Some (bytes_of_string "hello")) None).
Fixpoint run_all (os : list op) (b : Backend) : Backend :=
  match os with [] => b | o :: os => run_all os (run o b).1 end.
Definition demo_backend : Backend := run_all demo_setup New.

Lemma reachable_run_all os b : reachable b → Forall (λ o, ∀ b, fresh o b) os → reachable (run_all os b).
Proof.
  intros Hr H. revert b Hr. induction H as [|o os Ho _ IH]; intros b Hr; [done|]. apply IH.
  eapply rtc_r; [exact Hr|]. by exists o.
Qed.

Lemma sub_demo_reachable : reachable demo_backend.
Proof. apply reachable_run_all; [apply rtc_refl|]. by repeat constructor. Qed.

Lemma demo_publish_reachable : reachable (run demo_publish demo_backend).1.
Proof. eapply rtc_r; [apply sub_demo_reachable|]. by exists demo_publish. Qed.

Lemma fanout_and_isolation_witness :
  (newID [byte_of 1], Some (bytes_of_string "hello"), None, 4) ∈
    contents (run_ops [demo_publish; OpAck "a" "h"; OpHeadTopic "news"] demo_backend) "b".
Proof.
  apply (fanout_and_isolation [demo_publish; OpAck "a" "h"; OpHeadTopic "news"] demo_backend "b").
  - exact sub_demo_reachable.
  - do 3 (split; [exact I|]). exact I.
  - apply elem_of_app. left. left.
  - apply not_elem_of_nil.
Defined.

Lemma pubsub_states_well_formed_witness : wf demo_backend.
Proof. apply (pubsub_states_well_formed demo_backend sub_demo_reachable). Defined.

Definition demo_rnd (i : nat) : bytes := [byte_of (Z.of_nat i)].
Definition demo_receive : ReceiveOptions := mkReceiveOptions 0 0 0.

Lemma demo_fresh_handles : fresh_handles demo_rnd ∅.
Proof. split; [|done]. apply (bool_decide_unpack _). vm_compute. exact I. Qed.

Lemma receive_hands_out_witness :
  ∃ D s', receive_once 10 [] demo_rnd "a" demo_receive (run demo_publish demo_backend).1 =
    (set_sub (run demo_publish demo_backend).1 "a" s', Ok (message_of 10 <$> D)) ∧ length D = 1%nat.
Proof.
  assert (Hs : ∃ s, subs (run demo_publish demo_backend).1 !! "a" = Some s ∧ inflight s = ∅ ∧
    length (queue_of 10 [] s) = 1%nat ∧ ackDeadlineSeconds s = 30) by (eexists; vm_compute; split_and!; reflexivity).
  destruct Hs as (s & Hs & Hi & Hq & _).
  destruct (receive_hands_out 10 [] demo_rnd "a" demo_receive (run demo_publish demo_backend).1 s
    demo_publish_reachable Hs) as (D & s' & E & _ & Hp & _).
  - by rewrite Hi.
  - rewrite Hi. apply demo_fresh_handles.
  - exists D, s'. split; [exact E|]. apply (f_equal length) in Hp. rewrite !length_fmap, length_take, Hq in Hp.
    exact Hp.
Defined.

Definition demo_env (i : nat) : tick Backend error :=
  mkTick 0 [] demo_rnd (Z.of_nat i * (100 * Millisecond)) None (λ b, b).

Lemma Receive_returns_witness :
  ∃ b' r, Receive 11 0 demo_env "a" (mkReceiveOptions 1 0 1) demo_backend = Some (b', r) ∧ r ≠ Panic.
Proof.
  destruct (Receive_returns 11 0 demo_env "a" (mkReceiveOptions 1 0 1) demo_backend) as (b' & r & E & Hp & _).
  - vm_compute. split; [discriminate|reflexivity].
  - intros i. apply Z.le_refl.
  - vm_compute. lia.
  - exists b', r. split; assumption.
Defined.
