(* ===== verification/Ec2Query.v ===== *)
(** * The EC2 Query runtime

    Models [internal/ec2query]: its envelopes; the dispatch is that of
    [AwsQuery], and so are the fields of the form and the verifier. *)

From Stdlib Require Import Ascii.
From S2P Require Import Prelude GoStrings GoBytes GoHttp GoUrl SigV4 AwsQuery.

Record BackendError := mkBackendError { HTTPStatus : Z; be_Code : string; be_Message : string }.
Definition BackendError_text (e : BackendError) : string := be_Code e +:+ ": " +:+ be_Message e.
Inductive api_error := EBackend (e : BackendError) | EOther (text : string).

Inductive payload (X : Type) :=
  | ErrEnvelope (Code Message : string)
  | Result (opName : string) (result : option X).
Arguments ErrEnvelope {X} _ _.
Arguments Result {X} _ _.

Section envelope.
Context {X : Type}.
Definition xml_type : string := "text/xml;charset=UTF-8".

Definition WriteError (status : Z) (code message : string) : Response (payload X) :=
  mkResponse status (Set_ "Content-Type" xml_type ∅) (ErrEnvelope code message).
Definition WriteBackendError (err : api_error) : Response (payload X) :=
  match err with
  | EBackend be => WriteError (HTTPStatus be) (be_Code be) (be_Message be)
  | EOther text => WriteError 500 "InternalError" text
  end.
Definition EmitVerifierError (status : Z) (errorType message : string) : Response (payload X) :=
  WriteError status errorType message.
Definition WriteResult (opName : string) (result : option X) : Response (payload X) :=
  mkResponse 200 (Set_ "Content-Type" xml_type ∅) (Result opName result).
Definition Query_ServeHTTP {H St} (Quote : string → string) (parse_params : string → string → string * option string)
    (serve : H → gmap string (list string) → St → St * option (Response (payload X))) (rt : Router H) (r : Request)
    (s : St) : St * option (Response (payload X)) :=
  ServeHTTP Quote parse_params "ec2Query requires POST" WriteError serve rt r s.

(** The handlers that the frontends' [New] return. *)
Definition Query_New {St} (Quote : string → string) (service : string) (getenv : string → string) (now : Time)
    (router : Request → St → St * option (Response (payload X))) (r : Request) (s : St)
    : St * option (Response (payload X)) :=
  match Middleware (H := StaticStore_Lookup shim_store) Quote (SigV4.New (mkOptions service "us-east-1" 0)) getenv now r with
  | Some (status, errorType, message) => (s, Some (EmitVerifierError status errorType message))
  | None => router r s
  end.

(** The end of a generated handler. *)
Definition reply {St A} (opName : string) (c : St * outcome api_error A) (encode : A → option X)
    : St * option (Response (payload X)) :=
  (c.1, match c.2 with
        | Ok a => Some (WriteResult opName (encode a))
        | Err e => Some (WriteBackendError e)
        | Panic => None
        end).

Lemma ec2_query_form Quote params {H St} serve (rt : Router H) kvs action h (s : St) :
  small (("Action", action) :: kvs) → action ≠ "" → routes rt !! action = Some h →
  Query_ServeHTTP Quote params serve rt (form_post (("Action", action) :: kvs)) s =
    serve h (form_of (("Action", action) :: kvs)) s.
Proof.
  intros Hs Ha Hr. unfold Query_ServeHTTP, ServeHTTP. by rewrite (route_form_post Quote params _ _ _ kvs action h Hs Ha Hr).
Qed.
End envelope.
Abbreviation api := (outcome api_error).

(** ** Lists

    The lists are flat: [name.N], and [name.N.field] for those of structures. *)

Definition flat_key (name : string) (i : Z) : string := name +:+ "." +:+ Itoa i.
Definition flat_field (name field : string) (i : Z) : string := flat_key name i +:+ "." +:+ field.

Lemma flat_key_inj name i j : 0 <= i → 0 <= j → flat_key name i = flat_key name j → i = j.
Proof. intros Hi Hj E%str_app_inj_l%str_app_inj_l. by apply Itoa_inj. Qed.

(** ** What is written for a result: the fields alone, in one envelope *)

Definition ec2Namespace : string := "http://ec2.amazonaws.com/doc/2016-11-15/".

Definition result_text (opName : string) (data : option string) : string :=
  let quote := String (ascii_of_N 34) "" in
  "<" +:+ opName +:+ "Response xmlns=" +:+ quote +:+ ec2Namespace +:+ quote +:+ ">" +:+
  "<requestId>" +:+ request_id +:+ "</requestId>" +:+
  match data with Some data => marshalInner data | None => "" end +:+
  "</" +:+ opName +:+ "Response>".
