(* ===== verification/PubSubApi.v ===== *)
(** * The publish/subscribe service as its frontends see it

    The interface [domain.Pubsub] of [internal/pubsub/domain]; [Draws] is what
    a call of the implementation draws from outside.  [None] is a receive that
    is still waiting. *)

From S2P Require Import Prelude LongPoll PubSub.

Class Pubsub_ (St : Type) := {
  Draws : Type;
  p_CreateTopic : Draws → string → CreateTopicOptions → St → St * result Topic;
  p_DeleteTopic : string → St → St * result unit;
  p_HeadTopic : string → St → St * result Topic;
  p_ListTopics : ListTopicsOptions → St → St * result ListTopicsResult;
  p_CreateSubscription : Draws → string → string → CreateSubscriptionOptions → St → St * result Subscription;
  p_DeleteSubscription : string → St → St * result unit;
  p_HeadSubscription : string → St → St * result Subscription;
  p_ListSubscriptions : ListSubscriptionsOptions → St → St * result ListSubscriptionsResult;
  p_Publish : Draws → string → PublishOptions → St → St * result PublishResult;
  p_Receive : Draws → string → ReceiveOptions → St → option (St * result (list Message));
  p_Ack : string → string → St → St * result unit;
  p_ChangeVisibility : Draws → string → string → Z → St → St * result unit }.
Arguments Draws St {_}.

(** The in-process backend. *)
Record draws := mkDraws { d_now : Time; d_rnd : bytes; d_fuel : nat; d_env : nat → tick Backend error }.

#[export] Instance inmem_pubsub : Pubsub_ Backend := {|
  Draws := draws;
  p_CreateTopic := λ d, CreateTopic (d_now d);
  p_DeleteTopic := DeleteTopic;
  p_HeadTopic := HeadTopic;
  p_ListTopics := ListTopics;
  p_CreateSubscription := λ d, CreateSubscription (d_now d);
  p_DeleteSubscription := DeleteSubscription;
  p_HeadSubscription := HeadSubscription;
  p_ListSubscriptions := ListSubscriptions;
  p_Publish := λ d, Publish (d_now d) (d_rnd d);
  p_Receive := λ d, Receive (d_fuel d) (d_now d) (d_env d);
  p_Ack := Ack;
  p_ChangeVisibility := λ d, ChangeVisibility (d_now d) |}.
