(* ===== verification/Sns.v ===== *)
(** * The SNS frontend

    Models [internal/pubsub/frontends/aws_sns] (the adapter of
    [domain.Pubsub]) and the handlers and table of routes of
    [services/pubsub/gen/aws_sns.gen.go].  Inputs keep the fields the adapter
    reads; the attribute maps of CreateTopic and Subscribe are decoded by the
    handlers and read by nobody.  [Quote] is the %q verb of the domain's
    messages. *)

From Stdlib Require Import Ascii.
From S2P Require Import Prelude GoStrings GoBytes GoHttp GoUrl PubSub PubSubApi AwsQuery.

(** ** Names and ARNs *)

Definition topicArn (name : string) : string := "arn:aws:sns:us-east-1:000000000000:" +:+ name.
Definition subscriptionArn (topic sub : string) : string :=
  "arn:aws:sns:us-east-1:000000000000:" +:+ topic +:+ ":" +:+ sub.
Definition queueArn (queue : string) : string := "arn:aws:sqs:us-east-1:000000000000:" +:+ queue.

Definition parseTopicArn (arn : string) : string :=
  if String.eqb arn "" then ""
  else
    let parts := Split arn ":" in
    if (length parts <? 6)%nat then arn else nth 5 parts "".

Definition lastArnSegment (arn : string) : string :=
  if String.eqb arn "" then ""
  else match LastIndexByte arn ":" with
       | Some i => str_drop (S i) arn
       | None => arn
       end.

(** ** Inputs and outputs *)

Record SetTopicAttributesInput := mkSetTopicAttributesInput {
  sti_AttributeName : string; sti_AttributeValue : option string; sti_TopicArn : string }.
Record SubscribeInput := mkSubscribeInput { sbi_Endpoint : option string; sbi_Protocol : string; sbi_TopicArn : string }.
Record PublishInput := mkPublishInput { pui_Message : string; pui_TopicArn : option string }.
Record SubscriptionOut := mkSubscriptionOut {
  so_SubscriptionArn : string; so_TopicArn : string; so_Protocol : string; so_Endpoint : string }.

Inductive output :=
  | CreateTopicResponse (TopicArn : string)
  | ListTopicsResponse (TopicArns : list string)
  | GetTopicAttributesResponse (Attributes : gmap string string)
  | SubscribeResponse (SubscriptionArn : string)
  | ListSubscriptionsResponse (Subscriptions : list SubscriptionOut)
  | PublishResponse (MessageId : string)
  | ListTagsForResourceResponse.

(** ** The adapter *)

Definition bad_parameter (message : string) : api_error :=
  EBackend (mkBackendError 400 "Sender" "InvalidParameter" message).

Definition awsOnlySNSAttribute (name : string) : bool :=
  bool_decide (name ∈
    ["SQSSuccessFeedbackSampleRate"; "SQSSuccessFeedbackRoleArn"; "SQSFailureFeedbackRoleArn";
     "FirehoseSuccessFeedbackSampleRate"; "FirehoseSuccessFeedbackRoleArn"; "FirehoseFailureFeedbackRoleArn";
     "LambdaSuccessFeedbackSampleRate"; "LambdaSuccessFeedbackRoleArn"; "LambdaFailureFeedbackRoleArn";
     "HTTPSuccessFeedbackSampleRate"; "HTTPSuccessFeedbackRoleArn"; "HTTPFailureFeedbackRoleArn";
     "ApplicationSuccessFeedbackSampleRate"; "ApplicationSuccessFeedbackRoleArn"; "ApplicationFailureFeedbackRoleArn";
     "KmsMasterKeyId"; "SignatureVersion"; "TracingConfig"; "ContentBasedDeduplication"; "FifoTopic"; "ArchivePolicy"]).

(** JSON text written with apostrophes for its quotes. *)
Definition json_text (s : string) : string := str_map (λ c, if Ascii.eqb c "'" then ascii_of_N 34 else c) s.

Definition default_policy (arn : string) : string :=
  json_text ("{'Version':'2008-10-17','Id':'__default_policy_ID','Statement':[{'Sid':'__default_statement_ID'," +:+
    "'Effect':'Allow','Principal':{'AWS':'*'},'Action':['SNS:GetTopicAttributes','SNS:SetTopicAttributes'," +:+
    "'SNS:AddPermission','SNS:RemovePermission','SNS:DeleteTopic','SNS:Subscribe','SNS:ListSubscriptionsByTopic'," +:+
    "'SNS:Publish'],'Resource':'") +:+ arn +:+ json_text "'}]}".

(** [messageAttributesFromContext]: entries 1, 2, ... until one has no name.
    An entry needs a key of the form, so the keys are enough fuel. *)
Definition entry_name (i : Z) : string := "MessageAttributes.entry." +:+ Itoa i +:+ ".Name".
Definition entry_value (i : Z) : string := "MessageAttributes.entry." +:+ Itoa i +:+ ".Value.StringValue".

Fixpoint attribute_loop (fuel : nat) (i : Z) (form : gmap string (list string)) (out : gmap string string)
    : option (gmap string string) :=
  match fuel with
  | O => None
  | S fuel =>
      let name := Query_Get form (entry_name i) in
      if String.eqb name "" then Some out
      else attribute_loop fuel (i + 1) form (<[name := Query_Get form (entry_value i)]> out)
  end.

Definition messageAttributes (form : gmap string (list string)) : strmap :=
  match attribute_loop (S (size form)) 1 form ∅ with
  | Some out => if decide (out = ∅) then None else Some out
  | None => None
  end.

Section adapter.
Context `{Pubsub_ St} (Quote : string → string).
Implicit Types (s : St) (d : Draws St).

Definition mapDomainErr (err : error) : api_error :=
  match err with
  | Plain text => EBackend (mkBackendError 500 "Receiver" "InternalFailure" text)
  | DomainError kind _ _ _ =>
      let text := Error_text Quote err in
      match kind with
      | KindNoSuchTopic | KindNoSuchSubscription => EBackend (mkBackendError 404 "Sender" "NotFound" text)
      | KindTopicAlreadyExists | KindSubscriptionAlreadyExists | KindInvalidArgument =>
          EBackend (mkBackendError 400 "Sender" "InvalidParameter" text)
      | _ => EBackend (mkBackendError 500 "Receiver" "InternalFailure" text)
      end
  end.

(** [!errors.As(err, &de) || de.Kind != kind] *)
Definition is_kind (kind : Kind) (err : error) : bool :=
  match err with Plain _ => false | DomainError k _ _ _ => bool_decide (k = kind) end.

Definition call {A B} (c : St * result A) (k : A → api B) : St * api B :=
  (c.1, match c.2 with Ok a => k a | Err e => Err (mapDomainErr e) | Panic => Panic end).

(** The same, except that an error of a kind is taken for success. *)
Definition call_unless {A B} (kind : Kind) (c : St * result A) (b : B) : St * api B :=
  (c.1, match c.2 with
        | Ok _ => Ok b
        | Err e => if is_kind kind e then Ok b else Err (mapDomainErr e)
        | Panic => Panic
        end).

Definition Adapter_CreateTopic d (name : string) s : St * api output :=
  if String.eqb name "" then (s, Err (bad_parameter "Name is required"))
  else call_unless KindTopicAlreadyExists (p_CreateTopic d name (mkCreateTopicOptions None) s)
         (CreateTopicResponse (topicArn name)).

Definition Adapter_DeleteTopic (arn : string) s : St * api unit :=
  let name := parseTopicArn arn in
  if String.eqb name "" then (s, Err (bad_parameter "TopicArn is required"))
  else call (p_DeleteTopic name s) (λ _, Ok ()).

Definition Adapter_ListTopics s : St * api output :=
  call (p_ListTopics (mkListTopicsOptions "" 0 "") s) (λ res,
    Ok (ListTopicsResponse ((λ t, topicArn (Topic_Name t)) <$> ltr_Topics res))).

Definition Adapter_GetTopicAttributes (arn : string) s : St * api output :=
  let name := parseTopicArn arn in
  if String.eqb name "" then (s, Err (bad_parameter "TopicArn is required"))
  else call (p_HeadTopic name s) (λ t,
    let arn := topicArn (Topic_Name t) in
    Ok (GetTopicAttributesResponse
      {["TopicArn" := arn; "DisplayName" := ""; "SubscriptionsConfirmed" := "0"; "SubscriptionsPending" := "0";
        "SubscriptionsDeleted" := "0"; "Policy" := default_policy arn]})).

Definition Adapter_SetTopicAttributes (i : SetTopicAttributesInput) s : St * api unit :=
  let name := parseTopicArn (sti_TopicArn i) in
  if String.eqb name "" then (s, Err (bad_parameter "TopicArn is required"))
  else if String.eqb (sti_AttributeName i) "" then (s, Err (bad_parameter "AttributeName is required"))
  else call (p_HeadTopic name s) (λ _,
    if negb (awsOnlySNSAttribute (sti_AttributeName i)) && negb (String.eqb (default "" (sti_AttributeValue i)) "")
    then Err (bad_parameter ("AttributeValue is not supported in the cross-cloud intersection for " +:+ sti_AttributeName i))
    else Ok ()).

Definition Adapter_Subscribe d (i : SubscribeInput) s : St * api output :=
  let topic := parseTopicArn (sbi_TopicArn i) in
  let endpoint := default "" (sbi_Endpoint i) in
  if String.eqb topic "" || String.eqb (sbi_Protocol i) "" || String.eqb endpoint ""
  then (s, Err (bad_parameter "TopicArn, Protocol, and Endpoint are required"))
  else if negb (String.eqb (sbi_Protocol i) "sqs")
  then (s, Err (bad_parameter ("only Protocol=sqs is in the pubsub intersection (got " +:+ sbi_Protocol i +:+ ")")))
  else
    let sub := lastArnSegment endpoint in
    if String.eqb sub "" then (s, Err (bad_parameter "Endpoint must be an SQS queue ARN with a name segment"))
    else call_unless KindSubscriptionAlreadyExists
           (p_CreateSubscription d topic sub (mkCreateSubscriptionOptions 0 true) s)
           (SubscribeResponse (subscriptionArn topic sub)).

Definition Adapter_Unsubscribe (arn : string) s : St * api unit :=
  let sub := lastArnSegment arn in
  if String.eqb sub "" then (s, Err (bad_parameter "SubscriptionArn is required"))
  else call (p_DeleteSubscription sub s) (λ _, Ok ()).

Definition subscription_out (s : Subscription) : SubscriptionOut :=
  mkSubscriptionOut (subscriptionArn (Sub_Topic s) (Sub_Name s)) (topicArn (Sub_Topic s)) "sqs" (queueArn (Sub_Name s)).

Definition listSubs (topic : string) s : St * api output :=
  call (p_ListSubscriptions (mkListSubscriptionsOptions topic 0 "") s) (λ res,
    Ok (ListSubscriptionsResponse (subscription_out <$> lsr_Subscriptions res))).

Definition Adapter_Publish d (form : gmap string (list string)) (i : PublishInput) s : St * api output :=
  let arn := default "" (pui_TopicArn i) in
  if String.eqb arn "" then (s, Err (bad_parameter "TopicArn is required"))
  else call (p_Publish d (parseTopicArn arn)
      (mkPublishOptions (Some (bytes_of_string (pui_Message i))) (messageAttributes form)) s) (λ res,
    Ok (PublishResponse (pr_MessageID res))).

Definition Adapter_ListTagsForResource (arn : string) s : St * api output :=
  let name := parseTopicArn arn in
  if String.eqb name "" then (s, Err (bad_parameter "ResourceArn is required"))
  else call (p_HeadTopic name s) (λ _, Ok ListTagsForResourceResponse).
End adapter.

(** ** Handlers and routes *)

Inductive sns_op :=
  | CreateTopicHandler | DeleteTopicHandler | ListTopicsHandler | SubscribeHandler | UnsubscribeHandler
  | ListSubscriptionsHandler | ListSubscriptionsByTopicHandler | PublishHandler | GetTopicAttributesHandler
  | SetTopicAttributesHandler | ListTagsForResourceHandler.

Definition op_name (o : sns_op) : string :=
  match o with
  | CreateTopicHandler => "CreateTopic" | DeleteTopicHandler => "DeleteTopic" | ListTopicsHandler => "ListTopics"
  | SubscribeHandler => "Subscribe" | UnsubscribeHandler => "Unsubscribe"
  | ListSubscriptionsHandler => "ListSubscriptions" | ListSubscriptionsByTopicHandler => "ListSubscriptionsByTopic"
  | PublishHandler => "Publish" | GetTopicAttributesHandler => "GetTopicAttributes"
  | SetTopicAttributesHandler => "SetTopicAttributes" | ListTagsForResourceHandler => "ListTagsForResource"
  end.
Definition sns_ops : list sns_op :=
  [CreateTopicHandler; DeleteTopicHandler; ListTopicsHandler; SubscribeHandler; UnsubscribeHandler;
   ListSubscriptionsHandler; ListSubscriptionsByTopicHandler; PublishHandler; GetTopicAttributesHandler;
   SetTopicAttributesHandler; ListTagsForResourceHandler].

Definition RegisterSNSRoutes : Router sns_op :=
  fold_left (λ rt o, Register (op_name o) o rt) sns_ops (NewRouter "AmazonSimpleNotificationService").

Section handlers.
Context `{Pubsub_ St} (Quote : string → string) (d : Draws St).
Abbreviation answer := (St * option (Response (payload output)))%type.

Definition handle (o : sns_op) (form : gmap string (list string)) (s : St) : answer :=
  let get := Query_Get form in
  match o with
  | CreateTopicHandler => reply (op_name o) (Adapter_CreateTopic Quote d (get "Name") s) Some
  | DeleteTopicHandler => reply (op_name o) (Adapter_DeleteTopic Quote (get "TopicArn") s) (λ _, None)
  | ListTopicsHandler => reply (op_name o) (Adapter_ListTopics Quote s) Some
  | SubscribeHandler =>
      reply (op_name o) (Adapter_Subscribe Quote d
        (mkSubscribeInput (form_field form "Endpoint") (get "Protocol") (get "TopicArn")) s) Some
  | UnsubscribeHandler => reply (op_name o) (Adapter_Unsubscribe Quote (get "SubscriptionArn") s) (λ _, None)
  | ListSubscriptionsHandler => reply (op_name o) (listSubs Quote "" s) Some
  | ListSubscriptionsByTopicHandler =>
      reply (op_name o) (listSubs Quote (parseTopicArn (get "TopicArn")) s) Some
  | PublishHandler =>
      reply (op_name o) (Adapter_Publish Quote d form
        (mkPublishInput (get "Message") (form_field form "TopicArn")) s) Some
  | GetTopicAttributesHandler => reply (op_name o) (Adapter_GetTopicAttributes Quote (get "TopicArn") s) Some
  | SetTopicAttributesHandler =>
      reply (op_name o) (Adapter_SetTopicAttributes Quote
        (mkSetTopicAttributesInput (get "AttributeName") (form_field form "AttributeValue") (get "TopicArn")) s)
        (λ _, None)
  | ListTagsForResourceHandler => reply (op_name o) (Adapter_ListTagsForResource Quote (get "ResourceArn") s) Some
  end.

Definition Sns_ServeHTTP (parse_params : string → string → string * option string) (r : Request) (s : St) : answer :=
  Query_ServeHTTP Quote parse_params handle RegisterSNSRoutes r s.

(** [New], at the time [now]. *)
Definition Sns_New (getenv : string → string) (now : Time) (parse_params : string → string → string * option string)
    : Request → St → answer :=
  Query_New Quote "sns" getenv now (Sns_ServeHTTP parse_params).
End handlers.
