(* ===== verification/SqsReceive.v ===== *)
(** * The SQS receive surface of publish/subscribe

    Models [internal/pubsub/frontends/aws_sqs_receive]: the slice of the SQS
    protocol that drains subscriptions.  A queue is a subscription; JSON bodies
    are decoded by [JsonRequest] and kept as values when written. *)

From Stdlib Require Import Ascii.
From S2P Require Import Prelude GoStrings GoBytes GoHttp GoJson AwsJson PubSub PubSubApi.

(** ** Wire types *)

Record receiveMessageRequest := mkReceiveMessageRequest {
  rmr_QueueUrl : string; rmr_MaxNumberOfMessages : Z; rmr_WaitTimeSeconds : Z; rmr_VisibilityTimeout : option Z }.
Record messageAttributeValue := mkMessageAttributeValue { mav_StringValue : string; mav_DataType : string }.
Record messageOut := mkMessageOut {
  mo_MessageId : string; mo_Body : string; mo_ReceiptHandle : string;
  mo_MessageAttributes : option (gmap string messageAttributeValue) }.
Record deleteMessageRequest := mkDeleteMessageRequest { dmr_QueueUrl : string; dmr_ReceiptHandle : string }.
Record changeVisibilityRequest := mkChangeVisibilityRequest {
  cvr_QueueUrl : string; cvr_ReceiptHandle : string; cvr_VisibilityTimeout : Z }.
Record getQueueAttributesRequest := mkGetQueueAttributesRequest { gqa_QueueUrl : string }.
Record deleteQueueRequest := mkDeleteQueueRequest { dqr_QueueUrl : string }.
Record getQueueUrlRequest := mkGetQueueUrlRequest { gqu_QueueName : string }.

(** What is written as JSON; [Empty] is the empty object. *)
Inductive output :=
  | receiveMessageResponse (Messages : list messageOut)
  | getQueueAttributesResponse (Attributes : gmap string string)
  | getQueueUrlResponse (QueueUrl : string)
  | Empty.

Class ReceiveJson := {
  json_receiveMessage :: JsonRequest receiveMessageRequest;
  json_deleteMessage :: JsonRequest deleteMessageRequest;
  json_changeVisibility :: JsonRequest changeVisibilityRequest;
  json_getQueueAttributes :: JsonRequest getQueueAttributesRequest;
  json_deleteQueue :: JsonRequest deleteQueueRequest;
  json_getQueueUrl :: JsonRequest getQueueUrlRequest }.

(** *** The types as decoders; unknown fields are skipped *)

Definition d_receiveMessage : decoder receiveMessageRequest :=
  d_struct false (mkReceiveMessageRequest "" 0 0 None)
    [kept "QueueUrl" d_string rmr_QueueUrl
       (λ a x, mkReceiveMessageRequest a (rmr_MaxNumberOfMessages x) (rmr_WaitTimeSeconds x) (rmr_VisibilityTimeout x));
     kept "MaxNumberOfMessages" (d_int 32) rmr_MaxNumberOfMessages
       (λ a x, mkReceiveMessageRequest (rmr_QueueUrl x) a (rmr_WaitTimeSeconds x) (rmr_VisibilityTimeout x));
     kept "WaitTimeSeconds" (d_int 32) rmr_WaitTimeSeconds
       (λ a x, mkReceiveMessageRequest (rmr_QueueUrl x) (rmr_MaxNumberOfMessages x) a (rmr_VisibilityTimeout x));
     kept "VisibilityTimeout" (d_ptr (d_int 32)) rmr_VisibilityTimeout
       (λ a x, mkReceiveMessageRequest (rmr_QueueUrl x) (rmr_MaxNumberOfMessages x) (rmr_WaitTimeSeconds x) a)].
Definition d_deleteMessage : decoder deleteMessageRequest :=
  d_struct false (mkDeleteMessageRequest "" "")
    [kept "QueueUrl" d_string dmr_QueueUrl (λ a x, mkDeleteMessageRequest a (dmr_ReceiptHandle x));
     kept "ReceiptHandle" d_string dmr_ReceiptHandle (λ a x, mkDeleteMessageRequest (dmr_QueueUrl x) a)].
Definition d_changeVisibility : decoder changeVisibilityRequest :=
  d_struct false (mkChangeVisibilityRequest "" "" 0)
    [kept "QueueUrl" d_string cvr_QueueUrl (λ a x, mkChangeVisibilityRequest a (cvr_ReceiptHandle x) (cvr_VisibilityTimeout x));
     kept "ReceiptHandle" d_string cvr_ReceiptHandle (λ a x, mkChangeVisibilityRequest (cvr_QueueUrl x) a (cvr_VisibilityTimeout x));
     kept "VisibilityTimeout" (d_int 32) cvr_VisibilityTimeout (λ a x, mkChangeVisibilityRequest (cvr_QueueUrl x) (cvr_ReceiptHandle x) a)].
Definition d_getQueueAttributes : decoder getQueueAttributesRequest :=
  d_struct false (mkGetQueueAttributesRequest "")
    [kept "QueueUrl" d_string gqa_QueueUrl (λ a _, mkGetQueueAttributesRequest a); unread "AttributeNames" (d_slice d_string)].
Definition d_deleteQueue : decoder deleteQueueRequest :=
  d_struct false (mkDeleteQueueRequest "") [kept "QueueUrl" d_string dqr_QueueUrl (λ a _, mkDeleteQueueRequest a)].
Definition d_getQueueUrl : decoder getQueueUrlRequest :=
  d_struct false (mkGetQueueUrlRequest "") [kept "QueueName" d_string gqu_QueueName (λ a _, mkGetQueueUrlRequest a)].

Definition receive_json (Err_text : string → string) : ReceiveJson := {|
  json_receiveMessage := json_request Err_text d_receiveMessage;
  json_deleteMessage := json_request Err_text d_deleteMessage;
  json_changeVisibility := json_request Err_text d_changeVisibility;
  json_getQueueAttributes := json_request Err_text d_getQueueAttributes;
  json_deleteQueue := json_request Err_text d_deleteQueue;
  json_getQueueUrl := json_request Err_text d_getQueueUrl |}.

(** ** Helpers *)

Definition normaliseQueueURL (url : string) : string :=
  if String.eqb url "" then ""
  else match LastIndexByte url "/" with
       | Some i => str_drop (S i) url
       | None => url
       end.
Definition fakeQueueURL (name : string) : string := "https://sqs.shim.amazonaws.com/000000000000/" +:+ name.
Definition fakeQueueArn (name : string) : string := "arn:aws:sqs:us-east-1:000000000000:" +:+ name.

(** The digits, from the last; twenty are enough for an int. *)
Fixpoint itoa_digits (fuel : nat) (n : Z) (buf : string) : string :=
  match fuel with
  | O => buf
  | S fuel => if 0 <? n then itoa_digits fuel (n / 10) (String (ascii_of_N (Z.to_N (48 + n mod 10))) buf) else buf
  end.
Definition itoa (n : Z) : string :=
  if n =? 0 then "0"
  else if n <? 0 then "-" +:+ itoa_digits 20 (wrap_s 64 (- n)) ""
  else itoa_digits 20 n "".

Definition json_type : string := "application/x-amz-json-1.0".

Definition writeError (status : Z) (code message : string) : Response (payload output) :=
  mkResponse status (Set_ "Content-Type" json_type ∅) (ErrEnvelope ("com.amazonaws.sqs#" +:+ code) message).
Definition writeJSON (status : Z) (body : output) : Response (payload output) :=
  mkResponse status (Set_ "Content-Type" json_type ∅) (Json body).

Section server.
Context `{Pubsub_ St} `{ReceiveJson} (Quote : string → string) (d : Draws St).
Implicit Types (s : St).
Abbreviation answer := (answered St output).

Definition mapDomainError (err : error) : Response (payload output) :=
  match err with
  | Plain text => writeError 500 "InternalServiceError" text
  | DomainError kind _ _ _ =>
      let text := Error_text Quote err in
      match kind with
      | KindNoSuchSubscription => writeError 400 "QueueDoesNotExist" text
      | KindInvalidReceiptHandle => writeError 400 "ReceiptHandleIsInvalid" text
      | KindInvalidArgument => writeError 400 "InvalidAttributeValue" text
      | _ => writeError 500 "InternalServiceError" text
      end
  end.

(** [decode(w, r, &in)] and the rest of the handler. *)
Definition decode {T} `{JsonRequest T} (r : Request) s (k : T → answer) : answer :=
  match json_Decode (default (Reads []) (GoHttp.Body r)) with
  | inl text => Some (s, Some (writeError 400 "InvalidRequest" ("malformed JSON body: " +:+ text)))
  | inr i => k i
  end.

Definition reply {A} (c : St * result A) (k : A → output) : St * option (Response (payload output)) :=
  (c.1, match c.2 with
        | Ok a => Some (writeJSON 200 (k a))
        | Err e => Some (mapDomainError e)
        | Panic => None
        end).

Definition message_out (m : Message) : messageOut :=
  mkMessageOut (MessageID m) (string_of_bytes (default [] (PubSub.Body m))) (ReceiptHandle m)
    (let attrs := default ∅ (Attributes m) in
     if decide (attrs = ∅) then None else Some ((λ v, mkMessageAttributeValue v "String") <$> attrs)).

Definition receiveMessage (r : Request) s : answer :=
  decode r s (λ i,
    (λ c, reply c (λ msgs, receiveMessageResponse (message_out <$> msgs))) <$>
      p_Receive d (normaliseQueueURL (rmr_QueueUrl i))
        (mkReceiveOptions (rmr_MaxNumberOfMessages i) (default 0 (rmr_VisibilityTimeout i)) (rmr_WaitTimeSeconds i)) s).

Definition deleteMessage (r : Request) s : answer :=
  decode r s (λ i, Some (reply (p_Ack (normaliseQueueURL (dmr_QueueUrl i)) (dmr_ReceiptHandle i) s) (λ _, Empty))).

Definition changeMessageVisibility (r : Request) s : answer :=
  decode r s (λ i, Some (reply (p_ChangeVisibility d (normaliseQueueURL (cvr_QueueUrl i)) (cvr_ReceiptHandle i)
    (cvr_VisibilityTimeout i) s) (λ _, Empty))).

Definition getQueueAttributes (r : Request) s : answer :=
  decode r s (λ i,
    let sub := normaliseQueueURL (gqa_QueueUrl i) in
    Some (reply (p_HeadSubscription sub s) (λ x, getQueueAttributesResponse
      {["VisibilityTimeout" := itoa (AckDeadlineSeconds x); "QueueArn" := fakeQueueArn sub;
        "ApproximateNumberOfMessages" := "0"]}))).

Definition deleteQueue (r : Request) s : answer :=
  decode r s (λ i, Some (reply (p_DeleteSubscription (normaliseQueueURL (dqr_QueueUrl i)) s) (λ _, Empty))).

Definition getQueueUrl (r : Request) s : answer :=
  decode r s (λ i, Some (reply (p_HeadSubscription (gqu_QueueName i) s)
    (λ _, getQueueUrlResponse (fakeQueueURL (gqu_QueueName i))))).

(** What follows the first dot of the target, or all of it. *)
Definition target_op (r : Request) : string :=
  let target := Header_Get r "X-Amz-Target" in
  match IndexByte target "." with Some i => str_drop (S i) target | None => target end.

Definition ServeHTTP (r : Request) s : answer :=
  if negb (String.eqb (Method r) "POST")
  then Some (s, Some (writeError 405 "InvalidRequest" (Method r +:+ " not allowed; SQS uses POST")))
  else
    let op := target_op r in
    if String.eqb op "ReceiveMessage" then receiveMessage r s
    else if String.eqb op "DeleteMessage" then deleteMessage r s
    else if String.eqb op "ChangeMessageVisibility" then changeMessageVisibility r s
    else if String.eqb op "GetQueueAttributes" then getQueueAttributes r s
    else if String.eqb op "DeleteQueue" then deleteQueue r s
    else if String.eqb op "GetQueueUrl" then getQueueUrl r s
    else Some (s, Some (writeError 400 "UnknownOperationException"
           ("operation " +:+ op +:+ " is not supported on the pubsub fanout data plane (use SNS Publish for sends)"))).
End server.

Example itoa_range : itoa 0 = "0" ∧ itoa 600 = "600" ∧ itoa (-45) = "-45" ∧ itoa (2 ^ 63 - 1) = "9223372036854775807".
Proof. vm_compute. done. Qed.
