(* ===== verification/SnsProps.v ===== *)
(** * The SNS frontend and its SQS receive surface: properties

    Names and ARNs, the numbered attributes of a publish, and a session: topic,
    subscriptions and publishes over the SNS protocol, receives and deletions
    over the SQS one. *)

From Stdlib Require Import Ascii.
From S2P Require Import Prelude GoStrings GoBytes GoHttp GoUrl GoJson GoJsonProps Ledger LongPoll AwsJson PubSub PubSubProps PubSubApi SqsReceive AwsQuery Sns.

(** ** Names *)

Lemma parse_topicArn name : str_mem ":" name = false → parseTopicArn (topicArn name) = name.
Proof.
  intros Hn. unfold parseTopicArn, topicArn.
  change ("arn:aws:sns:us-east-1:000000000000:" +:+ name) with
    ("arn:aws:sns:us-east-1:000000000000" +:+ String ":" name).
  destruct (String.eqb_spec ("arn:aws:sns:us-east-1:000000000000" +:+ String ":" name) "") as [E|_]; [done|].
  by rewrite Split_sep, (Split_plain name).
Qed.

Lemma last_segment p name : str_mem ":" name = false → lastArnSegment (p +:+ String ":" name) = name.
Proof.
  intros Hn. unfold lastArnSegment. destruct (String.eqb_spec (p +:+ String ":" name) "") as [E|_].
  { by destruct p. }
  by rewrite LastIndexByte_app, str_drop_sep.
Qed.

Lemma last_queueArn q : str_mem ":" q = false → lastArnSegment (queueArn q) = q.
Proof. intros Hq. exact (last_segment "arn:aws:sqs:us-east-1:000000000000" q Hq). Qed.

Lemma last_subscriptionArn t q : str_mem ":" q = false → lastArnSegment (subscriptionArn t q) = q.
Proof.
  intros Hq. unfold subscriptionArn. rewrite <-str_app_assoc. change (":" +:+ q) with (String ":" q).
  by apply last_segment.
Qed.

Lemma receive_normalise name :
  str_mem "/" name = false → SqsReceive.normaliseQueueURL (SqsReceive.fakeQueueURL name) = name.
Proof.
  intros Hn. unfold normaliseQueueURL, fakeQueueURL.
  change ("https://sqs.shim.amazonaws.com/000000000000/" +:+ name) with
    ("https://sqs.shim.amazonaws.com/000000000000" +:+ String "/" name).
  by rewrite LastIndexByte_app, str_drop_sep.
Qed.

(** ** The numbered attributes *)

(** A digit string followed by a suffix without digits splits one way. *)
Lemma entry_inj i j s t :
  0 <= i → 0 <= j → "MessageAttributes.entry." +:+ Itoa i +:+ String "." s = "MessageAttributes.entry." +:+ Itoa j +:+ String "." t →
  i = j ∧ s = t.
Proof.
  intros Hi Hj E%str_app_inj_l. apply str_sep_inj in E as [E ->]; [|by apply Itoa_mem..].
  split; [by apply Itoa_inj|done].
Qed.

Lemma entry_name_inj i j : 0 <= i → 0 <= j → entry_name i = entry_name j → i = j.
Proof. intros Hi Hj E. by apply (entry_inj i j "Name" "Name") in E as [? _]. Qed.
Lemma entry_value_inj i j : 0 <= i → 0 <= j → entry_value i = entry_value j → i = j.
Proof. intros Hi Hj E. by apply (entry_inj i j "Value.StringValue" "Value.StringValue") in E as [? _]. Qed.
Lemma entry_name_value i j : 0 <= i → 0 <= j → entry_name i ≠ entry_value j.
Proof. intros Hi Hj E. by apply (entry_inj i j "Name" "Value.StringValue") in E as [_ ?]. Qed.

(** The loop needs a key of the form for each turn. *)
Lemma attribute_loop_keys fuel i form out :
  attribute_loop fuel i form out = None → ∀ j, 0 <= j < Z.of_nat fuel → is_Some (form !! entry_name (i + j)).
Proof.
  revert i out. induction fuel as [|fuel IH]; intros i out H j Hj; [lia|]. cbn [attribute_loop] in H.
  destruct (String.eqb_spec (Query_Get form (entry_name i)) "") as [|Hne]; [done|].
  destruct (decide (j = 0)) as [->|Hj0].
  - rewrite Z.add_0_r. unfold Query_Get in Hne. by destruct (form !! entry_name i).
  - replace (i + j) with (i + 1 + (j - 1)) by lia. eapply IH; [exact H|lia].
Qed.

Lemma attribute_loop_ends form : ∃ out, attribute_loop (S (size form)) 1 form ∅ = Some out.
Proof.
  destruct (attribute_loop (S (size form)) 1 form ∅) as [out|] eqn:E; [eauto|exfalso].
  pose proof (keys_bounded form entry_name entry_name_inj (S (size form)) (λ j Hj, attribute_loop_keys _ _ _ _ E j Hj)). lia.
Qed.

(** The form of a publish. *)
Definition attribute_fields (i : Z) (kv : string * string) : list (string * string) :=
  [(entry_name i, kv.1); ("MessageAttributes.entry." +:+ Itoa i +:+ ".Value.DataType", "String");
   (entry_value i, kv.2)].
Fixpoint attributes_form (i : Z) (attrs : list (string * string)) : list (string * string) :=
  match attrs with
  | [] => []
  | kv :: attrs => attribute_fields i kv ++ attributes_form (i + 1) attrs
  end.

Lemma entry_datatype_name i j : 0 <= i → 0 <= j → "MessageAttributes.entry." +:+ Itoa i +:+ ".Value.DataType" ≠ entry_name j.
Proof. intros Hi Hj E. by apply (entry_inj i j "Value.DataType" "Name") in E as [_ ?]. Qed.
Lemma entry_datatype_value i j : 0 <= i → 0 <= j → "MessageAttributes.entry." +:+ Itoa i +:+ ".Value.DataType" ≠ entry_value j.
Proof. intros Hi Hj E. by apply (entry_inj i j "Value.DataType" "Value.StringValue") in E as [_ ?]. Qed.

(** What the fields before and of other entries leave of an entry. *)
Lemma attributes_form_lookup i attrs l :
  0 <= i →
  (∀ n kv, attrs !! n = Some kv →
    Query_Get (form_of (attributes_form i attrs ++ l)) (entry_name (i + Z.of_nat n)) = kv.1 ∧
    Query_Get (form_of (attributes_form i attrs ++ l)) (entry_value (i + Z.of_nat n)) = kv.2) ∧
  (∀ k, (∀ j, 0 <= j → k ≠ entry_name j ∧ k ≠ entry_value j ∧ k ≠ "MessageAttributes.entry." +:+ Itoa j +:+ ".Value.DataType") →
    Query_Get (form_of (attributes_form i attrs ++ l)) k = Query_Get (form_of l) k) ∧
  (∀ j, 0 <= j → (j < i ∨ i + Z.of_nat (length attrs) <= j) →
    Query_Get (form_of (attributes_form i attrs ++ l)) (entry_name j) = Query_Get (form_of l) (entry_name j)).
Proof.
  revert i. induction attrs as [|kv attrs IH]; intros i Hi; [split_and!; [by intros [|] ? ?|done|done]|].
  destruct (IH (i + 1) ltac:(lia)) as (IH1 & IH2 & IH3). cbn [attributes_form attribute_fields app]. split_and!.
  - intros [|n] kv' Hn; cbn in Hn.
    + injection Hn as ->. rewrite Z.add_0_r, !Query_Get_cons. rewrite decide_True by done.
      rewrite (decide_False (P := entry_name i = entry_value i)) by (by apply entry_name_value).
      rewrite (decide_False (P := _ = entry_value i)) by (by apply entry_datatype_value). by rewrite decide_True.
    + destruct (IH1 n kv' Hn) as [H1 H2]. replace (i + Z.of_nat (S n)) with (i + 1 + Z.of_nat n) by lia.
      rewrite !Query_Get_cons.
      rewrite (decide_False (P := entry_name i = entry_name _)) by (intros E%entry_name_inj; lia).
      rewrite (decide_False (P := _ = entry_name (i + 1 + Z.of_nat n))) by (apply entry_datatype_name; lia).
      rewrite (decide_False (P := entry_value i = entry_name _)) by (apply not_eq_sym, entry_name_value; lia).
      rewrite (decide_False (P := entry_name i = entry_value _)) by (apply entry_name_value; lia).
      rewrite (decide_False (P := _ = entry_value (i + 1 + Z.of_nat n))) by (apply entry_datatype_value; lia).
      rewrite (decide_False (P := entry_value i = entry_value _)) by (intros E%entry_value_inj; lia). by split.
  - intros k Hk. destruct (Hk i Hi) as (H1 & H2 & H3). rewrite !Query_Get_cons, !decide_False by congruence. by apply IH2.
  - intros j Hj Hout. cbn [length] in Hout. rewrite !Query_Get_cons.
    rewrite (decide_False (P := entry_name i = entry_name _)) by (intros E%entry_name_inj; lia).
    rewrite (decide_False (P := _ = entry_name j)) by (apply entry_datatype_name; lia).
    rewrite (decide_False (P := entry_value i = entry_name _)) by (apply not_eq_sym, entry_name_value; lia).
    apply IH3; lia.
Qed.

(** The attributes as a map; a later one of the same name replaces it. *)
Definition attrs_map (attrs : list (string * string)) (out : gmap string string) : gmap string string :=
  fold_left (λ m kv, <[kv.1 := kv.2]> m) attrs out.

(** The loop collects the attributes, in order. *)
Lemma attribute_loop_spec fuel i form attrs out r :
  (∀ n kv, attrs !! n = Some kv → Query_Get form (entry_name (i + Z.of_nat n)) = kv.1 ∧
     Query_Get form (entry_value (i + Z.of_nat n)) = kv.2 ∧ kv.1 ≠ "") →
  Query_Get form (entry_name (i + Z.of_nat (length attrs))) = "" →
  attribute_loop fuel i form out = Some r → r = attrs_map attrs out.
Proof.
  revert fuel i out. induction attrs as [|kv attrs IH]; intros [|fuel] i out Hat Hend; cbn [attribute_loop]; [done| |done|].
  - cbn [length] in Hend. rewrite Z.add_0_r in Hend. rewrite Hend. by intros [= <-].
  - destruct (Hat 0%nat kv eq_refl) as (H1 & H2 & Hne). rewrite Z.add_0_r in H1, H2. rewrite H1, H2.
    apply String.eqb_neq in Hne. rewrite Hne. intros Hr. cbn.
    eapply (IH fuel (i + 1)); [| |exact Hr].
    + intros n kv' Hn. specialize (Hat (S n) kv' Hn). by replace (i + Z.of_nat (S n)) with (i + 1 + Z.of_nat n) in Hat by lia.
    + rewrite <-Hend. f_equal. f_equal. cbn [length]. lia.
Qed.

Lemma messageAttributes_spec form attrs :
  (∀ n kv, attrs !! n = Some kv → Query_Get form (entry_name (1 + Z.of_nat n)) = kv.1 ∧
     Query_Get form (entry_value (1 + Z.of_nat n)) = kv.2 ∧ kv.1 ≠ "") →
  Query_Get form (entry_name (1 + Z.of_nat (length attrs))) = "" →
  default ∅ (messageAttributes form) = attrs_map attrs ∅.
Proof.
  intros H1 H2. unfold messageAttributes. destruct (attribute_loop_ends form) as [out E]. rewrite E.
  rewrite <-(attribute_loop_spec _ _ _ _ _ _ H1 H2 E). by destruct (decide (out = ∅)) as [->|].
Qed.

(** ** Requests of an SNS client *)

Definition create_form (topic : string) : list (string * string) := [("Action", "CreateTopic"); ("Name", topic)].
Definition subscribe_form (topic queue : string) : list (string * string) :=
  [("Action", "Subscribe"); ("TopicArn", topicArn topic); ("Protocol", "sqs"); ("Endpoint", queueArn queue)].

(** A message as the client publishes it. *)
Record posted := mkPosted { p_draws : draws; p_body : string; p_attrs : list (string * string) }.
Definition publish_form (topic : string) (m : posted) : list (string * string) :=
  [("Action", "Publish"); ("TopicArn", topicArn topic); ("Message", p_body m)] ++ attributes_form 1 (p_attrs m).

Definition publishable (topic : string) (m : posted) : Prop :=
  small (publish_form topic m) ∧ Forall (λ kv, kv.1 ≠ "") (p_attrs m).

Lemma sns_routes_lookup o : routes RegisterSNSRoutes !! op_name o = Some o.
Proof. by destruct o. Qed.

Section serve.
Context (Quote : string → string) (parse_params : string → string → string * option string).

Definition sns_serve (d : draws) (r : Request) (b : Backend) : Backend * option (Response (payload output)) :=
  Sns_ServeHTTP Quote (d : Draws Backend) parse_params r b.

Lemma serve_form (d : draws) o kvs b :
  small (("Action", op_name o) :: kvs) →
  sns_serve d (form_post (("Action", op_name o) :: kvs)) b =
    handle Quote (d : Draws Backend) o (form_of (("Action", op_name o) :: kvs)) b.
Proof.
  intros Hs. apply Query_ServeHTTP_form; [done|by destruct o|apply sns_routes_lookup].
Qed.

Lemma create_one d tn b :
  str_mem ":" tn = false → tn ≠ "" → topics b !! tn = None → small (create_form tn) →
  sns_serve d (form_post (create_form tn)) b =
    (mkBackend (<[tn := mkTopicState tn (d_now d) ∅]> (topics b)) (subs b),
     Some (WriteResult "CreateTopic" (Some (CreateTopicResponse (topicArn tn))))).
Proof.
  intros Hc Hne Ht Hs. etransitivity; [exact (serve_form d CreateTopicHandler [("Name", tn)] b Hs)|].
  cbn [handle]. form_fields.
  unfold Adapter_CreateTopic. apply String.eqb_neq in Hne. rewrite Hne.
  cbn [p_CreateTopic inmem_pubsub]. unfold CreateTopic. by rewrite Ht.
Qed.

Lemma subscribe_call d tn q b :
  str_mem ":" tn = false → tn ≠ "" → str_mem ":" q = false → q ≠ "" → small (subscribe_form tn q) →
  sns_serve d (form_post (subscribe_form tn q)) b =
    reply "Subscribe" (call_unless Quote KindSubscriptionAlreadyExists
      (CreateSubscription (d_now d) tn q (mkCreateSubscriptionOptions 0 true) b)
      (SubscribeResponse (subscriptionArn tn q))) Some.
Proof.
  intros Hc Hne Hcq Hneq Hs.
  etransitivity; [exact (serve_form d SubscribeHandler [("TopicArn", topicArn tn); ("Protocol", "sqs"); ("Endpoint", queueArn q)] b Hs)|].
  cbn [handle]. unfold form_field. form_fields.
  unfold Adapter_Subscribe. cbn [sbi_TopicArn sbi_Endpoint sbi_Protocol]. rewrite parse_topicArn by done.
  change (String.eqb (queueArn q) "") with false. cbv iota. cbn [default]. change (Datatypes.id ?x) with x.
  change (String.eqb (queueArn q) "") with false. rewrite last_queueArn by done.
  apply String.eqb_neq in Hne, Hneq. rewrite Hne, Hneq. reflexivity.
Qed.

Lemma subscribe_one d tn q t b :
  str_mem ":" tn = false → tn ≠ "" → str_mem ":" q = false → q ≠ "" →
  topics b !! tn = Some t → subs b !! q = None → small (subscribe_form tn q) →
  sns_serve d (form_post (subscribe_form tn q)) b =
    (mkBackend (<[tn := set_t_subs t ({[q]} ∪ t_subs t)]> (topics b))
       (<[q := mkSubscriptionState q tn 30 true (d_now d) [] ∅]> (subs b)),
     Some (WriteResult "Subscribe" (Some (SubscribeResponse (subscriptionArn tn q))))).
Proof.
  intros Hc Hne Hcq Hneq Ht Hq Hs. rewrite subscribe_call by done. unfold CreateSubscription. by rewrite Ht, Hq.
Qed.

Lemma subscribe_taken d tn q t s b :
  str_mem ":" tn = false → tn ≠ "" → str_mem ":" q = false → q ≠ "" →
  topics b !! tn = Some t → subs b !! q = Some s → small (subscribe_form tn q) →
  sns_serve d (form_post (subscribe_form tn q)) b =
    (b, Some (WriteResult "Subscribe" (Some (SubscribeResponse (subscriptionArn tn q))))).
Proof.
  intros Hc Hne Hcq Hneq Ht Hq Hs. rewrite subscribe_call by done. unfold CreateSubscription. by rewrite Ht, Hq.
Qed.

Definition posted_id (m : posted) : string := newID (d_rnd (p_draws m)).
Definition posted_attributes (tn : string) (m : posted) : strmap := messageAttributes (form_of (publish_form tn m)).
Definition posted_state (tn : string) (m : posted) : messageState :=
  mkMessageState (posted_id m) (Some (bytes_of_string (p_body m))) (posted_attributes tn m)
    (d_now (p_draws m)) 0 "" zeroTime.

Lemma entry_key_other k i s : HasPrefix k "MessageAttributes.entry." = false → k ≠ "MessageAttributes.entry." +:+ Itoa i +:+ s.
Proof. intros H ->. by rewrite HasPrefix_app in H. Qed.

Lemma posted_attributes_spec tn m :
  Forall (λ kv, kv.1 ≠ "") (p_attrs m) → default ∅ (posted_attributes tn m) = attrs_map (p_attrs m) ∅.
Proof.
  intros Hne. unfold posted_attributes, publish_form. set (l := attributes_form 1 (p_attrs m)).
  destruct (attributes_form_lookup 1 (p_attrs m) [] ltac:(lia)) as (H1 & _ & H3). rewrite app_nil_r in H1, H3. fold l in H1, H3.
  assert (∀ j s, Query_Get (form_of ([("Action", "Publish"); ("TopicArn", topicArn tn); ("Message", p_body m)] ++ l))
    ("MessageAttributes.entry." +:+ Itoa j +:+ s) = Query_Get (form_of l) ("MessageAttributes.entry." +:+ Itoa j +:+ s)) as Hp.
  { intros j s. cbn [app]. by rewrite !Query_Get_cons, !decide_False by (by apply entry_key_other). }
  apply messageAttributes_spec.
  - intros n kv Hn. unfold entry_name, entry_value in *. rewrite !Hp. destruct (H1 n kv Hn). split_and!; [done..|].
    by apply (Forall_lookup_1 _ _ _ _ Hne Hn).
  - unfold entry_name in *. rewrite Hp, H3 by lia. done.
Qed.

Lemma publish_one m tn t b :
  str_mem ":" tn = false → topics b !! tn = Some t → publishable tn m →
  sns_serve (p_draws m) (form_post (publish_form tn m)) b =
    (mkBackend (topics b) (fold_left (publish_to (posted_state tn m)) (elements (t_subs t)) (subs b)),
     Some (WriteResult "Publish" (Some (PublishResponse (posted_id m))))).
Proof.
  intros Hc Ht [Hs Ha]. assert (publish_form tn m = ("Action", op_name PublishHandler) ::
    [("TopicArn", topicArn tn); ("Message", p_body m)] ++ attributes_form 1 (p_attrs m)) as E by done.
  rewrite E in Hs |- *. rewrite serve_form by done. rewrite <-E. cbn [handle]. unfold form_field.
  assert (Query_Get (form_of (publish_form tn m)) "TopicArn" = topicArn tn) as ->
    by (unfold publish_form; cbn [app]; by form_fields).
  assert (Query_Get (form_of (publish_form tn m)) "Message" = p_body m) as ->
    by (unfold publish_form; cbn [app]; by form_fields).
  unfold Adapter_Publish. cbn [pui_TopicArn pui_Message]. change (String.eqb (topicArn tn) "") with false. cbv iota.
  cbn [default]. change (Datatypes.id ?x) with x. change (String.eqb (topicArn tn) "") with false. cbv iota.
  rewrite parse_topicArn by done. cbn [p_Publish inmem_pubsub]. unfold Publish. rewrite Ht.
  unfold call, reply. cbn [fst snd pr_MessageID po_Body po_Attributes]. rewrite sub_copyBytes_id, sub_copyStrMap_id. done.
Qed.

(** *** The client's loops: the state after, when every answer is a 200 *)

Fixpoint sns_subscribe_all (d : draws) (tn : string) (qs : list string) (b : Backend)
    : option (Backend * list string) :=
  match qs with
  | [] => Some (b, [])
  | q :: qs =>
      match sns_serve d (form_post (subscribe_form tn q)) b with
      | (b, Some (mkResponse 200 _ (Result _ (Some (SubscribeResponse arn))))) =>
          (λ x : Backend * list string, (x.1, arn :: x.2)) <$> sns_subscribe_all d tn qs b
      | _ => None
      end
  end.

Fixpoint sns_publish_all (tn : string) (ms : list posted) (b : Backend) : option (Backend * list string) :=
  match ms with
  | [] => Some (b, [])
  | m :: ms =>
      match sns_serve (p_draws m) (form_post (publish_form tn m)) b with
      | (b, Some (mkResponse 200 _ (Result _ (Some (PublishResponse id))))) =>
          (λ x : Backend * list string, (x.1, id :: x.2)) <$> sns_publish_all tn ms b
      | _ => None
      end
  end.

(** The topic and exactly the queues [qs] with the messages [l] each; other
    subscriptions are those of [b0]. *)
Definition fanned (tn : string) (qs : list string) (d : draws) (l : list messageState) (b0 b : Backend) : Prop :=
  (∃ t, topics b !! tn = Some t ∧ t_subs t = list_to_set qs) ∧
  ∀ q, subs b !! q = if decide (q ∈ qs) then Some (mkSubscriptionState q tn 30 true (d_now d) l ∅) else subs b0 !! q.

Lemma subscribe_all_spec d tn qs done_ b0 b :
  str_mem ":" tn = false → tn ≠ "" → NoDup (qs ++ done_) →
  Forall (λ q, str_mem ":" q = false ∧ q ≠ "" ∧ small (subscribe_form tn q) ∧ subs b0 !! q = None) qs →
  fanned tn done_ d [] b0 b →
  ∃ b' qs', sns_subscribe_all d tn qs b = Some (b', subscriptionArn tn <$> qs) ∧ fanned tn qs' d [] b0 b' ∧ qs' ≡ₚ qs ++ done_.
Proof.
  intros Hc Hne. revert done_ b. induction qs as [|q qs IH]; intros done_ b Hnd Hqs [(t & Ht & Hsub) Hb].
  { exists b, done_. split_and!; [done|split; [by exists t|done]|done]. }
  apply Forall_cons in Hqs as [(Hq1 & Hq2 & Hq3 & Hq4) Hqs]. cbn [app] in Hnd. apply NoDup_cons in Hnd as [Hni Hnd].
  assert (q ∉ done_) as Hnd' by set_solver.
  assert (subs b !! q = None) as Hq by (by rewrite Hb, decide_False).
  cbn [sns_subscribe_all]. rewrite (subscribe_one d tn q t b Hc Hne Hq1 Hq2 Ht Hq Hq3). unfold WriteResult.
  destruct (IH (q :: done_) (mkBackend (<[tn := set_t_subs t ({[q]} ∪ t_subs t)]> (topics b))
       (<[q := mkSubscriptionState q tn 30 true (d_now d) [] ∅]> (subs b)))) as (b' & qs' & E & Hf & Hp).
  - rewrite <-Permutation_middle. by constructor.
  - done.
  - split.
    + eexists. cbn [topics]. rewrite lookup_insert_eq. split; [done|]. cbn [t_subs set_t_subs]. by rewrite Hsub.
    + intros q'. cbn [subs]. destruct (decide (q' = q)) as [->|Hne'].
      * rewrite lookup_insert_eq, decide_True; [done|by left].
      * rewrite lookup_insert_ne, Hb by done. destruct (decide (q' ∈ done_)).
        -- rewrite decide_True; [done|by right].
        -- rewrite decide_False; [done|]. by intros [?|?]%elem_of_cons.
  - exists b', qs'. rewrite E. split_and!; [done..|]. by rewrite Hp, <-Permutation_middle.
Qed.

Lemma publish_all_spec tn ms qs d l b0 b :
  str_mem ":" tn = false → Forall (publishable tn) ms → fanned tn qs d l b0 b →
  ∃ b', sns_publish_all tn ms b = Some (b', posted_id <$> ms) ∧
    fanned tn qs d (l ++ (posted_state tn <$> ms)) b0 b'.
Proof.
  intros Hc. revert l b. induction ms as [|m ms IH]; intros l b Hms [(t & Ht & Hsub) Hb].
  { exists b. rewrite fmap_nil, app_nil_r. split; [done|split; [by exists t|done]]. }
  apply Forall_cons in Hms as [Hm Hms]. cbn [sns_publish_all]. rewrite (publish_one m tn t b Hc Ht Hm). unfold WriteResult.
  destruct (IH (l ++ [posted_state tn m]) (mkBackend (topics b)
    (fold_left (publish_to (posted_state tn m)) (elements (t_subs t)) (subs b)))) as (b' & E & Hf).
  - done.
  - split; [by exists t|]. intros q. cbn [subs]. rewrite publish_lookup, Hb by apply NoDup_elements.
    destruct (decide (q ∈ elements (t_subs t))) as [Hin|Hin]; rewrite elem_of_elements, Hsub, elem_of_list_to_set in Hin.
    + by rewrite !decide_True by done.
    + by rewrite !decide_False by done.
  - exists b'. rewrite E. split; [done|]. by rewrite <-(assoc_L (++)) in Hf.
Qed.
End serve.

(** ** Requests of a receiving client *)

Definition receive_request {T} `{JsonRequest T} (r : Request) (op : string) (i : T) : Prop :=
  Method r = "POST" ∧ target_op r = op ∧ json_Decode (default (Reads []) (GoHttp.Body r)) = inr i.

Definition sqs_receive `{ReceiveJson} (Quote : string → string) (d : draws) (r : Request) (b : Backend)
    : option (Backend * option (Response (AwsJson.payload SqsReceive.output))) :=
  SqsReceive.ServeHTTP Quote (d : Draws Backend) r b.

(** The deletions, one request each. *)
Fixpoint drain_all `{ReceiveJson} (Quote : string → string) (d : draws) (del : string → Request) (hs : list string)
    (b : Backend) : option Backend :=
  match hs with
  | [] => Some b
  | h :: hs =>
      match sqs_receive Quote d (del h) b with
      | Some (b, Some (mkResponse 200 _ (Json Empty))) => drain_all Quote d del hs b
      | _ => None
      end
  end.

(** What is received for a message that was published. *)
Definition delivered_as (m : posted) (o : messageOut) : Prop :=
  mo_MessageId o = posted_id m ∧ mo_Body o = p_body m ∧
  default ∅ (mo_MessageAttributes o) = (λ v, mkMessageAttributeValue v "String") <$> attrs_map (p_attrs m) ∅.

Section drain.
Context `{ReceiveJson} (Quote : string → string) (d : draws) (q : string) (Hq : str_mem "/" q = false).
Abbreviation url := (SqsReceive.fakeQueueURL q).

Lemma drain_spec del hs b s :
  (∀ h, h ∈ hs → receive_request (del h) "DeleteMessage" (mkDeleteMessageRequest url h)) →
  subs b !! q = Some s → NoDup hs → (∀ h, h ∈ hs → is_Some (inflight s !! h)) →
  ∃ b', drain_all Quote d del hs b = Some b' ∧
    subs b' !! q = Some (set_messages s (pending s) (fold_left (λ f h, delete h f) hs (inflight s))) ∧
    topics b' = topics b ∧ ∀ q', q' ≠ q → subs b' !! q' = subs b !! q'.
Proof.
  revert b s. induction hs as [|h hs IH]; intros b s Hdel Hs Hnd Hh.
  { exists b. split_and!; [done| |done..]. by destruct s. }
  apply NoDup_cons in Hnd as [Hni Hnd]. destruct (Hh h ltac:(left)) as [m Hm].
  destruct (Hdel h ltac:(left)) as (H1 & H2 & H3). cbn [drain_all]. unfold sqs_receive at 1, SqsReceive.ServeHTTP.
  rewrite H1, H2. cbn [String.eqb Ascii.eqb Bool.eqb negb]. unfold deleteMessage, decode. rewrite H3.
  cbn [dmr_QueueUrl dmr_ReceiptHandle p_Ack inmem_pubsub]. rewrite receive_normalise by done. unfold Ack. rewrite Hs, Hm.
  unfold SqsReceive.reply, writeJSON. cbn [fst snd].
  destruct (IH (set_sub b q (set_messages s (pending s) (delete h (inflight s))))
    (set_messages s (pending s) (delete h (inflight s)))) as (b' & E & Es & Et & Eo).
  - intros h' Hin. apply Hdel. by right.
  - cbn. by rewrite lookup_insert_eq.
  - done.
  - intros h' Hin. cbn. rewrite lookup_delete_ne; [apply Hh; by right|]. intros ->. done.
  - exists b'. split_and!; [exact E|exact Es|exact Et|]. intros q' Hne. rewrite Eo by done. cbn. by rewrite lookup_insert_ne.
Qed.

Lemma delivered_message now h v tn m :
  Forall (λ kv, kv.1 ≠ "") (p_attrs m) →
  delivered_as m (message_out (message_of now (deliver now h v (posted_state tn m)))).
Proof.
  intros Ha. unfold delivered_as, message_out. cbn [mo_MessageId mo_Body mo_MessageAttributes message_of deliver
    MessageID PubSub.Body PubSub.Attributes posted_state id body attributes].
  rewrite sub_copyBytes_id, sub_copyStrMap_id, (posted_attributes_spec tn m Ha). split_and!; [done| |].
  - apply string_of_bytes_of_string.
  - destruct (decide (attrs_map (p_attrs m) ∅ = ∅)) as [->|]; [by rewrite fmap_empty|done].
Qed.

Lemma receive_all_spec recv i ms tn b s :
  receive_request recv "ReceiveMessage" i → rmr_QueueUrl i = url → ms ≠ [] →
  Z.of_nat (length ms) <= batch_size (rmr_MaxNumberOfMessages i) →
  Forall (λ m, Forall (λ kv, kv.1 ≠ "") (p_attrs m)) ms →
  subs b !! q = Some s → pending s = posted_state tn <$> ms → inflight s = ∅ →
  (0 < d_fuel d)%nat → fresh_handles (tk_rnd (d_env d O)) ∅ →
  ∃ b' outs f, sqs_receive Quote d recv b = Some (b', Some (writeJSON 200 (receiveMessageResponse outs))) ∧
    Forall2 delivered_as ms outs ∧ NoDup (mo_ReceiptHandle <$> outs) ∧
    (∀ h, h ∈ mo_ReceiptHandle <$> outs → ∃ j, h = newID (tk_rnd (d_env d O) j)) ∧
    subs b' !! q = Some (set_messages s [] f) ∧ (∀ h, is_Some (f !! h) ↔ h ∈ mo_ReceiptHandle <$> outs) ∧
    topics b' = topics b ∧ ∀ q', q' ≠ q → subs b' !! q' = subs b !! q'.
Proof.
  intros (H1 & H2 & H3) Hu Hne Hmax Hat Hs Hp Hf Hfuel Hfr.
  unfold sqs_receive, SqsReceive.ServeHTTP. rewrite H1, H2. cbn [String.eqb Ascii.eqb Bool.eqb negb].
  unfold receiveMessage, decode. rewrite H3, Hu, receive_normalise by done. set (opt := mkReceiveOptions _ _ _).
  cbn [p_Receive inmem_pubsub]. unfold Receive, receive_loop. destruct (d_fuel d) as [|fuel]; [lia|]. cbn [poll].
  set (t := d_env d O) in *. rewrite (receive_once_spec _ _ _ _ opt b s Hs). cbv zeta.
  assert (reclaimInflight (tk_now t) (tk_order t) s = s) as Hrec.
  { induction (tk_order t) as [|h order IH]; [done|]. cbn [reclaimInflight]. by rewrite Hf, lookup_empty. }
  assert (length (posted_state tn <$> ms) <= Z.to_nat (batch_size (MaxMessages opt)))%nat as Hle.
  { rewrite length_fmap. unfold opt. cbn [MaxMessages]. lia. }
  destruct (batch_inserted (tk_now t) (tk_order t) (tk_rnd t) opt s ltac:(by rewrite Hf)) as (_ & Hin & Hout).
  rewrite Hrec in Hin, Hout |- *. unfold batch in *. rewrite Hrec, Hp, (take_ge _ _ Hle) in *. rewrite (drop_ge _ _ Hle).
  set (out := delivered _ _ _ _ _) in *. set (f := insert_all _ _ _) in *.
  assert (length out = length ms) as Hlen by (unfold out, delivered; by rewrite length_imap, length_fmap).
  assert ((0 <? Z.of_nat (length (message_of (tk_now t) <$> out))) = true) as ->.
  { apply Z.ltb_lt. rewrite length_fmap, Hlen. destruct ms; [done|]. simpl. lia. }
  cbn [orb fmap option_fmap option_map fst snd].
  exists (set_sub b q (set_messages s [] f)), (message_out <$> (message_of (tk_now t) <$> out)), f.
  assert (mo_ReceiptHandle <$> (message_out <$> (message_of (tk_now t) <$> out)) = receiptHandle <$> out) as Hh
    by (rewrite <-!list_fmap_compose; done).
  rewrite Hh. split_and!.
  - reflexivity.
  - apply Forall2_fmap_r, Forall2_fmap_r, Forall2_same_length_lookup_2; [done|].
    intros j m o Hm Ho. unfold out, delivered in Ho. rewrite list_lookup_imap, list_lookup_fmap, Hm in Ho.
    injection Ho as <-. apply delivered_message. by eapply (Forall_lookup_1 _ _ _ _ Hat).
  - apply fresh_delivered with (f := ∅); [done|]. pose proof (sub_batch_size_range (MaxMessages opt)). lia.
  - intros h Hin'. unfold out in Hin'. rewrite sub_handles_delivered in Hin'.
    apply list_elem_of_fmap in Hin' as (j & -> & _). by exists j.
  - cbn. by rewrite lookup_insert_eq.
  - intros h. split.
    + intros Hsome. destruct (decide (h ∈ receiptHandle <$> out)) as [|Hni]; [done|].
      rewrite Hout, Hf, lookup_empty in Hsome by done. by destruct Hsome.
    + intros (m & -> & Hm)%list_elem_of_fmap. rewrite Hin by done. eauto.
  - done.
  - intros q' Hne'. cbn. by rewrite lookup_insert_ne.
Qed.
End drain.

(** ** Answers *)

(** A call of the in-process backend does not panic, and one that fails leaves
    it alone. *)
Definition quiet {A} (b : Backend) (c : Backend * outcome error A) : Prop :=
  c.2 ≠ Panic ∧ (is_err c.2 = true → c.1 = b).

Ltac quiet_call f := unfold quiet, f; repeat case_match; done.
Lemma CreateTopic_quiet now n opt b : quiet b (CreateTopic now n opt b).
Proof. quiet_call CreateTopic. Qed.
Lemma DeleteTopic_quiet n b : quiet b (DeleteTopic n b).
Proof. quiet_call DeleteTopic. Qed.
Lemma HeadTopic_quiet n b : quiet b (HeadTopic n b).
Proof. quiet_call HeadTopic. Qed.
Lemma CreateSubscription_quiet now t q opt b : quiet b (CreateSubscription now t q opt b).
Proof. quiet_call CreateSubscription. Qed.
Lemma DeleteSubscription_quiet q b : quiet b (DeleteSubscription q b).
Proof. unfold quiet, DeleteSubscription. by destruct (subs b !! q). Qed.
Lemma HeadSubscription_quiet q b : quiet b (HeadSubscription q b).
Proof. quiet_call HeadSubscription. Qed.
Lemma Publish_quiet now rnd t opt b : quiet b (Publish now rnd t opt b).
Proof. quiet_call Publish. Qed.
Lemma Ack_quiet q h b : quiet b (Ack q h b).
Proof. quiet_call Ack. Qed.
Lemma ChangeVisibility_quiet now q h v b : quiet b (ChangeVisibility now q h v b).
Proof. quiet_call ChangeVisibility. Qed.

Create HintDb pubsub_quiet.
#[export] Hint Resolve CreateTopic_quiet DeleteTopic_quiet HeadTopic_quiet CreateSubscription_quiet
  DeleteSubscription_quiet HeadSubscription_quiet Publish_quiet Ack_quiet ChangeVisibility_quiet : pubsub_quiet.

(** An answer is there, and an error leaves the backend alone. *)
Definition answered_well {P} (b : Backend) (x : Backend * option (Response P)) : Prop :=
  ∃ resp, x.2 = Some resp ∧ (400 <= Status resp → x.1 = b).

Definition calm {A} (b : Backend) (c : Backend * AwsQuery.api A) : Prop := c.2 ≠ Panic ∧ (is_err c.2 = true → c.1 = b).

Lemma sns_reply_answered {A X} opName (c : Backend * AwsQuery.api A) (encode : A → option X) b :
  calm b c → answered_well b (reply opName c encode).
Proof.
  intros [Hp He]. unfold answered_well, reply. destruct c as [b' [a|e|]]; cbn [fst snd] in *; [| |done].
  - eexists. split; [done|]. cbn. lia.
  - eexists. split; [done|]. intros _. by apply He.
Qed.

Lemma call_calm {A B} Quote b (c : Backend * outcome error A) (k : A → AwsQuery.api B) :
  quiet b c → (∀ a, (∃ out, k a = Ok out) ∨ c.1 = b ∧ k a ≠ Panic) → calm b (call Quote c k).
Proof.
  intros [Hp He] Hk. unfold calm, call. destruct c as [b' [a|e|]]; cbn [fst snd] in *; [|by split; [|auto]|done].
  destruct (Hk a) as [[out ->]|[-> H]]; by split.
Qed.

Lemma call_unless_calm {A B} Quote kind b (c : Backend * outcome error A) (x : B) :
  quiet b c → calm b (call_unless Quote kind c x).
Proof.
  intros [Hp He]. unfold calm, call_unless. destruct c as [b' [a|e|]]; cbn [fst snd] in *; [done| |done].
  destruct (is_kind kind e); [done|]. split; [done|auto].
Qed.

Lemma handle_calm Quote (d : draws) o form b : answered_well b (handle Quote (d : Draws Backend) o form b).
Proof.
  assert (∀ e, calm b ((b, Err e) : Backend * AwsQuery.api output)) as He by done.
  assert (∀ e, calm b ((b, Err e) : Backend * AwsQuery.api unit)) as Hu by done.
  assert (∀ n, (HeadTopic n b).1 = b) as Hh by (intros n; unfold HeadTopic; by destruct (topics b !! n)).
  destruct o; cbn [handle]; apply sns_reply_answered.
  - unfold Adapter_CreateTopic. destruct (String.eqb _ _); [done|]. apply call_unless_calm. cbn. auto with pubsub_quiet.
  - unfold Adapter_DeleteTopic. destruct (String.eqb _ _); [done|]. apply call_calm; [cbn; auto with pubsub_quiet|]. left. eauto.
  - unfold Adapter_ListTopics. apply call_calm; [done|]. left. eauto.
  - unfold Adapter_Subscribe. destruct (_ || _); [done|]. destruct (negb _); [done|]. destruct (String.eqb _ _); [done|].
    apply call_unless_calm. cbn. auto with pubsub_quiet.
  - unfold Adapter_Unsubscribe. destruct (String.eqb _ _); [done|]. apply call_calm; [cbn; auto with pubsub_quiet|]. left. eauto.
  - unfold listSubs. apply call_calm; [done|]. left. eauto.
  - unfold listSubs. apply call_calm; [done|]. left. eauto.
  - unfold Adapter_Publish. destruct (String.eqb _ _); [done|]. apply call_calm; [cbn; auto with pubsub_quiet|]. left. eauto.
  - unfold Adapter_GetTopicAttributes. destruct (String.eqb _ _); [done|].
    apply call_calm; [cbn; auto with pubsub_quiet|]. left. eauto.
  - unfold Adapter_SetTopicAttributes. destruct (String.eqb _ _); [done|]. destruct (String.eqb _ _); [done|].
    apply call_calm; [cbn; auto with pubsub_quiet|]. intros a. right. split; [apply Hh|]. by destruct (_ && _).
  - unfold Adapter_ListTagsForResource. destruct (String.eqb _ _); [done|].
    apply call_calm; [cbn; auto with pubsub_quiet|]. left. eauto.
Qed.

Lemma sns_routes_inv op o : routes RegisterSNSRoutes !! op = Some o → op = op_name o.
Proof.
  unfold RegisterSNSRoutes, sns_ops. cbn [fold_left Register NewRouter routes op_name].
  intros Ho. repeat (apply lookup_insert_Some in Ho as [[<- <-]|[_ Ho]]; [done|]). by apply lookup_empty_Some in Ho.
Qed.

(** *** The receive side *)

Lemma receive_reply_answered {A} Quote (c : Backend * outcome error A) (k : A → SqsReceive.output) b :
  quiet b c → answered_well b (SqsReceive.reply Quote c k).
Proof.
  intros [Hp He]. unfold answered_well, SqsReceive.reply. destruct c as [b' [a|e|]]; cbn [fst snd] in *; [| |done].
  - eexists. split; [done|]. cbn. lia.
  - eexists. split; [done|]. intros _. by apply He.
Qed.

Definition served_well {P} (b : Backend) (x : option (Backend * option (Response P))) : Prop :=
  ∃ y, x = Some y ∧ answered_well b y.

Lemma error_served {P} b status h (p : P) : served_well b (Some (b, Some (mkResponse status h p))).
Proof. eexists. split; [done|]. by eexists. Qed.

Lemma decode_served {T} `{JsonRequest T} r b (k : T → option (Backend * option (Response (AwsJson.payload SqsReceive.output)))) :
  (∀ i, served_well b (k i)) → served_well b (decode r b k).
Proof. intros Hk. unfold decode. destruct (json_Decode _); [apply error_served|apply Hk]. Qed.

Lemma receive_surface_answered `{ReceiveJson} Quote (d : draws) r b :
  target_op r ≠ "ReceiveMessage" ∨ Method r ≠ "POST" → served_well b (sqs_receive Quote d r b).
Proof.
  intros Hno. unfold sqs_receive, SqsReceive.ServeHTTP.
  destruct (String.eqb_spec (Method r) "POST") as [Hm|]; [|apply error_served]. cbn [negb].
  destruct Hno as [Hno|]; [|done]. apply String.eqb_neq in Hno. rewrite Hno. clear Hno.
  assert (∀ A (c : Backend * outcome error A) k, quiet b c → served_well b (Some (SqsReceive.reply Quote c k))) as Hr.
  { intros A c k Hc. eexists. split; [done|]. by apply receive_reply_answered. }
  unfold deleteMessage, changeMessageVisibility, getQueueAttributes, deleteQueue, getQueueUrl. cbv zeta.
  repeat (destruct (String.eqb _ _); [apply decode_served; intros i; apply Hr; cbn; auto with pubsub_quiet|]).
  apply error_served.
Qed.

Lemma reclaim_idle now order s : pending (reclaimInflight now order s) = [] → reclaimInflight now order s = s.
Proof.
  revert s. induction order as [|h order IH]; intros s; [done|]. cbn [reclaimInflight].
  destruct (inflight s !! h) as [m|]; [|by apply IH]. destruct (negb _); [|by apply IH].
  intros Hp. rewrite (IH _ Hp) in Hp. by destruct (pending s).
Qed.

Lemma batch_size_pos n : 0 < batch_size n.
Proof. unfold batch_size. destruct (_ || _) eqn:E; [done|]. apply orb_false_iff in E. lia. Qed.

(** An attempt that hands nothing out leaves the backend alone. *)
Lemma receive_once_idle now order rnd q opt b :
  (receive_once now order rnd q opt b).2 = Ok [] ∨ is_err (receive_once now order rnd q opt b).2 = true →
  (receive_once now order rnd q opt b).1 = b.
Proof.
  unfold receive_once. destruct (subs b !! q) as [s|] eqn:Hs; [|done]. cbv zeta. rewrite receive_pending_spec.
  cbn [fst snd app is_err]. intros [[= Hout]|]; [|done].
  set (s' := reclaimInflight now order s) in *. cbn [length] in *. rewrite Nat.sub_0_r in *.
  pose proof (batch_size_pos (MaxMessages opt)) as Hpos.
  assert (pending s' = []) as Hp.
  { destruct (pending s') as [|m l]; [done|]. destruct (Z.to_nat (batch_size (MaxMessages opt))) eqn:E; [lia|done]. }
  assert (s' = s) as Hs' by (by apply reclaim_idle). rewrite Hp, take_nil, drop_nil. cbn. rewrite Hs' in *.
  assert (set_messages s [] (inflight s) = s) as -> by (destruct s; cbn in *; by subst).
  unfold set_sub. rewrite insert_id by done. by destruct b.
Qed.

(** ReceiveMessage returns, and an error leaves only what other callers changed. *)
Lemma receive_answered `{ReceiveJson} Quote (d : draws) r b :
  Method r = "POST" → target_op r = "ReceiveMessage" →
  (∀ i, receive_request r "ReceiveMessage" i → rmr_WaitTimeSeconds i < 2 ^ 33 ∧
     (Z.to_nat (10 * rmr_WaitTimeSeconds i) < d_fuel d)%nat ∧
     (∀ j, d_now d + Z.of_nat j * (100 * Millisecond) <= tk_check (d_env d j))) →
  ∃ b' resp, sqs_receive Quote d r b = Some (b', Some resp) ∧ (400 <= Status resp → ∃ n, b' = others n (d_env d) b).
Proof.
  intros H1 H2 Hwait. unfold sqs_receive, SqsReceive.ServeHTTP. rewrite H1, H2.
  cbn [String.eqb Ascii.eqb Bool.eqb negb]. unfold receiveMessage, decode.
  destruct (json_Decode _) as [e|i] eqn:Hj; [eexists _, _; split; [done|]; by exists O|].
  destruct (Hwait i (conj H1 (conj H2 Hj))) as (Hw & Hfuel & Hclk).
  set (opt := mkReceiveOptions _ _ _). set (q := normaliseQueueURL _). cbn [p_Receive inmem_pubsub].
  assert (∃ b' x, Receive (d_fuel d) (d_now d) (d_env d) q opt b = Some (b', x) ∧ x ≠ Panic) as (b' & x & E & Hp).
  { unfold Receive, receive_loop. destruct (Z.leb_spec (WaitTime opt) 0) as [Hle|Hgt].
    - destruct (d_fuel d) as [|fuel]; [lia|]. cbn [poll].
      pose proof (receive_once_no_panic (tk_now (d_env d O)) (tk_order (d_env d O)) (tk_rnd (d_env d O)) q opt b) as Hnp.
      destruct (receive_once _ _ _ _ _ _) as [b1 [l|e|]]; [|by eexists _, _|done].
      rewrite orb_true_r. by eexists _, _.
    - cbn [WaitTime opt] in Hgt. rewrite seconds_small by (unfold in_s, Second; cbn; lia).
      destruct (poll_returns (λ t b, receive_once (tk_now t) (tk_order t) (tk_rnd t) q opt b) false
        (d_now d + WaitTime opt * Second) (d_fuel d) (d_env d) b (d_now d)) as (b' & x & E & Hp & _);
        [intros; apply receive_once_no_panic|done|lia|unfold Second, Millisecond; cbn; lia|]. by exists b', x. }
  rewrite E. destruct x as [l|e|]; [|..|done]; eexists b', _; (split; [reflexivity|]); [cbn; lia|]. intros _.
  unfold Receive, receive_loop in E. eapply poll_error_idle; [|exact E]. intros t b0. apply receive_once_idle.
Qed.

(** ** Properties *)

(** A queue that is free for a new subscription: its name is not empty and has
    no colon and no slash, nothing is subscribed under it, and the form that
    subscribes it is within [ParseForm]'s limit. *)
Definition free_queue (tn : string) (b : Backend) (q : string) : Prop :=
  (str_mem ":" q = false ∧ q ≠ "" ∧ small (subscribe_form tn q) ∧ subs b !! q = None) ∧ str_mem "/" q = false.

(** C5: Fan-out over HTTP, from the SNS surface to the SQS one.  A client
    creates a topic whose name is free and has no colon, subscribes to it
    distinct queues whose names have no colon and no slash and are not
    subscribed yet, and publishes any non-empty list of messages with string
    attributes, one form post within the size limit each.  Every request is
    answered 200: the creation with arn:aws:sns:us-east-1:000000000000:topic,
    each subscription with that ARN, a colon and the queue, and the publishes
    with identifiers; subscriptions other than the new ones are not touched.
    From then on, whatever has happened elsewhere, each of the queues, as long
    as its own subscription is as the publishes left it, hands out in one large
    enough ReceiveMessage every message in the order published, with the
    identifier its Publish returned, the same body and exactly its attributes
    (as Strings); deleting under the receipt handles received empties that queue
    and leaves every other queue alone. *)
Theorem sns_fanout `{ReceiveJson} (Quote : string → string) (parse_params : string → string → string * option string)
    (b : Backend) (tn : string) (qs : list string) (ms : list posted) (dc ds : draws) :
  str_mem ":" tn = false → tn ≠ "" → topics b !! tn = None → small (create_form tn) →
  NoDup qs → Forall (free_queue tn b) qs → ms ≠ [] → Forall (publishable tn) ms →
  let arn := "arn:aws:sns:us-east-1:000000000000:" +:+ tn in
  ∃ b1 b2 b3,
    sns_serve Quote parse_params dc (form_post (create_form tn)) b =
      (b1, Some (WriteResult "CreateTopic" (Some (CreateTopicResponse arn)))) ∧
    sns_subscribe_all Quote parse_params ds tn qs b1 = Some (b2, (λ q, arn +:+ ":" +:+ q) <$> qs) ∧
    sns_publish_all Quote parse_params tn ms b2 = Some (b3, posted_id <$> ms) ∧
    (∀ q, q ∉ qs → subs b3 !! q = subs b !! q) ∧
    ∀ q b' d recv i del, q ∈ qs → subs b' !! q = subs b3 !! q →
      receive_request recv "ReceiveMessage" i → rmr_QueueUrl i = fakeQueueURL q →
      Z.of_nat (length ms) <= batch_size (rmr_MaxNumberOfMessages i) →
      (0 < d_fuel d)%nat → fresh_handles (tk_rnd (d_env d O)) ∅ →
      (∀ j, let h := newID (tk_rnd (d_env d O) j) in
         receive_request (del h) "DeleteMessage" (mkDeleteMessageRequest (fakeQueueURL q) h)) →
      ∃ b4 b5 outs, sqs_receive Quote d recv b' = Some (b4, Some (writeJSON 200 (receiveMessageResponse outs))) ∧
        Forall2 delivered_as ms outs ∧
        drain_all Quote d del (mo_ReceiptHandle <$> outs) b4 = Some b5 ∧
        contents b5 q = [] ∧ ∀ q', q' ≠ q → subs b5 !! q' = subs b' !! q'.
Proof.
  intros Hc Hne Ht Hs Hnd Hqs Hms Hpub arn.
  set (b1 := mkBackend (<[tn := mkTopicState tn (d_now dc) ∅]> (topics b)) (subs b)).
  destruct (subscribe_all_spec Quote parse_params ds tn qs [] b b1 Hc Hne) as (b2 & qs' & E2 & Hf2 & Hp).
  { by rewrite app_nil_r. }
  { eapply Forall_impl; [exact Hqs|]. by intros q [? _]. }
  { split; [|done]. eexists. split; [apply lookup_insert_eq|done]. }
  rewrite app_nil_r in Hp.
  destruct (publish_all_spec Quote parse_params tn ms qs' ds [] b b2 Hc Hpub Hf2) as (b3 & E3 & [_ Hsub]).
  exists b1, b2, b3. split_and!; [by apply create_one| |done| |].
  { rewrite E2. by do 2 f_equal. }
  - intros q Hq. rewrite Hsub, decide_False; [done|]. by rewrite Hp.
  - intros q b' d recv i del Hq Hb' Hrecv Hu Hmax Hfuel Hfr Hdel. rewrite Hsub, decide_True in Hb' by (by rewrite Hp).
    assert (str_mem "/" q = false) as Hslash by (by apply (proj1 (Forall_forall _ _) Hqs q Hq)).
    destruct (receive_all_spec Quote d q Hslash recv i ms tn b'
      (mkSubscriptionState q tn 30 true (d_now ds) (posted_state tn <$> ms) ∅) Hrecv Hu Hms Hmax)
      as (b4 & outs & f & E4 & Harr & Hndh & Hids & Hs4 & Hdom & _ & Ho4); [|done..|].
    { eapply Forall_impl; [exact Hpub|]. by intros m [_ ?]. }
    destruct (drain_spec Quote d q Hslash del (mo_ReceiptHandle <$> outs) b4
      (set_messages (mkSubscriptionState q tn 30 true (d_now ds) (posted_state tn <$> ms) ∅) [] f)) as (b5 & E5 & Hs5 & _ & Ho5).
    { intros h [j ->]%Hids. apply Hdel. }
    { exact Hs4. }
    { exact Hndh. }
    { intros h Hh. by apply Hdom. }
    exists b4, b5, outs. split_and!; [done..| |].
    + unfold contents. rewrite Hs5.
      change (payload_of <$> values (fold_left (λ f h, delete h f) (mo_ReceiptHandle <$> outs) f) = []).
      enough (fold_left (λ f h, delete h f) (mo_ReceiptHandle <$> outs) f = ∅) as E
        by (rewrite E; unfold values; by rewrite map_to_list_empty).
      apply map_eq. intros h. rewrite delete_all_lookup, lookup_empty. destruct (decide _) as [|Hni]; [done|].
      apply eq_None_not_Some. by rewrite Hdom.
    + intros q' Hne'. by rewrite Ho5, Ho4.
Qed.

(** C18: Every request to the SNS surface is answered, whatever its method,
    headers, body and form, without a panic, and when the answer is an error
    nothing has changed; an operation's handler runs exactly when a POST whose
    form parses names it in Action.  Every request to the SQS receive surface
    is answered too.  Its ReceiveMessage, which polls, returns: ten attempts per
    second of WaitTimeSeconds (below 2^33) and one more are enough when attempts
    are at least 100 ms apart.  When the answer is an error nothing has
    changed - of ReceiveMessage: nothing but what other callers changed while
    it slept. *)
Theorem pubsub_requests_answered `{ReceiveJson} (Quote : string → string)
    (parse_params : string → string → string * option string) (d : draws) (r : Request) (b : Backend) :
  answered_well b (sns_serve Quote parse_params d r b) ∧
  (∀ o form, route (P := payload output) Quote parse_params "awsQuery requires POST"
       (λ status code message, WriteError status "Sender" code message) RegisterSNSRoutes r = inr (o, form) ↔
     Method r = "POST" ∧ ParseForm Quote parse_params r = (form, None) ∧ Query_Get form "Action" = op_name o) ∧
  ((∀ i, receive_request r "ReceiveMessage" i → rmr_WaitTimeSeconds i < 2 ^ 33 ∧
     (Z.to_nat (10 * rmr_WaitTimeSeconds i) < d_fuel d)%nat ∧
     (∀ j, d_now d + Z.of_nat j * (100 * Millisecond) <= tk_check (d_env d j))) →
   ∃ b' resp, sqs_receive Quote d r b = Some (b', Some resp) ∧
     (400 <= Status resp → ∃ n, b' = others n (d_env d) b ∧
        (target_op r ≠ "ReceiveMessage" ∨ Method r ≠ "POST" → n = O))).
Proof.
  split_and!.
  - unfold sns_serve, Sns_ServeHTTP, Query_ServeHTTP, ServeHTTP.
    destruct (route _ _ _ _ _ _) as [resp|[o form]]; [by exists resp|apply handle_calm].
  - intros o form. unfold route, dispatch. destruct (String.eqb_spec (Method r) "POST") as [Hm|Hm]; cbn [negb]; [|split; [done|by intros [? _]]].
    destruct (ParseForm Quote parse_params r) as [f [e|]]; [split; [done|by intros (_ & ? & _)]|].
    destruct (String.eqb_spec (Query_Get f "Action") "") as [E|_].
    { split; [done|]. intros (_ & [= <-] & E'). rewrite E in E'. by destruct o. }
    destruct (routes RegisterSNSRoutes !! Query_Get f "Action") as [o'|] eqn:Ho.
    + apply sns_routes_inv in Ho. split; [intros [= -> ->]; by rewrite Ho|]. intros (_ & [= ->] & E). repeat f_equal.
      rewrite E in Ho. by destruct o, o'.
    + split; [done|]. intros (_ & [= <-] & E). by rewrite E, sns_routes_lookup in Ho.
  - intros Hwait. destruct (decide (target_op r = "ReceiveMessage" ∧ Method r = "POST")) as [[H2 H1]|Hno].
    + destruct (receive_answered Quote d r b H1 H2 Hwait) as (b' & resp & E & Hn). exists b', resp. split; [done|].
      intros [n ->]%Hn. exists n. split; [done|]. by intros [?|?].
    + destruct (receive_surface_answered Quote d r b) as ([b' o] & E & resp & [= ->] & Hb);
        [destruct (decide (target_op r = "ReceiveMessage")); [right|left]; naive_solver|].
      exists b', resp. split; [done|]. intros Hs. exists O. split; [by apply Hb|done].
Qed.

(** A queue has one topic, but Subscribe does not say so.  In every
    reachable state, subscribing a queue that is attached to another topic is
    answered 200 with the ARN of the second topic, changes nothing, and no
    message published to the second topic reaches the queue. *)
Theorem second_topic_ignored (Quote : string → string) (parse_params : string → string → string * option string)
    (b : Backend) (tn q : string) (t : topicState) (s : subscriptionState) (d : draws) (m : posted) :
  reachable b → topics b !! tn = Some t → subs b !! q = Some s → s_topic s ≠ tn →
  str_mem ":" tn = false → tn ≠ "" → str_mem ":" q = false → q ≠ "" → small (subscribe_form tn q) → publishable tn m →
  sns_serve Quote parse_params d (form_post (subscribe_form tn q)) b =
    (b, Some (WriteResult "Subscribe" (Some (SubscribeResponse (subscriptionArn tn q))))) ∧
  ∃ b', sns_serve Quote parse_params (p_draws m) (form_post (publish_form tn m)) b =
      (b', Some (WriteResult "Publish" (Some (PublishResponse (posted_id m))))) ∧
    subs b' !! q = Some s.
Proof.
  intros Hr%sub_reachable_wf Ht Hs Hts Hc Hne Hcq Hneq Hsm Hpub. split.
  - by eapply subscribe_taken.
  - eexists. split; [by eapply publish_one|]. cbn [subs]. rewrite publish_lookup by apply NoDup_elements.
    rewrite decide_False; [done|]. rewrite elem_of_elements. intros Hin.
    destruct (wf_topics b Hr tn t Ht) as [_ H]. destruct (H q Hin) as (s' & Hs' & E). congruence.
Qed.

(** ** Witnesses *)

Definition demo_no_params (_ _ : string) : string * option string := ("", None).
#[local] Instance demo_receive_json : ReceiveJson := receive_json Datatypes.id.
Definition demo_sqs_post (op : string) (l : list (string * json)) : Request :=
  let body := bytes_of_string (print (JObj l)) in
  mkRequest "POST" "localhost" "" "/" "" "/" "" ∅ {["X-Amz-Target" := ["AmazonSQS." +:+ op]]}
    (Z.of_nat (length body)) (Some (Reads body)).
Definition demo_url : string := fakeQueueURL "a".
Definition demo_receive_post : Request :=
  demo_sqs_post "ReceiveMessage" [j_pair "QueueUrl" demo_url; ("MaxNumberOfMessages", j_int 10)].
Definition demo_delete_post (h : string) : Request :=
  demo_sqs_post "DeleteMessage" [j_pair "QueueUrl" demo_url; j_pair "ReceiptHandle" h].

Lemma demo_receives : receive_request demo_receive_post "ReceiveMessage" (mkReceiveMessageRequest demo_url 10 0 None).
Proof. split; [reflexivity|split; [reflexivity|]]. vm_compute. reflexivity. Qed.

Lemma demo_deletes l : let h := newID l in
  receive_request (demo_delete_post h) "DeleteMessage" (mkDeleteMessageRequest demo_url h).
Proof.
  intros h. split; [reflexivity|split; [reflexivity|]].
  set (v := JObj [j_pair "QueueUrl" demo_url; j_pair "ReceiptHandle" h]).
  change (match Decode d_deleteMessage (string_of_bytes (bytes_of_string (print v))) with
          | Some x => inr x | None => inl (Datatypes.id (string_of_bytes (bytes_of_string (print v)))) end =
    inr (mkDeleteMessageRequest demo_url h)).
  assert (printable v ∧ (height v <= 3)%nat) as [Hp Hh].
  { apply j_printable. constructor; [|constructor; [|constructor]]; (split; [split|cbn; lia]);
      try apply hex_valid_utf8; by apply ascii_valid_utf8. }
  rewrite string_of_bytes_of_string. unfold Decode. rewrite <-(str_app_nil_r (print v)), parse_first_print; [done|done| |done].
  unfold max_depth. lia.
Qed.

Definition demo_sns_draws (now : Time) : draws :=
  mkDraws now [byte_of now] 1 (λ i, mkTick now [] demo_rnd (now + Z.of_nat i * (100 * Millisecond)) None (λ b, b)).
Definition demo_posted : posted := mkPosted (demo_sns_draws 5) "hello" [("kind", "greeting"); ("lang", "en")].

Lemma demo_publishable : publishable "news" demo_posted.
Proof. split; [vm_compute; discriminate|]. repeat constructor; discriminate. Qed.

Lemma sns_fanout_witness :
  ∃ b2 b3 b4 o, sns_publish_all Datatypes.id demo_no_params "news" [demo_posted] b2 = Some (b3, ["05"]) ∧
    sqs_receive Datatypes.id (demo_sns_draws 7) demo_receive_post b3 =
      Some (b4, Some (writeJSON 200 (receiveMessageResponse [o]))) ∧
    mo_Body o = "hello" ∧
    default ∅ (mo_MessageAttributes o) = {["kind" := mkMessageAttributeValue "greeting" "String";
      "lang" := mkMessageAttributeValue "en" "String"]}.
Proof.
  destruct (sns_fanout Datatypes.id demo_no_params New "news" ["a"; "b"] [demo_posted] (demo_sns_draws 1) (demo_sns_draws 2))
    as (b1 & b2 & b3 & _ & _ & E3 & _ & Hq).
  1-4: vm_compute; (reflexivity || discriminate).
  - apply (bool_decide_unpack _). vm_compute. exact I.
  - repeat constructor; try discriminate; vm_compute; (reflexivity || discriminate).
  - discriminate.
  - constructor; [exact demo_publishable|constructor].
  - destruct (Hq "a" b3 (demo_sns_draws 7) demo_receive_post
      (mkReceiveMessageRequest demo_url 10 0 None) demo_delete_post)
      as (b4 & b5 & outs & E4 & Harr & _).
    + left.
    + reflexivity.
    + exact demo_receives.
    + reflexivity.
    + vm_compute. discriminate.
    + apply Nat.lt_0_1.
    + exact demo_fresh_handles.
    + intros j. apply demo_deletes.
    + apply Forall2_cons_inv_l in Harr as (o & l & (_ & Hb & Ha) & Harr & ->). apply Forall2_nil_inv_l in Harr as ->.
      exists b2, b3, b4, o. split; [exact E3|]. split; [exact E4|]. split; [exact Hb|]. rewrite Ha. reflexivity.
Defined.

Lemma pubsub_requests_answered_witness :
  ∃ b' resp, sqs_receive Datatypes.id (demo_sns_draws 7) demo_receive_post demo_backend = Some (b', Some resp) ∧
    (400 <= Status resp → ∃ n, b' = others n (d_env (demo_sns_draws 7)) demo_backend).
Proof.
  destruct (pubsub_requests_answered Datatypes.id demo_no_params (demo_sns_draws 7) demo_receive_post demo_backend)
    as (_ & _ & H).
  destruct H as (b' & resp & E & Hn).
  - intros i (_ & _ & Hi). pose proof (proj2 (proj2 demo_receives)) as Hd. rewrite Hd in Hi. injection Hi as <-.
    split; [reflexivity|]. split; [apply Nat.lt_0_1|]. intros j. reflexivity.
  - exists b', resp. split; [exact E|]. intros Hs. destruct (Hn Hs) as (n & Hb & _). exists n. exact Hb.
Defined.

Definition demo_two_topics : Backend := run_all [OpCreateTopic 9 "sport" (mkCreateTopicOptions None)] demo_backend.

Lemma second_topic_ignored_witness :
  ∃ t s, topics demo_two_topics !! "sport" = Some t ∧ subs demo_two_topics !! "a" = Some s ∧
  sns_serve Datatypes.id demo_no_params (demo_sns_draws 1) (form_post (subscribe_form "sport" "a")) demo_two_topics =
    (demo_two_topics, Some (WriteResult "Subscribe" (Some (SubscribeResponse (subscriptionArn "sport" "a"))))).
Proof.
  assert (∃ t s, topics demo_two_topics !! "sport" = Some t ∧ subs demo_two_topics !! "a" = Some s ∧ s_topic s = "news")
    as (t & s & Ht & Hs & Hn) by (eexists _, _; vm_compute; split_and!; reflexivity).
  exists t, s. split; [exact Ht|]. split; [exact Hs|].
  destruct (second_topic_ignored Datatypes.id demo_no_params demo_two_topics "sport" "a" t s (demo_sns_draws 1)
    demo_posted) as [H _]; [|exact Ht|exact Hs|by rewrite Hn|reflexivity|discriminate|reflexivity|discriminate| | |exact H].
  - apply reachable_run_all; [exact sub_demo_reachable|]. by repeat constructor.
  - vm_compute. discriminate.
  - split; [vm_compute; discriminate|]. repeat constructor; discriminate.
Defined.
