(* ===== verification/Bearer.v ===== *)
(** * The bearer token verifiers

    Models [internal/gcpbearer] and [internal/azurebearer]: the key sets with
    the cached remote set, the verification of a JSON Web Token, the
    middlewares and the token minted for the test mode.  The two packages are
    copies up to their errors and one claim, so what they share is one
    definition and the rest is a [flavour].  Parameters: the RSA check of
    crypto/rsa, [big.Int.Int64] (its value is only documented in range), the
    texts of base64, JSON and URL errors ([B64_err], [Json_err], [Quote]).  The
    key sets come from the network: [fetch_env].  The clock skew is cut to whole
    seconds, as [Duration.Seconds] is below 2^22 seconds. *)

From Stdlib Require Import Ascii.
From S2P Require Import Prelude GoStrings GoBytes GoCrypto GoTime GoHttp GoJson GoJsonProps.

(** ** jwks.go *)

Record JWK := mkJWK { Kid : string; Kty : string; Use : string; Alg : string; k_N : string; k_E : string }.
Record JWKS := mkJWKS { Keys : list JWK }.

Definition d_JWK : decoder JWK :=
  d_struct false (mkJWK "" "" "" "" "" "")
    [kept "kid" d_string Kid (λ a x, mkJWK a (Kty x) (Use x) (Alg x) (k_N x) (k_E x));
     kept "kty" d_string Kty (λ a x, mkJWK (Kid x) a (Use x) (Alg x) (k_N x) (k_E x));
     kept "use" d_string Use (λ a x, mkJWK (Kid x) (Kty x) a (Alg x) (k_N x) (k_E x));
     kept "alg" d_string Alg (λ a x, mkJWK (Kid x) (Kty x) (Use x) a (k_N x) (k_E x));
     kept "n" d_string k_N (λ a x, mkJWK (Kid x) (Kty x) (Use x) (Alg x) a (k_E x));
     kept "e" d_string k_E (λ a x, mkJWK (Kid x) (Kty x) (Use x) (Alg x) (k_N x) a)].
Definition d_JWKS : decoder JWKS := d_struct false (mkJWKS []) [kept "keys" (d_slice d_JWK) Keys (λ a _, mkJWKS a)].

Record PublicKey := mkPublicKey { pk_N : Z; pk_E : Z }.

(** The in-process or remote set that a key is searched in. *)
Definition find_key (ks : JWKS) (kid : string) : option JWK := find (λ k, String.eqb (Kid k) kid) (Keys ks).

Record remoteJWKS := mkRemote {
  url : string; cacheTTL : Duration; cached : option JWKS; fetched : Time; fetchedKid : gset string }.
Definition newRemoteJWKS (url : string) (ttl : Duration) : remoteJWKS :=
  mkRemote url (if ttl =? 0 then Hour else ttl) None zeroTime ∅.

(** What [httpClient.Get] of the set's URL gives. *)
Inductive get_result := GetFails (text : string) | Got (StatusCode : Z) (body : BodyReader).
(** A lookup's environment: the clock when the cache is checked, the answer of
    the URL if it is asked, and the clock when the answer is stored. *)
Record fetch_env := mkFetchEnv { f_checked : Time; f_get : get_result; f_stored : Time }.

(** ** Options and claims *)

Record Options := mkOptions {
  Issuer : string; Audience : string; TestKey : bytes; o_JWKS : option JWKS; JWKSURL : string; JWKSCacheTTL : Duration;
  MaxClockSkew : Duration }.
Record Verifier := mkVerifier { opts : Options; remote : option remoteJWKS }.

Definition New (o : Options) : Verifier :=
  let o := if MaxClockSkew o =? 0
           then mkOptions (Issuer o) (Audience o) (TestKey o) (o_JWKS o) (JWKSURL o) (JWKSCacheTTL o) (5 * Minute)
           else o in
  mkVerifier o (if String.eqb (JWKSURL o) "" then None else Some (newRemoteJWKS (JWKSURL o) (JWKSCacheTTL o))).

Record token_header := mkTokenHeader { th_Alg : string; th_Kid : string }.
Definition d_header : decoder token_header :=
  d_struct false (mkTokenHeader "" "")
    [kept "alg" d_string th_Alg (λ a x, mkTokenHeader a (th_Kid x)); kept "kid" d_string th_Kid (λ a x, mkTokenHeader (th_Alg x) a)].

Record claims := mkClaims { Iss : string; Aud : string; Exp : Z; Iat : Z; Nbf : Z }.
Definition claim_fields : list (field claims) :=
  [kept "iss" d_string Iss (λ a x, mkClaims a (Aud x) (Exp x) (Iat x) (Nbf x));
   kept "aud" d_string Aud (λ a x, mkClaims (Iss x) a (Exp x) (Iat x) (Nbf x));
   kept "exp" (d_int 64) Exp (λ a x, mkClaims (Iss x) (Aud x) a (Iat x) (Nbf x));
   kept "iat" (d_int 64) Iat (λ a x, mkClaims (Iss x) (Aud x) (Exp x) a (Nbf x))].
Definition nbf_field : field claims :=
  kept "nbf" (d_int 64) Nbf (λ a x, mkClaims (Iss x) (Aud x) (Exp x) (Iat x) a).

Record Error := mkError { HTTPStatus : Z; Code : string; Message : string }.
Definition Error_text (e : Error) : string := Code e +:+ ": " +:+ Message e.

(** Where the two packages differ. *)
Record flavour := mkFlavour {
  header_code : string; token_code : string; missing_text : string; not_jwt_text : string;
  d_claims : decoder claims;
  (* the claim before which a token is too early, and the error's text *)
  not_before : claims → Z; early_text : string;
  (* os.Getenv of the cloud's own bypass variable *)
  bypass_variable : string }.

Definition gcp : flavour := mkFlavour "UNAUTHENTICATED" "UNAUTHENTICATED"
  "Request had invalid authentication credentials. Expected OAuth 2 access token, login cookie or other valid authentication credential."
  "token is not a JWT (opaque access tokens not supported in test mode)"
  (d_struct false (mkClaims "" "" 0 0 0) claim_fields) Iat "JWT iat is in the future"
  "SHIMANISM_TEST_UNAUTHENTICATED_GCP".
Definition azure : flavour := mkFlavour "Unauthorized" "InvalidAuthenticationToken"
  "Request had invalid authentication. Expected Bearer token." "token is not a JWT"
  (d_struct false (mkClaims "" "" 0 0 0) (claim_fields ++ [nbf_field])) Nbf "JWT not yet valid (nbf in the future)"
  "SHIMANISM_TEST_UNAUTHENTICATED_AZURE".

Definition skew_seconds (d : Duration) : Z := Z.quot d Second.

Section verifier.
Context (VerifyPKCS1v15 : PublicKey → bytes → bytes → bool) (Int64 : Z → Z) (Quote B64_err Json_err : string → string).

(** *** Keys *)

Definition RSAPublicKey (k : JWK) : string + PublicKey :=
  if negb (String.eqb (Kty k) "RSA") then inl ("JWK kty " +:+ Quote (Kty k) +:+ " is not RSA")
  else match RawURL_DecodeString (k_N k) with
       | None => inl ("decode RSA modulus N: " +:+ B64_err (k_N k))
       | Some n =>
           match RawURL_DecodeString (k_E k) with
           | None => inl ("decode RSA exponent E: " +:+ B64_err (k_E k))
           | Some e =>
               let e := Int64 (be_decode e) in
               if e <=? 0 then inl "RSA exponent E must be positive" else inr (mkPublicKey (be_decode n) e)
           end
       end.

Definition findLocked (kid : string) (r : remoteJWKS) : string + JWK :=
  match cached r with
  | None => inl "JWKS not loaded"
  | Some ks => match find_key ks kid with
               | Some k => inr k
               | None => inl ("no JWK matching kid " +:+ Quote kid)
               end
  end.

(** The set as it is after the fetch, and the error. *)
Definition fetchLocked (env : fetch_env) (r : remoteJWKS) : remoteJWKS * option string :=
  match f_get env with
  | GetFails text => (r, Some ("fetch JWKS " +:+ url r +:+ ": " +:+ text))
  | Got code body =>
      if negb (code =? 200) then (r, Some ("fetch JWKS " +:+ url r +:+ ": HTTP " +:+ Itoa code))
      else match body with
           | ReadFails text => (r, Some ("read JWKS body: " +:+ text))
           | Reads b =>
               match Unmarshal d_JWKS (string_of_bytes b) with
               | None => (r, Some ("parse JWKS JSON: " +:+ Json_err (string_of_bytes b)))
               | Some ks =>
                   (mkRemote (url r) (cacheTTL r) (Some ks) (f_stored env) (list_to_set (Kid <$> Keys ks)), None)
               end
           end
  end.

Definition cache_hit (now : Time) (kid : string) (r : remoteJWKS) : bool :=
  match cached r with
  | Some _ => (Sub now (fetched r) <? cacheTTL r) && bool_decide (kid ∈ fetchedKid r)
  | None => false
  end.

Definition lookup (env : fetch_env) (kid : string) (r : remoteJWKS) : remoteJWKS * (string + JWK) :=
  if cache_hit (f_checked env) kid r then (r, findLocked kid r)
  else
    let '(r, err) := fetchLocked env r in
    (r, match err with Some e => inl e | None => findLocked kid r end).

Definition lookupRSAKey (env : fetch_env) (kid : string) (v : Verifier) : Verifier * (string + JWK) :=
  match o_JWKS (opts v) with
  | Some ks =>
      (v, match find_key ks kid with
          | Some k => inr k
          | None => inl ("no JWK matching kid " +:+ Quote kid +:+ " in in-process JWKS")
          end)
  | None =>
      match remote v with
      | Some r => let '(r, res) := lookup env kid r in (mkVerifier (opts v) (Some r), res)
      | None => (v, inl "no JWKS configured (set Options.JWKS or Options.JWKSURL)")
      end
  end.

(** *** Verify *)

Section flavoured.
Context (fl : flavour).
Definition header_error (text : string) : option Error := Some (mkError 401 (header_code fl) text).
Definition token_error (text : string) : option Error := Some (mkError 401 (token_code fl) text).

(** The token of the request, or the error. *)
Definition bearer_token (r : Request) : string + string :=
  let authHdr := Header_Get r "Authorization" in
  if String.eqb authHdr "" then inl (missing_text fl)
  else if negb (HasPrefix authHdr "Bearer ") then inl "Authorization header missing Bearer prefix"
  else
    let token := TrimPrefix authHdr "Bearer " in
    if String.eqb token "" then inl "Bearer token is empty" else inr token.

(** The signature; the key set may be fetched. *)
Definition check_signature (env : fetch_env) (h : token_header) (signingInput sig : string) (v : Verifier)
    : Verifier * option Error :=
  if String.eqb (th_Alg h) "HS256" then
    (v,
     if (length (TestKey (opts v)) =? 0)%nat then token_error "no HS256 test key configured for verification"
     else
       let expectedSig := RawURL_EncodeToString (hmac_sha256 (TestKey (opts v)) (bytes_of_string signingInput)) in
       if negb (String.eqb expectedSig sig) then token_error "JWT signature verification failed" else None)
  else if String.eqb (th_Alg h) "RS256" then
    let '(v, jwk) := lookupRSAKey env (th_Kid h) v in
    (v,
     match jwk with
     | inl e => token_error ("JWKS lookup: " +:+ e)
     | inr jwk =>
         match RSAPublicKey jwk with
         | inl e => token_error ("JWK is not a usable RSA public key: " +:+ e)
         | inr pub =>
             match RawURL_DecodeString sig with
             | None => token_error ("RS256 signature decode: " +:+ B64_err sig)
             | Some s =>
                 if VerifyPKCS1v15 pub (sha256_Sum256 (bytes_of_string signingInput)) s then None
                 else token_error "RS256 signature verification failed"
             end
         end
     end)
  else (v, token_error ("unsupported JWT alg " +:+ Quote (th_Alg h) +:+ " (HS256 or RS256 only)")).

Definition check_claims (now : Time) (c : claims) (o : Options) : option Error :=
  let now := now / Second in
  let skew := skew_seconds (MaxClockSkew o) in
  if negb (String.eqb (Issuer o) "") && negb (String.eqb (Iss c) (Issuer o))
  then token_error ("iss claim " +:+ Quote (Iss c) +:+ " does not match expected issuer")
  else if negb (String.eqb (Audience o) "") && negb (String.eqb (Aud c) (Audience o))
  then token_error ("aud claim " +:+ Quote (Aud c) +:+ " does not match expected audience")
  else if (0 <? Exp c) && (wrap_s 64 (Exp c + skew) <? now) then token_error "JWT has expired"
  else if (0 <? not_before fl c) && (wrap_s 64 (now + skew) <? not_before fl c) then token_error (early_text fl)
  else None.

(** [now] is the clock when the claims are checked. *)
Definition Verify (env : fetch_env) (now : Time) (r : Request) (v : Verifier) : Verifier * option Error :=
  match bearer_token r with
  | inl text => (v, header_error text)
  | inr token =>
      match Split token "." with
      | [p0; p1; p2] =>
          match RawURL_DecodeString p0 with
          | None => (v, token_error ("JWT header decode: " +:+ B64_err p0))
          | Some headerJSON =>
              match Unmarshal d_header (string_of_bytes headerJSON) with
              | None => (v, token_error ("JWT header parse: " +:+ Json_err (string_of_bytes headerJSON)))
              | Some h =>
                  let '(v, err) := check_signature env h (p0 +:+ "." +:+ p1) p2 v in
                  (v,
                   match err with
                   | Some e => Some e
                   | None =>
                       match RawURL_DecodeString p1 with
                       | None => token_error ("JWT claims decode: " +:+ B64_err p1)
                       | Some claimsJSON =>
                           match Unmarshal (d_claims fl) (string_of_bytes claimsJSON) with
                           | None => token_error ("JWT claims parse: " +:+ Json_err (string_of_bytes claimsJSON))
                           | Some c => check_claims now c (opts v)
                           end
                       end
                   end)
              end
          end
      | _ => (v, token_error (not_jwt_text fl))
      end
  end.

(** *** middleware.go *)

Definition bypass (env : string → string) : bool :=
  String.eqb (env "SHIMANISM_TEST_UNAUTHENTICATED") "1" || String.eqb (env (bypass_variable fl)) "1".

(** A handler behind the verifier: [refuse] writes the error. *)
Definition Middleware {St P} (refuse : Error → Response P) (next : Request → St → St * option (Response P))
    (getenv : string → string) (env : fetch_env) (now : Time) (r : Request) (s : Verifier * St)
    : (Verifier * St) * option (Response P) :=
  let '(v, st) := s in
  if bypass getenv then let '(st, resp) := next r st in (v, st, resp)
  else
    let '(v, err) := Verify env now r v in
    match err with
    | Some e => (v, st, Some (refuse e))
    | None => let '(st, resp) := next r st in (v, st, resp)
    end.
End flavoured.
End verifier.

(** The error envelopes, as values. *)
Definition writeGCPError (e : Error) : Response Error :=
  mkResponse (HTTPStatus e) (Set_ "Content-Type" "application/json" ∅) e.
Definition challenge (resource : string) : string :=
  let q := String quote "" in
  "Bearer authorization=" +:+ q +:+ "https://login.microsoftonline.com/common/oauth2/v2.0/token" +:+ q +:+
  ", resource=" +:+ q +:+ resource +:+ q.
(** [ChallengeResource] is the middleware's option. *)
Definition writeAzureError (ChallengeResource : string) (e : Error) : Response Error :=
  let h := if String.eqb ChallengeResource "" then ∅ else Set_ "WWW-Authenticate" (challenge ChallengeResource) ∅ in
  mkResponse (HTTPStatus e) (Set_ "Content-Type" "application/json" h) e.

(** ** testjwt.go *)

Definition TestJWT (now : Time) (key : bytes) (issuer audience : string) (ttl : Duration) : string :=
  let now := now / Second in
  let hb := bytes_of_string (print (JObj [j_pair "alg" "HS256"; j_pair "typ" "JWT"])) in
  let cb := bytes_of_string (print (JObj
    [j_pair "aud" audience; ("exp", j_int (wrap_s 64 (now + skew_seconds ttl))); ("iat", j_int now); j_pair "iss" issuer])) in
  let signingInput := RawURL_EncodeToString hb +:+ "." +:+ RawURL_EncodeToString cb in
  signingInput +:+ "." +:+ RawURL_EncodeToString (hmac_sha256 key (bytes_of_string signingInput)).

(** ** The two packages *)

Section packages.
Context (VerifyPKCS1v15 : PublicKey → bytes → bytes → bool) (Int64 : Z → Z) (Quote B64_err Json_err : string → string).

Definition gcp_Verify : fetch_env → Time → Request → Verifier → Verifier * option Error :=
  Verify VerifyPKCS1v15 Int64 Quote B64_err Json_err gcp.
Definition azure_Verify : fetch_env → Time → Request → Verifier → Verifier * option Error :=
  Verify VerifyPKCS1v15 Int64 Quote B64_err Json_err azure.

(** [next] answers with values of its own. *)
Context {St P : Type} (next : Request → St → St * option (Response (Error + P))).
Definition refusal (resp : Response Error) : Response (Error + P) :=
  mkResponse (Status resp) (RespHeader resp) (inl (RespBody resp)).
Definition gcp_Middleware : (string → string) → fetch_env → Time → Request → Verifier * St → (Verifier * St) * option (Response (Error + P)) :=
  Middleware VerifyPKCS1v15 Int64 Quote B64_err Json_err gcp (λ e, refusal (writeGCPError e)) next.
Definition azure_Middleware (ChallengeResource : string)
    : (string → string) → fetch_env → Time → Request → Verifier * St → (Verifier * St) * option (Response (Error + P)) :=
  Middleware VerifyPKCS1v15 Int64 Quote B64_err Json_err azure (λ e, refusal (writeAzureError ChallengeResource e)) next.
End packages.

(** * Properties of the bearer token verifiers

    Which requests [Verify] accepts, that the tokens minted for tests are among
    them, what the cached key set answers over a run of lookups, and that the
    middleware lets nothing else through. *)

(** ** What acceptance means *)

(** A part of a token, decoded. *)
Definition decoded {T} (d : decoder T) (part : string) (x : T) : Prop :=
  ∃ b, RawURL_DecodeString part = Some b ∧ Unmarshal d (string_of_bytes b) = Some x.

(** An empty expectation is no expectation. *)
Definition expected (want got : string) : Prop := want = "" ∨ got = want.
Definition claims_ok (fl : flavour) (now : Time) (o : Options) (c : claims) : Prop :=
  expected (Issuer o) (Iss c) ∧ expected (Audience o) (Aud c) ∧
  (0 < Exp c → now / Second <= wrap_s 64 (Exp c + skew_seconds (MaxClockSkew o))) ∧
  (0 < not_before fl c → not_before fl c <= wrap_s 64 (now / Second + skew_seconds (MaxClockSkew o))).

Lemma expected_bool want got :
  negb (String.eqb want "") && negb (String.eqb got want) = false ↔ expected want got.
Proof.
  unfold expected. destruct (String.eqb_spec want ""), (String.eqb_spec got want); cbn; naive_solver.
Qed.

Section acceptance.
Context (VerifyPKCS1v15 : PublicKey → bytes → bytes → bool) (Int64 : Z → Z) (Quote B64_err Json_err : string → string).
Context (fl : flavour).
Local Abbreviation Verify := (Verify VerifyPKCS1v15 Int64 Quote B64_err Json_err fl).
Local Abbreviation RSAPublicKey := (RSAPublicKey Int64 Quote B64_err).
Local Abbreviation lookupRSAKey := (lookupRSAKey Quote Json_err).

(** The signature is the shared key's over the two parts as they were sent, or
    that of an RSA key that the verifier trusts under the token's key id. *)
Definition signed (env : fetch_env) (v : Verifier) (h : token_header) (input sig : string) : Prop :=
  (th_Alg h = "HS256" ∧ TestKey (opts v) ≠ [] ∧
     sig = RawURL_EncodeToString (hmac_sha256 (TestKey (opts v)) (bytes_of_string input))) ∨
  (th_Alg h = "RS256" ∧ ∃ k pub s,
     (lookupRSAKey env (th_Kid h) v).2 = inr k ∧ RSAPublicKey k = inr pub ∧ RawURL_DecodeString sig = Some s ∧
     VerifyPKCS1v15 pub (sha256_Sum256 (bytes_of_string input)) s = true).

Lemma bearer_token_iff r t : bearer_token fl r = inr t ↔ Header_Get r "Authorization" = "Bearer " +:+ t ∧ t ≠ "".
Proof.
  unfold bearer_token. set (a := Header_Get r "Authorization"). split.
  - destruct (String.eqb_spec a ""); [done|]. destruct (HasPrefix a "Bearer ") eqn:E; [|done]. cbn [negb].
    apply HasPrefix_spec in E as [x ->]. rewrite TrimPrefix_app. by destruct (String.eqb_spec x ""); [|intros [= ->]].
  - intros [-> Ht]. rewrite HasPrefix_app, TrimPrefix_app. by destruct (String.eqb_spec t "").
Qed.

Lemma lookup_opts env kid v : opts (lookupRSAKey env kid v).1 = opts v.
Proof. unfold Bearer.lookupRSAKey. destruct (o_JWKS (opts v)), (remote v); try done. by destruct (Bearer.lookup _ _ _ _ _). Qed.

Lemma check_signature_iff env h input sig v :
  (check_signature VerifyPKCS1v15 Int64 Quote B64_err Json_err fl env h input sig v).2 = None ↔ signed env v h input sig.
Proof.
  unfold check_signature, signed. destruct (String.eqb_spec (th_Alg h) "HS256") as [->|H1].
  { cbn [snd]. destruct (TestKey (opts v)) as [|b k] eqn:E; [naive_solver|]. cbn [length Nat.eqb].
    destruct (String.eqb_spec (RawURL_EncodeToString (hmac_sha256 (b :: k) (bytes_of_string input))) sig); cbn; naive_solver. }
  destruct (String.eqb_spec (th_Alg h) "RS256") as [->|H2]; [|cbn; naive_solver].
  destruct (lookupRSAKey env (th_Kid h) v) as [v' [e|k]]; cbn [snd]; [by split; [|intros [[? _]|(_ & ? & ? & ? & ? & _)]]|].
  destruct (RSAPublicKey k) as [e|pub] eqn:E1; [split; [done|intros [[? _]|(_ & ? & ? & ? & [= <-] & ? & _)]; congruence]|].
  destruct (RawURL_DecodeString sig) as [s|]; [|by split; [|intros [[? _]|(_ & ? & ? & ? & _ & _ & ? & _)]]].
  destruct (VerifyPKCS1v15 pub _ s) eqn:E3; split; try done.
  - intros _. right. split; [done|]. by exists k, pub, s.
  - intros [[? _]|(_ & ? & ? & ? & [= <-] & ? & [= <-] & ?)]; congruence.
Qed.

Lemma check_claims_iff now c o : check_claims Quote fl now c o = None ↔ claims_ok fl now o c.
Proof.
  unfold check_claims, claims_ok. rewrite <-(expected_bool (Issuer o)), <-(expected_bool (Audience o)).
  set (e := wrap_s 64 (Exp c + _)). set (n := wrap_s 64 (now / Second + _)).
  destruct (_ && negb (String.eqb (Iss c) _)); [by split; [|intros (? & _)]|].
  destruct (_ && negb (String.eqb (Aud c) _)); [by split; [|intros (_ & ? & _)]|].
  destruct (Z.ltb_spec 0 (Exp c)), (Z.ltb_spec e (now / Second)), (Z.ltb_spec 0 (not_before fl c)), (Z.ltb_spec n (not_before fl c));
    cbn [andb]; (split; [first [done|intros _; repeat split; lia]|intros (_ & _ & ? & ?); first [done|exfalso; lia]]).
Qed.

Lemma check_signature_opts env h input sig v :
  opts (check_signature VerifyPKCS1v15 Int64 Quote B64_err Json_err fl env h input sig v).1 = opts v.
Proof.
  unfold check_signature. destruct (String.eqb (th_Alg h) "HS256"); [done|]. destruct (String.eqb (th_Alg h) "RS256"); [|done].
  pose proof (lookup_opts env (th_Kid h) v). by destruct (lookupRSAKey _ _ _).
Qed.

(** The verdict on a token of three parts. *)
Definition parts_ok (env : fetch_env) (now : Time) (v : Verifier) (p0 p1 p2 : string) : Prop :=
  ∃ h c, decoded d_header p0 h ∧ signed env v h (p0 +:+ "." +:+ p1) p2 ∧ decoded (d_claims fl) p1 c ∧ claims_ok fl now (opts v) c.

Lemma decoded_None {T} (d : decoder T) p x : RawURL_DecodeString p = None → decoded d p x → False.
Proof. intros E (b & E' & _). congruence. Qed.
Lemma decoded_bytes {T} (d : decoder T) p b x : RawURL_DecodeString p = Some b → decoded d p x ↔ Unmarshal d (string_of_bytes b) = Some x.
Proof. intros E. unfold decoded. naive_solver. Qed.

Lemma Verify_parts env now r v p0 p1 p2 :
  bearer_token fl r = inr (p0 +:+ "." +:+ p1 +:+ "." +:+ p2) →
  str_mem "." p0 = false → str_mem "." p1 = false → str_mem "." p2 = false →
  (Verify env now r v).2 = None ↔ parts_ok env now v p0 p1 p2.
Proof.
  intros Et H0 H1 H2. unfold Bearer.Verify, parts_ok. rewrite Et, !str_one_app, Split_app, Split_app, Split_plain by done.
  destruct (RawURL_DecodeString p0) as [hb|] eqn:E0; [|cbn; by split; [|intros (? & ? & ?%decoded_None & _)]].
  setoid_rewrite (decoded_bytes d_header p0 hb); [|done].
  destruct (Unmarshal d_header (string_of_bytes hb)) as [h|]; [|cbn; naive_solver].
  pose proof (check_signature_iff env h (p0 +:+ String "." p1) p2 v) as Hs.
  pose proof (check_signature_opts env h (p0 +:+ String "." p1) p2 v) as Ho.
  destruct (check_signature _ _ _ _ _ _ _ _ _ _ _) as [v' [e|]]; cbn [fst snd] in *; [naive_solver|].
  destruct (RawURL_DecodeString p1) as [cb|] eqn:E1; [|cbn; by split; [|intros (? & ? & _ & _ & ?%decoded_None & _)]].
  setoid_rewrite (decoded_bytes (d_claims fl) p1 cb); [|done].
  destruct (Unmarshal (d_claims fl) (string_of_bytes cb)) as [c|]; [|cbn; naive_solver].
  rewrite check_claims_iff, Ho. naive_solver.
Qed.

Lemma Split_three s c a b d : Split s c = [a; b; d] → s = a +:+ String c "" +:+ b +:+ String c "" +:+ d.
Proof. intros E. rewrite <-(Join_Split s c), E. done. Qed.

(** C4: A verifier lets a request pass exactly when its Authorization header is
    the word Bearer and a token of three parts where: the first part decodes to
    a header whose algorithm is HS256 and the third is the code of the shared
    key over the first two, with a shared key configured, or whose algorithm is
    RS256 and the third is a signature of the first two under the RSA key that
    the configured set has for the header's key id; and the second part
    decodes to claims of the expected issuer and audience, inside the times
    they give.  So no token passes unsigned, none signed with a public key used
    as a shared one, and none whose signed text is not what was checked. *)
Theorem bearer_accepts_iff env now r v :
  (Verify env now r v).2 = None ↔
  ∃ p0 p1 p2, Header_Get r "Authorization" = "Bearer " +:+ p0 +:+ "." +:+ p1 +:+ "." +:+ p2 ∧
    Forall (λ p, str_mem "." p = false) [p0; p1; p2] ∧ parts_ok env now v p0 p1 p2.
Proof.
  split.
  - intros Hv. destruct (bearer_token fl r) as [e|t] eqn:Et; [by unfold Bearer.Verify in Hv; rewrite Et in Hv|].
    pose proof Et as [Ha _]%bearer_token_iff.
    destruct (Split t ".") as [|p0 [|p1 [|p2 [|]]]] eqn:E; try by (unfold Bearer.Verify in Hv; rewrite Et, E in Hv).
    assert (Forall (λ p, str_mem "." p = false) [p0; p1; p2]) as Hf.
    { rewrite <-E. apply Forall_forall. intros w. apply Split_no_sep. }
    apply Split_three in E as ->. exists p0, p1, p2. split; [exact Ha|]. split; [exact Hf|].
    inversion_clear Hf as [|? ? ? Hf']. inversion_clear Hf' as [|? ? ? Hf'']. inversion_clear Hf'' as [|? ? ? _].
    by eapply Verify_parts.
  - intros (p0 & p1 & p2 & Ha & Hf & Hp).
    inversion_clear Hf as [|? ? ? Hf']. inversion_clear Hf' as [|? ? ? Hf'']. inversion_clear Hf'' as [|? ? ? _].
    apply (Verify_parts env now r v p0 p1 p2); [|done..]. apply bearer_token_iff. split; [done|]. by destruct p0.
Qed.
End acceptance.

(** ** The minted tokens *)

Definition minted_header : json := JObj [j_pair "alg" "HS256"; j_pair "typ" "JWT"].
Definition minted_claims (at_ : Time) (issuer audience : string) (ttl : Duration) : json :=
  JObj [j_pair "aud" audience; ("exp", j_int (wrap_s 64 (at_ / Second + skew_seconds ttl)));
        ("iat", j_int (at_ / Second)); j_pair "iss" issuer].

Lemma decoded_print {T} (d : decoder T) v x :
  printable v → (height v <= max_depth)%nat → decode_fresh d (Some v) = Some x →
  decoded d (RawURL_EncodeToString (bytes_of_string (print v))) x.
Proof.
  intros Hp Hh Hd. exists (bytes_of_string (print v)). split; [apply RawURL_round_trip|].
  unfold Unmarshal. by rewrite string_of_bytes_of_string, parse_all_print.
Qed.

Lemma small_height h : (h <= 3)%nat → (h <= max_depth)%nat.
Proof. intros H. etransitivity; [exact H|]. apply Nat.leb_le. vm_compute. reflexivity. Qed.

Lemma minted_header_decoded : decoded d_header (RawURL_EncodeToString (bytes_of_string (print minted_header))) (mkTokenHeader "HS256" "").
Proof.
  destruct (j_printable [j_pair "alg" "HS256"; j_pair "typ" "JWT"]) as [Hp Hh].
  { repeat constructor; by apply ascii_valid_utf8. }
  apply decoded_print; [done|by apply small_height|]. by vm_compute.
Qed.

Lemma minted_claims_decoded fl at_ issuer audience ttl :
  fl = gcp ∨ fl = azure → valid_utf8 issuer → valid_utf8 audience →
  in_s 64 (at_ / Second) → in_s 64 (at_ / Second + skew_seconds ttl) →
  decoded (d_claims fl) (RawURL_EncodeToString (bytes_of_string (print (minted_claims at_ issuer audience ttl))))
    (mkClaims issuer audience (at_ / Second + skew_seconds ttl) (at_ / Second) 0).
Proof.
  intros Hfl Hi Ha Hiat Hexp. unfold minted_claims. rewrite wrap_s_small by done.
  set (l := [_; _; _; _]). destruct (j_printable l) as [Hp Hh].
  { repeat constructor; try (by apply ascii_valid_utf8); try done; apply Itoa_number. }
  apply decoded_print; [done|by apply small_height|]. subst l. cbn [decode_fresh].
  destruct Hfl as [-> | ->]; do 4 (unfold decode_member; cbn -[ParseInt10 Itoa Z.div skew_seconds];
    rewrite ?ParseInt10_Itoa by done); reflexivity.
Qed.

Lemma decoded_fun {T} (d : decoder T) p x y : decoded d p x → decoded d p y → x = y.
Proof. intros (b & E & H) (b' & E' & H'). congruence. Qed.

Lemma dot_free l : str_mem "." (RawURL_EncodeToString l) = false.
Proof. by apply raw_url_bytes. Qed.

(** When a token minted at a time, for a duration, is in its time. *)
Definition in_time (fl : flavour) (at_ now : Time) (ttl skew : Duration) : Prop :=
  now / Second <= at_ / Second + skew_seconds ttl + skew_seconds skew ∧
  (0 < not_before fl (mkClaims "" "" 0 (at_ / Second) 0) → at_ / Second <= now / Second + skew_seconds skew).

Section minted.
Context (VerifyPKCS1v15 : PublicKey → bytes → bytes → bool) (Int64 : Z → Z) (Quote B64_err Json_err : string → string).

(** A token that [TestJWT] mints with the verifier's shared key, for an
    issuer and an audience that are text, is accepted by the verifier of either
    cloud exactly when the verifier expects that issuer and that audience (or
    none) and the clock is not past the expiry, nor, on GCP, before the issue,
    by more than the skew: the two sides agree on header, signature and claims. *)
Theorem minted_tokens_accepted fl env at_ now r v issuer audience ttl :
  fl = gcp ∨ fl = azure → TestKey (opts v) ≠ [] → valid_utf8 issuer → valid_utf8 audience →
  0 < at_ / Second → 0 < at_ / Second + skew_seconds ttl →
  Forall (in_s 64) [at_ / Second; at_ / Second + skew_seconds ttl;
    at_ / Second + skew_seconds ttl + skew_seconds (MaxClockSkew (opts v)); now / Second + skew_seconds (MaxClockSkew (opts v))] →
  Header_Get r "Authorization" = "Bearer " +:+ TestJWT at_ (TestKey (opts v)) issuer audience ttl →
  (Verify VerifyPKCS1v15 Int64 Quote B64_err Json_err fl env now r v).2 = None ↔
  expected (Issuer (opts v)) issuer ∧ expected (Audience (opts v)) audience ∧
  in_time fl at_ now ttl (MaxClockSkew (opts v)).
Proof.
  intros Hfl Hk Hi Ha H1 H2 Hr Hauth.
  inversion_clear Hr as [|? ? R1 Hr']. inversion_clear Hr' as [|? ? R2 Hr]. inversion_clear Hr as [|? ? R3 Hr'].
  inversion_clear Hr' as [|? ? R4 _].
  pose proof (minted_claims_decoded fl at_ issuer audience ttl Hfl Hi Ha R1 R2) as Hc. pose proof minted_header_decoded as Hh.
  unfold TestJWT in Hauth. fold minted_header (minted_claims at_ issuer audience ttl) in Hauth.
  set (p0 := RawURL_EncodeToString (bytes_of_string (print minted_header))) in *.
  set (p1 := RawURL_EncodeToString (bytes_of_string (print (minted_claims at_ issuer audience ttl)))) in *.
  rewrite !str_app_assoc in Hauth. etransitivity.
  { eapply Verify_parts; [apply bearer_token_iff; split; [exact Hauth|by subst p0]|apply dot_free..]. }
  assert (claims_ok fl now (opts v) (mkClaims issuer audience (at_ / Second + skew_seconds ttl) (at_ / Second) 0) ↔
    expected (Issuer (opts v)) issuer ∧ expected (Audience (opts v)) audience ∧ in_time fl at_ now ttl (MaxClockSkew (opts v))) as <-.
  { unfold claims_ok, in_time. cbn [Iss Aud Exp]. rewrite !wrap_s_small by done.
    destruct Hfl as [-> | ->]; cbn [not_before gcp azure Iat Nbf]; naive_solver lia. }
  split; [intros (h & c & _ & _ & Hc' & Hok)|intros Hok].
  - by rewrite (decoded_fun _ _ _ _ Hc Hc').
  - eexists _, _. split; [exact Hh|]. split; [left; split; [done|]; by split|]. by split.
Qed.
End minted.

(** ** The cached key set *)

Section key_set.
Context (Quote Json_err : string → string).

(** The specification: the last set that was fetched, and when. *)
Definition good_answer (env : fetch_env) : option JWKS :=
  match f_get env with
  | Got 200 (Reads b) => Unmarshal d_JWKS (string_of_bytes b)
  | _ => None
  end.
Definition fresh_key (ttl : Duration) (now : Time) (kid : string) (last : option (JWKS * Time)) : option JWK :=
  '(ks, at_) ← last; if Sub now at_ <? ttl then find_key ks kid else None.
Definition spec_lookup (ttl : Duration) (env : fetch_env) (kid : string) (last : option (JWKS * Time))
    : option (JWKS * Time) * option JWK :=
  match fresh_key ttl (f_checked env) kid last, good_answer env with
  | Some k, _ => (last, Some k)
  | None, Some ks => (Some (ks, f_stored env), find_key ks kid)
  | None, None => (last, None)
  end.

(** A run of lookups, and what it answers. *)
Fixpoint answers {St A} (step : fetch_env → string → St → St * A) (l : list (fetch_env * string)) (s : St) : list A :=
  match l with
  | [] => []
  | (env, kid) :: l => let '(s, a) := step env kid s in a :: answers step l s
  end.
Definition found (x : string + JWK) : option JWK := match x with inr k => Some k | inl _ => None end.

Definition represents (r : remoteJWKS) (last : option (JWKS * Time)) : Prop :=
  match last with
  | Some (ks, at_) => cached r = Some ks ∧ fetched r = at_ ∧ fetchedKid r = list_to_set (Kid <$> Keys ks)
  | None => cached r = None
  end.

Lemma find_key_kid ks kid : is_Some (find_key ks kid) ↔ kid ∈ (list_to_set (Kid <$> Keys ks) : gset string).
Proof.
  unfold find_key. rewrite elem_of_list_to_set, list_elem_of_fmap. split.
  - intros [k H]. apply List.find_some in H as [Hk E]. exists k. apply String.eqb_eq in E. split; [done|]. by apply list_elem_of_In.
  - intros (k & -> & Hk). destruct (find _ _) eqn:E; [done|]. apply list_elem_of_In in Hk.
    pose proof (List.find_none _ _ E _ Hk) as H. cbn in H. by rewrite String.eqb_refl in H.
Qed.

Lemma findLocked_found ks r kid : cached r = Some ks → found (findLocked Quote kid r) = find_key ks kid.
Proof. intros E. unfold findLocked. rewrite E. by destruct (find_key ks kid). Qed.

Lemma cache_hit_fresh env kid r last :
  represents r last → cache_hit (f_checked env) kid r = bool_decide (is_Some (fresh_key (cacheTTL r) (f_checked env) kid last)).
Proof.
  unfold represents, cache_hit, fresh_key. destruct last as [[ks at_]|]; cbn [mbind option_bind]; [|by intros ->].
  intros (-> & -> & ->). destruct (_ <? _); cbn [andb]; [|done]. apply bool_decide_ext. symmetry. apply find_key_kid.
Qed.

Lemma fetchLocked_spec env r last :
  represents r last →
  match good_answer env with
  | Some ks => (fetchLocked Json_err env r).2 = None ∧ represents (fetchLocked Json_err env r).1 (Some (ks, f_stored env)) ∧
      cacheTTL (fetchLocked Json_err env r).1 = cacheTTL r
  | None => ∃ e, fetchLocked Json_err env r = (r, Some e)
  end.
Proof.
  intros H. unfold good_answer, fetchLocked. destruct (f_get env) as [t|c body]; [by eexists|].
  destruct (Z.eqb_spec c 200) as [->|Hc]; cbn [negb].
  - destruct body as [b|t]; [|by eexists]. destruct (Unmarshal _ _); [done|by eexists].
  - assert (match c with 200 => match body with Reads b => Unmarshal d_JWKS (string_of_bytes b) | ReadFails _ => None end | _ => None end = None)
      as Hn by (destruct c as [|q|]; try done; do 8 (destruct q as [q|q|]; try done)).
    rewrite Hn. by eexists.
Qed.

Lemma lookup_refines env kid r last :
  represents r last →
  let '(r', a) := Bearer.lookup Quote Json_err env kid r in
  represents r' (spec_lookup (cacheTTL r) env kid last).1 ∧ cacheTTL r' = cacheTTL r ∧
  found a = (spec_lookup (cacheTTL r) env kid last).2.
Proof.
  intros H. unfold Bearer.lookup, spec_lookup. rewrite (cache_hit_fresh env kid r last H). pose proof (fetchLocked_spec env r last H) as Hf.
  destruct (fresh_key _ _ _ _) as [k|] eqn:Ek; cbn.
  - split; [done|]. split; [done|]. destruct last as [[ks at_]|]; [|done]. destruct H as (Hc & _). rewrite (findLocked_found ks) by done.
    cbn in Ek. by destruct (_ <? _).
  - destruct (good_answer env) as [ks|].
    + destruct (fetchLocked Json_err env r) as [r' err]. cbn [fst snd] in Hf. destruct Hf as (-> & Hr & Ht). cbn.
      split; [done|]. split; [done|]. destruct Hr as (Hc & _). by apply findLocked_found.
    + destruct Hf as [e ->]. done.
Qed.

(** C27: Over any run of lookups on a fresh remote key set, each answer is that
    of the specification: while the last fetched set is younger than the time
    to live, a key it has is answered from it and nothing is fetched; anything
    else fetches, an answer that is not a readable set is an error that leaves
    the last set in place, and a good one replaces it and gives the key if it
    has it. *)
Theorem jwks_lookups_refine url ttl l :
  found <$> answers (Bearer.lookup Quote Json_err) l (newRemoteJWKS url ttl) =
  answers (spec_lookup (if ttl =? 0 then Hour else ttl)) l None.
Proof.
  pose proof (eq_refl : represents (newRemoteJWKS url ttl) None) as H. revert H.
  change (if ttl =? 0 then Hour else ttl) with (cacheTTL (newRemoteJWKS url ttl)).
  generalize (newRemoteJWKS url ttl), (None : option (JWKS * Time)).
  induction l as [|[env kid] l IH]; intros r last Hr; [done|]. cbn [answers].
  pose proof (lookup_refines env kid r last Hr) as H. destruct (Bearer.lookup _ _ _ _ _) as [r' a].
  destruct (spec_lookup _ _ _ _) as [last' b]. cbn [fst snd] in H. destruct H as (Hr' & Ht & Ha). rewrite fmap_cons, Ha, <-Ht. f_equal. by apply IH.
Qed.
End key_set.

(** ** Behind the middleware *)

Section behind.
Context (VerifyPKCS1v15 : PublicKey → bytes → bytes → bool) (Int64 : Z → Z) (Quote B64_err Json_err : string → string).
Context (fl : flavour).
Local Abbreviation Verify := (Verify VerifyPKCS1v15 Int64 Quote B64_err Json_err fl).

(** An arriving request: the environment variables, the key set's environment
    and the clock as it is served. *)
Record arrival := mkArrival { a_getenv : string → string; a_fetch : fetch_env; a_now : Time; a_request : Request }.

(** The environment variables that switch the verifier off. *)
Definition unguarded (getenv : string → string) : Prop :=
  getenv "SHIMANISM_TEST_UNAUTHENTICATED" = "1" ∨ getenv (bypass_variable fl) = "1".
#[local] Instance unguarded_dec getenv : Decision (unguarded getenv) := ltac:(unfold unguarded; apply _).

(** What becomes of a request: its token is not looked at, or it is accepted
    or refused with an error. *)
Inductive passage := Unguarded | Accepted | Refused (e : Error).

Fixpoint verdicts (l : list arrival) (v : Verifier) : list passage :=
  match l with
  | [] => []
  | q :: l =>
      if decide (unguarded (a_getenv q)) then Unguarded :: verdicts l v
      else let '(v, e) := Verify (a_fetch q) (a_now q) (a_request q) v in
           (match e with Some e => Refused e | None => Accepted end) :: verdicts l v
  end.

Context {St P : Type} (refuse : Error → Response P) (next : Request → St → St * option (Response P)).

Fixpoint serve (l : list arrival) (s : Verifier * St) : (Verifier * St) * list (option (Response P)) :=
  match l with
  | [] => (s, [])
  | q :: l =>
      let '(s, resp) := Middleware VerifyPKCS1v15 Int64 Quote B64_err Json_err fl refuse next
                          (a_getenv q) (a_fetch q) (a_now q) (a_request q) s in
      let '(s, resps) := serve l s in (s, resp :: resps)
  end.

(** The handler alone on the requests that are let through; the others are
    answered with their error. *)
Fixpoint behind (l : list (arrival * passage)) (st : St) : St * list (option (Response P)) :=
  match l with
  | [] => (st, [])
  | (q, Refused e) :: l => let '(st, resps) := behind l st in (st, Some (refuse e) :: resps)
  | (q, _) :: l =>
      let '(st, resp) := next (a_request q) st in
      let '(st, resps) := behind l st in (st, resp :: resps)
  end.

Lemma bypass_unguarded getenv : bypass fl getenv = bool_decide (unguarded getenv).
Proof.
  unfold bypass, unguarded. apply eq_true_iff_eq. by rewrite orb_true_iff, !String.eqb_eq, bool_decide_eq_true.
Qed.

Lemma Verify_401 env now r v e : (Verify env now r v).2 = Some e → HTTPStatus e = 401 ∧ (Code e = header_code fl ∨ Code e = token_code fl).
Proof.
  assert (∀ t, token_error fl t = Some e → HTTPStatus e = 401 ∧ (Code e = header_code fl ∨ Code e = token_code fl)) as Ht
    by (intros t [= <-]; auto).
  unfold Bearer.Verify. destruct (bearer_token fl r) as [t|t]; [by intros [= <-]; auto|].
  destruct (Split t ".") as [|p0 [|p1 [|p2 [|]]]]; try apply Ht.
  destruct (RawURL_DecodeString p0) as [hb|]; [|apply Ht]. destruct (Unmarshal d_header _) as [h|]; [|apply Ht].
  assert (∀ i sg e', (check_signature VerifyPKCS1v15 Int64 Quote B64_err Json_err fl env h i sg v).2 = Some e' → ∃ t', token_error fl t' = Some e') as Hs.
  { intros i sg e'. unfold check_signature. repeat case_match; cbn; try done; intros <-; by eexists. }
  specialize (Hs (p0 +:+ "." +:+ p1) p2). destruct (check_signature _ _ _ _ _ _ _ _ _ _ _) as [v' [e'|]]; cbn [snd] in *.
  { intros [= ->]. destruct (Hs e eq_refl) as [t' Et]. by eapply Ht. }
  destruct (RawURL_DecodeString p1); [|apply Ht]. destruct (Unmarshal _ _) as [c|]; [|apply Ht].
  unfold check_claims. repeat case_match; try apply Ht; done.
Qed.

(** C28: However requests arrive, what the handler behind the middleware does is
    what it would do alone on those that are let through, in their order: its
    state after a sequence, and its answers, are those of that run.  Let through
    are the requests whose token is accepted, and, without a look at the token,
    those that arrive while SHIMANISM_TEST_UNAUTHENTICATED or the cloud's own
    variable is 1, which is read anew for each.  Each other request changes
    nothing behind the middleware and is answered with its error, of status 401. *)
Theorem middleware_only_accepted l v st :
  let '(s, resps) := serve l (v, st) in
  (s.2, resps) = behind (zip l (verdicts l v)) st ∧ length (verdicts l v) = length l ∧
  Forall (λ p, p.2 = Unguarded ↔ unguarded (a_getenv p.1)) (zip l (verdicts l v)) ∧
  Forall (λ verdict, ∀ e, verdict = Refused e → HTTPStatus e = 401) (verdicts l v).
Proof.
  revert v st. induction l as [|q l IH]; intros v st; [by split_and!|]. cbn [serve verdicts]. unfold Middleware.
  rewrite bypass_unguarded, <-decide_bool_decide. destruct (decide (unguarded (a_getenv q))) as [Hg|Hg].
  - destruct (next (a_request q) st) as [st' resp] eqn:En. specialize (IH v st').
    destruct (serve l (v, st')) as [s resps]. destruct IH as (IH & Hl & Hu & H).
    cbn [zip zip_with behind length]. rewrite En, <-IH, Hl. split_and!; [done..|by constructor|by constructor].
  - pose proof (Verify_401 (a_fetch q) (a_now q) (a_request q) v) as H4.
    destruct (Verify (a_fetch q) (a_now q) (a_request q) v) as [v' [e|]].
    + specialize (IH v' st). destruct (serve l (v', st)) as [s resps]. destruct IH as (IH & Hl & Hu & H).
      cbn [zip zip_with behind length]. rewrite <-IH, Hl. split_and!; [done..|by constructor|].
      constructor; [|done]. intros e' [= <-]. by apply H4.
    + destruct (next (a_request q) st) as [st' resp] eqn:En. specialize (IH v' st').
      destruct (serve l (v', st')) as [s resps]. destruct IH as (IH & Hl & Hu & H).
      cbn [zip zip_with behind length]. rewrite En, <-IH, Hl. split_and!; [done..|by constructor|by constructor].
Qed.

(** A token with no expiry, or one that is not positive, never expires: if
    it is accepted now, the same verifier accepts it at any later time before
    the clock's seconds overflow, where the package's comment says that the expiry
    must be in the future. *)
Theorem token_without_expiry_never_expires env now later v p0 p1 p2 c :
  parts_ok VerifyPKCS1v15 Int64 Quote B64_err Json_err fl env now v p0 p1 p2 → decoded (d_claims fl) p1 c → Exp c <= 0 →
  now <= later → in_s 64 (now / Second + skew_seconds (MaxClockSkew (opts v))) →
  in_s 64 (later / Second + skew_seconds (MaxClockSkew (opts v))) →
  parts_ok VerifyPKCS1v15 Int64 Quote B64_err Json_err fl env later v p0 p1 p2.
Proof.
  intros (h & c' & Hh & Hs & Hc' & Hok) Hc He Hle H1 H2. rewrite (decoded_fun _ _ _ _ Hc' Hc) in Hok. exists h, c.
  split; [done|]. split; [done|]. split; [done|]. destruct Hok as (Hi & Ha & _ & Hn). split; [done|]. split; [done|].
  split; [lia|]. rewrite wrap_s_small in * by done. intros Hp. specialize (Hn Hp).
  assert (now / Second <= later / Second) by (apply Z.div_le_mono; [done|lia]). lia.
Qed.
End behind.

(** ** Witnesses *)

Definition test_options : Options := mkOptions "https://accounts.test" "https://pubsub.test/" (bytes_of_string "test-key") None "" 0 0.
Definition token_request (t : string) : Request :=
  mkRequest "GET" "" "" "/" "" "/" "" ∅ {["Authorization" := ["Bearer " +:+ t]]} 0 None.
Definition no_fetch : fetch_env := mkFetchEnv 0 (GetFails "no route to host") 0.
Definition minted_at : Time := 1700000000 * Second.

Lemma minted_tokens_accepted_witness :
  (Verify (λ _ _ _, false) Datatypes.id Datatypes.id Datatypes.id Datatypes.id azure no_fetch (minted_at + 60 * Second)
     (token_request (TestJWT minted_at (bytes_of_string "test-key") "https://accounts.test" "https://pubsub.test/" Hour))
     (New test_options)).2 = None.
Proof.
  apply (minted_tokens_accepted (λ _ _ _, false) Datatypes.id Datatypes.id Datatypes.id Datatypes.id azure no_fetch minted_at
    (minted_at + 60 * Second) _ (New test_options) "https://accounts.test" "https://pubsub.test/" Hour);
    [by right|done|by apply ascii_valid_utf8|by apply ascii_valid_utf8|done|done|repeat constructor; by vm_compute|by vm_compute|].
  split; [by right|]. split; [by right|]. split; [by vm_compute|by intros ?].
Defined.

(** A token of header [h] and claims [c], signed with the test key. *)
Definition hs256 (h c : string) : string * string * string :=
  let p0 := RawURL_EncodeToString (bytes_of_string h) in
  let p1 := RawURL_EncodeToString (bytes_of_string c) in
  (p0, p1, RawURL_EncodeToString (hmac_sha256 (TestKey test_options) (bytes_of_string (p0 +:+ "." +:+ p1)))).
Definition eternal_header : string := print (JObj [j_pair "alg" "HS256"]).
Definition eternal_claims : string := print (JObj [j_pair "iss" "https://accounts.test"; j_pair "aud" "https://pubsub.test/"]).
Definition eternal : string * string * string := hs256 eternal_header eternal_claims.

Lemma token_without_expiry_never_expires_witness :
  parts_ok (λ _ _ _, false) Datatypes.id Datatypes.id Datatypes.id Datatypes.id gcp no_fetch (minted_at + 876000 * Hour) (New test_options)
    eternal.1.1 eternal.1.2 eternal.2.
Proof.
  apply (token_without_expiry_never_expires (λ _ _ _, false) Datatypes.id Datatypes.id Datatypes.id Datatypes.id gcp no_fetch
    minted_at (minted_at + 876000 * Hour) (New test_options) eternal.1.1 eternal.1.2 eternal.2
    (mkClaims "https://accounts.test" "https://pubsub.test/" 0 0 0)).
  - exists (mkTokenHeader "HS256" ""), (mkClaims "https://accounts.test" "https://pubsub.test/" 0 0 0).
    split; [exists (bytes_of_string eternal_header); by split; vm_compute|].
    split; [left; split; [done|]; split; [done|]; by vm_compute|].
    split; [exists (bytes_of_string eternal_claims); by split; vm_compute|]. split; [by right|]. split; [by right|]. by split; intros ?.
  - exists (bytes_of_string eternal_claims); by split; vm_compute.
  - done.
  - by vm_compute.
  - by vm_compute.
  - by vm_compute.
Defined.
