(* ===== verification/AzureSharedKey.v ===== *)
(** * The Azure Storage SharedKey verifier

    [internal/azuresharedkey]: the Authorization header, the two canonical
    strings, the signature check and the middleware's decision.  Go ranges over
    the header map and the query map in an order of its choice: the two
    orders are arguments.  [sort.Slice] is an insertion sort below twelve
    elements, which [sort_by] is; beyond that it differs only in how it places
    entries with equal keys. *)

From Stdlib Require Import Ascii.
From S2P Require Import Prelude GoStrings GoBytes GoCrypto GoHttp.

Class AccountStore := Lookup : string → option bytes.

Record StaticStore := mkStaticStore { Account : string; Key : bytes }.
Definition StaticStore_Lookup (s : StaticStore) : AccountStore :=
  λ account, if negb (String.eqb account (Account s)) then None else Some (Key s).

Record Error := mkError { HTTPStatus : Z; Code : string; Message : string }.
Definition Error_text (e : Error) : string := Code e +:+ ": " +:+ Message e.

Definition StatusUnauthorized : Z := 401.
Definition StatusForbidden : Z := 403.

Definition nl : string := String "010" "".

(** [strings.ReplaceAll(v, "\n", " ")]. *)
Definition squash_newlines (v : string) : string :=
  str_map (λ c, if Ascii.eqb c "010" then " "%char else c) v.

Abbreviation kv := (string * string)%type.
Definition kv_less (a b : kv) : bool := String.ltb a.1 b.1.

(** An entry of the header map that is signed. *)
Definition ms_header (h : string * list string) : option kv :=
  let lk := ToLower h.1 in
  if HasPrefix lk "x-ms-" then Some (lk, TrimSpace (squash_newlines (Join h.2 ","))) else None.

(** [header_range] lists the entries of [r.Header] in the order of the [range]. *)
Definition canonicalizedHeaders (header_range : list (string * list string)) : string :=
  let hs := sort_by kv_less (omap ms_header header_range) in
  fold_left (λ b h, b +:+ h.1 +:+ ":" +:+ h.2 +:+ nl) hs "".

Definition query_kv (p : string * list string) : kv :=
  (ToLower p.1, Join (sort_Strings p.2) ",").

(** [query_range] lists the entries of [r.URL.Query()] in the order of the [range]. *)
Definition canonicalizedResource (r : Request) (query_range : list (string * list string))
    (account : string) : string :=
  let b := "/" +:+ account +:+ EscapedPath r in
  if Nat.eqb (length query_range) 0 then b
  else fold_left (λ b q, b +:+ nl +:+ q.1 +:+ ":" +:+ q.2) (sort_by kv_less (map query_kv query_range)) b.

Definition content_length (r : Request) : string :=
  let cl := Header_Get r "Content-Length" in if String.eqb cl "0" then "" else cl.
Definition date_line (r : Request) : string :=
  if negb (String.eqb (Header_Get r "x-ms-date") "") then "" else Header_Get r "Date".

Definition buildCanonicalString (r : Request) (header_range query_range : list (string * list string))
    (account : string) : string :=
  Method r +:+ nl +:+ Header_Get r "Content-Encoding" +:+ nl +:+ Header_Get r "Content-Language" +:+ nl +:+
  content_length r +:+ nl +:+ Header_Get r "Content-MD5" +:+ nl +:+ Header_Get r "Content-Type" +:+ nl +:+
  date_line r +:+ nl +:+ Header_Get r "If-Modified-Since" +:+ nl +:+ Header_Get r "If-Match" +:+ nl +:+
  Header_Get r "If-None-Match" +:+ nl +:+ Header_Get r "If-Unmodified-Since" +:+ nl +:+
  Header_Get r "Range" +:+ nl +:+ canonicalizedHeaders header_range +:+
  canonicalizedResource r query_range account.

Definition buildTablesCanonicalString (r : Request) (account : string) : string :=
  let comp := Query_Get (Query r) "comp" in
  Header_Get r "x-ms-date" +:+ nl +:+ "/" +:+ account +:+
  (if String.eqb (URL_Path r) "" then "/" else EscapedPath r) +:+
  (if negb (String.eqb comp "") then "?comp=" +:+ comp else "").

(** [hmac.Equal]; what it compares is public here, not its timing. *)
Definition subtleConstTimeEq (a b : bytes) : bool := bool_decide (a = b).

Definition auth_failed (status : Z) (msg : string) : Error := mkError status "AuthenticationFailed" msg.
Definition auth_info (msg : string) : Error := mkError StatusUnauthorized "InvalidAuthenticationInfo" msg.

(** The scheme of an Authorization header and what follows it. *)
Definition split_scheme (authHdr : string) : option (string * string) :=
  if HasPrefix authHdr "SharedKeyLite " then Some (TrimPrefix authHdr "SharedKeyLite ", "SharedKeyLite")
  else if HasPrefix authHdr "SharedKey " then Some (TrimPrefix authHdr "SharedKey ", "SharedKey")
  else None.

Definition expected_signature (key : bytes) (canonical : string) : string :=
  base64_EncodeToString (hmac_sha256 key (bytes_of_string canonical)).

Section verify.
Context `{AccountStore} (Quote : string → string).

(** [None] is a nil error: the request is accepted. *)
Definition Verify (header_range query_range : list (string * list string)) (r : Request) : option Error :=
  let authHdr := Header_Get r "Authorization" in
  if String.eqb authHdr ""
  then Some (auth_failed StatusUnauthorized
    "Server failed to authenticate the request. Make sure the value of Authorization header is formed correctly including the signature.")
  else match split_scheme authHdr with
  | None => Some (auth_info "Authorization scheme must be SharedKey")
  | Some (rest, scheme) =>
      match IndexByte rest ":" with
      | None => Some (auth_info "Authorization header missing account:signature separator")
      | Some colonAt =>
          let account := str_take colonAt rest in
          let presented := str_drop (S colonAt) rest in
          match Lookup account with
          | None => Some (auth_failed StatusForbidden "account name is not recognised")
          | Some key =>
              let canonical := if String.eqb scheme "SharedKeyLite"
                then buildTablesCanonicalString r account
                else buildCanonicalString r header_range query_range account in
              let expected := expected_signature key canonical in
              if subtleConstTimeEq (bytes_of_string expected) (bytes_of_string presented) then None
              else Some (auth_failed StatusForbidden
                ("computed signature does not match presented signature for account " +:+ Quote account +:+
                 " (scheme=" +:+ scheme +:+ ")"))
          end
      end
  end.

(** ** middleware.go *)

Definition bypass (env : string → string) : bool :=
  String.eqb (env "SHIMANISM_TEST_UNAUTHENTICATED") "1" ||
  String.eqb (env "SHIMANISM_TEST_UNAUTHENTICATED_AZURE") "1".

(** [None]: the next handler serves the request.  [Some e]: [writeStorageError]
    answers with the status, code and message of [e]. *)
Definition Middleware (env : string → string) (header_range query_range : list (string * list string))
    (r : Request) : option (Z * string * string) :=
  if bypass env then None
  else match Verify header_range query_range r with
       | Some e => Some (HTTPStatus e, Code e, Message e)
       | None => None
       end.
End verify.

(** * The SharedKey verifier: properties

    Exactly which Authorization headers are accepted; the verdict does not
    depend on Go's map order when header and query names differ beyond case,
    and does otherwise; what a SharedKeyLite signature leaves out. *)

(** ** Map order *)

Definition distinct_names (l : list (string * list string)) : Prop :=
  NoDup (map (λ p, ToLower p.1) l).

Lemma kv_less_anti (x y : kv) : le_by kv_less x y → le_by kv_less y x → x.1 = y.1.
Proof.
  intros H1 H2. destruct (str_lt_trich x.1 y.1) as [H|[H|H]]; [|done|].
  - unfold le_by, kv_less, str_lt in *. congruence.
  - unfold le_by, kv_less, str_lt in *. congruence.
Qed.

(** Sorting by name forgets the order when names are distinct. *)
Lemma sort_kv_unique (l1 l2 : list kv) :
  NoDup (map fst l1) → l1 ≡ₚ l2 → sort_by kv_less l1 = sort_by kv_less l2.
Proof.
  intros Hnd Hp. apply sort_by_unique;
    [by intros; apply ltb_asym|by intros x y z; apply le_by_ltb_trans| |exact Hp].
  intros x y Hx Hy H1 H2. rewrite <-Hp in Hy. pose proof (kv_less_anti _ _ H1 H2) as E.
  apply list_elem_of_lookup in Hx as [i Hi]. apply list_elem_of_lookup in Hy as [j Hj].
  assert (i = j) as <-; [|congruence].
  apply (NoDup_lookup _ i j x.1 Hnd); rewrite list_lookup_fmap; [by rewrite Hi|by rewrite Hj, E].
Qed.

Lemma map_fst_ms_headers l :
  map fst (omap ms_header l) = filter (λ n, HasPrefix n "x-ms-" = true) (map (λ p, ToLower p.1) l).
Proof.
  induction l as [|h l IH]; [done|]. cbn [omap list_omap map].
  change (list_omap _ _ ms_header l) with (omap ms_header l).
  unfold ms_header at 1. rewrite filter_cons. destruct (HasPrefix (ToLower h.1) "x-ms-") eqn:E.
  - rewrite decide_True by done. cbn [map fst]. by f_equal.
  - by rewrite decide_False by congruence.
Qed.

Lemma canonicalizedHeaders_perm h1 h2 :
  distinct_names h1 → h1 ≡ₚ h2 → canonicalizedHeaders h1 = canonicalizedHeaders h2.
Proof.
  intros Hd Hp. unfold canonicalizedHeaders. f_equal. apply sort_kv_unique.
  - rewrite map_fst_ms_headers. by apply NoDup_filter.
  - by rewrite Hp.
Qed.

Lemma canonicalizedResource_perm r q1 q2 account :
  distinct_names q1 → q1 ≡ₚ q2 → canonicalizedResource r q1 account = canonicalizedResource r q2 account.
Proof.
  intros Hd Hp. unfold canonicalizedResource. rewrite (Permutation_length Hp).
  destruct (Nat.eqb _ 0); [done|]. f_equal. apply sort_kv_unique; [|by rewrite Hp].
  rewrite map_map. exact Hd.
Qed.

(** ** Accepted headers *)

Section acceptance.
Context (store : AccountStore) (Quote : string → string).

Definition canonical_for (scheme : string) (r : Request) (hr qr : list (string * list string))
    (account : string) : string :=
  if String.eqb scheme "SharedKeyLite" then buildTablesCanonicalString r account
  else buildCanonicalString r hr qr account.

Lemma split_scheme_spec h rest scheme :
  split_scheme h = Some (rest, scheme) ↔
  (scheme = "SharedKeyLite" ∨ scheme = "SharedKey") ∧ h = scheme +:+ " " +:+ rest.
Proof.
  unfold split_scheme. destruct (HasPrefix h "SharedKeyLite ") eqn:El.
  - apply HasPrefix_spec in El as [t ->]. rewrite TrimPrefix_app. split.
    + intros [= <- <-]. auto.
    + intros [[->| ->] E]; [|discriminate E].
      apply (str_app_inj_l "SharedKeyLite ") in E. by subst.
  - destruct (HasPrefix h "SharedKey ") eqn:Ek.
    + apply HasPrefix_spec in Ek as [t ->]. rewrite TrimPrefix_app. split.
      * intros [= <- <-]. auto.
      * intros [[->| ->] E]; [discriminate E|]. apply (str_app_inj_l "SharedKey ") in E. by subst.
    + split; [done|]. intros [[->| ->] ->].
      * change ("SharedKeyLite" +:+ " " +:+ rest) with ("SharedKeyLite " +:+ rest) in El.
        by rewrite HasPrefix_app in El.
      * change ("SharedKey" +:+ " " +:+ rest) with ("SharedKey " +:+ rest) in Ek.
        by rewrite HasPrefix_app in Ek.
Qed.

Lemma verdict (scheme : string) r hr qr account presented key :
  subtleConstTimeEq (bytes_of_string (expected_signature key (canonical_for scheme r hr qr account)))
    (bytes_of_string presented) = true ↔
  presented = expected_signature key (canonical_for scheme r hr qr account).
Proof.
  unfold subtleConstTimeEq. rewrite bool_decide_eq_true. split; [|by intros ->].
  intros E%(f_equal string_of_bytes). by rewrite !string_of_bytes_of_string in E.
Qed.

(** In the order of the ranges, with the builders' strings. *)
Lemma Verify_accepts (hr qr : list (string * list string)) (r : Request) :
  Verify Quote hr qr r = None ↔
  ∃ scheme account key,
    (scheme = "SharedKeyLite" ∨ scheme = "SharedKey") ∧
    str_mem ":" account = false ∧ Lookup account = Some key ∧
    Header_Get r "Authorization" = scheme +:+ " " +:+ account +:+ ":" +:+
      expected_signature key (canonical_for scheme r hr qr account).
Proof.
  unfold Verify. split.
  - destruct (String.eqb _ ""); [done|].
    destruct (split_scheme _) as [[rest scheme]|] eqn:Es; [|done]. apply split_scheme_spec in Es as [Hs ->].
    destruct (IndexByte rest ":") as [i|] eqn:Ei; [|done]. apply IndexByte_Some in Ei as [Er Hm].
    destruct (Lookup _) as [key|] eqn:El; [|done]. fold (canonical_for scheme r hr qr (str_take i rest)).
    destruct (subtleConstTimeEq _ _) eqn:Ev; [|done]. intros _. apply verdict in Ev.
    exists scheme, (str_take i rest), key. rewrite <-Ev, (str_one_app ":"%char), <-Er. done.
  - intros (scheme & account & key & Hs & Hm & Hl & Hh). rewrite Hh.
    assert (String.eqb (scheme +:+ " " +:+ account +:+ ":" +:+
      expected_signature key (canonical_for scheme r hr qr account)) "" = false) as ->
      by (by destruct Hs as [-> | ->]).
    rewrite (proj2 (split_scheme_spec _ _ scheme)) by done.
    rewrite (str_one_app ":"%char), IndexByte_app by done.
    rewrite str_take_app, Hl. fold (canonical_for scheme r hr qr account).
    rewrite str_drop_sep.
    by rewrite (proj2 (verdict _ _ _ _ _ _ _)).
Qed.

(** *** The string to sign, as Azure documents it *)

Definition by_name : relation (string * string) := λ x y, str_lt x.1 y.1.

(** The x-ms- headers: the name in lower case, the values joined by commas,
    without newlines and surrounding space. *)
Definition signed_header (h : string * list string) : option (string * string) :=
  if HasPrefix (ToLower h.1) "x-ms-"
  then Some (ToLower h.1, TrimSpace (str_map (λ c, if Ascii.eqb c "010" then " "%char else c) (Join h.2 ",")))
  else None.
Definition signed_param (p : string * list string) : string * string := (ToLower p.1, Join (sort_Strings p.2) ",").

Definition concat_strings (l : list string) : string := foldr (λ x acc, x +:+ acc) "" l.

(** SharedKey: the method and eleven headers, a line each, an empty one for a
    length of 0 and for the date when there is an x-ms-date; then the x-ms-
    headers by name; then the account, the escaped path and the parameters. *)
Definition full_to_sign (r : Request) (account s : string) : Prop :=
  let line n := Header_Get r n +:+ nl in
  ∃ hs ps,
    hs ≡ₚ omap signed_header (map_to_list (Header r)) ∧ StronglySorted by_name hs ∧
    ps ≡ₚ (signed_param <$> map_to_list (Query r)) ∧ StronglySorted by_name ps ∧
    s = concat_strings
      ([Method r +:+ nl; line "Content-Encoding"; line "Content-Language";
        if decide (Header_Get r "Content-Length" = "0") then nl else line "Content-Length";
        line "Content-MD5"; line "Content-Type";
        if decide (Header_Get r "x-ms-date" = "") then line "Date" else nl;
        line "If-Modified-Since"; line "If-Match"; line "If-None-Match"; line "If-Unmodified-Since"; line "Range"] ++
       ((λ h : string * string, h.1 +:+ ":" +:+ h.2 +:+ nl) <$> hs) ++
       ["/"; account; EscapedPath r] ++
       ((λ p : string * string, nl +:+ p.1 +:+ ":" +:+ p.2) <$> ps)).

(** SharedKeyLite, of the tables service. *)
Definition lite_to_sign (r : Request) (account s : string) : Prop :=
  s = concat_strings
    ([Header_Get r "x-ms-date"; nl; "/"; account; if decide (URL_Path r = "") then "/" else EscapedPath r] ++
     (if decide (Query_Get (Query r) "comp" = "") then [] else ["?comp="; Query_Get (Query r) "comp"])).

Lemma fold_concat {A} (f : A → string) b l : fold_left (λ b h, b +:+ f h) l b = b +:+ concat_strings (f <$> l).
Proof.
  revert b. induction l as [|x l IH]; intros b; cbn; [by rewrite str_app_nil_r|]. rewrite IH. by rewrite <-str_app_assoc.
Qed.

Lemma concat_strings_app l1 l2 : concat_strings (l1 ++ l2) = concat_strings l1 +:+ concat_strings l2.
Proof.
  induction l1 as [|x l IH]; [done|]. cbn [app concat_strings foldr] in *. unfold concat_strings in *. cbn. rewrite IH.
  by rewrite (str_app_assoc x).
Qed.

(** A strictly sorted rearrangement is what sorting gives. *)
Lemma sorted_is_sort (l hs : list kv) : hs ≡ₚ l → StronglySorted by_name hs → sort_by kv_less l = hs.
Proof.
  intros Hp Hs. assert (NoDup (map fst hs)) as Hnd.
  { clear Hp. induction Hs as [|x l' Hs IH Hx]; [apply NoDup_nil_2|]. cbn. apply NoDup_cons. split; [|done].
    intros (y & E & Hy)%list_elem_of_fmap. rewrite Forall_forall in Hx. specialize (Hx y Hy). unfold by_name in Hx.
    rewrite E in Hx. by apply str_lt_irrefl in Hx. }
  rewrite <-(sort_kv_unique hs l Hnd Hp). apply sort_by_sorted_id. clear Hp Hnd.
  induction Hs as [|x l' Hs IH Hx]; constructor; [done|]. eapply Forall_impl; [exact Hx|]. intros y Hy. by apply ltb_asym.
Qed.

(** What there is to sort has a strictly sorted rearrangement when the names differ. *)
Lemma sort_is_sorted (l : list kv) : NoDup (map fst l) → StronglySorted by_name (sort_by kv_less l).
Proof.
  intros Hnd. assert (StronglySorted (le_by kv_less) (sort_by kv_less l)) as Hs.
  { apply sort_by_sorted; [by intros; apply ltb_asym|by intros x y z; apply le_by_ltb_trans]. }
  assert (NoDup (map fst (sort_by kv_less l))) as Hnd'.
  { assert (map fst (sort_by kv_less l) ≡ₚ map fst l) as -> by (by rewrite sort_by_perm). done. }
  induction Hs as [|x l' Hs IH Hx]; [constructor|]. cbn in Hnd'. apply NoDup_cons in Hnd' as [Hni Hnd'].
  constructor; [by apply IH|]. rewrite Forall_forall in *. intros y Hy. specialize (Hx y Hy).
  apply le_by_ltb in Hx as [E|]; [|done]. exfalso. apply Hni. rewrite E. by apply list_elem_of_fmap_2.
Qed.

Lemma tables_lines r account :
  concat_strings
    ([Header_Get r "x-ms-date"; nl; "/"; account; if decide (URL_Path r = "") then "/" else EscapedPath r] ++
     (if decide (Query_Get (Query r) "comp" = "") then [] else ["?comp="; Query_Get (Query r) "comp"])) =
  buildTablesCanonicalString r account.
Proof.
  unfold buildTablesCanonicalString. rewrite concat_strings_app.
  destruct (decide (URL_Path r = "")) as [E1|E1], (decide (Query_Get (Query r) "comp" = "")) as [E2|E2];
    rewrite ?E1, ?E2, ?(proj2 (String.eqb_neq _ "") E1), ?(proj2 (String.eqb_neq _ "") E2);
    unfold concat_strings; cbn [foldr String.eqb negb]; by rewrite !str_app_nil_r, ?str_app_assoc.
Qed.

Lemma lite_string r account s : lite_to_sign r account s ↔ s = buildTablesCanonicalString r account.
Proof. unfold lite_to_sign. by rewrite tables_lines. Qed.

Lemma canonical_lines r hr qr account (hs ps : list kv) :
  sort_by kv_less (omap ms_header hr) = hs → sort_by kv_less (map query_kv qr) = ps →
  let line n := Header_Get r n +:+ nl in
  concat_strings
    ([Method r +:+ nl; line "Content-Encoding"; line "Content-Language";
      if decide (Header_Get r "Content-Length" = "0") then nl else line "Content-Length";
      line "Content-MD5"; line "Content-Type";
      if decide (Header_Get r "x-ms-date" = "") then line "Date" else nl;
      line "If-Modified-Since"; line "If-Match"; line "If-None-Match"; line "If-Unmodified-Since"; line "Range"] ++
     ((λ h : string * string, h.1 +:+ ":" +:+ h.2 +:+ nl) <$> hs) ++
     ["/"; account; EscapedPath r] ++
     ((λ p : string * string, nl +:+ p.1 +:+ ":" +:+ p.2) <$> ps)) = buildCanonicalString r hr qr account.
Proof.
  intros <- <- line. unfold buildCanonicalString, canonicalizedHeaders, canonicalizedResource, content_length, date_line.
  rewrite (fold_concat (λ h : string * string, h.1 +:+ ":" +:+ h.2 +:+ nl)),
    (fold_concat (λ p : string * string, nl +:+ p.1 +:+ ":" +:+ p.2)), !concat_strings_app. subst line.
  set (H := concat_strings (_ <$> sort_by kv_less (omap ms_header hr))).
  set (P := concat_strings (_ <$> sort_by kv_less (map query_kv qr))).
  assert ((if Nat.eqb (length qr) 0 then "/" +:+ account +:+ EscapedPath r
    else ("/" +:+ account +:+ EscapedPath r) +:+ P) = "/" +:+ account +:+ EscapedPath r +:+ P) as ->.
  { rewrite !str_app_assoc. destruct (Nat.eqb_spec (length qr) 0) as [E|]; [|done].
    assert (P = "") as ->; [|by rewrite !str_app_nil_r]. apply nil_length_inv in E. subst P. by rewrite E. }
  unfold concat_strings. cbn [foldr].
  destruct (decide (Header_Get r "Content-Length" = "0")) as [E1|E1], (decide (Header_Get r "x-ms-date" = "")) as [E2|E2];
    rewrite ?E1, ?E2, ?(proj2 (String.eqb_neq _ "0") E1), ?(proj2 (String.eqb_neq _ "") E2);
    cbn [String.eqb negb Ascii.eqb Bool.eqb]; rewrite !str_app_assoc, ?str_app_nil_r; reflexivity.
Qed.
Lemma full_string hr qr r account s :
  hr ≡ₚ map_to_list (Header r) → qr ≡ₚ map_to_list (Query r) → distinct_names hr → distinct_names qr →
  full_to_sign r account s ↔ s = buildCanonicalString r hr qr account.
Proof.
  intros Hh Hq Dh Dq.
  assert (∀ hs, hs ≡ₚ omap signed_header (map_to_list (Header r)) → hs ≡ₚ omap ms_header hr) as Eh by (intros hs ->; by rewrite <-Hh).
  assert (∀ ps, ps ≡ₚ (signed_param <$> map_to_list (Query r)) → ps ≡ₚ map query_kv qr) as Eq by (intros ps ->; by rewrite <-Hq).
  split.
  - intros (hs & ps & Ph & Sh & Pp & Sp & ->).
    apply canonical_lines; [by rewrite (sorted_is_sort _ hs (Eh hs Ph) Sh)|by rewrite (sorted_is_sort _ ps (Eq ps Pp) Sp)].
  - intros ->. exists (sort_by kv_less (omap ms_header hr)), (sort_by kv_less (map query_kv qr)). split_and!.
    + rewrite sort_by_perm. by rewrite Hh.
    + apply sort_is_sorted. rewrite map_fst_ms_headers. by apply NoDup_filter.
    + rewrite sort_by_perm. by rewrite Hq.
    + apply sort_is_sorted. rewrite map_map. exact Dq.
    + symmetry. by apply canonical_lines.
Qed.

(** C30: Verify accepts exactly the Authorization headers of the form
    "<scheme> <account>:<signature>" where the scheme is SharedKey or
    SharedKeyLite, the account (no colon) is known, and the signature is the
    base64 HMAC-SHA256, under that account's key, of the scheme's string to
    sign, written out beside the code: for SharedKey the method, eleven standard headers, the
    x-ms- headers in the order of their lower-case names, the account, the
    escaped path and the query parameters in the order of theirs; for
    SharedKeyLite x-ms-date, account, path and comp.  This is so in whatever
    order Go ranges over the header and query maps, where no two names differ in
    case only.  A signature in the query (SAS) is never looked at. *)
Theorem SharedKey_accepts_iff (hr qr : list (string * list string)) (r : Request) :
  hr ≡ₚ map_to_list (Header r) → qr ≡ₚ map_to_list (Query r) → distinct_names hr → distinct_names qr →
  Verify Quote hr qr r = None ↔
  ∃ scheme account key s,
    (scheme = "SharedKey" ∧ full_to_sign r account s ∨ scheme = "SharedKeyLite" ∧ lite_to_sign r account s) ∧
    str_mem ":" account = false ∧ Lookup account = Some key ∧
    Header_Get r "Authorization" = scheme +:+ " " +:+ account +:+ ":" +:+
      base64_EncodeToString (hmac_sha256 key (bytes_of_string s)).
Proof.
  intros Hh Hq Dh Dq. rewrite Verify_accepts. split.
  - intros (scheme & account & key & Hs & Hm & Hl & Ha). exists scheme, account, key, (canonical_for scheme r hr qr account).
    split; [|done]. destruct Hs as [-> | ->]; [right; by rewrite lite_string|left; split; [done|by apply (full_string hr qr)]].
  - intros (scheme & account & key & s & Hs & Hm & Hl & Ha). exists scheme, account, key.
    destruct Hs as [[-> Hs]|[-> Hs]]; [apply (full_string hr qr) in Hs; [|done..]|apply lite_string in Hs]; subst s;
      (split; [by auto|by split_and!]).
Qed.

(** Go's choice of map order does not affect the verdict when the names of
    the signed headers and of the query parameters differ by more than case:
    both canonical lists are sorted by lower-cased name. *)
Theorem SharedKey_order_independent (h1 h2 q1 q2 : list (string * list string)) (r : Request) :
  distinct_names h1 → distinct_names q1 → h1 ≡ₚ h2 → q1 ≡ₚ q2 →
  Verify Quote h1 q1 r = Verify Quote h2 q2 r.
Proof.
  intros Hh Hq Ph Pq. unfold Verify, buildCanonicalString.
  rewrite (canonicalizedHeaders_perm h1 h2) by done.
  repeat match goal with
    | |- ?x = ?y => constr_eq x y; exact eq_refl
    | |- context [match ?x with _ => _ end] => rewrite ?(canonicalizedResource_perm r q1 q2) by done; destruct x
    end.
Qed.

(** A SharedKeyLite signature covers only x-ms-date, the path and the comp
    parameter: with these and the Authorization header kept, the verdict does
    not change with the method, the other headers, the other query parameters
    or the body. *)
Theorem lite_signature_covers (h1 h2 q1 q2 : list (string * list string)) (r1 r2 : Request) (cred : string) :
  Header_Get r1 "Authorization" = "SharedKeyLite " +:+ cred →
  Header_Get r2 "Authorization" = "SharedKeyLite " +:+ cred →
  Header_Get r1 "x-ms-date" = Header_Get r2 "x-ms-date" →
  URL_Path r1 = URL_Path r2 → EscapedPath r1 = EscapedPath r2 →
  Query_Get (Query r1) "comp" = Query_Get (Query r2) "comp" →
  Verify Quote h1 q1 r1 = Verify Quote h2 q2 r2.
Proof.
  intros E1 E2 Ed Ep Ee Ec.
  assert (Hs : split_scheme ("SharedKeyLite " +:+ cred) = Some (cred, "SharedKeyLite"))
    by (apply split_scheme_spec; auto).
  unfold Verify. rewrite E1, E2, Hs. cbn [String.eqb Ascii.eqb]. unfold buildTablesCanonicalString.
  by rewrite Ed, Ep, Ee, Ec.
Qed.
End acceptance.

(** ** Witnesses *)

Definition demo_key : bytes := bytes_of_string "key".
#[local] Instance demo_store : AccountStore := StaticStore_Lookup (mkStaticStore "acct" demo_key).

Definition demo (query : gmap string (list string)) (auth : string) : Request :=
  mkRequest "GET" "acct.blob.core.windows.net" "" "/c" "" "/c" "" query
    {["X-Ms-Date" := ["Mon, 01 Jan 2024 00:00:00 GMT"]; "Authorization" := [auth]]} 0 None.
Definition demo_headers : list (string * list string) := [("X-Ms-Date", ["Mon, 01 Jan 2024 00:00:00 GMT"])].

Definition case_query : gmap string (list string) := {["A" := ["1"]; "a" := ["2"]]}.
Definition demo_sign (q : gmap string (list string)) (qr : list (string * list string)) : string :=
  expected_signature demo_key (canonical_for "SharedKey" (demo q "") demo_headers qr "acct").

(** When two query parameters differ in case only, the verdict on one and
    the same request depends on the order in which Go ranges over the query
    map: it is accepted for one order and refused for the other. *)
Theorem SharedKey_order_dependent :
  ∃ r q1 q2, q1 ≡ₚ q2 ∧ map_to_list (Query r) ≡ₚ q1 ∧
    Verify (λ s, s) demo_headers q1 r = None ∧ Verify (λ s, s) demo_headers q2 r ≠ None.
Proof.
  exists (demo case_query ("SharedKey acct:" +:+ demo_sign case_query [("A", ["1"]); ("a", ["2"])])).
  exists [("A", ["1"]); ("a", ["2"])], [("a", ["2"]); ("A", ["1"])].
  split; [apply Permutation_swap|]. split; [vm_compute; apply Permutation_refl || apply Permutation_swap|].
  split; [vm_compute; reflexivity|vm_compute; discriminate].
Qed.

Definition demo_date : string := "Mon, 01 Jan 2024 00:00:00 GMT".
Definition demo_to_sign : string :=
  concat_strings ("GET" :: replicate 12 nl ++ ["x-ms-date:"; demo_date; nl; "/acct/c"; nl; "comp:list"]).
Definition demo_signed : Request :=
  demo {["comp" := ["list"]]} ("SharedKey acct:" +:+ base64_EncodeToString (hmac_sha256 demo_key (bytes_of_string demo_to_sign))).

Lemma SharedKey_accepts_iff_witness :
  Verify (λ s, s) (map_to_list (Header demo_signed)) [("comp", ["list"])] demo_signed = None.
Proof.
  apply (SharedKey_accepts_iff demo_store (λ s, s)).
  - reflexivity.
  - vm_compute. reflexivity.
  - apply (bool_decide_unpack _). vm_compute. exact I.
  - apply (bool_decide_unpack _). vm_compute. exact I.
  - exists "SharedKey", "acct", demo_key, demo_to_sign. split; [left; split; [reflexivity|]|].
    + exists [("x-ms-date", demo_date)], [("comp", "list")]. split_and!; [vm_compute; reflexivity|repeat constructor|
        vm_compute; reflexivity|repeat constructor|vm_compute; reflexivity].
    + split_and!; vm_compute; reflexivity.
Defined.

Lemma SharedKey_order_independent_witness :
  let r := demo ∅ "SharedKey acct:abc" in
  Verify (λ s, s) (("X", []) :: demo_headers) [] r = Verify (λ s, s) (demo_headers ++ [("X", [])]) [] r.
Proof.
  apply (SharedKey_order_independent demo_store (λ s, s)).
  - apply (bool_decide_unpack _). vm_compute. exact I.
  - apply NoDup_nil_2.
  - apply Permutation_swap.
  - apply perm_nil.
Defined.

Definition lite_auth : string :=
  "acct:" +:+ expected_signature demo_key (canonical_for "SharedKeyLite" (demo ∅ "") [] [] "acct").

Lemma lite_signature_covers_witness :
  Verify (λ s, s) [] [] (demo ∅ ("SharedKeyLite " +:+ lite_auth)) =
  Verify (λ s, s) [] [("$filter", ["x"])]
    (mkRequest "DELETE" "h" "" "/c" "" "/c" "$filter=x" {["$filter" := ["x"]]}
      (Header (demo ∅ ("SharedKeyLite " +:+ lite_auth))) 7 (Some (Reads (bytes_of_string "payload")))).
Proof.
  apply (lite_signature_covers demo_store (λ s, s) _ _ _ _ _ _ lite_auth).
  all: vm_compute; reflexivity.
Defined.

Example lite_is_accepted : Verify (λ s, s) [] [] (demo ∅ ("SharedKeyLite " +:+ lite_auth)) = None.
Proof. vm_compute. reflexivity. Qed.
