(* ===== verification/Lifecycle.v ===== *)
(** * Lifecycles: backends whose operations finish in a goroutine

    The interface of the backends that provision asynchronously: an operation
    changes the state at once and starts goroutines ([timer]s of type [Tm]) that
    sleep and change it again.  A [World] is the backend with the goroutines
    that have not woken up; which one wakes up next is left open.  [lc_owes b t]
    says that some resource of [b] is in a transitional status that the
    goroutine [t] ends.  The theorems about all interleavings are proved once,
    against the interface. *)

From S2P Require Import Prelude GoStrings.

Class Lifecycle (St Op Tm : Type) := {
  lc_new : St;
  lc_run : Op → St → St * list Tm;
  lc_fire : Tm → St → St;
  lc_owes : St → Tm → Prop;
  lc_new_owes t : ¬ lc_owes lc_new t;
  lc_run_owes o b t : lc_owes (lc_run o b).1 t → lc_owes b t ∨ t ∈ (lc_run o b).2;
  lc_fire_owes t b t' : lc_owes (lc_fire t b) t' → lc_owes b t' ∧ t' ≠ t }.

Section worlds.
Context `{Lifecycle St Op Tm}.
Implicit Types (b : St) (o : Op) (t : Tm) (ts : list Tm).

Record World := mkWorld { w_backend : St; w_asleep : list Tm }.

Definition start : World := mkWorld lc_new [].

(** A step is an operation, whose goroutines fall asleep, or the end of any
    goroutine's sleep. *)
Inductive step : World → World → Prop :=
  | step_run o b ts : step (mkWorld b ts) (mkWorld (lc_run o b).1 (ts ++ (lc_run o b).2))
  | step_fire t ts1 ts2 b : step (mkWorld b (ts1 ++ t :: ts2)) (mkWorld (lc_fire t b) (ts1 ++ ts2)).

Definition reachable (w : World) : Prop := rtc step start w.

(** A call of a method by a frontend: the world after it and what it returns. *)
Definition call_in {A} (f : St → St * list Tm * A) (w : World) : World * A :=
  let '(b, ts, a) := f (w_backend w) in (mkWorld b (w_asleep w ++ ts), a).

Lemma call_in_result {A} (f : St → St * list Tm * A) w : (call_in f w).2 = (f (w_backend w)).2.
Proof. unfold call_in. by destruct (f (w_backend w)) as [[b ts] a]. Qed.

Lemma call_in_step {A} (f : St → St * list Tm * A) o w :
  (f (w_backend w)).1 = lc_run o (w_backend w) → step w (call_in f w).1.
Proof.
  destruct w as [b ts]. unfold call_in. cbn. intros E. destruct (f b) as [[b' ts'] a]. cbn in *.
  replace b' with (lc_run o b).1 by (by rewrite <-E). replace ts' with (lc_run o b).2 by (by rewrite <-E).
  constructor.
Qed.

(** Nothing is in a transitional status. *)
Definition settled b : Prop := ∀ t, ¬ lc_owes b t.

(** Every transitional status has a goroutine that will end it. *)
Definition covered (w : World) : Prop := ∀ t, lc_owes (w_backend w) t → t ∈ w_asleep w.

Lemma step_covered w w' : step w w' → covered w → covered w'.
Proof.
  intros Hs Hc. destruct Hs as [o b ts|t ts1 ts2 b]; intros t' Ht'; cbn in *.
  - apply elem_of_app. apply lc_run_owes in Ht' as [Ht'|]; [left; by apply Hc|by right].
  - apply lc_fire_owes in Ht' as [Ht' Hne]. specialize (Hc t' Ht'). cbn in Hc. set_solver.
Qed.

Lemma reachable_covered w : reachable w → covered w.
Proof.
  intros Hr. assert (covered start) as Hs by (intros t Ht; by apply lc_new_owes in Ht).
  induction Hr; [done|]. eauto using step_covered.
Qed.

Definition fire_all ts b : St := fold_left (λ b t, lc_fire t b) ts b.

Lemma fire_all_owes ts b t : lc_owes (fire_all ts b) t → lc_owes b t ∧ t ∉ ts.
Proof.
  revert b. induction ts as [|t' ts IH]; intros b; cbn; [set_solver|].
  intros (Ho & Hn)%IH. apply lc_fire_owes in Ho as [Ho Hne]. set_solver.
Qed.

(** Once the goroutines have woken up, in any order, nothing is transitional. *)
Lemma covered_settles w order : covered w → order ≡ₚ w_asleep w → settled (fire_all order (w_backend w)).
Proof.
  intros Hc Hp t Ht. apply fire_all_owes in Ht as [Ht Hn]. apply Hn. rewrite Hp. by apply Hc.
Qed.

(** What operations and goroutines preserve holds in every reachable world,
    and after the goroutines have woken up. *)
Section invariants.
Context (P : St → Prop).
Context (P_new : P lc_new) (P_run : ∀ o b, P b → P (lc_run o b).1) (P_fire : ∀ t b, P b → P (lc_fire t b)).

Lemma reachable_inv w : reachable w → P (w_backend w).
Proof.
  intros Hr. assert (P (w_backend start)) as Hs by done.
  induction Hr as [|w1 w2 w3 Hst _ IH]; [done|]. apply IH. destruct Hst; cbn in *; eauto.
Qed.

Lemma fire_all_inv ts b : P b → P (fire_all ts b).
Proof. revert b. induction ts as [|t ts IH]; intros b Hb; [done|]. apply IH. by apply P_fire. Qed.
End invariants.

(** A run as a sequence of events, for statements about what may happen in
    between; goroutines may wake up that no one started. *)
Inductive event := Called (o : Op) | Woke (t : Tm).
Definition happen (e : event) b : St := match e with Called o => (lc_run o b).1 | Woke t => lc_fire t b end.
Definition exec (es : list event) b : St := fold_left (λ b e, happen e b) es b.

Lemma exec_inv (P : St → Prop) es b : (∀ e b, e ∈ es → P b → P (happen e b)) → P b → P (exec es b).
Proof.
  revert b. induction es as [|e es IH]; intros b He Hb; [done|]. cbn. apply IH; [set_solver|].
  apply He; [left|done].
Qed.

Lemma fire_all_steps b ts : rtc step (mkWorld b ts) (mkWorld (fire_all ts b) []).
Proof.
  revert b. induction ts as [|t ts IH]; intros b; [constructor|].
  eapply rtc_l; [exact (step_fire t [] ts b)|]. apply IH.
Qed.
End worlds.

(** ** Maps from names to things with a status

    What the goroutines of the four backends do: look the name up again and,
    when the status is the expected one, set it. *)
Section statuses.
Context {S Status : Type} (status : S → Status) (with_status : S → Status → S).
Context (status_with : ∀ s st, status (with_status s st) = st).
Implicit Types (m : gmap string S) (n k : string).

Definition flip_in (when_ : Status → bool) (to : Status) (n : string) m : gmap string S :=
  match m !! n with
  | Some s => if when_ (status s) then <[n := with_status s to]> m else m
  | None => m
  end.

Definition status_in m n : option Status := status <$> m !! n.

Lemma status_in_insert m n s k : status_in (<[n := s]> m) k = if decide (n = k) then Some (status s) else status_in m k.
Proof. unfold status_in. destruct (decide (n = k)) as [->|]; [by rewrite lookup_insert_eq|by rewrite lookup_insert_ne]. Qed.

Lemma status_in_delete m n k : status_in (delete n m) k = if decide (n = k) then None else status_in m k.
Proof. unfold status_in. destruct (decide (n = k)) as [->|]; [by rewrite lookup_delete_eq|by rewrite lookup_delete_ne]. Qed.

Lemma status_in_flip when_ to n m k :
  status_in (flip_in when_ to n m) k =
    if decide (n = k) then (λ st, if when_ st then to else st) <$> status_in m k else status_in m k.
Proof.
  unfold flip_in. destruct (m !! n) as [s|] eqn:E.
  - destruct (when_ (status s)) eqn:Ew.
    + rewrite status_in_insert. destruct (decide (n = k)) as [<-|]; [|done].
      unfold status_in. rewrite E. cbn. by rewrite Ew, status_with.
    + destruct (decide (n = k)) as [<-|]; [|done]. unfold status_in. rewrite E. cbn. by rewrite Ew.
  - destruct (decide (n = k)) as [<-|]; [|done]. unfold status_in. by rewrite E.
Qed.

Lemma map_Forall_flip_in (P : S → Prop) when_ to n m :
  (∀ s, P s → P (with_status s to)) → map_Forall (λ _, P) m → map_Forall (λ _, P) (flip_in when_ to n m).
Proof.
  intros Hw Hm. unfold flip_in. repeat case_match; try done.
  apply map_Forall_insert_2; [|done]. apply Hw. by eapply (Hm n).
Qed.
End statuses.

(** ** Listings

    The names with a prefix, sorted, and the loop that collects their entries
    until a positive limit is reached. *)

Definition names_with {S} (prefix : string) (m : gmap string S) : list string :=
  sort_Strings (filter (λ n, prefix = "" ∨ HasPrefix n prefix = true) (map_to_list m).*1).

Fixpoint list_upto {A} (limit count : Z) (l : list A) : list A :=
  match l with
  | [] => []
  | x :: l =>
      x :: (if (0 <? limit) && (limit <=? count + 1) then [] else list_upto limit (count + 1) l)
  end.

Lemma list_upto_take {A} limit (l : list A) :
  list_upto limit 0 l = if 0 <? limit then take (Z.to_nat limit) l else l.
Proof.
  assert (∀ c, 0 <= c → (0 < limit → c < limit) →
    list_upto limit c l = if 0 <? limit then take (Z.to_nat (limit - c)) l else l) as H.
  { induction l as [|x l IH]; intros c Hc Hl; cbn; [by destruct (0 <? limit), (Z.to_nat (limit - c))|].
    destruct (Z.ltb_spec 0 limit) as [Hp|Hp]; cbn.
    - replace (Z.to_nat (limit - c)) with (S (Z.to_nat (limit - (c + 1)))) by lia. cbn.
      destruct (Z.leb_spec limit (c + 1)).
      + by replace (Z.to_nat (limit - (c + 1))) with O by lia.
      + rewrite IH by lia. done.
    - f_equal. apply IH; lia. }
  rewrite H by lia. by rewrite Z.sub_0_r.
Qed.

Lemma elem_of_names_with {S} prefix (m : gmap string S) n :
  n ∈ names_with prefix m ↔ HasPrefix n prefix = true ∧ is_Some (m !! n).
Proof.
  unfold names_with. rewrite sort_Strings_perm, list_elem_of_filter.
  assert (n ∈ (map_to_list m).*1 ↔ is_Some (m !! n)) as ->.
  { rewrite list_elem_of_fmap. split.
    - intros ([k x] & -> & H%elem_of_map_to_list). by exists x.
    - intros [x H]. exists (n, x). by rewrite elem_of_map_to_list. }
  split; [intros [[->|?] ?]; split; [apply HasPrefix_nil|..]; done|naive_solver].
Qed.

Lemma names_with_sorted {S} prefix (m : gmap string S) : StronglySorted str_lt (names_with prefix m).
Proof. apply sort_Strings_strict, NoDup_filter, NoDup_fst_map_to_list. Qed.

Lemma if_eqb_decide {A} (s : string) (x y : A) : (if String.eqb s "" then x else y) = if decide (s = "") then x else y.
Proof. destruct (String.eqb_spec s ""); by case_decide. Qed.

Lemma if_ltb_decide {A} (a b : Z) (x y : A) : (if a <? b then x else y) = if decide (a < b) then x else y.
Proof. destruct (Z.ltb_spec a b); case_decide; by try lia. Qed.

(** ** Automation

    A component unfolds its operations with the hints of [lifecycle]; the
    tactics prove the laws of the interface for an operation or a goroutine that
    is a constructor. *)

Create HintDb lifecycle.

Ltac unfold_run := repeat first [ progress autounfold with lifecycle in * | progress cbn in * | case_match ].

(** [owes (run o b).1 t → owes b t ∨ t ∈ (run o b).2] *)
Ltac solve_run_owes :=
  unfold_run; intros Ht; try (by left);
  rewrite ?status_in_insert, ?status_in_delete in Ht; cbn in Ht; try case_decide; simplify_eq/=;
  first [by left|right; set_solver].

(** [owes (fire t b) t' → owes b t' ∧ t' ≠ t] *)
Ltac solve_fire_owes :=
  autounfold with lifecycle; cbn; intros Ht;
  rewrite ?status_in_flip, ?status_in_delete in Ht by done; try (by split);
  case_decide; try (split; [done|congruence]); simplify_eq/=;
  match type of Ht with context [status_in ?f ?m ?k] => destruct (status_in f m k) as [[]|] eqn:E end;
  cbn in Ht; repeat case_bool_decide; simplify_eq/=; split; done.
