(* ===== verification/Rdbms.v ===== *)
(** * Relational databases: domain types, errors and the in-process backend

    Models [internal/rdbms/domain] and [services/rdbms/backends/inmem].  The
    backend provisions asynchronously: an operation starts a goroutine that
    sleeps and then changes the state again.  Such a goroutine is a [timer], what
    it does when it wakes up is [fire], and an operation returns the timers it
    starts. *)

From S2P Require Import Prelude GoStrings GoBytes Lifecycle.

(** ** domain/errors.go *)

Inductive Kind :=
  | KindUnknown | KindNoSuchInstance | KindInstanceAlreadyExists | KindNoSuchSnapshot
  | KindSnapshotAlreadyExists | KindInstanceNotAvailable | KindUnsupportedEngine | KindInvalidArgument.
#[export] Instance Kind_eq_dec : EqDecision Kind.
Proof. solve_decision. Defined.

Inductive error :=
  | DomainError (Kind_ : Kind) (Resource : string) (Message : string) (Inner : option error).

(** [Quote] is the [%q] of the format strings ([strconv.Quote]). *)
Definition Error_text (Quote : string → string) (e : error) : string :=
  let 'DomainError k r m _ := e in
  match k with
  | KindNoSuchInstance => "DB instance " +:+ Quote r +:+ " does not exist"
  | KindInstanceAlreadyExists => "DB instance " +:+ Quote r +:+ " already exists"
  | KindNoSuchSnapshot => "DB snapshot " +:+ Quote r +:+ " does not exist"
  | KindSnapshotAlreadyExists => "DB snapshot " +:+ Quote r +:+ " already exists"
  | KindInstanceNotAvailable =>
      if String.eqb m "" then "DB instance " +:+ Quote r +:+ " is not in an available state" else m
  | KindUnsupportedEngine => if String.eqb m "" then "engine is not supported on this backend" else m
  | KindInvalidArgument => m
  | KindUnknown => if String.eqb m "" then "rdbms domain error" else m
  end.
Definition Unwrap (e : error) : option error := let 'DomainError _ _ _ i := e in i.

Definition NoSuchInstance (name : string) : error := DomainError KindNoSuchInstance name "" None.
Definition InstanceAlreadyExists (name : string) : error := DomainError KindInstanceAlreadyExists name "" None.
Definition NoSuchSnapshot (id : string) : error := DomainError KindNoSuchSnapshot id "" None.
Definition SnapshotAlreadyExists (id : string) : error := DomainError KindSnapshotAlreadyExists id "" None.
Definition InstanceNotAvailable (name message : string) : error :=
  DomainError KindInstanceNotAvailable name message None.
Definition UnsupportedEngine (message : string) : error := DomainError KindUnsupportedEngine "" message None.
Definition InvalidArgument (message : string) : error := DomainError KindInvalidArgument "" message None.

Abbreviation result := (outcome error).

(** ** domain/domain.go *)

Inductive Engine := EngineUnknown | EnginePostgres | EngineMySQL.
#[export] Instance Engine_eq_dec : EqDecision Engine.
Proof. solve_decision. Defined.
Definition Engine_String (e : Engine) : string :=
  match e with EnginePostgres => "postgres" | EngineMySQL => "mysql" | EngineUnknown => "unknown" end.
Definition ParseEngine (s : string) : Engine :=
  if String.eqb s "postgres" || String.eqb s "postgresql" then EnginePostgres
  else if String.eqb s "mysql" then EngineMySQL else EngineUnknown.

Inductive Status :=
  | StatusUnknown | StatusCreating | StatusAvailable | StatusModifying | StatusRebooting | StatusDeleting.
#[export] Instance Status_eq_dec : EqDecision Status.
Proof. solve_decision. Defined.
Definition Status_String (s : Status) : string :=
  match s with
  | StatusCreating => "creating" | StatusAvailable => "available" | StatusModifying => "modifying"
  | StatusRebooting => "rebooting" | StatusDeleting => "deleting" | StatusUnknown => "unknown"
  end.

Record Connection := mkConnection {
  Host : string; Port : Z; Connection_MasterUsername : string; DatabaseName : string;
  Connection_EngineVersion : string }.
Definition noConnection : Connection := mkConnection "" 0 "" "" "".
Record Instance_ := mkInstance {
  Instance_Name : string; Instance_Engine : Engine; Instance_EngineVersion : string;
  Instance_Status : Status; Instance_AllocatedStorageGB : Z; Instance_InstanceClass : string;
  Instance_Region : string; Instance_Connection : Connection; Instance_CreatedAt : Time }.
Record Snapshot := mkSnapshot {
  Snapshot_ID : string; Snapshot_Instance : string; Snapshot_Engine : Engine;
  Snapshot_EngineVersion : string; Snapshot_CreatedAt : Time; Snapshot_Status : Status }.
Record CreateInstanceOptions := mkCreateInstanceOptions {
  ci_Engine : Engine; ci_EngineVersion : string; ci_MasterUsername : string; ci_MasterPassword : string;
  ci_AllocatedStorageGB : Z; ci_InstanceClass : string; ci_Region : string }.
Record CreateInstanceResult := mkCreateInstanceResult { cir_Instance : Instance_; cir_MasterPassword : string }.
Record ModifyInstanceOptions := mkModifyInstanceOptions {
  mi_AllocatedStorageGB : Z; mi_InstanceClass : string; mi_MasterPassword : string }.
Record ListInstancesOptions := mkListInstancesOptions {
  li_Prefix : string; li_MaxResults : Z; li_NextToken : string }.
Record ListInstancesResult := mkListInstancesResult { lir_Instances : list Instance_; lir_NextToken : string }.
Record ListSnapshotsOptions := mkListSnapshotsOptions {
  lso_Instance : string; lso_MaxResults : Z; lso_NextToken : string }.
Record ListSnapshotsResult := mkListSnapshotsResult { lsr_Snapshots : list Snapshot; lsr_NextToken : string }.

(** ** inmem.go: state *)

Record instanceState := mkInstanceState {
  name : string; engine : Engine; engineVersion : string; status : Status; allocatedStorageGB : Z;
  instanceClass : string; region : string; masterUsername : string; masterPassword : string; createdAt : Time }.
Record snapshotState := mkSnapshotState {
  id : string; instance : string; snap_engine : Engine; snap_engineVersion : string; snap_status : Status;
  snap_createdAt : Time }.
Record Backend := mkBackend {
  instances : gmap string instanceState; snapshots : gmap string snapshotState }.

Definition New : Backend := mkBackend ∅ ∅.

(** The goroutines, by what they do after the sleep. *)
Inductive timer :=
  | Available_after (name : string)                 (* scheduleAvailable *)
  | SnapshotAvailable_after (id : string)           (* scheduleSnapshotAvailable *)
  | Delete_after (name : string)
  | Modified_after (name : string)
  | Rebooted_after (name : string).
#[export] Instance timer_eq_dec : EqDecision timer.
Proof. solve_decision. Defined.

Definition set_instance (b : Backend) (n : string) (s : instanceState) : Backend :=
  mkBackend (<[n := s]> (instances b)) (snapshots b).
Definition set_snapshot (b : Backend) (i : string) (s : snapshotState) : Backend :=
  mkBackend (instances b) (<[i := s]> (snapshots b)).
Definition with_status (s : instanceState) (st : Status) : instanceState :=
  mkInstanceState (name s) (engine s) (engineVersion s) st (allocatedStorageGB s) (instanceClass s) (region s)
    (masterUsername s) (masterPassword s) (createdAt s).
Definition with_snap_status (s : snapshotState) (st : Status) : snapshotState :=
  mkSnapshotState (id s) (instance s) (snap_engine s) (snap_engineVersion s) st (snap_createdAt s).

(** [if s, ok := b.instances[name]; ok && ... { s.status = StatusAvailable }] *)
Definition flip (when_ : Status → bool) (n : string) (b : Backend) : Backend :=
  mkBackend (flip_in status with_status when_ StatusAvailable n (instances b)) (snapshots b).

(** What a goroutine does when it wakes up. *)
Definition fire (t : timer) (b : Backend) : Backend :=
  match t with
  | Available_after n => flip (λ s, bool_decide (s ≠ StatusDeleting)) n b
  | SnapshotAvailable_after i =>
      mkBackend (instances b) (flip_in snap_status with_snap_status (λ _, true) StatusAvailable i (snapshots b))
  | Delete_after n => mkBackend (delete n (instances b)) (snapshots b)
  | Modified_after n => flip (λ s, bool_decide (s = StatusModifying)) n b
  | Rebooted_after n => flip (λ s, bool_decide (s = StatusRebooting)) n b
  end.

(** [hex.EncodeToString] of the sixteen random bytes. *)
Definition newPassword (random : bytes) : string := hex_EncodeToString random.
Definition portFor (e : Engine) : Z := match e with EngineMySQL => 3306 | _ => 5432 end.
Definition defaultDatabaseName (e : Engine) : string :=
  match e with EngineMySQL => "mysql" | _ => "postgres" end.

Definition instanceToDomain (s : instanceState) : Instance_ :=
  mkInstance (name s) (engine s) (engineVersion s) (status s) (allocatedStorageGB s) (instanceClass s) (region s)
    (if bool_decide (status s = StatusAvailable)
     then mkConnection "localhost" (portFor (engine s)) (masterUsername s) (defaultDatabaseName (engine s))
            (engineVersion s)
     else noConnection)
    (createdAt s).
Definition snapshotToDomain (s : snapshotState) : Snapshot :=
  mkSnapshot (id s) (instance s) (snap_engine s) (snap_engineVersion s) (snap_createdAt s) (snap_status s).

(** ** Operations: the state, the goroutines started, the results *)

Abbreviation op_result A := (Backend * list timer * result A)%type.

Definition CreateInstance (now : Time) (random : bytes) (n : string) (opt : CreateInstanceOptions) (b : Backend)
    : op_result CreateInstanceResult :=
  if bool_decide (ci_Engine opt = EngineUnknown) then (b, [], Err (UnsupportedEngine "engine is required"))
  else if String.eqb (ci_MasterUsername opt) "" then (b, [], Err (InvalidArgument "MasterUsername is required"))
  else match instances b !! n with
  | Some _ => (b, [], Err (InstanceAlreadyExists n))
  | None =>
      let '(password, revealed) :=
        if String.eqb (ci_MasterPassword opt) "" then (newPassword random, newPassword random)
        else (ci_MasterPassword opt, "") in
      let s := mkInstanceState n (ci_Engine opt) (ci_EngineVersion opt) StatusCreating
                 (ci_AllocatedStorageGB opt) (ci_InstanceClass opt) (ci_Region opt) (ci_MasterUsername opt)
                 password now in
      (set_instance b n s, [Available_after n], Ok (mkCreateInstanceResult (instanceToDomain s) revealed))
  end.

Definition DeleteInstance (n : string) (b : Backend) : op_result unit :=
  match instances b !! n with
  | None => (b, [], Err (NoSuchInstance n))
  | Some s => (set_instance b n (with_status s StatusDeleting), [Delete_after n], Ok ())
  end.

Definition DescribeInstance (n : string) (b : Backend) : op_result Instance_ :=
  match instances b !! n with
  | None => (b, [], Err (NoSuchInstance n))
  | Some s => (b, [], Ok (instanceToDomain s))
  end.

Definition ListInstances (opt : ListInstancesOptions) (b : Backend) : op_result ListInstancesResult :=
  let names := names_with (li_Prefix opt) (instances b) in
  (b, [], Ok (mkListInstancesResult
    (list_upto (li_MaxResults opt) 0 (omap (λ n, instanceToDomain <$> instances b !! n) names)) "")).

Definition ModifyInstance (n : string) (opt : ModifyInstanceOptions) (b : Backend) : op_result unit :=
  match instances b !! n with
  | None => (b, [], Err (NoSuchInstance n))
  | Some s =>
      let s := mkInstanceState (name s) (engine s) (engineVersion s) StatusModifying
        (if 0 <? mi_AllocatedStorageGB opt then mi_AllocatedStorageGB opt else allocatedStorageGB s)
        (if String.eqb (mi_InstanceClass opt) "" then instanceClass s else mi_InstanceClass opt)
        (region s) (masterUsername s)
        (if String.eqb (mi_MasterPassword opt) "" then masterPassword s else mi_MasterPassword opt)
        (createdAt s) in
      (set_instance b n s, [Modified_after n], Ok ())
  end.

Definition RebootInstance (n : string) (b : Backend) : op_result unit :=
  match instances b !! n with
  | None => (b, [], Err (NoSuchInstance n))
  | Some s => (set_instance b n (with_status s StatusRebooting), [Rebooted_after n], Ok ())
  end.

Definition CreateSnapshot (now : Time) (inst snapshotID : string) (b : Backend) : op_result Snapshot :=
  match instances b !! inst with
  | None => (b, [], Err (NoSuchInstance inst))
  | Some i =>
      match snapshots b !! snapshotID with
      | Some _ => (b, [], Err (SnapshotAlreadyExists snapshotID))
      | None =>
          let s := mkSnapshotState snapshotID inst (engine i) (engineVersion i) StatusCreating now in
          (set_snapshot b snapshotID s, [SnapshotAvailable_after snapshotID], Ok (snapshotToDomain s))
      end
  end.

Definition DeleteSnapshot (snapshotID : string) (b : Backend) : op_result unit :=
  match snapshots b !! snapshotID with
  | None => (b, [], Err (NoSuchSnapshot snapshotID))
  | Some _ => (mkBackend (instances b) (delete snapshotID (snapshots b)), [], Ok ())
  end.

Definition DescribeSnapshot (snapshotID : string) (b : Backend) : op_result Snapshot :=
  match snapshots b !! snapshotID with
  | None => (b, [], Err (NoSuchSnapshot snapshotID))
  | Some s => (b, [], Ok (snapshotToDomain s))
  end.

Definition ListSnapshots (opt : ListSnapshotsOptions) (b : Backend) : op_result ListSnapshotsResult :=
  let ids := sort_Strings ((filter (λ '(_, s), lso_Instance opt = "" ∨ instance s = lso_Instance opt)
               (map_to_list (snapshots b))).*1) in
  (b, [], Ok (mkListSnapshotsResult
    (list_upto (lso_MaxResults opt) 0 (omap (λ i, snapshotToDomain <$> snapshots b !! i) ids)) "")).

(** The snapshot is looked up under one lock and the instance created under
    another: [b0] is the state at the lookup, [b] the one at the creation. *)
Definition RestoreFromSnapshot (now : Time) (random : bytes) (snapshotID newName : string) (b0 b : Backend)
    : op_result CreateInstanceResult :=
  match snapshots b0 !! snapshotID with
  | None => (b, [], Err (NoSuchSnapshot snapshotID))
  | Some snap =>
      CreateInstance now random newName
        (mkCreateInstanceOptions (snap_engine snap) (snap_engineVersion snap) "shimadmin" "" 0 "" "") b
  end.

(** * Relational databases: properties of the in-process backend

    The backend as a [Lifecycle]: whatever the interleaving of callers and
    goroutines, everything becomes available in the end.  A goroutine knows its
    instance by name only, so one that outlives its instance acts on the next
    instance of that name. *)

(** ** The backend as a lifecycle *)

Inductive op :=
  | OpCreateInstance (now : Time) (random : bytes) (n : string) (opt : CreateInstanceOptions)
  | OpDeleteInstance (n : string)
  | OpDescribeInstance (n : string)
  | OpListInstances (opt : ListInstancesOptions)
  | OpModifyInstance (n : string) (opt : ModifyInstanceOptions)
  | OpRebootInstance (n : string)
  | OpCreateSnapshot (now : Time) (inst snapshotID : string)
  | OpDeleteSnapshot (snapshotID : string)
  | OpDescribeSnapshot (snapshotID : string)
  | OpListSnapshots (opt : ListSnapshotsOptions)
  (** [b0] is the state in which the snapshot was looked up *)
  | OpRestoreFromSnapshot (now : Time) (random : bytes) (snapshotID newName : string) (b0 : Backend).

Definition run (o : op) (b : Backend) : Backend * list timer :=
  match o with
  | OpCreateInstance now r n opt => (CreateInstance now r n opt b).1
  | OpDeleteInstance n => (DeleteInstance n b).1
  | OpDescribeInstance n => (DescribeInstance n b).1
  | OpListInstances opt => (ListInstances opt b).1
  | OpModifyInstance n opt => (ModifyInstance n opt b).1
  | OpRebootInstance n => (RebootInstance n b).1
  | OpCreateSnapshot now i s => (CreateSnapshot now i s b).1
  | OpDeleteSnapshot s => (DeleteSnapshot s b).1
  | OpDescribeSnapshot s => (DescribeSnapshot s b).1
  | OpListSnapshots opt => (ListSnapshots opt b).1
  | OpRestoreFromSnapshot now r s n b0 => (RestoreFromSnapshot now r s n b0 b).1
  end.

Definition istatus (b : Backend) : string → option Status := status_in status (instances b).
Definition sstatus (b : Backend) : string → option Status := status_in snap_status (snapshots b).

(** Which transitional status each goroutine ends. *)
Definition owes (b : Backend) (t : timer) : Prop :=
  match t with
  | Available_after n => istatus b n = Some StatusCreating
  | SnapshotAvailable_after i => sstatus b i = Some StatusCreating
  | Delete_after n => istatus b n = Some StatusDeleting
  | Modified_after n => istatus b n = Some StatusModifying
  | Rebooted_after n => istatus b n = Some StatusRebooting
  end.

(** Statuses that occur. *)
Definition statuses_ok (b : Backend) : Prop :=
  (∀ n, istatus b n ≠ Some StatusUnknown) ∧
  (∀ i st, sstatus b i = Some st → st = StatusCreating ∨ st = StatusAvailable).

(** ** Lemmas *)

Ltac run_cases :=
  repeat first
    [ progress (unfold run, CreateInstance, DeleteInstance, DescribeInstance, ListInstances, ModifyInstance,
        RebootInstance, CreateSnapshot, DeleteSnapshot, DescribeSnapshot, ListSnapshots, RestoreFromSnapshot,
        set_instance, set_snapshot, istatus, sstatus in * )
    | progress cbn [fst snd instances snapshots] in *
    | case_match ].

Lemma rdbms_run_owes o b t : owes (run o b).1 t → owes b t ∨ t ∈ (run o b).2.
Proof.
  unfold owes. destruct o, t; run_cases; intros Ht; try (by left);
    rewrite ?status_in_insert, ?status_in_delete in Ht; cbn in Ht; case_decide; simplify_eq;
    first [by left|right; set_solver].
Qed.

Lemma rdbms_fire_owes t b t' : owes (fire t b) t' → owes b t' ∧ t' ≠ t.
Proof.
  unfold owes, istatus, sstatus. destruct t, t'; cbn [fire flip instances snapshots]; intros Ht;
    rewrite ?status_in_flip, ?status_in_delete in Ht by done; try (by split);
    case_decide; try (split; [done|congruence]); simplify_eq;
    match type of Ht with context [status_in ?f ?m ?k] => destruct (status_in f m k) as [[]|] eqn:E end;
    cbn in Ht; repeat case_bool_decide; simplify_eq; split; done.
Qed.

Lemma rdbms_new_owes t : ¬ owes New t.
Proof. destruct t; unfold owes, istatus, sstatus, status_in; cbn; by rewrite lookup_empty. Qed.

#[export] Instance rdbms_lifecycle : Lifecycle Backend op timer := {|
  lc_new := New; lc_run := run; lc_fire := fire; lc_owes := owes;
  lc_new_owes := rdbms_new_owes; lc_run_owes := rdbms_run_owes; lc_fire_owes := rdbms_fire_owes |}.

Lemma run_statuses o b : statuses_ok b → statuses_ok (run o b).1.
Proof.
  unfold statuses_ok. intros [Hi Hs]. destruct o; run_cases; (split; [intros n'|intros i' st]); try done;
    rewrite ?status_in_insert, ?status_in_delete; try case_decide; cbn; try done; try (by apply Hi);
    try (by apply Hs); try (case_decide; [done|by apply Hi]). intros [= <-]; by left.
Qed.

Lemma fire_statuses t b : statuses_ok b → statuses_ok (fire t b).
Proof.
  unfold statuses_ok, istatus, sstatus. intros [Hi Hs].
  destruct t; cbn [fire flip instances snapshots]; (split; [intros n'|intros i' st]);
    rewrite ?status_in_flip, ?status_in_delete by done; try done; try case_decide; try done;
    try (by apply Hi); try (by apply Hs).
  all: match goal with |- context [status_in ?f ?m ?k] => destruct (status_in f m k) as [x|] eqn:E end; cbn; try done.
  all: repeat case_bool_decide; try done; try (specialize (Hi n'); congruence).
  intros [= <-]; by right.
Qed.

Lemma reachable_statuses w : reachable w → statuses_ok (w_backend w).
Proof.
  apply reachable_inv; [|exact run_statuses|exact fire_statuses].
  split; [intros n|intros i st]; unfold istatus, sstatus, status_in; cbn; by rewrite lookup_empty.
Qed.

Lemma rdbms_settled_available b : statuses_ok b → settled b →
  (∀ n s, instances b !! n = Some s → status s = StatusAvailable) ∧
  (∀ i s, snapshots b !! i = Some s → snap_status s = StatusAvailable).
Proof.
  intros [Hi Hs] Hset. split.
  - intros n s E. assert (istatus b n = Some (status s)) as Es by (unfold istatus, status_in; by rewrite E).
    destruct (status s) eqn:Est; try done; exfalso.
    + by apply (Hi n).
    + by apply (Hset (Available_after n)).
    + by apply (Hset (Modified_after n)).
    + by apply (Hset (Rebooted_after n)).
    + by apply (Hset (Delete_after n)).
  - intros i s E. assert (sstatus b i = Some (snap_status s)) as Es by (unfold sstatus, status_in; by rewrite E).
    destruct (Hs i _ Es) as [Hc|]; [|done]. exfalso. apply (Hset (SnapshotAvailable_after i)). cbn. by rewrite Es, Hc.
Qed.

(** Every stored instance and snapshot has an engine. *)
Definition engines_ok (b : Backend) : Prop :=
  map_Forall (λ _ s, engine s ≠ EngineUnknown) (instances b) ∧
  map_Forall (λ _ s, snap_engine s ≠ EngineUnknown) (snapshots b).

Lemma run_engines o b : engines_ok b → engines_ok (run o b).1.
Proof.
  intros [Hi Hs]. destruct o; run_cases; split; try done; cbn;
    try (by apply map_Forall_delete); apply map_Forall_insert_2; cbn; try done;
    try (by case_bool_decide); by eapply Hi.
Qed.

Lemma fire_engines t b : engines_ok b → engines_ok (fire t b).
Proof.
  intros [Hi Hs]. destruct t; split; try done; try (by apply map_Forall_delete).
  2: by apply (map_Forall_flip_in _ _ (λ s, snap_engine s ≠ EngineUnknown)).
  all: by apply (map_Forall_flip_in _ _ (λ s, engine s ≠ EngineUnknown)).
Qed.

Lemma reachable_engines w : reachable w → engines_ok (w_backend w).
Proof. apply reachable_inv; [split; apply map_Forall_empty|exact run_engines|exact fire_engines]. Qed.

Lemma reachable_settles w order :
  reachable w → order ≡ₚ w_asleep w →
  let b := fire_all order (w_backend w) in
  (∀ n s, instances b !! n = Some s → status s = StatusAvailable) ∧
  (∀ i s, snapshots b !! i = Some s → snap_status s = StatusAvailable).
Proof.
  intros Hr Hp b. apply rdbms_settled_available.
  - apply fire_all_inv; [exact fire_statuses|]. by apply reachable_statuses.
  - apply covered_settles; [|done]. by apply reachable_covered.
Qed.

(** ** Properties *)

(** In every world that callers and goroutines can reach, in whatever order
    they act, the goroutines still asleep end every transitional status: once
    all of them have woken up, in any order, every instance and every snapshot
    that exists is available. *)
Theorem databases_settle (w : World) (order : list timer) :
  reachable w → order ≡ₚ w_asleep w →
  let b := fire_all order (w_backend w) in
  (∀ n s, instances b !! n = Some s → status s = StatusAvailable) ∧
  (∀ i s, snapshots b !! i = Some s → snap_status s = StatusAvailable).
Proof. exact (reachable_settles w order). Qed.

(** A world to try the theorems on: one instance created and being modified. *)
Definition demo_options : CreateInstanceOptions := mkCreateInstanceOptions EnginePostgres "15" "admin" "pw" 20 "small" "".
Definition demo_create : op := OpCreateInstance 7 [] "db" demo_options.
Definition demo_modify : op := OpModifyInstance "db" (mkModifyInstanceOptions 50 "" "").
Definition demo_world : World :=
  let b := (run demo_create New).1 in
  mkWorld (run demo_modify b).1 [Available_after "db"; Modified_after "db"].

Lemma rdbms_demo_reachable : reachable demo_world.
Proof.
  eapply rtc_l; [exact (step_run demo_create New [])|].
  eapply rtc_l; [exact (step_run demo_modify (run demo_create New).1 [Available_after "db"])|]. constructor.
Qed.

Lemma databases_settle_witness :
  let b := fire_all [Modified_after "db"; Available_after "db"] (w_backend demo_world) in
  (∀ n s, instances b !! n = Some s → status s = StatusAvailable) ∧
  (∀ i s, snapshots b !! i = Some s → snap_status s = StatusAvailable).
Proof.
  apply (databases_settle demo_world); [apply rdbms_demo_reachable|]. cbn. apply Permutation_swap.
Defined.

(** The life of a snapshot: what [CreateSnapshot] stored stays, whatever
    happens, until [DeleteSnapshot]. *)
Definition snapshot_is (sid : string) (e : Engine) (v : string) (b : Backend) : Prop :=
  ∃ s, snapshots b !! sid = Some s ∧ snap_engine s = e ∧ snap_engineVersion s = v.

Lemma snapshot_survives sid e v ev b :
  ev ≠ Called (OpDeleteSnapshot sid) → snapshot_is sid e v b → snapshot_is sid e v (happen ev b).
Proof.
  intros Hev (s & Hs & He & Hv). destruct ev as [o|t].
  - destruct o; cbn; run_cases; try (by exists s); exists s; cbn.
    + by rewrite lookup_insert_ne by congruence.
    + by rewrite lookup_delete_ne by congruence.
  - destruct t as [?|i|?|?|?]; cbn; try (by exists s). unfold snapshot_is, flip_in. cbn.
    case_match; [|by exists s]. destruct (decide (i = sid)) as [->|].
    + simplify_eq. eexists. by rewrite lookup_insert_eq.
    + exists s. by rewrite lookup_insert_ne.
Qed.

(** A snapshot outlives its instance: after a successful [CreateSnapshot],
    whatever callers and goroutines do short of deleting the snapshot - the
    instance itself may be deleted - restoring it under a free name succeeds
    and gives an instance being created with the engine and the version the
    original had.  The restored instance has a fresh password, which is
    revealed, the user "shimadmin", and none of the original's storage size,
    class and region. *)
Theorem snapshot_restores (w : World) (evs : list event) (b1 : Backend) (ts : list timer) (snap : Snapshot)
    (now now' : Time) (random : bytes) (inst sid new : string) :
  reachable w → CreateSnapshot now inst sid (w_backend w) = (b1, ts, Ok snap) →
  Called (OpDeleteSnapshot sid) ∉ evs → let b := exec evs b1 in instances b !! new = None →
  ∃ i, instances (w_backend w) !! inst = Some i ∧
    let restored := mkInstanceState new (engine i) (engineVersion i) StatusCreating 0 "" "" "shimadmin"
                      (newPassword random) now' in
    RestoreFromSnapshot now' random sid new b b =
      (set_instance b new restored, [Available_after new],
       Ok (mkCreateInstanceResult (instanceToDomain restored) (newPassword random))).
Proof.
  intros Hr Hc Hno b Hnew. unfold CreateSnapshot in Hc. repeat case_match; simplify_eq.
  eexists; split; [done|]. destruct (reachable_engines w Hr) as [Hi _].
  match goal with H : instances _ !! inst = Some ?s |- _ => rename s into i; rename H into Hinst end.
  assert (snapshot_is sid (engine i) (engineVersion i) b) as (s & Hs & He & Hv).
  { subst b. apply exec_inv.
    - intros ev b Hin. apply snapshot_survives. by intros ->.
    - eexists. cbn. by rewrite lookup_insert_eq. }
  unfold RestoreFromSnapshot, CreateInstance. rewrite Hs. cbn. rewrite Hnew, He, Hv.
  rewrite bool_decide_eq_false_2; [done|]. by eapply Hi.
Qed.

Lemma snapshot_restores_witness :
  ∃ i, instances (w_backend demo_world) !! "db" = Some i ∧ engine i = EnginePostgres.
Proof.
  destruct (CreateSnapshot 8 "db" "snap" (w_backend demo_world)) as [[b1 ts] r] eqn:E.
  assert (∃ snap, r = Ok snap) as [snap ->] by (apply (f_equal snd) in E; vm_compute in E; by eexists).
  assert (instances (exec [Called (OpDeleteInstance "db"); Woke (Delete_after "db")] b1) !! "copy" = None) as Hn.
  { assert (b1 = (CreateSnapshot 8 "db" "snap" (w_backend demo_world)).1.1) as -> by (by rewrite E). by vm_compute. }
  destruct (snapshot_restores demo_world [Called (OpDeleteInstance "db"); Woke (Delete_after "db")]
    b1 ts snap 8 9 [] "db" "snap" "copy" rdbms_demo_reachable E) as (i & Hi & _); [set_solver|done|].
  exists i. split; [done|]. vm_compute in Hi. by simplify_eq.
Defined.

Lemma CreateInstance_fresh now random n opt b :
  instances b !! n = None → ci_Engine opt ≠ EngineUnknown → ci_MasterUsername opt ≠ "" →
  ∃ s r, CreateInstance now random n opt b = (set_instance b n s, [Available_after n], Ok r) ∧
    status s = StatusCreating.
Proof.
  intros Hn He Hu. unfold CreateInstance. rewrite Hn, bool_decide_eq_false_2 by done.
  destruct (String.eqb_spec (ci_MasterUsername opt) ""); [done|]. case_match; by eexists _, _.
Qed.

(** Goroutines that outlive their instance act on its successor.  Delete an
    instance twice, let one of the two goroutines remove it and create an
    instance of the same name: the second goroutine is still asleep, and when
    it wakes up the new instance disappears although nobody deleted it. *)
Theorem stale_goroutine_deletes_successor (w : World) (s : instanceState) (now : Time) (random : bytes)
    (n : string) (opt : CreateInstanceOptions) :
  instances (w_backend w) !! n = Some s → ci_Engine opt ≠ EngineUnknown → ci_MasterUsername opt ≠ "" →
  ∃ gone created, rtc step w gone ∧ instances (w_backend gone) !! n = None ∧
    is_ok (CreateInstance now random n opt (w_backend gone)).2 = true ∧
    created = mkWorld (run (OpCreateInstance now random n opt) (w_backend gone)).1
      (w_asleep gone ++ [Available_after n]) ∧
    istatus (w_backend created) n = Some StatusCreating ∧
    ∃ lost, step created lost ∧ instances (w_backend lost) !! n = None.
Proof.
  destruct w as [b ts]; cbn [w_backend]. intros Hn He Hu.
  assert (Hdel : ∀ b s, instances b !! n = Some s → run (OpDeleteInstance n) b =
    (set_instance b n (with_status s StatusDeleting), [Delete_after n])).
  { intros b' s' E. cbn. unfold DeleteInstance. by rewrite E. }
  set (b1 := set_instance b n (with_status s StatusDeleting)).
  assert (H1 : instances b1 !! n = Some (with_status s StatusDeleting)) by (cbn; by rewrite lookup_insert_eq).
  set (b2 := set_instance b1 n (with_status (with_status s StatusDeleting) StatusDeleting)).
  set (b3 := fire (Delete_after n) b2).
  assert (H3 : instances b3 !! n = None) by (cbn; by rewrite lookup_delete_eq).
  destruct (CreateInstance_fresh now random n opt b3 H3 He Hu) as (s' & r & Hc & Hs').
  exists (mkWorld b3 (ts ++ [Delete_after n])), (mkWorld (run (OpCreateInstance now random n opt) b3).1
    ((ts ++ [Delete_after n]) ++ [Available_after n])).
  cbn [w_backend w_asleep]. split_and!; [|done| |done| |].
  - eapply rtc_l; [exact (step_run (OpDeleteInstance n) b ts)|]. cbn [lc_run rdbms_lifecycle]. rewrite (Hdel b s Hn).
    eapply rtc_l; [exact (step_run (OpDeleteInstance n) b1 _)|]. cbn [lc_run rdbms_lifecycle]. rewrite (Hdel b1 _ H1).
    eapply rtc_l; [exact (step_fire (Delete_after n) _ [] b2)|]. rewrite app_nil_r. constructor.
  - rewrite Hc. done.
  - cbn [run]. rewrite Hc. unfold istatus. cbn. by rewrite status_in_insert, decide_True, Hs'.
  - eexists. split; [rewrite <-(assoc_L (++)); apply (step_fire (Delete_after n) ts [Available_after n])|].
    cbn. by rewrite lookup_delete_eq.
Qed.

Lemma stale_goroutine_deletes_successor_witness :
  ∃ gone, rtc step demo_world gone ∧ instances (w_backend gone) !! "db" = None.
Proof.
  destruct (instances (w_backend demo_world) !! "db") as [s|] eqn:E; [|by vm_compute in E].
  destruct (stale_goroutine_deletes_successor demo_world s 9 [] "db" demo_options E) as (gone & _ & H & Hn & _);
    [done..|]. by exists gone.
Defined.
