(* ===== verification/Rds.v ===== *)
(** * The RDS frontend

    Models [internal/rdbms/frontends/aws_rds] (the adapter of [domain.RDBMS])
    and the handlers and table of routes of [services/rdbms/gen/aws_rds.gen.go].
    Messages keep the fields the adapter reads; decoding the others has no
    effect and no errors.  The pointers that the adapter fills in are never
    nil, so they are values here.  [Quote] is the %q verb of the domain's
    messages. *)

From S2P Require Import Prelude GoStrings GoBytes GoHttp GoUrl AwsQuery Lifecycle Rdbms.

(** ** domain.RDBMS

    [Draws] is what a call of the implementation draws from outside, and
    [v_others] what other callers and the backend's goroutines do between two
    calls of one handler. *)

Class RDBMS_ (St : Type) := {
  Draws : Type;
  v_others : Draws → St → St;
  v_CreateInstance : Draws → string → CreateInstanceOptions → St → St * result CreateInstanceResult;
  v_DeleteInstance : string → St → St * result unit;
  v_DescribeInstance : string → St → St * result Instance_;
  v_ListInstances : ListInstancesOptions → St → St * result ListInstancesResult;
  v_ModifyInstance : string → ModifyInstanceOptions → St → St * result unit;
  v_RebootInstance : string → St → St * result unit;
  v_CreateSnapshot : Draws → string → string → St → St * result Snapshot;
  v_DeleteSnapshot : string → St → St * result unit;
  v_DescribeSnapshot : string → St → St * result Snapshot;
  v_ListSnapshots : ListSnapshotsOptions → St → St * result ListSnapshotsResult;
  v_RestoreFromSnapshot : Draws → string → string → St → St * result CreateInstanceResult }.
Arguments Draws St {_}.

(** The in-process backend with its sleeping goroutines. *)
Record draws := mkDraws { d_now : Time; d_random : bytes; d_others : World (St := Backend) (Tm := timer) → World (St := Backend) (Tm := timer) }.

#[export] Instance inmem_rdbms : RDBMS_ (World (St := Backend) (Tm := timer)) := {|
  Draws := draws;
  v_others := d_others;
  v_CreateInstance := λ d n opt, call_in (CreateInstance (d_now d) (d_random d) n opt);
  v_DeleteInstance := λ n, call_in (DeleteInstance n);
  v_DescribeInstance := λ n, call_in (DescribeInstance n);
  v_ListInstances := λ opt, call_in (ListInstances opt);
  v_ModifyInstance := λ n opt, call_in (ModifyInstance n opt);
  v_RebootInstance := λ n, call_in (RebootInstance n);
  v_CreateSnapshot := λ d n i, call_in (CreateSnapshot (d_now d) n i);
  v_DeleteSnapshot := λ i, call_in (DeleteSnapshot i);
  v_DescribeSnapshot := λ i, call_in (DescribeSnapshot i);
  v_ListSnapshots := λ opt, call_in (ListSnapshots opt);
  (* the lookup of the snapshot, the others, the creation *)
  v_RestoreFromSnapshot := λ d i n w,
    match snapshots (w_backend w) !! i with
    | None => (w, Err (NoSuchSnapshot i))
    | Some _ => call_in (RestoreFromSnapshot (d_now d) (d_random d) i n (w_backend w)) (d_others d w)
    end |}.

(** ** Generated types *)

Record CreateDBInstanceMessage := mkCreateDBInstanceMessage {
  cdm_AllocatedStorage : option Z; cdm_DBInstanceClass : string; cdm_DBInstanceIdentifier : string; cdm_Engine : string;
  cdm_EngineVersion : option string; cdm_MasterUserPassword : option string; cdm_MasterUsername : option string }.
Record DeleteDBInstanceMessage := mkDeleteDBInstanceMessage { ddm_DBInstanceIdentifier : string }.
Record DescribeDBInstancesMessage := mkDescribeDBInstancesMessage { sdm_DBInstanceIdentifier : option string }.
Record ModifyDBInstanceMessage := mkModifyDBInstanceMessage {
  mdm_AllocatedStorage : option Z; mdm_DBInstanceClass : option string; mdm_DBInstanceIdentifier : string;
  mdm_MasterUserPassword : option string }.
Record RebootDBInstanceMessage := mkRebootDBInstanceMessage { rdm_DBInstanceIdentifier : string }.
Record CreateDBSnapshotMessage := mkCreateDBSnapshotMessage {
  csm_DBInstanceIdentifier : string; csm_DBSnapshotIdentifier : string }.
Record DeleteDBSnapshotMessage := mkDeleteDBSnapshotMessage { dsm_DBSnapshotIdentifier : string }.
Record DescribeDBSnapshotsMessage := mkDescribeDBSnapshotsMessage {
  ssm_DBInstanceIdentifier : option string; ssm_DBSnapshotIdentifier : option string }.
Record RestoreDBInstanceFromDBSnapshotMessage := mkRestoreDBInstanceFromDBSnapshotMessage {
  rsm_DBInstanceIdentifier : string; rsm_DBSnapshotIdentifier : option string }.

Record Endpoint := mkEndpoint { Endpoint_Address : string; Endpoint_Port : Z }.
Record DBInstance := mkDBInstance {
  DBInstanceIdentifier : string; DBInstanceArn : string; DbiResourceId : string; db_Engine : string;
  db_EngineVersion : string; DBInstanceStatus : string; DBInstanceClass : string; AllocatedStorage : Z;
  MasterUsername : string; DBName : string; db_Endpoint : option Endpoint }.
Record DBSnapshot := mkDBSnapshot {
  DBSnapshotIdentifier : string; snap_DBInstanceIdentifier : string; dbs_Engine : string; dbs_EngineVersion : string;
  dbs_Status : string }.

(** The results: an instance for CreateDBInstance, DeleteDBInstance,
    ModifyDBInstance, RebootDBInstance and the restore, a snapshot for
    CreateDBSnapshot and DeleteDBSnapshot. *)
Inductive output :=
  | DBInstanceResult (DBInstance_ : DBInstance)
  | DBInstanceMessage (DBInstances : list DBInstance)
  | DBSnapshotResult (DBSnapshot_ : DBSnapshot)
  | DBSnapshotMessage (DBSnapshots : list DBSnapshot).

(** ** Helpers of the adapter *)

Definition strDeref (p : option string) : string := default "" p.
Definition rdsRegion : string := "us-east-1".
Definition rdsAccount : string := "000000000000".
Definition instanceARN (name : string) : string := "arn:aws:rds:" +:+ rdsRegion +:+ ":" +:+ rdsAccount +:+ ":db:" +:+ name.
Definition dbiResourceID (name : string) : string := "db-" +:+ name.

Definition awsEngineToDomain (s : string) : Engine :=
  if String.eqb s "postgres" || String.eqb s "aurora-postgresql" then EnginePostgres
  else if String.eqb s "mysql" || String.eqb s "aurora-mysql" then EngineMySQL
  else EngineUnknown.
Definition domainEngineToAWS (e : Engine) : string :=
  match e with EnginePostgres => "postgres" | EngineMySQL => "mysql" | EngineUnknown => "unknown" end.
Definition awsStatusFromDomain (s : Status) : string :=
  match s with
  | StatusCreating => "creating" | StatusAvailable => "available" | StatusModifying => "modifying"
  | StatusRebooting => "rebooting" | StatusDeleting => "deleting" | StatusUnknown => "unknown"
  end.

Definition instanceToAWS (inst : Instance_) : DBInstance :=
  let c := Instance_Connection inst in
  mkDBInstance (Instance_Name inst) (instanceARN (Instance_Name inst)) (dbiResourceID (Instance_Name inst))
    (domainEngineToAWS (Instance_Engine inst)) (Instance_EngineVersion inst) (awsStatusFromDomain (Instance_Status inst))
    (Instance_InstanceClass inst) (wrap_s 32 (Instance_AllocatedStorageGB inst)) (Connection_MasterUsername c)
    (DatabaseName c)
    (if bool_decide (Instance_Status inst = StatusAvailable) && negb (String.eqb (Host c) "")
     then Some (mkEndpoint (Host c) (wrap_s 32 (Port c))) else None).
Definition snapshotToAWS (s : Snapshot) : DBSnapshot :=
  mkDBSnapshot (Snapshot_ID s) (Snapshot_Instance s) (domainEngineToAWS (Snapshot_Engine s)) (Snapshot_EngineVersion s)
    (awsStatusFromDomain (Snapshot_Status s)).

(** [domain.Instance{}] and [domain.Snapshot{}], with the fields some answers set. *)
Definition Instance_of (name : string) (st : Status) : Instance_ :=
  mkInstance name EngineUnknown "" st 0 "" "" noConnection zeroTime.
Definition Snapshot_of (id : string) (st : Status) : Snapshot := mkSnapshot id "" EngineUnknown "" zeroTime st.

Definition invalid_parameter (message : string) : api_error :=
  EBackend (mkBackendError 400 "Sender" "InvalidParameterValue" message).

(** ** The adapter *)

Section adapter.
Context `{RDBMS_ St} (Quote : string → string).
Implicit Types (s : St) (d : Draws St).

(** Every error of the domain is a [*domain.Error]. *)
Definition mapDomainErr (err : error) : api_error :=
  let 'DomainError kind _ _ _ := err in
  let sender status code := EBackend (mkBackendError status "Sender" code (Error_text Quote err)) in
  match kind with
  | KindNoSuchInstance => sender 404 "DBInstanceNotFound"
  | KindInstanceAlreadyExists => sender 400 "DBInstanceAlreadyExists"
  | KindNoSuchSnapshot => sender 404 "DBSnapshotNotFound"
  | KindSnapshotAlreadyExists => sender 400 "DBSnapshotAlreadyExists"
  | KindInvalidArgument => sender 400 "InvalidParameterValue"
  | _ => EBackend (mkBackendError 500 "Receiver" "InternalFailure" (Error_text Quote err))
  end.

(** A call of the domain whose error ends the method. *)
Definition call {A B} (c : St * result A) (k : A → St → St * api B) : St * api B :=
  match c.2 with
  | Ok a => k a c.1
  | Err e => (c.1, Err (mapDomainErr e))
  | Panic => (c.1, Panic)
  end.

(** [inst, _ := a.s.DescribeInstance(ctx, name)] after a call that succeeded. *)
Definition described d (name : string) s : St * api output :=
  match v_DescribeInstance name (v_others d s) with
  | (s, Ok inst) => (s, Ok (DBInstanceResult (instanceToAWS inst)))
  | (s, Err _) => (s, Ok (DBInstanceResult (instanceToAWS (Instance_of "" StatusUnknown))))
  | (s, Panic) => (s, Panic)
  end.

Definition Adapter_CreateDBInstance d (i : CreateDBInstanceMessage) s : St * api output :=
  let name := cdm_DBInstanceIdentifier i in
  if String.eqb name "" then (s, Err (invalid_parameter "DBInstanceIdentifier is required"))
  else
    let engine := awsEngineToDomain (cdm_Engine i) in
    if bool_decide (engine = EngineUnknown) then (s, Err (invalid_parameter ("unsupported Engine: " +:+ cdm_Engine i)))
    else call (v_CreateInstance d name
        (mkCreateInstanceOptions engine (strDeref (cdm_EngineVersion i)) (strDeref (cdm_MasterUsername i))
          (strDeref (cdm_MasterUserPassword i)) (default 0 (cdm_AllocatedStorage i)) (cdm_DBInstanceClass i) "") s)
      (λ res s, (s, Ok (DBInstanceResult (instanceToAWS (cir_Instance res))))).

Definition Adapter_DeleteDBInstance (i : DeleteDBInstanceMessage) s : St * api output :=
  let name := ddm_DBInstanceIdentifier i in
  call (v_DeleteInstance name s) (λ _ s, (s, Ok (DBInstanceResult (instanceToAWS (Instance_of name StatusDeleting))))).

Definition Adapter_DescribeDBInstances (i : DescribeDBInstancesMessage) s : St * api output :=
  let name := strDeref (sdm_DBInstanceIdentifier i) in
  if negb (String.eqb name "")
  then call (v_DescribeInstance name s) (λ inst s, (s, Ok (DBInstanceMessage [instanceToAWS inst])))
  else call (v_ListInstances (mkListInstancesOptions "" 0 "") s) (λ res s,
    (s, Ok (DBInstanceMessage (instanceToAWS <$> lir_Instances res)))).

Definition Adapter_ModifyDBInstance d (i : ModifyDBInstanceMessage) s : St * api output :=
  let name := mdm_DBInstanceIdentifier i in
  let opt := mkModifyInstanceOptions (default 0 (mdm_AllocatedStorage i)) (strDeref (mdm_DBInstanceClass i))
               (strDeref (mdm_MasterUserPassword i)) in
  call (v_ModifyInstance name opt s) (λ _, described d name).

Definition Adapter_RebootDBInstance d (i : RebootDBInstanceMessage) s : St * api output :=
  let name := rdm_DBInstanceIdentifier i in
  call (v_RebootInstance name s) (λ _, described d name).

Definition Adapter_CreateDBSnapshot d (i : CreateDBSnapshotMessage) s : St * api output :=
  call (v_CreateSnapshot d (csm_DBInstanceIdentifier i) (csm_DBSnapshotIdentifier i) s) (λ snap s,
    (s, Ok (DBSnapshotResult (snapshotToAWS snap)))).

(** The snapshot is read before it is deleted; its error matters only when the
    deletion succeeds. *)
Definition Adapter_DeleteDBSnapshot d (i : DeleteDBSnapshotMessage) s : St * api output :=
  let id := dsm_DBSnapshotIdentifier i in
  match v_DescribeSnapshot id s with
  | (s, Panic) => (s, Panic)
  | (s, read) =>
      call (v_DeleteSnapshot id (v_others d s)) (λ _ s,
        (s, Ok (DBSnapshotResult (snapshotToAWS
                 match read with Ok snap => snap | _ => Snapshot_of id StatusDeleting end))))
  end.

Definition Adapter_DescribeDBSnapshots (i : DescribeDBSnapshotsMessage) s : St * api output :=
  let id := strDeref (ssm_DBSnapshotIdentifier i) in
  if negb (String.eqb id "")
  then call (v_DescribeSnapshot id s) (λ snap s, (s, Ok (DBSnapshotMessage [snapshotToAWS snap])))
  else call (v_ListSnapshots (mkListSnapshotsOptions (strDeref (ssm_DBInstanceIdentifier i)) 0 "") s) (λ res s,
    (s, Ok (DBSnapshotMessage (snapshotToAWS <$> lsr_Snapshots res)))).

Definition Adapter_RestoreDBInstanceFromDBSnapshot d (i : RestoreDBInstanceFromDBSnapshotMessage) s : St * api output :=
  call (v_RestoreFromSnapshot d (strDeref (rsm_DBSnapshotIdentifier i)) (rsm_DBInstanceIdentifier i) s) (λ res s,
    (s, Ok (DBInstanceResult (instanceToAWS (cir_Instance res))))).
End adapter.

(** ** Handlers and routes *)

Inductive rds_op :=
  | CreateDBInstanceHandler | DeleteDBInstanceHandler | DescribeDBInstancesHandler | ModifyDBInstanceHandler
  | RebootDBInstanceHandler | CreateDBSnapshotHandler | DeleteDBSnapshotHandler | DescribeDBSnapshotsHandler
  | RestoreDBInstanceFromDBSnapshotHandler.

Definition op_name (o : rds_op) : string :=
  match o with
  | CreateDBInstanceHandler => "CreateDBInstance" | DeleteDBInstanceHandler => "DeleteDBInstance"
  | DescribeDBInstancesHandler => "DescribeDBInstances" | ModifyDBInstanceHandler => "ModifyDBInstance"
  | RebootDBInstanceHandler => "RebootDBInstance" | CreateDBSnapshotHandler => "CreateDBSnapshot"
  | DeleteDBSnapshotHandler => "DeleteDBSnapshot" | DescribeDBSnapshotsHandler => "DescribeDBSnapshots"
  | RestoreDBInstanceFromDBSnapshotHandler => "RestoreDBInstanceFromDBSnapshot"
  end.
Definition rds_ops : list rds_op :=
  [CreateDBInstanceHandler; DeleteDBInstanceHandler; DescribeDBInstancesHandler; ModifyDBInstanceHandler;
   RebootDBInstanceHandler; CreateDBSnapshotHandler; DeleteDBSnapshotHandler; DescribeDBSnapshotsHandler;
   RestoreDBInstanceFromDBSnapshotHandler].
Definition RegisterRDSRoutes : Router rds_op :=
  fold_left (λ rt o, Register (op_name o) o rt) rds_ops (NewRouter "AmazonRDSv19").

Section decoding.
Context (form : gmap string (list string)).

Definition decode_CreateDBInstance : CreateDBInstanceMessage :=
  mkCreateDBInstanceMessage (form_int32 form "AllocatedStorage") (Query_Get form "DBInstanceClass")
    (Query_Get form "DBInstanceIdentifier") (Query_Get form "Engine") (form_field form "EngineVersion")
    (form_field form "MasterUserPassword") (form_field form "MasterUsername").
Definition decode_DeleteDBInstance : DeleteDBInstanceMessage :=
  mkDeleteDBInstanceMessage (Query_Get form "DBInstanceIdentifier").
Definition decode_DescribeDBInstances : DescribeDBInstancesMessage :=
  mkDescribeDBInstancesMessage (form_field form "DBInstanceIdentifier").
Definition decode_ModifyDBInstance : ModifyDBInstanceMessage :=
  mkModifyDBInstanceMessage (form_int32 form "AllocatedStorage") (form_field form "DBInstanceClass")
    (Query_Get form "DBInstanceIdentifier") (form_field form "MasterUserPassword").
Definition decode_RebootDBInstance : RebootDBInstanceMessage :=
  mkRebootDBInstanceMessage (Query_Get form "DBInstanceIdentifier").
Definition decode_CreateDBSnapshot : CreateDBSnapshotMessage :=
  mkCreateDBSnapshotMessage (Query_Get form "DBInstanceIdentifier") (Query_Get form "DBSnapshotIdentifier").
Definition decode_DeleteDBSnapshot : DeleteDBSnapshotMessage :=
  mkDeleteDBSnapshotMessage (Query_Get form "DBSnapshotIdentifier").
Definition decode_DescribeDBSnapshots : DescribeDBSnapshotsMessage :=
  mkDescribeDBSnapshotsMessage (form_field form "DBInstanceIdentifier") (form_field form "DBSnapshotIdentifier").
Definition decode_RestoreDBInstanceFromDBSnapshot : RestoreDBInstanceFromDBSnapshotMessage :=
  mkRestoreDBInstanceFromDBSnapshotMessage (Query_Get form "DBInstanceIdentifier") (form_field form "DBSnapshotIdentifier").
End decoding.

Section handlers.
Context `{RDBMS_ St} (Quote : string → string) (d : Draws St).

Definition Adapter_serve (o : rds_op) (form : gmap string (list string)) : St → St * api output :=
  match o with
  | CreateDBInstanceHandler => Adapter_CreateDBInstance Quote d (decode_CreateDBInstance form)
  | DeleteDBInstanceHandler => Adapter_DeleteDBInstance Quote (decode_DeleteDBInstance form)
  | DescribeDBInstancesHandler => Adapter_DescribeDBInstances Quote (decode_DescribeDBInstances form)
  | ModifyDBInstanceHandler => Adapter_ModifyDBInstance Quote d (decode_ModifyDBInstance form)
  | RebootDBInstanceHandler => Adapter_RebootDBInstance Quote d (decode_RebootDBInstance form)
  | CreateDBSnapshotHandler => Adapter_CreateDBSnapshot Quote d (decode_CreateDBSnapshot form)
  | DeleteDBSnapshotHandler => Adapter_DeleteDBSnapshot Quote d (decode_DeleteDBSnapshot form)
  | DescribeDBSnapshotsHandler => Adapter_DescribeDBSnapshots Quote (decode_DescribeDBSnapshots form)
  | RestoreDBInstanceFromDBSnapshotHandler =>
      Adapter_RestoreDBInstanceFromDBSnapshot Quote d (decode_RestoreDBInstanceFromDBSnapshot form)
  end.

Definition handle (o : rds_op) (form : gmap string (list string)) (s : St) : St * option (Response (payload output)) :=
  reply (op_name o) (Adapter_serve o form s) Some.

Definition Rds_ServeHTTP (parse_params : string → string → string * option string) (r : Request) (s : St)
    : St * option (Response (payload output)) :=
  Query_ServeHTTP Quote parse_params handle RegisterRDSRoutes r s.

(** [New], at the time [now]. *)
Definition Rds_New (getenv : string → string) (now : Time) (parse_params : string → string → string * option string)
    : Request → St → St * option (Response (payload output)) :=
  Query_New Quote "rds" getenv now (Rds_ServeHTTP parse_params).
End handlers.

(** * The RDS frontend: properties

    A request is a sequence of steps of the world of callers and goroutines,
    and an instance that a client creates comes up. *)

Abbreviation world := (World (St := Backend) (Tm := timer)).

Section serve.
Context (Quote : string → string) (params : string → string → string * option string) (d : draws).
Implicit Types w : world.

Definition rds_serve (r : Request) w : world * option (Response (payload output)) :=
  Rds_ServeHTTP Quote (d : Draws world) params r w.

(** ** Requests are steps *)

(** Errors that are the client's. *)
Definition client_error (e : error) : Prop :=
  let 'DomainError k _ _ _ := e in
  k ∈ [KindNoSuchInstance; KindInstanceAlreadyExists; KindNoSuchSnapshot; KindSnapshotAlreadyExists; KindInvalidArgument].
Definition fine {A} (r : result A) : Prop := match r with Ok _ => True | Err e => client_error e | Panic => False end.
Definition answered w (c : world * api output) : Prop :=
  rtc step w c.1 ∧
  match c.2 with Ok _ => True | Err (EBackend be) => HTTPStatus be = 400 ∨ HTTPStatus be = 404 | _ => False end.

Lemma answered_ok w x : answered w (w, Ok x).
Proof. by split. Qed.
Lemma answered_invalid w m : answered w (w, Err (invalid_parameter m)).
Proof. split; [done|by left]. Qed.
Lemma answered_after w w' c : rtc step w w' → answered w' c → answered w c.
Proof. intros Hs [H1 H2]. split; [by etrans|done]. Qed.

Lemma rds_call_answered {A} w (c : world * result A) k :
  rtc step w c.1 → fine c.2 → (∀ a w', answered w' (k a w')) → answered w (call Quote c k).
Proof.
  intros Hs Hf Hk. unfold call. destruct c as [w' [a|[k' r m i]|]]; cbn in *; [by eapply answered_after|..|done].
  split; [done|]. cbn. by destruct k'; set_solver.
Qed.

Lemma rds_call_in_answered {A} w (f : Backend → Backend * list timer * result A) o k :
  (∀ b, (f b).1 = run o b) → (∀ b, fine (f b).2) → (∀ a w', answered w' (k a w')) →
  answered w (call Quote (call_in f w) k).
Proof.
  intros Hf Hp Hk. apply rds_call_answered; [apply rtc_once, (call_in_step f o), Hf| |done].
  rewrite call_in_result. apply Hp.
Qed.

(** The other callers and the goroutines take steps too. *)
Context (others : ∀ w, rtc step w (d_others d w)).

Ltac fine_op :=
  intros b; unfold CreateInstance, DeleteInstance, DescribeInstance, ModifyInstance, RebootInstance, CreateSnapshot,
    DeleteSnapshot, DescribeSnapshot; repeat case_match; try done; cbn; set_solver.
Ltac by_op op :=
  eapply rds_call_in_answered with (o := op); [done|first [done|fine_op]|intros; apply answered_ok].

Lemma described_answered n w : answered w (described d n w).
Proof.
  unfold described. cbn.
  pose proof (call_in_step (DescribeInstance n) (OpDescribeInstance n) (d_others d w) eq_refl) as Hs.
  assert ((call_in (DescribeInstance n) (d_others d w)).2 ≠ Panic) as Hp.
  { rewrite call_in_result. unfold DescribeInstance. by destruct (_ !! _). }
  destruct (call_in (DescribeInstance n) (d_others d w)) as [w' r]. cbn in *.
  assert (rtc step w w') by (etrans; [apply others|by apply rtc_once]). by destruct r; split.
Qed.

Lemma Delete_snapshot_answered i w : answered w (Adapter_DeleteDBSnapshot Quote (d : Draws world) i w).
Proof.
  unfold Adapter_DeleteDBSnapshot. cbn. set (id := dsm_DBSnapshotIdentifier _).
  pose proof (call_in_step (DescribeSnapshot id) (OpDescribeSnapshot id) w eq_refl) as Hd.
  assert ((call_in (DescribeSnapshot id) w).2 ≠ Panic) as Hp.
  { rewrite call_in_result. unfold DescribeSnapshot. by destruct (_ !! _). }
  destruct (call_in (DescribeSnapshot id) w) as [w1 r]. cbn in *.
  assert (rtc step w (d_others d w1)) as Hs by (eapply rtc_l; [exact Hd|apply others]).
  destruct r; [| |done]; (eapply answered_after; [exact Hs|]; by_op (OpDeleteSnapshot id)).
Qed.

Lemma Restore_answered i w :
  engines_ok (w_backend w) → answered w (Adapter_RestoreDBInstanceFromDBSnapshot Quote (d : Draws world) i w).
Proof.
  intros [_ He]. unfold Adapter_RestoreDBInstanceFromDBSnapshot. cbn. set (id := strDeref _). set (n := rsm_DBInstanceIdentifier _).
  destruct (snapshots (w_backend w) !! id) as [snap|] eqn:E; [|by split; [|right]].
  eapply answered_after; [apply others|].
  eapply rds_call_in_answered with (o := OpRestoreFromSnapshot (d_now d) (d_random d) id n (w_backend w)); [done| |intros; apply answered_ok].
  intros b. unfold RestoreFromSnapshot. rewrite E. unfold CreateInstance.
  rewrite bool_decide_eq_false_2 by exact (He id snap E). repeat case_match; try done; cbn; set_solver.
Qed.

Lemma Adapter_answered o form w :
  engines_ok (w_backend w) → answered w (Adapter_serve Quote (d : Draws world) o form w).
Proof.
  intros He. destruct o; cbn [Adapter_serve].
  - unfold Adapter_CreateDBInstance. destruct (String.eqb _ ""); [apply answered_invalid|].
    destruct (bool_decide (awsEngineToDomain _ = _)) eqn:E; [apply answered_invalid|].
    eapply rds_call_in_answered with (o := OpCreateInstance (d_now d) (d_random d) _ _); [done| |intros; apply answered_ok].
    intros b. unfold CreateInstance. cbn [ci_Engine]. rewrite E.
    repeat case_match; try done; cbn; set_solver.
  - by_op (OpDeleteInstance (ddm_DBInstanceIdentifier (decode_DeleteDBInstance form))).
  - unfold Adapter_DescribeDBInstances. case_match.
    + by_op (OpDescribeInstance (strDeref (sdm_DBInstanceIdentifier (decode_DescribeDBInstances form)))).
    + by_op (OpListInstances (mkListInstancesOptions "" 0 "")).
  - eapply rds_call_in_answered with (o := OpModifyInstance _ _); [done|fine_op|intros; apply described_answered].
  - eapply rds_call_in_answered with (o := OpRebootInstance _); [done|fine_op|intros; apply described_answered].
  - by_op (OpCreateSnapshot (d_now d) (csm_DBInstanceIdentifier (decode_CreateDBSnapshot form))
      (csm_DBSnapshotIdentifier (decode_CreateDBSnapshot form))).
  - apply Delete_snapshot_answered.
  - unfold Adapter_DescribeDBSnapshots. case_match.
    + by_op (OpDescribeSnapshot (strDeref (ssm_DBSnapshotIdentifier (decode_DescribeDBSnapshots form)))).
    + by_op (OpListSnapshots (mkListSnapshotsOptions (strDeref (ssm_DBInstanceIdentifier (decode_DescribeDBSnapshots form))) 0 "")).
  - by apply Restore_answered.
Qed.

(** Every request is answered, whatever its method, headers, body and form,
    without a panic and without a server error; the world moves by steps of
    callers and goroutines, so what holds in all reachable worlds holds under
    the frontend. *)
Theorem rds_requests_answered (r : Request) w :
  reachable w → ∃ w' resp, rds_serve r w = (w', Some resp) ∧ reachable w' ∧ GoHttp.Status resp ∈ [200; 400; 404; 405]%Z.
Proof.
  intros Hr. unfold rds_serve, Rds_ServeHTTP, Query_ServeHTTP, AwsQuery.ServeHTTP.
  destruct (route _ _ _ _ _ r) as [resp|[o fm]] eqn:E.
  - exists w, resp. split_and!; [done|done|]. apply route_refused in E as [-> | ->]; set_solver.
  - unfold handle, reply. destruct (Adapter_answered o fm w (reachable_engines w Hr)) as [Hs Hf].
    destruct (Adapter_serve _ _ _ _ _) as [w' [x|[be|t]|]]; cbn in *; try done;
      (eexists _, _; split_and!; [done|by unfold reachable; etrans|cbn; try (destruct Hf as [-> | ->]); set_solver]).
Qed.
End serve.

(** ** An instance comes up *)

(** What a client asks for. *)
Record wanted := mkWanted {
  r_name : string; r_engine : string; r_version : string; r_user : string; r_password : string; r_class : string;
  r_storage : Z }.
Definition create_fields (c : wanted) : list (string * string) :=
  [("DBInstanceIdentifier", r_name c); ("Engine", r_engine c); ("EngineVersion", r_version c);
   ("MasterUsername", r_user c); ("MasterUserPassword", r_password c); ("DBInstanceClass", r_class c);
   ("AllocatedStorage", Itoa (r_storage c))].
Definition create_form (c : wanted) : list (string * string) := ("Action", "CreateDBInstance") :: create_fields c.
Definition describe_form (n : string) : list (string * string) :=
  [("Action", "DescribeDBInstances"); ("DBInstanceIdentifier", n)].
Definition mysql_engine (e : string) : Prop := e = "mysql" ∨ e = "aurora-mysql".
Definition postgres_engine (e : string) : Prop := e = "postgres" ∨ e = "aurora-postgresql".
Definition creatable (c : wanted) : Prop :=
  r_name c ≠ "" ∧ (mysql_engine (r_engine c) ∨ postgres_engine (r_engine c)) ∧ r_user c ≠ "" ∧ in_s 32 (r_storage c) ∧
  small (create_form c) ∧ small (describe_form (r_name c)).

#[local] Instance mysql_engine_dec e : Decision (mysql_engine e) := ltac:(unfold mysql_engine; apply _).

(** The instance as the frontend shows it: an Aurora engine as the engine it is
    compatible with, and the connection once the instance is available. *)
Definition shown (c : wanted) (st : string) : DBInstance :=
  let engine := if decide (mysql_engine (r_engine c)) then "mysql" else "postgres" in
  let port := if decide (mysql_engine (r_engine c)) then 3306 else 5432 in
  let up := bool_decide (st = "available") in
  mkDBInstance (r_name c) ("arn:aws:rds:us-east-1:000000000000:db:" +:+ r_name c) ("db-" +:+ r_name c)
    engine (r_version c) st (r_class c)
    (r_storage c) (if up then r_user c else "") (if up then engine else "")
    (if up then Some (mkEndpoint "localhost" port) else None).

(** What the backend keeps of it. *)
Definition kept_as (c : wanted) (b : Backend) : Prop :=
  ∃ s, instances b !! r_name c = Some s ∧ name s = r_name c ∧ engine s = awsEngineToDomain (r_engine c) ∧
    engineVersion s = r_version c ∧ allocatedStorageGB s = r_storage c ∧ instanceClass s = r_class c ∧
    masterUsername s = r_user c.

(** Steps of other callers, through whatever frontend, that neither delete nor
    modify [n], and of goroutines. *)
Inductive leaves (n : string) : world → world → Prop :=
  | leaves_run o b ts : o ≠ OpDeleteInstance n → (∀ opt, o ≠ OpModifyInstance n opt) →
      leaves n (mkWorld b ts) (mkWorld (run o b).1 (ts ++ (run o b).2))
  | leaves_fire t ts1 ts2 b : leaves n (mkWorld b (ts1 ++ t :: ts2)) (mkWorld (fire t b) (ts1 ++ ts2)).

Lemma leaves_step n w w' : leaves n w w' → step w w'.
Proof. destruct 1; constructor. Qed.

Lemma kept_as_run c o b :
  o ≠ OpDeleteInstance (r_name c) → (∀ opt, o ≠ OpModifyInstance (r_name c) opt) →
  kept_as c b → kept_as c (run o b).1 ∧ Delete_after (r_name c) ∉ (run o b).2.
Proof.
  intros Hd Hm (s & Hs & Hf). split.
  - destruct o; run_cases; try (by exists s); unfold kept_as; cbn;
      (destruct (decide (n = r_name c)) as [->|Hne] || destruct (decide (newName = r_name c)) as [->|Hne]);
      first [congruence | rewrite lookup_insert_ne by done; by exists s | rewrite lookup_insert_eq; simplify_eq; by eexists | idtac].
  - destruct o; run_cases; set_solver.
Qed.

Lemma kept_as_fire c t b : t ≠ Delete_after (r_name c) → kept_as c b → kept_as c (fire t b).
Proof.
  intros Ht (s & Hs & Hf). unfold kept_as. destruct t as [n|i|n|n|n]; cbn; try (by exists s).
  2: { rewrite lookup_delete_ne by congruence. by exists s. }
  all: unfold flip_in; repeat case_match; try (by exists s);
    (destruct (decide (n = r_name c)) as [->|]; [rewrite lookup_insert_eq; simplify_eq; by eexists|
      rewrite lookup_insert_ne by done; by exists s]).
Qed.

Lemma kept_as_leaves c w w' :
  rtc (leaves (r_name c)) w w' → kept_as c (w_backend w) → Delete_after (r_name c) ∉ w_asleep w →
  kept_as c (w_backend w') ∧ Delete_after (r_name c) ∉ w_asleep w'.
Proof.
  induction 1 as [|w1 w2 w3 Hl _ IH]; [done|]. intros Hk Hn. destruct Hl as [o b ts Hd Hm|t ts1 ts2 b]; cbn in *.
  - destruct (kept_as_run c o b Hd Hm Hk). apply IH; [done|]. set_solver.
  - apply IH; [apply kept_as_fire; [|done]|]; set_solver.
Qed.

Lemma kept_as_fire_all c ts b : Delete_after (r_name c) ∉ ts → kept_as c b → kept_as c (fire_all ts b).
Proof.
  revert b. induction ts as [|t ts IH]; intros b Hn Hk; [done|]. apply IH; [set_solver|].
  apply kept_as_fire; [set_solver|done].
Qed.

Section session.
Context (Quote : string → string) (params : string → string → string * option string).
Implicit Types (w : world) (d : draws).

Lemma rds_serve_form d o kvs w :
  small (("Action", op_name o) :: kvs) →
  rds_serve Quote params d (form_post (("Action", op_name o) :: kvs)) w =
    handle Quote (d : Draws world) o (form_of (("Action", op_name o) :: kvs)) w.
Proof. intros Hs. apply Query_ServeHTTP_form; [done|by destruct o|by destruct o]. Qed.

Lemma creatable_engine c : creatable c → awsEngineToDomain (r_engine c) ≠ EngineUnknown.
Proof. by intros (_ & [[-> | ->]|[-> | ->]] & _). Qed.

Lemma instance_shown c s : creatable c → name s = r_name c → engine s = awsEngineToDomain (r_engine c) →
  engineVersion s = r_version c → allocatedStorageGB s = r_storage c → instanceClass s = r_class c →
  masterUsername s = r_user c → instanceToAWS (instanceToDomain s) = shown c (awsStatusFromDomain (status s)).
Proof.
  intros (_ & He & _ & Hg & _) Hn Ee Ev Es Ec Eu. unfold shown.
  assert (bool_decide (awsStatusFromDomain (status s) = "available") = bool_decide (status s = StatusAvailable)) as ->
    by (by destruct (status s)).
  unfold instanceToAWS, instanceToDomain. cbn. rewrite Hn, Ee, Ev, Es, Ec, Eu. rewrite wrap_s_small by (done || lia).
  destruct He as [[-> | ->]|[-> | ->]]; case_bool_decide; reflexivity.
Qed.

Definition options_of (c : wanted) : CreateInstanceOptions :=
  mkCreateInstanceOptions (awsEngineToDomain (r_engine c)) (r_version c) (r_user c) (r_password c) (r_storage c) (r_class c) "".
Definition created (d : draws) (c : wanted) : instanceState :=
  mkInstanceState (r_name c) (awsEngineToDomain (r_engine c)) (r_version c) StatusCreating (r_storage c)
    (r_class c) "" (r_user c) (if String.eqb (r_password c) "" then newPassword (d_random d) else r_password c) (d_now d).

Lemma CreateInstance_wanted d c b :
  creatable c → instances b !! r_name c = None →
  ∃ pw, CreateInstance (d_now d) (d_random d) (r_name c) (options_of c) b =
    (set_instance b (r_name c) (created d c), [Available_after (r_name c)],
     Ok (mkCreateInstanceResult (instanceToDomain (created d c)) pw)).
Proof.
  intros Hc Hn. pose proof (creatable_engine c Hc) as He. destruct Hc as (_ & _ & Hu & _). unfold CreateInstance, created. cbn. rewrite bool_decide_eq_false_2 by done.
  apply String.eqb_neq in Hu. rewrite Hu, Hn. destruct (String.eqb (r_password c) ""); by eexists.
Qed.

Lemma rds_create d c w :
  creatable c → instances (w_backend w) !! r_name c = None →
  ∃ w1, rds_serve Quote params d (form_post (create_form c)) w =
      (w1, Some (WriteResult "CreateDBInstance" (Some (DBInstanceResult (shown c "creating"))))) ∧
    step w w1 ∧ kept_as c (w_backend w1) ∧ w_asleep w1 = w_asleep w ++ [Available_after (r_name c)].
Proof.
  intros Hc Hn. destruct (CreateInstance_wanted d c _ Hc Hn) as [pw E]. pose proof Hc as (Hne & _ & _ & Hg & Hs & _). pose proof (creatable_engine c Hc) as He.
  exists (mkWorld (set_instance (w_backend w) (r_name c) (created d c)) (w_asleep w ++ [Available_after (r_name c)])).
  split_and!; [|..|done].
  - etransitivity; [exact (rds_serve_form d CreateDBInstanceHandler (create_fields c) w Hs)|].
    unfold handle. cbn [Adapter_serve]. unfold Adapter_CreateDBInstance, decode_CreateDBInstance, strDeref.
    cbn [cdm_AllocatedStorage cdm_DBInstanceClass cdm_DBInstanceIdentifier cdm_Engine cdm_EngineVersion
      cdm_MasterUserPassword cdm_MasterUsername].
    rewrite !form_field_default, (form_int32_Itoa _ _ (r_storage c) Hg) by (by unfold create_fields; form_fields).
    unfold create_fields. form_fields. apply String.eqb_neq in Hne. rewrite Hne, bool_decide_eq_false_2 by done.
    cbn [v_CreateInstance inmem_rdbms default]. unfold call_in. change (Datatypes.id ?x) with x.
    fold (options_of c). rewrite E. unfold call. cbn [fst snd cir_Instance]. by rewrite (instance_shown c (created d c)).
  - pose proof (call_in_step (CreateInstance (d_now d) (d_random d) (r_name c) (options_of c))
      (OpCreateInstance (d_now d) (d_random d) (r_name c) (options_of c)) w eq_refl) as H.
    unfold call_in in H. by rewrite E in H.
  - exists (created d c). cbn. by rewrite lookup_insert_eq.
Qed.

Lemma rds_describe d c w :
  creatable c → kept_as c (w_backend w) →
  ∃ s, instances (w_backend w) !! r_name c = Some s ∧
  rds_serve Quote params d (form_post (describe_form (r_name c))) w =
    (w, Some (WriteResult "DescribeDBInstances" (Some (DBInstanceMessage [shown c (awsStatusFromDomain (status s))])))).
Proof.
  intros Hc (s & Hs & ?&?&?&?&?&?). exists s. split; [done|]. pose proof Hc as (Hne & _ & _ & _ & _ & Hsm').
  etransitivity; [exact (rds_serve_form d DescribeDBInstancesHandler [("DBInstanceIdentifier", r_name c)] w Hsm')|].
  unfold handle. cbn [Adapter_serve]. unfold Adapter_DescribeDBInstances, decode_DescribeDBInstances, strDeref.
  cbn [sdm_DBInstanceIdentifier]. rewrite form_field_default. form_fields. apply String.eqb_neq in Hne. rewrite Hne.
  cbn [negb v_DescribeInstance inmem_rdbms]. unfold call_in, DescribeInstance. rewrite Hs.
  unfold call. cbn [fst snd]. rewrite (instance_shown c s) by done. destruct w. cbn. by rewrite app_nil_r.
Qed.
End session.


Definition rds_demo_draws : draws := mkDraws 7 [] Datatypes.id.
Definition rds_demo_params (t : string) (_ : string) : string * option string := (t, None).
Definition rds_demo_wanted : wanted := mkWanted "db" "mysql" "8.0" "admin" "pw" "db.t3.micro" 20.

Lemma rds_demo_creatable : creatable rds_demo_wanted.
Proof. split_and!; [done|by left; left|done|by vm_compute..]. Qed.


Lemma rds_requests_answered_witness :
  ∃ w' resp, rds_serve Datatypes.id rds_demo_params rds_demo_draws (form_post (create_form rds_demo_wanted)) start =
    (w', Some resp) ∧ reachable w' ∧ GoHttp.Status resp ∈ [200; 400; 404; 405]%Z.
Proof. apply rds_requests_answered; [by intros w|constructor]. Defined.

(** ** Where the adapter loses what it was given *)

(** The password that the backend generates when the client sends none is
    kept by the backend and shown to nobody: the answer is the same whatever
    the random bytes are, and no later answer has a password in it. *)
Theorem generated_password_unrevealed (Quote : string → string) (d d' : draws) (i : CreateDBInstanceMessage) (w : world) :
  cdm_DBInstanceIdentifier i ≠ "" → awsEngineToDomain (cdm_Engine i) ≠ EngineUnknown →
  strDeref (cdm_MasterUsername i) ≠ "" → strDeref (cdm_MasterUserPassword i) = "" →
  instances (w_backend w) !! cdm_DBInstanceIdentifier i = None →
  let c := Adapter_CreateDBInstance Quote (d : Draws world) i w in
  (∃ x, c.2 = Ok x ∧ (Adapter_CreateDBInstance Quote (d' : Draws world) i w).2 = Ok x) ∧
  ∃ s, instances (w_backend c.1) !! cdm_DBInstanceIdentifier i = Some s ∧ masterPassword s = newPassword (d_random d).
Proof.
  intros Hn He Hu Hp Hi. unfold Adapter_CreateDBInstance. apply String.eqb_neq in Hn, Hu.
  rewrite Hn, bool_decide_eq_false_2 by done. cbn [v_CreateInstance inmem_rdbms]. unfold call_in, CreateInstance.
  cbn [ci_Engine ci_MasterUsername ci_MasterPassword]. rewrite bool_decide_eq_false_2, Hu, Hi, Hp by done.
  cbn. split; [by eexists|]. eexists. by rewrite lookup_insert_eq.
Qed.

Lemma generated_password_unrevealed_witness :
  ∃ s, instances (w_backend (Adapter_CreateDBInstance Datatypes.id (mkDraws 7 (bytes_of_string "a") Datatypes.id : Draws world)
      (mkCreateDBInstanceMessage None "" "db" "mysql" None None (Some "admin")) start).1) !! "db" = Some s ∧
    masterPassword s = "61".
Proof.
  apply (generated_password_unrevealed Datatypes.id (mkDraws 7 (bytes_of_string "a") Datatypes.id) rds_demo_draws
    (mkCreateDBInstanceMessage None "" "db" "mysql" None None (Some "admin")) start); done.
Defined.

(** [AllocatedStorage] is cut to 32 bits, and ignored when it is no number. *)
Lemma allocated_storage_read :
  form_int32 {["AllocatedStorage" := ["4294967316"]]} "AllocatedStorage" = Some 20 ∧
  form_int32 {["AllocatedStorage" := ["20 GB"]]} "AllocatedStorage" = None.
Proof. by vm_compute. Qed.
