(* ===== verification/Cache.v ===== *)
(** * Caches: domain types, errors and the in-process backend

    Models [internal/cache/domain] and [services/cache/backends/inmem], the
    lifecycle of Redis instances.  A goroutine that sleeps and then changes the
    state is a [timer], what it does when it wakes up is [fire]; an operation
    returns the timers it starts. *)

From S2P Require Import Prelude GoStrings GoBytes Lifecycle.

(** ** domain/errors.go *)

Inductive Kind :=
  | KindUnknown | KindNoSuchInstance | KindInstanceAlreadyExists | KindInstanceNotAvailable | KindInvalidArgument.
#[export] Instance Kind_eq_dec : EqDecision Kind.
Proof. solve_decision. Defined.

Inductive error :=
  | DomainError (Kind_ : Kind) (Resource : string) (Message : string) (Inner : option error).

(** [Quote] is the [%q] of the format strings ([strconv.Quote]). *)
Definition Error_text (Quote : string → string) (e : error) : string :=
  let 'DomainError k r m _ := e in
  match k with
  | KindNoSuchInstance => "cache instance " +:+ Quote r +:+ " does not exist"
  | KindInstanceAlreadyExists => "cache instance " +:+ Quote r +:+ " already exists"
  | KindInstanceNotAvailable =>
      if String.eqb m "" then "cache instance " +:+ Quote r +:+ " is not in an available state" else m
  | KindInvalidArgument => m
  | KindUnknown => if String.eqb m "" then "cache domain error" else m
  end.
Definition Unwrap (e : error) : option error := let 'DomainError _ _ _ i := e in i.

Definition NoSuchInstance (name : string) : error := DomainError KindNoSuchInstance name "" None.
Definition InstanceAlreadyExists (name : string) : error := DomainError KindInstanceAlreadyExists name "" None.
Definition InstanceNotAvailable (name message : string) : error :=
  DomainError KindInstanceNotAvailable name message None.
Definition InvalidArgument (message : string) : error := DomainError KindInvalidArgument "" message None.

Abbreviation result := (outcome error).

(** ** domain/domain.go *)

Inductive Status :=
  | StatusUnknown | StatusCreating | StatusAvailable | StatusModifying | StatusRebooting | StatusDeleting.
#[export] Instance Status_eq_dec : EqDecision Status.
Proof. solve_decision. Defined.
Definition Status_String (s : Status) : string :=
  match s with
  | StatusCreating => "creating" | StatusAvailable => "available" | StatusModifying => "modifying"
  | StatusRebooting => "rebooting" | StatusDeleting => "deleting" | StatusUnknown => "unknown"
  end.

Record Connection := mkConnection {
  Host : string; Port : Z; Connection_AuthToken : string; Connection_EngineVersion : string }.
Definition noConnection : Connection := mkConnection "" 0 "" "".
Record Instance_ := mkInstance {
  Instance_Name : string; Instance_EngineVersion : string; Instance_NodeType : string;
  Instance_MemorySizeGB : Z; Instance_Status : Status; Instance_Connection : Connection;
  Instance_CreatedAt : Time }.
Record CreateInstanceOptions := mkCreateInstanceOptions {
  ci_EngineVersion : string; ci_NodeType : string; ci_MemorySizeGB : Z; ci_AuthToken : string }.
Record CreateInstanceResult := mkCreateInstanceResult { cir_Instance : Instance_; cir_AuthToken : string }.
Record ModifyInstanceOptions := mkModifyInstanceOptions { mi_NodeType : string; mi_AuthToken : string }.
Record ListInstancesOptions := mkListInstancesOptions {
  li_Prefix : string; li_MaxResults : Z; li_NextToken : string }.
Record ListInstancesResult := mkListInstancesResult { lir_Instances : list Instance_; lir_NextToken : string }.

(** ** inmem.go: state and goroutines *)

Record instanceState := mkInstanceState {
  name : string; engineVersion : string; nodeType : string; memorySizeGB : Z; status : Status;
  authToken : string; createdAt : Time }.
Record Backend := mkBackend { instances : gmap string instanceState }.

Definition New : Backend := mkBackend ∅.

Inductive timer :=
  | Available_after (name : string)                 (* scheduleAvailable *)
  | Delete_after (name : string)
  | Modified_after (name : string)
  | Rebooted_after (name : string).
#[export] Instance timer_eq_dec : EqDecision timer.
Proof. solve_decision. Defined.

Definition set_instance (b : Backend) (n : string) (s : instanceState) : Backend :=
  mkBackend (<[n := s]> (instances b)).
Definition with_status (s : instanceState) (st : Status) : instanceState :=
  mkInstanceState (name s) (engineVersion s) (nodeType s) (memorySizeGB s) st (authToken s) (createdAt s).

(** [if s, ok := b.instances[name]; ok && ... { s.status = StatusAvailable }] *)
Definition flip (when_ : Status → bool) (n : string) (b : Backend) : Backend :=
  mkBackend (flip_in status with_status when_ StatusAvailable n (instances b)).

Definition fire (t : timer) (b : Backend) : Backend :=
  match t with
  | Available_after n => flip (λ s, bool_decide (s ≠ StatusDeleting)) n b
  | Delete_after n => mkBackend (delete n (instances b))
  | Modified_after n => flip (λ s, bool_decide (s = StatusModifying)) n b
  | Rebooted_after n => flip (λ s, bool_decide (s = StatusRebooting)) n b
  end.

(** [hex.EncodeToString] of the sixteen random bytes. *)
Definition newToken (random : bytes) : string := hex_EncodeToString random.

Definition toDomain (s : instanceState) : Instance_ :=
  mkInstance (name s) (engineVersion s) (nodeType s) (memorySizeGB s) (status s)
    (if bool_decide (status s = StatusAvailable)
     then mkConnection "localhost" 6379 (authToken s) (engineVersion s) else noConnection)
    (createdAt s).

(** ** Operations: the state, the goroutines started, the results *)

Abbreviation op_result A := (Backend * list timer * result A)%type.

Definition CreateInstance (now : Time) (random : bytes) (n : string) (opt : CreateInstanceOptions) (b : Backend)
    : op_result CreateInstanceResult :=
  match instances b !! n with
  | Some _ => (b, [], Err (InstanceAlreadyExists n))
  | None =>
      let '(token, revealed) :=
        if String.eqb (ci_AuthToken opt) "" then (newToken random, newToken random) else (ci_AuthToken opt, "") in
      let s := mkInstanceState n (ci_EngineVersion opt) (ci_NodeType opt) (ci_MemorySizeGB opt) StatusCreating
                 token now in
      (set_instance b n s, [Available_after n], Ok (mkCreateInstanceResult (toDomain s) revealed))
  end.

Definition DeleteInstance (n : string) (b : Backend) : op_result unit :=
  match instances b !! n with
  | None => (b, [], Err (NoSuchInstance n))
  | Some s => (set_instance b n (with_status s StatusDeleting), [Delete_after n], Ok ())
  end.

Definition DescribeInstance (n : string) (b : Backend) : op_result Instance_ :=
  match instances b !! n with
  | None => (b, [], Err (NoSuchInstance n))
  | Some s => (b, [], Ok (toDomain s))
  end.

Definition ListInstances (opt : ListInstancesOptions) (b : Backend) : op_result ListInstancesResult :=
  let names := names_with (li_Prefix opt) (instances b) in
  (b, [], Ok (mkListInstancesResult
    (list_upto (li_MaxResults opt) 0 (omap (λ n, toDomain <$> instances b !! n) names)) "")).

Definition ModifyInstance (n : string) (opt : ModifyInstanceOptions) (b : Backend) : op_result unit :=
  match instances b !! n with
  | None => (b, [], Err (NoSuchInstance n))
  | Some s =>
      let s := mkInstanceState (name s) (engineVersion s)
        (if String.eqb (mi_NodeType opt) "" then nodeType s else mi_NodeType opt)
        (memorySizeGB s) StatusModifying
        (if String.eqb (mi_AuthToken opt) "" then authToken s else mi_AuthToken opt)
        (createdAt s) in
      (set_instance b n s, [Modified_after n], Ok ())
  end.

Definition RebootInstance (n : string) (b : Backend) : op_result unit :=
  match instances b !! n with
  | None => (b, [], Err (NoSuchInstance n))
  | Some s => (set_instance b n (with_status s StatusRebooting), [Rebooted_after n], Ok ())
  end.

(** * Caches: properties of the in-process backend

    The backend as a [Lifecycle], and the catalogue of configurations it keeps
    whatever the statuses do. *)

(** ** The backend as a lifecycle *)

Inductive op :=
  | OpCreateInstance (now : Time) (random : bytes) (n : string) (opt : CreateInstanceOptions)
  | OpDeleteInstance (n : string)
  | OpDescribeInstance (n : string)
  | OpListInstances (opt : ListInstancesOptions)
  | OpModifyInstance (n : string) (opt : ModifyInstanceOptions)
  | OpRebootInstance (n : string).

Definition run (o : op) (b : Backend) : Backend * list timer :=
  match o with
  | OpCreateInstance now r n opt => (CreateInstance now r n opt b).1
  | OpDeleteInstance n => (DeleteInstance n b).1
  | OpDescribeInstance n => (DescribeInstance n b).1
  | OpListInstances opt => (ListInstances opt b).1
  | OpModifyInstance n opt => (ModifyInstance n opt b).1
  | OpRebootInstance n => (RebootInstance n b).1
  end.

Definition istatus (b : Backend) : string → option Status := status_in status (instances b).

(** Which transitional status each goroutine ends. *)
Definition owes (b : Backend) (t : timer) : Prop :=
  match t with
  | Available_after n => istatus b n = Some StatusCreating
  | Delete_after n => istatus b n = Some StatusDeleting
  | Modified_after n => istatus b n = Some StatusModifying
  | Rebooted_after n => istatus b n = Some StatusRebooting
  end.

Definition status_known (b : Backend) : Prop := map_Forall (λ _ s, status s ≠ StatusUnknown) (instances b).

#[export] Hint Unfold owes istatus status_known fire flip run CreateInstance DeleteInstance DescribeInstance
  ListInstances ModifyInstance RebootInstance set_instance : lifecycle.

Lemma cache_new_owes t : ¬ owes New t.
Proof. destruct t; unfold owes, istatus, status_in; cbn; by rewrite lookup_empty. Qed.
Lemma cache_run_owes o b t : owes (run o b).1 t → owes b t ∨ t ∈ (run o b).2.
Proof. destruct o, t; solve_run_owes. Qed.
Lemma cache_fire_owes t b t' : owes (fire t b) t' → owes b t' ∧ t' ≠ t.
Proof. destruct t, t'; solve_fire_owes. Qed.

#[export] Instance cache_lifecycle : Lifecycle Backend op timer := {|
  lc_new := New; lc_run := run; lc_fire := fire; lc_owes := owes;
  lc_new_owes := cache_new_owes; lc_run_owes := cache_run_owes; lc_fire_owes := cache_fire_owes |}.

Lemma cache_run_status_known o b : status_known b → status_known (run o b).1.
Proof. intros Hb. destruct o; unfold_run; try done; by apply map_Forall_insert_2. Qed.

Lemma cache_fire_status_known t b : status_known b → status_known (fire t b).
Proof.
  intros Hb. destruct t; autounfold with lifecycle; cbn;
    first [by apply map_Forall_delete|by apply (map_Forall_flip_in _ _ (λ s, status s ≠ StatusUnknown))].
Qed.

Lemma cache_settled_available b : status_known b → settled b →
  ∀ n s, instances b !! n = Some s → status s = StatusAvailable.
Proof.
  intros Hb Hset n s E. specialize (Hb n s E). cbn in Hb.
  assert (istatus b n = Some (status s)) as Es by (unfold istatus, status_in; by rewrite E).
  destruct (status s) eqn:Est; try done; exfalso.
  - by apply (Hset (Available_after n)).
  - by apply (Hset (Modified_after n)).
  - by apply (Hset (Rebooted_after n)).
  - by apply (Hset (Delete_after n)).
Qed.

Lemma caches_available w order :
  reachable w → order ≡ₚ w_asleep w →
  ∀ n s, instances (fire_all order (w_backend w)) !! n = Some s → status s = StatusAvailable.
Proof.
  intros Hr Hp. apply cache_settled_available.
  - apply fire_all_inv; [exact cache_fire_status_known|]. revert Hr.
    apply reachable_inv; [apply map_Forall_empty|exact cache_run_status_known|exact cache_fire_status_known].
  - apply covered_settles; [|done]. by apply reachable_covered.
Qed.

(** ** The catalogue

    What a client configured, per live name, without the statuses. *)

Record config := mkConfig {
  c_engineVersion : string; c_nodeType : string; c_memorySizeGB : Z; c_authToken : string; c_createdAt : Time }.

(** Only a successful creation, a modification and the goroutine of a deletion
    change the catalogue. *)
Definition configure (e : event) (m : gmap string config) : gmap string config :=
  match e with
  | Called (OpCreateInstance now random n opt) =>
      match m !! n with
      | Some _ => m
      | None => <[n := mkConfig (ci_EngineVersion opt) (ci_NodeType opt) (ci_MemorySizeGB opt)
                   (if decide (ci_AuthToken opt = "") then newToken random else ci_AuthToken opt) now]> m
      end
  | Called (OpModifyInstance n opt) =>
      alter (λ c, mkConfig (c_engineVersion c)
                    (if decide (mi_NodeType opt = "") then c_nodeType c else mi_NodeType opt)
                    (c_memorySizeGB c)
                    (if decide (mi_AuthToken opt = "") then c_authToken c else mi_AuthToken opt)
                    (c_createdAt c)) n m
  | Woke (Delete_after n) => delete n m
  | _ => m
  end.

Definition config_of (s : instanceState) : config :=
  mkConfig (engineVersion s) (nodeType s) (memorySizeGB s) (authToken s) (createdAt s).
Definition catalogue (b : Backend) : gmap string config := config_of <$> instances b.

Lemma cache_catalogue_keep (b : Backend) n s s' :
  instances b !! n = Some s → config_of s' = config_of s → config_of <$> <[n := s']> (instances b) = catalogue b.
Proof.
  intros E Es. unfold catalogue. rewrite fmap_insert, Es, insert_id; [done|]. by rewrite lookup_fmap, E.
Qed.

Lemma happen_configure e b : catalogue (happen e b) = configure e (catalogue b).
Proof.
  unfold catalogue. destruct e as [o|t].
  - destruct o as [now r n opt|n|n|opt|n opt|n]; cbn; autounfold with lifecycle; rewrite ?lookup_fmap; try done;
      (destruct (instances b !! n) as [s|] eqn:E; cbn; [|try done]).
    + done.
    + destruct (String.eqb_spec (ci_AuthToken opt) ""); cbn; rewrite fmap_insert; by case_decide.
    + by apply cache_catalogue_keep with s.
    + done.
    + rewrite fmap_insert. apply map_eq. intros k. destruct (decide (n = k)) as [<-|].
      * rewrite lookup_insert_eq, lookup_alter_eq, lookup_fmap, E. cbn. by rewrite !if_eqb_decide.
      * by rewrite lookup_insert_ne, lookup_alter_ne.
    + rewrite alter_id; [done|]. intros c. by rewrite lookup_fmap, E.
    + by apply cache_catalogue_keep with s.
  - destruct t as [n|n|n|n]; cbn; try apply fmap_delete; unfold flip_in; repeat case_match; try done;
      by eapply cache_catalogue_keep.
Qed.

Definition named (b : Backend) : Prop := map_Forall (λ n s, name s = n) (instances b).

Lemma cache_happen_named e b : named b → named (happen e b).
Proof.
  unfold named. intros Hb. destruct e as [o|t].
  - destruct o; cbn; unfold_run; try done; apply map_Forall_insert_2; try done; cbn; by eapply Hb.
  - destruct t; cbn; try (by apply map_Forall_delete); unfold flip_in; repeat case_match; try done;
      apply map_Forall_insert_2; try done; cbn; by eapply Hb.
Qed.

(** ** Properties *)

(** The backend keeps exactly the catalogue of configurations, whatever
    callers and goroutines do and in whatever order: creations add an entry
    when the name is free, with the caller's token or a fresh one, and
    modifications replace the fields they set.  [DescribeInstance] gives the
    catalogue's entry, with the connection (and the current token) exactly when
    the instance is available. *)
Theorem caches_keep_catalogue (es : list event) (n : string) :
  let b := exec es New in let m := fold_left (λ m e, configure e m) es ∅ in
  catalogue b = m ∧
  match m !! n with
  | None => DescribeInstance n b = (b, [], Err (NoSuchInstance n))
  | Some c => ∃ st, istatus b n = Some st ∧
      DescribeInstance n b = (b, [], Ok (mkInstance n (c_engineVersion c) (c_nodeType c) (c_memorySizeGB c) st
        (if decide (st = StatusAvailable)
         then mkConnection "localhost" 6379 (c_authToken c) (c_engineVersion c) else noConnection)
        (c_createdAt c)))
  end.
Proof.
  intros b m. assert (catalogue b = m) as Hm.
  { subst b m. change (∅ : gmap string config) with (catalogue New).
    generalize New as b0. induction es as [|e es IH]; intros b0; [done|]. cbn. rewrite <-happen_configure. apply IH. }
  assert (named b) as Hb.
  { subst b. apply exec_inv; [|apply map_Forall_empty]. intros e b _. apply cache_happen_named. }
  split; [done|]. rewrite <-Hm. unfold catalogue. rewrite lookup_fmap. unfold DescribeInstance.
  destruct (instances b !! n) as [s|] eqn:E; cbn; [|done]. exists (status s).
  split; [unfold istatus, status_in; by rewrite E|]. unfold toDomain. rewrite (Hb n s E).
  by destruct (decide (status s = StatusAvailable)), (bool_decide_reflect (status s = StatusAvailable)).
Qed.
