(* ===== verification/ElastiCache.v ===== *)
(** * The ElastiCache frontend

    Models [internal/cache/frontends/aws_elasticache] (the adapter of
    [domain.Cache]) and the handlers and table of routes of
    [services/cache/gen/aws_elasticache.gen.go], then proves that a session is
    served from the catalogue of caches.  Messages keep the fields the adapter
    reads; decoding the others has no effect and no errors.  The pointers that
    the adapter fills in are never nil, so they are values here.  [Quote] is the
    %q verb of the domain's messages. *)

From S2P Require Import Prelude GoStrings GoBytes GoHttp GoUrl AwsQuery Lifecycle Cache.

(** ** domain.Cache

    [Draws] is what a call of the implementation draws from outside, and
    [y_others] what other callers and the backend's goroutines do between two
    calls of one handler. *)

Class Cache_ (St : Type) := {
  Draws : Type;
  y_others : Draws → St → St;
  y_CreateInstance : Draws → string → CreateInstanceOptions → St → St * result CreateInstanceResult;
  y_DeleteInstance : string → St → St * result unit;
  y_DescribeInstance : string → St → St * result Instance_;
  y_ListInstances : ListInstancesOptions → St → St * result ListInstancesResult;
  y_ModifyInstance : string → ModifyInstanceOptions → St → St * result unit;
  y_RebootInstance : string → St → St * result unit }.
Arguments Draws St {_}.

Abbreviation world := (World (St := Backend) (Tm := timer)).

(** The in-process backend with its sleeping goroutines. *)
Record draws := mkDraws { d_now : Time; d_random : bytes; d_others : world → world }.

#[export] Instance inmem_cache : Cache_ world := {|
  Draws := draws;
  y_others := d_others;
  y_CreateInstance := λ d n opt, call_in (CreateInstance (d_now d) (d_random d) n opt);
  y_DeleteInstance := λ n, call_in (DeleteInstance n);
  y_DescribeInstance := λ n, call_in (DescribeInstance n);
  y_ListInstances := λ opt, call_in (ListInstances opt);
  y_ModifyInstance := λ n opt, call_in (ModifyInstance n opt);
  y_RebootInstance := λ n, call_in (RebootInstance n) |}.

(** ** Generated types *)

Record CreateCacheClusterMessage := mkCreateCacheClusterMessage {
  ccm_AuthToken : option string; ccm_CacheClusterId : string; ccm_CacheNodeType : option string;
  ccm_EngineVersion : option string }.
Record DeleteCacheClusterMessage := mkDeleteCacheClusterMessage { dcm_CacheClusterId : string }.
Record DescribeCacheClustersMessage := mkDescribeCacheClustersMessage { scm_CacheClusterId : option string }.
Record ModifyCacheClusterMessage := mkModifyCacheClusterMessage {
  mcm_AuthToken : option string; mcm_CacheClusterId : string; mcm_CacheNodeType : option string }.
Record RebootCacheClusterMessage := mkRebootCacheClusterMessage { rcm_CacheClusterId : string }.

Record Endpoint := mkEndpoint { Endpoint_Address : string; Endpoint_Port : Z }.
Record CacheCluster := mkCacheCluster {
  CacheClusterId : string; CacheClusterStatus : string; cc_Engine : string; cc_EngineVersion : string;
  CacheNodeType : string; ConfigurationEndpoint : option Endpoint }.

(** A cluster for CreateCacheCluster, DeleteCacheCluster, ModifyCacheCluster and
    RebootCacheCluster. *)
Inductive output :=
  | CacheClusterResult (CacheCluster_ : CacheCluster)
  | CacheClusterMessage (CacheClusters : list CacheCluster).

(** ** The adapter *)

Definition strDeref (p : option string) : string := default "" p.
Definition awsStatusFromDomain (s : Status) : string :=
  match s with
  | StatusCreating => "creating" | StatusAvailable => "available" | StatusModifying => "modifying"
  | StatusRebooting => "rebooting cache cluster nodes" | StatusDeleting => "deleting" | StatusUnknown => "unknown"
  end.

Definition instanceToAWS (inst : Instance_) : CacheCluster :=
  let c := Instance_Connection inst in
  mkCacheCluster (Instance_Name inst) (awsStatusFromDomain (Instance_Status inst)) "redis" (Instance_EngineVersion inst)
    (Instance_NodeType inst)
    (if bool_decide (Instance_Status inst = StatusAvailable) && negb (String.eqb (Host c) "")
     then Some (mkEndpoint (Host c) (wrap_s 32 (Port c))) else None).

(** [domain.Instance{}], with the fields some answers set. *)
Definition Instance_of (name : string) (st : Status) : Instance_ := mkInstance name "" "" 0 st noConnection zeroTime.

Definition invalid_parameter (message : string) : api_error :=
  EBackend (mkBackendError 400 "Sender" "InvalidParameterValue" message).

Section adapter.
Context `{Cache_ St} (Quote : string → string).
Implicit Types (s : St) (d : Draws St).

(** Every error of the domain is a [*domain.Error]. *)
Definition mapDomainErr (err : error) : api_error :=
  let 'DomainError kind _ _ _ := err in
  let sender status code := EBackend (mkBackendError status "Sender" code (Error_text Quote err)) in
  match kind with
  | KindNoSuchInstance => sender 404 "CacheClusterNotFound"
  | KindInstanceAlreadyExists => sender 400 "CacheClusterAlreadyExists"
  | KindInvalidArgument => sender 400 "InvalidParameterValue"
  | _ => EBackend (mkBackendError 500 "Receiver" "InternalFailure" (Error_text Quote err))
  end.

(** A call of the domain whose error ends the method. *)
Definition call {A B} (c : St * result A) (k : A → St → St * api B) : St * api B :=
  match c.2 with
  | Ok a => k a c.1
  | Err e => (c.1, Err (mapDomainErr e))
  | Panic => (c.1, Panic)
  end.

(** [inst, _ := a.s.DescribeInstance(ctx, name)] after a call that succeeded. *)
Definition described d (name : string) s : St * api output :=
  match y_DescribeInstance name (y_others d s) with
  | (s, Ok inst) => (s, Ok (CacheClusterResult (instanceToAWS inst)))
  | (s, Err _) => (s, Ok (CacheClusterResult (instanceToAWS (Instance_of "" StatusUnknown))))
  | (s, Panic) => (s, Panic)
  end.

Definition Adapter_CreateCacheCluster d (i : CreateCacheClusterMessage) s : St * api output :=
  if String.eqb (ccm_CacheClusterId i) "" then (s, Err (invalid_parameter "CacheClusterId is required"))
  else call (y_CreateInstance d (ccm_CacheClusterId i)
      (mkCreateInstanceOptions (strDeref (ccm_EngineVersion i)) (strDeref (ccm_CacheNodeType i)) 0
        (strDeref (ccm_AuthToken i))) s)
    (λ res s, (s, Ok (CacheClusterResult (instanceToAWS (cir_Instance res))))).

Definition Adapter_DeleteCacheCluster (i : DeleteCacheClusterMessage) s : St * api output :=
  call (y_DeleteInstance (dcm_CacheClusterId i) s) (λ _ s,
    (s, Ok (CacheClusterResult (instanceToAWS (Instance_of (dcm_CacheClusterId i) StatusDeleting))))).

Definition Adapter_DescribeCacheClusters (i : DescribeCacheClustersMessage) s : St * api output :=
  let name := strDeref (scm_CacheClusterId i) in
  if negb (String.eqb name "")
  then call (y_DescribeInstance name s) (λ inst s, (s, Ok (CacheClusterMessage [instanceToAWS inst])))
  else call (y_ListInstances (mkListInstancesOptions "" 0 "") s) (λ res s,
    (s, Ok (CacheClusterMessage (instanceToAWS <$> lir_Instances res)))).

Definition Adapter_ModifyCacheCluster d (i : ModifyCacheClusterMessage) s : St * api output :=
  call (y_ModifyInstance (mcm_CacheClusterId i)
      (mkModifyInstanceOptions (strDeref (mcm_CacheNodeType i)) (strDeref (mcm_AuthToken i))) s)
    (λ _, described d (mcm_CacheClusterId i)).

Definition Adapter_RebootCacheCluster d (i : RebootCacheClusterMessage) s : St * api output :=
  call (y_RebootInstance (rcm_CacheClusterId i) s) (λ _, described d (rcm_CacheClusterId i)).
End adapter.

(** ** Handlers and routes *)

Inductive cache_op :=
  | CreateCacheClusterHandler | DeleteCacheClusterHandler | DescribeCacheClustersHandler | ModifyCacheClusterHandler
  | RebootCacheClusterHandler.
Definition op_name (o : cache_op) : string :=
  match o with
  | CreateCacheClusterHandler => "CreateCacheCluster" | DeleteCacheClusterHandler => "DeleteCacheCluster"
  | DescribeCacheClustersHandler => "DescribeCacheClusters" | ModifyCacheClusterHandler => "ModifyCacheCluster"
  | RebootCacheClusterHandler => "RebootCacheCluster"
  end.
Definition cache_ops : list cache_op :=
  [CreateCacheClusterHandler; DeleteCacheClusterHandler; DescribeCacheClustersHandler; ModifyCacheClusterHandler;
   RebootCacheClusterHandler].
Definition RegisterElastiCacheRoutes : Router cache_op :=
  fold_left (λ rt o, Register (op_name o) o rt) cache_ops (NewRouter "AmazonElastiCacheV9").

Section decoding.
Context (form : gmap string (list string)).

Definition decode_CreateCacheCluster : CreateCacheClusterMessage :=
  mkCreateCacheClusterMessage (form_field form "AuthToken") (Query_Get form "CacheClusterId")
    (form_field form "CacheNodeType") (form_field form "EngineVersion").
Definition decode_DeleteCacheCluster : DeleteCacheClusterMessage :=
  mkDeleteCacheClusterMessage (Query_Get form "CacheClusterId").
Definition decode_DescribeCacheClusters : DescribeCacheClustersMessage :=
  mkDescribeCacheClustersMessage (form_field form "CacheClusterId").
Definition decode_ModifyCacheCluster : ModifyCacheClusterMessage :=
  mkModifyCacheClusterMessage (form_field form "AuthToken") (Query_Get form "CacheClusterId")
    (form_field form "CacheNodeType").
Definition decode_RebootCacheCluster : RebootCacheClusterMessage :=
  mkRebootCacheClusterMessage (Query_Get form "CacheClusterId").
End decoding.

Section handlers.
Context `{Cache_ St} (Quote : string → string) (d : Draws St).

Definition Adapter_serve (o : cache_op) (form : gmap string (list string)) : St → St * api output :=
  match o with
  | CreateCacheClusterHandler => Adapter_CreateCacheCluster Quote d (decode_CreateCacheCluster form)
  | DeleteCacheClusterHandler => Adapter_DeleteCacheCluster Quote (decode_DeleteCacheCluster form)
  | DescribeCacheClustersHandler => Adapter_DescribeCacheClusters Quote (decode_DescribeCacheClusters form)
  | ModifyCacheClusterHandler => Adapter_ModifyCacheCluster Quote d (decode_ModifyCacheCluster form)
  | RebootCacheClusterHandler => Adapter_RebootCacheCluster Quote d (decode_RebootCacheCluster form)
  end.

Definition handle (o : cache_op) (form : gmap string (list string)) (s : St) : St * option (Response (payload output)) :=
  reply (op_name o) (Adapter_serve o form s) Some.

Definition ElastiCache_ServeHTTP (parse_params : string → string → string * option string) (r : Request) (s : St)
    : St * option (Response (payload output)) :=
  Query_ServeHTTP Quote parse_params handle RegisterElastiCacheRoutes r s.

(** [New], at the time [now]. *)
Definition ElastiCache_New (getenv : string → string) (now : Time) (parse_params : string → string → string * option string)
    : Request → St → St * option (Response (payload output)) :=
  Query_New Quote "elasticache" getenv now (ElastiCache_ServeHTTP parse_params).
End handlers.

(** * The ElastiCache frontend: properties *)

(** ** Sessions and the catalogue *)

Inductive command :=
  | Create (n version node token : string)
  | Modify (n node token : string)
  | Reboot (n : string)
  | Delete (n : string)
  | Describe (n : string).

Definition command_name (c : command) : string :=
  match c with Create n _ _ _ | Modify n _ _ | Reboot n | Delete n | Describe n => n end.
Definition command_op (c : command) : cache_op :=
  match c with
  | Create _ _ _ _ => CreateCacheClusterHandler | Modify _ _ _ => ModifyCacheClusterHandler
  | Reboot _ => RebootCacheClusterHandler | Delete _ => DeleteCacheClusterHandler | Describe _ => DescribeCacheClustersHandler
  end.
Definition command_fields (c : command) : list (string * string) :=
  ("CacheClusterId", command_name c) ::
  match c with
  | Create _ v nt t => [("Engine", "redis"); ("EngineVersion", v); ("CacheNodeType", nt); ("AuthToken", t)]
  | Modify _ nt t => [("CacheNodeType", nt); ("AuthToken", t)]
  | _ => []
  end.
Definition command_form (c : command) : list (string * string) := ("Action", op_name (command_op c)) :: command_fields c.
Definition sendable (c : command) : Prop := command_name c ≠ "" ∧ small (command_form c).

(** What the command asks of the domain. *)
Definition domain_op (d : draws) (c : command) : op :=
  match c with
  | Create n v nt t => OpCreateInstance (d_now d) (d_random d) n (mkCreateInstanceOptions v nt 0 t)
  | Modify n nt t => OpModifyInstance n (mkModifyInstanceOptions nt t)
  | Reboot n => OpRebootInstance n
  | Delete n => OpDeleteInstance n
  | Describe n => OpDescribeInstance n
  end.

(** A catalogue entry as an answer shows it: the endpoint when it is available. *)
Definition cluster_of (n : string) (c : config) (st : string) : CacheCluster :=
  mkCacheCluster n st "redis" (c_engineVersion c) (c_nodeType c)
    (if bool_decide (st = "available") then Some (mkEndpoint "localhost" 6379) else None).

Abbreviation answer := (Response (payload output)).
Definition done_with (c : command) (cl : CacheCluster) : answer :=
  WriteResult (op_name (command_op c)) (Some (CacheClusterResult cl)).

(** The answer to a command from the catalogue it finds: the statuses that an
    operation sets are in its answer, DescribeCacheClusters shows any. *)
Definition answers (Quote : string → string) (c : command) (m : gmap string config) (r : answer) : Prop :=
  let n := command_name c in
  match c, m !! n with
  | Create _ v nt _, None => r = done_with c (mkCacheCluster n "creating" "redis" v nt None)
  | Create _ _ _ _, Some _ =>
      r = WriteError 400 "Sender" "CacheClusterAlreadyExists" ("cache instance " +:+ Quote n +:+ " already exists")
  | _, None => r = WriteError 404 "Sender" "CacheClusterNotFound" ("cache instance " +:+ Quote n +:+ " does not exist")
  | Modify _ nt _, Some cfg =>
      r = done_with c (mkCacheCluster n "modifying" "redis" (c_engineVersion cfg)
                         (if decide (nt = "") then c_nodeType cfg else nt) None)
  | Reboot _, Some cfg => r = done_with c (cluster_of n cfg "rebooting cache cluster nodes")
  | Delete _, Some _ => r = done_with c (mkCacheCluster n "deleting" "redis" "" "" None)
  | Describe _, Some cfg =>
      ∃ st, r = WriteResult "DescribeCacheClusters" (Some (CacheClusterMessage [cluster_of n cfg st]))
  end.

Section serve.
Context (Quote : string → string) (params : string → string → string * option string).
Implicit Types (w : world) (d : draws).

Definition cache_serve d (r : Request) w : world * option answer := ElastiCache_ServeHTTP Quote (d : Draws world) params r w.

Lemma cache_serve_form d o kvs w :
  small (("Action", op_name o) :: kvs) →
  cache_serve d (form_post (("Action", op_name o) :: kvs)) w =
    handle Quote (d : Draws world) o (form_of (("Action", op_name o) :: kvs)) w.
Proof. intros Hs. apply Query_ServeHTTP_form; [done|by destruct o|by destruct o]. Qed.

Lemma shown_config n s : name s = n → instanceToAWS (toDomain s) = cluster_of n (config_of s) (awsStatusFromDomain (status s)).
Proof.
  intros <-. unfold instanceToAWS, toDomain, cluster_of. cbn. by destruct (status s).
Qed.

Lemma catalogue_lookup n b : catalogue b !! n = config_of <$> instances b !! n.
Proof. apply lookup_fmap. Qed.

(** The describe that follows a successful change of the instance. *)
Lemma described_after d n w s :
  (∀ w, d_others d w = w) → name s = n → instances (w_backend w) !! n = Some s →
  described d n w = (w, Ok (CacheClusterResult (cluster_of n (config_of s) (awsStatusFromDomain (status s))))).
Proof.
  intros Ho Hn Hs. unfold described. cbn. rewrite Ho. unfold call_in, DescribeInstance. rewrite Hs.
  rewrite (shown_config n) by done. destruct w. cbn. by rewrite app_nil_r.
Qed.

(** What the handlers decode a command to. *)
Lemma command_decoded d c w :
  sendable c →
  Adapter_serve Quote (d : Draws world) (command_op c) (form_of (command_form c)) w =
    match domain_op d c with
    | OpCreateInstance now random n opt => call Quote (call_in (CreateInstance now random n opt) w) (λ res w,
        (w, Ok (CacheClusterResult (instanceToAWS (cir_Instance res)))))
    | OpModifyInstance n opt => call Quote (call_in (ModifyInstance n opt) w) (λ _, described d n)
    | OpRebootInstance n => call Quote (call_in (RebootInstance n) w) (λ _, described d n)
    | OpDeleteInstance n => call Quote (call_in (DeleteInstance n) w) (λ _ w,
        (w, Ok (CacheClusterResult (instanceToAWS (Instance_of n StatusDeleting)))))
    | OpDescribeInstance n => call Quote (call_in (DescribeInstance n) w) (λ inst w,
        (w, Ok (CacheClusterMessage [instanceToAWS inst])))
    | OpListInstances _ => (w, Panic)
    end.
Proof.
  intros [Hne _]. apply String.eqb_neq in Hne.
  destruct c as [n v nt t|n nt t|n|n|n]; cbn [command_op Adapter_serve domain_op command_name] in *;
    unfold command_form, command_fields, Adapter_CreateCacheCluster, Adapter_ModifyCacheCluster, Adapter_RebootCacheCluster,
      Adapter_DeleteCacheCluster, Adapter_DescribeCacheClusters, decode_CreateCacheCluster, decode_ModifyCacheCluster,
      decode_RebootCacheCluster, decode_DeleteCacheCluster, decode_DescribeCacheClusters, strDeref;
    cbn [ccm_AuthToken ccm_CacheClusterId ccm_CacheNodeType ccm_EngineVersion mcm_AuthToken mcm_CacheClusterId
      mcm_CacheNodeType rcm_CacheClusterId dcm_CacheClusterId scm_CacheClusterId command_name];
    rewrite ?form_field_default; form_fields; rewrite ?Hne; reflexivity.
Qed.

(** One command. *)
Lemma command_served d c w :
  (∀ w, d_others d w = w) → named (w_backend w) → sendable c →
  ∃ w' r, cache_serve d (form_post (command_form c)) w = (w', Some r) ∧
    w_backend w' = happen (Called (domain_op d c)) (w_backend w) ∧ answers Quote c (catalogue (w_backend w)) r.
Proof.
  intros Ho Hb Hc. pose proof Hc as [_ Hs].
  rewrite (cache_serve_form d (command_op c) (command_fields c) w Hs : cache_serve d (form_post (command_form c)) w = _).
  unfold handle. fold (command_form c). rewrite (command_decoded d c w Hc). unfold answers. rewrite catalogue_lookup.
  destruct (instances (w_backend w) !! command_name c) as [s|] eqn:E; [pose proof (Hb _ _ E) as Hn|];
    destruct c as [n v nt t|n nt t|n|n|n]; cbn [command_name domain_op happen lc_run cache_lifecycle run] in *;
    unfold call, call_in, CreateInstance, ModifyInstance, RebootInstance, DeleteInstance, DescribeInstance; rewrite E; cbn [fst snd].
  - by eexists _, _.
  - erewrite (described_after d n _ _ Ho); [| |cbn; by rewrite lookup_insert_eq]; [|done]. eexists _, _. split; [done|]. split; [done|].
    cbn. by rewrite if_eqb_decide.
  - erewrite (described_after d n _ _ Ho); [| |cbn; by rewrite lookup_insert_eq]; [|done]. by eexists _, _.
  - by eexists _, _.
  - rewrite (shown_config n) by done. eexists _, _. split; [done|]. split; [done|]. by eexists.
  - unfold reply. cbn [fst snd ci_AuthToken]. destruct (String.eqb t ""); by eexists _, _.
  - by eexists _, _.
  - by eexists _, _.
  - by eexists _, _.
  - by eexists _, _.
Qed.

(** A move of a session: a command, or the end of the sleep of one of the
    goroutines asleep. *)
Inductive move := Asks (d : draws) (c : command) | Wakes (i : nat).
(** What a move did. *)
Inductive entry := Answered (d : draws) (c : command) (r : option answer) | Finished (t : timer) | Nothing.

Definition play_one (m : move) w : world * entry :=
  match m with
  | Asks d c => let '(w', r) := cache_serve d (form_post (command_form c)) w in (w', Answered d c r)
  | Wakes i =>
      match w_asleep w !! i with
      | Some t => (mkWorld (fire t (w_backend w)) (delete i (w_asleep w)), Finished t)
      | None => (w, Nothing)
      end
  end.
Fixpoint play (ms : list move) w : world * list entry :=
  match ms with
  | [] => (w, [])
  | m :: ms => let '(w, e) := play_one m w in let '(w, es) := play ms w in (w, e :: es)
  end.

(** The catalogue after an entry, and what the entry must be like before it. *)
Definition after (e : entry) (m : gmap string config) : gmap string config :=
  match e with
  | Answered d c _ => configure (Called (domain_op d c)) m
  | Finished t => configure (Woke t) m
  | Nothing => m
  end.
Definition entry_agrees (e : entry) (m : gmap string config) : Prop :=
  match e with Answered _ c r => ∃ x, r = Some x ∧ answers Quote c m x | _ => True end.
Fixpoint agree (es : list entry) (m : gmap string config) : Prop :=
  match es with [] => True | e :: es => entry_agrees e m ∧ agree es (after e m) end.

Definition playable (m : move) : Prop :=
  match m with Asks d c => (∀ w, d_others d w = w) ∧ sendable c | Wakes _ => True end.

Lemma play_one_agrees m w : playable m → named (w_backend w) →
  let '(w', e) := play_one m w in
  named (w_backend w') ∧ entry_agrees e (catalogue (w_backend w)) ∧
  catalogue (w_backend w') = after e (catalogue (w_backend w)).
Proof.
  intros Hm Hb. destruct m as [d c|i]; cbn.
  - destruct Hm as [Ho Hc]. destruct (command_served d c w Ho Hb Hc) as (w' & r & -> & E & Ha).
    rewrite E, happen_configure. split_and!; [by apply cache_happen_named|by exists r|done].
  - destruct (w_asleep w !! i) as [t|]; [|done]. cbn [w_backend].
    change (fire t (w_backend w)) with (happen (Woke t) (w_backend w)). rewrite happen_configure.
    split_and!; [by apply cache_happen_named|done|done].
Qed.

Lemma play_agrees ms w : Forall playable ms → named (w_backend w) →
  let '(w', es) := play ms w in
  length es = length ms ∧ agree es (catalogue (w_backend w)) ∧
  catalogue (w_backend w') = fold_left (λ m e, after e m) es (catalogue (w_backend w)).
Proof.
  revert w. induction ms as [|m ms IH]; intros w Hms Hb; cbn; [done|]. apply Forall_cons in Hms as [Hm Hms].
  pose proof (play_one_agrees m w Hm Hb) as H1. destruct (play_one m w) as [w1 e]. destruct H1 as (Hb1 & He & E1).
  specialize (IH w1 Hms Hb1). destruct (play ms w1) as [w2 es]. destruct IH as (Hl & Ha & E2). cbn.
  rewrite Hl, <-E1. done.
Qed.
End serve.

Lemma reachable_named (w : world) : reachable w → named (w_backend w).
Proof.
  apply (reachable_inv named); [apply map_Forall_empty| |]; [intros o b|intros t b];
    [apply (cache_happen_named (Called o) b)|apply (cache_happen_named (Woke t) b)].
Qed.

(** C13: Sessions of an ElastiCache client are served from the catalogue of its
    caches.  From any reachable world, let the client send any commands over
    HTTP, as forms within the size limit that name a cache, while the backend's
    goroutines wake up in between in any order; no other caller changes the
    backend between the two domain calls of a modification or a reboot.  Every
    command is answered, and by the catalogue that the entries
    before it determine: a creation of a taken name and a command on a name that
    is not there are refused with ElastiCache's codes.  A creation, a
    modification and a reboot are answered with the entry as they leave it and
    "creating", "modifying" or "rebooting cache cluster nodes", a deletion with
    the name and "deleting" alone, and DescribeCacheClusters with the entry, its
    endpoint exactly when it is shown as available.  A modification
    replaces the fields it sets, and an entry leaves the catalogue only when
    the goroutine of a deletion wakes up. *)
Theorem elasticache_sessions_keep_catalogue (Quote : string → string)
    (params : string → string → string * option string) (ms : list move) (w : world) :
  reachable w → Forall playable ms →
  let '(w', es) := play Quote params ms w in
  let m := catalogue (w_backend w) in
  length es = length ms ∧ agree Quote es m ∧ catalogue (w_backend w') = fold_left (λ m e, after e m) es m.
Proof. intros Hr Hms. apply play_agrees; [done|]. by apply reachable_named. Qed.

Definition ec_demo_draws : draws := mkDraws 7 [] Datatypes.id.
Definition ec_demo_moves : list move :=
  [Asks ec_demo_draws (Create "c" "7.1" "cache.t3.micro" "tok"); Asks ec_demo_draws (Create "c" "" "" "");
   Asks ec_demo_draws (Modify "c" "cache.m5.large" ""); Wakes 0; Wakes 0; Asks ec_demo_draws (Describe "c");
   Asks ec_demo_draws (Delete "c"); Wakes 0; Asks ec_demo_draws (Reboot "c")].

Definition statuses (es : list entry) : list Z :=
  omap (λ e, match e with Answered _ _ (Some r) => Some (GoHttp.Status r) | _ => None end) es.

Lemma elasticache_sessions_keep_catalogue_witness :
  let '(w', es) := play Datatypes.id (λ t _, (t, None)) ec_demo_moves start in
  agree Datatypes.id es ∅ ∧ statuses es = [200; 400; 200; 200; 200; 404]%Z.
Proof.
  pose proof (elasticache_sessions_keep_catalogue Datatypes.id (λ t _, (t, None)) ec_demo_moves start) as H.
  destruct (play Datatypes.id (λ t _, (t, None)) ec_demo_moves start) as [w' es] eqn:E.
  destruct H as (_ & Ha & _); [constructor|repeat (apply Forall_cons; split; [try (split; [done|]; split; vm_compute; done); done|]); by apply Forall_nil|].
  split; [exact Ha|]. apply (f_equal snd) in E. cbn [snd] in E. rewrite <-E. by vm_compute.
Defined.
