(* ===== verification/Functions.v ===== *)
(** * Functions: domain types, errors and the in-process backend

    Models [internal/functions/domain] and [services/functions/backends/inmem],
    the lifecycle of deployed container images.  Goroutines are timers, as in
    the file Cache. *)

From S2P Require Import Prelude GoStrings GoBytes Lifecycle.

(** ** domain/errors.go *)

Inductive Kind := KindUnknown | KindNoSuchFunction | KindFunctionAlreadyExists | KindInvalidArgument.
#[export] Instance Kind_eq_dec : EqDecision Kind.
Proof. solve_decision. Defined.

Inductive error :=
  | DomainError (Kind_ : Kind) (Resource : string) (Message : string) (Inner : option error).

(** [Quote] is the [%q] of the format strings ([strconv.Quote]). *)
Definition Error_text (Quote : string → string) (e : error) : string :=
  let 'DomainError k r m _ := e in
  match k with
  | KindNoSuchFunction => "function " +:+ Quote r +:+ " does not exist"
  | KindFunctionAlreadyExists => "function " +:+ Quote r +:+ " already exists"
  | KindInvalidArgument => m
  | KindUnknown => if String.eqb m "" then "functions domain error" else m
  end.
Definition Unwrap (e : error) : option error := let 'DomainError _ _ _ i := e in i.

Definition NoSuchFunction (name : string) : error := DomainError KindNoSuchFunction name "" None.
Definition FunctionAlreadyExists (name : string) : error := DomainError KindFunctionAlreadyExists name "" None.
Definition InvalidArgument (message : string) : error := DomainError KindInvalidArgument "" message None.

Abbreviation result := (outcome error).

(** ** domain/domain.go *)

Inductive Status := StatusUnknown | StatusCreating | StatusAvailable | StatusUpdating | StatusDeleting.
#[export] Instance Status_eq_dec : EqDecision Status.
Proof. solve_decision. Defined.
Definition Status_String (s : Status) : string :=
  match s with
  | StatusCreating => "creating" | StatusAvailable => "available" | StatusUpdating => "updating"
  | StatusDeleting => "deleting" | StatusUnknown => "unknown"
  end.

Record Endpoint := mkEndpoint { URL : string }.
Record Function_ := mkFunction {
  Function_Name : string; Function_Image : string; Function_Status : Status; Function_Endpoint : Endpoint;
  Function_Environment : strmap; Function_MemoryBytes : Z; Function_CPUMilliCores : Z;
  Function_TimeoutSeconds : Z; Function_Role : string; Function_Publish : bool; Function_CreatedAt : Time }.
Record CreateFunctionOptions := mkCreateFunctionOptions {
  cf_Image : string; cf_Environment : strmap; cf_MemoryBytes : Z; cf_CPUMilliCores : Z; cf_TimeoutSeconds : Z;
  cf_Role : string; cf_Publish : bool }.
Record UpdateFunctionOptions := mkUpdateFunctionOptions {
  uf_Image : string; uf_Environment : strmap; uf_MemoryBytes : Z; uf_CPUMilliCores : Z; uf_TimeoutSeconds : Z;
  uf_Role : string; uf_Publish : bool }.
Record ListFunctionsOptions := mkListFunctionsOptions {
  lf_Prefix : string; lf_MaxResults : Z; lf_NextToken : string }.
Record ListFunctionsResult := mkListFunctionsResult { lfr_Functions : list Function_; lfr_NextToken : string }.

(** ** inmem.go: state and goroutines *)

Record functionState := mkFunctionState {
  name : string; image : string; status : Status; environment : strmap; memoryBytes : Z; cpuMilliCores : Z;
  timeoutSeconds : Z; role : string; publish : bool; createdAt : Time }.
Record Backend := mkBackend { functions : gmap string functionState }.

Definition New : Backend := mkBackend ∅.

Definition copyMap (m : strmap) : strmap := copy_map m.

Inductive timer :=
  | Available_after (name : string)                 (* scheduleAvailable *)
  | Delete_after (name : string)
  | Updated_after (name : string).
#[export] Instance timer_eq_dec : EqDecision timer.
Proof. solve_decision. Defined.

Definition set_function (b : Backend) (n : string) (s : functionState) : Backend :=
  mkBackend (<[n := s]> (functions b)).
Definition with_status (s : functionState) (st : Status) : functionState :=
  mkFunctionState (name s) (image s) st (environment s) (memoryBytes s) (cpuMilliCores s) (timeoutSeconds s)
    (role s) (publish s) (createdAt s).

(** [if s, ok := b.functions[name]; ok && ... { s.status = StatusAvailable }] *)
Definition flip (when_ : Status → bool) (n : string) (b : Backend) : Backend :=
  mkBackend (flip_in status with_status when_ StatusAvailable n (functions b)).

Definition fire (t : timer) (b : Backend) : Backend :=
  match t with
  | Available_after n => flip (λ s, bool_decide (s ≠ StatusDeleting)) n b
  | Delete_after n => mkBackend (delete n (functions b))
  | Updated_after n => flip (λ s, bool_decide (s = StatusUpdating)) n b
  end.

Definition toDomain (s : functionState) : Function_ :=
  mkFunction (name s) (image s) (status s)
    (mkEndpoint (if bool_decide (status s = StatusAvailable) then "http://localhost:8080/" +:+ name s else ""))
    (copyMap (environment s)) (memoryBytes s) (cpuMilliCores s) (timeoutSeconds s) (role s) (publish s)
    (createdAt s).

(** ** Operations: the state, the goroutines started, the results *)

Abbreviation op_result A := (Backend * list timer * result A)%type.

Definition CreateFunction (now : Time) (n : string) (opt : CreateFunctionOptions) (b : Backend)
    : op_result Function_ :=
  if String.eqb (cf_Image opt) "" then (b, [], Err (InvalidArgument "Image is required"))
  else match functions b !! n with
  | Some _ => (b, [], Err (FunctionAlreadyExists n))
  | None =>
      let s := mkFunctionState n (cf_Image opt) StatusCreating (copyMap (cf_Environment opt))
                 (cf_MemoryBytes opt) (cf_CPUMilliCores opt) (cf_TimeoutSeconds opt) (cf_Role opt)
                 (cf_Publish opt) now in
      (set_function b n s, [Available_after n], Ok (toDomain s))
  end.

Definition DeleteFunction (n : string) (b : Backend) : op_result unit :=
  match functions b !! n with
  | None => (b, [], Err (NoSuchFunction n))
  | Some s => (set_function b n (with_status s StatusDeleting), [Delete_after n], Ok ())
  end.

Definition DescribeFunction (n : string) (b : Backend) : op_result Function_ :=
  match functions b !! n with
  | None => (b, [], Err (NoSuchFunction n))
  | Some s => (b, [], Ok (toDomain s))
  end.

Definition ListFunctions (opt : ListFunctionsOptions) (b : Backend) : op_result ListFunctionsResult :=
  let names := names_with (lf_Prefix opt) (functions b) in
  (b, [], Ok (mkListFunctionsResult
    (list_upto (lf_MaxResults opt) 0 (omap (λ n, toDomain <$> functions b !! n) names)) "")).

Definition UpdateFunction (n : string) (opt : UpdateFunctionOptions) (b : Backend) : op_result unit :=
  match functions b !! n with
  | None => (b, [], Err (NoSuchFunction n))
  | Some s =>
      let s := mkFunctionState (name s)
        (if String.eqb (uf_Image opt) "" then image s else uf_Image opt)
        StatusUpdating
        (match uf_Environment opt with Some _ => copyMap (uf_Environment opt) | None => environment s end)
        (if 0 <? uf_MemoryBytes opt then uf_MemoryBytes opt else memoryBytes s)
        (if 0 <? uf_CPUMilliCores opt then uf_CPUMilliCores opt else cpuMilliCores s)
        (if 0 <? uf_TimeoutSeconds opt then uf_TimeoutSeconds opt else timeoutSeconds s)
        (role s) (publish s) (createdAt s) in
      (set_function b n s, [Updated_after n], Ok ())
  end.

(** * Functions: properties of the in-process backend

    The backend as a [Lifecycle], and the catalogue of deployments it keeps
    whatever the statuses do. *)

(** ** The backend as a lifecycle *)

Inductive op :=
  | OpCreateFunction (now : Time) (n : string) (opt : CreateFunctionOptions)
  | OpDeleteFunction (n : string)
  | OpDescribeFunction (n : string)
  | OpListFunctions (opt : ListFunctionsOptions)
  | OpUpdateFunction (n : string) (opt : UpdateFunctionOptions).

Definition run (o : op) (b : Backend) : Backend * list timer :=
  match o with
  | OpCreateFunction now n opt => (CreateFunction now n opt b).1
  | OpDeleteFunction n => (DeleteFunction n b).1
  | OpDescribeFunction n => (DescribeFunction n b).1
  | OpListFunctions opt => (ListFunctions opt b).1
  | OpUpdateFunction n opt => (UpdateFunction n opt b).1
  end.

Definition fstatus (b : Backend) : string → option Status := status_in status (functions b).

(** Which transitional status each goroutine ends. *)
Definition owes (b : Backend) (t : timer) : Prop :=
  match t with
  | Available_after n => fstatus b n = Some StatusCreating
  | Delete_after n => fstatus b n = Some StatusDeleting
  | Updated_after n => fstatus b n = Some StatusUpdating
  end.

Definition status_known (b : Backend) : Prop := map_Forall (λ _ s, status s ≠ StatusUnknown) (functions b).

#[export] Hint Unfold owes fstatus status_known fire flip run CreateFunction DeleteFunction DescribeFunction
  ListFunctions UpdateFunction set_function : lifecycle.

Lemma functions_new_owes t : ¬ owes New t.
Proof. destruct t; unfold owes, fstatus, status_in; cbn; by rewrite lookup_empty. Qed.
Lemma functions_run_owes o b t : owes (run o b).1 t → owes b t ∨ t ∈ (run o b).2.
Proof. destruct o, t; solve_run_owes. Qed.
Lemma functions_fire_owes t b t' : owes (fire t b) t' → owes b t' ∧ t' ≠ t.
Proof. destruct t, t'; solve_fire_owes. Qed.

#[export] Instance functions_lifecycle : Lifecycle Backend op timer := {|
  lc_new := New; lc_run := run; lc_fire := fire; lc_owes := owes;
  lc_new_owes := functions_new_owes; lc_run_owes := functions_run_owes; lc_fire_owes := functions_fire_owes |}.

Lemma functions_run_status_known o b : status_known b → status_known (run o b).1.
Proof. intros Hb. destruct o; unfold_run; try done; by apply map_Forall_insert_2. Qed.

Lemma functions_fire_status_known t b : status_known b → status_known (fire t b).
Proof.
  intros Hb. destruct t; autounfold with lifecycle; cbn;
    first [by apply map_Forall_delete|by apply (map_Forall_flip_in _ _ (λ s, status s ≠ StatusUnknown))].
Qed.

Lemma functions_settled_available b : status_known b → settled b →
  ∀ n s, functions b !! n = Some s → status s = StatusAvailable.
Proof.
  intros Hb Hset n s E. specialize (Hb n s E). cbn in Hb.
  assert (fstatus b n = Some (status s)) as Es by (unfold fstatus, status_in; by rewrite E).
  destruct (status s) eqn:Est; try done; exfalso.
  - by apply (Hset (Available_after n)).
  - by apply (Hset (Updated_after n)).
  - by apply (Hset (Delete_after n)).
Qed.

Lemma functions_available w order :
  reachable w → order ≡ₚ w_asleep w →
  ∀ n s, functions (fire_all order (w_backend w)) !! n = Some s → status s = StatusAvailable.
Proof.
  intros Hr Hp. apply functions_settled_available.
  - apply fire_all_inv; [exact functions_fire_status_known|]. revert Hr.
    apply reachable_inv; [apply map_Forall_empty|exact functions_run_status_known|exact functions_fire_status_known].
  - apply covered_settles; [|done]. by apply reachable_covered.
Qed.

(** ** The catalogue

    What a client deployed, per live name, without the statuses. *)

Record config := mkConfig {
  c_image : string; c_environment : strmap; c_memoryBytes : Z; c_cpuMilliCores : Z; c_timeoutSeconds : Z;
  c_role : string; c_publish : bool; c_createdAt : Time }.

(** Only a successful creation, an update and the goroutine of a deletion
    change the catalogue.  An update replaces the image, the environment, the
    memory, the processor share and the time-out it sets; it never changes the
    role and the publish flag. *)
Definition deploy (e : event) (m : gmap string config) : gmap string config :=
  match e with
  | Called (OpCreateFunction now n opt) =>
      if decide (cf_Image opt = "") then m else
      match m !! n with
      | Some _ => m
      | None => <[n := mkConfig (cf_Image opt) (cf_Environment opt) (cf_MemoryBytes opt) (cf_CPUMilliCores opt)
                   (cf_TimeoutSeconds opt) (cf_Role opt) (cf_Publish opt) now]> m
      end
  | Called (OpUpdateFunction n opt) =>
      alter (λ c, mkConfig
        (if decide (uf_Image opt = "") then c_image c else uf_Image opt)
        (match uf_Environment opt with Some e => Some e | None => c_environment c end)
        (if decide (0 < uf_MemoryBytes opt) then uf_MemoryBytes opt else c_memoryBytes c)
        (if decide (0 < uf_CPUMilliCores opt) then uf_CPUMilliCores opt else c_cpuMilliCores c)
        (if decide (0 < uf_TimeoutSeconds opt) then uf_TimeoutSeconds opt else c_timeoutSeconds c)
        (c_role c) (c_publish c) (c_createdAt c)) n m
  | Woke (Delete_after n) => delete n m
  | _ => m
  end.

Definition config_of (s : functionState) : config :=
  mkConfig (image s) (environment s) (memoryBytes s) (cpuMilliCores s) (timeoutSeconds s) (role s) (publish s)
    (createdAt s).
Definition catalogue (b : Backend) : gmap string config := config_of <$> functions b.

Lemma functions_catalogue_keep (b : Backend) n s s' :
  functions b !! n = Some s → config_of s' = config_of s → config_of <$> <[n := s']> (functions b) = catalogue b.
Proof.
  intros E Es. unfold catalogue. rewrite fmap_insert, Es, insert_id; [done|]. by rewrite lookup_fmap, E.
Qed.

Lemma happen_deploy e b : catalogue (happen e b) = deploy e (catalogue b).
Proof.
  unfold catalogue. destruct e as [o|t].
  - destruct o as [now n opt|n|n|opt|n opt]; cbn; autounfold with lifecycle; rewrite ?lookup_fmap, ?if_eqb_decide;
      try done; try (case_decide; [done|]); (destruct (functions b !! n) as [s|] eqn:E; cbn; [|try done]).
    + done.
    + rewrite fmap_insert. cbn. unfold copyMap. by rewrite copy_map_id.
    + by apply functions_catalogue_keep with s.
    + done.
    + rewrite fmap_insert. apply map_eq. intros k. destruct (decide (n = k)) as [<-|].
      * rewrite lookup_insert_eq, lookup_alter_eq, lookup_fmap, E. unfold copyMap, config_of. cbn.
        rewrite !copy_map_id, if_eqb_decide, !if_ltb_decide. by destruct (uf_Environment opt).
      * by rewrite lookup_insert_ne, lookup_alter_ne.
    + rewrite alter_id; [done|]. intros c. by rewrite lookup_fmap, E.
  - destruct t as [n|n|n]; cbn; try apply fmap_delete; unfold flip_in; repeat case_match; try done;
      by eapply functions_catalogue_keep.
Qed.

Definition named (b : Backend) : Prop := map_Forall (λ n s, name s = n) (functions b).

Lemma functions_happen_named e b : named b → named (happen e b).
Proof.
  unfold named. intros Hb. destruct e as [o|t].
  - destruct o; cbn; unfold_run; try done; apply map_Forall_insert_2; try done; cbn; by eapply Hb.
  - destruct t; cbn; try (by apply map_Forall_delete); unfold flip_in; repeat case_match; try done;
      apply map_Forall_insert_2; try done; cbn; by eapply Hb.
Qed.

(** ** Properties *)

(** The backend keeps exactly the catalogue of deployments, whatever callers
    and goroutines do and in whatever order; [DescribeFunction] gives the
    catalogue's entry, with its URL exactly when the function is available.  An
    update merges the fields it sets and leaves the role and the publish flag,
    which it ignores. *)
Theorem functions_keep_catalogue (es : list event) (n : string) :
  let b := exec es New in let m := fold_left (λ m e, deploy e m) es ∅ in
  catalogue b = m ∧
  match m !! n with
  | None => DescribeFunction n b = (b, [], Err (NoSuchFunction n))
  | Some c => ∃ st, fstatus b n = Some st ∧
      DescribeFunction n b = (b, [], Ok (mkFunction n (c_image c) st
        (mkEndpoint (if decide (st = StatusAvailable) then "http://localhost:8080/" +:+ n else ""))
        (c_environment c) (c_memoryBytes c) (c_cpuMilliCores c) (c_timeoutSeconds c) (c_role c) (c_publish c)
        (c_createdAt c)))
  end.
Proof.
  intros b m. assert (catalogue b = m) as Hm.
  { subst b m. change (∅ : gmap string config) with (catalogue New).
    generalize New as b0. induction es as [|e es IH]; intros b0; [done|]. cbn. rewrite <-happen_deploy. apply IH. }
  assert (named b) as Hb.
  { subst b. apply exec_inv; [|apply map_Forall_empty]. intros e b _. apply functions_happen_named. }
  split; [done|]. rewrite <-Hm. unfold catalogue. rewrite lookup_fmap. unfold DescribeFunction.
  destruct (functions b !! n) as [s|] eqn:E; cbn; [|done]. exists (status s).
  split; [unfold fstatus, status_in; by rewrite E|]. unfold toDomain, copyMap. rewrite (Hb n s E), copy_map_id.
  by destruct (decide (status s = StatusAvailable)), (bool_decide_reflect (status s = StatusAvailable)).
Qed.
