(* ===== verification/ApiGateway.v ===== *)
(** * API gateways: domain types, errors and the in-process backend

    Models [internal/apigateway/domain] and [services/apigateway/backends/inmem]:
    gateways with routing tables that are replaced as a whole.  Goroutines are
    timers, as in the file Cache. *)

From S2P Require Import Prelude GoStrings GoBytes Lifecycle.

(** ** domain/errors.go *)

Inductive Kind := KindUnknown | KindNoSuchGateway | KindGatewayAlreadyExists | KindInvalidArgument.
#[export] Instance Kind_eq_dec : EqDecision Kind.
Proof. solve_decision. Defined.

Inductive error :=
  | DomainError (Kind_ : Kind) (Resource : string) (Message : string) (Inner : option error).

(** [Quote] is the [%q] of the format strings ([strconv.Quote]). *)
Definition Error_text (Quote : string → string) (e : error) : string :=
  let 'DomainError k r m _ := e in
  match k with
  | KindNoSuchGateway => "gateway " +:+ Quote r +:+ " does not exist"
  | KindGatewayAlreadyExists => "gateway " +:+ Quote r +:+ " already exists"
  | KindInvalidArgument => m
  | KindUnknown => if String.eqb m "" then "apigateway domain error" else m
  end.
Definition Unwrap (e : error) : option error := let 'DomainError _ _ _ i := e in i.

Definition NoSuchGateway (name : string) : error := DomainError KindNoSuchGateway name "" None.
Definition GatewayAlreadyExists (name : string) : error := DomainError KindGatewayAlreadyExists name "" None.
Definition InvalidArgument (message : string) : error := DomainError KindInvalidArgument "" message None.

Abbreviation result := (outcome error).

(** ** domain/domain.go *)

Inductive Status := StatusUnknown | StatusCreating | StatusAvailable | StatusUpdating | StatusDeleting.
#[export] Instance Status_eq_dec : EqDecision Status.
Proof. solve_decision. Defined.
Definition Status_String (s : Status) : string :=
  match s with
  | StatusCreating => "creating" | StatusAvailable => "available" | StatusUpdating => "updating"
  | StatusDeleting => "deleting" | StatusUnknown => "unknown"
  end.

Record Endpoint := mkEndpoint { URL : string }.
Record Route := mkRoute { Method : string; Path : string; Route_Backend : string; ID : string }.
(** A [[]Route] can be nil. *)
Record Gateway := mkGateway {
  Gateway_Name : string; Gateway_Status : Status; Gateway_Endpoint : Endpoint;
  Gateway_Routes : option (list Route); Gateway_CreatedAt : Time }.
Record CreateGatewayOptions := mkCreateGatewayOptions { cg_Routes : option (list Route) }.
Record DeployGatewayOptions := mkDeployGatewayOptions { dg_Routes : option (list Route) }.
Record ListGatewaysOptions := mkListGatewaysOptions {
  lg_Prefix : string; lg_MaxResults : Z; lg_NextToken : string }.
Record ListGatewaysResult := mkListGatewaysResult { lgr_Gateways : list Gateway; lgr_NextToken : string }.

(** ** inmem.go: state and goroutines *)

Record gatewayState := mkGatewayState {
  name : string; status : Status; routes : option (list Route); createdAt : Time }.
Record Backend := mkBackend { gateways : gmap string gatewayState }.

Definition New : Backend := mkBackend ∅.

(** [make] and [copy]: every element in its place. *)
Definition cloneRoutes (r : option (list Route)) : option (list Route) :=
  match r with None => None | Some l => Some (map (λ x, x) l) end.

Inductive timer :=
  | Available_after (name : string)                 (* scheduleAvailable *)
  | Delete_after (name : string)
  | Updated_after (name : string).
#[export] Instance timer_eq_dec : EqDecision timer.
Proof. solve_decision. Defined.

Definition set_gateway (b : Backend) (n : string) (s : gatewayState) : Backend :=
  mkBackend (<[n := s]> (gateways b)).
Definition with_status (s : gatewayState) (st : Status) : gatewayState :=
  mkGatewayState (name s) st (routes s) (createdAt s).

(** [if s, ok := b.gateways[name]; ok && ... { s.status = StatusAvailable }] *)
Definition flip (when_ : Status → bool) (n : string) (b : Backend) : Backend :=
  mkBackend (flip_in status with_status when_ StatusAvailable n (gateways b)).

Definition fire (t : timer) (b : Backend) : Backend :=
  match t with
  | Available_after n => flip (λ s, bool_decide (s ≠ StatusDeleting)) n b
  | Delete_after n => mkBackend (delete n (gateways b))
  | Updated_after n => flip (λ s, bool_decide (s = StatusUpdating)) n b
  end.

Definition toDomain (s : gatewayState) : Gateway :=
  mkGateway (name s) (status s)
    (mkEndpoint (if bool_decide (status s = StatusAvailable) then "http://localhost:9700/" +:+ name s else ""))
    (cloneRoutes (routes s)) (createdAt s).

(** ** Operations: the state, the goroutines started, the results *)

Abbreviation op_result A := (Backend * list timer * result A)%type.

Definition CreateGateway (now : Time) (n : string) (opt : CreateGatewayOptions) (b : Backend)
    : op_result Gateway :=
  match gateways b !! n with
  | Some _ => (b, [], Err (GatewayAlreadyExists n))
  | None =>
      let s := mkGatewayState n StatusCreating (cloneRoutes (cg_Routes opt)) now in
      (set_gateway b n s, [Available_after n], Ok (toDomain s))
  end.

Definition DeleteGateway (n : string) (b : Backend) : op_result unit :=
  match gateways b !! n with
  | None => (b, [], Err (NoSuchGateway n))
  | Some s => (set_gateway b n (with_status s StatusDeleting), [Delete_after n], Ok ())
  end.

Definition DescribeGateway (n : string) (b : Backend) : op_result Gateway :=
  match gateways b !! n with
  | None => (b, [], Err (NoSuchGateway n))
  | Some s => (b, [], Ok (toDomain s))
  end.

Definition ListGateways (opt : ListGatewaysOptions) (b : Backend) : op_result ListGatewaysResult :=
  let names := names_with (lg_Prefix opt) (gateways b) in
  (b, [], Ok (mkListGatewaysResult
    (list_upto (lg_MaxResults opt) 0 (omap (λ n, toDomain <$> gateways b !! n) names)) "")).

Definition DeployGateway (n : string) (opt : DeployGatewayOptions) (b : Backend) : op_result unit :=
  match gateways b !! n with
  | None => (b, [], Err (NoSuchGateway n))
  | Some s =>
      (set_gateway b n (mkGatewayState (name s) StatusUpdating (cloneRoutes (dg_Routes opt)) (createdAt s)),
       [Updated_after n], Ok ())
  end.

(** * API gateways: properties of the in-process backend

    The backend as a [Lifecycle], and the routing tables it keeps whatever the
    statuses do. *)

(** ** The backend as a lifecycle *)

Inductive op :=
  | OpCreateGateway (now : Time) (n : string) (opt : CreateGatewayOptions)
  | OpDeleteGateway (n : string)
  | OpDescribeGateway (n : string)
  | OpListGateways (opt : ListGatewaysOptions)
  | OpDeployGateway (n : string) (opt : DeployGatewayOptions).

Definition run (o : op) (b : Backend) : Backend * list timer :=
  match o with
  | OpCreateGateway now n opt => (CreateGateway now n opt b).1
  | OpDeleteGateway n => (DeleteGateway n b).1
  | OpDescribeGateway n => (DescribeGateway n b).1
  | OpListGateways opt => (ListGateways opt b).1
  | OpDeployGateway n opt => (DeployGateway n opt b).1
  end.

Definition gstatus (b : Backend) : string → option Status := status_in status (gateways b).

(** Which transitional status each goroutine ends. *)
Definition owes (b : Backend) (t : timer) : Prop :=
  match t with
  | Available_after n => gstatus b n = Some StatusCreating
  | Delete_after n => gstatus b n = Some StatusDeleting
  | Updated_after n => gstatus b n = Some StatusUpdating
  end.

Definition status_known (b : Backend) : Prop := map_Forall (λ _ s, status s ≠ StatusUnknown) (gateways b).

#[export] Hint Unfold owes gstatus status_known fire flip run CreateGateway DeleteGateway DescribeGateway
  ListGateways DeployGateway set_gateway : lifecycle.

Lemma gateway_new_owes t : ¬ owes New t.
Proof. destruct t; unfold owes, gstatus, status_in; cbn; by rewrite lookup_empty. Qed.
Lemma gateway_run_owes o b t : owes (run o b).1 t → owes b t ∨ t ∈ (run o b).2.
Proof. destruct o, t; solve_run_owes. Qed.
Lemma gateway_fire_owes t b t' : owes (fire t b) t' → owes b t' ∧ t' ≠ t.
Proof. destruct t, t'; solve_fire_owes. Qed.

#[export] Instance gateways_lifecycle : Lifecycle Backend op timer := {|
  lc_new := New; lc_run := run; lc_fire := fire; lc_owes := owes;
  lc_new_owes := gateway_new_owes; lc_run_owes := gateway_run_owes; lc_fire_owes := gateway_fire_owes |}.

Lemma gateway_run_status_known o b : status_known b → status_known (run o b).1.
Proof. intros Hb. destruct o; unfold_run; try done; by apply map_Forall_insert_2. Qed.

Lemma gateway_fire_status_known t b : status_known b → status_known (fire t b).
Proof.
  intros Hb. destruct t; autounfold with lifecycle; cbn;
    first [by apply map_Forall_delete|by apply (map_Forall_flip_in _ _ (λ s, status s ≠ StatusUnknown))].
Qed.

Lemma gateway_settled_available b : status_known b → settled b →
  ∀ n s, gateways b !! n = Some s → status s = StatusAvailable.
Proof.
  intros Hb Hset n s E. specialize (Hb n s E). cbn in Hb.
  assert (gstatus b n = Some (status s)) as Es by (unfold gstatus, status_in; by rewrite E).
  destruct (status s) eqn:Est; try done; exfalso.
  - by apply (Hset (Available_after n)).
  - by apply (Hset (Updated_after n)).
  - by apply (Hset (Delete_after n)).
Qed.

Lemma gateways_available w order :
  reachable w → order ≡ₚ w_asleep w →
  ∀ n s, gateways (fire_all order (w_backend w)) !! n = Some s → status s = StatusAvailable.
Proof.
  intros Hr Hp. apply gateway_settled_available.
  - apply fire_all_inv; [exact gateway_fire_status_known|]. revert Hr.
    apply reachable_inv; [apply map_Forall_empty|exact gateway_run_status_known|exact gateway_fire_status_known].
  - apply covered_settles; [|done]. by apply reachable_covered.
Qed.

(** ** The routing tables *)

(** Only a successful creation, a deployment and the goroutine of a deletion
    change the tables, each table as a whole. *)
Definition publish (e : event) (m : gmap string (option (list Route))) : gmap string (option (list Route)) :=
  match e with
  | Called (OpCreateGateway now n opt) => match m !! n with Some _ => m | None => <[n := cg_Routes opt]> m end
  | Called (OpDeployGateway n opt) => match m !! n with Some _ => <[n := dg_Routes opt]> m | None => m end
  | Woke (Delete_after n) => delete n m
  | _ => m
  end.

Definition tables (b : Backend) : gmap string (option (list Route)) := routes <$> gateways b.

Lemma cloneRoutes_id r : cloneRoutes r = r.
Proof. destruct r as [l|]; [|done]. cbn. by rewrite map_id. Qed.

Lemma tables_keep (b : Backend) n s s' :
  gateways b !! n = Some s → routes s' = routes s → routes <$> <[n := s']> (gateways b) = tables b.
Proof.
  intros E Es. unfold tables. rewrite fmap_insert, Es, insert_id; [done|]. by rewrite lookup_fmap, E.
Qed.

Lemma happen_publish e b : tables (happen e b) = publish e (tables b).
Proof.
  unfold tables. destruct e as [o|t].
  - destruct o as [now n opt|n|n|opt|n opt]; cbn; autounfold with lifecycle; rewrite ?lookup_fmap;
      try done; (destruct (gateways b !! n) as [s|] eqn:E; cbn; try done).
    + by rewrite fmap_insert, cloneRoutes_id.
    + by apply tables_keep with s.
    + by rewrite fmap_insert, cloneRoutes_id.
  - destruct t as [n|n|n]; cbn; try apply fmap_delete; unfold flip_in; repeat case_match; try done;
      by eapply tables_keep.
Qed.

Definition named (b : Backend) : Prop := map_Forall (λ n s, name s = n) (gateways b).

Lemma gateway_happen_named e b : named b → named (happen e b).
Proof.
  unfold named. intros Hb. destruct e as [o|t].
  - destruct o; cbn; unfold_run; try done; apply map_Forall_insert_2; try done; cbn; by eapply Hb.
  - destruct t; cbn; try (by apply map_Forall_delete); unfold flip_in; repeat case_match; try done;
      apply map_Forall_insert_2; try done; cbn; by eapply Hb.
Qed.

(** ** Properties *)

(** Deployments swap the routing table as a whole: whatever callers and
    goroutines do and in whatever order, the routes of a gateway are at every
    moment those of its last deployment, or of its creation when there was
    none, and [DescribeGateway] returns them in their order, with the URL
    exactly when the gateway is available. *)
Theorem deployments_swap_routes (es : list event) (n : string) :
  let b := exec es New in let m := fold_left (λ m e, publish e m) es ∅ in
  tables b = m ∧
  match m !! n with
  | None => DescribeGateway n b = (b, [], Err (NoSuchGateway n))
  | Some rs => ∃ st created, gstatus b n = Some st ∧
      DescribeGateway n b = (b, [], Ok (mkGateway n st
        (mkEndpoint (if decide (st = StatusAvailable) then "http://localhost:9700/" +:+ n else "")) rs created))
  end.
Proof.
  intros b m. assert (tables b = m) as Hm.
  { subst b m. change (∅ : gmap string (option (list Route))) with (tables New).
    generalize New as b0. induction es as [|e es IH]; intros b0; [done|]. cbn. rewrite <-happen_publish. apply IH. }
  assert (named b) as Hb.
  { subst b. apply exec_inv; [|apply map_Forall_empty]. intros e b _. apply gateway_happen_named. }
  split; [done|]. rewrite <-Hm. unfold tables. rewrite lookup_fmap. unfold DescribeGateway.
  destruct (gateways b !! n) as [s|] eqn:E; cbn; [|done]. exists (status s), (createdAt s).
  split; [unfold gstatus, status_in; by rewrite E|]. unfold toDomain. rewrite (Hb n s E), cloneRoutes_id.
  by destruct (decide (status s = StatusAvailable)), (bool_decide_reflect (status s = StatusAvailable)).
Qed.
