(* ===== verification/ProvisioningProps.v ===== *)
(** * Caches, functions and API gateways settle

    The three backends are instances of [Lifecycle] (CacheProps, FunctionsProps,
    ApiGatewayProps); what the interface's theorems say of them is stated here
    once. *)

From S2P Require Import Prelude Lifecycle Cache Functions ApiGateway.

(** In every world of the lifecycle that callers and goroutines can reach, the
    goroutines still asleep lead to a [good] state, in any order. *)
Definition always_settles `{Lifecycle St Op Tm} (good : St → Prop) : Prop :=
  ∀ (w : @World St Tm) order, reachable w → order ≡ₚ w_asleep w → good (fire_all order (w_backend w)).

(** C37: Whatever callers do to caches, functions and gateways and however the
    goroutines interleave, once every goroutine that is asleep has woken up, in
    any order, each of them is available (with its connection or URL): none is
    left creating, modifying, rebooting, updating or deleting. *)
Theorem provisioning_settles :
  always_settles (λ b : Cache.Backend, ∀ n s, Cache.instances b !! n = Some s →
    Cache.Instance_Connection (Cache.toDomain s) =
      Cache.mkConnection "localhost" 6379 (Cache.authToken s) (Cache.engineVersion s)) ∧
  always_settles (λ b : Functions.Backend, ∀ n s, Functions.functions b !! n = Some s →
    Functions.URL (Functions.Function_Endpoint (Functions.toDomain s)) =
      ("http://localhost:8080/" +:+ Functions.name s)%string) ∧
  always_settles (λ b : ApiGateway.Backend, ∀ n s, ApiGateway.gateways b !! n = Some s →
    ApiGateway.URL (ApiGateway.Gateway_Endpoint (ApiGateway.toDomain s)) =
      ("http://localhost:9700/" +:+ ApiGateway.name s)%string).
Proof.
  split_and!; intros w order Hr Hp n s Hs.
  - unfold Cache.toDomain. cbn. by rewrite (caches_available w order Hr Hp n s Hs).
  - unfold Functions.toDomain. cbn. by rewrite (functions_available w order Hr Hp n s Hs).
  - unfold ApiGateway.toDomain. cbn. by rewrite (gateways_available w order Hr Hp n s Hs).
Qed.
