(* ===== verification/Registry.v ===== *)
(** * Container registry: domain types, errors and the in-process backend

    Models [internal/registry/domain] and [services/registry/backends/inmem], a
    content-addressable store of blobs and manifests with tags and upload
    sessions.  The clock [b.now()] is the argument [now]; an [io.Reader] is what
    [io.ReadAll] gives for it.  The slice of an upload session has one owner
    (the session, then the blob), so it is modelled by its value. *)

From Stdlib Require Import Ascii.
From S2P Require Import Prelude GoStrings GoBytes GoCrypto GoHttp.

(** ** domain.go *)

(** [ErrInvalidDigest] is the sentinel of the OCI router. *)
Inductive sentinel :=
  | ErrNotFound | ErrAlreadyExists | ErrInvalidInput | ErrNotSupported | ErrDigestMismatch | ErrInvalidDigest.
#[export] Instance sentinel_eq_dec : EqDecision sentinel.
Proof. solve_decision. Defined.

(** A sentinel, [fmt.Errorf] with a format, its string arguments and what [%w]
    wraps, or the error of a reader. *)
Inductive error :=
  | Sentinel (s : sentinel)
  | Errorf (format : string) (args : list string) (wraps : error)
  | ReadError (text : string).

Fixpoint errors_Is (e : error) (s : sentinel) : bool :=
  match e with
  | Sentinel s' => bool_decide (s' = s)
  | Errorf _ _ w => errors_Is w s
  | ReadError _ => false
  end.
Definition IsNotFound (e : error) : bool := errors_Is e ErrNotFound.
Definition IsAlreadyExists (e : error) : bool := errors_Is e ErrAlreadyExists.
Definition IsInvalidInput (e : error) : bool := errors_Is e ErrInvalidInput.
Definition IsNotSupported (e : error) : bool := errors_Is e ErrNotSupported.
Definition IsDigestMismatch (e : error) : bool := errors_Is e ErrDigestMismatch.

Abbreviation result := (outcome error).

Record Repository := mkRepository { Repository_Name : string; Repository_CreatedAt : Time; Repository_Tags : strmap }.
Record Image := mkImage {
  Image_Digest : string; Image_Tags : list string; Image_MediaType : string; Image_Size : Z; Image_PushedAt : Time }.
Record Descriptor := mkDescriptor { Desc_Digest : string; Desc_MediaType : string; Desc_Size : Z }.
Record UploadSession := mkUploadSession { us_ID : string; us_Offset : Z }.
Record CreateRepoOptions := mkCreateRepoOptions { cr_Tags : strmap }.
Record ListOptions := mkListOptions { lo_PageSize : Z; lo_PageToken : string }.
Record ListReposResult := mkListReposResult { lrr_Repositories : list Repository; lrr_NextPageToken : string }.
Record ListImagesResult := mkListImagesResult { lir_Images : list Image; lir_NextPageToken : string }.

(** ** inmem.go: state *)

Record storedManifest := mkStoredManifest {
  mediaType : string; content : bytes; digest : string; pushedAt : Time }.
Record repoEntry := mkRepoEntry {
  name : string; createdAt : Time; tags : strmap; blobs : gmap string bytes;
  manifests : gmap string storedManifest; tagToDigest : gmap string string }.
Record uploadSession := mkUpload { repo : string; buf : bytes }.
Record Backend := mkBackend {
  repos : gmap string repoEntry; uploads : gmap string uploadSession; seq : Z }.

Definition newRepo (n : string) (now : Time) (tags : strmap) : repoEntry := mkRepoEntry n now tags ∅ ∅ ∅.
Definition New : Backend := mkBackend ∅ ∅ 0.

Definition sha256Digest (b : bytes) : string := "sha256:" +:+ hex_EncodeToString (sha256_Sum256 b).
(** [bytes.ContainsRune] of an ASCII rune *)
Definition isDigestRef (ref : string) : bool := str_mem ":" ref.

(** [nil] for an empty map too. *)
Definition copyTags (m : strmap) : strmap :=
  match m with
  | None => None
  | Some m => if decide (m = ∅) then None else Some (put_all m ∅)
  end.

Definition set_repo (b : Backend) (n : string) (r : repoEntry) : Backend :=
  mkBackend (<[n := r]> (repos b)) (uploads b) (seq b).
Definition set_blob (r : repoEntry) (d : string) (c : bytes) : repoEntry :=
  mkRepoEntry (name r) (createdAt r) (tags r) (<[d := c]> (blobs r)) (manifests r) (tagToDigest r).
Definition set_manifests (r : repoEntry) (ms : gmap string storedManifest) (ts : gmap string string) : repoEntry :=
  mkRepoEntry (name r) (createdAt r) (tags r) (blobs r) ms ts.

Definition repo_not_found (n : string) : error := Errorf "repository %q: %w" [n] (Sentinel ErrNotFound).

(** The repository, created if absent. *)
Definition repoOrCreate (now : Time) (n : string) (b : Backend) : repoEntry * Backend :=
  match repos b !! n with
  | Some r => (r, b)
  | None => let r := newRepo n now None in (r, set_repo b n r)
  end.

(** ** Control plane *)

Definition repository_of (n : string) (r : repoEntry) : Repository :=
  mkRepository n (createdAt r) (copyTags (tags r)).

Definition CreateRepository (now : Time) (n : string) (opt : CreateRepoOptions) (b : Backend)
    : Backend * result Repository :=
  match repos b !! n with
  | Some _ => (b, Err (Errorf "repository %q: %w" [n] (Sentinel ErrAlreadyExists)))
  | None =>
      let r := newRepo n now (copyTags (cr_Tags opt)) in
      (set_repo b n r, Ok (repository_of n r))
  end.

Definition DeleteRepository (n : string) (force : bool) (b : Backend) : Backend * result unit :=
  match repos b !! n with
  | None => (b, Err (repo_not_found n))
  | Some r =>
      if negb force && bool_decide (manifests r ≠ ∅)
      then (b, Err (Errorf "repository %q not empty (use force): %w" [n] (Sentinel ErrInvalidInput)))
      else (mkBackend (delete n (repos b)) (uploads b) (seq b), Ok ())
  end.

Definition DescribeRepository (n : string) (b : Backend) : Backend * result Repository :=
  match repos b !! n with
  | None => (b, Err (repo_not_found n))
  | Some r => (b, Ok (repository_of n r))
  end.

Definition ListRepositories (opt : ListOptions) (b : Backend) : Backend * result ListReposResult :=
  let names := sort_Strings (map_to_list (repos b)).*1 in
  (b, Ok (mkListReposResult (omap (λ n, repository_of n <$> repos b !! n) names) "")).

(** The tags of a digest, sorted: the order of the range over the tags does not
    show. *)
Definition tags_of (r : repoEntry) (d : string) : list string :=
  sort_Strings (filter (λ '(_, d'), d' = d) (map_to_list (tagToDigest r))).*1.
Definition image_of (r : repoEntry) (d : string) (m : storedManifest) : Image :=
  mkImage d (tags_of r d) (mediaType m) (Z.of_nat (length (content m))) (pushedAt m).

Definition ListImages (rp : string) (opt : ListOptions) (b : Backend) : Backend * result ListImagesResult :=
  match repos b !! rp with
  | None => (b, Err (repo_not_found rp))
  | Some r =>
      let digests := sort_Strings (map_to_list (manifests r)).*1 in
      (b, Ok (mkListImagesResult (omap (λ d, image_of r d <$> manifests r !! d) digests) ""))
  end.

(** [resolve] maps a tag or digest reference to a manifest digest. *)
Definition resolve (r : repoEntry) (reference : string) : option string :=
  if isDigestRef reference
  then match manifests r !! reference with Some _ => Some reference | None => None end
  else tagToDigest r !! reference.

(** Deleting keys of a map while ranging over it. *)
Definition deleteManifest (r : repoEntry) (d : string) : repoEntry :=
  set_manifests r (delete d (manifests r)) (filter (λ '(_, d'), d' ≠ d) (tagToDigest r)).

Definition DeleteManifest (rp reference : string) (b : Backend) : Backend * result unit :=
  match repos b !! rp with
  | None => (b, Err (repo_not_found rp))
  | Some r =>
      match resolve r reference with
      | None => (b, Err (Errorf "manifest %q: %w" [reference] (Sentinel ErrNotFound)))
      | Some d => (set_repo b rp (deleteManifest r d), Ok ())
      end
  end.
Definition DeleteImage (rp reference : string) (b : Backend) : Backend * result unit :=
  match repos b !! rp with
  | None => (b, Err (repo_not_found rp))
  | Some r =>
      match resolve r reference with
      | None => (b, Err (Errorf "manifest %q: %w" [reference] (Sentinel ErrNotFound)))
      | Some d => (set_repo b rp (deleteManifest r d), Ok ())
      end
  end.

(** ** OCI data plane *)

Definition BlobExists (rp d : string) (b : Backend) : Backend * result Descriptor :=
  match repos b !! rp with
  | None => (b, Err (repo_not_found rp))
  | Some r =>
      match blobs r !! d with
      | None => (b, Err (Errorf "blob %q: %w" [d] (Sentinel ErrNotFound)))
      | Some c => (b, Ok (mkDescriptor d "" (Z.of_nat (length c))))
      end
  end.

(** The reader returned is over a copy of the content: its bytes. *)
Definition GetBlob (rp d : string) (b : Backend) : Backend * result (bytes * Descriptor) :=
  match repos b !! rp with
  | None => (b, Err (repo_not_found rp))
  | Some r =>
      match blobs r !! d with
      | None => (b, Err (Errorf "blob %q: %w" [d] (Sentinel ErrNotFound)))
      | Some c => let cp := map (λ x, x) c in (b, Ok (cp, mkDescriptor d "" (Z.of_nat (length cp))))
      end
  end.

Definition upload_id (n : Z) : string := "upload-" +:+ fmt_08d n.

Definition StartBlobUpload (now : Time) (rp : string) (b : Backend) : Backend * result UploadSession :=
  let '(_, b) := repoOrCreate now rp b in
  let seq' := wrap_s 64 (seq b + 1) in
  let id := upload_id seq' in
  (mkBackend (repos b) (<[id := mkUpload rp []]> (uploads b)) seq', Ok (mkUploadSession id 0)).

Definition upload_of (rp : string) (sess : UploadSession) (b : Backend) : result uploadSession :=
  match uploads b !! us_ID sess with
  | None => Err (Errorf "upload %q: %w" [us_ID sess] (Sentinel ErrNotFound))
  | Some u =>
      if String.eqb (repo u) rp then Ok u
      else Err (Errorf "upload %q: %w" [us_ID sess] (Sentinel ErrNotFound))
  end.

Definition UploadChunk (rp : string) (sess : UploadSession) (r : BodyReader) (b : Backend)
    : Backend * result UploadSession :=
  match r with
  | ReadFails t => (b, Err (ReadError t))
  | Reads chunk =>
      match upload_of rp sess b with
      | Ok u =>
          let u := mkUpload (repo u) (buf u ++ chunk) in
          (mkBackend (repos b) (<[us_ID sess := u]> (uploads b)) (seq b),
           Ok (mkUploadSession (us_ID sess) (Z.of_nat (length (buf u)))))
      | Err e => (b, Err e)
      | Panic => (b, Panic)
      end
  end.

Definition CompleteBlobUpload (now : Time) (rp : string) (sess : UploadSession) (d : string) (r : BodyReader)
    (b : Backend) : Backend * result Descriptor :=
  match r with
  | ReadFails t => (b, Err (ReadError t))
  | Reads rest =>
      match upload_of rp sess b with
      | Ok u =>
          let c := buf u ++ rest in
          let got := sha256Digest c in
          if negb (String.eqb got d)
          then (b, Err (Errorf "computed %s, claimed %s: %w" [got; d] (Sentinel ErrDigestMismatch)))
          else
            let '(r2, b) := repoOrCreate now rp b in
            let b := set_repo b rp (set_blob r2 d c) in
            (mkBackend (repos b) (delete (us_ID sess) (uploads b)) (seq b),
             Ok (mkDescriptor d "" (Z.of_nat (length c))))
      | Err e => (b, Err e)
      | Panic => (b, Panic)
      end
  end.

Definition PutManifest (now : Time) (rp reference mt : string) (r : BodyReader) (b : Backend)
    : Backend * result Descriptor :=
  match r with
  | ReadFails t => (b, Err (ReadError t))
  | Reads c =>
      let d := sha256Digest c in
      let '(r, b) := repoOrCreate now rp b in
      let ms := <[d := mkStoredManifest mt c d now]> (manifests r) in
      let ts := if isDigestRef reference then tagToDigest r else <[reference := d]> (tagToDigest r) in
      (set_repo b rp (set_manifests r ms ts), Ok (mkDescriptor d mt (Z.of_nat (length c))))
  end.

(** [m := r.manifests[dg]]: the zero manifest when there is none. *)
Definition manifest_at (r : repoEntry) (d : string) : storedManifest :=
  default (mkStoredManifest "" [] "" zeroTime) (manifests r !! d).

Definition lookupManifest (rp reference : string) (b : Backend) : result (storedManifest * Descriptor) :=
  match repos b !! rp with
  | None => Err (repo_not_found rp)
  | Some r =>
      match resolve r reference with
      | None => Err (Errorf "manifest %q: %w" [reference] (Sentinel ErrNotFound))
      | Some d =>
          let m := manifest_at r d in
          Ok (m, mkDescriptor d (mediaType m) (Z.of_nat (length (content m))))
      end
  end.

Definition GetManifest (rp reference : string) (b : Backend) : Backend * result (bytes * Descriptor) :=
  (b, let? (m, desc) := lookupManifest rp reference b in Ok (map (λ x, x) (content m), desc)).
Definition HeadManifest (rp reference : string) (b : Backend) : Backend * result Descriptor :=
  (b, let? (_, desc) := lookupManifest rp reference b in Ok desc).

Definition ListTags (rp : string) (opt : ListOptions) (b : Backend) : Backend * result (list string) :=
  match repos b !! rp with
  | None => (b, Err (repo_not_found rp))
  | Some r => (b, Ok (sort_Strings (map_to_list (tagToDigest r)).*1))
  end.

(** * Container registry: properties of the in-process backend

    Content addressing as an invariant of every reachable state; uploads whose
    chunks are interleaved with other clients' requests assemble in order; what
    a tag and a digest resolve to. *)

(** ** Operations as steps *)

Inductive op :=
  | OpCreateRepository (now : Time) (n : string) (opt : CreateRepoOptions)
  | OpDeleteRepository (n : string) (force : bool)
  | OpDeleteManifest (rp reference : string)        (* and [DeleteImage] *)
  | OpStartBlobUpload (now : Time) (rp : string)
  | OpUploadChunk (rp : string) (sess : UploadSession) (r : BodyReader)
  | OpCompleteBlobUpload (now : Time) (rp : string) (sess : UploadSession) (d : string) (r : BodyReader)
  | OpPutManifest (now : Time) (rp reference mt : string) (r : BodyReader).

(** The operations that change the state; the others return it as it is. *)
Definition run (o : op) (b : Backend) : Backend :=
  match o with
  | OpCreateRepository now n opt => (CreateRepository now n opt b).1
  | OpDeleteRepository n f => (DeleteRepository n f b).1
  | OpDeleteManifest rp ref => (DeleteManifest rp ref b).1
  | OpStartBlobUpload now rp => (StartBlobUpload now rp b).1
  | OpUploadChunk rp sess r => (UploadChunk rp sess r b).1
  | OpCompleteBlobUpload now rp sess d r => (CompleteBlobUpload now rp sess d r b).1
  | OpPutManifest now rp ref mt r => (PutManifest now rp ref mt r b).1
  end.
Definition run_all (os : list op) (b : Backend) : Backend := fold_left (λ b o, run o b) os b.

Lemma run_all_inv (P : Backend → Prop) os b :
  (∀ o b, o ∈ os → P b → P (run o b)) → P b → P (run_all os b).
Proof.
  revert b. induction os as [|o os IH]; intros b Ho Hb; [done|]. cbn. apply IH; [set_solver|].
  apply Ho; [left|done].
Qed.

(** ** Content addressing *)

Record repo_ok (n : string) (r : repoEntry) : Prop := {
  ro_name : name r = n;
  ro_blobs d c : blobs r !! d = Some c → d = sha256Digest c;
  ro_manifests d m : manifests r !! d = Some m → d = sha256Digest (content m) ∧ digest m = d;
  ro_tags t d : tagToDigest r !! t = Some d → isDigestRef t = false ∧ is_Some (manifests r !! d) }.
Definition repos_ok (b : Backend) : Prop := map_Forall repo_ok (repos b).

Lemma newRepo_ok n now t : repo_ok n (newRepo n now t).
Proof. split; cbn; [done|intros ?? H; by rewrite lookup_empty in H..]. Qed.

Lemma set_blob_ok n r c : repo_ok n r → repo_ok n (set_blob r (sha256Digest c) c).
Proof. intros []. split; cbn; try done. intros d c' [[<- <-]|[_ H]]%lookup_insert_Some; eauto. Qed.

Lemma put_manifest_ok n r ref mt c now :
  repo_ok n r →
  repo_ok n (set_manifests r (<[sha256Digest c := mkStoredManifest mt c (sha256Digest c) now]> (manifests r))
    (if isDigestRef ref then tagToDigest r else <[ref := sha256Digest c]> (tagToDigest r))).
Proof.
  intros [Hn Hb Hm Ht]. split; cbn; try done.
  - intros d m [[<- <-]|[_ H]]%lookup_insert_Some; eauto.
  - intros t d H.
    assert (isDigestRef t = false ∧ (d = sha256Digest c ∨ is_Some (manifests r !! d))) as [? Hd].
    { destruct (isDigestRef ref) eqn:E; [naive_solver|].
      apply lookup_insert_Some in H as [[<- <-]|[_ H]]; naive_solver. }
    split; [done|]. rewrite lookup_insert_is_Some'. naive_solver.
Qed.

Lemma deleteManifest_ok n r d : repo_ok n r → repo_ok n (deleteManifest r d).
Proof.
  intros [Hn Hb Hm Ht]. split; cbn; try done.
  - intros d' m [_ H]%lookup_delete_Some; eauto.
  - intros t d' [H Hne]%map_lookup_filter_Some. cbn in Hne. destruct (Ht t d' H) as [? ?]. split; [done|].
    by rewrite lookup_delete_ne.
Qed.

Lemma repoOrCreate_ok now n b r b' :
  repos_ok b → repoOrCreate now n b = (r, b') →
  repo_ok n r ∧ repos_ok b' ∧ repos b' !! n = Some r ∧ uploads b' = uploads b ∧ seq b' = seq b.
Proof.
  intros Hb. unfold repoOrCreate. case_match eqn:E; intros [= <- <-].
  - split; [by apply (Hb n)|done].
  - split; [apply newRepo_ok|]. split; [apply map_Forall_insert_2; [apply newRepo_ok|done]|].
    cbn. by rewrite lookup_insert_eq.
Qed.

Lemma run_repos_ok o b : repos_ok b → repos_ok (run o b).
Proof.
  intros Hb. destruct o as [now n opt|n f|rp ref|now rp|rp sess r|now rp sess d r|now rp ref mt r]; cbn.
  - unfold CreateRepository. case_match; [done|]. apply map_Forall_insert_2; [apply newRepo_ok|done].
  - unfold DeleteRepository. repeat case_match; try done. by apply map_Forall_delete.
  - unfold DeleteManifest. repeat case_match; try done.
    apply map_Forall_insert_2; [|done]. apply deleteManifest_ok. by apply (Hb rp).
  - unfold StartBlobUpload. destruct (repoOrCreate now rp b) as [r b'] eqn:E.
    by destruct (repoOrCreate_ok _ _ _ _ _ Hb E) as (_ & ? & _).
  - unfold UploadChunk. by repeat case_match.
  - unfold CompleteBlobUpload. destruct r as [rest|]; [|done]. destruct (upload_of rp sess b) as [u| |]; try done.
    destruct (String.eqb_spec (sha256Digest (buf u ++ rest)) d) as [<-|]; [|done].
    destruct (repoOrCreate now rp b) as [r2 b'] eqn:E.
    destruct (repoOrCreate_ok _ _ _ _ _ Hb E) as (? & ? & _). cbn.
    apply map_Forall_insert_2; [by apply set_blob_ok|done].
  - unfold PutManifest. destruct r as [c|]; [|done]. destruct (repoOrCreate now rp b) as [r2 b'] eqn:E.
    destruct (repoOrCreate_ok _ _ _ _ _ Hb E) as (? & ? & _). cbn.
    apply map_Forall_insert_2; [by apply put_manifest_ok|done].
Qed.

Lemma reachable_repos_ok os : repos_ok (run_all os New).
Proof. apply run_all_inv; [intros ? ? _; apply run_repos_ok|apply map_Forall_empty]. Qed.

(** A reference that resolves has its manifest. *)
Lemma lookupManifest_ok rp ref b m desc :
  repos_ok b → lookupManifest rp ref b = Ok (m, desc) →
  ∃ r d, repos b !! rp = Some r ∧ resolve r ref = Some d ∧ manifests r !! d = Some m ∧ d = sha256Digest (content m) ∧
    desc = mkDescriptor d (mediaType m) (Z.of_nat (length (content m))).
Proof.
  intros Hb. unfold lookupManifest. destruct (repos b !! rp) as [r|] eqn:Er; [|done].
  destruct (resolve r ref) as [d|] eqn:Ed; [|done]. intros [= <- <-].
  destruct (Hb rp r Er) as [_ _ Hm Ht].
  assert (is_Some (manifests r !! d)) as [m Em].
  { unfold resolve in Ed. destruct (isDigestRef ref); [|by apply Ht in Ed as [_ ?]].
    case_match eqn:E; simplify_eq. by exists s. }
  exists r, d. unfold manifest_at. rewrite Em. cbn. by destruct (Hm d m Em).
Qed.

Lemma lookupManifest_tag rp t r b :
  repos_ok b → repos b !! rp = Some r → is_Some (tagToDigest r !! t) → ∃ x, lookupManifest rp t b = Ok x.
Proof.
  intros Hb Hr [d Hd]. destruct (Hb rp r Hr) as [_ _ _ Ht]. destruct (Ht t d Hd) as [Hi _].
  unfold lookupManifest, resolve. rewrite Hr, Hi, Hd. by eexists.
Qed.

Lemma elem_of_keys {V} (m : gmap string V) k : k ∈ (map_to_list m).*1 ↔ is_Some (m !! k).
Proof.
  rewrite list_elem_of_fmap. split.
  - intros ([k' x] & -> & H%elem_of_map_to_list). by exists x.
  - intros [x H]. exists (k, x). by rewrite elem_of_map_to_list.
Qed.

Lemma elem_of_tags_of r d t : t ∈ tags_of r d ↔ tagToDigest r !! t = Some d.
Proof.
  unfold tags_of. rewrite sort_Strings_perm, list_elem_of_fmap. split.
  - intros ([t' d'] & -> & [Hd H%elem_of_map_to_list]%list_elem_of_filter). by simplify_eq/=.
  - intros H. exists (t, d). split; [done|]. by rewrite list_elem_of_filter, elem_of_map_to_list.
Qed.

(** ** Upload sessions *)

Lemma upload_id_inj n m : 0 <= n → 0 <= m → upload_id n = upload_id m → n = m.
Proof. intros Hn Hm E%str_app_inj_l. by apply fmt_08d_inj. Qed.

(** What an operation appends to the upload [id] of the repository [rp]. *)
Definition contribution (id rp : string) (o : op) : bytes :=
  match o with
  | OpUploadChunk rp' sess (Reads c) => if decide (us_ID sess = id ∧ rp' = rp) then c else []
  | _ => []
  end.

Definition completes (id : string) (o : op) : Prop :=
  match o with OpCompleteBlobUpload _ _ sess _ _ => us_ID sess = id | _ => False end.

Definition has_upload (n : Z) (rp : string) (c : bytes) (b : Backend) : Prop :=
  uploads b !! upload_id n = Some (mkUpload rp c) ∧ 0 <= n <= seq b.

Lemma repoOrCreate_frame now n b : uploads (repoOrCreate now n b).2 = uploads b ∧ seq (repoOrCreate now n b).2 = seq b.
Proof. unfold repoOrCreate. by case_match. Qed.

Lemma seq_grows o b : 0 <= seq b < 2 ^ 63 - 1 → seq b <= seq (run o b) <= seq b + 1.
Proof.
  intros Hs. destruct o as [now n opt|n f|rp ref|now rp|rp sess r|now rp sess d r|now rp ref mt r]; cbn.
  - unfold CreateRepository. case_match; cbn; lia.
  - unfold DeleteRepository. repeat case_match; cbn; lia.
  - unfold DeleteManifest. repeat case_match; cbn; lia.
  - unfold StartBlobUpload. pose proof (repoOrCreate_frame now rp b) as [_ E].
    destruct (repoOrCreate now rp b) as [r b']. cbn in *. rewrite E, wrap_s_small by (unfold in_s; lia). lia.
  - unfold UploadChunk. repeat case_match; cbn; lia.
  - unfold CompleteBlobUpload. destruct r as [rest|]; [|cbn; lia].
    destruct (upload_of rp sess b) as [u| |]; cbn; try lia. case_match; cbn; [lia|].
    pose proof (repoOrCreate_frame now rp b) as [_ E]. destruct (repoOrCreate now rp b). cbn in *. lia.
  - unfold PutManifest. destruct r as [c|]; [|cbn; lia].
    pose proof (repoOrCreate_frame now rp b) as [_ E]. destruct (repoOrCreate now rp b). cbn in *. lia.
Qed.

Lemma run_upload n rp c o b :
  0 <= seq b < 2 ^ 63 - 1 → ¬ completes (upload_id n) o → has_upload n rp c b →
  has_upload n rp (c ++ contribution (upload_id n) rp o) (run o b).
Proof.
  intros Hs Hc [Hu Hn]. pose proof (seq_grows o b Hs) as Hg. split; [|lia]. clear Hg.
  destruct o as [now m opt|m f|rp' ref|now rp'|rp' sess r|now rp' sess d r|now rp' ref mt r];
    cbn [run contribution]; rewrite ?app_nil_r.
  - unfold CreateRepository. by case_match.
  - unfold DeleteRepository. by repeat case_match.
  - unfold DeleteManifest. by repeat case_match.
  - unfold StartBlobUpload. pose proof (repoOrCreate_frame now rp' b) as [E1 E2].
    destruct (repoOrCreate now rp' b) as [r b']. cbn in *. rewrite E2, wrap_s_small by (unfold in_s; lia).
    rewrite lookup_insert_ne, E1; [done|]. intros E%upload_id_inj; lia.
  - unfold UploadChunk, upload_of. destruct r as [ch|]; [|by rewrite app_nil_r].
    destruct (decide (us_ID sess = upload_id n)) as [->|Hne].
    + rewrite Hu. cbn. destruct (String.eqb_spec rp rp') as [<-|Hrp]; cbn.
      * rewrite decide_True by done. by rewrite lookup_insert_eq.
      * rewrite decide_False by naive_solver. by rewrite app_nil_r.
    + rewrite decide_False by naive_solver. rewrite app_nil_r.
      repeat case_match; cbn; try done; simplify_eq; by rewrite lookup_insert_ne.
  - unfold CompleteBlobUpload. destruct r as [rest|]; [|done]. destruct (upload_of rp' sess b) as [u| |]; try done.
    case_match; [done|]. pose proof (repoOrCreate_frame now rp' b) as [E1 E2].
    destruct (repoOrCreate now rp' b). cbn in *. rewrite E1. by rewrite lookup_delete_ne.
  - unfold PutManifest. destruct r as [ch|]; [|done]. pose proof (repoOrCreate_frame now rp' b) as [E1 E2].
    destruct (repoOrCreate now rp' b). cbn in *. by rewrite E1.
Qed.

Lemma run_all_upload n rp c os b :
  0 <= seq b → seq b + Z.of_nat (length os) < 2 ^ 63 - 1 → Forall (λ o, ¬ completes (upload_id n) o) os →
  has_upload n rp c b → has_upload n rp (c ++ concat (contribution (upload_id n) rp <$> os)) (run_all os b).
Proof.
  revert c b. induction os as [|o os IH]; intros c b Hs Hl Hf Hu; cbn; [by rewrite app_nil_r|].
  apply Forall_cons in Hf as [Ho Hf]. cbn [length] in Hl.
  pose proof (seq_grows o b ltac:(lia)). rewrite (assoc_L (++)). apply IH; [lia|lia|done|]. apply run_upload; [lia|done..].
Qed.

Lemma map_id' {A} (l : list A) : map (λ x, x) l = l.
Proof. apply map_id. Qed.

Lemma PutManifest_stores now rp ref mt c b :
  ∃ r, repos (run (OpPutManifest now rp ref mt (Reads c)) b) !! rp = Some r ∧
    manifests r !! sha256Digest c = Some (mkStoredManifest mt c (sha256Digest c) now) ∧
    (isDigestRef ref = false → tagToDigest r !! ref = Some (sha256Digest c)).
Proof.
  cbn. unfold PutManifest. destruct (repoOrCreate now rp b) as [r b'] eqn:E. eexists. cbn [set_repo repos fst].
  rewrite lookup_insert_eq. split; [done|]. cbn. rewrite lookup_insert_eq. split; [done|].
  intros ->. by rewrite lookup_insert_eq.
Qed.

Lemma isDigestRef_sha256 c : isDigestRef (sha256Digest c) = true.
Proof. unfold isDigestRef, sha256Digest. rewrite str_mem_app. done. Qed.

(** What a stored manifest is found by: its digest and its tags. *)
Lemma lookup_stored rp ref r d m b :
  repos b !! rp = Some r → manifests r !! d = Some m →
  (ref = d ∧ isDigestRef d = true) ∨ (isDigestRef ref = false ∧ tagToDigest r !! ref = Some d) →
  lookupManifest rp ref b = Ok (m, mkDescriptor d (mediaType m) (Z.of_nat (length (content m)))).
Proof.
  intros Hr Hm Href. unfold lookupManifest. rewrite Hr.
  assert (resolve r ref = Some d) as ->.
  { unfold resolve. destruct Href as [[-> ->]|[-> ->]]; [by rewrite Hm|done]. }
  unfold manifest_at. by rewrite Hm.
Qed.

(** The start and the end of an upload. *)
Lemma start_upload now rp b :
  0 <= seq b < 2 ^ 63 - 1 →
  (StartBlobUpload now rp b).2 = Ok (mkUploadSession (upload_id (seq b + 1)) 0) ∧
  has_upload (seq b + 1) rp [] (run (OpStartBlobUpload now rp) b) ∧
  seq (run (OpStartBlobUpload now rp) b) = seq b + 1.
Proof.
  intros Hs. pose proof (repoOrCreate_frame now rp b) as [E1 E2].
  cbn. unfold StartBlobUpload, has_upload. destruct (repoOrCreate now rp b) as [r b']. cbn in *.
  rewrite E2, wrap_s_small by (unfold in_s; lia). rewrite lookup_insert_eq. split_and!; try done; lia.
Qed.

Lemma complete_upload now rp id d c0 rest b :
  uploads b !! id = Some (mkUpload rp c0) →
  let c := c0 ++ rest in
  let fin := CompleteBlobUpload now rp (mkUploadSession id 0) d (Reads rest) b in
  if decide (sha256Digest c = d)
  then fin.2 = Ok (mkDescriptor d "" (Z.of_nat (length c))) ∧ uploads fin.1 !! id = None ∧
       (GetBlob rp d fin.1).2 = Ok (c, mkDescriptor d "" (Z.of_nat (length c)))
  else fin.1 = b ∧ ∃ e, fin.2 = Err e ∧ IsDigestMismatch e = true ∧ IsNotFound e = false.
Proof.
  intros Hu c fin. subst fin. unfold CompleteBlobUpload, upload_of. cbn [us_ID]. rewrite Hu.
  cbn -[sha256Digest repoOrCreate]. rewrite String.eqb_refl. cbn -[sha256Digest repoOrCreate]. fold c.
  destruct (decide (sha256Digest c = d)) as [<-|Hne].
  - rewrite String.eqb_refl. cbn -[sha256Digest repoOrCreate]. destruct (repoOrCreate now rp b) as [r b'].
    cbn [fst snd]. split_and!; [done|cbn; by rewrite lookup_delete_eq|].
    unfold GetBlob. cbn [repos set_repo]. rewrite lookup_insert_eq. cbn [blobs set_blob].
    rewrite lookup_insert_eq. cbn. by rewrite map_id'.
  - destruct (String.eqb_spec (sha256Digest c) d) as [?|_]; [done|]. cbn [negb fst snd]. split; [done|].
    by eexists.
Qed.

(** ** Properties *)

(** C36: The store is content-addressed in every state the operations reach: the
    bytes [GetBlob] returns hash to the digest asked for, those of
    [GetManifest] hash to the digest of its descriptor, which is the reference
    itself when the reference is a digest; the sizes are right; and every tag
    [ListTags] lists resolves to a manifest. *)
Theorem content_addressed (os : list op) :
  let b := run_all os New in
  (∀ rp d c desc, (GetBlob rp d b).2 = Ok (c, desc) →
     d = sha256Digest c ∧ desc = mkDescriptor d "" (Z.of_nat (length c))) ∧
  (∀ rp ref c desc, (GetManifest rp ref b).2 = Ok (c, desc) →
     Desc_Digest desc = sha256Digest c ∧ Desc_Size desc = Z.of_nat (length c) ∧
     (isDigestRef ref = true → ref = sha256Digest c)) ∧
  (∀ rp opt tags t, (ListTags rp opt b).2 = Ok tags → t ∈ tags → ∃ x, (GetManifest rp t b).2 = Ok x).
Proof.
  intros b. pose proof (reachable_repos_ok os : repos_ok b) as Hb. split_and!.
  - intros rp d c desc. unfold GetBlob. destruct (repos b !! rp) as [r|] eqn:Er; [|done].
    destruct (blobs r !! d) as [c'|] eqn:Ec; [|done]. cbn. rewrite map_id'. intros [= <- <-].
    split; [|done]. by apply (ro_blobs _ _ (Hb rp r Er)).
  - intros rp ref c desc. cbn. intros ([m desc'] & Hl & [= <- <-])%obind_Ok_inv. rewrite map_id'.
    apply lookupManifest_ok in Hl as (r & d & Hr & Hres & Hm & Hd & ->); [|done]. split_and!; [done..|].
    intros Hi. unfold resolve in Hres. rewrite Hi in Hres. by case_match; simplify_eq.
  - intros rp opt tags t. unfold ListTags. destruct (repos b !! rp) as [r|] eqn:Er; [|done].
    intros [= <-]. rewrite sort_Strings_perm, elem_of_keys. intros Ht.
    destruct (lookupManifest_tag rp t r b Hb Er Ht) as [[m desc] E]. cbn. rewrite E. by eexists.
Qed.

(** Chunked uploads assemble in order, whatever other requests run in
    between.  After [StartBlobUpload], let any operations run that do not
    complete this upload (they may write to other uploads, start uploads, put
    and delete manifests and repositories).  [CompleteBlobUpload] then compares
    the digest with that of the chunks sent to this upload in this repository,
    in their order, followed by the last bytes: on a match the blob is stored,
    [GetBlob] returns it and the session is gone; otherwise the error is a
    digest mismatch and nothing changes. *)
Theorem chunked_upload_assembles (b : Backend) (os : list op) (now now' : Time) (rp d : string) (rest : bytes) :
  0 <= seq b → seq b + Z.of_nat (length os) < 2 ^ 63 - 2 →
  let id := upload_id (seq b + 1) in
  Forall (λ o, ¬ completes id o) os →
  (StartBlobUpload now rp b).2 = Ok (mkUploadSession id 0) ∧
  let b2 := run_all os (run (OpStartBlobUpload now rp) b) in
  let c := concat (contribution id rp <$> os) ++ rest in
  let done := CompleteBlobUpload now' rp (mkUploadSession id 0) d (Reads rest) b2 in
  if decide (sha256Digest c = d)
  then done.2 = Ok (mkDescriptor d "" (Z.of_nat (length c))) ∧ uploads done.1 !! id = None ∧
       (GetBlob rp d done.1).2 = Ok (c, mkDescriptor d "" (Z.of_nat (length c)))
  else done.1 = b2 ∧ ∃ e, done.2 = Err e ∧ IsDigestMismatch e = true.
Proof.
  intros Hs Hl id Hf. destruct (start_upload now rp b ltac:(lia)) as (-> & Hu & Hseq).
  split; [done|]. intros b2 c fin.
  apply (run_all_upload (seq b + 1) rp [] os) in Hu as [Hu _]; [|lia|lia|done]. fold id b2 in Hu. cbn in Hu.
  pose proof (complete_upload now' rp id d _ rest b2 Hu) as H. cbv zeta in H. fold c in H. subst fin.
  destruct (decide (sha256Digest c = d)); [exact H|].
  destruct H as (E & e & He & Hm & _). split; [exact E|]. by exists e.
Qed.

(** Two chunks, with another client's upload and a manifest in between. *)
Lemma chunked_upload_assembles_witness :
  let id := "upload-00000001" in
  let b2 := run_all [OpUploadChunk "lib/base" (mkUploadSession id 0) (Reads (bytes_of_string "first-half-"));
                     OpStartBlobUpload 2 "lib/base";
                     OpUploadChunk "lib/base" (mkUploadSession "upload-00000002" 0) (Reads (bytes_of_string "x"));
                     OpPutManifest 3 "lib/base" "latest" "m" (Reads []);
                     OpUploadChunk "lib/base" (mkUploadSession id 0) (Reads (bytes_of_string "second-half"))]
              (run (OpStartBlobUpload 1 "lib/base") New) in
  let c := bytes_of_string "first-half-second-half" in
  (CompleteBlobUpload 4 "lib/base" (mkUploadSession id 0) (sha256Digest c) (Reads []) b2).2 =
    Ok (mkDescriptor (sha256Digest c) "" 22).
Proof.
  cbn zeta. change "upload-00000001" with (upload_id (seq New + 1)).
  match goal with |- (CompleteBlobUpload ?n' ?rp (mkUploadSession (upload_id _) 0) ?d (Reads ?r)
                        (run_all ?os (run (OpStartBlobUpload ?n _) _))).2 = _ =>
    destruct (chunked_upload_assembles New os n n' rp d r) as [_ H] end.
  - done.
  - cbn. lia.
  - repeat constructor; cbn; tauto.
  - revert H.
    match goal with |- context [concat ?l ++ []] =>
      replace (concat l ++ []) with (bytes_of_string "first-half-second-half") by (vm_compute; reflexivity) end.
    rewrite decide_True by done. intros (H & _). exact H.
Defined.

(** A manifest comes back as it was put: by its digest, and by its tag when
    it was put under one, with its bytes, its media type verbatim and its
    digest, as long as nothing deletes or replaces it. *)
Theorem manifest_round_trip (b : Backend) (now : Time) (rp ref mt : string) (c : bytes) :
  let b' := run (OpPutManifest now rp ref mt (Reads c)) b in
  let d := sha256Digest c in
  let desc := mkDescriptor d mt (Z.of_nat (length c)) in
  (PutManifest now rp ref mt (Reads c) b).2 = Ok desc ∧
  (GetManifest rp d b').2 = Ok (c, desc) ∧ (HeadManifest rp d b').2 = Ok desc ∧
  (if isDigestRef ref
   then ref ≠ d → ∀ r, repos b' !! rp = Some r → manifests r !! ref = None → ∃ e, (GetManifest rp ref b').2 = Err e ∧ IsNotFound e = true
   else (GetManifest rp ref b').2 = Ok (c, desc) ∧ (HeadManifest rp ref b').2 = Ok desc).
Proof.
  intros b' d desc. destruct (PutManifest_stores now rp ref mt c b) as (r & Hr & Hm & Ht). fold b' in Hr. fold d in Hm, Ht.
  pose proof (lookup_stored rp d r d _ b' Hr Hm (or_introl (conj eq_refl (isDigestRef_sha256 c)))) as Hd.
  split_and!.
  - unfold PutManifest. by destruct (repoOrCreate now rp b).
  - cbn [GetManifest snd]. rewrite Hd. cbn. by rewrite map_id'.
  - cbn [HeadManifest snd]. by rewrite Hd.
  - destruct (isDigestRef ref) eqn:Ei.
    + intros Hne r' Hr' Hno. cbn [GetManifest snd]. unfold lookupManifest, resolve. rewrite Hr', Ei, Hno.
      by eexists.
    + pose proof (lookup_stored rp ref r d _ b' Hr Hm (or_intror (conj Ei (Ht eq_refl)))) as Hl.
      cbn [GetManifest HeadManifest snd]. rewrite Hl. cbn. by rewrite map_id'.
Qed.
