(* ===== verification/OciRouter.v ===== *)
(** * The OCI Distribution router

    Models [internal/registry/ocidistribution]: the parser of /v2/ paths, digest
    verification of a stream, the mapping of errors to HTTP, and the handlers.
    The router is written against an interface ([Registry_]) that the backend of
    the file Registry implements; the clock of a request is the argument
    [now].  A response's JSON bodies are kept as the values that are encoded. *)

From Stdlib Require Import Ascii.
From S2P Require Import Prelude GoStrings GoBytes GoCrypto GoHttp Registry.

(** ** The interface [domain.Registry], data plane *)

Class Registry_ (St : Type) := {
  rg_BlobExists : string → string → St → St * result Descriptor;
  rg_GetBlob : string → string → St → St * result (bytes * Descriptor);
  rg_StartBlobUpload : Time → string → St → St * result UploadSession;
  rg_UploadChunk : string → UploadSession → BodyReader → St → St * result UploadSession;
  rg_CompleteBlobUpload : Time → string → UploadSession → string → BodyReader → St → St * result Descriptor;
  rg_PutManifest : Time → string → string → string → BodyReader → St → St * result Descriptor;
  rg_GetManifest : string → string → St → St * result (bytes * Descriptor);
  rg_HeadManifest : string → string → St → St * result Descriptor;
  rg_DeleteManifest : string → string → St → St * result unit;
  rg_ListTags : string → ListOptions → St → St * result (list string) }.

#[export] Instance inmem_registry : Registry_ Backend := {|
  rg_BlobExists := BlobExists; rg_GetBlob := GetBlob; rg_StartBlobUpload := StartBlobUpload;
  rg_UploadChunk := UploadChunk; rg_CompleteBlobUpload := CompleteBlobUpload; rg_PutManifest := PutManifest;
  rg_GetManifest := GetManifest; rg_HeadManifest := HeadManifest; rg_DeleteManifest := DeleteManifest;
  rg_ListTags := ListTags |}.

(** ** digest.go *)

Definition Algorithm (d : string) : string :=
  match IndexByte d ":" with Some (S i) => str_take (S i) d | _ => "" end.

Definition Valid (d : string) : bool :=
  match IndexByte d ":" with
  | Some (S i) =>
      let hexpart := str_drop (S (S i)) d in
      negb (String.eqb hexpart "") && bool_decide (is_Some (hex_DecodeString hexpart))
  | _ => false
  end.

(** The writer's hash is the SHA-256 of what was written, or nil. *)
Record digestWriter := mkDigestWriter { dw_alg : string; dw_h : option bytes; dw_n : Z }.
Definition newDigestWriter (alg : string) : digestWriter :=
  mkDigestWriter alg (if String.eqb alg "sha256" then Some [] else None) 0.
Definition dw_Write (p : bytes) (dw : digestWriter) : digestWriter :=
  mkDigestWriter (dw_alg dw) ((λ w, w ++ p) <$> dw_h dw) (wrap_s 64 (dw_n dw + Z.of_nat (length p))).
Definition verifiable (dw : digestWriter) : bool := bool_decide (is_Some (dw_h dw)).
Definition dw_sum (dw : digestWriter) : string :=
  dw_alg dw +:+ ":" +:+ hex_EncodeToString (sha256_Sum256 (default [] (dw_h dw))).

(** [io.Copy] through the tee in the pieces it happens to read: the number of
    bytes copied and the writer's state. *)
Fixpoint tee_copy (pieces : list bytes) (n : Z) (dw : digestWriter) : Z * digestWriter :=
  match pieces with
  | [] => (n, dw)
  | p :: ps => tee_copy ps (n + Z.of_nat (length p)) (dw_Write p dw)
  end.

(** [pieces] are the reads that succeed, [fails] the error that ends the stream
    instead of EOF; the sink accepts every write.  The sizes returned with
    errors are left out. *)
Definition VerifyReader (pieces : list bytes) (fails : option string) (want : string) : result Z :=
  if negb (Valid want) then Err (Errorf "%w: malformed digest %q" [want] (Sentinel ErrInvalidDigest))
  else
    let '(n, dw) := tee_copy pieces 0 (newDigestWriter (Algorithm want)) in
    match fails with
    | Some t => Err (ReadError t)
    | None =>
        if verifiable dw && negb (String.eqb (dw_sum dw) want)
        then Err (Errorf "%w: computed %s, claimed %s" [dw_sum dw; want] (Sentinel ErrDigestMismatch))
        else Ok n
    end.

(** ** parse.go *)

Inductive pathKind :=
  | kindUnknown | kindBlobUploadStart | kindBlobUpload | kindBlob | kindManifest | kindTagsList.
#[export] Instance pathKind_eq_dec : EqDecision pathKind.
Proof. solve_decision. Defined.

Definition nonempty (s : string) : bool := negb (String.eqb s "").

Definition parsePath (rest : string) : string * pathKind * string * bool :=
  let rest := TrimSuffix rest "/" in
  if HasSuffix rest "/tags/list" then
    let name := TrimSuffix rest "/tags/list" in (name, kindTagsList, "", nonempty name)
  else match Index rest "/blobs/uploads" with
  | Some i =>
      let name := str_take i rest in
      let tail := TrimPrefix (str_drop (i + String.length "/blobs/uploads") rest) "/" in
      if String.eqb tail "" then (name, kindBlobUploadStart, "", nonempty name)
      else (name, kindBlobUpload, tail, nonempty name)
  | None =>
  match Index rest "/blobs/" with
  | Some i =>
      let name := str_take i rest in
      let arg := str_drop (i + String.length "/blobs/") rest in
      (name, kindBlob, arg, nonempty name && nonempty arg)
  | None =>
  match Index rest "/manifests/" with
  | Some i =>
      let name := str_take i rest in
      let arg := str_drop (i + String.length "/manifests/") rest in
      (name, kindManifest, arg, nonempty name && nonempty arg)
  | None => ("", kindUnknown, "", false)
  end end end.

(** ** errors.go and the response *)

Definition codeBlobUnknown := "BLOB_UNKNOWN".
Definition codeBlobUploadInval := "BLOB_UPLOAD_INVALID".
Definition codeDigestInvalid := "DIGEST_INVALID".
Definition codeManifestUnknown := "MANIFEST_UNKNOWN".
Definition codeNameUnknown := "NAME_UNKNOWN".
Definition codeNameInvalid := "NAME_INVALID".
Definition codeUnsupported := "UNSUPPORTED".

(** A text, or what [err.Error()] gives. *)
Inductive message := MText (s : string) | MError (e : error).
Record ociError := mkOciError { Code : string; Message : message }.
Record tagsListResponse := mkTagsListResponse { tl_Name : string; tl_Tags : list string }.
Inductive payload := Raw (b : bytes) | JsonErrors (l : list ociError) | JsonTags (t : tagsListResponse).

Abbreviation Response := (Response payload).
Definition respond (status : Z) (h : gmap string string) (p : payload) : Response := mkResponse status h p.

Definition writeOCIError (h : gmap string string) (status : Z) (code : string) (msg : message) : Response :=
  respond status (Set_ "Content-Type" "application/json" h) (JsonErrors [mkOciError code msg]).

Definition writeDomainError (h : gmap string string) (e : error) (notFoundCode : string) : Response :=
  if IsNotFound e then writeOCIError h 404 notFoundCode (MError e)
  else if IsDigestMismatch e || errors_Is e ErrInvalidDigest then writeOCIError h 400 codeDigestInvalid (MError e)
  else if IsInvalidInput e then writeOCIError h 400 codeNameInvalid (MError e)
  else if IsNotSupported e then writeOCIError h 405 codeUnsupported (MError e)
  else if IsAlreadyExists e then writeOCIError h 409 codeBlobUploadInval (MError e)
  else writeOCIError h 500 codeUnsupported (MError e).

Definition writeJSON (h : gmap string string) (status : Z) (v : tagsListResponse) : Response :=
  respond status (Set_ "Content-Type" "application/json" h) (JsonTags v).

(** ** router.go *)

Section router.
Context `{Registry_ St}.
(** [Adapter.RepoName] *)
Context (RepoName : string → string).
Implicit Types (s : St) (h : gmap string string).

(** A handler's continuation on the result of a call; a panic of the backend
    would end the request without an answer. *)
Definition answer {A} (c : St * result A) h (code : string) (k : A → Response) : St * option Response :=
  (c.1, match c.2 with
        | Ok a => Some (k a)
        | Err e => Some (writeDomainError h e code)
        | Panic => None
        end).

Definition not_allowed h (r : Request) s : St * option Response :=
  (s, Some (writeOCIError h 405 codeUnsupported (MText (Method r +:+ " not allowed")))).

(** [r.Body] is never nil on the server side. *)
Definition body_of (r : Request) : BodyReader := default (Reads []) (Body r).

Definition writeUploadAccepted h (repo : string) (sess : UploadSession) (status : Z) : Response :=
  respond status
    (Set_ "Range" (if 0 <? us_Offset sess then "0-" +:+ Itoa (wrap_s 64 (us_Offset sess - 1)) else "0-0")
      (Set_ "Docker-Upload-UUID" (us_ID sess)
        (Set_ "Location" ("/v2/" +:+ repo +:+ "/blobs/uploads/" +:+ us_ID sess) h))) (Raw []).

Definition finalize (now : Time) h (r : Request) (repo : string) (sess : UploadSession) (digest : string) s
    : St * option Response :=
  answer (rg_CompleteBlobUpload now repo sess digest (body_of r) s) h codeBlobUploadInval (λ desc,
    respond 201 (Set_ "Docker-Content-Digest" (Desc_Digest desc)
      (Set_ "Location" ("/v2/" +:+ repo +:+ "/blobs/" +:+ Desc_Digest desc) h)) (Raw [])).

Definition startUpload (now : Time) h (r : Request) (repo : string) s : St * option Response :=
  if negb (String.eqb (Method r) "POST") then not_allowed h r s
  else
    let c := rg_StartBlobUpload now repo s in
    match c.2 with
    | Err e => (c.1, Some (writeDomainError h e codeNameUnknown))
    | Panic => (c.1, None)
    | Ok sess =>
        let dg := Query_Get (Query r) "digest" in
        if nonempty dg then finalize now h r repo sess dg c.1
        else (c.1, Some (writeUploadAccepted h repo sess 202))
    end.

Definition continueUpload (now : Time) h (r : Request) (repo id : string) s : St * option Response :=
  let sess := mkUploadSession id 0 in
  if String.eqb (Method r) "PATCH" then
    answer (rg_UploadChunk repo sess (body_of r) s) h codeBlobUploadInval (λ updated,
      writeUploadAccepted h repo updated 202)
  else if String.eqb (Method r) "PUT" then
    let dg := Query_Get (Query r) "digest" in
    if String.eqb dg ""
    then (s, Some (writeOCIError h 400 codeDigestInvalid (MText "PUT requires a digest query parameter")))
    else finalize now h r repo sess dg s
  else not_allowed h r s.

Definition blob h (r : Request) (repo digest : string) s : St * option Response :=
  let sized desc := Set_ "Content-Length" (Itoa (Desc_Size desc))
                      (Set_ "Docker-Content-Digest" (Desc_Digest desc) h) in
  if String.eqb (Method r) "HEAD" then
    answer (rg_BlobExists repo digest s) h codeBlobUnknown (λ desc, respond 200 (sized desc) (Raw []))
  else if String.eqb (Method r) "GET" then
    answer (rg_GetBlob repo digest s) h codeBlobUnknown (λ '(rc, desc), respond 200 (sized desc) (Raw rc))
  else not_allowed h r s.

Definition manifest (now : Time) h (r : Request) (repo ref : string) s : St * option Response :=
  let sized desc := Set_ "Content-Length" (Itoa (Desc_Size desc))
                      (Set_ "Docker-Content-Digest" (Desc_Digest desc)
                        (Set_ "Content-Type" (Desc_MediaType desc) h)) in
  if String.eqb (Method r) "PUT" then
    answer (rg_PutManifest now repo ref (Header_Get r "Content-Type") (body_of r) s) h codeManifestUnknown (λ desc,
      respond 201 (Set_ "Location" ("/v2/" +:+ repo +:+ "/manifests/" +:+ Desc_Digest desc)
        (Set_ "Docker-Content-Digest" (Desc_Digest desc) h)) (Raw []))
  else if String.eqb (Method r) "GET" then
    answer (rg_GetManifest repo ref s) h codeManifestUnknown (λ '(rc, desc), respond 200 (sized desc) (Raw rc))
  else if String.eqb (Method r) "HEAD" then
    answer (rg_HeadManifest repo ref s) h codeManifestUnknown (λ desc, respond 200 (sized desc) (Raw []))
  else if String.eqb (Method r) "DELETE" then
    answer (rg_DeleteManifest repo ref s) h codeManifestUnknown (λ _, respond 202 h (Raw []))
  else not_allowed h r s.

(** The nil slice and the empty one are both the empty list. *)
Definition tagsList h (r : Request) (repo : string) s : St * option Response :=
  if negb (String.eqb (Method r) "GET") then not_allowed h r s
  else answer (rg_ListTags repo (mkListOptions 0 "") s) h codeNameUnknown (λ tags,
    writeJSON h 200 (mkTagsListResponse repo tags)).

Definition apiVersionHeader := "Docker-Distribution-API-Version".
Definition apiVersionValue := "registry/2.0".

Definition ServeHTTP (now : Time) (r : Request) s : St * option Response :=
  let rest := TrimPrefix (URL_Path r) "/v2/" in
  if String.eqb rest (URL_Path r) then (s, Some (writeOCIError ∅ 404 codeNameUnknown (MText "not a /v2/ path")))
  else
    let h := Set_ apiVersionHeader apiVersionValue ∅ in
    if String.eqb rest "" || String.eqb rest "/" then
      (s, Some (if String.eqb (Method r) "GET" then respond 200 h (Raw (bytes_of_string "{}"))
                else writeOCIError h 405 codeUnsupported (MText (Method r +:+ " not allowed on /v2/"))))
    else
      let '(name, kind, arg, ok) := parsePath rest in
      if negb ok then (s, Some (writeOCIError h 404 codeNameUnknown (MText ("unrecognized /v2/ path: " +:+ URL_Path r))))
      else
        let repo := RepoName name in
        match kind with
        | kindBlobUploadStart => startUpload now h r repo s
        | kindBlobUpload => continueUpload now h r repo arg s
        | kindBlob => blob h r repo arg s
        | kindManifest => manifest now h r repo arg s
        | kindTagsList => tagsList h r repo s
        | kindUnknown => (s, Some (writeOCIError h 404 codeNameUnknown (MText "unrecognized /v2/ path")))
        end.
End router.

(** [defaultAdapter.RepoName], and [New]'s router. *)
Definition default_RepoName (parsed : string) : string := parsed.
Definition New_ServeHTTP `{Registry_ St} (now : Time) (r : Request) (s : St) : St * option Response :=
  ServeHTTP default_RepoName now r s.
