(* ===== verification/OciRouterProps.v ===== *)
(** * The OCI router: properties

    Paths are parsed back from what clients build; what is pushed over HTTP is
    pulled again; reading requests change nothing; digest verification does not
    depend on how the stream is cut into pieces. *)

From Stdlib Require Import Ascii.
From S2P Require Import Prelude GoStrings GoBytes GoCrypto GoHttp Registry OciRouter.

(** ** Markers in paths *)

Lemma Split_app_sep s c t : Split (s +:+ String c t) c = Split s c ++ Split t c.
Proof.
  induction s as [|a s IH]; [by rewrite Split_app|]. rewrite str_cons_app. cbn [Split].
  destruct (Ascii.eqb a c); [by rewrite IH|]. rewrite IH.
  pose proof (Split_nonempty s c). by destruct (Split s c).
Qed.

(** A marker is a slash, a segment, a slash and maybe more. *)
Definition marker (mid more : string) : string := String "/" (mid +:+ String "/" more).
Lemma marker_app mid more q : marker mid more +:+ q = String "/" (mid +:+ String "/" (more +:+ q)).
Proof. unfold marker. by rewrite str_cons_app, str_app_assoc. Qed.
Definition inner (s : string) : list string := tail (Split s "/").

Lemma inner_app s t : inner (s +:+ String "/" t) = inner s ++ Split t "/".
Proof.
  unfold inner. rewrite Split_app_sep. pose proof (Split_nonempty s "/"). by destruct (Split s "/").
Qed.

Lemma Index_first name sub rest :
  (∀ p q, name +:+ sub +:+ rest = p +:+ sub +:+ q → (String.length name <= String.length p)%nat) →
  Index (name +:+ sub +:+ rest) sub = Some (String.length name).
Proof.
  induction name as [|a name IH]; intros Hfirst.
  - change ("" +:+ sub +:+ rest) with (sub +:+ rest). destruct (sub +:+ rest) as [|b s] eqn:E.
    + destruct sub as [|b s]; [done|]. by rewrite str_cons_app in E.
    + cbn [Index]. rewrite <-E, HasPrefix_app. done.
  - rewrite str_cons_app. cbn [Index]. rewrite <-str_cons_app.
    destruct (HasPrefix (String a name +:+ sub +:+ rest) sub) eqn:E.
    + apply HasPrefix_spec in E as [t E]. apply (Hfirst "" t) in E. cbn in E. lia.
    + rewrite IH; [done|]. intros p q H. specialize (Hfirst (String a p) q).
      rewrite !str_cons_app, H in Hfirst. specialize (Hfirst eq_refl). cbn in Hfirst. lia.
Qed.

Lemma str_prefix_cases p s x y :
  p +:+ x = s +:+ y → (String.length p < String.length s)%nat → ∃ t, s = p +:+ t ∧ t ≠ "".
Proof.
  revert s. induction p as [|a p IH]; intros s E Hl; [exists s; split; [done|]; intros ->; cbn in Hl; lia|].
  destruct s as [|b s]; [cbn in Hl; lia|]. rewrite !str_cons_app in E. injection E as -> E.
  destruct (IH s E ltac:(cbn in Hl; lia)) as (t & -> & Ht). by exists t.
Qed.

Lemma str_mem_split c s : str_mem c s = true → ∃ u v, s = u +:+ String c v ∧ str_mem c u = false.
Proof.
  intros H. destruct (IndexByte s c) as [i|] eqn:E.
  - apply IndexByte_Some in E as [E1 E2]. by eexists _, _.
  - apply IndexByte_None in E. congruence.
Qed.

(** The first marker of a path is right after the repository name. *)
Lemma Index_marker name mid more rest :
  str_mem "/" mid = false → mid ∉ inner name →
  Index (name +:+ marker mid more +:+ rest) (marker mid more) = Some (String.length name).
Proof.
  intros Hm Hn. apply Index_first. intros p q E.
  destruct (decide (String.length name <= String.length p)%nat) as [|Hlt]; [done|]. exfalso.
  destruct (str_prefix_cases p name _ _ (eq_sym E) ltac:(lia)) as (n2 & -> & Hne).
  rewrite str_app_assoc in E. apply str_app_inj_l in E. unfold marker in E.
  destruct n2 as [|a n3]; [done|]. rewrite !str_cons_app in E. injection E as -> E.
  rewrite inner_app in Hn.
  assert (Hq : (mid +:+ String "/" more) +:+ q = mid +:+ String "/" (more +:+ q)) by (by rewrite str_app_assoc).
  rewrite Hq in E. destruct (str_mem "/" n3) eqn:E3.
  - apply str_mem_split in E3 as (u & v & -> & Hu). rewrite str_app_assoc, str_cons_app in E.
    apply str_sep_inj in E as [-> _]; [|done..]. apply Hn. rewrite Split_app by done. set_solver.
  - apply str_sep_inj in E as [-> _]; [|done..]. apply Hn. rewrite Split_plain by done. set_solver.
Qed.

(** A path without the segment in its interior has no such marker. *)
Lemma Index_no_marker s mid more :
  str_mem "/" mid = false → mid ∉ removelast (inner s) → Index s (marker mid more) = None.
Proof.
  intros Hm Hn. destruct (Index s (marker mid more)) as [i|] eqn:E; [|done]. exfalso.
  apply Index_Some in E. apply Hn. rewrite E. unfold marker.
  rewrite !str_cons_app, str_app_assoc, !str_cons_app, inner_app, Split_app by done.
  rewrite removelast_app by done. apply elem_of_app. right.
  match goal with |- _ ∈ removelast (_ :: Split ?x ?c) =>
    pose proof (Split_nonempty x c); destruct (Split x c); [done|] end.
  left.
Qed.

Lemma no_slash_suffix u ref :
  str_mem "/" ref = false → ref ≠ "" → TrimSuffix (u +:+ String "/" ref) "/" = u +:+ String "/" ref.
Proof.
  intros Hm Hne. unfold TrimSuffix. destruct (HasSuffix _ "/") eqn:E; [|done]. exfalso.
  apply HasSuffix_spec in E as [t E]. apply (f_equal (λ s, Split s "/")) in E.
  rewrite !Split_app_sep, (Split_plain ref) in E by done.
  by apply app_inj_tail in E as [_ ->].
Qed.

Lemma no_tags_suffix u m ref :
  str_mem "/" m = false → str_mem "/" ref = false → m ≠ "tags" →
  HasSuffix (u +:+ String "/" (m +:+ String "/" ref)) "/tags/list" = false.
Proof.
  intros Hm Hr Hne. apply not_true_is_false. intros [t E]%HasSuffix_spec.
  change "/tags/list" with (String "/" ("tags" +:+ String "/" "list")) in E.
  apply (f_equal (λ s, Split s "/")) in E. rewrite !Split_app_sep, (Split_plain ref), (Split_plain m) in E by done.
  change (Split "tags" "/" ++ Split "list" "/") with ["tags"; "list"] in E. cbn [app] in E.
  change [m; ref] with ([m] ++ [ref]) in E. change ["tags"; "list"] with (["tags"] ++ ["list"]) in E.
  rewrite !(assoc_L (++)) in E. apply app_inj_tail in E as [E _]. by apply app_inj_tail in E as [_ ->].
Qed.

(** Names whose segments after the first are not the router's markers. *)
Definition good_name (n : string) : Prop := (n ≠ "") ∧ ("blobs" ∉ inner n) ∧ ("manifests" ∉ inner n).

(** An argument that is one segment. *)
Definition segment (s : string) : Prop := s ≠ "" ∧ str_mem "/" s = false.

Lemma nonempty_true s : s ≠ "" → nonempty s = true.
Proof. unfold nonempty. by destruct (String.eqb_spec s ""). Qed.

Lemma inner_two u m ref :
  str_mem "/" m = false → str_mem "/" ref = false →
  removelast (inner (u +:+ String "/" (m +:+ String "/" ref))) = inner u ++ [m].
Proof.
  intros Hm Hr. rewrite inner_app, Split_app, (Split_plain ref) by done.
  rewrite removelast_app by done. done.
Qed.

Definition blobs_path (name d : string) : string := name +:+ String "/" ("blobs" +:+ String "/" d).
Definition uploads_path (name id : string) : string :=
  name +:+ String "/" ("blobs" +:+ String "/" ("uploads" +:+ String "/" id)).
Definition manifests_path (name ref : string) : string := name +:+ String "/" ("manifests" +:+ String "/" ref).

Lemma marker_blobs : marker "blobs" "" = "/blobs/". Proof. done. Qed.
Lemma marker_manifests : marker "manifests" "" = "/manifests/". Proof. done. Qed.
Lemma marker_uploads : marker "blobs" "uploads" = "/blobs/uploads". Proof. done. Qed.

Lemma str_drop_app_add s k t : str_drop (String.length s + k) (s +:+ t) = str_drop k t.
Proof. induction s as [|c s IH]; [done|]. rewrite str_cons_app. exact IH. Qed.

Lemma parse_manifest name ref :
  good_name name → segment ref → parsePath (manifests_path name ref) = (name, kindManifest, ref, true).
Proof.
  intros (Hne & Hb & Hm) (Hr & Hs). unfold parsePath, manifests_path.
  assert (TrimSuffix (name +:+ String "/" ("manifests" +:+ String "/" ref)) "/" =
          name +:+ String "/" ("manifests" +:+ String "/" ref)) as ->.
  { rewrite <-str_cons_app, <-str_app_assoc. by apply no_slash_suffix. }
  rewrite no_tags_suffix by done.
  rewrite <-marker_uploads, <-marker_blobs, <-marker_manifests, !Index_no_marker
    by (try done; rewrite inner_two by done; set_solver).
  change (String "/" ("manifests" +:+ String "/" ref)) with (marker "manifests" "" +:+ ref).
  rewrite Index_marker by done. rewrite str_take_app, str_drop_app_add, str_drop_app.
  by rewrite !nonempty_true.
Qed.

Lemma parse_blob name d :
  good_name name → segment d → HasPrefix d "uploads" = false →
  parsePath (blobs_path name d) = (name, kindBlob, d, true).
Proof.
  intros (Hne & Hb & Hm) (Hd & Hs) Hu. unfold parsePath, blobs_path.
  assert (TrimSuffix (name +:+ String "/" ("blobs" +:+ String "/" d)) "/" =
          name +:+ String "/" ("blobs" +:+ String "/" d)) as ->.
  { rewrite <-str_cons_app, <-str_app_assoc. by apply no_slash_suffix. }
  rewrite no_tags_suffix by done.
  assert (Index (name +:+ String "/" ("blobs" +:+ String "/" d)) "/blobs/uploads" = None) as ->.
  { destruct (Index _ _) as [i|] eqn:E; [|done]. exfalso. pose proof (Index_Some _ _ _ E) as E'.
    remember (str_take i _) as p. remember (str_drop _ _) as q. clear Heqp Heqq E.
    rewrite <-marker_uploads, marker_app in E'.
    pose proof E' as ES. apply (f_equal (λ s, Split s "/")) in ES. rewrite !Split_app_sep, (Split_plain d) in ES by done.
    change (Split "blobs" "/") with ["blobs"] in ES.
    destruct (str_mem "/" ("uploads" +:+ q)) eqn:Eq.
    - apply str_mem_split in Eq as (u & v & Eu & Hmu). rewrite Eu, Split_app in ES by done.
      pose proof (Split_nonempty v "/") as Hv. destruct (exists_last Hv) as (l & x & El). rewrite El in ES.
      assert (Split name "/" ++ ["blobs"] = Split p "/" ++ "blobs" :: u :: l) as E2.
      { apply (app_inj_tail (Split name "/" ++ ["blobs"]) (Split p "/" ++ "blobs" :: u :: l) d x).
        rewrite <-!(assoc_L (++)). exact ES. }
      destruct (exists_last (l:=u :: l)) as (l' & y & El'); [done|]. rewrite El' in E2.
      change ("blobs" :: l' ++ [y]) with (("blobs" :: l') ++ [y]) in E2. rewrite (assoc_L (++)) in E2.
      apply app_inj_tail in E2 as [E2 _]. apply Hb. unfold inner. rewrite E2.
      pose proof (Split_nonempty p "/"). destruct (Split p "/"); [done|]. set_solver.
    - rewrite (Split_plain ("uploads" +:+ q)) in ES by done.
      change (["blobs"] ++ [d]) with (["blobs"] ++ [d]) in ES.
      rewrite !(assoc_L (++)) in ES. apply app_inj_tail in ES as [_ ->]. by rewrite HasPrefix_app in Hu. }
  rewrite <-marker_blobs. change (String "/" ("blobs" +:+ String "/" d)) with (marker "blobs" "" +:+ d).
  rewrite Index_marker by done. rewrite str_take_app, str_drop_app_add, str_drop_app.
  by rewrite !nonempty_true.
Qed.

Lemma parse_upload name id :
  good_name name → segment id → parsePath (uploads_path name id) = (name, kindBlobUpload, id, true).
Proof.
  intros (Hne & Hb & Hm) (Hi & Hs). unfold parsePath, uploads_path.
  assert (name +:+ String "/" ("blobs" +:+ String "/" ("uploads" +:+ String "/" id)) =
          (name +:+ "/blobs") +:+ String "/" ("uploads" +:+ String "/" id)) as E.
  { rewrite str_app_assoc. done. }
  assert (TrimSuffix (name +:+ String "/" ("blobs" +:+ String "/" ("uploads" +:+ String "/" id))) "/" =
          name +:+ String "/" ("blobs" +:+ String "/" ("uploads" +:+ String "/" id))) as ->.
  { rewrite E, <-str_cons_app, <-str_app_assoc. by apply no_slash_suffix. }
  rewrite E, no_tags_suffix, <-E by done. rewrite <-marker_uploads.
  change (String "/" ("blobs" +:+ String "/" ("uploads" +:+ String "/" id)))
    with (marker "blobs" "uploads" +:+ String "/" id).
  rewrite Index_marker by done. rewrite str_take_app, str_drop_app_add, str_drop_app.
  change (String "/" id) with ("/" +:+ id). rewrite TrimPrefix_app.
  destruct (String.eqb_spec id ""); [done|]. by rewrite nonempty_true.
Qed.

Lemma parse_upload_start name :
  good_name name → parsePath (uploads_path name "") = (name, kindBlobUploadStart, "", true).
Proof.
  intros (Hne & Hb & Hm). unfold parsePath, uploads_path.
  assert (name +:+ String "/" ("blobs" +:+ String "/" ("uploads" +:+ String "/" "")) =
          ((name +:+ String "/" ("blobs" +:+ String "/" "uploads")) +:+ "/")%string) as ->.
  { rewrite str_app_assoc. done. }
  rewrite TrimSuffix_app, no_tags_suffix by done. rewrite <-marker_uploads.
  change (String "/" ("blobs" +:+ String "/" "uploads")) with (marker "blobs" "uploads" +:+ "").
  rewrite Index_marker by done. rewrite str_take_app, str_drop_app_add.
  rewrite str_drop_app. cbn. by rewrite nonempty_true.
Qed.

Lemma parse_tags name : name ≠ "" → parsePath (name +:+ "/tags/list") = (name, kindTagsList, "", true).
Proof.
  intros Hne. unfold parsePath.
  assert (TrimSuffix (name +:+ "/tags/list") "/" = name +:+ "/tags/list") as ->.
  { change "/tags/list" with ("/tags" +:+ String "/" "list"). rewrite <-str_app_assoc. by apply no_slash_suffix. }
  assert (HasSuffix (name +:+ "/tags/list") "/tags/list" = true) as -> by (apply HasSuffix_spec; by exists name).
  by rewrite TrimSuffix_app, nonempty_true.
Qed.

(** ** Identifiers and digests as path segments *)

Lemma upload_id_segment n : 0 <= n → segment (upload_id n).
Proof.
  intros Hn. split; [done|]. unfold upload_id, fmt_08d. rewrite (proj2 (Z.ltb_ge n 0)) by done.
  rewrite str_mem_app. cbn [str_mem orb Ascii.eqb]. change (str_mem "/" "upload-") with false. cbn [orb].
  unfold pad_zero. induction (8 - String.length (utoa n))%nat as [|k IH]; [|done].
  exact (itoa_go_mem "/" _ n "" eq_refl Hn eq_refl).
Qed.

Lemma digest_segment c : segment (sha256Digest c) ∧ HasPrefix (sha256Digest c) "uploads" = false.
Proof.
  unfold sha256Digest, segment. pose proof (hex_Encode_mem "/" (sha256_Sum256 c) eq_refl) as Hm. revert Hm.
  generalize (hex_EncodeToString (sha256_Sum256 c)). intros s Hs. rewrite str_mem_app, Hs. by split_and!.
Qed.

(** ** A client *)

Definition serve (now : Time) (r : Request) (b : Backend) : Backend * option Response := New_ServeHTTP now r b.

(** A request for a path; the server sees the path as it is for names without
    percent signs. *)
Definition request (method path : string) (query : gmap string (list string)) (ctype : string) (body : bytes) : Request :=
  mkRequest method "localhost" "" path "" path "" query {["Content-Type" := [ctype]]} (Z.of_nat (length body))
    (Some (Reads body)).

Definition location (status : Z) (r : option Response) : option string :=
  match r with
  | Some resp => if decide (Status resp = status) then RespHeader resp !! "Location" else None
  | None => None
  end.

(** Sends the chunks, each to the location the last answer gave. *)
Fixpoint patch_all (now : Time) (loc : string) (chunks : list bytes) (b : Backend) : Backend * option string :=
  match chunks with
  | [] => (b, Some loc)
  | c :: cs =>
      let '(b, r) := serve now (request "PATCH" loc ∅ "application/octet-stream" c) b in
      match location 202 r with Some loc => patch_all now loc cs b | None => (b, None) end
  end.

(** Opens an upload, sends the chunks and completes it with a digest. *)
Definition push (now : Time) (name : string) (chunks : list bytes) (d : string) (b : Backend)
    : Backend * option Response :=
  let '(b, r) := serve now (request "POST" ("/v2/" +:+ uploads_path name "") ∅ "" []) b in
  match location 202 r with
  | None => (b, r)
  | Some loc =>
      let '(b, loc) := patch_all now loc chunks b in
      match loc with
      | None => (b, None)
      | Some loc => serve now (request "PUT" loc {["digest" := [d]]} "" []) b
      end
  end.

Lemma v2_path rest : rest ≠ "" → TrimPrefix ("/v2/" +:+ rest) "/v2/" = rest ∧ String.eqb rest ("/v2/" +:+ rest) = false.
Proof.
  intros Hne. split; [apply TrimPrefix_app|]. apply String.eqb_neq. intros E.
  apply (f_equal String.length) in E. rewrite str_length_app in E. cbn in E. lia.
Qed.

(** Dispatch of a path that parses. *)
Lemma serve_parsed now r b rest name kind arg :
  URL_Path r = "/v2/" +:+ rest → parsePath rest = (name, kind, arg, true) → kind ≠ kindUnknown →
  serve now r b =
    (let h := Set_ apiVersionHeader apiVersionValue ∅ in
     match kind with
     | kindBlobUploadStart => startUpload now h r name b
     | kindBlobUpload => continueUpload now h r name arg b
     | kindBlob => blob h r name arg b
     | kindManifest => manifest now h r name arg b
     | kindTagsList => tagsList h r name b
     | kindUnknown => (b, None)
     end).
Proof.
  intros Hp Hparse Hk. unfold serve, New_ServeHTTP, ServeHTTP. rewrite Hp.
  assert (rest ≠ "" ∧ rest ≠ "/") as [Hne Hns].
  { split; intros ->; vm_compute in Hparse; by simplify_eq. }
  destruct (v2_path rest Hne) as [-> ->].
  destruct (String.eqb_spec rest ""); [done|]. destruct (String.eqb_spec rest "/"); [done|]. cbn [orb].
  rewrite Hparse. cbn [negb]. by destruct kind.
Qed.

Lemma location_accepted h name sess :
  location 202 (Some (writeUploadAccepted h name sess 202)) = Some ("/v2/" +:+ uploads_path name (us_ID sess)).
Proof.
  unfold location, writeUploadAccepted, respond. cbn [Status RespHeader]. rewrite decide_True by done.
  unfold Set_. rewrite !lookup_insert_ne by (vm_compute; done). by rewrite lookup_insert_eq.
Qed.

Lemma post_starts now name b :
  good_name name → 0 <= seq b < 2 ^ 63 - 1 →
  ∃ resp, serve now (request "POST" ("/v2/" +:+ uploads_path name "") ∅ "" []) b =
    (run (OpStartBlobUpload now name) b, Some resp) ∧
    location 202 (Some resp) = Some ("/v2/" +:+ uploads_path name (upload_id (seq b + 1))).
Proof.
  intros Hg Hs. destruct (start_upload now name b Hs) as (E & _ & _).
  rewrite (serve_parsed now _ b (uploads_path name "") name kindBlobUploadStart "") by (try done; by apply parse_upload_start).
  cbv zeta. unfold startUpload. cbn [Method request]. change (negb (String.eqb "POST" "POST")) with false. cbv iota.
  cbn [rg_StartBlobUpload inmem_registry]. rewrite E. cbn [Query request].
  change (nonempty (Query_Get ∅ "digest")) with false. cbv iota.
  eexists; split; [reflexivity|]. by rewrite location_accepted.
Qed.

Lemma patch_appends now name n c ch b :
  good_name name → has_upload n name c b →
  ∃ resp, serve now (request "PATCH" ("/v2/" +:+ uploads_path name (upload_id n)) ∅ "application/octet-stream" ch) b =
    (run (OpUploadChunk name (mkUploadSession (upload_id n) 0) (Reads ch)) b, Some resp) ∧
    location 202 (Some resp) = Some ("/v2/" +:+ uploads_path name (upload_id n)).
Proof.
  intros Hg [Hu Hn].
  rewrite (serve_parsed now _ b (uploads_path name (upload_id n)) name kindBlobUpload (upload_id n))
    by first [done|apply parse_upload; [done|apply upload_id_segment; lia]].
  cbv zeta. unfold continueUpload. cbn [Method request]. change (String.eqb "PATCH" "PATCH") with true. cbv iota.
  unfold answer. cbn [rg_UploadChunk inmem_registry body_of Body request default run].
  unfold UploadChunk, upload_of. cbn [us_ID]. rewrite Hu. cbn [repo]. rewrite String.eqb_refl.
  eexists; split; [reflexivity|]. by rewrite location_accepted.
Qed.

Lemma patch_all_appends now name n chunks c b :
  good_name name → 0 <= seq b < 2 ^ 63 - 1 → has_upload n name c b →
  ∃ b', patch_all now ("/v2/" +:+ uploads_path name (upload_id n)) chunks b =
    (b', Some ("/v2/" +:+ uploads_path name (upload_id n))) ∧ has_upload n name (c ++ concat chunks) b'.
Proof.
  revert c b. induction chunks as [|ch chunks IH]; intros c b Hg Hs Hu; cbn [patch_all concat].
  { eexists; split; [done|]. by rewrite app_nil_r. }
  destruct (patch_appends now name n c ch b Hg Hu) as (resp & -> & ->).
  assert (seq (run (OpUploadChunk name (mkUploadSession (upload_id n) 0) (Reads ch)) b) = seq b) as Eseq.
  { cbn. by repeat case_match. }
  pose proof (run_upload n name c (OpUploadChunk name (mkUploadSession (upload_id n) 0) (Reads ch)) b Hs
    (λ H, match H with end) Hu) as Hu'.
  cbn [contribution us_ID] in Hu'. rewrite decide_True in Hu' by done.
  destruct (IH _ _ Hg ltac:(by rewrite Eseq) Hu') as (b' & -> & Hb'). exists b'. split; [done|].
  by rewrite (assoc_L (++)).
Qed.

Lemma put_completes now name n c d b :
  good_name name → has_upload n name c b → d ≠ "" →
  serve now (request "PUT" ("/v2/" +:+ uploads_path name (upload_id n)) {["digest" := [d]]} "" []) b =
    finalize now (Set_ apiVersionHeader apiVersionValue ∅)
      (request "PUT" ("/v2/" +:+ uploads_path name (upload_id n)) {["digest" := [d]]} "" [])
      name (mkUploadSession (upload_id n) 0) d b.
Proof.
  intros Hg [Hu Hn] Hd.
  rewrite (serve_parsed now _ b (uploads_path name (upload_id n)) name kindBlobUpload (upload_id n))
    by first [done|apply parse_upload; [done|apply upload_id_segment; lia]].
  cbv zeta. unfold continueUpload. cbn [Method request Query].
  change (String.eqb "PUT" "PATCH") with false. change (String.eqb "PUT" "PUT") with true. cbv iota.
  assert (Query_Get {["digest" := [d]]} "digest" = d) as ->.
  { unfold Query_Get. by rewrite lookup_singleton_eq. }
  by destruct (String.eqb_spec d "").
Qed.

Lemma get_blob_serves now name d c b :
  good_name name → segment d → HasPrefix d "uploads" = false →
  (GetBlob name d b).2 = Ok (c, mkDescriptor d "" (Z.of_nat (length c))) →
  ∃ h, serve now (request "GET" ("/v2/" +:+ blobs_path name d) ∅ "" []) b = (b, Some (mkResponse 200 h (Raw c))) ∧
    h !! "Docker-Content-Digest" = Some d ∧ h !! "Content-Length" = Some (Itoa (Z.of_nat (length c))).
Proof.
  intros Hg Hd Hu E. rewrite (serve_parsed now _ b (blobs_path name d) name kindBlob d) by (try done; by apply parse_blob).
  cbv zeta. unfold blob. cbn [Method request]. change (String.eqb "GET" "HEAD") with false.
  change (String.eqb "GET" "GET") with true. cbv iota. unfold answer. cbn [rg_GetBlob inmem_registry].
  rewrite E. cbn [Desc_Size Desc_Digest].
  assert ((GetBlob name d b).1 = b) as -> by (unfold GetBlob; by repeat case_match).
  eexists. split; [reflexivity|]. unfold Set_. split.
  - rewrite lookup_insert_ne by (vm_compute; done). by rewrite lookup_insert_eq.
  - by rewrite lookup_insert_eq.
Qed.

Lemma blobs_location name d : "/v2/" +:+ name +:+ "/blobs/" +:+ d = "/v2/" +:+ blobs_path name d.
Proof. done. Qed.

(** ** Reading a stream through the verifier *)

Lemma Algorithm_sha256 hex : Algorithm ("sha256:" +:+ hex) = "sha256".
Proof. done. Qed.

Lemma tee_copy_sum pieces n dw :
  tee_copy pieces n dw =
    (n + Z.of_nat (length (concat pieces)), (tee_copy pieces n dw).2) ∧
  dw_alg (tee_copy pieces n dw).2 = dw_alg dw ∧
  dw_h (tee_copy pieces n dw).2 = (λ w, w ++ concat pieces) <$> dw_h dw.
Proof.
  revert n dw. induction pieces as [|p ps IH]; intros n dw; cbn [tee_copy concat].
  - cbn. rewrite Z.add_0_r. split_and!; [done|done|]. destruct (dw_h dw); cbn; by rewrite ?app_nil_r.
  - destruct (IH (n + Z.of_nat (length p)) (dw_Write p dw)) as (E1 & E2 & E3). split_and!.
    + rewrite E1 at 1. f_equal. rewrite length_app. lia.
    + by rewrite E2.
    + rewrite E3. cbn. destruct (dw_h dw); cbn; [|done]. by rewrite (assoc_L (++)).
Qed.

(** ** What calls may do to the state *)

(** No panic, and no change with an error. *)
Definition clean {A} (b : Backend) (c : Backend * result A) : Prop :=
  c.2 ≠ Panic ∧ (∀ e, c.2 = Err e → c.1 = b).

Lemma upload_of_clean rp sess b : upload_of rp sess b ≠ Panic.
Proof. unfold upload_of. by repeat case_match. Qed.

Lemma reads_clean rp d ref opt b :
  clean b (BlobExists rp d b) ∧ clean b (GetBlob rp d b) ∧ clean b (GetManifest rp ref b) ∧
  clean b (HeadManifest rp ref b) ∧ clean b (ListTags rp opt b) ∧
  (BlobExists rp d b).1 = b ∧ (GetBlob rp d b).1 = b ∧ (ListTags rp opt b).1 = b.
Proof.
  unfold clean, BlobExists, GetBlob, GetManifest, HeadManifest, ListTags, lookupManifest.
  split_and!; repeat case_match; cbn; try done; destruct (resolve r ref); done.
Qed.

Lemma writes_clean now rp sess d ref mt rd b :
  clean b (StartBlobUpload now rp b) ∧ clean b (UploadChunk rp sess rd b) ∧
  clean b (CompleteBlobUpload now rp sess d rd b) ∧ clean b (PutManifest now rp ref mt rd b) ∧
  clean b (DeleteManifest rp ref b).
Proof.
  unfold clean, StartBlobUpload, UploadChunk, CompleteBlobUpload, PutManifest, DeleteManifest.
  pose proof (upload_of_clean rp sess b).
  split_and!; destruct (repoOrCreate now rp b); repeat case_match; cbn; by simplify_eq.
Qed.

(** A handler's answer, given what its call does. *)
Definition safe (b : Backend) (m : string) (x : Backend * option Response) : Prop :=
  ∃ resp, x.2 = Some resp ∧ (m ∉ ["POST"; "PATCH"; "PUT"; "DELETE"] → x.1 = b) ∧
    (m ≠ "POST" → 400 <= Status resp → x.1 = b).

Lemma unchanged_safe b m resp : safe b m (b, Some resp).
Proof. by exists resp. Qed.

Lemma post_safe b b' m resp : m = "POST" → safe b m (b', Some resp).
Proof. intros ->. exists resp. split; [done|]. split; [set_solver|done]. Qed.

Lemma answer_safe {A} b m (c : Backend * result A) h code k :
  clean b c → (∀ a, Status (k a) < 400) → (m ∉ ["POST"; "PATCH"; "PUT"; "DELETE"] → c.1 = b) →
  safe b m (answer c h code k).
Proof.
  intros [Hp He] Hk Hm. unfold safe, answer. cbn [fst snd]. destruct (c.2) as [a|e|] eqn:E; [| |done].
  - exists (k a). split_and!; [done|done|]. intros _ H. specialize (Hk a). lia.
  - exists (writeDomainError h e code). by split_and!; eauto.
Qed.

Lemma finalize_safe b b0 now h r name sess d :
  (Method r = "POST" ∨ Method r = "PUT" ∧ b0 = b) → safe b (Method r) (finalize now h r name sess d b0).
Proof.
  intros Hm. destruct (writes_clean now name sess d "" "" (body_of r) b0) as (_ & _ & Hc & _).
  destruct Hm as [Hm|[Hm ->]]; rewrite Hm.
  - destruct Hc as [Hp _]. unfold finalize, answer, safe. cbn [rg_CompleteBlobUpload inmem_registry fst snd].
    destruct (CompleteBlobUpload _ _ _ _ _ _).2; [| |done]; eexists; (split; [reflexivity|]); split; intros; set_solver.
  - apply answer_safe; [done|done|set_solver].
Qed.

Lemma handlers_safe b now h r name arg :
  safe b (Method r) (startUpload now h r name b) ∧ safe b (Method r) (continueUpload now h r name arg b) ∧
  safe b (Method r) (blob h r name arg b) ∧ safe b (Method r) (manifest now h r name arg b) ∧
  safe b (Method r) (tagsList h r name b).
Proof.
  destruct (reads_clean name arg arg (mkListOptions 0 "") b) as (R1 & R2 & R3 & R4 & R5 & E1 & E2 & E3).
  destruct (writes_clean now name (mkUploadSession arg 0) "" arg (Header_Get r "Content-Type") (body_of r) b)
    as (W1 & W2 & W3 & W4 & W5).
  unfold startUpload, continueUpload, blob, manifest, tagsList, not_allowed.
  cbn [rg_StartBlobUpload rg_UploadChunk rg_BlobExists rg_GetBlob rg_PutManifest rg_GetManifest rg_HeadManifest
    rg_DeleteManifest rg_ListTags inmem_registry].
  split_and!; repeat match goal with |- context [String.eqb (Method r) ?m] =>
    destruct (String.eqb_spec (Method r) m) as [Em|]; cbn [negb] end;
    try apply unchanged_safe; try (apply answer_safe; [done|by try intros []|rewrite ?Em; set_solver]).
  - destruct W1 as [Hp He]. destruct (StartBlobUpload now name b) as [b1 [sess|e|]];
      cbn [fst snd] in *; [|by apply post_safe|done].
    destruct (nonempty _); [apply finalize_safe; by left|by apply post_safe].
  - destruct (String.eqb _ ""); [apply unchanged_safe|]. apply finalize_safe. by right.
Qed.

(** ** Properties *)

(** The router parses back the path a client builds for a repository, an
    upload, a digest or a reference, for every repository name in which no
    segment but the first is "blobs" or "manifests".  Other names, although
    legal, are misread: a manifest of "team/blobs" is taken for a blob of
    "team". *)
Theorem paths_parse_back (name : string) :
  (name ≠ "" → parsePath (name +:+ "/tags/list") = (name, kindTagsList, "", true)) ∧
  (good_name name →
     parsePath (uploads_path name "") = (name, kindBlobUploadStart, "", true) ∧
     (∀ id, segment id → parsePath (uploads_path name id) = (name, kindBlobUpload, id, true)) ∧
     (∀ d, segment d → HasPrefix d "uploads" = false → parsePath (blobs_path name d) = (name, kindBlob, d, true)) ∧
     (∀ ref, segment ref → parsePath (manifests_path name ref) = (name, kindManifest, ref, true))) ∧
  parsePath (manifests_path "team/blobs" "latest") = ("team", kindBlob, "manifests/latest", true).
Proof.
  split_and!; [apply parse_tags| |done]. intros Hg. split_and!; [by apply parse_upload_start|..]; intros.
  - by apply parse_upload.
  - by apply parse_blob.
  - by apply parse_manifest.
Qed.

(** C31: What is pushed is pulled.  A client that opens an upload, sends the
    chunks to the locations it is given and completes the upload with a digest
    gets 201 exactly when the digest is the SHA-256 of the chunks together; the
    blob can then be fetched at its digest and the body is the chunks in
    order.  With another digest the answer is 400 DIGEST_INVALID. *)
Theorem pushed_blobs_are_pulled (b : Backend) (now now' : Time) (name d : string) (chunks : list bytes) :
  good_name name → 0 <= seq b < 2 ^ 63 - 2 → d ≠ "" →
  let b' := (push now name chunks d b).1 in let r := (push now name chunks d b).2 in
  if decide (d = sha256Digest (concat chunks))
  then ∃ hp hg, r = Some (mkResponse 201 hp (Raw [])) ∧
    hp !! "Docker-Content-Digest" = Some d ∧ hp !! "Location" = Some ("/v2/" +:+ blobs_path name d) ∧
    serve now' (request "GET" ("/v2/" +:+ blobs_path name d) ∅ "" []) b' =
      (b', Some (mkResponse 200 hg (Raw (concat chunks)))) ∧
    hg !! "Docker-Content-Digest" = Some d ∧
    hg !! "Content-Length" = Some (Itoa (Z.of_nat (length (concat chunks))))
  else ∃ hp e, r = Some (mkResponse 400 hp (JsonErrors [mkOciError codeDigestInvalid (MError e)])).
Proof.
  intros Hg Hs Hd. cbv zeta. unfold push. destruct (post_starts now name b Hg ltac:(lia)) as (r1 & -> & ->).
  destruct (start_upload now name b ltac:(lia)) as (_ & Hu & Hseq).
  destruct (patch_all_appends now name (seq b + 1) chunks [] _ Hg ltac:(rewrite Hseq; lia) Hu) as (b2 & -> & Hu2).
  rewrite (put_completes now name (seq b + 1) _ d b2 Hg Hu2 Hd). destruct Hu2 as [Hu2 _]. cbn [app] in Hu2.
  pose proof (complete_upload now name _ d _ [] b2 Hu2) as Hc. cbv zeta in Hc. rewrite app_nil_r in Hc.
  unfold finalize, answer. cbn [rg_CompleteBlobUpload inmem_registry body_of Body request default].
  change (Datatypes.id (Reads [])) with (Reads []).
  destruct (CompleteBlobUpload now name (mkUploadSession (upload_id (seq b + 1)) 0) d (Reads []) b2) as [b3 r3].
  cbn [fst snd] in Hc |- *. destruct (decide (d = sha256Digest (concat chunks))) as [Ed|Hne].
  - rewrite decide_True in Hc by done. destruct Hc as (-> & _ & Hget).
    destruct (digest_segment (concat chunks)) as [Hseg Hpre]. rewrite <-Ed in Hseg, Hpre.
    destruct (get_blob_serves now' name d _ b3 Hg Hseg Hpre Hget) as (hg & Eg & H1 & H2).
    eexists _, hg. cbn [Desc_Digest]. split_and!; [reflexivity| | |exact Eg|done|done].
    + unfold Set_. by rewrite lookup_insert_eq.
    + unfold Set_. rewrite lookup_insert_ne by (vm_compute; done). rewrite lookup_insert_eq.
      by rewrite blobs_location.
  - rewrite decide_False in Hc by done. destruct Hc as (_ & e & -> & Hm & Hn).
    eexists _, e. unfold writeDomainError. by rewrite Hn, Hm.
Qed.

Lemma pushed_blobs_are_pulled_witness :
  let c := [bytes_of_string "layer-"; bytes_of_string "bytes"] in
  let b' := (push 1 "myorg/app" c (sha256Digest (concat c)) New).1 in
  ∃ h, (serve 2 (request "GET" ("/v2/" +:+ blobs_path "myorg/app" (sha256Digest (concat c))) ∅ "" []) b').2 =
    Some (mkResponse 200 h (Raw (bytes_of_string "layer-bytes"))).
Proof.
  intros c b'. assert (good_name "myorg/app") as Hg by (split_and!; [done|by vm_compute; set_solver..]).
  pose proof (pushed_blobs_are_pulled New 1 2 "myorg/app" (sha256Digest (concat c)) c Hg ltac:(cbn; lia)
    (proj1 (proj1 (digest_segment (concat c))))) as H.
  cbv zeta in H. rewrite decide_True in H by reflexivity. destruct H as (hp & hg & _ & _ & _ & E & _).
  exists hg. exact (f_equal snd E).
Defined.

(** Every request gets an answer, whatever its path and method: the backend
    never panics.  Requests other than POST, PATCH, PUT and DELETE change
    nothing, and neither does any request but a POST that is answered with an
    error. *)
Theorem requests_answered_safely (now : Time) (r : Request) (b : Backend) :
  ∃ resp, (serve now r b).2 = Some resp ∧
    (Method r ∉ ["POST"; "PATCH"; "PUT"; "DELETE"] → (serve now r b).1 = b) ∧
    (Method r ≠ "POST" → 400 <= Status resp → (serve now r b).1 = b).
Proof.
  assert (safe b (Method r) (serve now r b)) as H; [|exact H].
  unfold serve, New_ServeHTTP, ServeHTTP.
  destruct (String.eqb _ _); [apply unchanged_safe|]. destruct (_ || _); [apply unchanged_safe|].
  destruct (parsePath _) as [[[name kind] arg] ok]. destruct ok; cbn [negb]; [|apply unchanged_safe].
  destruct (handlers_safe b now (Set_ apiVersionHeader apiVersionValue ∅) r (default_RepoName name) arg)
    as (H1 & H2 & H3 & H4 & H5).
  destruct kind; [apply unchanged_safe|done..].
Qed.

(** Verifying a stream accepts it exactly when the digest is well-formed
    and, for sha256, is the digest of the whole content, however the content is
    cut into reads; digests of other algorithms pass unchecked. *)
Theorem VerifyReader_accepts_iff (pieces : list bytes) (want : string) (n : Z) :
  VerifyReader pieces None want = Ok n ↔
    Valid want = true ∧ n = Z.of_nat (length (concat pieces)) ∧
    (Algorithm want = "sha256" → want = sha256Digest (concat pieces)).
Proof.
  unfold VerifyReader. destruct (Valid want); cbn [negb]; [|naive_solver].
  destruct (tee_copy_sum pieces 0 (newDigestWriter (Algorithm want))) as (E & Ea & Eh).
  destruct (tee_copy pieces 0 (newDigestWriter (Algorithm want))) as [m dw]. cbn [snd] in *. injection E as ->.
  unfold verifiable, dw_sum. rewrite Ea, Eh. unfold newDigestWriter. cbn [dw_alg dw_h].
  destruct (String.eqb_spec (Algorithm want) "sha256") as [->|Hne].
  - rewrite bool_decide_eq_true_2 by (cbn; eauto). cbn [andb fmap option_fmap option_map default app].
    change (Datatypes.id (concat pieces)) with (concat pieces).
    change ("sha256" +:+ ":" +:+ ?x) with ("sha256:" +:+ x).
    unfold sha256Digest. generalize ("sha256:" +:+ hex_EncodeToString (sha256_Sum256 (concat pieces))).
    intros s. destruct (String.eqb_spec s want) as [<-|Hd]; cbn [negb]; split.
    + by intros [= <-].
    + by intros (_ & -> & _).
    + done.
    + intros (_ & _ & H). by destruct Hd; rewrite H.
  - rewrite bool_decide_eq_false_2 by (cbn; intros [? ?]; done). cbn [andb]. naive_solver.
Qed.
