(* ===== verification/Dns.v ===== *)
(** * DNS: domain types, errors and the in-process backend

    Models [internal/dns/domain] and [services/dns/backends/inmem].  The range
    order of the two listing loops is the argument [order], a list of the map's
    keys.  The slices and the tag map that the backend shares with its callers
    are modelled by their values: the frontends do not write to them. *)

From Stdlib Require Import Ascii.
From S2P Require Import Prelude GoStrings GoBytes.

(** ** domain/errors.go *)

Inductive Kind :=
  | KindUnknown | KindNoSuchZone | KindZoneAlreadyExists | KindZoneNotEmpty | KindNoSuchRecordSet
  | KindInvalidArgument | KindUnsupported.
#[export] Instance Kind_eq_dec : EqDecision Kind.
Proof. solve_decision. Defined.
Definition Kind_String (k : Kind) : string :=
  match k with
  | KindNoSuchZone => "NoSuchZone" | KindZoneAlreadyExists => "ZoneAlreadyExists"
  | KindZoneNotEmpty => "ZoneNotEmpty" | KindNoSuchRecordSet => "NoSuchRecordSet"
  | KindInvalidArgument => "InvalidArgument" | KindUnsupported => "Unsupported"
  | KindUnknown => "Unknown"
  end.

(** A [*domain.Error], or an error of another package with what it wraps. *)
Inductive error :=
  | DomainError (Kind_ : Kind) (Name : string) (Message : string) (Inner : option error)
  | OtherError (text : string) (Inner : option error).

Definition Error_text (e : error) : string :=
  match e with
  | DomainError k n m _ =>
      if String.eqb n "" then "dns " +:+ Kind_String k +:+ ": " +:+ m
      else "dns " +:+ Kind_String k +:+ ": " +:+ n +:+ ": " +:+ m
  | OtherError t _ => t
  end.
Definition Unwrap (e : error) : option error :=
  match e with DomainError _ _ _ i | OtherError _ i => i end.

(** The kind of the first [*domain.Error] in the chain ([errors.As]). *)
Fixpoint errors_As (e : error) : option Kind :=
  match e with
  | DomainError k _ _ _ => Some k
  | OtherError _ (Some i) => errors_As i
  | OtherError _ None => None
  end.
Definition IsKind (e : error) (k : Kind) : bool := bool_decide (errors_As e = Some k).

Definition NoSuchZone (name : string) : error := DomainError KindNoSuchZone name "zone not found" None.
Definition ZoneAlreadyExists (name : string) : error := DomainError KindZoneAlreadyExists name "zone already exists" None.
Definition ZoneNotEmpty (name : string) : error :=
  DomainError KindZoneNotEmpty name "zone still has user-managed record sets" None.
Definition NoSuchRecordSet (zone name rtype : string) : error :=
  DomainError KindNoSuchRecordSet (zone +:+ "/" +:+ name +:+ "/" +:+ rtype) "record set not found" None.
Definition InvalidArgument (msg : string) : error := DomainError KindInvalidArgument "" msg None.
Definition Unsupported (feature : string) : error :=
  DomainError KindUnsupported "" (feature +:+ " is not in the cross-cloud DNS intersection") None.

Abbreviation result := (outcome error).

(** ** domain/domain.go *)

Inductive ZoneVisibility := VisibilityUnknown | VisibilityPublic | VisibilityPrivate.
#[export] Instance ZoneVisibility_eq_dec : EqDecision ZoneVisibility.
Proof. solve_decision. Defined.
Definition ZoneVisibility_String (v : ZoneVisibility) : string :=
  match v with VisibilityPublic => "public" | VisibilityPrivate => "private" | VisibilityUnknown => "unknown" end.

(** A [RecordType] is a string. *)
Definition RecordTypeA := "A".
Definition RecordTypeAAAA := "AAAA".
Definition RecordTypeCNAME := "CNAME".
Definition RecordTypeMX := "MX".
Definition RecordTypeNS := "NS".
Definition RecordTypeSOA := "SOA".
Definition RecordTypeSRV := "SRV".
Definition RecordTypeTXT := "TXT".

Record Zone := mkZone {
  Zone_Name : string; Zone_Visibility : ZoneVisibility; Zone_NameServers : list string;
  Zone_Description : string; Zone_Tags : strmap; Zone_CreatedAt : Time }.
Record RecordSet := mkRecordSet { rs_Name : string; rs_Type : string; rs_TTL : Z; rs_Records : list string }.
Record CreateZoneOptions := mkCreateZoneOptions {
  cz_Visibility : ZoneVisibility; cz_Description : string; cz_Tags : strmap; cz_PrivateVPCs : list string }.
Record ListZonesOptions := mkListZonesOptions {
  lz_NamePrefix : string; lz_VisibilityFilter : ZoneVisibility; lz_PageSize : Z; lz_PageToken : string }.
Record ListZonesResult := mkListZonesResult { lzr_Zones : list Zone; lzr_NextPageToken : string }.
Record ListRecordSetsOptions := mkListRecordSetsOptions {
  lr_NameFilter : string; lr_TypeFilter : string; lr_PageSize : Z; lr_PageToken : string }.
Record ListRecordSetsResult := mkListRecordSetsResult { lrr_RecordSets : list RecordSet; lrr_NextPageToken : string }.

(** ** inmem.go *)

Record zoneState := mkZoneState { zone : Zone; recordSets : gmap string RecordSet }.
Record Backend := mkBackend { zones : gmap string zoneState }.

Definition New : Backend := mkBackend ∅.

Definition canonicalize (name : string) : string :=
  let n := ToLower (TrimSpace name) in
  if negb (HasSuffix n ".") then n +:+ "." else n.

Definition rsKey (name rtype : string) : string := canonicalize name +:+ "|" +:+ rtype.

Definition copyTags (m : strmap) : strmap := copy_map m.

Definition set_zone (b : Backend) (n : string) (st : zoneState) : Backend := mkBackend (<[n := st]> (zones b)).

Definition nameServers (canonical : string) : list string :=
  ["ns-1." +:+ canonical; "ns-2." +:+ canonical; "ns-3." +:+ canonical; "ns-4." +:+ canonical].

(** The SOA and NS record sets a public zone starts with. *)
Definition seed (canonical : string) : gmap string RecordSet :=
  <[rsKey canonical RecordTypeNS :=
      mkRecordSet canonical RecordTypeNS 172800 (nameServers canonical)]>
    (<[rsKey canonical RecordTypeSOA :=
        mkRecordSet canonical RecordTypeSOA 900
          ["ns-1." +:+ canonical +:+ " admin." +:+ canonical +:+ " 1 7200 900 1209600 86400"]]> ∅).

Definition CreateZone (now : Time) (name : string) (opt : CreateZoneOptions) (b : Backend) : Backend * result Zone :=
  let canonical := canonicalize name in
  match zones b !! canonical with
  | Some _ => (b, Err (ZoneAlreadyExists canonical))
  | None =>
      let public := bool_decide (cz_Visibility opt = VisibilityPublic) in
      let z := mkZone canonical (cz_Visibility opt) (if public then nameServers canonical else [])
                 (cz_Description opt) (copyTags (cz_Tags opt)) now in
      (set_zone b canonical (mkZoneState z (if public then seed canonical else ∅)), Ok z)
  end.

Definition GetZone (name : string) (b : Backend) : Backend * result Zone :=
  let canonical := canonicalize name in
  match zones b !! canonical with
  | None => (b, Err (NoSuchZone canonical))
  | Some st => (b, Ok (zone st))
  end.

(** Whether the loop over the keys finds a record set that is neither SOA nor NS. *)
Definition user_managed (k : string) : bool := negb (HasSuffix k "|SOA") && negb (HasSuffix k "|NS").

Definition DeleteZone (name : string) (force : bool) (b : Backend) : Backend * result unit :=
  let canonical := canonicalize name in
  match zones b !! canonical with
  | None => (b, Err (NoSuchZone canonical))
  | Some st =>
      if negb force && existsb user_managed (map_to_list (recordSets st)).*1
      then (b, Err (ZoneNotEmpty canonical))
      else (mkBackend (delete canonical (zones b)), Ok ())
  end.

Definition zone_listed (opt : ListZonesOptions) (st : zoneState) : bool :=
  (String.eqb (lz_NamePrefix opt) "" || HasPrefix (Zone_Name (zone st)) (canonicalize (lz_NamePrefix opt))) &&
  (bool_decide (lz_VisibilityFilter opt = VisibilityUnknown) ||
   bool_decide (Zone_Visibility (zone st) = lz_VisibilityFilter opt)).

Definition ListZones (order : list string) (opt : ListZonesOptions) (b : Backend) : Backend * result ListZonesResult :=
  (b, Ok (mkListZonesResult (zone <$> filter (λ st, zone_listed opt st = true) (omap (λ n, zones b !! n) order)) "")).

Definition PutRecordSet (zn : string) (rs : RecordSet) (b : Backend) : Backend * result unit :=
  let canonical := canonicalize zn in
  match zones b !! canonical with
  | None => (b, Err (NoSuchZone canonical))
  | Some st =>
      let rs := mkRecordSet (canonicalize (rs_Name rs)) (rs_Type rs) (rs_TTL rs) (rs_Records rs) in
      (set_zone b canonical (mkZoneState (zone st) (<[rsKey (rs_Name rs) (rs_Type rs) := rs]> (recordSets st))), Ok ())
  end.

Definition GetRecordSet (zn name rtype : string) (b : Backend) : Backend * result RecordSet :=
  let canonicalZone := canonicalize zn in
  match zones b !! canonicalZone with
  | None => (b, Err (NoSuchZone canonicalZone))
  | Some st =>
      match recordSets st !! rsKey name rtype with
      | None => (b, Err (NoSuchRecordSet canonicalZone (canonicalize name) rtype))
      | Some rs => (b, Ok rs)
      end
  end.

Definition DeleteRecordSet (zn name rtype : string) (b : Backend) : Backend * result unit :=
  let canonicalZone := canonicalize zn in
  match zones b !! canonicalZone with
  | None => (b, Err (NoSuchZone canonicalZone))
  | Some st =>
      let key := rsKey name rtype in
      match recordSets st !! key with
      | None => (b, Err (NoSuchRecordSet canonicalZone (canonicalize name) rtype))
      | Some _ => (set_zone b canonicalZone (mkZoneState (zone st) (delete key (recordSets st))), Ok ())
      end
  end.

Definition record_listed (opt : ListRecordSetsOptions) (rs : RecordSet) : bool :=
  (String.eqb (lr_NameFilter opt) "" || String.eqb (rs_Name rs) (canonicalize (lr_NameFilter opt))) &&
  (String.eqb (lr_TypeFilter opt) "" || String.eqb (rs_Type rs) (lr_TypeFilter opt)).

Definition ListRecordSets (order : list string) (zn : string) (opt : ListRecordSetsOptions) (b : Backend)
    : Backend * result ListRecordSetsResult :=
  let canonicalZone := canonicalize zn in
  match zones b !! canonicalZone with
  | None => (b, Err (NoSuchZone canonicalZone))
  | Some st =>
      (b, Ok (mkListRecordSetsResult
        (filter (λ rs, record_listed opt rs = true) (omap (λ k, recordSets st !! k) order)) ""))
  end.

(** * DNS: properties of the in-process backend

    Names are canonicalised once and for all, so record sets form a map from
    (canonical name, type); a zone can be deleted without force exactly when
    only SOA and NS sets are left; a listing returns what can be looked up. *)

(** ** Canonical names *)

Definition no_space_prefix (s : string) : Prop := ∀ w, w ∈ space_runes → HasPrefix s w = false.

Lemma find_rune_None f l : find_first f l = None ↔ ∀ w, w ∈ l → f w = false.
Proof.
  unfold find_first. rewrite fmap_None, list_find_None, Forall_forall. split; intros H w Hw.
  - by apply not_true_iff_false, H.
  - by rewrite (H w Hw).
Qed.
Lemma find_first_Some f l w : find_first f l = Some w → w ∈ l ∧ f w = true.
Proof.
  unfold find_first. intros ([i x] & H & ->)%fmap_Some. apply list_find_Some in H as (H & Hf & _).
  split; [by eapply list_elem_of_lookup_2|done].
Qed.

(** Bytes that lower-casing neither changes nor produces. *)
Definition caseless (c : ascii) : bool := Ascii.eqb (lower_ascii c) c && Ascii.eqb (upper_ascii c) c.
Fixpoint all_caseless (s : string) : bool :=
  match s with EmptyString => true | String c s => caseless c && all_caseless s end.

Lemma space_runes_plain w : w ∈ space_runes → all_caseless w = true ∧ str_mem "." w = false ∧ w ≠ "".
Proof.
  intros Hw. assert (Forall (λ w, all_caseless w = true ∧ str_mem "." w = false ∧ w ≠ "") space_runes) as H.
  { unfold space_runes. repeat (constructor; [done|]). constructor. }
  rewrite Forall_forall in H. by apply H.
Qed.

Lemma space_runes_nonempty w : w ∈ space_runes → w ≠ "".
Proof. by intros (_ & _ & ?)%space_runes_plain. Qed.

Lemma str_length_drop k s : String.length (str_drop k s) = (String.length s - k)%nat.
Proof. revert s. induction k as [|k IH]; by intros [|c s]; cbn. Qed.

Lemma trim_left_go_done fuel s : (String.length s <= fuel)%nat → no_space_prefix (trim_left_go fuel s).
Proof.
  revert s. induction fuel as [|fuel IH]; intros s Hl; cbn [trim_left_go].
  - destruct s; [|cbn in Hl; lia]. intros w Hw. pose proof (space_runes_nonempty w Hw). by destruct w.
  - destruct (find_first (HasPrefix s) space_runes) as [w|] eqn:E; [|exact (proj1 (find_rune_None _ _) E)].
    apply find_first_Some in E as [Hw _]. apply IH. rewrite str_length_drop.
    pose proof (space_runes_nonempty w Hw). destruct w; [done|cbn]. lia.
Qed.

Lemma trim_right_go_take fuel s : ∃ k, trim_right_go fuel s = str_take k s.
Proof.
  assert (∀ j k (s : string), ∃ i, str_take j (str_take k s) = str_take i s) as Htt.
  { intros j k s'. exists (j `min` k)%nat. revert j k. induction s' as [|c s' IH]; intros [|j] [|k]; cbn; try done.
    by rewrite IH. }
  revert s. induction fuel as [|fuel IH]; intros s; cbn [trim_right_go].
  - exists (String.length s). pose proof (str_take_app s "") as H. by rewrite str_app_nil_r in H.
  - destruct (find_first _ _) as [w|].
    + destruct (IH (str_take (String.length s - String.length w) s)) as [k ->]. apply Htt.
    + exists (String.length s). pose proof (str_take_app s "") as H. by rewrite str_app_nil_r in H.
Qed.

Lemma HasPrefix_take s k w : HasPrefix (str_take k s) w = true → HasPrefix s w = true.
Proof.
  intros [t E]%HasPrefix_spec. apply HasPrefix_spec. exists (t +:+ str_drop k s).
  by rewrite <-str_app_assoc, <-E, str_take_drop.
Qed.

Lemma TrimSpace_prefix s : no_space_prefix (TrimSpace s).
Proof.
  unfold TrimSpace. destruct (trim_right_go_take (String.length (trim_left_go (String.length s) s))
    (trim_left_go (String.length s) s)) as [k ->].
  intros w Hw. apply not_true_iff_false. intros H%HasPrefix_take.
  by rewrite (trim_left_go_done (String.length s) s) in H.
Qed.

Lemma lower_caseless a c : caseless c = true → Ascii.eqb c (lower_ascii a) = Ascii.eqb c a.
Proof.
  intros Hc. destruct (Ascii.eqb_spec c a) as [->|Hne].
  - apply andb_true_iff in Hc as [Hc _]. apply Ascii.eqb_eq in Hc. apply Ascii.eqb_eq. done.
  - apply Ascii.eqb_neq. intros ->. apply Hne. unfold caseless in Hc. clear Hne. revert Hc.
    destruct a as [[] [] [] [] [] [] [] []]; vm_compute; done.
Qed.

Lemma HasPrefix_ToLower s w : all_caseless w = true → HasPrefix (ToLower s) w = HasPrefix s w.
Proof.
  revert s. induction w as [|c w IH]; intros s Hw; [done|]. cbn in Hw. apply andb_true_iff in Hw as [Hc Hw].
  destruct s as [|a s]; [done|]. cbn. by rewrite lower_caseless, IH.
Qed.

Lemma HasPrefix_snoc s c w : str_mem c w = false → HasPrefix (s +:+ String c "") w = true → HasPrefix s w = true.
Proof.
  revert s. induction w as [|a w IH]; intros s Hm H; [done|]. cbn in Hm. apply orb_false_iff in Hm as [Ha Hm].
  destruct s as [|b s].
  - change ("" +:+ String c "") with (String c "") in H. cbn in H. by rewrite Ha in H.
  - rewrite str_cons_app in H. cbn in H |- *. apply andb_true_iff in H as [-> H]. by apply IH.
Qed.

Lemma TrimSpace_id s : no_space_prefix s → (∀ w, w ∈ space_runes → HasSuffix s w = false) → TrimSpace s = s.
Proof.
  intros Hp Hs. unfold TrimSpace.
  assert (trim_left_go (String.length s) s = s) as ->.
  { destruct (String.length s); [done|]. cbn [trim_left_go]. by rewrite (proj2 (find_rune_None _ _) Hp). }
  destruct (String.length s); [done|]. cbn [trim_right_go]. by rewrite (proj2 (find_rune_None _ _) Hs).
Qed.

Lemma HasSuffix_dot_space s w : w ∈ space_runes → HasSuffix (s +:+ ".") w = false.
Proof.
  intros Hw. destruct (space_runes_plain w Hw) as (_ & Hd & Hne). apply not_true_iff_false.
  intros [t E]%HasSuffix_spec.
  assert (∃ u c, w = u +:+ String c "") as (u & c & ->).
  { clear -Hne. induction w as [|c w IH]; [done|]. destruct w as [|c' w]; [by exists "", c|].
    destruct IH as (u & d & E); [done|]. exists (String c u), d. by rewrite str_cons_app, E. }
  rewrite <-str_app_assoc in E. rewrite str_mem_app in Hd. apply orb_false_iff in Hd as [_ Hc]. cbn in Hc.
  assert (∀ x y (a b : ascii), x +:+ String a "" = y +:+ String b "" → a = b) as Hlast.
  { clear. induction x as [|e x IH]; intros y a b E; destruct y as [|f y].
    - by injection E.
    - rewrite str_cons_app in E. injection E as _ E. by destruct y.
    - rewrite str_cons_app in E. injection E as _ E. by destruct x.
    - rewrite !str_cons_app in E. injection E as _ E. eauto. }
  apply Hlast in E as <-. done.
Qed.

Lemma canonicalize_dot n : ∃ s, canonicalize n = s +:+ ".".
Proof.
  unfold canonicalize. destruct (HasSuffix (ToLower (TrimSpace n)) ".") eqn:E; cbn [negb].
  - apply HasSuffix_spec in E as [t ->]. by exists t.
  - by eexists.
Qed.

Lemma canonicalize_idemp n : canonicalize (canonicalize n) = canonicalize n.
Proof.
  assert (TrimSpace (canonicalize n) = canonicalize n) as Ht.
  { apply TrimSpace_id.
    - intros w Hw. destruct (space_runes_plain w Hw) as (Hc & Hd & _).
      pose proof (TrimSpace_prefix n w Hw) as Hp. apply not_true_iff_false. intros H. revert Hp.
      apply not_false_iff_true. rewrite <-HasPrefix_ToLower by done. revert H. unfold canonicalize.
      destruct (HasSuffix _ "."); cbn [negb]; [done|]. by apply HasPrefix_snoc.
    - intros w Hw. destruct (canonicalize_dot n) as [s ->]. by apply HasSuffix_dot_space. }
  assert (ToLower (canonicalize n) = canonicalize n) as Hl.
  { unfold canonicalize. destruct (HasSuffix _ "."); cbn [negb]; rewrite ?ToLower_app, ToLower_idemp; done. }
  unfold canonicalize at 1. rewrite Ht, Hl.
  assert (HasSuffix (canonicalize n) "." = true) as ->; [|done].
  apply HasSuffix_spec. destruct (canonicalize_dot n) as [s ->]. by exists s.
Qed.

(** ** Operations as steps *)

Inductive op :=
  | OpCreateZone (now : Time) (name : string) (opt : CreateZoneOptions)
  | OpDeleteZone (name : string) (force : bool)
  | OpPutRecordSet (zn : string) (rs : RecordSet)
  | OpDeleteRecordSet (zn name rtype : string).

(** The operations that change the state. *)
Definition run (o : op) (b : Backend) : Backend :=
  match o with
  | OpCreateZone now n opt => (CreateZone now n opt b).1
  | OpDeleteZone n f => (DeleteZone n f b).1
  | OpPutRecordSet zn rs => (PutRecordSet zn rs b).1
  | OpDeleteRecordSet zn n t => (DeleteRecordSet zn n t b).1
  end.
Definition run_all (os : list op) (b : Backend) : Backend := fold_left (λ b o, run o b) os b.

(** Zones and record sets are stored under their canonical names. *)
Definition record_ok (k : string) (rs : RecordSet) : Prop :=
  k = rs_Name rs +:+ "|" +:+ rs_Type rs ∧ canonicalize (rs_Name rs) = rs_Name rs.
Definition zone_ok (zn : string) (st : zoneState) : Prop :=
  canonicalize zn = zn ∧ Zone_Name (zone st) = zn ∧ map_Forall record_ok (recordSets st).
Definition zones_ok (b : Backend) : Prop := map_Forall zone_ok (zones b).

Lemma seed_ok n : canonicalize n = n → map_Forall record_ok (seed n).
Proof.
  intros Hn. unfold seed, rsKey. rewrite Hn.
  apply map_Forall_insert_2; [done|]. apply map_Forall_insert_2; [done|apply map_Forall_empty].
Qed.

Lemma run_zones_ok o b : zones_ok b → zones_ok (run o b).
Proof.
  intros Hb. destruct o as [now n opt|n f|zn rs|zn n t]; cbn.
  - unfold CreateZone. case_match; [done|]. apply map_Forall_insert_2; [|done].
    split_and!; [apply canonicalize_idemp|done|]. cbn. case_bool_decide; [|apply map_Forall_empty].
    apply seed_ok, canonicalize_idemp.
  - unfold DeleteZone. repeat case_match; try done. by apply map_Forall_delete.
  - unfold PutRecordSet. destruct (zones b !! canonicalize zn) as [st|] eqn:E; [|done].
    destruct (Hb _ _ E) as (H1 & H2 & H3).
    apply map_Forall_insert_2; [|done]. split_and!; [done..|]. apply map_Forall_insert_2; [|done].
    unfold record_ok, rsKey. cbn. by rewrite canonicalize_idemp.
  - unfold DeleteRecordSet. destruct (zones b !! canonicalize zn) as [st|] eqn:E; [|done].
    destruct (Hb _ _ E) as (H1 & H2 & H3). case_match; [|done].
    apply map_Forall_insert_2; [|done]. split_and!; [done..|]. by apply map_Forall_delete.
Qed.

Lemma reachable_zones_ok os : zones_ok (run_all os New).
Proof.
  assert (∀ b, zones_ok b → zones_ok (run_all os b)) as H; [|apply H, map_Forall_empty].
  induction os as [|o os IH]; intros b Hb; [done|]. apply IH. by apply run_zones_ok.
Qed.

(** ** Keys *)

(** The last separator splits a string in one way only. *)
Lemma str_last_sep_inj c s t s' t' :
  str_mem c t = false → str_mem c t' = false → s +:+ String c t = s' +:+ String c t' → s = s' ∧ t = t'.
Proof.
  intros Ht Ht'. revert s'. induction s as [|a s IH]; intros [|a' s'] E; rewrite ?str_cons_app in E;
    change ("" +:+ ?x) with x in E; simplify_eq.
  - done.
  - rewrite str_mem_app in Ht. cbn in Ht. rewrite Ascii.eqb_refl in Ht. by destruct (str_mem _ s').
  - rewrite str_mem_app in Ht'. cbn in Ht'. rewrite Ascii.eqb_refl in Ht'. by destruct (str_mem _ s).
  - match goal with H : _ +:+ _ = _ |- _ => destruct (IH s' H) as [-> ->] end. done.
Qed.

Definition no_bar (t : string) : Prop := str_mem "|" t = false.

Lemma rsKey_inj n t n' t' :
  no_bar t → no_bar t' → rsKey n t = rsKey n' t' ↔ canonicalize n = canonicalize n' ∧ t = t'.
Proof.
  intros Ht Ht'. unfold rsKey. split; [|by intros [-> ->]]. apply (str_last_sep_inj "|"); done.
Qed.

Lemma rsKey_canonical n t : rsKey (canonicalize n) t = rsKey n t.
Proof. unfold rsKey. by rewrite canonicalize_idemp. Qed.

(** Two names that the backend does not distinguish. *)
Definition same_name (n n' : string) : Prop := canonicalize n = canonicalize n'.
#[export] Instance same_name_dec n n' : Decision (same_name n n').
Proof. unfold same_name. apply _. Defined.

(** ** Properties *)

(** Record sets form a map from canonical names and types, for types
    without a bar, as all those of the package are.  A put replaces exactly the
    set at its zone, name and type, a delete removes exactly that, and both
    leave what every other lookup gives; a delete succeeds exactly when the
    lookup does.  Names count up to case, surrounding white space and a
    missing final dot, in zones and in record sets. *)
Theorem record_sets_form_a_map (b : Backend) (zn : string) (rs : RecordSet) (zn' name' t' : string) :
  no_bar (rs_Type rs) → no_bar t' →
  let there := same_name zn' zn ∧ same_name name' (rs_Name rs) ∧ t' = rs_Type rs in
  ((PutRecordSet zn rs b).2 = Ok () ↔ is_Some (zones b !! canonicalize zn)) ∧
  ((PutRecordSet zn rs b).2 = Ok () →
   (GetRecordSet zn' name' t' (PutRecordSet zn rs b).1).2 =
     if decide there
     then Ok (mkRecordSet (canonicalize (rs_Name rs)) (rs_Type rs) (rs_TTL rs) (rs_Records rs))
     else (GetRecordSet zn' name' t' b).2) ∧
  let del := DeleteRecordSet zn (rs_Name rs) (rs_Type rs) b in
  (del.2 = Ok () ↔ is_ok (GetRecordSet zn (rs_Name rs) (rs_Type rs) b).2 = true) ∧
  (del.2 = Ok () →
   (GetRecordSet zn' name' t' del.1).2 =
     if decide there then Err (NoSuchRecordSet (canonicalize zn) (canonicalize name') t')
     else (GetRecordSet zn' name' t' b).2).
Proof.
  intros Ht Ht' there. unfold PutRecordSet, DeleteRecordSet, GetRecordSet.
  destruct (zones b !! canonicalize zn) as [st|] eqn:Ez; cbn; [|split_and!; by try intros [? ?]].
  rewrite rsKey_canonical. split_and!; [naive_solver| |by case_match|].
  - intros _. destruct (decide (same_name zn' zn)) as [Hz|Hz].
    + rewrite Hz, lookup_insert_eq, Ez. cbn. destruct (decide there) as [(_ & Hn & ->)|Hno].
      * assert (rsKey name' (rs_Type rs) = rsKey (rs_Name rs) (rs_Type rs)) as -> by (by apply rsKey_inj).
        by rewrite lookup_insert_eq.
      * rewrite lookup_insert_ne; [by case_match|]. intros E%eq_sym%rsKey_inj; [|done..]. by apply Hno.
    + rewrite decide_False by (by intros [? _]). rewrite lookup_insert_ne by (by intros E; apply Hz).
      by repeat case_match.
  - destruct (recordSets st !! rsKey (rs_Name rs) (rs_Type rs)) as [old|] eqn:Er; cbn; [|done]. intros _.
    destruct (decide (same_name zn' zn)) as [Hz|Hz].
    + rewrite Hz, lookup_insert_eq, Ez. cbn. destruct (decide there) as [(_ & Hn & ->)|Hno].
      * assert (rsKey name' (rs_Type rs) = rsKey (rs_Name rs) (rs_Type rs)) as -> by (by apply rsKey_inj).
        by rewrite lookup_delete_eq.
      * rewrite lookup_delete_ne; [by case_match|]. intros E%eq_sym%rsKey_inj; [|done..]. by apply Hno.
    + rewrite decide_False by (by intros [? _]). rewrite lookup_insert_ne by (by intros E; apply Hz).
      by repeat case_match.
Qed.

Lemma record_sets_form_a_map_witness :
  let b := run (OpCreateZone 1 "Example.com" (mkCreateZoneOptions VisibilityPublic "" None [])) New in
  let rs := mkRecordSet "WWW.example.com " RecordTypeA 60 ["10.0.0.1"] in
  (GetRecordSet "example.com." "www.example.com." RecordTypeA (PutRecordSet "example.com" rs b).1).2 =
    Ok (mkRecordSet "www.example.com." RecordTypeA 60 ["10.0.0.1"]).
Proof.
  intros b rs.
  destruct (record_sets_form_a_map b "example.com" rs "example.com." "www.example.com." RecordTypeA) as (_ & H & _);
    [done..|]. rewrite H by (vm_compute; reflexivity). rewrite decide_True; [by vm_compute|].
  split_and!; by vm_compute.
Defined.

(** The record sets a listing may return. *)
Definition listed (opt : ListRecordSetsOptions) (rs : RecordSet) : Prop :=
  (lr_NameFilter opt = "" ∨ rs_Name rs = canonicalize (lr_NameFilter opt)) ∧
  (lr_TypeFilter opt = "" ∨ rs_Type rs = lr_TypeFilter opt).

Lemma record_listed_spec opt rs : record_listed opt rs = true ↔ listed opt rs.
Proof. unfold record_listed, listed. by rewrite andb_true_iff, !orb_true_iff, !String.eqb_eq. Qed.

Lemma stored_is_found b zn st k rs :
  zones_ok b → zones b !! canonicalize zn = Some st → recordSets st !! k = Some rs →
  k = rsKey (rs_Name rs) (rs_Type rs) ∧ (GetRecordSet zn (rs_Name rs) (rs_Type rs) b).2 = Ok rs.
Proof.
  intros Hb Hz Hk. destruct (Hb _ _ Hz) as (_ & _ & Hrs). destruct (Hrs k rs Hk) as [E Hc].
  assert (k = rsKey (rs_Name rs) (rs_Type rs)) as -> by (unfold rsKey; by rewrite Hc).
  split; [done|]. unfold GetRecordSet. by rewrite Hz, Hk.
Qed.

(** [ListRecordSets] returns exactly the record sets that [GetRecordSet]
    finds under their own name and type and that pass the filters, each once,
    whatever the order of the map. *)
Theorem ListRecordSets_exact (os : list op) (zn : string) (opt : ListRecordSetsOptions) (st : zoneState)
    (order : list string) :
  let b := run_all os New in
  zones b !! canonicalize zn = Some st → order ≡ₚ (map_to_list (recordSets st)).*1 →
  ∃ l, (ListRecordSets order zn opt b).2 = Ok (mkListRecordSetsResult l "") ∧ NoDup l ∧
    ∀ rs, rs ∈ l ↔ listed opt rs ∧ (GetRecordSet zn (rs_Name rs) (rs_Type rs) b).2 = Ok rs.
Proof.
  intros b Hz Ho. pose proof (reachable_zones_ok os : zones_ok b) as Hb. unfold ListRecordSets. rewrite Hz.
  pose proof (omap_lookup_values (recordSets st) order Ho) as Hv.
  eexists. split; [reflexivity|]. split.
  - apply NoDup_filter. rewrite Hv. destruct (Hb _ _ Hz) as (_ & _ & Hrs).
    apply NoDup_fmap_2_strong; [|apply NoDup_map_to_list].
    intros [k1 r1] [k2 r2] H1%elem_of_map_to_list H2%elem_of_map_to_list E. cbn in E. subst.
    destruct (Hrs _ _ H1) as [-> _], (Hrs _ _ H2) as [-> _]. done.
  - intros rs. rewrite list_elem_of_filter, record_listed_spec, Hv, elem_of_values. f_equiv. split.
    + intros [k Hk]. by eapply stored_is_found.
    + unfold GetRecordSet. rewrite Hz. case_match; [|done]. intros [= ->]. by eexists.
Qed.

Lemma ListRecordSets_exact_witness :
  let b := run_all [OpCreateZone 1 "example.com" (mkCreateZoneOptions VisibilityPublic "" None [])] New in
  ∃ st l, (ListRecordSets (map_to_list (recordSets st)).*1 "example.com" (mkListRecordSetsOptions "" "" 0 "") b).2 =
    Ok (mkListRecordSetsResult l "") ∧ NoDup l.
Proof.
  intros b. destruct (zones b !! canonicalize "example.com") as [st|] eqn:E; [|by vm_compute in E].
  destruct (ListRecordSets_exact [OpCreateZone 1 "example.com" (mkCreateZoneOptions VisibilityPublic "" None [])]
    "example.com" (mkListRecordSetsOptions "" "" 0 "") st (map_to_list (recordSets st)).*1 E) as (l & H & Hn & _); [done|].
  by exists st, l.
Defined.

(** ** Deleting zones *)

Definition types_ok (b : Backend) : Prop :=
  map_Forall (λ _ st, map_Forall (λ _ rs, no_bar (rs_Type rs)) (recordSets st)) (zones b).
Definition op_ok (o : op) : Prop := match o with OpPutRecordSet _ rs => no_bar (rs_Type rs) | _ => True end.

Lemma run_types_ok o b : op_ok o → types_ok b → types_ok (run o b).
Proof.
  intros Ho Hb. destruct o as [now n opt|n f|zn rs|zn n t]; cbn.
  - unfold CreateZone. case_match; [done|]. apply map_Forall_insert_2; [|done]. cbn.
    case_bool_decide; [|apply map_Forall_empty]. unfold seed.
    apply map_Forall_insert_2; [done|]. apply map_Forall_insert_2; [done|apply map_Forall_empty].
  - unfold DeleteZone. repeat case_match; try done. by apply map_Forall_delete.
  - unfold PutRecordSet. destruct (zones b !! canonicalize zn) as [st|] eqn:E; [|done].
    pose proof (Hb _ _ E). apply map_Forall_insert_2; [|done]. by apply map_Forall_insert_2.
  - unfold DeleteRecordSet. destruct (zones b !! canonicalize zn) as [st|] eqn:E; [|done].
    pose proof (Hb _ _ E). case_match; [|done]. apply map_Forall_insert_2; [|done]. by apply map_Forall_delete.
Qed.

Lemma run_all_types_ok os b : Forall op_ok os → types_ok b → types_ok (run_all os b).
Proof. intros H. revert b. induction H; intros b Hb; [done|]. cbn. eauto using run_types_ok. Qed.

Lemma HasSuffix_type n t ty :
  no_bar t → no_bar ty → HasSuffix (n +:+ "|" +:+ t) (String "|" ty) = bool_decide (t = ty).
Proof.
  intros Ht Hty. apply eq_bool_prop_intro. rewrite !Is_true_true, HasSuffix_spec, bool_decide_eq_true. split.
  - intros [u E]. change ("|" +:+ t) with (String "|" t) in E. by apply str_last_sep_inj in E as [_ ->].
  - intros ->. by exists n.
Qed.

Lemma user_managed_type n t :
  no_bar t → user_managed (n +:+ "|" +:+ t) = bool_decide (t ≠ RecordTypeSOA ∧ t ≠ RecordTypeNS).
Proof.
  intros Ht. unfold user_managed.
  change "|SOA" with (String "|" RecordTypeSOA). change "|NS" with (String "|" RecordTypeNS).
  rewrite (HasSuffix_type n t RecordTypeSOA), (HasSuffix_type n t RecordTypeNS) by done.
  repeat case_bool_decide; naive_solver.
Qed.

(** Without force a zone is deleted exactly when it exists and none of its
    record sets has a type other than SOA and NS (for types without a bar).  The
    NS sets count as the cloud's own whatever their name, so delegations of
    subdomains, which only users create, do not protect a zone. *)
Theorem DeleteZone_guard (os : list op) (zn : string) :
  Forall op_ok os → let b := run_all os New in
  ((DeleteZone zn false b).2 = Ok () ↔
     is_Some (zones b !! canonicalize zn) ∧
     ∀ name t rs, (GetRecordSet zn name t b).2 = Ok rs → rs_Type rs = RecordTypeSOA ∨ rs_Type rs = RecordTypeNS) ∧
  (DeleteZone zn true b).2 = match zones b !! canonicalize zn with
                             | Some _ => Ok () | None => Err (NoSuchZone (canonicalize zn)) end.
Proof.
  intros Ho b. pose proof (reachable_zones_ok os : zones_ok b) as Hb.
  pose proof (run_all_types_ok os New Ho (map_Forall_empty _) : types_ok b) as Ht.
  unfold DeleteZone. destruct (zones b !! canonicalize zn) as [st|] eqn:E; cbn [negb andb]; [|naive_solver].
  split; [|done]. destruct (existsb user_managed (map_to_list (recordSets st)).*1) eqn:Ex; cbn; (split; [|try done]).
  - done.
  - intros [_ Hall]. exfalso. apply existsb_exists in Ex as (k & Hk & Hu). apply list_elem_of_In in Hk.
    apply list_elem_of_fmap in Hk as ([k' rs] & -> & Hk%elem_of_map_to_list). cbn in Hu.
    destruct (stored_is_found b zn st k' rs Hb E Hk) as [_ Hget]. apply Hall in Hget.
    destruct (Hb _ _ E) as (_ & _ & Hrs). destruct (Hrs _ _ Hk) as [-> _].
    rewrite user_managed_type in Hu by (by eapply (Ht _ _ E)). apply bool_decide_eq_true in Hu. naive_solver.
  - intros _. split; [by eexists|]. intros name t rs. unfold GetRecordSet. rewrite E. case_match eqn:Er; [|done].
    intros [= ->]. destruct (Hb _ _ E) as (_ & _ & Hrs). destruct (Hrs _ _ Er) as [Ek _].
    assert (user_managed (rsKey name t) = false) as Hu.
    { apply not_true_iff_false. intros Hu. apply not_true_iff_false in Ex. apply Ex.
      apply existsb_exists. exists (rsKey name t). split; [|done]. apply list_elem_of_In, list_elem_of_fmap.
      exists (rsKey name t, rs). by rewrite elem_of_map_to_list. }
    rewrite Ek, user_managed_type in Hu by (by eapply (Ht _ _ E)). apply bool_decide_eq_false in Hu.
    destruct (decide (rs_Type rs = RecordTypeSOA)), (decide (rs_Type rs = RecordTypeNS)); tauto.
Qed.

(** A delegation of a subdomain is lost with the zone. *)
Lemma DeleteZone_guard_witness :
  let os := [OpCreateZone 1 "example.com" (mkCreateZoneOptions VisibilityPublic "" None []);
             OpPutRecordSet "example.com" (mkRecordSet "sub.example.com" RecordTypeNS 60 ["ns.other.net."])] in
  (DeleteZone "example.com" false (run_all os New)).2 = Ok () ∧
  ∀ name t rs, (GetRecordSet "example.com" name t (run_all os New)).2 = Ok rs →
    rs_Type rs = RecordTypeSOA ∨ rs_Type rs = RecordTypeNS.
Proof.
  intros os. assert (Forall op_ok os) as Ho by (repeat constructor).
  destruct (DeleteZone_guard os "example.com" Ho) as [[H1 _] _].
  assert ((DeleteZone "example.com" false (run_all os New)).2 = Ok ()) as Hok by (vm_compute; reflexivity).
  split; [done|]. by destruct (H1 Hok).
Defined.

(** A name prefix is canonicalised like a name, which appends a dot: with a
    prefix that has no final dot, a zone is listed only when its name starts
    with the prefix and a dot, so "exam" does not find "example.com.". *)
Theorem ListZones_prefix_needs_dot (b : Backend) (order : list string) (opt : ListZonesOptions) (z : Zone) l :
  lz_NamePrefix opt ≠ "" → (ListZones order opt b).2 = Ok (mkListZonesResult l "") → z ∈ l →
  ∃ p rest, canonicalize (lz_NamePrefix opt) = p +:+ "." ∧ Zone_Name z = p +:+ "." +:+ rest.
Proof.
  intros Hne [= <-] (st & -> & [Hl _]%list_elem_of_filter)%list_elem_of_fmap.
  unfold zone_listed in Hl. apply andb_true_iff in Hl as [Hl _].
  destruct (String.eqb_spec (lz_NamePrefix opt) ""); [done|]. cbn in Hl. apply HasPrefix_spec in Hl as [t Ht].
  destruct (canonicalize_dot (lz_NamePrefix opt)) as [p Hp]. exists p, t. split; [done|].
  by rewrite Ht, Hp, str_app_assoc.
Qed.

Lemma ListZones_prefix_needs_dot_witness :
  let b := run (OpCreateZone 1 "example.com" (mkCreateZoneOptions VisibilityPrivate "" None [])) New in
  (ListZones ["example.com."] (mkListZonesOptions "exam" VisibilityUnknown 0 "") b).2 = Ok (mkListZonesResult [] "") ∧
  ∃ z p rest, (ListZones ["example.com."] (mkListZonesOptions "example.com" VisibilityUnknown 0 "") b).2 =
    Ok (mkListZonesResult [z] "") ∧ Zone_Name z = p +:+ "." +:+ rest.
Proof.
  intros b. split; [by vm_compute|].
  set (z := mkZone "example.com." VisibilityPrivate [] "" None 1).
  assert ((ListZones ["example.com."] (mkListZonesOptions "example.com" VisibilityUnknown 0 "") b).2 =
    Ok (mkListZonesResult [z] "")) as H by (vm_compute; reflexivity).
  destruct (ListZones_prefix_needs_dot b ["example.com."] (mkListZonesOptions "example.com" VisibilityUnknown 0 "") z [z])
    as (p & rest & _ & E); [done|exact H|left|]. by exists z, p, rest.
Defined.
