(* ===== verification/GoAes.v ===== *)
(** * [crypto/aes] and [crypto/cipher]: AES in Galois/Counter Mode

    Executable, as in FIPS 197 and NIST SP 800-38D, for what the key-management
    backend uses: [aes.NewCipher] with any legal key length and the AEAD of
    [cipher.NewGCM] (12-byte nonce, 16-byte tag).  Checked on published
    vectors. *)

From Stdlib Require Import Strings.Byte.
From S2P Require Import Prelude GoStrings GoBytes GoCrypto.

(** ** The field GF(2^8) *)

Definition xtime (a : Z) : Z := Z.land (Z.lxor (2 * a) (if 128 <=? a then 27 else 0)) 255.

Fixpoint gmul_go (fuel : nat) (a b : Z) : Z :=
  match fuel with
  | O => 0
  | S fuel => Z.lxor (if Z.odd b then a else 0) (gmul_go fuel (xtime a) (b / 2))
  end.
Definition gmul (a b : Z) : Z := gmul_go 8 a b.

(** The inverse is the 254th power. *)
Definition ginv (a : Z) : Z := Nat.iter 254 (gmul a) 1.
Definition rotl8 (n z : Z) : Z := Z.land (Z.lor (Z.shiftl z n) (Z.shiftr z (8 - n))) 255.
Definition sbox_entry (a : Z) : Z :=
  let i := ginv a in
  Z.lxor i (Z.lxor (rotl8 1 i) (Z.lxor (rotl8 2 i) (Z.lxor (rotl8 3 i) (Z.lxor (rotl8 4 i) 99)))).
Definition sbox : list Z := Eval vm_compute in (λ n, sbox_entry (Z.of_nat n)) <$> seq 0 256.
Definition SubByte (a : Z) : Z := nth (Z.to_nat a) sbox 0.

(** ** Key schedule: four-byte words *)

Definition xor_words (u v : list Z) : list Z := zip_with Z.lxor u v.
Definition RotWord (w : list Z) : list Z := match w with a :: w => w ++ [a] | [] => [] end.
Definition SubWord (w : list Z) : list Z := SubByte <$> w.
Definition Rcon (i : nat) : list Z := [Nat.iter (i - 1) xtime 1; 0; 0; 0].

(** [rw] holds the words so far in reverse. *)
Fixpoint expand_go (fuel nk i : nat) (rw : list (list Z)) : list (list Z) :=
  match fuel with
  | O => rw
  | S fuel =>
      let prev := nth 0 rw [] in
      let back := nth (nk - 1) rw [] in
      let temp :=
        if (i mod nk =? 0)%nat then xor_words (SubWord (RotWord prev)) (Rcon (i / nk))
        else if (6 <? nk)%nat && (i mod nk =? 4)%nat then SubWord prev else prev in
      expand_go fuel nk (S i) (xor_words back temp :: rw)
  end.

Definition words_of (l : list Z) : list (list Z) := chunks_of 4 l.

(** The round keys, sixteen bytes each. *)
Definition round_keys (key : bytes) : list (list Z) :=
  let w := words_of (byte_val <$> key) in
  let nk := length w in
  let nr := (nk + 6)%nat in
  chunks_of 16 (concat (reverse (expand_go (4 * (nr + 1) - nk) nk nk (reverse w)))).

(** ** The block cipher: the state is its sixteen bytes, column by column *)

Definition at_ (s : list Z) (i : nat) : Z := nth i s 0.
Definition ShiftRows (s : list Z) : list Z :=
  at_ s <$> [0; 5; 10; 15; 4; 9; 14; 3; 8; 13; 2; 7; 12; 1; 6; 11]%nat.
Definition mix_column (c : list Z) : list Z :=
  match c with
  | [a; b; c; d] =>
      [Z.lxor (gmul 2 a) (Z.lxor (gmul 3 b) (Z.lxor c d)); Z.lxor a (Z.lxor (gmul 2 b) (Z.lxor (gmul 3 c) d));
       Z.lxor a (Z.lxor b (Z.lxor (gmul 2 c) (gmul 3 d))); Z.lxor (gmul 3 a) (Z.lxor b (Z.lxor c (gmul 2 d)))]
  | _ => c
  end.
Definition MixColumns (s : list Z) : list Z := concat (mix_column <$> words_of s).

Fixpoint rounds (s : list Z) (ks : list (list Z)) : list Z :=
  match ks with
  | [] => s
  | [k] => xor_words (ShiftRows (SubByte <$> s)) k
  | k :: ks => rounds (xor_words (MixColumns (ShiftRows (SubByte <$> s))) k) ks
  end.

Definition aes_encrypt (ks : list (list Z)) (block : list Z) : list Z :=
  match ks with
  | [] => block
  | k :: ks => rounds (xor_words block k) ks
  end.

(** [aes.NewCipher]: the round keys, or a [KeySizeError]. *)
Definition NewCipher (key : bytes) : option (list (list Z)) :=
  if bool_decide (length key ∈ [16; 24; 32]%nat) then Some (round_keys key) else None.

(** ** GHASH: blocks are 128-bit integers, most significant bit first *)

Definition ghash_R : Z := 225 * 2 ^ 120.

Fixpoint gf128_go (fuel : nat) (i : Z) (x z v : Z) : Z :=
  match fuel with
  | O => z
  | S fuel =>
      gf128_go fuel (i - 1) x (if Z.testbit x i then Z.lxor z v else z)
        (if Z.odd v then Z.lxor (Z.shiftr v 1) ghash_R else Z.shiftr v 1)
  end.
Definition gf128_mul (x y : Z) : Z := gf128_go 128 127 x 0 y.

Definition pad16 (l : bytes) : bytes := l ++ replicate ((16 - length l mod 16) mod 16) x00.

Definition ghash (h : Z) (l : bytes) : Z :=
  fold_left (λ y blk, gf128_mul (Z.lxor y (be_decode blk)) h) (chunks_of 16 l) 0.

(** ** The AEAD *)

Definition NonceSize : nat := 12.
Definition tagSize : nat := 16.

Definition E (ks : list (list Z)) (block : bytes) : bytes := byte_of <$> aes_encrypt ks (byte_val <$> block).

(** The key stream for counters [ctr], [ctr]+1, ... (32 bits, wrapping). *)
Fixpoint key_stream (blocks : nat) (ks : list (list Z)) (nonce : bytes) (ctr : Z) : bytes :=
  match blocks with
  | O => []
  | S n => E ks (nonce ++ be_encode 4 ctr) ++ key_stream n ks nonce (ctr + 1)
  end.

Definition xor_bytes_with (l k : bytes) : bytes :=
  zip_with (λ a b, byte_of (Z.lxor (byte_val a) (byte_val b))) l k.

Definition ctr_crypt (ks : list (list Z)) (nonce : bytes) (l : bytes) : bytes :=
  xor_bytes_with l (key_stream ((length l + 15) / 16) ks nonce 2).

Definition gcm_tag (ks : list (list Z)) (nonce aad sealed : bytes) : bytes :=
  let h := be_decode (E ks (replicate 16 x00)) in
  let s := ghash h (pad16 aad ++ pad16 sealed ++
             be_encode 8 (8 * Z.of_nat (length aad)) ++ be_encode 8 (8 * Z.of_nat (length sealed))) in
  xor_bytes_with (be_encode 16 s) (E ks (nonce ++ be_encode 4 1)).

(** Messages above this many bytes are refused. *)
Definition maxMessage : Z := (2 ^ 32 - 2) * 16.

(** [Seal] panics on a nonce of another length and on a message that is too long. *)
Definition Seal (ks : list (list Z)) (nonce plaintext aad : bytes) : option bytes :=
  if negb (length nonce =? NonceSize)%nat || (maxMessage <? Z.of_nat (length plaintext)) then None
  else let c := ctr_crypt ks nonce plaintext in Some (c ++ gcm_tag ks nonce aad c).

(** What [Open] returns: the plaintext, [errOpen], or a panic. *)
Definition Open (ks : list (list Z)) (nonce ciphertext aad : bytes) : outcome unit bytes :=
  if negb (length nonce =? NonceSize)%nat then Panic
  else if (length ciphertext <? tagSize)%nat || (maxMessage + 16 <? Z.of_nat (length ciphertext)) then Err ()
  else
    let n := (length ciphertext - tagSize)%nat in
    let c := take n ciphertext in
    if bool_decide (gcm_tag ks nonce aad c = drop n ciphertext) then Ok (ctr_crypt ks nonce c) else Err ().

(** ** Published vectors *)

Definition unhex (s : string) : bytes := default [] (hex_DecodeString s).

Example aes128_fips197 :
  E (round_keys (unhex "000102030405060708090a0b0c0d0e0f")) (unhex "00112233445566778899aabbccddeeff") =
  unhex "69c4e0d86a7b0430d8cdb78070b4c55a".
Proof. vm_compute. reflexivity. Qed.
Example aes256_fips197 :
  E (round_keys (unhex "000102030405060708090a0b0c0d0e0f101112131415161718191a1b1c1d1e1f"))
    (unhex "00112233445566778899aabbccddeeff") =
  unhex "8ea2b7ca516745bfeafc49904b496089".
Proof. vm_compute. reflexivity. Qed.
Example gcm_case_13 :
  Seal (round_keys (replicate 32 x00)) (replicate 12 x00) [] [] = Some (unhex "530f8afbc74536b9a963b4f1c4cb738b").
Proof. vm_compute. reflexivity. Qed.
Example gcm_case_16 :
  Seal (round_keys (unhex "feffe9928665731c6d6a8f9467308308feffe9928665731c6d6a8f9467308308"))
    (unhex "cafebabefacedbaddecaf888")
    (unhex "d9313225f88406e5a55909c5aff5269a86a7a9531534f7da2e4c303d8a318a721c3c0c95956809532fcf0e2449a6b525b16aedf5aa0de657ba637b39")
    (unhex "feedfacedeadbeeffeedfacedeadbeefabaddad2") =
  Some (unhex ("522dc1f099567d07f47f37a32a84427d643a8cdcbfe5c0c97598a2bd2555d1aa8cb08e48590dbb3da7b08b1056828838" +:+
               "c5f61e6393ba7a0abcc9f66276fc6ece0f4e1768cddf8853bb2d551b")).
Proof. vm_compute. reflexivity. Qed.

(** ** Lengths *)

Lemma length_xor_words u v n : length u = n → length v = n → length (xor_words u v) = n.
Proof. intros Hu Hv. unfold xor_words. rewrite length_zip_with. lia. Qed.

Lemma length_RotWord w : length (RotWord w) = length w.
Proof. destruct w; [done|]. cbn. rewrite length_app. cbn. lia. Qed.

Lemma expand_go_words fuel nk i rw :
  (0 < nk ≤ length rw)%nat → Forall (λ w, length w = 4%nat) rw →
  Forall (λ w, length w = 4%nat) (expand_go fuel nk i rw) ∧ length (expand_go fuel nk i rw) = (fuel + length rw)%nat.
Proof.
  revert i rw. induction fuel as [|fuel IH]; intros i rw Hn Hf; cbn [expand_go]; [done|].
  assert (∀ j, (j < length rw)%nat → length (nth j rw []) = 4%nat) as Hw.
  { intros j Hj. rewrite Forall_forall in Hf. apply Hf, list_elem_of_In, nth_In. lia. }
  edestruct IH as [Hf' Hl]; [| |split; [exact Hf'|rewrite Hl; cbn; lia]]; [cbn; lia|].
  constructor; [|done]. apply length_xor_words; [apply Hw; lia|].
  assert (length (nth 0 rw []) = 4%nat) as Hp by (apply Hw; lia).
  repeat case_match; [apply length_xor_words| |]; unfold SubWord; rewrite ?length_fmap, ?length_RotWord; done.
Qed.

Lemma chunks_even {A} fuel n m (l : list A) :
  (0 < n)%nat → length l = (m * n)%nat → (m ≤ fuel)%nat →
  Forall (λ c, length c = n) (chunks fuel n l) ∧ length (chunks fuel n l) = m.
Proof.
  intros Hn. revert m l. induction fuel as [|fuel IH]; intros m l Hl Hm; [by destruct m; [|lia]|].
  destruct m as [|m]; [by apply nil_length_inv in Hl as ->|].
  destruct l as [|x l]; [cbn in Hl; lia|]. cbn [chunks].
  destruct (IH m (drop n (x :: l))) as [Hf Hc]; [rewrite length_drop; lia|lia|].
  split; [constructor; [rewrite length_take; lia|done]|]. cbn [length]. by rewrite Hc.
Qed.

Lemma chunks_of_even {A} n m (l : list A) :
  (0 < n)%nat → length l = (m * n)%nat → Forall (λ c, length c = n) (chunks_of n l) ∧ length (chunks_of n l) = m.
Proof. intros Hn Hl. apply chunks_even; [done..|]. rewrite Hl. nia. Qed.

Lemma length_concat_even {A} n (ls : list (list A)) :
  Forall (λ c, length c = n) ls → length (concat ls) = (length ls * n)%nat.
Proof. induction 1 as [|c ls Hc _ IH]; [done|]. cbn. rewrite length_app. lia. Qed.

(** The round keys of a legal key. *)
Definition block_keys (ks : list (list Z)) : Prop := Forall (λ k, length k = 16%nat) ks.

Lemma NewCipher_block_keys key ks : NewCipher key = Some ks → block_keys ks.
Proof.
  unfold NewCipher. case_bool_decide as Hk; [|done]. intros [= <-]. unfold round_keys, words_of.
  assert (∃ nk, (0 < nk ≤ 8)%nat ∧ length (byte_val <$> key) = (nk * 4)%nat) as (nk & Hnk & Hl).
  { rewrite length_fmap. set_unfold. destruct Hk as [ | [ | [ | [] ] ] ];
      [exists 4%nat|exists 6%nat|exists 8%nat]; lia. }
  destruct (chunks_of_even 4 nk _ ltac:(lia) Hl) as [Hf ->].
  edestruct (expand_go_words (4 * (nk + 6 + 1) - nk) nk nk (reverse (chunks_of 4 (byte_val <$> key))))
    as [Hw Hlen].
  { rewrite length_reverse. destruct (chunks_of_even 4 nk _ ltac:(lia) Hl) as [_ ->]. lia. }
  { by rewrite reverse_Permutation. }
  apply (chunks_of_even 16 (nk + 7) _ ltac:(lia)). rewrite (length_concat_even 4) by (by rewrite reverse_Permutation).
  rewrite length_reverse, Hlen, length_reverse.
  destruct (chunks_of_even 4 nk _ ltac:(lia) Hl) as [_ ->]. lia.
Qed.

Lemma length_ShiftRows s : length (ShiftRows s) = 16%nat.
Proof. done. Qed.
Lemma length_MixColumns s : length (MixColumns (ShiftRows s)) = 16%nat.
Proof. unfold MixColumns, ShiftRows. generalize (at_ s). intros f. cbn -[gmul]. done. Qed.

Lemma length_rounds ks s : block_keys ks → length s = 16%nat → length (rounds s ks) = 16%nat.
Proof.
  intros Hk. revert s. induction Hk as [|k ks Hk Hks IH]; intros s Hs; [done|]. cbn [rounds].
  destruct ks; [|apply IH]; apply length_xor_words; auto using length_ShiftRows, length_MixColumns.
Qed.

Lemma length_E ks block : block_keys ks → length block = 16%nat → length (E ks block) = 16%nat.
Proof.
  intros Hk Hb. unfold E, aes_encrypt. rewrite length_fmap.
  destruct Hk as [|k ks Hk Hks]; [by rewrite length_fmap|].
  apply length_rounds; [done|]. apply length_xor_words; by rewrite ?length_fmap.
Qed.

Lemma length_key_stream n ks nonce ctr :
  block_keys ks → length nonce = NonceSize → length (key_stream n ks nonce ctr) = (16 * n)%nat.
Proof.
  intros Hk Hn. revert ctr. induction n as [|n IH]; intros ctr; [done|]. cbn [key_stream].
  rewrite length_app, IH, length_E by (done || by rewrite length_app, length_be_encode, Hn). lia.
Qed.

(** ** Decryption undoes encryption *)

Lemma lxor_lt_pow2 n x y : 0 < n → 0 <= x < 2 ^ n → 0 <= y < 2 ^ n → Z.lxor x y < 2 ^ n.
Proof.
  intros Hn Hx Hy. assert (0 <= Z.lxor x y) as H0 by (apply Z.lxor_nonneg; lia).
  destruct (Z.eq_dec (Z.lxor x y) 0) as [->|Hne]; [lia|]. apply Z.log2_lt_pow2; [lia|].
  assert (∀ z, 0 <= z < 2 ^ n → Z.log2 z < n) as Hlog.
  { intros z Hz. destruct (Z.eq_dec z 0) as [->|]; [done|]. apply Z.log2_lt_pow2; lia. }
  pose proof (Z.log2_lxor x y ltac:(lia) ltac:(lia)). pose proof (Hlog x Hx). pose proof (Hlog y Hy). lia.
Qed.

Lemma xor_bytes_twice l k : (length l ≤ length k)%nat → xor_bytes_with (xor_bytes_with l k) k = l.
Proof.
  revert k. induction l as [|a l IH]; intros [|b k] Hl; cbn in *; try done; [lia|].
  unfold xor_bytes_with in IH. rewrite IH by lia. f_equal. apply byte_val_inj. rewrite !byte_val_of.
  pose proof (byte_val_range a). pose proof (byte_val_range b).
  assert (0 <= Z.lxor (byte_val a) (byte_val b) < 2 ^ 8) as Hx.
  { split; [apply Z.lxor_nonneg; lia|]. apply (lxor_lt_pow2 8); lia. }
  change (2 ^ 8) with 256 in Hx. rewrite (Z.mod_small (Z.lxor (byte_val a) _)) by exact Hx.
  rewrite Z.lxor_assoc, Z.lxor_nilpotent, Z.lxor_0_r. apply Z.mod_small. lia.
Qed.

Lemma length_ctr_crypt ks nonce l :
  block_keys ks → length nonce = NonceSize → length (ctr_crypt ks nonce l) = length l.
Proof.
  intros Hk Hn. unfold ctr_crypt, xor_bytes_with. rewrite length_zip_with, length_key_stream by done.
  pose proof (Nat.div_mod (length l + 15) 16 ltac:(lia)).
  pose proof (Nat.mod_upper_bound (length l + 15) 16 ltac:(lia)). lia.
Qed.

Lemma ctr_crypt_twice ks nonce l :
  block_keys ks → length nonce = NonceSize → ctr_crypt ks nonce (ctr_crypt ks nonce l) = l.
Proof.
  intros Hk Hn. pose proof (length_ctr_crypt ks nonce l Hk Hn) as Hl. unfold ctr_crypt at 1.
  rewrite Hl. unfold ctr_crypt. apply xor_bytes_twice. rewrite length_key_stream by done.
  pose proof (Nat.div_mod (length l + 15) 16 ltac:(lia)).
  pose proof (Nat.mod_upper_bound (length l + 15) 16 ltac:(lia)). lia.
Qed.

Lemma length_gcm_tag ks nonce aad c :
  block_keys ks → length nonce = NonceSize → length (gcm_tag ks nonce aad c) = tagSize.
Proof.
  intros Hk Hn. unfold gcm_tag, xor_bytes_with. rewrite length_zip_with, length_be_encode, length_E; [done..|].
  by rewrite length_app, length_be_encode, Hn.
Qed.

Lemma Open_Seal ks nonce p aad sealed :
  block_keys ks → Seal ks nonce p aad = Some sealed → Open ks nonce sealed aad = Ok p.
Proof.
  intros Hk. unfold Seal. destruct (_ || _) eqn:Hc; [done|]. intros [= <-].
  apply orb_false_iff in Hc as [Hn Hm]. apply negb_false_iff, Nat.eqb_eq in Hn.
  pose proof (length_ctr_crypt ks nonce p Hk Hn) as Hl.
  pose proof (length_gcm_tag ks nonce aad (ctr_crypt ks nonce p) Hk Hn) as Ht.
  unfold Open. rewrite Hn. cbn [negb Nat.eqb NonceSize].
  rewrite length_app, Ht, Hl. apply Z.ltb_ge in Hm.
  assert ((length p + tagSize <? tagSize)%nat || (maxMessage + 16 <? Z.of_nat (length p + tagSize)) = false) as ->.
  { apply orb_false_iff. rewrite Nat.ltb_ge, Z.ltb_ge. unfold tagSize. lia. }
  replace (length p + tagSize - tagSize)%nat with (length (ctr_crypt ks nonce p)) by lia.
  rewrite take_app_length, drop_app_length, bool_decide_eq_true_2 by done.
  by rewrite ctr_crypt_twice.
Qed.
