(* ===== verification/Kms.v ===== *)
(** * Key management: domain types and the in-process backend

    Models [internal/kms/domain] and [services/kms/backends/inmem] with the real
    AES-256-GCM of GoAes.  [rand.Read] fills its buffer from the source passed as
    [rnd], or fails; the range order of [ListKeys] is the argument [order]; the
    clock is the argument [now].  The backend's own copy of a tag map is shared
    with the keys it returns, which no caller writes to: it is modelled by its
    value. *)

From Stdlib Require Import Strings.Byte.
From S2P Require Import Prelude GoStrings GoBytes GoAes.

(** ** domain.go *)

Inductive sentinel := ErrNotFound | ErrAlreadyExists | ErrInvalidInput | ErrNotSupported | ErrKeyDisabled.
#[export] Instance sentinel_eq_dec : EqDecision sentinel.
Proof. solve_decision. Defined.

(** A sentinel, [fmt.Errorf] with a format whose last [%w] wraps an error, or an
    error of another package. *)
Inductive error :=
  | Sentinel (s : sentinel)
  | Errorf (format : string) (args : list string) (wraps : error)
  | OtherError (text : string).
Fixpoint errors_Is (e : error) (s : sentinel) : bool :=
  match e with
  | Sentinel s' => bool_decide (s' = s)
  | Errorf _ _ w => errors_Is w s
  | OtherError _ => false
  end.
Definition IsNotFound (e : error) : bool := errors_Is e ErrNotFound.
Definition IsAlreadyExists (e : error) : bool := errors_Is e ErrAlreadyExists.
Definition IsInvalidInput (e : error) : bool := errors_Is e ErrInvalidInput.
Definition IsNotSupported (e : error) : bool := errors_Is e ErrNotSupported.
Definition IsKeyDisabled (e : error) : bool := errors_Is e ErrKeyDisabled.

(** [Error()], with the %q verb as an argument. *)
Definition sentinel_text (s : sentinel) : string :=
  match s with
  | ErrNotFound => "key not found" | ErrAlreadyExists => "key already exists" | ErrInvalidInput => "invalid input"
  | ErrNotSupported => "operation not supported" | ErrKeyDisabled => "key is disabled"
  end.
Fixpoint Error_text (Quote : string → string) (e : error) : string :=
  match e with
  | Sentinel s => sentinel_text s
  | Errorf format args w => Sprintf Quote (Error_text Quote w) args format
  | OtherError text => text
  end.

Abbreviation result := (outcome error).

(** States and usages are strings. *)
Definition KeyStateEnabled := "Enabled".
Definition KeyStateDisabled := "Disabled".
Definition KeyStatePendingDeletion := "PendingDeletion".
Definition KeyUsageEncryptDecrypt := "ENCRYPT_DECRYPT".
Definition KeyUsageSignVerify := "SIGN_VERIFY".

Record Key := mkKey {
  Key_ID : string; Key_Description : string; Key_State : string; Key_Usage : string; Key_KeySpec : string;
  Key_RotationEnabled : bool; Key_CreatedAt : Time; Key_DeletionDate : Time; Key_Tags : strmap }.
Record CreateKeyOptions := mkCreateKeyOptions {
  ck_KeyID : string; ck_Description : string; ck_Usage : string; ck_KeySpec : string; ck_Tags : strmap }.
Record EncryptResult := mkEncryptResult { er_KeyID : string; er_Ciphertext : bytes }.
Record DecryptResult := mkDecryptResult { dr_KeyID : string; dr_Plaintext : bytes }.
Record KeyRing := mkKeyRing { KeyRing_Name : string; KeyRing_CreatedAt : Time }.

(** ** inmem.go: the state *)

Record keyEntry := mkEntry { meta : Key; material : bytes }.
Record Backend := mkBackend { keys : gmap string keyEntry; keyRings : gmap string Time; seq_ : Z }.

Definition New : Backend := mkBackend ∅ ∅ 0.
Definition set_key (id : string) (e : keyEntry) (b : Backend) : Backend :=
  mkBackend (<[id := e]> (keys b)) (keyRings b) (seq_ b).

Definition key_error (id : string) (s : sentinel) : error := Errorf "key %q: %w" [id] (Sentinel s).
Definition ring_error (name : string) (s : sentinel) : error := Errorf "keyRing %q: %w" [name] (Sentinel s).
Definition malformed : error := Errorf "malformed ciphertext: %w" [] (Sentinel ErrInvalidInput).

(** [crypto/rand]: the buffer's bytes from a source, or an error. *)
Definition rand_Read (n : nat) (rnd : option (nat → Init.Byte.byte)) : result bytes :=
  match rnd with
  | Some r => Ok (r <$> seq 0 n)
  | None => Err (OtherError "crypto/rand: no entropy")
  end.

(** ** Key rings *)

Definition CreateKeyRing (now : Time) (name : string) (b : Backend) : Backend * result KeyRing :=
  match keyRings b !! name with
  | Some _ => (b, Err (ring_error name ErrAlreadyExists))
  | None => (mkBackend (keys b) (<[name := now]> (keyRings b)) (seq_ b), Ok (mkKeyRing name now))
  end.
Definition GetKeyRing (name : string) (b : Backend) : Backend * result KeyRing :=
  (b, match keyRings b !! name with
      | Some created => Ok (mkKeyRing name created)
      | None => Err (ring_error name ErrNotFound)
      end).

(** ** Keys *)

Definition nextID (b : Backend) : Backend * string :=
  let seq := wrap_s 64 (seq_ b + 1) in (mkBackend (keys b) (keyRings b) seq, "key-" +:+ fmt_08d seq).

Definition copyTags (m : strmap) : strmap :=
  if bool_decide (default ∅ m = ∅) then None else Some (put_all (default ∅ m) ∅).

Definition or_default (s d : string) : string := if String.eqb s "" then d else s.

Definition CreateKey (now : Time) (rnd : option (nat → Init.Byte.byte)) (opts : CreateKeyOptions) (b : Backend)
    : Backend * result Key :=
  let usage := or_default (ck_Usage opts) KeyUsageEncryptDecrypt in
  if negb (String.eqb usage KeyUsageEncryptDecrypt)
  then (b, Err (Errorf "usage %q: %w" [usage] (Sentinel ErrNotSupported)))
  else
    let spec := or_default (ck_KeySpec opts) "SYMMETRIC_DEFAULT" in
    match rand_Read 32 rnd with
    | Ok mat =>
        let store '(b, id) :=
          let m := mkKey id (ck_Description opts) KeyStateEnabled usage spec false now zeroTime (copyTags (ck_Tags opts)) in
          (set_key id (mkEntry m mat) b, Ok m) in
        if String.eqb (ck_KeyID opts) "" then store (nextID b)
        else match keys b !! ck_KeyID opts with
             | Some _ => (b, Err (key_error (ck_KeyID opts) ErrAlreadyExists))
             | None => store (b, ck_KeyID opts)
             end
    | Err e => (b, Err e)
    | Panic => (b, Panic)
    end.

(** The lookup that opens the operations on a key. *)
Definition with_key {A} (id : string) (b : Backend) (k : keyEntry → Backend * result A) : Backend * result A :=
  match keys b !! id with Some e => k e | None => (b, Err (key_error id ErrNotFound)) end.

Definition DescribeKey (id : string) (b : Backend) : Backend * result Key :=
  with_key id b (λ e, (b, Ok (meta e))).

Definition ListKeys (order : list string) (b : Backend) : Backend * result (list Key) :=
  (b, Ok (sort_by (λ x y, String.ltb (Key_ID x) (Key_ID y)) (omap (λ k, meta <$> keys b !! k) order))).

(** ** Encryption *)

Definition newGCM (key : bytes) : result (list (list Z)) :=
  match NewCipher key with
  | Some block => Ok block
  | None => Err (OtherError ("crypto/aes: invalid key size " +:+ Itoa (Z.of_nat (length key))))
  end.

(** keyIDLen(2) || keyID || nonce || sealed *)
Definition blob (keyID : string) (nonce sealed : bytes) : bytes :=
  be_encode 2 (wrap_u 16 (Z.of_nat (String.length keyID))) ++ bytes_of_string keyID ++ nonce ++ sealed.

Definition Encrypt (rnd : option (nat → Init.Byte.byte)) (keyID : string) (plaintext : bytes) (b : Backend)
    : Backend * result EncryptResult :=
  with_key keyID b (λ e,
    if negb (String.eqb (Key_State (meta e)) KeyStateEnabled) then (b, Err (key_error keyID ErrKeyDisabled))
    else
      (b, let? gcm := newGCM (material e) in
          let? nonce := rand_Read NonceSize rnd in
          match Seal gcm nonce plaintext (bytes_of_string keyID) with
          | Some sealed => Ok (mkEncryptResult keyID (blob keyID nonce sealed))
          | None => Panic
          end)).

Definition Decrypt (wantKey : string) (ciphertext : bytes) (b : Backend) : Backend * result DecryptResult :=
  if (length ciphertext <? 2)%nat then (b, Err malformed)
  else
    let keyLen := Z.to_nat (be_decode (take 2 ciphertext)) in
    if (length ciphertext <? 2 + keyLen)%nat then (b, Err malformed)
    else
      let keyID := string_of_bytes (take keyLen (drop 2 ciphertext)) in
      if negb (String.eqb wantKey "") && negb (String.eqb wantKey keyID)
      then (b, Err (Errorf "ciphertext key %q != requested %q: %w" [keyID; wantKey] (Sentinel ErrInvalidInput)))
      else
        let rest := drop (2 + keyLen) ciphertext in
        with_key keyID b (λ e,
          if negb (String.eqb (Key_State (meta e)) KeyStateEnabled) then (b, Err (key_error keyID ErrKeyDisabled))
          else
            (b, let? gcm := newGCM (material e) in
                if (length rest <? NonceSize)%nat then Err malformed
                else match Open gcm (take NonceSize rest) (drop NonceSize rest) (bytes_of_string keyID) with
                     | Ok plain => Ok (mkDecryptResult keyID plain)
                     | Err _ => Err (Errorf "decrypt: %w" [] (Sentinel ErrInvalidInput))
                     | Panic => Panic
                     end)).

(** ** Deletion and rotation *)

Definition set_state (k : Key) (state : string) (deletion : Time) : Key :=
  mkKey (Key_ID k) (Key_Description k) state (Key_Usage k) (Key_KeySpec k) (Key_RotationEnabled k)
    (Key_CreatedAt k) deletion (Key_Tags k).
Definition with_rotation (k : Key) (on : bool) : Key :=
  mkKey (Key_ID k) (Key_Description k) (Key_State k) (Key_Usage k) (Key_KeySpec k) on
    (Key_CreatedAt k) (Key_DeletionDate k) (Key_Tags k).

(** [AddDate(0, 0, days)] on a UTC time. *)
Definition AddDays (t : Time) (days : Z) : Time := t + days * (24 * Hour).

Definition ScheduleKeyDeletion (now : Time) (keyID : string) (pendingWindowDays : Z) (b : Backend)
    : Backend * result Key :=
  let days := if pendingWindowDays <=? 0 then 30 else pendingWindowDays in
  with_key keyID b (λ e,
    let m := set_state (meta e) KeyStatePendingDeletion (AddDays now days) in
    (set_key keyID (mkEntry m (material e)) b, Ok m)).

Definition CancelKeyDeletion (keyID : string) (b : Backend) : Backend * result Key :=
  with_key keyID b (λ e,
    if negb (String.eqb (Key_State (meta e)) KeyStatePendingDeletion)
    then (b, Err (Errorf "key %q not pending deletion: %w" [keyID] (Sentinel ErrInvalidInput)))
    else
      let m := set_state (meta e) KeyStateDisabled zeroTime in
      (set_key keyID (mkEntry m (material e)) b, Ok m)).

Definition setRotation (keyID : string) (on : bool) (b : Backend) : Backend * result unit :=
  with_key keyID b (λ e, (set_key keyID (mkEntry (with_rotation (meta e) on) (material e)) b, Ok ())).
Definition EnableKeyRotation (keyID : string) (b : Backend) : Backend * result unit := setRotation keyID true b.
Definition DisableKeyRotation (keyID : string) (b : Backend) : Backend * result unit := setRotation keyID false b.
Definition GetKeyRotationStatus (keyID : string) (b : Backend) : Backend * result bool :=
  with_key keyID b (λ e, (b, Ok (Key_RotationEnabled (meta e)))).

(** ** The [domain.KMS] interface: one call *)

Inductive op :=
  | OpCreateKeyRing (now : Time) (name : string)
  | OpGetKeyRing (name : string)
  | OpCreateKey (now : Time) (rnd : option (nat → Init.Byte.byte)) (opts : CreateKeyOptions)
  | OpDescribeKey (id : string)
  | OpListKeys (order : list string)
  | OpEncrypt (rnd : option (nat → Init.Byte.byte)) (keyID : string) (plaintext : bytes)
  | OpDecrypt (wantKey : string) (ciphertext : bytes)
  | OpScheduleKeyDeletion (now : Time) (keyID : string) (pendingWindowDays : Z)
  | OpCancelKeyDeletion (keyID : string)
  | OpSetRotation (keyID : string) (on : bool)
  | OpGetKeyRotationStatus (keyID : string).

Definition run_op (o : op) (b : Backend) : Backend :=
  match o with
  | OpCreateKeyRing now n => (CreateKeyRing now n b).1
  | OpGetKeyRing n => (GetKeyRing n b).1
  | OpCreateKey now rnd opts => (CreateKey now rnd opts b).1
  | OpDescribeKey id => (DescribeKey id b).1
  | OpListKeys order => (ListKeys order b).1
  | OpEncrypt rnd id p => (Encrypt rnd id p b).1
  | OpDecrypt want c => (Decrypt want c b).1
  | OpScheduleKeyDeletion now id days => (ScheduleKeyDeletion now id days b).1
  | OpCancelKeyDeletion id => (CancelKeyDeletion id b).1
  | OpSetRotation id on => (if on then EnableKeyRotation id b else DisableKeyRotation id b).1
  | OpGetKeyRotationStatus id => (GetKeyRotationStatus id b).1
  end.
Definition run_ops (os : list op) (b : Backend) : Backend := fold_left (λ b o, run_op o b) os b.

(** ** The interface that the frontends are written against

    [domain.KMS]; what an operation reads besides the state is in an
    environment: the clock, the entropy, the order of a range. *)

Class KMS_ (Env St : Type) := {
  x_CreateKey : Env → CreateKeyOptions → St → St * result Key;
  x_DescribeKey : Env → string → St → St * result Key;
  x_ListKeys : Env → St → St * result (list Key);
  x_Encrypt : Env → string → bytes → St → St * result EncryptResult;
  x_Decrypt : Env → string → bytes → St → St * result DecryptResult;
  x_ScheduleKeyDeletion : Env → string → Z → St → St * result Key;
  x_CancelKeyDeletion : Env → string → St → St * result Key;
  x_EnableKeyRotation : Env → string → St → St * result unit;
  x_DisableKeyRotation : Env → string → St → St * result unit;
  x_GetKeyRotationStatus : Env → string → St → St * result bool;
  x_CreateKeyRing : Env → string → St → St * result KeyRing;
  x_GetKeyRing : Env → string → St → St * result KeyRing }.

Record kms_env := mkEnv { env_now : Time; env_rnd : option (nat → Init.Byte.byte); env_order : list string }.
#[export] Instance inmem_kms : KMS_ kms_env Backend := {|
  x_CreateKey env := CreateKey (env_now env) (env_rnd env);
  x_DescribeKey _ := DescribeKey;
  x_ListKeys env := ListKeys (env_order env);
  x_Encrypt env := Encrypt (env_rnd env);
  x_Decrypt _ := Decrypt;
  x_ScheduleKeyDeletion env := ScheduleKeyDeletion (env_now env);
  x_CancelKeyDeletion _ := CancelKeyDeletion;
  x_EnableKeyRotation _ := EnableKeyRotation;
  x_DisableKeyRotation _ := DisableKeyRotation;
  x_GetKeyRotationStatus _ := GetKeyRotationStatus;
  x_CreateKeyRing env := CreateKeyRing (env_now env);
  x_GetKeyRing _ := GetKeyRing |}.

(** * Key management: what the in-process backend guarantees

    A key keeps its material until a generated identifier overwrites it, so
    that a ciphertext can be decrypted whatever happened in between, as long as
    the key is enabled; a key that has been disabled never becomes usable
    again. *)

Implicit Types (b : Backend) (e : keyEntry) (o : op).

(** ** What one operation does to an entry *)

(** The identifiers that [nextID] has given out, or will within [n] calls. *)
Definition generated (lo hi : Z) (id : string) : Prop := ∃ n, lo < n <= hi ∧ id = "key-" +:+ fmt_08d n.

(** The states a key goes through: there is no way back to enabled. *)
Inductive state_step : string → string → Prop :=
  | state_same s : state_step s s
  | state_scheduled s : state_step s KeyStatePendingDeletion
  | state_cancelled : state_step KeyStatePendingDeletion KeyStateDisabled.

Lemma run_op_seq o b : 0 <= seq_ b < 2 ^ 63 - 1 → seq_ b <= seq_ (run_op o b) <= seq_ b + 1.
Proof.
  intros Hs. assert (wrap_s 64 (seq_ b + 1) = seq_ b + 1) as Hw by (apply wrap_s_small; unfold in_s; lia).
  destruct o; cbn; unfold CreateKeyRing, CreateKey, DescribeKey, Encrypt, Decrypt, ScheduleKeyDeletion,
    CancelKeyDeletion, EnableKeyRotation, DisableKeyRotation, setRotation, GetKeyRotationStatus, with_key, nextID;
    repeat case_match; cbn; simplify_eq; cbn; lia.
Qed.

Lemma run_op_keeps o b id e :
  0 <= seq_ b < 2 ^ 63 - 1 → ¬ generated (seq_ b) (seq_ b + 1) id → keys b !! id = Some e →
  ∃ e', keys (run_op o b) !! id = Some e' ∧ material e' = material e ∧
    state_step (Key_State (meta e)) (Key_State (meta e')).
Proof.
  intros Hs Hg He. assert (wrap_s 64 (seq_ b + 1) = seq_ b + 1) as Hw by (apply wrap_s_small; unfold in_s; lia).
  assert (∃ e', keys b !! id = Some e' ∧ material e' = material e ∧
    state_step (Key_State (meta e)) (Key_State (meta e'))) as Hsame by eauto using state_step.
  assert (∀ k e2, (k = id → material e2 = material e ∧ state_step (Key_State (meta e)) (Key_State (meta e2))) →
    ∃ e', <[k := e2]> (keys b) !! id = Some e' ∧ material e' = material e ∧
      state_step (Key_State (meta e)) (Key_State (meta e'))) as Hset.
  { intros k e2 H2. destruct (decide (k = id)) as [->|Hne].
    - exists e2. rewrite lookup_insert_eq. naive_solver.
    - rewrite lookup_insert_ne by done. exact Hsame. }
  destruct o; cbn; unfold CreateKeyRing, CreateKey, DescribeKey, Encrypt, Decrypt, ScheduleKeyDeletion,
    CancelKeyDeletion, EnableKeyRotation, DisableKeyRotation, setRotation, GetKeyRotationStatus, with_key, nextID;
    repeat case_match; cbn; simplify_eq; try exact Hsame; try (apply Hset; intros ->; simplify_eq; cbn;
      split; [done|try constructor]).
  - (* a generated identifier *)
    apply Hset. intros <-. exfalso. apply Hg. exists (seq_ b + 1). split; [lia|]. by rewrite Hw.
  - (* a chosen identifier, which no key has *)
    apply Hset. intros <-. congruence.
  - (* the end of CancelKeyDeletion *)
    match goal with H : negb _ = false |- _ => apply negb_false_iff, String.eqb_eq in H as -> end. constructor.
Qed.

Lemma run_ops_keeps os b id e :
  0 <= seq_ b → seq_ b + Z.of_nat (length os) < 2 ^ 63 →
  ¬ generated (seq_ b) (seq_ b + Z.of_nat (length os)) id → keys b !! id = Some e →
  ∃ e', keys (run_ops os b) !! id = Some e' ∧ material e' = material e ∧
    rtc state_step (Key_State (meta e)) (Key_State (meta e')).
Proof.
  revert b e. induction os as [|o os IH]; intros b e H0 Hs Hg He.
  { exists e. eauto using rtc_refl. }
  rewrite length_cons in Hs, Hg. pose proof (run_op_seq o b ltac:(lia)) as Hq.
  destruct (run_op_keeps o b id e) as (e1 & He1 & Hm1 & Hs1); [lia| |done|].
  { intros (n & Hn & ->). apply Hg. exists n. split; [lia|done]. }
  destruct (IH (run_op o b) e1) as (e2 & He2 & Hm2 & Hs2); [lia|lia| |done|].
  { intros (n & Hn & ->). apply Hg. exists n. split; [lia|done]. }
  exists e2. split; [exact He2|]. split; [congruence|]. by eapply rtc_l.
Qed.

Lemma never_enabled_again s s' : rtc state_step s s' → s ≠ KeyStateEnabled → s' ≠ KeyStateEnabled.
Proof. induction 1 as [|s1 s2 s3 Hs _ IH]; [done|]. intros Hn. apply IH. destruct Hs; done. Qed.

(** ** The ciphertext blob *)

(** What [Decrypt] does with a blob for [id]. *)
Definition open_blob id (nonce sealed : bytes) e : result DecryptResult :=
  let? gcm := newGCM (material e) in
  match Open gcm nonce sealed (bytes_of_string id) with
  | Ok plain => Ok (mkDecryptResult id plain)
  | Err _ => Err (Errorf "decrypt: %w" [] (Sentinel ErrInvalidInput))
  | Panic => Panic
  end.

Lemma length_bytes_of_string s : length (bytes_of_string s) = String.length s.
Proof.
  unfold bytes_of_string, String.list_byte_of_string. rewrite length_map.
  induction s as [|c s IH]; [done|]. cbn. by rewrite IH.
Qed.

Lemma Decrypt_blob want id nonce sealed b :
  Z.of_nat (String.length id) < 65536 → length nonce = NonceSize →
  Decrypt want (blob id nonce sealed) b =
  if negb (String.eqb want "") && negb (String.eqb want id)
  then (b, Err (Errorf "ciphertext key %q != requested %q: %w" [id; want] (Sentinel ErrInvalidInput)))
  else with_key id b (λ e,
    if negb (String.eqb (Key_State (meta e)) KeyStateEnabled) then (b, Err (key_error id ErrKeyDisabled))
    else (b, open_blob id nonce sealed e)).
Proof.
  intros Hid Hn. unfold blob. set (hd := be_encode 2 _). set (rest := bytes_of_string id ++ nonce ++ sealed).
  assert (length hd = 2%nat) as Hhd by apply length_be_encode.
  assert (Z.to_nat (be_decode hd) = String.length id) as Hlen.
  { unfold hd. rewrite be_decode_encode, wrap_u_small by (unfold in_u; lia).
    rewrite Z.mod_small by (change (256 ^ Z.of_nat 2) with 65536; lia). lia. }
  assert (take 2 (hd ++ rest) = hd) as Ht by (rewrite <-Hhd; apply take_app_length).
  assert (drop 2 (hd ++ rest) = rest) as Hd by (rewrite <-Hhd; apply drop_app_length).
  unfold Decrypt. rewrite Ht, Hlen, <-drop_drop, Hd.
  rewrite (proj2 (Nat.ltb_ge _ _)) by (rewrite length_app; lia).
  rewrite (proj2 (Nat.ltb_ge _ _)) by (unfold rest; rewrite !length_app, length_bytes_of_string; lia).
  unfold rest. rewrite <-length_bytes_of_string, take_app_length, drop_app_length, string_of_bytes_of_string.
  destruct (_ && _); [done|]. unfold with_key. destruct (keys b !! id) as [e|]; [|done].
  destruct (negb _); [done|]. unfold open_blob.
  destruct (newGCM (material e)) as [gcm|err|]; cbn [obind]; [|done..].
  rewrite (proj2 (Nat.ltb_ge _ _)) by (rewrite length_app; lia).
  by rewrite <-Hn, take_app_length, drop_app_length.
Qed.

Lemma newGCM_block_keys key gcm : newGCM key = Ok gcm → block_keys gcm.
Proof. unfold newGCM. destruct (NewCipher key) eqn:E; [|done]. intros [= <-]. by eapply NewCipher_block_keys. Qed.

Lemma Encrypt_inv rnd id p b b' r :
  Encrypt rnd id p b = (b', Ok r) →
  b' = b ∧ ∃ e gcm nonce sealed, keys b !! id = Some e ∧ newGCM (material e) = Ok gcm ∧
    Seal gcm nonce p (bytes_of_string id) = Some sealed ∧ length nonce = NonceSize ∧
    r = mkEncryptResult id (blob id nonce sealed).
Proof.
  unfold Encrypt, with_key. destruct (keys b !! id) as [e|]; [|done]. destruct (negb _); [done|].
  intros [= <- H]. split; [done|].
  apply obind_Ok_inv in H as (gcm & Hgcm & H). apply obind_Ok_inv in H as (nonce & Hn & H).
  destruct (Seal gcm nonce p (bytes_of_string id)) as [sealed|] eqn:Hseal; [|done]. injection H as <-.
  exists e, gcm, nonce, sealed. split_and!; try done.
  destruct rnd as [g|]; [|done]. by injection Hn as <-.
Qed.

(** A key with the material that encrypted decrypts again. *)
Lemma decrypts_again rnd id plaintext b b1 r b2 e e2 want :
  Encrypt rnd id plaintext b = (b1, Ok r) → Z.of_nat (String.length id) < 65536 →
  keys b !! id = Some e → keys b2 !! id = Some e2 → material e2 = material e → Key_State (meta e2) = KeyStateEnabled →
  Decrypt want (er_Ciphertext r) b2 =
    (b2, if String.eqb want "" || String.eqb want id then Ok (mkDecryptResult id plaintext)
         else Err (Errorf "ciphertext key %q != requested %q: %w" [id; want] (Sentinel ErrInvalidInput))).
Proof.
  intros HE Hid He He2 Hm Hst. apply Encrypt_inv in HE as (-> & e' & gcm & nonce & sealed & He' & Hgcm & Hseal & Hn & ->).
  rewrite He in He'. injection He' as <-. cbn [er_Ciphertext]. rewrite Decrypt_blob by done. unfold with_key. rewrite He2, Hst.
  destruct (String.eqb want ""), (String.eqb want id); cbn [negb andb orb]; try done;
    unfold open_blob; rewrite Hm, Hgcm; cbn [obind];
    by rewrite (Open_Seal gcm nonce plaintext _ sealed (newGCM_block_keys _ _ Hgcm) Hseal).
Qed.

(** ** The claims *)

(** Whatever the backend has encrypted, it decrypts again: take the
    ciphertext [Encrypt] returns for a key, run any further operations that
    leave the key enabled (and that do not make so many keys that a generated
    identifier hits its name), and [Decrypt] returns the plaintext and the
    key's identifier, both when the caller names the key and when it leaves the
    key to the ciphertext; a caller who names another key is refused. *)
Theorem ciphertexts_stay_decryptable rnd id plaintext b b1 r os want e2 :
  Encrypt rnd id plaintext b = (b1, Ok r) →
  Z.of_nat (String.length id) < 65536 →
  0 <= seq_ b → seq_ b + Z.of_nat (length os) < 2 ^ 63 →
  ¬ generated (seq_ b) (seq_ b + Z.of_nat (length os)) id →
  keys (run_ops os b1) !! id = Some e2 → Key_State (meta e2) = KeyStateEnabled →
  Decrypt want (er_Ciphertext r) (run_ops os b1) =
    (run_ops os b1,
     if String.eqb want "" || String.eqb want id then Ok (mkDecryptResult id plaintext)
     else Err (Errorf "ciphertext key %q != requested %q: %w" [id; want] (Sentinel ErrInvalidInput))).
Proof.
  intros HE Hid H0 Hs Hg He2 Hst. pose proof HE as (-> & e & _ & _ & _ & He & _)%Encrypt_inv.
  destruct (run_ops_keeps os b id e H0 Hs Hg He) as (e' & He' & Hm & _). rewrite He2 in He'. injection He' as <-.
  by apply (decrypts_again rnd id plaintext b b r _ e e2).
Qed.

(** Once a key's deletion is scheduled it is never usable again: whatever
    operations follow, cancelling the deletion included, the key keeps its
    material but its state stays other than enabled, [Encrypt] with it and
    [Decrypt] of every ciphertext that names it answer [ErrKeyDisabled]. *)
Theorem disabled_keys_stay_disabled now id days b os :
  is_Some (keys b !! id) → 0 <= seq_ b → seq_ b + Z.of_nat (length os) < 2 ^ 63 →
  ¬ generated (seq_ b) (seq_ b + Z.of_nat (length os)) id → Z.of_nat (String.length id) < 65536 →
  let b2 := run_ops os (ScheduleKeyDeletion now id days b).1 in
  (∃ e e2, keys b !! id = Some e ∧ keys b2 !! id = Some e2 ∧ material e2 = material e ∧
     Key_State (meta e2) ≠ KeyStateEnabled) ∧
  (∀ rnd p, Encrypt rnd id p b2 = (b2, Err (key_error id ErrKeyDisabled))) ∧
  (∀ nonce sealed, length nonce = NonceSize →
     Decrypt "" (blob id nonce sealed) b2 = (b2, Err (key_error id ErrKeyDisabled))).
Proof.
  intros [e He] H0 Hs Hg Hid b2.
  set (m := set_state (meta e) KeyStatePendingDeletion (AddDays now (if days <=? 0 then 30 else days))).
  assert ((ScheduleKeyDeletion now id days b).1 = set_key id (mkEntry m (material e)) b) as Hb.
  { unfold ScheduleKeyDeletion, with_key. by rewrite He. }
  destruct (run_ops_keeps os (set_key id (mkEntry m (material e)) b) id (mkEntry m (material e)))
    as (e2 & He2 & Hm & Hst); [done..|by cbn; rewrite lookup_insert_eq|].
  rewrite <-Hb in He2. change (keys b2 !! id = Some e2) in He2.
  assert (Key_State (meta e2) ≠ KeyStateEnabled) as Hne by (by apply (never_enabled_again _ _ Hst)).
  split_and!; [by exists e, e2|intros rnd p|intros nonce sealed Hn].
  - unfold Encrypt, with_key. rewrite He2. by rewrite (proj2 (String.eqb_neq _ _) Hne).
  - rewrite Decrypt_blob by done. unfold with_key. rewrite He2. by rewrite (proj2 (String.eqb_neq _ _) Hne).
Qed.

(** [CreateKey] refuses a requested identifier that is taken, but not a
    generated one: when a key already has the next generated identifier, its
    material and its metadata are replaced by the new key's. *)
Theorem generated_id_overwrites now r opts b e :
  ck_KeyID opts = "" → ck_Usage opts = "" → keys b !! (nextID b).2 = Some e →
  let id := (nextID b).2 in
  (∃ k, (CreateKey now (Some r) opts b).2 = Ok k ∧
     keys (CreateKey now (Some r) opts b).1 !! id = Some (mkEntry k (r <$> seq 0 32)) ∧
     (DescribeKey id (CreateKey now (Some r) opts b).1).2 = Ok k) ∧
  (∀ named, ck_KeyID named = id → ck_Usage named = "" →
     CreateKey now (Some r) named b = (b, Err (key_error id ErrAlreadyExists))).
Proof.
  intros Hid Hu He id. split.
  - unfold CreateKey. rewrite Hid, Hu. unfold nextID in *. eexists. split; [reflexivity|].
    split; [by cbn -[seq]; rewrite lookup_insert_eq|]. cbn -[seq]. unfold DescribeKey, with_key. cbn -[seq].
    by rewrite lookup_insert_eq.
  - intros named Hn Hu'. unfold CreateKey. rewrite Hn, Hu'. change ((nextID b).2) with id in He. cbn -[seq id].
    rewrite He. destruct (String.eqb id "") eqn:E0; [|done]. apply String.eqb_eq in E0. discriminate E0.
Qed.

(** ** Witnesses *)

Definition sample_rnd : nat → Init.Byte.byte := λ i, byte_of (Z.of_nat (7 * i + 3)).
Definition named (id : string) : CreateKeyOptions := mkCreateKeyOptions id "" "" "" None.
Definition sample_backend : Backend :=
  run_ops [OpCreateKey 5 (Some sample_rnd) (named "orders"); OpCreateKey 6 (Some sample_rnd) (named "")] New.
Definition sample_result : EncryptResult :=
  Eval vm_compute in match (Encrypt (Some sample_rnd) "orders" (bytes_of_string "pay 12 EUR") sample_backend).2 with
                     | Ok r => r | _ => mkEncryptResult "" [] end.
Definition sample_ops : list op :=
  [OpCreateKey 7 (Some sample_rnd) (named ""); OpSetRotation "orders" true; OpScheduleKeyDeletion 8 "key-00000001" 7].
Definition sample_entry : keyEntry :=
  Eval vm_compute in
    match keys (run_ops sample_ops sample_backend) !! "orders" with
    | Some e => e
    | None => mkEntry (mkKey "" "" "" "" "" false 0 0 None) []
    end.

Lemma ciphertexts_stay_decryptable_witness :
  length (er_Ciphertext sample_result) = 46%nat ∧
  Decrypt "" (er_Ciphertext sample_result) (run_ops sample_ops sample_backend) =
    (run_ops sample_ops sample_backend, Ok (mkDecryptResult "orders" (bytes_of_string "pay 12 EUR"))).
Proof.
  split; [reflexivity|].
  apply (ciphertexts_stay_decryptable (Some sample_rnd) "orders" (bytes_of_string "pay 12 EUR") sample_backend
           sample_backend sample_result sample_ops "" sample_entry).
  all: try (vm_compute; reflexivity). all: try (vm_compute; discriminate).
  intros (n & _ & E). vm_compute in E. discriminate E.
Defined.

Lemma disabled_keys_stay_disabled_witness :
  let b2 := run_ops [OpCancelKeyDeletion "orders"] (ScheduleKeyDeletion 8 "orders" 0 sample_backend).1 in
  Encrypt (Some sample_rnd) "orders" [] b2 = (b2, Err (key_error "orders" ErrKeyDisabled)).
Proof.
  apply (disabled_keys_stay_disabled 8 "orders" 0 sample_backend [OpCancelKeyDeletion "orders"]).
  all: try (vm_compute; reflexivity). all: try (vm_compute; discriminate).
  - eexists. vm_compute. reflexivity.
  - intros (n & _ & E). vm_compute in E. discriminate E.
Defined.

Lemma generated_id_overwrites_witness :
  let b := run_ops [OpCreateKey 5 (Some sample_rnd) (named "key-00000001")] New in
  ∃ k, (CreateKey 9 (Some sample_rnd) (named "") b).2 = Ok k ∧
    (DescribeKey "key-00000001" (CreateKey 9 (Some sample_rnd) (named "") b).1).2 = Ok k.
Proof.
  intros b. destruct (generated_id_overwrites 9 sample_rnd (named "") b
    (mkEntry (mkKey "key-00000001" "" KeyStateEnabled KeyUsageEncryptDecrypt "SYMMETRIC_DEFAULT" false 5 zeroTime None)
       (sample_rnd <$> seq 0 32))) as [(k & Hk & _ & Hd) _].
  1-3: vm_compute; reflexivity.
  exists k. split; [exact Hk|exact Hd].
Defined.
