(* ===== verification/Stores.v ===== *)
(** * Maps whose keys are generated identifiers

    The backends of load balancers and compute keep each kind of resource in a
    map under identifiers made from a counter, and look through the values for
    names that are taken.  The lemmas on such stores, shared by both. *)

From S2P Require Import Prelude GoStrings GoBytes.

(** ** Stores with sequence numbers *)

(** The identifier made from a counter once it is incremented: the backends'
    [nextID]. *)
Definition seq_id (prefix : string) (seq : Z) : string := prefix +:+ "-" +:+ fmt_08d (wrap_s 64 (seq + 1)).


(** Every entry is stored under its own identifier, which was generated. *)
Definition store_ok {V} (id : V → string) (prefix : string) (seq : Z) (m : gmap string V) : Prop :=
  0 <= seq ∧ map_Forall (λ k v, id v = k ∧ ∃ n, 0 <= n < seq ∧ k = seq_id prefix n) m.

Lemma seq_id_inj p n m : 0 <= n < 2 ^ 63 - 1 → 0 <= m < 2 ^ 63 - 1 → seq_id p n = seq_id p m → n = m.
Proof.
  intros Hn Hm E. unfold seq_id in E. apply str_app_inj_l, str_app_inj_l in E.
  rewrite !wrap_s_small in E by (unfold in_s; lia). apply fmt_08d_inj in E; lia.
Qed.

Section stores.
Context {V : Type} (id : V → string) (prefix : string).
Implicit Types (m : gmap string V) (v : V) (seq : Z).

Lemma store_fresh seq m : store_ok id prefix seq m → seq < 2 ^ 63 - 1 → m !! seq_id prefix seq = None.
Proof.
  intros [Hs Hm] Hb. destruct (m !! seq_id prefix seq) as [v|] eqn:E; [|done]. exfalso.
  destruct (Hm _ _ E) as (_ & n & Hn & Ek). apply seq_id_inj in Ek; lia.
Qed.

Lemma store_create seq m v :
  store_ok id prefix seq m → seq < 2 ^ 63 - 1 → id v = seq_id prefix seq →
  store_ok id prefix (wrap_s 64 (seq + 1)) (<[seq_id prefix seq := v]> m).
Proof.
  intros [Hs Hm] Hb Hid. rewrite wrap_s_small by (unfold in_s; lia). split; [lia|].
  apply map_Forall_insert_2; [split; [done|]; exists seq; split; [lia|done]|].
  intros k x Hx. destruct (Hm k x Hx) as (? & n & ? & ?). split; [done|]. exists n. split; [lia|done].
Qed.

Lemma store_update seq m k v v' :
  store_ok id prefix seq m → m !! k = Some v → id v' = id v → store_ok id prefix seq (<[k := v']> m).
Proof.
  intros [Hs Hm] Hk Hid. split; [done|]. apply map_Forall_insert_2; [|done]. rewrite Hid. by apply Hm.
Qed.

Lemma store_delete seq m k : store_ok id prefix seq m → store_ok id prefix seq (delete k m).
Proof. intros [Hs Hm]. split; [done|]. by apply map_Forall_delete. Qed.
End stores.

(** A key is unique among the entries of a map. *)
Definition unique_by {V K} (key : V → K) (m : gmap string V) : Prop :=
  ∀ i j x y, m !! i = Some x → m !! j = Some y → key x = key y → i = j.

Lemma unique_insert_new {V K} (key : V → K) (m : gmap string V) k v :
  unique_by key m → (∀ i x, m !! i = Some x → key x ≠ key v) → unique_by key (<[k := v]> m).
Proof.
  intros Hu Hv i j x y Hi Hj E.
  apply lookup_insert_Some in Hi as [[<- <-]|[? Hi]]; apply lookup_insert_Some in Hj as [[<- <-]|[? Hj]];
    naive_solver.
Qed.

Lemma unique_update {V K} (key : V → K) (m : gmap string V) k v v' :
  unique_by key m → m !! k = Some v → key v' = key v → unique_by key (<[k := v']> m).
Proof.
  intros Hu Hk E i j x y Hi Hj Exy.
  apply lookup_insert_Some in Hi as [[<- <-]|[? Hi]]; apply lookup_insert_Some in Hj as [[<- <-]|[? Hj]];
    try done; try rewrite E in Exy; eauto.
Qed.

Lemma unique_delete {V K} (key : V → K) (m : gmap string V) k : unique_by key m → unique_by key (delete k m).
Proof. intros Hu i j x y [_ Hi]%lookup_delete_Some [_ Hj]%lookup_delete_Some. eauto. Qed.

Lemma exists_in_false {V} (p : V → bool) (m : gmap string V) :
  existsb p (map_to_list m).*2 = false → ∀ k v, m !! k = Some v → p v = false.
Proof.
  intros H k v Hk. apply not_true_iff_false. intros Hp. apply not_true_iff_false in H. apply H.
  apply existsb_exists. exists v. split; [|done]. apply list_elem_of_In, elem_of_values. by exists k.
Qed.

(** An entry found by its identifier, in a range over the map in any order. *)
Lemma filter_one {A} (P : A → Prop) `{∀ x, Decision (P x)} l v :
  NoDup l → v ∈ l → (∀ x, x ∈ l → P x ↔ x = v) → filter P l = [v].
Proof.
  induction l as [|x l IH]; intros Hnd Hv HP; [by apply not_elem_of_nil in Hv|].
  apply NoDup_cons in Hnd as [Hx Hnd]. rewrite filter_cons. destruct (decide (P x)) as [Hp|Hp].
  - apply HP in Hp as ->; [|by left]. f_equal. clear IH Hv. 
    assert (∀ y, y ∈ l → ¬ P y) as Hn. { intros y Hy Hpy. apply HP in Hpy; [|by right]. by subst. }
    clear HP Hnd Hx. induction l as [|y l IH]; [done|]. rewrite filter_cons_False by (apply Hn; left).
    apply IH. intros z Hz. apply Hn. by right.
  - apply IH; [done| |].
    + apply elem_of_cons in Hv as [->|]; [|done]. exfalso. apply Hp, HP; [by left|done].
    + intros y Hy. apply HP. by right.
Qed.

Lemma store_listed {V} (id : V → string) prefix seq (m : gmap string V) order k v (P : V → Prop) `{∀ x, Decision (P x)} :
  store_ok id prefix seq m → order ≡ₚ (map_to_list m).*1 → m !! k = Some v → (∀ x, P x ↔ id x = k) →
  filter P (omap (λ k, m !! k) order) = [v].
Proof.
  intros [_ Hm] Ho Hk HP. 
  assert (∀ x, x ∈ omap (λ k, m !! k) order ↔ m !! id x = Some x) as Hin.
  { intros x. rewrite (omap_lookup_values _ _ Ho), elem_of_values. split; [|by eexists].
    intros [k' Hk']. by destruct (Hm _ _ Hk') as [-> _]. }
  apply filter_one.
  - rewrite (omap_lookup_values _ _ Ho). apply NoDup_fmap_2_strong; [|apply NoDup_map_to_list].
    intros [k1 x1] [k2 x2] H1%elem_of_map_to_list H2%elem_of_map_to_list E. cbn in E. subst.
    destruct (Hm _ _ H1) as [<- _], (Hm _ _ H2) as [<- _]. done.
  - apply Hin. by destruct (Hm _ _ Hk) as [-> _].
  - intros x Hx%Hin. rewrite HP. split; [intros E; rewrite E in Hx; congruence|].
    intros ->. by destruct (Hm _ _ Hk) as [-> _].
Qed.
