(* ===== verification/Compute.v ===== *)
(** * Compute: domain types and the in-process backend

    Models [internal/compute/domain] (networking, instances, volumes) and
    [services/compute/backends/inmem], which implements all three interfaces on
    one state.  The range order of the listing loops is the argument [order], a
    list of the map's keys: the loops collect in that order and sort.  The maps
    hold pointers that only the backend's methods dereference, and results are
    copies; slices and tag maps are modelled by their values, since the backend
    replaces or appends to them but never writes into one it has handed out. *)

From S2P Require Import Prelude GoStrings GoBytes.

(** ** networking.go *)

Inductive sentinel := ErrNotFound | ErrAlreadyExists | ErrInvalidInput | ErrNotSupported.
#[export] Instance sentinel_eq_dec : EqDecision sentinel.
Proof. solve_decision. Defined.

(** A sentinel, [fmt.Errorf] with a format, its arguments and what [%w] wraps,
    or a [*ValidationError]. *)
Inductive error :=
  | Sentinel (s : sentinel)
  | Errorf (format : string) (args : list string) (wraps : error)
  | ValidationError (Field Msg : string).
Fixpoint errors_Is (e : error) (s : sentinel) : bool :=
  match e with
  | Sentinel s' => bool_decide (s' = s)
  | Errorf _ _ w => errors_Is w s
  | ValidationError _ _ => false
  end.
Definition IsNotFound (e : error) : bool := errors_Is e ErrNotFound.
Definition IsAlreadyExists (e : error) : bool := errors_Is e ErrAlreadyExists.
Definition IsNotSupported (e : error) : bool := errors_Is e ErrNotSupported.
Definition ValidationError_text (Field Msg : string) : string :=
  "validation error on field " +:+ Field +:+ ": " +:+ Msg.

(** [Quote] is the %q verb. *)
Definition sentinel_text (s : sentinel) : string :=
  match s with
  | ErrNotFound => "not found" | ErrAlreadyExists => "already exists" | ErrInvalidInput => "invalid input"
  | ErrNotSupported => "operation not supported on this backend"
  end.
Fixpoint Error_text (Quote : string → string) (e : error) : string :=
  match e with
  | Sentinel s => sentinel_text s
  | Errorf format args w => Sprintf Quote (Error_text Quote w) args format
  | ValidationError Field Msg => ValidationError_text Field Msg
  end.

Abbreviation result := (outcome error).

Record Network := mkNetwork { Net_ID : string; Net_Name : string; Net_CIDR : string; Net_Tags : strmap }.
Record CreateNetworkOptions := mkCreateNetworkOptions { cn_CIDR : string; cn_Tags : strmap }.
Record Subnet := mkSubnet {
  Sub_ID : string; Sub_Name : string; Sub_NetworkID : string; Sub_CIDR : string; Sub_Zone : string;
  Sub_Tags : strmap }.
Record CreateSubnetOptions := mkCreateSubnetOptions {
  cs_NetworkID : string; cs_CIDR : string; cs_Zone : string; cs_Tags : strmap }.
(** The filters of [ListSubnets] and [ListSecurityGroups]. *)
Record ListSubnetsOptions := mkListSubnetsOptions { ls_NetworkID : string; ls_IDs : list string }.

Definition ProtocolTCP := "tcp".
Definition ProtocolUDP := "udp".
Definition ProtocolICMP := "icmp".
Definition ProtocolAll := "-1".

Inductive RuleDirection := Inbound | Outbound.
#[export] Instance RuleDirection_eq_dec : EqDecision RuleDirection.
Proof. solve_decision. Defined.
Record SecurityGroupRule := mkRule {
  R_Protocol : string; R_PortFrom : Z; R_PortTo : Z; R_CIDRs : list string; R_Direction : RuleDirection }.
Record SecurityGroup := mkSecurityGroup {
  SG_ID : string; SG_Name : string; SG_NetworkID : string; SG_Description : string;
  SG_Rules : list SecurityGroupRule; SG_Tags : strmap }.
Record CreateSecurityGroupOptions := mkCreateSecurityGroupOptions {
  csg_NetworkID : string; csg_Description : string; csg_Tags : strmap }.
Record PublicIP := mkPublicIP {
  IP_ID : string; IP_Name : string; IP_Address : string; IP_Region : string; IP_InstanceID : string; IP_Tags : strmap }.
Record AllocatePublicIPOptions := mkAllocatePublicIPOptions {
  ap_Name : string; ap_Region : string; ap_Tags : strmap }.

(** ** instances.go *)

Definition InstanceStatePending := "pending".
Definition InstanceStateRunning := "running".
Definition InstanceStateStopped := "stopped".
Definition InstanceStateTerminated := "terminated".

Record Instance_ := mkInstance {
  I_ID : string; I_Name : string; I_ImageID : string; I_InstanceType : string; I_State : string;
  I_NetworkID : string; I_SubnetID : string; I_PrivateIP : string; I_PublicIP : string;
  I_SecurityGroupIDs : list string; I_KeyName : string; I_Tags : strmap }.
Record RunInstancesOptions := mkRunInstancesOptions {
  ri_ImageID : string; ri_InstanceType : string; ri_MinCount : Z; ri_MaxCount : Z; ri_NetworkID : string;
  ri_SubnetID : string; ri_SecurityGroupIDs : list string; ri_KeyName : string; ri_UserData : string;
  ri_Tags : strmap }.
Record DescribeInstancesOptions := mkDescribeInstancesOptions { di_IDs : list string; di_States : list string }.
Record InstanceTypeInfo := mkInstanceTypeInfo { IT_InstanceType : string; IT_VCPUs : Z; IT_MemoryMiB : Z }.

(** ** volumes.go *)

Definition VolumeStateCreating := "creating".
Definition VolumeStateAvailable := "available".
Definition VolumeStateInUse := "in-use".
Definition VolumeStateDeleting := "deleting".
Definition VolumeStateDeleted := "deleted".
Definition VolumeStateError := "error".
Definition VolumeAttachmentStateAttaching := "attaching".
Definition VolumeAttachmentStateAttached := "attached".
Definition VolumeAttachmentStateDetaching := "detaching".
Definition VolumeAttachmentStateDetached := "detached".
Definition SnapshotStatePending := "pending".
Definition SnapshotStateCompleted := "completed".
Definition SnapshotStateError := "error".

Record Volume := mkVolume {
  V_ID : string; V_Name : string; V_SizeGiB : Z; V_VolumeType : string; V_State : string; V_Zone : string;
  V_InstanceID : string; V_DeviceName : string; V_SnapshotID : string; V_Tags : strmap }.
Record CreateVolumeOptions := mkCreateVolumeOptions {
  cv_SizeGiB : Z; cv_VolumeType : string; cv_Zone : string; cv_SnapshotID : string; cv_Tags : strmap }.
Record DescribeVolumesOptions := mkDescribeVolumesOptions { dv_IDs : list string; dv_InstanceID : string }.
Record VolumeAttachment := mkVolumeAttachment {
  VA_VolumeID : string; VA_InstanceID : string; VA_DeviceName : string; VA_State : string }.
Record Snapshot := mkSnapshot {
  S_ID : string; S_VolumeID : string; S_VolumeSize : Z; S_State : string; S_Description : string; S_Tags : strmap }.
Record CreateSnapshotOptions := mkCreateSnapshotOptions { csn_Description : string; csn_Tags : strmap }.
Record DescribeSnapshotsOptions := mkDescribeSnapshotsOptions { ds_IDs : list string; ds_VolumeID : string }.

(** ** inmem.go: the state *)

Record Backend := mkBackend {
  networks : gmap string Network; subnets : gmap string Subnet; sgs : gmap string SecurityGroup;
  ips : gmap string PublicIP; instances : gmap string Instance_; volumes : gmap string Volume;
  snapshots : gmap string Snapshot;
  netSeq : Z; subSeq : Z; sgSeq : Z; ipSeq : Z; instSeq : Z; volSeq : Z; snapSeq : Z }.

Definition New : Backend := mkBackend ∅ ∅ ∅ ∅ ∅ ∅ ∅ 0 0 0 0 0 0 0.

(** The counter after [*seq++], and the identifier made from it. *)
Definition bump (seq : Z) : Z := wrap_s 64 (seq + 1).
Definition nextID (prefix : string) (seq : Z) : string := prefix +:+ "-" +:+ fmt_08d (bump seq).

Definition copyTags (m : strmap) : strmap :=
  match m with
  | None => None
  | Some m => if decide (m = ∅) then None else Some (put_all m ∅)
  end.

Definition set_networks (b : Backend) m s : Backend :=
  mkBackend m (subnets b) (sgs b) (ips b) (instances b) (volumes b) (snapshots b)
    s (subSeq b) (sgSeq b) (ipSeq b) (instSeq b) (volSeq b) (snapSeq b).
Definition set_subnets (b : Backend) m s : Backend :=
  mkBackend (networks b) m (sgs b) (ips b) (instances b) (volumes b) (snapshots b)
    (netSeq b) s (sgSeq b) (ipSeq b) (instSeq b) (volSeq b) (snapSeq b).
Definition set_sgs (b : Backend) m s : Backend :=
  mkBackend (networks b) (subnets b) m (ips b) (instances b) (volumes b) (snapshots b)
    (netSeq b) (subSeq b) s (ipSeq b) (instSeq b) (volSeq b) (snapSeq b).
Definition set_ips (b : Backend) m s : Backend :=
  mkBackend (networks b) (subnets b) (sgs b) m (instances b) (volumes b) (snapshots b)
    (netSeq b) (subSeq b) (sgSeq b) s (instSeq b) (volSeq b) (snapSeq b).
Definition set_instances (b : Backend) m s : Backend :=
  mkBackend (networks b) (subnets b) (sgs b) (ips b) m (volumes b) (snapshots b)
    (netSeq b) (subSeq b) (sgSeq b) (ipSeq b) s (volSeq b) (snapSeq b).
Definition set_volumes (b : Backend) m s : Backend :=
  mkBackend (networks b) (subnets b) (sgs b) (ips b) (instances b) m (snapshots b)
    (netSeq b) (subSeq b) (sgSeq b) (ipSeq b) (instSeq b) s (snapSeq b).
Definition set_snapshots (b : Backend) m s : Backend :=
  mkBackend (networks b) (subnets b) (sgs b) (ips b) (instances b) (volumes b) m
    (netSeq b) (subSeq b) (sgSeq b) (ipSeq b) (instSeq b) (volSeq b) s.

Definition not_found (what id : string) : error := Errorf (what +:+ " %q: %w") [id] (Sentinel ErrNotFound).
Definition already (what name : string) : error := Errorf (what +:+ " %q: %w") [name] (Sentinel ErrAlreadyExists).

(** [for _, x := range m { if p(x) { return ... } }] *)
Definition exists_in {V} (p : V → bool) (m : gmap string V) : bool := existsb p (map_to_list m).*2.

(** ** The listing helpers *)

(** [wantedIDSet], or the set the other listings build, and
    [len(want) > 0 && !want[x]] negated. *)
Definition wantedIDSet (ids : list string) : gset string := list_to_set ids.
Definition wanted (want : gset string) (x : string) : bool := bool_decide (want = ∅) || bool_decide (x ∈ want).
Definition by_key {V} (key : V → string) (x y : V) : bool := String.ltb (key x) (key y).

Definition listByNetwork {V} (items : gmap string V) (order ids : list string) (networkID : string)
    (idOf networkOf nameOf : V → string) : list V :=
  let want := wantedIDSet ids in
  sort_by (by_key nameOf)
    (filter (λ x, (String.eqb networkID "" || String.eqb (networkOf x) networkID) && wanted want (idOf x) = true)
       (omap (λ k, items !! k) order)).

Definition describeByIDAndRef {V} (items : gmap string V) (order ids : list string) (ref : string)
    (idOf refOf : V → string) : list V :=
  let want := wantedIDSet ids in
  sort_by (by_key idOf)
    (filter (λ x, wanted want (idOf x) && (String.eqb ref "" || String.eqb (refOf x) ref) = true)
       (omap (λ k, items !! k) order)).

(** ** Networks *)

Definition CreateNetwork (name : string) (opt : CreateNetworkOptions) (b : Backend) : Backend * result Network :=
  if exists_in (λ n, String.eqb (Net_Name n) name) (networks b) then (b, Err (already "network" name))
  else
    let n := mkNetwork (nextID "net" (netSeq b)) name (cn_CIDR opt) (copyTags (cn_Tags opt)) in
    (set_networks b (<[Net_ID n := n]> (networks b)) (bump (netSeq b)), Ok n).

Definition GetNetwork (id : string) (b : Backend) : Backend * result Network :=
  (b, match networks b !! id with Some n => Ok n | None => Err (not_found "network" id) end).

Definition ListNetworks (order : list string) (IDs : list string) (b : Backend) : Backend * result (list Network) :=
  let want := wantedIDSet IDs in
  (b, Ok (sort_by (by_key Net_Name)
            (filter (λ n, wanted want (Net_ID n) = true) (omap (λ k, networks b !! k) order)))).

Definition DeleteNetwork (id : string) (b : Backend) : Backend * result unit :=
  match networks b !! id with
  | None => (b, Err (not_found "network" id))
  | Some _ => (set_networks b (delete id (networks b)) (netSeq b), Ok ())
  end.

(** ** Subnets *)

Definition CreateSubnet (name : string) (opt : CreateSubnetOptions) (b : Backend) : Backend * result Subnet :=
  if String.eqb (cs_NetworkID opt) ""
  then (b, Err (Errorf "NetworkID is required: %w" [] (Sentinel ErrInvalidInput)))
  else match networks b !! cs_NetworkID opt with
  | None => (b, Err (not_found "parent network" (cs_NetworkID opt)))
  | Some _ =>
      if exists_in (λ s, String.eqb (Sub_NetworkID s) (cs_NetworkID opt) && String.eqb (Sub_Name s) name) (subnets b)
      then (b, Err (already "subnet" name))
      else
        let s := mkSubnet (nextID "subnet" (subSeq b)) name (cs_NetworkID opt) (cs_CIDR opt) (cs_Zone opt)
                   (copyTags (cs_Tags opt)) in
        (set_subnets b (<[Sub_ID s := s]> (subnets b)) (bump (subSeq b)), Ok s)
  end.

Definition GetSubnet (id : string) (b : Backend) : Backend * result Subnet :=
  (b, match subnets b !! id with Some s => Ok s | None => Err (not_found "subnet" id) end).

Definition ListSubnets (order : list string) (opt : ListSubnetsOptions) (b : Backend) : Backend * result (list Subnet) :=
  (b, Ok (listByNetwork (subnets b) order (ls_IDs opt) (ls_NetworkID opt) Sub_ID Sub_NetworkID Sub_Name)).

Definition DeleteSubnet (id : string) (b : Backend) : Backend * result unit :=
  match subnets b !! id with
  | None => (b, Err (not_found "subnet" id))
  | Some _ => (set_subnets b (delete id (subnets b)) (subSeq b), Ok ())
  end.

(** ** Security groups *)

Definition CreateSecurityGroup (name : string) (opt : CreateSecurityGroupOptions) (b : Backend)
    : Backend * result SecurityGroup :=
  if exists_in (λ g, String.eqb (SG_NetworkID g) (csg_NetworkID opt) && String.eqb (SG_Name g) name) (sgs b)
  then (b, Err (already "security group" name))
  else
    let g := mkSecurityGroup (nextID "sg" (sgSeq b)) name (csg_NetworkID opt) (csg_Description opt) []
               (copyTags (csg_Tags opt)) in
    (set_sgs b (<[SG_ID g := g]> (sgs b)) (bump (sgSeq b)), Ok g).

Definition GetSecurityGroup (id : string) (b : Backend) : Backend * result SecurityGroup :=
  (b, match sgs b !! id with Some g => Ok g | None => Err (not_found "security group" id) end).

Definition ListSecurityGroups (order : list string) (opt : ListSubnetsOptions) (b : Backend)
    : Backend * result (list SecurityGroup) :=
  (b, Ok (listByNetwork (sgs b) order (ls_IDs opt) (ls_NetworkID opt) SG_ID SG_NetworkID SG_Name)).

Definition DeleteSecurityGroup (id : string) (b : Backend) : Backend * result unit :=
  match sgs b !! id with
  | None => (b, Err (not_found "security group" id))
  | Some _ => (set_sgs b (delete id (sgs b)) (sgSeq b), Ok ())
  end.

Definition with_rules (g : SecurityGroup) (rs : list SecurityGroupRule) : SecurityGroup :=
  mkSecurityGroup (SG_ID g) (SG_Name g) (SG_NetworkID g) (SG_Description g) rs (SG_Tags g).

(** The parameters are [a] and [b] in the code. *)
Definition rulesEqual (a c : SecurityGroupRule) : bool :=
  if negb (String.eqb (R_Protocol a) (R_Protocol c)) || negb (R_PortFrom a =? R_PortFrom c) ||
     negb (R_PortTo a =? R_PortTo c) || negb (bool_decide (R_Direction a = R_Direction c)) then false
  else if negb (length (R_CIDRs a) =? length (R_CIDRs c))%nat then false
  else
    let aSet : gset string := list_to_set (R_CIDRs a) in
    forallb (λ x, bool_decide (x ∈ aSet)) (R_CIDRs c).

Definition AddRule (sgID : string) (rule : SecurityGroupRule) (b : Backend) : Backend * result unit :=
  match sgs b !! sgID with
  | None => (b, Err (not_found "security group" sgID))
  | Some g => (set_sgs b (<[sgID := with_rules g (SG_Rules g ++ [rule])]> (sgs b)) (sgSeq b), Ok ())
  end.

Definition RemoveRule (sgID : string) (rule : SecurityGroupRule) (b : Backend) : Backend * result unit :=
  match sgs b !! sgID with
  | None => (b, Err (not_found "security group" sgID))
  | Some g =>
      let kept := filter (λ r, negb (rulesEqual r rule) = true) (SG_Rules g) in
      (set_sgs b (<[sgID := with_rules g kept]> (sgs b)) (sgSeq b), Ok ())
  end.

(** ** Public IPs *)

(** The counter is incremented twice per address. *)
Definition AllocatePublicIP (opt : AllocatePublicIPOptions) (b : Backend) : Backend * result PublicIP :=
  let seq := bump (ipSeq b) in
  let addr := "203.0.113." +:+ Itoa (Z.rem seq 254 + 1) in
  let id := nextID "eip" seq in
  let seq := bump seq in
  let name := if String.eqb (ap_Name opt) "" then "eip-" +:+ fmt_08d seq else ap_Name opt in
  let ip := mkPublicIP id name addr (ap_Region opt) "" (copyTags (ap_Tags opt)) in
  (set_ips b (<[IP_ID ip := ip]> (ips b)) seq, Ok ip).

Definition with_instance (ip : PublicIP) (instanceID : string) : PublicIP :=
  mkPublicIP (IP_ID ip) (IP_Name ip) (IP_Address ip) (IP_Region ip) instanceID (IP_Tags ip).

Definition AssociatePublicIP (ipID instanceID : string) (b : Backend) : Backend * result unit :=
  match ips b !! ipID with
  | None => (b, Err (not_found "public IP" ipID))
  | Some ip => (set_ips b (<[ipID := with_instance ip instanceID]> (ips b)) (ipSeq b), Ok ())
  end.
Definition DisassociatePublicIP (ipID : string) (b : Backend) : Backend * result unit :=
  match ips b !! ipID with
  | None => (b, Err (not_found "public IP" ipID))
  | Some ip => (set_ips b (<[ipID := with_instance ip ""]> (ips b)) (ipSeq b), Ok ())
  end.
Definition ReleasePublicIP (ipID : string) (b : Backend) : Backend * result unit :=
  match ips b !! ipID with
  | None => (b, Err (not_found "public IP" ipID))
  | Some _ => (set_ips b (delete ipID (ips b)) (ipSeq b), Ok ())
  end.
Definition ListPublicIPs (order : list string) (IDs : list string) (b : Backend) : Backend * result (list PublicIP) :=
  let want := wantedIDSet IDs in
  (b, Ok (sort_by (by_key IP_ID)
            (filter (λ ip, wanted want (IP_ID ip) = true) (omap (λ k, ips b !! k) order)))).

(** ** Instances *)

(** [m[k]] on a map that can be nil. *)
Definition tag (m : strmap) (k : string) : string := default "" (default ∅ m !! k).

(** How many instances [RunInstances] launches. *)
Definition launch_count (opt : RunInstancesOptions) : Z :=
  let count := if ri_MaxCount opt <? 1 then 1 else ri_MaxCount opt in
  let min := if ri_MinCount opt <? 1 then 1 else ri_MinCount opt in
  if count <? min then min else count.

Definition new_instance (opt : RunInstancesOptions) (seq : Z) : Instance_ :=
  mkInstance (nextID "i" seq) (tag (ri_Tags opt) "Name") (ri_ImageID opt) (ri_InstanceType opt) InstanceStateRunning
    (ri_NetworkID opt) (ri_SubnetID opt) ("10.0.0." +:+ Itoa (bump seq)) "" (ri_SecurityGroupIDs opt)
    (ri_KeyName opt) (copyTags (ri_Tags opt)).

(** The loop, with the turns that are left. *)
Fixpoint launch_loop (turns : nat) (opt : RunInstancesOptions) (b : Backend) (launched : list Instance_)
    : Backend * list Instance_ :=
  match turns with
  | O => (b, launched)
  | S turns =>
      let inst := new_instance opt (instSeq b) in
      launch_loop turns opt (set_instances b (<[I_ID inst := inst]> (instances b)) (bump (instSeq b)))
        (launched ++ [inst])
  end.

Definition RunInstances (opt : RunInstancesOptions) (b : Backend) : Backend * result (list Instance_) :=
  if String.eqb (ri_ImageID opt) "" then (b, Err (ValidationError "ImageID" "required"))
  else if String.eqb (ri_InstanceType opt) "" then (b, Err (ValidationError "InstanceType" "required"))
  else let '(b, launched) := launch_loop (Z.to_nat (launch_count opt)) opt b [] in (b, Ok launched).

Definition described (opt : DescribeInstancesOptions) (i : Instance_) : bool :=
  let wantID := wantedIDSet (di_IDs opt) in
  let wantState := wantedIDSet (di_States opt) in
  if negb (wanted wantID (I_ID i)) then false
  else if negb (bool_decide (wantState = ∅)) then bool_decide (I_State i ∈ wantState)
  else negb (bool_decide (wantID = ∅) && String.eqb (I_State i) InstanceStateTerminated).
Definition DescribeInstances (order : list string) (opt : DescribeInstancesOptions) (b : Backend)
    : Backend * result (list Instance_) :=
  (b, Ok (sort_by (by_key I_ID) (filter (λ i, described opt i = true) (omap (λ k, instances b !! k) order)))).

Definition with_state (i : Instance_) (state : string) : Instance_ :=
  mkInstance (I_ID i) (I_Name i) (I_ImageID i) (I_InstanceType i) state (I_NetworkID i) (I_SubnetID i)
    (I_PrivateIP i) (I_PublicIP i) (I_SecurityGroupIDs i) (I_KeyName i) (I_Tags i).

(** The loop of [StartInstances], [StopInstances] and [TerminateInstances]: the
    changes before an unknown identifier stay. *)
Fixpoint state_loop (state : string) (ids : list string) (b : Backend) (out : list Instance_)
    : Backend * result (list Instance_) :=
  match ids with
  | [] => (b, Ok out)
  | id :: ids =>
      match instances b !! id with
      | None => (b, Err (Sentinel ErrNotFound))
      | Some i =>
          let i := with_state i state in
          state_loop state ids (set_instances b (<[id := i]> (instances b)) (instSeq b)) (out ++ [i])
      end
  end.
Definition StartInstances (ids : list string) (b : Backend) : Backend * result (list Instance_) :=
  state_loop InstanceStateRunning ids b [].
Definition StopInstances (ids : list string) (b : Backend) : Backend * result (list Instance_) :=
  state_loop InstanceStateStopped ids b [].
Definition TerminateInstances (ids : list string) (b : Backend) : Backend * result (list Instance_) :=
  state_loop InstanceStateTerminated ids b [].

Fixpoint RebootInstances (ids : list string) (b : Backend) : Backend * result unit :=
  match ids with
  | [] => (b, Ok ())
  | id :: ids =>
      match instances b !! id with None => (b, Err (Sentinel ErrNotFound)) | Some _ => RebootInstances ids b end
  end.

Definition wellKnownInstanceTypes : list InstanceTypeInfo :=
  [mkInstanceTypeInfo "t3.micro" 2 1024; mkInstanceTypeInfo "t3.small" 2 2048; mkInstanceTypeInfo "t3.medium" 2 4096;
   mkInstanceTypeInfo "m5.large" 2 8192; mkInstanceTypeInfo "m5.xlarge" 4 16384].
Definition DescribeInstanceTypes (InstanceTypes : list string) (b : Backend) : Backend * result (list InstanceTypeInfo) :=
  let want := wantedIDSet InstanceTypes in
  (b, Ok (filter (λ t, wanted want (IT_InstanceType t) = true) wellKnownInstanceTypes)).

(** ** Block storage *)

Definition CreateVolume (opts : CreateVolumeOptions) (b : Backend) : Backend * result Volume :=
  let id := nextID "vol" (volSeq b) in
  let type := if String.eqb (cv_VolumeType opts) "" then "gp3" else cv_VolumeType opts in
  let v := mkVolume id (tag (cv_Tags opts) "Name") (cv_SizeGiB opts) type VolumeStateAvailable (cv_Zone opts)
             "" "" (cv_SnapshotID opts) (copyTags (cv_Tags opts)) in
  (set_volumes b (<[id := v]> (volumes b)) (bump (volSeq b)), Ok v).

Definition DescribeVolumes (order : list string) (opts : DescribeVolumesOptions) (b : Backend)
    : Backend * result (list Volume) :=
  (b, Ok (describeByIDAndRef (volumes b) order (dv_IDs opts) (dv_InstanceID opts) V_ID V_InstanceID)).

Definition DeleteVolume (id : string) (b : Backend) : Backend * result unit :=
  match volumes b !! id with
  | None => (b, Err (Sentinel ErrNotFound))
  | Some _ => (set_volumes b (delete id (volumes b)) (volSeq b), Ok ())
  end.

Definition with_attachment (v : Volume) (state instanceID dev : string) : Volume :=
  mkVolume (V_ID v) (V_Name v) (V_SizeGiB v) (V_VolumeType v) state (V_Zone v) instanceID dev (V_SnapshotID v) (V_Tags v).

Definition AttachVolume (volumeID instanceID DeviceName : string) (b : Backend) : Backend * result VolumeAttachment :=
  match volumes b !! volumeID with
  | None => (b, Err (Sentinel ErrNotFound))
  | Some v =>
      if String.eqb (V_State v) VolumeStateInUse then (b, Err (Sentinel ErrAlreadyExists))
      else match instances b !! instanceID with
      | None => (b, Err (Sentinel ErrNotFound))
      | Some _ =>
          let dev := if String.eqb DeviceName "" then "/dev/sdf" else DeviceName in
          (set_volumes b (<[volumeID := with_attachment v VolumeStateInUse instanceID dev]> (volumes b)) (volSeq b),
           Ok (mkVolumeAttachment volumeID instanceID dev VolumeAttachmentStateAttached))
      end
  end.

(** The instance the caller names is ignored. *)
Definition DetachVolume (volumeID instanceID : string) (b : Backend) : Backend * result VolumeAttachment :=
  match volumes b !! volumeID with
  | None => (b, Err (Sentinel ErrNotFound))
  | Some v =>
      let att := mkVolumeAttachment volumeID (V_InstanceID v) (V_DeviceName v) VolumeAttachmentStateDetached in
      (set_volumes b (<[volumeID := with_attachment v VolumeStateAvailable "" ""]> (volumes b)) (volSeq b), Ok att)
  end.

Definition CreateSnapshot (volumeID : string) (opts : CreateSnapshotOptions) (b : Backend) : Backend * result Snapshot :=
  match volumes b !! volumeID with
  | None => (b, Err (Sentinel ErrNotFound))
  | Some v =>
      let id := nextID "snap" (snapSeq b) in
      let s := mkSnapshot id volumeID (V_SizeGiB v) SnapshotStateCompleted (csn_Description opts)
                 (copyTags (csn_Tags opts)) in
      (set_snapshots b (<[id := s]> (snapshots b)) (bump (snapSeq b)), Ok s)
  end.

Definition DescribeSnapshots (order : list string) (opts : DescribeSnapshotsOptions) (b : Backend)
    : Backend * result (list Snapshot) :=
  (b, Ok (describeByIDAndRef (snapshots b) order (ds_IDs opts) (ds_VolumeID opts) S_ID S_VolumeID)).

Definition DeleteSnapshot (id : string) (b : Backend) : Backend * result unit :=
  match snapshots b !! id with
  | None => (b, Err (Sentinel ErrNotFound))
  | Some _ => (set_snapshots b (delete id (snapshots b)) (snapSeq b), Ok ())
  end.

(** ** The three interfaces: one call that changes the state *)

Inductive op :=
  | OpCreateNetwork (name : string) (opt : CreateNetworkOptions)
  | OpDeleteNetwork (id : string)
  | OpCreateSubnet (name : string) (opt : CreateSubnetOptions)
  | OpDeleteSubnet (id : string)
  | OpCreateSecurityGroup (name : string) (opt : CreateSecurityGroupOptions)
  | OpDeleteSecurityGroup (id : string)
  | OpAddRule (sgID : string) (rule : SecurityGroupRule)
  | OpRemoveRule (sgID : string) (rule : SecurityGroupRule)
  | OpAllocatePublicIP (opt : AllocatePublicIPOptions)
  | OpAssociatePublicIP (ipID instanceID : string)
  | OpDisassociatePublicIP (ipID : string)
  | OpReleasePublicIP (ipID : string)
  | OpRunInstances (opt : RunInstancesOptions)
  | OpStartInstances (ids : list string)
  | OpStopInstances (ids : list string)
  | OpTerminateInstances (ids : list string)
  | OpRebootInstances (ids : list string)
  | OpCreateVolume (opts : CreateVolumeOptions)
  | OpDeleteVolume (id : string)
  | OpAttachVolume (volumeID instanceID DeviceName : string)
  | OpDetachVolume (volumeID instanceID : string)
  | OpCreateSnapshot (volumeID : string) (opts : CreateSnapshotOptions)
  | OpDeleteSnapshot (id : string).

Definition run (o : op) (b : Backend) : Backend :=
  match o with
  | OpCreateNetwork n opt => (CreateNetwork n opt b).1
  | OpDeleteNetwork i => (DeleteNetwork i b).1
  | OpCreateSubnet n opt => (CreateSubnet n opt b).1
  | OpDeleteSubnet i => (DeleteSubnet i b).1
  | OpCreateSecurityGroup n opt => (CreateSecurityGroup n opt b).1
  | OpDeleteSecurityGroup i => (DeleteSecurityGroup i b).1
  | OpAddRule g r => (AddRule g r b).1
  | OpRemoveRule g r => (RemoveRule g r b).1
  | OpAllocatePublicIP opt => (AllocatePublicIP opt b).1
  | OpAssociatePublicIP i j => (AssociatePublicIP i j b).1
  | OpDisassociatePublicIP i => (DisassociatePublicIP i b).1
  | OpReleasePublicIP i => (ReleasePublicIP i b).1
  | OpRunInstances opt => (RunInstances opt b).1
  | OpStartInstances ids => (StartInstances ids b).1
  | OpStopInstances ids => (StopInstances ids b).1
  | OpTerminateInstances ids => (TerminateInstances ids b).1
  | OpRebootInstances ids => (RebootInstances ids b).1
  | OpCreateVolume opts => (CreateVolume opts b).1
  | OpDeleteVolume i => (DeleteVolume i b).1
  | OpAttachVolume v i d => (AttachVolume v i d b).1
  | OpDetachVolume v i => (DetachVolume v i b).1
  | OpCreateSnapshot v opts => (CreateSnapshot v opts b).1
  | OpDeleteSnapshot i => (DeleteSnapshot i b).1
  end.
Definition run_all (os : list op) (b : Backend) : Backend := fold_left (λ b o, run o b) os b.
