(* ===== verification/ComputeProps.v ===== *)
(** * Compute: properties of the in-process backend

    Identifiers are fresh, names are unique in their scope, instances stay known
    for ever and every attached volume belongs to one of them; the launched
    instances are the number asked for; and what the listings and the rule
    comparison promise. *)

From S2P Require Import Prelude GoStrings GoBytes Stores Compute.

Implicit Types (b : Backend) (o : op) (v : Volume) (i : Instance_).

(** ** The invariant *)

Definition instance_states : list string := [InstanceStateRunning; InstanceStateStopped; InstanceStateTerminated].

(** A volume is attached to an instance that exists, or to none. *)
Definition volume_ok (insts : gmap string Instance_) v : Prop :=
  if decide (V_State v = VolumeStateInUse) then is_Some (insts !! V_InstanceID v) ∧ V_DeviceName v ≠ ""
  else V_State v = VolumeStateAvailable ∧ V_InstanceID v = "" ∧ V_DeviceName v = "".

Definition subnet_name (s : Subnet) : string * string := (Sub_NetworkID s, Sub_Name s).
Definition group_name (g : SecurityGroup) : string * string := (SG_NetworkID g, SG_Name g).

Record comp_inv b : Prop := {
  ci_networks : store_ok Net_ID "net" (netSeq b) (networks b);
  ci_subnets : store_ok Sub_ID "subnet" (subSeq b) (subnets b);
  ci_sgs : store_ok SG_ID "sg" (sgSeq b) (sgs b);
  ci_ips : store_ok IP_ID "eip" (ipSeq b) (ips b);
  ci_instances : store_ok I_ID "i" (instSeq b) (instances b);
  ci_volumes : store_ok V_ID "vol" (volSeq b) (volumes b);
  ci_snapshots : store_ok S_ID "snap" (snapSeq b) (snapshots b);
  ci_net_names : unique_by Net_Name (networks b);
  ci_subnet_names : unique_by subnet_name (subnets b);
  ci_group_names : unique_by group_name (sgs b);
  ci_states : map_Forall (λ _ i, I_State i ∈ instance_states) (instances b);
  ci_attached : map_Forall (λ _ v, volume_ok (instances b) v) (volumes b) }.

(** By how much an operation may advance a counter. *)
Definition cost o : Z :=
  match o with
  | OpRunInstances opt => launch_count opt
  | OpAllocatePublicIP _ => 2
  | OpCreateNetwork _ _ | OpCreateSubnet _ _ | OpCreateSecurityGroup _ _ | OpCreateVolume _ | OpCreateSnapshot _ _ => 1
  | _ => 0
  end.

Definition seqs_below (n : Z) b : Prop :=
  netSeq b <= n ∧ subSeq b <= n ∧ sgSeq b <= n ∧ ipSeq b <= n ∧ instSeq b <= n ∧ volSeq b <= n ∧ snapSeq b <= n.

Lemma launch_count_pos opt : 1 <= launch_count opt.
Proof. unfold launch_count. repeat case_match; lia. Qed.

Lemma cost_nonneg o : 0 <= cost o.
Proof. destruct o; cbn; try lia. pose proof (launch_count_pos opt). lia. Qed.

Lemma volume_ok_mono insts insts' v :
  (∀ id, is_Some (insts !! id) → is_Some (insts' !! id)) → volume_ok insts v → volume_ok insts' v.
Proof. unfold volume_ok. intros H. case_decide; naive_solver. Qed.

Lemma attached_mono insts insts' (m : gmap string Volume) :
  (∀ id, is_Some (insts !! id) → is_Some (insts' !! id)) →
  map_Forall (λ _ v, volume_ok insts v) m → map_Forall (λ _ v, volume_ok insts' v) m.
Proof. intros H Hm id v Hv. eapply volume_ok_mono; [exact H|]. by eapply Hm. Qed.

Lemma insert_keeps_some {V} (m : gmap string V) k x id : is_Some (m !! id) → is_Some (<[k := x]> m !! id).
Proof. intros H. apply lookup_insert_is_Some'. by right. Qed.

(** [set_instances] with an instance that is well-formed. *)
Lemma set_instance_inv b m s :
  comp_inv b → store_ok I_ID "i" s m → map_Forall (λ _ i, I_State i ∈ instance_states) m →
  (∀ id, is_Some (instances b !! id) → is_Some (m !! id)) → comp_inv (set_instances b m s).
Proof. intros [] Hm Hs Hd. split; cbn; try done. by eapply attached_mono. Qed.

Lemma launch_loop_spec turns opt b out n :
  comp_inv b → seqs_below n b → n + Z.of_nat turns < 2 ^ 63 - 1 →
  let b' := (launch_loop turns opt b out).1 in
  comp_inv b' ∧ seqs_below (n + Z.of_nat turns) b' ∧
  instSeq b' = instSeq b + Z.of_nat turns ∧
  (launch_loop turns opt b out).2 = out ++ ((λ k, new_instance opt (instSeq b + Z.of_nat k)) <$> seq 0 turns) ∧
  (∀ id x, instances b !! id = Some x → instances b' !! id = Some x) ∧
  (∀ k, (k < turns)%nat → instances b' !! nextID "i" (instSeq b + Z.of_nat k) =
     Some (new_instance opt (instSeq b + Z.of_nat k))) ∧
  networks b' = networks b ∧ volumes b' = volumes b.
Proof.
  revert b out n. induction turns as [|turns IH]; intros b out n Hb Hs Hn; cbn [launch_loop].
  { rewrite !Z.add_0_r. cbn. rewrite app_nil_r. split_and!; try done. intros k Hk. lia. }
  destruct (ci_instances b Hb) as [H0 _].
  assert (bump (instSeq b) = instSeq b + 1) as Hbump.
  { unfold bump. apply wrap_s_small; [lia|]. unfold seqs_below in Hs. unfold in_s. lia. }
  set (b1 := set_instances b _ _).
  assert (comp_inv b1) as Hb1.
  { apply set_instance_inv; [done| | |].
    - apply store_create; [apply Hb|unfold seqs_below in Hs; lia|done].
    - apply map_Forall_insert_2; [left|apply Hb].
    - intros id. apply insert_keeps_some. }
  assert (seqs_below (n + 1) b1) as Hs1.
  { unfold seqs_below in *. cbn. rewrite Hbump. lia. }
  assert (instances b !! nextID "i" (instSeq b) = None) as Hfresh.
  { apply (store_fresh I_ID "i"); [apply Hb|unfold seqs_below in Hs; lia]. }
  assert (instSeq b1 = instSeq b + 1) as Hseq1 by exact Hbump.
  destruct (IH b1 (out ++ [new_instance opt (instSeq b)]) (n + 1) Hb1 Hs1 ltac:(lia))
    as (H1 & H2 & H3 & H4 & H5 & H6 & H7 & H8).
  split_and!; try done.
  - by replace (n + Z.of_nat (S turns)) with (n + 1 + Z.of_nat turns) by lia.
  - rewrite H3, Hseq1. lia.
  - rewrite H4, <-app_assoc. f_equal. cbn [seq fmap list_fmap app]. f_equal; [by rewrite Z.add_0_r|].
    rewrite <-fmap_S_seq, <-list_fmap_compose. apply list_fmap_ext. intros j k _. unfold compose. rewrite Hseq1. f_equal. lia.
  - intros id x Hx. apply H5. cbn. rewrite lookup_insert_ne; [done|]. intros <-. congruence.
  - intros [|k] Hk.
    + rewrite Z.add_0_r. apply H5. cbn. by rewrite lookup_insert_eq.
    + replace (instSeq b + Z.of_nat (S k)) with (instSeq b1 + Z.of_nat k) by lia. apply H6. lia.
Qed.

Lemma state_loop_spec state ids b out :
  comp_inv b → state ∈ instance_states →
  let b' := (state_loop state ids b out).1 in
  comp_inv b' ∧ (∀ n, seqs_below n b → seqs_below n b') ∧ volumes b' = volumes b.
Proof.
  intros Hb Hst. revert b out Hb. induction ids as [|id ids IH]; intros b out Hb; cbn; [done|].
  destruct (instances b !! id) as [i|] eqn:Hi; [|done].
  destruct (IH (set_instances b (<[id := with_state i state]> (instances b)) (instSeq b)) (out ++ [with_state i state]))
    as (H1 & H2 & H3); [|split_and!; [exact H1| |exact H3]].
  - apply set_instance_inv; [done| | |].
    + eapply store_update; [apply Hb|exact Hi|done].
    + apply map_Forall_insert_2; [done|apply Hb].
    + intros k. apply insert_keeps_some.
  - intros n Hn. by apply H2.
Qed.

Lemma RebootInstances_state ids b : (RebootInstances ids b).1 = b.
Proof. induction ids as [|id ids IH]; cbn; [done|]. by destruct (instances b !! id). Qed.

(** ** Every operation preserves it *)

(** Solves [comp_inv] of a state that differs from a good one in one store. *)
Ltac one_store := split; [split; cbn; try done|unfold seqs_below in *; cbn; try lia].

Lemma unique_create {V K} (key : V → K) (p : V → bool) (m : gmap string V) k x :
  unique_by key m → existsb p (map_to_list m).*2 = false → (∀ y, key y = key x → p y = true) →
  unique_by key (<[k := x]> m).
Proof.
  intros Hu Hp Hk. apply unique_insert_new; [done|]. intros j y Hj E.
  pose proof (exists_in_false p m Hp j y Hj). rewrite Hk in *; done.
Qed.

Lemma run_network_inv o b n :
  match o with OpCreateNetwork _ _ | OpDeleteNetwork _ | OpCreateSubnet _ _ | OpDeleteSubnet _ => True | _ => False end →
  comp_inv b → seqs_below n b → n + cost o < 2 ^ 63 - 1 → comp_inv (run o b) ∧ seqs_below (n + cost o) (run o b).
Proof.
  intros Ho Hb Hs Hn. assert (seqs_below (n + cost o) b) as Hs'.
  { pose proof (cost_nonneg o). unfold seqs_below in *. lia. }
  destruct (Hb) as [H1 H2 H3 H4 H5 H6 H7 H8 H9 H10 H11 H12].
  assert (∀ s, 0 <= s <= n → bump s = s + 1) as Hw by (intros; apply wrap_s_small; unfold in_s; cbn in *; destruct o; cbn in *; lia).
  destruct o; try done; cbn [run cost] in *.
  - unfold CreateNetwork. destruct (exists_in _ _) eqn:E; [done|]. destruct (H1) as [? _]. one_store.
    + apply store_create; [done|unfold seqs_below in *; lia|done].
    + eapply unique_create; [done|exact E|]. cbn. intros y ->. apply String.eqb_refl.
    + rewrite Hw; lia.
  - unfold DeleteNetwork. case_match; [|done]. one_store; [by apply store_delete|by apply unique_delete].
  - unfold CreateSubnet. case_match; [done|]. case_match; [|done]. destruct (exists_in _ _) eqn:E; [done|].
    destruct (H2) as [? _]. one_store.
    + apply store_create; [done|unfold seqs_below in *; lia|done].
    + eapply unique_create; [done|exact E|]. cbn. intros y [= -> ->]. by rewrite !String.eqb_refl.
    + rewrite Hw; lia.
  - unfold DeleteSubnet. case_match; [|done]. one_store; [by apply store_delete|by apply unique_delete].
Qed.

Lemma run_group_inv o b n :
  match o with
  | OpCreateSecurityGroup _ _ | OpDeleteSecurityGroup _ | OpAddRule _ _ | OpRemoveRule _ _ | OpAllocatePublicIP _
  | OpAssociatePublicIP _ _ | OpDisassociatePublicIP _ | OpReleasePublicIP _ => True
  | _ => False
  end →
  comp_inv b → seqs_below n b → n + cost o < 2 ^ 63 - 1 → comp_inv (run o b) ∧ seqs_below (n + cost o) (run o b).
Proof.
  intros Ho Hb Hs Hn. assert (seqs_below (n + cost o) b) as Hs'.
  { pose proof (cost_nonneg o). unfold seqs_below in *. lia. }
  destruct (Hb) as [H1 H2 H3 H4 H5 H6 H7 H8 H9 H10 H11 H12].
  assert (∀ s, 0 <= s <= n + 1 → s < 2 ^ 63 - 1 → bump s = s + 1) as Hw by (intros; apply wrap_s_small; unfold in_s; lia).
  destruct o; try done; cbn [run cost] in *.
  - unfold CreateSecurityGroup. destruct (exists_in _ _) eqn:E; [done|]. destruct (H3) as [? _]. one_store.
    + apply store_create; [done|unfold seqs_below in *; lia|done].
    + eapply unique_create; [done|exact E|]. cbn. intros y [= -> ->]. by rewrite !String.eqb_refl.
    + rewrite Hw; lia.
  - unfold DeleteSecurityGroup. case_match; [|done]. one_store; [by apply store_delete|by apply unique_delete].
  - unfold AddRule. destruct (sgs b !! sgID) as [g|] eqn:E; [|done].
    one_store; [by eapply store_update|by eapply unique_update].
  - unfold RemoveRule. destruct (sgs b !! sgID) as [g|] eqn:E; [|done].
    one_store; [by eapply store_update|by eapply unique_update].
  - destruct (H4) as [? H4']. assert (ipSeq b <= n) by (unfold seqs_below in Hs; lia).
    unfold AllocatePublicIP. one_store; [|rewrite !Hw; rewrite ?Hw; lia].
    apply store_create; [|rewrite Hw; lia|done]. rewrite Hw by lia. split; [lia|].
    intros k x Hx. destruct (H4' k x Hx) as (? & m & ? & ?). split; [done|]. exists m. split; [lia|done].
  - unfold AssociatePublicIP. destruct (ips b !! ipID) as [g|] eqn:E; [|done]. one_store. by eapply store_update.
  - unfold DisassociatePublicIP. destruct (ips b !! ipID) as [g|] eqn:E; [|done]. one_store. by eapply store_update.
  - unfold ReleasePublicIP. case_match; [|done]. one_store. by apply store_delete.
Qed.

Lemma run_instance_inv o b n :
  match o with
  | OpRunInstances _ | OpStartInstances _ | OpStopInstances _ | OpTerminateInstances _ | OpRebootInstances _ => True
  | _ => False
  end →
  comp_inv b → seqs_below n b → n + cost o < 2 ^ 63 - 1 → comp_inv (run o b) ∧ seqs_below (n + cost o) (run o b).
Proof.
  intros Ho Hb Hs Hn. assert (seqs_below (n + cost o) b) as Hs'.
  { pose proof (cost_nonneg o). unfold seqs_below in *. lia. }
  destruct o; try done; cbn [run cost] in *.
  - unfold RunInstances. case_match; [done|]. case_match; [done|]. pose proof (launch_count_pos opt).
    destruct (launch_loop_spec (Z.to_nat (launch_count opt)) opt b [] n Hb Hs ltac:(lia)) as (Hr1 & Hr2 & _).
    rewrite Z2Nat.id in Hr2 by lia. destruct (launch_loop _ opt b []). done.
  - destruct (state_loop_spec InstanceStateRunning ids b [] Hb) as (H1 & H2 & _); [set_solver|].
    split; [exact H1|by apply H2].
  - destruct (state_loop_spec InstanceStateStopped ids b [] Hb) as (H1 & H2 & _); [set_solver|].
    split; [exact H1|by apply H2].
  - destruct (state_loop_spec InstanceStateTerminated ids b [] Hb) as (H1 & H2 & _); [set_solver|].
    split; [exact H1|by apply H2].
  - by rewrite RebootInstances_state.
Qed.

Lemma run_volume_inv o b n :
  match o with
  | OpCreateVolume _ | OpDeleteVolume _ | OpAttachVolume _ _ _ | OpDetachVolume _ _ | OpCreateSnapshot _ _
  | OpDeleteSnapshot _ => True
  | _ => False
  end →
  comp_inv b → seqs_below n b → n + cost o < 2 ^ 63 - 1 → comp_inv (run o b) ∧ seqs_below (n + cost o) (run o b).
Proof.
  intros Ho Hb Hs Hn. assert (seqs_below (n + cost o) b) as Hs'.
  { pose proof (cost_nonneg o). unfold seqs_below in *. lia. }
  destruct (Hb) as [H1 H2 H3 H4 H5 H6 H7 H8 H9 H10 H11 H12].
  assert (∀ s, 0 <= s <= n → s < 2 ^ 63 - 1 → bump s = s + 1) as Hw by (intros; apply wrap_s_small; unfold in_s; lia).
  destruct o; try done; cbn [run cost] in *.
  - unfold CreateVolume. destruct (H6) as [? _]. one_store.
    + apply store_create; [done|unfold seqs_below in *; lia|done].
    + apply map_Forall_insert_2; [|done]. unfold volume_ok. by rewrite decide_False by done.
    + rewrite Hw; lia.
  - unfold DeleteVolume. case_match; [|done]. one_store; [by apply store_delete|by apply map_Forall_delete].
  - unfold AttachVolume. destruct (volumes b !! volumeID) as [v|] eqn:E; [|done]. case_match; [done|].
    destruct (instances b !! instanceID) as [i|] eqn:Ei; [|done]. one_store; [by eapply store_update|].
    apply map_Forall_insert_2; [|done]. unfold volume_ok. rewrite decide_True by done. cbn.
    split; [by eexists|]. case_match; [done|]. by apply String.eqb_neq.
  - unfold DetachVolume. destruct (volumes b !! volumeID) as [v|] eqn:E; [|done].
    one_store; [by eapply store_update|]. by apply map_Forall_insert_2.
  - unfold CreateSnapshot. destruct (volumes b !! volumeID) as [v|] eqn:E; [|done]. destruct (H7) as [? _]. one_store.
    + apply store_create; [done|unfold seqs_below in *; lia|done].
    + rewrite Hw; lia.
  - unfold DeleteSnapshot. case_match; [|done]. one_store. by apply store_delete.
Qed.

Lemma run_comp_inv o b n :
  comp_inv b → seqs_below n b → n + cost o < 2 ^ 63 - 1 → comp_inv (run o b) ∧ seqs_below (n + cost o) (run o b).
Proof.
  destruct o; first [by apply run_network_inv|by apply run_group_inv|by apply run_instance_inv|by apply run_volume_inv].
Qed.

Lemma New_comp_inv : comp_inv New.
Proof.
  split; try (split; [done|apply map_Forall_empty]); try apply map_Forall_empty;
    intros i j x y H; cbn in H; by rewrite lookup_empty in H.
Qed.

Definition total_cost (os : list op) : Z := foldr (λ o n, cost o + n) 0 os.

Lemma total_cost_nonneg os : 0 <= total_cost os.
Proof. unfold total_cost. induction os as [|o os IH]; cbn; [done|]. pose proof (cost_nonneg o). lia. Qed.

Lemma run_all_comp_inv os b n :
  comp_inv b → seqs_below n b → n + total_cost os < 2 ^ 63 - 1 →
  comp_inv (run_all os b) ∧ seqs_below (n + total_cost os) (run_all os b).
Proof.
  revert b n. induction os as [|o os IH]; intros b n Hb Hs Hn; [by rewrite Z.add_0_r|].
  change (total_cost (o :: os)) with (cost o + total_cost os) in *.
  pose proof (total_cost_nonneg os).
  destruct (run_comp_inv o b n Hb Hs ltac:(lia)) as [Hb' Hs'].
  rewrite Z.add_assoc. apply IH; [done|done|lia].
Qed.

(** ** Attachments *)

Definition detaches (vol : string) o : Prop :=
  match o with OpDetachVolume w _ | OpDeleteVolume w => w = vol | _ => False end.

Lemma run_keeps_attached o b n vol v :
  comp_inv b → seqs_below n b → n + cost o < 2 ^ 63 - 1 → ¬ detaches vol o →
  volumes b !! vol = Some v → V_State v = VolumeStateInUse → volumes (run o b) !! vol = Some v.
Proof.
  intros Hb Hs Hn Ho Hv Hst.
  destruct o; cbn [run detaches] in *;
    try (unfold CreateNetwork, DeleteNetwork, CreateSubnet, DeleteSubnet, CreateSecurityGroup, DeleteSecurityGroup,
           AddRule, RemoveRule, AllocatePublicIP, AssociatePublicIP, DisassociatePublicIP, ReleasePublicIP,
           CreateSnapshot, DeleteSnapshot; repeat case_match; exact Hv).
  - unfold RunInstances. case_match; [exact Hv|]. case_match; [exact Hv|].
    destruct (launch_loop_spec (Z.to_nat (launch_count opt)) opt b [] n) as (_ & _ & _ & _ & _ & _ & _ & E); [done..| |].
    { pose proof (launch_count_pos opt). cbn in Hn. lia. }
    destruct (launch_loop _ opt b []). cbn in *. by rewrite E.
  - destruct (state_loop_spec InstanceStateRunning ids b [] Hb) as (_ & _ & E); [set_solver|].
    unfold StartInstances. by rewrite E.
  - destruct (state_loop_spec InstanceStateStopped ids b [] Hb) as (_ & _ & E); [set_solver|].
    unfold StopInstances. by rewrite E.
  - destruct (state_loop_spec InstanceStateTerminated ids b [] Hb) as (_ & _ & E); [set_solver|].
    unfold TerminateInstances. by rewrite E.
  - by rewrite RebootInstances_state.
  - cbn. rewrite lookup_insert_ne; [done|]. intros <-.
    rewrite (store_fresh V_ID "vol" (volSeq b)) in Hv; [done|apply Hb|]. unfold seqs_below in Hs. cbn in Hn. lia.
  - unfold DeleteVolume. case_match; [|done]. cbn. by rewrite lookup_delete_ne.
  - unfold AttachVolume. destruct (volumes b !! volumeID) as [w|] eqn:E; [|done]. case_match; [done|]. case_match; [|done].
    cbn. rewrite lookup_insert_ne; [done|]. intros ->. rewrite Hv in E. simplify_eq. by rewrite Hst in *.
  - unfold DetachVolume. case_match; [|done]. cbn. by rewrite lookup_insert_ne.
Qed.

Lemma run_all_keeps_attached os b n vol v :
  comp_inv b → seqs_below n b → n + total_cost os < 2 ^ 63 - 1 → Forall (λ o, ¬ detaches vol o) os →
  volumes b !! vol = Some v → V_State v = VolumeStateInUse → volumes (run_all os b) !! vol = Some v.
Proof.
  revert b n. induction os as [|o os IH]; intros b n Hb Hs Hn Ho Hv Hst; [done|].
  change (total_cost (o :: os)) with (cost o + total_cost os) in *. pose proof (total_cost_nonneg os).
  apply Forall_cons in Ho as [Ho Hos]. destruct (run_comp_inv o b n Hb Hs ltac:(lia)) as [Hb' Hs'].
  apply (IH _ (n + cost o)); [done|done|lia|done| |done]. by apply (run_keeps_attached o b n); [..|lia|done|done|done].
Qed.

(** ** Listings *)

Lemma le_by_ltb_antisym s t : le_by String.ltb s t → le_by String.ltb t s → s = t.
Proof. rewrite !le_by_ltb. intros [|H] [|H']; try done. by destruct (str_lt_asym _ _ H). Qed.

Lemma elem_of_omap_lookup {V} (m : gmap string V) order x :
  order ≡ₚ (map_to_list m).*1 → x ∈ omap (λ k, m !! k) order ↔ ∃ k, m !! k = Some x.
Proof. intros Ho. by rewrite (omap_lookup_values _ _ Ho), elem_of_values. Qed.

Lemma store_NoDup {V} (id : V → string) p seq (m : gmap string V) order :
  store_ok id p seq m → order ≡ₚ (map_to_list m).*1 → NoDup (omap (λ k, m !! k) order).
Proof.
  intros [_ Hr] Ho. rewrite (omap_lookup_values _ _ Ho). apply NoDup_fmap_2_strong; [|apply NoDup_map_to_list].
  intros [k1 r1] [k2 r2] H1%elem_of_map_to_list H2%elem_of_map_to_list E. cbn in E. subst.
  destruct (Hr _ _ H1) as [<- _], (Hr _ _ H2) as [<- _]. done.
Qed.

(** ** The claims *)

(** In every state the operations reach (as long as they launch and
    allocate fewer than 2^63 things), every resource is stored under its own
    identifier and a new identifier is never in use; no two networks share a
    name, and no two subnets and no two security groups of a network do; every
    instance is running, stopped or terminated; and a volume is either available
    and attached to nothing, or in use, attached as some device to an instance
    that exists. *)
Theorem compute_well_formed (os : list op) :
  total_cost os < 2 ^ 63 - 1 →
  let b := run_all os New in
  comp_inv b ∧ networks b !! nextID "net" (netSeq b) = None ∧ subnets b !! nextID "subnet" (subSeq b) = None ∧
  sgs b !! nextID "sg" (sgSeq b) = None ∧ instances b !! nextID "i" (instSeq b) = None ∧
  volumes b !! nextID "vol" (volSeq b) = None ∧ snapshots b !! nextID "snap" (snapSeq b) = None.
Proof.
  intros Hn b. destruct (run_all_comp_inv os New 0 New_comp_inv) as [Hb Hs]; [done|lia|].
  fold b in Hb, Hs. rewrite Z.add_0_l in Hs. split; [done|].
  destruct Hs as (? & ? & ? & ? & ? & ? & ?).
  repeat split; [apply (store_fresh Net_ID)|apply (store_fresh Sub_ID)|apply (store_fresh SG_ID)|
    apply (store_fresh I_ID)|apply (store_fresh V_ID)|apply (store_fresh S_ID)]; first [apply Hb|lia].
Qed.

(** An attachment is exclusive and lasts until it is undone.  After a
    successful [AttachVolume], whatever operations follow short of detaching or
    deleting that volume (its instance may be stopped and terminated): another
    attachment is refused, the instance still exists, [DescribeVolumes] for it
    lists the volume with its device, and [DetachVolume] returns this attachment
    and makes the volume available, whatever instance its caller names. *)
Theorem attachment_is_exclusive (os0 os : list op) vol inst dev att :
  let b0 := run_all os0 New in
  total_cost os0 + total_cost os < 2 ^ 63 - 1 →
  (AttachVolume vol inst dev b0).2 = Ok att → Forall (λ o, ¬ detaches vol o) os →
  let b := run_all os (AttachVolume vol inst dev b0).1 in
  let d := if String.eqb dev "" then "/dev/sdf" else dev in
  att = mkVolumeAttachment vol inst d VolumeAttachmentStateAttached ∧
  (∀ j e, AttachVolume vol j e b = (b, Err (Sentinel ErrAlreadyExists))) ∧
  is_Some (instances b !! inst) ∧
  (∀ order, order ≡ₚ (map_to_list (volumes b)).*1 → ∃ l v,
     (DescribeVolumes order (mkDescribeVolumesOptions [] inst) b).2 = Ok l ∧ v ∈ l ∧
     V_ID v = vol ∧ V_InstanceID v = inst ∧ V_DeviceName v = d ∧ V_State v = VolumeStateInUse) ∧
  (∀ j, (DetachVolume vol j b).2 = Ok (mkVolumeAttachment vol inst d VolumeAttachmentStateDetached) ∧
     ∃ v, volumes (DetachVolume vol j b).1 !! vol = Some v ∧ V_State v = VolumeStateAvailable).
Proof.
  intros b0 Hn Ha Ho b d. pose proof (total_cost_nonneg os).
  destruct (run_all_comp_inv os0 New 0 New_comp_inv) as [Hb0 Hs0]; [done|lia|]. fold b0 in Hb0, Hs0.
  destruct (run_comp_inv (OpAttachVolume vol inst dev) b0 _ Hb0 Hs0) as [Hb1 Hs1]; [cbn; lia|]. cbn [run cost] in *.
  destruct (run_all_comp_inv os _ _ Hb1 Hs1) as [Hb _]; [lia|]. fold b in Hb.
  assert (∃ v, att = mkVolumeAttachment vol inst d VolumeAttachmentStateAttached ∧ V_State v = VolumeStateInUse ∧
    V_InstanceID v = inst ∧ V_DeviceName v = d ∧ volumes (AttachVolume vol inst dev b0).1 !! vol = Some v)
    as (v & -> & Hst & Hi & Hd & Hv).
  { revert Ha. unfold AttachVolume. destruct (volumes b0 !! vol) as [v|]; [|done]. case_match; [done|].
    case_match; [|done]. intros [= <-]. exists (with_attachment v VolumeStateInUse inst d). cbn. by rewrite lookup_insert_eq. }
  apply (run_all_keeps_attached os _ (0 + total_cost os0 + 0)) in Hv; [|done|done|lia|done|done]. fold b in Hv.
  split_and!; [done| | | |].
  - intros j e. unfold AttachVolume. by rewrite Hv, Hst.
  - pose proof (ci_attached b Hb _ _ Hv) as Hok. unfold volume_ok in Hok. rewrite decide_True, Hi in Hok by done.
    apply Hok.
  - intros order Hord. eexists _, v. split; [reflexivity|].
    destruct (ci_volumes b Hb) as [_ Hids]. destruct (Hids _ _ Hv) as [Hid _]. split_and!; [|done..].
    unfold describeByIDAndRef. rewrite elem_of_sort_by, list_elem_of_filter. cbn. rewrite Hi, String.eqb_refl.
    rewrite orb_true_r. split; [done|]. apply elem_of_omap_lookup; [done|]. by exists vol.
  - intros j. unfold DetachVolume. rewrite Hv. cbn. rewrite Hi, Hd. split; [done|].
    eexists. by rewrite lookup_insert_eq.
Qed.

(** [RunInstances] launches the larger of its two counts, and at least one:
    it returns that many instances, all running, of the image and type asked
    for, under distinct identifiers that no instance had; they are in the
    backend afterwards, with every instance it had before, and
    [DescribeInstances] for their identifiers returns exactly them. *)
Theorem RunInstances_launches (os : list op) opt :
  total_cost os + launch_count opt < 2 ^ 63 - 1 → ri_ImageID opt ≠ "" → ri_InstanceType opt ≠ "" →
  let b := run_all os New in
  let b' := (RunInstances opt b).1 in
  launch_count opt = Z.max 1 (Z.max (ri_MinCount opt) (ri_MaxCount opt)) ∧
  ∃ l, (RunInstances opt b).2 = Ok l ∧ Z.of_nat (length l) = launch_count opt ∧ NoDup (I_ID <$> l) ∧
    Forall (λ x, I_State x = InstanceStateRunning ∧ I_ImageID x = ri_ImageID opt ∧
      I_InstanceType x = ri_InstanceType opt ∧ instances b !! I_ID x = None ∧ instances b' !! I_ID x = Some x) l ∧
    (∀ id x, instances b !! id = Some x → instances b' !! id = Some x) ∧
    ∀ order, order ≡ₚ (map_to_list (instances b')).*1 →
      ∃ l', (DescribeInstances order (mkDescribeInstancesOptions (I_ID <$> l) []) b').2 = Ok l' ∧ l' ≡ₚ l.
Proof.
  intros Hn Him Hty b. pose proof (launch_count_pos opt) as Hpos.
  destruct (run_all_comp_inv os New 0 New_comp_inv) as [Hb Hs]; [done|lia|]. fold b in Hb, Hs.
  destruct (launch_loop_spec (Z.to_nat (launch_count opt)) opt b [] _ Hb Hs ltac:(lia))
    as (Hb' & _ & _ & El & Hold & Hnew & _).
  assert (RunInstances opt b = ((launch_loop (Z.to_nat (launch_count opt)) opt b []).1,
    Ok (launch_loop (Z.to_nat (launch_count opt)) opt b []).2)) as Er.
  { unfold RunInstances. rewrite (proj2 (String.eqb_neq _ _) Him), (proj2 (String.eqb_neq _ _) Hty).
    by destruct (launch_loop _ opt b []). }
  rewrite Er. cbn [fst snd]. set (b' := (launch_loop _ opt b []).1) in *.
  rewrite El. cbn [app]. set (f := λ k : nat, new_instance opt (instSeq b + Z.of_nat k)).
  set (l := f <$> seq 0 (Z.to_nat (launch_count opt))).
  destruct (ci_instances b Hb) as [H0 Hids].
  assert (instSeq b <= total_cost os) as Hle by (unfold seqs_below in Hs; lia).
  assert (∀ x, x ∈ l → ∃ k, (k < Z.to_nat (launch_count opt))%nat ∧ x = f k) as Hl.
  { intros x (k & -> & Hk%elem_of_seq)%list_elem_of_fmap. exists k. split; [lia|done]. }
  assert (NoDup (I_ID <$> l)) as Hnd.
  { unfold l. rewrite <-list_fmap_compose. apply NoDup_fmap_2_strong; [|apply NoDup_seq].
    intros j k Hj%elem_of_seq Hk%elem_of_seq E. cbn in E. apply seq_id_inj in E; lia. }
  assert (∀ x, x ∈ l → instances b' !! I_ID x = Some x) as Hin.
  { intros x (k & Hk & ->)%Hl. by apply Hnew. }
  split. { unfold launch_count. repeat case_match; lia. }
  exists l. split_and!; [done|unfold l; rewrite length_fmap, length_seq; lia|done| |done|].
  - apply Forall_forall. intros x Hx. destruct (Hl x Hx) as (k & Hk & Ex). split_and!; [by subst x..| |by apply Hin].
    destruct (instances b !! I_ID x) as [y|] eqn:E; [|done]. exfalso. destruct (Hids _ _ E) as (_ & n & Hn' & Ei).
    subst x. cbn in Ei. apply seq_id_inj in Ei; lia.
  - intros order Hord. eexists. split; [reflexivity|].
    assert (wantedIDSet (I_ID <$> l) ≠ ∅) as Hne.
    { unfold wantedIDSet. assert (I_ID (f 0%nat) ∈ I_ID <$> l) as H1; [|set_solver].
      apply list_elem_of_fmap_2, list_elem_of_fmap_2, elem_of_seq. lia. }
    rewrite sort_by_perm. apply NoDup_Permutation.
    + apply NoDup_filter. by apply (store_NoDup I_ID "i" (instSeq b')); [apply Hb'|].
    + by eapply NoDup_fmap_1.
    + intros x. rewrite list_elem_of_filter, elem_of_omap_lookup by done. unfold described, wanted.
      cbn [di_IDs di_States]. rewrite (bool_decide_eq_false_2 (wantedIDSet (I_ID <$> l) = ∅)) by done.
      rewrite (bool_decide_eq_true_2 (wantedIDSet [] = ∅)) by done. cbn [orb andb negb]. split.
      * intros (Hd & k & Hk). destruct (bool_decide _) eqn:Hw; [|done]. apply bool_decide_eq_true in Hw.
        unfold wantedIDSet in Hw. apply elem_of_list_to_set, list_elem_of_fmap in Hw as (y & Ey & Hy).
        pose proof (Hin y Hy) as Hy'. destruct (ci_instances b' Hb') as [_ Hids']. destruct (Hids' _ _ Hk) as [<- _].
        congruence.
      * intros Hx. split; [|exists (I_ID x); by apply Hin]. rewrite bool_decide_eq_true_2; [done|].
        unfold wantedIDSet. apply elem_of_list_to_set. by apply list_elem_of_fmap_2.
Qed.

(** The same rule, up to the order of its CIDRs. *)
Definition same_rule (r s : SecurityGroupRule) : Prop :=
  R_Protocol r = R_Protocol s ∧ R_PortFrom r = R_PortFrom s ∧ R_PortTo r = R_PortTo s ∧
  R_Direction r = R_Direction s ∧ R_CIDRs r ≡ₚ R_CIDRs s.

Lemma rulesEqual_same r s : NoDup (R_CIDRs s) → rulesEqual r s = true ↔ same_rule r s.
Proof.
  intros Hnd. unfold rulesEqual, same_rule.
  destruct (String.eqb_spec (R_Protocol r) (R_Protocol s)); [|naive_solver].
  destruct (Z.eqb_spec (R_PortFrom r) (R_PortFrom s)); [|naive_solver].
  destruct (Z.eqb_spec (R_PortTo r) (R_PortTo s)); [|naive_solver].
  case_bool_decide; [|naive_solver]. cbn [negb orb].
  destruct (Nat.eqb_spec (length (R_CIDRs r)) (length (R_CIDRs s))) as [Hl|Hl]; cbn [negb].
  - rewrite forallb_forall. split.
    + intros Hf. split_and!; try done. symmetry. apply submseteq_length_Permutation; [|lia].
      apply NoDup_submseteq; [done|]. intros x Hx%list_elem_of_In%Hf. apply bool_decide_eq_true in Hx.
      by apply elem_of_list_to_set in Hx.
    + intros (_ & _ & _ & _ & Hp) x Hx%list_elem_of_In. apply bool_decide_eq_true, elem_of_list_to_set. by rewrite Hp.
  - split; [done|]. intros (_ & _ & _ & _ & Hp). apply Permutation_length in Hp. done.
Qed.

(** [RemoveRule] keeps the group's rules, in their order, except those that
    are the given rule up to the order of their CIDRs, provided the given rule
    names no CIDR twice.  Without the proviso a different rule can go: the
    comparison only looks up the given CIDRs in the stored rule, so removing a
    rule for 10.0.0.0/8 twice also removes one for 10.0.0.0/8 and 0.0.0.0/0. *)
Theorem RemoveRule_removes b id g rule :
  sgs b !! id = Some g → NoDup (R_CIDRs rule) →
  let b' := (RemoveRule id rule b).1 in
  (RemoveRule id rule b).2 = Ok () ∧
  (∃ rs, (GetSecurityGroup id b').2 = Ok (with_rules g rs) ∧ rs `sublist_of` SG_Rules g ∧
     ∀ r, r ∈ rs ↔ r ∈ SG_Rules g ∧ ¬ same_rule r rule) ∧
  (∀ id', id' ≠ id → GetSecurityGroup id' b' = (b', (GetSecurityGroup id' b).2)) ∧
  ∀ proto f t dir,
    rulesEqual (mkRule proto f t ["10.0.0.0/8"; "0.0.0.0/0"] dir) (mkRule proto f t ["10.0.0.0/8"; "10.0.0.0/8"] dir) = true.
Proof.
  intros Hg Hnd. unfold RemoveRule. rewrite Hg. cbn [fst snd]. split_and!.
  - done.
  - eexists. unfold GetSecurityGroup. cbn. rewrite lookup_insert_eq. split; [done|]. split; [apply sublist_filter|].
    intros r. rewrite list_elem_of_filter, <-rulesEqual_same by done.
    destruct (rulesEqual r rule); naive_solver.
  - intros id' Hne. unfold GetSecurityGroup. cbn. by rewrite lookup_insert_ne.
  - intros proto f t dir. unfold rulesEqual. cbn [R_Protocol R_PortFrom R_PortTo R_Direction R_CIDRs].
    rewrite String.eqb_refl, !Z.eqb_refl, bool_decide_eq_true_2 by done. by vm_compute.
Qed.

(** Listings are exact and do not depend on the order of the map:
    [ListNetworks] returns exactly the networks that [GetNetwork] finds and
    that the identifiers select, each once, and the same list for every order. *)
Theorem ListNetworks_exact (os : list op) order order' IDs :
  total_cost os < 2 ^ 63 - 1 →
  let b := run_all os New in
  order ≡ₚ (map_to_list (networks b)).*1 → order' ≡ₚ (map_to_list (networks b)).*1 →
  ∃ l, (ListNetworks order IDs b).2 = Ok l ∧ (ListNetworks order' IDs b).2 = Ok l ∧ NoDup l ∧
    ∀ n, n ∈ l ↔ (GetNetwork (Net_ID n) b).2 = Ok n ∧ (IDs = [] ∨ Net_ID n ∈ IDs).
Proof.
  intros Hn b Ho Ho'. destruct (run_all_comp_inv os New 0 New_comp_inv) as [Hb _]; [done|lia|]. fold b in Hb.
  destruct (ci_networks b Hb) as [_ Hids]. eexists. split; [reflexivity|].
  assert (∀ ord n, ord ≡ₚ (map_to_list (networks b)).*1 →
    n ∈ filter (λ n, wanted (wantedIDSet IDs) (Net_ID n) = true) (omap (λ k, networks b !! k) ord) ↔
    (GetNetwork (Net_ID n) b).2 = Ok n ∧ (IDs = [] ∨ Net_ID n ∈ IDs)) as Hin.
  { intros ord n Hord. rewrite list_elem_of_filter, elem_of_omap_lookup by done.
    rewrite (and_comm _ (∃ k, _)). f_equiv.
    - unfold GetNetwork. cbn. split.
      + intros [k Hk]. destruct (Hids _ _ Hk) as [-> _]. by rewrite Hk.
      + intros H. destruct (networks b !! Net_ID n) eqn:E; [|done]. exists (Net_ID n). by simplify_eq.
    - unfold wanted, wantedIDSet. rewrite orb_true_iff, !bool_decide_eq_true, elem_of_list_to_set.
      f_equiv. destruct IDs as [|x IDs]; [done|]. split; [|done]. set_solver. }
  split_and!.
  - unfold ListNetworks. cbn [snd]. f_equal. apply sort_by_unique.
    + unfold by_key. intros x y. apply ltb_asym.
    + intros x y z. exact (le_by_ltb_trans (Net_Name x) (Net_Name y) (Net_Name z)).
    + intros x y [Hx _]%(Hin _ _ Ho') [Hy _]%(Hin _ _ Ho) H1 H2.
      assert (Net_Name x = Net_Name y) as E by by apply le_by_ltb_antisym.
      unfold GetNetwork in *. cbn in *. destruct (networks b !! Net_ID x) eqn:Ex; [|done].
      destruct (networks b !! Net_ID y) eqn:Ey; [|done]. simplify_eq.
      pose proof (ci_net_names b Hb _ _ _ _ Ex Ey E) as Ei. rewrite Ei in Ex. congruence.
    + by rewrite (omap_lookup_values _ _ Ho), (omap_lookup_values _ _ Ho').
  - apply NoDup_sort_by, NoDup_filter. by apply (store_NoDup Net_ID "net" (netSeq b)); [apply Hb|].
  - intros n. rewrite elem_of_sort_by. by apply Hin.
Qed.

Lemma allocate_ipSeq (opts : list AllocatePublicIPOptions) b :
  0 <= ipSeq b → ipSeq b + 2 * Z.of_nat (length opts) < 2 ^ 63 →
  ipSeq (run_all (OpAllocatePublicIP <$> opts) b) = ipSeq b + 2 * Z.of_nat (length opts).
Proof.
  revert b. induction opts as [|o opts IH]; intros b H0 H1; [cbn; lia|]. rewrite length_cons in *.
  assert (ipSeq (run (OpAllocatePublicIP o) b) = ipSeq b + 2) as E.
  { cbn. unfold bump. rewrite !wrap_s_small; rewrite ?wrap_s_small; unfold in_s; lia. }
  change (run_all (OpAllocatePublicIP <$> o :: opts) b)
    with (run_all (OpAllocatePublicIP <$> opts) (run (OpAllocatePublicIP o) b)).
  rewrite IH; rewrite E; lia.
Qed.

(** Addresses repeat: the counter behind identifiers advances twice per
    allocation, so only every second address of the documentation range is
    given out, and after 127 allocations the next one gets the address of the
    first, which may still be allocated. *)
Theorem public_addresses_repeat b (o : AllocatePublicIPOptions) (opts : list AllocatePublicIPOptions) :
  0 <= ipSeq b → ipSeq b + 256 < 2 ^ 63 → length (o :: opts) = 127%nat →
  let b' := run_all (OpAllocatePublicIP <$> o :: opts) b in
  ∀ o' : AllocatePublicIPOptions, ∃ ip ip', (AllocatePublicIP o b).2 = Ok ip ∧ (AllocatePublicIP o' b').2 = Ok ip' ∧
    IP_Address ip' = IP_Address ip ∧ IP_ID ip = nextID "eip" (ipSeq b + 1) ∧ IP_ID ip' = nextID "eip" (ipSeq b + 255).
Proof.
  intros H0 H1 Hl b' o'. assert (ipSeq b' = ipSeq b + 254) as E.
  { unfold b'. rewrite allocate_ipSeq; rewrite ?Hl; lia. }
  eexists _, _. split; [reflexivity|]. split; [reflexivity|]. cbn [IP_Address IP_ID]. rewrite E.
  unfold bump. rewrite !(wrap_s_small 64) by (unfold in_s; lia).
  split_and!; [|done|by rewrite <-Z.add_assoc]. do 3 f_equal.
  replace (ipSeq b + 254 + 1) with (ipSeq b + 1 + 1 * 254) by lia. rewrite Z.rem_add; lia.
Qed.

(** Termination can be undone: an instance that has been terminated is
    still in the backend, and [StartInstances] makes it run again, with
    everything it had. *)
Theorem terminated_instances_restart b id i :
  instances b !! id = Some i →
  let gone := (TerminateInstances [id] b).1 in
  instances gone !! id = Some (with_state i InstanceStateTerminated) ∧
  (StartInstances [id] gone).2 = Ok [with_state i InstanceStateRunning] ∧
  instances (StartInstances [id] gone).1 !! id = Some (with_state i InstanceStateRunning).
Proof.
  intros Hi. unfold TerminateInstances, StartInstances. cbn. rewrite Hi. cbn.
  rewrite lookup_insert_eq. cbn. by rewrite lookup_insert_eq.
Qed.

(** ** Witnesses *)

Definition sample_run : RunInstancesOptions := mkRunInstancesOptions "ami-1" "t3.micro" 1 2 "" "" [] "" "" None.
Definition sample_ops : list op :=
  [OpCreateNetwork "prod" (mkCreateNetworkOptions "10.0.0.0/16" None);
   OpCreateNetwork "dev" (mkCreateNetworkOptions "10.1.0.0/16" None);
   OpCreateSecurityGroup "web" (mkCreateSecurityGroupOptions "net-00000001" "" None);
   OpRunInstances sample_run; OpCreateVolume (mkCreateVolumeOptions 8 "" "" "" None)].

Lemma compute_well_formed_witness :
  comp_inv (run_all sample_ops New) ∧ size (instances (run_all sample_ops New)) = 2%nat.
Proof.
  split; [|by vm_compute]. apply (compute_well_formed sample_ops). by vm_compute.
Defined.

Lemma attachment_is_exclusive_witness :
  let b := run_all [OpTerminateInstances ["i-00000001"]] (AttachVolume "vol-00000001" "i-00000001" "" (run_all sample_ops New)).1 in
  AttachVolume "vol-00000001" "i-00000002" "" b = (b, Err (Sentinel ErrAlreadyExists)).
Proof.
  apply (attachment_is_exclusive sample_ops [OpTerminateInstances ["i-00000001"]] "vol-00000001" "i-00000001" ""
    (mkVolumeAttachment "vol-00000001" "i-00000001" "/dev/sdf" VolumeAttachmentStateAttached)).
  - by vm_compute.
  - vm_compute. reflexivity.
  - repeat constructor. by intros H.
Defined.

Lemma RunInstances_launches_witness :
  ∃ l, (RunInstances sample_run (run_all sample_ops New)).2 = Ok l ∧ Z.of_nat (length l) = 2.
Proof.
  destruct (RunInstances_launches sample_ops sample_run) as (_ & l & H1 & H2 & _).
  1: by vm_compute. 1,2: discriminate.
  exists l. split; [exact H1|exact H2].
Defined.

Definition sample_rule : SecurityGroupRule := mkRule "tcp" 443 443 ["10.0.0.0/8"] Inbound.
Lemma RemoveRule_removes_witness :
  let b := run_all (sample_ops ++ [OpAddRule "sg-00000001" sample_rule]) New in
  ∃ g, sgs b !! "sg-00000001" = Some g ∧ SG_Rules g = [sample_rule] ∧
    (RemoveRule "sg-00000001" sample_rule b).2 = Ok ().
Proof.
  intros b. eexists. split; [vm_compute; reflexivity|]. split; [done|].
  eapply (RemoveRule_removes b "sg-00000001" _ sample_rule); [vm_compute; reflexivity|apply NoDup_singleton].
Defined.

Lemma ListNetworks_exact_witness :
  ∃ l, (ListNetworks ["net-00000001"; "net-00000002"] [] (run_all sample_ops New)).2 = Ok l ∧ Net_Name <$> l = ["dev"; "prod"].
Proof.
  destruct (ListNetworks_exact sample_ops ["net-00000001"; "net-00000002"] ["net-00000002"; "net-00000001"] [])
    as (l & H & _).
  - by vm_compute.
  - assert ((map_to_list (networks (run_all sample_ops New))).*1 = ["net-00000001"; "net-00000002"]) as -> by (by vm_compute).
    reflexivity.
  - assert ((map_to_list (networks (run_all sample_ops New))).*1 = ["net-00000001"; "net-00000002"]) as -> by (by vm_compute).
    apply Permutation_swap.
  - exists l. split; [exact H|]. vm_compute in H. injection H as <-. reflexivity.
Defined.

Lemma public_addresses_repeat_witness :
  let o := mkAllocatePublicIPOptions "" "" None in
  ∃ ip ip', (AllocatePublicIP o New).2 = Ok ip ∧
    (AllocatePublicIP o (run_all (OpAllocatePublicIP <$> replicate 127 o) New)).2 = Ok ip' ∧ IP_Address ip' = IP_Address ip.
Proof.
  intros o. destruct (public_addresses_repeat New o (replicate 126 o)) with (o' := o) as (ip & ip' & H1 & H2 & H3 & _).
  1,2: by vm_compute. 1: by rewrite length_cons, length_replicate.
  exists ip, ip'. split; [exact H1|]. split; [exact H2|exact H3].
Defined.

Lemma terminated_instances_restart_witness :
  let gone := (TerminateInstances ["i-00000001"] (run_all sample_ops New)).1 in
  ∃ i, (StartInstances ["i-00000001"] gone).2 = Ok [i].
Proof.
  eexists. apply (terminated_instances_restart (run_all sample_ops New) "i-00000001" (new_instance sample_run 0)).
  by vm_compute.
Defined.
