(* ===== verification/LoadBalancer.v ===== *)
(** * Load balancers: domain types, errors and the in-process backend

    Models [internal/loadbalancer/domain] and
    [services/loadbalancer/backends/inmem].  The range order of the listing
    loops is the argument [order], a list of the map's keys: the loops collect
    in that order and sort, which leaves elements with equal keys in any order.
    Slices and tag maps are modelled by their values: the backend replaces or
    appends to them but never writes into one that it has handed out. *)

From S2P Require Import Prelude GoStrings GoBytes Stores.

(** ** domain.go *)

Inductive sentinel := ErrNotFound | ErrAlreadyExists | ErrInvalidInput | ErrNotSupported.
#[export] Instance sentinel_eq_dec : EqDecision sentinel.
Proof. solve_decision. Defined.

Inductive arg := AStr (s : string) | AInt (z : Z).

(** A sentinel, or [fmt.Errorf] with a format, its arguments and what [%w] wraps. *)
Inductive error :=
  | Sentinel (s : sentinel)
  | Errorf (format : string) (args : list arg) (wraps : error).
Fixpoint errors_Is (e : error) (s : sentinel) : bool :=
  match e with
  | Sentinel s' => bool_decide (s' = s)
  | Errorf _ _ w => errors_Is w s
  end.
(** [Quote] is the %q verb. *)
Definition sentinel_text (s : sentinel) : string :=
  match s with
  | ErrNotFound => "not found" | ErrAlreadyExists => "already exists" | ErrInvalidInput => "invalid input"
  | ErrNotSupported => "operation not supported on this backend"
  end.
Definition arg_text (a : arg) : string := match a with AStr s => s | AInt z => Itoa z end.
Fixpoint Error_text (Quote : string → string) (e : error) : string :=
  match e with
  | Sentinel s => sentinel_text s
  | Errorf format args w => Sprintf Quote (Error_text Quote w) (arg_text <$> args) format
  end.
Definition IsNotFound (e : error) : bool := errors_Is e ErrNotFound.
Definition IsAlreadyExists (e : error) : bool := errors_Is e ErrAlreadyExists.
Definition IsNotSupported (e : error) : bool := errors_Is e ErrNotSupported.

Abbreviation result := (outcome error).

(** Protocols, types and states are strings. *)
Definition ProtocolTCP := "TCP".
Definition ProtocolUDP := "UDP".
Definition ProtocolHTTP := "HTTP".
Definition ProtocolHTTPS := "HTTPS".
Definition LoadBalancerTypeNetwork := "network".
Definition LoadBalancerTypeApplication := "application".
Definition LoadBalancerStateActive := "active".
Definition LoadBalancerStateProvisioning := "provisioning".
Definition RuleConditionHostHeader := "host-header".
Definition RuleConditionPathPattern := "path-pattern".

Record LoadBalancer := mkLoadBalancer {
  LB_ID : string; LB_Name : string; LB_Type : string; LB_DNSName : string; LB_State : string;
  LB_VpcID : string; LB_Tags : strmap }.
Record CreateLoadBalancerOptions := mkCreateLoadBalancerOptions {
  clb_Type : string; clb_VpcID : string; clb_Tags : strmap }.
Record ListLoadBalancersOptions := mkListLoadBalancersOptions { llb_IDs : list string; llb_Names : list string }.
Record ListLoadBalancersResult := mkListLoadBalancersResult {
  llr_LoadBalancers : list LoadBalancer; llr_NextToken : string }.
Record HealthCheck := mkHealthCheck {
  HC_Protocol : string; HC_Path : string; HC_Port : string; HC_HTTPCodes : string }.
Record Target := mkTarget { Target_ID : string; Target_Port : Z }.
Record TargetGroup := mkTargetGroup {
  TG_ID : string; TG_Name : string; TG_Protocol : string; TG_Port : Z; TG_VpcID : string;
  TG_Targets : list Target; TG_HealthCheck : HealthCheck; TG_Tags : strmap }.
Record CreateTargetGroupOptions := mkCreateTargetGroupOptions {
  ctg_Protocol : string; ctg_Port : Z; ctg_VpcID : string; ctg_HealthCheck : HealthCheck; ctg_Tags : strmap }.
Record ListTargetGroupsOptions := mkListTargetGroupsOptions { ltg_IDs : list string }.
Record ListTargetGroupsResult := mkListTargetGroupsResult {
  ltr_TargetGroups : list TargetGroup; ltr_NextToken : string }.
Record Listener := mkListener {
  Lsn_ID : string; Lsn_LoadBalancerID : string; Lsn_Protocol : string; Lsn_Port : Z;
  Lsn_TargetGroupID : string; Lsn_CertificateIDs : list string; Lsn_Tags : strmap }.
Record CreateListenerOptions := mkCreateListenerOptions {
  cl_LoadBalancerID : string; cl_Protocol : string; cl_Port : Z; cl_TargetGroupID : string;
  cl_CertificateIDs : list string; cl_Tags : strmap }.
Record ListListenersOptions := mkListListenersOptions { ll_LoadBalancerID : string; ll_IDs : list string }.
Record ListListenersResult := mkListListenersResult { llsr_Listeners : list Listener; llsr_NextToken : string }.
Record RuleCondition := mkRuleCondition { RC_Type : string; RC_Values : list string }.
Record RuleAction := mkRuleAction { RA_TargetGroupID : string }.
Record Rule := mkRule {
  Rule_ID : string; Rule_ListenerID : string; Rule_Priority : Z; Rule_Conditions : list RuleCondition;
  Rule_Action : RuleAction; Rule_Tags : strmap }.
Record CreateRuleOptions := mkCreateRuleOptions {
  cru_ListenerID : string; cru_Priority : Z; cru_Conditions : list RuleCondition; cru_Action : RuleAction;
  cru_Tags : strmap }.
Record ListRulesOptions := mkListRulesOptions { lru_ListenerID : string; lru_IDs : list string }.
Record ListRulesResult := mkListRulesResult { lrr_Rules : list Rule; lrr_NextToken : string }.
Record UpdateTargetGroupOptions := mkUpdateTargetGroupOptions { utg_HealthCheck : HealthCheck }.
(** A nil slice leaves the field; an empty one replaces it. *)
Record UpdateListenerOptions := mkUpdateListenerOptions {
  ul_Protocol : string; ul_Port : Z; ul_TargetGroupID : string; ul_CertificateIDs : option (list string) }.
Record UpdateRuleOptions := mkUpdateRuleOptions {
  uru_Conditions : option (list RuleCondition); uru_Action : RuleAction }.
Record RulePriorityPair := mkRulePriorityPair { rpp_ID : string; rpp_Priority : Z }.
Record BlobEntry := mkBlobEntry { BE_Name : string; BE_Data : bytes }.

(** ** inmem.go: state *)

Record Backend := mkBackend {
  lbs : gmap string LoadBalancer; tgs : gmap string TargetGroup; lsns : gmap string Listener;
  rules : gmap string Rule; blobs : gmap string (gmap string bytes);
  lbSeq : Z; tgSeq : Z; lsnSeq : Z; ruleSeq : Z }.

Definition New : Backend := mkBackend ∅ ∅ ∅ ∅ ∅ 0 0 0 0.

(** The identifier of the next sequence number. *)
Definition nextID (prefix : string) (seq : Z) : string := prefix +:+ "-" +:+ fmt_08d (wrap_s 64 (seq + 1)).

Definition copyTags (m : strmap) : strmap :=
  match m with
  | None => None
  | Some m => if decide (m = ∅) then None else Some (put_all m ∅)
  end.

Definition set_lbs (b : Backend) (m : gmap string LoadBalancer) (s : Z) : Backend :=
  mkBackend m (tgs b) (lsns b) (rules b) (blobs b) s (tgSeq b) (lsnSeq b) (ruleSeq b).
Definition set_tgs (b : Backend) (m : gmap string TargetGroup) (s : Z) : Backend :=
  mkBackend (lbs b) m (lsns b) (rules b) (blobs b) (lbSeq b) s (lsnSeq b) (ruleSeq b).
Definition set_lsns (b : Backend) (m : gmap string Listener) (s : Z) : Backend :=
  mkBackend (lbs b) (tgs b) m (rules b) (blobs b) (lbSeq b) (tgSeq b) s (ruleSeq b).
Definition set_rules (b : Backend) (m : gmap string Rule) (s : Z) : Backend :=
  mkBackend (lbs b) (tgs b) (lsns b) m (blobs b) (lbSeq b) (tgSeq b) (lsnSeq b) s.
Definition set_blobs (b : Backend) (m : gmap string (gmap string bytes)) : Backend :=
  mkBackend (lbs b) (tgs b) (lsns b) (rules b) m (lbSeq b) (tgSeq b) (lsnSeq b) (ruleSeq b).

(** [for _, x := range m { if p(x) { return ... } }] *)
Definition exists_in {V} (p : V → bool) (m : gmap string V) : bool := existsb p (map_to_list m).*2.
(** [len(set) > 0 && !set[x]] is negated by [allowed]. *)
Definition allowed (set : list string) (x : string) : bool :=
  bool_decide (set = []) || bool_decide (x ∈ set).

Definition lb_not_found (id : string) : error := Errorf "load balancer %q: %w" [AStr id] (Sentinel ErrNotFound).
Definition tg_not_found (id : string) : error := Errorf "target group %q: %w" [AStr id] (Sentinel ErrNotFound).
Definition lsn_not_found (id : string) : error := Errorf "listener %q: %w" [AStr id] (Sentinel ErrNotFound).
Definition rule_not_found (id : string) : error := Errorf "rule %q: %w" [AStr id] (Sentinel ErrNotFound).
Definition blob_not_found (kind name : string) : error :=
  Errorf "%s %q: %w" [AStr kind; AStr name] (Sentinel ErrNotFound).

(** ** Load balancers *)

Definition or_default (s d : string) : string := if String.eqb s "" then d else s.

Definition CreateLoadBalancer (name : string) (opt : CreateLoadBalancerOptions) (b : Backend)
    : Backend * result LoadBalancer :=
  if exists_in (λ lb, String.eqb (LB_Name lb) name) (lbs b)
  then (b, Err (Errorf "load balancer %q: %w" [AStr name] (Sentinel ErrAlreadyExists)))
  else
    let lb := mkLoadBalancer (nextID "lb" (lbSeq b)) name (or_default (clb_Type opt) LoadBalancerTypeNetwork)
                (name +:+ ".elb.us-east-1.amazonaws.com") LoadBalancerStateActive (clb_VpcID opt)
                (copyTags (clb_Tags opt)) in
    (set_lbs b (<[LB_ID lb := lb]> (lbs b)) (wrap_s 64 (lbSeq b + 1)), Ok lb).

Definition GetLoadBalancer (id : string) (b : Backend) : Backend * result LoadBalancer :=
  (b, match lbs b !! id with Some lb => Ok lb | None => Err (lb_not_found id) end).

Definition ListLoadBalancers (order : list string) (opt : ListLoadBalancersOptions) (b : Backend)
    : Backend * result ListLoadBalancersResult :=
  let out := filter (λ lb, allowed (llb_IDs opt) (LB_ID lb) && allowed (llb_Names opt) (LB_Name lb) = true)
               (omap (λ k, lbs b !! k) order) in
  (b, Ok (mkListLoadBalancersResult (sort_by (λ x y, String.ltb (LB_Name x) (LB_Name y)) out) "")).

Definition DeleteLoadBalancer (id : string) (b : Backend) : Backend * result unit :=
  match lbs b !! id with
  | None => (b, Err (lb_not_found id))
  | Some _ => (set_lbs b (delete id (lbs b)) (lbSeq b), Ok ())
  end.

(** ** Target groups *)

Definition CreateTargetGroup (name : string) (opt : CreateTargetGroupOptions) (b : Backend)
    : Backend * result TargetGroup :=
  if exists_in (λ tg, String.eqb (TG_Name tg) name) (tgs b)
  then (b, Err (Errorf "target group %q: %w" [AStr name] (Sentinel ErrAlreadyExists)))
  else
    let tg := mkTargetGroup (nextID "tg" (tgSeq b)) name (or_default (ctg_Protocol opt) ProtocolTCP)
                (ctg_Port opt) (ctg_VpcID opt) [] (ctg_HealthCheck opt) (copyTags (ctg_Tags opt)) in
    (set_tgs b (<[TG_ID tg := tg]> (tgs b)) (wrap_s 64 (tgSeq b + 1)), Ok tg).

Definition GetTargetGroup (id : string) (b : Backend) : Backend * result TargetGroup :=
  (b, match tgs b !! id with Some tg => Ok tg | None => Err (tg_not_found id) end).

Definition ListTargetGroups (order : list string) (opt : ListTargetGroupsOptions) (b : Backend)
    : Backend * result ListTargetGroupsResult :=
  let out := filter (λ tg, allowed (ltg_IDs opt) (TG_ID tg) = true) (omap (λ k, tgs b !! k) order) in
  (b, Ok (mkListTargetGroupsResult (sort_by (λ x y, String.ltb (TG_Name x) (TG_Name y)) out) "")).

Definition DeleteTargetGroup (id : string) (b : Backend) : Backend * result unit :=
  match tgs b !! id with
  | None => (b, Err (tg_not_found id))
  | Some _ => (set_tgs b (delete id (tgs b)) (tgSeq b), Ok ())
  end.

Definition with_targets (tg : TargetGroup) (ts : list Target) : TargetGroup :=
  mkTargetGroup (TG_ID tg) (TG_Name tg) (TG_Protocol tg) (TG_Port tg) (TG_VpcID tg) ts (TG_HealthCheck tg) (TG_Tags tg).
Definition set_tg (b : Backend) (id : string) (tg : TargetGroup) : Backend :=
  set_tgs b (<[id := tg]> (tgs b)) (tgSeq b).

(** The loop of [RegisterTargets], with the set [existing]. *)
Fixpoint register_loop (targets : list Target) (existing : gset string) (out : list Target) : list Target :=
  match targets with
  | [] => out
  | t :: ts =>
      if bool_decide (Target_ID t ∈ existing) then register_loop ts existing out
      else register_loop ts ({[Target_ID t]} ∪ existing) (out ++ [t])
  end.

Definition RegisterTargets (id : string) (targets : list Target) (b : Backend) : Backend * result unit :=
  match tgs b !! id with
  | None => (b, Err (tg_not_found id))
  | Some tg =>
      (set_tg b id (with_targets tg
         (register_loop targets (list_to_set (Target_ID <$> TG_Targets tg)) (TG_Targets tg))), Ok ())
  end.

Definition DeregisterTargets (id : string) (targets : list Target) (b : Backend) : Backend * result unit :=
  match tgs b !! id with
  | None => (b, Err (tg_not_found id))
  | Some tg =>
      (set_tg b id (with_targets tg (filter (λ t, Target_ID t ∉ Target_ID <$> targets) (TG_Targets tg))), Ok ())
  end.

(** ** Listeners *)

Definition CreateListener (opt : CreateListenerOptions) (b : Backend) : Backend * result Listener :=
  match lbs b !! cl_LoadBalancerID opt with
  | None => (b, Err (lb_not_found (cl_LoadBalancerID opt)))
  | Some _ =>
      let l := mkListener (nextID "lsn" (lsnSeq b)) (cl_LoadBalancerID opt) (or_default (cl_Protocol opt) ProtocolTCP)
                 (cl_Port opt) (cl_TargetGroupID opt) (cl_CertificateIDs opt) (copyTags (cl_Tags opt)) in
      (set_lsns b (<[Lsn_ID l := l]> (lsns b)) (wrap_s 64 (lsnSeq b + 1)), Ok l)
  end.

Definition GetListener (id : string) (b : Backend) : Backend * result Listener :=
  (b, match lsns b !! id with Some l => Ok l | None => Err (lsn_not_found id) end).

Definition ListListeners (order : list string) (opt : ListListenersOptions) (b : Backend)
    : Backend * result ListListenersResult :=
  let out := filter (λ l, (String.eqb (ll_LoadBalancerID opt) "" ||
                           String.eqb (Lsn_LoadBalancerID l) (ll_LoadBalancerID opt)) &&
                          allowed (ll_IDs opt) (Lsn_ID l) = true)
               (omap (λ k, lsns b !! k) order) in
  (b, Ok (mkListListenersResult (sort_by (λ x y, String.ltb (Lsn_ID x) (Lsn_ID y)) out) "")).

Definition DeleteListener (id : string) (b : Backend) : Backend * result unit :=
  match lsns b !! id with
  | None => (b, Err (lsn_not_found id))
  | Some _ => (set_lsns b (delete id (lsns b)) (lsnSeq b), Ok ())
  end.

(** ** Rules *)

Definition copyConditions (cs : list RuleCondition) : list RuleCondition :=
  map (λ c, mkRuleCondition (RC_Type c) (map (λ v, v) (RC_Values c))) cs.

Definition CreateRule (opt : CreateRuleOptions) (b : Backend) : Backend * result Rule :=
  match lsns b !! cru_ListenerID opt with
  | None => (b, Err (lsn_not_found (cru_ListenerID opt)))
  | Some _ =>
      if exists_in (λ r, String.eqb (Rule_ListenerID r) (cru_ListenerID opt) && (Rule_Priority r =? cru_Priority opt))
           (rules b)
      then (b, Err (Errorf "rule priority %d on listener %q: %w" [AInt (cru_Priority opt); AStr (cru_ListenerID opt)]
                      (Sentinel ErrAlreadyExists)))
      else
        let r := mkRule (nextID "rule" (ruleSeq b)) (cru_ListenerID opt) (cru_Priority opt)
                   (copyConditions (cru_Conditions opt)) (cru_Action opt) (copyTags (cru_Tags opt)) in
        (set_rules b (<[Rule_ID r := r]> (rules b)) (wrap_s 64 (ruleSeq b + 1)), Ok r)
  end.

Definition GetRule (id : string) (b : Backend) : Backend * result Rule :=
  (b, match rules b !! id with Some r => Ok r | None => Err (rule_not_found id) end).

Definition rule_listed (opt : ListRulesOptions) (r : Rule) : bool :=
  (String.eqb (lru_ListenerID opt) "" || String.eqb (Rule_ListenerID r) (lru_ListenerID opt)) &&
  allowed (lru_IDs opt) (Rule_ID r).

Definition ListRules (order : list string) (opt : ListRulesOptions) (b : Backend) : Backend * result ListRulesResult :=
  let out := filter (λ r, rule_listed opt r = true) (omap (λ k, rules b !! k) order) in
  (b, Ok (mkListRulesResult (sort_by (λ x y, Rule_Priority x <? Rule_Priority y) out) "")).

Definition DeleteRule (id : string) (b : Backend) : Backend * result unit :=
  match rules b !! id with
  | None => (b, Err (rule_not_found id))
  | Some _ => (set_rules b (delete id (rules b)) (ruleSeq b), Ok ())
  end.

(** ** Modify operations *)

Definition UpdateTargetGroup (id : string) (opt : UpdateTargetGroupOptions) (b : Backend)
    : Backend * result TargetGroup :=
  match tgs b !! id with
  | None => (b, Err (tg_not_found id))
  | Some tg =>
      let tg := mkTargetGroup (TG_ID tg) (TG_Name tg) (TG_Protocol tg) (TG_Port tg) (TG_VpcID tg) (TG_Targets tg)
                  (utg_HealthCheck opt) (TG_Tags tg) in
      (set_tg b id tg, Ok tg)
  end.

Definition UpdateListener (id : string) (opt : UpdateListenerOptions) (b : Backend) : Backend * result Listener :=
  match lsns b !! id with
  | None => (b, Err (lsn_not_found id))
  | Some l =>
      let l := mkListener (Lsn_ID l) (Lsn_LoadBalancerID l) (or_default (ul_Protocol opt) (Lsn_Protocol l))
                 (if ul_Port opt =? 0 then Lsn_Port l else ul_Port opt)
                 (or_default (ul_TargetGroupID opt) (Lsn_TargetGroupID l))
                 (default (Lsn_CertificateIDs l) (ul_CertificateIDs opt)) (Lsn_Tags l) in
      (set_lsns b (<[id := l]> (lsns b)) (lsnSeq b), Ok l)
  end.

Definition set_rule (b : Backend) (id : string) (r : Rule) : Backend :=
  set_rules b (<[id := r]> (rules b)) (ruleSeq b).

Definition UpdateRule (id : string) (opt : UpdateRuleOptions) (b : Backend) : Backend * result Rule :=
  match rules b !! id with
  | None => (b, Err (rule_not_found id))
  | Some r =>
      let r := mkRule (Rule_ID r) (Rule_ListenerID r) (Rule_Priority r)
                 (match uru_Conditions opt with Some cs => copyConditions cs | None => Rule_Conditions r end)
                 (if String.eqb (RA_TargetGroupID (uru_Action opt)) "" then Rule_Action r else uru_Action opt)
                 (Rule_Tags r) in
      (set_rule b id r, Ok r)
  end.

Definition with_priority (r : Rule) (p : Z) : Rule :=
  mkRule (Rule_ID r) (Rule_ListenerID r) p (Rule_Conditions r) (Rule_Action r) (Rule_Tags r).

(** The first loop of [SetRulePriorities]: what is already set stays set when a
    rule is missing. *)
Fixpoint set_priorities (pairs : list RulePriorityPair) (b : Backend) : Backend * result unit :=
  match pairs with
  | [] => (b, Ok ())
  | p :: ps =>
      match rules b !! rpp_ID p with
      | None => (b, Err (rule_not_found (rpp_ID p)))
      | Some r => set_priorities ps (set_rule b (rpp_ID p) (with_priority r (rpp_Priority p)))
      end
  end.

(** [*b.rules[p.ID]] panics on nil. *)
Fixpoint collect_rules (pairs : list RulePriorityPair) (b : Backend) : result (list Rule) :=
  match pairs with
  | [] => Ok []
  | p :: ps =>
      match rules b !! rpp_ID p with
      | None => Panic
      | Some r => let? rs := collect_rules ps b in Ok (r :: rs)
      end
  end.

Definition SetRulePriorities (pairs : list RulePriorityPair) (b : Backend) : Backend * result (list Rule) :=
  let '(b, r) := set_priorities pairs b in
  (b, let? _ := r in collect_rules pairs b).

(** ** Blobs *)

Definition PutBlob (kind name : string) (data : bytes) (b : Backend) : Backend * result unit :=
  let ns := default ∅ (blobs b !! kind) in
  (set_blobs b (<[kind := <[name := map (λ x, x) data]> ns]> (blobs b)), Ok ()).

Definition GetBlob (kind name : string) (b : Backend) : Backend * result bytes :=
  (b, match default ∅ (blobs b !! kind) !! name with
      | None => Err (blob_not_found kind name)
      | Some d => Ok (map (λ x, x) d)
      end).

Definition ListBlobs (order : list string) (kind : string) (b : Backend) : Backend * result (list BlobEntry) :=
  let ns := default ∅ (blobs b !! kind) in
  let out := omap (λ n, (λ d, mkBlobEntry n (map (λ x, x) d)) <$> ns !! n) order in
  (b, Ok (sort_by (λ x y, String.ltb (BE_Name x) (BE_Name y)) out)).

Definition DeleteBlob (kind name : string) (b : Backend) : Backend * result unit :=
  match blobs b !! kind with
  | None => (b, Err (blob_not_found kind name))
  | Some ns =>
      match ns !! name with
      | None => (b, Err (blob_not_found kind name))
      | Some _ => (set_blobs b (<[kind := delete name ns]> (blobs b)), Ok ())
      end
  end.

(** * Load balancers: properties of the in-process backend

    Identifiers are fresh, names and targets are unique, and rule priorities are
    unique per listener as long as nobody reorders them; reordering is neither
    checked nor atomic. *)

(** ** Operations as steps *)

Inductive op :=
  | OpCreateLoadBalancer (name : string) (opt : CreateLoadBalancerOptions)
  | OpDeleteLoadBalancer (id : string)
  | OpCreateTargetGroup (name : string) (opt : CreateTargetGroupOptions)
  | OpDeleteTargetGroup (id : string)
  | OpRegisterTargets (id : string) (ts : list Target)
  | OpDeregisterTargets (id : string) (ts : list Target)
  | OpCreateListener (opt : CreateListenerOptions)
  | OpDeleteListener (id : string)
  | OpCreateRule (opt : CreateRuleOptions)
  | OpDeleteRule (id : string)
  | OpUpdateTargetGroup (id : string) (opt : UpdateTargetGroupOptions)
  | OpUpdateListener (id : string) (opt : UpdateListenerOptions)
  | OpUpdateRule (id : string) (opt : UpdateRuleOptions)
  | OpSetRulePriorities (pairs : list RulePriorityPair)
  | OpPutBlob (kind name : string) (data : bytes)
  | OpDeleteBlob (kind name : string).

(** The operations that change the state. *)
Definition run (o : op) (b : Backend) : Backend :=
  match o with
  | OpCreateLoadBalancer n opt => (CreateLoadBalancer n opt b).1
  | OpDeleteLoadBalancer i => (DeleteLoadBalancer i b).1
  | OpCreateTargetGroup n opt => (CreateTargetGroup n opt b).1
  | OpDeleteTargetGroup i => (DeleteTargetGroup i b).1
  | OpRegisterTargets i ts => (RegisterTargets i ts b).1
  | OpDeregisterTargets i ts => (DeregisterTargets i ts b).1
  | OpCreateListener opt => (CreateListener opt b).1
  | OpDeleteListener i => (DeleteListener i b).1
  | OpCreateRule opt => (CreateRule opt b).1
  | OpDeleteRule i => (DeleteRule i b).1
  | OpUpdateTargetGroup i opt => (UpdateTargetGroup i opt b).1
  | OpUpdateListener i opt => (UpdateListener i opt b).1
  | OpUpdateRule i opt => (UpdateRule i opt b).1
  | OpSetRulePriorities ps => (SetRulePriorities ps b).1
  | OpPutBlob k n d => (PutBlob k n d b).1
  | OpDeleteBlob k n => (DeleteBlob k n b).1
  end.
Definition run_all (os : list op) (b : Backend) : Backend := fold_left (λ b o, run o b) os b.

(** ** The invariant *)

(** Where a rule is in its listener. *)
Definition slot (r : Rule) : string * Z := (Rule_ListenerID r, Rule_Priority r).

Record lb_inv (b : Backend) : Prop := {
  li_lbs : store_ok LB_ID "lb" (lbSeq b) (lbs b);
  li_tgs : store_ok TG_ID "tg" (tgSeq b) (tgs b);
  li_lsns : store_ok Lsn_ID "lsn" (lsnSeq b) (lsns b);
  li_rules : store_ok Rule_ID "rule" (ruleSeq b) (rules b);
  li_lb_names : unique_by LB_Name (lbs b);
  li_tg_names : unique_by TG_Name (tgs b);
  li_targets : map_Forall (λ _ tg, NoDup (Target_ID <$> TG_Targets tg)) (tgs b) }.

(** No sequence number has come near the end of its range. *)
Definition seqs_below (n : Z) (b : Backend) : Prop := lbSeq b <= n ∧ tgSeq b <= n ∧ lsnSeq b <= n ∧ ruleSeq b <= n.

Lemma register_loop_NoDup ts existing out :
  NoDup (Target_ID <$> out) → (∀ x, x ∈ Target_ID <$> out → x ∈ existing) →
  NoDup (Target_ID <$> register_loop ts existing out).
Proof.
  revert existing out. induction ts as [|t ts IH]; intros existing out Hnd Hin; cbn; [done|].
  case_bool_decide as Ht; [by apply IH|]. apply IH; rewrite fmap_app; cbn.
  - apply NoDup_app. split; [done|]. split; [|apply NoDup_singleton]. set_solver.
  - set_solver.
Qed.

Lemma set_priorities_frame ps b :
  let b' := (set_priorities ps b).1 in
  lbs b' = lbs b ∧ tgs b' = tgs b ∧ lsns b' = lsns b ∧ ruleSeq b' = ruleSeq b ∧
  lbSeq b' = lbSeq b ∧ tgSeq b' = tgSeq b ∧ lsnSeq b' = lsnSeq b ∧
  (store_ok Rule_ID "rule" (ruleSeq b) (rules b) → store_ok Rule_ID "rule" (ruleSeq b) (rules b')).
Proof.
  revert b. induction ps as [|p ps IH]; intros b; cbn; [done|].
  destruct (rules b !! rpp_ID p) as [r|] eqn:E; [|done].
  destruct (IH (set_rule b (rpp_ID p) (with_priority r (rpp_Priority p)))) as (E1 & E2 & E3 & E4 & E5 & E6 & E7 & H).
  split_and!; [done..|]. intros Hr. apply H. cbn. by eapply store_update.
Qed.

Lemma SetRulePriorities_state ps b : (SetRulePriorities ps b).1 = (set_priorities ps b).1.
Proof. unfold SetRulePriorities. by destruct (set_priorities ps b). Qed.

Lemma run_lb_inv o b n : lb_inv b → seqs_below n b → n < 2 ^ 63 - 1 → lb_inv (run o b) ∧ seqs_below (n + 1) (run o b).
Proof.
  intros Hb (S1 & S2 & S3 & S4) Hn.
  assert (seqs_below (n + 1) b) as Sb by (unfold seqs_below; lia).
  destruct (Hb) as [H1 H2 H3 H4 H5 H6 H7].
  assert (∀ s, 0 <= s <= n → wrap_s 64 (s + 1) = s + 1) as Hw by (intros; apply wrap_s_small; unfold in_s; lia).
  destruct o; cbn [run].
  - unfold CreateLoadBalancer. destruct (exists_in _ _) eqn:E; [done|]. cbn. destruct (H1) as [? _]. split.
    + split; cbn; try done; [apply store_create; [done|lia|done]|].
      apply unique_insert_new; [done|]. intros i x Hi. pose proof (exists_in_false _ _ E i x Hi) as Hx.
      cbn in *. by apply String.eqb_neq in Hx.
    + unfold seqs_below. cbn. rewrite Hw; lia.
  - unfold DeleteLoadBalancer. case_match; [|done]. split; [|done].
    split; cbn; try done; [by apply store_delete|by apply unique_delete].
  - unfold CreateTargetGroup. destruct (exists_in _ _) eqn:E; [done|]. cbn. destruct (H2) as [? _]. split.
    + split; cbn; try done; [apply store_create; [done|lia|done]| |].
      * apply unique_insert_new; [done|]. intros i x Hi. pose proof (exists_in_false _ _ E i x Hi) as Hx.
        cbn in *. by apply String.eqb_neq in Hx.
      * apply map_Forall_insert_2; [apply NoDup_nil_2|done].
    + unfold seqs_below. cbn. rewrite Hw; lia.
  - unfold DeleteTargetGroup. case_match; [|done]. split; [|done].
    split; cbn; try done; [by apply store_delete|by apply unique_delete|by apply map_Forall_delete].
  - unfold RegisterTargets. destruct (tgs b !! id) as [tg|] eqn:E; [|done]. split; [|done].
    split; cbn; try done; [by eapply store_update|by eapply unique_update|].
    apply map_Forall_insert_2; [|done]. cbn. apply register_loop_NoDup; [by apply (H7 id)|]. set_solver.
  - unfold DeregisterTargets. destruct (tgs b !! id) as [tg|] eqn:E; [|done]. split; [|done].
    split; cbn; try done; [by eapply store_update|by eapply unique_update|].
    apply map_Forall_insert_2; [|done]. cbn. eapply sublist_NoDup; [by apply (H7 id)|].
    apply fmap_sublist, sublist_filter.
  - unfold CreateListener. case_match; [|done]. destruct (H3) as [? _]. split.
    + split; cbn; try done. apply store_create; [done|lia|done].
    + unfold seqs_below. cbn. rewrite Hw; lia.
  - unfold DeleteListener. case_match; [|done]. split; [|done]. split; cbn; try done. by apply store_delete.
  - unfold CreateRule. case_match; [|done]. case_match; [done|]. destruct (H4) as [? _]. split.
    + split; cbn; try done. apply store_create; [done|lia|done].
    + unfold seqs_below. cbn. rewrite Hw; lia.
  - unfold DeleteRule. case_match; [|done]. split; [|done]. split; cbn; try done. by apply store_delete.
  - unfold UpdateTargetGroup. destruct (tgs b !! id) as [tg|] eqn:E; [|done]. split; [|done].
    split; cbn; try done; [by eapply store_update|by eapply unique_update|].
    apply map_Forall_insert_2; [|done]. exact (H7 id _ E).
  - unfold UpdateListener. destruct (lsns b !! id) as [l|] eqn:E; [|done]. split; [|done].
    split; cbn; try done. by eapply store_update.
  - unfold UpdateRule. destruct (rules b !! id) as [r|] eqn:E; [|done]. split; [|done].
    split; cbn; try done. by eapply store_update.
  - rewrite SetRulePriorities_state. destruct (set_priorities_frame pairs b) as (E1 & E2 & E3 & E4 & E5 & E6 & E7 & Hr).
    split.
    + split; rewrite ?E1, ?E2, ?E3, ?E4, ?E5, ?E6, ?E7; try done. by apply Hr.
    + unfold seqs_below. rewrite E4, E5, E6, E7. lia.
  - done.
  - unfold DeleteBlob. by repeat case_match.
Qed.

Lemma run_all_lb_inv os b n :
  lb_inv b → seqs_below n b → n + Z.of_nat (length os) < 2 ^ 63 - 1 → lb_inv (run_all os b).
Proof.
  revert b n. induction os as [|o os IH]; intros b n Hb Hs Hn; [done|]. cbn [length] in Hn. cbn.
  destruct (run_lb_inv o b n Hb Hs ltac:(lia)) as [Hb' Hs']. apply (IH _ (n + 1)); [done|done|lia].
Qed.

Lemma New_lb_inv : lb_inv New.
Proof. split; try (split; [done|apply map_Forall_empty]); try apply map_Forall_empty; intros i j x y H; cbn in H; by rewrite lookup_empty in H. Qed.

Definition reorders (o : op) : Prop := match o with OpSetRulePriorities _ => True | _ => False end.

Lemma run_slots o b : ¬ reorders o → unique_by slot (rules b) → unique_by slot (rules (run o b)).
Proof.
  intros Ho Hu. destruct o; cbn [run]; try done.
  1: unfold CreateLoadBalancer; by case_match.
  1: unfold DeleteLoadBalancer; by case_match.
  1: unfold CreateTargetGroup; by case_match.
  1: unfold DeleteTargetGroup; by case_match.
  1: unfold RegisterTargets; by case_match.
  1: unfold DeregisterTargets; by case_match.
  1: unfold CreateListener; by case_match.
  1: unfold DeleteListener; by case_match.
  - unfold CreateRule. case_match; [|done]. destruct (exists_in _ _) eqn:E; [done|]. cbn.
    apply unique_insert_new; [done|]. intros i x Hi. pose proof (exists_in_false _ _ E i x Hi) as Hx. cbn in Hx.
    unfold slot. cbn. intros [= E1 E2]. rewrite E1, E2, String.eqb_refl, Z.eqb_refl in Hx. done.
  - unfold DeleteRule. case_match; [|done]. by apply unique_delete.
  - unfold UpdateTargetGroup. by case_match.
  - unfold UpdateListener. by case_match.
  - unfold UpdateRule. destruct (rules b !! id) as [r|] eqn:E; [|done]. by eapply unique_update.
  - unfold DeleteBlob. by repeat case_match.
Qed.

Lemma run_all_slots os b :
  Forall (λ o, ¬ reorders o) os → unique_by slot (rules b) → unique_by slot (rules (run_all os b)).
Proof. intros H. revert b. induction H; intros b Hb; [done|]. cbn. eauto using run_slots. Qed.

(** ** Listing rules *)

Definition by_priority (x y : Rule) : bool := Rule_Priority x <? Rule_Priority y.

Lemma by_priority_sorted l : StronglySorted (λ x y, Rule_Priority x <= Rule_Priority y) (sort_by by_priority l).
Proof.
  assert (StronglySorted (le_by by_priority) (sort_by by_priority l)) as H.
  { apply sort_by_sorted; unfold le_by, by_priority; intros; lia. }
  induction H as [|x l' Hs IH Hx]; constructor; [done|]. eapply Forall_impl; [exact Hx|].
  unfold le_by, by_priority. cbn. intros. lia.
Qed.

Lemma rules_omap_NoDup b order :
  store_ok Rule_ID "rule" (ruleSeq b) (rules b) → order ≡ₚ (map_to_list (rules b)).*1 →
  NoDup (omap (λ k, rules b !! k) order).
Proof.
  intros [_ Hr] Ho. rewrite (omap_lookup_values _ _ Ho).
  apply NoDup_fmap_2_strong; [|apply NoDup_map_to_list].
  intros [k1 r1] [k2 r2] H1%elem_of_map_to_list H2%elem_of_map_to_list E. cbn in E. subst.
  destruct (Hr _ _ H1) as [<- _], (Hr _ _ H2) as [<- _]. done.
Qed.

(** ** Properties *)

(** In every state that fewer than 2^63 operations reach, identifiers are
    those of the entries and a new one is never in use, no two load balancers
    and no two target groups share a name, and no target is registered twice in
    a group.  As long as nobody calls [SetRulePriorities], no two rules of a
    listener have the same priority. *)
Theorem load_balancers_well_formed (os : list op) :
  Z.of_nat (length os) < 2 ^ 63 - 1 → let b := run_all os New in
  lb_inv b ∧
  (Forall (λ o, ¬ reorders o) os →
   ∀ i j x y, rules b !! i = Some x → rules b !! j = Some y →
     Rule_ListenerID x = Rule_ListenerID y → Rule_Priority x = Rule_Priority y → i = j).
Proof.
  intros Hn b. split.
  - apply (run_all_lb_inv os New 0); [apply New_lb_inv|done|lia].
  - intros Ho i j x y Hi Hj E1 E2. eapply (run_all_slots os New Ho); [|exact Hi|exact Hj|].
    + intros ? ? ? ? H. cbn in H. by rewrite lookup_empty in H.
    + unfold slot. by rewrite E1, E2.
Qed.

(** A load balancer with a listener and two rules. *)
Definition demo_ops : list op :=
  [OpCreateLoadBalancer "web" (mkCreateLoadBalancerOptions "application" "" None);
   OpCreateListener (mkCreateListenerOptions "lb-00000001" "HTTP" 80 "" [] None);
   OpCreateRule (mkCreateRuleOptions "lsn-00000001" 10 [] (mkRuleAction "tg") None);
   OpCreateRule (mkCreateRuleOptions "lsn-00000001" 5 [] (mkRuleAction "tg") None)].

Lemma load_balancers_well_formed_witness :
  lb_inv (run_all demo_ops New) ∧ size (rules (run_all demo_ops New)) = 2%nat.
Proof.
  split; [|by vm_compute]. apply (load_balancers_well_formed demo_ops). cbn. lia.
Defined.

(** [ListRules] returns exactly the rules that pass the filters, each once,
    in ascending priority; the order of the map does not show when the rules of
    one listener are listed and their priorities are distinct. *)
Theorem ListRules_by_priority (b : Backend) (order order' : list string) (opt : ListRulesOptions) :
  lb_inv b → order ≡ₚ (map_to_list (rules b)).*1 → order' ≡ₚ (map_to_list (rules b)).*1 →
  ∃ l, (ListRules order opt b).2 = Ok (mkListRulesResult l "") ∧
    NoDup l ∧ StronglySorted (λ x y, Rule_Priority x <= Rule_Priority y) l ∧
    (∀ r, r ∈ l ↔ rule_listed opt r = true ∧ rules b !! Rule_ID r = Some r) ∧
    (lru_ListenerID opt ≠ "" → unique_by slot (rules b) →
     (ListRules order' opt b).2 = Ok (mkListRulesResult l "")).
Proof.
  intros Hb Ho Ho'. destruct (li_rules b Hb) as [_ Hr]. eexists. split; [reflexivity|]. fold by_priority.
  set (f := λ r, rule_listed opt r = true).
  assert (∀ r, r ∈ filter f (omap (λ k, rules b !! k) order) ↔ rule_listed opt r = true ∧ rules b !! Rule_ID r = Some r)
    as Hin.
  { intros r. rewrite list_elem_of_filter, (omap_lookup_values _ _ Ho), elem_of_values. unfold f. f_equiv. split.
    - intros [k Hk]. by destruct (Hr _ _ Hk) as [-> _].
    - by eexists. }
  split_and!.
  - apply NoDup_sort_by, NoDup_filter, rules_omap_NoDup; [apply Hb|done].
  - apply by_priority_sorted.
  - intros r. by rewrite elem_of_sort_by.
  - intros Hl Hu. unfold ListRules. cbn [snd]. do 2 f_equal. fold by_priority f.
    apply sort_by_unique; [unfold by_priority; intros; lia|unfold le_by, by_priority; intros; lia| |].
    + intros x y Hx Hy. rewrite (omap_lookup_values _ _ Ho') in Hx. rewrite <-(omap_lookup_values _ _ Ho) in Hx.
      apply Hin in Hx as [Lx Hx]. apply Hin in Hy as [Ly Hy]. unfold le_by, by_priority. intros H1 H2.
      unfold rule_listed in Lx, Ly. destruct (String.eqb_spec (lru_ListenerID opt) ""); [done|]. cbn in Lx, Ly.
      apply andb_true_iff in Lx as [Lx _], Ly as [Ly _]. apply String.eqb_eq in Lx, Ly.
      assert (Rule_ID x = Rule_ID y) as E.
      { eapply Hu; [done..|]. unfold slot. f_equal; [congruence|lia]. }
      rewrite E in Hx. congruence.
    + by rewrite (omap_lookup_values _ _ Ho), (omap_lookup_values _ _ Ho').
Qed.

Lemma ListRules_by_priority_witness :
  let b := run_all demo_ops New in
  ∃ l, (ListRules (map_to_list (rules b)).*1 (mkListRulesOptions "lsn-00000001" []) b).2 = Ok (mkListRulesResult l "") ∧
    StronglySorted (λ x y, Rule_Priority x <= Rule_Priority y) l.
Proof.
  assert (lb_inv (run_all demo_ops New)) as Hb.
  { apply (run_all_lb_inv demo_ops New 0); [apply New_lb_inv|done|cbn; lia]. }
  cbv zeta. revert Hb. generalize (run_all demo_ops New). intros b Hb.
  destruct (ListRules_by_priority b (map_to_list (rules b)).*1 (map_to_list (rules b)).*1
    (mkListRulesOptions "lsn-00000001" []) Hb) as (l & H & _ & Hs & _); [reflexivity..|].
  exists l. split; [exact H|exact Hs].
Defined.

(** Reordering is neither atomic nor checked.  When a rule is missing,
    [SetRulePriorities] fails but the pairs before it stay applied; and when
    every rule exists, each gets its last priority whatever the others of its
    listener have, so two rules of a listener can end up with one priority,
    which [CreateRule] refuses. *)
Theorem SetRulePriorities_unchecked (b : Backend) (ps qs : list RulePriorityPair) (p : RulePriorityPair) :
  Forall (λ p, is_Some (rules b !! rpp_ID p)) ps → rules b !! rpp_ID p = None →
  (SetRulePriorities ps b).1 = (SetRulePriorities (ps ++ p :: qs) b).1 ∧
  (SetRulePriorities (ps ++ p :: qs) b).2 = Err (rule_not_found (rpp_ID p)) ∧
  ∀ x y i j n, rules b !! i = Some x → rules b !! j = Some y → i ≠ j →
    let b' := (SetRulePriorities [mkRulePriorityPair i n; mkRulePriorityPair j n] b).1 in
    rules b' !! i = Some (with_priority x n) ∧ rules b' !! j = Some (with_priority y n).
Proof.
  intros Hps Hp.
  assert (set_priorities (ps ++ p :: qs) b = ((set_priorities ps b).1, Err (rule_not_found (rpp_ID p)))) as E.
  { revert b Hps Hp. induction ps as [|p' ps IH]; intros b Hps Hp; cbn; [by rewrite Hp|].
    apply Forall_cons in Hps as [[r Hr] Hps]. rewrite Hr. apply IH.
    - eapply Forall_impl; [exact Hps|]. intros q Hq. cbn. apply lookup_insert_is_Some'. by right.
    - cbn. apply lookup_insert_None. split; [done|]. intros E. congruence. }
  unfold SetRulePriorities. rewrite E. split; [by destruct (set_priorities ps b)|]. split; [done|].
  intros x y i j n Hi Hj Hne. cbn. rewrite Hi. cbn. rewrite lookup_insert_ne, Hj by done. cbn.
  rewrite lookup_insert_eq, lookup_insert_ne by done. by rewrite lookup_insert_eq.
Qed.

Lemma SetRulePriorities_unchecked_witness :
  let b := run_all demo_ops New in
  let ps := [mkRulePriorityPair "rule-00000001" 1; mkRulePriorityPair "rule-00000009" 2] in
  (SetRulePriorities ps b).2 = Err (rule_not_found "rule-00000009") ∧
  (SetRulePriorities [mkRulePriorityPair "rule-00000001" 1] b).1 = (SetRulePriorities ps b).1.
Proof.
  intros b ps.
  destruct (SetRulePriorities_unchecked b [mkRulePriorityPair "rule-00000001" 1] [] (mkRulePriorityPair "rule-00000009" 2))
    as (H1 & H2 & _).
  - constructor; [|constructor]. vm_compute. eauto.
  - by vm_compute.
  - split; [exact H2|exact H1].
Defined.
