(* ===== verification/ElbV2.v ===== *)
(** * The ELBv2 frontend

    Models [internal/loadbalancer/frontends/aws_elbv2] (the adapter of
    [domain.LoadBalancers] and the wrapper around the router) and the handlers
    and table of routes of [services/loadbalancer/gen/aws_elbv2.gen.go].  Inputs
    keep the fields the adapter reads; decoding the others has no effect and no
    errors.  The pointers that the adapter fills in are never nil, so they are
    values here.  [Quote] is the %q verb of the domain's messages. *)

From Stdlib Require Import Ascii.
From S2P Require Import Prelude GoStrings GoBytes GoHttp GoUrl AwsQuery LoadBalancer.

(** ** domain.LoadBalancers, as far as the frontend calls it

    [Draws] is what a call of the implementation draws from outside. *)

Class LoadBalancers_ (St : Type) := {
  Draws : Type;
  z_CreateLoadBalancer : string → CreateLoadBalancerOptions → St → St * result LoadBalancer;
  z_ListLoadBalancers : Draws → ListLoadBalancersOptions → St → St * result ListLoadBalancersResult;
  z_DeleteLoadBalancer : string → St → St * result unit;
  z_CreateTargetGroup : string → CreateTargetGroupOptions → St → St * result TargetGroup;
  z_GetTargetGroup : string → St → St * result TargetGroup;
  z_ListTargetGroups : Draws → ListTargetGroupsOptions → St → St * result ListTargetGroupsResult;
  z_DeleteTargetGroup : string → St → St * result unit;
  z_UpdateTargetGroup : string → UpdateTargetGroupOptions → St → St * result TargetGroup;
  z_RegisterTargets : string → list Target → St → St * result unit;
  z_DeregisterTargets : string → list Target → St → St * result unit;
  z_CreateListener : CreateListenerOptions → St → St * result Listener;
  z_ListListeners : Draws → ListListenersOptions → St → St * result ListListenersResult;
  z_DeleteListener : string → St → St * result unit;
  z_UpdateListener : string → UpdateListenerOptions → St → St * result Listener;
  z_CreateRule : CreateRuleOptions → St → St * result Rule;
  z_ListRules : Draws → ListRulesOptions → St → St * result ListRulesResult;
  z_DeleteRule : string → St → St * result unit;
  z_UpdateRule : string → UpdateRuleOptions → St → St * result Rule;
  z_SetRulePriorities : list RulePriorityPair → St → St * result (list Rule) }.
Arguments Draws St {_}.

(** The in-process backend draws the order of the map that a listing ranges over. *)
#[export] Instance inmem_lb : LoadBalancers_ Backend := {|
  Draws := list string;
  z_CreateLoadBalancer := CreateLoadBalancer; z_ListLoadBalancers := ListLoadBalancers;
  z_DeleteLoadBalancer := DeleteLoadBalancer; z_CreateTargetGroup := CreateTargetGroup;
  z_GetTargetGroup := GetTargetGroup; z_ListTargetGroups := ListTargetGroups;
  z_DeleteTargetGroup := DeleteTargetGroup; z_UpdateTargetGroup := UpdateTargetGroup;
  z_RegisterTargets := RegisterTargets; z_DeregisterTargets := DeregisterTargets;
  z_CreateListener := CreateListener; z_ListListeners := ListListeners; z_DeleteListener := DeleteListener;
  z_UpdateListener := UpdateListener; z_CreateRule := CreateRule; z_ListRules := ListRules;
  z_DeleteRule := DeleteRule; z_UpdateRule := UpdateRule; z_SetRulePriorities := SetRulePriorities |}.

(** ** Generated types *)

Record CreateLoadBalancerInput := mkCreateLoadBalancerInput { cli_Name : string; cli_Type : option string }.
Record DescribeLoadBalancersInput := mkDescribeLoadBalancersInput {
  dli_LoadBalancerArns : list string; dli_Names : list string }.
(** [Matcher] is a structure, which the handlers do not decode. *)
Record HealthCheckInput := mkHealthCheckInput {
  hci_Path : option string; hci_Protocol : option string; hci_Port : option string;
  hci_Matcher : option (option string) }.
Record CreateTargetGroupInput := mkCreateTargetGroupInput {
  cti_Name : string; cti_Port : option Z; cti_Protocol : option string; cti_VpcId : option string;
  cti_HealthCheck : HealthCheckInput }.
Record ModifyTargetGroupInput := mkModifyTargetGroupInput {
  mti_TargetGroupArn : string; mti_HealthCheck : HealthCheckInput }.
(** [Certificates] is a list of structures, which the handlers do not decode. *)
Record CreateListenerInput := mkCreateListenerInput {
  cni_LoadBalancerArn : string; cni_Port : option Z; cni_Protocol : option string;
  cni_Certificates : list (option string) }.
Record ModifyListenerInput := mkModifyListenerInput {
  mni_ListenerArn : string; mni_Port : option Z; mni_Protocol : option string;
  mni_Certificates : list (option string) }.
Record DescribeListenersInput := mkDescribeListenersInput {
  dni_ListenerArns : list string; dni_LoadBalancerArn : option string }.
Record CreateRuleInput := mkCreateRuleInput { cri_ListenerArn : string; cri_Priority : Z }.
Record DescribeRulesInput := mkDescribeRulesInput { dri_ListenerArn : option string; dri_RuleArns : list string }.

Record gen_LoadBalancer := mkGenLoadBalancer {
  glb_Arn : string; glb_Name : string; glb_DNSName : string; glb_Type : string; glb_State : string; glb_VpcId : string }.
Record gen_TargetGroup := mkGenTargetGroup {
  gtg_Arn : string; gtg_Name : string; gtg_Protocol : string; gtg_Port : Z; gtg_VpcId : string;
  gtg_HealthCheckPath : option string; gtg_HealthCheckProtocol : option string; gtg_HealthCheckPort : option string;
  gtg_Matcher : option string }.
(** An action: its type and its target group. *)
Record gen_Action := mkGenAction { ga_Type : string; ga_TargetGroupArn : string }.
Record gen_Listener := mkGenListener {
  gln_Arn : string; gln_LoadBalancerArn : string; gln_Protocol : string; gln_Port : Z;
  gln_DefaultActions : list gen_Action; gln_Certificates : list string }.
Record gen_RuleCondition := mkGenRuleCondition {
  grc_Field : string; grc_Values : list string; grc_HostHeaderConfig : option (list string);
  grc_PathPatternConfig : option (list string) }.
Record gen_Rule := mkGenRule {
  gr_Arn : string; gr_Priority : string; gr_Conditions : list gen_RuleCondition; gr_Actions : list gen_Action }.

(** The outputs; [Void] has no fields (the deletions, the registrations, the
    changes of tags and [struct{}{}]). *)
Inductive output :=
  | LoadBalancersOutput (LoadBalancers : list gen_LoadBalancer) (NextMarker : option string)
  | TargetGroupsOutput (TargetGroups : list gen_TargetGroup) (NextMarker : option string)
  | TargetHealthOutput (TargetHealthDescriptions : list (string * Z * string))
  | ListenersOutput (Listeners : list gen_Listener) (NextMarker : option string)
  | RulesOutput (Rules : list gen_Rule) (NextMarker : option string)
  | TagsOutput (TagDescriptions : list string)
  | Void.

(** ** ARNs *)

Definition arnRegion : string := "us-east-1".
Definition arnAccount : string := "000000000000".
Definition arn_of (kind id suffix : string) : string :=
  "arn:aws:elasticloadbalancing:" +:+ arnRegion +:+ ":" +:+ arnAccount +:+ ":" +:+ kind +:+ id +:+ suffix.
Definition nlbARN (id : string) : string := arn_of "loadbalancer/net/" id "/shim".
Definition albARN (id : string) : string := arn_of "loadbalancer/app/" id "/shim".
Definition tgARN (id : string) : string := arn_of "targetgroup/" id "/shim".
Definition listenerARN (id : string) : string := arn_of "listener/app/shim/shim/" id "".
Definition ruleARN (id : string) : string := arn_of "listener-rule/app/shim/shim/shim/" id "".

(** The loops that look for the last slash. *)
Definition idFromLBARN (arn : string) : string :=
  match LastIndexByte arn "/" with
  | None => arn
  | Some i =>
      if String.eqb (str_drop (S i) arn) "shim"
      then match LastIndexByte (str_take i arn) "/" with
           | Some j => str_drop (S j) (str_take i arn)
           | None => arn
           end
      else arn
  end.
Definition idFromTGARN (arn : string) : string := idFromLBARN arn.
Definition idFromListenerARN (arn : string) : string :=
  match LastIndexByte arn "/" with Some i => str_drop (S i) arn | None => arn end.
Definition idFromRuleARN (arn : string) : string := idFromListenerARN arn.

(** ** Converters *)

Definition domainLBToGen (lb : LoadBalancer) : gen_LoadBalancer :=
  mkGenLoadBalancer
    (if String.eqb (LB_Type lb) LoadBalancerTypeApplication then albARN (LB_ID lb) else nlbARN (LB_ID lb))
    (LB_Name lb) (LB_DNSName lb) (LB_Type lb) "active" (LB_VpcID lb).

Definition unless_empty (s : string) : option string := if String.eqb s "" then None else Some s.

Definition domainTGToGen (tg : TargetGroup) : gen_TargetGroup :=
  let hc := TG_HealthCheck tg in
  let base := mkGenTargetGroup (tgARN (TG_ID tg)) (TG_Name tg) (TG_Protocol tg) (wrap_s 32 (TG_Port tg)) (TG_VpcID tg) in
  if negb (String.eqb (HC_Path hc) "") || negb (String.eqb (HC_Protocol hc) "")
  then base (unless_empty (HC_Path hc)) (unless_empty (HC_Protocol hc)) (unless_empty (HC_Port hc))
         (unless_empty (HC_HTTPCodes hc))
  else base None None None None.

Definition forward_to (targetGroup : string) : list gen_Action :=
  if String.eqb targetGroup "" then [] else [mkGenAction "forward" (tgARN targetGroup)].

Definition domainListenerToGen (l : Listener) : gen_Listener :=
  mkGenListener (listenerARN (Lsn_ID l)) (albARN (Lsn_LoadBalancerID l)) (Lsn_Protocol l) (wrap_s 32 (Lsn_Port l))
    (forward_to (Lsn_TargetGroupID l)) (Lsn_CertificateIDs l).

Definition condition_to_gen (c : RuleCondition) : gen_RuleCondition :=
  mkGenRuleCondition (RC_Type c) (RC_Values c)
    (if String.eqb (RC_Type c) RuleConditionHostHeader then Some (RC_Values c) else None)
    (if String.eqb (RC_Type c) RuleConditionPathPattern then Some (RC_Values c) else None).
Definition domainRuleToGen (r : Rule) : gen_Rule :=
  mkGenRule (ruleARN (Rule_ID r)) (Itoa (Rule_Priority r)) (condition_to_gen <$> Rule_Conditions r)
    (forward_to (RA_TargetGroupID (Rule_Action r))).

(** ** Reading the input *)

Definition healthCheckFromInput (i : HealthCheckInput) : HealthCheck :=
  mkHealthCheck (default "" (hci_Protocol i)) (default "" (hci_Path i)) (default "" (hci_Port i))
    (match hci_Matcher i with Some (Some code) => code | _ => "" end).

Definition protocol_of (s : string) : string :=
  if String.eqb s "HTTP" then ProtocolHTTP else if String.eqb s "HTTPS" then ProtocolHTTPS
  else if String.eqb s "UDP" then ProtocolUDP else ProtocolTCP.
Definition protocolFromEnum (p : option string) : string :=
  match p with None => ProtocolTCP | Some s => protocol_of s end.

Section form_lists.
Context (form : gmap string (list string)).
Abbreviation get := (Query_Get form).

Definition target_key (field : string) (i : Z) : string := member_key "Targets" i +:+ "." +:+ field.
Definition target_ids : list string := members form (target_key "Id").
Definition targets_to_register : list Target :=
  imap (λ n id,
    let p := get (target_key "Port" (1 + Z.of_nat n)) in
    mkTarget id (if String.eqb p "" then 0 else Atoi_value p)) target_ids.
Definition targets_to_deregister : list Target := (λ id, mkTarget id 0) <$> target_ids.

Definition certificate_key (i : Z) : string := member_key "Certificates" i +:+ ".CertificateArn".
Definition certificate_arns : list string := members form certificate_key.

Definition field_key (i : Z) : string := member_key "Conditions" i +:+ ".Field".
Definition value_key (i j : Z) : string := member_key "Conditions" i +:+ ".Values.member." +:+ Itoa j.
Definition conditions : list RuleCondition :=
  imap (λ n field, mkRuleCondition field (members form (value_key (1 + Z.of_nat n)))) (members form field_key).

Definition priority_key (field : string) (i : Z) : string := member_key "RulePriorities" i +:+ "." +:+ field.
Definition priority_pairs : list RulePriorityPair :=
  imap (λ n arn, mkRulePriorityPair (idFromRuleARN arn) (Atoi_value (get (priority_key "Priority" (1 + Z.of_nat n)))))
    (members form (priority_key "RuleArn")).
End form_lists.

(** An appended-to slice: nil when nothing was appended. *)
Definition appended {A} (l : list A) : option (list A) := match l with [] => None | _ => Some l end.
Definition next_marker (token : string) : option string := unless_empty token.

(** ** The adapter *)

Section adapter.
Context `{LoadBalancers_ St} (Quote : string → string).
Implicit Types (s : St) (d : Draws St) (form : gmap string (list string)).

Definition mapDomainErr (err : error) : api_error :=
  let text := Error_text Quote err in
  if IsNotFound err then EBackend (mkBackendError 400 "Sender" "LoadBalancerNotFound" text)
  else if IsAlreadyExists err then EBackend (mkBackendError 400 "Sender" "DuplicateLoadBalancerName" text)
  else if IsNotSupported err then EBackend (mkBackendError 400 "Sender" "UnsupportedProtocol" text)
  else EBackend (mkBackendError 500 "Receiver" "InternalFailure" text).

Definition call {A} (c : St * result A) (k : A → output) : St * api output :=
  (c.1, match c.2 with Ok a => Ok (k a) | Err e => Err (mapDomainErr e) | Panic => Panic end).

Definition Adapter_CreateLoadBalancer (i : CreateLoadBalancerInput) s : St * api output :=
  let lbType := if bool_decide (cli_Type i = Some "application") then LoadBalancerTypeApplication
                else LoadBalancerTypeNetwork in
  call (z_CreateLoadBalancer (cli_Name i) (mkCreateLoadBalancerOptions lbType "" None) s) (λ lb,
    LoadBalancersOutput [domainLBToGen lb] None).

Definition Adapter_DeleteLoadBalancer (arn : string) s : St * api output :=
  call (z_DeleteLoadBalancer (idFromLBARN arn) s) (λ _, Void).

Definition Adapter_DescribeLoadBalancers d (i : DescribeLoadBalancersInput) s : St * api output :=
  let opt := mkListLoadBalancersOptions (idFromLBARN <$> dli_LoadBalancerArns i) (dli_Names i) in
  call (z_ListLoadBalancers d opt s) (λ res,
    LoadBalancersOutput (domainLBToGen <$> llr_LoadBalancers res) (next_marker (llr_NextToken res))).

Definition Adapter_CreateTargetGroup (i : CreateTargetGroupInput) s : St * api output :=
  let opt := mkCreateTargetGroupOptions (protocolFromEnum (cti_Protocol i)) (default 0 (cti_Port i))
               (default "" (cti_VpcId i)) (healthCheckFromInput (cti_HealthCheck i)) None in
  call (z_CreateTargetGroup (cti_Name i) opt s) (λ tg, TargetGroupsOutput [domainTGToGen tg] None).

Definition Adapter_DeleteTargetGroup (arn : string) s : St * api output :=
  call (z_DeleteTargetGroup (idFromTGARN arn) s) (λ _, Void).

Definition Adapter_DescribeTargetGroups d (arns : list string) s : St * api output :=
  call (z_ListTargetGroups d (mkListTargetGroupsOptions (idFromTGARN <$> arns)) s) (λ res,
    TargetGroupsOutput (domainTGToGen <$> ltr_TargetGroups res) (next_marker (ltr_NextToken res))).

Definition Adapter_ModifyTargetGroup (i : ModifyTargetGroupInput) s : St * api output :=
  call (z_UpdateTargetGroup (idFromTGARN (mti_TargetGroupArn i))
      (mkUpdateTargetGroupOptions (healthCheckFromInput (mti_HealthCheck i))) s) (λ tg,
    TargetGroupsOutput [domainTGToGen tg] None).

Definition Adapter_RegisterTargets form (arn : string) s : St * api output :=
  call (z_RegisterTargets (idFromTGARN arn) (targets_to_register form) s) (λ _, Void).

Definition Adapter_DeregisterTargets form (arn : string) s : St * api output :=
  call (z_DeregisterTargets (idFromTGARN arn) (targets_to_deregister form) s) (λ _, Void).

Definition Adapter_DescribeTargetHealth (arn : string) s : St * api output :=
  call (z_GetTargetGroup (idFromTGARN arn) s) (λ tg,
    TargetHealthOutput ((λ t, (Target_ID t, wrap_s 32 (Target_Port t), "healthy")) <$> TG_Targets tg)).

Definition Adapter_CreateListener form (i : CreateListenerInput) s : St * api output :=
  let decoded := omap Datatypes.id (cni_Certificates i) in
  let certIDs := match decoded with [] => certificate_arns form | _ => decoded end in
  let opt := mkCreateListenerOptions (idFromLBARN (cni_LoadBalancerArn i)) (protocolFromEnum (cni_Protocol i))
               (default 0 (cni_Port i)) (idFromTGARN (Query_Get form "DefaultActions.member.1.TargetGroupArn"))
               certIDs None in
  call (z_CreateListener opt s) (λ l, ListenersOutput [domainListenerToGen l] None).

Definition Adapter_DeleteListener (arn : string) s : St * api output :=
  call (z_DeleteListener (idFromListenerARN arn) s) (λ _, Void).

Definition Adapter_DescribeListeners d (i : DescribeListenersInput) s : St * api output :=
  let opt := mkListListenersOptions (match dni_LoadBalancerArn i with Some arn => idFromLBARN arn | None => "" end)
               (idFromListenerARN <$> dni_ListenerArns i) in
  call (z_ListListeners d opt s) (λ res,
    ListenersOutput (domainListenerToGen <$> llsr_Listeners res) (next_marker (llsr_NextToken res))).

Definition Adapter_ModifyListener form (i : ModifyListenerInput) s : St * api output :=
  let tgArn := Query_Get form "DefaultActions.member.1.TargetGroupArn" in
  let opt := mkUpdateListenerOptions (match mni_Protocol i with Some _ => protocolFromEnum (mni_Protocol i) | None => "" end)
               (default 0 (mni_Port i)) (if String.eqb tgArn "" then "" else idFromTGARN tgArn)
               (appended (certificate_arns form ++ omap Datatypes.id (mni_Certificates i))) in
  call (z_UpdateListener (idFromListenerARN (mni_ListenerArn i)) opt s) (λ l,
    ListenersOutput [domainListenerToGen l] None).

Definition Adapter_CreateRule form (i : CreateRuleInput) s : St * api output :=
  let opt := mkCreateRuleOptions (idFromListenerARN (cri_ListenerArn i)) (cri_Priority i) (conditions form)
               (mkRuleAction (idFromTGARN (Query_Get form "Actions.member.1.TargetGroupArn"))) None in
  call (z_CreateRule opt s) (λ r, RulesOutput [domainRuleToGen r] None).

Definition Adapter_DeleteRule (arn : string) s : St * api output :=
  call (z_DeleteRule (idFromRuleARN arn) s) (λ _, Void).

Definition Adapter_DescribeRules d (i : DescribeRulesInput) s : St * api output :=
  let opt := mkListRulesOptions (match dri_ListenerArn i with Some arn => idFromListenerARN arn | None => "" end)
               (idFromRuleARN <$> dri_RuleArns i) in
  call (z_ListRules d opt s) (λ res, RulesOutput (domainRuleToGen <$> lrr_Rules res) (next_marker (lrr_NextToken res))).

Definition Adapter_ModifyRule form (arn : string) s : St * api output :=
  let tgArn := Query_Get form "Actions.member.1.TargetGroupArn" in
  let opt := mkUpdateRuleOptions (appended (conditions form))
               (mkRuleAction (if String.eqb tgArn "" then "" else idFromTGARN tgArn)) in
  call (z_UpdateRule (idFromRuleARN arn) opt s) (λ r, RulesOutput [domainRuleToGen r] None).

Definition Adapter_SetRulePriorities form s : St * api output :=
  call (z_SetRulePriorities (priority_pairs form) s) (λ rs, RulesOutput (domainRuleToGen <$> rs) None).

Definition Adapter_DescribeTags (arns : list string) s : St * api output := (s, Ok (TagsOutput arns)).
End adapter.

(** ** Handlers and routes *)

Inductive elb_op :=
  | CreateLoadBalancerHandler | DeleteLoadBalancerHandler | DescribeLoadBalancersHandler
  | CreateTargetGroupHandler | DeleteTargetGroupHandler | DescribeTargetGroupsHandler | ModifyTargetGroupHandler
  | RegisterTargetsHandler | DeregisterTargetsHandler | DescribeTargetHealthHandler
  | CreateListenerHandler | DeleteListenerHandler | DescribeListenersHandler | ModifyListenerHandler
  | CreateRuleHandler | DeleteRuleHandler | DescribeRulesHandler | ModifyRuleHandler | SetRulePrioritiesHandler
  | AddTagsHandler | RemoveTagsHandler | DescribeTagsHandler.
Definition op_name (o : elb_op) : string :=
  match o with
  | CreateLoadBalancerHandler => "CreateLoadBalancer" | DeleteLoadBalancerHandler => "DeleteLoadBalancer"
  | DescribeLoadBalancersHandler => "DescribeLoadBalancers" | CreateTargetGroupHandler => "CreateTargetGroup"
  | DeleteTargetGroupHandler => "DeleteTargetGroup" | DescribeTargetGroupsHandler => "DescribeTargetGroups"
  | ModifyTargetGroupHandler => "ModifyTargetGroup" | RegisterTargetsHandler => "RegisterTargets"
  | DeregisterTargetsHandler => "DeregisterTargets" | DescribeTargetHealthHandler => "DescribeTargetHealth"
  | CreateListenerHandler => "CreateListener" | DeleteListenerHandler => "DeleteListener"
  | DescribeListenersHandler => "DescribeListeners" | ModifyListenerHandler => "ModifyListener"
  | CreateRuleHandler => "CreateRule" | DeleteRuleHandler => "DeleteRule" | DescribeRulesHandler => "DescribeRules"
  | ModifyRuleHandler => "ModifyRule" | SetRulePrioritiesHandler => "SetRulePriorities"
  | AddTagsHandler => "AddTags" | RemoveTagsHandler => "RemoveTags" | DescribeTagsHandler => "DescribeTags"
  end.
Definition elb_ops : list elb_op :=
  [CreateLoadBalancerHandler; DeleteLoadBalancerHandler; DescribeLoadBalancersHandler; CreateTargetGroupHandler;
   DeleteTargetGroupHandler; DescribeTargetGroupsHandler; ModifyTargetGroupHandler; RegisterTargetsHandler;
   DeregisterTargetsHandler; DescribeTargetHealthHandler; CreateListenerHandler; DeleteListenerHandler;
   DescribeListenersHandler; ModifyListenerHandler; CreateRuleHandler; DeleteRuleHandler; DescribeRulesHandler;
   ModifyRuleHandler; SetRulePrioritiesHandler; AddTagsHandler; RemoveTagsHandler; DescribeTagsHandler].
Definition RegisterElasticLoadBalancingv2Routes : Router elb_op :=
  fold_left (λ rt o, Register (op_name o) o rt) elb_ops (NewRouter "ElasticLoadBalancing_v10").

Section decoding.
Context (form : gmap string (list string)).

Definition decode_HealthCheck : HealthCheckInput :=
  mkHealthCheckInput (form_field form "HealthCheckPath") (form_field form "HealthCheckProtocol")
    (form_field form "HealthCheckPort") None.
Definition decode_CreateLoadBalancer : CreateLoadBalancerInput :=
  mkCreateLoadBalancerInput (Query_Get form "Name") (form_field form "Type").
Definition decode_DescribeLoadBalancers : DescribeLoadBalancersInput :=
  mkDescribeLoadBalancersInput (members form (member_key "LoadBalancerArns")) (members form (member_key "Names")).
Definition decode_CreateTargetGroup : CreateTargetGroupInput :=
  mkCreateTargetGroupInput (Query_Get form "Name") (form_int32 form "Port") (form_field form "Protocol")
    (form_field form "VpcId") decode_HealthCheck.
Definition decode_ModifyTargetGroup : ModifyTargetGroupInput :=
  mkModifyTargetGroupInput (Query_Get form "TargetGroupArn") decode_HealthCheck.
Definition decode_CreateListener : CreateListenerInput :=
  mkCreateListenerInput (Query_Get form "LoadBalancerArn") (form_int32 form "Port") (form_field form "Protocol") [].
Definition decode_DescribeListeners : DescribeListenersInput :=
  mkDescribeListenersInput (members form (member_key "ListenerArns")) (form_field form "LoadBalancerArn").
Definition decode_ModifyListener : ModifyListenerInput :=
  mkModifyListenerInput (Query_Get form "ListenerArn") (form_int32 form "Port") (form_field form "Protocol") [].
Definition decode_CreateRule : CreateRuleInput :=
  mkCreateRuleInput (Query_Get form "ListenerArn") (default 0 (form_int32 form "Priority")).
Definition decode_DescribeRules : DescribeRulesInput :=
  mkDescribeRulesInput (form_field form "ListenerArn") (members form (member_key "RuleArns")).
End decoding.

Section handlers.
Context `{LoadBalancers_ St} (Quote : string → string) (d : Draws St).
Abbreviation answer := (St * option (Response (payload output)))%type.

Definition Adapter_serve (o : elb_op) (form : gmap string (list string)) : St → St * api output :=
  match o with
  | CreateLoadBalancerHandler => Adapter_CreateLoadBalancer Quote (decode_CreateLoadBalancer form)
  | DeleteLoadBalancerHandler => Adapter_DeleteLoadBalancer Quote (Query_Get form "LoadBalancerArn")
  | DescribeLoadBalancersHandler => Adapter_DescribeLoadBalancers Quote d (decode_DescribeLoadBalancers form)
  | CreateTargetGroupHandler => Adapter_CreateTargetGroup Quote (decode_CreateTargetGroup form)
  | DeleteTargetGroupHandler => Adapter_DeleteTargetGroup Quote (Query_Get form "TargetGroupArn")
  | DescribeTargetGroupsHandler =>
      Adapter_DescribeTargetGroups Quote d (members form (member_key "TargetGroupArns"))
  | ModifyTargetGroupHandler => Adapter_ModifyTargetGroup Quote (decode_ModifyTargetGroup form)
  | RegisterTargetsHandler => Adapter_RegisterTargets Quote form (Query_Get form "TargetGroupArn")
  | DeregisterTargetsHandler => Adapter_DeregisterTargets Quote form (Query_Get form "TargetGroupArn")
  | DescribeTargetHealthHandler => Adapter_DescribeTargetHealth Quote (Query_Get form "TargetGroupArn")
  | CreateListenerHandler => Adapter_CreateListener Quote form (decode_CreateListener form)
  | DeleteListenerHandler => Adapter_DeleteListener Quote (Query_Get form "ListenerArn")
  | DescribeListenersHandler => Adapter_DescribeListeners Quote d (decode_DescribeListeners form)
  | ModifyListenerHandler => Adapter_ModifyListener Quote form (decode_ModifyListener form)
  | CreateRuleHandler => Adapter_CreateRule Quote form (decode_CreateRule form)
  | DeleteRuleHandler => Adapter_DeleteRule Quote (Query_Get form "RuleArn")
  | DescribeRulesHandler => Adapter_DescribeRules Quote d (decode_DescribeRules form)
  | ModifyRuleHandler => Adapter_ModifyRule Quote form (Query_Get form "RuleArn")
  | SetRulePrioritiesHandler => Adapter_SetRulePriorities Quote form
  | AddTagsHandler | RemoveTagsHandler => λ s, (s, Ok Void)
  | DescribeTagsHandler => Adapter_DescribeTags (members form (member_key "ResourceArns"))
  end.

Definition handle (o : elb_op) (form : gmap string (list string)) (s : St) : answer :=
  reply (op_name o) (Adapter_serve o form s) Some.

(** The wrapper of [New]: [FormValue] parses the form before the router does,
    also for other methods, and drops the error; the router's [ParseForm] then
    finds the form parsed.  [multipart] are the values that [mime/multipart]
    adds for a multipart body: none for other bodies. *)
Context (parse_params : string → string → string * option string).
Context (multipart : Request → gmap string (list string)).

Definition FormValue_form (r : Request) : gmap string (list string) :=
  copyValues (ParseForm Quote parse_params r).1 (multipart r).

Definition attribute_actions : list string :=
  ["ModifyLoadBalancerAttributes"; "ModifyTargetGroupAttributes"; "DescribeLoadBalancerAttributes";
   "DescribeTargetGroupAttributes"].

Definition ElbV2_ServeHTTP (r : Request) (s : St) : answer :=
  let form := FormValue_form r in
  let action := Query_Get form "Action" in
  if bool_decide (action ∈ attribute_actions) then (s, Some (WriteResult action (Some Void)))
  else if negb (String.eqb (Method r) "POST")
  then (s, Some (WriteError 405 "Sender" "InvalidAction" "awsQuery requires POST"))
  else match dispatch (λ status code message, WriteError status "Sender" code message)
               RegisterElasticLoadBalancingv2Routes form with
       | inl resp => (s, Some resp)
       | inr (o, form) => handle o form s
       end.

(** [New], at the time [now]. *)
Definition ElbV2_New (getenv : string → string) (now : Time) : Request → St → answer :=
  Query_New Quote "elasticloadbalancing" getenv now ElbV2_ServeHTTP.
End handlers.
