(* ===== verification/ElbV2Props.v ===== *)
(** * The ELBv2 frontend: properties

    ARNs carry identifiers, numbered fields carry lists, and a client builds a
    load balancer request by request. *)

From Stdlib Require Import Ascii.
From S2P Require Import Prelude GoStrings GoBytes GoHttp GoUrl AwsQuery Stores LoadBalancer ElbV2.

(** ** ARNs *)

Lemma lb_arn_id kind id :
  str_mem "/" id = false → idFromLBARN (arn_of (kind +:+ "/") id "/shim") = id.
Proof.
  intros Hid. unfold idFromLBARN, arn_of.
  set (p := "arn:aws:elasticloadbalancing:" +:+ arnRegion +:+ ":" +:+ arnAccount +:+ ":" +:+ kind).
  assert ("arn:aws:elasticloadbalancing:" +:+ arnRegion +:+ ":" +:+ arnAccount +:+ ":" +:+ (kind +:+ "/") +:+ id +:+ "/shim" =
    (p +:+ String "/" id) +:+ String "/" "shim") as ->.
  { subst p. by rewrite !str_app_assoc. }
  rewrite LastIndexByte_app, str_drop_sep by done. rewrite str_take_app.
  rewrite String.eqb_refl, LastIndexByte_app, str_drop_sep by done. done.
Qed.

Lemma last_arn_id kind id :
  str_mem "/" id = false → idFromListenerARN (arn_of (kind +:+ "/") id "") = id.
Proof.
  intros Hid. unfold idFromListenerARN, arn_of.
  set (p := "arn:aws:elasticloadbalancing:" +:+ arnRegion +:+ ":" +:+ arnAccount +:+ ":" +:+ kind).
  assert ("arn:aws:elasticloadbalancing:" +:+ arnRegion +:+ ":" +:+ arnAccount +:+ ":" +:+ (kind +:+ "/") +:+ id +:+ "" =
    p +:+ String "/" id) as ->.
  { subst p. rewrite str_app_nil_r. by rewrite !str_app_assoc. }
  by rewrite LastIndexByte_app, str_drop_sep.
Qed.

Lemma fmt_08d_mem c n : dec_val c = None → 0 <= n → str_mem c (fmt_08d n) = false.
Proof.
  intros Hc Hn. unfold fmt_08d. rewrite (proj2 (Z.ltb_ge n 0)) by done.
  assert (str_mem c (utoa n) = false) as Hu.
  { pose proof (Itoa_mem c n Hc Hn) as H. unfold Itoa in H. by rewrite (proj2 (Z.ltb_ge n 0)) in H. }
  unfold pad_zero. generalize (8 - String.length (utoa n))%nat. intros k. induction k as [|k IH]; [done|].
  change (Ascii.eqb "0" c || str_mem c (Nat.iter k (String "0") (utoa n)) = false).
  rewrite IH, orb_false_r. apply Ascii.eqb_neq. by intros <-.
Qed.

Lemma seq_id_slash p n : str_mem "/" p = false → 0 <= n < 2 ^ 63 - 1 → str_mem "/" (seq_id p n) = false.
Proof.
  intros Hp Hn. unfold seq_id. rewrite !str_mem_app, Hp, wrap_s_small by (unfold in_s; lia).
  rewrite fmt_08d_mem by (done || lia). done.
Qed.

(** The identifier in each ARN that the frontend shows. *)
Lemma shown_lb_id lb : str_mem "/" (LB_ID lb) = false → idFromLBARN (glb_Arn (domainLBToGen lb)) = LB_ID lb.
Proof.
  intros H. unfold domainLBToGen. cbn [glb_Arn].
  destruct (String.eqb _ _); [exact (lb_arn_id "loadbalancer/app" _ H)|exact (lb_arn_id "loadbalancer/net" _ H)].
Qed.
Lemma shown_tg_id id : str_mem "/" id = false → idFromTGARN (tgARN id) = id.
Proof. exact (lb_arn_id "targetgroup" id). Qed.
Lemma shown_listener_id id : str_mem "/" id = false → idFromListenerARN (listenerARN id) = id.
Proof. exact (last_arn_id "listener/app/shim/shim" id). Qed.
Lemma shown_rule_id id : str_mem "/" id = false → idFromRuleARN (ruleARN id) = id.
Proof. exact (last_arn_id "listener-rule/app/shim/shim/shim" id). Qed.
Lemma arn_nonempty kind id suffix : arn_of kind id suffix ≠ "".
Proof. done. Qed.
Lemma listener_arn_nonempty id : listenerARN id ≠ "".
Proof. exact (arn_nonempty "listener/app/shim/shim/" id ""). Qed.
Lemma rule_arn_nonempty id : ruleARN id ≠ "".
Proof. exact (arn_nonempty "listener-rule/app/shim/shim/shim/" id ""). Qed.
Lemma lb_arn_nonempty lb : glb_Arn (domainLBToGen lb) ≠ "".
Proof. unfold domainLBToGen. cbn [glb_Arn]. destruct (String.eqb _ _);
    [exact (arn_nonempty "loadbalancer/app/" _ "/shim")|exact (arn_nonempty "loadbalancer/net/" _ "/shim")]. Qed.

(** ** Requests of a client *)

Section serve.
Context (Quote : string → string) (params : string → string → string * option string).
Context (multipart : Request → gmap string (list string)) (no_multipart : ∀ kvs, multipart (form_post kvs) = ∅).
Implicit Types (b : Backend) (order : list string).

Definition elb_serve order (r : Request) b : Backend * option (Response (payload output)) :=
  ElbV2_ServeHTTP Quote (order : Draws Backend) params multipart r b.

Lemma elb_serve_form order o kvs b :
  small (("Action", op_name o) :: kvs) →
  elb_serve order (form_post (("Action", op_name o) :: kvs)) b =
    handle Quote (order : Draws Backend) o (form_of (("Action", op_name o) :: kvs)) b.
Proof.
  intros Hs. unfold elb_serve, ElbV2_ServeHTTP, FormValue_form. rewrite ParseForm_post, no_multipart by done.
  cbn [fst]. assert (copyValues (form_of (("Action", op_name o) :: kvs)) ∅ = form_of (("Action", op_name o) :: kvs)) as ->
    by (unfold copyValues; by rewrite map_fold_empty).
  change (Method (form_post _)) with "POST". cbn [String.eqb Ascii.eqb Bool.eqb negb]. unfold dispatch.
  rewrite !Query_Get_cons, decide_True by done. by destruct o.
Qed.

(** A describe or a deletion by ARN. *)
Definition by_arns (o : elb_op) (name : string) (arns : list string) : list (string * string) :=
  ("Action", op_name o) :: blocks (member_fields name) arns.
Definition by_arn (o : elb_op) (name arn : string) : list (string * string) := [("Action", op_name o); (name, arn)].

Lemma by_arns_members o name arns :
  HasPrefix "Action" name = false → Forall (λ v, v ≠ "") arns →
  members (form_of (by_arns o name arns)) (member_key name) = arns.
Proof.
  intros Hn. apply (members_plain [("Action", op_name o)]). intros i v H%list_elem_of_singleton.
  injection H as E _. unfold member_key in E. rewrite <-E, HasPrefix_app in Hn. done.
Qed.

Lemma members_other o name arns name' :
  (∀ i j, member_key name i ≠ member_key name' j) → HasPrefix "Action" name' = false →
  members (form_of (by_arns o name arns)) (member_key name') = [].
Proof.
  intros Hne Hn. apply members_values; [apply member_key_inj|done|]. apply Query_Get_absent.
  intros v [Hv|Hv]%elem_of_cons.
  - injection Hv as E _. unfold member_key in E. by rewrite <-E, HasPrefix_app in Hn.
  - apply elem_of_blocks in Hv as (n & x & _ & H%list_elem_of_singleton). injection H as E _. symmetry in E. by apply Hne in E.
Qed.

Context (b : Backend) (Hinv : lb_inv b) (Hseq : seqs_below (2 ^ 63 - 1) b).

Lemma key_slash {V} (id : V → string) p seq (m : gmap string V) k v :
  store_ok id p seq m → str_mem "/" p = false → seq <= 2 ^ 63 - 1 → m !! k = Some v → id v = k ∧ str_mem "/" k = false.
Proof.
  intros [_ Hm] Hp Hs Hk. destruct (Hm _ _ Hk) as (E & n & Hn & ->). split; [done|]. apply seq_id_slash; [done|lia].
Qed.

Ltac listing :=
  unfold handle, reply, call; cbn [Adapter_serve fst snd].

Lemma allowed_one id x : allowed [id] x = true ↔ x = id.
Proof.
  unfold allowed. rewrite bool_decide_eq_false_2 by done. cbn. rewrite bool_decide_eq_true, list_elem_of_singleton. done.
Qed.

(** Describing one resource by the ARN that the frontend shows for it. *)
Lemma describe_lb order id lb :
  lbs b !! id = Some lb → order ≡ₚ (map_to_list (lbs b)).*1 →
  let arn := glb_Arn (domainLBToGen lb) in
  small (by_arns DescribeLoadBalancersHandler "LoadBalancerArns" [arn]) →
  elb_serve order (form_post (by_arns DescribeLoadBalancersHandler "LoadBalancerArns" [arn])) b =
    (b, Some (WriteResult "DescribeLoadBalancers" (Some (LoadBalancersOutput [domainLBToGen lb] None)))).
Proof.
  intros Hk Ho arn Hs. destruct (key_slash _ _ _ _ _ _ (li_lbs b Hinv) eq_refl (proj1 Hseq) Hk) as [Hid Hsl].
  assert (idFromLBARN arn = id) as Ha by (rewrite <-Hid in Hsl |- *; by apply shown_lb_id).
  etransitivity; [exact (elb_serve_form order DescribeLoadBalancersHandler (blocks (member_fields "LoadBalancerArns") [arn]) b Hs)|].
  listing. unfold Adapter_DescribeLoadBalancers, decode_DescribeLoadBalancers. cbn [dli_LoadBalancerArns dli_Names].
  fold (by_arns DescribeLoadBalancersHandler "LoadBalancerArns" [arn]).
  rewrite by_arns_members by (done || apply Forall_singleton, lb_arn_nonempty).
  rewrite (members_other DescribeLoadBalancersHandler "LoadBalancerArns" [arn] "Names") by (done || (intros i j E; discriminate E)).
  unfold call, z_ListLoadBalancers, inmem_lb, ListLoadBalancers. cbn [llb_IDs llb_Names fmap list_fmap fst snd llr_LoadBalancers llr_NextToken].
  rewrite Ha. rewrite (store_listed _ _ _ _ _ id lb _ (li_lbs b Hinv) Ho Hk); [done|].
  intros x. rewrite andb_true_r. apply allowed_one.
Qed.

Lemma describe_listener order id l :
  lsns b !! id = Some l → order ≡ₚ (map_to_list (lsns b)).*1 →
  let arn := listenerARN id in
  small (by_arns DescribeListenersHandler "ListenerArns" [arn]) →
  elb_serve order (form_post (by_arns DescribeListenersHandler "ListenerArns" [arn])) b =
    (b, Some (WriteResult "DescribeListeners" (Some (ListenersOutput [domainListenerToGen l] None)))).
Proof.
  intros Hk Ho arn Hs. destruct (key_slash _ _ _ _ _ _ (li_lsns b Hinv) eq_refl (proj1 (proj2 (proj2 Hseq))) Hk) as [_ Hsl].
  etransitivity; [exact (elb_serve_form order DescribeListenersHandler (blocks (member_fields "ListenerArns") [arn]) b Hs)|].
  listing. unfold Adapter_DescribeListeners, decode_DescribeListeners. cbn [dni_ListenerArns dni_LoadBalancerArn].
  fold (by_arns DescribeListenersHandler "ListenerArns" [arn]).
  rewrite by_arns_members by (done || exact (proj2 (Forall_singleton (λ v, v ≠ "") _) (listener_arn_nonempty id))).
  assert (form_field (form_of (by_arns DescribeListenersHandler "ListenerArns" [arn])) "LoadBalancerArn" = None) as ->
    by (unfold form_field, by_arns, blocks, member_fields; cbn [imap mjoin list_join app]; by form_fields).
  unfold call, z_ListListeners, inmem_lb, ListListeners. cbn [ll_IDs ll_LoadBalancerID fmap list_fmap fst snd llsr_Listeners llsr_NextToken].
  change (idFromListenerARN arn) with (idFromListenerARN (listenerARN id)). rewrite shown_listener_id by done.
  rewrite (store_listed _ _ _ _ _ id l _ (li_lsns b Hinv) Ho Hk); [done|]. intros x. apply allowed_one.
Qed.

Lemma describe_rule order id r :
  rules b !! id = Some r → order ≡ₚ (map_to_list (rules b)).*1 →
  let arn := ruleARN id in
  small (by_arns DescribeRulesHandler "RuleArns" [arn]) →
  elb_serve order (form_post (by_arns DescribeRulesHandler "RuleArns" [arn])) b =
    (b, Some (WriteResult "DescribeRules" (Some (RulesOutput [domainRuleToGen r] None)))).
Proof.
  intros Hk Ho arn Hs. destruct (key_slash _ _ _ _ _ _ (li_rules b Hinv) eq_refl (proj2 (proj2 (proj2 Hseq))) Hk) as [_ Hsl].
  etransitivity; [exact (elb_serve_form order DescribeRulesHandler (blocks (member_fields "RuleArns") [arn]) b Hs)|].
  listing. unfold Adapter_DescribeRules, decode_DescribeRules. cbn [dri_RuleArns dri_ListenerArn].
  fold (by_arns DescribeRulesHandler "RuleArns" [arn]).
  rewrite by_arns_members by (done || exact (proj2 (Forall_singleton (λ v, v ≠ "") _) (rule_arn_nonempty id))).
  assert (form_field (form_of (by_arns DescribeRulesHandler "RuleArns" [arn])) "ListenerArn" = None) as ->
    by (unfold form_field, by_arns, blocks, member_fields; cbn [imap mjoin list_join app]; by form_fields).
  unfold call, z_ListRules, inmem_lb, ListRules. cbn [lru_IDs lru_ListenerID fmap list_fmap fst snd lrr_Rules lrr_NextToken].
  change (idFromRuleARN arn) with (idFromRuleARN (ruleARN id)). rewrite shown_rule_id by done.
  rewrite (store_listed _ _ _ _ _ id r _ (li_rules b Hinv) Ho Hk); [done|]. intros x. apply allowed_one.
Qed.

Lemma describe_health order id tg :
  tgs b !! id = Some tg →
  let arn := tgARN id in
  small (by_arn DescribeTargetHealthHandler "TargetGroupArn" arn) →
  elb_serve order (form_post (by_arn DescribeTargetHealthHandler "TargetGroupArn" arn)) b =
    (b, Some (WriteResult "DescribeTargetHealth" (Some (TargetHealthOutput
       ((λ t, (Target_ID t, wrap_s 32 (Target_Port t), "healthy")) <$> TG_Targets tg))))).
Proof.
  intros Hk arn Hs. destruct (key_slash _ _ _ _ _ _ (li_tgs b Hinv) eq_refl (proj1 (proj2 Hseq)) Hk) as [_ Hsl].
  etransitivity; [exact (elb_serve_form order DescribeTargetHealthHandler [("TargetGroupArn", arn)] b Hs)|].
  listing. form_fields. unfold Adapter_DescribeTargetHealth, call, z_GetTargetGroup, inmem_lb, GetTargetGroup.
  change arn with (tgARN id). rewrite shown_tg_id by done. by rewrite Hk.
Qed.
End serve.

(** ** Rules of listeners that were created *)

Definition rule_refs (b : Backend) : Prop :=
  map_Forall (λ _ r, ∃ n, 0 <= n < lsnSeq b ∧ Rule_ListenerID r = seq_id "lsn" n) (rules b).

Lemma set_priorities_refs ps b : rule_refs b → rule_refs (set_priorities ps b).1.
Proof.
  revert b. induction ps as [|p ps IH]; intros b Hb; cbn; [done|].
  destruct (rules b !! rpp_ID p) as [r|] eqn:E; [|done]. apply IH.
  apply map_Forall_insert_2; [|done]. exact (Hb _ _ E).
Qed.

Lemma run_refs o b n : lb_inv b → seqs_below n b → n < 2 ^ 63 - 1 → rule_refs b → rule_refs (run o b).
Proof.
  intros Hi (_ & _ & Hs & _) Hn Hb. destruct o; cbn [run]; try done.
  1: unfold CreateLoadBalancer; by case_match.
  1: unfold DeleteLoadBalancer; by case_match.
  1: unfold CreateTargetGroup; by case_match.
  1: unfold DeleteTargetGroup; by case_match.
  1: unfold RegisterTargets; by case_match.
  1: unfold DeregisterTargets; by case_match.
  - unfold CreateListener. destruct (lbs b !! _); [|done]. destruct (li_lsns b Hi) as [H0 _].
    intros k r Hr. destruct (Hb k r Hr) as (m & Hm & E). exists m. split; [|done]. cbn.
    rewrite wrap_s_small by (unfold in_s; lia). lia.
  - unfold DeleteListener. by case_match.
  - unfold CreateRule. destruct (lsns b !! cru_ListenerID opt) as [l|] eqn:El; [|done].
    destruct (exists_in _ _); [done|]. apply map_Forall_insert_2; [|exact Hb]. cbn.
    destruct (li_lsns b Hi) as [_ Hl]. by destruct (Hl _ _ El) as (_ & m & Hm & ->); exists m.
  - unfold DeleteRule. case_match; [|done]. by apply map_Forall_delete.
  - unfold UpdateTargetGroup. by case_match.
  - unfold UpdateListener. by case_match.
  - unfold UpdateRule. destruct (rules b !! id) as [r|] eqn:E; [|done]. apply map_Forall_insert_2; [|exact Hb]. exact (Hb _ _ E).
  - rewrite SetRulePriorities_state. by apply set_priorities_refs.
  - unfold DeleteBlob. by repeat case_match.
Qed.

(** What holds of a state when [n] operations have run. *)
Definition state_ok (n : Z) (b : Backend) : Prop := lb_inv b ∧ seqs_below n b ∧ rule_refs b.

Lemma run_state_ok o b n : state_ok n b → n < 2 ^ 63 - 1 → state_ok (n + 1) (run o b).
Proof.
  intros (H1 & H2 & H3) Hn. destruct (run_lb_inv o b n H1 H2 Hn). split_and!; [done..|]. by eapply run_refs.
Qed.

Lemma run_all_state_ok os b n :
  state_ok n b → n + Z.of_nat (length os) < 2 ^ 63 - 1 → state_ok (n + Z.of_nat (length os)) (run_all os b).
Proof.
  revert b n. induction os as [|o os IH]; intros b n Hb Hn; cbn [length] in *; [by rewrite Z.add_0_r|].
  cbn [run_all fold_left]. replace (n + Z.of_nat (S (length os))) with (n + 1 + Z.of_nat (length os)) by lia.
  apply IH; [apply run_state_ok; [done|lia]|lia].
Qed.

Lemma New_state_ok : state_ok 0 New.
Proof. split_and!; [apply New_lb_inv|done|apply map_Forall_empty]. Qed.

(** ** Numbers and lists of a client *)

(** Of the targets with one identifier, the first. *)
Fixpoint first_per_id (seen : gset string) (ts : list Target) : list Target :=
  match ts with
  | [] => []
  | t :: ts =>
      if decide (Target_ID t ∈ seen) then first_per_id seen ts
      else t :: first_per_id ({[Target_ID t]} ∪ seen) ts
  end.

Lemma register_loop_first ts existing out : register_loop ts existing out = out ++ first_per_id existing ts.
Proof.
  revert existing out. induction ts as [|t ts IH]; intros existing out; cbn; [by rewrite app_nil_r|].
  rewrite <-decide_bool_decide. destruct (decide _) as [Ht|Ht]; [apply IH|]. by rewrite IH, <-(assoc_L (++)).
Qed.

Lemma first_per_id_subset ts existing t : t ∈ first_per_id existing ts → t ∈ ts.
Proof.
  revert existing. induction ts as [|u ts IH]; intros existing; cbn; [done|].
  destruct (decide _); rewrite !elem_of_cons; naive_solver.
Qed.

Lemma first_per_id_all ts existing :
  NoDup (Target_ID <$> ts) → (∀ t, t ∈ ts → Target_ID t ∉ existing) → first_per_id existing ts = ts.
Proof.
  revert existing. induction ts as [|t ts IH]; intros existing Hnd Hn; cbn; [done|].
  cbn in Hnd. apply NoDup_cons in Hnd as [Ht Hnd]. rewrite decide_False by (apply Hn; left). f_equal.
  apply IH; [done|]. intros t' Ht'.
  assert (Target_ID t' ≠ Target_ID t) by (intros E; apply Ht; rewrite <-E; by apply list_elem_of_fmap_2).
  specialize (Hn t' ltac:(by right)). set_solver.
Qed.

(** Targets as a client numbers them. *)
Definition target_fields (i : Z) (t : Target) : list (string * string) :=
  [(target_key "Id" i, Target_ID t); (target_key "Port" i, Itoa (Target_Port t))].

Lemma target_key_inj f g i j : 0 <= i → 0 <= j → target_key f i = target_key g j → i = j ∧ f = g.
Proof.
  intros Hi Hj E. unfold target_key, member_key in E. rewrite !str_app_assoc in E. do 2 apply str_app_inj_l in E.
  exact (indexed_inj "" i j f g Hi Hj E).
Qed.

Lemma target_key_other f i k : HasPrefix k "Targets.member." = false → k ≠ target_key f i.
Proof.
  intros H ->. unfold target_key, member_key in H. rewrite !str_app_assoc in H.
  change ("Targets" +:+ (".member." +:+ (Itoa i +:+ ("." +:+ f)))) with ("Targets.member." +:+ (Itoa i +:+ ("." +:+ f))) in H.
  by rewrite HasPrefix_app in H.
Qed.

Section targets.
Context (header : list (string * string)) (Hh : Forall (λ kv, HasPrefix kv.1 "Targets.member." = false) header).

Lemma target_header f i v : (target_key f i, v) ∉ header.
Proof. intros H. rewrite Forall_forall in Hh. specialize (Hh _ H). cbn in Hh. by eapply target_key_other in Hh. Qed.

Lemma targets_read ts :
  Forall (λ t, Target_ID t ≠ "" ∧ 0 <= Target_Port t < 2 ^ 31) ts →
  targets_to_register (form_of (header ++ blocks target_fields ts)) = ts.
Proof.
  intros Hts. unfold targets_to_register, target_ids.
  rewrite (members_blocks header target_fields (target_key "Id") Target_ID).
  - apply list_eq. intros n. rewrite list_lookup_imap, list_lookup_fmap.
    destruct (ts !! n) as [t|] eqn:E; [|done]. cbn. f_equal.
    destruct (Forall_lookup_1 _ _ _ _ Hts E) as [_ Hp].
    rewrite (blocks_lookup header target_fields (target_key "Port") (λ t, Itoa (Target_Port t))) with (x := t);
      [| |..|done].
    + pose proof (Itoa_nonempty (Target_Port t)) as Hne. apply String.eqb_neq in Hne.
      rewrite Hne, Atoi_value_Itoa by done. by destruct t.
    + intros i x. right. by left.
    + intros i j x v Hi Hj [H|H%list_elem_of_singleton]%elem_of_cons; apply pair_equal_spec in H as [E' ->];
        apply target_key_inj in E' as [-> E']; done.
    + intros. apply target_header.
  - intros i x. by left.
  - intros i j x v Hi Hj [H|H%list_elem_of_singleton]%elem_of_cons; apply pair_equal_spec in H as [E' ->];
      apply target_key_inj in E' as [-> E']; done.
  - intros. apply target_header.
  - intros i j Hi Hj E. by apply target_key_inj in E as [-> _].
  - eapply Forall_impl; [exact Hts|]. by intros t [? _].
Qed.
End targets.

(** Conditions likewise, each with its numbered values. *)
Definition condition_fields (i : Z) (c : RuleCondition) : list (string * string) :=
  (field_key i, RC_Type c) :: imap (λ m v, (value_key i (1 + Z.of_nat m), v)) (RC_Values c).

Definition condition_key (i : Z) (s : string) : string := "Conditions.member." +:+ Itoa i +:+ String "." s.
Lemma field_key_eq i : field_key i = condition_key i "Field".
Proof. unfold field_key, member_key. by rewrite !str_app_assoc. Qed.
Lemma value_key_eq i j : value_key i j = condition_key i ("Values.member." +:+ Itoa j).
Proof. unfold value_key, member_key. by rewrite !str_app_assoc. Qed.
Lemma condition_key_inj i j s t : 0 <= i → 0 <= j → condition_key i s = condition_key j t → i = j ∧ s = t.
Proof. apply indexed_inj. Qed.

Lemma elem_of_condition_fields i j s c v :
  0 <= i → 0 <= j → (condition_key i s, v) ∈ condition_fields j c →
  i = j ∧ ((s = "Field" ∧ v = RC_Type c) ∨
           ∃ m, s = "Values.member." +:+ Itoa (1 + Z.of_nat m) ∧ RC_Values c !! m = Some v).
Proof.
  intros Hi Hj [H|H]%elem_of_cons.
  - apply pair_equal_spec in H as [E ->]. rewrite field_key_eq in E. apply condition_key_inj in E as [-> ->]; auto.
  - apply elem_of_lookup_imap in H as (m & x & E & Hx). apply pair_equal_spec in E as [E ->].
    rewrite value_key_eq in E. apply condition_key_inj in E as [-> ->]; eauto.
Qed.

Section conditions.
Context (header : list (string * string)) (Hh : Forall (λ kv, HasPrefix kv.1 "Conditions.member." = false) header).

Lemma condition_header i s v : (condition_key i s, v) ∉ header.
Proof.
  intros H. rewrite Forall_forall in Hh. specialize (Hh _ H). unfold condition_key in Hh. cbn [fst] in Hh.
  by rewrite HasPrefix_app in Hh.
Qed.

Lemma values_read cs n c :
  cs !! n = Some c → Forall (λ v, v ≠ "") (RC_Values c) →
  members (form_of (header ++ blocks condition_fields cs)) (value_key (1 + Z.of_nat n)) = RC_Values c.
Proof.
  intros Hn Hne. apply members_values.
  - intros i j Hi Hj E. rewrite !value_key_eq in E. apply condition_key_inj in E as [_ E%str_app_inj_l]; [|lia..].
    by apply Itoa_inj.
  - intros m v Hv. split; [|by apply (Forall_lookup_1 _ _ _ _ Hne Hv)]. rewrite value_key_eq. apply Query_Get_unique.
    + apply elem_of_app. right. apply elem_of_blocks. exists n, c. split; [done|]. right.
      apply elem_of_lookup_imap. exists m, v. by rewrite value_key_eq.
    + intros v' [H|H]%elem_of_app; [by apply condition_header in H|].
      apply elem_of_blocks in H as (n' & c' & Hn' & H). apply elem_of_condition_fields in H as [E H]; [|lia..].
      assert (n = n') as <- by lia. destruct H as [[? _]|(m' & E' & Hv')]; [done|].
      apply str_app_inj_l, Itoa_inj in E'; [|lia..]. assert (m = m') as <- by lia. congruence.
  - rewrite value_key_eq. apply Query_Get_absent. intros v [H|H]%elem_of_app; [by apply condition_header in H|].
    apply elem_of_blocks in H as (n' & c' & Hn' & H). apply elem_of_condition_fields in H as [E H]; [|lia..].
    assert (n = n') as <- by lia. destruct H as [[? _]|(m' & E' & Hv'%lookup_lt_Some)]; [done|].
    apply str_app_inj_l, Itoa_inj in E'; [|lia..]. assert (c' = c) as -> by congruence. lia.
Qed.

Lemma conditions_read cs :
  Forall (λ c, RC_Type c ≠ "" ∧ Forall (λ v, v ≠ "") (RC_Values c)) cs →
  conditions (form_of (header ++ blocks condition_fields cs)) = cs.
Proof.
  intros Hcs. unfold conditions. rewrite (members_blocks header condition_fields field_key RC_Type).
  - apply list_eq. intros n. rewrite list_lookup_imap, list_lookup_fmap.
    destruct (cs !! n) as [c|] eqn:E; [|done]. cbn [fmap option_fmap option_map]. f_equal.
    destruct (Forall_lookup_1 _ _ _ _ Hcs E) as [_ Hv]. rewrite (values_read cs n c E Hv). by destruct c.
  - intros i x. by left.
  - intros i j x v Hi Hj H. rewrite field_key_eq in H.
    apply elem_of_condition_fields in H as [-> [[_ ->]|(m & E & _)]]; done.
  - intros i v. rewrite field_key_eq. apply condition_header.
  - intros i j Hi Hj E. rewrite !field_key_eq in E. by apply condition_key_inj in E as [-> _].
  - eapply Forall_impl; [exact Hcs|]. by intros c [? _].
Qed.
End conditions.

(** ** Building a load balancer *)

(** What a client wants: an HTTP listener with a rule, both forwarding to a
    group of targets. *)
Record wanted := mkWanted {
  q_lb : string; q_application : bool; q_tg : string; q_tgport : Z; q_targets : list Target; q_port : Z;
  q_priority : Z; q_conditions : list RuleCondition }.
Definition well_formed (q : wanted) : Prop :=
  0 <= q_tgport q < 2 ^ 31 ∧ 0 <= q_port q < 2 ^ 31 ∧ 0 <= q_priority q < 2 ^ 31 ∧
  Forall (λ t, Target_ID t ≠ "" ∧ 0 <= Target_Port t < 2 ^ 31) (q_targets q) ∧
  Forall (λ c, RC_Type c ≠ "" ∧ Forall (λ v, v ≠ "") (RC_Values c)) (q_conditions q).

(** The targets that are registered. *)
Definition registered (q : wanted) : list Target := first_per_id ∅ (q_targets q).

Definition create_lb_fields (q : wanted) : list (string * string) :=
  [("Name", q_lb q); ("Type", if q_application q then "application" else "network")].
Definition create_tg_fields (q : wanted) : list (string * string) :=
  [("Name", q_tg q); ("Protocol", "HTTP"); ("Port", Itoa (q_tgport q))].
Definition register_fields (tgArn : string) (q : wanted) : list (string * string) :=
  ("TargetGroupArn", tgArn) :: blocks target_fields (q_targets q).
Definition create_listener_fields (lbArn tgArn : string) (q : wanted) : list (string * string) :=
  [("LoadBalancerArn", lbArn); ("Protocol", "HTTP"); ("Port", Itoa (q_port q));
   ("DefaultActions.member.1.Type", "forward"); ("DefaultActions.member.1.TargetGroupArn", tgArn)].
Definition create_rule_fields (lsnArn tgArn : string) (q : wanted) : list (string * string) :=
  [("ListenerArn", lsnArn); ("Priority", Itoa (q_priority q)); ("Actions.member.1.Type", "forward");
   ("Actions.member.1.TargetGroupArn", tgArn)] ++ blocks condition_fields (q_conditions q).

(** What the backend makes of it. *)
Definition new_lb (q : wanted) (b : Backend) : LoadBalancer :=
  mkLoadBalancer (nextID "lb" (lbSeq b)) (q_lb q) (if q_application q then "application" else "network")
    (q_lb q +:+ ".elb.us-east-1.amazonaws.com") "active" "" None.
Definition new_tg (q : wanted) (b : Backend) (targets : list Target) : TargetGroup :=
  mkTargetGroup (nextID "tg" (tgSeq b)) (q_tg q) "HTTP" (q_tgport q) "" targets (mkHealthCheck "" "" "" "") None.
Definition new_lsn (q : wanted) (b : Backend) : Listener :=
  mkListener (nextID "lsn" (lsnSeq b)) (nextID "lb" (lbSeq b)) "HTTP" (q_port q) (nextID "tg" (tgSeq b)) [] None.
Definition new_rule (q : wanted) (b : Backend) : Rule :=
  mkRule (nextID "rule" (ruleSeq b)) (nextID "lsn" (lsnSeq b)) (q_priority q) (q_conditions q)
    (mkRuleAction (nextID "tg" (tgSeq b))) None.

Lemma exists_in_none {V} (p : V → bool) (m : gmap string V) : (∀ k v, m !! k = Some v → p v = false) → exists_in p m = false.
Proof.
  intros H. unfold exists_in. apply not_true_iff_false. intros (x & Hx & Hp)%existsb_exists.
  apply list_elem_of_In, elem_of_values in Hx as [k Hk]. rewrite (H k x Hk) in Hp. done.
Qed.

Lemma copyConditions_id cs : copyConditions cs = cs.
Proof.
  unfold copyConditions. induction cs as [|[t vs] cs IH]; [done|]. cbn. rewrite IH. f_equal. f_equal. apply map_id.
Qed.

Section build.
Context (Quote : string → string) (params : string → string → string * option string).
Context (multipart : Request → gmap string (list string)) (no_multipart : ∀ kvs, multipart (form_post kvs) = ∅).
Context (q : wanted) (Hq : well_formed q).
Implicit Types (b : Backend).

(** The answer to a form, when it is a result. *)
Definition ask (o : elb_op) (fields : list (string * string)) b : option (Backend * output) :=
  match elb_serve Quote params multipart [] (form_post (("Action", op_name o) :: fields)) b with
  | (b, Some (mkResponse 200 _ (Result _ (Some x)))) => Some (b, x)
  | _ => None
  end.

(** The client's requests, each with the ARNs of the answers before it. *)
Definition build b : option (Backend * (gen_LoadBalancer * gen_TargetGroup * gen_Listener * gen_Rule)) :=
  match ask CreateLoadBalancerHandler (create_lb_fields q) b with
  | Some (b, LoadBalancersOutput [lb] _) =>
      match ask CreateTargetGroupHandler (create_tg_fields q) b with
      | Some (b, TargetGroupsOutput [tg] _) =>
          match ask RegisterTargetsHandler (register_fields (gtg_Arn tg) q) b with
          | Some (b, Void) =>
              match ask CreateListenerHandler (create_listener_fields (glb_Arn lb) (gtg_Arn tg) q) b with
              | Some (b, ListenersOutput [ln] _) =>
                  match ask CreateRuleHandler (create_rule_fields (gln_Arn ln) (gtg_Arn tg) q) b with
                  | Some (b, RulesOutput [r] _) => Some (b, (lb, tg, ln, r))
                  | _ => None
                  end
              | _ => None
              end
          | _ => None
          end
      | _ => None
      end
  | _ => None
  end.

Definition fits (o : elb_op) (fields : list (string * string)) : Prop := small (("Action", op_name o) :: fields).

Lemma ask_serve o fields b b' x :
  fits o fields → Adapter_serve Quote ([] : Draws Backend) o (form_of (("Action", op_name o) :: fields)) b = (b', Ok x) →
  ask o fields b = Some (b', x).
Proof.
  intros Hf E. unfold ask. rewrite (elb_serve_form Quote params multipart no_multipart [] o fields b Hf).
  unfold handle, reply. by rewrite E.
Qed.

Lemma ask_create_lb b :
  fits CreateLoadBalancerHandler (create_lb_fields q) → (∀ k x, lbs b !! k = Some x → LB_Name x ≠ q_lb q) →
  ask CreateLoadBalancerHandler (create_lb_fields q) b =
    Some (set_lbs b (<[nextID "lb" (lbSeq b) := new_lb q b]> (lbs b)) (wrap_s 64 (lbSeq b + 1)),
          LoadBalancersOutput [domainLBToGen (new_lb q b)] None).
Proof.
  intros Hf Hn. apply ask_serve; [done|]. cbn [Adapter_serve].
  unfold Adapter_CreateLoadBalancer, decode_CreateLoadBalancer, form_field, create_lb_fields. form_fields.
  cbn [cli_Name cli_Type]. unfold call, z_CreateLoadBalancer, inmem_lb, CreateLoadBalancer.
  rewrite exists_in_none by (intros k x Hx; by apply String.eqb_neq, (Hn k)).
  unfold new_lb. by destruct (q_application q).
Qed.

Lemma ask_create_tg b :
  fits CreateTargetGroupHandler (create_tg_fields q) → (∀ k x, tgs b !! k = Some x → TG_Name x ≠ q_tg q) →
  ask CreateTargetGroupHandler (create_tg_fields q) b =
    Some (set_tgs b (<[nextID "tg" (tgSeq b) := new_tg q b []]> (tgs b)) (wrap_s 64 (tgSeq b + 1)),
          TargetGroupsOutput [domainTGToGen (new_tg q b [])] None).
Proof.
  intros Hf Hn. destruct Hq as (Hp & _). apply ask_serve; [done|]. cbn [Adapter_serve].
  unfold Adapter_CreateTargetGroup, decode_CreateTargetGroup, decode_HealthCheck.
  rewrite (form_int32_Itoa _ _ (q_tgport q)) by (unfold in_s; lia || (unfold create_tg_fields; by form_fields)).
  unfold form_field, create_tg_fields. form_fields.
  cbn [cti_Name cti_Port cti_Protocol cti_VpcId cti_HealthCheck default]. unfold call, z_CreateTargetGroup, inmem_lb, CreateTargetGroup.
  rewrite exists_in_none by (intros k x Hx; by apply String.eqb_neq, (Hn k)). done.
Qed.

Lemma ask_register id tg b :
  fits RegisterTargetsHandler (register_fields (tgARN id) q) → str_mem "/" id = false → tgs b !! id = Some tg →
  TG_Targets tg = [] →
  ask RegisterTargetsHandler (register_fields (tgARN id) q) b = Some (set_tg b id (with_targets tg (registered q)), Void).
Proof.
  intros Hf Hs Ht He. destruct Hq as (_ & _ & _ & Hts & _). apply ask_serve; [done|]. cbn [Adapter_serve].
  unfold Adapter_RegisterTargets, register_fields.
  pose proof (targets_read [("Action", op_name RegisterTargetsHandler); ("TargetGroupArn", tgARN id)] ltac:(by repeat constructor)
    (q_targets q) Hts) as Er. cbn [app] in Er. rewrite Er. clear Er.
  form_fields. rewrite shown_tg_id by done.
  unfold call, z_RegisterTargets, inmem_lb, RegisterTargets. rewrite Ht, He. cbn [fmap list_fmap list_to_set fst snd].
  by rewrite register_loop_first.
Qed.

Lemma no_certificates o fields :
  Forall (λ kv, HasPrefix kv.1 "Certificates.member." = false) fields →
  certificate_arns (form_of (("Action", op_name o) :: fields)) = [].
Proof.
  intros Hf. apply members_values; [|done|].
  - intros i j Hi Hj E. unfold certificate_key, member_key in E. rewrite !str_app_assoc in E. do 2 apply str_app_inj_l in E.
    by apply (indexed_inj "" i j "CertificateArn" "CertificateArn") in E as [-> _].
  - apply Query_Get_absent. intros v [H|H]%elem_of_cons; [by apply pair_equal_spec in H as [E _]; discriminate E|].
    rewrite Forall_forall in Hf. specialize (Hf _ H). cbn [fst] in Hf. unfold certificate_key, member_key in Hf.
    rewrite !str_app_assoc in Hf.
    change ("Certificates" +:+ (".member." +:+ ?x)) with ("Certificates.member." +:+ x) in Hf.
    by rewrite HasPrefix_app in Hf.
Qed.

Lemma ask_create_listener lbArn lb0 tid b :
  fits CreateListenerHandler (create_listener_fields lbArn (tgARN tid) q) →
  idFromLBARN lbArn = lb0 → is_Some (lbs b !! lb0) → str_mem "/" tid = false →
  let l := mkListener (nextID "lsn" (lsnSeq b)) lb0 "HTTP" (q_port q) tid [] None in
  ask CreateListenerHandler (create_listener_fields lbArn (tgARN tid) q) b =
    Some (set_lsns b (<[nextID "lsn" (lsnSeq b) := l]> (lsns b)) (wrap_s 64 (lsnSeq b + 1)),
          ListenersOutput [domainListenerToGen l] None).
Proof.
  intros Hf Hlb [lb Hl] Ht l. destruct Hq as (_ & Hp & _). apply ask_serve; [done|]. cbn [Adapter_serve].
  unfold Adapter_CreateListener, decode_CreateListener.
  rewrite (form_int32_Itoa _ _ (q_port q)) by (unfold in_s; lia || (unfold create_listener_fields; by form_fields)).
  rewrite (no_certificates CreateListenerHandler (create_listener_fields lbArn (tgARN tid) q)) by (repeat constructor).
  unfold form_field, create_listener_fields. form_fields.
  cbn [cni_LoadBalancerArn cni_Port cni_Protocol cni_Certificates omap list_omap default]. rewrite Hlb, shown_tg_id by done.
  unfold call, z_CreateListener, inmem_lb, CreateListener. cbn [cl_LoadBalancerID]. by rewrite Hl.
Qed.

Lemma ask_create_rule lid tid b :
  fits CreateRuleHandler (create_rule_fields (listenerARN lid) (tgARN tid) q) →
  str_mem "/" lid = false → str_mem "/" tid = false → is_Some (lsns b !! lid) →
  (∀ k r, rules b !! k = Some r → Rule_ListenerID r ≠ lid) →
  let r := mkRule (nextID "rule" (ruleSeq b)) lid (q_priority q) (q_conditions q) (mkRuleAction tid) None in
  ask CreateRuleHandler (create_rule_fields (listenerARN lid) (tgARN tid) q) b =
    Some (set_rules b (<[nextID "rule" (ruleSeq b) := r]> (rules b)) (wrap_s 64 (ruleSeq b + 1)),
          RulesOutput [domainRuleToGen r] None).
Proof.
  intros Hf Hl Ht [l Hls] Hr r. destruct Hq as (_ & _ & Hp & _ & Hc). apply ask_serve; [done|]. cbn [Adapter_serve].
  unfold Adapter_CreateRule, decode_CreateRule.
  rewrite (form_int32_Itoa _ _ (q_priority q)) by (unfold in_s; lia || (unfold create_rule_fields; cbn [app]; by form_fields)).
  unfold create_rule_fields.
  pose proof (conditions_read [("Action", op_name CreateRuleHandler); ("ListenerArn", listenerARN lid);
    ("Priority", Itoa (q_priority q)); ("Actions.member.1.Type", "forward"); ("Actions.member.1.TargetGroupArn", tgARN tid)]
    ltac:(by repeat constructor) (q_conditions q) Hc) as Er. cbn [app] in Er |- *. rewrite Er. clear Er.
  form_fields. cbn [cri_ListenerArn cri_Priority default]. rewrite shown_listener_id, shown_tg_id by done.
  unfold call, z_CreateRule, inmem_lb, CreateRule. cbn [cru_ListenerID cru_Priority cru_Conditions cru_Action cru_Tags]. rewrite Hls.
  rewrite exists_in_none; [by rewrite copyConditions_id|].
  intros k x Hx. apply andb_false_iff. left. by apply String.eqb_neq, (Hr k).
Qed.

(** The state in the end. *)
Definition built b : Backend :=
  mkBackend (<[nextID "lb" (lbSeq b) := new_lb q b]> (lbs b))
    (<[nextID "tg" (tgSeq b) := new_tg q b (registered q)]> (tgs b))
    (<[nextID "lsn" (lsnSeq b) := new_lsn q b]> (lsns b)) (<[nextID "rule" (ruleSeq b) := new_rule q b]> (rules b))
    (blobs b) (wrap_s 64 (lbSeq b + 1)) (wrap_s 64 (tgSeq b + 1)) (wrap_s 64 (lsnSeq b + 1)) (wrap_s 64 (ruleSeq b + 1)).

(** The forms that the client sends to build, and to look. *)
Definition session_forms b : list (elb_op * list (string * string)) :=
  let L := glb_Arn (domainLBToGen (new_lb q b)) in
  let T := tgARN (nextID "tg" (tgSeq b)) in
  let N := listenerARN (nextID "lsn" (lsnSeq b)) in
  let R := ruleARN (nextID "rule" (ruleSeq b)) in
  [(CreateLoadBalancerHandler, create_lb_fields q); (CreateTargetGroupHandler, create_tg_fields q);
   (RegisterTargetsHandler, register_fields T q); (CreateListenerHandler, create_listener_fields L T q);
   (CreateRuleHandler, create_rule_fields N T q);
   (DescribeLoadBalancersHandler, blocks (member_fields "LoadBalancerArns") [L]);
   (DescribeTargetHealthHandler, [("TargetGroupArn", T)]);
   (DescribeListenersHandler, blocks (member_fields "ListenerArns") [N]);
   (DescribeRulesHandler, blocks (member_fields "RuleArns") [R])].

Lemma build_built n b :
  state_ok n b → n < 2 ^ 63 - 1 →
  (∀ k x, lbs b !! k = Some x → LB_Name x ≠ q_lb q) → (∀ k x, tgs b !! k = Some x → TG_Name x ≠ q_tg q) →
  Forall (λ f, fits f.1 f.2) (session_forms b) →
  build b = Some (built b, (domainLBToGen (new_lb q b), domainTGToGen (new_tg q b []), domainListenerToGen (new_lsn q b),
    domainRuleToGen (new_rule q b))).
Proof.
  intros ([Hl Ht Hs Hr _ _ _] & (S1 & S2 & S3 & S4) & Hrefs) Hn Hlb Htg Hf.
  destruct Hl as [L0 Hl], Ht as [T0 Ht], Hs as [N0 Hs], Hr as [R0 Hr].
  assert (str_mem "/" (nextID "lb" (lbSeq b)) = false) as Hlb0 by (apply seq_id_slash; [done|lia]).
  assert (str_mem "/" (nextID "tg" (tgSeq b)) = false) as Htg0 by (apply seq_id_slash; [done|lia]).
  assert (str_mem "/" (nextID "lsn" (lsnSeq b)) = false) as Hls0 by (apply seq_id_slash; [done|lia]).
  unfold session_forms in Hf. repeat (apply Forall_cons in Hf as [? Hf]). cbn [fst snd] in *.
  unfold build. rewrite ask_create_lb by done. rewrite ask_create_tg by done.
  change (gtg_Arn (domainTGToGen (new_tg q _ []))) with (tgARN (nextID "tg" (tgSeq b))).
  rewrite (ask_register _ (new_tg q b [])) by (done || (cbn; by rewrite lookup_insert_eq)).
  rewrite (ask_create_listener _ (nextID "lb" (lbSeq b)) (nextID "tg" (tgSeq b))).
  - change (gln_Arn (domainListenerToGen _)) with (listenerARN (nextID "lsn" (lsnSeq b))).
    rewrite (ask_create_rule (nextID "lsn" (lsnSeq b)) (nextID "tg" (tgSeq b))).
    + unfold built, set_rules, set_lsns, set_tg, set_tgs, set_lbs. cbn -[nextID]. by rewrite insert_insert_eq.
    + done.
    + done.
    + done.
    + cbn. rewrite lookup_insert_eq. by eexists.
    + intros k x Hx E. cbn in Hx. destruct (Hrefs k x Hx) as (m & Hm & E'). rewrite E in E'. apply seq_id_inj in E'; lia.
  - done.
  - apply (shown_lb_id (new_lb q b)). done.
  - cbn. rewrite lookup_insert_eq. by eexists.
  - done.
Qed.

Lemma built_run n b : state_ok n b → n < 2 ^ 63 - 1 →
  (∀ k x, lbs b !! k = Some x → LB_Name x ≠ q_lb q) → (∀ k x, tgs b !! k = Some x → TG_Name x ≠ q_tg q) →
  built b = run_all
    [OpCreateLoadBalancer (q_lb q) (mkCreateLoadBalancerOptions (if q_application q then "application" else "network") "" None);
     OpCreateTargetGroup (q_tg q) (mkCreateTargetGroupOptions "HTTP" (q_tgport q) "" (mkHealthCheck "" "" "" "") None);
     OpRegisterTargets (nextID "tg" (tgSeq b)) (q_targets q);
     OpCreateListener (mkCreateListenerOptions (nextID "lb" (lbSeq b)) "HTTP" (q_port q) (nextID "tg" (tgSeq b)) [] None);
     OpCreateRule (mkCreateRuleOptions (nextID "lsn" (lsnSeq b)) (q_priority q) (q_conditions q)
       (mkRuleAction (nextID "tg" (tgSeq b))) None)] b.
Proof.
  intros ([_ _ [N0 _] _ _ _ _] & (_ & _ & S3 & _) & Hrefs) Hn Hlb Htg. 
  cbn [run_all fold_left run]. unfold CreateLoadBalancer at 1.
  rewrite exists_in_none by (intros k x Hx; by apply String.eqb_neq, (Hlb k)).
  unfold CreateTargetGroup at 1. rewrite exists_in_none by (intros k x Hx; by apply String.eqb_neq, (Htg k)).
  unfold RegisterTargets at 1. cbn [fst tgs set_tgs set_lbs TG_ID]. rewrite lookup_insert_eq.
  unfold CreateListener at 1. cbn [fst lbs set_tgs set_lbs set_tg LB_ID cl_LoadBalancerID]. rewrite lookup_insert_eq.
  unfold CreateRule. cbn [fst lsns set_tgs set_lbs set_tg set_lsns Lsn_ID cru_ListenerID lsnSeq]. rewrite lookup_insert_eq.
  rewrite exists_in_none.
  - unfold built, set_rules, set_lsns, set_tg, set_tgs, set_lbs. cbn -[nextID]. rewrite insert_insert_eq, copyConditions_id, register_loop_first. fold (registered q).
    unfold new_lb. by destruct (q_application q).
  - intros k x Hx. apply andb_false_iff. left. apply String.eqb_neq. intros E. cbn in Hx.
    destruct (Hrefs k x Hx) as (m & Hm & E'). cbn in E. rewrite E in E'. apply seq_id_inj in E'; lia.
Qed.
End build.


Definition elb_demo_wanted : wanted :=
  mkWanted "shop" true "shop-tg" 8080 [mkTarget "i-1" 8080; mkTarget "i-2" 8081; mkTarget "i-1" 9090] 80 10
    [mkRuleCondition "path-pattern" ["/api/*"; "/v2/*"]; mkRuleCondition "host-header" ["shop.example"]].
Definition elb_demo_params (t : string) (_ : string) : string * option string := (t, None).

Lemma elb_demo_well_formed : well_formed elb_demo_wanted.
Proof.
  split_and!; try (cbn; lia).
  - repeat (apply Forall_cons; split); try (split; [done|cbn; lia]). by apply Forall_nil.
  - cbn. repeat (apply Forall_cons; split); try (split; [done|]; repeat (apply Forall_cons; split); done || by apply Forall_nil).
    by apply Forall_nil.
Qed.


(** ** Where the frontend departs from its protocol *)

(** A listener names its load balancer by the ARN of an application load
    balancer, also when it is a network load balancer and is shown under
    another ARN. *)
Theorem listener_of_network_lb (lb : LoadBalancer) (l : Listener) :
  Lsn_LoadBalancerID l = LB_ID lb →
  gln_LoadBalancerArn (domainListenerToGen l) = glb_Arn (domainLBToGen lb) ↔ LB_Type lb = "application".
Proof.
  intros Hl. cbn [gln_LoadBalancerArn domainListenerToGen glb_Arn domainLBToGen]. rewrite Hl.
  destruct (String.eqb_spec (LB_Type lb) LoadBalancerTypeApplication) as [->|Hne]; [done|].
  split; [|done]. intros E. unfold albARN, nlbARN, arn_of in E. do 5 apply str_app_inj_l in E. discriminate E.
Qed.

Lemma listener_of_network_lb_witness :
  gln_LoadBalancerArn (domainListenerToGen (mkListener "lsn-1" "lb-1" "TCP" 80 "" [] None)) ≠
  glb_Arn (domainLBToGen (mkLoadBalancer "lb-1" "n" "network" "" "active" "" None)).
Proof.
  intros E. by apply (listener_of_network_lb (mkLoadBalancer "lb-1" "n" "network" "" "active" "" None)
    (mkListener "lsn-1" "lb-1" "TCP" 80 "" [] None) eq_refl) in E.
Defined.

(** The wrapper's [FormValue] drops the error of a malformed form, so the
    request is served from the fields before the error, where the router alone
    would refuse it; and it answers the attribute actions of any method. *)
Definition malformed_post : Request :=
  mkRequest "POST" "localhost" "" "/" "" "/" "" ∅ {["Content-Type" := [form_type]]} 34
    (Some (Reads (bytes_of_string "Action=DescribeLoadBalancers&x=%zz"))).
Definition attribute_get : Request :=
  mkRequest "GET" "localhost" "" "/" "" "/" "Action=ModifyLoadBalancerAttributes" ∅ ∅ 0 None.

Lemma malformed_forms_served :
  (route Datatypes.id elb_demo_params "awsQuery requires POST"
     (λ status code message, WriteError (X := output) status "Sender" code message)
     RegisterElasticLoadBalancingv2Routes malformed_post =
   inl (WriteError 400 "Sender" "MalformedQueryString" "could not parse form body: invalid URL escape %zz")) ∧
  (elb_serve Datatypes.id elb_demo_params (λ _, ∅) [] malformed_post New).2 =
    Some (WriteResult "DescribeLoadBalancers" (Some (LoadBalancersOutput [] None))) ∧
  (elb_serve Datatypes.id elb_demo_params (λ _, ∅) [] attribute_get New).2 =
    Some (WriteResult "ModifyLoadBalancerAttributes" (Some Void)).
Proof. by vm_compute. Qed.

(** A modification replaces the whole health check: what it does not set is
    cleared. *)
Lemma modify_clears_health_check (Quote : string → string) (id : string) (tg : TargetGroup) (b : Backend) (port : string) :
  str_mem "/" id = false → tgs b !! id = Some tg →
  ∃ tg', tgs (Adapter_ModifyTargetGroup Quote
      (mkModifyTargetGroupInput (tgARN id) (mkHealthCheckInput None None (Some port) None)) b).1 !! id = Some tg' ∧
    TG_HealthCheck tg' = mkHealthCheck "" "" port "".
Proof.
  intros Hs Ht. unfold Adapter_ModifyTargetGroup. cbn [mti_TargetGroupArn]. rewrite shown_tg_id by done.
  unfold call, z_UpdateTargetGroup, inmem_lb, UpdateTargetGroup. rewrite Ht. cbn. rewrite lookup_insert_eq. by eexists.
Qed.
