(* ===== verification/Ec2.v ===== *)
(** * The EC2 frontend

    Models [internal/compute/frontends/aws_ec2/adapter.go] and the handlers and
    types of [services/compute/gen/aws_ec2.gen.go] that it serves, over the
    interface [Compute_].  Of a request the fields that the adapter reads are
    decoded.  [range] is the order of a range over a map of tags and [now] the
    clock, both of one request. *)

From Stdlib Require Import Ascii.
From S2P Require Import Prelude GoStrings GoBytes GoHttp GoUrl SigV4 AwsQuery Ec2Query Compute.

(** ** The domain's interfaces *)

(** [ComputeBackend]: [domain.Networking], [domain.Instances] and
    [domain.BlockStorage].  [Draws] is what a listing leaves open; the string
    beside a list is [NextToken]. *)
Class Compute_ (St : Type) := {
  Draws : Type;
  x_CreateNetwork : string → CreateNetworkOptions → St → St * result Network;
  x_GetNetwork : string → St → St * result Network;
  x_ListNetworks : Draws → list string → St → St * result (list Network * string);
  x_DeleteNetwork : string → St → St * result unit;
  x_CreateSubnet : string → CreateSubnetOptions → St → St * result Subnet;
  x_GetSubnet : string → St → St * result Subnet;
  x_ListSubnets : Draws → ListSubnetsOptions → St → St * result (list Subnet * string);
  x_DeleteSubnet : string → St → St * result unit;
  x_CreateSecurityGroup : string → CreateSecurityGroupOptions → St → St * result SecurityGroup;
  x_GetSecurityGroup : string → St → St * result SecurityGroup;
  x_ListSecurityGroups : Draws → ListSubnetsOptions → St → St * result (list SecurityGroup * string);
  x_DeleteSecurityGroup : string → St → St * result unit;
  x_AddRule : string → SecurityGroupRule → St → St * result unit;
  x_RemoveRule : string → SecurityGroupRule → St → St * result unit;
  x_AllocatePublicIP : AllocatePublicIPOptions → St → St * result PublicIP;
  x_AssociatePublicIP : string → string → St → St * result unit;
  x_DisassociatePublicIP : string → St → St * result unit;
  x_ReleasePublicIP : string → St → St * result unit;
  x_ListPublicIPs : Draws → list string → St → St * result (list PublicIP);
  x_RunInstances : RunInstancesOptions → St → St * result (list Instance_);
  x_DescribeInstances : Draws → DescribeInstancesOptions → St → St * result (list Instance_);
  x_StartInstances : list string → St → St * result (list Instance_);
  x_StopInstances : list string → St → St * result (list Instance_);
  x_TerminateInstances : list string → St → St * result (list Instance_);
  x_RebootInstances : list string → St → St * result unit;
  x_DescribeInstanceTypes : list string → St → St * result (list InstanceTypeInfo);
  x_CreateVolume : CreateVolumeOptions → St → St * result Volume;
  x_DescribeVolumes : Draws → DescribeVolumesOptions → St → St * result (list Volume);
  x_DeleteVolume : string → St → St * result unit;
  x_AttachVolume : string → string → string → St → St * result VolumeAttachment;
  x_DetachVolume : string → string → St → St * result VolumeAttachment;
  x_CreateSnapshot : string → CreateSnapshotOptions → St → St * result Snapshot;
  x_DescribeSnapshots : Draws → DescribeSnapshotsOptions → St → St * result (list Snapshot);
  x_DeleteSnapshot : string → St → St * result unit }.

Arguments Draws St {_}.

(** The in-process backend lists everything on one page. *)
Definition one_page {A} (c : Backend * result (list A)) : Backend * result (list A * string) :=
  (c.1, match c.2 with Ok l => Ok (l, "") | Err e => Err e | Panic => Panic end).

#[export] Instance inmem_compute : Compute_ Backend := {|
  Draws := list string;
  x_CreateNetwork := CreateNetwork; x_GetNetwork := GetNetwork;
  x_ListNetworks := λ d ids b, one_page (ListNetworks d ids b); x_DeleteNetwork := DeleteNetwork;
  x_CreateSubnet := CreateSubnet; x_GetSubnet := GetSubnet;
  x_ListSubnets := λ d opt b, one_page (ListSubnets d opt b); x_DeleteSubnet := DeleteSubnet;
  x_CreateSecurityGroup := CreateSecurityGroup; x_GetSecurityGroup := GetSecurityGroup;
  x_ListSecurityGroups := λ d opt b, one_page (ListSecurityGroups d opt b);
  x_DeleteSecurityGroup := DeleteSecurityGroup; x_AddRule := AddRule; x_RemoveRule := RemoveRule;
  x_AllocatePublicIP := AllocatePublicIP; x_AssociatePublicIP := AssociatePublicIP;
  x_DisassociatePublicIP := DisassociatePublicIP; x_ReleasePublicIP := ReleasePublicIP;
  x_ListPublicIPs := ListPublicIPs; x_RunInstances := RunInstances; x_DescribeInstances := DescribeInstances;
  x_StartInstances := StartInstances; x_StopInstances := StopInstances; x_TerminateInstances := TerminateInstances;
  x_RebootInstances := RebootInstances; x_DescribeInstanceTypes := DescribeInstanceTypes;
  x_CreateVolume := CreateVolume; x_DescribeVolumes := DescribeVolumes; x_DeleteVolume := DeleteVolume;
  x_AttachVolume := AttachVolume; x_DetachVolume := DetachVolume; x_CreateSnapshot := CreateSnapshot;
  x_DescribeSnapshots := DescribeSnapshots; x_DeleteSnapshot := DeleteSnapshot |}.

(** ** Generated types *)

Record CreateSubnetRequest := mkCreateSubnetRequest {
  csr_AvailabilityZone : option string; csr_CidrBlock : option string; csr_VpcId : string }.
Record CreateSecurityGroupRequest := mkCreateSecurityGroupRequest {
  cgr_Description : string; cgr_GroupName : string; cgr_VpcId : option string }.
(** Of the ingress the group is a pointer, of the egress a string. *)
Record AuthorizeSecurityGroupIngressRequest := mkAuthorizeIngressRequest {
  agr_CidrIp : option string; agr_FromPort : option Z; agr_GroupId : option string; agr_IpProtocol : option string;
  agr_ToPort : option Z }.
Record AuthorizeSecurityGroupEgressRequest := mkAuthorizeEgressRequest {
  aer_CidrIp : option string; aer_FromPort : option Z; aer_GroupId : string; aer_IpProtocol : option string;
  aer_ToPort : option Z }.
Record AssociateAddressRequest := mkAssociateAddressRequest {
  aar_AllocationId : option string; aar_InstanceId : option string }.
(** [InstanceType] is an enumeration, which the handler does not decode. *)
Record RunInstancesRequest := mkRunInstancesRequest {
  rir_ImageId : option string; rir_InstanceType : option string; rir_KeyName : option string; rir_MaxCount : Z;
  rir_MinCount : Z; rir_SecurityGroupIds : list string; rir_SubnetId : option string; rir_UserData : option string }.
(** [VolumeType] likewise. *)
Record CreateVolumeRequest := mkCreateVolumeRequest {
  cvr_AvailabilityZone : option string; cvr_Size : option Z; cvr_SnapshotId : option string;
  cvr_VolumeType : option string }.
Record AttachVolumeRequest := mkAttachVolumeRequest {
  avr_Device : string; avr_InstanceId : string; avr_VolumeId : string }.
Record DetachVolumeRequest := mkDetachVolumeRequest { dvr_InstanceId : option string; dvr_VolumeId : string }.
Record CreateSnapshotRequest := mkCreateSnapshotRequest { cnr_Description : option string; cnr_VolumeId : string }.

Abbreviation TagList := (list (string * string)).
Record gen_Vpc := mkGenVpc {
  gv_VpcId : string; gv_CidrBlock : string; gv_State : string; gv_InstanceTenancy : string; gv_OwnerId : string;
  gv_Tags : TagList }.
Record gen_Subnet := mkGenSubnet {
  gs_SubnetId : string; gs_CidrBlock : string; gs_VpcId : string; gs_State : string; gs_OwnerId : string;
  gs_Tags : TagList; gs_AvailabilityZone : option string }.
Record gen_IpPermission := mkGenIpPermission {
  gp_IpProtocol : string; gp_FromPort : option Z; gp_ToPort : option Z; gp_IpRanges : list string }.
Record gen_SecurityGroup := mkGenSecurityGroup {
  gg_GroupId : string; gg_GroupName : string; gg_Description : string; gg_VpcId : string; gg_OwnerId : string;
  gg_Tags : TagList; gg_IpPermissions : list gen_IpPermission; gg_IpPermissionsEgress : list gen_IpPermission }.
Record gen_SecurityGroupRule := mkGenSecurityGroupRule {
  gr_SecurityGroupRuleId : string; gr_GroupId : string; gr_IsEgress : bool; gr_IpProtocol : string;
  gr_FromPort : option Z; gr_ToPort : option Z; gr_CidrIpv4 : option string }.
Record gen_Address := mkGenAddress {
  ga_AllocationId : string; ga_PublicIp : string; ga_Domain : string; ga_Tags : TagList; ga_InstanceId : option string;
  ga_AssociationId : option string }.
Record gen_InstanceState := mkGenInstanceState { gis_Code : Z; gis_Name : string }.
Record gen_Instance := mkGenInstance {
  gi_InstanceId : string; gi_ImageId : string; gi_InstanceType : string; gi_State : gen_InstanceState;
  gi_PrivateIpAddress : string; gi_LaunchTime : Time; gi_SubnetId : option string; gi_VpcId : option string;
  gi_KeyName : option string; gi_PublicIpAddress : option string }.
Record gen_Reservation := mkGenReservation {
  grv_ReservationId : string; grv_OwnerId : string; grv_Instances : list gen_Instance }.
Record gen_InstanceStateChange := mkGenInstanceStateChange {
  gsc_InstanceId : string; gsc_CurrentState : gen_InstanceState; gsc_PreviousState : gen_InstanceState }.
(** An instance's state and the summaries of its two checks. *)
Record gen_InstanceStatus := mkGenInstanceStatus {
  gst_InstanceId : string; gst_InstanceState : gen_InstanceState; gst_InstanceStatus : string; gst_SystemStatus : string }.
Inductive attribute_value := AttributeValue (Value : string) | AttributeBooleanValue (Value : bool).
Record gen_Image := mkGenImage {
  gim_ImageId : string; gim_ImageLocation : string; gim_Name : string; gim_OwnerId : string; gim_State : string;
  gim_RootDeviceType : string; gim_Architecture : string; gim_VirtualizationType : string; gim_Hypervisor : string }.
Record gen_InstanceTypeInfo := mkGenInstanceTypeInfo { git_InstanceType : string; git_DefaultVCpus : Z; git_SizeInMiB : Z }.
Record gen_VolumeAttachment := mkGenVolumeAttachment {
  gva_VolumeId : string; gva_InstanceId : string; gva_Device : string; gva_State : string }.
Record gen_Volume := mkGenVolume {
  gvo_VolumeId : string; gvo_Size : Z; gvo_VolumeType : string; gvo_State : string; gvo_AvailabilityZone : string;
  gvo_CreateTime : Time; gvo_Tags : TagList; gvo_SnapshotId : option string; gvo_Attachments : list gen_VolumeAttachment }.
Record gen_Snapshot := mkGenSnapshot {
  gsn_SnapshotId : string; gsn_VolumeId : string; gsn_VolumeSize : Z; gsn_State : string; gsn_Description : string;
  gsn_Progress : string; gsn_Tags : TagList }.

(** The results; [Void] is [struct{}], which is not written.  An instance
    attribute has at most one field set beside the identifier: its name and its
    value.  [ReturnTrue] is the result of the changes of security groups. *)
Inductive output :=
  | VpcResult (Vpc : gen_Vpc)
  | VpcsResult (Vpcs : list gen_Vpc) (NextToken : option string)
  | NetworkInterfacesResult
  | VpcAttributeResult (VpcId : string) (EnableDnsHostnames EnableDnsSupport EnableNetworkAddressUsageMetrics : bool)
  | SubnetResult (Subnet_ : gen_Subnet)
  | SubnetsResult (Subnets : list gen_Subnet) (NextToken : option string)
  | GroupIdResult (GroupId : string)
  | ReturnTrue
  | SecurityGroupsResult (SecurityGroups : list gen_SecurityGroup) (NextToken : option string)
  | SecurityGroupRulesResult (SecurityGroupRules : list gen_SecurityGroupRule)
  | AllocateAddressResult (AllocationId PublicIp Domain : string)
  | AssociateAddressResult (AssociationId : string)
  | AddressesResult (Addresses : list gen_Address)
  | TagsResult
  | ImagesResult (Images : list gen_Image)
  | InstanceAttributeResult (InstanceId : string) (set : option (string * attribute_value))
  | InstanceStatusResult (InstanceStatuses : list gen_InstanceStatus)
  | VolumeResult (Volume_ : gen_Volume)
  | VolumesResult (Volumes : list gen_Volume)
  | VolumeAttachmentResult (att : gen_VolumeAttachment)
  | SnapshotResult (Snapshot_ : gen_Snapshot)
  | SnapshotsResult (Snapshots : list gen_Snapshot)
  | ReservationResult (r : gen_Reservation)
  | ReservationsResult (Reservations : list gen_Reservation)
  | StateChangesResult (Instances : list gen_InstanceStateChange)
  | InstanceTypesResult (InstanceTypes : list gen_InstanceTypeInfo)
  | Void.

(** ** Fields of the form *)

Section form_lists.
Context (form : gmap string (list string)).
Abbreviation get := (Query_Get form).

(** [form.Get], [strconv.Atoi] and the value beside its error. *)
Definition port_field (k : string) : Z := let v := get k in if String.eqb v "" then 0 else Atoi_value v.

Definition decodeFormPermissions (prefix : string) (dir : RuleDirection) : list SecurityGroupRule :=
  imap (λ n proto, let i := 1 + Z.of_nat n in
    mkRule proto (port_field (flat_field prefix "FromPort" i)) (port_field (flat_field prefix "ToPort" i))
      (members form (λ j, flat_field prefix "IpRanges" i +:+ "." +:+ Itoa j +:+ ".CidrIp")) dir)
    (members form (flat_field prefix "IpProtocol")).

(** The filters, each with its number. *)
Definition filters : list (Z * string) := imap (λ n name, (1 + Z.of_nat n, name)) (members form (flat_field "Filter" "Name")).
Definition filter_value (i : Z) (j : Z) : string := flat_field "Filter" "Value" i +:+ "." +:+ Itoa j.

(** The value of the last [vpc-id] filter that has one. *)
Definition vpc_filter : string :=
  fold_left (λ id f, let v := get (filter_value f.1 1) in
    if String.eqb f.2 "vpc-id" && negb (String.eqb v "") then v else id) filters "".
(** The value of the last [group-id] filter. *)
Definition group_filter : string :=
  fold_left (λ id f, if String.eqb f.2 "group-id" then get (filter_value f.1 1) else id) filters "".

Definition ec2StateToDomain (name : string) : option string :=
  if String.eqb name "pending" then Some InstanceStatePending
  else if String.eqb name "running" then Some InstanceStateRunning
  else if String.eqb name "stopped" || String.eqb name "stopping" then Some InstanceStateStopped
  else if String.eqb name "shutting-down" || String.eqb name "terminated" then Some InstanceStateTerminated
  else None.

Definition state_filter : list string :=
  mjoin ((λ f,
    if String.eqb f.2 "instance-state-name"
    then mjoin ((λ sv, omap (λ part, ec2StateToDomain (TrimSpace part)) (Split sv ","%char)) <$> members form (filter_value f.1))
    else []) <$> filters).
End form_lists.

(** ** Converters *)

Definition owner : string := "000000000000".
Definition unless_empty (s : string) : option string := if String.eqb s "" then None else Some s.

Section converters.
Context (range : gmap string string → list (string * string)) (now : Time).

Definition domainTagsToGen (tags : strmap) : TagList :=
  match tags with None => [] | Some m => if decide (m = ∅) then [] else range m end.

Definition domainVpcToGen (n : Network) : gen_Vpc :=
  mkGenVpc (Net_ID n) (Net_CIDR n) "available" "default" owner (domainTagsToGen (Net_Tags n)).
Definition domainSubnetToGen (s : Subnet) : gen_Subnet :=
  mkGenSubnet (Sub_ID s) (Sub_CIDR s) (Sub_NetworkID s) "available" owner (domainTagsToGen (Sub_Tags s))
    (unless_empty (Sub_Zone s)).

Definition domainRuleToPermission (r : SecurityGroupRule) : gen_IpPermission :=
  let from := wrap_s 32 (R_PortFrom r) in
  let to := wrap_s 32 (R_PortTo r) in
  let ports := negb (R_PortFrom r =? 0) || negb (R_PortTo r =? 0) in
  mkGenIpPermission (R_Protocol r) (if ports then Some from else None)
    (if ports then Some (if to =? 0 then from else to) else None) (R_CIDRs r).
Definition domainSGToGen (sg : SecurityGroup) : gen_SecurityGroup :=
  let perms inbound := domainRuleToPermission <$> filter (λ r, bool_decide (R_Direction r = Inbound) = inbound) (SG_Rules sg) in
  mkGenSecurityGroup (SG_ID sg) (SG_Name sg) (SG_Description sg) (SG_NetworkID sg) owner (domainTagsToGen (SG_Tags sg))
    (perms true) (perms false).
Definition ruleToGen (sg : SecurityGroup) (i : nat) (r : SecurityGroupRule) : gen_SecurityGroupRule :=
  mkGenSecurityGroupRule ("sgr-" +:+ SG_ID sg +:+ "-" +:+ Itoa (Z.of_nat i)) (SG_ID sg)
    (bool_decide (R_Direction r = Outbound)) (R_Protocol r)
    (if R_PortFrom r =? 0 then None else Some (wrap_s 32 (R_PortFrom r)))
    (if R_PortTo r =? 0 then None else Some (wrap_s 32 (R_PortTo r))) (head (R_CIDRs r)).

Definition association (id : string) : string := "eipassoc-" +:+ id.
Definition domainAddressToGen (ip : PublicIP) : gen_Address :=
  let associated := negb (String.eqb (IP_InstanceID ip) "") in
  mkGenAddress (IP_ID ip) (IP_Address ip) "vpc" (domainTagsToGen (IP_Tags ip))
    (if associated then Some (IP_InstanceID ip) else None) (if associated then Some (association (IP_ID ip)) else None).

Definition running : gen_InstanceState := mkGenInstanceState 16 "running".
Definition domainStateToGen (s : string) : gen_InstanceState :=
  if String.eqb s InstanceStatePending then mkGenInstanceState 0 "pending"
  else if String.eqb s InstanceStateRunning then running
  else if String.eqb s InstanceStateStopped then mkGenInstanceState 80 "stopped"
  else if String.eqb s InstanceStateTerminated then mkGenInstanceState 48 "terminated"
  else running.
Definition domainInstanceToGen (inst : Instance_) : gen_Instance :=
  mkGenInstance (I_ID inst) (I_ImageID inst) (I_InstanceType inst) (domainStateToGen (I_State inst)) (I_PrivateIP inst) now
    (unless_empty (I_SubnetID inst)) (unless_empty (I_NetworkID inst)) (unless_empty (I_KeyName inst))
    (unless_empty (I_PublicIP inst)).
Definition state_change (previous : string) (inst : Instance_) : gen_InstanceStateChange :=
  mkGenInstanceStateChange (I_ID inst) (domainStateToGen (I_State inst)) (domainStateToGen previous).
Definition typeToGen (t : InstanceTypeInfo) : gen_InstanceTypeInfo :=
  mkGenInstanceTypeInfo (IT_InstanceType t) (wrap_s 32 (IT_VCPUs t)) (IT_MemoryMiB t).
Definition imageToGen (id : string) : gen_Image :=
  mkGenImage id ("shimanism/" +:+ id) id owner "available" "ebs" "x86_64" "hvm" "xen".
Definition status_of (id : string) : gen_InstanceStatus := mkGenInstanceStatus id running "ok" "ok".

Definition domainVolumeToGen (vol : Volume) : gen_Volume :=
  mkGenVolume (V_ID vol) (wrap_s 32 (V_SizeGiB vol)) (V_VolumeType vol) (V_State vol) (V_Zone vol) now
    (domainTagsToGen (V_Tags vol)) (unless_empty (V_SnapshotID vol))
    (if String.eqb (V_InstanceID vol) "" then []
     else [mkGenVolumeAttachment (V_ID vol) (V_InstanceID vol) (V_DeviceName vol) VolumeAttachmentStateAttached]).
Definition domainVolumeAttachmentToGen (att : VolumeAttachment) : gen_VolumeAttachment :=
  mkGenVolumeAttachment (VA_VolumeID att) (VA_InstanceID att) (VA_DeviceName att) (VA_State att).
Definition domainSnapshotToGen (snap : Snapshot) : gen_Snapshot :=
  mkGenSnapshot (S_ID snap) (S_VolumeID snap) (wrap_s 32 (S_VolumeSize snap)) (S_State snap) (S_Description snap)
    (if String.eqb (S_State snap) SnapshotStatePending then "0%" else "100%") (domainTagsToGen (S_Tags snap)).
End converters.

(** What [DescribeInstanceAttribute] answers whatever the instance. *)
Definition default_attribute (name : string) : option (string * attribute_value) :=
  if String.eqb name "instanceInitiatedShutdownBehavior"
  then Some ("InstanceInitiatedShutdownBehavior", AttributeValue "stop")
  else if String.eqb name "disableApiTermination" then Some ("DisableApiTermination", AttributeBooleanValue false)
  else if String.eqb name "disableApiStop" then Some ("DisableApiStop", AttributeBooleanValue false)
  else if String.eqb name "ebsOptimized" then Some ("EbsOptimized", AttributeBooleanValue false)
  else if String.eqb name "enaSupport" then Some ("EnaSupport", AttributeBooleanValue true)
  else if String.eqb name "userData" then Some ("UserData", AttributeValue "")
  else if String.eqb name "sriovNetSupport" then Some ("SriovNetSupport", AttributeValue "")
  else if String.eqb name "rootDeviceName" then Some ("RootDeviceName", AttributeValue "/dev/xvda")
  else None.

(** ** The adapter's methods *)

Section adapter.
Context `{Compute_ St} (Quote : string → string) (range : gmap string string → list (string * string)) (now : Time).
Context (d : Draws St) (form : gmap string (list string)).
Implicit Types (s : St).

Definition mapDomainErr (err : error) : api_error :=
  EBackend
    (if IsNotFound err then mkBackendError 400 "InvalidParameterValue" (Error_text Quote err)
     else if IsAlreadyExists err then mkBackendError 400 "InvalidParameterValue" (Error_text Quote err)
     else if IsNotSupported err then mkBackendError 400 "UnsupportedOperation" (Error_text Quote err)
     else mkBackendError 500 "InternalError" (Error_text Quote err)).

Definition call {A} (c : St * result A) (k : A → api output) : St * api output :=
  (c.1, match c.2 with Ok a => k a | Err e => Err (mapDomainErr e) | Panic => Panic end).
Definition deleted (c : St * result unit) : St * api output := call c (λ _, Ok Void).
(** A list with its token. *)
Definition listed {A B} (k : list B → option string → output) (f : A → B) (page : list A * string) : api output :=
  Ok (k (f <$> page.1) (unless_empty page.2)).

Definition Adapter_CreateVpc (CidrBlock : option string) s : St * api output :=
  let cidr := default "" CidrBlock in
  let name := if String.eqb cidr "" then "vpc" else cidr in
  call (x_CreateNetwork name (mkCreateNetworkOptions cidr None) s) (λ n, Ok (VpcResult (domainVpcToGen range n))).
Definition Adapter_DeleteVpc (id : string) s : St * api output := deleted (x_DeleteNetwork id s).
Definition Adapter_DescribeVpcs (ids : list string) s : St * api output :=
  call (x_ListNetworks d ids s) (listed VpcsResult (domainVpcToGen range)).
Definition Adapter_DescribeNetworkInterfaces s : St * api output := (s, Ok NetworkInterfacesResult).
Definition Adapter_DescribeVpcAttribute (id : string) s : St * api output := (s, Ok (VpcAttributeResult id true true false)).
Definition Adapter_ModifyVpcAttribute s : St * api output := (s, Ok Void).

(** [strings.ReplaceAll(cidr, "/", "-")] *)
Definition dashed (cidr : string) : string := str_map (λ c, if Ascii.eqb c "/" then "-"%char else c) cidr.
Definition Adapter_CreateSubnet (i : CreateSubnetRequest) s : St * api output :=
  let cidr := default "" (csr_CidrBlock i) in
  let name := if String.eqb cidr "" then "subnet" else dashed cidr in
  call (x_CreateSubnet name (mkCreateSubnetOptions (csr_VpcId i) cidr (default "" (csr_AvailabilityZone i)) None) s)
    (λ n, Ok (SubnetResult (domainSubnetToGen range n))).
Definition Adapter_DeleteSubnet (id : string) s : St * api output := deleted (x_DeleteSubnet id s).
Definition Adapter_DescribeSubnets (ids : list string) s : St * api output :=
  call (x_ListSubnets d (mkListSubnetsOptions (vpc_filter form) ids) s) (listed SubnetsResult (domainSubnetToGen range)).
Definition Adapter_ModifySubnetAttribute s : St * api output := (s, Ok Void).

Definition Adapter_CreateSecurityGroup (i : CreateSecurityGroupRequest) s : St * api output :=
  call (x_CreateSecurityGroup (cgr_GroupName i)
      (mkCreateSecurityGroupOptions (default "" (cgr_VpcId i)) (cgr_Description i) None) s)
    (λ sg, Ok (GroupIdResult (SG_ID sg))).
Definition Adapter_DeleteSecurityGroup (GroupId : option string) s : St * api output :=
  call (x_DeleteSecurityGroup (default "" GroupId) s) (λ _, Ok ReturnTrue).
Definition Adapter_DescribeSecurityGroups (ids : list string) s : St * api output :=
  call (x_ListSecurityGroups d (mkListSubnetsOptions "" ids) s) (listed SecurityGroupsResult (domainSGToGen range)).

(** The loops over the rules: those before a failure stay. *)
Fixpoint each_rule (change : SecurityGroupRule → St → St * result unit) (rules : list SecurityGroupRule) s
    : St * result unit :=
  match rules with
  | [] => (s, Ok ())
  | rule :: rules =>
      let '(s, res) := change rule s in
      match res with Ok _ => each_rule change rules s | Err e => (s, Err e) | Panic => (s, Panic) end
  end.
Definition changed (change : SecurityGroupRule → St → St * result unit) (rules : list SecurityGroupRule) s
    : St * api output :=
  call (each_rule change rules s) (λ _, Ok ReturnTrue).

Definition flat_rule (CidrIp IpProtocol : option string) (FromPort ToPort : option Z) (dir : RuleDirection)
    : SecurityGroupRule :=
  mkRule (default "" IpProtocol) (default 0 FromPort) (default 0 ToPort) (option_list CidrIp) dir.
Definition flatRuleFromIngress (i : AuthorizeSecurityGroupIngressRequest) : SecurityGroupRule :=
  flat_rule (agr_CidrIp i) (agr_IpProtocol i) (agr_FromPort i) (agr_ToPort i) Inbound.
(** The rules of the form, or the one of the flat fields. *)
Definition rules_or_flat (rules : list SecurityGroupRule) (CidrIp : option string) (flat : SecurityGroupRule)
    : list SecurityGroupRule :=
  match rules, CidrIp with [], Some _ => [flat] | _, _ => rules end.

Definition Adapter_AuthorizeSecurityGroupIngress (i : AuthorizeSecurityGroupIngressRequest) s : St * api output :=
  changed (x_AddRule (default "" (agr_GroupId i)))
    (rules_or_flat (decodeFormPermissions form "IpPermissions" Inbound) (agr_CidrIp i) (flatRuleFromIngress i)) s.
Definition Adapter_RevokeSecurityGroupIngress (GroupId : option string) s : St * api output :=
  changed (x_RemoveRule (default "" GroupId)) (decodeFormPermissions form "IpPermissions" Inbound) s.
Definition Adapter_AuthorizeSecurityGroupEgress (i : AuthorizeSecurityGroupEgressRequest) s : St * api output :=
  changed (x_AddRule (aer_GroupId i))
    (rules_or_flat (decodeFormPermissions form "IpPermissions" Outbound) (aer_CidrIp i)
       (flat_rule (aer_CidrIp i) (aer_IpProtocol i) (aer_FromPort i) (aer_ToPort i) Outbound)) s.
Definition Adapter_RevokeSecurityGroupEgress (GroupId : string) s : St * api output :=
  changed (x_RemoveRule GroupId) (decodeFormPermissions form "IpPermissions" Outbound) s.
Definition Adapter_DescribeSecurityGroupRules s : St * api output :=
  let sgID := group_filter form in
  if String.eqb sgID "" then (s, Ok (SecurityGroupRulesResult []))
  else call (x_GetSecurityGroup sgID s) (λ sg, Ok (SecurityGroupRulesResult (imap (ruleToGen sg) (SG_Rules sg)))).

Definition Adapter_AllocateAddress s : St * api output :=
  call (x_AllocatePublicIP (mkAllocatePublicIPOptions "" "" None) s)
    (λ ip, Ok (AllocateAddressResult (IP_ID ip) (IP_Address ip) "vpc")).
Definition Adapter_ReleaseAddress (AllocationId : option string) s : St * api output :=
  deleted (x_ReleasePublicIP (default "" AllocationId) s).
Definition Adapter_AssociateAddress (i : AssociateAddressRequest) s : St * api output :=
  let id := default "" (aar_AllocationId i) in
  call (x_AssociatePublicIP id (default "" (aar_InstanceId i)) s) (λ _, Ok (AssociateAddressResult (association id))).
Definition Adapter_DisassociateAddress (AssociationId : option string) s : St * api output :=
  deleted (x_DisassociatePublicIP (TrimPrefix (default "" AssociationId) "eipassoc-") s).
Definition Adapter_DescribeAddresses (ids : list string) s : St * api output :=
  call (x_ListPublicIPs d ids s) (λ l, Ok (AddressesResult (domainAddressToGen range <$> l))).

Definition Adapter_CreateTags s : St * api output := (s, Ok Void).
Definition Adapter_DeleteTags s : St * api output := (s, Ok Void).
Definition Adapter_DescribeTags s : St * api output := (s, Ok TagsResult).

Definition Adapter_ModifyInstanceAttribute s : St * api output := (s, Ok Void).
(** The identifiers of the form, or those of all instances. *)
Definition Adapter_DescribeInstanceStatus s : St * api output :=
  match members form (flat_key "InstanceId") with
  | [] => call (x_DescribeInstances d (mkDescribeInstancesOptions [] []) s)
            (λ l, Ok (InstanceStatusResult ((λ i, status_of (I_ID i)) <$> l)))
  | ids => (s, Ok (InstanceStatusResult (status_of <$> ids)))
  end.
Definition Adapter_DescribeInstanceAttribute (InstanceId : string) s : St * api output :=
  let name := Query_Get form "Attribute" in
  if String.eqb name "instanceType"
  then
    let '(s, res) := x_DescribeInstances d (mkDescribeInstancesOptions [InstanceId] []) s in
    match res with
    | Ok (inst :: _) =>
        (s, Ok (InstanceAttributeResult InstanceId (Some ("InstanceType", AttributeValue (I_InstanceType inst)))))
    | Ok [] | Err _ => (s, Ok (InstanceAttributeResult InstanceId None))
    | Panic => (s, Panic)
    end
  else (s, Ok (InstanceAttributeResult InstanceId (default_attribute name))).
Definition Adapter_DescribeImages (ids : list string) s : St * api output := (s, Ok (ImagesResult (imageToGen <$> ids))).

(** The answer's identifier is made from the first instance. *)
Definition reservation (insts : list Instance_) : api output :=
  match insts with
  | [] => Panic
  | first :: _ => Ok (ReservationResult (mkGenReservation ("r-" +:+ I_ID first) owner (domainInstanceToGen now <$> insts)))
  end.
Definition Adapter_RunInstances (i : RunInstancesRequest) s : St * api output :=
  let v := Query_Get form "InstanceType" in
  let type := if String.eqb v "" then default "" (rir_InstanceType i) else v in
  call (x_RunInstances (mkRunInstancesOptions (default "" (rir_ImageId i)) type (rir_MinCount i) (rir_MaxCount i) ""
      (default "" (rir_SubnetId i)) (rir_SecurityGroupIds i) (default "" (rir_KeyName i)) (default "" (rir_UserData i)) None) s)
    reservation.
Definition Adapter_DescribeInstances (ids : list string) s : St * api output :=
  call (x_DescribeInstances d (mkDescribeInstancesOptions ids (state_filter form)) s) (λ l,
    Ok (ReservationsResult match l with [] => [] | _ => [mkGenReservation "r-shim" owner (domainInstanceToGen now <$> l)] end)).
Definition Adapter_StartInstances (ids : list string) s : St * api output :=
  call (x_StartInstances ids s) (λ l, Ok (StateChangesResult (state_change InstanceStateStopped <$> l))).
Definition Adapter_StopInstances (ids : list string) s : St * api output :=
  call (x_StopInstances ids s) (λ l, Ok (StateChangesResult (state_change InstanceStateRunning <$> l))).
Definition Adapter_TerminateInstances (ids : list string) s : St * api output :=
  call (x_TerminateInstances ids s) (λ l, Ok (StateChangesResult (state_change InstanceStateRunning <$> l))).
Definition Adapter_RebootInstances (ids : list string) s : St * api output := deleted (x_RebootInstances ids s).
(** [InstanceTypes] is a list of an enumeration, which the handler does not decode. *)
Definition Adapter_DescribeInstanceTypes s : St * api output :=
  call (x_DescribeInstanceTypes (members form (flat_key "InstanceType")) s)
    (λ l, Ok (InstanceTypesResult (typeToGen <$> l))).

Definition Adapter_CreateVolume (i : CreateVolumeRequest) s : St * api output :=
  call (x_CreateVolume (mkCreateVolumeOptions (default 0 (cvr_Size i)) (default "" (cvr_VolumeType i))
      (default "" (cvr_AvailabilityZone i)) (default "" (cvr_SnapshotId i)) None) s)
    (λ vol, Ok (VolumeResult (domainVolumeToGen range now vol))).
Definition Adapter_DeleteVolume (id : string) s : St * api output := deleted (x_DeleteVolume id s).
Definition Adapter_DescribeVolumes (ids : list string) s : St * api output :=
  call (x_DescribeVolumes d (mkDescribeVolumesOptions ids "") s)
    (λ l, Ok (VolumesResult (domainVolumeToGen range now <$> l))).
Definition Adapter_AttachVolume (i : AttachVolumeRequest) s : St * api output :=
  call (x_AttachVolume (avr_VolumeId i) (avr_InstanceId i) (avr_Device i) s)
    (λ att, Ok (VolumeAttachmentResult (domainVolumeAttachmentToGen att))).
Definition Adapter_DetachVolume (i : DetachVolumeRequest) s : St * api output :=
  call (x_DetachVolume (dvr_VolumeId i) (default "" (dvr_InstanceId i)) s)
    (λ att, Ok (VolumeAttachmentResult (domainVolumeAttachmentToGen att))).
Definition Adapter_CreateSnapshot (i : CreateSnapshotRequest) s : St * api output :=
  call (x_CreateSnapshot (cnr_VolumeId i) (mkCreateSnapshotOptions (default "" (cnr_Description i)) None) s)
    (λ snap, Ok (SnapshotResult (domainSnapshotToGen range snap))).
Definition Adapter_DeleteSnapshot (id : string) s : St * api output := deleted (x_DeleteSnapshot id s).
Definition Adapter_DescribeSnapshots (ids : list string) s : St * api output :=
  call (x_DescribeSnapshots d (mkDescribeSnapshotsOptions ids "") s)
    (λ l, Ok (SnapshotsResult (domainSnapshotToGen range <$> l))).
End adapter.

(** ** Handlers and routes *)

Inductive ec2_op :=
  | CreateVpcHandler | DeleteVpcHandler | DescribeVpcsHandler | DescribeNetworkInterfacesHandler
  | DescribeVpcAttributeHandler | ModifyVpcAttributeHandler | CreateSubnetHandler | DeleteSubnetHandler
  | DescribeSubnetsHandler | ModifySubnetAttributeHandler | CreateSecurityGroupHandler
  | DeleteSecurityGroupHandler | DescribeSecurityGroupsHandler | AuthorizeSecurityGroupIngressHandler
  | RevokeSecurityGroupIngressHandler | AuthorizeSecurityGroupEgressHandler | RevokeSecurityGroupEgressHandler
  | DescribeSecurityGroupRulesHandler | AllocateAddressHandler | ReleaseAddressHandler | AssociateAddressHandler
  | DisassociateAddressHandler | DescribeAddressesHandler | CreateTagsHandler | DeleteTagsHandler
  | DescribeTagsHandler | DescribeImagesHandler | DescribeInstanceAttributeHandler | DescribeInstanceStatusHandler
  | CreateVolumeHandler | DeleteVolumeHandler | DescribeVolumesHandler | AttachVolumeHandler
  | DetachVolumeHandler | CreateSnapshotHandler | DeleteSnapshotHandler | DescribeSnapshotsHandler
  | ModifyInstanceAttributeHandler | RunInstancesHandler | DescribeInstancesHandler | StartInstancesHandler
  | StopInstancesHandler | TerminateInstancesHandler | RebootInstancesHandler | DescribeInstanceTypesHandler.

Definition op_name (o : ec2_op) : string :=
  match o with
  | CreateVpcHandler => "CreateVpc" | DeleteVpcHandler => "DeleteVpc" | DescribeVpcsHandler => "DescribeVpcs"
  | DescribeNetworkInterfacesHandler => "DescribeNetworkInterfaces"
  | DescribeVpcAttributeHandler => "DescribeVpcAttribute" | ModifyVpcAttributeHandler => "ModifyVpcAttribute"
  | CreateSubnetHandler => "CreateSubnet" | DeleteSubnetHandler => "DeleteSubnet"
  | DescribeSubnetsHandler => "DescribeSubnets" | ModifySubnetAttributeHandler => "ModifySubnetAttribute"
  | CreateSecurityGroupHandler => "CreateSecurityGroup" | DeleteSecurityGroupHandler => "DeleteSecurityGroup"
  | DescribeSecurityGroupsHandler => "DescribeSecurityGroups"
  | AuthorizeSecurityGroupIngressHandler => "AuthorizeSecurityGroupIngress"
  | RevokeSecurityGroupIngressHandler => "RevokeSecurityGroupIngress"
  | AuthorizeSecurityGroupEgressHandler => "AuthorizeSecurityGroupEgress"
  | RevokeSecurityGroupEgressHandler => "RevokeSecurityGroupEgress"
  | DescribeSecurityGroupRulesHandler => "DescribeSecurityGroupRules"
  | AllocateAddressHandler => "AllocateAddress" | ReleaseAddressHandler => "ReleaseAddress"
  | AssociateAddressHandler => "AssociateAddress" | DisassociateAddressHandler => "DisassociateAddress"
  | DescribeAddressesHandler => "DescribeAddresses" | CreateTagsHandler => "CreateTags"
  | DeleteTagsHandler => "DeleteTags" | DescribeTagsHandler => "DescribeTags"
  | DescribeImagesHandler => "DescribeImages" | DescribeInstanceAttributeHandler => "DescribeInstanceAttribute"
  | DescribeInstanceStatusHandler => "DescribeInstanceStatus" | CreateVolumeHandler => "CreateVolume"
  | DeleteVolumeHandler => "DeleteVolume" | DescribeVolumesHandler => "DescribeVolumes"
  | AttachVolumeHandler => "AttachVolume" | DetachVolumeHandler => "DetachVolume"
  | CreateSnapshotHandler => "CreateSnapshot" | DeleteSnapshotHandler => "DeleteSnapshot"
  | DescribeSnapshotsHandler => "DescribeSnapshots" | ModifyInstanceAttributeHandler => "ModifyInstanceAttribute"
  | RunInstancesHandler => "RunInstances" | DescribeInstancesHandler => "DescribeInstances"
  | StartInstancesHandler => "StartInstances" | StopInstancesHandler => "StopInstances"
  | TerminateInstancesHandler => "TerminateInstances" | RebootInstancesHandler => "RebootInstances"
  | DescribeInstanceTypesHandler => "DescribeInstanceTypes"
  end.
Definition ec2_ops : list ec2_op :=
  [CreateVpcHandler; DeleteVpcHandler; DescribeVpcsHandler; DescribeNetworkInterfacesHandler;
   DescribeVpcAttributeHandler; ModifyVpcAttributeHandler; CreateSubnetHandler; DeleteSubnetHandler;
   DescribeSubnetsHandler; ModifySubnetAttributeHandler; CreateSecurityGroupHandler; DeleteSecurityGroupHandler;
   DescribeSecurityGroupsHandler; AuthorizeSecurityGroupIngressHandler; RevokeSecurityGroupIngressHandler;
   AuthorizeSecurityGroupEgressHandler; RevokeSecurityGroupEgressHandler; DescribeSecurityGroupRulesHandler;
   AllocateAddressHandler; ReleaseAddressHandler; AssociateAddressHandler; DisassociateAddressHandler;
   DescribeAddressesHandler; CreateTagsHandler; DeleteTagsHandler; DescribeTagsHandler; DescribeImagesHandler;
   DescribeInstanceAttributeHandler; DescribeInstanceStatusHandler; CreateVolumeHandler; DeleteVolumeHandler;
   DescribeVolumesHandler; AttachVolumeHandler; DetachVolumeHandler; CreateSnapshotHandler;
   DeleteSnapshotHandler; DescribeSnapshotsHandler; ModifyInstanceAttributeHandler; RunInstancesHandler;
   DescribeInstancesHandler; StartInstancesHandler; StopInstancesHandler; TerminateInstancesHandler;
   RebootInstancesHandler; DescribeInstanceTypesHandler].
Definition RegisterEC2Routes : Router ec2_op :=
  fold_left (λ rt o, Register (op_name o) o rt) ec2_ops (NewRouter "AmazonEC2").

Section decoding.
Context (form : gmap string (list string)).
Abbreviation get := (Query_Get form).
Abbreviation field := (form_field form).

Definition decode_CreateSubnet : CreateSubnetRequest :=
  mkCreateSubnetRequest (field "AvailabilityZone") (field "CidrBlock") (get "VpcId").
Definition decode_CreateSecurityGroup : CreateSecurityGroupRequest :=
  mkCreateSecurityGroupRequest (get "Description") (get "GroupName") (field "VpcId").
Definition decode_AuthorizeSecurityGroupIngress : AuthorizeSecurityGroupIngressRequest :=
  mkAuthorizeIngressRequest (field "CidrIp") (form_int32 form "FromPort") (field "GroupId") (field "IpProtocol")
    (form_int32 form "ToPort").
Definition decode_AuthorizeSecurityGroupEgress : AuthorizeSecurityGroupEgressRequest :=
  mkAuthorizeEgressRequest (field "CidrIp") (form_int32 form "FromPort") (get "GroupId") (field "IpProtocol")
    (form_int32 form "ToPort").
Definition decode_AssociateAddress : AssociateAddressRequest :=
  mkAssociateAddressRequest (field "AllocationId") (field "InstanceId").
Definition decode_RunInstances : RunInstancesRequest :=
  mkRunInstancesRequest (field "ImageId") None (field "KeyName") (default 0 (form_int32 form "MaxCount"))
    (default 0 (form_int32 form "MinCount")) (members form (flat_key "SecurityGroupId")) (field "SubnetId")
    (field "UserData").
Definition decode_CreateVolume : CreateVolumeRequest :=
  mkCreateVolumeRequest (field "AvailabilityZone") (form_int32 form "Size") (field "SnapshotId") None.
Definition decode_AttachVolume : AttachVolumeRequest :=
  mkAttachVolumeRequest (get "Device") (get "InstanceId") (get "VolumeId").
Definition decode_DetachVolume : DetachVolumeRequest := mkDetachVolumeRequest (field "InstanceId") (get "VolumeId").
Definition decode_CreateSnapshot : CreateSnapshotRequest := mkCreateSnapshotRequest (field "Description") (get "VolumeId").
(** The identifiers that a listing or a change of states names. *)
Definition decode_ids (name : string) : list string := members form (flat_key name).
End decoding.

Section handlers.
Context `{Compute_ St} (Quote : string → string) (range : gmap string string → list (string * string)) (now : Time).
Context (d : Draws St).

(** One definition per handler: what it decodes of the form, and the call. *)
Abbreviation handler := (gmap string (list string) → St → St * api output).
Abbreviation get := Query_Get.
Abbreviation field := form_field.

Definition serve_CreateVpc : handler := λ form, Adapter_CreateVpc Quote range (field form "CidrBlock").
Definition serve_DeleteVpc : handler := λ form, Adapter_DeleteVpc Quote (get form "VpcId").
Definition serve_DescribeVpcs : handler := λ form, Adapter_DescribeVpcs Quote range d (decode_ids form "VpcId").
Definition serve_DescribeNetworkInterfaces : handler := λ _, Adapter_DescribeNetworkInterfaces.
Definition serve_DescribeVpcAttribute : handler := λ form, Adapter_DescribeVpcAttribute (get form "VpcId").
Definition serve_ModifyVpcAttribute : handler := λ _, Adapter_ModifyVpcAttribute.
Definition serve_CreateSubnet : handler := λ form, Adapter_CreateSubnet Quote range (decode_CreateSubnet form).
Definition serve_DeleteSubnet : handler := λ form, Adapter_DeleteSubnet Quote (get form "SubnetId").
Definition serve_DescribeSubnets : handler := λ form,
  Adapter_DescribeSubnets Quote range d form (decode_ids form "SubnetId").
Definition serve_ModifySubnetAttribute : handler := λ _, Adapter_ModifySubnetAttribute.
Definition serve_CreateSecurityGroup : handler := λ form,
  Adapter_CreateSecurityGroup Quote (decode_CreateSecurityGroup form).
Definition serve_DeleteSecurityGroup : handler := λ form, Adapter_DeleteSecurityGroup Quote (field form "GroupId").
Definition serve_DescribeSecurityGroups : handler := λ form,
  Adapter_DescribeSecurityGroups Quote range d (decode_ids form "GroupId").
Definition serve_AuthorizeSecurityGroupIngress : handler := λ form,
  Adapter_AuthorizeSecurityGroupIngress Quote form (decode_AuthorizeSecurityGroupIngress form).
Definition serve_RevokeSecurityGroupIngress : handler := λ form,
  Adapter_RevokeSecurityGroupIngress Quote form (field form "GroupId").
Definition serve_AuthorizeSecurityGroupEgress : handler := λ form,
  Adapter_AuthorizeSecurityGroupEgress Quote form (decode_AuthorizeSecurityGroupEgress form).
Definition serve_RevokeSecurityGroupEgress : handler := λ form,
  Adapter_RevokeSecurityGroupEgress Quote form (get form "GroupId").
Definition serve_DescribeSecurityGroupRules : handler := λ form, Adapter_DescribeSecurityGroupRules Quote form.
Definition serve_AllocateAddress : handler := λ _, Adapter_AllocateAddress Quote.
Definition serve_ReleaseAddress : handler := λ form, Adapter_ReleaseAddress Quote (field form "AllocationId").
Definition serve_AssociateAddress : handler := λ form, Adapter_AssociateAddress Quote (decode_AssociateAddress form).
Definition serve_DisassociateAddress : handler := λ form,
  Adapter_DisassociateAddress Quote (field form "AssociationId").
Definition serve_DescribeAddresses : handler := λ form,
  Adapter_DescribeAddresses Quote range d (decode_ids form "AllocationId").
Definition serve_CreateTags : handler := λ _, Adapter_CreateTags.
Definition serve_DeleteTags : handler := λ _, Adapter_DeleteTags.
Definition serve_DescribeTags : handler := λ _, Adapter_DescribeTags.
Definition serve_DescribeImages : handler := λ form, Adapter_DescribeImages (decode_ids form "ImageId").
Definition serve_DescribeInstanceAttribute : handler := λ form,
  Adapter_DescribeInstanceAttribute d form (get form "InstanceId").
Definition serve_DescribeInstanceStatus : handler := λ form, Adapter_DescribeInstanceStatus Quote d form.
Definition serve_CreateVolume : handler := λ form, Adapter_CreateVolume Quote range now (decode_CreateVolume form).
Definition serve_DeleteVolume : handler := λ form, Adapter_DeleteVolume Quote (get form "VolumeId").
Definition serve_DescribeVolumes : handler := λ form,
  Adapter_DescribeVolumes Quote range now d (decode_ids form "VolumeId").
Definition serve_AttachVolume : handler := λ form, Adapter_AttachVolume Quote (decode_AttachVolume form).
Definition serve_DetachVolume : handler := λ form, Adapter_DetachVolume Quote (decode_DetachVolume form).
Definition serve_CreateSnapshot : handler := λ form, Adapter_CreateSnapshot Quote range (decode_CreateSnapshot form).
Definition serve_DeleteSnapshot : handler := λ form, Adapter_DeleteSnapshot Quote (get form "SnapshotId").
Definition serve_DescribeSnapshots : handler := λ form,
  Adapter_DescribeSnapshots Quote range d (decode_ids form "SnapshotId").
Definition serve_ModifyInstanceAttribute : handler := λ _, Adapter_ModifyInstanceAttribute.
Definition serve_RunInstances : handler := λ form, Adapter_RunInstances Quote now form (decode_RunInstances form).
Definition serve_DescribeInstances : handler := λ form,
  Adapter_DescribeInstances Quote now d form (decode_ids form "InstanceId").
Definition serve_StartInstances : handler := λ form, Adapter_StartInstances Quote (decode_ids form "InstanceId").
Definition serve_StopInstances : handler := λ form, Adapter_StopInstances Quote (decode_ids form "InstanceId").
Definition serve_TerminateInstances : handler := λ form,
  Adapter_TerminateInstances Quote (decode_ids form "InstanceId").
Definition serve_RebootInstances : handler := λ form, Adapter_RebootInstances Quote (decode_ids form "InstanceId").
Definition serve_DescribeInstanceTypes : handler := λ form, Adapter_DescribeInstanceTypes Quote form.

Definition Adapter_serve (o : ec2_op) : handler :=
  match o with
  | CreateVpcHandler => serve_CreateVpc | DeleteVpcHandler => serve_DeleteVpc
  | DescribeVpcsHandler => serve_DescribeVpcs | DescribeNetworkInterfacesHandler => serve_DescribeNetworkInterfaces
  | DescribeVpcAttributeHandler => serve_DescribeVpcAttribute
  | ModifyVpcAttributeHandler => serve_ModifyVpcAttribute | CreateSubnetHandler => serve_CreateSubnet
  | DeleteSubnetHandler => serve_DeleteSubnet | DescribeSubnetsHandler => serve_DescribeSubnets
  | ModifySubnetAttributeHandler => serve_ModifySubnetAttribute
  | CreateSecurityGroupHandler => serve_CreateSecurityGroup
  | DeleteSecurityGroupHandler => serve_DeleteSecurityGroup
  | DescribeSecurityGroupsHandler => serve_DescribeSecurityGroups
  | AuthorizeSecurityGroupIngressHandler => serve_AuthorizeSecurityGroupIngress
  | RevokeSecurityGroupIngressHandler => serve_RevokeSecurityGroupIngress
  | AuthorizeSecurityGroupEgressHandler => serve_AuthorizeSecurityGroupEgress
  | RevokeSecurityGroupEgressHandler => serve_RevokeSecurityGroupEgress
  | DescribeSecurityGroupRulesHandler => serve_DescribeSecurityGroupRules
  | AllocateAddressHandler => serve_AllocateAddress | ReleaseAddressHandler => serve_ReleaseAddress
  | AssociateAddressHandler => serve_AssociateAddress | DisassociateAddressHandler => serve_DisassociateAddress
  | DescribeAddressesHandler => serve_DescribeAddresses | CreateTagsHandler => serve_CreateTags
  | DeleteTagsHandler => serve_DeleteTags | DescribeTagsHandler => serve_DescribeTags
  | DescribeImagesHandler => serve_DescribeImages
  | DescribeInstanceAttributeHandler => serve_DescribeInstanceAttribute
  | DescribeInstanceStatusHandler => serve_DescribeInstanceStatus | CreateVolumeHandler => serve_CreateVolume
  | DeleteVolumeHandler => serve_DeleteVolume | DescribeVolumesHandler => serve_DescribeVolumes
  | AttachVolumeHandler => serve_AttachVolume | DetachVolumeHandler => serve_DetachVolume
  | CreateSnapshotHandler => serve_CreateSnapshot | DeleteSnapshotHandler => serve_DeleteSnapshot
  | DescribeSnapshotsHandler => serve_DescribeSnapshots
  | ModifyInstanceAttributeHandler => serve_ModifyInstanceAttribute | RunInstancesHandler => serve_RunInstances
  | DescribeInstancesHandler => serve_DescribeInstances | StartInstancesHandler => serve_StartInstances
  | StopInstancesHandler => serve_StopInstances | TerminateInstancesHandler => serve_TerminateInstances
  | RebootInstancesHandler => serve_RebootInstances | DescribeInstanceTypesHandler => serve_DescribeInstanceTypes
  end.

(** [struct{}] is written as nothing. *)
Definition written (x : output) : option output := match x with Void => None | x => Some x end.
Definition handle (o : ec2_op) (form : gmap string (list string)) (s : St) : St * option (Response (payload output)) :=
  reply (op_name o) (Adapter_serve o form s) written.

Definition Ec2_ServeHTTP (parse_params : string → string → string * option string) (r : Request) (s : St)
    : St * option (Response (payload output)) :=
  Query_ServeHTTP Quote parse_params handle RegisterEC2Routes r s.

(** [New], at the time [now]. *)
Definition Ec2_New (getenv : string → string) (parse_params : string → string → string * option string)
    : Request → St → St * option (Response (payload output)) :=
  Query_New Quote "ec2" getenv now (Ec2_ServeHTTP parse_params).
End handlers.
