(* ===== verification/Ec2Props.v ===== *)
(** * The EC2 frontend: properties

    Sessions of a client with the instances and volumes over HTTP are runs of an
    abstract fleet, whatever other requests come between; and what the frontend
    reads of a request and ignores. *)

From S2P Require Import Prelude GoStrings GoBytes GoHttp GoUrl SigV4 AwsQuery Ec2Query Stores Compute ComputeProps Ec2.

(** ** The fleet *)

Record machine := mkMachine { m_image : string; m_type : string; m_subnet : string; m_key : string; m_state : string }.
(** A disk is attached to a machine as a device, or to none. *)
Record disk := mkDisk { k_size : Z; k_zone : string; k_attached : option (string * string) }.
Definition fleet : Type := gmap string machine * gmap string disk.

Definition machine_of (i : Instance_) : machine :=
  mkMachine (I_ImageID i) (I_InstanceType i) (I_SubnetID i) (I_KeyName i) (I_State i).
Definition disk_of (v : Volume) : disk :=
  mkDisk (V_SizeGiB v) (V_Zone v)
    (if decide (V_State v = VolumeStateInUse) then Some (V_InstanceID v, V_DeviceName v) else None).
Definition fleet_of (b : Backend) : fleet := (machine_of <$> instances b, disk_of <$> volumes b).

Inductive power := PowerOn | PowerOff | PowerAway.
Definition power_state (p : power) : string :=
  match p with PowerOn => InstanceStateRunning | PowerOff => InstanceStateStopped | PowerAway => InstanceStateTerminated end.
(** The state that is answered as the one before, whatever it was. *)
Definition power_before (p : power) : string :=
  match p with PowerOn => InstanceStateStopped | _ => InstanceStateRunning end.

Inductive command :=
  | Launch (image type subnet key : string) (count : Z)
  | Switch (p : power) (ids : list string)
  | Reboot (ids : list string)
  | Describe (ids : list string)
  | NewVolume (size : Z) (zone : string)
  | DropVolume (vol : string)
  | Attach (vol inst dev : string)
  | Detach (vol : string)
  | DescribeDisks (ids : list string).

Definition command_op (c : command) : ec2_op :=
  match c with
  | Launch _ _ _ _ _ => RunInstancesHandler
  | Switch PowerOn _ => StartInstancesHandler
  | Switch PowerOff _ => StopInstancesHandler
  | Switch PowerAway _ => TerminateInstancesHandler
  | Reboot _ => RebootInstancesHandler
  | Describe _ => DescribeInstancesHandler
  | NewVolume _ _ => CreateVolumeHandler
  | DropVolume _ => DeleteVolumeHandler
  | Attach _ _ _ => AttachVolumeHandler
  | Detach _ => DetachVolumeHandler
  | DescribeDisks _ => DescribeVolumesHandler
  end.

Definition id_fields (name : string) (i : Z) (v : string) : list (string * string) := [(flat_key name i, v)].
Definition command_fields (c : command) : list (string * string) :=
  match c with
  | Launch image type subnet key count =>
      [("ImageId", image); ("InstanceType", type); ("SubnetId", subnet); ("KeyName", key); ("MinCount", Itoa count);
       ("MaxCount", Itoa count)]
  | Switch _ ids | Reboot ids | Describe ids => blocks (id_fields "InstanceId") ids
  | NewVolume size zone => [("Size", Itoa size); ("AvailabilityZone", zone)]
  | DropVolume vol | Detach vol => [("VolumeId", vol)]
  | Attach vol inst dev => [("VolumeId", vol); ("InstanceId", inst); ("Device", dev)]
  | DescribeDisks ids => blocks (id_fields "VolumeId") ids
  end.
Definition command_form (c : command) : list (string * string) := ("Action", op_name (command_op c)) :: command_fields c.

(** What a client can send: numbers of 32 bits, identifiers that are not empty,
    and a form within the limit. *)
Definition sendable (c : command) : Prop :=
  small (command_form c) ∧
  match c with
  | Launch _ _ _ _ count => 1 <= count < 2 ^ 31
  | NewVolume size _ => in_s 32 size
  | Switch _ ids | Reboot ids | Describe ids | DescribeDisks ids => Forall (λ id, id ≠ "") ids
  | _ => True
  end.

(** ** What the fleet answers *)

Abbreviation answer := (Response (payload output)).

Definition shows (id : string) (m : machine) (g : gen_Instance) : Prop :=
  gi_InstanceId g = id ∧ gi_ImageId g = m_image m ∧ gi_InstanceType g = m_type m ∧
  gi_State g = domainStateToGen (m_state m) ∧ gi_SubnetId g = unless_empty (m_subnet m) ∧
  gi_KeyName g = unless_empty (m_key m).
Definition shows_disk (id : string) (k : disk) (g : gen_Volume) : Prop :=
  gvo_VolumeId g = id ∧ gvo_Size g = wrap_s 32 (k_size k) ∧ gvo_AvailabilityZone g = k_zone k ∧
  gvo_State g = match k_attached k with Some _ => VolumeStateInUse | None => VolumeStateAvailable end ∧
  gvo_Attachments g = match k_attached k with
                      | Some (inst, dev) => [mkGenVolumeAttachment id inst dev VolumeAttachmentStateAttached]
                      | None => []
                      end.

Definition done_with (c : command) (x : option output) : answer := WriteResult (op_name (command_op c)) x.
Definition refused (message : string) : answer := WriteError 400 "InvalidParameterValue" message.

Definition set_state (state : string) (m : machine) : machine :=
  mkMachine (m_image m) (m_type m) (m_subnet m) (m_key m) state.
Definition switch (state : string) (ids : list string) (ms : gmap string machine) : gmap string machine :=
  fold_left (λ ms id, alter (set_state state) id ms) ids ms.
Definition put_disk (a : option (string * string)) (k : disk) : disk := mkDisk (k_size k) (k_zone k) a.

(** The machines that a description shows: those it names, or all that are not
    terminated. *)
Definition selected (ids : list string) (id : string) (m : machine) : Prop :=
  if decide (ids = []) then m_state m ≠ InstanceStateTerminated else id ∈ ids.

Inductive fleet_step : command → fleet → answer → fleet → Prop :=
  | step_launch image type subnet key count ms ks rid insts :
      image ≠ "" → type ≠ "" → length insts = Z.to_nat count →
      let m := mkMachine image type subnet key InstanceStateRunning in
      NoDup (gi_InstanceId <$> insts) → Forall (λ g, ms !! gi_InstanceId g = None ∧ shows (gi_InstanceId g) m g) insts →
      fleet_step (Launch image type subnet key count) (ms, ks)
        (WriteResult "RunInstances" (Some (ReservationResult (mkGenReservation rid owner insts))))
        (list_to_map ((λ g, (gi_InstanceId g, m)) <$> insts) ∪ ms, ks)
  | step_launch_refused image type subnet key count f :
      image = "" ∨ type = "" →
      let field := if String.eqb image "" then "ImageID" else "InstanceType" in
      fleet_step (Launch image type subnet key count) f
        (WriteError 500 "InternalError" ("validation error on field " +:+ field +:+ ": required")) f
  | step_switch p ids ms ks :
      Forall (λ id, is_Some (ms !! id)) ids →
      let change id := mkGenInstanceStateChange id (domainStateToGen (power_state p)) (domainStateToGen (power_before p)) in
      fleet_step (Switch p ids) (ms, ks) (done_with (Switch p ids) (Some (StateChangesResult (change <$> ids))))
        (switch (power_state p) ids ms, ks)
  | step_switch_unknown p ids id ids' ms ks :
      Forall (λ id, is_Some (ms !! id)) ids → ms !! id = None →
      fleet_step (Switch p (ids ++ id :: ids')) (ms, ks) (refused "not found") (switch (power_state p) ids ms, ks)
  | step_reboot ids f :
      Forall (λ id, is_Some (f.1 !! id)) ids → fleet_step (Reboot ids) f (done_with (Reboot ids) None) f
  | step_reboot_unknown ids id f :
      id ∈ ids → f.1 !! id = None → fleet_step (Reboot ids) f (refused "not found") f
  | step_describe ids insts f :
      NoDup (gi_InstanceId <$> insts) →
      Forall (λ g, ∃ m, f.1 !! gi_InstanceId g = Some m ∧ shows (gi_InstanceId g) m g) insts →
      (∀ id, id ∈ gi_InstanceId <$> insts ↔ ∃ m, f.1 !! id = Some m ∧ selected ids id m) →
      fleet_step (Describe ids) f
        (WriteResult "DescribeInstances" (Some (ReservationsResult
           (if decide (insts = []) then [] else [mkGenReservation "r-shim" owner insts])))) f
  | step_new_volume size zone id g ms ks :
      ks !! id = None → let k := mkDisk size zone None in shows_disk id k g →
      fleet_step (NewVolume size zone) (ms, ks) (WriteResult "CreateVolume" (Some (VolumeResult g))) (ms, <[id := k]> ks)
  | step_drop vol k ms ks :
      ks !! vol = Some k → fleet_step (DropVolume vol) (ms, ks) (WriteResult "DeleteVolume" None) (ms, delete vol ks)
  | step_drop_unknown vol f : f.2 !! vol = None → fleet_step (DropVolume vol) f (refused "not found") f
  | step_attach vol inst dev k ms ks :
      ks !! vol = Some k → k_attached k = None → is_Some (ms !! inst) →
      let dev' := if String.eqb dev "" then "/dev/sdf" else dev in
      fleet_step (Attach vol inst dev) (ms, ks)
        (WriteResult "AttachVolume" (Some (VolumeAttachmentResult
           (mkGenVolumeAttachment vol inst dev' VolumeAttachmentStateAttached))))
        (ms, <[vol := put_disk (Some (inst, dev')) k]> ks)
  | step_attach_busy vol inst dev k f :
      f.2 !! vol = Some k → k_attached k ≠ None → fleet_step (Attach vol inst dev) f (refused "already exists") f
  | step_attach_unknown vol inst dev f :
      f.2 !! vol = None ∨ (∃ k, f.2 !! vol = Some k ∧ k_attached k = None) ∧ f.1 !! inst = None →
      fleet_step (Attach vol inst dev) f (refused "not found") f
  | step_detach vol k ms ks :
      ks !! vol = Some k →
      let from := default ("", "") (k_attached k) in
      fleet_step (Detach vol) (ms, ks)
        (WriteResult "DetachVolume" (Some (VolumeAttachmentResult
           (mkGenVolumeAttachment vol from.1 from.2 VolumeAttachmentStateDetached))))
        (ms, <[vol := put_disk None k]> ks)
  | step_detach_unknown vol f : f.2 !! vol = None → fleet_step (Detach vol) f (refused "not found") f
  | step_describe_disks ids vols f :
      NoDup (gvo_VolumeId <$> vols) →
      Forall (λ g, ∃ k, f.2 !! gvo_VolumeId g = Some k ∧ shows_disk (gvo_VolumeId g) k g) vols →
      (∀ id, id ∈ gvo_VolumeId <$> vols ↔ is_Some (f.2 !! id) ∧ (ids = [] ∨ id ∈ ids)) →
      fleet_step (DescribeDisks ids) f (WriteResult "DescribeVolumes" (Some (VolumesResult vols))) f.

(** ** The backend's operations on the fleet *)

Implicit Types (b : Backend).

Abbreviation machines b := (machine_of <$> instances b).

Lemma machine_known b id : is_Some (machines b !! id) ↔ is_Some (instances b !! id).
Proof. rewrite lookup_fmap. apply fmap_is_Some. Qed.

Lemma machine_lookup b id i : instances b !! id = Some i → machines b !! id = Some (machine_of i).
Proof. intros Hi. by rewrite lookup_fmap, Hi. Qed.

Lemma switch_one state id i b :
  instances b !! id = Some i →
  machine_of <$> <[id := with_state i state]> (instances b) = alter (set_state state) id (machines b).
Proof.
  intros Hi. apply map_eq. intros k. rewrite fmap_insert. destruct (decide (k = id)) as [->|].
  - by rewrite lookup_insert_eq, lookup_alter_eq, lookup_fmap, Hi.
  - by rewrite lookup_insert_ne, lookup_alter_ne.
Qed.

Lemma state_loop_switches state ids b out :
  store_ok I_ID "i" (instSeq b) (instances b) →
  let '(b', r) := state_loop state ids b out in
  volumes b' = volumes b ∧
  ((∃ l, r = Ok (out ++ l) ∧ ((λ i, (I_ID i, I_State i)) <$> l) = ((λ id, (id, state)) <$> ids) ∧
     Forall (λ id, is_Some (machines b !! id)) ids ∧ machines b' = switch state ids (machines b)) ∨
   (∃ ids1 id ids2, r = Err (Sentinel ErrNotFound) ∧ ids = ids1 ++ id :: ids2 ∧
     Forall (λ id, is_Some (machines b !! id)) ids1 ∧ machines b !! id = None ∧
     machines b' = switch state ids1 (machines b))).
Proof.
  revert b out. induction ids as [|id ids IH]; intros b out Hb; cbn [state_loop].
  { split; [done|]. left. exists []. by rewrite app_nil_r. }
  destruct (instances b !! id) as [i|] eqn:Hi.
  2:{ split; [done|]. right. exists [], id, ids. split_and!; [done|done|by apply Forall_nil|by rewrite lookup_fmap, Hi|done]. }
  set (b1 := set_instances b _ _). pose proof (switch_one state id i b Hi) as E1.
  assert (∀ k, is_Some (machines b1 !! k) ↔ is_Some (machines b !! k)) as Hk.
  { intros k. cbn [instances b1 set_instances]. rewrite E1. destruct (decide (k = id)) as [->|].
    - rewrite lookup_alter_eq. apply fmap_is_Some.
    - by rewrite lookup_alter_ne. }
  assert (I_ID i = id) as Hid by (by destruct Hb as [_ Hb]; destruct (Hb _ _ Hi)).
  specialize (IH b1 (out ++ [with_state i state])). destruct (state_loop state ids b1 _) as [b' r].
  destruct IH as (Hv & IH); [by eapply store_update|]. split; [done|].
  destruct IH as [(l & -> & El & Hf & Em)|(ids1 & id' & ids2 & -> & -> & Hf & Hn & Em)]; [left|right].
  - exists (with_state i state :: l). rewrite <-app_assoc. split; [done|]. cbn. rewrite El, Hid. split; [done|]. split.
    + apply Forall_cons. split; [by rewrite lookup_fmap, Hi|]. eapply Forall_impl; [exact Hf|]. intros k Hk'. by apply Hk.
    + rewrite Em. cbn. by rewrite E1.
  - exists (id :: ids1), id', ids2. split_and!; [done|done| | |].
    + apply Forall_cons. split; [by rewrite lookup_fmap, Hi|]. eapply Forall_impl; [exact Hf|]. intros k Hk'. by apply Hk.
    + apply eq_None_not_Some. intros H%Hk. by apply eq_None_not_Some in Hn.
    + rewrite Em. cbn. by rewrite E1.
Qed.

Lemma RebootInstances_known ids b :
  (Forall (λ id, is_Some (machines b !! id)) ids ∧ RebootInstances ids b = (b, Ok ())) ∨
  (∃ id, id ∈ ids ∧ machines b !! id = None ∧ RebootInstances ids b = (b, Err (Sentinel ErrNotFound))).
Proof.
  induction ids as [|id ids IH]; cbn; [left; split; [by apply Forall_nil|done]|].
  destruct (instances b !! id) as [i|] eqn:Hi.
  - destruct IH as [[Hf ->]|(id' & Hid & Hn & ->)].
    + left. split; [|done]. apply Forall_cons. by rewrite lookup_fmap, Hi.
    + right. exists id'. split_and!; [by right|done|done].
  - right. exists id. split_and!; [by left|by rewrite lookup_fmap, Hi|done].
Qed.

(** Identifiers that a launch does not make are left alone. *)
Lemma launch_loop_others turns opt b out id :
  0 <= instSeq b → instSeq b + Z.of_nat turns < 2 ^ 63 - 1 →
  (∀ k, (k < turns)%nat → id ≠ nextID "i" (instSeq b + Z.of_nat k)) →
  instances (launch_loop turns opt b out).1 !! id = instances b !! id.
Proof.
  revert b out. induction turns as [|turns IH]; intros b out H0 Hn Hid; cbn [launch_loop]; [done|].
  assert (bump (instSeq b) = instSeq b + 1) as Hb by (unfold bump; apply wrap_s_small; unfold in_s; lia).
  rewrite IH; cbn [instSeq set_instances]; rewrite ?Hb; [| lia | lia |].
  - cbn. apply lookup_insert_ne. intros E. apply (Hid O); [lia|]. by rewrite Z.add_0_r, <-E.
  - intros k Hk. rewrite <-Z.add_assoc. replace (1 + Z.of_nat k) with (Z.of_nat (S k)) by lia. apply Hid. lia.
Qed.

(** The launched instances and what they add to the fleet. *)
Lemma launch_adds opt b n :
  comp_inv b → seqs_below n b → n + launch_count opt < 2 ^ 63 - 1 → ri_ImageID opt ≠ "" → ri_InstanceType opt ≠ "" →
  ∃ b' l, RunInstances opt b = (b', Ok l) ∧ length l = Z.to_nat (launch_count opt) ∧ NoDup (I_ID <$> l) ∧
    Forall (λ i, instances b !! I_ID i = None ∧ ∃ s, i = new_instance opt s) l ∧
    instances b' = list_to_map ((λ i, (I_ID i, i)) <$> l) ∪ instances b ∧ volumes b' = volumes b.
Proof.
  intros Hb Hs Hn Hi Ht. unfold RunInstances. apply String.eqb_neq in Hi, Ht. rewrite Hi, Ht.
  pose proof (launch_count_pos opt). set (turns := Z.to_nat (launch_count opt)).
  assert (0 <= instSeq b <= n) as [H0 Hle] by (split; [by destruct (ci_instances b Hb)|by apply Hs]).
  destruct (launch_loop_spec turns opt b [] n Hb Hs ltac:(lia)) as (_ & _ & _ & El & Hold & Hnew & _ & Hv).
  pose proof (λ id, launch_loop_others turns opt b [] id H0 ltac:(lia)) as Hoth.
  destruct (launch_loop turns opt b []) as [b' l]. cbn [fst snd app] in *. exists b', l.
  assert (NoDup (I_ID <$> l)) as Hnd.
  { rewrite El, <-list_fmap_compose. apply NoDup_fmap_2_strong; [|apply NoDup_seq]. intros x y Hx%elem_of_seq Hy%elem_of_seq E.
    unfold compose in E. cbn in E. apply (seq_id_inj "i") in E; lia. }
  assert (∀ i, i ∈ l ↔ ∃ k, (k < turns)%nat ∧ i = new_instance opt (instSeq b + Z.of_nat k)) as Hl.
  { intros i. rewrite El, list_elem_of_fmap. setoid_rewrite elem_of_seq. split; intros (k & H1 & H2); exists k; (split; [lia || done|lia || done]). }
  split_and!; [done| |done| | |done].
  - by rewrite El, length_fmap, length_seq.
  - apply Forall_forall. intros i (k & Hk & ->)%Hl. split; [|by eexists].
    change (I_ID (new_instance opt ?s)) with (nextID "i" s). destruct (instances b !! _) as [x|] eqn:E; [|done].
    destruct (ci_instances b Hb) as [_ Hm]. destruct (Hm _ _ E) as (_ & m & Hm' & Em). apply (seq_id_inj "i") in Em; lia.
  - apply map_eq. intros id. destruct (decide (id ∈ I_ID <$> l)) as [Hin|Hnin].
    + apply list_elem_of_fmap in Hin as (i & -> & Hin). pose proof Hin as (k & Hk & ->)%Hl.
      transitivity (Some (new_instance opt (instSeq b + Z.of_nat k))); [by apply Hnew|]. symmetry.
      apply lookup_union_Some_l, elem_of_list_to_map.
      * rewrite <-list_fmap_compose. exact Hnd.
      * apply list_elem_of_fmap. eexists. split; [|exact Hin]. done.
    + rewrite lookup_union_r.
      * apply Hoth. intros k Hk ->. apply Hnin, list_elem_of_fmap. eexists. split; [|apply Hl; by exists k]. done.
      * apply not_elem_of_list_to_map. by rewrite <-list_fmap_compose.
Qed.

(** ** Listings *)

Section listing.
Context {V : Type} (id : V → string) (prefix : string) (seq : Z) (m : gmap string V) (order : list string).
Context (P : V → Prop) `{∀ x, Decision (P x)}.

Lemma listing_exact :
  store_ok id prefix seq m → order ≡ₚ (map_to_list m).*1 →
  let l := sort_by (by_key id) (filter P (omap (λ k, m !! k) order)) in
  NoDup (id <$> l) ∧ ∀ x, x ∈ l ↔ m !! id x = Some x ∧ P x.
Proof.
  intros Hm Ho l.
  assert (∀ x, x ∈ l ↔ m !! id x = Some x ∧ P x) as Hl.
  { intros x. unfold l. rewrite elem_of_sort_by, list_elem_of_filter, elem_of_omap_lookup by done.
    rewrite (and_comm (P x)). f_equiv. destruct Hm as [_ Hm]. split; [|by eexists].
    intros [k Hk]. by destruct (Hm _ _ Hk) as [-> _]. }
  split; [|done]. apply NoDup_fmap_2_strong.
  - intros x y [Hx _]%Hl [Hy _]%Hl E. rewrite E in Hx. congruence.
  - by apply NoDup_sort_by, NoDup_filter, (store_NoDup id prefix seq).
Qed.
End listing.

(** ** One command over HTTP *)

Section serve.
Context (Quote : string → string) (params : string → string → string * option string).
Context (range : gmap string string → list (string * string)).
Implicit Types (now : Time) (d : list string).

Definition ec2_serve now d (r : Request) b : Backend * option answer :=
  Ec2_ServeHTTP Quote range now (d : Draws Backend) params r b.

Lemma ec2_serve_form now d o kvs b :
  small (("Action", op_name o) :: kvs) →
  ec2_serve now d (form_post (("Action", op_name o) :: kvs)) b =
    handle Quote range now (d : Draws Backend) o (form_of (("Action", op_name o) :: kvs)) b.
Proof. intros Hs. apply ec2_query_form; [done|by destruct o|by destruct o]. Qed.

(** The call of the domain that a command is decoded to, and its answer. *)
Definition launch_options (image type subnet key : string) (count : Z) : RunInstancesOptions :=
  mkRunInstancesOptions image type count count "" subnet [] key "" None.
Definition domain_call now d (c : command) b : Backend * api output :=
  match c with
  | Launch image type subnet key count =>
      call Quote (RunInstances (launch_options image type subnet key count) b) (reservation now)
  | Switch PowerOn ids => Adapter_StartInstances Quote ids b
  | Switch PowerOff ids => Adapter_StopInstances Quote ids b
  | Switch PowerAway ids => Adapter_TerminateInstances Quote ids b
  | Reboot ids => Adapter_RebootInstances Quote ids b
  | Describe ids => call Quote (DescribeInstances d (mkDescribeInstancesOptions ids []) b) (λ l,
      Ok (ReservationsResult match l with [] => [] | _ => [mkGenReservation "r-shim" owner (domainInstanceToGen now <$> l)] end))
  | NewVolume size zone => call Quote (CreateVolume (mkCreateVolumeOptions size "" zone "" None) b)
      (λ vol, Ok (VolumeResult (domainVolumeToGen range now vol)))
  | DropVolume vol => Adapter_DeleteVolume Quote vol b
  | Attach vol inst dev => Adapter_AttachVolume Quote (mkAttachVolumeRequest dev inst vol) b
  | Detach vol => Adapter_DetachVolume Quote (mkDetachVolumeRequest None vol) b
  | DescribeDisks ids => Adapter_DescribeVolumes Quote range now d ids b
  end.

Lemma ids_decoded name action ids :
  Forall (λ id, id ≠ "") ids → (∀ i, flat_key name i ≠ "Action") →
  decode_ids (form_of (("Action", action) :: blocks (id_fields name) ids)) name = ids.
Proof.
  intros Hids Hn. apply (members_numbered [("Action", action)] (flat_key name)); [apply flat_key_inj|intros i v|done].
  intros H%list_elem_of_singleton. injection H as E _. by apply (Hn i).
Qed.

Lemma no_filter action ids :
  state_filter (form_of (("Action", action) :: blocks (id_fields "InstanceId") ids)) = [].
Proof.
  unfold state_filter, filters. rewrite members_none; [done|]. apply Query_Get_absent.
  intros v [H|H]%elem_of_cons; [by simplify_eq|]. apply elem_of_blocks in H as (n & x & _ & H%list_elem_of_singleton).
  by injection H.
Qed.

(** The handlers of the commands, unfolded. *)
Ltac command_handlers :=
  cbn [Adapter_serve];
  unfold serve_RunInstances, serve_DescribeInstances, serve_StartInstances, serve_StopInstances,
      serve_TerminateInstances, serve_RebootInstances, serve_CreateVolume, serve_DeleteVolume,
      serve_DescribeVolumes, serve_AttachVolume, serve_DetachVolume.

Lemma ec2_command_decoded now d c b :
  sendable c →
  Adapter_serve Quote range now (d : Draws Backend) (command_op c) (form_of (command_form c)) b = domain_call now d c b.
Proof.
  intros [_ Hc]. destruct c as [image type subnet key count|p ids|ids|ids|size zone|vol|vol inst dev|vol|ids];
    unfold command_form; cbn [command_op command_fields domain_call op_name].
  - command_handlers. unfold Adapter_RunInstances, decode_RunInstances, launch_options.
    cbn [rir_ImageId rir_InstanceType rir_KeyName rir_MaxCount rir_MinCount rir_SecurityGroupIds rir_SubnetId rir_UserData].
    rewrite !form_field_default, members_none by (change (flat_key "SecurityGroupId" 1) with "SecurityGroupId.1"; by form_fields).
    rewrite !(form_int32_Itoa _ _ count); [|unfold in_s; lia|by form_fields|unfold in_s; lia|by form_fields].
    form_fields. change (default "" None) with "". cbn [default].
    by destruct (String.eqb_spec type "") as [->|].
  - destruct p; command_handlers; by rewrite ids_decoded.
  - command_handlers. by rewrite ids_decoded.
  - command_handlers. unfold Adapter_DescribeInstances. by rewrite ids_decoded, no_filter.
  - command_handlers. unfold Adapter_CreateVolume, decode_CreateVolume.
    cbn [cvr_AvailabilityZone cvr_Size cvr_SnapshotId cvr_VolumeType]. rewrite !form_field_default.
    rewrite (form_int32_Itoa _ _ size); [|done|by form_fields]. by form_fields.
  - command_handlers. by form_fields.
  - command_handlers. unfold decode_AttachVolume. by form_fields.
  - command_handlers. unfold decode_DetachVolume, form_field. by form_fields.
  - command_handlers. by rewrite ids_decoded.
Qed.

Lemma written_ok now d c b x :
  sendable c → (domain_call now d c b).2 = Ok x →
  ec2_serve now d (form_post (command_form c)) b = ((domain_call now d c b).1, Some (done_with c (written x))).
Proof.
  intros Hc E. pose proof Hc as [Hs _].
  rewrite (ec2_serve_form now d (command_op c) (command_fields c) b Hs : ec2_serve now d (form_post (command_form c)) b = _).
  unfold handle, reply. fold (command_form c). by rewrite ec2_command_decoded, E.
Qed.

Lemma written_error now d c b e :
  sendable c → (domain_call now d c b).2 = Err (mapDomainErr Quote e) →
  ec2_serve now d (form_post (command_form c)) b =
    ((domain_call now d c b).1, Some (WriteBackendError (mapDomainErr Quote e))).
Proof.
  intros Hc E. pose proof Hc as [Hs _].
  rewrite (ec2_serve_form now d (command_op c) (command_fields c) b Hs : ec2_serve now d (form_post (command_form c)) b = _).
  unfold handle, reply. fold (command_form c). by rewrite ec2_command_decoded, E.
Qed.

(** What [RunInstances] launches is what was asked for. *)
Definition launched (opt : RunInstancesOptions) : machine :=
  mkMachine (ri_ImageID opt) (ri_InstanceType opt) (ri_SubnetID opt) (ri_KeyName opt) InstanceStateRunning.
Lemma launched_shown now opt s :
  shows (I_ID (new_instance opt s)) (launched opt) (domainInstanceToGen now (new_instance opt s)).
Proof. done. Qed.

Lemma launched_machines now opt l :
  Forall (λ i, ∃ s, i = new_instance opt s) l →
  machine_of <$> (list_to_map ((λ i, (I_ID i, i)) <$> l) : gmap string Instance_) =
    list_to_map ((λ g, (gi_InstanceId g, launched opt)) <$> (domainInstanceToGen now <$> l)).
Proof.
  induction 1 as [|i l [s ->] _ IH]; [apply fmap_empty|]. cbn [fmap list_fmap list_to_map foldr] in *.
  rewrite fmap_insert. f_equal. exact IH.
Qed.

Definition serves now d (c : command) b : Prop :=
  ∃ b' r, ec2_serve now d (form_post (command_form c)) b = (b', Some r) ∧ b' = (domain_call now d c b).1 ∧
    fleet_step c (fleet_of b) r (fleet_of b').

Lemma launch_served now d image type subnet key count b n :
  comp_inv b → seqs_below n b → n + count < 2 ^ 63 - 1 → sendable (Launch image type subnet key count) →
  serves now d (Launch image type subnet key count) b.
Proof.
  intros Hb Hs Hn Hc. pose proof Hc as [_ Hcount]. unfold serves. set (opt := launch_options image type subnet key count).
  assert (launch_count opt = count) as Hlc.
  { unfold launch_count. cbn. repeat case_match; lia. }
  destruct (decide (image = "")) as [Hi|Hi]; [|destruct (decide (type = "")) as [Ht|Ht]].
  - eexists _, _. split; [apply (written_error _ _ _ _ (ValidationError "ImageID" "required") Hc)|split; [done|]].
    + cbn. unfold RunInstances. cbn. by rewrite Hi.
    + cbn. unfold RunInstances. cbn. rewrite Hi. cbn. apply (step_launch_refused "" type). by left.
  - apply String.eqb_neq in Hi as Hi'. eexists _, _.
    split; [apply (written_error _ _ _ _ (ValidationError "InstanceType" "required") Hc)|split; [done|]].
    + cbn. unfold RunInstances. cbn. by rewrite Hi', Ht.
    + cbn. unfold RunInstances. cbn. rewrite Hi', Ht. cbn.
      pose proof (step_launch_refused image "" subnet key count (fleet_of b) (or_intror eq_refl)) as H.
      cbn in H. by rewrite Hi' in H.
  - destruct (launch_adds opt b n Hb Hs ltac:(lia) Hi Ht) as (b' & l & E & Hl & Hnd & Hall & Em & Ev).
    destruct l as [|i l]; [cbn in Hl; lia|]. eexists _, _. split; [apply written_ok; [done|]|].
    { cbn. fold opt. by rewrite E. }
    split; [done|]. cbn [domain_call]. fold opt. rewrite E. cbn [call fst]. unfold fleet_of. rewrite Em, Ev, map_fmap_union.
    rewrite (launched_machines now opt); [|eapply Forall_impl; [exact Hall|]; by intros x [_ Hx]].
    apply (step_launch image type subnet key count (machines b) (disk_of <$> volumes b) _
      (domainInstanceToGen now <$> (i :: l)) Hi Ht).
    + by rewrite length_fmap, Hl, Hlc.
    + rewrite <-list_fmap_compose. exact Hnd.
    + apply Forall_fmap. eapply Forall_impl; [exact Hall|]. intros x [Hx [s ->]].
      cbn [compose domainInstanceToGen gi_InstanceId]. rewrite lookup_fmap, Hx. split; [done|]. apply launched_shown.
Qed.

Lemma switch_served now d p ids b :
  comp_inv b → sendable (Switch p ids) → serves now d (Switch p ids) b.
Proof.
  intros Hb Hc. unfold serves.
  assert (domain_call now d (Switch p ids) b = call Quote (state_loop (power_state p) ids b []) (λ l,
    Ok (StateChangesResult (state_change (power_before p) <$> l)))) as E by (by destruct p).
  pose proof (state_loop_switches (power_state p) ids b [] (ci_instances b Hb)) as H.
  destruct (state_loop (power_state p) ids b []) as [b' r]. destruct H as [Hv [(l & -> & El & Hf & Em)|H]].
  - eexists _, _. split; [apply written_ok; [done|by rewrite E]|]. split; [done|]. rewrite E. cbn [fst call written].
    unfold fleet_of. rewrite Em, Hv.
    replace (state_change (power_before p) <$> [] ++ l) with
      ((λ id, mkGenInstanceStateChange id (domainStateToGen (power_state p)) (domainStateToGen (power_before p))) <$> ids);
      [by apply step_switch|].
    transitivity ((λ x, mkGenInstanceStateChange x.1 (domainStateToGen x.2) (domainStateToGen (power_before p))) <$>
      ((λ id, (id, power_state p)) <$> ids)); [by rewrite <-list_fmap_compose|]. by rewrite <-El, <-list_fmap_compose.
  - destruct H as (ids1 & id & ids2 & -> & -> & Hf & Hn & Em).
    eexists _, _. split; [apply (written_error _ _ _ _ (Sentinel ErrNotFound) Hc); by rewrite E|]. split; [done|].
    rewrite E. cbn [fst call]. unfold fleet_of. rewrite Em, Hv. by apply step_switch_unknown.
Qed.

Lemma reboot_served now d ids b : sendable (Reboot ids) → serves now d (Reboot ids) b.
Proof.
  intros Hc. unfold serves. destruct (RebootInstances_known ids b) as [[Hf E]|(id & Hid & Hn & E)]; eexists _, _.
  - split; [apply (written_ok _ _ _ _ Void); [done|]; cbn; unfold Adapter_RebootInstances; by cbn; rewrite E|].
    split; [done|]. cbn. rewrite E. by apply step_reboot.
  - split; [apply (written_error _ _ _ _ (Sentinel ErrNotFound) Hc); cbn; by rewrite E|]. split; [done|].
    cbn. rewrite E. by eapply step_reboot_unknown.
Qed.

Lemma described_selected ids i :
  described (mkDescribeInstancesOptions ids []) i = true ↔ selected ids (I_ID i) (machine_of i).
Proof.
  unfold described, selected, wanted, wantedIDSet. cbn. destruct ids as [|x ids].
  - rewrite !(bool_decide_eq_true_2 (_ = ∅)) by done. cbn. by rewrite negb_true_iff, String.eqb_neq.
  - rewrite decide_False by done. rewrite !(bool_decide_eq_false_2 (list_to_set (x :: ids) = ∅)) by set_solver. cbn [orb].
    case_bool_decide as E; rewrite elem_of_list_to_set in E; done.
Qed.

Lemma describe_served now d ids b :
  comp_inv b → d ≡ₚ (map_to_list (instances b)).*1 → sendable (Describe ids) → serves now d (Describe ids) b.
Proof.
  intros Hb Hd Hc. unfold serves. set (opt := mkDescribeInstancesOptions ids []).
  destruct (listing_exact I_ID "i" (instSeq b) (instances b) d (λ i, described opt i = true) (ci_instances b Hb) Hd) as [Hnd Hl].
  cbn [domain_call]. unfold DescribeInstances. fold opt. set (l := sort_by (by_key I_ID) _) in *.
  eexists _, _. split; [apply written_ok; [done|reflexivity]|]. split; [done|]. cbn [fst call written command_op done_with op_name].
  replace (match l with [] => [] | _ => [mkGenReservation "r-shim" owner (domainInstanceToGen now <$> l)] end) with
    (if decide (domainInstanceToGen now <$> l = []) then [] else [mkGenReservation "r-shim" owner (domainInstanceToGen now <$> l)])
    by (by destruct l).
  assert (gi_InstanceId <$> (domainInstanceToGen now <$> l) = I_ID <$> l) as Eid by (by rewrite <-list_fmap_compose).
  apply step_describe.
  - by rewrite Eid.
  - apply Forall_fmap, Forall_forall. intros i [Hi _]%Hl. exists (machine_of i). split; [|done].
    by apply machine_lookup.
  - intros id. rewrite Eid, list_elem_of_fmap. cbn [fleet_of fst]. split.
    + intros (i & -> & [Hi Hs]%Hl). exists (machine_of i). split; [by apply machine_lookup|by apply described_selected].
    + intros (m & Hm & Hs). apply lookup_fmap_Some in Hm as (i & <- & Hi).
      destruct (ci_instances b Hb) as [_ Hids]. destruct (Hids _ _ Hi) as [E _]. exists i. split; [done|].
      rewrite <-E in Hi, Hs. apply Hl. split; [done|]. by apply described_selected.
Qed.

Lemma disk_shown now b id v :
  comp_inv b → volumes b !! id = Some v → shows_disk id (disk_of v) (domainVolumeToGen range now v).
Proof.
  intros Hb Hi. pose proof (ci_attached b Hb _ _ Hi) as Hv. destruct (ci_volumes b Hb) as [_ Hids].
  destruct (Hids _ _ Hi) as [<- _]. unfold volume_ok in Hv. unfold shows_disk, disk_of, domainVolumeToGen. cbn.
  destruct (decide (V_State v = VolumeStateInUse)) as [E|]; split_and!; try done; [|by destruct Hv as (-> & _)|by destruct Hv as (_ & -> & _)].
  destruct Hv as [[i Hv] _]. destruct (String.eqb_spec (V_InstanceID v) "") as [E'|]; [|done]. exfalso.
  destruct (ci_instances b Hb) as [_ Hm]. destruct (Hm _ _ Hv) as (_ & n & _ & En). by rewrite E' in En.
Qed.

Lemma disk_lookup b id v : volumes b !! id = Some v → (disk_of <$> volumes b) !! id = Some (disk_of v).
Proof. intros Hv. by rewrite lookup_fmap, Hv. Qed.
Lemma disk_absent b id : volumes b !! id = None → (disk_of <$> volumes b) !! id = None.
Proof. intros Hv. by rewrite lookup_fmap, Hv. Qed.

Lemma new_volume_served now d size zone b n :
  comp_inv b → seqs_below n b → n + 1 < 2 ^ 63 - 1 → sendable (NewVolume size zone) → serves now d (NewVolume size zone) b.
Proof.
  intros Hb Hs Hn Hc. unfold serves. eexists _, _. split; [apply written_ok; [done|reflexivity]|]. split; [done|].
  cbn [domain_call call CreateVolume fst written fleet_of]. unfold fleet_of. cbn [volumes instances set_volumes].
  rewrite fmap_insert. apply (step_new_volume size zone (nextID "vol" (volSeq b))); [|done]. apply disk_absent.
  apply (store_fresh V_ID "vol"); [apply Hb|]. unfold seqs_below in Hs. lia.
Qed.

Lemma drop_served now d vol b : sendable (DropVolume vol) → serves now d (DropVolume vol) b.
Proof.
  intros Hc. unfold serves.
  assert (domain_call now d (DropVolume vol) b = call Quote (DeleteVolume vol b) (λ _, Ok Void)) as E by done.
  unfold DeleteVolume in E. destruct (volumes b !! vol) as [v|] eqn:Hv; eexists _, _.
  - split; [apply (written_ok _ _ _ _ Void Hc); by rewrite E|]. split; [done|]. rewrite E. cbn [call fst]. unfold fleet_of.
    cbn [volumes instances set_volumes]. rewrite fmap_delete. eapply step_drop. by apply disk_lookup.
  - split; [apply (written_error _ _ _ _ (Sentinel ErrNotFound) Hc); by rewrite E|]. split; [done|]. rewrite E.
    by apply step_drop_unknown, disk_absent.
Qed.

Lemma attach_served now d vol inst dev b : sendable (Attach vol inst dev) → serves now d (Attach vol inst dev) b.
Proof.
  intros Hc. unfold serves.
  assert (domain_call now d (Attach vol inst dev) b = call Quote (AttachVolume vol inst dev b)
    (λ att, Ok (VolumeAttachmentResult (domainVolumeAttachmentToGen att)))) as E by done.
  unfold AttachVolume in E. destruct (volumes b !! vol) as [v|] eqn:Hv.
  2:{ eexists _, _. split; [apply (written_error _ _ _ _ (Sentinel ErrNotFound) Hc); by rewrite E|]. split; [done|].
      rewrite E. apply step_attach_unknown. left. by apply disk_absent. }
  destruct (String.eqb_spec (V_State v) VolumeStateInUse) as [Hst|Hst].
  { eexists _, _. split; [apply (written_error _ _ _ _ (Sentinel ErrAlreadyExists) Hc); by rewrite E|]. split; [done|].
    rewrite E. apply (step_attach_busy vol inst dev (disk_of v)); [by apply disk_lookup|].
    unfold disk_of. by rewrite decide_True. }
  assert (k_attached (disk_of v) = None) as Hk by (unfold disk_of; by rewrite decide_False).
  destruct (instances b !! inst) as [i|] eqn:Hi; eexists _, _.
  - split; [apply written_ok; [done|by rewrite E]|]. split; [done|]. rewrite E. cbn [call fst]. unfold fleet_of.
    cbn [volumes instances set_volumes written]. rewrite fmap_insert.
    apply (step_attach vol inst dev (disk_of v)); [by apply disk_lookup|done|eexists; by apply machine_lookup].
  - split; [apply (written_error _ _ _ _ (Sentinel ErrNotFound) Hc); by rewrite E|]. split; [done|]. rewrite E.
    apply step_attach_unknown. right. split; [exists (disk_of v); split; [by apply disk_lookup|done]|].
    cbn. by rewrite lookup_fmap, Hi.
Qed.

Lemma detach_served now d vol b : comp_inv b → sendable (Detach vol) → serves now d (Detach vol) b.
Proof.
  intros Hb Hc. unfold serves.
  assert (domain_call now d (Detach vol) b = call Quote (DetachVolume vol "" b)
    (λ att, Ok (VolumeAttachmentResult (domainVolumeAttachmentToGen att)))) as E by done.
  unfold DetachVolume in E. destruct (volumes b !! vol) as [v|] eqn:Hv; eexists _, _.
  - split; [apply written_ok; [done|by rewrite E]|]. split; [done|]. rewrite E. cbn [call fst]. unfold fleet_of.
    cbn [volumes instances set_volumes written]. rewrite fmap_insert.
    pose proof (step_detach vol (disk_of v) (machines b) (disk_of <$> volumes b) (disk_lookup b vol v Hv)) as H.
    assert (default ("", "") (k_attached (disk_of v)) = (V_InstanceID v, V_DeviceName v)) as Ek.
    { pose proof (ci_attached b Hb _ _ Hv) as Ha. unfold volume_ok in Ha. unfold disk_of. cbn.
      destruct (decide _); [done|]. by destruct Ha as (_ & -> & ->). }
    cbv zeta in H. rewrite Ek in H. exact H.
  - split; [apply (written_error _ _ _ _ (Sentinel ErrNotFound) Hc); by rewrite E|]. split; [done|]. rewrite E.
    by apply step_detach_unknown, disk_absent.
Qed.

Lemma describe_disks_served now d ids b :
  comp_inv b → d ≡ₚ (map_to_list (volumes b)).*1 → sendable (DescribeDisks ids) → serves now d (DescribeDisks ids) b.
Proof.
  intros Hb Hd Hc. unfold serves.
  destruct (listing_exact V_ID "vol" (volSeq b) (volumes b) d
    (λ v, wanted (wantedIDSet ids) (V_ID v) && (String.eqb "" "" || String.eqb (V_InstanceID v) "") = true)
    (ci_volumes b Hb) Hd) as [Hnd Hl].
  set (l := sort_by (by_key V_ID) _) in *.
  assert (domain_call now d (DescribeDisks ids) b = (b, Ok (VolumesResult (domainVolumeToGen range now <$> l)))) as E by done.
  eexists _, _. split; [apply written_ok; [done|by rewrite E]|]. split; [done|]. rewrite E. cbn [fst written].
  assert (gvo_VolumeId <$> (domainVolumeToGen range now <$> l) = V_ID <$> l) as Eid by (by rewrite <-list_fmap_compose).
  apply step_describe_disks.
  - by rewrite Eid.
  - apply Forall_fmap, Forall_forall. intros v [Hv _]%Hl. exists (disk_of v). split; [by apply disk_lookup|by eapply disk_shown].
  - intros id. rewrite Eid, list_elem_of_fmap. cbn [fleet_of snd].
    assert (∀ v, wanted (wantedIDSet ids) (V_ID v) && (String.eqb "" "" || String.eqb (V_InstanceID v) "") = true ↔
      ids = [] ∨ V_ID v ∈ ids) as Hw.
    { intros v. cbn. rewrite andb_true_r. unfold wanted, wantedIDSet.
      rewrite orb_true_iff, !bool_decide_eq_true, elem_of_list_to_set. destruct ids; set_solver. }
    split.
    + intros (v & -> & [Hv Hs]%Hl). split; [eexists; by apply disk_lookup|by apply Hw].
    + intros [[k (v & <- & Hv)%lookup_fmap_Some] Hs]. destruct (ci_volumes b Hb) as [_ Hids].
      destruct (Hids _ _ Hv) as [Ei _]. exists v. split; [done|]. rewrite <-Ei in Hv, Hs. apply Hl. split; [done|]. by apply Hw.
Qed.

(** What a command makes of the backend, as operations of the domain. *)
Definition effect_of (c : command) : list op :=
  match c with
  | Launch image type subnet key count => [OpRunInstances (launch_options image type subnet key count)]
  | Switch PowerOn ids => [OpStartInstances ids]
  | Switch PowerOff ids => [OpStopInstances ids]
  | Switch PowerAway ids => [OpTerminateInstances ids]
  | NewVolume size zone => [OpCreateVolume (mkCreateVolumeOptions size "" zone "" None)]
  | DropVolume vol => [OpDeleteVolume vol]
  | Attach vol inst dev => [OpAttachVolume vol inst dev]
  | Detach vol => [OpDetachVolume vol ""]
  | Reboot _ | Describe _ | DescribeDisks _ => []
  end.

Lemma domain_call_effect now d c b : (domain_call now d c b).1 = run_all (effect_of c) b.
Proof.
  destruct c as [| [] | ids | | | | | | ]; try reflexivity. exact (RebootInstances_state ids b).
Qed.

(** The map that a command ranges over. *)
Definition ranged (c : command) b : list string :=
  match c with DescribeDisks _ => (map_to_list (volumes b)).*1 | _ => (map_to_list (instances b)).*1 end.

Lemma ec2_command_served now d c b n :
  comp_inv b → seqs_below n b → n + total_cost (effect_of c) < 2 ^ 63 - 1 → sendable c → d ≡ₚ ranged c b →
  serves now d c b.
Proof.
  intros Hb Hs Hn Hc Hd. destruct c as [image type subnet key count|p ids|ids|ids|size zone|vol|vol inst dev|vol|ids].
  - apply (launch_served _ _ _ _ _ _ _ _ n); [done|done| |done]. destruct Hc as [_ Hc]. revert Hn. cbn. unfold launch_count. cbn.
    repeat case_match; lia.
  - by apply switch_served.
  - by apply reboot_served.
  - by apply describe_served.
  - by apply (new_volume_served _ _ _ _ _ n).
  - by apply drop_served.
  - by apply attach_served.
  - by apply detach_served.
  - by apply describe_disks_served.
Qed.

(** ** Other requests *)

Definition fleet_ops : list ec2_op :=
  [RunInstancesHandler; DescribeInstancesHandler; StartInstancesHandler; StopInstancesHandler; TerminateInstancesHandler;
   RebootInstancesHandler; CreateVolumeHandler; DeleteVolumeHandler; DescribeVolumesHandler; AttachVolumeHandler;
   DetachVolumeHandler].

(** Operations that do not change instances or volumes, and cost little. *)
Definition aside (o : op) : Prop := cost o <= 2 ∧ ∀ b, instances (run o b) = instances b ∧ volumes (run o b) = volumes b.

Lemma run_all_aside os b : Forall aside os → fleet_of (run_all os b) = fleet_of b.
Proof.
  revert b. induction os as [|o os IH]; intros b Ho; [done|]. apply Forall_cons in Ho as [[_ Ho] Hos].
  change (run_all (o :: os) b) with (run_all os (run o b)). rewrite IH by done. unfold fleet_of.
  by destruct (Ho b) as [-> ->].
Qed.

(** A request that is served [aside]: by operations that leave the fleet alone. *)
Definition served_aside b (c : Backend * api output) : Prop :=
  c.2 ≠ Panic ∧ ∃ os, c.1 = run_all os b ∧ Forall aside os ∧ total_cost os <= 2.

Lemma aside_done b x : served_aside b (b, Ok x).
Proof. split; [done|]. exists []. split_and!; [done|by apply Forall_nil|done]. Qed.

Lemma aside_call {A} b (c : Backend * result A) k o :
  aside o → c.1 = run o b → c.2 ≠ Panic → (∀ a, k a ≠ Panic) → served_aside b (call Quote c k).
Proof.
  intros Ho E Hc Hk. split.
  - unfold call. cbn. by destruct c.2.
  - exists [o]. split_and!; [done|by apply Forall_cons|]. destruct Ho as [Ho _]. cbn. lia.
Qed.

Lemma aside_read {A} b (c : Backend * result A) k :
  c.1 = b → c.2 ≠ Panic → (∀ a, k a ≠ Panic) → served_aside b (call Quote c k).
Proof.
  intros E Hc Hk. split.
  - unfold call. cbn. by destruct c.2.
  - exists []. split_and!; [done|by apply Forall_nil|done].
Qed.

Lemma each_rule_effect (change : SecurityGroupRule → Backend → Backend * result unit) (mk : SecurityGroupRule → op) rules b :
  (∀ r b, (change r b).1 = run (mk r) b ∧ (change r b).2 ≠ Panic) →
  (each_rule change rules b).2 ≠ Panic ∧ ∃ k, (each_rule change rules b).1 = run_all (mk <$> take k rules) b.
Proof.
  intros Hc. revert b. induction rules as [|r rules IH]; intros b; [split; [done|by exists O]|]. cbn [each_rule].
  destruct (Hc r b) as [E Hp]. destruct (change r b) as [b1 [[]|e|]]; cbn [fst snd] in *; [|split; [done|exists 1%nat; exact E]|done].
  destruct (IH b1) as [Hr [k Hk]]. split; [done|]. exists (S k). rewrite Hk. by rewrite E.
Qed.

Lemma aside_rules change (mk : SecurityGroupRule → op) rules b :
  (∀ r b, (change r b).1 = run (mk r) b ∧ (change r b).2 ≠ Panic) → (∀ r, aside (mk r) ∧ cost (mk r) = 0) →
  served_aside b (changed Quote change rules b).
Proof.
  intros Hc Hm. destruct (each_rule_effect change mk rules b Hc) as [Hp [k Hk]]. split.
  - unfold changed, call. cbn. by destruct (each_rule change rules b).2.
  - exists (mk <$> take k rules). split_and!; [done| |].
    + apply Forall_fmap, Forall_forall. intros r _. by apply Hm.
    + assert (∀ l, total_cost (mk <$> l) = 0) as ->; [|done]. intros l. induction l as [|r l IH]; [done|].
      cbn. destruct (Hm r) as [_ ->]. exact IH.
Qed.

Lemma aside_op o :
  match o with
  | OpRunInstances _ | OpStartInstances _ | OpStopInstances _ | OpTerminateInstances _ | OpRebootInstances _
  | OpCreateVolume _ | OpDeleteVolume _ | OpAttachVolume _ _ _ | OpDetachVolume _ _ => False
  | _ => True
  end → aside o.
Proof.
  intros Ho. split; [destruct o; done|]. intros b. destruct o; try done; cbn [run];
    unfold CreateNetwork, DeleteNetwork, CreateSubnet, DeleteSubnet, CreateSecurityGroup, DeleteSecurityGroup, AddRule,
      RemoveRule, AssociatePublicIP, DisassociatePublicIP, ReleasePublicIP, CreateSnapshot, DeleteSnapshot;
    by repeat case_match.
Qed.

(** The operation that a call of the domain is. *)
Ltac aside_operation :=
  let by_op o := apply (aside_call _ _ _ o);
    [by apply aside_op|reflexivity| |done];
    cbn; unfold CreateNetwork, DeleteNetwork, CreateSubnet, DeleteSubnet, CreateSecurityGroup, DeleteSecurityGroup,
      AssociatePublicIP, DisassociatePublicIP, ReleasePublicIP, CreateSnapshot, DeleteSnapshot; by repeat case_match in
  match goal with
  | |- served_aside _ (call _ (x_CreateNetwork ?n ?opt _) _) => by_op (OpCreateNetwork n opt)
  | |- served_aside _ (call _ (x_DeleteNetwork ?i _) _) => by_op (OpDeleteNetwork i)
  | |- served_aside _ (call _ (x_CreateSubnet ?n ?opt _) _) => by_op (OpCreateSubnet n opt)
  | |- served_aside _ (call _ (x_DeleteSubnet ?i _) _) => by_op (OpDeleteSubnet i)
  | |- served_aside _ (call _ (x_CreateSecurityGroup ?n ?opt _) _) => by_op (OpCreateSecurityGroup n opt)
  | |- served_aside _ (call _ (x_DeleteSecurityGroup ?i _) _) => by_op (OpDeleteSecurityGroup i)
  | |- served_aside _ (call _ (x_AllocatePublicIP ?opt _) _) => by_op (OpAllocatePublicIP opt)
  | |- served_aside _ (call _ (x_ReleasePublicIP ?i _) _) => by_op (OpReleasePublicIP i)
  | |- served_aside _ (call _ (x_AssociatePublicIP ?i ?j _) _) => by_op (OpAssociatePublicIP i j)
  | |- served_aside _ (call _ (x_DisassociatePublicIP ?i _) _) => by_op (OpDisassociatePublicIP i)
  | |- served_aside _ (call _ (x_CreateSnapshot ?v ?opt _) _) => by_op (OpCreateSnapshot v opt)
  | |- served_aside _ (call _ (x_DeleteSnapshot ?i _) _) => by_op (OpDeleteSnapshot i)
  end.

Lemma rules_added b id rules : served_aside b (changed Quote (x_AddRule id) rules b).
Proof.
  apply (aside_rules _ (OpAddRule id)); [intros r b'|by intros r; split; [apply aside_op|]].
  split; [done|]. cbn. unfold AddRule. by case_match.
Qed.
Lemma rules_removed b id rules : served_aside b (changed Quote (x_RemoveRule id) rules b).
Proof.
  apply (aside_rules _ (OpRemoveRule id)); [intros r b'|by intros r; split; [apply aside_op|]].
  split; [done|]. cbn. unfold RemoveRule. by case_match.
Qed.

Lemma other_served now d o form b :
  o ∉ fleet_ops → served_aside b (Adapter_serve Quote range now (d : Draws Backend) o form b).
Proof.
  intros Ho. destruct o; try solve [exfalso; apply Ho; unfold fleet_ops; repeat (first [left; reflexivity|right])]; clear Ho;
    cbn [Adapter_serve]; unfold serve_CreateVpc, serve_DeleteVpc, serve_DescribeVpcs, serve_DescribeNetworkInterfaces,
      serve_DescribeVpcAttribute, serve_ModifyVpcAttribute, serve_CreateSubnet, serve_DeleteSubnet,
      serve_DescribeSubnets, serve_ModifySubnetAttribute, serve_CreateSecurityGroup,
      serve_DeleteSecurityGroup, serve_DescribeSecurityGroups, serve_AuthorizeSecurityGroupIngress,
      serve_RevokeSecurityGroupIngress, serve_AuthorizeSecurityGroupEgress,
      serve_RevokeSecurityGroupEgress, serve_DescribeSecurityGroupRules, serve_AllocateAddress,
      serve_ReleaseAddress, serve_AssociateAddress, serve_DisassociateAddress,
      serve_DescribeAddresses, serve_CreateTags, serve_DeleteTags, serve_DescribeTags,
      serve_DescribeImages, serve_DescribeInstanceAttribute, serve_DescribeInstanceStatus,
      serve_CreateSnapshot, serve_DeleteSnapshot, serve_DescribeSnapshots,
      serve_ModifyInstanceAttribute, serve_DescribeInstanceTypes;
    try (by apply aside_done);
    unfold Adapter_CreateVpc, Adapter_DeleteVpc, Adapter_DescribeVpcs, Adapter_CreateSubnet, Adapter_DeleteSubnet,
      Adapter_DescribeSubnets, Adapter_CreateSecurityGroup, Adapter_DeleteSecurityGroup, Adapter_DescribeSecurityGroups,
      Adapter_DescribeSecurityGroupRules, Adapter_AllocateAddress, Adapter_ReleaseAddress, Adapter_AssociateAddress,
      Adapter_DisassociateAddress, Adapter_DescribeAddresses, Adapter_CreateSnapshot, Adapter_DeleteSnapshot,
      Adapter_DescribeSnapshots, Adapter_DescribeInstanceTypes, deleted;
    try (by apply aside_read); try aside_operation; try apply rules_added; try apply rules_removed.
  - case_match; [by apply aside_done|]. apply aside_read; [done| |done]. cbn. by case_match.
  - unfold Adapter_DescribeInstanceAttribute. cbn [x_DescribeInstances inmem_compute]. unfold DescribeInstances.
    repeat case_match; simplify_eq; by apply aside_done.
  - unfold Adapter_DescribeInstanceStatus. case_match; [by apply aside_read|by apply aside_done].
Qed.

(** ** Sessions *)

(** A request that is refused, or is for none of the fleet's operations. *)
Definition beside (r : Request) : Prop :=
  ∀ o form, route Quote params "ec2Query requires POST" (WriteError (X := output)) RegisterEC2Routes r = inr (o, form) →
    o ∉ fleet_ops.

(** A command, whose listing ranges in any order, or any request beside them. *)
Inductive move :=
  | Asks (now : Time) (shuffle : list string → list string) (c : command)
  | Beside (now : Time) (d : list string) (r : Request).
Inductive entry := Answered (c : command) (r : option answer) | Passed (r : option answer).

Definition playable (m : move) : Prop :=
  match m with Asks _ shuffle c => (∀ l, shuffle l ≡ₚ l) ∧ sendable c | Beside _ _ r => beside r end.
Definition move_cost (m : move) : Z := match m with Asks _ _ c => total_cost (effect_of c) | Beside _ _ _ => 2 end.
Definition moves_cost (ms : list move) : Z := foldr (λ m n, move_cost m + n) 0 ms.

Definition play_one (m : move) b : Backend * entry :=
  match m with
  | Asks now shuffle c =>
      let '(b', r) := ec2_serve now (shuffle (ranged c b)) (form_post (command_form c)) b in (b', Answered c r)
  | Beside now d r => let '(b', resp) := ec2_serve now d r b in (b', Passed resp)
  end.
Fixpoint play (ms : list move) b : Backend * list entry :=
  match ms with
  | [] => (b, [])
  | m :: ms => let '(b, e) := play_one m b in let '(b, es) := play ms b in (b, e :: es)
  end.

(** The entries of a session are a run of the fleet. *)
Inductive fleet_run : list entry → fleet → fleet → Prop :=
  | run_nil f : fleet_run [] f f
  | run_answered c r es f f1 f2 : fleet_step c f r f1 → fleet_run es f1 f2 → fleet_run (Answered c (Some r) :: es) f f2
  | run_passed r es f f' : fleet_run es f f' → fleet_run (Passed (Some r) :: es) f f'.

Lemma beside_served now d r b :
  beside r → ∃ os resp, ec2_serve now d r b = (run_all os b, Some resp) ∧ Forall aside os ∧ total_cost os <= 2.
Proof.
  intros Hr. unfold beside in Hr. unfold ec2_serve, Ec2_ServeHTTP, Query_ServeHTTP, ServeHTTP.
  destruct (route _ _ _ _ _ r) as [resp|[o form]].
  - exists [], resp. split_and!; [done|by apply Forall_nil|done].
  - destruct (other_served now d o form b (Hr o form eq_refl)) as [Hp (os & E & Ho & Hc)]. unfold handle, reply.
    rewrite E. destruct (Adapter_serve _ _ _ _ _ _ b).2; [| |done]; by eexists os, _.
Qed.

Lemma moves_cost_nonneg ms : 0 <= moves_cost ms.
Proof.
  unfold moves_cost. induction ms as [|[now sh c|now d r] ms IH]; cbn; [done| |lia]. pose proof (total_cost_nonneg (effect_of c)). lia.
Qed.

Lemma play_refines ms b n :
  comp_inv b → seqs_below n b → n + moves_cost ms < 2 ^ 63 - 1 → Forall playable ms →
  let '(b', es) := play ms b in length es = length ms ∧ fleet_run es (fleet_of b) (fleet_of b').
Proof.
  revert b n. induction ms as [|m ms IH]; intros b n Hb Hs Hn Hm; [split; [done|constructor]|].
  apply Forall_cons in Hm as [Hm Hms]. change (moves_cost (m :: ms)) with (move_cost m + moves_cost ms) in Hn.
  pose proof (moves_cost_nonneg ms) as H0. cbn [play]. destruct m as [now sh c|now d r]; cbn [play_one move_cost playable] in *.
  - destruct Hm as [Hsh Hc]. destruct (ec2_command_served now (sh (ranged c b)) c b n) as (b' & r & -> & -> & Hst); [done|done|lia|done|done|].
    rewrite domain_call_effect in Hst. rewrite domain_call_effect.
    destruct (run_all_comp_inv (effect_of c) b n Hb Hs ltac:(lia)) as [Hb' Hs'].
    specialize (IH _ _ Hb' Hs' ltac:(lia) Hms). destruct (play ms _) as [b2 es]. destruct IH as [Hl Hr]. cbn. rewrite Hl.
    split; [done|]. by econstructor.
  - destruct (beside_served now d r b Hm) as (os & resp & -> & Ho & Hc).
    pose proof (total_cost_nonneg os). destruct (run_all_comp_inv os b n Hb Hs ltac:(lia)) as [Hb' Hs'].
    specialize (IH _ _ Hb' Hs' ltac:(lia) Hms). destruct (play ms _) as [b2 es]. destruct IH as [Hl Hr]. cbn. rewrite Hl.
    split; [done|]. constructor. by rewrite run_all_aside in Hr.
Qed.
End serve.

(** C10: Sessions of an EC2 client with its instances and volumes are runs of a
    fleet.  In any state that the backend's operations reach, let the client send
    any commands over HTTP - launches, starts, stops, terminations, reboots,
    descriptions, volumes created, attached, detached and deleted - and let any
    other requests, well-formed or not, come in between.  Everything is answered,
    and the commands as the fleet says: a launch adds as many machines as were
    asked for under new identifiers, a change of power reaches the identifiers up
    to the first unknown one, a disk is attached to one machine at a time,
    descriptions show exactly the machines and the disks selected, each once and
    as they are, in whatever order the backend ranges over its maps; the other
    requests leave the fleet alone. *)
Theorem ec2_sessions_refine_fleet (Quote : string → string) (params : string → string → string * option string)
    (range : gmap string string → list (string * string)) (os : list op) (ms : list move) :
  total_cost os + moves_cost ms < 2 ^ 63 - 1 → Forall (playable Quote params) ms →
  let b := run_all os New in
  let '(b', es) := play Quote params range ms b in
  length es = length ms ∧ fleet_run es (fleet_of b) (fleet_of b').
Proof.
  intros Hn Hms b. pose proof (moves_cost_nonneg ms).
  destruct (run_all_comp_inv os New 0 New_comp_inv) as [Hb Hs]; [done|lia|].
  by apply (play_refines _ _ _ _ _ (0 + total_cost os)).
Qed.

Definition ec2_demo_params (t : string) (_ : string) : string * option string := (t, None).
Definition ec2_demo_range (m : gmap string string) : list (string * string) := map_to_list m.
Definition ec2_demo_moves : list move :=
  [Asks 7 Datatypes.id (Launch "ami-1" "t3.micro" "subnet-1" "key" 2); Asks 7 Datatypes.id (NewVolume 20 "us-east-1a");
   Beside 8 [] (form_post [("Action", "CreateVpc"); ("CidrBlock", "10.0.0.0/16")]);
   Asks 8 reverse (Attach "vol-00000001" "i-00000002" ""); Asks 8 reverse (Attach "vol-00000001" "i-00000001" "");
   Beside 8 [] (form_post [("Action", "Nothing")]); Asks 8 reverse (Switch PowerOff ["i-00000001"; "i-00000007"; "i-00000002"]);
   Asks 9 reverse (Launch "" "t3.micro" "" "" 1); Asks 9 reverse (Describe []); Asks 9 reverse (DescribeDisks ["vol-00000001"]);
   Asks 9 reverse (Detach "vol-00000001")].
Definition entry_status (e : entry) : option Z :=
  match e with Answered _ r | Passed r => Status <$> r end.

Lemma ec2_demo_playable : Forall (playable Datatypes.id ec2_demo_params) ec2_demo_moves.
Proof.
  assert (∀ l : list string, reverse l ≡ₚ l) as Hr by apply reverse_Permutation.
  assert (∀ kvs o' form', small kvs → route Datatypes.id ec2_demo_params "ec2Query requires POST" (WriteError (X := output))
    RegisterEC2Routes (form_post kvs) = inr (o', form') →
    routes RegisterEC2Routes !! Query_Get (form_of kvs) "Action" = Some o') as Hb.
  { intros kvs o' form' Hs E. unfold route in E. cbn [Method form_post] in E. rewrite ParseForm_post in E by done.
    unfold dispatch in E. cbn [negb String.eqb Ascii.eqb Bool.eqb] in E. repeat case_match; simplify_eq; congruence. }
  unfold ec2_demo_moves. repeat (apply Forall_cons; split); try by apply Forall_nil.
  all: lazymatch goal with
    | |- playable _ _ (Asks _ _ _) => split; [first [exact Hr|reflexivity]|split; [by vm_compute|]]
    | |- playable _ _ (Beside _ _ _) => intros o form E; apply Hb in E; [|by vm_compute]; vm_compute in E
    end.
  all: try done; try discriminate; try (unfold in_s; lia); try (repeat (apply Forall_cons; split); done || by apply Forall_nil).
  injection E as <-. unfold fleet_ops. rewrite !not_elem_of_cons. split_and!; try done. apply not_elem_of_nil.
Qed.

Lemma ec2_sessions_refine_fleet_witness :
  let '(b', es) := play Datatypes.id ec2_demo_params ec2_demo_range ec2_demo_moves New in
  fleet_run es (∅, ∅) (fleet_of b') ∧
  (entry_status <$> es) = Some <$> [200; 200; 200; 200; 400; 400; 400; 500; 200; 200; 200] ∧
  m_state <$> (fleet_of b').1 !! "i-00000001" = Some "stopped" ∧ m_state <$> (fleet_of b').1 !! "i-00000002" = Some "running".
Proof.
  pose proof (ec2_sessions_refine_fleet Datatypes.id ec2_demo_params ec2_demo_range [] ec2_demo_moves) as H.
  cbv zeta in H. change (run_all [] New) with New in H.
  destruct (play Datatypes.id ec2_demo_params ec2_demo_range ec2_demo_moves New) as [b' es] eqn:E.
  destruct H as [_ Hr]; [by vm_compute|exact ec2_demo_playable|]. split; [exact Hr|].
  apply (f_equal (λ p, (entry_status <$> p.2, m_state <$> (fleet_of p.1).1 !! "i-00000001",
    m_state <$> (fleet_of p.1).1 !! "i-00000002"))) in E. cbn [fst snd] in E.
  match type of E with ?x = _ => let y := eval vm_compute in x in change x with y in E end.
  apply pair_equal_spec in E as [E ->]. apply pair_equal_spec in E as [<- ->]. done.
Defined.

(** ** What is read and ignored *)

(** The form's [DryRun] is not looked at: a dry run of a termination terminates. *)
Lemma dry_run_performed :
  let b := (RunInstances (mkRunInstancesOptions "ami-1" "t3.micro" 1 1 "" "" [] "" "" None) New).1 in
  let form := form_of [("Action", "TerminateInstances"); ("DryRun", "true"); ("InstanceId.1", "i-00000001")] in
  I_State <$> instances b !! "i-00000001" = Some InstanceStateRunning ∧
  I_State <$> instances (Adapter_serve Datatypes.id ec2_demo_range 7 ([] : Draws Backend) TerminateInstancesHandler form b).1
    !! "i-00000001" = Some InstanceStateTerminated.
Proof. by vm_compute. Qed.

(** The type of a volume is not decoded: every volume is a gp3 volume. *)
Lemma volume_type_dropped Quote range now (d : list string) form (b : Backend) vol :
  (Adapter_serve Quote range now (d : Draws Backend) CreateVolumeHandler form b).2 = Ok (VolumeResult vol) →
  gvo_VolumeType vol = "gp3".
Proof. cbn. by intros [= <-]. Qed.

(** A revocation given by the flat fields, or by the identifiers of rules, answers
    with success and revokes nothing, also when there is no such group. *)
Lemma flat_revocation_ignored Quote range now (d : list string) form (b : Backend) :
  Query_Get form (flat_field "IpPermissions" "IpProtocol" 1) = "" →
  Adapter_serve Quote range now (d : Draws Backend) RevokeSecurityGroupIngressHandler form b = (b, Ok ReturnTrue).
Proof.
  intros E. cbn [Adapter_serve]. unfold serve_RevokeSecurityGroupIngress, Adapter_RevokeSecurityGroupIngress, decodeFormPermissions. by rewrite members_none.
Qed.
